(* ===== verification/_CoqProject ===== *)
-Q . S2P
Prelude.v
GoStrings.v
Sha256.v
Backoff.v
GoText.v
Aes.v
Platform.v
OrderedConsumer.v
Jobs.v
SubscriptionDomain.v
SubscriptionStore.v
SubscriptionInv.v
SubscriptionSpec.v
SubscriptionPayments.v
SubscriptionPurchases.v
SubscriptionLifecycle.v
SubscriptionService.v
SubscriptionConsumer.v
NodeDomain.v
Xray.v
Systemd.v
NodeAgent.v
NodeAgentSpec.v
ProvisioningDomain.v
ProvisioningStore.v
ProvisioningInv.v
ProvisioningSteps.v
ProvisioningPlacement.v
ProvisioningSpec.v
ProvisioningService.v
ProvisioningWorker.v
ProvisioningEvolution.v
ProvisioningSystem.v
ProvisioningJobs.v
Fleet.v
BillingDomain.v
BillingStore.v
BillingInv.v
BillingSteps.v
BillingSpec.v
BillingService.v
BillingSystem.v
BillingJobs.v
AccessDomain.v
AccessStore.v
AccessInv.v
AccessSteps.v
AccessLifecycle.v
AccessOutcomes.v
AccessSpec.v
AccessDemo.v
AccessProfile.v
AccessCrypto.v
AccessConsumer.v
AccessService.v
AccessProfiles.v
AccessServiceDemo.v
NotificationDomain.v
NotificationStore.v
NotificationInv.v
NotificationSpec.v
NotificationService.v
NotificationJobs.v
NotificationWorker.v
NotificationDemo.v
TelegramBot.v
TelegramWebhook.v
TelegramSpec.v
TelegramJobs.v
TelegramDemo.v
AdminDomain.v
AdminStore.v
AdminSpec.v
AdminService.v
AdminJobs.v
AdminOwners.v
AdminDemo.v
