(* ===== verification/Prelude.v ===== *)
(** * VPN platform: verification library

    A model of the services of the VPN platform (Go, src/services and
    src/internal) and the theorems that make them correct. The services own
    one PostgreSQL database each, exchange events over Kafka through
    transactional outboxes and inboxes, and call each other over HTTP.

    ** The program and the files

    A payment moves through the system as follows. billing-service
    ([Billing*.v]) takes the order, charges it at the payment provider and
    publishes [billing.payment.succeeded.v1]; subscription-service
    ([Subscription*.v]) turns it into a paid period and publishes the status of
    the subscription; access-service ([Access*.v]) issues a credential, sends
    commands to provisioning-service ([Provisioning*.v]), whose workers place
    the credential on two nodes and drive the node agents
    ([NodeDomain.v], [NodeAgent.v]), which rewrite the configuration of
    their Xray process ([Xray.v], [Systemd.v]) and answer. The outcome returns as an event,
    and access-service serves the profile of the credential under a secret URL.
    notification-service ([Notification*.v]) turns the events of all of them
    into messages, which telegram-bot ([Telegram*.v]) delivers; the bot also
    takes the commands of the users, and places their orders. admin-service
    ([Admin*.v]) lets administrators read the state of the others and, on the
    record, have them revoke, retry and recover.

    - [Prelude.v]: results, transactions ([tx], [in_tx], the [let*]
      notations), tables as [gmap]s, and the lemmas and tactics
      every store shares ([atomic], [quiet], [preserves], [tx_auto]);
    - [GoStrings.v], [GoText.v], [Sha256.v], [Aes.v], [Backoff.v],
      [Platform.v]: Go's strings, regular expressions, numerals, base64 and
      URLs, SHA-256, HMAC, AES-256-GCM, the random identifiers of cryptoutil,
      the retry delays with their jitter, the event envelope;
    - [Jobs.v]: programs that call a shared store and other services while the
      rest of the system runs, and triples about them;
      [OrderedConsumer.v]: the consumer loop provisioning-, access- and
      notification-service share, over the class [OrderedAttempts];
    - [SubscriptionDomain.v]: entitlement as the code computes it
      (store.go [calculateEntitlement]) and the specification it refines;
      [SubscriptionStore.v]: the tables and one transaction per method of
      internal/postgres/store.go; [SubscriptionInv.v], [SubscriptionSpec.v]:
      the invariant of the tables, reachability and the properties
      of every reachable database; [SubscriptionPayments.v],
      [SubscriptionPurchases.v], [SubscriptionLifecycle.v]: payments and
      where every period comes from, refunds, administrative
      revocation and due transitions; [SubscriptionService.v]: the
      application layer and the HTTP handlers; [SubscriptionConsumer.v]:
      the Kafka poll loop (internal/kafka/consumer.go);
    - [NodeDomain.v], [NodeAgent.v], [NodeAgentSpec.v]: the desired-state
      service of a node, its state files and HTTP API, for any Xray manager
      that meets the class [XrayManager]; [Xray.v]: the renderer and the
      manager of a child process (manager.go), which is for development;
      [Systemd.v]: the manager of a systemd unit (systemd_manager.go), the
      one staging and production accept; both implement that class;
    - [ProvisioningDomain.v], [ProvisioningStore.v]: the data and the
      transactions of provisioning-service; [ProvisioningInv.v],
      [ProvisioningSteps.v], [ProvisioningPlacement.v]: its invariant, kept
      by every operation; [ProvisioningSpec.v]: what holds in every
      reachable database; [ProvisioningService.v]: commands and the Kafka
      consumer; [ProvisioningWorker.v]: the workers, for any node agents
      that meet the class [AgentClient];
    - [ProvisioningEvolution.v]: what each operation does to an allocation;
      [ProvisioningSystem.v]: the database together with the agents, the
      contract [AgentLaws], the protocol [sys_step] and its invariant;
      [ProvisioningJobs.v]: the workers follow the protocol under any
      interleaving; [Fleet.v]: the agents of [NodeAgent.v] behind the client
      of internal/nodeagent meet the contract, so the theorems hold of the
      two programs together, down to the configuration Xray runs; its [Demo]
      runs both end to end;
    - [BillingDomain.v]: orders, payments, amounts of money and the client of
      the payment provider (internal/yookassa); [BillingStore.v]: the tables
      with their checks and triggers and one transaction per method of the
      store; [BillingInv.v], [BillingSteps.v], [BillingSpec.v]: its invariant
      and what holds in every reachable database; [BillingService.v]: the
      requests, workers and handlers; [BillingSystem.v], [BillingJobs.v]: the
      database together with the provider, which forgets a key after a day,
      and the programs of the service against the protocol between the two;
    - [AccessDomain.v], [AccessStore.v]: the data and the transactions of
      access-service; [AccessInv.v], [AccessSteps.v], [AccessLifecycle.v],
      [AccessOutcomes.v]: its invariant and the effect of each operation on
      it; [AccessSpec.v]: what holds in every reachable database;
      [AccessProfile.v]: the profile a client downloads (internal/happ) and
      a reader of it; [AccessCrypto.v]: key rings and token hashing
      (internal/credential); [AccessConsumer.v]: event validation and the
      Kafka consumer; [AccessService.v]: the application layer, the outbox
      worker and the HTTP handlers; [AccessProfiles.v]: profile requests
      beside any other activity of the service; [AccessDemo.v],
      [AccessServiceDemo.v]: runs;
    - [NotificationDomain.v]: jobs, delivery errors and the message templates
      (internal/template); [NotificationStore.v]: the tables and transactions
      of internal/postgres/store.go; [NotificationInv.v],
      [NotificationSpec.v]: its invariant and what holds in every reachable
      database; [NotificationService.v]: the plan of each event, the Kafka
      consumer, the clients of the other services, the delivery worker and
      the HTTP handlers; [NotificationJobs.v], [NotificationWorker.v]: the
      programs of the service beside any other activity of it;
      [NotificationDemo.v]: runs;
    - [TelegramBot.v]: the scripts the bot runs in Redis
      (internal/redisstore), the client of the Bot API (internal/telegram)
      and the handler of deliveries (internal/bot/delivery.go);
      [TelegramWebhook.v]: the commands of users (internal/bot/webhook.go) and
      the services they consult; [TelegramSpec.v], [TelegramJobs.v]: the
      protocol of what the handlers leave in Redis and send, and what it
      gives; [TelegramDemo.v]: runs;
    - [AdminDomain.v], [AdminStore.v]: the data, the permissions of roles
      (internal/rbac), the check on what owners answer, the tables and
      transactions of admin-service and the batches of its retention job;
      [AdminSpec.v]: its invariant, with the
      machine of an action and the trail it writes; [AdminService.v]: actions,
      the client of the owning services (internal/owner) and the handlers;
      [AdminJobs.v]: requests beside any other activity, for any owners that
      meet the class [OwnerContract]; [AdminOwners.v]: subscription-,
      notification- and access-service behind that client meet it;
      [AdminDemo.v]: runs of them together.

    ** How code is modelled

    A method of a store is a value of [tx]: it reads and writes the working
    copy of the tables, its early returns are [throw], [tx.Commit]
    is [commit] and the deferred rollback is what [in_tx] drops. Tables are
    finite maps from primary key to row; unique constraints and the CHECKs the code relies on
    are tests the write makes. Row orders the SQL leaves open, rows locked by others
    ([SKIP LOCKED]), clocks and random identifiers are
    arguments. Times are nanoseconds in [Z]; [time.Duration] and [int64]
    arithmetic wraps where the code computes with it; a [timestamptz] keeps
    microseconds, which [BillingStore.v] writes out ([timestamptz]), where an
    event carries the nanoseconds of the same moment. A worker is a program
    over the store and the other services in which anything another process
    may do happens before each call. Kafka is a log and a list
    of the calls made on its client. What the JSON library makes of a text is
    a parameter ([decoders]) where more than one text may decode to a value;
    the node agent's state files are the values they decode to, and
    [NodeAgent.v] has the text the encoder makes of them, for its length; AES, HMAC and SHA-256 are computed.

    ** What is shown

    Stores: every operation is atomic and keeps the invariant; every period
    was bought by one payment event, and a payment or an order buys one at
    most, whatever is delivered how often; events leave in
    a gapless order per aggregate; each operation of provisioning has exactly
    one outcome, in revision order, and a superseded one is fenced off;
    nodes are never filled beyond their ceiling. Consumers: a position is
    committed only when the record is handled or dead-lettered; nothing is
    skipped, and a deferred record is retried as soon as it can succeed.
    Node agents: the desired state is valid and durable, and a
    request that succeeded has Xray serving it; requests are safe to repeat.
    A reload either serves the snapshot or reports what became of it: a
    restored rollback serves the old configuration again, and after any
    failure that one is still on disk, under its own name or the backup's,
    with Xray possibly down. The class [XrayManager] asks for no more: what
    is served or would be started is always something once served, once
    installed or asked for. A state longer than the 16 MiB the agent reads
    back is not reloaded after a restart, and [restart_recovers] says so. The
    system: workers refine the protocol; what the database calls active is
    on the node, what it calls revoked is in no configuration Xray runs or
    would be started with ([Fleet.v]), and endpoints announced to
    clients serve them.

    Billing: all requests for an order carry one key and one amount, and the
    provider carries out at most one of them, although it forgets the key
    after a day, as long as the creation window (23 hours) leaves room for
    clocks and requests under way; an order counts as paid only when
    the provider confirmed that amount, account and order; orders and payments agree;
    a settled payment is announced exactly once; requests repeat safely under
    their idempotency key.

    Access: a credential follows the state machine [view_step]; each revision
    of it has one operation and one command; a profile is served only to the
    holder of an active token of a live entitlement, and never again once the
    subscription ended, the endpoints being read by a later statement than
    the token; access counts as withdrawn only when every assigned
    node reported the removal; an address that was issued serves the rendered
    snapshots, through hashing, decryption and rendering, and reading that
    profile gives the endpoints back.

    Notification: a fact is announced by one job; the jobs of a stream are
    handed out in order, and what a later event supersedes is dropped; no
    event is lost; a message that counts as delivered was sent to the address
    identity-service gave, while the state it reports still held; an attempt
    is ended only by the worker that holds it. These hold of runs of the
    worker and of the administrator's retries, not of a protocol alone.

    Telegram bot: what notification-service counts as delivered was accepted
    by the Bot API; a delivery or an update that was completed is not carried
    out again; an order is placed only for an active user who accepted the
    terms it names.

    Administration: owners are called only on the authority of a principal
    with the permission, for an accepted action; an action recorded as
    succeeded is in the books of the owner under the key of this action; the
    audit trail of an action is a run of its state machine; the table holds
    all of it since the cutoff of the retention job, which takes no event
    younger than a year.

    ** Fuel and bounds

    [evict] runs on the size of the journal, [trim_fuel] on the length of the
    string, [decimal] on the twenty digits of an [int64], [ipv6_groups] on
    the eight groups of an address, [field_mul] and [ghash_mul] on the bits
    of their operands; each is shown or seen to be enough where it is used.
    [retryDeferred] returns [None] only when its fuel is spent, and
    [OrderedConsumer.v] shows that any fuel above the number
    of deferred partitions is enough.

    ** Not modelled

    Failures of the database itself other than lost calls of the workers;
    the cutting of times to microseconds outside billing-service; aggregate sequences beyond [int64];
    CHECKs on text formats the validators already enforce; PostgreSQL's
    normalisation of the letter case of a [uuid] (but for the targets of
    admin-service, [uuid_text]); a clock that moves inside
    one transaction; read phenomena between concurrent transactions beyond the
    row and advisory locks the code takes; agents that answer with unknown states;
    node identifiers that resolve to the wrong host. The clients of
    identity-, catalog-, access- and subscription-service are HTTP calls
    whose answers are inputs; those of notification-service, of the bot and
    of admin-service are judged as the clients judge them. The rate limiter of access-service is a
    Redis script. Metrics, logging, tracing, TLS, configuration, the retention
    jobs of the services other than admin-service, the loop of that one over
    its batches, the version report of Xray and the command-line tools are I/O around libraries. catalog-
    and identity-service are not modelled. *)

From Stdlib Require Import Sorted Permutation.
From Stdlib Require Export ZArith Lia.
From stdpp Require Export base gmap strings list fin_maps option.
From stdpp Require sorting.
From Stdlib Require Import Ascii.
#[global] Open Scope Z_scope.

(** ** Results and transactions

    [result] is Go's [(value, error)] pair read as a sum: every function of
    the source returns a meaningful value only when its error is nil. *)

Inductive result (E A : Type) : Type :=
  | Ok (a : A)
  | Err (e : E).
Arguments Ok {_ _} a.
Arguments Err {_ _} e.

Definition is_ok {E A} (r : result E A) : bool :=
  match r with Ok _ => true | Err _ => false end.

(** A transaction in progress: what other sessions see, and what this one
    has written so far. [tx.Commit] publishes the working copy; the deferred
    [tx.Rollback] of every handler drops whatever was not committed. *)
Record txn (S : Type) : Type := Txn { durable : S; working : S }.
Arguments Txn {_} durable working.
Arguments durable {_} t.
Arguments working {_} t.

Definition tx (S E A : Type) : Type := txn S -> result E A * txn S.

Section tx_ops.
Context {S E : Type}.

Definition ret {A} (a : A) : tx S E A := fun t => (Ok a, t).
Definition throw {A} (e : E) : tx S E A := fun t => (Err e, t).
Definition bind {A B} (m : tx S E A) (k : A -> tx S E B) : tx S E B :=
  fun t => match m t with
           | (Ok a, t') => k a t'
           | (Err e, t') => (Err e, t')
           end.
Definition get : tx S E S := fun t => (Ok (working t), t).
Definition modify (f : S -> S) : tx S E unit :=
  fun t => (Ok tt, Txn (durable t) (f (working t))).
Definition commit : tx S E unit :=
  fun t => (Ok tt, Txn (working t) (working t)).
(** Go code that inspects an error and carries on: what the failed step
    already wrote to the transaction stays written. *)
Definition catch {A} (m : tx S E A) (h : E -> tx S E A) : tx S E A :=
  fun t => match m t with
           | (Ok a, t') => (Ok a, t')
           | (Err e, t') => h e t'
           end.
Definition when (b : bool) (m : tx S E unit) : tx S E unit :=
  if b then m else ret tt.
Definition require (b : bool) (e : E) : tx S E unit := if b then ret tt else throw e.
Definition need {A} (o : option A) (e : E) : tx S E A :=
  match o with Some a => ret a | None => throw e end.
(** A query: it reads, and may fail. *)
Definition query {A} (f : S -> result E A) : tx S E A :=
  bind get (fun s => match f s with Ok a => ret a | Err e => throw e end).
Definition in_tx {A} (m : tx S E A) (s : S) : result E A * S :=
  let '(r, t) := m (Txn s s) in (r, durable t).
End tx_ops.

Declare Scope tx_scope.
Delimit Scope tx_scope with tx.
Notation "'let*' x ':=' m 'in' k" := (bind m (fun x => k))
  (at level 10, x pattern, m at level 100, k at level 200) : tx_scope.
Notation "m1 ;;; m2" := (bind m1 (fun _ => m2))
  (at level 100, m2 at level 200, right associativity) : tx_scope.
Open Scope tx_scope.

(** A statement sent to the pool outside any [BeginTx] is its own
    transaction. *)
Definition autocommit {S E A} (m : tx S E A) : tx S E A :=
  let* a := m in commit ;;; ret a.

Section tx_lemmas.
Context {S E : Type}.
Implicit Types t : txn S.

Lemma bind_ok {A B} (m : tx S E A) (k : A -> tx S E B) t a t1 :
  m t = (Ok a, t1) -> bind m k t = k a t1.
Proof. intros H. unfold bind. by rewrite H. Qed.

Lemma run_get {B} (k : S -> tx S E B) t : bind get k t = k (working t) t.
Proof. done. Qed.
Lemma run_modify {B} f (k : unit -> tx S E B) t :
  bind (modify f) k t = k tt (Txn (durable t) (f (working t))).
Proof. done. Qed.
Lemma run_ret {A B} (a : A) (k : A -> tx S E B) t : bind (ret a) k t = k a t.
Proof. done. Qed.
Lemma run_throw {A B} e (k : A -> tx S E B) t : bind (throw e) k t = (Err e, t).
Proof. done. Qed.
Lemma run_commit {B} (k : unit -> tx S E B) t :
  bind commit k t = k tt (Txn (working t) (working t)).
Proof. done. Qed.

Lemma bind_err {A B} (m : tx S E A) (k : A -> tx S E B) t e t1 :
  m t = (Err e, t1) -> bind m k t = (Err e, t1).
Proof. intros H. unfold bind. by rewrite H. Qed.

Lemma bind_ok_inv {A B} (m : tx S E A) (k : A -> tx S E B) t b t2 :
  bind m k t = (Ok b, t2) ->
  exists a t1, m t = (Ok a, t1) /\ k a t1 = (Ok b, t2).
Proof. unfold bind. destruct (m t) as [[a|e] t1]; naive_solver. Qed.

Lemma bind_inv {A B} (m : tx S E A) (k : A -> tx S E B) t r t2 :
  bind m k t = (r, t2) ->
  (exists a t1, m t = (Ok a, t1) /\ k a t1 = (r, t2)) \/
  (exists e, m t = (Err e, t2) /\ r = Err e).
Proof. unfold bind. destruct (m t) as [[a|e] t1]; naive_solver. Qed.

(** *** Invariants

    [preserves I m]: a working state in [I] stays in [I] when the step
    succeeds, and whatever [m] commits on the way satisfies [I]. A failed
    step may leave the working state half-written: it is rolled back unless
    somebody catches the error, and [catch] asks for that case separately. *)
Definition preserves {A} (I : S -> Prop) (m : tx S E A) : Prop :=
  forall t, I (working t) ->
       (I (durable t) -> I (durable (snd (m t)))) /\
       (is_ok (fst (m t)) = true -> I (working (snd (m t)))).

Lemma preserves_ret {A} I (a : A) : preserves I (ret a).
Proof. by intros t. Qed.
Lemma preserves_throw {A} I e : preserves I (@throw S E A e).
Proof. by intros t. Qed.
Lemma preserves_get I : preserves I get.
Proof. by intros t. Qed.
Lemma preserves_commit I : preserves I commit.
Proof. by intros t. Qed.
Lemma preserves_modify (I : S -> Prop) f : (forall s, I s -> I (f s)) -> preserves I (modify f).
Proof. intros H t; simpl; auto. Qed.
Lemma preserves_bind {A B} I (m : tx S E A) (k : A -> tx S E B) :
  preserves I m -> (forall a, preserves I (k a)) -> preserves I (bind m k).
Proof.
  intros Hm Hk t Hw. unfold bind.
  specialize (Hm t Hw). destruct (m t) as [[a|e] t1]; simpl in *; [|naive_solver].
  destruct Hm as [Hd1 Hw1]. destruct (Hk a t1 (Hw1 eq_refl)). auto.
Qed.
(** Reading the state lets the rest of the handler rely on [I] of it. *)
Lemma preserves_read {B} I (k : S -> tx S E B) :
  (forall s, I s -> forall t, working t = s ->
     (I (durable t) -> I (durable (snd (k s t)))) /\
     (is_ok (fst (k s t)) = true -> I (working (snd (k s t))))) ->
  preserves I (bind get k).
Proof. intros H t Hw. unfold bind, get. by apply H. Qed.
Lemma preserves_ok {A} I (m : tx S E A) t a t' :
  preserves I m -> m t = (Ok a, t') -> I (working t) -> I (working t').
Proof. intros Hm Hr Hw. destruct (Hm t Hw) as [_ H]. rewrite Hr in H. by apply H. Qed.
Lemma preserves_when I b m : preserves I m -> preserves I (when b m).
Proof. intros H. destruct b; [exact H|]. apply preserves_ret. Qed.
Lemma preserves_require I b e : preserves I (require b e).
Proof. destruct b; [apply preserves_ret | apply preserves_throw]. Qed.
Lemma preserves_need {A} I (o : option A) e : preserves I (need o e).
Proof. destruct o; [apply preserves_ret | apply preserves_throw]. Qed.
Lemma preserves_in_tx {A} (I : S -> Prop) (m : tx S E A) s :
  preserves I m -> I s -> I (snd (in_tx m s)).
Proof.
  intros Hm Hs. unfold in_tx. specialize (Hm (Txn s s) Hs).
  destruct (m (Txn s s)) as [r t]. naive_solver.
Qed.

(** *** Atomicity

    [atomic m]: an error leaves the durable state as it was, because the
    only commit of [m] comes after everything that can fail. [quiet m]:
    [m] never commits at all. *)
Definition quiet {A} (m : tx S E A) : Prop :=
  forall t, durable (snd (m t)) = durable t.
Definition atomic {A} (m : tx S E A) : Prop :=
  forall t e t', m t = (Err e, t') -> durable t' = durable t.

Lemma quiet_ret {A} (a : A) : quiet (ret a).
Proof. done. Qed.
Lemma quiet_throw {A} e : quiet (@throw S E A e).
Proof. done. Qed.
Lemma quiet_get : quiet get.
Proof. done. Qed.
Lemma quiet_modify f : quiet (modify f).
Proof. done. Qed.
Lemma quiet_bind {A B} (m : tx S E A) (k : A -> tx S E B) :
  quiet m -> (forall a, quiet (k a)) -> quiet (bind m k).
Proof.
  intros Hm Hk t. unfold bind. specialize (Hm t).
  destruct (m t) as [[a|e] t1]; simpl in *; [|done]. rewrite <- Hm. apply Hk.
Qed.
Lemma quiet_catch {A} (m : tx S E A) h :
  quiet m -> (forall e, quiet (h e)) -> quiet (catch m h).
Proof.
  intros Hm Hh t. unfold catch. specialize (Hm t).
  destruct (m t) as [[a|e] t1]; simpl in *; [done|]. rewrite <- Hm. apply Hh.
Qed.
Lemma quiet_when b m : quiet m -> quiet (when b m).
Proof. intros H. destruct b; [exact H | done]. Qed.

Lemma quiet_require b e : quiet (require b e).
Proof. by destruct b. Qed.
Lemma quiet_need {A} (o : option A) e : quiet (need o e).
Proof. by destruct o. Qed.

(** *** Postconditions

    [lands m]: success means the whole working copy was committed. *)
Definition lands {A} (m : tx S E A) : Prop :=
  forall t a t', m t = (Ok a, t') -> durable t' = working t'.

(** [untouched f m]: whatever happens, [m] leaves the part [f] of the
    working state alone. *)
Definition untouched {A B} (f : S -> B) (m : tx S E A) : Prop :=
  forall t, f (working (snd (m t))) = f (working t).
Lemma untouched_ret {A B} (f : S -> B) (a : A) : untouched f (ret a).
Proof. done. Qed.
Lemma untouched_throw {A B} (f : S -> B) e : untouched f (@throw S E A e).
Proof. done. Qed.
Lemma untouched_get {B} (f : S -> B) : untouched f get.
Proof. done. Qed.
Lemma untouched_commit {B} (f : S -> B) : untouched f commit.
Proof. done. Qed.
Lemma untouched_modify {B} (f : S -> B) g : (forall s, f (g s) = f s) -> untouched f (modify g).
Proof. intros H t. apply H. Qed.
Lemma untouched_bind {A B C} (f : S -> C) (m : tx S E A) (k : A -> tx S E B) :
  untouched f m -> (forall a, untouched f (k a)) -> untouched f (bind m k).
Proof.
  intros Hm Hk t. unfold bind. specialize (Hm t). destruct (m t) as [[a|e] t1]; simpl in *; [|done].
  rewrite <- Hm. apply Hk.
Qed.
Lemma untouched_when {B} (f : S -> B) b m : untouched f m -> untouched f (when b m).
Proof. intros H. by destruct b. Qed.

Lemma untouched_require {B} (f : S -> B) b e : untouched f (require b e).
Proof. by destruct b. Qed.
Lemma untouched_need {A B} (f : S -> B) (o : option A) e : untouched f (need o e).
Proof. by destruct o. Qed.

Lemma lands_throw {A} e : lands (@throw S E A e).
Proof. by intros t a t'. Qed.
Lemma lands_commit : lands commit.
Proof. by intros t a t' [= <- <-]. Qed.
Lemma lands_commit_ret {A} (a : A) : lands (commit ;;; ret a).
Proof. by intros t b t' [= <- <-]. Qed.
Lemma lands_bind {A B} (m : tx S E A) (k : A -> tx S E B) : (forall a, lands (k a)) -> lands (bind m k).
Proof. intros Hk t b t' (a & t1 & H1 & H2)%bind_ok_inv. eapply Hk; eauto. Qed.
Lemma in_tx_eq {A} (m m' : tx S E A) s : m (Txn s s) = m' (Txn s s) -> in_tx m s = in_tx m' s.
Proof. unfold in_tx. by intros ->. Qed.
Lemma lands_in_tx {A} (m : tx S E A) s a s' :
  lands m -> in_tx m s = (Ok a, s') -> exists t', m (Txn s s) = (Ok a, t') /\ s' = working t'.
Proof.
  intros Hl H. unfold in_tx in H. destruct (m (Txn s s)) as [r t] eqn:Hr.
  injection H as -> <-. exists t. split; [done|]. by eapply Hl.
Qed.

Lemma atomic_quiet {A} (m : tx S E A) : quiet m -> atomic m.
Proof. intros Hm t e t' H. specialize (Hm t). by rewrite H in Hm. Qed.
Lemma atomic_bind {A B} (m : tx S E A) (k : A -> tx S E B) :
  quiet m -> (forall a, atomic (k a)) -> atomic (bind m k).
Proof.
  intros Hm Hk t e t' H. apply bind_inv in H as [(a & t1 & H1 & H2)|(e' & H1 & H2)].
  - specialize (Hm t). rewrite H1 in Hm. simpl in Hm. rewrite <- Hm. by eapply Hk.
  - specialize (Hm t). rewrite H1 in Hm. by simpl in Hm.
Qed.
Lemma atomic_commit_ret {A} (a : A) : atomic (commit ;;; ret a).
Proof. intros t e t' H. done. Qed.
Lemma atomic_commit : atomic commit.
Proof. intros t e t' H. done. Qed.
Lemma atomic_catch {A} (m : tx S E A) h :
  quiet m -> (forall e, atomic (h e)) -> atomic (catch m h).
Proof.
  intros Hm Hh t e t' H. unfold catch in H. specialize (Hm t).
  destruct (m t) as [[a|e1] t1]; [done|]. simpl in Hm. rewrite <- Hm. by eapply Hh.
Qed.
Lemma atomic_in_tx {A} (m : tx S E A) s e s' :
  atomic m -> in_tx m s = (Err e, s') -> s' = s.
Proof.
  intros Hm H. unfold in_tx in H. destruct (m (Txn s s)) as [r t] eqn:Hr.
  simplify_eq. apply (Hm _ _ _ Hr).
Qed.

(** *** Queries and results *)

Lemma bind_assoc {A B C} (m : tx S E A) (k : A -> tx S E B) (h : B -> tx S E C) t :
  bind (bind m k) h t = bind m (fun a => bind (k a) h) t.
Proof. unfold bind. by destruct (m t) as [[a|e] t1]. Qed.

Lemma run_query {A} (f : S -> result E A) t x t' : query f t = (x, t') -> t' = t /\ x = f (working t).
Proof. unfold query. rewrite run_get. destruct (f (working t)); by intros [= <- <-]. Qed.
Lemma query_ok {A} (f : S -> result E A) t a t' : query f t = (Ok a, t') -> t' = t /\ f (working t) = Ok a.
Proof. by intros [-> <-]%run_query. Qed.
Lemma require_ok b (e : E) (t : txn S) x t' : require b e t = (Ok x, t') -> b = true /\ t' = t.
Proof. destruct b; [|done]. by intros [= <- <-]. Qed.
Lemma quiet_query {A} (f : S -> result E A) : quiet (query f).
Proof. intros t. unfold query. rewrite run_get. by destruct (f (working t)). Qed.
Lemma preserves_query {A} I (f : S -> result E A) : preserves I (query f).
Proof. intros t. unfold query. rewrite run_get. by destruct (f (working t)). Qed.

(** A step that does not commit keeps what its successes establish. *)
Lemma preserves_result {A} (I : S -> Prop) (m : tx S E A) : quiet m ->
  (forall t a t', I (working t) -> m t = (Ok a, t') -> I (working t')) -> preserves I m.
Proof.
  intros Hq Hm t Hw. specialize (Hq t). destruct (m t) as [[a|e] t'] eqn:Hr; simpl in *; rewrite Hq; split; try done.
  intros _. by eapply Hm.
Qed.
(** The rest of the step may use what it has read. *)
Lemma preserves_queried {A B} (I : S -> Prop) (f : S -> result E A) (k : A -> tx S E B) :
  (forall d, I d -> forall a, f d = Ok a -> forall t, working t = d ->
     (I (durable t) -> I (durable (snd (k a t)))) /\ (is_ok (fst (k a t)) = true -> I (working (snd (k a t))))) ->
  preserves I (bind (query f) k).
Proof.
  intros H t Hw. destruct (query f t) as [[a|e] t'] eqn:Hr; pose proof (run_query _ _ _ _ Hr) as [-> Ex].
  - rewrite (bind_ok _ _ _ _ _ Hr). by apply (H (working t)).
  - by rewrite (bind_err _ _ _ _ _ Hr).
Qed.

(** A run that fails before its commit, or commits a good state. *)
Lemma preserves_run {A} (I : S -> Prop) (m : tx S E A) :
  (forall t x t', I (working t) -> m t = (x, t') ->
     (exists e, x = Err e /\ durable t' = durable t) \/ (exists a d', x = Ok a /\ I d' /\ t' = Txn d' d')) ->
  preserves I m.
Proof.
  intros H t Hw. destruct (m t) as [x t'] eqn:Hr. destruct (H _ _ _ Hw Hr) as [(e & -> & Hd)|(a & d' & -> & Hd & ->)]; simpl.
  - by rewrite Hd.
  - by split.
Qed.
(** The same, for a step that fails before its commit. *)
Lemma preserves_atomic {A} (I : S -> Prop) (m : tx S E A) : atomic m ->
  (forall t a t', I (working t) -> m t = (Ok a, t') -> exists d', I d' /\ t' = Txn d' d') -> preserves I m.
Proof.
  intros Ha Hm. apply preserves_run. intros t [a|e] t' Hw Hr; [right|left; eauto].
  destruct (Hm _ _ _ Hw Hr) as (d' & Hd & ->). eauto.
Qed.
(** *** Assertions between the statements of a transaction *)

(** [leads I P m Q]: from a working state in [P], [m] ends in [Q] if it
    succeeds, and what it commits on the way is in [I]. *)
Definition leads {A} (I P : S -> Prop) (m : tx S E A) (Q : A -> S -> Prop) : Prop := forall t, P (working t) ->
  (I (durable t) -> I (durable (snd (m t)))) /\ forall a t', m t = (Ok a, t') -> Q a (working t').
Lemma leads_preserves {A} (I : S -> Prop) (m : tx S E A) : leads I I m (fun _ => I) -> preserves I m.
Proof. intros H t Hw. destruct (H t Hw) as [H1 H2]. split; [done|]. destruct (m t) as [[a|e] t']; [|done]. intros _. by eapply H2. Qed.
Lemma leads_bind {A B} I P (m : tx S E A) (k : A -> tx S E B) R Q :
  leads I P m R -> (forall a, leads I (R a) (k a) Q) -> leads I P (bind m k) Q.
Proof.
  intros Hm Hk t Hw. destruct (Hm t Hw) as [H1 H2]. unfold bind. destruct (m t) as [[a|e] t1]; simpl in *; [|split; [done|by intros ?? [=]]].
  destruct (Hk a t1) as [H3 H4]; [by apply H2|]. split; [auto|done].
Qed.
Lemma leads_quiet {A} I P (m : tx S E A) Q : quiet m ->
  (forall t a t', P (working t) -> m t = (Ok a, t') -> Q a (working t')) -> leads I P m Q.
Proof. intros Hq Hm t Hw. split; [by rewrite Hq|]. intros a t'. by apply Hm. Qed.
Lemma leads_query {A} I P (f : S -> result E A) (Q : A -> S -> Prop) :
  (forall d a, P d -> f d = Ok a -> Q a d) -> leads I P (query f) Q.
Proof. intros H. apply leads_quiet; [apply quiet_query|]. intros t a t' Hw [-> Hr]%query_ok. by apply H. Qed.
Lemma leads_commit I P : (forall d, P d -> I d) -> leads I P commit (fun _ => P).
Proof. intros H t Hw. split; [by intros _; apply H|]. by intros a t' [= <- <-]. Qed.
Lemma leads_ret {A} I P (a : A) (Q : A -> S -> Prop) : (forall d, P d -> Q a d) -> leads I P (ret a) Q.
Proof. intros H t Hw. split; [done|]. intros a' t' [= <- <-]. by apply H. Qed.
Lemma leads_throw {A} I P e (Q : A -> S -> Prop) : leads I P (throw e) Q.
Proof. intros t Hw. by split. Qed.
Lemma leads_require I P b e : leads I P (require b e) (fun _ d => P d /\ b = true).
Proof. intros t Hw. destruct b; split; try done. by intros a t' [= <- <-]. Qed.
Lemma leads_read {B} I P (k : S -> tx S E B) Q :
  (forall d, P d -> leads I (fun d' => P d' /\ d' = d) (k d) Q) -> leads I P (bind get k) Q.
Proof. intros H t Hw. rewrite run_get. by apply (H (working t) Hw). Qed.
Lemma leads_modify I P f (Q : unit -> S -> Prop) : (forall d, P d -> Q tt (f d)) -> leads I P (modify f) Q.
Proof. intros H t Hw. split; [done|]. intros a t' [= <- <-]. by apply H. Qed.
Lemma leads_weaken {A} I (P P' : S -> Prop) (m : tx S E A) (Q Q' : A -> S -> Prop) :
  leads I P' m Q' -> (forall d, P d -> P' d) -> (forall a d, Q' a d -> Q a d) -> leads I P m Q.
Proof. intros H HP HQ t Hw. destruct (H t) as [H1 H2]; [auto|]. split; [done|]. intros a t' Hr. eapply HQ, H2, Hr. Qed.
Lemma leads_pre {A} I (P : S -> Prop) (X : Prop) (m : tx S E A) Q :
  (X -> leads I P m Q) -> leads I (fun d => P d /\ X) m Q.
Proof. intros H t [Hw HX]. by apply H. Qed.
Lemma leads_end {A} I (P : S -> Prop) (a : A) : (forall d, P d -> I d) -> leads I P (commit ;;; ret a) (fun _ => I).
Proof. intros H. eapply leads_bind; [apply leads_commit, H|]. intros x. by apply leads_ret. Qed.

End tx_lemmas.

Create HintDb txdb.
#[export] Hint Resolve quiet_query preserves_query preserves_ret preserves_throw preserves_get preserves_commit
  preserves_when preserves_require preserves_need quiet_require quiet_need untouched_require untouched_need quiet_ret quiet_throw quiet_get quiet_modify quiet_when
  atomic_commit_ret atomic_commit 
  lands_throw lands_commit lands_commit_ret untouched_ret untouched_throw untouched_get
  untouched_commit untouched_when : txdb.
#[export] Hint Extern 2 (untouched _ (modify _)) => (apply untouched_modify; reflexivity) : txdb.

(** [tx_auto] discharges [preserves]/[quiet]/[atomic] goals by following the
    handler's structure; what is left are the statements that write. *)
Ltac tx_split :=
  match goal with
  | |- preserves _ (bind _ _) => apply preserves_bind; [|intros ?]
  | |- untouched _ (bind _ _) => apply untouched_bind; [|intros ?]
  | |- untouched _ (match ?x with _ => _ end) => destruct x eqn:?
  | |- untouched _ (let _ := _ in _) => cbv zeta
  | |- lands (commit ;;; ret _) => apply lands_commit_ret
  | |- lands (bind _ _) => apply lands_bind; intros ?
  | |- lands (match ?x with _ => _ end) => destruct x eqn:?
  | |- lands (let _ := _ in _) => cbv zeta
  | |- quiet (bind _ _) => apply quiet_bind; [|intros ?]
  | |- quiet (catch _ _) => apply quiet_catch; [|intros ?]
  | |- atomic (commit ;;; ret _) => apply atomic_commit_ret
  | |- atomic (bind _ _) => apply atomic_bind; [|intros ?]
  | |- atomic (catch _ _) => apply atomic_catch; [|intros ?]
  | |- atomic (ret _) => apply atomic_quiet, quiet_ret
  | |- atomic (throw _) => apply atomic_quiet, quiet_throw
  | |- preserves _ (match ?x with _ => _ end) => destruct x eqn:?
  | |- quiet (match ?x with _ => _ end) => destruct x eqn:?
  | |- atomic (match ?x with _ => _ end) => destruct x eqn:?
  | |- preserves _ (let _ := _ in _) => cbv zeta
  | |- quiet (let _ := _ in _) => cbv zeta
  | |- atomic (let _ := _ in _) => cbv zeta
  end.
Ltac tx_auto := repeat (first [solve [eauto 2 with txdb] | tx_split]).

(** Run the steps whose outcome is known. *)
Ltac tx_run :=
  repeat (first [rewrite run_get | rewrite run_modify | rewrite run_ret | rewrite run_throw
                | rewrite run_commit]).

(** [tx_inv H] turns [H : m t = (Ok a, t')] into the run of each step. *)
Ltac tx_inv H :=
  lazymatch type of H with
  | bind _ _ _ = (Ok _, _) =>
      let a := fresh "v" in let t := fresh "t" in let H1 := fresh "Hs" in
      apply bind_ok_inv in H as (a & t & H1 & H)
  end.

(** ** Tables

    A table is a finite map from the textual primary key to the row, and a
    row repeats its key as a column. The scans below are PostgreSQL's
    [WHERE], [ORDER BY] and [LIMIT] on such a table. *)

Abbreviation table A := (gmap string A).

Section tables.
Context {A : Type}.
Implicit Types (m : gmap string A) (p : A -> bool) (le : A -> A -> bool).

Definition rows m : list A := (map_to_list m).*2.
Definition where_ p m : list A := List.filter p (rows m).
Definition exists_row p m : bool := existsb p (rows m).

Fixpoint insert_by le (x : A) (l : list A) : list A :=
  match l with
  | [] => [x]
  | y :: l' => if le x y then x :: l else y :: insert_by le x l'
  end.
Fixpoint order_by le (l : list A) : list A :=
  match l with
  | [] => []
  | x :: l' => insert_by le x (order_by le l')
  end.
(** [SELECT ... WHERE p ORDER BY le LIMIT 1]. *)
Definition first_by le p m : option A := head (order_by le (where_ p m)).
(** [UPDATE t SET f WHERE p]: the matching rows are rewritten in place. *)
Definition update_where p (f : A -> A) m : gmap string A :=
  (fun r => if p r then f r else r) <$> m.
(** [DELETE FROM t WHERE p]. *)
Definition delete_where p m : gmap string A :=
  base.filter (fun kr => p (snd kr) = false) m.
Definition count_where p m : nat := length (where_ p m).

Lemma elem_rows m x : x ∈ rows m <-> exists k, m !! k = Some x.
Proof.
  unfold rows. rewrite list_elem_of_fmap. split.
  - intros ([k y] & -> & H). exists k. by apply elem_of_map_to_list.
  - intros (k & H). exists (k, x). split; [done|]. by apply elem_of_map_to_list.
Qed.
Lemma elem_where p m x :
  x ∈ where_ p m <-> p x = true /\ exists k, m !! k = Some x.
Proof.
  unfold where_. rewrite list_elem_of_In, filter_In, <- list_elem_of_In, elem_rows.
  naive_solver.
Qed.
Lemma exists_row_true p m :
  exists_row p m = true <-> exists k x, m !! k = Some x /\ p x = true.
Proof.
  unfold exists_row. rewrite existsb_exists. setoid_rewrite <- list_elem_of_In.
  setoid_rewrite elem_rows. naive_solver.
Qed.
Lemma exists_row_false p m :
  exists_row p m = false <-> forall k x, m !! k = Some x -> p x = false.
Proof.
  rewrite <- not_true_iff_false, exists_row_true. split.
  - intros H k x Hk. destruct (p x) eqn:?; [|done]. destruct H; eauto.
  - intros H (k & x & Hk & Hp). apply H in Hk. congruence.
Qed.

Lemma insert_by_perm le x l : insert_by le x l ≡ₚ x :: l.
Proof.
  induction l as [|y l IH]; simpl; [done|]. destruct (le x y); [done|].
  rewrite IH. constructor.
Qed.
Lemma order_by_perm le l : order_by le l ≡ₚ l.
Proof. induction l as [|x l IH]; simpl; [done|]. by rewrite insert_by_perm, IH. Qed.
Lemma elem_order_by le l x : x ∈ order_by le l <-> x ∈ l.
Proof. by rewrite order_by_perm. Qed.

Lemma first_by_Some le p m x :
  first_by le p m = Some x -> p x = true /\ exists k, m !! k = Some x.
Proof.
  unfold first_by. intros H. apply elem_where, (elem_order_by le).
  destruct (order_by _ _); simplify_eq/=. by left.
Qed.
Lemma first_by_None le p m :
  first_by le p m = None <-> forall k x, m !! k = Some x -> p x = false.
Proof.
  unfold first_by. split.
  - intros H k x Hk. destruct (p x) eqn:Hp; [|done].
    assert (x ∈ order_by le (where_ p m)) as Hin
      by (apply elem_order_by, elem_where; eauto).
    destruct (order_by le (where_ p m)); [by apply not_elem_of_nil in Hin | done].
  - intros H. destruct (order_by _ _) as [|x l] eqn:Ho; [done|].
    assert (x ∈ order_by le (where_ p m)) as Hin by (rewrite Ho; left).
    apply elem_order_by, elem_where in Hin as [Hp (k & Hk)].
    apply H in Hk. congruence.
Qed.

Lemma where_head_None (q : A -> bool) m : head (where_ q m) = None -> forall k x, m !! k = Some x -> q x = false.
Proof.
  intros H k x Hk. destruct (q x) eqn:Hq; [|done]. assert (x ∈ where_ q m) as Hin by (apply elem_where; eauto).
  destruct (where_ q m); [by apply not_elem_of_nil in Hin|done].
Qed.
Lemma where_head_Some (q : A -> bool) m x : head (where_ q m) = Some x -> q x = true /\ exists k, m !! k = Some x.
Proof. intros H. apply elem_where. destruct (where_ q m); simplify_eq/=. by left. Qed.


(** Sortedness along any preorder the comparison decides. *)
Section ordered.
Context (le : A -> A -> bool) (R : A -> A -> Prop).
Context (Hle : forall x y, le x y = true -> R x y) (Hgt : forall x y, le x y = false -> R y x).
Context (Htrans : forall x y z, R x y -> R y z -> R x z).

Lemma insert_by_sorted x l : StronglySorted R l -> StronglySorted R (insert_by le x l).
Proof.
  induction 1 as [|y l Hl IH Hall]; simpl; [by repeat constructor|].
  destruct (le x y) eqn:Hxy.
  - constructor; [by constructor|]. constructor; [by apply Hle|].
    eapply List.Forall_impl; [|exact Hall]. intros z Hz. eauto.
  - constructor; [done|]. rewrite insert_by_perm. constructor; [by apply Hgt | done].
Qed.
Lemma order_by_sorted l : StronglySorted R (order_by le l).
Proof. induction l; simpl; [constructor | by apply insert_by_sorted]. Qed.
(** The row a [LIMIT 1] query returns precedes every other match. *)
Lemma first_by_least p m x k y :
  first_by le p m = Some x -> m !! k = Some y -> p y = true -> x = y \/ R x y.
Proof.
  unfold first_by. intros H Hk Hp.
  pose proof (order_by_sorted (where_ p m)) as Hs.
  assert (y ∈ order_by le (where_ p m)) as Hin
    by (apply elem_order_by, elem_where; eauto).
  destruct (order_by le (where_ p m)) as [|z l]; [done|]. injection H as ->.
  apply StronglySorted_inv in Hs as [_ Hall]. apply elem_of_cons in Hin as [->|Hin]; [by left|].
  right. rewrite Forall_forall in Hall. by apply Hall, list_elem_of_In.
Qed.
End ordered.

Lemma lookup_update_where p f m k :
  update_where p f m !! k = (fun r => if p r then f r else r) <$> m !! k.
Proof. unfold update_where. apply lookup_fmap. Qed.
Lemma lookup_delete_where p m k r :
  delete_where p m !! k = Some r <-> m !! k = Some r /\ p r = false.
Proof. unfold delete_where. apply map_lookup_filter_Some. Qed.

(** *** Counting

    How [count_where] moves under an insertion, a replacement and an
    [UPDATE]. *)
Definition indicator (b : bool) : nat := if b then 1 else 0.

Lemma count_perm p (l l' : list A) : l ≡ₚ l' -> length (List.filter p l) = length (List.filter p l').
Proof.
  induction 1 as [|x l l' _ IH|x y l|l l' l'' _ IH1 _ IH2]; simpl; [done| | |congruence].
  - destruct (p x); simpl; congruence.
  - by destruct (p x), (p y).
Qed.
Lemma count_insert_fresh p m k x : m !! k = None ->
  count_where p (<[k:=x]> m) = (indicator (p x) + count_where p m)%nat.
Proof.
  intros Hk. unfold count_where, where_.
  rewrite (count_perm p _ (x :: rows m)) by (unfold rows; by rewrite map_to_list_insert).
  simpl. by destruct (p x).
Qed.
Lemma count_replace p m k x y : m !! k = Some y ->
  (indicator (p y) + count_where p (<[k:=x]> m) = indicator (p x) + count_where p m)%nat.
Proof.
  intros Hk. rewrite <- (insert_id m k y Hk) at 2. rewrite <- !(insert_delete_eq m).
  rewrite !count_insert_fresh by apply lookup_delete_eq. lia.
Qed.
Lemma count_update_where p q f m :
  (forall k r, m !! k = Some r -> q r = true -> p (f r) = p r) ->
  count_where p (update_where q f m) = count_where p m.
Proof.
  intros H. unfold update_where. induction m as [|k r m Hk IH] using map_ind; [done|].
  rewrite fmap_insert, !count_insert_fresh; [|done|by rewrite lookup_fmap, Hk].
  f_equal.
  - destruct (q r) eqn:Hq; [|done]. by rewrite (H k) by (by rewrite ?lookup_insert_eq).
  - apply IH. intros k' r' Hk'. apply (H k'). rewrite lookup_insert_ne; [done|congruence].
Qed.
(** Rows that start to count because of the [UPDATE]. *)
Lemma count_update_gain p (q g : A -> bool) f m :
  (forall k r, m !! k = Some r ->
     indicator (p (if q r then f r else r)) = (indicator (p r) + indicator (g r))%nat) ->
  count_where p (update_where q f m) = (count_where p m + count_where g m)%nat.
Proof.
  intros H. unfold update_where. induction m as [|k r m Hk IH] using map_ind; [done|].
  rewrite fmap_insert, !count_insert_fresh; [|done|done|by rewrite lookup_fmap, Hk].
  rewrite IH.
  - rewrite (H k) by (by rewrite lookup_insert_eq). lia.
  - intros k' r' Hk'. apply (H k'). rewrite lookup_insert_ne; [done|congruence].
Qed.
Lemma count_pos p m k r : m !! k = Some r -> p r = true -> (1 <= count_where p m)%nat.
Proof.
  intros Hk Hp. assert (r ∈ where_ p m) as Hin by (apply elem_where; eauto).
  unfold count_where. destruct (where_ p m); [by apply not_elem_of_nil in Hin | simpl; lia].
Qed.
Lemma count_zero p m : (forall k r, m !! k = Some r -> p r = false) -> count_where p m = 0%nat.
Proof.
  intros H. unfold count_where. destruct (where_ p m) as [|r l] eqn:E; [done|].
  assert (r ∈ where_ p m) as [Hp (k & Hk)]%elem_where by (rewrite E; left). rewrite (H k r Hk) in Hp. done.
Qed.
Lemma zero_count p m k r : count_where p m = 0%nat -> m !! k = Some r -> p r = false.
Proof. intros H Hk. destruct (p r) eqn:Hp; [|done]. pose proof (count_pos p m k r Hk Hp). lia. Qed.
Lemma count_unique p m :
  (forall k k' r r', m !! k = Some r -> m !! k' = Some r' -> p r = true -> p r' = true -> k = k') ->
  (count_where p m <= 1)%nat.
Proof.
  intros H. destruct (where_ p m) as [|r l] eqn:E; [unfold count_where; rewrite E; simpl; lia|].
  assert (r ∈ where_ p m) as [Hp (k & Hk)]%elem_where by (rewrite E; left).
  rewrite <- (insert_id m k r Hk), <- (insert_delete_eq m), count_insert_fresh by apply lookup_delete_eq.
  rewrite (count_zero p (delete k m)); [destruct (p r); simpl; lia|].
  intros k' r' [Hne Hk']%lookup_delete_Some. destruct (p r') eqn:Hp'; [|done]. destruct Hne. by eapply H.
Qed.
Lemma update_where_none p f m : count_where p m = 0%nat -> update_where p f m = m.
Proof.
  intros H. apply map_eq. intros k. rewrite lookup_update_where. destruct (m !! k) as [r|] eqn:E; [|done]. simpl.
  by rewrite (zero_count p m k r H E).
Qed.
Lemma update_where_unique p f m k x : m !! k = Some x -> p x = true ->
  (forall k' y, m !! k' = Some y -> p y = true -> k' = k) -> update_where p f m = <[k:=f x]> m.
Proof.
  intros Hk Hp Hu. apply map_eq. intros j. rewrite lookup_update_where, lookup_insert. case_decide as E.
  - subst. rewrite Hk. simpl. by rewrite Hp.
  - destruct (m !! j) as [y|] eqn:Hj; [|done]. simpl. destruct (p y) eqn:Hy; [|done]. by destruct E; rewrite (Hu j y).
Qed.
Lemma count_filter_split p (q : A -> bool) (l : list A) :
  length (List.filter (fun r => p r && q r) l) = length (List.filter q (List.filter p l)).
Proof. induction l as [|x l IH]; simpl; [done|]. destruct (p x) eqn:?; simpl; [destruct (q x); simpl; by rewrite IH|done]. Qed.

Lemma alter_Some (f : A -> A) m i k y :
  alter f i m !! k = Some y <-> exists x, m !! k = Some x /\ y = if decide (i = k) then f x else x.
Proof.
  rewrite lookup_alter. case_decide; [subst|]; destruct (m !! _); naive_solver.
Qed.

Lemma alter_known (f : A -> A) m k x : m !! k = Some x -> alter f k m = <[k:=f x]> m.
Proof.
  intros Hk. apply map_eq. intros j. rewrite lookup_alter, lookup_insert. case_decide; [|done]. subst. by rewrite Hk.
Qed.
End tables.

(** *** Tables row by row

    [pointwise R m m']: the same keys, with related rows. *)
Section pointwise.
Context {A : Type} (R : A -> A -> Prop).
Implicit Types m : table A.

Definition pointwise m m' : Prop := forall k, option_Forall2 R (m !! k) (m' !! k).

Lemma pointwise_fwd m m' k x : pointwise m m' -> m !! k = Some x -> exists y, m' !! k = Some y /\ R x y.
Proof. intros H Hk. specialize (H k). rewrite Hk in H. inversion H; subst. eauto. Qed.
Lemma pointwise_bwd m m' k y : pointwise m m' -> m' !! k = Some y -> exists x, m !! k = Some x /\ R x y.
Proof. intros H Hk. specialize (H k). rewrite Hk in H. inversion H; subst. eauto. Qed.
Lemma pointwise_refl m : (forall x, R x x) -> pointwise m m.
Proof. intros H k. destruct (m !! k); by constructor. Qed.
Lemma pointwise_trans m1 m2 m3 : (forall x y z, R x y -> R y z -> R x z) ->
  pointwise m1 m2 -> pointwise m2 m3 -> pointwise m1 m3.
Proof.
  intros Ht H1 H2 k. specialize (H1 k). specialize (H2 k).
  destruct (m1 !! k), (m2 !! k), (m3 !! k); inversion H1; inversion H2; subst; constructor; eauto.
Qed.
Lemma pointwise_insert m k x y : (forall x, R x x) -> m !! k = Some x -> R x y -> pointwise m (<[k:=y]> m).
Proof.
  intros Hr Hk Hxy j. rewrite lookup_insert. case_decide; [subst; rewrite Hk; by constructor|].
  destruct (m !! j); by constructor.
Qed.
Lemma pointwise_alter m k f :
  (forall x, R x x) -> (forall x, m !! k = Some x -> R x (f x)) -> pointwise m (alter f k m).
Proof.
  intros Hr Hf j. rewrite lookup_alter. case_decide; [subst|]; destruct (m !! j) eqn:E; constructor; auto.
Qed.
Lemma pointwise_update_where m p f :
  (forall x, R x x) -> (forall k x, m !! k = Some x -> p x = true -> R x (f x)) -> pointwise m (update_where p f m).
Proof.
  intros Hr Hf k. rewrite lookup_update_where. destruct (m !! k) as [x|] eqn:E; constructor.
  destruct (p x) eqn:Hp; eauto.
Qed.
Lemma count_pointwise m m' p :
  pointwise m m' -> (forall x y, R x y -> p x = p y) -> count_where p m = count_where p m'.
Proof.
  intros H Hp. revert m' H. induction m as [|k x m Hk IH] using map_ind; intros m' H.
  - assert (m' = ∅) as ->; [|done]. apply map_eq. intros k. specialize (H k). rewrite lookup_empty in *.
    by inversion H.
  - destruct (pointwise_fwd _ _ k x H) as (y & Hy & Hxy); [by rewrite lookup_insert_eq|].
    rewrite <- (insert_id m' k y Hy), <- (insert_delete_eq m').
    rewrite !count_insert_fresh by first [done | apply lookup_delete_eq].
    rewrite (Hp _ _ Hxy). f_equal. apply IH. intros j. specialize (H j).
    destruct (decide (j = k)) as [->|Hne].
    + rewrite Hk, lookup_delete_eq. constructor.
    + by rewrite lookup_insert_ne in H by congruence; rewrite lookup_delete_ne by congruence.
Qed.
End pointwise.

(** Rows are only added, and those there evolve. *)
Definition grows {A} (R : A -> A -> Prop) (m m' : table A) : Prop := forall k x, m !! k = Some x ->
  exists x', m' !! k = Some x' /\ R x x'.
Section grows.
Context {A : Type} (R : A -> A -> Prop) (Hrefl : forall x, R x x).
Lemma grows_refl (m : table A) : grows R m m.
Proof. intros k x Hk. eauto. Qed.
Lemma grows_trans (m1 m2 m3 : table A) : (forall x y z, R x y -> R y z -> R x z) ->
  grows R m1 m2 -> grows R m2 m3 -> grows R m1 m3.
Proof.
  intros Ht H1 H2 k x Hk. destruct (H1 k x Hk) as (y & Hy & ?). destruct (H2 k y Hy) as (z & Hz & ?). eauto.
Qed.
Lemma grows_insert (m : table A) k x : (forall y, m !! k = Some y -> R y x) -> grows R m (<[k:=x]> m).
Proof.
  intros H j y Hj. rewrite lookup_insert. case_decide; [subst; eauto|eauto].
Qed.
Lemma grows_pointwise (m m' : table A) : pointwise R m m' -> grows R m m'.
Proof. intros H k x Hk. by apply (pointwise_fwd _ _ _ _ _ H). Qed.
End grows.

(** ** Byte order on strings: [ORDER BY] on text, [sort.Strings] *)

Lemma ascii_compare_N (a b : ascii) : Ascii.compare a b = (N_of_ascii a ?= N_of_ascii b)%N.
Proof. done. Qed.
Lemma string_leb_cons a b s t :
  String.leb (String a s) (String b t) = true <->
  (N_of_ascii a < N_of_ascii b)%N \/ (a = b /\ String.leb s t = true).
Proof.
  unfold String.leb. simpl. rewrite ascii_compare_N. destruct (N.compare_spec (N_of_ascii a) (N_of_ascii b)) as [E|E|E].
  - assert (a = b) as -> by (rewrite <- (ascii_N_embedding a), <- (ascii_N_embedding b); by f_equal).
    split; [by right|]. intros [?|[_ ?]]; [lia|done].
  - split; [by left|done].
  - split; [done|]. intros [?|[-> _]]; lia.
Qed.
Lemma string_leb_trans s t u : String.leb s t = true -> String.leb t u = true -> String.leb s u = true.
Proof.
  revert t u. induction s as [|a s IH]; intros [|b t] [|c u]; try (by intros).
  rewrite !string_leb_cons. intros [H1|[-> H1]] [H2|[-> H2]]; [left; lia|by left|by left|right; eauto].
Qed.
Lemma string_leb_antisym s t : String.leb s t = true -> String.leb t s = true -> s = t.
Proof.
  revert t. induction s as [|a s IH]; intros [|b t]; try (by intros).
  rewrite !string_leb_cons. intros [H1|[-> H1]] [H2|[H2 H2']]; subst; try lia. f_equal. auto.
Qed.
Lemma string_leb_false s t : String.leb s t = false -> String.leb t s = true.
Proof. intros H. destruct (String.leb_total s t); congruence. Qed.

(** Sorting strings forgets the order they came in. *)
Lemma order_by_leb_canonical (l l' : list string) :
  l ≡ₚ l' -> order_by String.leb l = order_by String.leb l'.
Proof.
  intros Hp.
  assert (forall k, StronglySorted (fun x y => String.leb x y = true) (order_by String.leb k)) as Hs.
  { intros k. apply order_by_sorted; [done | apply string_leb_false | apply string_leb_trans]. }
  assert (AntiSymm (=) (fun x y : string => String.leb x y = true)) as Ha
    by (intros x y; apply string_leb_antisym).
  apply (sorting.StronglySorted_unique (fun x y => String.leb x y = true)); [apply Hs|apply Hs|].
  by rewrite !order_by_perm.
Qed.

(** ** Machine integers and time

    Instants and durations are nanoseconds. An instant counts from Go's zero
    [time.Time], so that [t.IsZero()] is [t = 0]; durations are Go's [int64]
    and their arithmetic wraps. *)

Definition int64 (z : Z) : Z := (z + 2 ^ 63) mod 2 ^ 64 - 2 ^ 63.
Definition is_int64 (z : Z) : Prop := - 2 ^ 63 <= z < 2 ^ 63.

Lemma int64_id z : is_int64 z -> int64 z = z.
Proof. unfold is_int64, int64. intros H. rewrite Z.mod_small; lia. Qed.
Lemma int64_range z : is_int64 (int64 z).
Proof.
  unfold is_int64, int64. pose proof (Z.mod_pos_bound (z + 2 ^ 63) (2 ^ 64)). lia.
Qed.

Definition second : Z := 1000000000.
Definition minute : Z := 60 * second.
Definition hour : Z := 60 * minute.

(** Case on every integer comparison in sight, then decide. *)
Ltac zcases :=
  repeat match goal with
  | |- context [?x <? ?y] => destruct (Z.ltb_spec x y)
  | |- context [?x <=? ?y] => destruct (Z.leb_spec x y)
  | |- context [?x =? ?y] => destruct (Z.eqb_spec x y)
  | H : context [?x <? ?y] |- _ => destruct (Z.ltb_spec x y)
  | H : context [?x <=? ?y] |- _ => destruct (Z.leb_spec x y)
  | H : context [?x =? ?y] |- _ => destruct (Z.eqb_spec x y)
  end; simplify_eq/=; try lia.
