(* ===== verification/GoStrings.v ===== *)
(** * Strings, patterns and identifiers

    Go strings are byte strings ([string] here), [len] counts bytes and the
    anchored regular expressions of the services are sequences of byte
    classes. Also the identifier generator of
    src/internal/platform/cryptoutil/random.go. *)

From Stdlib Require Import Ascii List.
From S2P Require Import Prelude.

Definition byte_of (c : ascii) : Z := Z.of_N (N_of_ascii c).
Definition between (lo hi : ascii) (c : ascii) : bool :=
  (byte_of lo <=? byte_of c) && (byte_of c <=? byte_of hi).
Definition go_len (s : string) : Z := Z.of_nat (String.length s).

Definition digit : ascii -> bool := between "0" "9".
Definition lower_hex (c : ascii) : bool := digit c || between "a" "f" c.
Definition hex (c : ascii) : bool := lower_hex c || between "A" "F" c.
Definition dash (c : ascii) : bool := Ascii.eqb c "-".
Definition variant (c : ascii) : bool :=
  Ascii.eqb c "8" || Ascii.eqb c "9" || between "a" "b" c || between "A" "B" c.

(** An anchored pattern made of single-byte classes. *)
Fixpoint matches (pat : list (ascii -> bool)) (s : string) : bool :=
  match pat, s with
  | [], EmptyString => true
  | p :: pat', String c s' => p c && matches pat' s'
  | _, _ => false
  end.

Fixpoint all_bytes (p : ascii -> bool) (s : string) : bool :=
  match s with
  | EmptyString => true
  | String c s' => p c && all_bytes p s'
  end.

Definition uuid_tail : list (ascii -> bool) :=
  [dash] ++ [variant] ++ repeat hex 3 ++ [dash] ++ repeat hex 12.

(** [8-4-(1..5)3-(89ab)3-12]: the pattern of subscription-service. *)
Definition versioned_uuid (s : string) : bool :=
  matches (repeat hex 8 ++ [dash] ++ repeat hex 4 ++ [dash] ++ [between "1" "5"]
             ++ repeat hex 3 ++ uuid_tail) s.
(** [8-4-4-(89ab)3-12]: the pattern of access-, provisioning-service and the
    node agent. *)
Definition any_uuid (s : string) : bool :=
  matches (repeat hex 8 ++ [dash] ++ repeat hex 4 ++ [dash] ++ repeat hex 4
             ++ uuid_tail) s.

(** PostgreSQL counts characters: the bytes that do not continue one. *)
Fixpoint text_length (s : string) : Z :=
  match s with
  | EmptyString => 0
  | String c s' => (if (128 <=? byte_of c) && (byte_of c <? 192) then 0 else 1) + text_length s'
  end.
Definition length_between (lo hi : Z) (s : string) : bool := (lo <=? text_length s) && (text_length s <=? hi).

(** The encodings of the white space [strings.TrimSpace] strips: the ASCII
    ones and those of the Unicode [White_Space] property in UTF-8. *)
Definition byte_string (l : list nat) : string := String.string_of_list_ascii (map ascii_of_nat l).
Definition spaces : list string :=
  map byte_string
    ([[32]; [9]; [10]; [11]; [12]; [13]; [194; 133]; [194; 160]; [225; 154; 128];
      [226; 128; 168]; [226; 128; 169]; [226; 128; 175]; [226; 129; 159]; [227; 128; 128]]
     ++ map (fun i => [226; 128; 128 + i]) (seq 0 11))%nat.
Fixpoint strip_prefix (p s : string) : option string :=
  match p, s with
  | EmptyString, _ => Some s
  | String c p', String c' s' => if Ascii.eqb c c' then strip_prefix p' s' else None
  | _, EmptyString => None
  end.
Definition strip_any (prefixes : list string) (s : string) : option string :=
  fold_right (fun p acc => match strip_prefix p s with Some s' => Some s' | None => acc end) None prefixes.
(** A stripped prefix is never empty: the length is fuel enough. *)
Fixpoint trim_fuel (fuel : nat) (prefixes : list string) (s : string) : string :=
  match fuel with
  | O => s
  | S fuel' => match strip_any prefixes s with
               | Some s' => trim_fuel fuel' prefixes s'
               | None => s
               end
  end.
Definition string_rev (s : string) : string := String.string_of_list_ascii (rev (String.list_ascii_of_string s)).
Definition trim_left (s : string) : string := trim_fuel (String.length s) spaces s.
Definition trim_right (s : string) : string :=
  string_rev (trim_fuel (String.length s) (map string_rev spaces) (string_rev s)).
Definition TrimSpace (s : string) : string := trim_right (trim_left s).

Example TrimSpace_ascii : TrimSpace "  eu west  " = "eu west".
Proof. reflexivity. Qed.
Example TrimSpace_nbsp : TrimSpace (byte_string [194; 160; 101; 117; 226; 128; 175])%nat = "eu".
Proof. reflexivity. Qed.

(** ** Random identifiers *)

Definition hex_digit (n : Z) : ascii :=
  ascii_of_N (Z.to_N (if n <? 10 then 48 + n else 87 + n)).
(** [%02x] of a byte. *)
Definition hex_byte (b : Z) : string :=
  String (hex_digit (Z.shiftr b 4)) (String (hex_digit (Z.land b 15)) "").
Fixpoint hex_bytes (l : list Z) : string :=
  match l with [] => "" | b :: l' => (hex_byte b +:+ hex_bytes l')%string end.

(** [value] is what crypto/rand filled the array with. *)
Definition RandomUUID (value : list Z) : string :=
  let value := <[6%nat := Z.lor (Z.land (nth 6 value 0) 15) 64]> value in
  let value := <[8%nat := Z.lor (Z.land (nth 8 value 0) 63) 128]> value in
  (hex_bytes (take 4 value) +:+ "-" +:+
   hex_bytes (take 2 (drop 4 value)) +:+ "-" +:+
   hex_bytes (take 2 (drop 6 value)) +:+ "-" +:+
   hex_bytes (take 2 (drop 8 value)) +:+ "-" +:+
   hex_bytes (take 6 (drop 10 value)))%string.

Definition is_byte (b : Z) : Prop := 0 <= b < 256.

Lemma matches_app p1 p2 s1 s2 :
  matches p1 s1 = true -> matches p2 s2 = true ->
  matches (p1 ++ p2) (s1 +:+ s2)%string = true.
Proof.
  revert s1. induction p1 as [|p p1 IH]; intros [|c s1]; simpl; try done.
  rewrite !andb_true_iff. naive_solver.
Qed.

Lemma byte_cases (P : Z -> bool) :
  forallb P (map Z.of_nat (seq 0 256)) = true -> forall b, is_byte b -> P b = true.
Proof.
  intros H b Hb. rewrite forallb_forall in H. apply H. apply in_map_iff.
  exists (Z.to_nat b). split; [unfold is_byte in Hb; lia|].
  apply in_seq. unfold is_byte in Hb. lia.
Qed.

Lemma hex_byte_matches b : is_byte b -> matches [hex; hex] (hex_byte b) = true.
Proof. by apply (byte_cases (fun b => matches [hex; hex] (hex_byte b))); vm_compute. Qed.

Lemma hex_bytes_matches l :
  Forall is_byte l -> matches (repeat hex (2 * length l)) (hex_bytes l) = true.
Proof.
  induction 1 as [|b l Hb _ IH]; [done|].
  replace (2 * length (b :: l))%nat with (2 + 2 * length l)%nat by (simpl; lia).
  rewrite repeat_app. apply matches_app; [by apply hex_byte_matches | done].
Qed.

Lemma version_byte b :
  is_byte b ->
  matches [between "1" "5"; hex] (hex_byte (Z.lor (Z.land b 15) 64)) = true.
Proof.
  by apply (byte_cases (fun b => matches [between "1" "5"; hex]
    (hex_byte (Z.lor (Z.land b 15) 64)))); vm_compute.
Qed.
Lemma variant_byte b :
  is_byte b -> matches [variant; hex] (hex_byte (Z.lor (Z.land b 63) 128)) = true.
Proof.
  by apply (byte_cases (fun b => matches [variant; hex]
    (hex_byte (Z.lor (Z.land b 63) 128)))); vm_compute.
Qed.

Lemma matches_weaken p q s :
  Forall2 (fun (f g : ascii -> bool) => forall c, f c = true -> g c = true) p q ->
  matches p s = true -> matches q s = true.
Proof.
  intros H. revert s. induction H as [|f g p q Hfg _ IH]; intros [|c s]; simpl; try done.
  rewrite !andb_true_iff. naive_solver.
Qed.

Lemma version_digit_is_hex c : between "1" "5" c = true -> hex c = true.
Proof.
  unfold hex, lower_hex, digit, between. rewrite !orb_true_iff, !andb_true_iff, !Z.leb_le.
  change (byte_of "1") with 49. change (byte_of "5") with 53.
  change (byte_of "0") with 48. change (byte_of "9") with 57. lia.
Qed.

Lemma versioned_uuid_any s : versioned_uuid s = true -> any_uuid s = true.
Proof.
  apply matches_weaken. repeat (constructor; [intros c; auto using version_digit_is_hex|]).
  constructor.
Qed.

Ltac bytes_match :=
  match goal with |- matches _ (hex_bytes ?l) = true => apply (hex_bytes_matches l) end; repeat (apply Forall_cons; [assumption|]); apply Forall_nil.

Lemma RandomUUID_versioned value :
  length value = 16%nat -> Forall is_byte value ->
  versioned_uuid (RandomUUID value) = true.
Proof.
  intros Hlen Hb. do 16 (destruct value as [|? value]; [done|]). destruct value; [|done].
  rewrite !Forall_cons_iff in Hb. destruct_and?.
  unfold versioned_uuid, RandomUUID, uuid_tail. simpl nth. simpl insert. simpl take. simpl drop.
  apply (matches_app (repeat hex 8)); [bytes_match|].
  apply (matches_app [dash]); [done|].
  apply (matches_app (repeat hex 4)); [bytes_match|].
  apply (matches_app [dash]); [done|].
  apply (matches_app ([between "1" "5"; hex] ++ [hex; hex])).
  { apply (matches_app _ _ (hex_byte _) (hex_bytes [_])); [by apply version_byte|].
    bytes_match. }
  apply (matches_app [dash]); [done|].
  apply (matches_app ([variant; hex] ++ [hex; hex])).
  { apply (matches_app _ _ (hex_byte _) (hex_bytes [_])); [by apply variant_byte|].
    bytes_match. }
  apply (matches_app [dash]); [done|].
  bytes_match.
Qed.

(** ** Columns of PostgreSQL *)

(** A text PostgreSQL reads as a [uuid]: sixteen bytes in hexadecimal, with a
    dash allowed after every second one, possibly in braces. *)
Fixpoint uuid_bytes (n : nat) (i : nat) (s : string) : option string :=
  match n with
  | O => Some s
  | S n' =>
      match s with
      | String a (String b s') =>
          if hex a && hex b then
            let rest := match s' with
                        | String c s'' => if Ascii.eqb c "-" && Nat.odd i && (i <? 15)%nat then s'' else s'
                        | EmptyString => s'
                        end in uuid_bytes n' (S i) rest
          else None
      | _ => None
      end
  end.
Definition pg_uuid (s : string) : bool :=
  match s with
  | String c s' =>
      if Ascii.eqb c "{" then bool_decide (uuid_bytes 16 0 s' = Some "}"%string) else bool_decide (uuid_bytes 16 0 s = Some ""%string)
  | EmptyString => false
  end.
(** A [char(64)] that holds a SHA-256 in hexadecimal. *)
Definition sha256_text (s : string) : bool := matches (repeat lower_hex 64) s.
