(* ===== verification/Sha256.v ===== *)
(** * SHA-256

    The digest of the Go standard library (crypto/sha256) that the services
    use for request hashes, payload fingerprints and retry jitter: FIPS 180-4
    on bytes as [Z], words as [Z] modulo [2^32]. *)

From Stdlib Require Import Ascii List.
From S2P Require Import Prelude GoStrings.

Definition w32 (z : Z) : Z := z mod 2 ^ 32.
Definition rotr (n x : Z) : Z :=
  Z.lor (Z.shiftr x n) (w32 (Z.shiftl x (32 - n))).

Definition round_constants : list Z :=
  [1116352408; 1899447441; 3049323471; 3921009573; 961987163; 1508970993; 2453635748; 2870763221;
   3624381080; 310598401; 607225278; 1426881987; 1925078388; 2162078206; 2614888103; 3248222580;
   3835390401; 4022224774; 264347078; 604807628; 770255983; 1249150122; 1555081692; 1996064986;
   2554220882; 2821834349; 2952996808; 3210313671; 3336571891; 3584528711; 113926993; 338241895;
   666307205; 773529912; 1294757372; 1396182291; 1695183700; 1986661051; 2177026350; 2456956037;
   2730485921; 2820302411; 3259730800; 3345764771; 3516065817; 3600352804; 4094571909; 275423344;
   430227734; 506948616; 659060556; 883997877; 958139571; 1322822218; 1537002063; 1747873779;
   1955562222; 2024104815; 2227730452; 2361852424; 2428436474; 2756734187; 3204031479; 3329325298].

Definition initial_hash : list Z :=
  [1779033703; 3144134277; 1013904242; 2773480762; 1359893119; 2600822924; 528734635; 1541459225].

Definition be_word (l : list Z) : Z := fold_left (fun acc b => acc * 256 + b) l 0.
Fixpoint be_bytes (n : nat) (z : Z) : list Z :=
  match n with
  | O => []
  | S n' => be_bytes n' (z / 256) ++ [z mod 256]
  end.

(** [n] chunks of [k] bytes each. *)
Fixpoint chunks (k n : nat) (l : list Z) : list (list Z) :=
  match n with
  | O => []
  | S n' => firstn k l :: chunks k n' (skipn k l)
  end.

Definition pad (msg : list Z) : list Z :=
  let len := length msg in
  msg ++ [128] ++ repeat 0 (Z.to_nat ((55 - Z.of_nat len) mod 64))
      ++ be_bytes 8 (Z.of_nat len * 8).

(** The message schedule, most recent word first. *)
Fixpoint extend (n : nat) (w : list Z) : list Z :=
  match n with
  | O => w
  | S n' =>
      let x15 := nth 14 w 0 in
      let x2 := nth 1 w 0 in
      let s0 := Z.lxor (Z.lxor (rotr 7 x15) (rotr 18 x15)) (Z.shiftr x15 3) in
      let s1 := Z.lxor (Z.lxor (rotr 17 x2) (rotr 19 x2)) (Z.shiftr x2 10) in
      extend n' (w32 (nth 15 w 0 + s0 + nth 6 w 0 + s1) :: w)
  end.
Definition schedule (block : list Z) : list Z :=
  rev (extend 48 (rev (map be_word (chunks 4 16 block)))).

Definition sha_round (st : list Z) (kw : Z * Z) : list Z :=
  match st with
  | [a; b; c; d; e; f; g; h] =>
      let s1 := Z.lxor (Z.lxor (rotr 6 e) (rotr 11 e)) (rotr 25 e) in
      let ch := Z.lxor (Z.land e f) (Z.land (2 ^ 32 - 1 - e) g) in
      let t1 := w32 (h + s1 + ch + fst kw + snd kw) in
      let s0 := Z.lxor (Z.lxor (rotr 2 a) (rotr 13 a)) (rotr 22 a) in
      let maj := Z.lxor (Z.lxor (Z.land a b) (Z.land a c)) (Z.land b c) in
      [w32 (t1 + w32 (s0 + maj)); a; b; c; w32 (d + t1); e; f; g]
  | _ => st
  end.
Definition sha_block (st : list Z) (block : list Z) : list Z :=
  map (fun xy => w32 (fst xy + snd xy))
    (combine st (fold_left sha_round (combine round_constants (schedule block)) st)).

Definition sha256 (msg : list Z) : list Z :=
  let padded := pad msg in
  flat_map (be_bytes 4)
    (fold_left sha_block (chunks 64 (length padded / 64)%nat padded) initial_hash).

Fixpoint bytes_of (s : string) : list Z :=
  match s with EmptyString => [] | String c s' => byte_of c :: bytes_of s' end.

(** [hex.EncodeToString] of the digest of a string. *)
Definition sha256_hex (s : string) : string := hex_bytes (sha256 (bytes_of s)).

Example sha256_abc :
  sha256_hex "abc" = "ba7816bf8f01cfea414140de5dae2223b00361a396177a9cb410ff61f20015ad".
Proof. vm_compute. reflexivity. Qed.
Example sha256_empty :
  sha256_hex "" = "e3b0c44298fc1c149afbf4c8996fb92427ae41e4649b934ca495991b7852b855".
Proof. vm_compute. reflexivity. Qed.

Lemma be_bytes_byte n z : Forall is_byte (be_bytes n z).
Proof.
  revert z. induction n as [|n IH]; intros z; simpl; [constructor|].
  apply Forall_app. split; [apply IH|]. constructor; [|constructor].
  unfold is_byte. pose proof (Z.mod_pos_bound z 256). lia.
Qed.
Lemma length_be_bytes n z : length (be_bytes n z) = n.
Proof. revert z. induction n as [|n IH]; intros z; simpl; [done|]. rewrite length_app, IH. simpl. lia. Qed.

Lemma sha256_bytes msg : Forall is_byte (sha256 msg).
Proof.
  unfold sha256. induction (fold_left _ _ _) as [|w l IH]; [constructor|].
  cbn [flat_map]. apply Forall_app. split; [apply be_bytes_byte | done].
Qed.

Lemma length_sha_block st block : length st = 8%nat -> length (sha_block st block) = 8%nat.
Proof.
  intros H. unfold sha_block. rewrite length_map, length_combine.
  enough (length (fold_left sha_round (combine round_constants (schedule block)) st) = 8%nat) by lia.
  revert st H. induction (combine _ _) as [|kw l IH]; intros st H; simpl; [done|].
  apply IH. do 8 (destruct st as [|? st]; [done|]). by destruct st.
Qed.
Lemma length_sha256 msg : length (sha256 msg) = 32%nat.
Proof.
  unfold sha256.
  assert (forall bs st, length st = 8%nat -> length (fold_left sha_block bs st) = 8%nat) as H.
  { induction bs as [|b bs IH]; intros st Hst; simpl; [done|]. apply IH. by apply length_sha_block. }
  specialize (H (chunks 64 (length (pad msg) / 64)%nat (pad msg)) initial_hash eq_refl).
  revert H. generalize (fold_left sha_block (chunks 64 (length (pad msg) / 64)%nat (pad msg)) initial_hash).
  intros l Hl. do 8 (destruct l as [|? l]; [done|]). by destruct l.
Qed.
