(* ===== verification/Backoff.v ===== *)
(** * Retry delays

    The three back-off functions of the workers:
    src/services/subscription/internal/application/service.go (RetryBackoff),
    src/services/billing/internal/application/worker.go (retryBackoff) and the
    one shared by access, provisioning and notification
    (retryBackoff in their application/worker.go). Durations are [int64]
    nanoseconds and every multiplication wraps. *)

From Stdlib Require Import Ascii List.
From S2P Require Import Prelude GoStrings Sha256.

Definition five_minutes : Z := 5 * minute.

(** ** subscription-service: doubling, capped at five minutes *)
Definition RetryBackoff (base attempt : Z) : Z :=
  let attempt := if attempt <? 1 then 1 else attempt in
  let attempt := if 8 <? attempt then 8 else attempt in
  let delay := int64 (base * Z.shiftl 1 (attempt - 1)) in
  if five_minutes <? delay then five_minutes else delay.

(** ** billing-service: the same, then 80% to 120% of it, capped again *)
Fixpoint decimal_fuel (fuel : nat) (n : Z) (acc : string) : string :=
  match fuel with
  | O => acc
  | S fuel' =>
      let acc := String (ascii_of_N (Z.to_N (48 + n mod 10))) acc in
      if n <? 10 then acc else decimal_fuel fuel' (n / 10) acc
  end.
(** [%d] of a non-negative [int64]: nineteen digits at most. *)
Definition decimal (n : Z) : string := decimal_fuel 20 n "".

Definition retryBackoff_billing (base attempt : Z) (key : string) : Z :=
  let attempt := if attempt <? 1 then 1 else attempt in
  let attempt := if 8 <? attempt then 8 else attempt in
  let delay := int64 (base * Z.shiftl 1 (attempt - 1)) in
  let delay := if five_minutes <? delay then five_minutes else delay in
  let sum := sha256 (bytes_of (key +:+ ":" +:+ decimal attempt)%string) in
  let percent := 80 + nth 0 sum 0 mod 41 in
  let delay := Z.quot (int64 (delay * percent)) 100 in
  if five_minutes <? delay then five_minutes else delay.

(** ** access-, provisioning-, notification-service: doubling up to 256
    times the base, plus up to a tenth of jitter *)
Definition retryBackoff (base attempts : Z) (key : string) : Z :=
  let attempts := if attempts <? 1 then 1 else attempts in
  let exponent := attempts - 1 in
  let exponent := if 8 <? exponent then 8 else exponent in
  let delay := int64 (base * Z.shiftl 1 exponent) in
  let sum := sha256 (bytes_of key) in
  let jitter := Z.quot (int64 (be_word (firstn 2 sum) * delay)) 655350 in
  int64 (delay + jitter).

Lemma shiftl_one_bound n k : 0 <= n <= k -> 1 <= Z.shiftl 1 n <= 2 ^ k.
Proof.
  intros H. rewrite Z.shiftl_mul_pow2, Z.mul_1_l by lia. split.
  - pose proof (Z.pow_pos_nonneg 2 n). lia.
  - apply Z.pow_le_mono_r; lia.
Qed.

(** The configured base delays are seconds; below [2^38] ns (over four
    minutes) none of the products above leaves [int64]. *)
Definition base_ok (base : Z) : Prop := 0 < base < 2 ^ 38.

Definition clamp (lo hi a : Z) : Z :=
  let a := if a <? lo then lo else a in if hi <? a then hi else a.
Lemma clamp_bounds lo hi a : lo <= hi -> lo <= clamp lo hi a <= hi.
Proof.
  intros H. unfold clamp. zcases.
Qed.
Lemma clamp_mono lo hi a b : lo <= hi -> a <= b -> clamp lo hi a <= clamp lo hi b.
Proof.
  intros H Hab. unfold clamp. zcases.
Qed.

Lemma RetryBackoff_eq base attempt :
  base_ok base ->
  RetryBackoff base attempt =
  Z.min (base * 2 ^ (clamp 1 8 attempt - 1)) five_minutes.
Proof.
  intros Hb. unfold RetryBackoff. fold (clamp 1 8 attempt). cbv zeta.
  change (if 8 <? (if attempt <? 1 then 1 else attempt) then 8
          else if attempt <? 1 then 1 else attempt) with (clamp 1 8 attempt).
  pose proof (clamp_bounds 1 8 attempt ltac:(lia)) as Hc.
  pose proof (shiftl_one_bound (clamp 1 8 attempt - 1) 7 ltac:(lia)) as Hs.
  rewrite int64_id by (unfold is_int64, base_ok in *; nia).
  rewrite Z.shiftl_mul_pow2, Z.mul_1_l by lia.
  destruct (Z.ltb_spec five_minutes (base * 2 ^ (clamp 1 8 attempt - 1))); lia.
Qed.

(** The reconciliation delay of subscription-service never overflows, never undercuts the
    configured base (or the cap), never exceeds five minutes and never
    shrinks as attempts accumulate. *)
Theorem RetryBackoff_bounded_monotone base a b :
  base_ok base -> a <= b ->
  Z.min base five_minutes <= RetryBackoff base a /\
  RetryBackoff base a <= RetryBackoff base b <= five_minutes.
Proof.
  intros Hb Hab. rewrite !RetryBackoff_eq by done.
  pose proof (clamp_bounds 1 8 a ltac:(lia)). pose proof (clamp_mono 1 8 a b ltac:(lia) Hab).
  pose proof (Z.pow_le_mono_r 2 (clamp 1 8 a - 1) (clamp 1 8 b - 1) ltac:(lia) ltac:(lia)).
  pose proof (Z.pow_pos_nonneg 2 (clamp 1 8 a - 1) ltac:(lia) ltac:(lia)).
  unfold base_ok in Hb. nia.
Qed.
Lemma RetryBackoff_bounded_monotone_witness :
  base_ok (5 * second) /\ RetryBackoff (5 * second) 2 <= RetryBackoff (5 * second) 9.
Proof.
  split; [vm_compute; split; reflexivity|].
  apply (RetryBackoff_bounded_monotone (5 * second) 2 9); [vm_compute; split; reflexivity | lia].
Defined.

Lemma jitter_range key : 0 <= be_word (firstn 2 (sha256 (bytes_of key))) <= 65535.
Proof.
  pose proof (length_sha256 (bytes_of key)) as Hl.
  pose proof (sha256_bytes (bytes_of key)) as Hb.
  destruct (sha256 (bytes_of key)) as [|x [|y l]]; [done|done|].
  rewrite !Forall_cons_iff in Hb. unfold is_byte in Hb. unfold be_word. simpl. lia.
Qed.
Lemma first_byte_range msg : is_byte (nth 0 (sha256 msg) 0).
Proof.
  pose proof (length_sha256 msg) as Hl. pose proof (sha256_bytes msg) as Hb.
  destruct (sha256 msg) as [|x l]; [done|]. by apply Forall_cons_iff in Hb as [? _].
Qed.

(** The jittered delay of access, provisioning and notification stays
    within [d, 1.1 d] of the doubled base [d], with [d] capped at 256 bases,
    and computes without overflow. *)
Theorem retryBackoff_jitter_bounds base attempts key :
  base_ok base ->
  let d := base * 2 ^ (clamp 1 9 attempts - 1) in
  d <= retryBackoff base attempts key <= d + d / 10.
Proof.
  intros Hb d. unfold base_ok in Hb.
  assert (retryBackoff base attempts key =
    int64 (int64 d + Z.quot (int64 (be_word (firstn 2 (sha256 (bytes_of key))) * int64 d)) 655350)) as ->.
  { unfold retryBackoff. cbv zeta. repeat f_equal; unfold d, clamp;
      rewrite Z.shiftl_mul_pow2, Z.mul_1_l by zcases; zcases; done. }
  pose proof (clamp_bounds 1 9 attempts ltac:(lia)) as Hc.
  pose proof (shiftl_one_bound (clamp 1 9 attempts - 1) 8 ltac:(lia)) as Hs.
  rewrite Z.shiftl_mul_pow2, Z.mul_1_l in Hs by lia. change (2 ^ 8) with 256 in Hs.
  pose proof (jitter_range key) as Hj.
  set (j := be_word _) in *.
  assert (0 < d <= 256 * base) as Hd by (unfold d; nia).
  rewrite (int64_id d) by (unfold is_int64; lia).
  rewrite (int64_id (j * d)) by (unfold is_int64; nia).
  assert (0 <= Z.quot (j * d) 655350 <= d / 10) as Hq.
  { rewrite Z.quot_div_nonneg by nia. split; [apply Z.div_pos; nia|].
    apply Z.div_le_lower_bound; [lia|].
    pose proof (Z.mul_div_le (j * d) 655350 ltac:(lia)). nia. }
  rewrite int64_id; [lia|]. unfold is_int64.
  pose proof (Z.div_le_upper_bound d 10 d ltac:(lia) ltac:(lia)). lia.
Qed.
Lemma retryBackoff_jitter_bounds_witness :
  5 * second <= retryBackoff (5 * second) 1 "operation" <= 5 * second + 5 * second / 10.
Proof.
  pose proof (retryBackoff_jitter_bounds (5 * second) 1 "operation") as H.
  apply H. vm_compute; split; reflexivity.
Defined.

(** The jittered delay of billing-service stays between four fifths of
    the capped doubled base and five minutes. *)
Theorem retryBackoff_billing_bounds base attempt key :
  base_ok base ->
  Z.min (base * 2 ^ (clamp 1 8 attempt - 1)) five_minutes * 80 / 100
    <= retryBackoff_billing base attempt key <= five_minutes.
Proof.
  intros Hb. pose proof (RetryBackoff_eq base attempt Hb) as Hr.
  unfold retryBackoff_billing. unfold RetryBackoff in Hr. cbv zeta in *. rewrite Hr. clear Hr.
  set (m := Z.min _ _).
  assert (0 < m <= five_minutes) as Hm.
  { subst m. pose proof (clamp_bounds 1 8 attempt ltac:(lia)).
    pose proof (Z.pow_pos_nonneg 2 (clamp 1 8 attempt - 1) ltac:(lia) ltac:(lia)).
    unfold base_ok, five_minutes, minute, second in *. nia. }
  match goal with |- context [nth 0 (sha256 ?s) 0 mod 41] =>
    pose proof (Z.mod_pos_bound (nth 0 (sha256 s) 0) 41 ltac:(lia));
    set (p := nth 0 (sha256 s) 0 mod 41) in * end.
  rewrite int64_id by (unfold is_int64, five_minutes, minute, second in *; nia).
  rewrite Z.quot_div_nonneg by nia.
  assert (m * 80 / 100 <= m * (80 + p) / 100) by (apply Z.div_le_mono; nia).
  destruct (Z.ltb_spec five_minutes (m * (80 + p) / 100)); [|lia].
  split; [|lia]. pose proof (Z.div_le_upper_bound (m * 80) 100 m ltac:(lia) ltac:(lia)). lia.
Qed.
Lemma retryBackoff_billing_bounds_witness :
  base_ok (2 * second) /\ retryBackoff_billing (2 * second) 12 "key" <= five_minutes.
Proof.
  split; [vm_compute; split; reflexivity|].
  apply (retryBackoff_billing_bounds (2 * second) 12 "key"). vm_compute; split; reflexivity.
Defined.
