(* ===== verification/GoText.v ===== *)
(** * Text functions of Go's standard library

    The parts of [strings], [strconv], [encoding/base64], [net/url] and [net]
    the services use, on byte strings, with the round trips they promise. *)

From Stdlib Require Import Ascii List.
From S2P Require Import Prelude GoStrings Sha256 Backoff.

(** ** strings *)

(** [strings.Split(s, sep)] for a separator of one byte. *)
Fixpoint split_on (sep : ascii) (s : string) : list string :=
  match s with
  | EmptyString => [""%string]
  | String c s' =>
      if Ascii.eqb c sep then ""%string :: split_on sep s'
      else match split_on sep s' with
           | part :: parts => String c part :: parts
           | [] => [String c ""]
           end
  end.
(** [strings.Cut(s, sep)]. *)
Fixpoint cut_on (sep : ascii) (s : string) : option (string * string) :=
  match s with
  | EmptyString => None
  | String c s' =>
      if Ascii.eqb c sep then Some (""%string, s')
      else match cut_on sep s' with Some (a, b) => Some (String c a, b) | None => None end
  end.
(** [strings.ContainsAny]. *)
Fixpoint contains_any (set s : string) : bool :=
  match s with
  | EmptyString => false
  | String c s' => existsb (Ascii.eqb c) (String.list_ascii_of_string set) || contains_any set s'
  end.
(** [strings.Join]. *)
Fixpoint join (sep : string) (l : list string) : string :=
  match l with
  | [] => ""
  | [x] => x
  | x :: l' => (x +:+ sep +:+ join sep l')%string
  end.

Definition lower_byte (c : ascii) : ascii :=
  if between "A" "Z" c then ascii_of_N (N_of_ascii c + 32) else c.
(** [strings.ToLower], as far as comparisons with texts of lower case ASCII and
    Cyrillic letters can tell: the capitals of both, and the two other runes
    whose lower case is an ASCII letter. *)
Fixpoint ToLower (s : string) : string :=
  match s with
  | String "208" (String c s') =>
      if (144 <=? byte_of c) && (byte_of c <? 160) then String "208" (String (ascii_of_N (N_of_ascii c + 32)) (ToLower s'))
      else if (160 <=? byte_of c) && (byte_of c <? 176) then String "209" (String (ascii_of_N (N_of_ascii c - 32)) (ToLower s'))
      else String "208" (String c (ToLower s'))
  | String "196" (String "176" s') => String "i" (ToLower s')
  | String "226" (String "132" (String "170" s')) => String "k" (ToLower s')
  | String c s' => String (lower_byte c) (ToLower s')
  | EmptyString => EmptyString
  end.
(** [strings.Contains]. *)
Fixpoint Contains (s sub : string) : bool :=
  match strip_prefix sub s with
  | Some _ => true
  | None => match s with EmptyString => false | String _ s' => Contains s' sub end
  end.

Definition without (sep : ascii) (s : string) : Prop := all_bytes (fun c => negb (Ascii.eqb c sep)) s = true.
Lemma split_on_app sep s1 s2 : without sep s1 -> split_on sep (s1 +:+ String sep s2) = s1 :: split_on sep s2.
Proof.
  induction s1 as [|c s1 IH]; simpl; [by rewrite Ascii.eqb_refl|]. unfold without. simpl. rewrite andb_true_iff.
  intros [Hc Hs]. destruct (Ascii.eqb c sep); [done|]. by rewrite IH.
Qed.
Lemma split_on_none sep s : without sep s -> split_on sep s = [s].
Proof.
  induction s as [|c s IH]; [done|]. unfold without. simpl. rewrite andb_true_iff. intros [Hc Hs].
  destruct (Ascii.eqb c sep); [done|]. by rewrite IH.
Qed.
Lemma cut_on_app sep s1 s2 : without sep s1 -> cut_on sep (s1 +:+ String sep s2) = Some (s1, s2).
Proof.
  induction s1 as [|c s1 IH]; simpl; [by rewrite Ascii.eqb_refl|]. unfold without. simpl. rewrite andb_true_iff.
  intros [Hc Hs]. destruct (Ascii.eqb c sep); [done|]. by rewrite IH.
Qed.
Lemma all_bytes_impl (p q : ascii -> bool) s : (forall c, p c = true -> q c = true) -> all_bytes p s = true -> all_bytes q s = true.
Proof. intros H. induction s as [|c s IH]; [done|]. simpl. rewrite !andb_true_iff. intros [? ?]. auto. Qed.
Lemma all_bytes_app p s1 s2 : all_bytes p (s1 +:+ s2) = all_bytes p s1 && all_bytes p s2.
Proof. induction s1 as [|c s1 IH]; simpl; [done|]. by rewrite IH, andb_assoc. Qed.
Lemma without_app sep s1 s2 : without sep (s1 +:+ s2) <-> without sep s1 /\ without sep s2.
Proof. unfold without. by rewrite all_bytes_app, andb_true_iff. Qed.
Lemma split_join sep l : l <> [] -> Forall (without sep) l -> split_on sep (join (String sep "") l) = l.
Proof.
  intros Hl H. induction H as [|x l Hx H IH]; [done|]. simpl. destruct l as [|y l]; [by apply split_on_none|].
  change (String sep "" +:+ join (String sep "") (y :: l))%string with (String sep (join (String sep "") (y :: l))).
  rewrite split_on_app by done. f_equal. by apply IH.
Qed.

(** ** strconv *)

(** [strconv.FormatInt(n, 10)], and [strconv.Itoa]. *)
Definition FormatInt (n : Z) : string := if n <? 0 then ("-" +:+ decimal (- n))%string else decimal n.
(** [strconv.ParseInt(s, 10, 64)], and [strconv.Atoi]. *)
Fixpoint digits_value (s : string) (acc : Z) : option Z :=
  match s with
  | EmptyString => Some acc
  | String c s' => if digit c then digits_value s' (acc * 10 + (byte_of c - 48)) else None
  end.
Definition ParseUint (s : string) : option Z :=
  match s with EmptyString => None | _ => digits_value s 0 end.
Definition ParseInt (s : string) : option Z :=
  match s with
  | String "-" s' => v ← ParseUint s'; if v <=? 2 ^ 63 then Some (- v) else None
  | String "+" s' => v ← ParseUint s'; if v <? 2 ^ 63 then Some v else None
  | _ => v ← ParseUint s; if v <? 2 ^ 63 then Some v else None
  end.

(** What is printed is parsed. *)

Lemma digits_value_decimal fuel n acc : 0 <= n < 10 ^ Z.of_nat fuel -> (0 < fuel)%nat ->
  digits_value (decimal_fuel fuel n acc) 0 = digits_value acc n.
Proof.
  revert n acc. induction fuel as [|fuel IH]; intros n acc Hn Hf; [lia|]. simpl.
  pose proof (Z.mod_pos_bound n 10). pose proof (Z.div_mod n 10).
  assert (forall a, digits_value (String (ascii_of_N (Z.to_N (48 + n mod 10))) acc) a = digits_value acc (a * 10 + n mod 10)) as Hd.
  { intros a. simpl. unfold digit, between, byte_of. rewrite N_ascii_embedding by lia. rewrite Z2N.id by lia.
    change (Z.of_N (N_of_ascii "0")) with 48. change (Z.of_N (N_of_ascii "9")) with 57.
    destruct (Z.leb_spec 48 (48 + n mod 10)); [|lia]. destruct (Z.leb_spec (48 + n mod 10) 57); [|lia]. simpl.
    f_equal. lia. }
  destruct (Z.ltb_spec n 10).
  - rewrite Hd. f_equal. rewrite Z.mod_small; lia.
  - rewrite Nat2Z.inj_succ, Z.pow_succ_r in Hn by lia. rewrite IH.
    + rewrite Hd. f_equal. lia.
    + split; [apply Z.div_pos; lia|apply Z.div_lt_upper_bound; lia].
    + destruct fuel; [simpl in Hn; lia|lia].
Qed.

Definition plain_digits (s : string) : Prop := all_bytes digit s = true.
Lemma digit_of n : 0 <= n < 10 -> digit (ascii_of_N (Z.to_N (48 + n))) = true.
Proof.
  intros Hn. unfold digit, between, byte_of. rewrite N_ascii_embedding by lia. rewrite Z2N.id by lia.
  change (Z.of_N (N_of_ascii "0")) with 48. change (Z.of_N (N_of_ascii "9")) with 57.
  rewrite andb_true_iff, !Z.leb_le. lia.
Qed.
Lemma decimal_fuel_digits fuel n acc : plain_digits acc -> plain_digits (decimal_fuel fuel n acc).
Proof.
  revert n acc. induction fuel as [|fuel IH]; intros n acc Ha; [done|]. simpl.
  assert (plain_digits (String (ascii_of_N (Z.to_N (48 + n mod 10))) acc)) as Hc.
  { unfold plain_digits. simpl. by rewrite digit_of by (apply Z.mod_pos_bound; lia). }
  destruct (n <? 10); auto.
Qed.
Lemma decimal_fuel_head fuel n acc : (0 < fuel)%nat -> exists c s, decimal_fuel fuel n acc = String c s /\ digit c = true.
Proof.
  revert n acc. induction fuel as [|fuel IH]; intros n acc Hf; [lia|]. simpl.
  destruct (n <? 10) eqn:Hn; [eexists _, _; split; [done|]; apply digit_of, Z.mod_pos_bound; lia|].
  destruct fuel as [|fuel]; [simpl; eexists _, _; split; [done|]; apply digit_of, Z.mod_pos_bound; lia|]. apply IH. lia.
Qed.

Lemma ParseInt_digits c s : digit c = true ->
  ParseInt (String c s) = (v ← digits_value (String c s) 0; if v <? 2 ^ 63 then Some v else None).
Proof. intros H. destruct c as [[] [] [] [] [] [] [] []]; done. Qed.
Lemma ParseInt_decimal n : is_int64 n -> 0 <= n -> ParseInt (decimal n) = Some n.
Proof.
  intros Hi Hn. unfold is_int64 in Hi. destruct (decimal_fuel_head 20 n "") as (c & s & Hd & Hc); [lia|].
  unfold decimal. rewrite Hd, (ParseInt_digits c s Hc), <- Hd. rewrite digits_value_decimal; [|lia|lia]. simpl.
  destruct (Z.ltb_spec n (2 ^ 63)); [done|lia].
Qed.

(** ** encoding/base64 *)

Definition of_bytes (l : list Z) : string := String.string_of_list_ascii (map (fun b => ascii_of_N (Z.to_N b)) l).
Definition alphabet (url : bool) : string :=
  ("ABCDEFGHIJKLMNOPQRSTUVWXYZabcdefghijklmnopqrstuvwxyz0123456789" +:+ if url then "-_" else "+/")%string.
Fixpoint index_of (c : ascii) (s : string) : option Z :=
  match s with
  | EmptyString => None
  | String c' s' => if Ascii.eqb c c' then Some 0 else (fun n => n + 1) <$> index_of c s'
  end.
Definition b64_char (url : bool) (n : Z) : ascii := default "A"%char (String.get (Z.to_nat n) (alphabet url)).
Definition b64_value (url : bool) (c : ascii) : option Z := index_of c (alphabet url).

(** Without padding. *)
Fixpoint encode_raw (url : bool) (l : list Z) : string :=
  let ch := b64_char url in
  match l with
  | [] => ""
  | [a] => String (ch (a / 4)) (String (ch (a mod 4 * 16)) "")
  | [a; b] => String (ch (a / 4)) (String (ch (a mod 4 * 16 + b / 16)) (String (ch (b mod 16 * 4)) ""))
  | a :: b :: c :: l' => String (ch (a / 4)) (String (ch (a mod 4 * 16 + b / 16))
      (String (ch (b mod 16 * 4 + c / 64)) (String (ch (c mod 64)) (encode_raw url l'))))
  end.
Fixpoint decode_raw (url : bool) (s : string) : option (list Z) :=
  let v := b64_value url in
  match s with
  | "" => Some []
  | String c1 "" => None
  | String c1 (String c2 "") => x ← v c1; y ← v c2; Some [x * 4 + y / 16]
  | String c1 (String c2 (String c3 "")) =>
      x ← v c1; y ← v c2; z ← v c3; Some [x * 4 + y / 16; y mod 16 * 16 + z / 4]
  | String c1 (String c2 (String c3 (String c4 s'))) =>
      x ← v c1; y ← v c2; z ← v c3; w ← v c4; l ← decode_raw url s';
      Some (x * 4 + y / 16 :: y mod 16 * 16 + z / 4 :: z mod 4 * 64 + w :: l)
  end%string.
(** With padding: only the last four characters may end in [=]. *)
Fixpoint decode_padded (url : bool) (s : string) : option (list Z) :=
  let v := b64_value url in
  match s with
  | "" => Some []
  | String c1 (String c2 (String "=" (String "=" ""))) => x ← v c1; y ← v c2; Some [x * 4 + y / 16]
  | String c1 (String c2 (String c3 (String "=" ""))) =>
      x ← v c1; y ← v c2; z ← v c3; Some [x * 4 + y / 16; y mod 16 * 16 + z / 4]
  | String c1 (String c2 (String c3 (String c4 s'))) =>
      x ← v c1; y ← v c2; z ← v c3; w ← v c4; l ← decode_padded url s';
      Some (x * 4 + y / 16 :: y mod 16 * 16 + z / 4 :: z mod 4 * 64 + w :: l)
  | _ => None
  end%string.
(** The decoders skip carriage returns and newlines. *)
Fixpoint drop_newlines (s : string) : string :=
  match s with
  | EmptyString => EmptyString
  | String c s' => if Ascii.eqb c "010" || Ascii.eqb c "013" then drop_newlines s' else String c (drop_newlines s')
  end.
Definition RawURL_Encode (s : string) : string := encode_raw true (bytes_of s).
Definition RawURL_Decode (s : string) : option string := of_bytes <$> decode_raw true (drop_newlines s).
Definition Std_Decode (s : string) : option string := of_bytes <$> decode_padded false (drop_newlines s).

Example Std_Decode_pads : map Std_Decode ["aGk="; "aGkh"; "aA=="; "aG
k="; "aGk"; "a=k="; "aA==aGkh"]%string = [Some "hi"; Some "hi!"; Some "h"; Some "hi"; None; None; None]%string.
Proof. reflexivity. Qed.

Definition sextet_ok (url : bool) (n : Z) : bool :=
  bool_decide (b64_value url (b64_char url n) = Some n) &&
  negb (Ascii.eqb (b64_char url n) "010" || Ascii.eqb (b64_char url n) "013").
Lemma sextets url n : 0 <= n < 64 -> sextet_ok url n = true.
Proof.
  intros Hn. assert (forallb (sextet_ok url) (map Z.of_nat (seq 0 64)) = true) as H by (by destruct url; vm_compute).
  rewrite forallb_forall in H. apply H, in_map_iff. exists (Z.to_nat n). split; [lia|]. apply in_seq. lia.
Qed.
Lemma b64_value_char url n : 0 <= n < 64 -> b64_value url (b64_char url n) = Some n.
Proof. intros [H _]%(sextets url)%andb_true_iff. by apply bool_decide_eq_true in H. Qed.
Lemma byte_parts a : is_byte a -> 0 <= a / 4 < 64 /\ 0 <= a mod 4 < 4 /\ 0 <= a / 16 < 16 /\ 0 <= a mod 16 < 16 /\
  0 <= a / 64 < 4 /\ 0 <= a mod 64 < 64.
Proof. unfold is_byte. intros H. split_and!; try (apply Z.mod_pos_bound; lia); try (apply Z.div_pos; lia); apply Z.div_lt_upper_bound; lia. Qed.
(** Three bytes at a time. *)
Lemma bytes_ind3 (P : list Z -> Prop) : P [] -> (forall a, P [a]) -> (forall a b, P [a; b]) ->
  (forall a b c l, P l -> P (a :: b :: c :: l)) -> forall l, P l.
Proof.
  intros H0 H1 H2 H3. fix IH 1. intros [|a [|b [|c l]]]; [exact H0|apply H1|apply H2|apply H3, IH].
Qed.
Lemma decode_encode url l : Forall is_byte l -> decode_raw url (encode_raw url l) = Some l.
Proof.
  induction l as [|a|a b|a b c l IH] using bytes_ind3; intros H; rewrite ?Forall_cons_iff in H; destruct_and?; [done|..];
    unfold is_byte in *; cbn [encode_raw decode_raw]; rewrite !b64_value_char by (Z.to_euclidean_division_equations; lia); simpl.
  - do 2 f_equal. Z.to_euclidean_division_equations; lia.
  - f_equal. apply (f_equal2 cons); [|apply (f_equal2 cons); [|done]]; Z.to_euclidean_division_equations; lia.
  - rewrite IH by done. simpl. f_equal.
    apply (f_equal2 cons); [|apply (f_equal2 cons); [|apply (f_equal2 cons); [|done]]]; Z.to_euclidean_division_equations; lia.
Qed.
Lemma bytes_of_bytes l : Forall is_byte l -> bytes_of (of_bytes l) = l.
Proof.
  unfold is_byte. induction 1 as [|b l Hb _ IH]; [done|]. unfold of_bytes in *. simpl. rewrite IH. f_equal. unfold byte_of.
  rewrite N_ascii_embedding by lia. lia.
Qed.
Lemma of_bytes_of s : of_bytes (bytes_of s) = s.
Proof.
  induction s as [|c s IH]; [done|]. unfold of_bytes in *. simpl. rewrite IH. f_equal. unfold byte_of. rewrite N2Z.id. apply ascii_N_embedding.
Qed.
Lemma bytes_of_byte s : Forall is_byte (bytes_of s).
Proof.
  induction s as [|c s IH]; constructor; [|done]. unfold is_byte, byte_of. pose proof (N_ascii_bounded c). lia.
Qed.
Lemma string_app_assoc (a b c : string) : ((a +:+ b) +:+ c = a +:+ (b +:+ c))%string.
Proof. induction a as [|x a IH]; [done|]. exact (f_equal (String x) IH). Qed.
Lemma string_app_nil_r (a : string) : (a +:+ "" = a)%string.
Proof. induction a as [|x a IH]; [done|]. exact (f_equal (String x) IH). Qed.
Lemma bytes_of_app a b : bytes_of (a +:+ b) = bytes_of a ++ bytes_of b.
Proof. induction a as [|c a IH]; [done|]. exact (f_equal (cons (byte_of c)) IH). Qed.
Lemma length_bytes_of s : length (bytes_of s) = String.length s.
Proof. induction s; simpl; congruence. Qed.
Lemma encode_no_newlines url l : Forall is_byte l -> drop_newlines (encode_raw url l) = encode_raw url l.
Proof.
  assert (forall n s, 0 <= n < 64 -> drop_newlines (String (b64_char url n) s) = String (b64_char url n) (drop_newlines s)) as Hd.
  { intros n s [_ H%negb_true_iff]%(sextets url)%andb_true_iff. simpl. by rewrite H. }
  induction l as [|a|a b|a b c l IH] using bytes_ind3; intros H; rewrite ?Forall_cons_iff in H; destruct_and?; [done|..];
    repeat match goal with Hb : is_byte ?x |- _ => pose proof (byte_parts x Hb); clear Hb end; cbn [encode_raw];
    rewrite !Hd by lia; [done|done|]. by rewrite IH.
Qed.
Lemma RawURL_roundtrip s : RawURL_Decode (RawURL_Encode s) = Some s.
Proof.
  unfold RawURL_Decode, RawURL_Encode. rewrite encode_no_newlines by apply bytes_of_byte.
  rewrite decode_encode by apply bytes_of_byte. simpl. by rewrite of_bytes_of.
Qed.

(** ** net/url *)

Definition upper_hex (n : Z) : ascii := ascii_of_N (Z.to_N (if n <? 10 then 48 + n else 55 + n)).
(** [escape]: bytes that are not kept become [%XX], and a space [+] in a
    query. *)
Fixpoint url_escape (keep : ascii -> bool) (plus : bool) (s : string) : string :=
  match s with
  | EmptyString => EmptyString
  | String c s' =>
      if keep c then String c (url_escape keep plus s')
      else if plus && Ascii.eqb c " " then String "+" (url_escape keep plus s')
      else String "%" (String (upper_hex (byte_of c / 16)) (String (upper_hex (byte_of c mod 16)) (url_escape keep plus s')))
  end.
Definition alnum (c : ascii) : bool := between "a" "z" c || between "A" "Z" c || digit c.
Definition unreserved (c : ascii) : bool := alnum c || contains_any "-_.~" (String c "").
Definition fragment_byte (c : ascii) : bool := unreserved c || contains_any "$&+,/:;=?@!()*" (String c "").
Definition QueryEscape (s : string) : string := url_escape unreserved true s.
Definition FragmentEscape (s : string) : string := url_escape fragment_byte false s.
(** [url.Values.Encode], of one value per key. *)
Definition Encode (v : gmap string string) : string :=
  join "&" ((fun kv => QueryEscape (fst kv) +:+ "=" +:+ QueryEscape (snd kv))%string <$>
              order_by (fun a b => String.leb (fst a) (fst b)) (map_to_list v)).

(** The reader's side. *)
Definition hex_value (c : ascii) : option Z :=
  if digit c then Some (byte_of c - 48)
  else if between "a" "f" c then Some (byte_of c - 87)
  else if between "A" "F" c then Some (byte_of c - 55) else None.
Fixpoint url_unescape (plus : bool) (s : string) : option string :=
  match s with
  | EmptyString => Some EmptyString
  | String "%" (String h (String l s')) =>
      x ← hex_value h; y ← hex_value l; t ← url_unescape plus s'; Some (String (ascii_of_N (Z.to_N (x * 16 + y))) t)
  | String "%" _ => None
  | String c s' => t ← url_unescape plus s'; Some (String (if plus && Ascii.eqb c "+" then " "%char else c) t)
  end.

Definition all_ascii (P : ascii -> bool) : bool := forallb (fun n => P (ascii_of_nat n)) (seq 0 256).
Lemma all_ascii_true P c : all_ascii P = true -> P c = true.
Proof.
  unfold all_ascii. rewrite forallb_forall. intros H. rewrite <- (ascii_nat_embedding c). apply H. apply in_seq.
  pose proof (nat_ascii_bounded c). lia.
Qed.
Lemma all_ascii_impl (p q : ascii -> bool) c : all_ascii (fun c => implb (p c) (q c)) = true -> p c = true -> q c = true.
Proof. intros H Hp. pose proof (all_ascii_true _ c H) as Hc. cbv beta in Hc. by rewrite Hp in Hc. Qed.
Lemma unescape_cons plus c s t : c <> "%"%char -> url_unescape plus s = Some t ->
  url_unescape plus (String c s) = Some (String (if plus && Ascii.eqb c "+" then " "%char else c) t).
Proof. intros Hc Ht. destruct c as [[] [] [] [] [] [] [] []]; simpl; rewrite ?Ht; try done. Qed.
Lemma upper_hex_value n : 0 <= n < 16 -> hex_value (upper_hex n) = Some n.
Proof.
  intros Hn. assert (forallb (fun n => bool_decide (hex_value (upper_hex n) = Some n)) (map Z.of_nat (seq 0 16)) = true) as H by (by vm_compute).
  rewrite forallb_forall in H. specialize (H n). rewrite bool_decide_eq_true in H. apply H, in_map_iff. exists (Z.to_nat n).
  split; [lia|]. apply in_seq. lia.
Qed.
Lemma url_roundtrip keep plus s : keep "%"%char = false -> (plus = true -> keep "+"%char = false) ->
  url_unescape plus (url_escape keep plus s) = Some s.
Proof.
  intros Hp Hq. induction s as [|c s IH]; [done|]. cbn [url_escape]. destruct (keep c) eqn:Hk.
  - rewrite (unescape_cons plus c _ s ltac:(intros ->; congruence) IH). do 2 f_equal. destruct plus; [|done]. simpl.
    destruct (Ascii.eqb_spec c "+") as [->|]; [rewrite Hq in Hk; done|done].
  - destruct (plus && Ascii.eqb c " ") eqn:Es.
    + apply andb_true_iff in Es as [-> Es%Ascii.eqb_eq]. subst c. rewrite (unescape_cons true "+" _ s); done.
    + simpl. assert (0 <= byte_of c < 256) as Hb by (unfold byte_of; pose proof (N_ascii_bounded c); lia).
      rewrite !upper_hex_value by (Z.to_euclidean_division_equations; lia). simpl. rewrite IH. simpl. do 2 f_equal.
      replace (byte_of c / 16 * 16 + byte_of c mod 16) with (byte_of c) by (Z.to_euclidean_division_equations; lia).
      unfold byte_of. rewrite N2Z.id. apply ascii_N_embedding.
Qed.
Lemma query_roundtrip s : url_unescape true (QueryEscape s) = Some s.
Proof. by apply url_roundtrip. Qed.
Lemma fragment_roundtrip s : url_unescape false (FragmentEscape s) = Some s.
Proof. by apply url_roundtrip. Qed.
(** What a text escaped may contain. *)
Lemma url_escape_bytes keep plus (q : ascii -> bool) s : (forall c, keep c = true -> q c = true) -> q "%"%char = true ->
  (plus = true -> q "+"%char = true) -> (forall n, 0 <= n < 16 -> q (upper_hex n) = true) -> all_bytes q (url_escape keep plus s) = true.
Proof.
  intros H1 H2 H3 H4. induction s as [|c s IH]; [done|]. simpl. destruct (keep c) eqn:Hk; simpl; [by rewrite H1|].
  destruct (plus && Ascii.eqb c " ") eqn:Es; simpl; [apply andb_true_iff in Es as [-> _]; by rewrite H3|].
  assert (0 <= byte_of c < 256) as Hb by (unfold byte_of; pose proof (N_ascii_bounded c); lia).
  rewrite H2, !H4 by (Z.to_euclidean_division_equations; lia). done.
Qed.

(** ** net *)

Definition octet (s : string) : bool :=
  match s with
  | EmptyString => false
  | String c s' => all_bytes digit s && (negb (Ascii.eqb c "0") || bool_decide (s' = ""%string)) &&
      match digits_value s 0 with Some v => v <=? 255 | None => false end
  end.
Definition ipv4 (s : string) : bool :=
  match split_on "." s with [a; b; c; d] => octet a && octet b && octet c && octet d | _ => false end.
(** The hexadecimal digits a text starts with, and the rest. *)
Fixpoint hex_run (s : string) : Z * string :=
  match s with
  | EmptyString => (0, EmptyString)
  | String c s' => if hex c then (fst (hex_run s') + 1, snd (hex_run s')) else (0, s)
  end.
(** Groups of an IPv6 address: [i] bytes are known, [ellipsis] was seen. *)
Fixpoint ipv6_groups (fuel : nat) (i : Z) (ellipsis : bool) (s : string) : bool :=
  let finish i ellipsis := if i <? 16 then ellipsis else negb ellipsis in
  match fuel with
  | O => false
  | S fuel' =>
      let '(off, rest) := hex_run s in
      if (off =? 0) || (4 <? off) then false
      else match rest with
           | EmptyString => finish (i + 2) ellipsis
           | String "." _ => (ellipsis || (i =? 12)) && (i + 4 <=? 16) && ipv4 s && finish (i + 4) ellipsis
           | String ":" EmptyString => false
           | String ":" (String ":" rest') =>
               if ellipsis then false
               else if bool_decide (rest' = ""%string) then finish (i + 2) true else ipv6_groups fuel' (i + 2) true rest'
           | String ":" rest' => ipv6_groups fuel' (i + 2) ellipsis rest'
           | _ => false
           end
  end.
(** Sixteen bytes are eight groups. *)
Definition ipv6 (s : string) : bool :=
  match s with
  | String ":" (String ":" s') => if bool_decide (s' = ""%string) then true else ipv6_groups 8 0 true s'
  | _ => ipv6_groups 8 0 false s
  end.
Fixpoint first_of (set s : string) : option ascii :=
  match s with
  | EmptyString => None
  | String c s' => if existsb (Ascii.eqb c) (String.list_ascii_of_string set) then Some c else first_of set s'
  end.
(** [net.ParseIP(s) != nil]: an address with a zone is none. *)
Definition ParseIP (s : string) : bool :=
  match first_of ".:%" s with
  | Some "."%char => ipv4 s
  | Some ":"%char => negb (contains_any "%" s) && ipv6 s
  | _ => false
  end.
Example ParseIP_examples :
  map ParseIP ["10.0.0.1"; "010.0.0.1"; "1.2.3"; "256.1.1.1"; "::"; "::1"; "2001:db8::8a2e:370:7334"; "1:2:3:4:5:6:7:8"; "1:2:3:4:5:6:7::8";
    "1:2:3:4:5:6:1.2.3.4"; "::ffff:1.2.3.4"; "fe80::1%eth0"; "12345::"; "1::2::3"; "example.org"; "1:2:3:4:5:6:7:8:"; "1:2:3:4:5:6:7::"; "1:2:3:4:5:6:7:8::"]%string
  = [true; false; false; false; true; true; true; true; false; true; true; false; false; false; false; false; true; false].
Proof. vm_compute. reflexivity. Qed.
(** [net.JoinHostPort]. *)
Definition JoinHostPort (host port : string) : string :=
  if contains_any ":%" host then ("[" +:+ host +:+ "]:" +:+ port)%string else (host +:+ ":" +:+ port)%string.
