(* ===== verification/Aes.v ===== *)
(** * AES-256-GCM and HMAC-SHA256

    What the services use of [crypto/aes], [crypto/cipher] and [crypto/hmac]:
    the block cipher for keys of 32 bytes, sealing and opening with a nonce of
    12 bytes and a tag of 16, and the keyed hash. A block is a number of 128
    bits, a text a list of bytes. *)

From Stdlib Require Import List.
From S2P Require Import Prelude GoStrings Sha256.

(** ** The block cipher *)

Definition double (b : Z) : Z := let d := 2 * b in if 256 <=? d then Z.lxor d 283 else d.
(** The product in the field of 256 elements; eight bits. *)
Fixpoint field_mul (fuel : nat) (a b : Z) : Z :=
  match fuel with
  | O => 0
  | S fuel' => Z.lxor (if Z.testbit b 0 then a else 0) (field_mul fuel' (double a) (Z.shiftr b 1))
  end.
Definition inverse (b : Z) : Z :=
  default 0 (find (fun c => field_mul 8 b c =? 1) (map Z.of_nat (seq 0 256))).
Definition rotl8 (n b : Z) : Z := Z.lor (Z.shiftl b n mod 256) (Z.shiftr b (8 - n)).
Definition sbox_table : list Z := Eval vm_compute in
  map (fun n => let b := inverse (Z.of_nat n) in
                Z.lxor (Z.lxor (Z.lxor (Z.lxor (Z.lxor b (rotl8 1 b)) (rotl8 2 b)) (rotl8 3 b)) (rotl8 4 b)) 99) (seq 0 256).
Definition sbox (b : Z) : Z := nth (Z.to_nat b) sbox_table 0.

Definition xor (a b : list Z) : list Z := map (fun ab => Z.lxor (fst ab) (snd ab)) (combine a b).
Definition rot_word (w : list Z) : list Z := match w with [] => [] | b :: w' => w' ++ [b] end.
(** The words of the key schedule, last first: [i] is the index of the next. *)
Fixpoint expand (n : nat) (i : nat) (rcon : Z) (ws : list (list Z)) : list (list Z) :=
  match n with
  | O => ws
  | S n' =>
      let temp := nth 0 ws [] in
      let '(temp, rcon) :=
        if (i mod 8 =? 0)%nat then (xor (map sbox (rot_word temp)) [rcon; 0; 0; 0], double rcon)
        else if (i mod 8 =? 4)%nat then (map sbox temp, rcon) else (temp, rcon) in
      expand n' (S i) rcon (xor (nth 7 ws []) temp :: ws)
  end.
(** Sixty words: fifteen round keys. *)
Definition round_keys (key : list Z) : list (list Z) :=
  chunks 16 15 (concat (rev (expand 52 8 1 (rev (chunks 4 8 key))))).
Definition shift_rows (s : list Z) : list Z := map (fun i => nth i s 0) [0; 5; 10; 15; 4; 9; 14; 3; 8; 13; 2; 7; 12; 1; 6; 11]%nat.
Definition mix_column (c : list Z) : list Z :=
  match c with
  | [a0; a1; a2; a3] =>
      let m2 := double in let m3 x := Z.lxor (double x) x in
      [Z.lxor (Z.lxor (m2 a0) (m3 a1)) (Z.lxor a2 a3); Z.lxor (Z.lxor a0 (m2 a1)) (Z.lxor (m3 a2) a3);
       Z.lxor (Z.lxor a0 a1) (Z.lxor (m2 a2) (m3 a3)); Z.lxor (Z.lxor (m3 a0) a1) (Z.lxor a2 (m2 a3))]
  | _ => c
  end.
Definition sub_shift (s : list Z) : list Z := shift_rows (map sbox s).
Fixpoint rounds (s : list Z) (keys : list (list Z)) : list Z :=
  match keys with
  | [] => s
  | [last] => xor (sub_shift s) last
  | k :: keys' => rounds (xor (concat (map mix_column (chunks 4 4 (sub_shift s)))) k) keys'
  end.
Definition encrypt_block (keys : list (list Z)) (block : Z) : Z :=
  match keys with
  | [] => block
  | k :: keys' => be_word (rounds (xor (be_bytes 16 block) k) keys')
  end.

(** ** Galois/counter mode *)

Definition reduction : Z := Z.shiftl 225 120.
(** The product in the field of 2^128 elements, the first bit the highest. *)
Fixpoint ghash_mul (n : nat) (x v acc : Z) : Z :=
  match n with
  | O => acc
  | S n' =>
      let acc := if Z.testbit x (Z.of_nat n') then Z.lxor acc v else acc in
      let half := Z.shiftr v 1 in
      ghash_mul n' x (if Z.testbit v 0 then Z.lxor half reduction else half) acc
  end.
Definition blocks16 (l : list Z) : list (list Z) := chunks 16 ((length l + 15) / 16) l.
Definition pad16 (l : list Z) : list Z := l ++ repeat 0 (16 - length l).
Definition ghash (h : Z) (aad text : list Z) : Z :=
  let lens := Z.lor (Z.shiftl (8 * Z.of_nat (length aad)) 64) (8 * Z.of_nat (length text)) in
  fold_left (fun y b => ghash_mul 128 (Z.lxor y b) h 0) (map (fun b => be_word (pad16 b)) (blocks16 aad ++ blocks16 text) ++ [lens]) 0.
(** The counter block of a nonce of 12 bytes; its last four bytes count. *)
Definition counter_block (nonce : list Z) (i : Z) : Z := be_word nonce * 2 ^ 32 + i mod 2 ^ 32.
Fixpoint ctr (keys : list (list Z)) (nonce : list Z) (i : Z) (blocks : list (list Z)) : list Z :=
  match blocks with
  | [] => []
  | b :: bs => xor b (be_bytes 16 (encrypt_block keys (counter_block nonce i))) ++ ctr keys nonce (i + 1) bs
  end.
Definition gcm_tag (keys : list (list Z)) (nonce aad text : list Z) : list Z :=
  be_bytes 16 (Z.lxor (ghash (encrypt_block keys 0) aad text) (encrypt_block keys (counter_block nonce 1))).
Definition NonceSize : nat := 12.
Definition Overhead : nat := 16.
Definition Seal (key nonce plaintext aad : list Z) : list Z :=
  let keys := round_keys key in let text := ctr keys nonce 2 (blocks16 plaintext) in text ++ gcm_tag keys nonce aad text.
Definition Open (key nonce sealed aad : list Z) : option (list Z) :=
  let keys := round_keys key in let n := (length sealed - Overhead)%nat in
  if (length sealed <? Overhead)%nat then None
  else let text := firstn n sealed in
       if bool_decide (gcm_tag keys nonce aad text = skipn n sealed) then Some (ctr keys nonce 2 (blocks16 text)) else None.

(** ** The keyed hash *)

Definition hmac_key (key : list Z) : list Z :=
  let k := if (64 <? length key)%nat then sha256 key else key in k ++ repeat 0 (64 - length k).
Definition hmac_sha256 (key msg : list Z) : list Z :=
  let k := hmac_key key in sha256 (map (Z.lxor 92) k ++ sha256 (map (Z.lxor 54) k ++ msg)).

(** ** Test vectors *)

Definition hex_text (s : string) : list Z :=
  let fix go (l : list Z) := match l with a :: b :: l' => (16 * a + b) :: go l' | _ => [] end in
  go (map (fun b => if b <? 58 then b - 48 else b - 87) (bytes_of s)).
Example sbox_ends : firstn 4 sbox_table = [99; 124; 119; 123] /\ skipn 252 sbox_table = [176; 84; 187; 22].
Proof. vm_compute. done. Qed.
Example fips_197 :
  hex_bytes (be_bytes 16 (encrypt_block (round_keys (map Z.of_nat (seq 0 32))) (be_word (hex_text "00112233445566778899aabbccddeeff"))))
  = "8ea2b7ca516745bfeafc49904b496089"%string.
Proof. vm_compute. reflexivity. Qed.
Example gcm_case_16 :
  hex_bytes (Seal (hex_text "feffe9928665731c6d6a8f9467308308feffe9928665731c6d6a8f9467308308") (hex_text "cafebabefacedbaddecaf888")
    (hex_text "d9313225f88406e5a55909c5aff5269a86a7a9531534f7da2e4c303d8a318a721c3c0c95956809532fcf0e2449a6b525b16aedf5aa0de657ba637b39")
    (hex_text "feedfacedeadbeeffeedfacedeadbeefabaddad2"))
  = ("522dc1f099567d07f47f37a32a84427d643a8cdcbfe5c0c97598a2bd2555d1aa8cb08e48590dbb3da7b08b1056828838c5f61e6393ba7a0abcc9f662" +:+
     "76fc6ece0f4e1768cddf8853bb2d551b")%string.
Proof. vm_compute. reflexivity. Qed.
Example rfc_4231_case_2 :
  hex_bytes (hmac_sha256 (bytes_of "Jefe") (bytes_of "what do ya want for nothing?"))
  = "5bdcc146bf60754e6a042426089575c75a003f089d2739839dec58b964ec3843"%string.
Proof. vm_compute. reflexivity. Qed.

(** ** What is sealed opens *)

Lemma length_xor a b : (length a <= length b)%nat -> length (xor a b) = length a.
Proof. intros H. unfold xor. rewrite length_map, length_combine. lia. Qed.
Lemma xor_twice a b : (length a <= length b)%nat -> xor (xor a b) b = a.
Proof.
  revert b. induction a as [|x a IH]; intros [|y b] H; simpl in *; try done; [lia|]. unfold xor in *. simpl.
  rewrite Z.lxor_assoc, Z.lxor_nilpotent, Z.lxor_0_r, IH by lia. done.
Qed.
Lemma is_byte_xor x y : is_byte x -> is_byte y -> is_byte (Z.lxor x y).
Proof.
  unfold is_byte. intros Hx Hy. assert (0 <= Z.lxor x y) as Hp by (apply Z.lxor_nonneg; lia). split; [done|].
  destruct (decide (Z.lxor x y = 0)) as [->|Hne]; [lia|]. apply Z.log2_lt_cancel. eapply Z.le_lt_trans; [apply Z.log2_lxor; lia|].
  assert (forall z, 0 <= z < 256 -> Z.log2 z < Z.log2 256) as Hb.
  { intros z Hz. eapply Z.le_lt_trans; [apply (Z.log2_le_mono _ 255); lia|]. by vm_compute. }
  apply Z.max_lub_lt; by apply Hb.
Qed.
Lemma xor_bytes a b : Forall is_byte a -> Forall is_byte b -> Forall is_byte (xor a b).
Proof.
  intros Ha. revert b. induction Ha as [|x a Hx _ IH]; intros [|y b] Hb; try by constructor.
  inversion Hb; subst. constructor; [by apply is_byte_xor|by apply IH].
Qed.

Section stream.
Context (keys : list (list Z)) (nonce : list Z).

Lemma ctr_nil n i : ctr keys nonce i (chunks 16 n []) = [].
Proof. revert i. induction n as [|n IH]; intros i; [done|]. simpl. by rewrite IH. Qed.
Lemma length_ctr n i l : (length l <= 16 * n)%nat -> length (ctr keys nonce i (chunks 16 n l)) = length l.
Proof.
  revert i l. induction n as [|n IH]; intros i l H.
  - destruct l; [done|simpl in H; lia].
  - cbn [chunks ctr]. rewrite length_app, length_xor by (rewrite length_be_bytes, firstn_length; lia).
    rewrite IH by (rewrite skipn_length; lia). rewrite firstn_length, skipn_length. lia.
Qed.
Lemma ctr_twice n i l : (length l <= 16 * n)%nat -> ctr keys nonce i (chunks 16 n (ctr keys nonce i (chunks 16 n l))) = l.
Proof.
  revert i l. induction n as [|n IH]; intros i l H.
  - destruct l; [done|simpl in H; lia].
  - cbn [chunks ctr]. set (ks := be_bytes 16 _). assert (length ks = 16%nat) as Hk by apply length_be_bytes.
    set (out := xor (firstn 16 l) ks). assert (length out = min 16 (length l)) as Ho by (unfold out; rewrite length_xor, firstn_length; [done|]; rewrite firstn_length; lia).
    destruct (Nat.le_gt_cases 16 (length l)) as [Hl|Hl].
    + rewrite take_app_length', drop_app_length' by lia. rewrite IH by (rewrite skipn_length; lia).
      unfold out. rewrite xor_twice by (rewrite firstn_length; lia). apply firstn_skipn.
    + rewrite (skipn_all2 l), ctr_nil, app_nil_r by lia. rewrite firstn_all2, skipn_all2, ctr_nil, app_nil_r by lia.
      unfold out. rewrite xor_twice by (rewrite firstn_length; lia). apply firstn_all2. lia.
Qed.
Lemma ctr_bytes n i l : Forall is_byte l -> Forall is_byte (ctr keys nonce i (chunks 16 n l)).
Proof.
  revert i l. induction n as [|n IH]; intros i l H; [constructor|]. cbn [chunks ctr]. rewrite <- (firstn_skipn 16 l) in H.
  apply Forall_app in H as [H1 H2]. apply Forall_app. split; [|by apply IH]. apply xor_bytes; [done|apply be_bytes_byte].
Qed.
End stream.

Lemma blocks_enough (l : list Z) : (length l <= 16 * ((length l + 15) / 16))%nat.
Proof. pose proof (Nat.div_mod (length l + 15) 16 ltac:(lia)). pose proof (Nat.mod_upper_bound (length l + 15) 16 ltac:(lia)). lia. Qed.
Lemma Open_Seal key nonce plaintext aad : Open key nonce (Seal key nonce plaintext aad) aad = Some plaintext.
Proof.
  unfold Open, Seal. set (keys := round_keys key). pose proof (blocks_enough plaintext) as Hn.
  set (text := ctr keys nonce 2 (blocks16 plaintext)). set (tag := gcm_tag keys nonce aad text).
  assert (length text = length plaintext) as Ht by (by apply length_ctr). assert (length tag = 16%nat) as Hg by apply length_be_bytes.
  rewrite !length_app, Hg. change Overhead with 16%nat. rewrite (proj2 (Nat.ltb_ge _ _)) by lia.
  replace (length text + 16 - 16)%nat with (length text) by lia. rewrite take_app_length, drop_app_length.
  rewrite bool_decide_true by done. f_equal. unfold blocks16. rewrite Ht. by apply ctr_twice.
Qed.
Lemma Seal_bytes key nonce plaintext aad : Forall is_byte plaintext -> Forall is_byte (Seal key nonce plaintext aad).
Proof. intros H. apply Forall_app. split; [by apply ctr_bytes|apply be_bytes_byte]. Qed.
Lemma length_Seal key nonce plaintext aad : length (Seal key nonce plaintext aad) = (length plaintext + Overhead)%nat.
Proof.
  unfold Seal. rewrite length_app. unfold blocks16 at 1. rewrite length_ctr by apply blocks_enough. unfold gcm_tag. by rewrite length_be_bytes.
Qed.
Lemma hmac_bytes key msg : Forall is_byte (hmac_sha256 key msg).
Proof. apply sha256_bytes. Qed.
Lemma length_hmac key msg : length (hmac_sha256 key msg) = 32%nat.
Proof. apply length_sha256. Qed.
