(* ===== verification/Platform.v ===== *)
(** * Platform pieces shared by the services

    The Kafka envelope of src/internal/platform/kafka/kafka.go and Go's
    RFC 3339 rendering of an instant, which the services use inside
    deduplication keys. *)

From Stdlib Require Import Ascii List.
From S2P Require Import Prelude GoStrings Backoff.

(** An event as it travels through an outbox and Kafka. [Data] is the
    event-specific JSON object, kept as a value of a type of the producer. *)
Record Envelope (D : Type) := MkEnvelope {
  env_EventID : string;
  env_EventType : string;
  env_SchemaVersion : Z;
  env_OccurredAt : Z;
  env_Producer : string;
  env_CorrelationID : string;
  env_CausationID : option string;
  env_AggregateType : string;
  env_AggregateID : string;
  env_AggregateSequence : Z;
  env_PartitionKey : string;
  env_Data : D
}.
Arguments MkEnvelope {D}.
Arguments env_EventID {D}. Arguments env_EventType {D}. Arguments env_SchemaVersion {D}.
Arguments env_OccurredAt {D}. Arguments env_Producer {D}. Arguments env_CorrelationID {D}.
Arguments env_CausationID {D}. Arguments env_AggregateType {D}. Arguments env_AggregateID {D}.
Arguments env_AggregateSequence {D}. Arguments env_PartitionKey {D}. Arguments env_Data {D}.

(** ** [t.UTC().Format(time.RFC3339Nano)] *)

Fixpoint zeros (n : nat) (s : string) : string :=
  match n with O => s | S n' => String "0" (zeros n' s) end.
Definition padded (width : nat) (n : Z) : string :=
  let d := decimal n in zeros (width - String.length d) d.

(** Proleptic Gregorian date of a day counted from 1 January of year 1. *)
Definition civil (days : Z) : Z * Z * Z :=
  let z := days + 306 in
  let era := z / 146097 in
  let doe := z mod 146097 in
  let yoe := (doe - doe / 1460 + doe / 36524 - doe / 146096) / 365 in
  let doy := doe - (365 * yoe + yoe / 4 - yoe / 100) in
  let mp := (5 * doy + 2) / 153 in
  let d := doy - (153 * mp + 2) / 5 + 1 in
  let m := if mp <? 10 then mp + 3 else mp - 9 in
  (yoe + era * 400 + (if m <=? 2 then 1 else 0), m, d).

Fixpoint drop_zeros (s : string) : string :=
  match s with
  | EmptyString => EmptyString
  | String c s' =>
      match drop_zeros s' with
      | EmptyString => if Ascii.eqb c "0" then EmptyString else String c EmptyString
      | t => String c t
      end
  end.

Definition rfc3339nano (t : Z) : string :=
  let secs := t / second in
  let nanos := t mod second in
  let '(y, mo, d) := civil (secs / 86400) in
  let tod := secs mod 86400 in
  let frac := if nanos =? 0 then "" else ("." +:+ drop_zeros (padded 9 nanos))%string in
  (padded 4 y +:+ "-" +:+ padded 2 mo +:+ "-" +:+ padded 2 d +:+ "T" +:+
   padded 2 (tod / 3600) +:+ ":" +:+ padded 2 (tod / 60 mod 60) +:+ ":" +:+
   padded 2 (tod mod 60) +:+ frac +:+ "Z")%string.

Example rfc3339nano_zero : rfc3339nano 0 = "0001-01-01T00:00:00Z".
Proof. reflexivity. Qed.
(** 18 July 2026, 12:00:00.5 UTC: Unix time 1784376000 counted from year 1. *)
Example rfc3339nano_2026 :
  rfc3339nano ((1784376000 + 62135596800) * second + 500000000) = "2026-07-18T12:00:00.5Z".
Proof. vm_compute. reflexivity. Qed.
Example rfc3339nano_leap :
  rfc3339nano ((951782400 + 62135596800) * second) = "2000-02-29T00:00:00Z".
Proof. vm_compute. reflexivity. Qed.
