(* ===== verification/OrderedConsumer.v ===== *)
(** * The consumer loop of ordered events

    The loop provisioning-service and access-service share, statement for
    statement (pollOnce, deferGap and retryDeferred of
    src/services/{provisioning,access}/internal/kafka/consumer.go): one record
    is fetched at a time; a record ahead of its turn is deferred and its
    partition paused; after every commit the deferred records are retried
    until none of them makes progress. How a service attempts a record, and
    the database it attempts it on, are parameters; [OrderedAttempts] is what the
    loop needs to know of them. *)

From Stdlib Require Import Ascii List.
From S2P Require Import Prelude GoStrings.

Record kafka_record := MkRecord {
  rec_topic : string;
  rec_partition : Z;
  rec_offset : Z;
  rec_key : string;
  rec_value : string
}.
#[export] Instance kafka_record_eq_dec : EqDecision kafka_record.
Proof. solve_decision. Defined.

Definition source_of (r : kafka_record) : string * Z * Z := (rec_topic r, rec_partition r, rec_offset r).
(** How an attempt at a record ends. *)
Inductive verdict := Committed | CommitFailed | Gap | Retry.

(** The calls on the Kafka client that move positions. *)
Inductive client_call :=
  | CommitRecords (r : kafka_record) (ok : bool)
  | SetOffsets (r : kafka_record)
  | PauseFetchPartitions (p : string * Z)
  | ResumeFetchPartitions (p : string * Z)
  | AllowRebalance.
#[export] Instance client_call_eq_dec : EqDecision client_call.
Proof. solve_decision. Defined.
Definition commit_call (v : verdict) (r : kafka_record) : list client_call :=
  match v with Committed => [CommitRecords r true] | CommitFailed => [CommitRecords r false] | _ => [] end.

Definition partition_of (r : kafka_record) : string * Z := (rec_topic r, rec_partition r).
Abbreviation deferred := (gmap (string * Z) kafka_record).

Definition deferGap (r : kafka_record) (q : deferred) : deferred * list client_call :=
  match q !! partition_of r with
  | Some _ => (q, [])
  | None => (<[partition_of r := r]> q, [PauseFetchPartitions (partition_of r)])
  end.

Section loop.
Context {DB Env : Type} (attempt : Env -> kafka_record -> DB -> verdict * DB).

(** One round over the deferred records, in the order [range] yields them. *)
Fixpoint retry_round (envs : string * Z -> Env) (keys : list (string * Z)) (q : deferred) (d : DB)
    : bool * deferred * DB * list client_call :=
  match keys with
  | [] => (false, q, d, [])
  | k :: keys' =>
      match q !! k with
      | None => retry_round envs keys' q d
      | Some r =>
          match attempt (envs k) r d with
          | (Committed, d1) =>
              let '(_, q2, d2, calls) := retry_round envs keys' (delete k q) d1 in
              (true, q2, d2, CommitRecords r true :: ResumeFetchPartitions (partition_of r) :: calls)
          | (v, d1) =>
              let '(progressed, q2, d2, calls) := retry_round envs keys' q d1 in
              (progressed, q2, d2, commit_call v r ++ calls)
          end
      end
  end.
(** Rounds until one makes no progress; each that does shortens the queue.
    [None] is running out of fuel. *)
Fixpoint retryDeferred (fuel i : nat) (envs : nat -> string * Z -> Env)
    (range : nat -> deferred -> list (string * Z)) (q : deferred) (d : DB)
    : option (deferred * DB * list client_call) :=
  match fuel with
  | O => None
  | S fuel' =>
      match retry_round (envs i) (range i q) q d with
      | (true, q1, d1, calls) =>
          '(q2, d2, calls2) ← retryDeferred fuel' (S i) envs range q1 d1; Some (q2, d2, calls ++ calls2)
      | (false, q1, d1, calls) => Some (q1, d1, calls)
      end
  end.

(** One poll: [PollRecords] asks for one record at most. [cancelled] and
    [alive] say how the context stands before and after the record. *)
Definition pollOnce (fuel : nat) (envs : nat -> string * Z -> Env)
    (range : nat -> deferred -> list (string * Z)) (record : option kafka_record) (cancelled alive : bool)
    (e : Env) (q : deferred) (d : DB) : option (bool * deferred * DB * list client_call) :=
  match record with
  | None =>
      if bool_decide (q = ∅) then Some (alive, q, d, [AllowRebalance])
      else '(q1, d1, calls) ← retryDeferred fuel 0 envs range q d; Some (alive, q1, d1, calls ++ [AllowRebalance])
  | Some r =>
      if cancelled then Some (false, q, d, [SetOffsets r; AllowRebalance])
      else match attempt e r d with
           | (Gap, d1) => let '(q1, calls) := deferGap r q in Some (alive, q1, d1, calls ++ [AllowRebalance])
           | (Committed, d1) =>
               '(q2, d2, calls) ← retryDeferred fuel 0 envs range q d1;
               Some (alive, q2, d2, CommitRecords r true :: calls ++ [AllowRebalance])
           | (v, d1) => Some (alive, q, d1, commit_call v r ++ [SetOffsets r; AllowRebalance])
           end
  end.

End loop.

(** ** What the loop guarantees *)

(** What the loop relies on: [inv] holds of every database, [leads] relates a
    database to the later ones, [settled] holds of a record the database has taken in for good. An
    attempt moves on to the commit only with a settled record, and one that is told to wait or to
    retry leaves the database alone. *)
Class OrderedAttempts {DB Env} (attempt : Env -> kafka_record -> DB -> verdict * DB) (commit_ok : Env -> bool)
    (inv : DB -> Prop) (leads : DB -> DB -> Prop) (settled : DB -> kafka_record -> Prop) := {
  at_inv : forall d d', leads d d' -> inv d -> inv d';
  at_refl : forall d, leads d d;
  at_trans : forall d1 d2 d3, leads d1 d2 -> leads d2 d3 -> leads d1 d3;
  at_settled : forall d d' r, leads d d' -> settled d r -> settled d' r;
  at_outcome : forall e r d v d1, inv d -> attempt e r d = (v, d1) ->
    leads d d1 /\
    match v with
    | Committed => settled d1 r
    | CommitFailed => commit_ok e = false /\ settled d1 r
    | Gap | Retry => d1 = d
    end
}.

Section guarantees.
Context {DB Env} {attempt : Env -> kafka_record -> DB -> verdict * DB} {commit_ok : Env -> bool}.
Context {inv : DB -> Prop} {leads : DB -> DB -> Prop} {settled : DB -> kafka_record -> Prop}.
Context `{!OrderedAttempts attempt commit_ok inv leads settled}.

(** What a round leaves behind. *)
Record round_outcome (q : deferred) (d : DB) (q' : deferred) (d' : DB) (calls : list client_call) : Prop := {
  ro_leads : leads d d';
  ro_queue : q' ⊆ q;
  ro_settled : forall k r, q !! k = Some r -> q' !! k = None -> settled d' r /\ CommitRecords r true ∈ calls;
  ro_commits : forall r ok, CommitRecords r ok ∈ calls -> settled d' r
}.
Lemma round_refl q d : round_outcome q d q d [].
Proof. split; [apply at_refl|done|congruence|set_solver]. Qed.
Lemma round_trans q d q1 d1 q2 d2 c1 c2 :
  round_outcome q d q1 d1 c1 -> round_outcome q1 d1 q2 d2 c2 -> round_outcome q d q2 d2 (c1 ++ c2).
Proof.
  intros [R1 Q1 S1 C1] [R2 Q2 S2 C2]. split; [by eapply at_trans|by etrans| |].
  - intros k r Hk Hn. destruct (q1 !! k) as [r'|] eqn:E.
    + assert (r' = r) as -> by (eapply lookup_weaken in E; [|exact Q1]; congruence).
      destruct (S2 _ _ E Hn). split; [done|]. apply elem_of_app. by right.
    + destruct (S1 _ _ Hk E). split; [by eapply at_settled|]. apply elem_of_app. by left.
  - intros r ok [H|H]%elem_of_app; [|by eapply C2]. eapply at_settled; [exact R2|]. by eapply C1.
Qed.

Lemma retry_round_outcome envs keys q d progressed q' d' calls : inv d ->
  retry_round attempt envs keys q d = (progressed, q', d', calls) ->
  round_outcome q d q' d' calls /\ if progressed then (size q' < size q)%nat else q' = q.
Proof.
  revert q d progressed calls. induction keys as [|k keys IH]; intros q d progressed calls HI; simpl.
  { intros [= <- <- <- <-]. split; [apply round_refl|done]. }
  destruct (q !! k) as [r|] eqn:Ek; [|by apply IH].
  destruct (attempt (envs k) r d) as [v d1] eqn:Ea. apply at_outcome in Ea as [Hr Hv]; [|done].
  assert (forall d1, leads d d1 -> v <> Committed -> (v = CommitFailed -> settled d1 r) -> (let '(progressed, q2, d2, calls) := retry_round attempt envs keys q d1 in
      (progressed, q2, d2, commit_call v r ++ calls)) = (progressed, q', d', calls) ->
    round_outcome q d q' d' calls /\ if progressed then (size q' < size q)%nat else q' = q) as Hstay.
  { intros d0 Hd0 Hne Hcf. destruct (retry_round attempt envs keys q d0) as [[[p2 q2] d2] calls2] eqn:E. intros [= <- <- <- <-].
    apply IH in E as [Ho Hp]; [|by eapply at_inv]. split; [|done]. eapply round_trans; [|exact Ho].
    split; [done|done|congruence|]. intros r' ok. destruct v; simpl; [done| |set_solver..].
    intros [= -> ->]%list_elem_of_singleton. by apply Hcf. }
  destruct v; try (apply Hstay; [done|done|naive_solver]).
  destruct (retry_round attempt envs keys (delete k q) d1) as [[[p2 q2] d2] calls2] eqn:E. intros [= <- <- <- <-].
  apply IH in E as [Ho Hp]; [|by eapply at_inv]. split.
  - change (CommitRecords r true :: _ :: calls2) with ([CommitRecords r true; ResumeFetchPartitions (partition_of r)] ++ calls2).
    eapply round_trans; [|exact Ho]. split; [done|apply delete_subseteq| |].
    + intros k' r' Hk' Hn. apply lookup_delete_None in Hn as [<-|Hn]; [|congruence].
      assert (r' = r) as -> by congruence. split; [done|set_solver].
    + intros r' ok H. apply elem_of_cons in H as [[= -> ->]|H]; [done|set_solver].
  - assert (size q2 <= size (delete k q))%nat as H by (apply map_subseteq_size, Ho).
    rewrite map_size_delete_Some in H by eauto. assert (size q <> 0)%nat; [|lia].
    intros Hz%map_size_empty_inv. subst q. by rewrite lookup_empty in Ek.
Qed.

Lemma retryDeferred_outcome fuel i envs range q d q' d' calls : inv d ->
  retryDeferred attempt fuel i envs range q d = Some (q', d', calls) -> round_outcome q d q' d' calls.
Proof.
  revert i q d calls. induction fuel as [|fuel IH]; intros i q d calls HI; [done|]. simpl.
  destruct (retry_round _ _ _ _ _) as [[[p q1] d1] calls1] eqn:E. apply retry_round_outcome in E as [Ho _]; [|done].
  destruct p; [|by intros [= <- <- <-]]. intros H.
  destruct (retryDeferred _ _ _ _ _ _ _) as [[[q2 d2] calls2]|] eqn:E2; [|done]. injection H as <- <- <-.
  eapply round_trans; [exact Ho|]. eapply IH; [|exact E2]. by eapply at_inv, HI; apply Ho.
Qed.

(** A queue of [n] records is retried at most [n + 1] times. *)
Lemma retryDeferred_terminates fuel i envs range q d : inv d ->
  (size q < fuel)%nat -> is_Some (retryDeferred attempt fuel i envs range q d).
Proof.
  revert i q d. induction fuel as [|fuel IH]; intros i q d HI Hs; [lia|]. simpl.
  destruct (retry_round _ _ _ _ _) as [[[p q1] d1] calls1] eqn:E. apply retry_round_outcome in E as [Ho Hp]; [|done].
  destruct p; [|by eexists]. destruct (IH (S i) q1 d1) as [[[q2 d2] calls2] ->]; [by eapply at_inv, HI; apply Ho|lia|]. by eexists.
Qed.

(** One poll terminates; a position is committed only when the record is
    settled; a deferred record stays deferred until it is settled; the record
    fetched is settled, deferred, or fetched again. *)
Lemma poll_keeps_records fuel envs range record cancelled alive e q d : inv d ->
  (size q < fuel)%nat -> (forall r, record = Some r -> q !! partition_of r = None) ->
  exists go q' d' calls, pollOnce attempt fuel envs range record cancelled alive e q d = Some (go, q', d', calls) /\
    leads d d' /\
    (forall r, CommitRecords r true ∈ calls -> settled d' r) /\
    (forall k r, q !! k = Some r -> q' !! k = Some r \/ settled d' r) /\
    (forall r, record = Some r -> settled d' r \/ q' !! partition_of r = Some r \/ SetOffsets r ∈ calls).
Proof.
  intros HI Hf Hp. unfold pollOnce.
  assert (forall (q q' : deferred) k (r : kafka_record), q' ⊆ q -> q !! k = Some r -> q' !! k = Some r \/ q' !! k = None) as Hsub.
  { intros q0 q1 k r Hs Hk. destruct (q1 !! k) as [r'|] eqn:E; [|by right]. left. eapply lookup_weaken in E; [|exact Hs].
    congruence. }
  assert (forall d1, inv d1 -> exists q2 d2 calls, retryDeferred attempt fuel 0 envs range q d1 = Some (q2, d2, calls) /\
    round_outcome q d1 q2 d2 calls) as Hretry.
  { intros d1 HI1. destruct (retryDeferred_terminates fuel 0 envs range q d1 HI1 Hf) as [[[q2 d2] calls] E].
    exists q2, d2, calls. split; [done|]. by eapply retryDeferred_outcome. }
  destruct record as [r|].
  - specialize (Hp r eq_refl). destruct cancelled.
    { do 4 eexists. split; [done|]. split_and!; [apply at_refl|set_solver|by left|intros r' [= <-]; set_solver]. }
    destruct (attempt e r d) as [v d1] eqn:Ea. apply at_outcome in Ea as [Hr Hv]; [|done]. destruct v.
    + destruct (Hretry d1 (at_inv _ _ Hr HI)) as (q2 & d2 & calls & -> & [R Q S C]). do 4 eexists. split; [done|].
      pose proof (at_settled _ _ _ R Hv) as Hv2. split_and!; [by eapply at_trans| |eauto|].
      * intros r' [[= ->]|[H|H]%elem_of_app]%elem_of_cons; [done|by eapply C|set_solver].
      * intros k r' Hk. destruct (Hsub _ _ _ _ Q Hk) as [|Hn]; [by left|right; by eapply S].
      * intros r' [= <-]. by left.
    + do 4 eexists. split; [done|]. split_and!; [done|simpl; set_solver|by left|intros r' [= <-]; simpl; set_solver].
    + unfold deferGap. rewrite Hp. do 4 eexists. split; [done|]. split_and!; [done|set_solver| |].
      * intros k r' Hk. left. rewrite lookup_insert_ne by congruence. done.
      * intros r' [= <-]. right; left. apply lookup_insert_eq.
    + do 4 eexists. split; [done|]. split_and!; [done|simpl; set_solver|by left|intros r' [= <-]; simpl; set_solver].
  - case_bool_decide.
    + do 4 eexists. split; [done|]. split_and!; [apply at_refl|set_solver|by left|done].
    + destruct (Hretry d HI) as (q2 & d2 & calls & -> & [R Q S C]). do 4 eexists. split; [done|].
      split_and!; [done| | |done].
      * intros r' [Hc|Hc]%elem_of_app; [by eapply C|set_solver].
      * intros k r' Hk. destruct (Hsub _ _ _ _ Q Hk) as [|Hn]; [by left|right; by eapply S].
Qed.

(** Why the record of key [k] is still deferred after a round that ended in
    [d']: its commit failed; or it had to wait, or to be retried, at a moment
    of the round, which is its end unless a commit failed since. *)
Definition stays (e : Env) (r : kafka_record) (d d' : DB) (calls : list client_call) : Prop :=
  (CommitRecords r false ∈ calls /\ settled d' r) \/
  exists dl v, leads d dl /\ leads dl d' /\ attempt e r dl = (v, dl) /\ (v = Gap \/ v = Retry) /\
    ((forall r', CommitRecords r' false ∉ calls) -> dl = d').

Lemma stays_later e r d d1 d' c1 c2 : leads d d1 -> stays e r d1 d' c2 -> stays e r d d' (c1 ++ c2).
Proof.
  intros Hl [[Hc Hs]|(dl & v & Ha & Hb & He & Hv & Hq)]; [left|right].
  - split; [|done]. apply elem_of_app. by right.
  - exists dl, v. split_and!; [by eapply at_trans|done|done|done|]. intros Hn. apply Hq. intros r' H. apply (Hn r').
    apply elem_of_app. by right.
Qed.

(** A round without progress keeps the queue, and its database when no
    commit failed; every record has its reason to stay. *)
Lemma quiet_round envs keys q d q' d' calls : inv d ->
  retry_round attempt envs keys q d = (false, q', d', calls) ->
  q' = q /\ leads d d' /\ ((forall r, CommitRecords r false ∉ calls) -> d' = d) /\
  forall k r, k ∈ keys -> q !! k = Some r -> stays (envs k) r d d' calls.
Proof.
  revert d calls. induction keys as [|k keys IH]; intros d calls HI; simpl.
  { intros [= <- <- <-]. split_and!; [done|apply at_refl|done|set_solver]. }
  destruct (q !! k) as [r|] eqn:Ek.
  2:{ intros (Hq & Hl & Hn & H)%IH; [|done]. split_and!; [done|done|done|].
      intros k' r' [->|Hk']%elem_of_cons Hr'; [congruence|eauto]. }
  destruct (attempt (envs k) r d) as [v d1] eqn:Ea. pose proof (at_outcome _ _ _ _ _ HI Ea) as [Hl Hv].
  destruct v; [destruct (retry_round attempt envs keys (delete k q) d1) as [[[? ?] ?] ?]; intros [=]| | |];
    [|subst d1..]; destruct (retry_round attempt envs keys q _) as [[[p2 q2] d2] c2] eqn:E; intros [= -> <- <- <-];
    apply IH in E as (-> & Hl2 & Hn & H); try done; try (by eapply at_inv).
  - split_and!; [done|by eapply at_trans| |].
    + intros Hc. destruct (Hc r). set_solver.
    + intros k' r' [->|Hk']%elem_of_cons Hr'; [|apply (stays_later _ _ _ d1 _ [_]); eauto].
      assert (r' = r) as -> by congruence. left. split; [simpl; set_solver|]. eapply at_settled; [exact Hl2|apply Hv].
  - split_and!; [done|done|done|]. intros k' r' [->|Hk']%elem_of_cons Hr'; [|eauto].
    assert (r' = r) as -> by congruence. right. exists d, Gap. split_and!; [apply at_refl|done|done|auto|]. intros Hc. symmetry. by apply Hn.
  - split_and!; [done|done|done|]. intros k' r' [->|Hk']%elem_of_cons Hr'; [|eauto].
    assert (r' = r) as -> by congruence. right. exists d, Retry. split_and!; [apply at_refl|done|done|auto|]. intros Hc. symmetry. by apply Hn.
Qed.

(** When the retries end, every record that left the queue is settled and
    was committed, no commit was tried for a record that is not settled, and
    every record still deferred has its reason to stay in the last round. *)
Lemma retries_settle fuel i envs range q d : inv d -> (size q < fuel)%nat ->
  (forall i (q : deferred) k, is_Some (q !! k) -> k ∈ range i q) ->
  exists q' d' calls, retryDeferred attempt fuel i envs range q d = Some (q', d', calls) /\
    round_outcome q d q' d' calls /\
    exists last, forall k r, q' !! k = Some r -> stays (envs last k) r d d' calls.
Proof.
  intros HI Hf Hrange. destruct (retryDeferred_terminates fuel i envs range q d HI Hf) as [[[q' d'] calls] E].
  exists q', d', calls. split; [done|]. split; [by eapply retryDeferred_outcome|]. clear Hf. revert E.
  revert i q d calls HI. induction fuel as [|fuel IH]; intros i q d calls HI; [done|]. simpl.
  destruct (retry_round _ _ _ _ _) as [[[p q1] d1] calls1] eqn:E. destruct p.
  - destruct (retryDeferred _ _ _ _ _ _ _) as [[[q2 d2] calls2]|] eqn:E2; [|done]. intros [= <- <- <-].
    apply retry_round_outcome in E as [Ho _]; [|done].
    destruct (IH (S i) q1 d1 calls2) as [last Hl]; [by eapply at_inv, HI; apply Ho|done|].
    exists last. intros k r Hk. eapply stays_later; [apply Ho|by apply Hl].
  - intros [= <- <- <-]. exists i. apply quiet_round in E as (-> & _ & _ & H); [|done]. intros k r Hk.
    apply H; [|done]. apply Hrange. by eexists.
Qed.

End guarantees.
