(* ===== verification/Jobs.v ===== *)
(** * Workers and handlers that call others

    A job interleaves calls on a shared state with its own code: before each
    call, whatever the rest of the system does may happen. Jobs are shown to
    follow a protocol, a step relation every party keeps to, by triples whose
    assertions no step of the protocol can break. *)

From S2P Require Import Prelude.

(** A run evaluated to the value on the right. *)
Ltac evaluates := match goal with |- _ = ?x => vm_cast_no_check (@eq_refl _ x) end.

(** ** Jobs *)

(** The state everybody shares, and the number of calls made so far. *)
Record world (S : Type) := MkWorld { w_step : nat; w_state : S }.
Arguments MkWorld {S} w_step w_state.
Arguments w_step {S} w.
Arguments w_state {S} w.

Definition job (S A : Type) : Type := world S -> A * world S.
#[export] Instance job_ret S : MRet (job S) := fun A a w => (a, w).
#[export] Instance job_bind S : MBind (job S) := fun A B k m w => let '(a, w') := m w in k a w'.

(** What becomes of a call on a store: it goes through, it never reaches the
    database, or its answer is lost on the way back. *)
Inductive link := Up | Down | Lost.

Section calls.
Context {S : Type} (between : nat -> S -> S).

(** The [i]-th call, once the others had their turn. *)
Definition call {A} (f : nat -> S -> A * S) : job S A := fun w =>
  let i := w_step w in
  let '(a, s) := f i (between i (w_state w)) in (a, MkWorld (Datatypes.S i) s).
(** A call that changes nothing itself. *)
Definition ask {A} (f : nat -> S -> A) : job S A := call (fun i s => (f i s, s)).

End calls.

(** ** A logic for jobs *)

(** The steps the parties may take, and what they keep. *)
Class Protocol (S : Type) := {
  pstep : S -> S -> Prop;
  pinv : S -> Prop;
  pstep_keeps : forall s s', pstep s s' -> pinv s -> pinv s'
}.

Section logic.
Context {S : Type} `{!Protocol S}.
Implicit Types (s : S) (w : world S).

Lemma rtc_keeps s s' : rtc pstep s s' -> pinv s -> pinv s'.
Proof. induction 1; eauto using pstep_keeps. Qed.

(** *** Assertions that others cannot break *)

Definition stable (P : S -> Prop) : Prop := forall s s', pinv s -> pstep s s' -> P s -> P s'.
Lemma stable_rtc P s s' : stable P -> pinv s -> rtc pstep s s' -> P s -> P s'.
Proof. intros HP HJ H. induction H as [|s s1 s2 H1 H2 IH]; [done|]. intros Hs. apply IH; [by eapply pstep_keeps|by eapply HP]. Qed.
Lemma stable_and P Q : stable P -> stable Q -> stable (fun s => P s /\ Q s).
Proof. intros H1 H2 s s' HJ Hs [? ?]. split; [by eapply H1|by eapply H2]. Qed.
Lemma stable_all {A} (P : A -> S -> Prop) : (forall a, stable (P a)) -> stable (fun s => forall a, P a s).
Proof. intros H s s' HJ Hs Ha a. by eapply H. Qed.
Lemma stable_impl (X : Prop) P : stable P -> stable (fun s => X -> P s).
Proof. intros H s s' HJ Hs HP x. eapply H; eauto. Qed.
Lemma stable_pure (X : Prop) : stable (fun _ => X).
Proof. by intros s s' _ _. Qed.

(** *** Triples *)

(** From a state with [P] the job only takes steps of the protocol, and ends
    with [Q]. *)
Definition triple {A} (P : S -> Prop) (m : job S A) (Q : A -> S -> Prop) : Prop :=
  forall w x w', pinv (w_state w) -> P (w_state w) -> m w = (x, w') ->
    rtc pstep (w_state w) (w_state w') /\ Q x (w_state w').

Lemma triple_conseq {A} (P P' : S -> Prop) (m : job S A) (Q Q' : A -> S -> Prop) :
  triple P' m Q' -> (forall s, P s -> P' s) -> (forall x s, pinv s -> Q' x s -> Q x s) -> triple P m Q.
Proof.
  intros Hm HP HQ w x w' HJ Hw Hr. destruct (Hm w x w' HJ (HP _ Hw) Hr) as [H1 H2]. split; [done|].
  apply HQ; [|done]. by eapply rtc_keeps.
Qed.
Lemma triple_weaken {A} (P P' : S -> Prop) (m : job S A) (Q : S -> Prop) :
  triple P' m (fun _ => Q) -> (forall s, P s -> P' s) -> triple P m (fun _ => Q).
Proof. intros H HP. by eapply triple_conseq. Qed.
Lemma triple_ret {A} (P : S -> Prop) (a : A) (Q : A -> S -> Prop) :
  (forall s, pinv s -> P s -> Q a s) -> triple P (mret a) Q.
Proof. intros H w x w' HJ Hw [= <- <-]. split; [apply rtc_refl|auto]. Qed.
Lemma triple_bind {A B} (P : S -> Prop) (m : job S A) (k : A -> job S B) R Q :
  triple P m R -> (forall a, triple (R a) (k a) Q) -> triple P (m ≫= k) Q.
Proof.
  intros Hm Hk w y w' HJ Hw. unfold mbind, job_bind. destruct (m w) as [a w1] eqn:Em. intros Hr.
  destruct (Hm w a w1 HJ Hw Em) as [H1 H2]. destruct (Hk a w1 y w') as [H3 H4]; [by eapply rtc_keeps|done|done|].
  split; [by etrans|done].
Qed.

Lemma triple_seq {A B} (P R : S -> Prop) (m : job S A) (k : A -> job S B) Q :
  triple P m (fun _ => R) -> (forall a, triple R (k a) Q) -> triple P (m ≫= k) Q.
Proof. intros H1 H2. by eapply triple_bind. Qed.
Lemma triple_done {A} (P : S -> Prop) (a : A) : triple P (mret a) (fun _ _ => True).
Proof. by apply triple_ret. Qed.
Lemma triple_forget {A} (P : S -> Prop) (m : job S A) (Q : A -> S -> Prop) : triple P m Q -> triple P m (fun _ _ => True).
Proof. intros H. by eapply triple_conseq. Qed.

(** What the others do between two calls keeps to the protocol. *)
Definition relies (between : nat -> S -> S) : Prop := forall i s, pinv s -> rtc pstep s (between i s).
Context (between : nat -> S -> S) (Hrely : relies between).
Lemma triple_call {A} (P : S -> Prop) (f : nat -> S -> A * S) (F : A -> S -> Prop) : stable P ->
  (forall i s a s', pinv s -> P s -> f i s = (a, s') -> rtc pstep s s' /\ (pinv s' -> F a s')) ->
  triple P (call between f) (fun a s => P s /\ F a s).
Proof.
  intros HP Hf w x w' HJ Hw. unfold call. set (i := w_step w). pose proof (Hrely i _ HJ) as H1.
  destruct (f i (between i (w_state w))) as [a s] eqn:Ef. intros [= <- <-]. simpl.
  pose proof (rtc_keeps _ _ H1 HJ) as HJ1. pose proof (stable_rtc P _ _ HP HJ H1 Hw) as HP1.
  destruct (Hf i _ a s HJ1 HP1 Ef) as [H2 HF]. pose proof (rtc_keeps _ _ H2 HJ1) as HJ2.
  split; [by etrans|]. split; [by apply (stable_rtc P _ s HP HJ1)|by apply HF].
Qed.
Lemma triple_ask {A} (P : S -> Prop) (f : nat -> S -> A) (F : A -> S -> Prop) : stable P ->
  (forall i s, pinv s -> P s -> F (f i s) s) -> triple P (ask between f) (fun a s => P s /\ F a s).
Proof.
  intros HP Hf. apply triple_call; [done|]. intros i s a s' HJ Hs [= <- <-]. split; [apply rtc_refl|auto].
Qed.
(** A question whose answer tells nothing. *)
Lemma triple_aside {A} (P : S -> Prop) (f : nat -> S -> A) : stable P -> triple P (ask between f) (fun _ => P).
Proof.
  intros HP. eapply triple_conseq; [by apply (triple_ask P f (fun _ _ => True))|done|]. by intros x s _ [H _].
Qed.
End logic.

(** The store inside the shared state: [get] and [put] it. *)
Section store.
Context {S D X : Type} (between : nat -> S -> S) (get : S -> D) (put : D -> S -> S).
Context (links : nat -> link) (unavailable : X).

Definition call_store {A} (m : nat -> tx D X A) : job S (result X A) := call between (fun i s =>
  match links i with
  | Down => (Err unavailable, s)
  | l => let '(r, d) := in_tx (m i) (get s) in
         (match l with Lost => Err unavailable | _ => r end, put d s)
  end).

Context `{!Protocol S} (Hrely : relies between).
Lemma triple_call_store {A} (P : S -> Prop) (m : nat -> tx D X A) (F : A -> S -> Prop) : stable P ->
  (forall i s x d', pinv s -> P s -> in_tx (m i) (get s) = (x, d') -> rtc pstep s (put d' s)) ->
  (forall i s x d', pinv s -> P s -> in_tx (m i) (get s) = (Ok x, d') -> pinv (put d' s) -> F x (put d' s)) ->
  triple P (call_store m) (fun r s => P s /\ forall x, r = Ok x -> F x s).
Proof.
  intros HP Hs HF. apply triple_call; [done..|]. intros i s r s' HJ HPs. destruct (links i).
  2: { intros [= <- <-]. split; [apply rtc_refl|]. intros _ x. by intros [=]. }
  all: destruct (in_tx (m i) (get s)) as [y d] eqn:Er; intros [= <- <-]; (split; [by eapply Hs|]).
  - intros HJ' x ->. by eapply HF.
  - by intros _ x [=].
Qed.
End store.
