(* ===== verification/SubscriptionDomain.v ===== *)
(** * subscription-service: data and entitlement calculation

    The data of src/services/subscription/internal/domain/types.go and the
    pure core of src/services/subscription/internal/postgres/store.go: which
    of a subscription's paid periods is in force at an instant ([statusAt],
    [calculateEntitlement]). *)

From Stdlib Require Import List.
From S2P Require Import Prelude.

Inductive Status := Pending | Active | Grace | Expired | Revoked.
#[export] Instance Status_eq_dec : EqDecision Status.
Proof. solve_decision. Defined.

Record EventMeta := MkEventMeta {
  meta_EventID : string;
  meta_EventType : string;
  meta_AggregateID : string;
  meta_CorrelationID : string;
  meta_CausationID : option string;
  meta_OccurredAt : Z;
  meta_SourceTopic : string;
  meta_SourcePartition : Z;
  meta_SourceOffset : Z;
  meta_PayloadSHA256 : string
}.

Record PaymentSucceeded := MkPayment {
  pay_PaymentID : string;
  pay_OrderID : string;
  pay_UserID : string;
  pay_PlanID : string;
  pay_AmountMinor : Z;
  pay_Currency : string;
  pay_PaidAt : Z
}.

Record RefundSucceeded := MkRefund {
  ref_RefundID : string;
  ref_PaymentID : string;
  ref_OrderID : string;
  ref_UserID : string;
  ref_AmountMinor : Z;
  ref_Currency : string;
  ref_RefundScope : string;
  ref_RefundedAt : Z
}.

Record PlanSnapshot := MkPlan {
  plan_PlanID : string;
  plan_DurationDays : Z;
  plan_GracePeriodHours : Z;
  plan_AmountMinor : Z;
  plan_Currency : string;
  plan_Region : string;
  plan_PrimaryNodes : Z;
  plan_FailoverNodes : Z
}.

Record Order := MkOrder {
  ord_OrderID : string;
  ord_UserID : string;
  ord_Status : string;
  ord_AmountMinor : Z;
  ord_Currency : string;
  ord_PlanSnapshot : PlanSnapshot
}.

Record Subscription := MkSubscription {
  sub_SubscriptionID : string;
  sub_UserID : string;
  sub_Status : Status;
  sub_CurrentPeriodStart : option Z;
  sub_CurrentPeriodEnd : option Z;
  sub_GraceEndsAt : option Z
}.

Record Placement := MkPlacement {
  pl_SubscriptionID : string;
  pl_PeriodID : string;
  pl_Region : string;
  pl_PrimaryNodes : Z;
  pl_FailoverNodes : Z;
  pl_ValidUntil : Z
}.

Record AdminRevokeInput := MkRevokeInput {
  rin_SubscriptionID : string;
  rin_IdempotencyKey : string;
  rin_RequestSHA256 : string;
  rin_ActionID : string;
  rin_CorrelationID : string;
  rin_ReasonCode : string
}.

Record AdminRevokeResult := MkRevokeResult {
  rres_SubscriptionID : string;
  rres_Status : Status;
  rres_ReasonCode : string;
  rres_Replay : bool
}.

Record RefundWork := MkRefundWork {
  work_InboxID : string;
  work_Meta : EventMeta;
  work_Refund : RefundSucceeded;
  work_Attempts : Z
}.

(** ** Status of one stretch of entitlement *)

Definition statusAt (now start end_ grace : Z) : Status * option Z :=
  if now <? start then (Pending, Some start)
  else if now <? end_ then (Active, Some end_)
  else if now <? grace then (Grace, Some grace)
  else (Expired, None).

Record periodRow := MkPeriodRow {
  pr_ID : string;
  pr_OrderID : string;
  pr_PaymentID : string;
  pr_Start : Z;
  pr_End : Z;
  pr_Grace : Z
}.

Record entitlementState := MkEntitlement {
  ent_Status : Status;
  ent_Start : Z;
  ent_End : Z;
  ent_Grace : Z;
  ent_Next : option Z;
  ent_Period : periodRow
}.

(** [for i := range periods { if p(periods[i]) { base = i } }] *)
Definition last_index (p : periodRow -> bool) (l : list periodRow) (base : nat) : nat :=
  fold_left (fun b ix => if p (snd ix) then fst ix else b)
            (combine (seq 0 (length l)) l) base.

(** The extension loop after the selected period: it stops at the first gap
    and keeps the furthest end. *)
Fixpoint chain (l : list periodRow) (chainEnd chainGrace : Z) : Z * Z :=
  match l with
  | [] => (chainEnd, chainGrace)
  | p :: l' =>
      if chainEnd <? pr_Start p then (chainEnd, chainGrace)
      else if chainEnd <? pr_End p then chain l' (pr_End p) (pr_Grace p)
      else chain l' chainEnd chainGrace
  end.

Definition covers (now : Z) (p : periodRow) : bool :=
  negb (now <? pr_Start p) && (now <? pr_End p).
Definition in_grace (now : Z) (p : periodRow) : bool :=
  negb (now <? pr_End p) && (now <? pr_Grace p).

(** The index of the period to report: the last one covering [now]; else the
    first when nothing has started; else the last one in its grace. *)
Definition base_index (now : Z) (periods : list periodRow) (first : periodRow) : nat :=
  let base := last_index (covers now) periods 0 in
  if now <? pr_Start (nth base periods first) then 0%nat
  else if negb (now <? pr_End (nth base periods first))
       then last_index (in_grace now) periods base
       else base.

(** [calculateEntitlement] on the rows its query returns. *)
Definition entitlement (now : Z) (periods : list periodRow) : option entitlementState :=
  match periods with
  | [] => None
  | first :: _ =>
      let base := base_index now periods first in
      let selected := nth base periods first in
      let '(chainEnd, chainGrace) :=
        chain (skipn (S base) periods) (pr_End selected) (pr_Grace selected) in
      let '(status, next) := statusAt now (pr_Start selected) chainEnd chainGrace in
      Some (MkEntitlement status (pr_Start selected) chainEnd chainGrace next selected)
  end.

(** ** Abstract specification

    A set of paid, unelapsed periods entitles the user when one of them
    covers the instant; failing that, grace follows a period that has ended;
    failing that, everything still lies ahead. *)
Definition spec_status (now : Z) (l : list periodRow) : Status :=
  if existsb (covers now) l then Active
  else if existsb (in_grace now) l then Grace
  else Pending.

(** What the query of [calculateEntitlement] guarantees of its rows. *)
Definition period_ok (now : Z) (p : periodRow) : Prop :=
  pr_Start p < pr_End p /\ pr_End p <= pr_Grace p /\ now < pr_Grace p.
Definition by_start (l : list periodRow) : Prop :=
  forall i j p q, (i <= j)%nat -> l !! i = Some p -> l !! j = Some q -> pr_Start p <= pr_Start q.

(** ** The index loops *)

Lemma last_index_from (p : periodRow -> bool) (l : list periodRow) (k b : nat) :
  let r := fold_left (fun b ix => if p (snd ix) then fst ix else b)
             (combine (seq k (length l)) l) b in
  (r = b /\ forall x, x ∈ l -> p x = false) \/
  (exists i x, r = (k + i)%nat /\ l !! i = Some x /\ p x = true).
Proof.
  revert k b. induction l as [|y l IH]; intros k b; simpl.
  - left. split; [done|]. intros x Hx. by apply not_elem_of_nil in Hx.
  - destruct (IH (S k) (if p y then k else b)) as [[Hr Hall]|(i & x & Hr & Hx & Hp)].
    + rewrite Hr. destruct (p y) eqn:Hy.
      * right. exists 0%nat, y. split; [lia|done].
      * left. split; [done|]. intros x [->|Hx]%elem_of_cons; auto.
    + right. exists (S i), x. rewrite Hr. split; [lia|done].
Qed.

Lemma last_index_spec p l b :
  (last_index p l b = b /\ forall x, x ∈ l -> p x = false) \/
  (exists x, l !! last_index p l b = Some x /\ p x = true).
Proof.
  destruct (last_index_from p l 0 b) as [H|(i & x & Hr & Hx & Hp)]; [by left|].
  right. exists x. unfold last_index. rewrite Hr. done.
Qed.

Lemma existsb_elem (p : periodRow -> bool) l :
  existsb p l = true <-> exists x, x ∈ l /\ p x = true.
Proof.
  rewrite existsb_exists.
  split; intros (x & Hx & Hp); exists x; (split; [by apply list_elem_of_In | done]).
Qed.
Lemma existsb_none (p : periodRow -> bool) l :
  existsb p l = false <-> forall x, x ∈ l -> p x = false.
Proof.
  rewrite <- not_true_iff_false, existsb_elem. split.
  - intros H x Hx. destruct (p x) eqn:?; [|done]. destruct H; eauto.
  - intros H (x & Hx & Hp). rewrite H in Hp; done.
Qed.

Lemma chain_extends l e g : e <= fst (chain l e g).
Proof.
  revert e g. induction l as [|p l IH]; intros e g; simpl; [lia|].
  destruct (Z.ltb_spec e (pr_Start p)); simpl; [lia|].
  destruct (Z.ltb_spec e (pr_End p)); [|apply IH].
  specialize (IH (pr_End p) (pr_Grace p)). lia.
Qed.

(** Every instant the loop adds lies inside one of the periods it visited. *)
Lemma chain_gapless l e g t :
  e <= t < fst (chain l e g) -> exists p, p ∈ l /\ pr_Start p <= t < pr_End p.
Proof.
  revert e g. induction l as [|p l IH]; intros e g; simpl; [lia|].
  destruct (Z.ltb_spec e (pr_Start p)); simpl; [lia|].
  destruct (Z.ltb_spec e (pr_End p)) as [He|He].
  - intros Ht. destruct (Z.lt_ge_cases t (pr_End p)).
    + exists p. split; [left | lia].
    + destruct (IH (pr_End p) (pr_Grace p)) as (q & Hq & Hqt); [lia|].
      exists q. split; [by right | done].
  - intros Ht. destruct (IH e g Ht) as (q & Hq & Hqt). exists q. split; [by right | done].
Qed.

(** The end and the grace the loop reports belong to the same period. *)
Lemma chain_grace l e g :
  chain l e g = (e, g) \/
  exists p, p ∈ l /\ chain l e g = (pr_End p, pr_Grace p).
Proof.
  revert e g. induction l as [|p l IH]; intros e g; simpl; [by left|].
  destruct (e <? pr_Start p); [by left|].
  destruct (e <? pr_End p).
  - right. destruct (IH (pr_End p) (pr_Grace p)) as [->|(q & Hq & ->)].
    + exists p. split; [left | done].
    + exists q. split; [by right | done].
  - destruct (IH e g) as [->|(q & Hq & ->)]; [by left|].
    right. exists q. split; [by right | done].
Qed.

Lemma covers_true now p : covers now p = true <-> pr_Start p <= now < pr_End p.
Proof. unfold covers. rewrite andb_true_iff, negb_true_iff. zcases; lia. Qed.
Lemma covers_false now p : covers now p = false <-> now < pr_Start p \/ pr_End p <= now.
Proof. rewrite <- not_true_iff_false, covers_true. lia. Qed.
Lemma in_grace_true now p : in_grace now p = true <-> pr_End p <= now < pr_Grace p.
Proof. unfold in_grace. rewrite andb_true_iff, negb_true_iff. zcases; lia. Qed.

Lemma statusAt_partition now s e g :
  s <= e -> e <= g ->
  match statusAt now s e g with
  | (Pending, Some n) => now < s /\ n = s
  | (Active, Some n) => s <= now < e /\ n = e
  | (Grace, Some n) => e <= now < g /\ n = g
  | (Expired, None) => g <= now
  | _ => False
  end.
Proof. intros. unfold statusAt. zcases; lia. Qed.

Lemma statusAt_next_future now s e g st n :
  statusAt now s e g = (st, Some n) -> now < n.
Proof. unfold statusAt. intros. zcases; lia. Qed.

(** ** The selected period *)

Lemma elem_of_skipn (p : periodRow) n (l : list periodRow) : p ∈ skipn n l -> p ∈ l.
Proof.
  intros [i Hi]%list_elem_of_lookup. rewrite lookup_drop in Hi.
  by eapply list_elem_of_lookup_2.
Qed.

Section selection.
Context (now : Z) (l : list periodRow).
Context (Hok : forall p, p ∈ l -> period_ok now p) (Hsort : by_start l).

Lemma all_future first :
  l !! 0%nat = Some first -> now < pr_Start first -> forall p, p ∈ l -> now < pr_Start p.
Proof.
  intros H0 Hf p [i Hi]%list_elem_of_lookup.
  pose proof (Hsort 0%nat i first p ltac:(lia) H0 Hi). lia.
Qed.

Definition selected_ok (sel : periodRow) : Prop :=
  covers now sel = true \/
  (existsb (covers now) l = false /\ in_grace now sel = true) \/
  (forall p, p ∈ l -> now < pr_Start p).

Lemma base_selected first :
  l !! 0%nat = Some first ->
  exists sel, l !! base_index now l first = Some sel /\ selected_ok sel.
Proof.
  intros H0. unfold base_index, selected_ok. cbv zeta.
  destruct (last_index_spec (covers now) l 0) as [[-> Hnone]|(x & Hx & Hc)].
  - rewrite (nth_lookup_Some _ _ _ _ H0).
    pose proof (Hok first (list_elem_of_lookup_2 _ _ _ H0)) as (Hse & Heg & Hg).
    pose proof (Hnone first (list_elem_of_lookup_2 _ _ _ H0)) as Hcf.
    rewrite covers_false in Hcf.
    destruct (Z.ltb_spec now (pr_Start first)).
    { exists first. split; [done|]. right; right. by eapply all_future. }
    destruct (Z.ltb_spec now (pr_End first)); [lia|]. simpl.
    destruct (last_index_spec (in_grace now) l 0) as [[_ Hn]|(y & Hy & Hyg)].
    { specialize (Hn first (list_elem_of_lookup_2 _ _ _ H0)).
      assert (in_grace now first = true) by (apply in_grace_true; lia). congruence. }
    exists y. split; [done|]. right; left. split; [by apply existsb_none | done].
  - rewrite (nth_lookup_Some _ _ _ _ Hx). pose proof Hc as Hc'.
    apply covers_true in Hc'. zcases. eauto.
Qed.

(** The loop started from the selected period never leaves its kind. *)
Lemma chain_status sel b e g :
  l !! b = Some sel -> selected_ok sel ->
  chain (skipn (S b) l) (pr_End sel) (pr_Grace sel) = (e, g) ->
  fst (statusAt now (pr_Start sel) e g) = spec_status now l /\
  exists n, snd (statusAt now (pr_Start sel) e g) = Some n.
Proof.
  intros Hsel Hkind Hch.
  pose proof (list_elem_of_lookup_2 _ _ _ Hsel) as Hin.
  pose proof (Hok _ Hin) as (Hse & Heg & Hg).
  assert (pr_End sel <= e) as Hext.
  { pose proof (chain_extends (skipn (S b) l) (pr_End sel) (pr_Grace sel)) as H.
    by rewrite Hch in H. }
  assert (now < g) as Hgr.
  { destruct (chain_grace (skipn (S b) l) (pr_End sel) (pr_Grace sel)) as [H|(p & Hp & H)];
      rewrite Hch in H; simplify_eq; [done|].
    apply (Hok p). by eapply elem_of_skipn. }
  assert (forall t, pr_End sel <= t < e -> exists p, p ∈ l /\ pr_Start p <= t < pr_End p) as Hgap.
  { intros t Ht. pose proof (chain_gapless (skipn (S b) l) (pr_End sel) (pr_Grace sel) t) as H.
    rewrite Hch in H. destruct (H Ht) as (p & Hp & Hpt).
    exists p. split; [by eapply elem_of_skipn | done]. }
  unfold spec_status, statusAt. destruct Hkind as [Hc|[[Hnone Hgs]|Hfut]].
  - assert (existsb (covers now) l = true) as -> by (apply existsb_elem; eauto).
    apply covers_true in Hc. zcases; eauto.
  - rewrite Hnone. assert (existsb (in_grace now) l = true) as -> by (apply existsb_elem; eauto).
    apply in_grace_true in Hgs. rewrite existsb_none in Hnone.
    destruct (Z.lt_ge_cases now e) as [Hne|Hne].
    + destruct (Hgap now ltac:(lia)) as (p & Hp & Hpt).
      apply Hnone, covers_false in Hp. lia.
    + zcases; eauto.
  - assert (existsb (covers now) l = false) as ->.
    { apply existsb_none. intros p Hp. apply covers_false. left. by apply Hfut. }
    assert (existsb (in_grace now) l = false) as ->.
    { apply existsb_none. intros p Hp. apply not_true_iff_false. rewrite in_grace_true.
      pose proof (Hfut p Hp). pose proof (Hok p Hp) as (? & ? & ?). lia. }
    pose proof (Hfut sel Hin). zcases; eauto.
Qed.
End selection.

Lemma entitlement_spec now l :
  (forall p, p ∈ l -> period_ok now p) -> by_start l ->
  match entitlement now l with
  | None => l = []
  | Some e => ent_Status e = spec_status now l /\
              (exists n, ent_Next e = Some n /\ now < n) /\
              ent_Period e ∈ l
  end.
Proof.
  intros Hok Hsort. destruct l as [|first rest]; [done|].
  unfold entitlement. set (l := first :: rest) in *.
  destruct (base_selected now l Hok Hsort first eq_refl) as (sel & Hsel & Hkind).
  cbv zeta in *. rewrite (nth_lookup_Some _ _ _ _ Hsel).
  destruct (chain _ _ _) as [e g] eqn:Hch.
  destruct (chain_status now l Hok _ _ e g Hsel Hkind Hch) as [Hst [n Hn]].
  destruct (statusAt now (pr_Start sel) e g) as [st next] eqn:Hat. simpl in *. subst.
  split; [done|]. split.
  - exists n. split; [done|]. by eapply statusAt_next_future.
  - by eapply list_elem_of_lookup_2.
Qed.

(** C4: the calculation refines the specification: on any paid, unelapsed
    periods listed by start, the reported status is [Active] exactly when
    some period covers now, [Grace] exactly when none does but one has ended,
    [Pending] otherwise (never [Expired]); it reports nothing only when there
    is no such period; and the transition it schedules lies strictly in the
    future. *)
Theorem entitlement_refines_spec now l :
  (forall p, p ∈ l -> period_ok now p) -> by_start l ->
  match entitlement now l with
  | None => l = []
  | Some e => ent_Status e = spec_status now l /\
              (exists n, ent_Next e = Some n /\ now < n) /\
              ent_Period e ∈ l
  end.
Proof. apply entitlement_spec. Qed.

(** The stretch reported to the user has no hole: every instant from
    the start of the selected period to the reported end is paid for by one
    of the listed periods. *)
Theorem entitlement_stretch_paid now l e t :
  entitlement now l = Some e -> ent_Start e <= t < ent_End e ->
  exists p, p ∈ l /\ pr_Start p <= t < pr_End p.
Proof.
  destruct l as [|first rest]; [done|]. unfold entitlement.
  set (l := first :: rest). cbv zeta.
  generalize (base_index now l first). intros b.
  destruct (chain _ _ _) as [ce cg] eqn:Hch. destruct (statusAt _ _ _ _) as [st next].
  intros He.
  assert (ent_Start e = pr_Start (nth b l first) /\ ent_End e = ce) as [-> ->]
    by (by injection He as <-).
  clear He. intros Ht.
  destruct (nth_lookup_or_length l b first) as [Hb|Hb].
  - destruct (Z.lt_ge_cases t (pr_End (nth b l first))).
    + exists (nth b l first). split; [by eapply list_elem_of_lookup_2 | lia].
    + destruct (chain_gapless (skipn (S b) l) (pr_End (nth b l first))
        (pr_Grace (nth b l first)) t) as (p & Hp & Hpt); [rewrite Hch; cbn [fst]; lia|].
      exists p. split; [by eapply elem_of_skipn | done].
  - rewrite (nth_overflow l first Hb) in *.
    rewrite skipn_all2 in Hch by (by apply le_S). simpl in Hch. simplify_eq.
    exists first. split; [left | lia].
Qed.

Definition period_a := MkPeriodRow "a" "oa" "pa" 0 100 110.
Definition period_b := MkPeriodRow "b" "ob" "pb" 100 200 215.
Lemma entitlement_refines_spec_witness :
  option_map ent_Status (entitlement 105 [period_a; period_b]) = Some Active /\
  match entitlement 105 [period_a; period_b] with
  | None => False
  | Some e => ent_Status e = spec_status 105 [period_a; period_b]
  end.
Proof.
  split; [reflexivity|].
  pose proof (entitlement_refines_spec 105 [period_a; period_b]) as H.
  destruct (entitlement 105 [period_a; period_b]) eqn:He.
  - apply H.
    + intros p [->|[->|[]%not_elem_of_nil]%elem_of_cons]%elem_of_cons; unfold period_ok; simpl; lia.
    + intros [|[|i]] [|[|j]] p q Hij Hp Hq; simplify_eq/=; unfold period_a, period_b; simpl; lia.
  - vm_compute in He. discriminate He.
Defined.
Lemma entitlement_stretch_paid_witness :
  exists p, p ∈ [period_a; period_b] /\ pr_Start p <= 150 < pr_End p.
Proof.
  eapply (entitlement_stretch_paid 50 [period_a; period_b]).
  - reflexivity.
  - vm_compute. split; [discriminate | reflexivity].
Defined.
