(* ===== verification/SubscriptionStore.v ===== *)
(** * subscription-service: the PostgreSQL store

    The tables of src/services/subscription/migrations and every operation of
    src/services/subscription/internal/postgres/store.go. A handler takes the
    database clock, the fresh identifiers it draws and, for queries with
    [SKIP LOCKED], the rows other sessions hold. Constraints a statement can
    violate are checked where it runs ([ErrSQL]). *)

From Stdlib Require Import List.
From S2P Require Import Prelude Platform SubscriptionDomain.

Inductive SubErr :=
  | ErrNotFound
  | ErrConflict
  | ErrIdempotencyConflict
  | ErrAdminRevokeNotAllowed
  | ErrSQL (what : string).
#[export] Instance SubErr_eq_dec : EqDecision SubErr.
Proof. solve_decision. Defined.

(** ** Tables *)

Record subscription_row := MkSubRow {
  s_id : string;
  s_user_id : string;
  s_status : Status;
  s_period_start : option Z;
  s_period_end : option Z;
  s_grace_ends_at : option Z;
  s_next_transition_at : option Z;
  s_transition_lease_until : option Z;
  s_aggregate_sequence : Z;
  s_created_at : Z;
  s_updated_at : Z
}.

Record period_row := MkPeriod {
  p_id : string;
  p_subscription_id : string;
  p_source_order_id : string;
  p_source_payment_id : string;
  p_plan_id : string;
  p_region : string;
  p_primary_nodes : Z;
  p_failover_nodes : Z;
  p_amount_minor : Z;
  p_currency : string;
  p_duration_days : Z;
  p_grace_period_hours : Z;
  p_paid_at : Z;
  p_period_start : Z;
  p_period_end : Z;
  p_grace_ends_at : Z;
  p_refunded : bool;              (* status: 'paid' or 'refunded' *)
  p_refund_id : option string;
  p_refunded_at : option Z
}.

Inductive InboxState := InPending | InProcessing | InProcessed | InDead.
#[export] Instance InboxState_eq_dec : EqDecision InboxState.
Proof. solve_decision. Defined.

(** The four source columns are all null (rows older than the second
    migration) or all set. *)
Record inbox_row := MkInbox {
  i_event_id : string;
  i_event_type : string;
  i_aggregate_id : string;
  i_source_payment_id : string;
  i_user_id : string;
  i_correlation_id : string;
  i_payload : option RefundSucceeded;
  i_state : InboxState;
  i_attempts : Z;
  i_next_attempt_at : Z;
  i_lease_until : option Z;
  i_last_error_code : option string;
  i_received_at : Z;
  i_processed_at : option Z;
  i_source : option (string * Z * Z * string)
}.

Inductive event_data :=
  | periodEventData (subscriptionID userID periodID sourceOrderID sourcePaymentID : string)
      (periodStart periodEnd graceEndsAt : Z)
  | terminalEventData (subscriptionID userID reason : string)
      (affectedPeriodIDs : list string) (effectiveAt : Z)
  | graceStartedEventData (subscriptionID userID : string)
      (periodEnd graceEndsAt effectiveAt : Z).

Inductive OutboxState := OutPending | OutProcessing | OutPublished.
#[export] Instance OutboxState_eq_dec : EqDecision OutboxState.
Proof. solve_decision. Defined.

Record outbox_row := MkOutbox {
  o_event_id : string;
  o_topic : string;
  o_partition_key : string;
  o_aggregate_id : string;
  o_aggregate_sequence : Z;
  o_dedupe_key : string;
  o_payload : Envelope event_data;
  o_state : OutboxState;
  o_attempts : Z;
  o_next_attempt_at : Z;
  o_lease_until : option Z;
  o_created_at : Z;
  o_published_at : option Z
}.

Record admin_revoke_row := MkRevokeRow {
  a_idempotency_key : string;
  a_request_sha256 : string;
  a_action_id : string;
  a_correlation_id : string;
  a_subscription_id : string;
  a_reason_code : string;
  a_completed_at : Z
}.

Record db := MkDB {
  subscriptions : table subscription_row;
  periods : table period_row;
  inbox : table inbox_row;
  dead_letters : gmap (string * Z * Z) (string * string);
  outbox : table outbox_row;
  admin_revoke_requests : table admin_revoke_row
}.

Definition empty_db : db := MkDB ∅ ∅ ∅ ∅ ∅ ∅.

Definition set_subscriptions f d := MkDB (f (subscriptions d)) (periods d) (inbox d) (dead_letters d) (outbox d) (admin_revoke_requests d).
Definition set_periods f d := MkDB (subscriptions d) (f (periods d)) (inbox d) (dead_letters d) (outbox d) (admin_revoke_requests d).
Definition set_inbox f d := MkDB (subscriptions d) (periods d) (f (inbox d)) (dead_letters d) (outbox d) (admin_revoke_requests d).
Definition set_dead_letters f d := MkDB (subscriptions d) (periods d) (inbox d) (f (dead_letters d)) (outbox d) (admin_revoke_requests d).
Definition set_outbox f d := MkDB (subscriptions d) (periods d) (inbox d) (dead_letters d) (f (outbox d)) (admin_revoke_requests d).
Definition set_admin f d := MkDB (subscriptions d) (periods d) (inbox d) (dead_letters d) (outbox d) (f (admin_revoke_requests d)).

Abbreviation sub_tx := (tx db SubErr).

Definition check (b : bool) (what : string) : sub_tx unit :=
  if b then ret tt else throw (ErrSQL what).
Definition from_option_tx {A} (o : option A) (e : SubErr) : sub_tx A :=
  match o with Some a => ret a | None => throw e end.

Definition find_row {A} (p : A -> bool) (m : table A) : option A := head (where_ p m).

Definition period_of_payment (paymentID : string) (d : db) : option period_row :=
  find_row (fun p => bool_decide (p_source_payment_id p = paymentID)) (periods d).
(** [subscription_periods p JOIN subscriptions s ON s.id = p.subscription_id
    WHERE p.source_payment_id = $1] *)
Definition payment_join (paymentID : string) (d : db) : option (period_row * subscription_row) :=
  match period_of_payment paymentID d with
  | None => None
  | Some p => match subscriptions d !! p_subscription_id p with
              | None => None
              | Some s => Some (p, s)
              end
  end.

Definition transactionTime (clock : Z) (override : option Z) : Z := default clock override.

(** ** Inbox *)

Definition source_of (meta : EventMeta) : string * Z * Z * string :=
  (meta_SourceTopic meta, meta_SourcePartition meta, meta_SourceOffset meta, meta_PayloadSHA256 meta).
Definition source_taken (meta : EventMeta) (d : db) : bool :=
  exists_row (fun r => match i_source r with
    | Some (topic, partition, offset, _) =>
        bool_decide (topic = meta_SourceTopic meta /\ partition = meta_SourcePartition meta /\
                     offset = meta_SourceOffset meta /\ i_event_id r <> meta_EventID meta)
    | None => false end) (inbox d).
Definition same_event (r : inbox_row) (meta : EventMeta) (paymentID userID : string) : bool :=
  bool_decide (i_event_type r = meta_EventType meta /\ i_aggregate_id r = meta_AggregateID meta /\
               i_source_payment_id r = paymentID /\ i_user_id r = userID /\
               i_correlation_id r = meta_CorrelationID meta).
Definition set_source (src : string * Z * Z * string) (r : inbox_row) : inbox_row :=
  MkInbox (i_event_id r) (i_event_type r) (i_aggregate_id r) (i_source_payment_id r) (i_user_id r)
    (i_correlation_id r) (i_payload r) (i_state r) (i_attempts r) (i_next_attempt_at r)
    (i_lease_until r) (i_last_error_code r) (i_received_at r) (i_processed_at r) (Some src).

Definition insertInbox (now : Z) (meta : EventMeta) (paymentID userID : string)
    (payload : option RefundSucceeded) (state : InboxState) : sub_tx bool :=
  let* d := get in
  match inbox d !! meta_EventID meta with
  | None =>
      check (negb (source_taken meta d)) "inbox_source_record_idx" ;;;
      modify (set_inbox (insert (meta_EventID meta)
        (MkInbox (meta_EventID meta) (meta_EventType meta) (meta_AggregateID meta) paymentID userID
           (meta_CorrelationID meta) payload state 0 now None None now None (Some (source_of meta))))) ;;;
      ret true
  | Some r =>
      match i_source r with
      | None =>
          if same_event r meta paymentID userID then
            check (negb (source_taken meta d)) "inbox_source_record_idx" ;;;
            modify (set_inbox (alter (set_source (source_of meta)) (meta_EventID meta))) ;;;
            ret true
          else throw (ErrSQL "load subscription inbox replay")
      | Some (_, _, _, payloadHash) =>
          if same_event r meta paymentID userID && bool_decide (payloadHash = meta_PayloadSHA256 meta)
          then ret false else throw ErrConflict
      end
  end.

Definition set_processed_at (now : Z) (r : inbox_row) : inbox_row :=
  MkInbox (i_event_id r) (i_event_type r) (i_aggregate_id r) (i_source_payment_id r) (i_user_id r)
    (i_correlation_id r) (i_payload r) (i_state r) (i_attempts r) (i_next_attempt_at r)
    (i_lease_until r) (i_last_error_code r) (i_received_at r) (Some now) (i_source r).
Definition close_inbox (state : InboxState) (now : Z) (code : option string) (r : inbox_row) : inbox_row :=
  MkInbox (i_event_id r) (i_event_type r) (i_aggregate_id r) (i_source_payment_id r) (i_user_id r)
    (i_correlation_id r) None state (i_attempts r) (i_next_attempt_at r)
    None code (i_received_at r) (Some now) (i_source r).

Definition markInboxProcessed (eventID : string) (now : Z) : sub_tx unit :=
  modify (set_inbox (alter (close_inbox InProcessed now None) eventID)).

Definition deadLetterInbox (eventID : string) (now : Z) (reason : string) : sub_tx unit :=
  let* d := get in
  modify (set_inbox (alter (close_inbox InDead now (Some reason)) eventID)) ;;;
  match inbox d !! eventID ≫= i_source with
  | None => throw (ErrSQL "dead-letter subscription inbox: source metadata missing or already recorded")
  | Some (topic, partition, offset, hash) =>
      match dead_letters d !! (topic, partition, offset) with
      | Some _ => throw (ErrSQL "dead-letter subscription inbox: source metadata missing or already recorded")
      | None => modify (set_dead_letters (insert (topic, partition, offset) (hash, reason)))
      end
  end.

(** ** Outbox *)

Definition bump_sequence (r : subscription_row) : subscription_row :=
  MkSubRow (s_id r) (s_user_id r) (s_status r) (s_period_start r) (s_period_end r) (s_grace_ends_at r)
    (s_next_transition_at r) (s_transition_lease_until r) (s_aggregate_sequence r + 1)
    (s_created_at r) (s_updated_at r).

Definition buildEventPayload (topic eventID subscriptionID userID correlationID : string)
    (causationID : option string) (aggregateSequence occurredAt : Z) (data : event_data)
    : Envelope event_data :=
  MkEnvelope eventID topic 1 occurredAt "subscription-service"
    (if bool_decide (correlationID = "") then eventID else correlationID)
    causationID "subscription" subscriptionID aggregateSequence ("user:" +:+ userID)%string data.

(** [eventID] is the identifier the call draws. *)
Definition insertOutbox (eventID topic subscriptionID userID dedupeKey correlationID : string)
    (causationID : option string) (occurredAt : Z) (data : event_data) : sub_tx unit :=
  let* d := get in
  let* s := from_option_tx (subscriptions d !! subscriptionID)
              (ErrSQL "advance subscription aggregate sequence") in
  let sequence := s_aggregate_sequence s + 1 in
  modify (set_subscriptions (insert subscriptionID (bump_sequence s))) ;;;
  let payload := buildEventPayload topic eventID subscriptionID userID correlationID causationID
                   sequence occurredAt data in
  if exists_row (fun r => bool_decide (o_dedupe_key r = dedupeKey)) (outbox d) then throw ErrConflict
  else
    check (bool_decide (outbox d !! eventID = None)) "outbox_pkey" ;;;
    check (negb (exists_row (fun r => bool_decide (o_aggregate_id r = subscriptionID /\
                                                   o_aggregate_sequence r = sequence)) (outbox d)))
          "outbox_aggregate_sequence_unique" ;;;
    modify (set_outbox (insert eventID
      (MkOutbox eventID topic ("user:" +:+ userID)%string subscriptionID sequence dedupeKey payload
         OutPending 0 occurredAt None occurredAt None))).

(** ** Subscriptions *)

Definition domain_subscription (r : subscription_row) : Subscription :=
  MkSubscription (s_id r) (s_user_id r) (s_status r) (s_period_start r) (s_period_end r) (s_grace_ends_at r).
Definition subscription_of_user (userID : string) (d : db) : option subscription_row :=
  find_row (fun s => bool_decide (s_user_id s = userID)) (subscriptions d).

Definition getOrCreateSubscription (id userID : string) (now : Z) : sub_tx (Subscription * bool) :=
  let* d := get in
  match subscription_of_user userID d with
  | Some s => ret (domain_subscription s, false)
  | None =>
      check (bool_decide (subscriptions d !! id = None)) "subscriptions_pkey" ;;;
      let s := MkSubRow id userID Pending None None None None None 0 now now in
      modify (set_subscriptions (insert id s)) ;;;
      ret (domain_subscription s, true)
  end.

Definition set_state (status : Status) (start end_ grace next : option Z) (now : Z)
    (r : subscription_row) : subscription_row :=
  MkSubRow (s_id r) (s_user_id r) status start end_ grace next None
    (s_aggregate_sequence r) (s_created_at r) now.

Definition updateSubscription (id : string) (status : Status) (start end_ grace : Z)
    (next : option Z) (now : Z) : sub_tx unit :=
  check ((start <? end_) && (end_ <=? grace)) "subscriptions_check" ;;;
  modify (set_subscriptions (alter (set_state status (Some start) (Some end_) (Some grace) next now) id)).

(** ** Entitlement query *)

Definition period_view (p : period_row) : periodRow :=
  MkPeriodRow (p_id p) (p_source_order_id p) (p_source_payment_id p)
    (p_period_start p) (p_period_end p) (p_grace_ends_at p).
Definition by_period_start (p q : period_row) : bool :=
  (p_period_start p <? p_period_start q) ||
  ((p_period_start p =? p_period_start q) && String.leb (p_id p) (p_id q)).
Definition paid_unelapsed (subscriptionID : string) (now : Z) (p : period_row) : bool :=
  bool_decide (p_subscription_id p = subscriptionID) && negb (p_refunded p) && (now <? p_grace_ends_at p).
Definition valid_periods (d : db) (subscriptionID : string) (now : Z) : list periodRow :=
  map period_view (order_by by_period_start (where_ (paid_unelapsed subscriptionID now) (periods d))).

Definition calculateEntitlement (d : db) (subscriptionID : string) (now : Z) : option entitlementState :=
  entitlement now (valid_periods d subscriptionID now).

(** ** Payments *)

Definition recordPaymentReplay (clock : Z) (meta : EventMeta) (payment : PaymentSucceeded)
    (nowOverride : option Z) : sub_tx bool :=
  let now := transactionTime clock nowOverride in
  let* d := get in
  match payment_join (pay_PaymentID payment) d with
  | None => ret false
  | Some (p, s) =>
      if bool_decide (s_user_id s = pay_UserID payment /\
                      p_source_order_id p = pay_OrderID payment /\
                      p_plan_id p = pay_PlanID payment /\
                      p_amount_minor p = pay_AmountMinor payment /\
                      p_currency p = pay_Currency payment /\
                      p_paid_at p = pay_PaidAt payment)
      then
        let* inserted := insertInbox now meta (pay_PaymentID payment) (pay_UserID payment) None InProcessed in
        when inserted (modify (set_inbox (alter (set_processed_at now) (meta_EventID meta)))) ;;;
        commit ;;;
        ret true
      else throw ErrConflict
  end.

Definition RecordPaymentReplay (clock : Z) (meta : EventMeta) (payment : PaymentSucceeded) (d : db)
    : result SubErr bool * db :=
  in_tx (recordPaymentReplay clock meta payment None) d.

(** [time.Duration(days) * 24 * time.Hour] and [time.Duration(hours) * time.Hour]. *)
Definition days_duration (days : Z) : Z := int64 (int64 (days * 24) * hour).
Definition hours_duration (hours : Z) : Z := int64 (hours * hour).

Definition unique_period (p : period_row) (d : db) : bool :=
  negb (exists_row (fun q => bool_decide (p_source_order_id q = p_source_order_id p \/
                                          p_source_payment_id q = p_source_payment_id p)) (periods d))
  && bool_decide (periods d !! p_id p = None).

Definition period_checks (p : period_row) : bool :=
  (p_period_start p <? p_period_end p) && (p_period_end p <=? p_grace_ends_at p) &&
  (0 <? p_amount_minor p) && (1 <=? p_duration_days p) && (p_duration_days p <=? 3650) &&
  (0 <=? p_grace_period_hours p) && (p_grace_period_hours p <=? 720).

Definition insertPeriod (row : period_row) : sub_tx unit :=
  let* d := get in
  check (unique_period row d) "subscription_periods_unique" ;;;
  check (period_checks row) "subscription_periods_check" ;;;
  modify (set_periods (insert (p_id row) row)).

Definition in_force (sub : Subscription) (now : Z) : bool :=
  match sub_Status sub with Active | Grace => true | _ => false end &&
  match sub_CurrentPeriodEnd sub, sub_GraceEndsAt sub with
  | Some _, Some g => now <? g
  | _, _ => false
  end.

(** [newSub], [newPeriod] and [newEvent] are the identifiers the run draws. *)
Definition applyPayment (clock : Z) (meta : EventMeta) (payment : PaymentSucceeded) (order : Order)
    (nowOverride : option Z) (newSub newPeriod newEvent : string) : sub_tx unit :=
  let now := transactionTime clock nowOverride in
  let* inserted := insertInbox now meta (pay_PaymentID payment) (pay_UserID payment) None InProcessing in
  if negb inserted then commit else
  let* d := get in
  match payment_join (pay_PaymentID payment) d with
  | Some (p, s) =>
      if bool_decide (s_user_id s = pay_UserID payment /\ p_source_order_id p = pay_OrderID payment)
      then markInboxProcessed (meta_EventID meta) now ;;; commit
      else throw ErrConflict
  | None =>
      let* got := getOrCreateSubscription newSub (pay_UserID payment) now in
      let '(subscription, created) := got in
      let extends := negb created && in_force subscription now in
      let eventType := if extends then "subscription.extended.v1" else "subscription.activated.v1" in
      let periodStart :=
        if extends then default (pay_PaidAt payment) (sub_CurrentPeriodEnd subscription)
        else pay_PaidAt payment in
      let plan := ord_PlanSnapshot order in
      let periodEnd := periodStart + days_duration (plan_DurationDays plan) in
      let graceEndsAt := periodEnd + hours_duration (plan_GracePeriodHours plan) in
      let row := MkPeriod newPeriod (sub_SubscriptionID subscription) (pay_OrderID payment)
        (pay_PaymentID payment) (pay_PlanID payment) (plan_Region plan) (plan_PrimaryNodes plan)
        (plan_FailoverNodes plan) (pay_AmountMinor payment) (pay_Currency payment)
        (plan_DurationDays plan) (plan_GracePeriodHours plan) (pay_PaidAt payment)
        periodStart periodEnd graceEndsAt false None None in
      insertPeriod row ;;;
      let start := if extends then default periodStart (sub_CurrentPeriodStart subscription)
                   else periodStart in
      let '(status, next) := statusAt now start periodEnd graceEndsAt in
      updateSubscription (sub_SubscriptionID subscription) status start periodEnd graceEndsAt next now ;;;
      let eventData := periodEventData (sub_SubscriptionID subscription) (pay_UserID payment) newPeriod
        (pay_OrderID payment) (pay_PaymentID payment) periodStart periodEnd graceEndsAt in
      let '(eventType, eventData) :=
        if decide (status = Expired) then
          ("subscription.expired.v1",
           terminalEventData (sub_SubscriptionID subscription) (pay_UserID payment) "expired"
             [newPeriod] graceEndsAt)
        else (eventType, eventData) in
      insertOutbox newEvent eventType (sub_SubscriptionID subscription) (pay_UserID payment)
        ("payment:" +:+ pay_PaymentID payment +:+ ":" +:+ eventType)%string
        (meta_CorrelationID meta) (Some (meta_EventID meta)) now eventData ;;;
      markInboxProcessed (meta_EventID meta) now ;;;
      commit
  end.

Definition ApplyPayment (clock : Z) (newSub newPeriod newEvent : string) (meta : EventMeta)
    (payment : PaymentSucceeded) (order : Order) (d : db) : result SubErr unit * db :=
  in_tx (applyPayment clock meta payment order None newSub newPeriod newEvent) d.

(** ** Placement read *)

Definition GetPlacement (now : Z) (subscriptionID : string) (d : db) : result SubErr Placement :=
  match subscriptions d !! subscriptionID with
  | None => Err ErrNotFound
  | Some s =>
      if bool_decide (s_status s = Active \/ s_status s = Grace) then
        match first_by by_period_start
                (fun p => bool_decide (p_subscription_id p = s_id s) && negb (p_refunded p) &&
                          (p_period_start p <=? now) && (now <? p_grace_ends_at p)) (periods d) with
        | None => Err ErrNotFound
        | Some p => Ok (MkPlacement (s_id s) (p_id p) (p_region p) (p_primary_nodes p)
                          (p_failover_nodes p) (p_grace_ends_at p))
        end
      else Err ErrNotFound
  end.

(** ** Administrative revocation *)

Definition set_revoked (now : Z) (r : subscription_row) : subscription_row :=
  MkSubRow (s_id r) (s_user_id r) Revoked (s_period_start r) (s_period_end r) (s_grace_ends_at r)
    None None (s_aggregate_sequence r) (s_created_at r) now.

Definition adminRevoke (now : Z) (newEvent : string) (input : AdminRevokeInput) : sub_tx AdminRevokeResult :=
  let* d := get in
  match admin_revoke_requests d !! rin_IdempotencyKey input with
  | Some a =>
      if bool_decide (a_request_sha256 a = rin_RequestSHA256 input /\
                      a_subscription_id a = rin_SubscriptionID input /\
                      a_reason_code a = rin_ReasonCode input)
      then commit ;;; ret (MkRevokeResult (a_subscription_id a) Revoked (a_reason_code a) true)
      else throw ErrIdempotencyConflict
  | None =>
      let* s := from_option_tx (subscriptions d !! rin_SubscriptionID input) ErrNotFound in
      if bool_decide (s_status s = Expired \/ s_status s = Revoked) then throw ErrAdminRevokeNotAllowed
      else
        insertOutbox newEvent "subscription.revoked.v1" (rin_SubscriptionID input) (s_user_id s)
          ("admin-revoke:" +:+ rin_ActionID input)%string (rin_CorrelationID input)
          (Some (rin_ActionID input)) now
          (terminalEventData (rin_SubscriptionID input) (s_user_id s) (rin_ReasonCode input) [] now) ;;;
        modify (set_subscriptions (alter (set_revoked now) (rin_SubscriptionID input))) ;;;
        check (negb (exists_row (fun a => bool_decide (a_action_id a = rin_ActionID input))
                       (admin_revoke_requests d))) "admin_revoke_requests_action_id_key" ;;;
        modify (set_admin (insert (rin_IdempotencyKey input)
          (MkRevokeRow (rin_IdempotencyKey input) (rin_RequestSHA256 input) (rin_ActionID input)
             (rin_CorrelationID input) (rin_SubscriptionID input) (rin_ReasonCode input) now))) ;;;
        commit ;;;
        ret (MkRevokeResult (rin_SubscriptionID input) Revoked (rin_ReasonCode input) false)
  end.

Definition AdminRevoke (now : Z) (newEvent : string) (input : AdminRevokeInput) (d : db)
    : result SubErr AdminRevokeResult * db :=
  in_tx (adminRevoke now newEvent input) d.

(** ** Refunds *)

Definition set_refunded (refundID : string) (refundedAt : Z) (p : period_row) : period_row :=
  MkPeriod (p_id p) (p_subscription_id p) (p_source_order_id p) (p_source_payment_id p) (p_plan_id p)
    (p_region p) (p_primary_nodes p) (p_failover_nodes p) (p_amount_minor p) (p_currency p)
    (p_duration_days p) (p_grace_period_hours p) (p_paid_at p) (p_period_start p) (p_period_end p)
    (p_grace_ends_at p) true (Some refundID) (Some refundedAt).

Definition refund_id_taken (refundID : string) (d : db) : bool :=
  exists_row (fun p => bool_decide (p_refund_id p = Some refundID)) (periods d).

Definition applyRefund (meta : EventMeta) (refund : RefundSucceeded) (now : Z) (newEvent : string)
    : sub_tx bool :=
  let* d := get in
  match payment_join (ref_PaymentID refund) d with
  | None => ret false
  | Some (p, s) =>
      if bool_decide (s_user_id s = ref_UserID refund /\ p_source_order_id p = ref_OrderID refund /\
                      p_amount_minor p = ref_AmountMinor refund /\ p_currency p = ref_Currency refund)
      then
        if p_refunded p then
          if bool_decide (p_refund_id p = Some (ref_RefundID refund)) then ret true else throw ErrConflict
        else
          check (negb (refund_id_taken (ref_RefundID refund) d)) "subscription_periods_refund_id_key" ;;;
          modify (set_periods (alter (set_refunded (ref_RefundID refund) (ref_RefundedAt refund)) (p_id p))) ;;;
          let* d := get in
          match calculateEntitlement d (s_id s) now with
          | None =>
              modify (set_subscriptions (alter (set_state Revoked None None None None now) (s_id s))) ;;;
              insertOutbox newEvent "subscription.revoked.v1" (s_id s) (s_user_id s)
                ("refund:" +:+ ref_RefundID refund)%string (meta_CorrelationID meta)
                (Some (meta_EventID meta)) now
                (terminalEventData (s_id s) (s_user_id s) "refund" [p_id p] (ref_RefundedAt refund)) ;;;
              ret true
          | Some st =>
              updateSubscription (s_id s) (ent_Status st) (ent_Start st) (ent_End st) (ent_Grace st)
                (ent_Next st) now ;;;
              (if bool_decide ((s_status s = Active \/ s_status s = Grace) /\ ent_Status st = Pending)
               then insertOutbox newEvent "subscription.revoked.v1" (s_id s) (s_user_id s)
                      ("refund-gap:" +:+ ref_RefundID refund)%string (meta_CorrelationID meta)
                      (Some (meta_EventID meta)) now
                      (terminalEventData (s_id s) (s_user_id s) "refund_gap" [p_id p]
                         (ref_RefundedAt refund))
               else ret tt) ;;;
              ret true
          end
      else throw ErrConflict
  end.

(** An [ErrConflict] of [applyRefund] dead-letters the event and commits;
    any other error aborts. [k] finishes a run without conflict. *)
Definition dead_letter_conflict (eventID : string) (now : Z) (m : sub_tx bool) (k : bool -> sub_tx unit)
    : sub_tx unit :=
  let* outcome := catch (let* applied := m in ret (Some applied))
    (fun e => if decide (e = ErrConflict) then ret None else throw e) in
  match outcome with
  | None => deadLetterInbox eventID now "durable_state_conflict" ;;; commit
  | Some applied => k applied
  end.

Definition storeRefund (clock : Z) (meta : EventMeta) (refund : RefundSucceeded) (nowOverride : option Z)
    (newEvent : string) : sub_tx unit :=
  let now := transactionTime clock nowOverride in
  let* inserted := insertInbox now meta (ref_PaymentID refund) (ref_UserID refund) (Some refund) InPending in
  if negb inserted then commit else
  dead_letter_conflict (meta_EventID meta) now (applyRefund meta refund now newEvent)
    (fun applied =>
       when applied (markInboxProcessed (meta_EventID meta) now) ;;;
       commit).

Definition StoreRefund (clock : Z) (newEvent : string) (meta : EventMeta) (refund : RefundSucceeded) (d : db)
    : result SubErr unit * db :=
  in_tx (storeRefund clock meta refund None newEvent) d.

Definition lease_free (lease : option Z) (now : Z) : bool :=
  match lease with None => true | Some l => l <=? now end.
Definition claim_inbox (now lease : Z) (r : inbox_row) : inbox_row :=
  MkInbox (i_event_id r) (i_event_type r) (i_aggregate_id r) (i_source_payment_id r) (i_user_id r)
    (i_correlation_id r) (i_payload r) InProcessing (i_attempts r + 1) (i_next_attempt_at r)
    (Some (now + lease)) (i_last_error_code r) (i_received_at r) (i_processed_at r) (i_source r).
Definition refund_due (now : Z) (locked : gset string) (r : inbox_row) : bool :=
  bool_decide (i_event_type r = "billing.refund.succeeded.v1") &&
  bool_decide (i_state r = InPending \/ i_state r = InProcessing) &&
  (i_next_attempt_at r <=? now) && lease_free (i_lease_until r) now &&
  bool_decide (i_event_id r ∉ locked).

(** The claiming statement commits on its own, before the row is decoded: a
    row without payload or source columns stays claimed although the call
    fails. *)
Definition ClaimRefund (now lease : Z) (locked : gset string) (d : db)
    : result SubErr (option RefundWork) * db :=
  match first_by (fun a b => i_received_at a <=? i_received_at b) (refund_due now locked) (inbox d) with
  | None => (Ok None, d)
  | Some r =>
      let d' := set_inbox (alter (claim_inbox now lease) (i_event_id r)) d in
      match i_source r, i_payload r with
      | Some (topic, partition, offset, hash), Some refund =>
          (Ok (Some (MkRefundWork (i_event_id r)
             (MkEventMeta (i_event_id r) (i_event_type r) (i_aggregate_id r) (i_correlation_id r) None 0
                topic partition offset hash) refund (i_attempts r + 1))), d')
      | None, _ => (Err (ErrSQL "claim refund inbox"), d')
      | _, None => (Err (ErrSQL "decode normalized refund"), d')
      end
  end.

Definition reschedule_refund (next : Z) (r : inbox_row) : inbox_row :=
  MkInbox (i_event_id r) (i_event_type r) (i_aggregate_id r) (i_source_payment_id r) (i_user_id r)
    (i_correlation_id r) (i_payload r) InPending (i_attempts r) next None
    (Some "payment_not_received") (i_received_at r) (i_processed_at r) (i_source r).

Definition applyClaimedRefund (clock : Z) (work : RefundWork) (retryDelay : Z) (nowOverride : option Z)
    (newEvent : string) : sub_tx unit :=
  let now := transactionTime clock nowOverride in
  dead_letter_conflict (work_InboxID work) now
    (applyRefund (work_Meta work) (work_Refund work) now newEvent)
    (fun applied =>
       (if applied : bool then markInboxProcessed (work_InboxID work) now
        else modify (set_inbox (alter (reschedule_refund (now + retryDelay)) (work_InboxID work)))) ;;;
       commit).

Definition ApplyClaimedRefund (clock retryDelay : Z) (newEvent : string) (work : RefundWork) (d : db)
    : result SubErr unit * db :=
  in_tx (applyClaimedRefund clock work retryDelay None newEvent) d.

(** ** Lifecycle scheduler *)

Definition claim_transition (until : Z) (r : subscription_row) : subscription_row :=
  MkSubRow (s_id r) (s_user_id r) (s_status r) (s_period_start r) (s_period_end r) (s_grace_ends_at r)
    (s_next_transition_at r) (Some until) (s_aggregate_sequence r) (s_created_at r) (s_updated_at r).
Definition transition_due (now : Z) (locked : gset string) (s : subscription_row) : bool :=
  bool_decide (s_status s = Pending \/ s_status s = Active \/ s_status s = Grace) &&
  match s_next_transition_at s with Some n => n <=? now | None => false end &&
  lease_free (s_transition_lease_until s) now &&
  bool_decide (s_id s ∉ locked).
Definition by_transition (a b : subscription_row) : bool :=
  let na := default 0 (s_next_transition_at a) in
  let nb := default 0 (s_next_transition_at b) in
  (na <? nb) || ((na =? nb) && String.leb (s_id a) (s_id b)).

Definition claimDue (clock : Z) (nowOverride : option Z) (lease : Z) (locked : gset string) (d : db)
    : option Subscription * db :=
  let now := default clock nowOverride in
  match first_by by_transition (transition_due now locked) (subscriptions d) with
  | None => (None, d)
  | Some s => (Some (domain_subscription s),
               set_subscriptions (alter (claim_transition (now + lease)) (s_id s)) d)
  end.
Definition ClaimDue (clock lease : Z) (locked : gset string) (d : db) : option Subscription * db :=
  claimDue clock None lease locked d.

Definition set_expired (now : Z) (r : subscription_row) : subscription_row :=
  MkSubRow (s_id r) (s_user_id r) Expired (s_period_start r) (s_period_end r) (s_grace_ends_at r)
    None None (s_aggregate_sequence r) (s_created_at r) now.

(** [ev1] and [ev2] are the identifiers of the events the run may emit. *)
Definition completeDue (clock : Z) (id : string) (nowOverride : option Z) (ev1 ev2 : string) : sub_tx unit :=
  let* d := get in
  let* s := from_option_tx (subscriptions d !! id) (ErrSQL "lock due subscription") in
  let now := transactionTime clock nowOverride in
  match s_transition_lease_until s with
  | None => ret tt
  | Some _ =>
      match calculateEntitlement d id now with
      | None =>
          (if bool_decide (s_status s <> Expired /\ s_status s <> Revoked) then
             let effectiveAt := match s_grace_ends_at s with
                                | Some g => if negb (now <? g) then g else now
                                | None => now
                                end in
             insertOutbox ev1 "subscription.expired.v1" id (s_user_id s)
               ("expired:" +:+ id +:+ ":" +:+ rfc3339nano effectiveAt)%string "" None now
               (terminalEventData id (s_user_id s) "expired" [] effectiveAt)
           else ret tt) ;;;
          modify (set_subscriptions (alter (set_expired now) id)) ;;;
          commit
      | Some st =>
          (if bool_decide (s_status s <> Pending /\ ent_Status st = Pending) then
             insertOutbox ev1 "subscription.expired.v1" id (s_user_id s)
               ("gap-expired:" +:+ pr_ID (ent_Period st))%string "" None now
               (terminalEventData id (s_user_id s) "expired" [] now)
           else ret tt) ;;;
          (if bool_decide (s_status s = Pending /\ ent_Status st = Active) then
             let p := ent_Period st in
             insertOutbox ev2 "subscription.activated.v1" id (s_user_id s)
               ("transition-activated:" +:+ pr_ID p)%string "" None now
               (periodEventData id (s_user_id s) (pr_ID p) (pr_OrderID p) (pr_PaymentID p)
                  (pr_Start p) (pr_End p) (pr_Grace p))
           else ret tt) ;;;
          (if bool_decide (s_status s = Active /\ ent_Status st = Grace) then
             insertOutbox ev1 "subscription.grace.started.v1" id (s_user_id s)
               ("grace:" +:+ id +:+ ":" +:+ rfc3339nano (ent_End st))%string "" None now
               (graceStartedEventData id (s_user_id s) (ent_End st) (ent_Grace st) (ent_End st))
           else ret tt) ;;;
          updateSubscription id (ent_Status st) (ent_Start st) (ent_End st) (ent_Grace st)
            (ent_Next st) now ;;;
          commit
      end
  end.

Definition CompleteDue (clock : Z) (ev1 ev2 : string) (id : string) (d : db) : result SubErr unit * db :=
  in_tx (completeDue clock id None ev1 ev2) d.

Definition GetSubscription (userID : string) (d : db) : result SubErr Subscription :=
  match subscription_of_user userID d with
  | None => Err ErrNotFound
  | Some s => Ok (domain_subscription s)
  end.

Definition RecordDeadLetter (topic : string) (partition offset : Z) (payloadHash reason : string) (d : db) : db :=
  match dead_letters d !! (topic, partition, offset) with
  | Some _ => d
  | None => set_dead_letters (insert (topic, partition, offset) (payloadHash, reason)) d
  end.

(** ** Outbox delivery *)

Definition by_creation (a b : outbox_row) : bool :=
  (o_created_at a <? o_created_at b) ||
  ((o_created_at a =? o_created_at b) &&
   (if bool_decide (o_aggregate_id a = o_aggregate_id b)
    then o_aggregate_sequence a <=? o_aggregate_sequence b
    else String.leb (o_aggregate_id a) (o_aggregate_id b))).
Definition has_unpublished_predecessor (d : db) (o : outbox_row) : bool :=
  exists_row (fun prior => bool_decide (o_aggregate_id prior = o_aggregate_id o) &&
    (o_aggregate_sequence prior <? o_aggregate_sequence o) &&
    negb (bool_decide (o_state prior = OutPublished))) (outbox d).
Definition deliverable (now : Z) (locked : gset string) (d : db) (o : outbox_row) : bool :=
  bool_decide (o_state o = OutPending \/ o_state o = OutProcessing) &&
  (o_next_attempt_at o <=? now) && lease_free (o_lease_until o) now &&
  negb (has_unpublished_predecessor d o) && bool_decide (o_event_id o ∉ locked).
Definition set_delivery (state : OutboxState) (attempts next : Z) (lease published : option Z)
    (o : outbox_row) : outbox_row :=
  MkOutbox (o_event_id o) (o_topic o) (o_partition_key o) (o_aggregate_id o) (o_aggregate_sequence o)
    (o_dedupe_key o) (o_payload o) state attempts next lease (o_created_at o) published.

Definition ClaimOutbox (now lease : Z) (locked : gset string) (d : db) : option outbox_row * db :=
  match first_by by_creation (deliverable now locked d) (outbox d) with
  | None => (None, d)
  | Some o =>
      let o' := set_delivery OutProcessing (o_attempts o + 1) (o_next_attempt_at o)
                  (Some (now + lease)) (o_published_at o) o in
      (Some o', set_outbox (insert (o_event_id o) o') d)
  end.

Definition CompleteOutbox (now : Z) (eventID : string) (d : db) : db :=
  set_outbox (alter (fun o => if decide (o_state o = OutProcessing)
    then set_delivery OutPublished (o_attempts o) (o_next_attempt_at o) None (Some now) o else o) eventID) d.

Definition RetryOutbox (now delay : Z) (eventID : string) (d : db) : db :=
  set_outbox (alter (fun o => if decide (o_state o = OutProcessing)
    then set_delivery OutPending (o_attempts o) (now + delay) None (o_published_at o) o else o) eventID) d.
