(* ===== verification/SubscriptionInv.v ===== *)
(** * subscription-service: store invariants

    What every reachable state of the store satisfies, whatever operations
    ran, succeeded or failed, in whatever order. *)

From Stdlib Require Import List.
From S2P Require Import Prelude Platform SubscriptionDomain SubscriptionStore.

(** ** The invariant *)

Definition refund_key (refundID : string) (key : string) : Prop :=
  key = ("refund:" +:+ refundID)%string \/ key = ("refund-gap:" +:+ refundID)%string.

(** Rows sit under their primary key and a subscription belongs to one user;
    no two periods pay for the same payment; a period carries a refund only
    once refunded; the outbox of a subscription numbers its events
    [1 .. aggregate_sequence], without gap or repetition; an event about a
    refund was written together with that refund; an event is claimed or
    published only after every earlier event of its subscription was
    published. *)
Record Inv (d : db) : Prop := {
  inv_sub_key : forall k s, subscriptions d !! k = Some s -> s_id s = k;
  inv_user : forall k1 k2 s1 s2, subscriptions d !! k1 = Some s1 -> subscriptions d !! k2 = Some s2 ->
    s_user_id s1 = s_user_id s2 -> k1 = k2;
  inv_period_key : forall k p, periods d !! k = Some p -> p_id p = k;
  inv_payment : forall k1 k2 p1 p2, periods d !! k1 = Some p1 -> periods d !! k2 = Some p2 ->
    p_source_payment_id p1 = p_source_payment_id p2 -> k1 = k2;
  inv_period_span : forall k p, periods d !! k = Some p ->
    p_period_start p < p_period_end p /\ p_period_end p <= p_grace_ends_at p;
  inv_unrefunded : forall k p, periods d !! k = Some p -> p_refunded p = false -> p_refund_id p = None;
  inv_out_key : forall k o, outbox d !! k = Some o -> o_event_id o = k;
  inv_out_range : forall k o, outbox d !! k = Some o -> exists s,
    subscriptions d !! o_aggregate_id o = Some s /\ 1 <= o_aggregate_sequence o <= s_aggregate_sequence s;
  inv_out_unique : forall k1 k2 o1 o2, outbox d !! k1 = Some o1 -> outbox d !! k2 = Some o2 ->
    o_aggregate_id o1 = o_aggregate_id o2 -> o_aggregate_sequence o1 = o_aggregate_sequence o2 -> k1 = k2;
  inv_out_gapless : forall sid s n, subscriptions d !! sid = Some s -> 1 <= n <= s_aggregate_sequence s ->
    exists k o, outbox d !! k = Some o /\ o_aggregate_id o = sid /\ o_aggregate_sequence o = n;
  inv_out_refund : forall k o r, outbox d !! k = Some o -> refund_key r (o_dedupe_key o) ->
    exists j p, periods d !! j = Some p /\ p_refund_id p = Some r;
  inv_seq : forall k s, subscriptions d !! k = Some s -> 0 <= s_aggregate_sequence s;
  inv_out_order : forall k1 k2 o1 o2, outbox d !! k1 = Some o1 -> outbox d !! k2 = Some o2 ->
    o_aggregate_id o1 = o_aggregate_id o2 -> o_aggregate_sequence o1 < o_aggregate_sequence o2 ->
    o_state o2 <> OutPending -> o_state o1 = OutPublished
}.

Lemma Inv_empty : Inv empty_db.
Proof. constructor; intros; simpl in *; simplify_map_eq. Qed.

(** ** Updates the invariant does not see *)

Lemma Inv_frame d d' :
  subscriptions d' = subscriptions d -> periods d' = periods d -> outbox d' = outbox d ->
  Inv d -> Inv d'.
Proof.
  intros Hs Hp Ho []. constructor; rewrite ?Hs, ?Hp, ?Ho; assumption.
Qed.

(** An update of a subscription row that keeps key, owner and numbering. *)
Definition sub_neutral (f : subscription_row -> subscription_row) : Prop :=
  forall s, s_id (f s) = s_id s /\ s_user_id (f s) = s_user_id s /\
       s_aggregate_sequence (f s) = s_aggregate_sequence s.

Lemma Inv_alter_sub d f id :
  sub_neutral f -> Inv d -> Inv (set_subscriptions (alter f id) d).
Proof.
  intros Hf [I1 I2 I3 I4 I5 I6 I7 I8 I9 I10 I11 I12 I13].
  assert (forall k s, alter f id (subscriptions d) !! k = Some s -> exists s0,
    subscriptions d !! k = Some s0 /\ s_id s = s_id s0 /\ s_user_id s = s_user_id s0 /\
    s_aggregate_sequence s = s_aggregate_sequence s0) as Hinv.
  { intros k s (s0 & H0 & ->)%alter_Some. exists s0. split; [done|].
    case_decide; [apply Hf | done]. }
  assert (forall k s0, subscriptions d !! k = Some s0 -> exists s,
    alter f id (subscriptions d) !! k = Some s /\ s_aggregate_sequence s = s_aggregate_sequence s0) as Hfwd.
  { intros k s0 H0. exists (if decide (id = k) then f s0 else s0). split.
    - apply alter_Some. eauto.
    - case_decide; [apply Hf | done]. }
  constructor; simpl; try done.
  - intros k s (s0 & H0 & E & _)%Hinv. rewrite E. by apply I1.
  - intros k1 k2 s1 s2 (t1 & H1 & _ & E1 & _)%Hinv (t2 & H2 & _ & E2 & _)%Hinv E.
    eapply I2; eauto. congruence.
  - intros k o Ho. destruct (I8 k o Ho) as (s & Hs & Hr).
    destruct (Hfwd _ _ Hs) as (s' & Hs' & E). exists s'. split; [done|]. by rewrite E.
  - intros sid s n (s0 & H0 & _ & _ & E)%Hinv Hn. eapply I10; eauto. by rewrite <- E.
  - intros k s (s0 & H0 & _ & _ & E)%Hinv. rewrite E. by eapply I12.
Qed.

Lemma find_row_Some {A} (p : A -> bool) (m : table A) x :
  find_row p m = Some x -> p x = true /\ exists k, m !! k = Some x.
Proof.
  unfold find_row. intros H. apply elem_where.
  destruct (where_ p m); simplify_eq/=. left.
Qed.
Lemma find_row_None {A} (p : A -> bool) (m : table A) :
  find_row p m = None <-> forall k x, m !! k = Some x -> p x = false.
Proof.
  unfold find_row. split.
  - intros H k x Hk. destruct (p x) eqn:Hp; [|done].
    assert (x ∈ where_ p m) as Hin by (apply elem_where; eauto).
    destruct (where_ p m); [by apply not_elem_of_nil in Hin | done].
  - intros H. destruct (where_ p m) as [|x l] eqn:Ho; [done|].
    assert (x ∈ where_ p m) as [Hp (k & Hk)]%elem_where by (rewrite Ho; left).
    apply H in Hk. congruence.
Qed.

Lemma Inv_new_sub d id user now :
  subscription_of_user user d = None -> subscriptions d !! id = None -> Inv d ->
  Inv (set_subscriptions (insert id (MkSubRow id user Pending None None None None None 0 now now)) d).
Proof.
  intros Hu Hid [I1 I2 I3 I4 I5 I6 I7 I8 I9 I10 I11 I12 I13].
  assert (forall k s, subscriptions d !! k = Some s -> s_user_id s <> user) as Hfresh.
  { intros k s Hk E. unfold subscription_of_user in Hu. rewrite find_row_None in Hu.
    specialize (Hu k s Hk). by rewrite bool_decide_eq_false in Hu. }
  constructor; simpl; try done.
  - intros k s. rewrite lookup_insert. case_decide; [naive_solver|]. apply I1.
  - intros k1 k2 s1 s2. rewrite !lookup_insert. repeat case_decide; intros; simplify_eq/=;
      try done; [exfalso; eapply Hfresh; eauto | exfalso; eapply Hfresh; eauto | by eapply I2].
  - intros k o Ho. destruct (I8 k o Ho) as (s & Hs & Hr). exists s. split; [|done].
    rewrite lookup_insert_ne; [done|]. intros ->. congruence.
  - intros sid s n. rewrite lookup_insert. case_decide; [intros; simplify_eq/=; lia|]. eauto.
  - intros k s. rewrite lookup_insert. case_decide; [intros; simplify_eq/=; lia|]. apply I12.
Qed.

Lemma Inv_new_period d p :
  unique_period p d = true -> period_checks p = true -> p_refund_id p = None -> Inv d ->
  Inv (set_periods (insert (p_id p) p) d).
Proof.
  intros [Hu Hid]%andb_true_iff Hc Hr [I1 I2 I3 I4 I5 I6 I7 I8 I9 I10 I11 I12 I13].
  rewrite negb_true_iff, exists_row_false in Hu. rewrite bool_decide_eq_true in Hid.
  assert (forall k q, periods d !! k = Some q -> p_source_payment_id q <> p_source_payment_id p) as Hfresh.
  { intros k q Hk E. specialize (Hu k q Hk). rewrite bool_decide_eq_false in Hu. naive_solver. }
  constructor; simpl; try done.
  - intros k q. rewrite lookup_insert. case_decide; [naive_solver|]. apply I3.
  - intros k1 k2 p1 p2. rewrite !lookup_insert. repeat case_decide; intros; simplify_eq/=;
      try done; [by edestruct Hfresh | by edestruct Hfresh | by eapply I4].
  - intros k q. rewrite lookup_insert. case_decide; [|apply I5]. intros [= <-].
    unfold period_checks in Hc. rewrite !andb_true_iff in Hc. lia.
  - intros k q. rewrite lookup_insert. case_decide; [naive_solver|]. apply I6.
  - intros k o r Ho Hk. destruct (I11 k o r Ho Hk) as (j & q & Hj & Hq). exists j, q.
    split; [|done]. rewrite lookup_insert_ne; [done|]. intros E. congruence.
Qed.

Lemma Inv_refund_period d p refundID at_ :
  periods d !! p_id p = Some p -> p_refunded p = false -> Inv d ->
  Inv (set_periods (alter (set_refunded refundID at_) (p_id p)) d).
Proof.
  intros Hp Hr [I1 I2 I3 I4 I5 I6 I7 I8 I9 I10 I11 I12 I13].
  assert (forall k q, alter (set_refunded refundID at_) (p_id p) (periods d) !! k = Some q -> exists q0,
    periods d !! k = Some q0 /\ p_id q = p_id q0 /\ p_source_payment_id q = p_source_payment_id q0 /\
    p_period_start q = p_period_start q0 /\ p_period_end q = p_period_end q0 /\
    p_grace_ends_at q = p_grace_ends_at q0 /\ (p_refunded q = false -> q = q0)) as Hinv.
  { intros k q (q0 & H0 & ->)%alter_Some. exists q0. split; [done|]. by case_decide. }
  constructor; simpl; try done.
  - intros k q (q0 & H0 & E & _)%Hinv. rewrite E. by apply I3.
  - intros k1 k2 p1 p2 (q1 & H1 & _ & E1 & _)%Hinv (q2 & H2 & _ & E2 & _)%Hinv E.
    eapply I4; eauto. congruence.
  - intros k q (q0 & H0 & _ & _ & E1 & E2 & E3 & _)%Hinv. rewrite E1, E2, E3. by eapply I5.
  - intros k q (q0 & H0 & _ & _ & _ & _ & _ & E)%Hinv Hf. rewrite (E Hf). eapply I6; eauto. by rewrite <- (E Hf).
  - intros k o r Ho Hk. destruct (I11 k o r Ho Hk) as (j & q & Hj & Hq).
    exists j, (if decide (p_id p = j) then set_refunded refundID at_ q else q).
    split; [apply alter_Some; eauto|]. case_decide; [|done]. subst.
    assert (q = p) as -> by congruence. apply I6 in Hj; [congruence | done].
Qed.

(** ** The outbox insert *)

Lemma refund_key_inj r r' k : refund_key r k -> refund_key r' k -> r = r'.
Proof. intros [->| ->] [H|H]; simpl in H; by simplify_eq. Qed.

Lemma Inv_event d s o :
  subscriptions d !! o_aggregate_id o = Some s ->
  o_aggregate_sequence o = s_aggregate_sequence s + 1 ->
  outbox d !! o_event_id o = None -> o_state o = OutPending ->
  (forall r, refund_key r (o_dedupe_key o) -> exists j p, periods d !! j = Some p /\ p_refund_id p = Some r) ->
  Inv d ->
  Inv (set_outbox (insert (o_event_id o) o)
        (set_subscriptions (insert (o_aggregate_id o) (bump_sequence s)) d)).
Proof.
  intros Hs Hseq Hev Hpend Hkey [I1 I2 I3 I4 I5 I6 I7 I8 I9 I10 I11 I12 I13].
  assert (forall k t, <[o_aggregate_id o := bump_sequence s]> (subscriptions d) !! k = Some t -> exists t0,
    subscriptions d !! k = Some t0 /\ s_id t = s_id t0 /\ s_user_id t = s_user_id t0 /\
    s_aggregate_sequence t = s_aggregate_sequence t0 + (if decide (o_aggregate_id o = k) then 1 else 0)) as Hinv.
  { intros k t. rewrite lookup_insert. case_decide; [subst; intros [= <-]; eauto|].
    intros Ht. exists t. split_and!; auto with lia. }
  constructor; simpl; try done.
  - intros k t (t0 & H0 & E & _)%Hinv. rewrite E. by apply I1.
  - intros k1 k2 s1 s2 (t1 & H1 & _ & E1 & _)%Hinv (t2 & H2 & _ & E2 & _)%Hinv E.
    eapply I2; eauto. congruence.
  - intros k q. rewrite lookup_insert. case_decide; [naive_solver|]. apply I7.
  - intros k q. rewrite (lookup_insert (outbox d)). case_decide as Hk.
    + intros [= <-]. exists (bump_sequence s). pose proof (I12 _ _ Hs).
      rewrite lookup_insert, decide_True by done. simpl. split; [done|]. lia.
    + intros Hq. destruct (I8 k q Hq) as (t & Ht & Hr). rewrite lookup_insert. case_decide as Ha.
      * exists (bump_sequence s). split; [done|]. assert (t = s) as -> by congruence. simpl. lia.
      * by exists t.
  - assert (forall k q, outbox d !! k = Some q -> o_aggregate_id q = o_aggregate_id o ->
      o_aggregate_sequence q <> o_aggregate_sequence o) as Hne.
    { intros k q Hq E. destruct (I8 k q Hq) as (t & Ht & Hr). rewrite E, Hs in Ht. simplify_eq. lia. }
    intros k1 k2 o1 o2. rewrite !lookup_insert. repeat case_decide; intros; simplify_eq/=; try done.
    + by edestruct Hne.
    + by edestruct Hne.
    + by eapply I9.
  - intros sid t n (t0 & H0 & _ & _ & E)%Hinv Hn. case_decide as Ha.
    + subst sid. rewrite H0 in Hs. simplify_eq.
      destruct (decide (n = o_aggregate_sequence o)) as [->|Hd].
      * exists (o_event_id o), o. rewrite lookup_insert, decide_True by done. done.
      * destruct (I10 _ _ n H0) as (k & q & Hk & ? & ?); [lia|]. exists k, q.
        rewrite lookup_insert_ne; [done|]. congruence.
    + destruct (I10 _ _ n H0) as (k & q & Hk & ? & ?); [lia|]. exists k, q.
      rewrite lookup_insert_ne; [done|]. congruence.
  - intros k q r. rewrite lookup_insert. case_decide; [naive_solver|]. apply I11.
  - intros k t (t0 & H0 & _ & _ & E)%Hinv. rewrite E. pose proof (I12 _ _ H0). case_decide; lia.
  - intros k1 k2 o1 o2. rewrite !lookup_insert. repeat case_decide; intros; simplify_eq/=; try done.
    + destruct (I8 k2 o2) as (t & Ht & Hr); [done|]. assert (t = s) as -> by congruence. lia.
    + by eapply I13.
Qed.

(** What a run of [insertOutbox] does: one event numbered next, or an error
    that says which constraint failed. *)
Lemma insertOutbox_run ev topic sid user key corr cause at_ data t r t' :
  insertOutbox ev topic sid user key corr cause at_ data t = (r, t') ->
  durable t' = durable t /\
  match r with
  | Ok _ => exists s, subscriptions (working t) !! sid = Some s /\
      outbox (working t) !! ev = None /\
      exists_row (fun o => bool_decide (o_dedupe_key o = key)) (outbox (working t)) = false /\
      let n := s_aggregate_sequence s + 1 in
      working t' =
        set_outbox (insert ev (MkOutbox ev topic ("user:" +:+ user)%string sid n key
          (buildEventPayload topic ev sid user corr cause n at_ data) OutPending 0 at_ None at_ None))
        (set_subscriptions (insert sid (bump_sequence s)) (working t))
  | Err e => e <> ErrConflict \/
      (e = ErrConflict /\ exists k o, outbox (working t) !! k = Some o /\ o_dedupe_key o = key)
  end.
Proof.
  unfold insertOutbox, bind, get, check, from_option_tx, throw, ret, modify. simpl.
  destruct (subscriptions (working t) !! sid) as [s|] eqn:Hs; simpl;
    [|intros; simplify_eq/=; split; [done|by left]].
  destruct (exists_row _ _) eqn:Hk; simpl.
  { intros; simplify_eq/=. split; [done|]. right. split; [done|].
    apply exists_row_true in Hk as (k & o & Hk & Hd). rewrite bool_decide_eq_true in Hd. eauto. }
  destruct (bool_decide (outbox _ !! ev = None)) eqn:He; simpl;
    [|intros; simplify_eq/=; split; [done|by left]].
  destruct (exists_row (fun r => bool_decide (_ /\ _)) _) eqn:Hu; simpl;
    [intros; simplify_eq/=; split; [done|by left]|].
  intros; simplify_eq/=. split; [done|]. exists s. by rewrite bool_decide_eq_true in He.
Qed.

(** The keys of events that are not about a refund. *)
Definition plain_key (key : string) : Prop := forall r, ~ refund_key r key.

Lemma preserves_insertOutbox ev topic sid user key corr cause at_ data :
  plain_key key -> preserves Inv (insertOutbox ev topic sid user key corr cause at_ data).
Proof.
  intros Hkey t Hw. destruct (insertOutbox _ _ _ _ _ _ _ _ _ t) as [r t'] eqn:Hrun.
  apply insertOutbox_run in Hrun as [Hdur Hr]. simpl. rewrite Hdur. split; [done|].
  destruct r as [[]|e]; [|done]. intros _. destruct Hr as (s & Hs & Ho & _ & ->).
  apply (Inv_event _ s (MkOutbox ev _ _ _ _ _ _ _ _ _ _ _ _)); try done.
  intros r Hr. by destruct (Hkey r).
Qed.

(** What a successful step did. *)
Lemma check_ok b what t u t' : check b what t = (Ok u, t') -> b = true /\ t' = t.
Proof. destruct b; simpl; [by intros [= <- <-] | done]. Qed.

Lemma updateSubscription_ok id st s e g n now t u t' :
  updateSubscription id st s e g n now t = (Ok u, t') ->
  t' = Txn (durable t) (set_subscriptions (alter (set_state st (Some s) (Some e) (Some g) n now) id) (working t)).
Proof.
  unfold updateSubscription. intros H. tx_inv H. apply check_ok in Hs as [_ ->]. by injection H as <-.
Qed.

(** ** Every operation preserves the invariant *)

Lemma preserves_set_inbox f : preserves (E:=SubErr) Inv (modify (set_inbox f)).
Proof. apply preserves_modify. intros d. by apply Inv_frame. Qed.
Lemma preserves_set_dead_letters f : preserves (E:=SubErr) Inv (modify (set_dead_letters f)).
Proof. apply preserves_modify. intros d. by apply Inv_frame. Qed.
Lemma preserves_set_admin f : preserves (E:=SubErr) Inv (modify (set_admin f)).
Proof. apply preserves_modify. intros d. by apply Inv_frame. Qed.
Lemma preserves_alter_sub f id :
  sub_neutral f -> preserves (E:=SubErr) Inv (modify (set_subscriptions (alter f id))).
Proof. intros Hf. apply preserves_modify. intros d. by apply Inv_alter_sub. Qed.
Lemma preserves_check I b what : preserves I (check b what).
Proof. by destruct b. Qed.
Lemma preserves_from_option {A} I (o : option A) e : preserves I (from_option_tx o e).
Proof. by destruct o. Qed.
#[export] Hint Resolve preserves_set_inbox preserves_set_dead_letters preserves_set_admin
  preserves_check preserves_from_option preserves_insertOutbox preserves_alter_sub : txdb.
#[export] Hint Extern 1 (sub_neutral _) => done : txdb.
#[export] Hint Extern 1 (plain_key _) => (intros ? [?|?]; done) : txdb.

Lemma preserves_insertInbox now meta pid uid payload st :
  preserves Inv (insertInbox now meta pid uid payload st).
Proof. unfold insertInbox. tx_auto. Qed.
Lemma preserves_markInboxProcessed ev now : preserves Inv (markInboxProcessed ev now).
Proof. unfold markInboxProcessed. tx_auto. Qed.
Lemma preserves_deadLetterInbox ev now reason : preserves Inv (deadLetterInbox ev now reason).
Proof. unfold deadLetterInbox. tx_auto. Qed.
Lemma preserves_updateSubscription id st s e g n now :
  preserves Inv (updateSubscription id st s e g n now).
Proof. unfold updateSubscription. tx_auto. Qed.
Lemma preserves_getOrCreate id user now : preserves Inv (getOrCreateSubscription id user now).
Proof.
  unfold getOrCreateSubscription. apply preserves_read. intros d Hd t <-.
  destruct (subscription_of_user user (working t)) as [s|] eqn:Hu; [done|].
  unfold check. destruct (bool_decide _) eqn:Hid; [|done]. simpl. split; [done|]. intros _.
  rewrite bool_decide_eq_true in Hid. by apply Inv_new_sub.
Qed.
Lemma preserves_insertPeriod row : p_refund_id row = None -> preserves Inv (insertPeriod row).
Proof.
  intros Hr. unfold insertPeriod. apply preserves_read. intros d Hd t <-. unfold check.
  destruct (unique_period row _) eqn:Hu; [|done]. destruct (period_checks row) eqn:Hc; [|done].
  simpl. split; [done|]. intros _. by apply Inv_new_period.
Qed.
#[export] Hint Resolve preserves_insertInbox preserves_markInboxProcessed preserves_deadLetterInbox
  preserves_updateSubscription preserves_getOrCreate preserves_insertPeriod : txdb.

Lemma preserves_recordPaymentReplay clock meta pay o :
  preserves Inv (recordPaymentReplay clock meta pay o).
Proof. unfold recordPaymentReplay. cbv zeta. tx_auto. Qed.
Lemma preserves_applyPayment clock meta pay ord o ns np ne :
  preserves Inv (applyPayment clock meta pay ord o ns np ne).
Proof. unfold applyPayment. cbv zeta. tx_auto. Qed.
Lemma preserves_adminRevoke now ev input : preserves Inv (adminRevoke now ev input).
Proof. unfold adminRevoke. tx_auto. Qed.
Lemma preserves_completeDue clock id o e1 e2 : preserves Inv (completeDue clock id o e1 e2).
Proof. unfold completeDue. cbv zeta. tx_auto. Qed.

(** *** Refunds *)

(** The conflict branch of a refund runs inside the transaction it commits
    afterwards: it must not have written anything yet. The two conflicts
    detected up front write nothing, and the third, a clash of the event's
    deduplication key, would need an event about this refund before the
    refund itself. *)
Lemma applyRefund_event ev topic sid user key corr cause at_ data rid (m : sub_tx unit) t d0 r t' :
  (forall u tu, m t = (Ok u, tu) -> durable tu = durable t /\ Inv (working tu) /\
     outbox (working tu) = outbox d0 /\ exists j p, periods (working tu) !! j = Some p /\ p_refund_id p = Some rid) ->
  (forall e tu, m t = (Err e, tu) -> durable tu = durable t /\ e <> ErrConflict) ->
  Inv d0 -> refund_id_taken rid d0 = false -> refund_key rid key ->
  (m ;;; insertOutbox ev topic sid user key corr cause at_ data ;;; ret true) t = (r, t') ->
  durable t' = durable t /\
  match r with Ok _ => Inv (working t') | Err e => e <> ErrConflict end.
Proof.
  intros Hok Herr Hinv Hfree Hkey H.
  apply bind_inv in H as [(u & tu & Hm & H)|(e & Hm & ->)]; [|by apply Herr].
  destruct (Hok _ _ Hm) as (Hdur & HI & Hout & Hp).
  apply bind_inv in H as [(u' & tu' & Hi & H)|(e & Hi & ->)].
  - injection H as <- <-. apply insertOutbox_run in Hi as [Hd (s & Hs & Ho & _ & ->)].
    split; [congruence|].
    apply (Inv_event _ s (MkOutbox ev _ _ _ _ _ _ _ _ _ _ _ _)); try done.
    intros r Hr. by rewrite (refund_key_inj _ _ _ Hr Hkey).
  - apply insertOutbox_run in Hi as [Hd He]. split; [congruence|].
    destruct He as [He|(-> & k & o & Hk & Hd')]; [done|]. exfalso.
    rewrite Hout in Hk. rewrite <- Hd' in Hkey.
    destruct (inv_out_refund _ Hinv _ _ _ Hk Hkey) as (j & p & Hj & Hr).
    unfold refund_id_taken in Hfree. rewrite exists_row_false in Hfree.
    specialize (Hfree j p Hj). by rewrite bool_decide_eq_false in Hfree.
Qed.

Lemma payment_join_Some pid d p s :
  Inv d -> payment_join pid d = Some (p, s) ->
  periods d !! p_id p = Some p /\ subscriptions d !! s_id s = Some s /\
  p_source_payment_id p = pid /\ p_subscription_id p = s_id s.
Proof.
  intros HI. unfold payment_join. destruct (period_of_payment pid d) as [q|] eqn:Hq; [|done].
  destruct (subscriptions d !! p_subscription_id q) as [s'|] eqn:Hs; [|done]. intros [= -> ->].
  unfold period_of_payment in Hq. apply find_row_Some in Hq as [Hp (k & Hk)].
  rewrite bool_decide_eq_true in Hp. rewrite (inv_period_key _ HI _ _ Hk).
  by rewrite (inv_sub_key _ HI _ _ Hs).
Qed.

(** The durable state contradicts the refund: the payment it names was made by
    somebody else, for another order or amount, or was already refunded under
    another identifier. *)
Definition refund_matches (refund : RefundSucceeded) (p : period_row) (s : subscription_row) : Prop :=
  s_user_id s = ref_UserID refund /\ p_source_order_id p = ref_OrderID refund /\
  p_amount_minor p = ref_AmountMinor refund /\ p_currency p = ref_Currency refund.
Definition refund_clash (refund : RefundSucceeded) (d : db) : Prop :=
  exists p s, payment_join (ref_PaymentID refund) d = Some (p, s) /\
    (~ refund_matches refund p s \/ (p_refunded p = true /\ p_refund_id p <> Some (ref_RefundID refund))).

Lemma applyRefund_run meta refund now ev t r t' :
  Inv (working t) -> applyRefund meta refund now ev t = (r, t') ->
  durable t' = durable t /\
  match r with
  | Ok _ => Inv (working t')
  | Err e => e = ErrConflict -> working t' = working t /\ refund_clash refund (working t)
  end.
Proof.
  intros HI. unfold applyRefund. rewrite run_get.
  destruct (payment_join _ _) as [[p s]|] eqn:Hj; [|by intros [= <- <-]].
  destruct (payment_join_Some _ _ _ _ HI Hj) as (Hp & Hs & _ & _).
  case_bool_decide as Hm; [|intros [= <- <-]; repeat split; exists p, s; by auto].
  destruct (p_refunded p) eqn:Href.
  { case_bool_decide; intros [= <- <-]; [done|]. repeat split; exists p, s; by auto. }
  unfold check at 1. destruct (refund_id_taken _ _) eqn:Hfree; simpl negb; cbv iota beta; tx_run;
    [by intros [= <- <-]|]. simpl.
  set (d1 := set_periods _ (working t)). set (t1 := Txn (durable t) d1).
  assert (Inv d1) as HI1 by (by apply Inv_refund_period).
  assert (exists j q, periods d1 !! j = Some q /\ p_refund_id q = Some (ref_RefundID refund)) as Hrow.
  { exists (p_id p), (set_refunded (ref_RefundID refund) (ref_RefundedAt refund) p).
    split; [|done]. apply alter_Some. exists p. by rewrite decide_True. }
  intros Hrun. cut (durable t' = durable t1 /\ match r with Ok _ => Inv (working t') | Err e => e <> ErrConflict end).
  { intros [Hdur Hr]. split; [done|]. destruct r; [done | by intros ->]. }
  revert Hrun. destruct (calculateEntitlement _ _ _) as [st|].
  - case_bool_decide.
    + apply (applyRefund_event _ _ _ _ _ _ _ _ _ (ref_RefundID refund) _ _ (working t)); auto.
      * intros u tu Hu. unfold updateSubscription, check in Hu. destruct (_ && _); [|done].
        injection Hu as <- <-. simpl. split_and!; auto. by apply Inv_alter_sub.
      * intros e tu Hu. unfold updateSubscription, check in Hu. destruct (_ && _); [done|].
        injection Hu as <- <-. done.
      * by right.
    + unfold updateSubscription, check. destruct (_ && _); intros Hu; injection Hu as <- <-; [|done].
      split; [done|]. by apply Inv_alter_sub.
  - apply (applyRefund_event _ _ _ _ _ _ _ _ _ (ref_RefundID refund) _ _ (working t)); auto.
    + intros u tu [= <- <-]. simpl. split_and!; auto. by apply Inv_alter_sub.
    + intros e tu Hu. discriminate Hu.
    + by left.
Qed.

Lemma dead_letter_conflict_run eventID now m k t :
  dead_letter_conflict eventID now m k t =
  match m t with
  | (Ok b, t1) => k b t1
  | (Err e, t1) =>
      if decide (e = ErrConflict) then (deadLetterInbox eventID now "durable_state_conflict" ;;; commit) t1
      else (Err e, t1)
  end.
Proof.
  unfold dead_letter_conflict. unfold bind at 1, catch, bind at 1.
  destruct (m t) as [[b|e] t1]; simpl; [done|]. by case_decide.
Qed.

Lemma preserves_dead_letter_conflict meta refund now ev eventID (k : bool -> sub_tx unit) :
  (forall b, preserves Inv (k b)) ->
  preserves Inv (dead_letter_conflict eventID now (applyRefund meta refund now ev) k).
Proof.
  intros Hk t Hw. rewrite dead_letter_conflict_run.
  destruct (applyRefund meta refund now ev t) as [r t1] eqn:Hrun.
  apply applyRefund_run in Hrun as [Hdur Hr]; [|done]. destruct r as [b|e]; rewrite <- Hdur.
  - by apply Hk.
  - case_decide as He; [|done].
    assert (preserves Inv (deadLetterInbox eventID now "durable_state_conflict" ;;; commit)) as Hdead
      by tx_auto.
    apply Hdead. by rewrite (proj1 (Hr He)).
Qed.

Lemma preserves_storeRefund clock meta refund o ev : preserves Inv (storeRefund clock meta refund o ev).
Proof.
  unfold storeRefund. cbv zeta. tx_split; [eauto with txdb|]. destruct (negb _); [eauto with txdb|].
  apply preserves_dead_letter_conflict. intros b. tx_auto.
Qed.
Lemma preserves_applyClaimedRefund clock work delay o ev :
  preserves Inv (applyClaimedRefund clock work delay o ev).
Proof.
  unfold applyClaimedRefund. cbv zeta. apply preserves_dead_letter_conflict. intros b. tx_auto.
Qed.

(** *** Delivery of the outbox *)

(** An update of the delivery columns of one event keeps the invariant when
    a published event stays published and an event leaves [OutPending] only
    behind published predecessors. *)
Lemma Inv_alter_out d f id :
  (forall o, outbox d !! id = Some o ->
     o_event_id (f o) = o_event_id o /\ o_aggregate_id (f o) = o_aggregate_id o /\
     o_aggregate_sequence (f o) = o_aggregate_sequence o /\ o_dedupe_key (f o) = o_dedupe_key o /\
     (o_state o = OutPublished -> o_state (f o) = OutPublished) /\
     (o_state (f o) <> OutPending -> o_state o <> OutPending \/ has_unpublished_predecessor d o = false)) ->
  Inv d -> Inv (set_outbox (alter f id) d).
Proof.
  intros Hf [I1 I2 I3 I4 I5 I6 I7 I8 I9 I10 I11 I12 I13].
  assert (forall k o, alter f id (outbox d) !! k = Some o -> exists o0,
    outbox d !! k = Some o0 /\ o_event_id o = o_event_id o0 /\ o_aggregate_id o = o_aggregate_id o0 /\
    o_aggregate_sequence o = o_aggregate_sequence o0 /\ o_dedupe_key o = o_dedupe_key o0 /\
    (o_state o0 = OutPublished -> o_state o = OutPublished) /\
    (o_state o <> OutPending -> o_state o0 <> OutPending \/ has_unpublished_predecessor d o0 = false)) as Hinv.
  { intros k o (o0 & H0 & ->)%alter_Some. exists o0. case_decide; subst; naive_solver. }
  constructor; simpl; try done.
  - intros k o (o0 & H0 & E & _)%Hinv. rewrite E. by apply I7.
  - intros k o (o0 & H0 & _ & E1 & E2 & _)%Hinv. rewrite E1, E2. by eapply I8.
  - intros k1 k2 o1 o2 (p1 & H1 & _ & E1 & F1 & _)%Hinv (p2 & H2 & _ & E2 & F2 & _)%Hinv.
    rewrite E1, E2, F1, F2. by apply I9.
  - intros sid s n Hs Hn. destruct (I10 sid s n Hs Hn) as (k & o & Hk & Ha & Hq).
    exists k, (if decide (id = k) then f o else o). split; [apply alter_Some; eauto|].
    case_decide; [|done]. subst. destruct (Hf _ Hk) as (_ & -> & -> & _). done.
  - intros k o r (o0 & H0 & _ & _ & _ & E & _)%Hinv. rewrite E. by apply I11 with k.
  - intros k1 k2 o1 o2 (p1 & H1 & _ & E1 & F1 & _ & G1 & _)%Hinv (p2 & H2 & _ & E2 & F2 & _ & _ & G2)%Hinv.
    rewrite E1, E2, F1, F2. intros Ha Hlt Hp. apply G1. destruct (G2 Hp) as [Hn|Hn]; [by eapply I13|].
    unfold has_unpublished_predecessor in Hn. rewrite exists_row_false in Hn.
    specialize (Hn _ _ H1). rewrite bool_decide_eq_true_2 in Hn by done.
    destruct (Z.ltb_spec (o_aggregate_sequence p1) (o_aggregate_sequence p2)); [|lia]. simpl in Hn.
    by apply negb_false_iff, bool_decide_eq_true in Hn.
Qed.

Lemma Inv_ClaimOutbox now lease locked d : Inv d -> Inv (snd (ClaimOutbox now lease locked d)).
Proof.
  intros HI. unfold ClaimOutbox. destruct (first_by _ _ _) as [o|] eqn:Ho; [|done].
  apply first_by_Some in Ho as [Hdel (k & Hk)]. simpl.
  pose proof (inv_out_key _ HI _ _ Hk) as Hid.
  replace (set_outbox _ d) with (set_outbox (alter (fun o => set_delivery OutProcessing (o_attempts o + 1)
    (o_next_attempt_at o) (Some (now + lease)) (o_published_at o) o) (o_event_id o)) d).
  - apply Inv_alter_out; [|done]. intros o' Ho'. rewrite Hid, Hk in Ho'. simplify_eq.
    unfold deliverable in Hdel. rewrite !andb_true_iff, bool_decide_eq_true, negb_true_iff in Hdel.
    destruct Hdel as ((((Hst & _) & _) & Hpred) & _).
    split_and!; try done; simpl; [intros Hp; rewrite Hp in Hst; by destruct Hst | by right].
  - unfold set_outbox. f_equal. apply map_eq. intros j. rewrite lookup_alter, lookup_insert.
    case_decide; [|done]. subst j. by rewrite Hid, Hk.
Qed.
Lemma Inv_CompleteOutbox now id d : Inv d -> Inv (CompleteOutbox now id d).
Proof.
  intros HI. apply Inv_alter_out; [|done]. intros o Ho. cbv beta. destruct (decide (o_state o = OutProcessing)) as [Hs|Hs]; [|naive_solver].
  split_and!; try done. intros _. left. by rewrite Hs.
Qed.
Lemma Inv_RetryOutbox now delay id d : Inv d -> Inv (RetryOutbox now delay id d).
Proof.
  intros HI. apply Inv_alter_out; [|done]. intros o Ho. cbv beta. destruct (decide (o_state o = OutProcessing)) as [Hs|Hs]; [|naive_solver].
  split_and!; try done. by rewrite Hs.
Qed.
