(* ===== verification/SubscriptionSpec.v ===== *)
(** * subscription-service: what the store guarantees

    The operations of the store as one labelled transition function, the
    states a sequence of them can reach, and the store's properties. *)

From Stdlib Require Import List.
From S2P Require Import Prelude Platform SubscriptionDomain SubscriptionStore SubscriptionInv.

(** ** The store as a transition system *)

Inductive op :=
  | OpReplay (clock : Z) (meta : EventMeta) (payment : PaymentSucceeded)
  | OpPayment (clock : Z) (newSub newPeriod newEvent : string) (meta : EventMeta)
      (payment : PaymentSucceeded) (order : Order)
  | OpAdminRevoke (clock : Z) (newEvent : string) (input : AdminRevokeInput)
  | OpStoreRefund (clock : Z) (newEvent : string) (meta : EventMeta) (refund : RefundSucceeded)
  | OpClaimRefund (clock lease : Z) (locked : gset string)
  | OpApplyClaimed (clock delay : Z) (newEvent : string) (work : RefundWork)
  | OpClaimDue (clock lease : Z) (locked : gset string)
  | OpCompleteDue (clock : Z) (ev1 ev2 id : string)
  | OpDeadLetter (topic : string) (partition offset : Z) (hash reason : string)
  | OpClaimOutbox (clock lease : Z) (locked : gset string)
  | OpCompleteOutbox (clock : Z) (eventID : string)
  | OpRetryOutbox (clock delay : Z) (eventID : string).

Definition error_of {A} (r : result SubErr A) : option SubErr :=
  match r with Ok _ => None | Err e => Some e end.
Definition outcome {A} (rd : result SubErr A * db) : option SubErr * db :=
  (error_of (fst rd), snd rd).

Definition exec (o : op) (d : db) : option SubErr * db :=
  match o with
  | OpReplay c m p => outcome (RecordPaymentReplay c m p d)
  | OpPayment c s p e m pay ord => outcome (ApplyPayment c s p e m pay ord d)
  | OpAdminRevoke c e i => outcome (AdminRevoke c e i d)
  | OpStoreRefund c e m r => outcome (StoreRefund c e m r d)
  | OpClaimRefund c l k => outcome (ClaimRefund c l k d)
  | OpApplyClaimed c dl e w => outcome (ApplyClaimedRefund c dl e w d)
  | OpClaimDue c l k => (None, snd (ClaimDue c l k d))
  | OpCompleteDue c e1 e2 id => outcome (CompleteDue c e1 e2 id d)
  | OpDeadLetter t p o h r => (None, RecordDeadLetter t p o h r d)
  | OpClaimOutbox c l k => (None, snd (ClaimOutbox c l k d))
  | OpCompleteOutbox c e => (None, CompleteOutbox c e d)
  | OpRetryOutbox c dl e => (None, RetryOutbox c dl e d)
  end.

Fixpoint exec_all (l : list op) (d : db) : db :=
  match l with [] => d | o :: l' => exec_all l' (snd (exec o d)) end.
Fixpoint outcomes (l : list op) (d : db) : list (option SubErr) :=
  match l with [] => [] | o :: l' => fst (exec o d) :: outcomes l' (snd (exec o d)) end.
Definition reachable (d : db) : Prop := exists l, d = exec_all l empty_db.

Lemma exec_Inv o d : Inv d -> Inv (snd (exec o d)).
Proof.
  intros HI. destruct o; simpl; try (apply (preserves_in_tx Inv); [|done]).
  - apply preserves_recordPaymentReplay.
  - apply preserves_applyPayment.
  - apply preserves_adminRevoke.
  - apply preserves_storeRefund.
  - unfold ClaimRefund. destruct (first_by _ _ _) as [r|]; [|done].
    assert (Inv (set_inbox (alter (claim_inbox clock lease) (i_event_id r)) d)) as HI'
      by (by apply (Inv_frame d)).
    destruct (i_source r) as [[[[? ?] ?] ?]|], (i_payload r); done.
  - apply preserves_applyClaimedRefund.
  - unfold ClaimDue, claimDue. destruct (first_by _ _ _); [|done]. by apply Inv_alter_sub.
  - apply preserves_completeDue.
  - unfold RecordDeadLetter. destruct (dead_letters d !! _); [done|]. by apply (Inv_frame d).
  - by apply Inv_ClaimOutbox.
  - by apply Inv_CompleteOutbox.
  - by apply Inv_RetryOutbox.
Qed.

Lemma exec_all_Inv l d : Inv d -> Inv (exec_all l d).
Proof. revert d. induction l; simpl; intros d HI; auto using exec_Inv. Qed.
Lemma reachable_inv d : reachable d -> Inv d.
Proof. intros [l ->]. apply exec_all_Inv, Inv_empty. Qed.

(** ** A run to evaluate *)

Definition day : Z := 24 * hour.
Definition sample_plan := MkPlan "plan" 30 24 500 "USD" "eu" 1 0.
Definition sample_order (id : string) := MkOrder id "u1" "paid" 500 "USD" sample_plan.
Definition sample_payment (n : string) (at_ : Z) :=
  MkPayment ("pay" +:+ n) ("ord" +:+ n) "u1" "plan" 500 "USD" at_.
Definition sample_meta (n : string) (off : Z) (ty : string) :=
  MkEventMeta ("ev" +:+ n) ty ("agg" +:+ n) "corr" None 0 "billing" 0 off ("hash" +:+ n).
Definition pay_op (n : string) (off clock paid : Z) : op :=
  OpPayment clock "sub1" ("per" +:+ n) ("out-pay" +:+ n) (sample_meta ("p" +:+ n) off "billing.payment.succeeded.v1")
    (sample_payment n paid) (sample_order ("ord" +:+ n)).
Definition sample_refund (n : string) (at_ : Z) :=
  MkRefund ("ref" +:+ n) ("pay" +:+ n) ("ord" +:+ n) "u1" 500 "USD" "full" at_.
Definition refund_op (n : string) (off clock : Z) : op :=
  OpStoreRefund clock ("out-ref" +:+ n) (sample_meta ("r" +:+ n) off "billing.refund.succeeded.v1")
    (sample_refund n clock).

Example sample_run_ok :
  outcomes [pay_op "1" 0 day day; pay_op "2" 1 (2 * day) (2 * day); refund_op "1" 2 (3 * day)] empty_db
  = [None; None; None].
Proof. vm_compute. reflexivity. Qed.

(** ** Safety of the whole store *)

(** C32: the events of a subscription are numbered [1, 2, ..., n] without gap
    or repetition, [n] being the subscription's aggregate sequence: every
    event belongs to a subscription and carries one of these numbers, and
    each of them is carried by exactly one event. They are handed to the
    publisher in that order: an event is claimed or published only when all
    its predecessors are published. *)
Theorem outbox_ordered_gapless d : reachable d ->
  (forall k o, outbox d !! k = Some o -> exists s, subscriptions d !! o_aggregate_id o = Some s /\
     1 <= o_aggregate_sequence o <= s_aggregate_sequence s) /\
  (forall sid s n, subscriptions d !! sid = Some s -> 1 <= n <= s_aggregate_sequence s ->
     exists k o, outbox d !! k = Some o /\ o_aggregate_id o = sid /\ o_aggregate_sequence o = n /\
       forall k' o', outbox d !! k' = Some o' -> o_aggregate_id o' = sid -> o_aggregate_sequence o' = n -> k' = k) /\
  (forall k1 k2 o1 o2, outbox d !! k1 = Some o1 -> outbox d !! k2 = Some o2 ->
     o_aggregate_id o1 = o_aggregate_id o2 -> o_aggregate_sequence o1 < o_aggregate_sequence o2 ->
     o_state o2 <> OutPending -> o_state o1 = OutPublished).
Proof.
  intros HI%reachable_inv. split_and!; [apply (inv_out_range _ HI)| |apply (inv_out_order _ HI)].
  intros sid s n Hs Hn. destruct (inv_out_gapless _ HI _ _ _ Hs Hn) as (k & o & Ho & Ha & Hq).
  exists k, o. split_and!; try done. intros k' o' Ho' Ha' Hq'. eapply (inv_out_unique _ HI); eauto; congruence.
Qed.

(** ** Atomicity *)

Lemma quiet_check b what : quiet (check b what).
Proof. by destruct b. Qed.
Lemma quiet_from_option {A} (o : option A) e : quiet (@from_option_tx A o e).
Proof. by destruct o. Qed.
#[export] Hint Resolve quiet_check quiet_from_option : txdb.
Lemma quiet_insertInbox now meta pid uid payload st : quiet (insertInbox now meta pid uid payload st).
Proof. unfold insertInbox. tx_auto. Qed.
Lemma quiet_markInboxProcessed ev now : quiet (markInboxProcessed ev now).
Proof. done. Qed.
Lemma quiet_deadLetterInbox ev now reason : quiet (deadLetterInbox ev now reason).
Proof. unfold deadLetterInbox. tx_auto. Qed.
Lemma quiet_insertOutbox ev topic sid user key corr cause at_ data :
  quiet (insertOutbox ev topic sid user key corr cause at_ data).
Proof. unfold insertOutbox. tx_auto. Qed.
Lemma quiet_getOrCreate id user now : quiet (getOrCreateSubscription id user now).
Proof. unfold getOrCreateSubscription. tx_auto. Qed.
Lemma quiet_updateSubscription id st s e g n now : quiet (updateSubscription id st s e g n now).
Proof. unfold updateSubscription. tx_auto. Qed.
Lemma quiet_insertPeriod row : quiet (insertPeriod row).
Proof. unfold insertPeriod. tx_auto. Qed.
#[export] Hint Resolve quiet_insertInbox quiet_markInboxProcessed quiet_deadLetterInbox
  quiet_insertOutbox quiet_getOrCreate quiet_updateSubscription quiet_insertPeriod : txdb.
Lemma quiet_applyRefund meta refund now ev : quiet (applyRefund meta refund now ev).
Proof. unfold applyRefund. tx_auto. Qed.
#[export] Hint Resolve quiet_applyRefund : txdb.

Lemma atomic_dead_letter_conflict ev now m k :
  quiet m -> (forall b, atomic (k b)) -> atomic (dead_letter_conflict ev now m k).
Proof. intros Hm Hk. unfold dead_letter_conflict. tx_auto; auto. Qed.

Definition commits_early (o : op) : bool :=
  match o with OpClaimRefund _ _ _ => true | _ => false end.

(** An operation that reports an error has changed nothing, except the
    claim of a refund, whose claiming statement commits before the row is
    decoded. *)
Theorem exec_atomic o d e d' :
  commits_early o = false -> exec o d = (Some e, d') -> d' = d.
Proof.
  assert (forall A (m : sub_tx A), atomic m -> outcome (in_tx m d) = (Some e, d') -> d' = d) as Htx.
  { intros A m Hm H. unfold outcome in H. destruct (in_tx m d) as [r d1] eqn:Hr.
    destruct r as [a|e']; simplify_eq/=. by eapply atomic_in_tx. }
  destruct o; simpl; try done; intros _; apply Htx.
  - unfold recordPaymentReplay. cbv zeta. tx_auto.
  - unfold applyPayment. cbv zeta. tx_auto.
  - unfold adminRevoke. tx_auto.
  - unfold storeRefund. cbv zeta. tx_split; [eauto with txdb|]. destruct (negb _); [tx_auto|].
    apply atomic_dead_letter_conflict; [eauto with txdb|]. intros b. tx_auto.
  - unfold applyClaimedRefund. cbv zeta. apply atomic_dead_letter_conflict; [eauto with txdb|].
    intros b. tx_auto.
  - unfold completeDue. cbv zeta. tx_auto.
Qed.

(** ** The theorems at work *)

Definition sample_ops : list op :=
  [pay_op "1" 0 day day; pay_op "2" 1 (2 * day) (2 * day); refund_op "1" 2 (3 * day);
   OpClaimOutbox (3 * day) minute ∅].
Definition sample_db : db := exec_all sample_ops empty_db.
Definition no_sub := MkSubRow "" "" Pending None None None None None 0 0 0.

Lemma outbox_ordered_gapless_witness :
  (exists o s, outbox sample_db !! "out-pay2" = Some o /\ subscriptions sample_db !! o_aggregate_id o = Some s /\
     1 <= o_aggregate_sequence o <= s_aggregate_sequence s) /\
  exists k o, outbox sample_db !! k = Some o /\ o_aggregate_id o = "sub1" /\ o_aggregate_sequence o = 2.
Proof.
  destruct (outbox_ordered_gapless sample_db) as (H1 & H2 & _); [exists sample_ops; reflexivity|]. split.
  - destruct (outbox sample_db !! "out-pay2") as [o|] eqn:Ho; [|vm_compute in Ho; discriminate Ho].
    destruct (H1 "out-pay2" o Ho) as (s & Hs & Hn). exists o, s. split; [reflexivity|]. split; [exact Hs|exact Hn].
  - destruct (H2 "sub1" (default no_sub (subscriptions sample_db !! "sub1")) 2) as (k & o & H3 & H4 & H5 & _).
    + vm_compute. reflexivity.
    + vm_compute. split; discriminate.
    + exists k, o. split; [exact H3|]. split; [exact H4|exact H5].
Defined.
Lemma exec_atomic_witness :
  let o := OpAdminRevoke (4 * day) "e" (MkRevokeInput "nobody" "k" "sha" "act" "corr" "why") in
  exec o sample_db = (Some ErrNotFound, snd (exec o sample_db)) /\ snd (exec o sample_db) = sample_db.
Proof.
  intros o. split; [vm_compute; reflexivity|].
  apply (exec_atomic o sample_db ErrNotFound); vm_compute; reflexivity.
Defined.
