(* ===== verification/SubscriptionPayments.v ===== *)
(** * subscription-service: what payments and refunds do

    The effect of a successful payment and of a refund on the tables, branch
    by branch, and the behaviour of redelivered events. *)

From Stdlib Require Import List.
From S2P Require Import Prelude Platform SubscriptionDomain SubscriptionStore SubscriptionInv SubscriptionSpec.

(** ** What a successful step did *)

Lemma insertInbox_fresh now meta pid uid payload st t b t' :
  inbox (working t) !! meta_EventID meta = None ->
  insertInbox now meta pid uid payload st t = (Ok b, t') ->
  b = true /\ t' = Txn (durable t) (set_inbox (insert (meta_EventID meta)
        (MkInbox (meta_EventID meta) (meta_EventType meta) (meta_AggregateID meta) pid uid
           (meta_CorrelationID meta) payload st 0 now None None now None (Some (source_of meta)))) (working t)).
Proof.
  intros Hnone. unfold insertInbox. rewrite run_get, Hnone. intros H. tx_inv H.
  apply check_ok in Hs as [_ ->]. by injection H as <- <-.
Qed.

Lemma insertPeriod_ok row t u t' :
  insertPeriod row t = (Ok u, t') ->
  unique_period row (working t) = true /\ period_checks row = true /\
  t' = Txn (durable t) (set_periods (insert (p_id row) row) (working t)).
Proof.
  unfold insertPeriod. rewrite run_get. intros H. do 2 tx_inv H.
  apply check_ok in Hs as [Hu ->]. apply check_ok in Hs0 as [Hc ->]. by injection H as <-.
Qed.

(** The subscription a payment belongs to: the user's own, or a new one. *)
Lemma getOrCreate_ok id user now t sc t' :
  getOrCreateSubscription id user now t = (Ok sc, t') ->
  match subscription_of_user user (working t) with
  | Some s => sc = (domain_subscription s, false) /\ t' = t
  | None => let s := MkSubRow id user Pending None None None None None 0 now now in
      sc = (domain_subscription s, true) /\ subscriptions (working t) !! id = None /\
      t' = Txn (durable t) (set_subscriptions (insert id s) (working t))
  end.
Proof.
  unfold getOrCreateSubscription. rewrite run_get.
  destruct (subscription_of_user user _) as [s|]; [by intros [= <- <-]|].
  intros H. tx_inv H. apply check_ok in Hs as [Hid ->]. rewrite bool_decide_eq_true in Hid.
  by injection H as <- <-.
Qed.

Lemma subscription_of_user_Some user d s :
  Inv d -> subscription_of_user user d = Some s ->
  subscriptions d !! s_id s = Some s /\ s_user_id s = user.
Proof.
  intros HI H. apply find_row_Some in H as [Hp (k & Hk)]. rewrite bool_decide_eq_true in Hp.
  by rewrite (inv_sub_key _ HI _ _ Hk).
Qed.

(** ** Durations *)

Lemma days_duration_exact days : 1 <= days <= 3650 -> days_duration days = days * (24 * hour).
Proof.
  intros H. unfold days_duration, hour, minute, second. rewrite (int64_id (days * 24)), int64_id;
    unfold is_int64; lia.
Qed.
Lemma hours_duration_exact hours : 0 <= hours <= 720 -> hours_duration hours = hours * hour.
Proof. intros H. unfold hours_duration, hour, minute, second. rewrite int64_id; unfold is_int64; lia. Qed.

(** ** A first delivery *)

(** The subscription a payment extends, if any; when the new period starts
    counting, and from when the subscription's current stretch is reported. *)
Definition extended_sub (now : Z) (pay : PaymentSucceeded) (d : db) : option subscription_row :=
  s ← subscription_of_user (pay_UserID pay) d;
  if in_force (domain_subscription s) now then Some s else None.
Definition payment_start (now : Z) (pay : PaymentSucceeded) (d : db) : Z :=
  default (pay_PaidAt pay) (extended_sub now pay d ≫= s_period_end).
Definition stretch_start (now : Z) (pay : PaymentSucceeded) (d : db) : Z :=
  default (payment_start now pay d) (extended_sub now pay d ≫= s_period_start).

Record payment_effect (now : Z) (np ne : string) (meta : EventMeta) (pay : PaymentSucceeded)
    (plan : PlanSnapshot) (d d' : db) (p : period_row) (s : subscription_row) (o : outbox_row) : Prop := {
  pe_periods : periods d' = <[np := p]> (periods d);
  pe_payment : p_source_payment_id p = pay_PaymentID pay /\ p_source_order_id p = pay_OrderID pay /\
    p_plan_id p = pay_PlanID pay /\ p_amount_minor p = pay_AmountMinor pay /\
    p_currency p = pay_Currency pay /\ p_paid_at p = pay_PaidAt pay /\
    p_refunded p = false /\ p_subscription_id p = s_id s;
  pe_start : p_period_start p = payment_start now pay d;
  pe_length : p_period_end p = p_period_start p + plan_DurationDays plan * (24 * hour) /\
    p_grace_ends_at p = p_period_end p + plan_GracePeriodHours plan * hour;
  pe_sub : subscriptions d' !! s_id s = Some s /\ s_user_id s = pay_UserID pay;
  pe_state : s_period_start s = Some (stretch_start now pay d) /\
    s_period_end s = Some (p_period_end p) /\ s_grace_ends_at s = Some (p_grace_ends_at p) /\
    (s_status s, s_next_transition_at s) =
      statusAt now (stretch_start now pay d) (p_period_end p) (p_grace_ends_at p) /\
    s_transition_lease_until s = None;
  pe_others : forall k, k <> s_id s -> subscriptions d' !! k = subscriptions d !! k;
  pe_outbox : outbox d' = <[ne := o]> (outbox d);
  pe_event : o_aggregate_id o = s_id s /\ o_aggregate_sequence o = s_aggregate_sequence s /\
    o_state o = OutPending /\
    o_topic o = (if decide (s_status s = Expired) then "subscription.expired.v1"
                 else match extended_sub now pay d with
                      | Some _ => "subscription.extended.v1" | None => "subscription.activated.v1" end);
  pe_inbox : exists r, inbox d' !! meta_EventID meta = Some r /\ i_state r = InProcessed /\
    i_processed_at r = Some now /\ i_source r = Some (source_of meta) /\
    same_event r meta (pay_PaymentID pay) (pay_UserID pay) = true
}.

Lemma applyPayment_tail now meta pay plan np ne (extends : bool) sub start0 start1 t t' s1 :
  let periodEnd := start0 + days_duration (plan_DurationDays plan) in
  let graceEndsAt := periodEnd + hours_duration (plan_GracePeriodHours plan) in
  let row := MkPeriod np (sub_SubscriptionID sub) (pay_OrderID pay)
        (pay_PaymentID pay) (pay_PlanID pay) (plan_Region plan) (plan_PrimaryNodes plan)
        (plan_FailoverNodes plan) (pay_AmountMinor pay) (pay_Currency pay)
        (plan_DurationDays plan) (plan_GracePeriodHours plan) (pay_PaidAt pay)
        start0 periodEnd graceEndsAt false None None in
  let ty := if extends then "subscription.extended.v1" else "subscription.activated.v1" in
  let '(status, next) := statusAt now start1 periodEnd graceEndsAt in
  let ty' := if decide (status = Expired) then "subscription.expired.v1" else ty in
  let data' := if decide (status = Expired) then
       terminalEventData (sub_SubscriptionID sub) (pay_UserID pay) "expired" [np] graceEndsAt
     else periodEventData (sub_SubscriptionID sub) (pay_UserID pay) np
        (pay_OrderID pay) (pay_PaymentID pay) start0 periodEnd graceEndsAt in
  (insertPeriod row ;;;
   updateSubscription (sub_SubscriptionID sub) status start1 periodEnd graceEndsAt next now ;;;
   insertOutbox ne ty' (sub_SubscriptionID sub) (pay_UserID pay)
        ("payment:" +:+ pay_PaymentID pay +:+ ":" +:+ ty')%string
        (meta_CorrelationID meta) (Some (meta_EventID meta)) now data' ;;;
   markInboxProcessed (meta_EventID meta) now ;;;
   commit) t = (Ok tt, t') ->
  subscriptions (working t) !! sub_SubscriptionID sub = Some s1 ->
  let s2 := bump_sequence (set_state status (Some start1) (Some periodEnd) (Some graceEndsAt) next now s1) in
  exists o, o_aggregate_id o = sub_SubscriptionID sub /\
    o_aggregate_sequence o = s_aggregate_sequence s1 + 1 /\ o_state o = OutPending /\ o_topic o = ty' /\
    durable t' = MkDB
      (<[sub_SubscriptionID sub := s2]> (subscriptions (working t)))
      (<[np := row]> (periods (working t)))
      (alter (close_inbox InProcessed now None) (meta_EventID meta) (inbox (working t)))
      (dead_letters (working t)) (<[ne := o]> (outbox (working t))) (admin_revoke_requests (working t)).
Proof.
  intros periodEnd graceEndsAt row ty.
  destruct (statusAt now start1 periodEnd graceEndsAt) as [status next].
  intros ty' data' H Hs1 s2. tx_inv H. apply insertPeriod_ok in Hs as (_ & _ & ->).
  tx_inv H. apply updateSubscription_ok in Hs as ->.
  tx_inv H. apply insertOutbox_run in Hs as [Hd (s & Hs & _ & _ & Hw)].
  unfold markInboxProcessed in H. rewrite run_modify in H. injection H as <-. simpl in *.
  rewrite lookup_alter, decide_True, Hs1 in Hs by done. injection Hs as <-.
  eexists. rewrite Hw. unfold set_inbox, set_outbox, set_subscriptions. simpl.
  split_and!; cycle -1.
  - f_equal. by rewrite insert_alter, decide_True.
  - done. - done. - done. - done.
Qed.

Lemma in_force_domain s now :
  in_force (domain_subscription s) now = true -> exists e g, s_period_end s = Some e /\ s_grace_ends_at s = Some g.
Proof.
  unfold in_force. simpl. destruct (s_period_end s), (s_grace_ends_at s); rewrite ?andb_false_r; naive_solver.
Qed.

(** What the payment's transaction knows once it holds the subscription row:
    [s1] is the user's row, and nothing but it and the inbox was touched. *)
Record located (now : Z) (pay : PaymentSucceeded) (d d1 : db) (sub : Subscription) (created : bool)
    (s1 : subscription_row) : Prop := {
  lo_row : subscriptions d1 !! sub_SubscriptionID sub = Some s1;
  lo_id : s_id s1 = sub_SubscriptionID sub;
  lo_user : s_user_id s1 = pay_UserID pay;
  lo_extends : negb created && in_force sub now = (if extended_sub now pay d then true else false);
  lo_sub : forall e, extended_sub now pay d = Some e -> sub = domain_subscription e;
  lo_others : forall k, k <> s_id s1 -> subscriptions d1 !! k = subscriptions d !! k;
  lo_frame : d1 = set_subscriptions (fun _ => subscriptions d1) (set_inbox (fun _ => inbox d1) d)
}.

Lemma getOrCreate_located now ns pay d inb t sub created t' :
  Inv d -> working t = set_inbox (fun _ => inb) d ->
  getOrCreateSubscription ns (pay_UserID pay) now t = (Ok (sub, created), t') ->
  inbox (working t') = inb /\ exists s1, located now pay d (working t') sub created s1.
Proof.
  intros HI Hw H. apply getOrCreate_ok in H. rewrite Hw in H.
  assert (subscription_of_user (pay_UserID pay) (set_inbox (fun _ => inb) d) =
          subscription_of_user (pay_UserID pay) d) as Heq by done.
  rewrite Heq in H. destruct (subscription_of_user (pay_UserID pay) d) as [s0|] eqn:Hsu.
  - destruct H as [[= -> ->] ->]. rewrite Hw. split; [done|].
    destruct (subscription_of_user_Some _ _ _ HI Hsu) as [Hk Hu]. exists s0.
    split; try done; unfold extended_sub; rewrite Hsu; simpl; destruct (in_force _ _); naive_solver.
  - destruct H as [[= -> ->] (Hn & ->)]. split; [done|]. eexists.
    split; try done; unfold extended_sub; rewrite ?Hsu; simpl; try done.
    + by rewrite lookup_insert, decide_True.
    + intros k Hk. by rewrite lookup_insert_ne.
Qed.

(** The whole transaction on a payment seen for the first time. *)
Lemma payment_applied now ns np ne meta pay ord d d' :
  reachable d -> ApplyPayment now ns np ne meta pay ord d = (Ok tt, d') ->
  inbox d !! meta_EventID meta = None -> payment_join (pay_PaymentID pay) d = None ->
  1 <= plan_DurationDays (ord_PlanSnapshot ord) <= 3650 ->
  0 <= plan_GracePeriodHours (ord_PlanSnapshot ord) <= 720 ->
  exists p s o, payment_effect now np ne meta pay (ord_PlanSnapshot ord) d d' p s o.
Proof.
  intros HI%reachable_inv H Hib Hpj Hdays Hhours. unfold ApplyPayment, in_tx in H.
  destruct (applyPayment _ _ _ _ _ _ _ _ _) as [r t'] eqn:Hrun. simplify_eq/=.
  unfold applyPayment in Hrun. cbv zeta in Hrun. simpl transactionTime in Hrun.
  tx_inv Hrun. apply insertInbox_fresh in Hs as [-> ->]; [|done]. simpl in Hrun. rewrite run_get in Hrun.
  simpl in Hrun. unfold payment_join, period_of_payment in *. simpl in Hrun. rewrite Hpj in Hrun.
  tx_inv Hrun. destruct v as [sub created].
  eapply (getOrCreate_located _ _ _ d) in Hs as (Hinb & s1 & []); [|done|done].
  rewrite lo_extends0 in Hrun.
  set (start0 := if (if extended_sub now pay d then true else false) then _ else _) in Hrun.
  assert (start0 = payment_start now pay d) as Hst0.
  { unfold start0, payment_start. destruct (extended_sub now pay d) as [e|] eqn:He; [|done]. by rewrite (lo_sub0 e). }
  set (start1 := if (if extended_sub now pay d then true else false) then _ else start0) in Hrun.
  assert (start1 = stretch_start now pay d) as Hst1.
  { unfold start1, stretch_start. rewrite <- Hst0.
    destruct (extended_sub now pay d) as [e|] eqn:He; [|done]. by rewrite (lo_sub0 e). }
  clearbody start0 start1.
  pose proof (applyPayment_tail now meta pay (ord_PlanSnapshot ord) np ne
    (if extended_sub now pay d then true else false) sub start0 start1 t t' s1) as Htail. cbv zeta in Htail.
  rewrite (days_duration_exact _ Hdays), (hours_duration_exact _ Hhours) in *.
  set (pe := start0 + _) in *. set (ge := pe + _) in *.
  destruct (statusAt now start1 pe ge) as [status next] eqn:Hat.
  edestruct Htail as (o & Ho1 & Ho2 & Ho3 & Ho4 & Hd'); [|done|].
  { destruct (decide (status = Expired)); exact Hrun. }
  rewrite Hd', Hinb, lo_frame0 in *. simpl in *. clear Hrun Htail Hd' lo_frame0.
  eexists _, (bump_sequence (set_state status (Some start1) (Some pe) (Some ge) next now s1)), o.
  split; simpl; rewrite <- ?Hst0, <- ?Hst1, ?lo_id0; try done.
  - by rewrite lookup_insert, decide_True.
  - intros k Hk. rewrite lookup_insert_ne by done. apply lo_others0. by rewrite lo_id0.
  - split_and!; try done. rewrite Ho4. by destruct (extended_sub now pay d).
  - eexists. rewrite lookup_alter, decide_True, lookup_insert, decide_True by done.
    split_and!; try done. unfold same_event. simpl. by apply bool_decide_eq_true.
Qed.

(** ** Redelivery *)

(** The inbox remembers the event: same identity, same payload digest. *)
Definition recorded (meta : EventMeta) (pid uid : string) (d : db) : Prop :=
  exists r topic partition offset, inbox d !! meta_EventID meta = Some r /\
    i_source r = Some (topic, partition, offset, meta_PayloadSHA256 meta) /\
    same_event r meta pid uid = true.

(** An inbox update that does not rewrite what identifies a recorded event. *)
Definition inbox_neutral (f : inbox_row -> inbox_row) (r : inbox_row) : Prop :=
  (i_source r <> None -> i_source (f r) = i_source r) /\
  forall meta pid uid, same_event (f r) meta pid uid = same_event r meta pid uid.

Section recorded_steps.
Context (meta : EventMeta) (pid uid : string).
Let R := recorded meta pid uid.

Lemma recorded_alter f k d :
  (forall r, inbox d !! k = Some r -> inbox_neutral f r) -> R d -> R (set_inbox (alter f k) d).
Proof.
  intros Hf (r & tp & pt & off & Hr & Hs & He).
  exists (if decide (k = meta_EventID meta) then f r else r), tp, pt, off. split_and!.
  - apply alter_Some. eauto.
  - case_decide; [|done]. subst k. destruct (Hf r Hr) as [Hsrc _]. by rewrite Hsrc, Hs; [|rewrite Hs].
  - case_decide; [|done]. subst k. destruct (Hf r Hr) as [_ Hsame]. by rewrite Hsame.
Qed.
Lemma recorded_frame d d' : inbox d' = inbox d -> R d -> R d'.
Proof. unfold R, recorded. by intros ->. Qed.

Lemma preserves_recorded_alter f k :
  (forall r, inbox_neutral f r) -> preserves (E:=SubErr) R (modify (set_inbox (alter f k))).
Proof. intros Hf. apply preserves_modify. intros d. by apply recorded_alter. Qed.
Lemma preserves_recorded_frame f :
  (forall d, inbox (f d) = inbox d) -> preserves (E:=SubErr) R (modify f).
Proof. intros Hf. apply preserves_modify. intros d. by apply recorded_frame. Qed.
Lemma preserves_recorded_insertInbox now m p u pl st : preserves R (insertInbox now m p u pl st).
Proof.
  apply preserves_read. intros d Hd t <-.
  destruct (inbox (working t) !! meta_EventID m) as [r|] eqn:Hr.
  - destruct (i_source r) as [[[[? ?] ?] ?]|] eqn:Hs; [by destruct (_ && _)|].
    destruct (same_event r m p u); [|done]. unfold check. destruct (negb _); [|done]. simpl.
    split; [done|]. intros _. apply recorded_alter; [|done]. rewrite Hr. intros r' [= <-]. done.
  - unfold check. destruct (negb _); [|done]. simpl. split; [done|]. intros _.
    destruct Hd as (r & tp & pt & off & Hr' & Hs & He). exists r, tp, pt, off. split; [|done]. simpl.
    rewrite lookup_insert_ne; [done|]. congruence.
Qed.
Lemma preserves_recorded_deadLetter ev now reason : preserves R (deadLetterInbox ev now reason).
Proof.
  unfold deadLetterInbox. tx_auto.
  all: first [by apply preserves_recorded_alter | by apply preserves_recorded_frame].
Qed.
End recorded_steps.
#[export] Hint Resolve preserves_recorded_insertInbox preserves_recorded_deadLetter : txdb.
#[export] Hint Extern 2 (preserves (recorded _ _ _) (modify _)) =>
  first [by apply preserves_recorded_frame | by apply preserves_recorded_alter] : txdb.

Lemma preserves_recorded_insertOutbox m p u ev topic sid user key corr cause at_ data :
  preserves (recorded m p u) (insertOutbox ev topic sid user key corr cause at_ data).
Proof. unfold insertOutbox. tx_auto. Qed.
Lemma preserves_recorded_getOrCreate m p u id user now :
  preserves (recorded m p u) (getOrCreateSubscription id user now).
Proof. unfold getOrCreateSubscription. tx_auto. Qed.
Lemma preserves_recorded_update m p u id st s e g n now :
  preserves (recorded m p u) (updateSubscription id st s e g n now).
Proof. unfold updateSubscription. tx_auto. Qed.
Lemma preserves_recorded_insertPeriod m p u row : preserves (recorded m p u) (insertPeriod row).
Proof. unfold insertPeriod. tx_auto. Qed.
Lemma preserves_recorded_mark m p u ev now : preserves (recorded m p u) (markInboxProcessed ev now).
Proof. by apply preserves_recorded_alter. Qed.
#[export] Hint Resolve preserves_recorded_insertOutbox preserves_recorded_getOrCreate
  preserves_recorded_update preserves_recorded_insertPeriod preserves_recorded_mark : txdb.

(** A refund's own writes stay out of the inbox, even when it fails. *)
Lemma untouched_check {B} (f : db -> B) b what : untouched f (check b what).
Proof. by destruct b. Qed.
Lemma untouched_from_option {A B} (f : db -> B) (o : option A) e : untouched f (from_option_tx o e).
Proof. by destruct o. Qed.
#[export] Hint Resolve untouched_check untouched_from_option : txdb.
Lemma untouched_insertOutbox ev topic sid user key corr cause at_ data :
  untouched inbox (insertOutbox ev topic sid user key corr cause at_ data).
Proof. unfold insertOutbox. tx_auto. Qed.
Lemma untouched_updateSubscription id st s e g n now :
  untouched inbox (updateSubscription id st s e g n now).
Proof. unfold updateSubscription. tx_auto. Qed.
#[export] Hint Resolve untouched_insertOutbox untouched_updateSubscription : txdb.
Lemma untouched_applyRefund meta refund now ev : untouched inbox (applyRefund meta refund now ev).
Proof. unfold applyRefund. tx_auto. Qed.

(** A property of a part of the state that refunds do not write survives the
    dead-letter path as well. *)
Lemma preserves_unrelated_dead_letter_conflict {B} (I : db -> Prop) (f : db -> B) meta refund now ev id
    (k : bool -> sub_tx unit) :
  (forall d d', f d' = f d -> I d -> I d') -> untouched f (applyRefund meta refund now ev) ->
  preserves I (deadLetterInbox id now "durable_state_conflict" ;;; commit) ->
  (forall b, preserves I (k b)) ->
  preserves I (dead_letter_conflict id now (applyRefund meta refund now ev) k).
Proof.
  intros Hf Hun Hdead Hk t Hw. rewrite dead_letter_conflict_run. specialize (Hun t).
  pose proof (quiet_applyRefund meta refund now ev t) as Hq.
  destruct (applyRefund meta refund now ev t) as [r t1]; simpl in *.
  assert (I (working t1)) by (by eapply Hf).
  rewrite <- Hq. destruct r as [b|e]; [by apply Hk|]. case_decide; [|done]. by apply Hdead.
Qed.
Lemma preserves_recorded_dead_letter_conflict m p u meta refund now ev id (k : bool -> sub_tx unit) :
  (forall b, preserves (recorded m p u) (k b)) ->
  preserves (recorded m p u) (dead_letter_conflict id now (applyRefund meta refund now ev) k).
Proof.
  apply (preserves_unrelated_dead_letter_conflict _ inbox).
  - apply recorded_frame.
  - apply untouched_applyRefund.
  - tx_auto.
Qed.

Lemma exec_recorded m p u o d : recorded m p u d -> recorded m p u (snd (exec o d)).
Proof.
  intros HR. destruct o; simpl; try (apply (preserves_in_tx (recorded m p u)); [|done]).
  - unfold recordPaymentReplay. cbv zeta. tx_auto.
  - unfold applyPayment. cbv zeta. tx_auto.
  - unfold adminRevoke. tx_auto.
  - unfold storeRefund. cbv zeta. tx_split; [eauto with txdb|]. destruct (negb _); [tx_auto|].
    apply preserves_recorded_dead_letter_conflict. intros b. tx_auto.
  - unfold ClaimRefund. destruct (first_by _ _ _) as [r|]; [|done].
    assert (recorded m p u (set_inbox (alter (claim_inbox clock lease) (i_event_id r)) d)) as HR'
      by (by apply recorded_alter).
    destruct (i_source r) as [[[[? ?] ?] ?]|], (i_payload r); done.
  - unfold applyClaimedRefund. cbv zeta. apply preserves_recorded_dead_letter_conflict. intros b. tx_auto.
  - unfold ClaimDue, claimDue. by destruct (first_by _ _ _).
  - unfold completeDue. cbv zeta. tx_auto.
  - unfold RecordDeadLetter. by destruct (dead_letters d !! _).
  - unfold ClaimOutbox. by destruct (first_by _ _ _).
  - done.
  - done.
Qed.
Lemma exec_all_recorded m p u l d : recorded m p u d -> recorded m p u (exec_all l d).
Proof. revert d. induction l; simpl; intros d HR; auto using exec_recorded. Qed.

(** [insertInbox] either finds the event recorded or records it. *)
Lemma insertInbox_records now meta pid uid pl st t b t' :
  insertInbox now meta pid uid pl st t = (Ok b, t') -> recorded meta pid uid (working t').
Proof.
  unfold insertInbox. rewrite run_get.
  destruct (inbox (working t) !! meta_EventID meta) as [r|] eqn:Hr.
  - destruct (i_source r) as [[[[tp pt] off] h]|] eqn:Hs.
    + destruct (same_event r meta pid uid) eqn:He, (bool_decide _) eqn:Hh; try done.
      intros [= <- <-]. rewrite bool_decide_eq_true in Hh. subst. by exists r, tp, pt, off.
    + destruct (same_event r meta pid uid) eqn:He; [|done]. intros H. tx_inv H.
      apply check_ok in Hs0 as [_ ->]. rewrite run_modify in H. injection H as <- <-. simpl.
      eexists (set_source (source_of meta) r), _, _, _. split_and!; [|done|done].
      simpl. apply alter_Some. exists r. by rewrite decide_True.
  - intros H. tx_inv H. apply check_ok in Hs as [_ ->]. rewrite run_modify in H. injection H as <- <-.
    eexists _, _, _, _. simpl. rewrite lookup_insert, decide_True by done. split_and!; try done.
    unfold same_event. simpl. by apply bool_decide_eq_true.
Qed.
Lemma insertInbox_recorded now meta pid uid pl st t :
  recorded meta pid uid (working t) -> insertInbox now meta pid uid pl st t = (Ok false, t).
Proof.
  intros (r & tp & pt & off & Hr & Hs & He). unfold insertInbox.
  by rewrite run_get, Hr, Hs, He, bool_decide_eq_true_2.
Qed.

Lemma preserves_recorded_storeTail m p u meta refund now ev (k : bool -> sub_tx unit) id :
  (forall b, preserves (recorded m p u) (k b)) -> forall t a t',
  dead_letter_conflict id now (applyRefund meta refund now ev) k t = (Ok a, t') ->
  recorded m p u (working t) -> recorded m p u (working t').
Proof. intros Hk t a t'. by apply preserves_ok, preserves_recorded_dead_letter_conflict. Qed.

Lemma lands_dead_letter_conflict id now m (k : bool -> sub_tx unit) :
  (forall b, lands (k b)) -> lands (dead_letter_conflict id now m k).
Proof. intros Hk. unfold dead_letter_conflict. tx_auto; auto. Qed.

Lemma ApplyPayment_records now ns np ne meta pay ord d d1 :
  ApplyPayment now ns np ne meta pay ord d = (Ok tt, d1) ->
  recorded meta (pay_PaymentID pay) (pay_UserID pay) d1.
Proof.
  intros (t' & Hrun & ->)%lands_in_tx; [|unfold applyPayment; cbv zeta; tx_auto].
  unfold applyPayment in Hrun. cbv zeta in Hrun. tx_inv Hrun. apply insertInbox_records in Hs.
  revert Hrun Hs. apply preserves_ok. tx_auto.
Qed.
Lemma StoreRefund_records now ne meta ref d d1 :
  StoreRefund now ne meta ref d = (Ok tt, d1) ->
  recorded meta (ref_PaymentID ref) (ref_UserID ref) d1.
Proof.
  intros (t' & Hrun & ->)%lands_in_tx.
  2: { unfold storeRefund. cbv zeta. apply lands_bind. intros []; simpl; [|eauto with txdb].
       apply lands_dead_letter_conflict. intros b. tx_auto. }
  unfold storeRefund in Hrun. cbv zeta in Hrun. tx_inv Hrun. apply insertInbox_records in Hs.
  revert Hrun Hs. apply preserves_ok. destruct (negb v); [tx_auto|].
  apply preserves_recorded_dead_letter_conflict. intros b. tx_auto.
Qed.

(** The same event delivered again: same metadata and body, whatever the
    clock, the drawn identifiers and the order lookup say by then. *)
Definition same_delivery (o o' : op) : Prop :=
  match o, o' with
  | OpPayment _ _ _ _ m p _, OpPayment _ _ _ _ m' p' _ => m = m' /\ p = p'
  | OpStoreRefund _ _ m r, OpStoreRefund _ _ m' r' => m = m' /\ r = r'
  | _, _ => False
  end.

(** Delivery is exactly-once in effect: once a payment or refund event
    was stored, delivering it again, however much later and after whatever
    other operations, succeeds and changes nothing. *)
Theorem redelivery_changes_nothing o o' d d1 l :
  exec o d = (None, d1) -> same_delivery o o' ->
  exec o' (exec_all l d1) = (None, exec_all l d1).
Proof.
  intros H Hsame. destruct o, o'; try done; destruct Hsame as [<- <-]; simpl in *.
  - destruct (ApplyPayment _ _ _ _ _ _ _ d) as [[[]|e] d'] eqn:Hr; unfold outcome in H; simplify_eq/=.
    apply ApplyPayment_records, (exec_all_recorded _ _ _ l) in Hr.
    unfold ApplyPayment, in_tx, applyPayment. cbv zeta.
    by rewrite (bind_ok _ _ _ _ _ (insertInbox_recorded _ _ _ _ _ _ (Txn _ _) Hr)).
  - destruct (StoreRefund _ _ _ _ d) as [[[]|e] d'] eqn:Hr; unfold outcome in H; simplify_eq/=.
    apply StoreRefund_records, (exec_all_recorded _ _ _ l) in Hr.
    unfold StoreRefund, in_tx, storeRefund. cbv zeta.
    by rewrite (bind_ok _ _ _ _ _ (insertInbox_recorded _ _ _ _ _ _ (Txn _ _) Hr)).
Qed.
Lemma redelivery_changes_nothing_witness :
  let d1 := snd (exec (pay_op "1" 0 day day) empty_db) in
  let later := exec_all [refund_op "1" 1 (2 * day); pay_op "2" 2 (3 * day) (3 * day)] d1 in
  exec (pay_op "1" 0 (9 * day) day) later = (None, later).
Proof.
  apply (redelivery_changes_nothing (pay_op "1" 0 day day) _ empty_db).
  - vm_compute. reflexivity.
  - split; reflexivity.
Defined.

(** An event identifier is never reused for something else: a payment
    delivered under a recorded identifier with another payload digest, or as
    another kind of event or about another payment, is refused as a conflict
    and changes nothing. *)
Theorem forged_event_conflicts meta pid uid d now ns np ne meta' pay ord l :
  recorded meta pid uid d -> meta_EventID meta' = meta_EventID meta ->
  (meta_PayloadSHA256 meta' <> meta_PayloadSHA256 meta \/
   meta_EventType meta' <> meta_EventType meta \/ pay_PaymentID pay <> pid \/ pay_UserID pay <> uid) ->
  exec (OpPayment now ns np ne meta' pay ord) (exec_all l d) = (Some ErrConflict, exec_all l d).
Proof.
  intros HR HID Hdiff. apply (exec_all_recorded _ _ _ l) in HR. set (d2 := exec_all l d) in *. clearbody d2.
  destruct HR as (r & tp & pt & off & Hr & Hs & He).
  assert (insertInbox now meta' (pay_PaymentID pay) (pay_UserID pay) None InProcessing (Txn d2 d2) =
    (Err ErrConflict, Txn d2 d2)) as Hib.
  { unfold insertInbox. rewrite run_get. simpl. rewrite HID, Hr, Hs. unfold same_event in *.
    rewrite bool_decide_eq_true in He. destruct He as (He1 & _ & He3 & He4 & _).
    case_bool_decide as H1; [|done]. case_bool_decide as H2; [|done]. simpl. exfalso.
    destruct H1 as (H11 & _ & H13 & H14 & _). destruct Hdiff as [H|[H|[H|H]]]; congruence. }
  simpl. unfold ApplyPayment, in_tx, applyPayment. cbv zeta. simpl transactionTime.
  by rewrite (bind_err _ _ _ _ _ Hib).
Qed.
Lemma forged_event_conflicts_witness :
  let d := snd (exec (pay_op "1" 0 day day) empty_db) in
  let meta := sample_meta "p1" 0 "billing.payment.succeeded.v1" in
  let forged := MkEventMeta "evp1" (meta_EventType meta) (meta_AggregateID meta) "corr" None 0 "billing" 0 7 "other" in
  let later := exec_all [refund_op "1" 1 (2 * day)] d in
  exec (OpPayment (3 * day) "s" "p" "e" forged (sample_payment "1" day) (sample_order "ord1")) later
  = (Some ErrConflict, later).
Proof.
  apply (forged_event_conflicts (sample_meta "p1" 0 "billing.payment.succeeded.v1") "pay1" "u1").
  - eexists _, _, _, _. split_and!; [vm_compute; reflexivity | reflexivity | reflexivity].
  - reflexivity.
  - left. vm_compute. intros H. discriminate H.
Defined.

