(* ===== verification/SubscriptionPurchases.v ===== *)
(** * subscription-service: what every period was bought with

    Where the paid periods of a run come from: each was inserted by one
    payment event of the run, and no payment and no order buys a second. *)

From Stdlib Require Import List.
From S2P Require Import Prelude Platform SubscriptionDomain SubscriptionStore SubscriptionInv SubscriptionSpec SubscriptionPayments.

(** What a payment of an order buys. *)
Definition period_of (pay : PaymentSucceeded) (ord : Order) (p : period_row) : Prop :=
  p_source_payment_id p = pay_PaymentID pay /\ p_source_order_id p = pay_OrderID pay /\
  p_plan_id p = pay_PlanID pay /\ p_amount_minor p = pay_AmountMinor pay /\
  p_currency p = pay_Currency pay /\ p_paid_at p = pay_PaidAt pay /\
  p_period_end p = p_period_start p + days_duration (plan_DurationDays (ord_PlanSnapshot ord)).

(** Every period was inserted under an identifier and for a payment that [P]
    admits, for a subscription of its payer; orders buy one period each. *)
Record bought (P : string -> PaymentSucceeded -> Order -> Prop) (d : db) : Prop := {
  b_inv : Inv d;
  b_period : forall k p, periods d !! k = Some p -> exists pay ord s, P k pay ord /\ period_of pay ord p /\
    subscriptions d !! p_subscription_id p = Some s /\ s_user_id s = pay_UserID pay;
  b_order : forall k1 k2 p1 p2, periods d !! k1 = Some p1 -> periods d !! k2 = Some p2 ->
    p_source_order_id p1 = p_source_order_id p2 -> k1 = k2
}.

(** An update that keeps subscriptions with their owners, and what periods
    say of their purchase. *)
Definition keeps_owners (d d' : db) : Prop := forall k s, subscriptions d !! k = Some s ->
  exists s', subscriptions d' !! k = Some s' /\ s_user_id s' = s_user_id s.
Definition keeps_purchases (d d' : db) : Prop := forall k p, periods d' !! k = Some p ->
  exists p0, periods d !! k = Some p0 /\ (forall pay ord, period_of pay ord p0 -> period_of pay ord p) /\
    p_source_order_id p = p_source_order_id p0 /\ p_subscription_id p = p_subscription_id p0.

Lemma keeps_purchases_same d d' : periods d' = periods d -> keeps_purchases d d'.
Proof. intros E k p. rewrite E. exists p. by split_and!. Qed.
Lemma keeps_owners_same d d' : subscriptions d' = subscriptions d -> keeps_owners d d'.
Proof. intros E k s. rewrite E. exists s. by split_and!. Qed.
#[export] Hint Resolve keeps_purchases_same keeps_owners_same : core.
Lemma keeps_owners_alter f id d : sub_neutral f -> keeps_owners d (set_subscriptions (alter f id) d).
Proof.
  intros Hf k s Hk. exists (if decide (id = k) then f s else s). split; [apply alter_Some; eauto|].
  case_decide; [apply Hf|done].
Qed.

(** ** What no other operation undoes *)

(** [always G m]: [m] keeps [G] of the working and of the durable state,
    failed runs included. *)
Definition always {A} (G : db -> Prop) (m : sub_tx A) : Prop := forall t, G (working t) ->
  G (working (snd (m t))) /\ (G (durable t) -> G (durable (snd (m t)))).
Section always.
Context (G : db -> Prop).
Lemma always_bind {A B} (m : sub_tx A) (k : A -> sub_tx B) : always G m -> (forall a, always G (k a)) -> always G (bind m k).
Proof.
  intros Hm Hk t Hw. unfold bind. destruct (Hm t Hw) as [H1 H2]. destruct (m t) as [[a|e] t1]; simpl in *; [|done].
  destruct (Hk a t1 H1). auto.
Qed.
Lemma always_modify f : (forall d, G d -> G (f d)) -> always G (modify f).
Proof. intros H t Hw. split; [by apply H|done]. Qed.
Lemma always_read {B} (k : db -> sub_tx B) : (forall d, always G (k d)) -> always G (bind get k).
Proof. intros H t Hw. rewrite run_get. by apply H. Qed.
Lemma always_commit : always G commit.
Proof. by intros t Hw. Qed.
Lemma always_ret {A} (a : A) : always G (ret a).
Proof. by intros t Hw. Qed.
Lemma always_throw {A} e : always G (@throw db SubErr A e).
Proof. by intros t Hw. Qed.
Lemma always_check b what : always G (check b what).
Proof. by destruct b; intros t Hw. Qed.
Lemma always_from_option {A} (o : option A) e : always G (from_option_tx o e).
Proof. by destruct o; intros t Hw. Qed.
Lemma always_when b m : always G m -> always G (when b m).
Proof. by destruct b; [|intros _ t Hw]. Qed.
Lemma always_catch {A} (m : sub_tx A) h : always G m -> (forall e, always G (h e)) -> always G (catch m h).
Proof.
  intros Hm Hh t Hw. unfold catch. destruct (Hm t Hw) as [H1 H2]. destruct (m t) as [[a|e] t1]; simpl in *; [done|].
  destruct (Hh e t1 H1). auto.
Qed.
Lemma always_in_tx {A} (m : sub_tx A) d : always G m -> G d -> G (snd (in_tx m d)).
Proof. intros Hm Hd. unfold in_tx. pose proof (Hm (Txn d d) Hd) as [_ H]. destruct (m (Txn d d)). by apply H. Qed.
Lemma always_ok {A} (m : sub_tx A) t a t' : always G m -> m t = (Ok a, t') -> G (working t) -> G (working t').
Proof. intros Hm Hr Hw. pose proof (Hm t Hw) as [H _]. by rewrite Hr in H. Qed.
End always.
Ltac always_auto := repeat match goal with
  | |- always _ (bind get _) => apply always_read; intros ?
  | |- always _ (bind _ _) => apply always_bind; [|intros ?]
  | |- always _ (modify _) => apply always_modify; intros ? ?
  | |- always _ commit => apply always_commit
  | |- always _ (ret _) => apply always_ret
  | |- always _ (throw _) => apply always_throw
  | |- always _ (check _ _) => apply always_check
  | |- always _ (from_option_tx _ _) => apply always_from_option
  | |- always _ (when _ _) => apply always_when
  | |- always _ (catch _ _) => apply always_catch; [|intros ?]
  | |- always _ (match ?x with _ => _ end) => destruct x eqn:?
  | |- always _ (let _ := _ in _) => cbv zeta
  end.

Definition extends (d0 d : db) : Prop := keeps_owners d0 d /\ keeps_purchases d0 d.
Lemma extends_refl d : extends d d.
Proof. by split; auto. Qed.
Lemma extends_trans d1 d2 d3 : extends d1 d2 -> extends d2 d3 -> extends d1 d3.
Proof.
  intros [O1 P1] [O2 P2]. split.
  - intros k s (s2 & H2 & E2)%O1. destruct (O2 k s2 H2) as (s3 & H3 & E3). exists s3. split; congruence.
  - intros k p (p2 & H2 & F2 & E2 & G2)%P2. destruct (P1 k p2 H2) as (p1 & H1 & F1 & E1 & G1).
    exists p1. split_and!; [done|auto|congruence|congruence].
Qed.
Lemma extends_frame d0 d d' : subscriptions d' = subscriptions d -> periods d' = periods d -> extends d0 d -> extends d0 d'.
Proof. intros Es Ep H. eapply extends_trans; [exact H|]. split; auto. Qed.
Lemma extends_alter d0 d f id : sub_neutral f -> extends d0 d -> extends d0 (set_subscriptions (alter f id) d).
Proof.
  intros Hf H. eapply extends_trans; [exact H|]. split; [|by apply keeps_purchases_same].
  intros k s Hk. exists (if decide (id = k) then f s else s). split; [apply alter_Some; eauto|].
  case_decide; [apply Hf|done].
Qed.
Lemma extends_refunded d0 d r at_ id : extends d0 d -> extends d0 (set_periods (alter (set_refunded r at_) id) d).
Proof.
  intros H. eapply extends_trans; [exact H|]. split; [by apply keeps_owners_same|].
  intros k p (p0 & H0 & ->)%alter_Some. exists p0. split; [done|]. by case_decide.
Qed.

Section extends_steps.
Context (d0 : db).
Ltac extends_step := first [by apply (extends_frame d0 _ _ eq_refl eq_refl) | by apply extends_alter | by apply extends_refunded].

Lemma extends_insertInbox now m p u pl st : always (extends d0) (insertInbox now m p u pl st).
Proof. unfold insertInbox. always_auto; extends_step. Qed.
Lemma extends_mark ev now : always (extends d0) (markInboxProcessed ev now).
Proof. unfold markInboxProcessed. always_auto; extends_step. Qed.
Lemma extends_deadLetter ev now reason : always (extends d0) (deadLetterInbox ev now reason).
Proof. unfold deadLetterInbox. always_auto; extends_step. Qed.
Lemma extends_update id st s e g n now : always (extends d0) (updateSubscription id st s e g n now).
Proof. unfold updateSubscription. always_auto; extends_step. Qed.
Lemma extends_insertOutbox ev topic sid user key corr cause at_ data :
  always (extends d0) (insertOutbox ev topic sid user key corr cause at_ data).
Proof.
  intros t Hw. unfold insertOutbox. rewrite run_get.
  destruct (subscriptions (working t) !! sid) as [s|] eqn:Hs; [|done].
  assert (extends d0 (set_subscriptions (insert sid (bump_sequence s)) (working t))) as Hb.
  { eapply extends_trans; [exact Hw|]. split; [|by apply keeps_purchases_same].
    intros k s0 Hk. simpl. rewrite lookup_insert. case_decide; [|eauto]. subst. exists (bump_sequence s).
    split; [done|]. by simplify_eq. }
  match goal with |- context [bind (from_option_tx (Some s) ?e) ?k t] =>
    change (bind (from_option_tx (Some s) e) k t) with (k s t) end.
  cbv beta zeta. rewrite run_modify.
  match goal with |- extends d0 (working (snd (?m ?t1))) /\ _ => enough (always (extends d0) m) as H by (exact (H t1 Hb)) end.
  always_auto; extends_step.
Qed.
Hint Resolve extends_insertInbox extends_mark extends_deadLetter extends_update extends_insertOutbox : core.
Ltac extends_auto := repeat (first [solve [auto 1] | progress always_auto | extends_step]).

Lemma extends_applyRefund meta refund now ev : always (extends d0) (applyRefund meta refund now ev).
Proof. unfold applyRefund. extends_auto. Qed.
Hint Resolve extends_applyRefund : core.
Lemma extends_dead_letter_conflict id now m (k : bool -> sub_tx unit) :
  always (extends d0) m -> (forall b, always (extends d0) (k b)) -> always (extends d0) (dead_letter_conflict id now m k).
Proof. intros Hm Hk. unfold dead_letter_conflict. extends_auto. Qed.

Definition is_payment (o : op) : bool := match o with OpPayment _ _ _ _ _ _ _ => true | _ => false end.
Lemma extends_exec o d : is_payment o = false -> extends d0 d -> extends d0 (snd (exec o d)).
Proof.
  intros Hp Hd. destruct o; try done; simpl; try (apply (always_in_tx (extends d0)); [|done]); try extends_step.
  - unfold recordPaymentReplay. extends_auto.
  - unfold adminRevoke. extends_auto.
  - unfold storeRefund. cbv zeta. apply always_bind; [done|]. intros []; simpl; [|extends_auto].
    apply extends_dead_letter_conflict; [done|]. intros b. extends_auto.
  - unfold ClaimRefund. destruct (first_by _ _ _) as [r|]; [|done].
    destruct (i_source r) as [[[[? ?] ?] ?]|], (i_payload r); extends_step.
  - unfold applyClaimedRefund. cbv zeta. apply extends_dead_letter_conflict; [done|]. intros b. extends_auto.
  - unfold ClaimDue, claimDue. destruct (first_by _ _ _); [extends_step|done].
  - unfold completeDue. extends_auto.
  - unfold RecordDeadLetter. destruct (dead_letters d !! _); [done|extends_step].
  - unfold ClaimOutbox. destruct (first_by _ _ _); [extends_step|done].
Qed.
End extends_steps.

Ltac extends_step := first [by apply extends_frame | by apply extends_alter | by apply extends_refunded].
Ltac extends_auto := repeat (first [solve [auto 1] | progress always_auto | extends_step]).
#[export] Hint Resolve extends_insertInbox extends_mark extends_deadLetter extends_update extends_insertOutbox : core.

(** ** What a payment adds *)

(** The transaction leaves every row as it was, or inserts one period for
    the payer's subscription, under the identifier it drew, for a payment and
    an order that bought none before. *)
Definition adds_period (d : db) (np : string) (pay : PaymentSucceeded) (ord : Order) (d' : db) : Prop :=
  exists mid row s, extends d mid /\ p_id row = np /\ period_of pay ord row /\ unique_period row mid = true /\
    subscriptions mid !! p_subscription_id row = Some s /\ s_user_id s = pay_UserID pay /\
    extends (set_periods (insert np row) mid) d'.

Lemma insertInbox_tables now m p u pl st t a t' : insertInbox now m p u pl st t = (Ok a, t') ->
  subscriptions (working t') = subscriptions (working t) /\ periods (working t') = periods (working t) /\
  outbox (working t') = outbox (working t).
Proof.
  intros H. assert (forall {B} (f : db -> B), (forall g d, f (set_inbox g d) = f d) -> f (working t') = f (working t)) as Hf.
  { intros B f Hf. assert (untouched f (insertInbox now m p u pl st)) as Hun
      by (unfold insertInbox; repeat (first [solve [eauto 2 with txdb] | tx_split | apply untouched_modify, Hf])).
    specialize (Hun t). by rewrite H in Hun. }
  split_and!; by apply Hf.
Qed.

Lemma getOrCreate_grows id user now t sub created t' : Inv (working t) ->
  getOrCreateSubscription id user now t = (Ok (sub, created), t') ->
  extends (working t) (working t') /\ durable t' = durable t /\
  exists s, subscriptions (working t') !! sub_SubscriptionID sub = Some s /\ s_user_id s = user.
Proof.
  intros HI H. apply getOrCreate_ok in H. destruct (subscription_of_user user (working t)) as [s|] eqn:Hsu.
  - destruct H as [[= -> ->] ->]. destruct (subscription_of_user_Some _ _ _ HI Hsu). split_and!; [apply extends_refl|done|].
    by exists s.
  - destruct H as ([= -> ->] & Hn & ->). simpl. split_and!; [|done|].
    + split; [|by apply keeps_purchases_same]. intros k s0 Hk. exists s0. split; [|done]. simpl.
      rewrite lookup_insert_ne; [done|]. congruence.
    + eexists. by rewrite lookup_insert, decide_True.
Qed.

Lemma applyPayment_rows now ns np ne meta pay ord d d' : Inv d ->
  ApplyPayment now ns np ne meta pay ord d = (Ok tt, d') ->
  extends d d' \/ (payment_join (pay_PaymentID pay) d = None /\ adds_period d np pay ord d').
Proof.
  intros HI (t' & Hrun & ->)%lands_in_tx; [|unfold applyPayment; cbv zeta; tx_auto].
  unfold applyPayment in Hrun. cbv zeta in Hrun. tx_inv Hrun.
  pose proof (insertInbox_tables _ _ _ _ _ _ _ _ _ Hs) as (Esub & Eper & _). simpl in Esub, Eper.
  assert (extends d (working t)) as Hg by (by apply (extends_frame d d _ Esub Eper), extends_refl).
  destruct v; simpl in Hrun; [|injection Hrun as <-; by left].
  rewrite run_get in Hrun. assert (payment_join (pay_PaymentID pay) (working t) = payment_join (pay_PaymentID pay) d) as Ej.
  { unfold payment_join, period_of_payment. by rewrite Esub, Eper. }
  rewrite Ej in Hrun. destruct (payment_join (pay_PaymentID pay) d) as [[p s]|] eqn:Hj.
  { left. case_bool_decide; [|done]. injection Hrun as <-. simpl. by apply (extends_frame d (working t)). }
  right. split; [done|]. tx_inv Hrun. destruct v as [sub created].
  assert (Inv (working t)) as HI1.
  { pose proof (preserves_insertInbox now meta (pay_PaymentID pay) (pay_UserID pay) None InProcessing (Txn d d) HI) as [_ Hi].
    simpl transactionTime in Hs. rewrite Hs in Hi. by apply Hi. }
  destruct (getOrCreate_grows _ _ _ _ _ _ _ HI1 Hs0) as (Hg1 & _ & s & Hrow & Hu).
  tx_inv Hrun. apply insertPeriod_ok in Hs1 as (Huni & _ & ->).
  match type of Huni with unique_period ?row0 _ = _ => set (row := row0) in * end.
  assert (period_of pay ord row) as Hof by (by split_and!).
  assert (extends (set_periods (insert np row) (working t0)) (working t')) as Hafter.
  { refine (always_ok (extends _) _ _ _ t' _ Hrun _); [|apply extends_refl]. clearbody row. repeat case_match; extends_auto. }
  exists (working t0), row, s. split_and!; try done. by eapply extends_trans.
Qed.

Section bought.
Context (P : string -> PaymentSucceeded -> Order -> Prop).

Lemma bought_grows d d' : Inv d' -> extends d d' -> bought P d -> bought P d'.
Proof.
  intros HI [Ho Hp] [_ B2 B3]. split; [done|..].
  - intros k p (p0 & H0 & Hof & _ & Es)%Hp. destruct (B2 k p0 H0) as (pay & ord & s & HP & Hpo & Hs & Hu).
    destruct (Ho _ _ Hs) as (s' & Hs' & Hu'). exists pay, ord, s'. rewrite Es, Hu'. auto.
  - intros k1 k2 p1 p2 (q1 & H1 & _ & E1 & _)%Hp (q2 & H2 & _ & E2 & _)%Hp E. apply (B3 k1 k2 q1 q2); congruence.
Qed.
Lemma bought_adds d np pay ord d' : Inv d' -> P np pay ord -> adds_period d np pay ord d' -> bought P d -> bought P d'.
Proof.
  intros HI HP (mid & row & s & Hg & <- & Hof & Huni & Hs & Hu & Hg') HB. destruct HB as [_ B2 B3].
  assert (forall k p, periods mid !! k = Some p -> exists p0, periods d !! k = Some p0 /\
    (forall pay ord, period_of pay ord p0 -> period_of pay ord p) /\ p_source_order_id p = p_source_order_id p0 /\
    p_subscription_id p = p_subscription_id p0) as Hp by apply Hg.
  apply andb_true_iff in Huni as [Huni _]. rewrite negb_true_iff, exists_row_false in Huni.
  assert (forall k q, periods mid !! k = Some q -> p_source_order_id q <> p_source_order_id row) as Hfresh.
  { intros k q Hk E. specialize (Huni k q Hk). rewrite bool_decide_eq_false in Huni. naive_solver. }
  destruct Hg' as [Ho' Hp']. split; [done|..].
  - intros k p (p0 & H0 & Hof0 & _ & Es)%Hp'. simpl in H0. rewrite Es. revert H0. rewrite lookup_insert. case_decide as Hk.
    + intros [= <-]. destruct (Ho' (p_subscription_id row) s Hs) as (s' & Hs' & Hu').
      exists pay, ord, s'. subst k. rewrite Hu'. auto.
    + intros (q & Hq & Hofq & _ & Eq)%Hp. destruct (B2 k q Hq) as (pay1 & ord1 & s1 & HP1 & Ho1 & Hs1 & Hu1).
      destruct (proj1 Hg _ _ Hs1) as (s2 & Hs2 & Hu2). rewrite <- Eq in Hs2.
      destruct (Ho' _ s2 Hs2) as (s3 & Hs3 & Hu3). exists pay1, ord1, s3. split_and!; auto. congruence.
  - intros k1 k2 p1 p2 (q1 & H1 & _ & E1 & _)%Hp' (q2 & H2 & _ & E2 & _)%Hp' E. rewrite E1, E2 in E. simpl in H1, H2.
    revert H1 H2. rewrite !lookup_insert. repeat case_decide; intros H1 H2; simplify_eq; try done.
    + exfalso. by eapply Hfresh.
    + exfalso. by eapply Hfresh.
    + apply Hp in H1 as (r1 & H1 & _ & F1 & _). apply Hp in H2 as (r2 & H2 & _ & F2 & _). apply (B3 k1 k2 r1 r2); congruence.
Qed.

Lemma exec_purchases o d : (forall c s np e m pay ord, o = OpPayment c s np e m pay ord -> P np pay ord) ->
  bought P d -> bought P (snd (exec o d)).
Proof.
  intros HP HB. pose proof (b_inv _ _ HB) as HI. pose proof (exec_Inv o d HI) as HI'.
  destruct (is_payment o) eqn:Ho; [|by eapply bought_grows, HB; [|apply extends_exec; [|apply extends_refl]]].
  destruct o; try done. simpl in *. destruct (ApplyPayment _ _ _ _ _ _ _ d) as [[[]|e] d'] eqn:Hr; simpl in *.
  - destruct (applyPayment_rows _ _ _ _ _ _ _ _ _ HI Hr) as [Hg|[_ Ha]]; [by eapply bought_grows|].
    eapply bought_adds; [done|by eapply HP|done|done].
  - assert (d' = d) as ->; [|done]. by apply (exec_atomic (OpPayment clock newSub newPeriod newEvent meta payment order) d e);
      [|simpl; rewrite Hr].
Qed.
Lemma exec_all_purchases l d : (forall c s np e m pay ord, OpPayment c s np e m pay ord ∈ l -> P np pay ord) ->
  bought P d -> bought P (exec_all l d).
Proof.
  revert d. induction l as [|o l IH]; intros d HP HB; simpl; [done|]. apply IH.
  - intros c s np e m pay ord Hin. eapply HP. right. exact Hin.
  - apply exec_purchases; [|done]. intros c s np e m pay ord ->. eapply HP. left.
Qed.
End bought.

(** A payment that has its period buys nothing more, under whatever event
    and order it is delivered again. *)
Lemma bought_payment_idle now ns np ne meta pay ord d k p s : Inv d -> periods d !! k = Some p ->
  subscriptions d !! p_subscription_id p = Some s -> p_source_payment_id p = pay_PaymentID pay ->
  let d' := snd (exec (OpPayment now ns np ne meta pay ord) d) in
  periods d' = periods d /\ subscriptions d' = subscriptions d /\ outbox d' = outbox d.
Proof.
  intros HI Hk Hs Hp. cbv zeta. simpl. destruct (ApplyPayment _ _ _ _ _ _ _ d) as [[[]|e] d'] eqn:Hr; simpl.
  2: { assert (d' = d) as ->; [|done]. by apply (exec_atomic (OpPayment now ns np ne meta pay ord) d e); [|simpl; rewrite Hr]. }
  apply lands_in_tx in Hr as (t' & Hrun & ->); [|unfold applyPayment; cbv zeta; tx_auto].
  unfold applyPayment in Hrun. cbv zeta in Hrun. tx_inv Hrun.
  pose proof (insertInbox_tables _ _ _ _ _ _ _ _ _ Hs0) as (Esub & Eper & Eout). simpl in Esub, Eper, Eout.
  destruct v; simpl in Hrun; [|injection Hrun as <-; done].
  rewrite run_get in Hrun. destruct (payment_join (pay_PaymentID pay) (working t)) as [[q s1]|] eqn:Hj.
  { case_bool_decide; [|done]. injection Hrun as <-. done. }
  exfalso. unfold payment_join, period_of_payment in Hj. rewrite Esub, Eper in Hj.
  destruct (find_row _ (periods d)) as [q|] eqn:Hq.
  - apply find_row_Some in Hq as [Hq (k' & Hk')]. rewrite bool_decide_eq_true in Hq.
    assert (k' = k) as -> by (eapply (inv_payment _ HI); eauto; congruence). simplify_eq. by rewrite Hs in Hj.
  - rewrite find_row_None in Hq. specialize (Hq k p Hk). by rewrite bool_decide_eq_false in Hq.
Qed.

(** C3: a payment buys exactly what was paid for, once. After any run of the
    store, whatever events were delivered, how often and in which order:
    every period was bought by a payment event of the run, for that
    payment, order, plan and amount, lasts the days of the plan ordered and
    belongs to a subscription of the payer; a payment or an order buys at
    most one period and a user has at most one subscription; and an event
    about a payment that has its period changes no period, no subscription
    and sends nothing. *)
Theorem payment_buys_once l : let d := exec_all l empty_db in
  (forall k p, periods d !! k = Some p -> exists clock ns ne meta pay ord s,
     OpPayment clock ns k ne meta pay ord ∈ l /\ period_of pay ord p /\
     subscriptions d !! p_subscription_id p = Some s /\ s_user_id s = pay_UserID pay) /\
  (forall k1 k2 p1 p2, periods d !! k1 = Some p1 -> periods d !! k2 = Some p2 ->
     p_source_payment_id p1 = p_source_payment_id p2 \/ p_source_order_id p1 = p_source_order_id p2 -> k1 = k2) /\
  (forall k1 k2 s1 s2, subscriptions d !! k1 = Some s1 -> subscriptions d !! k2 = Some s2 ->
     s_user_id s1 = s_user_id s2 -> k1 = k2) /\
  (forall k p clock ns np ne meta pay ord, periods d !! k = Some p -> p_source_payment_id p = pay_PaymentID pay ->
     let d' := snd (exec (OpPayment clock ns np ne meta pay ord) d) in
     periods d' = periods d /\ subscriptions d' = subscriptions d /\ outbox d' = outbox d).
Proof.
  intros d. assert (bought (fun k pay ord => exists clock ns ne meta, OpPayment clock ns k ne meta pay ord ∈ l) d) as [HI B2 B3].
  { apply exec_all_purchases; [eauto 10|]. split; [apply Inv_empty|..]; intros; simpl in *; simplify_map_eq. }
  split_and!.
  - intros k p (pay & ord & s & (clock & ns & ne & meta & Hin) & Hof & Hs & Hu)%B2. eauto 12.
  - intros k1 k2 p1 p2 H1 H2 [E|E]; [by eapply (inv_payment _ HI)|by eapply B3].
  - apply (inv_user _ HI).
  - intros k p clock ns np ne meta pay ord Hk Hp. destruct (B2 k p Hk) as (_ & _ & s & _ & _ & Hs & _).
    by eapply bought_payment_idle.
Qed.
Lemma payment_buys_once_witness : exists p s,
  periods sample_db !! "per1" = Some p /\ subscriptions sample_db !! p_subscription_id p = Some s /\ s_user_id s = "u1" /\
  periods (snd (exec (pay_op "1" 9 (9 * day) day) sample_db)) = periods sample_db.
Proof.
  destruct (payment_buys_once sample_ops) as (H1 & _ & _ & H4). change (exec_all sample_ops empty_db) with sample_db in *.
  destruct (periods sample_db !! "per1") as [p|] eqn:Ep; [|vm_compute in Ep; discriminate Ep].
  assert (p_source_payment_id p = "pay1") as Hp by (vm_compute in Ep; injection Ep as <-; reflexivity).
  destruct (H1 "per1" p Ep) as (clock & ns & ne & meta & pay & ord & s & Hin & _ & Hs & Hu).
  exists p, s. split; [reflexivity|]. split; [exact Hs|]. split.
  - rewrite Hu. unfold sample_ops in Hin. repeat (apply elem_of_cons in Hin as [Hin|Hin]; [try discriminate Hin; injection Hin as; subst; try reflexivity|]).
    all: try (apply not_elem_of_nil in Hin; destruct Hin); reflexivity.
  - apply (H4 "per1" p (9 * day) "sub1" "per1" "out-pay1" (sample_meta "p1" 9 "billing.payment.succeeded.v1")
      (sample_payment "1" day) (sample_order "ord1") Ep Hp).
Defined.
