(* ===== verification/SubscriptionLifecycle.v ===== *)
(** * subscription-service: refunds, the scheduler and delivery

    What a refund and a scheduled transition leave behind, the exclusivity of
    leases, the order of delivery, and the places where the service does not
    do what it means to. *)

From Stdlib Require Import List Sorted.
From S2P Require Import Prelude Platform SubscriptionDomain.
From S2P Require Import SubscriptionStore SubscriptionInv SubscriptionSpec SubscriptionPayments.

(** ** The rows the entitlement query returns *)

Definition starts_before (p q : period_row) : Prop := p_period_start p <= p_period_start q.
Lemma by_period_start_true p q : by_period_start p q = true -> starts_before p q.
Proof. unfold by_period_start, starts_before. rewrite orb_true_iff, andb_true_iff. intros [H|[H _]]; lia. Qed.
Lemma by_period_start_false p q : by_period_start p q = false -> starts_before q p.
Proof. unfold by_period_start, starts_before. rewrite orb_false_iff. intros [H _]. lia. Qed.

Lemma StronglySorted_lookup {A} (R : A -> A -> Prop) (l : list A) i j x y :
  StronglySorted R l -> (i < j)%nat -> l !! i = Some x -> l !! j = Some y -> R x y.
Proof.
  intros Hs. revert i j. induction Hs as [|z l Hl IH Hall]; intros [|i] [|j] Hij Hx Hy; simplify_eq/=; try lia.
  - rewrite Forall_forall in Hall. by eapply Hall, list_elem_of_In, list_elem_of_lookup_2.
  - apply (IH i j); [lia|done|done].
Qed.

Lemma elem_valid_periods d sid now v :
  v ∈ valid_periods d sid now <->
  exists k p, periods d !! k = Some p /\ paid_unelapsed sid now p = true /\ v = period_view p.
Proof.
  unfold valid_periods. rewrite list_elem_of_fmap. setoid_rewrite elem_order_by.
  setoid_rewrite elem_where. naive_solver.
Qed.

Lemma valid_periods_ok d sid now :
  Inv d -> (forall v, v ∈ valid_periods d sid now -> period_ok now v) /\ by_start (valid_periods d sid now).
Proof.
  intros HI. split.
  - intros v (k & p & Hk & Hp & ->)%elem_valid_periods.
    destruct (inv_period_span _ HI _ _ Hk). unfold paid_unelapsed in Hp.
    rewrite !andb_true_iff in Hp. unfold period_ok. simpl. lia.
  - intros i j v w Hij Hv Hw. destruct (decide (i = j)) as [->|Hne]; [simplify_eq; lia|].
    unfold valid_periods in Hv, Hw.
    apply list_lookup_fmap_Some in Hv as (p & -> & Hp). apply list_lookup_fmap_Some in Hw as (q & -> & Hq).
    simpl. eapply (StronglySorted_lookup starts_before _ i j p q); [|lia|exact Hp|exact Hq].
    apply order_by_sorted; [apply by_period_start_true | apply by_period_start_false|].
    unfold starts_before. intros; lia.
Qed.

(** The reported status against the specification, for the rows of the store. *)
Lemma calculateEntitlement_spec d sid now :
  Inv d ->
  match calculateEntitlement d sid now with
  | None => forall k p, periods d !! k = Some p -> paid_unelapsed sid now p = false
  | Some e => ent_Status e = spec_status now (valid_periods d sid now) /\
              (exists n, ent_Next e = Some n /\ now < n) /\ ent_Period e ∈ valid_periods d sid now
  end.
Proof.
  intros HI. destruct (valid_periods_ok d sid now HI) as [Hok Hs].
  pose proof (entitlement_spec now _ Hok Hs) as H. unfold calculateEntitlement.
  destruct (entitlement now _); [done|]. intros k p Hk. destruct (paid_unelapsed sid now p) eqn:Hp; [|done].
  assert (period_view p ∈ valid_periods d sid now) as Hin by (apply elem_valid_periods; eauto).
  rewrite H in Hin. by apply not_elem_of_nil in Hin.
Qed.

(** ** The scheduler *)

(** A conditional event: the subscription row keeps everything but its
    numbering. *)
Lemma maybe_event (b : bool) ev topic id user key corr cause at_ data t u t' s :
  (if b then insertOutbox ev topic id user key corr cause at_ data else ret tt) t = (Ok u, t') ->
  subscriptions (working t) !! id = Some s ->
  exists n o, subscriptions (working t') !! id = Some (Nat.iter n bump_sequence s) /\
    periods (working t') = periods (working t) /\
    outbox (working t') = (if b then <[ev := o]> (outbox (working t)) else outbox (working t)) /\
    o_topic o = topic.
Proof.
  destruct b; intros H Hs.
  - apply insertOutbox_run in H as [_ (s0 & Hs0 & _ & _ & ->)]. simplify_eq. exists 1%nat. eexists.
    simpl. rewrite lookup_insert, decide_True by done. by split_and!.
  - injection H as <- <-. exists 0%nat, (MkOutbox "" topic "" "" 0 "" (buildEventPayload "" "" "" "" "" None 0 0
      (terminalEventData "" "" "" [] 0)) OutPending 0 0 None 0 None). by split_and!.
Qed.
Lemma iter_bump_status n s : s_status (Nat.iter n bump_sequence s) = s_status s.
Proof. by induction n. Qed.
Lemma calculateEntitlement_nil d sid now :
  calculateEntitlement d sid now = None <-> valid_periods d sid now = [].
Proof.
  unfold calculateEntitlement, entitlement. destruct (valid_periods d sid now); [done|].
  cbv zeta. destruct (chain _ _ _), (statusAt _ _ _ _). done.
Qed.

(** A claimed transition moves the subscription to the status its paid
    periods call for at that instant ([Expired] when none is left), releases
    the lease and schedules the next transition strictly later (none when
    expired), so that the scheduler cannot spin on it; a subscription that
    loses its entitlement tells the other services so. *)
Theorem CompleteDue_effect now ev1 ev2 id d d' s :
  reachable d -> CompleteDue now ev1 ev2 id d = (Ok tt, d') ->
  subscriptions d !! id = Some s -> s_transition_lease_until s <> None ->
  exists s', subscriptions d' !! id = Some s' /\ periods d' = periods d /\
    s_status s' = match valid_periods d id now with [] => Expired | l => spec_status now l end /\
    s_transition_lease_until s' = None /\
    match s_next_transition_at s' with
    | Some n => now < n
    | None => s_status s' = Expired
    end /\
    (s_status s = Active \/ s_status s = Grace ->
     s_status s' = Pending \/ s_status s' = Expired ->
     exists o, outbox d' = <[ev1 := o]> (outbox d) /\ o_topic o = "subscription.expired.v1").
Proof.
  intros HI%reachable_inv H Hs Hl. unfold CompleteDue in H.
  pose proof (calculateEntitlement_spec d id now HI) as Hspec.
  pose proof (calculateEntitlement_nil d id now) as Hnil.
  destruct (s_transition_lease_until s) as [lease|] eqn:Hlease; [|done].
  erewrite in_tx_eq in H by (unfold completeDue; rewrite run_get; simpl working; rewrite Hs; simpl from_option_tx;
    rewrite run_ret; cbv zeta; rewrite Hlease; change (transactionTime now None) with now; reflexivity).
  apply lands_in_tx in H as (t' & Hrun & ->); [|tx_auto].
  destruct (calculateEntitlement d id now) as [st|].
  - destruct Hspec as (Hst & (n & Hn & Hlt) & Hin).
    assert (valid_periods d id now <> []) as Hne by (intros E; by apply Hnil in E).
    assert (spec_status now (valid_periods d id now) <> Expired) as Hnx
      by (unfold spec_status; repeat case_match; done).
    tx_inv Hrun. eapply maybe_event in Hs0 as (n1 & o1 & Hs1 & Hp1 & Ho1 & Ht1); [|exact Hs].
    tx_inv Hrun. eapply maybe_event in Hs0 as (n2 & o2 & Hs2 & Hp2 & Ho2 & _); [|exact Hs1].
    tx_inv Hrun. eapply maybe_event in Hs0 as (n3 & o3 & Hs3 & Hp3 & Ho3 & _); [|exact Hs2].
    tx_inv Hrun. apply updateSubscription_ok in Hs0 as ->. injection Hrun as <-. simpl.
    eexists. split_and!; [by rewrite lookup_alter, decide_True, Hs3 | by rewrite Hp3, Hp2, Hp1 | | done | by simpl; rewrite Hn|].
    + simpl. rewrite Hst. by destruct (valid_periods d id now).
    + simpl. intros Ho [Hp|Hp]; [|congruence]. exists o1. split; [|done]. rewrite Ho3, Ho2, Ho1.
      rewrite (bool_decide_eq_true_2 (s_status s <> Pending /\ _)) by (destruct Ho; split; congruence).
      rewrite !bool_decide_eq_false_2; [done| |]; rewrite Hp; intuition congruence.
  - rewrite (proj1 Hnil eq_refl). tx_inv Hrun.
    eapply maybe_event in Hs0 as (n1 & o1 & Hs1 & Hp1 & Ho1 & Ht1); [|exact Hs].
    rewrite run_modify in Hrun. injection Hrun as <-. simpl. eexists. rewrite lookup_alter, decide_True, Hs1 by done.
    split_and!; try done. intros Ho _. exists o1. split; [|done]. rewrite Ho1.
    by rewrite bool_decide_eq_true_2 by (destruct Ho; split; congruence).
Qed.

Lemma CompleteDue_effect_witness :
  let d0 := exec_all [pay_op "1" 0 day day; OpClaimDue (31 * day) minute ∅] empty_db in
  let d1 := snd (CompleteDue (31 * day) "ev-grace" "ev-other" "sub1" d0) in
  exists s', subscriptions d1 !! "sub1" = Some s' /\ s_status s' = Grace.
Proof.
  intros d0 d1.
  destruct (CompleteDue_effect (31 * day) "ev-grace" "ev-other" "sub1" d0 d1
    (default (MkSubRow "" "" Pending None None None None None 0 0 0) (subscriptions d0 !! "sub1")))
    as (s' & Hs & _ & Hst & _).
  - exists [pay_op "1" 0 day day; OpClaimDue (31 * day) minute ∅]. reflexivity.
  - vm_compute. reflexivity.
  - vm_compute. reflexivity.
  - vm_compute. intros H. discriminate H.
  - exists s'. split; [exact Hs|]. rewrite Hst. vm_compute. reflexivity.
Defined.

(** ** Refunds *)

(** The state a subscription is left in once [d] holds its remaining periods. *)
Definition recalculated (d : db) (now : Z) (s' : subscription_row) : Prop :=
  match calculateEntitlement d (s_id s') now with
  | None => s_status s' = Revoked /\ s_period_end s' = None /\ s_next_transition_at s' = None
  | Some e => s_status s' = ent_Status e /\ s_period_start s' = Some (ent_Start e) /\
      s_period_end s' = Some (ent_End e) /\ s_grace_ends_at s' = Some (ent_Grace e) /\
      s_next_transition_at s' = ent_Next e
  end.
Definition entitled (s : subscription_row) : Prop := s_status s = Active \/ s_status s = Grace.

Lemma calculateEntitlement_periods d d' sid now :
  periods d = periods d' -> calculateEntitlement d sid now = calculateEntitlement d' sid now.
Proof. unfold calculateEntitlement, valid_periods. by intros ->. Qed.

Lemma iter_bump_id n s : s_id (Nat.iter n bump_sequence s) = s_id s.
Proof. by induction n. Qed.
Lemma iter_bump_fields n s :
  s_period_start (Nat.iter n bump_sequence s) = s_period_start s /\
  s_period_end (Nat.iter n bump_sequence s) = s_period_end s /\
  s_grace_ends_at (Nat.iter n bump_sequence s) = s_grace_ends_at s /\
  s_next_transition_at (Nat.iter n bump_sequence s) = s_next_transition_at s.
Proof. by induction n. Qed.

Lemma applyRefund_ok meta refund now ev t b t' p s :
  Inv (working t) -> payment_join (ref_PaymentID refund) (working t) = Some (p, s) ->
  refund_matches refund p s -> p_refunded p = false ->
  applyRefund meta refund now ev t = (Ok b, t') ->
  b = true /\ exists s', periods (working t') =
      alter (set_refunded (ref_RefundID refund) (ref_RefundedAt refund)) (p_id p) (periods (working t)) /\
    subscriptions (working t') !! s_id s = Some s' /\ s_id s' = s_id s /\
    recalculated (working t') now s' /\
    (entitled s -> ~ entitled s' -> exists o,
       outbox (working t') = <[ev := o]> (outbox (working t)) /\ o_topic o = "subscription.revoked.v1").
Proof.
  intros HI Hj Hm Href. unfold applyRefund. rewrite run_get, Hj, bool_decide_eq_true_2, Href by done.
  destruct (payment_join_Some _ _ _ _ HI Hj) as (_ & Hs & _ & _).
  intros H. tx_inv H. apply check_ok in Hs0 as [_ ->]. rewrite run_modify, run_get in H. simpl in H.
  unfold recalculated, entitled.
  destruct (calculateEntitlement _ (s_id s) now) as [st|] eqn:He.
  - tx_inv H. apply updateSubscription_ok in Hs0 as ->. tx_inv H.
    eapply maybe_event in Hs0 as (n & o & Hs1 & Hp & Ho & Ht);
      [|simpl; by rewrite lookup_alter, decide_True, Hs].
    injection H as <- <-. split; [done|]. eexists. split_and!; [exact Hp|exact Hs1| | |].
    + by rewrite iter_bump_id.
    + rewrite iter_bump_id, iter_bump_status. simpl.
      replace (calculateEntitlement _ _ _) with (Some st) by (rewrite <- He; by apply calculateEntitlement_periods).
      by destruct (iter_bump_fields n (set_state (ent_Status st) (Some (ent_Start st)) (Some (ent_End st))
        (Some (ent_Grace st)) (ent_Next st) now s)) as (-> & -> & -> & ->).
    + rewrite iter_bump_status. simpl. intros Hent Hnot. exists o. split; [|done].
      rewrite Ho, bool_decide_eq_true_2; [done|]. split; [done|].
      pose proof (calculateEntitlement_spec (set_periods (alter
        (set_refunded (ref_RefundID refund) (ref_RefundedAt refund)) (p_id p)) (working t)) (s_id s) now) as Hsp.
      rewrite He in Hsp. destruct Hsp as [Hsp _].
      { apply Inv_refund_period; [|done|done]. by eapply payment_join_Some in Hj as (? & _). }
      revert Hsp Hnot. unfold spec_status. repeat case_match; naive_solver.
  - rewrite run_modify in H. tx_inv H.
    apply (maybe_event true) with (s := set_state Revoked None None None None now s) in Hs0
      as (n & o & Hs1 & Hp & Ho & Ht); [|simpl; by rewrite lookup_alter, decide_True, Hs].
    injection H as <- <-. split; [done|]. eexists. split_and!; [exact Hp|exact Hs1| | |].
    + by rewrite iter_bump_id.
    + rewrite iter_bump_id, iter_bump_status. simpl.
      replace (calculateEntitlement _ _ _) with (@None entitlementState)
        by (rewrite <- He; by apply calculateEntitlement_periods).
      by destruct (iter_bump_fields n (set_state Revoked None None None None now s)) as (_ & -> & _ & ->).
    + intros _ _. by exists o.
Qed.

(** [payment_join] only reads subscriptions and periods. *)
Lemma payment_join_frame pid d f : payment_join pid (set_inbox f d) = payment_join pid d.
Proof. done. Qed.

(** The first delivery of a refund of a paid period marks that very
    period refunded and no other, and leaves the subscription in the state
    its remaining paid periods call for ([Revoked] when none is left); a user
    who thereby loses access is reported revoked to the other services. *)
Theorem StoreRefund_effect now ev meta refund d d' p s :
  reachable d -> StoreRefund now ev meta refund d = (Ok tt, d') ->
  inbox d !! meta_EventID meta = None -> payment_join (ref_PaymentID refund) d = Some (p, s) ->
  refund_matches refund p s -> p_refunded p = false ->
  periods d' = alter (set_refunded (ref_RefundID refund) (ref_RefundedAt refund)) (p_id p) (periods d) /\
  exists s', subscriptions d' !! s_id s = Some s' /\ s_id s' = s_id s /\ recalculated d' now s' /\
    (entitled s -> ~ entitled s' -> exists o,
       outbox d' = <[ev := o]> (outbox d) /\ o_topic o = "subscription.revoked.v1").
Proof.
  intros HI%reachable_inv H Hib Hj Hm Href. unfold StoreRefund, in_tx in H.
  destruct (storeRefund _ _ _ _ _ _) as [r t'] eqn:Hrun. simplify_eq.
  unfold storeRefund in Hrun. cbv zeta in Hrun. change (transactionTime now None) with now in Hrun.
  tx_inv Hrun. apply insertInbox_fresh in Hs as [-> ->]; [|done]. cbv beta iota delta [negb] in Hrun.
  rewrite dead_letter_conflict_run in Hrun. set (t1 := Txn _ _) in Hrun.
  assert (Inv (working t1)) as HI1 by (by apply (Inv_frame d)).
  assert (payment_join (ref_PaymentID refund) (working t1) = Some (p, s)) as Hj1 by done.
  destruct (applyRefund meta refund now ev t1) as [[b|e] t2] eqn:Ha.
  - destruct (applyRefund_ok _ _ _ _ _ _ _ _ _ HI1 Hj1 Hm Href Ha) as [-> (s' & Hp & Hs' & Hid & Hrec & Hev)].
    simpl in Hrun. unfold markInboxProcessed in Hrun. rewrite !run_modify in Hrun.
    injection Hrun as <-. simpl. split; [exact Hp|]. exists s'. by split_and!.
  - destruct (applyRefund_run _ _ _ _ _ _ _ HI1 Ha) as [_ Hc]. case_decide as He; [|done].
    destruct (Hc He) as [_ (p' & s'' & Hj' & Hcl)]. rewrite Hj1 in Hj'. injection Hj' as <- <-.
    destruct Hcl as [Hcl|[Hcl _]]; [done|congruence].
Qed.
Lemma StoreRefund_effect_witness :
  let d := exec_all [pay_op "1" 0 day day] empty_db in
  let d' := snd (StoreRefund (2 * day) "ev-ref" (sample_meta "r1" 5 "billing.refund.succeeded.v1")
    (sample_refund "1" (2 * day)) d) in
  exists s', subscriptions d' !! "sub1" = Some s' /\ recalculated d' (2 * day) s'.
Proof.
  intros d d'.
  pose (p0 := MkPeriod "" "" "" "" "" "" 0 0 0 "" 0 0 0 0 0 0 false None None).
  pose (s0 := MkSubRow "sub1" "" Pending None None None None None 0 0 0).
  pose (ps := default (p0, s0) (payment_join "pay1" d)).
  destruct (StoreRefund_effect (2 * day) "ev-ref" (sample_meta "r1" 5 "billing.refund.succeeded.v1")
    (sample_refund "1" (2 * day)) d d' (fst ps) (snd ps)) as (_ & s' & Hs & _ & Hrec & _).
  - exists [pay_op "1" 0 day day]. reflexivity.
  - vm_compute. reflexivity.
  - vm_compute. reflexivity.
  - vm_compute. reflexivity.
  - vm_compute. repeat split.
  - vm_compute. reflexivity.
  - exists s'. split; [exact Hs | exact Hrec].
Defined.

(** A refund that contradicts what is stored (another user, order or
    amount, or a second refund of a refunded period) is never half applied:
    the event is dead-lettered under its source position and the
    subscriptions, periods and outbox stay as they were. *)
Theorem StoreRefund_conflict now ev meta refund d d' :
  reachable d -> StoreRefund now ev meta refund d = (Ok tt, d') ->
  inbox d !! meta_EventID meta = None -> refund_clash refund d ->
  subscriptions d' = subscriptions d /\ periods d' = periods d /\ outbox d' = outbox d /\
  dead_letters d' !! (meta_SourceTopic meta, meta_SourcePartition meta, meta_SourceOffset meta) =
    Some (meta_PayloadSHA256 meta, "durable_state_conflict") /\
  exists r, inbox d' !! meta_EventID meta = Some r /\ i_state r = InDead /\
    i_last_error_code r = Some "durable_state_conflict".
Proof.
  intros HI%reachable_inv H Hib (p & s & Hj & Hcl). unfold StoreRefund, in_tx in H.
  destruct (storeRefund _ _ _ _ _ _) as [r t'] eqn:Hrun. simplify_eq.
  unfold storeRefund in Hrun. cbv zeta in Hrun. change (transactionTime now None) with now in Hrun.
  tx_inv Hrun. apply insertInbox_fresh in Hs as [-> ->]; [|done]. cbv beta iota delta [negb] in Hrun.
  rewrite dead_letter_conflict_run in Hrun. set (t1 := Txn _ _) in Hrun.
  assert (applyRefund meta refund now ev t1 = (Err ErrConflict, t1)) as Ha.
  { unfold applyRefund. rewrite run_get. change (payment_join _ (working t1)) with (payment_join (ref_PaymentID refund) d).
    rewrite Hj. case_bool_decide as Hm; [|done]. destruct Hcl as [Hcl|[Hr Hid]]; [by destruct Hcl|].
    by rewrite Hr, bool_decide_eq_false_2. }
  rewrite Ha, decide_True in Hrun by done. unfold deadLetterInbox in Hrun.
  tx_inv Hrun. rewrite run_get, run_modify in Hs. simpl in Hs. rewrite lookup_insert, decide_True in Hs by done.
  simpl in Hs. destruct (dead_letters d !! _); [done|]. injection Hs as <- <-. injection Hrun as <-. simpl.
  rewrite lookup_insert, decide_True, lookup_alter, decide_True, lookup_insert, decide_True by done.
  split_and!; try done. by eexists.
Qed.
Lemma StoreRefund_conflict_witness :
  let d := exec_all [pay_op "1" 0 day day; refund_op "1" 1 (2 * day)] empty_db in
  let again := MkRefund "other" "pay1" "ord1" "u1" 500 "USD" "full" (3 * day) in
  let d' := snd (StoreRefund (3 * day) "ev-ref" (sample_meta "r2" 5 "billing.refund.succeeded.v1") again d) in
  subscriptions d' = subscriptions d.
Proof.
  intros d again d'.
  apply (StoreRefund_conflict (3 * day) "ev-ref" (sample_meta "r2" 5 "billing.refund.succeeded.v1") again d d').
  - exists [pay_op "1" 0 day day; refund_op "1" 1 (2 * day)]. reflexivity.
  - vm_compute. reflexivity.
  - vm_compute. reflexivity.
  - eexists _, _. split; [vm_compute; reflexivity|]. right. split; [reflexivity|].
    intros H. discriminate H.
Defined.

(** ** Leases and delivery *)

(** Leases exclude: what one scheduler claimed, no other claims before
    the lease is over, and a claim hands out only subscriptions whose
    transition is due. *)
Theorem ClaimDue_exclusive now lease locked d s d1 now2 lease2 locked2 s2 d2 :
  reachable d -> ClaimDue now lease locked d = (Some s, d1) -> now2 < now + lease ->
  ClaimDue now2 lease2 locked2 d1 = (Some s2, d2) ->
  sub_SubscriptionID s2 <> sub_SubscriptionID s /\
  exists r n, subscriptions d !! sub_SubscriptionID s = Some r /\ s_next_transition_at r = Some n /\ n <= now.
Proof.
  intros HI%reachable_inv H1 Hlt H2. unfold ClaimDue, claimDue in *. simpl in *.
  destruct (first_by by_transition (transition_due now locked) _) as [r|] eqn:Hr; [|done].
  injection H1 as <- <-. apply first_by_Some in Hr as [Hdue (k & Hk)].
  rewrite (inv_sub_key _ HI _ _ Hk) in *.
  destruct (first_by by_transition (transition_due now2 locked2) _) as [r2|] eqn:Hr2; [|done].
  injection H2 as <- <-. apply first_by_Some in Hr2 as [Hdue2 (k2 & Hk2)]. simpl in *.
  unfold transition_due in *. rewrite !andb_true_iff in Hdue, Hdue2. split.
  - apply alter_Some in Hk2 as (r0 & Hr0 & ->). case_decide as Hkk; simpl.
    + subst k2. simpl in Hdue2. destruct Hdue2 as ((_ & Hf) & _). simpl in Hf. lia.
    + rewrite (inv_sub_key _ HI _ _ Hr0), (inv_sub_key _ HI _ _ Hk). congruence.
  - rewrite (inv_sub_key _ HI _ _ Hk). exists r. destruct (s_next_transition_at r) as [n|]; [|naive_solver].
    exists n. split_and!; [done|done|]. lia.
Qed.
Definition pay_op_u2 : op :=
  OpPayment day "sub2" "per-u2" "out-u2" (sample_meta "u2" 9 "billing.payment.succeeded.v1")
    (MkPayment "pay-u2" "ord-u2" "u2" "plan" 500 "USD" day) (sample_order "ord-u2").
Lemma ClaimDue_exclusive_witness :
  let d := exec_all [pay_op "1" 0 day day; pay_op_u2] empty_db in
  let first := ClaimDue (31 * day) minute ∅ d in
  let second := ClaimDue (31 * day + 30) minute ∅ (snd first) in
  option_map sub_SubscriptionID (fst second) = Some "sub2" /\ "sub2" <> "sub1".
Proof.
  intros d first second. split; [vm_compute; reflexivity|].
  pose (s0 := MkSubscription "" "" Pending None None None).
  apply (ClaimDue_exclusive (31 * day) minute ∅ d (default s0 (fst first)) (snd first)
    (31 * day + 30) minute ∅ (default s0 (fst second)) (snd second)).
  - exists [pay_op "1" 0 day day; pay_op_u2]. reflexivity.
  - vm_compute. reflexivity.
  - vm_compute. reflexivity.
  - vm_compute. reflexivity.
Defined.

(** ** Administrative revocation *)

Definition revoke_recorded (key : string) (a : admin_revoke_row) (d : db) : Prop :=
  admin_revoke_requests d !! key = Some a.

Section revoke_recorded.
Context (key : string) (a : admin_revoke_row).
Let R := revoke_recorded key a.

Lemma preserves_revoke_frame f :
  (forall d, admin_revoke_requests (f d) = admin_revoke_requests d) -> preserves (E:=SubErr) R (modify f).
Proof. intros Hf. apply preserves_modify. intros d. unfold R, revoke_recorded. by rewrite Hf. Qed.
End revoke_recorded.
#[export] Hint Extern 2 (preserves (revoke_recorded _ _) (modify _)) =>
  (by apply preserves_revoke_frame) : txdb.

Lemma untouched_admin_insertOutbox ev topic sid user key corr cause at_ data :
  untouched admin_revoke_requests (insertOutbox ev topic sid user key corr cause at_ data).
Proof. unfold insertOutbox. tx_auto. Qed.
#[export] Hint Resolve untouched_admin_insertOutbox : txdb.
Lemma untouched_admin_applyRefund meta refund now ev :
  untouched admin_revoke_requests (applyRefund meta refund now ev).
Proof. unfold applyRefund, updateSubscription. tx_auto. Qed.

Lemma exec_revoke_recorded key a o d : revoke_recorded key a d -> revoke_recorded key a (snd (exec o d)).
Proof.
  intros HR. destruct o; simpl; try (apply (preserves_in_tx (revoke_recorded key a)); [|done]).
  - unfold recordPaymentReplay, insertInbox. cbv zeta. tx_auto.
  - unfold applyPayment, insertInbox, getOrCreateSubscription, insertPeriod, updateSubscription,
      insertOutbox, markInboxProcessed. cbv zeta. tx_auto.
  - unfold adminRevoke, insertOutbox. apply preserves_read. intros d0 Hd t <-.
    destruct (admin_revoke_requests (working t) !! rin_IdempotencyKey input) as [r|] eqn:Hr.
    + by destruct (bool_decide _).
    + assert (rin_IdempotencyKey input <> key) as Hne by (unfold revoke_recorded in Hd; congruence).
      match goal with |- (_ -> revoke_recorded _ _ (durable (snd (?m t)))) /\ _ =>
        assert (preserves (revoke_recorded key a) m) as Hm; [|exact (Hm t Hd)] end.
      tx_auto. apply preserves_modify. intros d1. unfold revoke_recorded. simpl.
      by rewrite lookup_insert_ne.
  - unfold storeRefund, insertInbox. cbv zeta. tx_split; [tx_auto|]. destruct (negb _); [tx_auto|].
    apply (preserves_unrelated_dead_letter_conflict _ admin_revoke_requests);
      [by unfold revoke_recorded; intros ? ? -> | apply untouched_admin_applyRefund | |];
      unfold deadLetterInbox, markInboxProcessed; intros; tx_auto.
  - unfold ClaimRefund. destruct (first_by _ _ _) as [r|]; [|done].
    destruct (i_source r) as [[[[? ?] ?] ?]|], (i_payload r); done.
  - unfold applyClaimedRefund. cbv zeta.
    apply (preserves_unrelated_dead_letter_conflict _ admin_revoke_requests);
      [by unfold revoke_recorded; intros ? ? -> | apply untouched_admin_applyRefund | |];
      unfold deadLetterInbox, markInboxProcessed; intros; tx_auto.
  - unfold ClaimDue, claimDue. by destruct (first_by _ _ _).
  - unfold completeDue, insertOutbox, updateSubscription. cbv zeta. tx_auto.
  - unfold RecordDeadLetter. by destruct (dead_letters d !! _).
  - unfold ClaimOutbox. by destruct (first_by _ _ _).
  - done.
  - done.
Qed.
Lemma exec_all_revoke_recorded key a l d : revoke_recorded key a d -> revoke_recorded key a (exec_all l d).
Proof. revert d. induction l; simpl; intros d HR; auto using exec_revoke_recorded. Qed.

Lemma AdminRevoke_records now ev input d r d1 :
  AdminRevoke now ev input d = (Ok r, d1) ->
  exists a, revoke_recorded (rin_IdempotencyKey input) a d1 /\
    a_request_sha256 a = rin_RequestSHA256 input /\ a_subscription_id a = rin_SubscriptionID input /\
    a_reason_code a = rin_ReasonCode input.
Proof.
  intros (t' & Hrun & ->)%lands_in_tx; [|unfold adminRevoke; tx_auto].
  unfold adminRevoke in Hrun. rewrite run_get in Hrun. simpl in Hrun.
  destruct (admin_revoke_requests d !! _) as [a|] eqn:Ha.
  - case_bool_decide as Hb; [|done]. injection Hrun as <- <-. exists a. unfold revoke_recorded. naive_solver.
  - tx_inv Hrun. case_bool_decide; [done|]. do 3 tx_inv Hrun. tx_inv Hrun. injection Hs3 as <- <-.
    injection Hrun as <- <-. eexists. unfold revoke_recorded. simpl.
    rewrite lookup_insert, decide_True by done. by split_and!.
Qed.

(** Administrative revocation is idempotent under its key: once a request
    was answered, repeating it (whatever happened since) answers the same,
    marked as a replay, and changes nothing; the same key with another
    request is refused and changes nothing. *)
Theorem AdminRevoke_replay now ev input d r d1 l now' ev' input' :
  AdminRevoke now ev input d = (Ok r, d1) ->
  rin_IdempotencyKey input' = rin_IdempotencyKey input ->
  AdminRevoke now' ev' input' (exec_all l d1) =
    (if bool_decide (rin_RequestSHA256 input = rin_RequestSHA256 input' /\
                     rin_SubscriptionID input = rin_SubscriptionID input' /\
                     rin_ReasonCode input = rin_ReasonCode input')
     then Ok (MkRevokeResult (rin_SubscriptionID input) Revoked (rin_ReasonCode input) true)
     else Err ErrIdempotencyConflict, exec_all l d1).
Proof.
  intros (a & HR & E1 & E2 & E3)%AdminRevoke_records Hkey.
  apply (exec_all_revoke_recorded _ _ l) in HR. unfold AdminRevoke, in_tx, adminRevoke.
  rewrite run_get. simpl. unfold revoke_recorded in HR. rewrite Hkey, HR, E1, E2, E3.
  by case_bool_decide.
Qed.
Definition sample_revoke (reason : string) := MkRevokeInput "sub1" "key" "sha" "action" "corr" reason.
Lemma AdminRevoke_replay_witness :
  let d := exec_all [pay_op "1" 0 day day] empty_db in
  let d1 := snd (AdminRevoke (2 * day) "ev-admin" (sample_revoke "abuse") d) in
  let d2 := exec_all [pay_op "2" 1 (3 * day) (3 * day)] d1 in
  AdminRevoke (4 * day) "ev-2" (sample_revoke "other") d2 = (Err ErrIdempotencyConflict, d2).
Proof.
  intros d d1 d2.
  refine (AdminRevoke_replay (2 * day) "ev-admin" (sample_revoke "abuse") d
    (MkRevokeResult "sub1" Revoked "abuse" false) d1 [pay_op "2" 1 (3 * day) (3 * day)] (4 * day) "ev-2"
    (sample_revoke "other") _ _).
  - vm_compute. reflexivity.
  - reflexivity.
Defined.

(** ** Where the service does not do what it means to *)

Definition status_of (id : string) (d : db) : option Status := s_status <$> subscriptions d !! id.

(** An administrative revocation does not survive a later refund: the
    periods of a revoked subscription stay paid, so refunding one of two
    recomputes the subscription as active from the other. *)
Theorem admin_revocation_undone_by_refund :
  let revoke := OpAdminRevoke (3 * day) "ev-admin" (MkRevokeInput "sub1" "key" "sha" "action" "corr" "abuse") in
  let before := exec_all [pay_op "1" 0 day day; pay_op "2" 1 (2 * day) (2 * day); revoke] empty_db in
  let after := exec (refund_op "2" 2 (4 * day)) before in
  status_of "sub1" before = Some Revoked /\ fst after = None /\ status_of "sub1" (snd after) = Some Active.
Proof. vm_compute. repeat split. Qed.

(** A payment event that arrives after its own period has run out stops
    the scheduler: the subscription is set to expired with no next transition
    although a period already paid for is still ahead, and that period is
    never activated: at an instant it covers, nothing is due. *)
Theorem late_payment_loses_future_period :
  let d := exec_all [pay_op "1" 0 (100 * day) (100 * day); pay_op "2" 1 (101 * day) (101 * day);
                     refund_op "1" 2 (102 * day); pay_op "3" 3 (103 * day) (60 * day)] empty_db in
  let now := 135 * day in
  status_of "sub1" d = Some Expired /\
  option_map ent_Status (calculateEntitlement d "sub1" now) = Some Active /\
  ClaimDue now minute ∅ d = (None, d).
Proof. vm_compute. repeat split. Qed.

Definition short_plan := MkPlan "short" 1 0 500 "USD" "eu" 1 0.
Definition short_pay_op (n : string) (off at_ : Z) : op :=
  OpPayment at_ "sub1" ("per" +:+ n) ("out-pay" +:+ n) (sample_meta ("p" +:+ n) off "billing.payment.succeeded.v1")
    (sample_payment n at_) (MkOrder ("ord" +:+ n) "u1" "paid" 500 "USD" short_plan).

(** The deduplication key of a gap names the period after the gap, so a
    second gap before the same period cannot be reported: the transition
    fails with a conflict every time it is claimed, and the user stays active
    without a paid period until that period starts. *)
Theorem second_gap_blocks_transition :
  let l := [pay_op "1" 0 (100 * day) (100 * day); pay_op "2" 1 (101 * day) (101 * day);
            refund_op "1" 2 (102 * day);
            short_pay_op "3" 3 (103 * day); OpClaimDue (104 * day) minute ∅;
            OpCompleteDue (104 * day) "ev-gap1" "ev-x1" "sub1";
            short_pay_op "4" 4 (105 * day); OpClaimDue (106 * day) minute ∅] in
  let d := exec_all l empty_db in
  outcomes l empty_db = repeat None 8 /\
  exec (OpCompleteDue (106 * day) "ev-gap2" "ev-x2" "sub1") d = (Some ErrConflict, d) /\
  status_of "sub1" d = Some Active /\
  option_map ent_Status (calculateEntitlement d "sub1" (106 * day)) = Some Pending.
Proof. vm_compute. repeat split. Qed.
