(* ===== verification/SubscriptionService.v ===== *)
(** * subscription-service: event handlers, HTTP API and worker

    The validation and orchestration around the store:
    src/services/subscription/internal/application (service.go, worker.go) and
    src/services/subscription/internal/httpapi/handler.go. The billing service's
    answer and the publisher are arguments: they are other processes. *)

From Stdlib Require Import Ascii List.
From S2P Require Import Prelude GoStrings Sha256 Backoff.
From S2P Require Import Platform SubscriptionDomain SubscriptionStore SubscriptionInv SubscriptionSpec.

(** ** Errors *)

Inductive ServiceErr :=
  | ContractError (code : string)
  | StoreErr (e : SubErr)
  | BillingErr (what : string).
#[export] Instance ServiceErr_eq_dec : EqDecision ServiceErr.
Proof. solve_decision. Defined.

(** The code under which the consumer gives up on an event; [None] means the
    event will be retried. *)
Definition ContractErrorCode (e : ServiceErr) : option string :=
  match e with
  | ContractError code => Some code
  | StoreErr ErrConflict => Some "durable_state_conflict"
  | _ => None
  end.

(** ** Validation *)

Definition uuidPattern : string -> bool := versioned_uuid.
Definition validUUIDs (values : list string) : bool := forallb uuidPattern values.
Definition validCurrency (value : string) : bool :=
  (go_len value =? 3) && all_bytes (between "A" "Z") value.
Definition validSource (meta : EventMeta) : bool :=
  bool_decide (meta_SourceTopic meta = meta_EventType meta) && (0 <=? meta_SourcePartition meta) &&
  (0 <=? meta_SourceOffset meta) && (go_len (meta_PayloadSHA256 meta) =? 64) &&
  all_bytes (fun c => between "0" "9" c || between "a" "f" c) (meta_PayloadSHA256 meta).

Definition validatePayment (meta : EventMeta) (payment : PaymentSucceeded) : result ServiceErr unit :=
  if negb (validSource meta) then Err (ContractError "invalid_source_metadata")
  else if negb (bool_decide (meta_EventType meta = "billing.payment.succeeded.v1")) ||
          negb (validUUIDs [meta_EventID meta; meta_AggregateID meta; meta_CorrelationID meta;
                            pay_PaymentID payment; pay_OrderID payment; pay_UserID payment])
  then Err (ContractError "invalid_payment_identity")
  else if negb (bool_decide (meta_AggregateID meta = pay_PaymentID payment)) ||
          negb (meta_OccurredAt meta =? pay_PaidAt payment) || (pay_AmountMinor payment <=? 0) ||
          (go_len (pay_PlanID payment) =? 0) || (128 <? go_len (pay_PlanID payment)) ||
          negb (bool_decide (TrimSpace (pay_PlanID payment) = pay_PlanID payment)) ||
          negb (validCurrency (pay_Currency payment)) || (pay_PaidAt payment =? 0)
  then Err (ContractError "invalid_payment_data")
  else Ok tt.

Definition validateRefund (meta : EventMeta) (refund : RefundSucceeded) : result ServiceErr unit :=
  if negb (validSource meta) then Err (ContractError "invalid_source_metadata")
  else if negb (bool_decide (meta_EventType meta = "billing.refund.succeeded.v1")) ||
          negb (validUUIDs [meta_EventID meta; meta_AggregateID meta; meta_CorrelationID meta;
                            ref_RefundID refund; ref_PaymentID refund; ref_OrderID refund; ref_UserID refund])
  then Err (ContractError "invalid_refund_identity")
  else if negb (bool_decide (meta_AggregateID meta = ref_RefundID refund)) ||
          negb (meta_OccurredAt meta =? ref_RefundedAt refund) ||
          negb (bool_decide (ref_RefundScope refund = "full")) || (ref_AmountMinor refund <=? 0) ||
          negb (validCurrency (ref_Currency refund)) || (ref_RefundedAt refund =? 0)
  then Err (ContractError "invalid_refund_data")
  else Ok tt.

Definition validateOrder (payment : PaymentSucceeded) (order : Order) : result ServiceErr unit :=
  let snapshot := ord_PlanSnapshot order in
  if negb (bool_decide (ord_OrderID order = pay_OrderID payment)) ||
     negb (bool_decide (ord_UserID order = pay_UserID payment)) ||
     negb (bool_decide (ord_Status order = "paid")) ||
     negb (ord_AmountMinor order =? pay_AmountMinor payment) ||
     negb (bool_decide (ord_Currency order = pay_Currency payment)) ||
     negb (bool_decide (plan_PlanID snapshot = pay_PlanID payment)) ||
     negb (plan_AmountMinor snapshot =? pay_AmountMinor payment) ||
     negb (bool_decide (plan_Currency snapshot = pay_Currency payment))
  then Err (ContractError "billing_order_mismatch")
  else if (plan_DurationDays snapshot <? 1) || (3650 <? plan_DurationDays snapshot) ||
          (plan_GracePeriodHours snapshot <? 0) || (720 <? plan_GracePeriodHours snapshot) ||
          (go_len (TrimSpace (plan_Region snapshot)) <? 2) || (64 <? go_len (plan_Region snapshot)) ||
          negb (bool_decide (TrimSpace (plan_Region snapshot) = plan_Region snapshot)) ||
          (plan_PrimaryNodes snapshot <? 1) || (8 <? plan_PrimaryNodes snapshot) ||
          (plan_FailoverNodes snapshot <? 0) || (8 <? plan_FailoverNodes snapshot) ||
          (8 <? int64 (plan_PrimaryNodes snapshot + plan_FailoverNodes snapshot))
  then Err (ContractError "invalid_order_snapshot")
  else Ok tt.

(** ** Handlers *)

Definition lift_store {A} (rd : result SubErr A * db) : result ServiceErr A * db :=
  match rd with
  | (Ok a, d) => (Ok a, d)
  | (Err e, d) => (Err (StoreErr e), d)
  end.

(** What one delivery draws from outside: the clock of each transaction, the
    identifiers of the rows it may create, and billing's answer. *)
Record env := MkEnv {
  env_clock1 : Z;
  env_clock2 : Z;
  env_sub : string;
  env_period : string;
  env_event : string;
  env_GetOrder : string -> string -> result string Order
}.

Definition HandlePayment (e : env) (meta : EventMeta) (payment : PaymentSucceeded) (d : db)
    : result ServiceErr unit * db :=
  match validatePayment meta payment with
  | Err err => (Err err, d)
  | Ok _ =>
      match RecordPaymentReplay (env_clock1 e) meta payment d with
      | (Err err, d1) => (Err (StoreErr err), d1)
      | (Ok true, d1) => (Ok tt, d1)
      | (Ok false, d1) =>
          match env_GetOrder e (pay_UserID payment) (pay_OrderID payment) with
          | Err what => (Err (BillingErr what), d1)
          | Ok order =>
              match validateOrder payment order with
              | Err err => (Err err, d1)
              | Ok _ => lift_store (ApplyPayment (env_clock2 e) (env_sub e) (env_period e) (env_event e)
                                      meta payment order d1)
              end
          end
      end
  end.

Definition HandleRefund (e : env) (meta : EventMeta) (refund : RefundSucceeded) (d : db)
    : result ServiceErr unit * db :=
  match validateRefund meta refund with
  | Err err => (Err err, d)
  | Ok _ => lift_store (StoreRefund (env_clock1 e) (env_event e) meta refund d)
  end.

(** ** Worker *)

Definition reconcileRefund (clock1 clock2 lease retryDelay : Z) (locked : gset string) (newEvent : string) (d : db)
    : result SubErr unit * db :=
  match ClaimRefund clock1 lease locked d with
  | (Err e, d1) => (Err e, d1)
  | (Ok None, d1) => (Ok tt, d1)
  | (Ok (Some work), d1) =>
      ApplyClaimedRefund clock2 (RetryBackoff retryDelay (work_Attempts work)) newEvent work d1
  end.

Definition advanceLifecycle (clock1 clock2 lease : Z) (locked : gset string) (ev1 ev2 : string) (d : db)
    : result SubErr unit * db :=
  match ClaimDue clock1 lease locked d with
  | (None, d1) => (Ok tt, d1)
  | (Some s, d1) => CompleteDue clock2 ev1 ev2 (sub_SubscriptionID s) d1
  end.

(** [publish] is the outcome of handing the message to Kafka. *)
Definition publishOutbox (clock1 clock2 lease retryDelay : Z) (locked : gset string)
    (publish : outbox_row -> bool) (d : db) : db :=
  match ClaimOutbox clock1 lease locked d with
  | (None, d1) => d1
  | (Some message, d1) =>
      if publish message then CompleteOutbox clock2 (o_event_id message) d1
      else RetryOutbox clock2 (RetryBackoff retryDelay (o_attempts message)) (o_event_id message) d1
  end.

(** ** HTTP API *)

Inductive response (A : Type) :=
  | OK (body : A)
  | Failure (status : Z) (code : string).
Arguments OK {A} body.
Arguments Failure {A} status code.

Definition http_GetSubscription (user_id : string) (d : db) : response Subscription :=
  let userID := TrimSpace user_id in
  if negb (uuidPattern userID) then Failure 400 "invalid_user_id"
  else match GetSubscription userID d with
       | Ok s => OK s
       | Err ErrNotFound => Failure 404 "subscription_not_found"
       | Err _ => Failure 500 "subscription_unavailable"
       end.

Definition http_GetPlacement (now : Z) (subscription_id : string) (d : db) : response Placement :=
  let subscriptionID := TrimSpace subscription_id in
  if negb (uuidPattern subscriptionID) then Failure 400 "invalid_subscription_id"
  else match GetPlacement now subscriptionID d with
       | Ok p => OK p
       | Err ErrNotFound => Failure 404 "placement_not_found"
       | Err _ => Failure 500 "placement_unavailable"
       end.

Definition key_byte (c : ascii) : bool :=
  between "A" "Z" c || between "a" "z" c || digit c || Ascii.eqb c "." || Ascii.eqb c "_" ||
  Ascii.eqb c ":" || Ascii.eqb c "-".
(** [^[A-Za-z0-9][A-Za-z0-9._:-]{7,127}$] *)
Definition keyPattern (s : string) : bool :=
  match s with
  | EmptyString => false
  | String c s' => (between "A" "Z" c || between "a" "z" c || digit c) && all_bytes key_byte s' &&
                   (7 <=? go_len s') && (go_len s' <=? 127)
  end.
Definition validAdminReason (reason : string) : bool :=
  bool_decide (reason = "admin_block" \/ reason = "abuse" \/ reason = "deleted").

Definition maxAdminRevokeBodyBytes : Z := 8192.

Section revoke_endpoint.
(** The strict JSON decoder applied to the request's three fields
    [(action_id, correlation_id, reason_code)]: [None] when it rejects the
    body. *)
Context (decode : string -> option (string * string * string)).

Definition decodeStrict (body : string) : option (string * string * string) :=
  if maxAdminRevokeBodyBytes <? go_len body then None else decode body.

Definition newline : string := byte_string [10%nat].

Definition http_AdminRevoke (now : Z) (newEvent subscription_id idempotency_key body : string) (d : db)
    : response AdminRevokeResult * db :=
  let subscriptionID := TrimSpace subscription_id in
  let idempotencyKey := TrimSpace idempotency_key in
  let invalid := (Failure 400 "invalid_request", d) in
  if negb (uuidPattern subscriptionID) || negb (keyPattern idempotencyKey) then invalid
  else match decodeStrict body with
  | None => invalid
  | Some (action, correlation, reason) =>
      let actionID := TrimSpace action in
      let correlationID := TrimSpace correlation in
      let reasonCode := TrimSpace reason in
      if negb (uuidPattern actionID) || negb (uuidPattern correlationID) || negb (validAdminReason reasonCode)
      then invalid
      else
        let hash := sha256_hex ("subscription.revoke" +:+ newline +:+ subscriptionID +:+ newline +:+ actionID
                      +:+ newline +:+ correlationID +:+ newline +:+ reasonCode)%string in
        match AdminRevoke now newEvent
                (MkRevokeInput subscriptionID idempotencyKey hash actionID correlationID reasonCode) d with
        | (Ok r, d1) => (OK r, d1)
        | (Err ErrNotFound, d1) => (Failure 404 "subscription_not_found", d1)
        | (Err ErrIdempotencyConflict, d1) => (Failure 409 "idempotency_conflict", d1)
        | (Err ErrAdminRevokeNotAllowed, d1) => (Failure 409 "revoke_not_allowed", d1)
        | (Err _, d1) => (Failure 500 "revoke_failed", d1)
        end
  end.
End revoke_endpoint.
