(* ===== verification/SubscriptionConsumer.v ===== *)
(** * subscription-service: the Kafka consumer

    src/services/subscription/internal/kafka/consumer.go: one poll of the
    consumer loop with its commits, rewinds and dead letters, and what it
    guarantees end to end. The strict JSON decoders of the envelope and of
    the two payloads are parameters. *)

From Stdlib Require Import Ascii List.
From S2P Require Import Prelude GoStrings Sha256 Platform SubscriptionDomain.
From S2P Require Import SubscriptionStore SubscriptionInv SubscriptionSpec SubscriptionPayments SubscriptionService.

Record kafka_record := MkRecord {
  rec_topic : string;
  rec_partition : Z;
  rec_offset : Z;
  rec_key : string;
  rec_value : string
}.

(** The calls the loop makes on its Kafka client. *)
Inductive client_call :=
  | CommitRecords (r : kafka_record) (ok : bool)
  | SetOffsets (offsets : gmap (string * Z) Z)
  | AllowRebalance.

(** Per record: was the context cancelled when its turn came, what its
    processing draws, does recording a dead letter and committing the offset
    work, is the context still alive after a failure. *)
Record turn := MkTurn {
  t_record : kafka_record;
  t_cancelled : bool;
  t_env : env;
  t_dead_letter_ok : bool;
  t_commit_ok : bool;
  t_alive : bool
}.

(** The smallest offset per partition: where consumption resumes. *)
Definition rewind (records : list kafka_record) : gmap (string * Z) Z :=
  fold_left (fun offsets r =>
    match offsets !! (rec_topic r, rec_partition r) with
    | Some current => if rec_offset r <? current
                      then <[(rec_topic r, rec_partition r) := rec_offset r]> offsets else offsets
    | None => <[(rec_topic r, rec_partition r) := rec_offset r]> offsets
    end) records ∅.

Section consumer.
Context (decode_envelope : string -> option (Envelope string))
        (decode_payment : string -> option PaymentSucceeded)
        (decode_refund : string -> option RefundSucceeded).

Definition meta_of (env : Envelope string) (r : kafka_record) : EventMeta :=
  MkEventMeta (env_EventID env) (env_EventType env) (env_AggregateID env) (env_CorrelationID env)
    (env_CausationID env) (env_OccurredAt env) (rec_topic r) (rec_partition r) (rec_offset r)
    (sha256_hex (rec_value r)).

Definition process (e : env) (r : kafka_record) (d : db) : result ServiceErr unit * db :=
  match decode_envelope (rec_value r) with
  | None => (Err (ContractError "invalid_envelope"), d)
  | Some envelope =>
      if negb (env_SchemaVersion envelope =? 1) ||
         negb (bool_decide (env_EventType envelope = rec_topic r)) ||
         negb (bool_decide (env_Producer envelope = "billing-service")) ||
         negb (bool_decide (env_PartitionKey envelope = rec_key r))
      then (Err (ContractError "invalid_envelope_metadata"), d)
      else
        let meta := meta_of envelope r in
        if bool_decide (rec_topic r = "billing.payment.succeeded.v1") then
          if negb (bool_decide (env_AggregateType envelope = "payment"))
          then (Err (ContractError "invalid_payment_aggregate"), d)
          else match decode_payment (env_Data envelope) with
               | None => (Err (ContractError "invalid_payment_payload"), d)
               | Some payment =>
                   if negb (bool_decide (env_PartitionKey envelope = "user:" +:+ pay_UserID payment)%string)
                   then (Err (ContractError "invalid_payment_payload"), d)
                   else HandlePayment e meta payment d
               end
        else if bool_decide (rec_topic r = "billing.refund.succeeded.v1") then
          if negb (bool_decide (env_AggregateType envelope = "refund"))
          then (Err (ContractError "invalid_refund_aggregate"), d)
          else match decode_refund (env_Data envelope) with
               | None => (Err (ContractError "invalid_refund_payload"), d)
               | Some refund =>
                   if negb (bool_decide (env_PartitionKey envelope = "user:" +:+ ref_UserID refund)%string)
                   then (Err (ContractError "invalid_refund_payload"), d)
                   else HandleRefund e meta refund d
               end
        else (Err (ContractError "unsupported_event_type"), d)
  end.

Fixpoint poll_loop (turns : list turn) (alive : bool) (d : db) : bool * db * list client_call :=
  match turns with
  | [] => (alive, d, [])
  | t :: rest =>
      let again := SetOffsets (rewind (map t_record turns)) in
      if t_cancelled t then (false, d, [again])
      else
        let r := t_record t in
        let '(res, d1) := process (t_env t) r d in
        let handled :=
          match res with
          | Ok _ => Some d1
          | Err err =>
              match ContractErrorCode err with
              | Some code => if t_dead_letter_ok t
                             then Some (RecordDeadLetter (rec_topic r) (rec_partition r) (rec_offset r)
                                          (sha256_hex (rec_value r)) code d1)
                             else None
              | None => None
              end
          end in
        match handled with
        | None => (t_alive t, d1, [again])
        | Some d2 =>
            if t_commit_ok t then
              let '(keep, d3, calls) := poll_loop rest alive d2 in
              (keep, d3, CommitRecords r true :: calls)
            else (t_alive t, d2, [CommitRecords r false; again])
        end
  end.

(** [alive]: the context after the last record. [AllowRebalance] is
    deferred. *)
Definition pollOnce (turns : list turn) (alive : bool) (d : db) : bool * db * list client_call :=
  let '(keep, d', calls) := poll_loop turns alive d in (keep, d', calls ++ [AllowRebalance]).

(** ** Every record is a sequence of store operations *)

Definition is_run (d d' : db) : Prop := exists l, d' = exec_all l d.
Lemma is_run_refl d : is_run d d.
Proof. by exists []. Qed.
Lemma exec_all_app l1 l2 d : exec_all (l1 ++ l2) d = exec_all l2 (exec_all l1 d).
Proof. revert d. induction l1; simpl; intros d; auto. Qed.
Lemma is_run_trans d1 d2 d3 : is_run d1 d2 -> is_run d2 d3 -> is_run d1 d3.
Proof. intros [l1 ->] [l2 ->]. exists (l1 ++ l2). by rewrite exec_all_app. Qed.
Lemma is_run_exec o d : is_run d (snd (exec o d)).
Proof. by exists [o]. Qed.

Lemma HandlePayment_run e meta pay d : is_run d (snd (HandlePayment e meta pay d)).
Proof.
  unfold HandlePayment. destruct (validatePayment meta pay); [|apply is_run_refl].
  pose proof (is_run_exec (OpReplay (env_clock1 e) meta pay) d) as H1. simpl in H1.
  destruct (RecordPaymentReplay (env_clock1 e) meta pay d) as [[[]|err] d1]; simpl in *; [done| |done].
  destruct (env_GetOrder e _ _) as [ord|]; [|done]. destruct (validateOrder pay ord); [|done].
  pose proof (is_run_exec (OpPayment (env_clock2 e) (env_sub e) (env_period e) (env_event e) meta pay ord) d1) as H2.
  simpl in H2. destruct (ApplyPayment _ _ _ _ _ _ _ d1) as [[?|?] d2]; simpl in *; by eapply is_run_trans.
Qed.
Lemma HandleRefund_run e meta ref d : is_run d (snd (HandleRefund e meta ref d)).
Proof.
  unfold HandleRefund. destruct (validateRefund meta ref); [|apply is_run_refl].
  pose proof (is_run_exec (OpStoreRefund (env_clock1 e) (env_event e) meta ref) d) as H1. simpl in H1.
  by destruct (StoreRefund _ _ _ _ d) as [[?|?] d2].
Qed.
Lemma process_run e r d : is_run d (snd (process e r d)).
Proof.
  unfold process. cbv zeta.
  repeat (case_match; try apply is_run_refl); first [apply HandlePayment_run | apply HandleRefund_run].
Qed.
Lemma RecordDeadLetter_run t p o h c d : is_run d (RecordDeadLetter t p o h c d).
Proof. apply (is_run_exec (OpDeadLetter t p o h c)). Qed.
End consumer.

(** ** What a payment bought stays bought *)

Definition bought (pay : PaymentSucceeded) (d : db) : Prop :=
  exists k p s, periods d !! k = Some p /\ subscriptions d !! p_subscription_id p = Some s /\
    p_source_payment_id p = pay_PaymentID pay /\ s_user_id s = pay_UserID pay /\
    p_source_order_id p = pay_OrderID pay /\ p_plan_id p = pay_PlanID pay /\
    p_amount_minor p = pay_AmountMinor pay /\ p_currency p = pay_Currency pay /\ p_paid_at p = pay_PaidAt pay.

Section bought.
Context (pay : PaymentSucceeded).
Let B := bought pay.

Lemma preserves_bought_frame f :
  (forall d, periods (f d) = periods d /\ subscriptions (f d) = subscriptions d) ->
  preserves (E:=SubErr) B (modify f).
Proof.
  intros Hf. apply preserves_modify. intros d (k & p & s & H). exists k, p, s.
  destruct (Hf d) as [E1 E2]. by rewrite E1, E2.
Qed.
Lemma bought_sub_update d (m : table subscription_row) :
  (forall k s, subscriptions d !! k = Some s -> exists s', m !! k = Some s' /\ s_user_id s' = s_user_id s) ->
  B d -> B (set_subscriptions (fun _ => m) d).
Proof.
  intros Hm (k & p & s & Hp & Hs & H1 & H2 & H3). destruct (Hm _ _ Hs) as (s' & Hs' & E).
  exists k, p, s'. rewrite E. tauto.
Qed.
Lemma preserves_bought_alter_sub f id : sub_neutral f -> preserves (E:=SubErr) B (modify (set_subscriptions (alter f id))).
Proof.
  intros Hf. apply preserves_modify. intros d. apply (bought_sub_update d (alter f id (subscriptions d))).
  intros k s Hk. exists (if decide (id = k) then f s else s). split; [apply alter_Some; eauto|].
  case_decide; [apply Hf | done].
Qed.
Lemma preserves_bought_insertOutbox ev topic sid user key corr cause at_ data :
  preserves B (insertOutbox ev topic sid user key corr cause at_ data).
Proof.
  intros t Hw. destruct (insertOutbox _ _ _ _ _ _ _ _ _ t) as [r t'] eqn:Hr.
  apply insertOutbox_run in Hr as [Hd Hr]. simpl. rewrite Hd. split; [done|].
  destruct r as [[]|]; [|done]. intros _. destruct Hr as (s & Hs & _ & _ & ->).
  assert (B (set_subscriptions (fun _ => <[sid := bump_sequence s]> (subscriptions (working t))) (working t))) as H.
  { apply bought_sub_update; [|done]. intros k s' Hk. rewrite lookup_insert. case_decide; [|by eauto].
    subst. rewrite Hs in Hk. simplify_eq. eexists. split; [done|]. done. }
  exact H.
Qed.
Lemma preserves_bought_getOrCreate id user now : preserves B (getOrCreateSubscription id user now).
Proof.
  apply preserves_read. intros d Hd t <-. destruct (subscription_of_user user _); [done|].
  unfold check. destruct (bool_decide _) eqn:Hb; [|done]. rewrite bool_decide_eq_true in Hb.
  simpl. split; [done|]. intros _.
  apply (bought_sub_update (working t) (<[id := _]> (subscriptions (working t)))); [|done].
  intros k s Hk. exists s. split; [|done]. rewrite lookup_insert_ne; [done|]. congruence.
Qed.
Lemma preserves_bought_insertPeriod row : preserves B (insertPeriod row).
Proof.
  apply preserves_read. intros d Hd t <-. unfold check.
  destruct (unique_period row _) eqn:Hu; [|done]. destruct (period_checks row); [|done].
  simpl. split; [done|]. intros _. apply andb_true_iff in Hu as [_ Hid]. rewrite bool_decide_eq_true in Hid.
  destruct Hd as (k & p & s & Hp & H). exists k, p, s. split; [|done]. simpl.
  rewrite lookup_insert_ne; [done|]. congruence.
Qed.
Lemma preserves_bought_refunded rid at_ k :
  preserves (E:=SubErr) B (modify (set_periods (alter (set_refunded rid at_) k))).
Proof.
  apply preserves_modify. intros d (k' & p & s & Hp & H).
  exists k', (if decide (k = k') then set_refunded rid at_ p else p), s. split; [apply alter_Some; eauto|].
  by case_decide.
Qed.
End bought.
#[export] Hint Resolve preserves_bought_insertOutbox preserves_bought_getOrCreate preserves_bought_insertPeriod
  preserves_bought_refunded : txdb.
#[export] Hint Extern 2 (preserves (bought _) (modify _)) =>
  first [by apply preserves_bought_frame | by apply preserves_bought_alter_sub] : txdb.

Lemma preserves_bought_insertInbox pay now m p u pl st : preserves (bought pay) (insertInbox now m p u pl st).
Proof. unfold insertInbox. tx_auto. Qed.
Lemma preserves_bought_deadLetter pay ev now reason : preserves (bought pay) (deadLetterInbox ev now reason).
Proof. unfold deadLetterInbox. tx_auto. Qed.
Lemma preserves_bought_mark pay ev now : preserves (bought pay) (markInboxProcessed ev now).
Proof. by apply preserves_bought_frame. Qed.
Lemma preserves_bought_update pay id st s e g n now :
  preserves (bought pay) (updateSubscription id st s e g n now).
Proof. unfold updateSubscription. tx_auto. Qed.
#[export] Hint Resolve preserves_bought_insertInbox preserves_bought_deadLetter preserves_bought_mark
  preserves_bought_update : txdb.

(** The dead-letter path only ever commits what was there before the refund. *)
Lemma preserves_with_Inv_dead_letter_conflict (J : db -> Prop) meta refund now ev id (k : bool -> sub_tx unit) :
  preserves J (applyRefund meta refund now ev) ->
  preserves J (deadLetterInbox id now "durable_state_conflict" ;;; commit) ->
  (forall b, preserves J (k b)) -> forall t, Inv (working t) -> J (working t) ->
  let '(r, t') := dead_letter_conflict id now (applyRefund meta refund now ev) k t in
  (J (durable t) -> J (durable t')) /\ (is_ok r = true -> J (working t')).
Proof.
  intros Ha Hdead Hk t HI HJ. rewrite dead_letter_conflict_run. pose proof (Ha t HJ) as Hat.
  destruct (applyRefund meta refund now ev t) as [r t1] eqn:Hr. simpl in Hat.
  apply applyRefund_run in Hr as [Hd Hr]; [|done]. rewrite <- Hd. destruct r as [b|e].
  - specialize (Hk b t1 (proj2 Hat eq_refl)). by destruct (k b t1).
  - case_decide as He; [|done]. destruct (Hr He) as [Hw _].
    specialize (Hdead t1). rewrite Hw in Hdead. specialize (Hdead HJ). by destruct ((_ ;;; commit) t1).
Qed.
Lemma preserves_bought_applyRefund pay meta refund now ev : preserves (bought pay) (applyRefund meta refund now ev).
Proof. unfold applyRefund. tx_auto. Qed.

Lemma in_tx_keeps {A} (J : db -> Prop) (m : sub_tx A) d :
  (let '(r, t') := m (Txn d d) in (J d -> J (durable t')) /\ (is_ok r = true -> J (working t'))) ->
  J d -> J (snd (in_tx m d)).
Proof. unfold in_tx. destruct (m (Txn d d)) as [r t]. intros [H _] HJ. by apply H. Qed.

(** The two handlers whose error path commits. *)
Lemma storeRefund_bought pay clock meta ref o ev d :
  Inv d -> bought pay d -> bought pay (snd (in_tx (storeRefund clock meta ref o ev) d)).
Proof.
  intros HI HB. apply in_tx_keeps; [|done]. unfold storeRefund. cbv zeta. unfold bind at 1.
  pose proof (preserves_bought_insertInbox pay (transactionTime clock o) meta (ref_PaymentID ref)
    (ref_UserID ref) (Some ref) InPending (Txn d d) HB) as [HB1d HB1].
  pose proof (preserves_insertInbox (transactionTime clock o) meta (ref_PaymentID ref)
    (ref_UserID ref) (Some ref) InPending (Txn d d) HI) as [_ HI1].
  destruct (insertInbox _ _ _ _ _ _ _) as [[b|e] t1]; simpl in *; [|by split].
  destruct b; simpl; [|by split; auto].
  pose proof (preserves_with_Inv_dead_letter_conflict (bought pay) meta ref (transactionTime clock o) ev
    (meta_EventID meta) (fun applied => when applied (markInboxProcessed (meta_EventID meta)
      (transactionTime clock o)) ;;; commit) (preserves_bought_applyRefund _ _ _ _ _)) as H.
  specialize (H ltac:(tx_auto) ltac:(intros; cbv beta; tx_auto) t1 (HI1 eq_refl) (HB1 eq_refl)).
  destruct (dead_letter_conflict _ _ _ _ t1) as [r t2]. destruct H as [H1 H2]. split; [|done].
  intros _. apply H1. by apply HB1d.
Qed.
Lemma applyClaimedRefund_bought pay clock work delay o ev d :
  Inv d -> bought pay d -> bought pay (snd (in_tx (applyClaimedRefund clock work delay o ev) d)).
Proof.
  intros HI HB. apply in_tx_keeps; [|done]. unfold applyClaimedRefund. cbv zeta.
  apply preserves_with_Inv_dead_letter_conflict; try done; [apply preserves_bought_applyRefund|tx_auto|].
  intros b. cbv beta. tx_auto.
Qed.

Lemma exec_bought pay o d : Inv d -> bought pay d -> bought pay (snd (exec o d)).
Proof.
  intros HI HB. destruct o; simpl;
    [ | | | by apply storeRefund_bought | | by apply applyClaimedRefund_bought | | | | | | ];
    try (apply (preserves_in_tx (bought pay)); [|done]).
  - unfold recordPaymentReplay. cbv zeta. tx_auto.
  - unfold applyPayment. cbv zeta. tx_auto.
  - unfold adminRevoke. tx_auto.
  - unfold ClaimRefund. destruct (first_by _ _ _) as [r|]; [|done].
    destruct (i_source r) as [[[[? ?] ?] ?]|], (i_payload r); done.
  - unfold ClaimDue, claimDue. destruct (first_by _ _ _) as [s|]; [|done].
    by apply (preserves_in_tx (E:=SubErr) (bought pay)
      (modify (set_subscriptions (alter (claim_transition (default clock None + lease)) (s_id s))) ;;; commit));
      [tx_auto|].
  - unfold completeDue. cbv zeta. tx_auto.
  - unfold RecordDeadLetter. by destruct (dead_letters d !! _).
  - unfold ClaimOutbox. by destruct (first_by _ _ _).
  - done.
  - done.
Qed.
Lemma exec_all_bought pay l d : Inv d -> bought pay d -> bought pay (exec_all l d).
Proof. revert d. induction l; simpl; intros d HI HB; auto using exec_bought, exec_Inv. Qed.

(** With the invariant, the period found by payment is the one bought. *)
Lemma bought_join pay d :
  Inv d -> bought pay d -> exists p s, payment_join (pay_PaymentID pay) d = Some (p, s) /\
    s_user_id s = pay_UserID pay /\ p_source_order_id p = pay_OrderID pay /\ p_plan_id p = pay_PlanID pay /\
    p_amount_minor p = pay_AmountMinor pay /\ p_currency p = pay_Currency pay /\ p_paid_at p = pay_PaidAt pay.
Proof.
  intros HI (k & p & s & Hp & Hs & Hpay & H). exists p, s. split; [|done].
  unfold payment_join. destruct (period_of_payment _ d) as [q|] eqn:Hq.
  - apply find_row_Some in Hq as [Hb (k' & Hk')]. rewrite bool_decide_eq_true in Hb.
    assert (k' = k) as -> by (eapply (inv_payment _ HI); eauto; congruence).
    assert (q = p) as -> by congruence. by rewrite Hs.
  - unfold period_of_payment in Hq. rewrite find_row_None in Hq. specialize (Hq k p Hp).
    by rewrite bool_decide_eq_false in Hq.
Qed.

(** ** Payments end to end *)

Lemma validateOrder_bounds pay ord u :
  validateOrder pay ord = Ok u ->
  1 <= plan_DurationDays (ord_PlanSnapshot ord) <= 3650 /\ 0 <= plan_GracePeriodHours (ord_PlanSnapshot ord) <= 720.
Proof.
  unfold validateOrder. cbv zeta. destruct (_ || negb (bool_decide (plan_Currency _ = _))); [done|].
  destruct (_ || _) eqn:Hb; [done|]. intros _. rewrite !orb_false_iff in Hb. lia.
Qed.

Lemma replay_result clock meta pay d b d1 :
  RecordPaymentReplay clock meta pay d = (Ok b, d1) ->
  if b then recorded meta (pay_PaymentID pay) (pay_UserID pay) d1 /\ (Inv d -> bought pay d1)
  else d1 = d /\ payment_join (pay_PaymentID pay) d = None.
Proof.
  unfold RecordPaymentReplay, in_tx. destruct (recordPaymentReplay _ _ _ _ _) as [r t'] eqn:Hrun.
  intros [= -> <-]. unfold recordPaymentReplay in Hrun. cbv zeta in Hrun. rewrite run_get in Hrun.
  change (working (Txn d d)) with d in Hrun. destruct (payment_join _ d) as [[p s]|] eqn:Hj; [|by injection Hrun as <- <-].
  case_bool_decide as Hm; [|done]. tx_inv Hrun. pose proof (insertInbox_records _ _ _ _ _ _ _ _ _ Hs) as Hrec.
  assert (b = true) as -> by (destruct v; by injection Hrun as <- <-).
  assert (durable t' = working t') as ->
    by (revert Hrun; apply lands_bind; intros; apply lands_commit_ret).
  split.
  - revert Hrun Hrec. apply preserves_ok. tx_auto.
  - intros HI. destruct (payment_join_Some _ _ _ _ HI Hj) as (Hp & Hss & Hpid & Hsid).
    assert (bought pay d) as HB.
    { exists (p_id p), p, s. rewrite Hsid. destruct Hm as (? & ? & ? & ? & ? & ?). split_and!; auto. }
    revert Hrun. refine (fun Hrun => preserves_ok (bought pay) _ _ _ _ _ Hrun _); [tx_auto|].
    exact (preserves_ok (bought pay) _ _ _ _ (preserves_bought_insertInbox _ _ _ _ _ _ _) Hs HB).
Qed.

(** A payment event that is handled successfully and is new buys exactly
    one period, of exactly the length of the plan billing returned for the
    order (Go's durations do not wrap). The period starts where the user's
    entitlement in force ends, or when it was paid if there is none; the
    subscription's state is the one [statusAt] gives for the extended stretch;
    one event, numbered next, is appended to the outbox; the inbox row is
    closed; no other subscription changes. *)
Theorem HandlePayment_effect e meta pay d d' :
  reachable d -> HandlePayment e meta pay d = (Ok tt, d') ->
  inbox d !! meta_EventID meta = None -> payment_join (pay_PaymentID pay) d = None ->
  exists ord p s o, env_GetOrder e (pay_UserID pay) (pay_OrderID pay) = Ok ord /\
    validateOrder pay ord = Ok tt /\
    payment_effect (env_clock2 e) (env_period e) (env_event e) meta pay (ord_PlanSnapshot ord) d d' p s o.
Proof.
  intros Hreach H Hib Hj. unfold HandlePayment in H. destruct (validatePayment meta pay); [|done].
  destruct (RecordPaymentReplay _ _ _ d) as [[b|?] d1] eqn:Hr; [|done]. pose proof (replay_result _ _ _ _ _ _ Hr) as Hb.
  assert (b = false) as ->.
  { destruct b; [|done]. unfold RecordPaymentReplay, in_tx, recordPaymentReplay in Hr. cbv zeta in Hr.
    rewrite run_get in Hr. simpl in Hr. by rewrite Hj in Hr. }
  destruct Hb as [-> _]. destruct (env_GetOrder e _ _) as [ord|]; [|done].
  destruct (validateOrder pay ord) as [[]|] eqn:Hv; [|done].
  destruct (ApplyPayment _ _ _ _ _ _ _ d) as [[[]|?] d2] eqn:Ha; [|done]. injection H as <-.
  destruct (validateOrder_bounds _ _ _ Hv) as [Hd Hh].
  destruct (payment_applied _ _ _ _ _ _ _ _ _ Hreach Ha Hib Hj Hd Hh) as (p & s & o & Heff). by exists ord, p, s, o.
Qed.

Lemma effect_bought now np ne meta pay plan d d' p s o :
  payment_effect now np ne meta pay plan d d' p s o -> bought pay d'.
Proof.
  intros [Hp (H1 & H2 & H3 & H4 & H5 & H6 & H7 & H8) _ _ [Hs Hu] _ _ _ _ _]. exists np, p, s.
  rewrite Hp, lookup_insert, decide_True, H8 by done. by split_and!.
Qed.

Lemma HandlePayment_settles e meta pay d d1 :
  reachable d -> HandlePayment e meta pay d = (Ok tt, d1) -> inbox d !! meta_EventID meta = None ->
  recorded meta (pay_PaymentID pay) (pay_UserID pay) d1 /\ bought pay d1.
Proof.
  intros Hreach H Hib. pose proof (reachable_inv _ Hreach) as HI.
  destruct (payment_join (pay_PaymentID pay) d) as [[p s]|] eqn:Hj.
  - unfold HandlePayment in H. destruct (validatePayment meta pay); [|done].
    destruct (RecordPaymentReplay _ _ _ d) as [[b|?] d2] eqn:Hr; [|done].
    pose proof (replay_result _ _ _ _ _ _ Hr) as Hb. destruct b.
    + injection H as <-. destruct Hb as [Hb1 Hb2]. auto.
    + destruct Hb as [_ Hb]. congruence.
  - pose proof H as H'. unfold HandlePayment in H'. destruct (validatePayment meta pay); [|done].
    destruct (RecordPaymentReplay _ _ _ d) as [[b|?] d2] eqn:Hr; [|done].
    pose proof (replay_result _ _ _ _ _ _ Hr) as Hb. destruct b; [injection H' as <-; naive_solver|].
    destruct Hb as [-> _]. destruct (env_GetOrder e _ _) as [ord|]; [|done].
    destruct (validateOrder pay ord) as [[]|] eqn:Hv; [|done].
    destruct (ApplyPayment _ _ _ _ _ _ _ d) as [[[]|?] d2] eqn:Ha; [|done]. injection H' as <-.
    split; [by eapply ApplyPayment_records|]. destruct (validateOrder_bounds _ _ _ Hv) as [Hd Hh].
    destruct (payment_applied _ _ _ _ _ _ _ _ _ Hreach Ha Hib Hj Hd Hh) as (p & s & o & Heff).
    by eapply effect_bought.
Qed.

Lemma HandlePayment_again e meta pay d :
  Inv d -> recorded meta (pay_PaymentID pay) (pay_UserID pay) d -> bought pay d ->
  validatePayment meta pay = Ok tt -> HandlePayment e meta pay d = (Ok tt, d).
Proof.
  intros HI HR HB Hv. unfold HandlePayment. rewrite Hv.
  destruct (bought_join pay d HI HB) as (p & s & Hj & H1 & H2 & H3 & H4 & H5 & H6).
  assert (RecordPaymentReplay (env_clock1 e) meta pay d = (Ok true, d)) as ->; [|done].
  unfold RecordPaymentReplay, in_tx, recordPaymentReplay. cbv zeta. rewrite run_get. change (working (Txn d d)) with d. rewrite Hj.
  rewrite bool_decide_eq_true_2 by (by split_and!).
  by rewrite (bind_ok _ _ _ _ _ (insertInbox_recorded _ _ _ _ _ _ (Txn d d) HR)).
Qed.

(** ** Dead letters are kept *)

Definition dead_lettered (k : string * Z * Z) (d : db) : Prop := is_Some (dead_letters d !! k).

Lemma preserves_dead_frame k f :
  (forall d, dead_letters (f d) = dead_letters d) -> preserves (E:=SubErr) (dead_lettered k) (modify f).
Proof. intros Hf. apply preserves_modify. intros d. unfold dead_lettered. by rewrite Hf. Qed.
#[export] Hint Extern 2 (preserves (dead_lettered _) (modify _)) => (by apply preserves_dead_frame) : txdb.
Lemma preserves_dead_deadLetter k ev now reason : preserves (dead_lettered k) (deadLetterInbox ev now reason).
Proof.
  unfold deadLetterInbox. tx_auto. apply preserves_modify. intros d Hd. unfold dead_lettered in *. simpl.
  rewrite lookup_insert. by case_decide.
Qed.
Lemma preserves_dead_insertOutbox k ev topic sid user key corr cause at_ data :
  preserves (dead_lettered k) (insertOutbox ev topic sid user key corr cause at_ data).
Proof. unfold insertOutbox. tx_auto. Qed.
Lemma preserves_dead_insertInbox k now m p u pl st : preserves (dead_lettered k) (insertInbox now m p u pl st).
Proof. unfold insertInbox. tx_auto. Qed.
#[export] Hint Resolve preserves_dead_deadLetter preserves_dead_insertOutbox preserves_dead_insertInbox : txdb.

Lemma untouched_dead_insertOutbox ev topic sid user key corr cause at_ data :
  untouched dead_letters (insertOutbox ev topic sid user key corr cause at_ data).
Proof. unfold insertOutbox. tx_auto. Qed.
#[export] Hint Resolve untouched_dead_insertOutbox : txdb.
Lemma untouched_dead_applyRefund meta refund now ev : untouched dead_letters (applyRefund meta refund now ev).
Proof. unfold applyRefund, updateSubscription. tx_auto. Qed.

Lemma preserves_dead_dead_letter_conflict k meta refund now ev id (f : bool -> sub_tx unit) :
  (forall b, preserves (dead_lettered k) (f b)) ->
  preserves (dead_lettered k) (dead_letter_conflict id now (applyRefund meta refund now ev) f).
Proof.
  apply (preserves_unrelated_dead_letter_conflict _ dead_letters).
  - unfold dead_lettered. by intros ? ? ->.
  - apply untouched_dead_applyRefund.
  - tx_auto.
Qed.

Lemma exec_dead_lettered k o d : dead_lettered k d -> dead_lettered k (snd (exec o d)).
Proof.
  intros HB. destruct o; simpl; try (apply (preserves_in_tx (dead_lettered k)); [|done]).
  - unfold recordPaymentReplay. cbv zeta. tx_auto.
  - unfold applyPayment, getOrCreateSubscription, insertPeriod, updateSubscription, markInboxProcessed.
    cbv zeta. tx_auto.
  - unfold adminRevoke. tx_auto.
  - unfold storeRefund. cbv zeta. tx_split; [eauto with txdb|]. destruct (negb _); [tx_auto|].
    apply preserves_dead_dead_letter_conflict. unfold markInboxProcessed. intros b. tx_auto.
  - unfold ClaimRefund. destruct (first_by _ _ _) as [r|]; [|done].
    destruct (i_source r) as [[[[? ?] ?] ?]|], (i_payload r); done.
  - unfold applyClaimedRefund. cbv zeta. apply preserves_dead_dead_letter_conflict.
    unfold markInboxProcessed. intros b. tx_auto.
  - unfold ClaimDue, claimDue. by destruct (first_by _ _ _).
  - unfold completeDue, updateSubscription. cbv zeta. tx_auto.
  - unfold RecordDeadLetter. destruct (dead_letters d !! _) eqn:E; [done|]. unfold dead_lettered in *. simpl.
    rewrite lookup_insert. by case_decide.
  - unfold ClaimOutbox. by destruct (first_by _ _ _).
  - done.
  - done.
Qed.
Lemma exec_all_dead_lettered k l d : dead_lettered k d -> dead_lettered k (exec_all l d).
Proof. revert d. induction l; simpl; intros d HB; auto using exec_dead_lettered. Qed.

(** ** Rewinding *)

Definition rewind_step (offsets : gmap (string * Z) Z) (r : kafka_record) : gmap (string * Z) Z :=
  match offsets !! (rec_topic r, rec_partition r) with
  | Some current => if rec_offset r <? current
                    then <[(rec_topic r, rec_partition r) := rec_offset r]> offsets else offsets
  | None => <[(rec_topic r, rec_partition r) := rec_offset r]> offsets
  end.
Lemma rewind_step_covers offsets r :
  exists o, rewind_step offsets r !! (rec_topic r, rec_partition r) = Some o /\ o <= rec_offset r.
Proof.
  unfold rewind_step. destruct (offsets !! _) as [c|] eqn:E.
  - destruct (Z.ltb_spec (rec_offset r) c); [exists (rec_offset r) | exists c]; rewrite ?lookup_insert, ?decide_True by done;
      (split; [done|lia]).
  - exists (rec_offset r). rewrite lookup_insert, decide_True by done. split; [done|lia].
Qed.
Lemma rewind_step_lowers offsets r k o :
  offsets !! k = Some o -> exists o', rewind_step offsets r !! k = Some o' /\ o' <= o.
Proof.
  intros Hk. unfold rewind_step. destruct (offsets !! (_, _)) as [c|] eqn:E.
  - destruct (Z.ltb_spec (rec_offset r) c); [|exists o; split; [done|lia]].
    rewrite lookup_insert. case_decide; [|exists o; split; [done|lia]].
    exists (rec_offset r). split; [done|]. assert (c = o) as <- by congruence. lia.
  - rewrite lookup_insert_ne by congruence. exists o. split; [done|lia].
Qed.
Lemma rewind_from records offsets :
  (forall k o, offsets !! k = Some o -> exists o', fold_left rewind_step records offsets !! k = Some o' /\ o' <= o) /\
  (forall r, r ∈ records -> exists o, fold_left rewind_step records offsets !! (rec_topic r, rec_partition r) = Some o /\
     o <= rec_offset r).
Proof.
  revert offsets. induction records as [|x l IH]; intros offsets; simpl.
  - split; [intros k o H; exists o; split; [done|lia]|]. intros r Hr. by apply not_elem_of_nil in Hr.
  - destruct (IH (rewind_step offsets x)) as [IH1 IH2]. split.
    + intros k o H. destruct (rewind_step_lowers _ x _ _ H) as (o1 & H1 & ?).
      destruct (IH1 _ _ H1) as (o2 & H2 & ?). exists o2. split; [done|lia].
    + intros r [->|Hr]%elem_of_cons; [|by apply IH2].
      destruct (rewind_step_covers offsets x) as (o1 & H1 & ?).
      destruct (IH1 _ _ H1) as (o2 & H2 & ?). exists o2. split; [done|lia].
Qed.
Lemma rewind_covers records r :
  r ∈ records -> exists o, rewind records !! (rec_topic r, rec_partition r) = Some o /\ o <= rec_offset r.
Proof. apply (rewind_from records ∅). Qed.

(** Consumption resumes at one of the records. *)
Lemma rewind_is_one records k o : rewind records !! k = Some o ->
  exists r, r ∈ records /\ k = (rec_topic r, rec_partition r) /\ o = rec_offset r.
Proof.
  assert (forall l (offsets : gmap (string * Z) Z), (forall k o, offsets !! k = Some o -> exists r, r ∈ records /\
    k = (rec_topic r, rec_partition r) /\ o = rec_offset r) -> l ⊆ records -> forall k o, fold_left rewind_step l offsets !! k = Some o ->
    exists r, r ∈ records /\ k = (rec_topic r, rec_partition r) /\ o = rec_offset r) as H.
  { induction l as [|x l IH]; intros offsets Ho Hl; simpl; [exact Ho|]. apply IH; [|intros y Hy; apply Hl; by right].
    assert (x ∈ records) as Hx by (apply Hl; left). intros k' o'. unfold rewind_step.
    assert (forall m : gmap (string * Z) Z, <[(rec_topic x, rec_partition x) := rec_offset x]> m !! k' = Some o' ->
      (m !! k' = Some o' -> exists r, r ∈ records /\ k' = (rec_topic r, rec_partition r) /\ o' = rec_offset r) ->
      exists r, r ∈ records /\ k' = (rec_topic r, rec_partition r) /\ o' = rec_offset r) as Hins.
    { intros m [[<- <-]|[_ Hm]]%lookup_insert_Some Hold; [by exists x|by apply Hold]. }
    destruct (offsets !! (_, _)); [destruct (_ <? _)|]; try apply Ho; intros Hm; eapply Hins; eauto. }
  apply (H records ∅); [|done]. intros k' o'. by rewrite lookup_empty.
Qed.

(** ** The consumer *)

Section delivery.
Context (decode_envelope : string -> option (Envelope string))
        (decode_payment : string -> option PaymentSucceeded)
        (decode_refund : string -> option RefundSucceeded).
Notation process := (process decode_envelope decode_payment decode_refund).

(** The event a record carries, once decoded and accepted. *)
Lemma process_ok_inv e r d d1 :
  process e r d = (Ok tt, d1) -> exists env, decode_envelope (rec_value r) = Some env /\
    ((exists pay, decode_payment (env_Data env) = Some pay /\
        (forall e' d', process e' r d' = HandlePayment e' (meta_of env r) pay d')) \/
     (exists ref, decode_refund (env_Data env) = Some ref /\
        (forall e' d', process e' r d' = HandleRefund e' (meta_of env r) ref d'))).
Proof.
  intros H. unfold SubscriptionConsumer.process in *. cbv zeta in *.
  destruct (decode_envelope (rec_value r)) as [env|]; [|done]. exists env. split; [done|].
  destruct (_ || _); [done|].
  destruct (bool_decide (rec_topic r = "billing.payment.succeeded.v1")); [left|right].
  - destruct (negb _); [done|]. destruct (decode_payment (env_Data env)) as [pay|]; [|done].
    exists pay. split; [done|]. destruct (negb _); done.
  - destruct (bool_decide (rec_topic r = "billing.refund.succeeded.v1")); [|done].
    destruct (negb _); [done|]. destruct (decode_refund (env_Data env)) as [ref|]; [|done].
    exists ref. split; [done|]. destruct (negb _); done.
Qed.

(** Kafka may deliver a record again (a rewind, a rebalance, a failed
    offset commit): once a new event was processed successfully, processing
    its record again at any later point succeeds without asking billing and
    leaves the store untouched. *)
Theorem reprocessing_is_noop e e' r d d1 l :
  reachable d -> process e r d = (Ok tt, d1) ->
  (forall env, decode_envelope (rec_value r) = Some env -> inbox d !! env_EventID env = None) ->
  process e' r (exec_all l d1) = (Ok tt, exec_all l d1).
Proof.
  intros Hreach H Hnew. pose proof (reachable_inv _ Hreach) as HI.
  assert (Inv d1) as HI1.
  { destruct (process_run decode_envelope decode_payment decode_refund e r d) as [l1 Hl1].
    rewrite H in Hl1. simpl in Hl1. rewrite Hl1. by apply exec_all_Inv. }
  destruct (process_ok_inv _ _ _ _ H) as (env & Henv & [(pay & Hpay & Heq)|(ref & Href & Heq)]);
    rewrite Heq in H |- *.
  - destruct (HandlePayment_settles _ _ _ _ _ Hreach H) as [HR HB]; [by apply Hnew|].
    apply HandlePayment_again; auto using exec_all_Inv, exec_all_recorded, exec_all_bought.
    unfold HandlePayment in H. by destruct (validatePayment _ _) as [[]|].
  - unfold HandleRefund in *. destruct (validateRefund _ _) as [[]|]; [|done].
    destruct (StoreRefund _ _ _ _ d) as [[[]|?] d2] eqn:Hs; [|done]. injection H as <-.
    apply StoreRefund_records, (exec_all_recorded _ _ _ l) in Hs.
    unfold StoreRefund, in_tx, storeRefund. cbv zeta.
    by rewrite (bind_ok _ _ _ _ _ (insertInbox_recorded _ _ _ _ _ _ (Txn _ _) Hs)).
Qed.

(** What a turn that is committed did to the database it met: it processed
    the record, or recorded it as a dead letter. *)
Definition taken_in (t : turn) (d d' : db) : Prop :=
  t_cancelled t = false /\ t_commit_ok t = true /\
  (process (t_env t) (t_record t) d = (Ok tt, d') \/
   exists err code d1, process (t_env t) (t_record t) d = (Err err, d1) /\ ContractErrorCode err = Some code /\
     d' = RecordDeadLetter (rec_topic (t_record t)) (rec_partition (t_record t)) (rec_offset (t_record t))
            (sha256_hex (rec_value (t_record t))) code d1).
Inductive consumed : list turn -> db -> db -> Prop :=
  | consumed_none d : consumed [] d d
  | consumed_next t rest d d1 d2 : taken_in t d d1 -> consumed rest d1 d2 -> consumed (t :: rest) d d2.

(** What stays of a record that was taken in: its event is in the inbox with
    the bytes of the record, or it is a dead letter under its position. *)
Definition settled (r : kafka_record) (d : db) : Prop :=
  (exists env q topic partition offset, decode_envelope (rec_value r) = Some env /\ inbox d !! env_EventID env = Some q /\
     i_source q = Some (topic, partition, offset, sha256_hex (rec_value r))) \/
  dead_lettered (rec_topic r, rec_partition r, rec_offset r) d.
Lemma processed_records e r d d1 : process e r d = (Ok tt, d1) ->
  exists env payment user, decode_envelope (rec_value r) = Some env /\ forall l, recorded (meta_of env r) payment user (exec_all l d1).
Proof.
  intros H. destruct (process_ok_inv _ _ _ _ H) as (env & Henv & [(pay & Hpay & Heq)|(ref & Href & Heq)]); rewrite Heq in H; exists env.
  - exists (pay_PaymentID pay), (pay_UserID pay). split; [done|]. intros l. apply exec_all_recorded.
    unfold HandlePayment in H. destruct (validatePayment _ pay); [|done].
    destruct (RecordPaymentReplay _ _ _ d) as [[b|?] d2] eqn:Hr; [|done]. pose proof (replay_result _ _ _ _ _ _ Hr) as Hb.
    destruct b; [injection H as <-; apply Hb|]. destruct (env_GetOrder e _ _) as [ord|]; [|done].
    destruct (validateOrder pay ord) as [[]|]; [|done].
    destruct (ApplyPayment _ _ _ _ _ _ _ d2) as [[[]|?] d3] eqn:Ha; [|done]. injection H as <-. by eapply ApplyPayment_records.
  - exists (ref_PaymentID ref), (ref_UserID ref). split; [done|]. intros l. apply exec_all_recorded.
    unfold HandleRefund in H. destruct (validateRefund _ ref) as [[]|]; [|done].
    destruct (StoreRefund _ _ _ _ d) as [[[]|?] d2] eqn:Hs; [|done]. injection H as <-. by eapply StoreRefund_records.
Qed.
Lemma taken_in_settled t d d1 : taken_in t d d1 -> is_run d d1 /\ forall l, settled (t_record t) (exec_all l d1).
Proof.
  intros (_ & _ & [Hp|(err & code & d0 & Hp & _ & ->)]);
    pose proof (process_run decode_envelope decode_payment decode_refund (t_env t) (t_record t) d) as Hrun; rewrite Hp in Hrun; simpl in Hrun.
  - split; [done|]. intros l. left. destruct (processed_records _ _ _ _ Hp) as (env & payment & user & Henv & Hrec).
    destruct (Hrec l) as (q & topic & partition & offset & Hq & Hsrc & _). by exists env, q, topic, partition, offset.
  - split; [eapply is_run_trans; [exact Hrun|apply RecordDeadLetter_run]|]. intros l. right. apply exec_all_dead_lettered.
    unfold RecordDeadLetter, dead_lettered. destruct (dead_letters d0 !! _) eqn:E; [by rewrite E|]. simpl. by rewrite lookup_insert, decide_True.
Qed.
Lemma consumed_settled turns d d1 : consumed turns d d1 -> is_run d d1 /\ forall t l, t ∈ turns -> settled (t_record t) (exec_all l d1).
Proof.
  induction 1 as [d|t rest d d1 d2 Ht _ [IHr IH]]; [split; [apply is_run_refl|]; by intros t l ?%not_elem_of_nil|].
  destruct (taken_in_settled _ _ _ Ht) as [Hr Hs]. split; [by eapply is_run_trans|]. intros x l [->|Hx]%elem_of_cons; [|by apply IH].
  destruct IHr as [l' ->]. rewrite <- exec_all_app. apply Hs.
Qed.

(** How a poll ends: the turns [done] are taken in and committed one by one;
    unless they are all, the rest is fetched again. *)
Definition accounts (turns : list turn) (d d' : db) (calls : list client_call) : Prop :=
  exists done left d1, turns = done ++ left /\ consumed done d d1 /\ is_run d1 d' /\
    ((left = [] /\ d' = d1 /\ calls = map (fun t => CommitRecords (t_record t) true) done) \/
     (exists t rest refused, left = t :: rest /\ (refused = [] \/ refused = [CommitRecords (t_record t) false]) /\
        calls = map (fun t => CommitRecords (t_record t) true) done ++ refused ++ [SetOffsets (rewind (map t_record left))])).

Lemma poll_loop_accounts turns alive d keep d' calls :
  poll_loop decode_envelope decode_payment decode_refund turns alive d = (keep, d', calls) -> accounts turns d d' calls.
Proof.
  revert d keep d' calls. induction turns as [|t rest IH]; intros d keep d' calls; simpl.
  { intros [= <- <- <-]. exists [], [], d. split_and!; [done|constructor|apply is_run_refl|by left]. }
  assert (forall d1 refused, is_run d d1 -> refused = [] \/ refused = [CommitRecords (t_record t) false] ->
    accounts (t :: rest) d d1 (refused ++ [SetOffsets (rewind (map t_record (t :: rest)))])) as Hagain.
  { intros d1 refused Hr Href. exists [], (t :: rest), d. split_and!; [done|constructor|done|right]. by exists t, rest, refused. }
  destruct (t_cancelled t) eqn:Hcan; [intros [= <- <- <-]; apply (Hagain _ []); [apply is_run_refl|by left]|].
  pose proof (process_run decode_envelope decode_payment decode_refund (t_env t) (t_record t) d) as Hrun.
  destruct (process (t_env t) (t_record t) d) as [res d1] eqn:Hp. simpl in Hrun.
  destruct (match res with Ok _ => _ | Err _ => _ end) as [d2|] eqn:Hh;
    [|intros [= <- <- <-]; apply (Hagain _ []); [done|by left]].
  assert (t_commit_ok t = true -> taken_in t d d2) as Htaken.
  { intros Hok. split_and!; [done..|]. destruct res as [[]|err]; [injection Hh as <-; by left|right].
    destruct (ContractErrorCode err) as [code|] eqn:Hc; [|done]. destruct (t_dead_letter_ok t); [|done]. injection Hh as <-.
    by exists err, code, d1. }
  assert (is_run d d2) as Hrun2.
  { destruct res as [[]|err]; [by injection Hh as <-|]. destruct (ContractErrorCode err); [|done]. destruct (t_dead_letter_ok t); [|done].
    injection Hh as <-. eapply is_run_trans; [exact Hrun|apply RecordDeadLetter_run]. }
  destruct (t_commit_ok t); [|intros [= <- <- <-]; apply (Hagain _ [_]); [done|by right]].
  destruct (poll_loop _ _ _ rest alive d2) as [[keep3 d3] calls3] eqn:Hl. intros [= <- <- <-].
  destruct (IH _ _ _ _ Hl) as (done_ & left_ & d0 & -> & Hcon & Hr0 & Hend).
  exists (t :: done_), left_, d0. split_and!; [done| |done|].
  - econstructor; [by apply Htaken|exact Hcon].
  - destruct Hend as [(H1 & H2 & ->)|(x & r & refused & H1 & H2 & ->)]; [by left|right]. by exists x, r, refused.
Qed.

(** C31: no record is lost and no offset runs ahead: a poll takes its records
    in one after the other, in the order it fetched them, each in the database
    the one before left, and commits each when it was processed successfully
    or recorded as a dead letter, and no other; what it took in stays in the
    inbox, or among the dead letters, whatever happens later. If it stops
    early it resets consumption, for every partition of a record it did not
    commit, to the smallest of their offsets there. *)
Theorem poll_loses_nothing turns alive d keep d' calls :
  pollOnce decode_envelope decode_payment decode_refund turns alive d = (keep, d', calls) ->
  exists done left d1, turns = done ++ left /\ consumed done d d1 /\ is_run d1 d' /\
    (forall t l, t ∈ done -> settled (t_record t) (exec_all l d')) /\
    ((left = [] /\ d' = d1 /\ calls = map (fun t => CommitRecords (t_record t) true) done ++ [AllowRebalance]) \/
     (exists t rest refused, left = t :: rest /\ (refused = [] \/ refused = [CommitRecords (t_record t) false]) /\
        calls = map (fun t => CommitRecords (t_record t) true) done ++ refused ++
          [SetOffsets (rewind (map t_record left)); AllowRebalance])) /\
    (forall t, t ∈ left -> exists o, rewind (map t_record left) !! (rec_topic (t_record t), rec_partition (t_record t)) = Some o /\
       o <= rec_offset (t_record t)) /\
    (forall k o, rewind (map t_record left) !! k = Some o -> exists t, t ∈ left /\
       k = (rec_topic (t_record t), rec_partition (t_record t)) /\ o = rec_offset (t_record t)).
Proof.
  unfold pollOnce. destruct (poll_loop _ _ _ turns alive d) as [[keep1 d2] calls1] eqn:Hl.
  intros [= <- <- <-]. apply poll_loop_accounts in Hl as (done_ & left_ & d1 & -> & Hcon & Hrun & Hend).
  exists done_, left_, d1. destruct (consumed_settled _ _ _ Hcon) as [_ Hset]. split_and!; [done..| | | |].
  - intros t l Ht. destruct Hrun as [l' ->]. rewrite <- exec_all_app. by apply Hset.
  - destruct Hend as [(-> & -> & ->)|(t & rest & refused & -> & Href & ->)]; [by left|right].
    exists t, rest, refused. split_and!; [done..|]. by rewrite <- !app_assoc.
  - intros t Ht. apply rewind_covers. apply list_elem_of_fmap. by exists t.
  - intros k o (r & (t & -> & Ht)%list_elem_of_fmap & -> & ->)%rewind_is_one. by exists t.
Qed.
End delivery.

(** ** The theorems at work *)

Definition uid (n : string) : string := ("11111111-1111-4111-8111-11111111111" +:+ n)%string.
Definition demo_pay := MkPayment (uid "1") (uid "2") (uid "3") "plan" 500 "USD" day.
Definition demo_plan := MkPlan "plan" 30 24 500 "USD" "eu" 1 1.
Definition demo_order := MkOrder (uid "2") (uid "3") "paid" 500 "USD" demo_plan.
Definition demo_env (clock : Z) : env :=
  MkEnv clock clock "sub" "per" "out" (fun user order => if decide (order = uid "2") then Ok demo_order else Err "gone").
Definition demo_envelope : Envelope string :=
  MkEnvelope (uid "4") "billing.payment.succeeded.v1" 1 day "billing-service" (uid "5") None "payment" (uid "1") 0
    ("user:" +:+ uid "3")%string "{}".
Definition demo_record := MkRecord "billing.payment.succeeded.v1" 0 7 ("user:" +:+ uid "3")%string "bytes".
Definition bad_record := MkRecord "billing.payment.succeeded.v1" 0 8 "key" "garbage".
Definition demo_decode (value : string) : option (Envelope string) :=
  if decide (value = "bytes") then Some demo_envelope else None.
Definition demo_process := process demo_decode (fun _ => Some demo_pay) (fun _ => None).

Lemma HandlePayment_effect_witness :
  exists ord p s o,
    payment_effect day "per" "out" (meta_of demo_envelope demo_record) demo_pay (ord_PlanSnapshot ord) empty_db
      (snd (HandlePayment (demo_env day) (meta_of demo_envelope demo_record) demo_pay empty_db)) p s o.
Proof.
  destruct (HandlePayment_effect (demo_env day) (meta_of demo_envelope demo_record) demo_pay empty_db
    (snd (HandlePayment (demo_env day) (meta_of demo_envelope demo_record) demo_pay empty_db)))
    as (ord & p & s & o & _ & _ & H).
  - exists []. reflexivity.
  - vm_compute. reflexivity.
  - reflexivity.
  - reflexivity.
  - exists ord, p, s, o. exact H.
Defined.

Lemma reprocessing_is_noop_witness :
  let d1 := snd (demo_process (demo_env day) demo_record empty_db) in
  let later := exec_all [OpClaimDue (40 * day) minute ∅; OpCompleteDue (40 * day) "x1" "x2" "sub"] d1 in
  demo_process (MkEnv 0 0 "a" "b" "c" (fun _ _ => Err "billing is down")) demo_record later = (Ok tt, later).
Proof.
  apply (reprocessing_is_noop demo_decode (fun _ => Some demo_pay) (fun _ => None) (demo_env day) _ demo_record empty_db).
  - exists []. reflexivity.
  - vm_compute. reflexivity.
  - intros env Henv. reflexivity.
Defined.

Definition demo_turns : list turn :=
  [MkTurn demo_record false (demo_env day) true true true; MkTurn bad_record false (demo_env day) true false true].
Lemma poll_loses_nothing_witness :
  let r := pollOnce demo_decode (fun _ => Some demo_pay) (fun _ => None) demo_turns true empty_db in
  exists done left, demo_turns = done ++ left /\ (forall t, t ∈ done -> settled demo_decode (t_record t) (snd (fst r))) /\
    (forall t, t ∈ left -> exists o, rewind (map t_record left) !! (rec_topic (t_record t), rec_partition (t_record t)) = Some o /\
       o <= rec_offset (t_record t)).
Proof.
  intros r.
  destruct (poll_loses_nothing demo_decode (fun _ => Some demo_pay) (fun _ => None) demo_turns true empty_db
    (fst (fst r)) (snd (fst r)) (snd r)) as (done & left & d1 & E & _ & _ & Hs & _ & Hc & _).
  - vm_compute. reflexivity.
  - exists done, left. split; [exact E|]. split; [intros t Ht; exact (Hs t [] Ht)|exact Hc].
Defined.
