(* ===== verification/NodeDomain.v ===== *)
(** * node agent: data and validation

    src/services/node-agent/internal/domain/types.go and the validators of
    src/services/node-agent/internal/application/service.go. *)

From Stdlib Require Import Ascii List.
From S2P Require Import Prelude GoStrings Sha256 Backoff.

Record DesiredState := MkDesired {
  OperationID : string;
  CredentialID : string;
  DesiredRevision : Z;
  State : string;
  Protocol : string;
  VLESSClientUUID : string
}.

Record ApplyResult := MkApplyResult {
  ar_OperationID : string;
  ar_CredentialID : string;
  ar_DesiredRevision : Z;
  ar_State : string;
  ar_ConfigRevision : Z;
  ar_AppliedAt : Z
}.

Record Credential := MkCredential {
  c_CredentialID : string;
  c_DesiredRevision : Z;
  c_State : string;
  c_Protocol : string;
  c_VLESSClientUUID : string
}.

Record Snapshot := MkSnapshot {
  sn_NodeID : string;
  sn_ConfigRevision : Z;
  sn_Credentials : gmap string Credential
}.

Record JournalEntry := MkEntry {
  je_OperationID : string;
  je_RequestHash : string;
  je_Result : ApplyResult;
  je_CompletedAt : Z
}.

Abbreviation Journal := (gmap string JournalEntry).

Record AgentStatus := MkStatus {
  st_NodeID : string;
  st_ConfigRevision : Z;
  st_ActiveClients : Z;
  st_XrayHealthy : bool;
  st_AgentVersion : string;
  st_XrayVersion : string
}.

Record CredentialState := MkCredentialState {
  cs_CredentialID : string;
  cs_DesiredRevision : Z;
  cs_State : string;
  cs_ConfigRevision : Z
}.

Inductive AgentErr :=
  | ErrConflict
  | ErrStale
  | ErrXray
  | ErrPersist
  | ErrPersistAndRestore
  | ErrJournal
  | ErrInvalid (what : string).
#[export] Instance AgentErr_eq_dec : EqDecision AgentErr.
Proof. solve_decision. Defined.

Definition uuidPattern : string -> bool := any_uuid.

(** [true] when the request is acceptable; the source returns [ErrConflict]
    otherwise. *)
Definition validateDesired (d : DesiredState) : bool :=
  if negb (uuidPattern (OperationID d)) || negb (uuidPattern (CredentialID d)) ||
     (DesiredRevision d <? 1) ||
     (negb (bool_decide (State d = "present")) && negb (bool_decide (State d = "absent")))
  then false
  else if bool_decide (State d = "present")
  then bool_decide (Protocol d = "vless_reality") && uuidPattern (VLESSClientUUID d)
  else bool_decide (Protocol d = "") && bool_decide (VLESSClientUUID d = "").

Definition probe_operation : string := "00000000-0000-4000-8000-000000000000".
Definition as_desired (credentialID : string) (c : Credential) : DesiredState :=
  MkDesired probe_operation credentialID (c_DesiredRevision c) (c_State c) (c_Protocol c) (c_VLESSClientUUID c).

(** The loop over the map accepts exactly when every entry is acceptable: its
    order does not matter. *)
Definition validateSnapshot (s : Snapshot) : bool :=
  uuidPattern (sn_NodeID s) && (0 <=? sn_ConfigRevision s) &&
  forallb (fun kc => bool_decide (c_CredentialID (snd kc) = fst kc) && validateDesired (as_desired (fst kc) (snd kc)))
    (map_to_list (sn_Credentials s)).

Definition sameDesired (current : Credential) (desired : DesiredState) : bool :=
  bool_decide (c_State current = State desired) && bool_decide (c_Protocol current = Protocol desired) &&
  bool_decide (c_VLESSClientUUID current = VLESSClientUUID desired).

(** [json.Marshal] of an accepted request: its strings (identifiers, states,
    protocols) contain nothing JSON escapes, and the two optional fields are
    left out when empty. *)
Definition quote : string := byte_string [34%nat].
Definition json_string (s : string) : string := (quote +:+ s +:+ quote)%string.
Definition json_field (name value : string) : string := (json_string name +:+ ":" +:+ value)%string.
Definition optional_field (name value : string) : string :=
  if bool_decide (value = "") then "" else ("," +:+ json_field name (json_string value))%string.
Definition json_desired (d : DesiredState) : string :=
  ("{" +:+ json_field "operation_id" (json_string (OperationID d)) +:+ "," +:+
   json_field "credential_id" (json_string (CredentialID d)) +:+ "," +:+
   json_field "desired_revision" (decimal (DesiredRevision d)) +:+ "," +:+
   json_field "state" (json_string (State d)) +:+
   optional_field "protocol" (Protocol d) +:+
   optional_field "vless_client_uuid" (VLESSClientUUID d) +:+ "}")%string.
Definition hashDesired (d : DesiredState) : string := sha256_hex (json_desired d).

Definition newResult (d : DesiredState) (configRevision now : Z) : ApplyResult :=
  MkApplyResult (OperationID d) (CredentialID d) (DesiredRevision d) (State d) configRevision now.

(** ** Lemmas *)

Lemma validateSnapshot_true s :
  validateSnapshot s = true <->
  uuidPattern (sn_NodeID s) = true /\ 0 <= sn_ConfigRevision s /\
  forall k c, sn_Credentials s !! k = Some c ->
    c_CredentialID c = k /\ validateDesired (as_desired k c) = true.
Proof.
  unfold validateSnapshot. rewrite !andb_true_iff, forallb_forall, Z.leb_le.
  assert ((forall x, In x (map_to_list (sn_Credentials s)) ->
     bool_decide (c_CredentialID (snd x) = fst x) && validateDesired (as_desired (fst x) (snd x)) = true) <->
    (forall k c, sn_Credentials s !! k = Some c -> c_CredentialID c = k /\ validateDesired (as_desired k c) = true))
    as ->; [|tauto]. split.
  - intros H k c Hk. apply elem_of_map_to_list, list_elem_of_In, H in Hk. simpl in Hk.
    by rewrite andb_true_iff, bool_decide_eq_true in Hk.
  - intros H [k c] Hk%list_elem_of_In%elem_of_map_to_list. simpl.
    rewrite andb_true_iff, bool_decide_eq_true. by apply H.
Qed.

(** What an accepted request looks like. *)
Lemma validateDesired_true d :
  validateDesired d = true ->
  uuidPattern (OperationID d) = true /\ uuidPattern (CredentialID d) = true /\ 1 <= DesiredRevision d /\
  ((State d = "present" /\ Protocol d = "vless_reality" /\ uuidPattern (VLESSClientUUID d) = true) \/
   (State d = "absent" /\ Protocol d = "" /\ VLESSClientUUID d = "")).
Proof.
  unfold validateDesired. destruct (_ || _) eqn:H; [done|].
  rewrite !orb_false_iff, !negb_false_iff, Z.ltb_ge, andb_false_iff, !negb_false_iff, !bool_decide_eq_true in H.
  destruct H as [[[H1 H2] H3] H4]. case_bool_decide as Hp; rewrite andb_true_iff, !bool_decide_eq_true.
  - intros [Hq Hr]. split_and!; [done|done|lia|]. by left.
  - intros [Hq Hr]. split_and!; [done|done|lia|]. right. naive_solver.
Qed.
