(* ===== verification/Xray.v ===== *)
(** * node agent: rendering and reloading Xray

    src/services/node-agent/internal/xray: the configuration rendered from a
    snapshot (render.go) and the reload protocol of the process manager
    (manager.go), with every file-system and process call as an outcome drawn
    from outside. [XrayManager] is the interface the service uses; the other
    manager that implements it is in Systemd.v. *)

From Stdlib Require Import Ascii List Sorted.
From S2P Require Import Prelude GoStrings NodeDomain.

(** ** Rendering *)

Record RenderConfig := MkRenderConfig {
  ListenAddress : string;
  ListenPort : Z;
  RealityTarget : string;
  ServerNames : list string;
  RealityPrivateKey : string;
  ShortIDs : list string
}.

(** The variable part of the document handed to [json.MarshalIndent]; the
    rest of it is constant. *)
Record XrayConfig := MkXrayConfig {
  xc_listen : string;
  xc_port : Z;
  xc_clients : list string;      (* client identifiers, in order *)
  xc_target : string;
  xc_serverNames : list string;
  xc_privateKey : string;
  xc_shortIds : list string
}.
#[export] Instance XrayConfig_eq_dec : EqDecision XrayConfig.
Proof. solve_decision. Defined.

Definition render_config_ok (cfg : RenderConfig) : bool :=
  negb (bool_decide (ListenAddress cfg = "")) && negb (ListenPort cfg <? 1) && negb (65535 <? ListenPort cfg) &&
  negb (bool_decide (RealityTarget cfg = "")) && negb (bool_decide (ServerNames cfg = [])) &&
  (go_len (RealityPrivateKey cfg) =? 43) && negb (bool_decide (ShortIDs cfg = [])).

Fixpoint collect (snapshot : Snapshot) (credentialIDs : list string) : option (list string) :=
  match credentialIDs with
  | [] => Some []
  | id :: ids =>
      let credential := default (MkCredential "" 0 "" "" "") (sn_Credentials snapshot !! id) in
      if negb (bool_decide (c_Protocol credential = "vless_reality")) ||
         bool_decide (c_VLESSClientUUID credential = "") then None
      else clients ← collect snapshot ids; Some (c_VLESSClientUUID credential :: clients)
  end.

(** [order] is the order in which Go ranges over the credentials map. *)
Definition present_ids (order : list (string * Credential)) : list string :=
  map fst (List.filter (fun kc => bool_decide (c_State (snd kc) = "present")) order).
Definition Render (order : list (string * Credential)) (snapshot : Snapshot) (cfg : RenderConfig) : option XrayConfig :=
  if negb (render_config_ok cfg) then None
  else clients ← collect snapshot (order_by String.leb (present_ids order));
       Some (MkXrayConfig (ListenAddress cfg) (ListenPort cfg) clients (RealityTarget cfg) (ServerNames cfg)
               (RealityPrivateKey cfg) (ShortIDs cfg)).

Lemma present_ids_perm order order' :
  order ≡ₚ order' -> present_ids order ≡ₚ present_ids order'.
Proof.
  intros H. unfold present_ids.
  induction H as [|[k c] l l' H IH|x y l|l l1 l2 H1 IH1 H2 IH2]; simpl; [done| | |by rewrite IH1].
  - by case_bool_decide; simpl; rewrite IH.
  - repeat case_bool_decide; simpl; done || apply Permutation_swap.
Qed.

Lemma collect_Some snapshot ids clients :
  collect snapshot ids = Some clients ->
  clients = map (fun id => default "" (c_VLESSClientUUID <$> sn_Credentials snapshot !! id)) ids.
Proof.
  revert clients. induction ids as [|id ids IH]; intros clients; simpl; [by intros [= <-]|].
  destruct (_ || _); [done|]. destruct (collect snapshot ids) as [cs|] eqn:E; [|done]. intros [= <-].
  rewrite (IH cs) by done. f_equal. by destruct (sn_Credentials snapshot !! id).
Qed.

(** Any two orders of the same map render alike, errors included. *)
Lemma Render_order order order' snapshot cfg : order ≡ₚ order' -> Render order snapshot cfg = Render order' snapshot cfg.
Proof. intros Ho. unfold Render. by rewrite (order_by_leb_canonical (present_ids order) (present_ids order')) by (by apply present_ids_perm). Qed.
(** So the reload renders in one order, standing for all of them. *)
Definition RenderSnapshot (snapshot : Snapshot) (cfg : RenderConfig) : option XrayConfig :=
  Render (map_to_list (sn_Credentials snapshot)) snapshot cfg.

Lemma elem_present_ids order snapshot k : order ≡ₚ map_to_list (sn_Credentials snapshot) ->
  k ∈ order_by String.leb (present_ids order) <->
  exists cr, sn_Credentials snapshot !! k = Some cr /\ c_State cr = "present".
Proof.
  intros Ho. rewrite elem_order_by. unfold present_ids.
  rewrite list_elem_of_In, in_map_iff. setoid_rewrite filter_In. setoid_rewrite <- list_elem_of_In. split.
  - intros ([k' cr] & <- & Hk & Hp). rewrite Ho, elem_of_map_to_list in Hk. exists cr.
    simpl in *. by rewrite bool_decide_eq_true in Hp.
  - intros (cr & Hk & Hp). exists (k, cr). rewrite Ho, elem_of_map_to_list. simpl.
    by rewrite bool_decide_eq_true.
Qed.
Lemma Render_clients order snapshot cfg c client : order ≡ₚ map_to_list (sn_Credentials snapshot) ->
  Render order snapshot cfg = Some c ->
  client ∈ xc_clients c <->
    exists k cr, sn_Credentials snapshot !! k = Some cr /\ c_State cr = "present" /\ c_VLESSClientUUID cr = client.
Proof.
  intros Ho. unfold Render. destruct (render_config_ok cfg); [|done]. simpl.
  destruct (collect _ _) as [cs|] eqn:Hcs; [|done]. intros [= <-]. simpl. rewrite (collect_Some _ _ _ Hcs).
  rewrite list_elem_of_In, in_map_iff. setoid_rewrite <- list_elem_of_In.
  setoid_rewrite (elem_present_ids order snapshot _ Ho). split.
  - intros (k & <- & cr & Hk & Hp). exists k, cr. by rewrite Hk.
  - intros (k & cr & Hk & Hp & <-). exists k. rewrite Hk. eauto.
Qed.

Definition key_char (c : ascii) : bool :=
  between "A" "Z" c || between "a" "z" c || between "0" "9" c || Ascii.eqb c "_" || Ascii.eqb c "-".
(** [contents]: what the file holds, [None] when it cannot be read. *)
Definition LoadPrivateKey (contents : option string) : option string :=
  contents ← contents;
  let key := TrimSpace contents in
  if negb (go_len key =? 43) then None
  else if all_bytes key_char key then Some key else None.

(** ** The manager the service talks to *)

(** [xapply e next x] reloads Xray with [next] under the outside events [e]
    and says whether it reported success; [serving x] is the configuration of
    the live process and [installed x] the one it would be started with. A
    failed reload promises little: Xray may be down, the configuration file
    gone, and both may already be the new ones; but whatever Xray serves or
    would be started with is the old or the new configuration, no third. *)
Class XrayManager (X E : Type) := {
  xapply : E -> Snapshot -> X -> bool * X;
  xstart : E -> Snapshot -> X -> bool * X;
  serving : X -> option XrayConfig;
  installed : X -> option XrayConfig;
  rendered : Snapshot -> XrayConfig -> Prop;
  rendered_clients : forall s c client, rendered s c -> client ∈ xc_clients c ->
    exists k cr, sn_Credentials s !! k = Some cr /\ c_State cr = "present" /\ c_VLESSClientUUID cr = client;
  xinv : X -> Prop;
  xapply_inv : forall e next x, xinv x -> xinv (snd (xapply e next x));
  xapply_success : forall e next x x', xinv x -> xapply e next x = (true, x') ->
    exists c, serving x' = Some c /\ installed x' = Some c /\ rendered next c;
  xapply_failure : forall e next x x' c, xinv x -> xapply e next x = (false, x') ->
    serving x' = Some c \/ installed x' = Some c ->
    serving x = Some c \/ installed x = Some c \/ rendered next c;
  xstart_success : forall e next x x', xstart e next x = (true, x') ->
    xinv x' /\ exists c, serving x' = Some c /\ installed x' = Some c /\ rendered next c
}.

(** ** The process manager *)

(** The two files of the configuration directory and the live process. *)
Record Manager := MkManager {
  current : option XrayConfig;
  backup : option XrayConfig;
  running : option XrayConfig
}.

(** What the operating system answers in the course of one reload. *)
Record reload_env := MkReloadEnv {
  e_write : bool;            (* candidate written *)
  e_validate : bool;         (* [xray run -test] accepts it *)
  e_stop : bool;             (* the old process stops in time *)
  e_drop_backup : bool;      (* remove an old backup, ignored error *)
  e_preserve : bool;         (* rename current to backup *)
  e_install : bool;          (* rename candidate to current *)
  e_undo : bool;             (* rename backup to current, ignored error *)
  e_start : bool;            (* the new process starts and stays up *)
  e_drop_after : bool;       (* remove the backup after success, ignored error *)
  e_remove : bool;           (* remove the failed candidate, ignored error *)
  e_rollback : bool;         (* rename backup to current *)
  e_restore : bool           (* the old process starts again and stays up *)
}.

Inductive reload_outcome := Success | Failed | ValidationError | RollbackRestored | RollbackFailed.
#[export] Instance reload_outcome_eq_dec : EqDecision reload_outcome.
Proof. solve_decision. Defined.

(** [restoreCurrentLocked]: start whatever [config.json] holds; a process
    without a configuration file does not stay up. *)
Definition restoreCurrentLocked (ok : bool) (m : Manager) : bool * Manager :=
  match current m with
  | Some c => if ok then (true, MkManager (current m) (backup m) (Some c))
              else (false, MkManager (current m) (backup m) None)
  | None => (false, MkManager None (backup m) None)
  end.
Definition restored (om : bool * Manager) : reload_outcome * Manager :=
  (if fst om then RollbackRestored else RollbackFailed, snd om).

Section manager.
Context (cfg : RenderConfig).

Definition apply (e : reload_env) (snapshot : Snapshot) (m : Manager) : reload_outcome * Manager :=
  match RenderSnapshot snapshot cfg with
  | None => (Failed, m)
  | Some candidate =>
      if negb (e_write e) then (Failed, m)
      else if negb (e_validate e) then (ValidationError, m)
      else
        (* stopLocked: the process is gone, whatever it returned *)
        let m1 := MkManager (current m) (backup m) None in
        if negb (e_stop e) then restored (restoreCurrentLocked (e_restore e) m1)
        else
          (* os.Remove(backup), then os.Rename(current, backup), which replaces *)
          let kept_backup := if e_drop_backup e then None else backup m1 in
          match current m1, e_preserve e with
          | Some old, true =>
              let m2 := MkManager None (Some old) None in
              if negb (e_install e) then
                let m3 := if e_undo e then MkManager (Some old) None None else m2 in
                restored (restoreCurrentLocked (e_restore e) m3)
              else if e_start e
                then (Success, MkManager (Some candidate) (if e_drop_after e then None else Some old) (Some candidate))
              else if e_rollback e
                then restored (restoreCurrentLocked (e_restore e) (MkManager (Some old) None None))
                else (RollbackFailed, MkManager (if e_remove e then None else Some candidate) (Some old) None)
          | _, _ =>
              let m2 := MkManager (current m1) kept_backup None in
              restored (restoreCurrentLocked (e_restore e) m2)
          end
  end.

Definition Apply (e : reload_env) (snapshot : Snapshot) (m : Manager) : bool * Manager :=
  let '(outcome, m') := apply e snapshot m in (bool_decide (outcome = Success), m').

(** The agent's first start: install and run, no fallback. *)
Definition Start (e : reload_env) (snapshot : Snapshot) (m : Manager) : bool * Manager :=
  match RenderSnapshot snapshot cfg with
  | None => (false, m)
  | Some candidate =>
      if negb (e_write e) || negb (e_validate e) || negb (e_install e) then (false, m)
      else if e_start e then (true, MkManager (Some candidate) (backup m) (Some candidate))
      else (false, MkManager (Some candidate) (backup m) None)
  end.
Definition Healthy (m : Manager) : bool := bool_decide (is_Some (running m)).
Definition Close (m : Manager) : Manager := MkManager (current m) (backup m) None.

(** ** What a reload guarantees *)

(** A live process runs what [config.json] holds. *)
Definition manager_inv (m : Manager) : Prop := forall c, running m = Some c -> current m = Some c.

Lemma restored_inv ok m : manager_inv (snd (restored (restoreCurrentLocked ok m))).
Proof. unfold restoreCurrentLocked, manager_inv. destruct (current m) eqn:E, ok; simpl; intros c'; congruence. Qed.
Lemma restored_fst ok m : fst (restored (restoreCurrentLocked ok m)) <> Success.
Proof. unfold restored. by destruct (restoreCurrentLocked ok m) as [[] ?]. Qed.
Lemma restored_running ok m :
  running (snd (restored (restoreCurrentLocked ok m))) = None \/
  running (snd (restored (restoreCurrentLocked ok m))) = current m.
Proof. unfold restoreCurrentLocked. destruct (current m), ok; simpl; auto. Qed.

Lemma apply_inv e snapshot m : manager_inv m -> manager_inv (snd (apply e snapshot m)).
Proof.
  intros HI. unfold apply. destruct (RenderSnapshot _ _); [|done].
  destruct (e_write e); [|done]. destruct (e_validate e); [|done]. simpl.
  destruct (e_stop e); [|apply restored_inv]. simpl.
  destruct (current m), (e_preserve e); try apply restored_inv.
  destruct (e_install e); [|destruct (e_undo e); apply restored_inv]. simpl.
  destruct (e_start e); [by intros c'; simpl|]. destruct (e_rollback e); [apply restored_inv|].
  intros c'. done.
Qed.
Lemma apply_success e snapshot m m' :
  apply e snapshot m = (Success, m') ->
  exists c, running m' = Some c /\ current m' = Some c /\ RenderSnapshot snapshot cfg = Some c.
Proof.
  unfold apply. destruct (RenderSnapshot _ _) as [c|]; [|done].
  destruct (e_write e), (e_validate e); try done. simpl.
  assert (forall ok m0, restored (restoreCurrentLocked ok m0) = (Success, m') -> False) as Hr.
  { intros ok m0 H. apply (restored_fst ok m0). by rewrite H. }
  destruct (e_stop e); simpl; [|intros H; by apply Hr in H].
  destruct (current m), (e_preserve e); try (intros H; by apply Hr in H).
  destruct (e_install e); simpl; [|intros H; by apply Hr in H].
  destruct (e_start e); [intros [= <-]; by exists c|].
  destruct (e_rollback e); [intros H; by apply Hr in H | done].
Qed.
(** [old] is still on disk, as config.json or as last-known-good.json. *)
Definition kept (old : option XrayConfig) (m : Manager) : Prop := current m = old \/ backup m = old.

(** What a failed reload leaves: the process is down, or runs the file that
    was there before. *)
Definition failed_reload (e : reload_env) (snapshot : Snapshot) (m : Manager) (o : reload_outcome) (m' : Manager) : Prop :=
  kept (current m) m' /\
  (current m' = None \/ current m' = current m \/
   (current m' = RenderSnapshot snapshot cfg /\ running m' = None)) /\
  (running m' = None /\ o = RollbackFailed \/
   running m' = current m /\ current m' = current m /\ is_Some (running m') /\ o = RollbackRestored).

Lemma restored_reload e snapshot m ok m0 o m' :
  restored (restoreCurrentLocked ok m0) = (o, m') -> kept (current m) m0 ->
  current m0 = None \/ current m0 = current m -> failed_reload e snapshot m o m'.
Proof.
  unfold restored, restoreCurrentLocked, failed_reload, kept. destruct m0 as [[c|] b r]; simpl; [destruct ok|];
    intros [= <- <-] Hk [Hc|Hc]; simpl; try done; rewrite <- ?Hc in *; split_and!; eauto 8.
Qed.

Lemma apply_failure e snapshot m o m' :
  apply e snapshot m = (o, m') -> o <> Success ->
  (m' = m /\ (o = Failed \/ o = ValidationError)) \/ failed_reload e snapshot m o m'.
Proof.
  intros H Ho. unfold apply in H. destruct (RenderSnapshot _ _) as [c|] eqn:Hren; [|injection H as <- <-; auto].
  destruct (e_write e); [|injection H as <- <-; auto]. destruct (e_validate e); [|injection H as <- <-; auto].
  simpl in H. right. pose proof (restored_reload e snapshot m) as Hr. unfold kept in Hr.
  destruct (e_stop e); simpl in H; [|eapply Hr; [exact H|..]; auto].
  destruct (current m) as [old|] eqn:Ec, (e_preserve e); try (eapply Hr; [exact H|..]; auto).
  destruct (e_install e); simpl in H; [|eapply Hr; [exact H|..]; destruct (e_undo e); simpl; auto].
  destruct (e_start e); [injection H as <- <-; done|].
  destruct (e_rollback e); [eapply Hr; [exact H|..]; simpl; auto | injection H as <- <-].
  unfold failed_reload, kept. rewrite Hren, Ec. destruct (e_remove e); simpl; split_and!; auto.
Qed.

(** A reload of the process manager is all or nothing. Success means the
    process runs the rendered snapshot; a restored rollback that it runs the
    configuration installed before, which is config.json again; a failed
    rollback that nothing runs; a failure before the process was touched
    changes nothing; and after any failure, whichever removals and renames
    fail, the last known good configuration is still on disk. *)
Theorem reload_safe e snapshot m o m' :
  manager_inv m -> apply e snapshot m = (o, m') ->
  match o with
  | Success => exists c, RenderSnapshot snapshot cfg = Some c /\ running m' = Some c /\ current m' = Some c
  | Failed | ValidationError => m' = m
  | RollbackRestored => running m' = current m /\ is_Some (running m') /\ current m' = current m
  | RollbackFailed => running m' = None
  end /\ (o <> Success -> kept (current m) m').
Proof.
  intros HI H. destruct (decide (o = Success)) as [->|Ho].
  - destruct (apply_success _ _ _ _ H) as (c & Hr & Hc & Hren). split; [eauto|done].
  - destruct (apply_failure _ _ _ _ _ H Ho) as [[-> [-> | ->]]|(Hk & _ & [[Hrun ->]|(Hrun & Hc & Hs & ->)])];
      unfold kept in *; auto.
Qed.

(** Losing [config.json] is final for the running agent: when a rollback
    could not put it back, every later reload fails, and the first one to
    get past validation deletes the saved configuration as well, if that
    removal works. *)
Theorem lost_configuration_is_final e snapshot m :
  current m = None ->
  fst (apply e snapshot m) <> Success /\ current (snd (apply e snapshot m)) = None /\
  (is_Some (RenderSnapshot snapshot cfg) -> e_write e = true -> e_validate e = true -> e_stop e = true ->
   e_drop_backup e = true -> backup (snd (apply e snapshot m)) = None).
Proof.
  intros Hc. unfold apply. destruct (RenderSnapshot _ _) as [c|]; [|split_and!; [done|done|by intros []]].
  destruct (e_write e), (e_validate e); simpl; try by split_and!.
  rewrite Hc. unfold restoreCurrentLocked. destruct (e_stop e), (e_drop_backup e); simpl; rewrite ?Hc; by split_and!.
Qed.

#[export] Instance process_manager : XrayManager Manager reload_env.
Proof.
  refine {| xapply := Apply; xstart := Start; serving := running; installed := current;
            rendered := fun snapshot c => RenderSnapshot snapshot cfg = Some c;
            xinv := manager_inv |}.
  - intros s c client Hs Hc. exact (proj1 (Render_clients _ _ _ _ client (Permutation_refl _) Hs) Hc).
  - intros e next x H. unfold Apply. pose proof (apply_inv e next x H) as HI. by destruct (apply e next x).
  - intros e next x x' HI H. unfold Apply in H. destruct (apply e next x) as [o x1] eqn:Ha.
    injection H as Ho <-. rewrite bool_decide_eq_true in Ho. subst o.
    destruct (apply_success _ _ _ _ Ha) as (c & H1 & H2 & H3). exists c. split_and!; eauto.
  - intros e next x x' c HI H. unfold Apply in H. destruct (apply e next x) as [o x1] eqn:Ha.
    injection H as Ho <-. rewrite bool_decide_eq_false in Ho. intros Hserve.
    destruct (apply_failure _ _ _ _ _ Ha Ho) as [[-> _]|(_ & Hc & Hr)]; [tauto|].
    destruct Hserve as [Hrun|Hcur].
    + destruct Hr as [[Hr _]|(Hr & _)]; [congruence|]. right. left. congruence.
    + right. destruct Hc as [Hc|[Hc|[Hc _]]]; [congruence|left; congruence|right; congruence].
  - intros e next x x' H. unfold Start in H. destruct (RenderSnapshot _ _) as [c|] eqn:Hren; [|done].
    destruct (_ || _); [done|]. destruct (e_start e); [|done]. injection H as <-.
    split; [by intros c' [= ->]|]. exists c. split_and!; eauto.
Defined.
End manager.

(** ** Rendering is canonical *)

(** C40: the rendered configuration depends on the snapshot only, not on Go's
    map order, and admits exactly the clients of the credentials that are
    present: a snapshot the agent accepts always renders, and a credential
    marked absent is never among the clients. *)
Theorem Render_canonical order order' snapshot cfg :
  order ≡ₚ map_to_list (sn_Credentials snapshot) -> order' ≡ₚ map_to_list (sn_Credentials snapshot) ->
  render_config_ok cfg = true -> validateSnapshot snapshot = true ->
  exists c, Render order snapshot cfg = Some c /\ Render order' snapshot cfg = Some c /\
    forall client, client ∈ xc_clients c <->
      exists k cr, sn_Credentials snapshot !! k = Some cr /\ c_State cr = "present" /\ c_VLESSClientUUID cr = client.
Proof.
  intros Ho Ho' Hcfg (_ & _ & Hv)%validateSnapshot_true.
  assert (exists c, Render order snapshot cfg = Some c) as [c Hc].
  { unfold Render. rewrite Hcfg. simpl.
    assert (exists cs, collect snapshot (order_by String.leb (present_ids order)) = Some cs) as [cs ->]; [|simpl; eauto].
    assert (forall ids, (forall k, k ∈ ids -> exists cr, sn_Credentials snapshot !! k = Some cr /\ c_State cr = "present") ->
      exists cs, collect snapshot ids = Some cs) as H; [|by apply H; intros k; rewrite (elem_present_ids order snapshot k Ho)].
    induction ids as [|id ids IH]; intros H; [by exists []|]. simpl.
    destruct (H id) as (cr & Hk & Hp); [left|]. rewrite Hk. simpl.
    destruct (Hv _ _ Hk) as [_ (_ & _ & _ & [(_ & Hpr & Hu)|(Habs & _)])%validateDesired_true];
      simpl in *; [|congruence].
    rewrite bool_decide_eq_true_2, bool_decide_eq_false_2 by (try done; intros E; by rewrite E in Hu). simpl.
    destruct IH as [cs ->]; [intros k Hk'; apply H; by right|]. simpl. eauto. }
  exists c. split_and!; [done| |intros client; exact (Render_clients order snapshot cfg c client Ho Hc)].
  rewrite <- Hc. apply Render_order. by rewrite Ho, Ho'.
Qed.

(** ** The theorems at work *)

Definition demo_cfg : RenderConfig :=
  MkRenderConfig "0.0.0.0" 443 "example.org:443" ["example.org"]
    "0123456789012345678901234567890123456789012" ["ab"].
Definition demo_id (n : string) : string := ("11111111-1111-4111-8111-11111111111" +:+ n)%string.
Definition demo_credential (n : string) : Credential := MkCredential (demo_id n) 1 "present" "vless_reality" (demo_id "a").
Definition demo_snapshot : Snapshot :=
  MkSnapshot (demo_id "0") 1 {[ demo_id "1" := demo_credential "1";
                                demo_id "2" := MkCredential (demo_id "2") 3 "absent" "" "" ]}.
Definition demo_order := map_to_list (sn_Credentials demo_snapshot).
Definition good_reload : reload_env := MkReloadEnv true true true true true true true true true true true true.
Definition no_start : reload_env := MkReloadEnv true true true true true true true false true false true true.
Definition demo_config : XrayConfig := MkXrayConfig "0.0.0.0" 443 [] "old" [] "" [].
Definition demo_manager : Manager := MkManager (Some demo_config) None (Some demo_config).

Lemma Render_canonical_witness :
  exists c, Render demo_order demo_snapshot demo_cfg = Some c /\
    Render (rev demo_order) demo_snapshot demo_cfg = Some c /\ xc_clients c = [demo_id "a"].
Proof.
  destruct (Render_canonical demo_order (rev demo_order) demo_snapshot demo_cfg) as (c & H1 & H2 & _).
  - reflexivity.
  - unfold demo_order. symmetry. apply Permutation_rev.
  - vm_compute. reflexivity.
  - vm_compute. reflexivity.
  - exists c. split; [exact H1|]. split; [exact H2|]. revert H1. vm_compute. intros H1. injection H1 as <-. reflexivity.
Defined.

(** A new process that does not come up: the old one is running again. *)
Lemma reload_safe_witness :
  apply demo_cfg no_start demo_snapshot demo_manager = (RollbackRestored, demo_manager) /\
  running (snd (apply demo_cfg no_start demo_snapshot demo_manager)) = Some demo_config.
Proof.
  split; [vm_compute; reflexivity|].
  destruct (reload_safe demo_cfg no_start demo_snapshot demo_manager RollbackRestored demo_manager) as [[H _] _].
  - intros c H. exact H.
  - vm_compute. reflexivity.
  - exact H.
Defined.

(** The state after a rollback that could not put [config.json] back. *)
Definition lost_manager : Manager :=
  snd (apply demo_cfg (MkReloadEnv true true true true true true true false true true false true) demo_snapshot demo_manager).
Lemma lost_configuration_is_final_witness :
  backup lost_manager = Some demo_config /\
  fst (apply demo_cfg good_reload demo_snapshot lost_manager) <> Success /\
  backup (snd (apply demo_cfg good_reload demo_snapshot lost_manager)) = None.
Proof.
  split; [vm_compute; reflexivity|].
  destruct (lost_configuration_is_final demo_cfg good_reload demo_snapshot lost_manager) as (H1 & _ & H2).
  - vm_compute. reflexivity.
  - split; [exact H1|]. apply H2; [|reflexivity..]. vm_compute. eexists. reflexivity.
Defined.
