(* ===== verification/Systemd.v ===== *)
(** * node agent: the systemd manager of Xray

    src/services/node-agent/internal/xray/systemd_manager.go, the manager
    staging and production require (src/internal/platform/config/production.go):
    Xray is a systemd unit of its own, which the agent restarts through a
    control command after it has replaced config.json. File-system calls,
    the command's answers and what systemd does with the unit meanwhile are
    outcomes drawn from outside. It implements [XrayManager] of Xray.v. *)

From Stdlib Require Import Ascii List.
From S2P Require Import Prelude GoStrings NodeDomain Xray.

(** ** The unit *)

(** The two files of the configuration directory and what the unit runs. *)
Record SystemdManager := MkSystemd {
  config_json : option XrayConfig;
  last_known_good : option XrayConfig;
  unit_runs : option XrayConfig
}.

(** What may happen to the unit without the agent: nothing, a stop (a crash
    among others), or a restart, which reads config.json. A reload the agent
    has given up on can still restart the unit later. Without a
    config.json the unit does not start
    ([ConditionFileNotEmpty] of deploy/ansible/roles/vpn_node/templates/xray.service.j2). *)
Inductive unit_event := Keeps | Stops | Restarts.
Definition unit_after (ev : unit_event) (m : SystemdManager) : SystemdManager :=
  match ev with
  | Keeps => m
  | Stops => MkSystemd (config_json m) (last_known_good m) None
  | Restarts => MkSystemd (config_json m) (last_known_good m) (config_json m)
  end.

(** [control(ctx, "reload")]: the command exits with success only for its
    own request's restart, after which the unit was seen active
    (vpn-xray-control.j2, vpn-xray-reload-worker.j2 of the same directory);
    otherwise (failed, timed out, cut off) anything may have become of the
    unit. *)
Inductive reload_answer := Reloaded | NotReloaded (ev : unit_event).
Definition control_reload (answer : reload_answer) (m : SystemdManager) : bool * SystemdManager :=
  match answer with
  | Reloaded => (bool_decide (is_Some (config_json m)), unit_after Restarts m)
  | NotReloaded ev => (false, unit_after ev m)
  end.
(** [control(ctx, "status")]: [answers] is whether the command itself gets
    through; it looks for the file the unit keeps while it is active. *)
Definition control_status (answers : bool) (m : SystemdManager) : bool :=
  answers && bool_decide (is_Some (unit_runs m)).
Definition control (action : string) (answer : reload_answer) (answers : bool) (m : SystemdManager) : bool * SystemdManager :=
  if bool_decide (action = "reload") then control_reload answer m
  else if bool_decide (action = "status") then (control_status answers m, m)
  else (false, m).

(** [waitHealthy]: the ticks before the deadline or the cancellation, each
    with what the unit did until then and whether the status command gets
    through. *)
Inductive wait_end := Cancelled | Deadline (ev : unit_event) (answers : bool).
Fixpoint waitHealthy (ticks : list (unit_event * bool)) (last : wait_end) (m : SystemdManager) : bool * SystemdManager :=
  match ticks with
  | [] => match last with
          | Cancelled => (false, m)
          | Deadline ev answers => let m1 := unit_after ev m in (control_status answers m1, m1)
          end
  | (ev, answers) :: ticks' =>
      let m1 := unit_after ev m in
      if control_status answers m1 then (true, m1) else waitHealthy ticks' last m1
  end.

(** ** The operations *)

(** [NewSystemdManager]: the configuration's three names are given, its
    three bounds positive, and the directory exists ([mode], when it can be
    read) and is closed to others. *)
Definition NewSystemdManager (binary directory command : string) (validateTimeout reloadTimeout startupGrace : Z)
    (mode : option (bool * Z)) : bool :=
  if bool_decide (binary = "") || bool_decide (directory = "") || bool_decide (command = "") ||
     (validateTimeout <=? 0) || (reloadTimeout <=? 0) || (startupGrace <=? 0) then false
  else match mode with
       | None => false
       | Some (isDir, perm) => isDir && (Z.land perm 7 =? 0)
       end.

Record systemd_env := MkSystemdEnv {
  se_write : bool;           (* candidate written *)
  se_validate : bool;        (* [xray run -test] accepts it *)
  se_stat : bool;            (* os.Stat of config.json says whether it is there *)
  se_drop_backup : bool;     (* remove an old backup, ignored error *)
  se_preserve : bool;        (* rename current to backup *)
  se_install : bool;         (* rename candidate to current *)
  se_undo : bool;            (* rename backup to current *)
  se_reload : reload_answer;
  se_wait : list (unit_event * bool) * wait_end;
  se_drop_after : bool;      (* remove the backup after success, ignored error *)
  se_remove : bool;          (* remove the failed candidate, ignored error *)
  se_rollback : bool;        (* rename backup to current *)
  se_reload2 : reload_answer;
  se_wait2 : list (unit_event * bool) * wait_end;
  se_unit : nat -> unit_event  (* what the unit does between the file operations *)
}.

Definition reload_and_wait (answer : reload_answer) (wait : list (unit_event * bool) * wait_end) (m : SystemdManager)
    : bool * SystemdManager :=
  let '(reloaded, m1) := control_reload answer m in
  if reloaded : bool then waitHealthy (fst wait) (snd wait) m1 else (false, m1).

Section systemd.
Context (cfg : RenderConfig).

(** Past the installation of the candidate: reload, and roll back when the
    unit does not come up. *)
Definition reload_candidate (e : systemd_env) (hadCurrent keepPrevious : bool) (m : SystemdManager)
    : reload_outcome * SystemdManager :=
  let '(up, m1) := reload_and_wait (se_reload e) (se_wait e) m in
  if up : bool then
    (Success, if negb keepPrevious && se_drop_after e then MkSystemd (config_json m1) None (unit_runs m1) else m1)
  else
    let m2 := unit_after (se_unit e 3)
      (if se_remove e then MkSystemd None (last_known_good m1) (unit_runs m1) else m1) in
    if negb hadCurrent then (RollbackFailed, m2)
    else if negb (se_rollback e) then (RollbackFailed, m2)
    else
      let m3 := unit_after (se_unit e 4) (MkSystemd (last_known_good m2) None (unit_runs m2)) in
      let '(back, m4) := reload_and_wait (se_reload2 e) (se_wait2 e) m3 in
      (if back : bool then RollbackRestored else RollbackFailed, m4).

Definition install (e : systemd_env) (snapshot : Snapshot) (keepPrevious : bool) (m : SystemdManager)
    : reload_outcome * SystemdManager :=
  let m := unit_after (se_unit e 0) m in
  match RenderSnapshot snapshot cfg with
  | None => (Failed, m)
  | Some candidate =>
      if negb (se_write e) then (Failed, m)
      else if negb (se_validate e) then (ValidationError, m)
      else if negb (se_stat e) then (Failed, m)
      else
        match config_json m with
        | Some old =>
            let m1 := MkSystemd (Some old) (if se_drop_backup e then None else last_known_good m) (unit_runs m) in
            if negb (se_preserve e) then (Failed, m1)
            else
              let m2 := unit_after (se_unit e 1) (MkSystemd None (Some old) (unit_runs m1)) in
              if negb (se_install e) then
                if negb (se_undo e) then (RollbackFailed, m2)
                else (RollbackRestored, MkSystemd (Some old) None (unit_runs m2))
              else reload_candidate e true keepPrevious
                     (unit_after (se_unit e 2) (MkSystemd (Some candidate) (Some old) (unit_runs m2)))
        | None =>
            if negb (se_install e) then (Failed, m)
            else reload_candidate e false keepPrevious
                   (unit_after (se_unit e 2) (MkSystemd (Some candidate) (last_known_good m) (unit_runs m)))
        end
  end.

Definition systemd_Start (e : systemd_env) (snapshot : Snapshot) (m : SystemdManager) : bool * SystemdManager :=
  let '(outcome, m') := install e snapshot false m in (bool_decide (outcome = Success), m').
(** [Apply] also reports the outcome to the metrics. *)
Definition systemd_Apply (e : systemd_env) (snapshot : Snapshot) (m : SystemdManager) : bool * SystemdManager :=
  let '(outcome, m') := install e snapshot true m in (bool_decide (outcome = Success), m').
Definition systemd_Healthy (answers : bool) (m : SystemdManager) : bool := control_status answers m.
(** The unit outlives the agent. *)
Definition systemd_Close (m : SystemdManager) : SystemdManager := m.

(** ** What a reload guarantees *)

(** The unit runs one of the configurations of [P], and so do the files. *)
Definition among (P : XrayConfig -> Prop) (m : SystemdManager) : Prop :=
  (forall c, config_json m = Some c -> P c) /\ (forall c, unit_runs m = Some c -> P c).

Lemma among_unit P ev m : among P m -> among P (unit_after ev m).
Proof. intros [H1 H2]. by destruct ev; split; simpl. Qed.
Lemma unit_after_files ev m :
  config_json (unit_after ev m) = config_json m /\ last_known_good (unit_after ev m) = last_known_good m.
Proof. by destruct ev. Qed.
Lemma unit_after_cases ev m :
  unit_runs (unit_after ev m) = None \/ unit_runs (unit_after ev m) = unit_runs m \/
  unit_runs (unit_after ev m) = config_json m.
Proof. destruct ev; auto. Qed.

(** Waiting only watches: the files stay, and a unit found active runs what
    it ran or what config.json holds. *)
Lemma waitHealthy_spec ticks last m up m' : waitHealthy ticks last m = (up, m') ->
  config_json m' = config_json m /\ last_known_good m' = last_known_good m /\
  (unit_runs m' = None \/ unit_runs m' = unit_runs m \/ unit_runs m' = config_json m) /\
  (up = true -> is_Some (unit_runs m')).
Proof.
  assert (forall answers m0, control_status answers m0 = true -> is_Some (unit_runs m0)) as Hst.
  { intros answers m0 [_ H]%andb_true_iff. by apply bool_decide_eq_true in H. }
  revert m. induction ticks as [|[ev answers] ticks IH]; intros m; simpl.
  - destruct last as [|ev answers]; intros [= <- <-]; [by split_and!; auto|].
    destruct (unit_after_files ev m) as [-> ->]. split_and!; [done|done|apply unit_after_cases|apply Hst].
  - destruct (unit_after_files ev m) as [E1 E2]. pose proof (unit_after_cases ev m) as E3.
    destruct (control_status answers (unit_after ev m)) eqn:Hs.
    + intros [= <- <-]. split_and!; [done|done|done|]. intros _. by eapply Hst.
    + intros (H1 & H2 & H3 & H4)%IH. rewrite H1, H2, E1, E2. split_and!; [done|done| |done].
      rewrite E1 in H3. destruct H3 as [H3|[H3|H3]]; [auto| |auto]. rewrite H3. tauto.
Qed.

Lemma reload_and_wait_spec answer wait m up m' : reload_and_wait answer wait m = (up, m') ->
  config_json m' = config_json m /\ last_known_good m' = last_known_good m /\
  (unit_runs m' = None \/ unit_runs m' = unit_runs m \/ unit_runs m' = config_json m) /\
  (up = true -> unit_runs m' = config_json m /\ is_Some (unit_runs m')).
Proof.
  unfold reload_and_wait. destruct answer as [|ev]; simpl.
  - case_bool_decide as Hs; [|intros [= <- <-]; simpl; by split_and!; auto].
    intros (H1 & H2 & H3 & H4)%waitHealthy_spec. simpl in *. rewrite H1, H2. split_and!; [done|done|tauto|].
    intros Hup. specialize (H4 Hup). split; [|done]. destruct H3 as [H3|[H3|H3]]; [|done..].
    rewrite H3 in H4. by destruct H4.
  - intros [= <- <-]. destruct (unit_after_files ev m) as [-> ->].
    split_and!; [done|done|apply unit_after_cases|done].
Qed.

(** [old] is still on disk, as config.json or as last-known-good.json. *)
Definition preserved (old : option XrayConfig) (m : SystemdManager) : Prop :=
  config_json m = old \/ last_known_good m = old.

Lemma reload_candidate_spec e had keep m o m' : reload_candidate e had keep m = (o, m') ->
  (forall P, among P m -> (had = true -> forall c, last_known_good m = Some c -> P c) -> among P m') /\
  match o with
  | Success => unit_runs m' = config_json m /\ config_json m' = config_json m /\ is_Some (unit_runs m')
  | RollbackRestored => had = true /\ unit_runs m' = last_known_good m /\ config_json m' = last_known_good m /\
      is_Some (unit_runs m')
  | RollbackFailed => had = true -> preserved (last_known_good m) m'
  | _ => False
  end.
Proof.
  unfold reload_candidate. destruct (reload_and_wait _ _ m) as [up m1] eqn:Hr.
  apply reload_and_wait_spec in Hr as (F1 & F2 & F3 & F4).
  assert (forall P, among P m -> among P m1) as Ham.
  { intros P [H1 H2]. split; intros c; rewrite ?F1; [apply H1|].
    destruct F3 as [->|[->| ->]]; [done|apply H2|apply H1]. }
  destruct up.
  { specialize (F4 eq_refl) as [F4 F5]. intros [= <- <-]. split.
    - intros P HP%Ham _. by destruct (_ && _).
    - by destruct (_ && _); simpl; rewrite ?F1, <- ?F4. }
  set (m2 := unit_after _ _).
  assert ((forall P, among P m -> among P m2) /\ last_known_good m2 = last_known_good m) as [Ham2 L2].
  { unfold m2. rewrite (proj2 (unit_after_files _ _)). split.
    - intros P HP%Ham. apply among_unit. destruct (se_remove e); [|done]. by destruct HP; split.
    - by destruct (se_remove e). }
  destruct had; [|by intros [= <- <-]; split; auto]. simpl.
  destruct (se_rollback e); simpl; [|intros [= <- <-]; split; auto; by right].
  set (m3 := unit_after _ _). destruct (reload_and_wait _ _ m3) as [back m4] eqn:Hb.
  apply reload_and_wait_spec in Hb as (G1 & G2 & G3 & G4).
  assert (config_json m3 = last_known_good m) as C3 by (unfold m3; by rewrite (proj1 (unit_after_files _ _))).
  intros [= <- <-]. split.
  - intros P HP Hl. assert (among P m3) as [K1 K2].
    { apply among_unit. destruct (Ham2 _ HP) as [_ H2]. split; simpl; [rewrite L2; auto|done]. }
    split; intros c; rewrite ?G1; [apply K1|]. destruct G3 as [->|[->| ->]]; [done|apply K2|apply K1].
  - destruct back; [|intros _; left; by rewrite G1]. specialize (G4 eq_refl) as [G4 G5]. rewrite G1, <- C3. auto.
Qed.

(** What the unit runs and would be restarted with, after a reload, is one
    of: what it ran, what config.json held, the rendered snapshot. *)
Lemma install_among e snapshot keep m o m' c : install e snapshot keep m = (o, m') ->
  unit_runs m' = Some c \/ config_json m' = Some c ->
  unit_runs m = Some c \/ config_json m = Some c \/ RenderSnapshot snapshot cfg = Some c.
Proof.
  intros H. set (P c := unit_runs m = Some c \/ config_json m = Some c \/ RenderSnapshot snapshot cfg = Some c).
  enough (among P m') as [H1 H2] by (intros [?|?]; [by apply H2|by apply H1]).
  revert H. unfold install. set (m0 := unit_after _ m).
  assert (among P m0) as H0 by (apply among_unit; unfold P; split; intros; auto).
  destruct (RenderSnapshot _ _) as [candidate|] eqn:Hren; [|by intros [= <- <-]].
  destruct (se_write e), (se_validate e), (se_stat e); simpl; try by intros [= <- <-].
  assert (P candidate) as Hc by (unfold P; auto). destruct H0 as [P1 P2].
  destruct (config_json m0) as [old|] eqn:Eold.
  - specialize (P1 old eq_refl). destruct (se_preserve e); simpl; [|by intros [= <- <-]; split; simpl; [intros ? [= <-]|]].
    set (m2 := unit_after _ (MkSystemd None _ _)).
    assert (among P m2) as [P3 P4] by (by apply among_unit; split).
    destruct (se_install e); simpl.
    + intros [H _]%reload_candidate_spec. apply H.
      * apply among_unit. split; simpl; [by intros ? [= <-]|done].
      * intros _ c'. rewrite (proj2 (unit_after_files _ _)). by intros [= <-].
    + destruct (se_undo e); simpl; intros [= <- <-]; [|by split]. split; simpl; [by intros ? [= <-]|done].
  - destruct (se_install e); simpl; [|intros [= <- <-]; split; [by rewrite Eold|done]].
    intros [H _]%reload_candidate_spec. apply H; [|done].
    apply among_unit. split; simpl; [by intros ? [= <-]|done].
Qed.

Lemma install_outcome e snapshot keep m o m' :
  install e snapshot keep m = (o, m') ->
  match o with
  | Success => exists c, RenderSnapshot snapshot cfg = Some c /\ unit_runs m' = Some c /\ config_json m' = Some c
  | Failed | ValidationError => config_json m' = config_json m /\
      (unit_runs m' = None \/ unit_runs m' = unit_runs m \/ unit_runs m' = config_json m)
  | RollbackRestored => is_Some (config_json m) /\ config_json m' = config_json m /\
      (se_install e = true -> unit_runs m' = config_json m)
  | RollbackFailed => True
  end.
Proof.
  unfold install. set (m0 := unit_after _ m).
  destruct (unit_after_files (se_unit e 0) m) as [F1 F2]. pose proof (unit_after_cases (se_unit e 0) m) as F3.
  fold m0 in F1, F2, F3.
  destruct (RenderSnapshot _ _) as [candidate|] eqn:Hren; [|by intros [= <- <-]].
  destruct (se_write e), (se_validate e), (se_stat e); simpl; try by intros [= <- <-].
  rewrite <- F1 in *. destruct (config_json m0) as [old|] eqn:Eold.
  - destruct (se_preserve e); simpl; [|by intros [= <- <-]].
    destruct (se_install e) eqn:Ei; simpl; [|by destruct (se_undo e); intros [= <- <-]; simpl; eauto].
    intros [_ Hsp]%reload_candidate_spec. revert Hsp.
    rewrite (proj1 (unit_after_files _ _)), (proj2 (unit_after_files _ _)). simpl.
    destruct o; try done; [intros (-> & -> & _); eauto|]. intros (_ & -> & -> & _). eauto.
  - destruct (se_install e) eqn:Ei; simpl; [|by intros [= <- <-]].
    intros [_ Hsp]%reload_candidate_spec. revert Hsp. rewrite (proj1 (unit_after_files _ _)). simpl.
    destruct o; try done; [intros (-> & -> & _); eauto|]. by intros [? _].
Qed.
Lemma install_preserves e snapshot keep m o m' :
  install e snapshot keep m = (o, m') -> o <> Success -> is_Some (config_json m) -> preserved (config_json m) m'.
Proof.
  intros H Ho Hs. revert H. unfold install, preserved. set (m0 := unit_after _ m).
  destruct (unit_after_files (se_unit e 0) m) as [F1 F2]. fold m0 in F1, F2.
  destruct (RenderSnapshot _ _) as [candidate|]; [|intros [= <- <-]; by left].
  destruct (se_write e), (se_validate e), (se_stat e); simpl; try (intros [= <- <-]; by left).
  rewrite <- F1 in *. destruct (config_json m0) as [old|]; [|by destruct Hs].
  destruct (se_preserve e); simpl; [|intros [= <- <-]; by left].
  destruct (se_install e); simpl.
  - intros [_ Hsp]%reload_candidate_spec. revert Hsp. rewrite (proj2 (unit_after_files _ _)). simpl.
    destruct o; try done; [intros (_ & _ & -> & _); by left|]. by intros H; apply H.
  - destruct (se_undo e); simpl; intros [= <- <-]; simpl; [by left|].
    right. by rewrite (proj2 (unit_after_files _ _)).
Qed.

(** C33: a reload of the production manager is all or nothing as far as it
    can know. Success means the unit runs the rendered snapshot and would be
    restarted with it; a failure before anything was installed leaves
    config.json alone; a restored rollback means that config.json is the old
    one again and, when the new one had been installed, that the unit is
    running the old one. After any failure the last known good configuration
    is still on disk as config.json or last-known-good.json; and the unit,
    whatever becomes of it, only ever runs, and would only be restarted with,
    what it ran, what config.json held, or the rendered snapshot. *)
Theorem systemd_reload_safe e snapshot keep m o m' :
  install e snapshot keep m = (o, m') ->
  match o with
  | Success => exists c, RenderSnapshot snapshot cfg = Some c /\ unit_runs m' = Some c /\ config_json m' = Some c
  | Failed | ValidationError => config_json m' = config_json m /\
      (unit_runs m' = None \/ unit_runs m' = unit_runs m \/ unit_runs m' = config_json m)
  | RollbackRestored => is_Some (config_json m) /\ config_json m' = config_json m /\
      (se_install e = true -> unit_runs m' = config_json m)
  | RollbackFailed => True
  end /\
  (o <> Success -> is_Some (config_json m) -> preserved (config_json m) m') /\
  (forall c, unit_runs m' = Some c \/ config_json m' = Some c ->
     unit_runs m = Some c \/ config_json m = Some c \/ RenderSnapshot snapshot cfg = Some c).
Proof.
  intros H. split; [by eapply install_outcome|]. split; [by eapply install_preserves|].
  intros c. by eapply install_among.
Qed.

(** Unlike the process manager, this one recovers from a lost config.json:
    the next reload that goes well installs the snapshot. *)
Theorem systemd_recovers e snapshot m c :
  config_json m = None -> RenderSnapshot snapshot cfg = Some c ->
  se_write e = true -> se_validate e = true -> se_stat e = true -> se_install e = true -> se_reload e = Reloaded ->
  se_wait e = ([], Deadline Keeps true) ->
  exists m', install e snapshot true m = (Success, m') /\ unit_runs m' = Some c /\ config_json m' = Some c.
Proof.
  intros Hm Hren E1 E2 E3 E4 E5 E6. unfold install. rewrite Hren, E1, E2, E3, E4. simpl.
  rewrite (proj1 (unit_after_files _ _)), Hm. unfold reload_candidate, reload_and_wait. rewrite E5, E6.
  eexists. destruct (se_unit e 2); simpl; by split_and!.
Qed.

#[export] Instance systemd_manager : XrayManager SystemdManager systemd_env.
Proof.
  refine {| xapply := systemd_Apply; xstart := systemd_Start; serving := unit_runs; installed := config_json;
            rendered := fun snapshot c => RenderSnapshot snapshot cfg = Some c;
            xinv := fun _ => True |}.
  - intros s c client Hs Hc. exact (proj1 (Render_clients _ _ _ _ client (Permutation_refl _) Hs) Hc).
  - done.
  - intros e next x x' _ H. unfold systemd_Apply in H. destruct (install e next true x) as [o x1] eqn:Hi.
    injection H as ->%bool_decide_eq_true <-. destruct (install_outcome _ _ _ _ _ _ Hi) as (c & H1 & H2 & H3). eauto 8.
  - intros e next x x' c _ H. unfold systemd_Apply in H. destruct (install e next true x) as [o x1] eqn:Hi.
    injection H as _ <-. intros Hs. destruct (install_among _ _ _ _ _ _ _ Hi Hs) as [?|[?|?]]; eauto.
  - intros e next x x' H. unfold systemd_Start in H. destruct (install e next false x) as [o x1] eqn:Hi.
    injection H as ->%bool_decide_eq_true <-. split; [done|].
    destruct (install_outcome _ _ _ _ _ _ Hi) as (c & H1 & H2 & H3). eauto 8.
Defined.
End systemd.

(** ** The theorems at work *)

(** Nothing happens to the unit on its own; the first tick finds it up. *)
Definition quiet (n : nat) : unit_event := Keeps.
Definition up_at_once : list (unit_event * bool) * wait_end := ([(Keeps, true)], Cancelled).
Definition systemd_with (answer : reload_answer) (remove rollback : bool) : systemd_env :=
  MkSystemdEnv true true true true true true true answer up_at_once true remove rollback Reloaded up_at_once quiet.
Definition demo_unit : SystemdManager := MkSystemd (Some demo_config) None (Some demo_config).

(** The control command gives up although it restarted the unit: the old
    configuration is put back and running again. *)
Lemma systemd_reload_safe_witness :
  install demo_cfg (systemd_with (NotReloaded Restarts) true true) demo_snapshot true demo_unit =
    (RollbackRestored, demo_unit) /\
  unit_runs demo_unit = Some demo_config.
Proof.
  split; [vm_compute; reflexivity|].
  destruct (systemd_reload_safe demo_cfg (systemd_with (NotReloaded Restarts) true true) demo_snapshot true
    demo_unit RollbackRestored demo_unit) as [(_ & _ & H) _].
  - vm_compute. reflexivity.
  - apply H. reflexivity.
Defined.
(** A rollback that fails with the removal: the unit is left running the new
    configuration, which is still config.json. *)
Example rollback_fails_with_candidate :
  let '(o, m) := install demo_cfg (systemd_with (NotReloaded Restarts) false false) demo_snapshot true demo_unit in
  o = RollbackFailed /\ unit_runs m = config_json m /\ unit_runs m <> Some demo_config /\ last_known_good m = Some demo_config.
Proof. vm_compute. split_and!; try reflexivity. discriminate. Qed.
Lemma systemd_recovers_witness : exists m',
  install demo_cfg (MkSystemdEnv true true true true true true true Reloaded ([], Deadline Keeps true)
    true true true Reloaded up_at_once quiet) demo_snapshot true (MkSystemd None None None) = (Success, m') /\
  is_Some (unit_runs m').
Proof.
  destruct (RenderSnapshot demo_snapshot demo_cfg) as [c|] eqn:Hc; [|vm_compute in Hc; discriminate Hc].
  destruct (systemd_recovers demo_cfg (MkSystemdEnv true true true true true true true Reloaded ([], Deadline Keeps true)
    true true true Reloaded up_at_once quiet) demo_snapshot (MkSystemd None None None) c) as (m' & H1 & H2 & _);
    [reflexivity|exact Hc|reflexivity..|].
  exists m'. split; [exact H1|]. exists c. exact H2.
Defined.
