(* ===== verification/NodeAgent.v ===== *)
(** * node agent: the service

    The desired-state service of
    src/services/node-agent/internal/application/service.go over its state
    files (src/services/node-agent/internal/state/store.go), which are read
    back up to 16 MiB, for any Xray
    manager that meets the [XrayManager] interface; and its HTTP API
    (src/services/node-agent/internal/httpapi/handler.go). *)

From Stdlib Require Import Ascii List.
From S2P Require Import Prelude GoStrings Backoff Platform GoText NodeDomain Xray.

(** ** State files *)

Inductive file (A : Type) := Missing | Corrupt | Present (a : A).
Arguments Missing {A}. Arguments Corrupt {A}. Arguments Present {A} a.

Record Disk := MkDisk {
  desired_state : file Snapshot;
  operation_journal : file Journal
}.

(** What [json.Encoder] writes for the two files, less its final newline; the
    strings it meets here (identifiers, states, hashes) need no escape, and
    object keys are sorted. *)
Definition json_object {V} (value : V -> string) (m : gmap string V) : string :=
  ("{" +:+ join "," ((fun kv => json_field (fst kv) (value (snd kv))) <$>
     order_by (fun a b => String.leb (fst a) (fst b)) (map_to_list m)) +:+ "}")%string.
Definition json_credential (c : Credential) : string :=
  ("{" +:+ json_field "credential_id" (json_string (c_CredentialID c)) +:+ "," +:+
   json_field "desired_revision" (decimal (c_DesiredRevision c)) +:+ "," +:+
   json_field "state" (json_string (c_State c)) +:+
   optional_field "protocol" (c_Protocol c) +:+
   optional_field "vless_client_uuid" (c_VLESSClientUUID c) +:+ "}")%string.
Definition json_snapshot (s : Snapshot) : string :=
  ("{" +:+ json_field "node_id" (json_string (sn_NodeID s)) +:+ "," +:+
   json_field "config_revision" (decimal (sn_ConfigRevision s)) +:+ "," +:+
   json_field "credentials" (json_object json_credential (sn_Credentials s)) +:+ "}")%string.
Definition json_result (r : ApplyResult) : string :=
  ("{" +:+ json_field "operation_id" (json_string (ar_OperationID r)) +:+ "," +:+
   json_field "credential_id" (json_string (ar_CredentialID r)) +:+ "," +:+
   json_field "desired_revision" (decimal (ar_DesiredRevision r)) +:+ "," +:+
   json_field "state" (json_string (ar_State r)) +:+ "," +:+
   json_field "config_revision" (decimal (ar_ConfigRevision r)) +:+ "," +:+
   json_field "applied_at" (json_string (rfc3339nano (ar_AppliedAt r))) +:+ "}")%string.
Definition json_entry (en : JournalEntry) : string :=
  ("{" +:+ json_field "operation_id" (json_string (je_OperationID en)) +:+ "," +:+
   json_field "request_hash" (json_string (je_RequestHash en)) +:+ "," +:+
   json_field "result" (json_result (je_Result en)) +:+ "," +:+
   json_field "completed_at" (json_string (rfc3339nano (je_CompletedAt en))) +:+ "}")%string.
Definition json_journal (j : Journal) : string :=
  ("{" +:+ json_field "entries" (json_object json_entry j) +:+ "}")%string.

Arguments json_snapshot : simpl never.
Arguments json_journal : simpl never.

(** [readJSON] decodes one value from the first 16 MiB of a file: a longer
    text is cut off inside the value and does not decode. *)
Definition maxStateBytes : Z := Z.shiftl 16 20.
Definition readJSON {A} (json : A -> string) (f : file A) : file A :=
  match f with
  | Present a => if go_len (json a) <=? maxStateBytes then Present a else Corrupt
  | f => f
  end.

Definition Load (nodeID : string) (disk : Disk) : result AgentErr (Snapshot * Journal) :=
  match readJSON json_snapshot (desired_state disk) with
  | Corrupt => Err (ErrInvalid "load node desired state")
  | f =>
      let snapshot := match f with Present s => s | _ => MkSnapshot nodeID 0 ∅ end in
      if negb (bool_decide (sn_NodeID snapshot = nodeID)) || (sn_ConfigRevision snapshot <? 0)
      then Err (ErrInvalid "node desired state identity is invalid")
      else match readJSON json_journal (operation_journal disk) with
           | Corrupt => Err (ErrInvalid "load node operation journal")
           | Missing => Ok (snapshot, ∅)
           | Present j => Ok (snapshot, j)
           end
  end.

(** [writeJSONAtomic] replaces the file by a rename: it either succeeds or
    leaves the old contents. It writes a text of any length. *)
Definition SaveSnapshot (ok : bool) (snapshot : Snapshot) (disk : Disk) : bool * Disk :=
  if ok then (true, MkDisk (Present snapshot) (operation_journal disk)) else (false, disk).

(** One pass over the journal in the order Go ranges over it. *)
Definition completed_at (j : Journal) (key : string) : Z :=
  default 0 (je_CompletedAt <$> j !! key).
Definition oldest (order : list (string * JournalEntry)) (j : Journal) : string :=
  fold_left (fun oldestKey ke =>
    if bool_decide (oldestKey = "") || (je_CompletedAt (snd ke) <? completed_at j oldestKey)
    then fst ke else oldestKey) order "".

(** [range i j] is the order of the [i]-th pass over the journal. *)
Fixpoint evict (fuel : nat) (i : nat) (range : nat -> Journal -> list (string * JournalEntry))
    (maxJournal : nat) (j : Journal) : Journal :=
  if (size j <=? maxJournal)%nat then j
  else match fuel with
       | O => j
       | S fuel' => evict fuel' (S i) range maxJournal (delete (oldest (range i j) j) j)
       end.

(** The journal map is shared with the caller: the entries evicted here are
    gone from the service's own map as well, written or not. *)
Definition SaveJournal (ok : bool) (range : nat -> Journal -> list (string * JournalEntry)) (maxJournal : nat)
    (j : Journal) (disk : Disk) : bool * Journal * Disk :=
  let j' := evict (size j) 0 range maxJournal j in
  if ok then (true, j', MkDisk (desired_state disk) (Present j')) else (false, j', disk).

(** ** The service *)

Section service.
Context {X E : Type} `{!XrayManager X E}.

Record Agent := MkAgent {
  ag_nodeID : string;
  ag_version : string;
  ag_maxJournal : nat;
  ag_snapshot : Snapshot;
  ag_journal : Journal;
  ag_xray : X;
  ag_disk : Disk
}.

(** What one call draws from outside: the reload and, if it comes to that,
    the restoring reload; whether the two files can be written; the clock;
    the map orders. *)
Record call_env := MkCallEnv {
  ce_reload : E;
  ce_restore : E;
  ce_save : bool;
  ce_journal : bool;
  ce_now : Z;
  ce_range : nat -> Journal -> list (string * JournalEntry)
}.

Definition set_journal (j : Journal) (disk : Disk) (a : Agent) : Agent :=
  MkAgent (ag_nodeID a) (ag_version a) (ag_maxJournal a) (ag_snapshot a) j (ag_xray a) disk.
Definition set_state (s : Snapshot) (x : X) (disk : Disk) (a : Agent) : Agent :=
  MkAgent (ag_nodeID a) (ag_version a) (ag_maxJournal a) s (ag_journal a) x disk.

Definition recordJournal (e : call_env) (requestHash : string) (r : ApplyResult) (a : Agent)
    : result AgentErr unit * Agent :=
  let entry := MkEntry (ar_OperationID r) requestHash r (ar_AppliedAt r) in
  let '(ok, j, disk) := SaveJournal (ce_journal e) (ce_range e) (ag_maxJournal a)
                          (<[ar_OperationID r := entry]> (ag_journal a)) (ag_disk a) in
  if ok : bool then (Ok tt, set_journal j disk a)
  else (Err ErrJournal, set_journal (delete (ar_OperationID r) j) disk a).

(** The credential a request installs: one marked absent keeps no secret. *)
Definition installed_credential (d : DesiredState) : Credential :=
  let c := MkCredential (CredentialID d) (DesiredRevision d) (State d) (Protocol d) (VLESSClientUUID d) in
  if bool_decide (State d = "absent")
  then MkCredential (c_CredentialID c) (c_DesiredRevision c) (c_State c) "" "" else c.
Definition next_snapshot (d : DesiredState) (s : Snapshot) : Snapshot :=
  MkSnapshot (sn_NodeID s) (int64 (sn_ConfigRevision s + 1))
    (<[CredentialID d := installed_credential d]> (sn_Credentials s)).

Definition finish (e : call_env) (d : DesiredState) (requestHash : string) (configRevision : Z) (a : Agent)
    : result AgentErr ApplyResult * Agent :=
  let r := newResult d configRevision (ce_now e) in
  match recordJournal e requestHash r a with
  | (Ok _, a') => (Ok r, a')
  | (Err err, a') => (Err err, a')
  end.

Definition Apply (e : call_env) (d : DesiredState) (a : Agent) : result AgentErr ApplyResult * Agent :=
  if negb (validateDesired d) then (Err ErrConflict, a)
  else
    let requestHash := hashDesired d in
    match ag_journal a !! OperationID d with
    | Some existing =>
        if negb (bool_decide (je_RequestHash existing = requestHash)) then (Err ErrConflict, a)
        else (Ok (je_Result existing), a)
    | None =>
        let current := sn_Credentials (ag_snapshot a) !! CredentialID d in
        let fresh :=
          let next := next_snapshot d (ag_snapshot a) in
          let '(reloaded, x1) := xapply (ce_reload e) next (ag_xray a) in
          if negb reloaded then (Err ErrXray, set_state (ag_snapshot a) x1 (ag_disk a) a)
          else
            let '(saved, disk1) := SaveSnapshot (ce_save e) next (ag_disk a) in
            if negb saved then
              let '(restored, x2) := xapply (ce_restore e) (ag_snapshot a) x1 in
              (Err (if restored : bool then ErrPersist else ErrPersistAndRestore),
               set_state (ag_snapshot a) x2 disk1 a)
            else finish e d requestHash (sn_ConfigRevision next) (set_state next x1 disk1 a)
        in
        match current with
        | Some c =>
            if DesiredRevision d <? c_DesiredRevision c then (Err ErrStale, a)
            else if DesiredRevision d =? c_DesiredRevision c then
              if negb (sameDesired c d) then (Err ErrConflict, a)
              else finish e d requestHash (sn_ConfigRevision (ag_snapshot a)) a
            else fresh
        | None => fresh
        end
    end.

Definition NewService (nodeID agentVersion : string) (maxJournal : nat) (e : E) (disk : Disk) (x : X)
    : result AgentErr Agent :=
  if negb (uuidPattern nodeID) || bool_decide (agentVersion = "")
  then Err (ErrInvalid "node identity and agent version are required")
  else match Load nodeID disk with
  | Err err => Err err
  | Ok (snapshot, journal) =>
      if negb (validateSnapshot snapshot) then Err (ErrInvalid "node snapshot is invalid")
      else let '(started, x1) := xstart e snapshot x in
           if negb started then Err ErrXray
           else Ok (MkAgent nodeID agentVersion maxJournal snapshot journal x1 disk)
  end.

Definition Status (healthy : bool) (xrayVersion : string) (a : Agent) : AgentStatus :=
  let active := count_where (fun c => bool_decide (c_State c = "present")) (sn_Credentials (ag_snapshot a)) in
  MkStatus (ag_nodeID a) (sn_ConfigRevision (ag_snapshot a)) (Z.of_nat active) healthy (ag_version a) xrayVersion.

Definition GetCredentialState (credentialID : string) (a : Agent) : CredentialState :=
  match sn_Credentials (ag_snapshot a) !! credentialID with
  | None => MkCredentialState credentialID 0 "absent" (sn_ConfigRevision (ag_snapshot a))
  | Some c => MkCredentialState credentialID (c_DesiredRevision c) (c_State c) (sn_ConfigRevision (ag_snapshot a))
  end.

(** *** HTTP *)

Inductive http (A : Type) := Reply (a : A) | Fault (status : Z) (code : string).
Arguments Reply {A} a. Arguments Fault {A} status code.

Definition maxBodyBytes : Z := 65536.
(** [decode] is the strict JSON decoder of a request. *)
Definition strictDecode (decode : string -> option DesiredState) (body : string) : option DesiredState :=
  if maxBodyBytes <? go_len body then None else decode body.

Definition ApplyDesiredState (decode : string -> option DesiredState) (e : call_env) (path body : string) (a : Agent)
    : http ApplyResult * Agent :=
  let credentialID := TrimSpace path in
  if negb (uuidPattern credentialID) then (Fault 400 "invalid_credential_id", a)
  else match strictDecode decode body with
  | None => (Fault 400 "invalid_desired_state", a)
  | Some d =>
      if negb (bool_decide (CredentialID d = credentialID)) then (Fault 400 "invalid_desired_state", a)
      else match Apply e d a with
           | (Ok r, a') => (Reply r, a')
           | (Err ErrStale, a') => (Fault 409 "stale_revision", a')
           | (Err ErrConflict, a') => (Fault 409 "operation_conflict", a')
           | (Err _, a') => (Fault 503 "apply_failed", a')
           end
  end.

Definition http_CredentialState (path : string) (a : Agent) : http CredentialState :=
  let credentialID := TrimSpace path in
  if negb (uuidPattern credentialID) then Fault 400 "invalid_credential_id"
  else Reply (GetCredentialState credentialID a).
End service.
Arguments Agent : clear implicits.
Arguments call_env : clear implicits.
