(* ===== verification/NodeAgentSpec.v ===== *)
(** * node agent: what the service guarantees

    Proved against the [XrayManager] interface, so for the process manager of
    Xray.v and the systemd manager of Systemd.v in particular. *)

From Stdlib Require Import Ascii List.
From S2P Require Import Prelude GoStrings NodeDomain Xray NodeAgent.

(** ** Journal eviction *)

Lemma oldest_in order (j : Journal) acc :
  (acc <> "" -> is_Some (j !! acc)) -> (forall ke, ke ∈ order -> j !! fst ke = Some (snd ke)) ->
  let r := fold_left (fun oldestKey ke =>
    if bool_decide (oldestKey = "") || (je_CompletedAt (snd ke) <? completed_at j oldestKey)
    then fst ke else oldestKey) order acc in
  r = acc \/ is_Some (j !! r).
Proof.
  revert acc. induction order as [|ke order IH]; intros acc Hacc Hin; simpl; [by left|].
  pose proof (Hin ke) as Hke. destruct (bool_decide _ || _).
  - destruct (IH (fst ke)) as [->|H].
    + intros _. rewrite Hke; [eauto|left].
    + intros ke' Hk. apply Hin. by right.
    + right. rewrite Hke; [eauto|left].
    + by right.
  - apply IH; [done|]. intros ke' Hk. apply Hin. by right.
Qed.

(** Every pass over a non-empty journal picks one of its entries. *)
Lemma oldest_picks order (j : Journal) :
  order ≡ₚ map_to_list j -> (0 < size j)%nat -> is_Some (j !! oldest order j).
Proof.
  intros Hp Hs. assert (forall ke, ke ∈ order -> j !! fst ke = Some (snd ke)) as Hin.
  { intros [k en] H. rewrite Hp in H. by apply elem_of_map_to_list in H. }
  unfold oldest. destruct order as [|ke order].
  - apply Permutation_nil in Hp. apply map_to_list_empty_iff in Hp as ->.
    rewrite map_size_empty in Hs. lia.
  - simpl. destruct (oldest_in order j (fst ke)) as [->|H]; [| | |done].
    + intros _. rewrite Hin; [eauto|left].
    + intros ke' Hk. apply Hin. by right.
    + rewrite Hin; [eauto|left].
Qed.

Definition ranges (range : nat -> Journal -> list (string * JournalEntry)) : Prop :=
  forall i j, range i j ≡ₚ map_to_list j.

Lemma evict_spec fuel i range max j :
  ranges range -> (size j <= fuel + max)%nat ->
  let j' := evict fuel i range max j in
  (size j' <= max)%nat /\ j' ⊆ j /\ ((size j <= max)%nat -> j' = j).
Proof.
  intros Hr. revert i j. induction fuel as [|fuel IH]; intros i j Hs; simpl.
  - assert (size j <=? max = true)%nat as -> by (apply Nat.leb_le; lia). split_and!; [lia|done|done].
  - destruct (Nat.leb_spec (size j) max) as [Hle|Hgt]; [done|].
    destruct (oldest_picks (range i j) j (Hr i j)) as [en Hen]; [lia|].
    assert (size (delete (oldest (range i j) j) j) = (size j - 1)%nat) as Hdel.
    { rewrite map_size_delete_Some by eauto. lia. }
    destruct (IH (S i) (delete (oldest (range i j) j) j)) as (H1 & H2 & _); [lia|].
    split_and!; [done| |lia]. etrans; [exact H2|]. apply delete_subseteq.
Qed.

(** Saving the journal terminates within its own size and leaves at most
    the configured number of entries, all of them unaltered; it evicts nothing
    while there is room. *)
Theorem SaveJournal_bounded ok range max j disk :
  ranges range ->
  let '(saved, j', disk') := SaveJournal ok range max j disk in
  (size j' <= max)%nat /\ j' ⊆ j /\ ((size j <= max)%nat -> j' = j) /\ saved = ok /\
  desired_state disk' = desired_state disk /\
  operation_journal disk' = if ok then Present j' else operation_journal disk.
Proof.
  intros Hr. unfold SaveJournal. destruct (evict_spec (size j) 0 range max j Hr) as (H1 & H2 & H3); [lia|].
  by destruct ok.
Qed.

(** ** One call *)

Section agent.
Context {X E : Type} `{!XrayManager X E}.
Implicit Types (a : Agent X) (e : call_env E).

Definition untouched_by_journal a a' : Prop :=
  ag_snapshot a' = ag_snapshot a /\ ag_xray a' = ag_xray a /\ ag_nodeID a' = ag_nodeID a /\
  desired_state (ag_disk a') = desired_state (ag_disk a).

Lemma finish_outcome e d h rev a r a' :
  finish e d h rev a = (r, a') ->
  untouched_by_journal a a' /\
  ((r = Ok (newResult d rev (ce_now e)) /\ ce_journal e = true /\ operation_journal (ag_disk a') = Present (ag_journal a')) \/
   (r = Err ErrJournal /\ ce_journal e = false /\ ag_disk a' = ag_disk a /\ ag_journal a' !! OperationID d = None)).
Proof.
  unfold finish, recordJournal, SaveJournal, untouched_by_journal. simpl.
  destruct (ce_journal e); intros [= <- <-]; simpl; split_and!; auto.
  right. by rewrite lookup_delete, decide_True.
Qed.

Lemma evict_subseteq fuel i range max (j : Journal) : evict fuel i range max j ⊆ j.
Proof.
  revert i j. induction fuel as [|fuel IH]; intros i j; simpl; destruct (_ <=? _)%nat; try done.
  etrans; [apply IH|]. apply delete_subseteq.
Qed.

(** The entry a call leaves under its operation, if it is still there. *)
Lemma finish_entry e d h rev a r a' en :
  finish e d h rev a = (r, a') -> ag_journal a' !! OperationID d = Some en ->
  je_RequestHash en = h /\ exists rev now, je_Result en = newResult d rev now.
Proof.
  unfold finish, recordJournal, SaveJournal. simpl.
  set (j := <[OperationID d := _]> (ag_journal a)). pose proof (evict_subseteq (size j) 0 (ce_range e) (ag_maxJournal a) j) as Hsub.
  destruct (ce_journal e); intros [= <- <-]; simpl.
  - intros H. eapply lookup_weaken in H; [|exact Hsub]. unfold j in H.
    rewrite lookup_insert, decide_True in H by done. injection H as <-. simpl. eauto.
  - by rewrite lookup_delete, decide_True.
Qed.

(** Everything a call can do. *)
Lemma Apply_outcome e d a r a' :
  Apply e d a = (r, a') ->
  let s := ag_snapshot a in let next := next_snapshot d s in
  (a' = a /\ (r = Err ErrConflict \/ r = Err ErrStale \/
     exists en, ag_journal a !! OperationID d = Some en /\ je_RequestHash en = hashDesired d /\ r = Ok (je_Result en))) \/
  (validateDesired d = true /\ ag_journal a !! OperationID d = None /\
    ((exists c, sn_Credentials s !! CredentialID d = Some c /\ DesiredRevision d = c_DesiredRevision c /\
        sameDesired c d = true /\ finish e d (hashDesired d) (sn_ConfigRevision s) a = (r, a')) \/
     ((forall c, sn_Credentials s !! CredentialID d = Some c -> c_DesiredRevision c < DesiredRevision d) /\
      exists ok x1, xapply (ce_reload e) next (ag_xray a) = (ok, x1) /\
        ((ok = false /\ r = Err ErrXray /\ a' = set_state s x1 (ag_disk a) a) \/
         (ok = true /\ ce_save e = false /\ exists ok2 x2, xapply (ce_restore e) s x1 = (ok2, x2) /\
            r = Err (if ok2 : bool then ErrPersist else ErrPersistAndRestore) /\
            a' = set_state s x2 (ag_disk a) a) \/
         (ok = true /\ ce_save e = true /\
            finish e d (hashDesired d) (sn_ConfigRevision next)
              (set_state next x1 (MkDisk (Present next) (operation_journal (ag_disk a))) a) = (r, a')))))).
Proof.
  cbv zeta. unfold Apply. destruct (validateDesired d) eqn:Hv; simpl; [|intros [= <- <-]; auto].
  destruct (ag_journal a !! OperationID d) as [en|] eqn:Hj.
  { case_bool_decide; simpl; intros [= <- <-]; left; eauto 10. }
  assert (forall r a', (let '(reloaded, x1) := xapply (ce_reload e) (next_snapshot d (ag_snapshot a)) (ag_xray a) in
      if negb reloaded then (Err ErrXray, set_state (ag_snapshot a) x1 (ag_disk a) a)
      else let '(saved, disk1) := SaveSnapshot (ce_save e) (next_snapshot d (ag_snapshot a)) (ag_disk a) in
        if negb saved then let '(restored, x2) := xapply (ce_restore e) (ag_snapshot a) x1 in
          (Err (if restored : bool then ErrPersist else ErrPersistAndRestore), set_state (ag_snapshot a) x2 disk1 a)
        else finish e d (hashDesired d) (sn_ConfigRevision (next_snapshot d (ag_snapshot a)))
               (set_state (next_snapshot d (ag_snapshot a)) x1 disk1 a)) = (r, a') ->
     exists ok x1, xapply (ce_reload e) (next_snapshot d (ag_snapshot a)) (ag_xray a) = (ok, x1) /\
        ((ok = false /\ r = Err ErrXray /\ a' = set_state (ag_snapshot a) x1 (ag_disk a) a) \/
         (ok = true /\ ce_save e = false /\ exists ok2 x2, xapply (ce_restore e) (ag_snapshot a) x1 = (ok2, x2) /\
            r = Err (if ok2 : bool then ErrPersist else ErrPersistAndRestore) /\
            a' = set_state (ag_snapshot a) x2 (ag_disk a) a) \/
         (ok = true /\ ce_save e = true /\
            finish e d (hashDesired d) (sn_ConfigRevision (next_snapshot d (ag_snapshot a)))
              (set_state (next_snapshot d (ag_snapshot a)) x1
                 (MkDisk (Present (next_snapshot d (ag_snapshot a))) (operation_journal (ag_disk a))) a) = (r, a')))) as Hfresh.
  { intros r0 a0. destruct (xapply (ce_reload e) _ _) as [ok x1]. exists ok, x1. split; [done|].
    destruct ok; simpl in *; [|naive_solver]. unfold SaveSnapshot in *. destruct (ce_save e); simpl in *; [by eauto 10|].
    destruct (xapply (ce_restore e) _ _) as [ok2 x2]. simplify_eq. right; left. split_and!; eauto. }
  destruct (sn_Credentials (ag_snapshot a) !! CredentialID d) as [c|] eqn:Hc.
  - destruct (Z.ltb_spec (DesiredRevision d) (c_DesiredRevision c)); [intros [= <- <-]; auto|].
    destruct (Z.eqb_spec (DesiredRevision d) (c_DesiredRevision c)).
    + destruct (sameDesired c d) eqn:Hs; simpl; [|intros [= <- <-]; auto]. intros H'. right. eauto 10.
    + intros H'%Hfresh. right. split_and!; [done|done|]. right. split; [|done].
      intros c' [= <-]. lia.
  - intros H'%Hfresh. right. split_and!; [done|done|]. right. by split.
Qed.

(** ** The agent's invariant *)

(** The snapshot in memory is valid, belongs to this node and is what a
    restart would load. *)
Record agent_inv (a : Agent X) : Prop := {
  ai_node : sn_NodeID (ag_snapshot a) = ag_nodeID a;
  ai_valid : validateSnapshot (ag_snapshot a) = true;
  ai_disk : desired_state (ag_disk a) = Present (ag_snapshot a) \/
    (desired_state (ag_disk a) = Missing /\ ag_snapshot a = MkSnapshot (ag_nodeID a) 0 ∅);
  ai_journal : operation_journal (ag_disk a) <> Corrupt;
  ai_xray : xinv (ag_xray a)
}.
Definition room (a : Agent X) : Prop := sn_ConfigRevision (ag_snapshot a) < 2 ^ 63 - 1.

Lemma next_revision s :
  validateSnapshot s = true -> sn_ConfigRevision s < 2 ^ 63 - 1 ->
  forall d, sn_ConfigRevision (next_snapshot d s) = sn_ConfigRevision s + 1.
Proof. intros (_ & H & _)%validateSnapshot_true Hr d. simpl. rewrite int64_id; unfold is_int64; lia. Qed.

Lemma installed_credential_absent d :
  validateDesired d = true ->
  installed_credential d = MkCredential (CredentialID d) (DesiredRevision d) (State d) (Protocol d) (VLESSClientUUID d).
Proof.
  intros (_ & _ & _ & [(Es & _)|(Es & E1 & E2)])%validateDesired_true; unfold installed_credential; rewrite Es; simpl;
    [done|by rewrite E1, E2].
Qed.
Lemma validate_installed d : validateDesired d = true ->
  validateDesired (as_desired (CredentialID d) (installed_credential d)) = true.
Proof.
  intros Hv. rewrite installed_credential_absent by done. unfold as_desired. simpl.
  unfold validateDesired in *. simpl. destruct (uuidPattern (OperationID d)) eqn:H1; [|done].
  change (uuidPattern probe_operation) with true. exact Hv.
Qed.

Lemma next_valid d s :
  validateDesired d = true -> validateSnapshot s = true -> sn_ConfigRevision s < 2 ^ 63 - 1 ->
  validateSnapshot (next_snapshot d s) = true.
Proof.
  intros Hd Hs Hr. pose proof (next_revision s Hs Hr d) as Hn.
  apply validateSnapshot_true in Hs as (H1 & H2 & H3).
  apply validateSnapshot_true. split_and!; [done|lia|]. intros k c. simpl. rewrite lookup_insert.
  case_decide; [|apply H3]. subst. intros [= <-]. split; [|by apply validate_installed].
  by rewrite installed_credential_absent.
Qed.

Lemma finish_inv e d h rev a r a' :
  agent_inv a -> finish e d h rev a = (r, a') -> agent_inv a'.
Proof.
  intros [I1 I2 I3 I4 I5] H. apply finish_outcome in H as [(H1 & H2 & H3 & H4) Hj].
  split; rewrite ?H1, ?H2, ?H3, ?H4; try done.
  destruct Hj as [(_ & _ & ->)|(_ & _ & -> & _)]; done.
Qed.

(** C34: whatever the agent is asked, and whichever reload, file write or
    clock misbehaves, the desired state it holds stays valid (in
    particular, a credential marked absent keeps no client secret), stays
    that of its node, and is exactly what the state file holds. *)
Theorem Apply_keeps_invariant e d a r a' :
  agent_inv a -> room a -> Apply e d a = (r, a') -> agent_inv a'.
Proof.
  intros HI Hroom H. pose proof HI as [I1 I2 I3 I4 I5].
  destruct (Apply_outcome _ _ _ _ _ H) as [[-> _]|(Hv & Hj & [(c & Hc & Hrev & Hs & Hf)|(Hnew & ok & x1 & Hx & Hcase)])];
    [done|by eapply finish_inv|].
  pose proof (xapply_inv (ce_reload e) (next_snapshot d (ag_snapshot a)) (ag_xray a) I5) as Hx1. rewrite Hx in Hx1. simpl in Hx1.
  destruct Hcase as [(-> & -> & ->)|[(-> & Hsv & ok2 & x2 & Hx2 & -> & ->)|(-> & Hsv & Hf)]].
  - by split.
  - pose proof (xapply_inv (ce_restore e) (ag_snapshot a) x1 Hx1) as Hx2'. rewrite Hx2 in Hx2'. by split.
  - eapply finish_inv; [|exact Hf]. split; simpl; [done|by apply next_valid|by left|done|done].
Qed.

(** The state files are short enough to be read back. *)
Definition fits (disk : Disk) : Prop :=
  (forall s, desired_state disk = Present s -> go_len (json_snapshot s) <= maxStateBytes) /\
  (forall j, operation_journal disk = Present j -> go_len (json_journal j) <= maxStateBytes).

(** What a restart reads: the state of the running agent, or nothing at all
    when a file has grown too long. *)
Lemma Load_running a : agent_inv a ->
  match Load (ag_nodeID a) (ag_disk a) with
  | Ok (s, j) => fits (ag_disk a) /\ s = ag_snapshot a /\
      match operation_journal (ag_disk a) with Present j' => j = j' | _ => j = ∅ end
  | Err err => ~ fits (ag_disk a) /\ exists what, err = ErrInvalid what
  end.
Proof.
  intros [I1 I2 I3 I4 I5]. unfold Load, fits. pose proof I2 as (_ & Hrev & _)%validateSnapshot_true.
  assert (negb (bool_decide (sn_NodeID (ag_snapshot a) = ag_nodeID a)) || (sn_ConfigRevision (ag_snapshot a) <? 0) = false) as Hid.
  { rewrite bool_decide_eq_true_2 by done. simpl. apply Z.ltb_ge. lia. }
  revert I3 I4. generalize (operation_journal (ag_disk a)) as fj. generalize (desired_state (ag_disk a)) as fs.
  intros fs fj I3 I4.
  assert (match readJSON json_snapshot fs with
          | Missing => ag_snapshot a = MkSnapshot (ag_nodeID a) 0 ∅ /\ fs = Missing
          | Corrupt => exists s, fs = Present s /\ ~ go_len (json_snapshot s) <= maxStateBytes
          | Present s => fs = Present (ag_snapshot a) /\ s = ag_snapshot a /\ go_len (json_snapshot s) <= maxStateBytes
          end) as Hs.
  { destruct I3 as [->|[-> ->]]; [|done]. unfold readJSON. destruct (Z.leb_spec (go_len (json_snapshot (ag_snapshot a))) maxStateBytes);
      [done|]. eexists. split; [done|lia]. }
  assert (match readJSON json_journal fj with
          | Missing => fj = Missing
          | Corrupt => exists j, fj = Present j /\ ~ go_len (json_journal j) <= maxStateBytes
          | Present j => fj = Present j /\ go_len (json_journal j) <= maxStateBytes
          end) as Hj.
  { destruct fj as [| |j]; [done|done|]. unfold readJSON. destruct (Z.leb_spec (go_len (json_journal j)) maxStateBytes);
      [done|]. eexists. split; [done|lia]. }
  destruct (readJSON json_snapshot fs) as [| |s].
  - destruct Hs as [<- ->]. rewrite Hid. destruct (readJSON json_journal fj) as [| |j].
    + by subst fj.
    + destruct Hj as (j & -> & Hlen). split; [|eauto]. intros [_ H]. by apply Hlen, H.
    + destruct Hj as [-> Hlen]. split_and!; [done|by intros ? [= <-]|done..].
  - destruct Hs as (s & -> & Hlen). split; [|eauto]. intros [H _]. by apply Hlen, H.
  - destruct Hs as (-> & -> & Hls). rewrite Hid. destruct (readJSON json_journal fj) as [| |j].
    + subst fj. split_and!; [by intros ? [= <-]|done..].
    + destruct Hj as (j & -> & Hlen). split; [|eauto]. intros [_ H]. by apply Hlen, H.
    + destruct Hj as [-> Hlen]. split_and!; [by intros ? [= <-]|by intros ? [= <-]|done..].
Qed.

(** C35: a restart loses nothing, as long as the state files can be read
    back: the agent that starts on the state files of a running one holds the
    same desired state and the journal as it was last written, and Xray
    serves that state; otherwise it is Xray that does not come up. A file
    whose text is longer than the 16 MiB the agent reads makes the start
    fail, whatever it holds. *)
Theorem restart_recovers a version maxJournal (ev : E) (x : X) :
  agent_inv a -> version <> "" -> uuidPattern (ag_nodeID a) = true ->
  match NewService (ag_nodeID a) version maxJournal ev (ag_disk a) x with
  | Ok a' => fits (ag_disk a) /\ ag_snapshot a' = ag_snapshot a /\ ag_disk a' = ag_disk a /\
      match operation_journal (ag_disk a) with Present j => ag_journal a' = j | _ => ag_journal a' = ∅ end /\
      exists c, serving (ag_xray a') = Some c /\ rendered (ag_snapshot a) c
  | Err err => (fits (ag_disk a) /\ err = ErrXray) \/ (~ fits (ag_disk a) /\ exists what, err = ErrInvalid what)
  end.
Proof.
  intros HI Hver Hid. unfold NewService. rewrite Hid, bool_decide_eq_false_2 by done. simpl.
  pose proof (Load_running a HI) as HL. destruct (Load _ _) as [[s j]|err]; [|by right].
  destruct HL as (Hf & -> & Hj). rewrite (ai_valid _ HI). simpl.
  destruct (xstart ev (ag_snapshot a) x) as [[] x1] eqn:Hx; simpl; [|by left].
  apply xstart_success in Hx as (_ & c & Hc & _ & Hren). split_and!; [done..|]. eauto.
Qed.

Lemma Apply_result e d a r a' :
  agent_inv a -> room a -> ag_journal a !! OperationID d = None -> Apply e d a = (r, a') ->
  let applied :=
    sn_Credentials (ag_snapshot a') = <[CredentialID d := installed_credential d]> (sn_Credentials (ag_snapshot a)) in
  match r with
  | Ok res => applied /\ res = newResult d (sn_ConfigRevision (ag_snapshot a')) (ce_now e) /\
      sn_ConfigRevision (ag_snapshot a) <= sn_ConfigRevision (ag_snapshot a') <= sn_ConfigRevision (ag_snapshot a) + 1
  | Err ErrJournal => applied
  | Err _ => ag_snapshot a' = ag_snapshot a /\ ag_disk a' = ag_disk a /\ ag_journal a' = ag_journal a
  end.
Proof.
  intros HI Hroom Hj H. cbv zeta.
  destruct (Apply_outcome _ _ _ _ _ H) as [[-> [->|[->|(en & Hen & _)]]]|(Hv & _ & [(c & Hc & Hrev & Hs & Hf)|(Hnew & ok & x1 & Hx & Hcase)])];
    [done|done|congruence| |].
  - apply finish_outcome in Hf as [(H1 & _ & _ & _) Hj']. rewrite H1.
    assert (sn_Credentials (ag_snapshot a) = <[CredentialID d := installed_credential d]> (sn_Credentials (ag_snapshot a))) as Happ.
    { rewrite insert_id; [done|]. rewrite Hc, installed_credential_absent by done. f_equal.
      pose proof (ai_valid _ HI) as (_ & _ & Hcr)%validateSnapshot_true. destruct (Hcr _ _ Hc) as [Hid _].
      unfold sameDesired in Hs. rewrite !andb_true_iff, !bool_decide_eq_true in Hs. destruct c; simpl in *.
      destruct Hs as [[-> ->] ->]. by subst. }
    destruct Hj' as [(-> & _)|(-> & _)]; [|done]. split_and!; [done|done|lia|lia].
  - pose proof (next_revision _ (ai_valid _ HI) Hroom d) as Hn.
    destruct Hcase as [(-> & -> & ->)|[(-> & Hsv & ok2 & x2 & Hx2 & -> & ->)|(-> & Hsv & Hf)]]; [done|by destruct ok2|].
    apply finish_outcome in Hf as [(H1 & _ & _ & _) Hj']. rewrite H1.
    destruct Hj' as [(-> & _)|(-> & _)]; [|done]. simpl in *. split_and!; [done|done|lia|lia].
Qed.

(** An accepted request takes effect exactly: afterwards the credential
    is in the requested state at the requested revision, every other
    credential is as it was, and the answer reports the configuration
    revision in force. A request that fails changes no credential, except
    that one whose journal entry could not be written may have been applied
    in full. *)
Theorem Apply_effect e d a r a' :
  agent_inv a -> room a -> ag_journal a !! OperationID d = None -> Apply e d a = (r, a') ->
  let applied :=
    sn_Credentials (ag_snapshot a') = <[CredentialID d := installed_credential d]> (sn_Credentials (ag_snapshot a)) in
  match r with
  | Ok res => applied /\ res = newResult d (sn_ConfigRevision (ag_snapshot a')) (ce_now e) /\
      sn_ConfigRevision (ag_snapshot a) <= sn_ConfigRevision (ag_snapshot a') <= sn_ConfigRevision (ag_snapshot a) + 1
  | Err ErrJournal => applied
  | Err _ => ag_snapshot a' = ag_snapshot a /\ ag_disk a' = ag_disk a /\ ag_journal a' = ag_journal a
  end.
Proof. apply Apply_result. Qed.

(** Desired revisions only move forward: no call removes a credential
    or lowers its revision, and a request below the current revision is
    refused as stale without any effect. *)
Theorem revisions_monotone e d a r a' :
  Apply e d a = (r, a') ->
  (forall k c, sn_Credentials (ag_snapshot a) !! k = Some c -> exists c',
     sn_Credentials (ag_snapshot a') !! k = Some c' /\ c_DesiredRevision c <= c_DesiredRevision c') /\
  (forall c, validateDesired d = true -> ag_journal a !! OperationID d = None ->
     sn_Credentials (ag_snapshot a) !! CredentialID d = Some c -> DesiredRevision d < c_DesiredRevision c ->
     r = Err ErrStale /\ a' = a).
Proof.
  intros H. split.
  - intros k c Hk.
    assert (ag_snapshot a' = ag_snapshot a -> exists c', sn_Credentials (ag_snapshot a') !! k = Some c' /\
      c_DesiredRevision c <= c_DesiredRevision c') as Hsame by (intros ->; exists c; split; [done|lia]).
    destruct (Apply_outcome _ _ _ _ _ H) as [[-> _]|(Hv & _ & [(c0 & Hc & Hrev & Hs & Hf)|(Hnew & ok & x1 & Hx & Hcase)])].
    + by apply Hsame.
    + apply finish_outcome in Hf as [(H1 & _) _]. by apply Hsame.
    + destruct Hcase as [(-> & -> & ->)|[(-> & Hsv & ok2 & x2 & Hx2 & -> & ->)|(-> & Hsv & Hf)]]; [by apply Hsame..|].
      apply finish_outcome in Hf as [(-> & _) _]. simpl. rewrite lookup_insert. case_decide as Hid; [|exists c; split; [done|lia]].
      subst k. exists (installed_credential d). split; [done|]. specialize (Hnew _ Hk).
      rewrite installed_credential_absent by done. simpl. lia.
  - intros c Hv Hj Hc Hlt. revert H. unfold Apply. rewrite Hv, Hj, Hc. simpl.
    destruct (Z.ltb_spec (DesiredRevision d) (c_DesiredRevision c)); [|lia]. by intros [= <- <-].
Qed.

(** A request is safe to repeat: after it succeeded, or failed only in
    writing the journal, sending it again (with a journal that can be
    written) succeeds with the same credential, revision and state, and
    changes no credential; even if its journal entry was evicted. *)
Theorem Apply_repeatable e e' d a r a' :
  agent_inv a -> room a -> Apply e d a = (r, a') -> (is_ok r = true \/ r = Err ErrJournal) -> ce_journal e' = true ->
  exists res a'', Apply e' d a' = (Ok res, a'') /\ ag_snapshot a'' = ag_snapshot a' /\
    (ag_journal a !! OperationID d = None ->
     ar_CredentialID res = CredentialID d /\ ar_DesiredRevision res = DesiredRevision d /\ ar_State res = State d).
Proof.
  intros HI Hroom H Hr Hj'. pose proof (Apply_result e d a r a' HI Hroom) as Heff.
  destruct (Apply_outcome _ _ _ _ _ H) as [[-> Hcase]|(Hv & Hj & Hcase)].
  - destruct Hcase as [->|[->|(en & Hen & Hh & ->)]]; [by destruct Hr|by destruct Hr|].
    exists (je_Result en), a. split_and!; [|done|congruence].
    revert H. unfold Apply. destruct (validateDesired d); [|done]. simpl. by rewrite Hen, bool_decide_eq_true_2.
  - assert (sn_Credentials (ag_snapshot a') !! CredentialID d = Some (installed_credential d) /\
      (forall en, ag_journal a' !! OperationID d = Some en -> je_RequestHash en = hashDesired d /\
         exists rev now, je_Result en = newResult d rev now)) as [Hc Hen].
    { split.
      - specialize (Heff Hj H). cbv zeta in Heff.
        assert (sn_Credentials (ag_snapshot a') = <[CredentialID d := installed_credential d]> (sn_Credentials (ag_snapshot a)))
          as -> by (destruct Hr as [Hr| ->]; [destruct r; [apply Heff|done]|done]).
        by rewrite lookup_insert, decide_True.
      - intros en0 Hen0.
        destruct Hcase as [(c & _ & _ & _ & Hf)|(_ & ok & x1 & _ & Hcase)]; [eapply finish_entry; eauto|].
        destruct Hcase as [(_ & -> & _)|[(_ & _ & ok2 & x2 & _ & -> & _)|(_ & _ & Hf)]];
          [by destruct Hr|destruct Hr; by destruct ok2|eapply finish_entry; eauto]. }
    unfold Apply. rewrite Hv. simpl. destruct (ag_journal a' !! OperationID d) as [en|] eqn:Hen'.
    + destruct (Hen en eq_refl) as (-> & rev & now & Hres). rewrite bool_decide_eq_true_2 by done. simpl.
      exists (je_Result en), a'. by rewrite Hres.
    + rewrite Hc, installed_credential_absent by done. simpl. rewrite Z.ltb_irrefl, Z.eqb_refl.
      unfold sameDesired. simpl. rewrite !bool_decide_eq_true_2 by done. simpl.
      destruct (finish e' d _ _ a') as [r2 a2] eqn:Hf. apply finish_outcome in Hf as [(H1 & _) Hf].
      destruct Hf as [(-> & _)|(_ & Hf & _)]; [|congruence]. eexists _, a2. by split_and!.
Qed.

(** What Xray runs, and what it would be started with. *)
Definition runs (a : Agent X) (c : XrayConfig) : Prop := serving (ag_xray a) = Some c \/ installed (ag_xray a) = Some c.

Lemma Apply_xinv e d a r a' : xinv (ag_xray a) -> Apply e d a = (r, a') -> xinv (ag_xray a').
Proof.
  intros I5 H. destruct (Apply_outcome _ _ _ _ _ H) as [[-> _]|(_ & _ & [(c & _ & _ & _ & Hf)|(_ & ok & x1 & Hx & Hcase)])]; [done| |].
  - by apply finish_outcome in Hf as [(_ & -> & _) _].
  - pose proof (xapply_inv (ce_reload e) (next_snapshot d (ag_snapshot a)) _ I5) as Hx1. rewrite Hx in Hx1.
    destruct Hcase as [(-> & -> & ->)|[(-> & _ & ok2 & x2 & Hx2 & -> & ->)|(-> & _ & Hf)]]; [done| |].
    + pose proof (xapply_inv (ce_restore e) (ag_snapshot a) x1 Hx1) as Hx3. by rewrite Hx2 in Hx3.
    + by apply finish_outcome in Hf as [(_ & -> & _) _].
Qed.

(** Whatever fails, Xray ends up with a configuration it had, with one
    rendered from the desired state the agent now holds, or with one rendered
    from the request the agent could not complete. *)
Lemma Apply_runs e d a r a' cfg : xinv (ag_xray a) -> Apply e d a = (r, a') -> runs a' cfg ->
  (ag_snapshot a' = ag_snapshot a /\ runs a cfg) \/ rendered (ag_snapshot a') cfg \/
  (ag_snapshot a' = ag_snapshot a /\ (r = Err ErrXray \/ r = Err ErrPersistAndRestore) /\
   validateDesired d = true /\
   (forall c, sn_Credentials (ag_snapshot a) !! CredentialID d = Some c -> c_DesiredRevision c < DesiredRevision d) /\
   rendered (next_snapshot d (ag_snapshot a)) cfg).
Proof.
  intros I5 H. unfold runs.
  destruct (Apply_outcome _ _ _ _ _ H) as [[-> _]|(Hv & _ & [(c & _ & _ & _ & Hf)|(Hnew & ok & x1 & Hx & Hcase)])]; [by left| |].
  - apply finish_outcome in Hf as [(-> & -> & _) _]. by left.
  - pose proof (xapply_inv (ce_reload e) (next_snapshot d (ag_snapshot a)) _ I5) as Hx1. rewrite Hx in Hx1.
    destruct Hcase as [(-> & -> & ->)|[(-> & _ & ok2 & x2 & Hx2 & -> & ->)|(-> & _ & Hf)]]; simpl.
    + intros Hs. destruct (xapply_failure _ _ _ _ _ I5 Hx Hs) as [?|[?|?]]; [auto..|]. right. right. auto.
    + destruct ok2.
      * apply xapply_success in Hx2 as (c & Hc1 & Hc2 & Hren); [|done]. rewrite Hc1, Hc2.
        intros [[= <-]|[= <-]]; auto.
      * intros Hs. apply xapply_success in Hx as (c & Hc1 & Hc2 & Hren); [|done].
        destruct (xapply_failure _ _ _ _ _ Hx1 Hx2 Hs) as [Hs'|[Hs'|?]]; [| |auto];
          simpl in Hs'; assert (c = cfg) as -> by congruence; right; right; auto 8.
    + apply finish_outcome in Hf as [(-> & -> & _) _]. simpl.
      apply xapply_success in Hx as (c & Hc1 & Hc2 & Hren); [|done]. rewrite Hc1, Hc2. intros [[= <-]|[= <-]]; auto.
Qed.

(** The process that runs, and the file it would start from, hold the
    configuration of the agent's desired state. *)
Definition in_sync (a : Agent X) : Prop := forall c, runs a c -> rendered (ag_snapshot a) c.

(** Xray serves what the agent believes, unless the last reload failed: when
    the agent reports no failed reload, the live process (if there is one)
    runs the configuration rendered from the agent's desired state and would
    be started with it. A failed reload may leave it with the configuration
    of the request that failed, and with nothing else. *)
Theorem Apply_in_sync e d a r a' :
  agent_inv a -> in_sync a -> Apply e d a = (r, a') ->
  (r <> Err ErrXray -> r <> Err ErrPersistAndRestore -> in_sync a') /\
  (forall c, runs a' c -> rendered (ag_snapshot a') c \/ rendered (next_snapshot d (ag_snapshot a)) c).
Proof.
  intros HI Hsync H. split.
  - intros H1 H2 c Hc. destruct (Apply_runs _ _ _ _ _ _ (ai_xray _ HI) H Hc) as [(-> & Hr)|[?|(_ & [?|?] & _)]]; auto; done.
  - intros c Hc. destruct (Apply_runs _ _ _ _ _ _ (ai_xray _ HI) H Hc) as [(-> & Hr)|[?|(_ & _ & _ & _ & ?)]]; auto.
Qed.
End agent.

(** ** The theorems at work *)

#[local] Instance demo_xray : XrayManager Manager reload_env := process_manager demo_cfg.
Definition in_order (i : nat) (j : Journal) : list (string * JournalEntry) := map_to_list j.
Lemma in_order_ranges : ranges in_order.
Proof. intros i j. reflexivity. Qed.

Definition start_snapshot : Snapshot := MkSnapshot (demo_id "0") 0 ∅.
Definition start_config : XrayConfig := default demo_config (Render [] start_snapshot demo_cfg).
Definition start_agent : Agent Manager :=
  MkAgent (demo_id "0") "v1" 2 start_snapshot ∅ (MkManager (Some start_config) None (Some start_config))
    (MkDisk Missing Missing).
Definition demo_desired (op : string) (rev : Z) : DesiredState :=
  MkDesired (demo_id op) (demo_id "1") rev "present" "vless_reality" (demo_id "a").
Definition demo_call (save journal : bool) : call_env reload_env :=
  MkCallEnv good_reload good_reload save journal 7 in_order.

Lemma start_agent_inv : agent_inv start_agent.
Proof.
  split; [reflexivity|vm_compute; reflexivity|right; split; reflexivity|discriminate|].
  intros c H. exact H.
Qed.
Lemma start_agent_room : room start_agent.
Proof. unfold room. simpl. lia. Qed.

Lemma SaveJournal_bounded_witness :
  let en := fun t => MkEntry "" "" (MkApplyResult "" "" 0 "" 0 0) t in
  let j := {[ "a" := en 3; "b" := en 1; "c" := en 2 ]} : Journal in
  let '(_, j', _) := SaveJournal true in_order 2 j (MkDisk Missing Missing) in
  (size j' <= 2)%nat /\ j' !! "b" = None.
Proof.
  intros en j. pose proof (SaveJournal_bounded true in_order 2 j (MkDisk Missing Missing) in_order_ranges) as H.
  destruct (SaveJournal _ _ _ _ _) as [[saved j'] disk'] eqn:E. destruct H as [H _]. split; [exact H|].
  vm_compute in E. injection E as _ <- _. vm_compute. reflexivity.
Defined.

Definition after_present : Agent Manager := snd (Apply (demo_call true true) (demo_desired "5" 1) start_agent).
Lemma Apply_keeps_invariant_witness : agent_inv after_present.
Proof.
  apply (Apply_keeps_invariant (demo_call true true) (demo_desired "5" 1) start_agent
    (fst (Apply (demo_call true true) (demo_desired "5" 1) start_agent))).
  - apply start_agent_inv.
  - apply start_agent_room.
  - apply surjective_pairing.
Defined.
Lemma restart_recovers_witness :
  match NewService (demo_id "0") "v2" 2 good_reload (ag_disk start_agent) (MkManager None None None) with
  | Ok a' => ag_snapshot a' = start_snapshot
  | Err _ => False
  end.
Proof.
  pose proof (restart_recovers start_agent "v2" 2 good_reload (MkManager None None None) start_agent_inv) as H.
  destruct (NewService _ _ _ _ _ _) as [a'|err] eqn:E.
  - apply H; [discriminate|vm_compute; reflexivity].
  - vm_compute in E. discriminate E.
Defined.
(** The same for an agent that has written both files. *)
Example restart_reads_files :
  match NewService (demo_id "0") "v2" 2 good_reload
    (ag_disk (snd (Apply (demo_call true true) (demo_desired "5" 1) start_agent))) (MkManager None None None) with
  | Ok a' => sn_Credentials (ag_snapshot a') !! demo_id "1" = Some (demo_credential "1") /\ size (ag_journal a') = 1%nat
  | Err _ => False
  end.
Proof. vm_compute. by split. Qed.
Example json_snapshot_demo :
  go_len (json_snapshot (ag_snapshot (snd (Apply (demo_call true true) (demo_desired "5" 1) start_agent)))) = 307.
Proof. vm_compute. reflexivity. Qed.
Lemma Apply_effect_witness :
  is_ok (fst (Apply (demo_call true true) (demo_desired "5" 1) start_agent)) = true /\
  sn_Credentials (ag_snapshot after_present) = {[ demo_id "1" := demo_credential "1" ]}.
Proof.
  split; [vm_compute; reflexivity|].
  pose proof (Apply_effect (demo_call true true) (demo_desired "5" 1) start_agent
    (fst (Apply (demo_call true true) (demo_desired "5" 1) start_agent)) after_present
    start_agent_inv start_agent_room eq_refl (surjective_pairing _)) as H.
  revert H. destruct (fst _) as [res|err] eqn:E; [|vm_compute in E; discriminate E]. intros [H _]. exact H.
Defined.
Lemma revisions_monotone_witness :
  Apply (demo_call true true) (demo_desired "6" 1) (snd (Apply (demo_call true true) (demo_desired "5" 4) start_agent)) =
  (Err ErrStale, snd (Apply (demo_call true true) (demo_desired "5" 4) start_agent)).
Proof.
  set (a := snd (Apply (demo_call true true) (demo_desired "5" 4) start_agent)).
  destruct (revisions_monotone (demo_call true true) (demo_desired "6" 1) a _ _ (surjective_pairing _)) as [_ H].
  destruct (H (MkCredential (demo_id "1") 4 "present" "vless_reality" (demo_id "a"))) as [H1 H2].
  - vm_compute. reflexivity.
  - vm_compute. reflexivity.
  - vm_compute. reflexivity.
  - vm_compute. reflexivity.
  - rewrite (surjective_pairing (Apply _ _ a)), H1, H2. reflexivity.
Defined.

(** The journal could not be written: the caller repeats the request. *)
Lemma Apply_repeatable_witness :
  let a1 := snd (Apply (demo_call true false) (demo_desired "5" 1) start_agent) in
  fst (Apply (demo_call true false) (demo_desired "5" 1) start_agent) = Err ErrJournal /\
  exists res a2, Apply (demo_call true true) (demo_desired "5" 1) a1 = (Ok res, a2) /\ ag_snapshot a2 = ag_snapshot a1.
Proof.
  intros a1. split; [vm_compute; reflexivity|].
  destruct (Apply_repeatable (demo_call true false) (demo_call true true) (demo_desired "5" 1) start_agent
    (Err ErrJournal) a1) as (res & a2 & H1 & H2 & _).
  - apply start_agent_inv.
  - apply start_agent_room.
  - vm_compute. reflexivity.
  - right. reflexivity.
  - reflexivity.
  - exists res, a2. split; [exact H1|exact H2].
Defined.
Lemma start_agent_in_sync : in_sync start_agent.
Proof.
  intros c Hc. unfold runs, start_agent in Hc. simpl in Hc.
  assert (c = start_config) as -> by (destruct Hc as [Hc|Hc]; injection Hc as <-; reflexivity).
  vm_compute. reflexivity.
Qed.
(** The state file could not be written: Xray is back on the old state. *)
Lemma Apply_in_sync_witness :
  in_sync (snd (Apply (demo_call false true) (demo_desired "5" 1) start_agent)).
Proof.
  apply (proj1 (Apply_in_sync (demo_call false true) (demo_desired "5" 1) start_agent (Err ErrPersist)
    _ start_agent_inv start_agent_in_sync ltac:(vm_compute; reflexivity))); discriminate.
Defined.
