(* ===== verification/ProvisioningDomain.v ===== *)
(** * provisioning-service: data and event validation

    src/services/provisioning/internal/domain/types.go and the checks of
    src/services/provisioning/internal/application/service.go. *)

From Stdlib Require Import Ascii List.
From S2P Require Import Prelude GoStrings.

Inductive ProvErr :=
  | ErrNotFound
  | ErrConflict
  | ErrSequenceGap
  | ErrCapacity
  | ErrSQL (what : string).
#[export] Instance ProvErr_eq_dec : EqDecision ProvErr.
Proof. solve_decision. Defined.

Record EventMeta := MkEventMeta {
  EventID : string;
  EventType : string;
  AggregateID : string;
  AggregateSequence : Z;
  PartitionKey : string;
  CorrelationID : string;
  CausationID : option string;
  OccurredAt : Z;
  SourceTopic : string;
  SourcePartition : Z;
  SourceOffset : Z;
  PayloadSHA256 : string
}.

Record Command := MkCommand {
  cmd_OperationID : string;
  cmd_CredentialID : string;
  cmd_DesiredRevision : Z
}.

Inductive Kind := Provision | Revoke.
#[export] Instance Kind_eq_dec : EqDecision Kind.
Proof. solve_decision. Defined.

Record Operation := MkOperation {
  ID : string;
  CredentialID : string;
  OpKind : Kind;
  DesiredRevision : Z;
  CommandSequence : Z;
  Attempts : Z;
  MaxAttempts : Z;
  AllocationRevision : Z;
  op_CorrelationID : string;
  CausationEventID : string
}.

Record CredentialMaterial := MkMaterial {
  mat_CredentialID : string;
  mat_SubscriptionID : string;
  mat_Revision : Z;
  mat_Protocol : string;
  mat_VLESSClientUUID : string
}.

Record Placement := MkPlacement {
  pl_SubscriptionID : string;
  pl_PeriodID : string;
  pl_Region : string;
  pl_PrimaryNodes : Z;
  pl_FailoverNodes : Z;
  pl_ValidUntil : Z
}.

Record Node := MkNode {
  n_ID : string;
  n_Region : string;
  n_ManagementURL : string;
  n_ManagementSPIFFEID : string;
  n_CapacityLimit : Z;
  n_ReservePercent : Z;
  n_AllocatedClients : Z;
  n_PublicAddress : string;
  n_PublicPort : Z;
  n_ServerName : string;
  n_RealityPublicKey : string;
  n_ShortID : string;
  n_SpiderX : string;
  n_Label : string
}.

Inductive Role := Primary | Failover.
#[export] Instance Role_eq_dec : EqDecision Role.
Proof. solve_decision. Defined.
Inductive DesiredState := DPresent | DAbsent.
#[export] Instance DesiredState_eq_dec : EqDecision DesiredState.
Proof. solve_decision. Defined.
Inductive AllocState := APending | AActive | AFailed | ARevoked.
#[export] Instance AllocState_eq_dec : EqDecision AllocState.
Proof. solve_decision. Defined.

Record Allocation := MkAllocation {
  al_ID : string;
  al_CredentialID : string;
  al_DesiredOperationID : string;
  al_Node : Node;
  al_Role : Role;
  al_Protocol : string;
  al_DesiredRevision : Z;
  al_DesiredState : DesiredState;
  al_AllocationRevision : Z;
  al_State : AllocState;
  al_AppliedConfigRevision : Z
}.

Record ReconciliationCandidate := MkCandidate {
  rc_Allocation : Allocation;
  rc_ClaimID : string
}.

Record Endpoint := MkEndpoint {
  ep_NodeID : string;
  ep_Role : Role;
  ep_Address : string;
  ep_Port : Z;
  ep_ServerName : string;
  ep_RealityPublicKey : string;
  ep_ShortID : string;
  ep_SpiderX : string;
  ep_Label : string
}.

Record AgentDesiredState := MkAgentDesired {
  ad_OperationID : string;
  ad_CredentialID : string;
  ad_DesiredRevision : Z;
  ad_State : DesiredState;
  ad_Protocol : string;
  ad_VLESSClientUUID : string
}.

Record AgentResult := MkAgentResult {
  ar_OperationID : string;
  ar_CredentialID : string;
  ar_DesiredRevision : Z;
  ar_State : DesiredState;
  ar_ConfigRevision : Z;
  ar_AppliedAt : Z
}.

Record AgentStatus := MkAgentStatus {
  as_NodeID : string;
  as_ConfigRevision : Z;
  as_ActiveClients : Z;
  as_XrayHealthy : bool;
  as_AgentVersion : string;
  as_XrayVersion : string
}.

Record CredentialActualState := MkActual {
  ac_CredentialID : string;
  ac_DesiredRevision : Z;
  ac_State : DesiredState;
  ac_ConfigRevision : Z
}.

Record NodeSeed := MkSeed {
  sd_ID : string;
  sd_Region : string;
  sd_ManagementURL : string;
  sd_ManagementSPIFFEID : string;
  sd_CapacityLimit : Z;
  sd_ReservePercent : Z;
  sd_PublicAddress : string;
  sd_PublicPort : Z;
  sd_ServerName : string;
  sd_RealityPublicKey : string;
  sd_ShortID : string;
  sd_SpiderX : string;
  sd_Label : string
}.

Record OutboxMessage := MkMessage {
  msg_EventID : string;
  msg_Topic : string;
  msg_PartitionKey : string;
  msg_Attempts : Z
}.

(** ** Validation *)

Definition uuidPattern : string -> bool := any_uuid.

Inductive ServiceErr :=
  | ContractError (code : string)
  | StoreErr (e : ProvErr).
Definition ContractErrorCode (e : ServiceErr) : option string :=
  match e with
  | ContractError code => Some code
  | StoreErr ErrConflict => Some "durable_state_conflict"
  | _ => None
  end.

Definition event_invariant (meta : EventMeta) (command : Command) : bool :=
  uuidPattern (EventID meta) && uuidPattern (AggregateID meta) && uuidPattern (CorrelationID meta) &&
  uuidPattern (cmd_OperationID command) && uuidPattern (cmd_CredentialID command) &&
  bool_decide (cmd_CredentialID command = AggregateID meta) && negb (cmd_DesiredRevision command <? 1) &&
  (AggregateSequence meta =? cmd_DesiredRevision command) &&
  bool_decide (PartitionKey meta = "credential:" +:+ cmd_CredentialID command)%string &&
  negb (OccurredAt meta =? 0) &&
  match CausationID meta with Some c => uuidPattern c | None => true end.

Definition validMaterial (m : CredentialMaterial) (o : Operation) : bool :=
  bool_decide (mat_CredentialID m = CredentialID o) && uuidPattern (mat_CredentialID m) &&
  uuidPattern (mat_SubscriptionID m) && uuidPattern (mat_VLESSClientUUID m) &&
  (mat_Revision m =? DesiredRevision o) && bool_decide (mat_Protocol m = "vless_reality").

Definition validPlacement (p : Placement) (subscriptionID : string) : bool :=
  bool_decide (pl_SubscriptionID p = subscriptionID) && uuidPattern (pl_SubscriptionID p) &&
  uuidPattern (pl_PeriodID p) && (2 <=? go_len (TrimSpace (pl_Region p))) && (go_len (pl_Region p) <=? 64) &&
  bool_decide (TrimSpace (pl_Region p) = pl_Region p) && (pl_PrimaryNodes p =? 1) && (pl_FailoverNodes p =? 1) &&
  negb (pl_ValidUntil p =? 0).
