(* ===== verification/ProvisioningStore.v ===== *)
(** * provisioning-service: the PostgreSQL store

    The tables of src/services/provisioning/migrations and the operations of
    src/services/provisioning/internal/postgres/store.go. [now] is the
    database clock, [wall] the service's own; drawn identifiers, map and
    lock outcomes are arguments. A statement sent to the pool on its own
    commits even when the caller then reports a conflict. *)

From Stdlib Require Import Ascii List.
From S2P Require Import Prelude GoStrings Backoff Platform ProvisioningDomain.

(** ** Tables *)

Inductive NodeStatus := NActive | NDraining | NOffline.
#[export] Instance NodeStatus_eq_dec : EqDecision NodeStatus.
Proof. solve_decision. Defined.

Record node_row := MkNodeRow {
  nd_node : Node;
  nd_status : NodeStatus;
  nd_agent_version : string;
  nd_xray_version : string;
  nd_config_revision : Z;
  nd_last_seen_at : option Z
}.

Inductive OpState := SPending | SProcessing | SRetry | SSucceeded | SFailed | SSuperseded.
#[export] Instance OpState_eq_dec : EqDecision OpState.
Proof. solve_decision. Defined.

Record operation_row := MkOpRow {
  op_id : string;
  op_credential_id : string;
  op_kind : Kind;
  op_desired_revision : Z;
  op_command_sequence : Z;
  op_state : OpState;
  op_attempts : Z;
  op_max_attempts : Z;
  op_next_attempt_at : Z;
  op_lease_until : option Z;
  op_allocation_revision : Z;
  op_last_error_code : option string;
  op_correlation_id : string;
  op_causation_event_id : string;
  op_created_at : Z;
  op_completed_at : option Z
}.

Record allocation_row := MkAllocRow {
  a_id : string;
  a_credential_id : string;
  a_operation_id : string;
  a_desired_operation_id : string;
  a_node_id : string;
  a_role : Role;
  a_protocol : string;
  a_desired_revision : Z;
  a_desired_state : DesiredState;
  a_allocation_revision : Z;
  a_state : AllocState;
  a_applied_config_revision : option Z;
  a_last_error_code : option string;
  a_created_at : Z;
  a_applied_at : option Z;
  a_revoked_at : option Z;
  a_next_reconcile_at : Z;
  a_reconcile_lease_until : option Z;
  a_reconcile_claim_id : option string;
  a_reconcile_attempts : Z
}.

Record command_row := MkCommandRow {
  ci_event_type : string;
  ci_credential_id : string;
  ci_operation_id : string;
  ci_aggregate_sequence : Z;
  ci_desired_revision : Z;
  ci_correlation_id : string;
  ci_source : string * Z * Z;
  ci_payload_sha256 : string
}.
#[export] Instance command_row_eq_dec : EqDecision command_row.
Proof. solve_decision. Defined.

Inductive ReplayState := RAvailable | RRequested | RReplayed.
#[export] Instance ReplayState_eq_dec : EqDecision ReplayState.
Proof. solve_decision. Defined.
Record dead_letter_row := MkDeadLetter {
  dl_payload_sha256 : string;
  dl_reason_code : string;
  dl_replay_state : ReplayState
}.

Inductive event_data :=
  | DeadLetterData (topic : string) (partition offset : Z) (hash reason : string)
  | ProvisionSucceeded (operationID credentialID : string) (appliedRevision : Z) (status : string)
      (assignedNodeIDs : list string) (endpoints : list Endpoint) (appliedAt : Z)
  | ProvisionFailed (operationID credentialID : string) (failedRevision : Z) (scope reason : string)
      (pending : list string) (failedAt : Z)
  | RevokeSucceeded (operationID credentialID : string) (desiredRevision allocationRevision : Z)
      (nodeIDs : list string) (revokedAt : Z)
  | RevokeFailed (operationID credentialID : string) (failedRevision : Z) (reason : string)
      (pending : list string) (failedAt : Z).

Inductive OutState := OPending | OProcessing | OPublished.
#[export] Instance OutState_eq_dec : EqDecision OutState.
Proof. solve_decision. Defined.
Record outbox_row := MkOutRow {
  o_event_id : string;
  o_topic : string;
  o_partition_key : string;
  o_aggregate_id : string;
  o_aggregate_sequence : option Z;
  o_dedupe_key : string;
  o_payload : Envelope event_data;
  o_state : OutState;
  o_attempts : Z;
  o_next_attempt_at : Z;
  o_lease_until : option Z;
  o_created_at : Z;
  o_published_at : option Z
}.

Record db := MkDB {
  nodes : table node_row;
  command_cursors : gmap string (Z * Z);          (* last_sequence, last_desired_revision *)
  command_inbox : table command_row;
  operations : table operation_row;
  allocations : table allocation_row;
  health_snapshots : list AgentStatus;
  dead_letters : gmap (string * Z * Z) dead_letter_row;
  outbox : table outbox_row;
  outcome_cursors : gmap string Z
}.
Definition empty_db : db := MkDB ∅ ∅ ∅ ∅ ∅ [] ∅ ∅ ∅.

Definition set_nodes f d := MkDB (f (nodes d)) (command_cursors d) (command_inbox d) (operations d) (allocations d) (health_snapshots d) (dead_letters d) (outbox d) (outcome_cursors d).
Definition set_command_cursors f d := MkDB (nodes d) (f (command_cursors d)) (command_inbox d) (operations d) (allocations d) (health_snapshots d) (dead_letters d) (outbox d) (outcome_cursors d).
Definition set_command_inbox f d := MkDB (nodes d) (command_cursors d) (f (command_inbox d)) (operations d) (allocations d) (health_snapshots d) (dead_letters d) (outbox d) (outcome_cursors d).
Definition set_operations f d := MkDB (nodes d) (command_cursors d) (command_inbox d) (f (operations d)) (allocations d) (health_snapshots d) (dead_letters d) (outbox d) (outcome_cursors d).
Definition set_allocations f d := MkDB (nodes d) (command_cursors d) (command_inbox d) (operations d) (f (allocations d)) (health_snapshots d) (dead_letters d) (outbox d) (outcome_cursors d).
Definition set_health f d := MkDB (nodes d) (command_cursors d) (command_inbox d) (operations d) (allocations d) (f (health_snapshots d)) (dead_letters d) (outbox d) (outcome_cursors d).
Definition set_dead_letters f d := MkDB (nodes d) (command_cursors d) (command_inbox d) (operations d) (allocations d) (health_snapshots d) (f (dead_letters d)) (outbox d) (outcome_cursors d).
Definition set_outbox f d := MkDB (nodes d) (command_cursors d) (command_inbox d) (operations d) (allocations d) (health_snapshots d) (dead_letters d) (f (outbox d)) (outcome_cursors d).
Definition set_outcome_cursors f d := MkDB (nodes d) (command_cursors d) (command_inbox d) (operations d) (allocations d) (health_snapshots d) (dead_letters d) (outbox d) (f (outcome_cursors d)).

Abbreviation prov_tx := (tx db ProvErr).

(** ** Row updates *)

Definition set_op (state : OpState) (attempts : Z) (next : Z) (lease : option Z) (err : option string)
    (completed : option Z) (o : operation_row) : operation_row :=
  MkOpRow (op_id o) (op_credential_id o) (op_kind o) (op_desired_revision o) (op_command_sequence o) state attempts
    (op_max_attempts o) next lease (op_allocation_revision o) err (op_correlation_id o) (op_causation_event_id o)
    (op_created_at o) completed.
Definition bind_allocation_revision (rev : Z) (o : operation_row) : operation_row :=
  MkOpRow (op_id o) (op_credential_id o) (op_kind o) (op_desired_revision o) (op_command_sequence o) (op_state o)
    (op_attempts o) (op_max_attempts o) (op_next_attempt_at o) (op_lease_until o) rev (op_last_error_code o)
    (op_correlation_id o) (op_causation_event_id o) (op_created_at o) (op_completed_at o).
Definition set_allocated (f : Z -> Z) (n : node_row) : node_row :=
  let m := nd_node n in
  MkNodeRow (MkNode (n_ID m) (n_Region m) (n_ManagementURL m) (n_ManagementSPIFFEID m) (n_CapacityLimit m)
      (n_ReservePercent m) (f (n_AllocatedClients m)) (n_PublicAddress m) (n_PublicPort m) (n_ServerName m)
      (n_RealityPublicKey m) (n_ShortID m) (n_SpiderX m) (n_Label m))
    (nd_status n) (nd_agent_version n) (nd_xray_version n) (nd_config_revision n) (nd_last_seen_at n).

(** The generation columns of an allocation, and the rest. *)
Definition set_generation (opID : string) (rev : Z) (state : DesiredState) (allocRev : Z) (st : AllocState) (now : Z)
    (a : allocation_row) : allocation_row :=
  MkAllocRow (a_id a) (a_credential_id a) (a_operation_id a) opID (a_node_id a) (a_role a) (a_protocol a) rev state
    allocRev st (a_applied_config_revision a) None (a_created_at a) (a_applied_at a) (a_revoked_at a) now None
    (a_reconcile_claim_id a) (a_reconcile_attempts a).
Definition set_applied (st : AllocState) (config : option Z) (applied revoked : option Z) (now : Z)
    (a : allocation_row) : allocation_row :=
  MkAllocRow (a_id a) (a_credential_id a) (a_operation_id a) (a_desired_operation_id a) (a_node_id a) (a_role a)
    (a_protocol a) (a_desired_revision a) (a_desired_state a) (a_allocation_revision a) st config None
    (a_created_at a) applied revoked now None (a_reconcile_claim_id a) (a_reconcile_attempts a).
Definition set_alloc_failed (reason : string) (a : allocation_row) : allocation_row :=
  MkAllocRow (a_id a) (a_credential_id a) (a_operation_id a) (a_desired_operation_id a) (a_node_id a) (a_role a)
    (a_protocol a) (a_desired_revision a) (a_desired_state a) (a_allocation_revision a) AFailed
    (a_applied_config_revision a) (Some reason) (a_created_at a) (a_applied_at a) (a_revoked_at a)
    (a_next_reconcile_at a) (a_reconcile_lease_until a) (a_reconcile_claim_id a) (a_reconcile_attempts a).
Definition set_reconcile (next : Z) (lease : option Z) (claim : option string) (attempts : Z)
    (a : allocation_row) : allocation_row :=
  MkAllocRow (a_id a) (a_credential_id a) (a_operation_id a) (a_desired_operation_id a) (a_node_id a) (a_role a)
    (a_protocol a) (a_desired_revision a) (a_desired_state a) (a_allocation_revision a) (a_state a)
    (a_applied_config_revision a) (a_last_error_code a) (a_created_at a) (a_applied_at a) (a_revoked_at a)
    next lease claim attempts.

(** ** Commands *)

Definition same_command (existing : command_row) (meta : EventMeta) (command : Command) : bool :=
  bool_decide (ci_event_type existing = EventType meta) &&
  bool_decide (ci_credential_id existing = cmd_CredentialID command) &&
  bool_decide (ci_operation_id existing = cmd_OperationID command) &&
  (ci_aggregate_sequence existing =? AggregateSequence meta) &&
  (ci_desired_revision existing =? cmd_DesiredRevision command) &&
  bool_decide (ci_correlation_id existing = CorrelationID meta) &&
  bool_decide (ci_source existing = (SourceTopic meta, SourcePartition meta, SourceOffset meta)) &&
  bool_decide (ci_payload_sha256 existing = PayloadSHA256 meta).

Definition command_of (meta : EventMeta) (command : Command) : command_row :=
  MkCommandRow (EventType meta) (cmd_CredentialID command) (cmd_OperationID command) (AggregateSequence meta)
    (cmd_DesiredRevision command) (CorrelationID meta) (SourceTopic meta, SourcePartition meta, SourceOffset meta)
    (PayloadSHA256 meta).

Definition is_int4 (z : Z) : bool := (- 2 ^ 31 <=? z) && (z <? 2 ^ 31).
(** The [CHECK]s and the column types of [command_inbox]. *)
Definition command_checks (meta : EventMeta) (command : Command) : bool :=
  (bool_decide (EventType meta = "access.provision.request.v1") ||
   bool_decide (EventType meta = "access.revoke.request.v1")) &&
  (0 <? AggregateSequence meta) && (0 <? cmd_DesiredRevision command) && is_int4 (cmd_DesiredRevision command) &&
  bool_decide (SourceTopic meta = EventType meta) && (0 <=? SourcePartition meta) && (0 <=? SourceOffset meta).
Definition command_unique (meta : EventMeta) (c : command_row) (d : db) : bool :=
  negb (exists_row (fun r =>
    (bool_decide (ci_credential_id r = ci_credential_id c) &&
     (ci_aggregate_sequence r =? ci_aggregate_sequence c)) ||
    bool_decide (ci_source r = ci_source c)) (command_inbox d)).

Definition new_operation (now : Z) (meta : EventMeta) (command : Command) (kind : Kind) (maxAttempts : Z)
    : operation_row :=
  MkOpRow (cmd_OperationID command) (cmd_CredentialID command) kind (cmd_DesiredRevision command)
    (AggregateSequence meta) SPending 0 maxAttempts now None 0 None (CorrelationID meta) (EventID meta) now None.
Definition operation_unique (o : operation_row) (d : db) : bool :=
  bool_decide (operations d !! op_id o = None) &&
  negb (exists_row (fun r => bool_decide (op_credential_id r = op_credential_id o) &&
    ((op_command_sequence r =? op_command_sequence o) || (op_desired_revision r =? op_desired_revision o)))
    (operations d)).

Definition live (s : OpState) : bool := bool_decide (s = SPending \/ s = SProcessing \/ s = SRetry).
Definition supersede (now : Z) (o : operation_row) : operation_row :=
  set_op SSuperseded (op_attempts o) (op_next_attempt_at o) None (Some "superseded_by_higher_revision") (Some now) o.
Definition older_than (credentialID operationID : string) (revision : Z) (o : operation_row) : bool :=
  bool_decide (op_credential_id o = credentialID) && negb (bool_decide (op_id o = operationID)) &&
  (op_desired_revision o <? revision) && live (op_state o).

(** [UPDATE allocations SET desired_operation_id = ..., CASE ... END]. *)
Definition advance_generation (now : Z) (kind : Kind) (opID : string) (revision : Z) (a : allocation_row)
    : allocation_row :=
  match kind with
  | Provision =>
      set_generation opID revision DPresent revision
        (if bool_decide (a_state a = ARevoked) then ARevoked else APending) now a
  | Revoke => set_generation opID revision DAbsent (a_allocation_revision a) (a_state a) now a
  end.

Definition RecordCommand (now : Z) (meta : EventMeta) (command : Command) (kind : Kind) (maxAttempts : Z)
    : prov_tx unit :=
  let* d := get in
  match command_inbox d !! EventID meta with
  | Some existing => require (same_command existing meta command) ErrConflict ;;; commit
  | None =>
      let '(lastSequence, lastRevision) := default (0, 0) (command_cursors d !! cmd_CredentialID command) in
      require (AggregateSequence meta <=? lastSequence + 1) ErrSequenceGap ;;;
      require (negb ((AggregateSequence meta <=? lastSequence) || (cmd_DesiredRevision command <=? lastRevision)))
            ErrConflict ;;;
      let c := command_of meta command in
      require (command_checks meta command) (ErrSQL "insert provisioning command inbox") ;;;
      require (command_unique meta c d) ErrConflict ;;;
      modify (set_command_inbox (insert (EventID meta) c)) ;;;
      let o := new_operation now meta command kind maxAttempts in
      require ((1 <=? maxAttempts) && (maxAttempts <=? 32)) (ErrSQL "insert provisioning operation") ;;;
      require (operation_unique o d) ErrConflict ;;;
      modify (set_operations (insert (cmd_OperationID command) o)) ;;;
      modify (set_operations (update_where
        (older_than (cmd_CredentialID command) (cmd_OperationID command) (cmd_DesiredRevision command))
        (supersede now))) ;;;
      modify (set_allocations (update_where
        (fun a => bool_decide (a_credential_id a = cmd_CredentialID command) &&
                  (a_desired_revision a <? cmd_DesiredRevision command))
        (advance_generation now kind (cmd_OperationID command) (cmd_DesiredRevision command)))) ;;;
      modify (set_command_cursors (insert (cmd_CredentialID command)
        (AggregateSequence meta, cmd_DesiredRevision command))) ;;;
      commit
  end.

(** ** Outbox *)

Definition eventPayload (topic eventID aggregateID : string) (aggregateSequence : Z)
    (aggregateType partitionKey correlationID : string) (causationID : option string) (occurredAt : Z)
    (data : event_data) : Envelope event_data :=
  MkEnvelope eventID topic 1 occurredAt "provisioning-service" correlationID causationID aggregateType aggregateID
    aggregateSequence partitionKey data.

Definition outcome_topics : list string :=
  ["access.provision.succeeded.v1"; "access.provision.failed.v1";
   "access.revoke.succeeded.v1"; "access.revoke.failed.v1"]%string.
(** [NULLIF($5, 0)]. *)
Definition nullif_zero (z : Z) : option Z := if z =? 0 then None else Some z.

Definition insertOutbox (now : Z) (eventID topic key aggregateID : string) (aggregateSequence : Z) (dedupe : string)
    (payload : Envelope event_data) : prov_tx unit :=
  let* d := get in
  let sequence := nullif_zero aggregateSequence in
  require (bool_decide (bool_decide (topic ∈ outcome_topics) = bool_decide (sequence <> None)))
        (ErrSQL "provisioning_outbox_outcome_sequence_required") ;;;
  require (negb (exists_row (fun r => bool_decide (o_dedupe_key r = dedupe)) (outbox d))) ErrConflict ;;;
  require (bool_decide (outbox d !! eventID = None)) (ErrSQL "outbox_pkey") ;;;
  require (negb (exists_row (fun r => bool_decide (o_aggregate_id r = aggregateID /\ sequence <> None /\
                                                 o_aggregate_sequence r = sequence)) (outbox d)))
        (ErrSQL "provisioning_outbox_aggregate_sequence_idx") ;;;
  modify (set_outbox (insert eventID
    (MkOutRow eventID topic key aggregateID sequence dedupe payload OPending 0 now None now None))).

(** [eventID] is the identifier drawn, [wall] the service's clock. *)
Definition RecordDeadLetter (now wall : Z) (eventID : string) (topic : string) (partition offset : Z)
    (payloadHash reason : string) : prov_tx unit :=
  let* d := get in
  match dead_letters d !! (topic, partition, offset) with
  | Some _ => commit
  | None =>
      modify (set_dead_letters (insert (topic, partition, offset) (MkDeadLetter payloadHash reason RAvailable))) ;;;
      let dlqTopic := (topic +:+ ".dlq")%string in
      let payload := eventPayload dlqTopic eventID eventID 0 "consumer_record" ("source:" +:+ topic)%string eventID
                       None wall (DeadLetterData topic partition offset payloadHash reason) in
      insertOutbox now eventID dlqTopic ("source:" +:+ topic)%string eventID 0
        ("dlq:" +:+ topic +:+ ":" +:+ decimal partition +:+ ":" +:+ decimal offset)%string payload ;;;
      commit
  end.

Definition lease_expired (lease : option Z) (now : Z) : bool :=
  match lease with Some l => l <? now | None => false end.

(** NULLS FIRST. *)
Definition seq_leb (a b : option Z) : bool :=
  match a, b with None, _ => true | Some _, None => false | Some x, Some y => x <=? y end.
Definition by_creation (a b : outbox_row) : bool :=
  (o_created_at a <? o_created_at b) ||
  ((o_created_at a =? o_created_at b) &&
   if bool_decide (o_aggregate_id a = o_aggregate_id b) then
     if bool_decide (o_aggregate_sequence a = o_aggregate_sequence b)
     then String.leb (o_event_id a) (o_event_id b)
     else seq_leb (o_aggregate_sequence a) (o_aggregate_sequence b)
   else String.leb (o_aggregate_id a) (o_aggregate_id b)).
Definition unpublished_predecessor (d : db) (o : outbox_row) : bool :=
  match o_aggregate_sequence o with
  | None => false
  | Some n => exists_row (fun prior => bool_decide (o_aggregate_id prior = o_aggregate_id o) &&
                match o_aggregate_sequence prior with Some k => k <? n | None => false end &&
                negb (bool_decide (o_state prior = OPublished))) (outbox d)
  end.
Definition deliverable (now : Z) (locked : gset string) (d : db) (o : outbox_row) : bool :=
  ((bool_decide (o_state o = OPending) && (o_next_attempt_at o <=? now)) ||
   (bool_decide (o_state o = OProcessing) && lease_expired (o_lease_until o) now)) &&
  negb (unpublished_predecessor d o) && bool_decide (o_event_id o ∉ locked).
Definition set_out (state : OutState) (attempts next : Z) (lease published : option Z) (o : outbox_row)
    : outbox_row :=
  MkOutRow (o_event_id o) (o_topic o) (o_partition_key o) (o_aggregate_id o) (o_aggregate_sequence o)
    (o_dedupe_key o) (o_payload o) state attempts next lease (o_created_at o) published.

Definition ClaimOutbox (now lease : Z) (locked : gset string) : prov_tx (option outbox_row) :=
  let* d := get in
  match first_by by_creation (deliverable now locked d) (outbox d) with
  | None => commit ;;; ret None
  | Some o =>
      let o' := set_out OProcessing (o_attempts o + 1) (o_next_attempt_at o) (Some (now + lease))
                  (o_published_at o) o in
      modify (set_outbox (insert (o_event_id o) o')) ;;; commit ;;; ret (Some o')
  end.

Definition is_processing_out (d : db) (eventID : string) : bool :=
  match outbox d !! eventID with Some o => bool_decide (o_state o = OProcessing) | None => false end.
Definition CompleteOutbox (now : Z) (eventID : string) : prov_tx unit :=
  let* d := get in
  require (is_processing_out d eventID) ErrConflict ;;;
  modify (set_outbox (alter (fun o => set_out OPublished (o_attempts o) (o_next_attempt_at o) None (Some now) o)
    eventID)) ;;; commit.
Definition RetryOutbox (now delay : Z) (eventID : string) : prov_tx unit :=
  let* d := get in
  require (is_processing_out d eventID) ErrConflict ;;;
  modify (set_outbox (alter (fun o => set_out OPending (o_attempts o) (now + delay) None (o_published_at o) o)
    eventID)) ;;; commit.

(** ** Operations *)

Definition unfinished_predecessor (d : db) (o : operation_row) : bool :=
  exists_row (fun p => bool_decide (op_credential_id p = op_credential_id o) &&
    (op_command_sequence p <? op_command_sequence o) && live (op_state p)) (operations d).
Definition claimable (now : Z) (locked : gset string) (d : db) (o : operation_row) : bool :=
  ((bool_decide (op_state o = SPending \/ op_state o = SRetry) && (op_next_attempt_at o <=? now)) ||
   (bool_decide (op_state o = SProcessing) && lease_expired (op_lease_until o) now)) &&
  negb (unfinished_predecessor d o) && bool_decide (op_id o ∉ locked).
Definition by_due (a b : operation_row) : bool :=
  (op_next_attempt_at a <? op_next_attempt_at b) ||
  ((op_next_attempt_at a =? op_next_attempt_at b) &&
   ((op_created_at a <? op_created_at b) ||
    ((op_created_at a =? op_created_at b) && String.leb (op_id a) (op_id b)))).
Definition operation_view (attempts : Z) (o : operation_row) : Operation :=
  MkOperation (op_id o) (op_credential_id o) (op_kind o) (op_desired_revision o) (op_command_sequence o) attempts
    (op_max_attempts o) (op_allocation_revision o) (op_correlation_id o) (op_causation_event_id o).

Definition ClaimOperation (now lease : Z) (locked : gset string) : prov_tx (option Operation) :=
  let* d := get in
  match first_by by_due (claimable now locked d) (operations d) with
  | None => commit ;;; ret None
  | Some o =>
      let attempts := op_attempts o + 1 in
      modify (set_operations (insert (op_id o)
        (set_op SProcessing attempts (op_next_attempt_at o) (Some (now + lease)) None (op_completed_at o) o))) ;;;
      commit ;;; ret (Some (operation_view attempts o))
  end.

Definition in_state (states : list OpState) (d : db) (operationID : string) : option operation_row :=
  o ← operations d !! operationID; guard (op_state o ∈ states);; Some o.

Definition RetryOperation (now : Z) (operationID reason : string) (delay : Z) : prov_tx unit :=
  let* d := get in
  let* o := need (in_state [SProcessing] d operationID) ErrConflict in
  modify (set_operations (insert operationID
    (set_op SRetry (op_attempts o) (now + delay) None (Some reason) (op_completed_at o) o))) ;;; commit.

(** ** Allocations *)

Definition allocation_view (a : allocation_row) (n : node_row) : Allocation :=
  MkAllocation (a_id a) (a_credential_id a) (a_desired_operation_id a) (nd_node n) (a_role a) (a_protocol a)
    (a_desired_revision a) (a_desired_state a) (a_allocation_revision a) (a_state a)
    (default 0 (a_applied_config_revision a)).
(** [FROM allocations a JOIN nodes n ON n.id = a.node_id]. *)
Definition join_node (d : db) (a : allocation_row) : option Allocation :=
  allocation_view a <$> nodes d !! a_node_id a.
Definition role_rank (r : Role) : Z := match r with Primary => 0 | Failover => 1 end.
Definition by_role (a b : allocation_row) : bool :=
  (role_rank (a_role a) <? role_rank (a_role b)) ||
  ((role_rank (a_role a) =? role_rank (a_role b)) && String.leb (a_node_id a) (a_node_id b)).
Definition allocation_rows (d : db) (credentialID : string) : list allocation_row :=
  order_by by_role (where_ (fun a => bool_decide (a_credential_id a = credentialID)) (allocations d)).
Definition listAllocations (d : db) (credentialID : string) : list Allocation :=
  omap (join_node d) (allocation_rows d credentialID).
Definition ListAllocations (credentialID : string) : prov_tx (list Allocation) :=
  let* d := get in ret (listAllocations d credentialID).

Definition ceiling (capacityLimit reservePercent : Z) : Z := Z.quot (capacityLimit * (100 - reservePercent)) 100.
Definition freshness : Z := 45 * second.

(** The node has a free client slot for [region]: the reactivation check. *)
Definition can_reactivate (now : Z) (region : string) (n : node_row) (lastSeen : Z) : bool :=
  let m := nd_node n in
  bool_decide (nd_status n = NActive) && bool_decide (n_Region m = region) && negb (lastSeen <? now - freshness) &&
  negb (ceiling (n_CapacityLimit m) (n_ReservePercent m) <=? n_AllocatedClients m).

(** The loop over retained allocations: generations are checked first, a
    revoked allocation takes its slot back. [last_seen_at] scans into a
    plain [time.Time], so a node never seen is an error. *)
Fixpoint reactivate (now : Z) (operation : Operation) (region protocol : string) (l : list Allocation)
    : prov_tx unit :=
  match l with
  | [] => ret tt
  | a :: l' =>
      require (bool_decide (al_DesiredOperationID a = ID operation) &&
             (al_DesiredRevision a =? DesiredRevision operation) &&
             bool_decide (al_DesiredState a = DPresent) && bool_decide (al_Protocol a = protocol)) ErrConflict ;;;
      (if negb (bool_decide (al_State a = ARevoked)) then ret tt
       else
         let* d := get in
         let* n := need (nodes d !! n_ID (al_Node a)) (ErrSQL "lock reactivation node capacity") in
         let* lastSeen := need (nd_last_seen_at n) (ErrSQL "lock reactivation node capacity") in
         require (can_reactivate now region n lastSeen) ErrCapacity ;;;
         modify (set_nodes (insert (n_ID (al_Node a)) (set_allocated (fun c => c + 1) n)))) ;;;
      reactivate now operation region protocol l'
  end.

Definition rebind (now : Z) (opID : string) (revision : Z) (a : allocation_row) : allocation_row :=
  set_generation opID revision DPresent revision APending now (set_applied APending None None None now a).
Definition of_generation (operation : Operation) (a : allocation_row) : bool :=
  bool_decide (a_credential_id a = CredentialID operation) &&
  bool_decide (a_desired_operation_id a = ID operation) && (a_desired_revision a =? DesiredRevision operation).

(** Placement of a new credential. Capacities are at most a million, so the
    quotients PostgreSQL orders by are distinct exactly when the fractions
    are. *)
Definition placeable (now : Z) (region : string) (locked : gset string) (n : node_row) : bool :=
  let m := nd_node n in
  bool_decide (n_Region m = region) && bool_decide (nd_status n = NActive) &&
  match nd_last_seen_at n with Some seen => now - freshness <=? seen | None => false end &&
  (n_AllocatedClients m <? n_CapacityLimit m * (100 - n_ReservePercent m) / 100) &&
  bool_decide (n_ID m ∉ locked).
Definition by_load (x y : node_row) : bool :=
  let a := nd_node x in let b := nd_node y in
  let l := n_AllocatedClients a * n_CapacityLimit b in
  let r := n_AllocatedClients b * n_CapacityLimit a in
  (l <? r) || ((l =? r) && String.leb (n_ID a) (n_ID b)).

Definition new_allocation (now : Z) (id : string) (operation : Operation) (nodeID : string) (role : Role)
    (protocol : string) : allocation_row :=
  MkAllocRow id (CredentialID operation) (ID operation) (ID operation) nodeID role protocol (DesiredRevision operation)
    DPresent (DesiredRevision operation) APending None None now None None now None None 0.
Definition unique_allocation (a : allocation_row) (d : db) : bool :=
  bool_decide (allocations d !! a_id a = None) &&
  negb (exists_row (fun r => bool_decide (a_credential_id r = a_credential_id a) &&
    (bool_decide (a_node_id r = a_node_id a) || bool_decide (a_role r = a_role a))) (allocations d)).
Definition allocate_on (now : Z) (operation : Operation) (protocol : string) (id : string) (role : Role)
    (n : node_row) : prov_tx unit :=
  let* d := get in
  let a := new_allocation now id operation (n_ID (nd_node n)) role protocol in
  require (unique_allocation a d) (ErrSQL "insert provisioning allocation") ;;;
  modify (set_allocations (insert id a)) ;;;
  modify (set_nodes (alter (set_allocated (fun c => c + 1)) (n_ID (nd_node n)))).

Definition EnsureAllocations (now : Z) (locked : gset string) (id1 id2 : string) (operation : Operation)
    (placement : Placement) (protocol : string) : prov_tx (list Allocation) :=
  require ((pl_PrimaryNodes placement =? 1) && (pl_FailoverNodes placement =? 1) &&
         bool_decide (protocol = "vless_reality")) ErrConflict ;;;
  let* d := get in
  let* o := need (operations d !! ID operation) (ErrSQL "lock provisioning allocation operation") in
  require (bool_decide (op_credential_id o = CredentialID operation) &&
         (op_desired_revision o =? DesiredRevision operation)) (ErrSQL "lock provisioning allocation operation") ;;;
  require (bool_decide (op_state o = SProcessing)) ErrConflict ;;;
  require (now <? pl_ValidUntil placement) ErrConflict ;;;
  let existing := listAllocations d (CredentialID operation) in
  let bind_revision := modify (set_operations (alter (bind_allocation_revision (DesiredRevision operation))
                         (ID operation))) in
  match existing with
  | _ :: _ =>
      require (bool_decide (length existing = 2%nat)) ErrConflict ;;;
      reactivate now operation (pl_Region placement) protocol existing ;;;
      require (bool_decide (Primary ∈ al_Role <$> existing)) ErrConflict ;;;
      require (bool_decide (Failover ∈ al_Role <$> existing)) ErrConflict ;;;
      let* d1 := get in
      require (bool_decide (count_where (of_generation operation) (allocations d1) = length existing)) ErrConflict ;;;
      modify (set_allocations (update_where (of_generation operation)
        (rebind now (ID operation) (DesiredRevision operation)))) ;;;
      bind_revision ;;;
      let* d2 := get in
      commit ;;; ret (listAllocations d2 (CredentialID operation))
  | [] =>
      match order_by by_load (where_ (placeable now (pl_Region placement) locked) (nodes d)) with
      | n1 :: n2 :: _ =>
          allocate_on now operation protocol id1 Primary n1 ;;;
          allocate_on now operation protocol id2 Failover n2 ;;;
          bind_revision ;;;
          let* d2 := get in
          commit ;;; ret (listAllocations d2 (CredentialID operation))
      | _ => throw ErrCapacity
      end
  end.

(** The statements on single allocations are sent to the pool: what they
    updated stays, whatever the affected-row count says. *)
Definition prepared (o : operation_row) (a : allocation_row) : bool :=
  bool_decide (a_credential_id a = op_credential_id o) && bool_decide (a_desired_operation_id a = op_id o) &&
  (a_desired_revision a =? op_desired_revision o) && bool_decide (a_desired_state a = DAbsent).
Definition wake (now : Z) (a : allocation_row) : allocation_row :=
  set_generation (a_desired_operation_id a) (a_desired_revision a) DAbsent (a_allocation_revision a) (a_state a) now a.

Definition PrepareRevoke (now : Z) (operation : Operation) : prov_tx unit :=
  let* d := get in
  match operations d !! ID operation with
  | Some o =>
      if bool_decide (op_credential_id o = CredentialID operation) &&
         (op_desired_revision o =? DesiredRevision operation) && bool_decide (op_state o = SProcessing)
      then
        modify (set_allocations (update_where (prepared o) (wake now))) ;;; commit ;;;
        require (negb (bool_decide (count_where (prepared o) (allocations d) = 0%nat))) ErrNotFound
      else throw ErrNotFound
  | None => throw ErrNotFound
  end.

Definition on_node (o : operation_row) (nodeID : string) (a : allocation_row) : bool :=
  bool_decide (a_credential_id a = op_credential_id o) && bool_decide (a_desired_operation_id a = op_id o) &&
  (a_desired_revision a =? op_desired_revision o) && bool_decide (a_node_id a = nodeID).

Definition MarkAllocationApplied (now : Z) (operationID nodeID : string) (configRevision : Z) : prov_tx unit :=
  let* d := get in
  let* o := need (in_state [SProcessing; SSucceeded] d operationID) ErrConflict in
  let p a := on_node o nodeID a && bool_decide (a_desired_state a = DPresent) &&
             negb (bool_decide (a_state a = ARevoked)) in
  modify (set_allocations (update_where p (set_applied AActive (Some configRevision) (Some now) None now))) ;;;
  commit ;;;
  require (bool_decide (count_where p (allocations d) = 1%nat)) ErrConflict.

Definition MarkAllocationRevoked (now : Z) (operationID nodeID : string) (configRevision : Z) : prov_tx unit :=
  let* d := get in
  let* o := need (in_state [SProcessing; SSucceeded; SFailed] d operationID) ErrConflict in
  let* a := need (head (where_ (fun a => on_node o nodeID a && bool_decide (a_desired_state a = DAbsent))
                          (allocations d))) ErrConflict in
  when (negb (bool_decide (a_state a = ARevoked)))
    (modify (set_allocations (insert (a_id a)
       (set_applied ARevoked (Some configRevision) (a_applied_at a) (Some now) now a))) ;;;
     modify (set_nodes (alter (set_allocated (fun c => Z.max (c - 1) 0)) nodeID))) ;;;
  commit.

Definition MarkAllocationFailed (operationID nodeID reason : string) : prov_tx unit :=
  let* d := get in
  let* o := need (in_state [SProcessing] d operationID) ErrConflict in
  let p a := on_node o nodeID a && negb (bool_decide (a_state a = ARevoked)) in
  modify (set_allocations (update_where p (set_alloc_failed reason))) ;;; commit ;;;
  require (bool_decide (count_where p (allocations d) = 1%nat)) ErrConflict.

(** ** Outcomes *)

Definition endpointFromAllocation (a : Allocation) : Endpoint :=
  let n := al_Node a in
  MkEndpoint (n_ID n) (al_Role a) (n_PublicAddress n) (n_PublicPort n) (n_ServerName n) (n_RealityPublicKey n)
    (n_ShortID n) (n_SpiderX n) (n_Label n).
Definition endpoint_less (a b : Endpoint) : bool :=
  if bool_decide (ep_Role a = ep_Role b) then String.ltb (ep_NodeID a) (ep_NodeID b)
  else bool_decide (ep_Role a = Primary).
(** [sort.Slice]: the endpoints have distinct nodes, so the order is total. *)
Definition sort_endpoints (l : list Endpoint) : list Endpoint := order_by (fun a b => negb (endpoint_less b a)) l.

Definition completeOperationWithEvent (now wall : Z) (eventID : string) (operation : Operation)
    (topic dedupe : string) (data : event_data) : prov_tx unit :=
  let* d := get in
  let* o := need (operations d !! ID operation) (ErrSQL "lock completed provisioning operation") in
  if bool_decide (op_state o = SSucceeded \/ op_state o = SFailed) then commit
  else
    require (bool_decide (op_state o = SProcessing)) ErrConflict ;;;
    let* cursor := need (command_cursors d !! CredentialID operation) (ErrSQL "lock provisioning generation cursor") in
    require (snd cursor =? DesiredRevision operation) ErrConflict ;;;
    let aggregateSequence := match outcome_cursors d !! CredentialID operation with
                             | Some n => n + 1 | None => 1 end in
    modify (set_outcome_cursors (insert (CredentialID operation) aggregateSequence)) ;;;
    let key := ("credential:" +:+ CredentialID operation)%string in
    let payload := eventPayload topic eventID (CredentialID operation) aggregateSequence "credential" key
                     (op_CorrelationID operation) (Some (CausationEventID operation)) wall data in
    insertOutbox now eventID topic key (CredentialID operation) aggregateSequence dedupe payload ;;;
    let terminalState := if bool_decide (topic = "access.provision.failed.v1" \/ topic = "access.revoke.failed.v1")
                         then SFailed else SSucceeded in
    modify (set_operations (alter (fun o => set_op terminalState (op_attempts o) (op_next_attempt_at o) None None
      (Some now) o) (ID operation))) ;;;
    commit.

Inductive ProvisionStatus := StActive | StDegraded.
#[export] Instance ProvisionStatus_eq_dec : EqDecision ProvisionStatus.
Proof. solve_decision. Defined.
Definition status_name (s : ProvisionStatus) : string :=
  match s with StActive => "active" | StDegraded => "degraded" end.

Definition current_present (operation : Operation) (a : Allocation) : bool :=
  bool_decide (al_DesiredOperationID a = ID operation) && (al_DesiredRevision a =? DesiredRevision operation) &&
  bool_decide (al_DesiredState a = DPresent) && (al_AllocationRevision a =? DesiredRevision operation).
Definition is_active (a : Allocation) : bool := bool_decide (al_State a = AActive).

(** The caller only passes the two statuses the code accepts. *)
Definition CompleteProvision (now wall : Z) (eventID : string) (operation : Operation) (status : ProvisionStatus)
    (allocations : list Allocation) : prov_tx unit :=
  require (forallb (current_present operation) allocations) ErrConflict ;;;
  let assigned := (fun a => n_ID (al_Node a)) <$> allocations in
  let active := List.filter is_active allocations in
  let endpoints := endpointFromAllocation <$> active in
  let primaryActive := existsb (fun a => bool_decide (al_Role a = Primary)) active in
  require (bool_decide (length assigned = 2%nat) && negb (bool_decide (assigned !! 0%nat = assigned !! 1%nat)) &&
         primaryActive &&
         bool_decide (length endpoints = match status with StActive => 2 | StDegraded => 1 end%nat)) ErrConflict ;;;
  completeOperationWithEvent now wall eventID operation "access.provision.succeeded.v1"
    ("provision-succeeded:" +:+ ID operation)%string
    (ProvisionSucceeded (ID operation) (CredentialID operation) (DesiredRevision operation) (status_name status)
       (order_by String.leb assigned) (sort_endpoints endpoints) wall).

Definition CompleteProvisionFailure (now wall : Z) (eventID : string) (operation : Operation) (scope reason : string)
    (pending : list string) : prov_tx unit :=
  completeOperationWithEvent now wall eventID operation "access.provision.failed.v1"
    ("provision-failed:" +:+ ID operation)%string
    (ProvisionFailed (ID operation) (CredentialID operation) (DesiredRevision operation) scope reason pending wall).

Definition current_revoked (operation : Operation) (a : Allocation) : bool :=
  bool_decide (al_DesiredOperationID a = ID operation) && (al_DesiredRevision a =? DesiredRevision operation) &&
  bool_decide (al_DesiredState a = DAbsent) && bool_decide (al_State a = ARevoked).
Definition CompleteRevoke (now wall : Z) (eventID : string) (operation : Operation) (allocations : list Allocation)
    : prov_tx unit :=
  require (forallb (current_revoked operation) allocations) ErrConflict ;;;
  let allocationRevision := fold_left Z.max (al_AllocationRevision <$> allocations) 0 in
  completeOperationWithEvent now wall eventID operation "access.revoke.succeeded.v1"
    ("revoke-succeeded:" +:+ ID operation)%string
    (RevokeSucceeded (ID operation) (CredentialID operation) (DesiredRevision operation) allocationRevision
       (order_by String.leb ((fun a => n_ID (al_Node a)) <$> allocations)) wall).

Definition CompleteRevokeFailure (now wall : Z) (eventID : string) (operation : Operation) (reason : string)
    (pending : list string) : prov_tx unit :=
  completeOperationWithEvent now wall eventID operation "access.revoke.failed.v1"
    ("revoke-failed:" +:+ ID operation)%string
    (RevokeFailed (ID operation) (CredentialID operation) (DesiredRevision operation) reason pending wall).

(** ** Nodes *)

(** [length] of PostgreSQL counts characters: bytes that do not continue a
    UTF-8 sequence. *)
Fixpoint char_length (s : string) : Z :=
  match s with
  | EmptyString => 0
  | String c s' => (if between "128" "191" c then 0 else 1) + char_length s'
  end.
Definition length_in (lo hi : Z) (s : string) : bool := (lo <=? char_length s) && (char_length s <=? hi).
Definition base64url_char (c : ascii) : bool :=
  between "A" "Z" c || between "a" "z" c || digit c || Ascii.eqb c "_" || Ascii.eqb c "-".
Definition node_checks (m : Node) : bool :=
  length_in 2 64 (n_Region m) && String.prefix "https://" (n_ManagementURL m) &&
  String.prefix "spiffe://" (n_ManagementSPIFFEID m) && (1 <=? n_CapacityLimit m) && (n_CapacityLimit m <=? 1000000) &&
  (20 <=? n_ReservePercent m) && (n_ReservePercent m <=? 90) && (0 <=? n_AllocatedClients m) &&
  (n_AllocatedClients m <=? n_CapacityLimit m) && length_in 1 255 (n_PublicAddress m) && (1 <=? n_PublicPort m) &&
  (n_PublicPort m <=? 65535) && length_in 1 255 (n_ServerName m) &&
  ((go_len (n_RealityPublicKey m) =? 43) && all_bytes base64url_char (n_RealityPublicKey m)) &&
  ((go_len (n_ShortID m) <=? 16) && (go_len (n_ShortID m) mod 2 =? 0) && all_bytes lower_hex (n_ShortID m)) &&
  (char_length (n_SpiderX m) <=? 255) && length_in 1 64 (n_Label m).

Definition seeded (seed : NodeSeed) (allocated : Z) : Node :=
  MkNode (sd_ID seed) (sd_Region seed) (sd_ManagementURL seed) (sd_ManagementSPIFFEID seed) (sd_CapacityLimit seed)
    (sd_ReservePercent seed) allocated (sd_PublicAddress seed) (sd_PublicPort seed) (sd_ServerName seed)
    (sd_RealityPublicKey seed) (sd_ShortID seed) (sd_SpiderX seed) (sd_Label seed).
Definition node_unique (m : Node) (d : db) : bool :=
  negb (exists_row (fun r => negb (bool_decide (n_ID (nd_node r) = n_ID m)) &&
    (bool_decide (n_ManagementURL (nd_node r) = n_ManagementURL m) ||
     bool_decide (n_ManagementSPIFFEID (nd_node r) = n_ManagementSPIFFEID m))) (nodes d)).

Definition seedNode (seed : NodeSeed) : prov_tx unit :=
  let* d := get in
  let m := seeded seed 0 in
  require (node_checks m) (ErrSQL "seed provisioning node") ;;;
  match nodes d !! sd_ID seed with
  | None =>
      require (node_unique m d) (ErrSQL "seed provisioning node") ;;;
      modify (set_nodes (insert (sd_ID seed) (MkNodeRow m NActive "" "" 0 None)))
  | Some n =>
      when (n_AllocatedClients (nd_node n) =? 0)
        (require (node_unique m d) (ErrSQL "seed provisioning node") ;;;
         modify (set_nodes (insert (sd_ID seed)
           (MkNodeRow m (nd_status n) (nd_agent_version n) (nd_xray_version n) (nd_config_revision n)
              (nd_last_seen_at n)))))
  end.
Fixpoint seedNodes (seeds : list NodeSeed) : prov_tx unit :=
  match seeds with
  | [] => ret tt
  | seed :: rest => seedNode seed ;;; seedNodes rest
  end.
Definition SeedNodes (seeds : list NodeSeed) : prov_tx unit := seedNodes seeds ;;; commit.

Definition ListNodes : prov_tx (list Node) :=
  let* d := get in
  ret (nd_node <$> order_by (fun x y => String.leb (n_ID (nd_node x)) (n_ID (nd_node y)))
                     (where_ (fun n => negb (bool_decide (nd_status n = NDraining))) (nodes d))).

Definition set_status (st : NodeStatus) (n : node_row) : node_row :=
  MkNodeRow (nd_node n) st (nd_agent_version n) (nd_xray_version n) (nd_config_revision n) (nd_last_seen_at n).
Definition health_checks (s : AgentStatus) : bool :=
  (0 <=? as_ConfigRevision s) && (0 <=? as_ActiveClients s) && is_int4 (as_ActiveClients s) &&
  length_in 1 64 (as_AgentVersion s) && length_in 1 64 (as_XrayVersion s).
Definition is_stale (now staleAfter : Z) (n : node_row) : bool :=
  bool_decide (nd_status n = NActive) &&
  match nd_last_seen_at n with Some seen => seen <? now - staleAfter | None => false end.

Definition RecordNodeHealth (now : Z) (status : AgentStatus) (staleAfter : Z) : prov_tx unit :=
  let* d := get in
  let* n := need (nodes d !! as_NodeID status) ErrNotFound in
  require (health_checks status) (ErrSQL "node health") ;;;
  modify (set_nodes (insert (as_NodeID status)
    (MkNodeRow (nd_node n) (if as_XrayHealthy status then NActive else NOffline) (as_AgentVersion status)
       (as_XrayVersion status) (as_ConfigRevision status) (Some now)))) ;;;
  modify (set_health (fun l => l ++ [status])) ;;;
  modify (set_nodes (update_where (is_stale now staleAfter) (set_status NOffline))) ;;;
  commit.

Definition MarkNodeOffline (nodeID : string) : prov_tx unit :=
  modify (set_nodes (alter (set_status NOffline) nodeID)) ;;; commit.

(** ** Reconciliation *)

Definition reconcilable (now : Z) (locked : gset string) (d : db) (a : allocation_row) : bool :=
  match nodes d !! a_node_id a with
  | Some n => bool_decide (nd_status n = NActive \/ nd_status n = NDraining)
  | None => false
  end &&
  match operations d !! a_desired_operation_id a with
  | Some o => bool_decide (a_desired_state a = DAbsent \/ op_state o = SSucceeded)
  | None => false
  end &&
  (a_next_reconcile_at a <=? now) &&
  match a_reconcile_lease_until a with Some l => l <? now | None => true end &&
  bool_decide (a_id a ∉ locked).
Definition by_reconcile (a b : allocation_row) : bool :=
  (a_next_reconcile_at a <? a_next_reconcile_at b) ||
  ((a_next_reconcile_at a =? a_next_reconcile_at b) &&
   ((a_created_at a <? a_created_at b) ||
    ((a_created_at a =? a_created_at b) && String.leb (a_id a) (a_id b)))).

(** One lease per candidate, each under an identifier drawn by the loop. *)
Fixpoint lease_candidates (now lease : Z) (d : db) (l : list allocation_row) (claims : list string)
    : prov_tx (list ReconciliationCandidate) :=
  match l, claims with
  | a :: l', claim :: claims' =>
      modify (set_allocations (alter (fun a => set_reconcile (a_next_reconcile_at a) (Some (now + lease)) (Some claim)
                                                 (a_reconcile_attempts a + 1) a) (a_id a))) ;;;
      let* rest := lease_candidates now lease d l' claims' in
      ret (match join_node d a with
           | Some v => MkCandidate v claim :: rest
           | None => rest
           end)
  | _, _ => ret []
  end.
Definition ClaimReconciliationCandidates (now : Z) (limit lease : Z) (locked : gset string) (claims : list string)
    : prov_tx (list ReconciliationCandidate) :=
  require ((1 <=? limit) && (limit <=? 1000) && (0 <? lease)) ErrConflict ;;;
  let* d := get in
  let rows := take (Z.to_nat limit) (order_by by_reconcile (where_ (reconcilable now locked d) (allocations d))) in
  let* candidates := lease_candidates now lease d rows claims in
  commit ;;; ret candidates.

Definition RescheduleReconciliation (now : Z) (allocationID claimID : string) (delay : Z) : prov_tx unit :=
  require (0 <=? delay) ErrConflict ;;;
  let* d := get in
  let* a := need (allocations d !! allocationID) ErrConflict in
  require (bool_decide (a_reconcile_claim_id a = Some claimID)) ErrConflict ;;;
  modify (set_allocations (insert allocationID
    (set_reconcile (now + delay) None None (a_reconcile_attempts a) a))) ;;; commit.

(** ** Dead letters and support *)

Definition set_replay (s : ReplayState) (r : dead_letter_row) : dead_letter_row :=
  MkDeadLetter (dl_payload_sha256 r) (dl_reason_code r) s.
Definition RequestDeadLetterReplay (topic : string) (partition offset : Z) : prov_tx string :=
  let* d := get in
  let* r := need (dead_letters d !! (topic, partition, offset)) ErrNotFound in
  require (bool_decide (dl_replay_state r = RAvailable \/ dl_replay_state r = RRequested)) ErrNotFound ;;;
  modify (set_dead_letters (insert (topic, partition, offset) (set_replay RRequested r))) ;;; commit ;;;
  ret (dl_payload_sha256 r).
Definition CompleteDeadLetterReplay (topic : string) (partition offset : Z) : prov_tx unit :=
  let* d := get in
  let* r := need (dead_letters d !! (topic, partition, offset)) ErrConflict in
  require (bool_decide (dl_replay_state r = RRequested)) ErrConflict ;;;
  modify (set_dead_letters (insert (topic, partition, offset) (set_replay RReplayed r))) ;;; commit.

(** The latest operation and the allocations of a credential. *)
Definition newest_first (a b : operation_row) : bool :=
  (op_desired_revision b <? op_desired_revision a) ||
  ((op_desired_revision a =? op_desired_revision b) && (op_created_at b <=? op_created_at a)).
Record SupportAllocation := MkSupportAllocation {
  sa_node : node_row;
  sa_allocation : allocation_row
}.
Definition GetSupportSnapshot (credentialID : string)
    : prov_tx (operation_row * list SupportAllocation) :=
  let* d := get in
  let* o := need (first_by newest_first (fun o => bool_decide (op_credential_id o = credentialID)) (operations d))
              ErrNotFound in
  ret (o, omap (fun a => n ← nodes d !! a_node_id a; Some (MkSupportAllocation n a)) (allocation_rows d credentialID)).
