(* ===== verification/ProvisioningInv.v ===== *)
(** * provisioning-service: store invariants

    What every reachable state of the store satisfies: commands numbered
    without gap, one live operation per credential, allocations of the latest
    generation, node counters that count, outcomes numbered and ordered. *)

From Stdlib Require Import List.
From S2P Require Import Prelude GoStrings Backoff Platform ProvisioningDomain ProvisioningStore.

(** ** The invariant *)

Abbreviation cursors := (gmap string (Z * Z)).

(** The operations of a credential carry the sequence numbers [1..s] and
    increasing revisions; one that is not finished carries the last. *)
Record ops_ok (ops : table operation_row) (cur : cursors) : Prop := {
  ops_key : forall k o, ops !! k = Some o -> op_id o = k;
  ops_cursor : forall k o, ops !! k = Some o -> exists s r, cur !! op_credential_id o = Some (s, r) /\
    1 <= op_command_sequence o <= s /\ 1 <= op_desired_revision o <= r;
  ops_live : forall k o, ops !! k = Some o -> live (op_state o) = true ->
    cur !! op_credential_id o = Some (op_command_sequence o, op_desired_revision o);
  ops_seq : forall k k' o o', ops !! k = Some o -> ops !! k' = Some o' ->
    op_credential_id o = op_credential_id o' -> op_command_sequence o = op_command_sequence o' -> k = k';
  ops_rev : forall k k' o o', ops !! k = Some o -> ops !! k' = Some o' ->
    op_credential_id o = op_credential_id o' -> op_desired_revision o = op_desired_revision o' -> k = k';
  ops_gapless : forall c s r n, cur !! c = Some (s, r) -> 1 <= n <= s ->
    exists k o, ops !! k = Some o /\ op_credential_id o = c /\ op_command_sequence o = n
}.

(** A credential has at most one allocation per role and per node, and all
    its allocations carry the revision of its last command. *)
Record allocs_ok (al : table allocation_row) (ops : table operation_row) (cur : cursors) (nds : table node_row)
    : Prop := {
  al_key : forall k a, al !! k = Some a -> a_id a = k;
  al_node : forall k k' a a', al !! k = Some a -> al !! k' = Some a' ->
    a_credential_id a = a_credential_id a' -> a_node_id a = a_node_id a' -> k = k';
  al_role : forall k k' a a', al !! k = Some a -> al !! k' = Some a' ->
    a_credential_id a = a_credential_id a' -> a_role a = a_role a' -> k = k';
  al_placed : forall k a, al !! k = Some a -> is_Some (nds !! a_node_id a);
  al_generation : forall k a, al !! k = Some a -> exists s o,
    cur !! a_credential_id a = Some (s, a_desired_revision a) /\ ops !! a_desired_operation_id a = Some o /\
    op_credential_id o = a_credential_id a /\ op_desired_revision o = a_desired_revision a
}.

(** The counter of a node is the number of allocations that hold a slot of
    it, and the reserve is never used. *)
Definition holds (k : string) (a : allocation_row) : bool :=
  bool_decide (a_node_id a = k) && negb (bool_decide (a_state a = ARevoked)).
Definition node_ceiling (m : Node) : Z := ceiling (n_CapacityLimit m) (n_ReservePercent m).
Record caps_ok (nds : table node_row) (al : table allocation_row) : Prop := {
  cap_key : forall k n, nds !! k = Some n -> n_ID (nd_node n) = k;
  cap_count : forall k n, nds !! k = Some n -> n_AllocatedClients (nd_node n) = Z.of_nat (count_where (holds k) al);
  cap_ceiling : forall k n, nds !! k = Some n -> n_AllocatedClients (nd_node n) <= node_ceiling (nd_node n);
  cap_limits : forall k n, nds !! k = Some n ->
    1 <= n_CapacityLimit (nd_node n) <= 1000000 /\ 20 <= n_ReservePercent (nd_node n) <= 90
}.

(** Finished operations and their outcome events. *)
Definition finished (s : OpState) : option bool :=
  match s with SSucceeded => Some true | SFailed => Some false | _ => None end.
Lemma live_unfinished s : live s = true -> finished s = None.
Proof. by destruct s. Qed.
Lemma finished_dead s b : finished s = Some b -> live s = false.
Proof. by destruct s. Qed.
Definition outcome_of (e : event_data) : option (string * bool) :=
  match e with
  | DeadLetterData _ _ _ _ _ => None
  | ProvisionSucceeded id _ _ _ _ _ _ | RevokeSucceeded id _ _ _ _ _ => Some (id, true)
  | ProvisionFailed id _ _ _ _ _ _ | RevokeFailed id _ _ _ _ _ => Some (id, false)
  end.
Definition row_outcome (r : outbox_row) : option (string * bool) := outcome_of (env_Data (o_payload r)).

(** The outcomes of a credential are numbered [1..n] in the order of the
    revisions they conclude; every finished operation has exactly one. *)
Record outs_ok (out : table outbox_row) (cur : gmap string Z) (ops : table operation_row) : Prop := {
  out_key : forall k r, out !! k = Some r -> o_event_id r = k;
  out_numbered : forall k r, out !! k = Some r ->
    match o_aggregate_sequence r with
    | None => row_outcome r = None
    | Some n => 1 <= n <= default 0 (cur !! o_aggregate_id r) /\ env_AggregateSequence (o_payload r) = n /\
        exists id b o, row_outcome r = Some (id, b) /\ ops !! id = Some o /\
          op_credential_id o = o_aggregate_id r /\ finished (op_state o) = Some b
    end;
  out_gapless : forall c n, 1 <= n <= default 0 (cur !! c) ->
    exists k r, out !! k = Some r /\ o_aggregate_id r = c /\ o_aggregate_sequence r = Some n;
  out_seq : forall k k' r r' n, out !! k = Some r -> out !! k' = Some r' -> o_aggregate_id r = o_aggregate_id r' ->
    o_aggregate_sequence r = Some n -> o_aggregate_sequence r' = Some n -> k = k';
  out_once : forall k k' r r' id b b', out !! k = Some r -> out !! k' = Some r' ->
    row_outcome r = Some (id, b) -> row_outcome r' = Some (id, b') -> k = k';
  out_emitted : forall id o b, ops !! id = Some o -> finished (op_state o) = Some b ->
    exists k r, out !! k = Some r /\ row_outcome r = Some (id, b);
  out_ordered : forall k k' r r' n n' id id' b b' o o', out !! k = Some r -> out !! k' = Some r' ->
    o_aggregate_id r = o_aggregate_id r' -> o_aggregate_sequence r = Some n -> o_aggregate_sequence r' = Some n' ->
    row_outcome r = Some (id, b) -> row_outcome r' = Some (id', b') -> ops !! id = Some o -> ops !! id' = Some o' ->
    n < n' -> op_desired_revision o < op_desired_revision o'
}.

Record Inv (d : db) : Prop := {
  inv_ops : ops_ok (operations d) (command_cursors d);
  inv_allocs : allocs_ok (allocations d) (operations d) (command_cursors d) (nodes d);
  inv_caps : caps_ok (nodes d) (allocations d);
  inv_outs : outs_ok (outbox d) (outcome_cursors d) (operations d);
  inv_outcome_cursors : forall c n, outcome_cursors d !! c = Some n -> 1 <= n;
  inv_cursors : forall c s r, command_cursors d !! c = Some (s, r) -> 1 <= s
}.

Lemma prov_Inv_empty : Inv empty_db.
Proof.
  split; [split|split|split|split| |]; intros; simpl in *; simplify_map_eq; try lia.
Qed.

(** ** Rows that keep their identity

    [op_sim]: an operation row keeps everything but its progress, is not
    finished, and stays as it is once it was superseded or finished; the
    other tables likewise. *)
Definition op_identity (o : operation_row) :=
  (op_id o, op_credential_id o, op_kind o, op_desired_revision o, op_command_sequence o,
   op_max_attempts o, op_correlation_id o, op_causation_event_id o).
Definition op_sim (o o' : operation_row) : Prop :=
  op_identity o' = op_identity o /\ finished (op_state o') = finished (op_state o) /\
  (live (op_state o) = false -> o' = o).
Lemma op_sim_live o o' : (live (op_state o) = false -> o' = o) -> live (op_state o') = true -> live (op_state o) = true.
Proof. intros H Ho. destruct (live (op_state o)) eqn:E; [done|]. by rewrite (H eq_refl), E in Ho. Qed.
Definition al_identity (a : allocation_row) :=
  (a_id a, a_credential_id a, a_node_id a, a_role a, a_desired_operation_id a, a_desired_revision a).
Definition al_sim (a a' : allocation_row) : Prop :=
  al_identity a' = al_identity a /\ (a_state a' = ARevoked <-> a_state a = ARevoked).
Definition node_sim (n n' : node_row) : Prop := nd_node n' = nd_node n.
Definition out_identity (r : outbox_row) :=
  (o_event_id r, o_aggregate_id r, o_aggregate_sequence r, o_payload r).
Definition out_sim (r r' : outbox_row) : Prop := out_identity r' = out_identity r.

Lemma op_sim_refl o : op_sim o o. Proof. by repeat split. Qed.
Lemma al_sim_refl a : al_sim a a. Proof. by repeat split. Qed.
Lemma node_sim_refl n : node_sim n n. Proof. done. Qed.
Lemma out_sim_refl r : out_sim r r. Proof. done. Qed.
#[export] Hint Resolve op_sim_refl al_sim_refl node_sim_refl out_sim_refl : core.

Lemma ops_ok_sim ops ops' cur : pointwise op_sim ops ops' -> ops_ok ops cur -> ops_ok ops' cur.
Proof.
  intros H [K C L S R G]. constructor.
  - intros k o (o0 & H0 & [= -> _ _ _ _ _ _ _] & _)%(pointwise_bwd _ _ _ _ _ H). by apply K.
  - intros k o (o0 & H0 & [= _ -> _ -> -> _ _ _] & _)%(pointwise_bwd _ _ _ _ _ H). by eapply C.
  - intros k o (o0 & H0 & [= _ -> _ -> -> _ _ _] & _ & Hl)%(pointwise_bwd _ _ _ _ _ H) Ho.
    eapply L; eauto using op_sim_live.
  - intros k k' o o' (o0 & H0 & [= _ -> _ _ -> _ _ _] & _)%(pointwise_bwd _ _ _ _ _ H)
      (o1 & H1 & [= _ -> _ _ -> _ _ _] & _)%(pointwise_bwd _ _ _ _ _ H). by apply S.
  - intros k k' o o' (o0 & H0 & [= _ -> _ -> _ _ _ _] & _)%(pointwise_bwd _ _ _ _ _ H)
      (o1 & H1 & [= _ -> _ -> _ _ _ _] & _)%(pointwise_bwd _ _ _ _ _ H). by apply R.
  - intros c s r n Hc Hn. destruct (G c s r n Hc Hn) as (k & o & Hk & <- & <-).
    destruct (pointwise_fwd _ _ _ _ _ H Hk) as (o' & Hk' & [= _ Hc' _ _ Hs' _ _ _] & _). exists k, o'. eauto.
Qed.

Lemma allocs_ok_sim al al' ops ops' cur nds nds' :
  pointwise al_sim al al' -> pointwise op_sim ops ops' -> pointwise node_sim nds nds' ->
  allocs_ok al ops cur nds -> allocs_ok al' ops' cur nds'.
Proof.
  intros Ha Ho Hn [K N R P G]. constructor.
  - intros k a (a0 & H0 & [= -> _ _ _ _ _] & _)%(pointwise_bwd _ _ _ _ _ Ha). by apply K.
  - intros k k' a a' (a0 & H0 & [= _ -> -> _ _ _] & _)%(pointwise_bwd _ _ _ _ _ Ha)
      (a1 & H1 & [= _ -> -> _ _ _] & _)%(pointwise_bwd _ _ _ _ _ Ha). by apply N.
  - intros k k' a a' (a0 & H0 & [= _ -> _ -> _ _] & _)%(pointwise_bwd _ _ _ _ _ Ha)
      (a1 & H1 & [= _ -> _ -> _ _] & _)%(pointwise_bwd _ _ _ _ _ Ha). by apply R.
  - intros k a (a0 & H0 & [= _ _ -> _ _ _] & _)%(pointwise_bwd _ _ _ _ _ Ha).
    destruct (P k a0 H0) as [n Hk]. destruct (pointwise_fwd _ _ _ _ _ Hn Hk) as (n' & Hk' & _). by exists n'.
  - intros k a (a0 & H0 & [= _ -> _ _ -> ->] & _)%(pointwise_bwd _ _ _ _ _ Ha).
    destruct (G k a0 H0) as (s & o & Hc & Hk & E1 & E2).
    destruct (pointwise_fwd _ _ _ _ _ Ho Hk) as (o' & Hk' & [= _ Hc' _ Hr' _ _ _ _] & _). exists s, o'.
    split_and!; congruence.
Qed.

Lemma holds_sim k a a' : al_sim a a' -> holds k a = holds k a'.
Proof.
  intros [[= _ _ E _ _ _] Hs]. unfold holds. rewrite E. f_equal. f_equal. apply bool_decide_ext. naive_solver.
Qed.
Lemma caps_ok_sim nds nds' al al' :
  pointwise node_sim nds nds' -> pointwise al_sim al al' -> caps_ok nds al -> caps_ok nds' al'.
Proof.
  intros Hn Ha [K C L B]. constructor; intros k n (n0 & H0 & E)%(pointwise_bwd _ _ _ _ _ Hn); rewrite E; eauto.
  rewrite (C k n0 H0). f_equal. apply (count_pointwise al_sim); [done|]. intros. by apply holds_sim.
Qed.

Lemma outs_ok_sim out out' cur ops ops' :
  pointwise out_sim out out' -> pointwise op_sim ops ops' -> outs_ok out cur ops -> outs_ok out' cur ops'.
Proof.
  intros Hr Ho [K N G S O E D].
  assert (forall k r, out' !! k = Some r -> exists r0, out !! k = Some r0 /\ o_event_id r = o_event_id r0 /\
    o_aggregate_id r = o_aggregate_id r0 /\ o_aggregate_sequence r = o_aggregate_sequence r0 /\
    o_payload r = o_payload r0 /\ row_outcome r = row_outcome r0) as Hb.
  { intros k r (r0 & H0 & [= E1 E2 E3 E4])%(pointwise_bwd _ _ _ _ _ Hr). exists r0. unfold row_outcome.
    by rewrite E1, E2, E3, E4. }
  assert (forall k o, ops' !! k = Some o -> exists o0, ops !! k = Some o0 /\
    op_desired_revision o = op_desired_revision o0 /\ finished (op_state o) = finished (op_state o0)) as Hob.
  { intros k o (o0 & H0 & [= _ _ _ E4 _ _ _ _] & Hf & _)%(pointwise_bwd _ _ _ _ _ Ho). eauto. }
  constructor.
  - intros k r (r0 & H0 & E1 & _)%Hb. rewrite E1. by apply K.
  - intros k r (r0 & H0 & E1 & E2 & E3 & E4 & E5)%Hb. rewrite E2, E3, E4, E5. specialize (N k r0 H0).
    destruct (o_aggregate_sequence r0); [|done]. destruct N as (Hn & He & id & b & o & H1 & H2 & H3 & H4).
    destruct (pointwise_fwd _ _ _ _ _ Ho H2) as (o' & Hk' & [= _ Hc' _ _ _ _ _ _] & Hf' & _).
    split; [done|]. split; [done|]. exists id, b, o'. split_and!; [done|done|congruence|congruence].
  - intros c n Hn. destruct (G c n Hn) as (k & r & Hk & H1 & H2).
    destruct (pointwise_fwd _ _ _ _ _ Hr Hk) as (r' & Hk' & [= _ E2 E3 _]). exists k, r'.
    split_and!; [done|congruence|congruence].
  - intros k k' r r' n (r0 & H0 & _ & -> & -> & _)%Hb (r1 & H1 & _ & -> & -> & _)%Hb. by apply S.
  - intros k k' r r' id b b' (r0 & H0 & _ & _ & _ & _ & ->)%Hb (r1 & H1 & _ & _ & _ & _ & ->)%Hb. by eapply O.
  - intros id o b (o0 & H0 & _ & ->)%Hob Hf. destruct (E id o0 b H0 Hf) as (k & r & Hk & H1).
    destruct (pointwise_fwd _ _ _ _ _ Hr Hk) as (r' & Hk' & [= _ _ _ E4]). exists k, r'. split; [done|].
    unfold row_outcome. by rewrite E4.
  - intros k k' r r' n n' id id' b b' o o' (r0 & H0 & _ & -> & -> & _ & ->)%Hb (r1 & H1 & _ & -> & -> & _ & ->)%Hb
      Ea En En' Er Er' (o0 & Ho0 & -> & _)%Hob (o1 & Ho1 & -> & _)%Hob Hlt. by apply (D k k' r0 r1 n n' id id' b b').
Qed.

(** An update that keeps the identity of every row. *)
Record db_sim (d d' : db) : Prop := {
  sim_cursors : command_cursors d' = command_cursors d;
  sim_outcomes : outcome_cursors d' = outcome_cursors d;
  sim_ops : pointwise op_sim (operations d) (operations d');
  sim_allocs : pointwise al_sim (allocations d) (allocations d');
  sim_nodes : pointwise node_sim (nodes d) (nodes d');
  sim_outs : pointwise out_sim (outbox d) (outbox d')
}.
Lemma Inv_sim d d' : db_sim d d' -> Inv d -> Inv d'.
Proof.
  intros [Hc Hu Ho Ha Hn Hr] [I1 I2 I3 I4 I5 I6]. split; rewrite ?Hc, ?Hu; try done.
  - by eapply ops_ok_sim.
  - by eapply allocs_ok_sim.
  - by eapply caps_ok_sim.
  - by eapply outs_ok_sim.
Qed.
Ltac same_tables := split; simpl; try done; try (by apply pointwise_refl).

(** ** Steps

    [settles]: operations keep their identity, and those superseded or
    finished stay as they are. [Good d0]: the states a run from [d0] goes
    through. *)
Definition settles (ops ops' : table operation_row) : Prop := forall k o, ops !! k = Some o ->
  exists o', ops' !! k = Some o' /\ op_identity o' = op_identity o /\ (live (op_state o) = false -> o' = o).
Lemma settles_refl ops : settles ops ops.
Proof. intros k o Hk. exists o. by split_and!. Qed.
Lemma settles_trans o1 o2 o3 : settles o1 o2 -> settles o2 o3 -> settles o1 o3.
Proof.
  intros H1 H2 k o Hk. destruct (H1 k o Hk) as (o' & Hk' & Hi & Hl). destruct (H2 k o' Hk') as (o'' & Hk'' & Hi' & Hl').
  exists o''. split_and!; [done|congruence|]. intros E. specialize (Hl E). subst o'. auto.
Qed.
Lemma settles_sim ops ops' : pointwise op_sim ops ops' -> settles ops ops'.
Proof. intros H k o Hk. destruct (pointwise_fwd _ _ _ _ _ H Hk) as (o' & Hk' & Hi & _ & Hl). eauto. Qed.

Definition Good (d0 d : db) : Prop := Inv d /\ settles (operations d0) (operations d).
Lemma Good_refl d : Inv d -> Good d d.
Proof. intros H. split; [done | apply settles_refl]. Qed.
Lemma Good_trans d0 d d' : Good d0 d -> Good d d' -> Good d0 d'.
Proof. intros [_ H1] [H2 H3]. split; [done | by eapply settles_trans]. Qed.
Lemma Good_sim d0 d d' : db_sim d d' -> Good d0 d -> Good d0 d'.
Proof.
  intros H Hg. eapply Good_trans; [done|]. destruct Hg. split; [by eapply Inv_sim | apply settles_sim, H].
Qed.

(** Handlers that read the state once: run them from that state. *)
Ltac from_read :=
  apply preserves_read; intros d HG [du w] Hw; simpl in Hw; subst w;
  unfold need, require, when, bind, modify, commit, ret, throw; simpl.
Ltac handler_cases :=
  repeat match goal with
  | |- context [match ?x with _ => _ end] => destruct x eqn:?; simpl; try done
  end.
Ltac close_sim := split; intros; apply (Good_sim _ _ _); [same_tables | assumption].

Lemma in_state_Some l d id o : in_state l d id = Some o -> operations d !! id = Some o /\ op_state o ∈ l.
Proof. unfold in_state. intros H. destruct (operations d !! id); simpl in H; [|done]. case_guard; naive_solver. Qed.
Lemma op_sim_set_op st at_ nx ls err c o :
  live (op_state o) = true -> live st = true -> op_sim o (set_op st at_ nx ls err c o).
Proof. intros H1 H2. split_and!; [done| |congruence]. destruct st, (op_state o); done. Qed.

Section steps.
Context (d0 : db).

Lemma good_RetryOperation now id reason delay : preserves (Good d0) (RetryOperation now id reason delay).
Proof.
  unfold RetryOperation. from_read. destruct (in_state _ _ _) as [o|] eqn:E; simpl; [|done].
  apply in_state_Some in E as [E Hs]. assert (op_state o = SProcessing) as Hp by set_solver.
  split; intros; (apply (Good_sim _ d); [same_tables|done]); apply (pointwise_insert _ _ _ o); try done;
    apply op_sim_set_op; by rewrite ?Hp.
Qed.

Lemma good_ClaimOperation now lease locked : preserves (Good d0) (ClaimOperation now lease locked).
Proof.
  unfold ClaimOperation. from_read. destruct (first_by _ _ _) as [o|] eqn:E; simpl; [|done].
  apply first_by_Some in E as [Hc (k & Hk)]. assert (live (op_state o) = true) as Hl.
  { unfold claimable in Hc. rewrite !andb_true_iff, orb_true_iff, !andb_true_iff, !bool_decide_eq_true in Hc.
    unfold live. rewrite bool_decide_eq_true. intuition. }
  assert (op_id o = k) as <- by (apply HG; done).
  split; intros; (apply (Good_sim _ d); [same_tables|done]); (apply (pointwise_insert _ _ _ o); [done|done|]);
    by apply op_sim_set_op.
Qed.

(** Same tables but for rows that keep their identity. *)
Lemma sim_allocations d p f :
  (forall a, p a = true -> al_sim a (f a)) -> db_sim d (set_allocations (update_where p f) d).
Proof. intros H. same_tables. apply pointwise_update_where; eauto. Qed.
Lemma sim_alter_alloc d k f : (forall a, al_sim a (f a)) -> db_sim d (set_allocations (alter f k) d).
Proof. intros H. same_tables. apply pointwise_alter; eauto. Qed.
Lemma sim_insert_alloc d k a a' :
  allocations d !! k = Some a -> al_sim a a' -> db_sim d (set_allocations (insert k a') d).
Proof. intros H1 H2. same_tables. by apply (pointwise_insert _ _ _ a). Qed.
Lemma sim_insert_out d k r r' : outbox d !! k = Some r -> out_sim r r' -> db_sim d (set_outbox (insert k r') d).
Proof. intros H1 H2. same_tables. by apply (pointwise_insert _ _ _ r). Qed.
Lemma sim_alter_out d k f : (forall r, out_sim r (f r)) -> db_sim d (set_outbox (alter f k) d).
Proof. intros H. same_tables. apply pointwise_alter; eauto. Qed.
Lemma sim_insert_node d k n n' : nodes d !! k = Some n -> node_sim n n' -> db_sim d (set_nodes (insert k n') d).
Proof. intros H1 H2. same_tables. by apply (pointwise_insert _ _ _ n). Qed.
Lemma sim_alter_node d k f : (forall n, node_sim n (f n)) -> db_sim d (set_nodes (alter f k) d).
Proof. intros H. same_tables. apply pointwise_alter; eauto. Qed.
Lemma sim_update_nodes d p f : (forall n, node_sim n (f n)) -> db_sim d (set_nodes (update_where p f) d).
Proof. intros H. same_tables. apply pointwise_update_where; eauto. Qed.
Lemma sim_dead_letters d f : db_sim d (set_dead_letters f d).
Proof. same_tables. Qed.
Lemma sim_health d f : db_sim d (set_health f d).
Proof. same_tables. Qed.
Hint Resolve sim_allocations sim_alter_alloc sim_insert_alloc sim_insert_out sim_alter_out sim_insert_node
  sim_alter_node sim_update_nodes sim_dead_letters sim_health : core.

Lemma preserves_sim f : (forall d, db_sim d (f d)) -> preserves (Good d0) (modify f : prov_tx unit).
Proof. intros H. apply preserves_modify. intros d. apply Good_sim, H. Qed.
Ltac by_sim d := split; intros; (apply (Good_sim _ d); [|done]).

Lemma good_PrepareRevoke now operation : preserves (Good d0) (PrepareRevoke now operation).
Proof.
  unfold PrepareRevoke. from_read. destruct (operations d !! _) as [o|] eqn:E; simpl; [|done].
  destruct (_ && _); [|done]. simpl.
  assert (db_sim d (set_allocations (update_where (prepared o) (wake now)) d)) as Hs.
  { apply sim_allocations. by repeat split. }
  destruct (negb _); simpl; by_sim d; done.
Qed.
Lemma good_MarkAllocationApplied now id node rev : preserves (Good d0) (MarkAllocationApplied now id node rev).
Proof.
  unfold MarkAllocationApplied. from_read. destruct (in_state _ _ _) as [o|]; simpl; [|done].
  set (p a := _ && _ && _).
  assert (db_sim d (set_allocations (update_where p (set_applied AActive (Some rev) (Some now) None now)) d)) as Hs.
  { apply sim_allocations. intros a [_ Ha]%andb_true_iff. split; [done|]. simpl.
    rewrite negb_true_iff, bool_decide_eq_false in Ha. done. }
  destruct (bool_decide _); simpl; by_sim d; done.
Qed.
Lemma good_MarkAllocationFailed id node reason : preserves (Good d0) (MarkAllocationFailed id node reason).
Proof.
  unfold MarkAllocationFailed. from_read. destruct (in_state _ _ _) as [o|]; simpl; [|done].
  set (p a := _ && _). assert (db_sim d (set_allocations (update_where p (set_alloc_failed reason)) d)) as Hs.
  { apply sim_allocations. intros a [_ Ha]%andb_true_iff. split; [done|]. simpl.
    rewrite negb_true_iff, bool_decide_eq_false in Ha. done. }
  destruct (bool_decide _); simpl; by_sim d; done.
Qed.

Lemma good_ClaimOutbox now lease locked : preserves (Good d0) (ClaimOutbox now lease locked).
Proof.
  unfold ClaimOutbox. from_read. destruct (first_by _ _ _) as [r|] eqn:E; simpl; [|done].
  apply first_by_Some in E as [_ (k & Hk)]. assert (o_event_id r = k) as <- by (apply HG; done).
  by_sim d; by eapply sim_insert_out.
Qed.
Lemma good_CompleteOutbox now id : preserves (Good d0) (CompleteOutbox now id).
Proof. unfold CompleteOutbox. from_read. destruct (is_processing_out _ _); simpl; [|done]. by_sim d; by apply sim_alter_out. Qed.
Lemma good_RetryOutbox now delay id : preserves (Good d0) (RetryOutbox now delay id).
Proof. unfold RetryOutbox. from_read. destruct (is_processing_out _ _); simpl; [|done]. by_sim d; by apply sim_alter_out. Qed.

Lemma good_RecordNodeHealth now status stale : preserves (Good d0) (RecordNodeHealth now status stale).
Proof.
  unfold RecordNodeHealth. from_read. destruct (nodes d !! as_NodeID status) as [n|] eqn:E; simpl; [|done].
  destruct (health_checks status); simpl; [|done].
  split; intros; (eapply Good_sim; [by apply sim_update_nodes|]); (eapply Good_sim; [apply sim_health|]);
    (eapply Good_sim; [by eapply sim_insert_node|done]).
Qed.
Lemma good_MarkNodeOffline id : preserves (Good d0) (MarkNodeOffline id).
Proof. apply preserves_bind; [apply preserves_sim; intros d; by apply sim_alter_node|intros ?; apply preserves_commit]. Qed.

Lemma good_lease_candidates now lease d l claims : preserves (Good d0) (lease_candidates now lease d l claims).
Proof.
  revert claims. induction l as [|a l IH]; intros [|c claims]; simpl; try apply preserves_ret.
  apply preserves_bind; [apply preserves_sim; intros; by apply sim_alter_alloc|intros _].
  apply preserves_bind; [apply IH|intros ?]. destruct (join_node d a); apply preserves_ret.
Qed.
Lemma good_ClaimReconciliation now limit lease locked claims :
  preserves (Good d0) (ClaimReconciliationCandidates now limit lease locked claims).
Proof.
  unfold ClaimReconciliationCandidates. repeat (apply preserves_bind; [|intros ?]); eauto using
    preserves_require, preserves_get, good_lease_candidates, preserves_commit, preserves_ret.
Qed.
Lemma good_Reschedule now id claim delay : preserves (Good d0) (RescheduleReconciliation now id claim delay).
Proof.
  unfold RescheduleReconciliation. apply preserves_bind; [apply preserves_require|intros _]. from_read.
  destruct (allocations d !! id) as [a|] eqn:E; simpl; [|done]. destruct (bool_decide _); simpl; [|done].
  by_sim d; by eapply sim_insert_alloc.
Qed.
Lemma good_RequestReplay t p o : preserves (Good d0) (RequestDeadLetterReplay t p o).
Proof.
  unfold RequestDeadLetterReplay. from_read. destruct (dead_letters d !! _); simpl; [|done].
  destruct (bool_decide _); simpl; [|done]. by_sim d; done.
Qed.
Lemma good_CompleteReplay t p o : preserves (Good d0) (CompleteDeadLetterReplay t p o).
Proof.
  unfold CompleteDeadLetterReplay. from_read. destruct (dead_letters d !! _); simpl; [|done].
  destruct (bool_decide _); simpl; [|done]. by_sim d; done.
Qed.
End steps.

(** ** Events *)

Lemma Inv_plain_event d id r :
  outbox d !! id = None -> o_event_id r = id -> o_aggregate_sequence r = None -> row_outcome r = None ->
  Inv d -> Inv (set_outbox (insert id r) d).
Proof.
  intros Hid Hr Hn Hout [I1 I2 I3 [K N G S O E D] I5 I6]. split; simpl; try done. constructor.
  - intros k r'. rewrite lookup_insert. case_decide; [naive_solver|]. apply K.
  - intros k r'. rewrite lookup_insert. case_decide; [intros [= <-]; by rewrite Hn|]. apply N.
  - intros c n H. destruct (G c n H) as (k & r' & Hk & ?). exists k, r'. split; [|done].
    rewrite lookup_insert_ne; [done|]. intros ->. congruence.
  - intros k k' r1 r2 n. rewrite !lookup_insert. repeat case_decide; intros; simplify_eq; try done. by eapply S.
  - intros k k' r1 r2 i b b'. rewrite !lookup_insert. repeat case_decide; intros; simplify_eq; try done. by eapply O.
  - intros i o b Ho Hf. destruct (E i o b Ho Hf) as (k & r' & Hk & ?). exists k, r'. split; [|done].
    rewrite lookup_insert_ne; [done|]. intros ->. congruence.
  - intros k k' r1 r2 n n' i i' b b' o o'. rewrite !lookup_insert. repeat case_decide; intros; simplify_eq; try done.
    by eapply (D k k' r1 r2 n n' i i').
Qed.

(** The end of an operation: its outcome takes the next number. *)
Section conclusion.
Context (d : db) (k id : string) (o o' : operation_row) (r : outbox_row) (n : Z) (b : bool).
Context (Hk : operations d !! k = Some o) (Hlive : live (op_state o) = true).
Context (Ho' : op_identity o' = op_identity o) (Hfin : finished (op_state o') = Some b) (Hdead : live (op_state o') = false).
Context (Hid : outbox d !! id = None) (Hrid : o_event_id r = id) (Hagg : o_aggregate_id r = op_credential_id o).
Context (Hn : n = default 0 (outcome_cursors d !! op_credential_id o) + 1) (Hseq : o_aggregate_sequence r = Some n).
Context (Hpay : env_AggregateSequence (o_payload r) = n) (Hout : row_outcome r = Some (k, b)).
Context (HI : Inv d).

Let ops' := <[k:=o']> (operations d).
Let cur' := <[op_credential_id o:=n]> (outcome_cursors d).

Lemma concl_op j q : ops' !! j = Some q -> exists q0, operations d !! j = Some q0 /\ op_identity q = op_identity q0 /\
  ((j = k /\ q = o') \/ (j <> k /\ q = q0)).
Proof.
  unfold ops'. rewrite lookup_insert. case_decide as Hj; intros E; [|by exists q; split_and!; auto].
  injection E as <-. subst j. exists o. split_and!; [done|done|by left].
Qed.
Lemma concl_fwd j q0 : operations d !! j = Some q0 -> exists q, ops' !! j = Some q /\ op_identity q = op_identity q0 /\
  (live (op_state q0) = false -> q = q0).
Proof.
  unfold ops'. rewrite lookup_insert. case_decide as Hj; intros E; [|by exists q0].
  subst j. assert (q0 = o) as -> by congruence. exists o'. split_and!; [done|done|congruence].
Qed.
(** No earlier outcome is about this operation. *)
Lemma concl_fresh j r0 b0 : outbox d !! j = Some r0 -> row_outcome r0 = Some (k, b0) -> False.
Proof.
  intros Hj Hr0. pose proof (out_numbered _ _ _ (inv_outs _ HI) j r0 Hj) as N.
  destruct (o_aggregate_sequence r0); [|congruence]. destruct N as (_ & _ & i & b1 & q & E1 & E2 & _ & E4).
  assert (q = o) as -> by congruence. apply live_unfinished in Hlive. congruence.
Qed.

Lemma concl_ops : ops_ok ops' (command_cursors d).
Proof.
  destruct HI as [[K C L S R G] _ _ _ _ _]. constructor.
  - intros j q (q0 & H0 & [= -> _ _ _ _ _ _ _] & _)%concl_op. by apply K.
  - intros j q (q0 & H0 & [= _ -> _ -> -> _ _ _] & _)%concl_op. by eapply C.
  - intros j q (q0 & H0 & [= _ -> _ -> -> _ _ _] & [[-> ->]|[_ ->]])%concl_op Hl; [congruence|]. by apply (L j).
  - intros j j' q q' (q0 & H0 & [= _ -> _ _ -> _ _ _] & _)%concl_op (q1 & H1 & [= _ -> _ _ -> _ _ _] & _)%concl_op.
    by apply S.
  - intros j j' q q' (q0 & H0 & [= _ -> _ -> _ _ _ _] & _)%concl_op (q1 & H1 & [= _ -> _ -> _ _ _ _] & _)%concl_op.
    by apply R.
  - intros c s rv m Hc Hm. destruct (G c s rv m Hc Hm) as (j & q & Hj & <- & <-).
    destruct (concl_fwd _ _ Hj) as (q' & Hq & [= _ ? _ _ ? _ _ _] & _). eauto.
Qed.

Lemma concl_outs : outs_ok (<[id:=r]> (outbox d)) cur' ops'.
Proof.
  pose proof concl_fwd as Hfwd. pose proof concl_op as Hbwd. pose proof concl_fresh as Hfresh.
  pose proof Ho' as [= _ Hoc _ Hor _ _ _ _]. clear Ho'.
  destruct HI as [HO _ _ [K N G S O E D] Hcur _]. subst cur'.
  assert (0 <= default 0 (outcome_cursors d !! op_credential_id o)) as Hpos.
  { destruct (outcome_cursors d !! op_credential_id o) eqn:E1; simpl; [|lia]. apply Hcur in E1. lia. }
  assert (forall c, default 0 (outcome_cursors d !! c) <= default 0 (<[op_credential_id o:=n]> (outcome_cursors d) !! c)) as Hle.
  { intros c. rewrite lookup_insert. case_decide; simpl; [subst; lia|lia]. }
  assert (forall j r0 m, outbox d !! j = Some r0 -> o_aggregate_sequence r0 = Some m ->
    o_aggregate_id r0 = op_credential_id o -> m < n) as Hlt.
  { intros j r0 m Hj Hm Ha. specialize (N j r0 Hj). rewrite Hm, Ha in N. lia. }
  constructor.
  - intros j r0. rewrite lookup_insert. case_decide; [naive_solver|]. apply K.
  - intros j r0. rewrite lookup_insert. case_decide; intros Hj.
    + simplify_eq. rewrite Hseq. rewrite Hagg at 1. rewrite lookup_insert_eq. simpl. split; [lia|]. split; [done|].
      exists k, b, o'. unfold ops'. rewrite lookup_insert_eq. split_and!; congruence.
    + specialize (N j r0 Hj). destruct (o_aggregate_sequence r0) as [m|]; [|done].
      destruct N as (Hm & Hp & i & b0 & q & E1 & E2 & E3 & E4). specialize (Hle (o_aggregate_id r0)).
      split; [lia|]. split; [done|]. destruct (Hfwd _ _ E2) as (q' & Hq' & [= _ ? _ _ _ _ _ _] & Hl).
      rewrite (Hl (finished_dead _ _ E4)) in *. eauto 10.
  - intros c m. rewrite lookup_insert. case_decide as Hc; simpl; intros Hm.
    + destruct (decide (m = n)) as [->|].
      * exists id, r. rewrite lookup_insert_eq. split_and!; congruence.
      * destruct (G c m) as (j & r0 & Hj & ?); [subst; lia|]. exists j, r0. split; [|done].
        rewrite lookup_insert_ne; [done|congruence].
    + destruct (G c m Hm) as (j & r0 & Hj & ?). exists j, r0. split; [|done].
      rewrite lookup_insert_ne; [done|congruence].
  - intros j j' r1 r2 m. rewrite !lookup_insert.
    repeat case_decide; intros Hj Hj' Ha H1 H2; simplify_eq; try done.
    + rewrite Hagg in Ha. specialize (Hlt _ _ _ Hj' H2 (eq_sym Ha)). lia.
    + rewrite Hagg in Ha. specialize (Hlt _ _ _ Hj H1 Ha). lia.
    + by eapply S.
  - intros j j' r1 r2 i b1 b2. rewrite !lookup_insert.
    repeat case_decide; intros Hj Hj' H1 H2; simplify_eq; try done.
    + exfalso. by eapply Hfresh.
    + exfalso. by eapply Hfresh.
    + by eapply O.
  - intros j q b0 (q0 & Hq0 & _ & [[-> ->]|[Hne ->]])%Hbwd Hf.
    + exists id, r. rewrite lookup_insert_eq. split; congruence.
    + destruct (E j q0 b0 Hq0 Hf) as (i & r0 & Hi & ?). exists i, r0. split; [|done].
      rewrite lookup_insert_ne; [done|congruence].
  - intros j j' r1 r2 m m' i i' b1 b2 q q'. rewrite !lookup_insert.
    repeat case_decide; intros Hj Hj' Ha H1 H2 H3 H4 Hq Hq' Hmm; simplify_eq; try lia.
    + rewrite Hagg in Ha. specialize (Hlt _ _ _ Hj' H2 (eq_sym Ha)). lia.
    + destruct (Hbwd _ _ Hq') as (q0' & Hq0' & [= _ E2 _ E4 _ _ _ _] & _). simplify_eq.
      destruct (Hbwd _ _ Hq) as (q0 & Hq0 & [= _ F2 _ F4 _ _ _ _] & _). rewrite E4, F4.
      pose proof (N j r1 Hj) as N1. rewrite H1 in N1. destruct N1 as (_ & _ & i1 & b3 & q1 & G1 & G2 & G3 & G4). simplify_eq.
      assert (op_credential_id q0 = op_credential_id o) as Hcq by congruence.
      destruct (ops_cursor _ _ HO _ _ Hq0) as (s & rv & Hc & _ & Hrv).
      pose proof (ops_live _ _ HO _ _ Hk Hlive) as Hlo. rewrite Hcq in Hc. simplify_eq.
      enough (op_desired_revision q0 <> op_desired_revision o) by lia. intros He.
      assert (i = k) as -> by (by eapply (ops_rev _ _ HO)). simplify_eq. apply live_unfinished in Hlive. congruence.
    + destruct (Hbwd _ _ Hq) as (q0 & Hq0 & [= _ F2 _ F4 _ _ _ _] & _).
      destruct (Hbwd _ _ Hq') as (q0' & Hq0' & [= _ E2 _ E4 _ _ _ _] & _). rewrite F4, E4.
      by eapply (D j j' r1 r2 m m').
Qed.

Lemma Inv_conclude d' :
  operations d' = ops' -> outbox d' = <[id:=r]> (outbox d) -> outcome_cursors d' = cur' ->
  allocations d' = allocations d -> nodes d' = nodes d -> command_cursors d' = command_cursors d -> Inv d'.
Proof.
  intros E1 E2 E3 E4 E5 E6. split; rewrite ?E1, ?E2, ?E3, ?E4, ?E5, ?E6.
  - apply concl_ops.
  - destruct HI as [_ [K N R P G] _ _ _ _]. constructor; try done. intros j a Hj.
    destruct (G j a Hj) as (s & q & H1 & H2 & H3 & H4).
    destruct (concl_fwd _ _ H2) as (q' & Hq' & [= _ ? _ ? _ _ _ _] & _). exists s, q'. split_and!; congruence.
  - apply HI.
  - apply concl_outs.
  - intros c m. unfold cur'. rewrite lookup_insert. case_decide; [|apply HI]. intros [= <-].
    destruct (outcome_cursors d !! op_credential_id o) eqn:E; simpl in Hn; [apply HI in E|]; lia.
  - apply HI.
Qed.
End conclusion.

(** An [Operation] a worker holds describes the row it was claimed from. *)
Definition view_identity (v : Operation) :=
  (ID v, CredentialID v, OpKind v, DesiredRevision v, CommandSequence v, MaxAttempts v,
   op_CorrelationID v, CausationEventID v).
Definition genuine (d : db) (v : Operation) : Prop :=
  exists o, operations d !! ID v = Some o /\ op_identity o = view_identity v.
Lemma genuine_settles d d' v : settles (operations d) (operations d') -> genuine d v -> genuine d' v.
Proof. intros H (o & Ho & Hi). destruct (H _ _ Ho) as (o' & Ho' & Hi' & _). exists o'. split; congruence. Qed.

Section events.
Context (d0 : db).

(** An insertion into the outbox succeeds as a whole or changes nothing. *)
Lemma prov_insertOutbox_run now ev topic key agg n dedupe payload t r t' :
  insertOutbox now ev topic key agg n dedupe payload t = (r, t') ->
  (exists e, r = Err e /\ t' = t) \/
  (r = Ok tt /\ outbox (working t) !! ev = None /\
   bool_decide (topic ∈ outcome_topics) = bool_decide (nullif_zero n <> None) /\
   t' = Txn (durable t) (set_outbox (insert ev
     (MkOutRow ev topic key agg (nullif_zero n) dedupe payload OPending 0 now None now None)) (working t))).
Proof.
  unfold insertOutbox, require. rewrite run_get.
  repeat match goal with
  | |- bind (if ?b then _ else _) _ _ = _ -> _ =>
      let H := fresh "Hc" in destruct b eqn:H; rewrite ?run_ret, ?run_throw; [|intros [= <- <-]; left; by eexists]
  end.
  intros [= <- <-]. right. apply bool_decide_eq_true in Hc, Hc1. by split_and!.
Qed.

Lemma good_RecordDeadLetter now wall ev topic p off h reason :
  preserves (Good d0) (RecordDeadLetter now wall ev topic p off h reason).
Proof.
  unfold RecordDeadLetter. from_read. destruct (dead_letters d !! _); simpl; [done|].
  match goal with |- context [insertOutbox ?a ?b ?c ?d ?e ?f ?g ?h ?t] =>
    destruct (insertOutbox a b c d e f g h t) as [r t'] eqn:E end.
  apply prov_insertOutbox_run in E as [(e & -> & ->)|(-> & Hid & _ & ->)]; simpl in *; [done|].
  match goal with |- _ /\ (_ -> Good d0 ?d') => enough (Good d0 d') by done end.
  pose proof (sim_dead_letters d (insert (topic, p, off) (MkDeadLetter h reason RAvailable))) as Hs.
  apply (Good_sim _ _ _ Hs) in HG. destruct HG as [HI HS]. split; [|done]. by apply Inv_plain_event.
Qed.

Definition succeeds (topic : string) : bool :=
  negb (bool_decide (topic = "access.provision.failed.v1" \/ topic = "access.revoke.failed.v1")).
Lemma good_complete now wall ev v topic dedupe data :
  genuine d0 v -> outcome_of data = Some (ID v, succeeds topic) -> topic ∈ outcome_topics ->
  preserves (Good d0) (completeOperationWithEvent now wall ev v topic dedupe data).
Proof.
  intros Hv Hout Htopic. unfold completeOperationWithEvent. from_read.
  destruct HG as [HI HS]. destruct (genuine_settles _ _ _ HS Hv) as (o & Ho & Hi). rewrite Ho. simpl.
  destruct (bool_decide (op_state o = SSucceeded \/ _)); simpl; [done|].
  destruct (bool_decide (op_state o = SProcessing)) eqn:Hp; simpl; [|done]. apply bool_decide_eq_true in Hp.
  destruct (command_cursors d !! CredentialID v) as [cur|] eqn:Hc; simpl; [|done].
  destruct (snd cur =? DesiredRevision v); simpl; [|done].
  set (n := match outcome_cursors d !! CredentialID v with Some n => n + 1 | None => 1 end).
  assert (1 <= n) as Hn.
  { unfold n. destruct (outcome_cursors d !! CredentialID v) eqn:E; [apply HI in E|]; lia. }
  assert (nullif_zero n = Some n) as En by (unfold nullif_zero; destruct (Z.eqb_spec n 0); [lia|done]).
  match goal with |- context [insertOutbox ?a ?b ?c ?d ?e ?f ?g ?h ?t] =>
    destruct (insertOutbox a b c d e f g h t) as [r t'] eqn:E end.
  apply prov_insertOutbox_run in E as [(e & -> & ->)|(-> & Hid & _ & ->)]; simpl in *; [done|]. rewrite En.
  injection Hi as Hi1 Hi2 Hi3 Hi4 Hi5 Hi6 Hi7 Hi8.
  match goal with |- _ /\ (_ -> Good d0 ?d') => enough (Good d0 d') by done end.
  eapply Good_trans; [by split|]. match goal with |- context [alter ?f (ID v)] => set (g := f) end.
  assert (finished (op_state (g o)) = Some (succeeds topic)) as Hf
    by (unfold g, succeeds; simpl; by destruct (bool_decide _)).
  assert (live (op_state o) = true) as Hl by (by rewrite Hp). split.
  - eapply (Inv_conclude d (ID v) ev o (g o) _ n (succeeds topic)); rewrite ?Hi2; simpl; try done.
    all: simpl; try done.
    + by eapply finished_dead.
    + unfold n. by destruct (outcome_cursors d !! _).
    + by apply alter_known.
  - intros k q Hk. simpl. rewrite (alter_known _ _ _ o), lookup_insert by done.
    case_decide as Hj; [subst k|exists q; by split_and!].
    assert (q = o) as -> by congruence. exists (g o). split_and!; [done|done|congruence].
Qed.
End events.
