(* ===== verification/ProvisioningSteps.v ===== *)
(** * provisioning-service: the steps that change generations and capacity

    A new command, the release of a slot, the placement of a credential and
    the node inventory keep the store invariant. *)

From Stdlib Require Import List.
From S2P Require Import Prelude GoStrings Backoff Platform ProvisioningDomain ProvisioningStore ProvisioningInv.

(** ** A new command *)

Lemma outs_ok_settles out cur ops ops' :
  settles ops ops' ->
  (forall j q, ops' !! j = Some q -> (exists q0, ops !! j = Some q0 /\ op_identity q = op_identity q0 /\
     finished (op_state q) = finished (op_state q0)) \/ (ops !! j = None /\ finished (op_state q) = None)) ->
  outs_ok out cur ops -> outs_ok out cur ops'.
Proof.
  intros Hs Hb [K N G S O E D]. constructor; try done.
  - intros k r Hk. specialize (N k r Hk). destruct (o_aggregate_sequence r); [|done].
    destruct N as (H1 & H2 & id & b & o & H3 & H4 & H5 & H6). split; [done|]. split; [done|].
    destruct (Hs _ _ H4) as (o' & Ho' & _ & Hl). rewrite (Hl (finished_dead _ _ H6)) in Ho'. eauto 10.
  - intros id o b Ho Hf. destruct (Hb _ _ Ho) as [(q & Hq & _ & Ef)|[_ Ef]]; [|congruence].
    eapply E; [exact Hq|congruence].
  - intros k k' r r' n n' id id' b b' o o' Hk Hk' Ha Hn Hn' Hr Hr' Ho Ho' Hlt.
    assert (forall j i x r0 o0, out !! j = Some r0 -> row_outcome r0 = Some (i, x) -> ops' !! i = Some o0 ->
      exists q, ops !! i = Some q /\ op_desired_revision o0 = op_desired_revision q) as Hold.
    { intros j i x r0 o0 Hj Hi Ho0. destruct (Hb _ _ Ho0) as [(q & Hq & [= _ _ _ Eq _ _ _ _] & _)|[Hnone _]]; [eauto|].
      specialize (N j r0 Hj). destruct (o_aggregate_sequence r0); [|congruence].
      destruct N as (_ & _ & i1 & b1 & q & E1 & E2 & _). congruence. }
    destruct (Hold _ _ _ _ _ Hk Hr Ho) as (q & Hq & ->). destruct (Hold _ _ _ _ _ Hk' Hr' Ho') as (q' & Hq' & ->).
    by apply (D k k' r r' n n' id id' b b').
Qed.

Section command.
Context (d : db) (now : Z) (meta : EventMeta) (command : Command) (kind : Kind) (maxAttempts : Z) (s r : Z).
Let c := cmd_CredentialID command.
Let id := cmd_OperationID command.
Let o := new_operation now meta command kind maxAttempts.
Context (HI : Inv d) (Hcur : default (0, 0) (command_cursors d !! c) = (s, r)).
Context (Hseq : AggregateSequence meta = s + 1) (Hrev : r < cmd_DesiredRevision command).
Context (Hid : operations d !! id = None) (Hpos : 0 < AggregateSequence meta) (Hrpos : 0 < cmd_DesiredRevision command).

Definition commanded : db :=
  set_command_cursors (insert c (AggregateSequence meta, cmd_DesiredRevision command))
    (set_allocations (update_where
        (fun a => bool_decide (a_credential_id a = c) && (a_desired_revision a <? cmd_DesiredRevision command))
        (advance_generation now kind id (cmd_DesiredRevision command)))
    (set_operations (update_where (older_than c id (cmd_DesiredRevision command)) (supersede now))
    (set_operations (insert id o)
    (set_command_inbox (insert (EventID meta) (command_of meta command)) d)))).

Lemma cur_c x y : command_cursors d !! c = Some (x, y) -> x = s /\ y = r.
Proof. intros E. rewrite E in Hcur. by injection Hcur. Qed.
Lemma cur_cases : command_cursors d !! c = Some (s, r) \/ s = 0.
Proof.
  pose proof cur_c as Hc. revert Hc Hcur. destruct (command_cursors d !! c) as [[x y]|].
  - intros Hc _. destruct (Hc _ _ eq_refl) as [-> ->]. by left.
  - intros _ [= <- _]. by right.
Qed.
Lemma old_op j q : operations d !! j = Some q -> op_credential_id q = c ->
  command_cursors d !! c = Some (s, r) /\ 1 <= op_command_sequence q <= s /\ 1 <= op_desired_revision q <= r.
Proof.
  intros Hj Hq. destruct (ops_cursor _ _ (inv_ops _ HI) _ _ Hj) as (x & y & Hxy & ?). rewrite Hq in Hxy.
  by destruct (cur_c _ _ Hxy) as [-> ->].
Qed.
Lemma commanded_op j q : operations commanded !! j = Some q -> (j = id /\ q = o) \/
  (j <> id /\ exists q0, operations d !! j = Some q0 /\ op_sim q0 q /\ (op_credential_id q0 = c -> live (op_state q) = false)).
Proof.
  simpl. rewrite lookup_update_where, lookup_insert. case_decide as Hj.
  - simpl. unfold older_than. simpl. fold id. rewrite (bool_decide_true (id = id)) by done.
    rewrite andb_false_r. simpl. intros [= <-]. by left.
  - intros (q0 & Hq0 & ->)%fmap_Some. right. split; [done|]. exists q0. split; [done|].
    destruct (older_than _ _ _ q0) eqn:E.
    + split; [|done]. unfold older_than in E. rewrite !andb_true_iff in E. destruct E as (_ & El).
      split_and!; [done| |by rewrite El]. simpl. symmetry. by apply live_unfinished.
    + split; [done|]. intros Hc. destruct (live (op_state q0)) eqn:El; [|done].
      destruct (old_op _ _ Hq0 Hc) as (_ & _ & Hr0). assert (op_id q0 = j) as Hk by (by apply HI).
      unfold older_than in E. rewrite El, Hk, (bool_decide_true (op_credential_id q0 = c)) in E by done.
      rewrite (bool_decide_false (j = id)) in E by done. destruct (Z.ltb_spec (op_desired_revision q0) (cmd_DesiredRevision command)); [done|lia].
Qed.
Lemma commanded_settles : settles (operations d) (operations commanded).
Proof.
  intros j q Hj. simpl. rewrite lookup_update_where, lookup_insert. case_decide; [congruence|]. rewrite Hj. simpl.
  eexists. split; [done|]. destruct (older_than _ _ _ q) eqn:E; [|done]. split; [done|].
  unfold older_than in E. rewrite !andb_true_iff in E. destruct E as (_ & El). by rewrite El.
Qed.
Lemma commanded_new : operations commanded !! id = Some o.
Proof.
  simpl. rewrite lookup_update_where, lookup_insert_eq. simpl. unfold older_than. simpl. fold id.
  rewrite (bool_decide_true (id = id)) by done. by rewrite andb_false_r.
Qed.

Lemma Inv_commanded_ops : ops_ok (operations commanded) (command_cursors commanded).
Proof.
  pose proof (inv_ops _ HI) as [K C L S R G]. constructor.
  - intros j q [[-> ->]|(_ & q0 & H0 & [[= -> _ _ _ _ _ _ _] _] & _)]%commanded_op; [done|by apply K].
  - intros j q [[-> ->]|(_ & q0 & H0 & [[= _ -> _ -> -> _ _ _] _] & _)]%commanded_op; simpl; fold c.
    + do 2 eexists. split; [apply lookup_insert_eq|]. lia.
    + destruct (decide (c = op_credential_id q0)) as [Hc|Hc].
      * destruct (old_op _ _ H0 (eq_sym Hc)) as (_ & ? & ?). rewrite <- Hc. do 2 eexists.
        split; [apply lookup_insert_eq|]. lia.
      * destruct (C _ _ H0) as (x & y & Hxy & ?). exists x, y. by rewrite lookup_insert_ne.
  - intros j q [[-> ->]|(_ & q0 & H0 & [[= _ E1 _ E2 E3 _ _ _] [_ Hl]] & Hc)]%commanded_op Hlive; simpl; fold c.
    + by rewrite lookup_insert_eq.
    + rewrite E1, E2, E3. rewrite lookup_insert_ne by (intros E; rewrite (Hc (eq_sym E)) in Hlive; done).
      eapply L; [done|]. by eapply op_sim_live.
  - intros j j' q q' [[-> ->]|(_ & q0 & H0 & [[= _ -> _ _ -> _ _ _] _] & _)]%commanded_op
      [[-> ->]|(_ & q1 & H1 & [[= _ -> _ _ -> _ _ _] _] & _)]%commanded_op; simpl; fold c; try done.
    + intros Hc Hs. destruct (old_op _ _ H1 (eq_sym Hc)) as (_ & ? & _). lia.
    + intros Hc Hs. destruct (old_op _ _ H0 Hc) as (_ & ? & _). lia.
    + by apply S.
  - intros j j' q q' [[-> ->]|(_ & q0 & H0 & [[= _ -> _ -> _ _ _ _] _] & _)]%commanded_op
      [[-> ->]|(_ & q1 & H1 & [[= _ -> _ -> _ _ _ _] _] & _)]%commanded_op; simpl; fold c; try done.
    + intros Hc Hs. destruct (old_op _ _ H1 (eq_sym Hc)) as (_ & _ & ?). lia.
    + intros Hc Hs. destruct (old_op _ _ H0 Hc) as (_ & _ & ?). lia.
    + by apply R.
  - intros c' s' r' n. simpl. rewrite lookup_insert. case_decide as Hc; [subst c'|].
    + intros [= <- <-] Hn. destruct (decide (n = AggregateSequence meta)) as [->|Hne].
      * exists id, o. by split; [apply commanded_new|].
      * assert (command_cursors d !! c = Some (s, r)) as Hcs.
        { destruct cur_cases; [done|lia]. }
        destruct (G c s r n Hcs) as (j & q & Hj & E1 & E2); [lia|].
        destruct (commanded_settles _ _ Hj) as (q' & Hq' & [= _ ? _ _ ? _ _ _] & _). exists j, q'.
        split_and!; [done|congruence|congruence].
    + intros Hcs Hn. destruct (G c' s' r' n Hcs Hn) as (j & q & Hj & <- & <-).
      destruct (commanded_settles _ _ Hj) as (q' & Hq' & [= _ ? _ _ ? _ _ _] & _). eauto.
Qed.

Lemma advance_sim a : a_id (advance_generation now kind id (cmd_DesiredRevision command) a) = a_id a /\
  a_credential_id (advance_generation now kind id (cmd_DesiredRevision command) a) = a_credential_id a /\
  a_node_id (advance_generation now kind id (cmd_DesiredRevision command) a) = a_node_id a /\
  a_role (advance_generation now kind id (cmd_DesiredRevision command) a) = a_role a /\
  a_desired_operation_id (advance_generation now kind id (cmd_DesiredRevision command) a) = id /\
  a_desired_revision (advance_generation now kind id (cmd_DesiredRevision command) a) = cmd_DesiredRevision command /\
  forall k, holds k (advance_generation now kind id (cmd_DesiredRevision command) a) = holds k a.
Proof.
  destruct kind; simpl; split_and!; try done. intros k. unfold holds. simpl.
  by destruct (a_state a).
Qed.
Lemma commanded_alloc j a : allocations commanded !! j = Some a -> exists a0, allocations d !! j = Some a0 /\
  a_id a = a_id a0 /\ a_credential_id a = a_credential_id a0 /\ a_node_id a = a_node_id a0 /\ a_role a = a_role a0 /\
  ((a_credential_id a0 = c /\ a_desired_operation_id a = id /\ a_desired_revision a = cmd_DesiredRevision command) \/
   (a_credential_id a0 <> c /\ a = a0)).
Proof.
  simpl. rewrite lookup_update_where. intros (a0 & H0 & ->)%fmap_Some. exists a0. split; [done|].
  destruct (al_generation _ _ _ _ (inv_allocs _ HI) _ _ H0) as (x & q & Hx & _).
  destruct (bool_decide (a_credential_id a0 = c) && _) eqn:E.
  - apply andb_true_iff in E as [Hc%bool_decide_eq_true _]. destruct (advance_sim a0) as (-> & -> & -> & -> & -> & -> & _).
    split_and!; try done. by left.
  - split_and!; try done. right. split; [|done]. intros Hc. rewrite Hc in Hx. destruct (cur_c _ _ Hx) as [_ Hr].
    rewrite bool_decide_true in E by done. destruct (Z.ltb_spec (a_desired_revision a0) (cmd_DesiredRevision command)); [done|lia].
Qed.

Lemma Inv_commanded : Inv commanded.
Proof.
  pose proof HI as [HO [K N R P G] [CK CC CL CB] HU HQ HP]. split.
  - apply Inv_commanded_ops.
  - constructor.
    + intros j a (a0 & H0 & -> & _)%commanded_alloc. by apply K.
    + intros j j' a a' (a0 & H0 & _ & -> & -> & _)%commanded_alloc (a1 & H1 & _ & -> & -> & _)%commanded_alloc. by apply N.
    + intros j j' a a' (a0 & H0 & _ & -> & _ & -> & _)%commanded_alloc (a1 & H1 & _ & -> & _ & -> & _)%commanded_alloc. by apply R.
    + intros j a (a0 & H0 & _ & _ & -> & _)%commanded_alloc. by eapply P.
    + intros j a (a0 & H0 & _ & Ec & _ & _ & [(Hc & -> & ->)|[Hne ->]])%commanded_alloc.
      * rewrite Ec, Hc. exists (AggregateSequence meta), o. simpl. rewrite lookup_insert_eq.
        split_and!; [done|apply commanded_new|done|done].
      * destruct (G j a0 H0) as (x & q & H1 & H2 & H3 & H4).
        destruct (commanded_settles _ _ H2) as (q' & Hq' & [= _ ? _ ? _ _ _ _] & _). exists x, q'.
        split_and!; [|done|congruence|congruence]. simpl. by rewrite lookup_insert_ne.
  - constructor; try done. intros k n Hn. simpl in *. rewrite (CC k n Hn). f_equal. symmetry.
    apply count_update_where. intros j a Hj _. apply advance_sim.
  - eapply outs_ok_settles; [apply commanded_settles| |exact HU].
    intros j q [[-> ->]|(_ & q0 & H0 & [Hi [Hf _]] & _)]%commanded_op; [by right|left; eauto].
  - done.
  - intros c' s' r'. simpl. rewrite lookup_insert. case_decide; [intros [= <- <-]; lia|by apply HP].
Qed.
End command.

(** A command is a replay, is refused without effect, or has its whole
    effect. *)
Definition acceptable (d : db) (meta : EventMeta) (command : Command) (kind : Kind) (maxAttempts now s r : Z) : Prop :=
  default (0, 0) (command_cursors d !! cmd_CredentialID command) = (s, r) /\
  AggregateSequence meta = s + 1 /\ r < cmd_DesiredRevision command /\ command_checks meta command = true /\
  command_unique meta (command_of meta command) d = true /\ 1 <= maxAttempts <= 32 /\
  operation_unique (new_operation now meta command kind maxAttempts) d = true.
Lemma RecordCommand_run now meta command kind maxAttempts t x t' :
  RecordCommand now meta command kind maxAttempts t = (x, t') ->
  (exists e, x = Err e /\ durable t' = durable t) \/
  (x = Ok tt /\ t' = Txn (working t) (working t) /\
   exists c, command_inbox (working t) !! EventID meta = Some c /\ same_command c meta command = true) \/
  (x = Ok tt /\ command_inbox (working t) !! EventID meta = None /\
   (exists s r, acceptable (working t) meta command kind maxAttempts now s r) /\
   let d' := commanded (working t) now meta command kind maxAttempts in t' = Txn d' d').
Proof.
  destruct t as [du d]. unfold RecordCommand. rewrite run_get. cbn [working].
  destruct (command_inbox d !! EventID meta) as [c|] eqn:Hin; cbv iota.
  - unfold require. destruct (same_command c meta command) eqn:Hs; rewrite ?run_ret, ?run_throw;
      unfold commit; intros [= <- <-]; [right; left; eauto 6 | left; eauto].
  - destruct (default _ _) as [s r] eqn:Hcur. unfold require.
    repeat match goal with
    | |- bind (if ?b then _ else _) _ _ = _ -> _ =>
        let H := fresh "Hc" in destruct b eqn:H; rewrite ?run_ret, ?run_throw, ?run_modify;
        [|intros [= <- <-]; left; eauto]
    end.
    rewrite ?run_modify. unfold commit. intros [= <- <-]. right. right. split; [done|]. split; [done|]. split; [|done].
    exists s, r. unfold acceptable. rewrite negb_true_iff, orb_false_iff, !Z.leb_gt in Hc0.
    rewrite andb_true_iff, !Z.leb_le in Hc3. rewrite Z.leb_le in Hc. split_and!; try done; lia.
Qed.

Lemma Inv_acceptable d meta command kind maxAttempts now s r :
  Inv d -> acceptable d meta command kind maxAttempts now s r ->
  Good d (commanded d now meta command kind maxAttempts).
Proof.
  intros HI (Hcur & Hs & Hr & Hck & _ & _ & Hu). unfold operation_unique in Hu. simpl in Hu.
  apply andb_true_iff in Hu as [Hid%bool_decide_eq_true _].
  assert (0 < AggregateSequence meta /\ 0 < cmd_DesiredRevision command) as [Hpos Hrpos].
  { unfold command_checks in Hck. rewrite !andb_true_iff, !Z.ltb_lt in Hck. tauto. }
  split; [by eapply Inv_commanded | by apply commanded_settles].
Qed.

Lemma good_RecordCommand d0 now meta command kind maxAttempts :
  preserves (Good d0) (RecordCommand now meta command kind maxAttempts).
Proof.
  intros t HG. destruct (RecordCommand _ _ _ _ _ t) as [x t'] eqn:E.
  apply RecordCommand_run in E as [(e & -> & Hd)|[(-> & -> & _)|(-> & _ & (s & r & Ha) & ->)]]; simpl; [by rewrite Hd|done|].
  enough (Good d0 (commanded (working t) now meta command kind maxAttempts)) by done.
  eapply Good_trans; [done|]. destruct HG. by eapply Inv_acceptable.
Qed.
