(* ===== verification/ProvisioningPlacement.v ===== *)
(** * provisioning-service: placement and capacity

    Releasing a slot, placing a new credential, taking slots back on
    reactivation, and the node inventory. *)

From Stdlib Require Import List Permutation.
From S2P Require Import Prelude GoStrings Backoff Platform ProvisioningDomain ProvisioningStore ProvisioningInv.

Lemma allocs_ok_identity al al' ops ops' cur nds nds' :
  pointwise (fun a a' => al_identity a' = al_identity a) al al' -> settles ops ops' ->
  (forall k, is_Some (nds !! k) -> is_Some (nds' !! k)) -> allocs_ok al ops cur nds -> allocs_ok al' ops' cur nds'.
Proof.
  intros Ha Ho Hn [K N R P G]. constructor.
  - intros k a (a0 & H0 & [= -> _ _ _ _ _])%(pointwise_bwd _ _ _ _ _ Ha). by apply K.
  - intros k k' a a' (a0 & H0 & [= _ -> -> _ _ _])%(pointwise_bwd _ _ _ _ _ Ha)
      (a1 & H1 & [= _ -> -> _ _ _])%(pointwise_bwd _ _ _ _ _ Ha). by apply N.
  - intros k k' a a' (a0 & H0 & [= _ -> _ -> _ _])%(pointwise_bwd _ _ _ _ _ Ha)
      (a1 & H1 & [= _ -> _ -> _ _])%(pointwise_bwd _ _ _ _ _ Ha). by apply R.
  - intros k a (a0 & H0 & [= _ _ -> _ _ _])%(pointwise_bwd _ _ _ _ _ Ha). by eapply Hn, P.
  - intros k a (a0 & H0 & [= _ -> _ _ -> ->])%(pointwise_bwd _ _ _ _ _ Ha).
    destruct (G k a0 H0) as (s & o & Hc & Hk & E1 & E2).
    destruct (Ho _ _ Hk) as (o' & Hk' & [= _ Hc' _ Hr' _ _ _ _] & _). exists s, o'. split_and!; congruence.
Qed.

Lemma set_allocated_node f n : nd_node (set_allocated f n) =
  let m := nd_node n in
  MkNode (n_ID m) (n_Region m) (n_ManagementURL m) (n_ManagementSPIFFEID m) (n_CapacityLimit m)
      (n_ReservePercent m) (f (n_AllocatedClients m)) (n_PublicAddress m) (n_PublicPort m) (n_ServerName m)
      (n_RealityPublicKey m) (n_ShortID m) (n_SpiderX m) (n_Label m).
Proof. done. Qed.
Lemma set_allocated_id f n : f (n_AllocatedClients (nd_node n)) = n_AllocatedClients (nd_node n) -> set_allocated f n = n.
Proof. unfold set_allocated. intros ->. by destruct n as [[] ? ? ? ? ?]. Qed.

(** ** Releasing a slot *)

Lemma Inv_release d k a a' :
  allocations d !! k = Some a -> a_state a <> ARevoked -> al_identity a' = al_identity a -> a_state a' = ARevoked ->
  Inv d -> Inv (set_nodes (alter (set_allocated (fun c => Z.max (c - 1) 0)) (a_node_id a)) (set_allocations (insert k a') d)).
Proof.
  intros Hk Hs Hi Hr [I1 I2 [K C L B] I4 I5 I6]. split; simpl; try done.
  - eapply allocs_ok_identity, I2; [by apply (pointwise_insert _ _ _ a)|apply settles_refl|].
    intros j [n Hn]. destruct (decide (j = a_node_id a)) as [->|].
    + rewrite lookup_alter_eq, Hn. eauto.
    + rewrite lookup_alter_ne by done. eauto.
  - assert (forall j, (indicator (bool_decide (a_node_id a = j)) + count_where (holds j) (<[k:=a']> (allocations d)) =
                 count_where (holds j) (allocations d))%nat) as Hcount.
    { intros j. pose proof (count_replace (holds j) (allocations d) k a' a Hk) as H. unfold holds at 1 3 in H.
      rewrite Hr, (bool_decide_false (a_state a = ARevoked)) in H by done. simpl in H.
      rewrite andb_true_r, andb_false_r in H. simpl in H. lia. }
    constructor; intros j n (n0 & Hn & ->)%alter_Some; specialize (Hcount j).
    + case_decide; simpl; by apply K.
    + pose proof (C j n0 Hn). case_decide; simpl.
      * rewrite bool_decide_true in Hcount by done. simpl in Hcount. lia.
      * rewrite bool_decide_false in Hcount by congruence. simpl in Hcount. lia.
    + pose proof (C j n0 Hn). pose proof (L j n0 Hn). case_decide; [|done]. simpl. unfold node_ceiling in *. simpl.
      rewrite bool_decide_true in Hcount by done. simpl in Hcount. lia.
    + case_decide; simpl; by apply (B j n0).
Qed.

Lemma on_node_true o nodeID a : on_node o nodeID a = true -> a_credential_id a = op_credential_id o /\
  a_desired_operation_id a = op_id o /\ a_desired_revision a = op_desired_revision o /\ a_node_id a = nodeID.
Proof. unfold on_node. rewrite !andb_true_iff, !bool_decide_eq_true, Z.eqb_eq. tauto. Qed.

Lemma good_MarkAllocationRevoked d0 now id node rev : preserves (Good d0) (MarkAllocationRevoked now id node rev).
Proof.
  unfold MarkAllocationRevoked. from_read. destruct (in_state _ _ _) as [o|]; simpl; [|done].
  destruct (head _) as [a|] eqn:Ea; simpl; [|done]. destruct (bool_decide (a_state a = ARevoked)) eqn:Es; simpl; [done|].
  apply bool_decide_eq_false in Es.
  assert (a ∈ where_ (fun a => on_node o node a && bool_decide (a_desired_state a = DAbsent)) (allocations d)) as Hin.
  { destruct (where_ _ _); [done|]. injection Ea as ->. left. }
  apply elem_where in Hin as [(Ho & _)%andb_true_iff (k & Hk)]. apply on_node_true in Ho as (_ & _ & _ & <-).
  assert (a_id a = k) as <- by (by apply HG).
  match goal with |- _ /\ (_ -> Good d0 ?d') => enough (Good d0 d') by done end.
  destruct HG as [HI HS]. split; [|done]. by apply Inv_release.
Qed.

(** ** Placing a new credential *)

(** The operation a worker holds is still the last command. *)
Definition current (d : db) (v : Operation) : Prop :=
  exists o, operations d !! ID v = Some o /\ op_credential_id o = CredentialID v /\
       op_desired_revision o = DesiredRevision v /\ live (op_state o) = true.

Lemma Inv_allocate d now id v n role protocol k :
  unique_allocation (new_allocation now id v k role protocol) d = true -> nodes d !! k = Some n -> current d v ->
  n_AllocatedClients (nd_node n) < node_ceiling (nd_node n) -> Inv d ->
  Inv (set_nodes (alter (set_allocated (fun c => c + 1)) k)
        (set_allocations (insert id (new_allocation now id v k role protocol)) d)).
Proof.
  intros [Hid Hu]%andb_true_iff Hn (o & Ho & Hoc & Hor & Hol) Hcap [I1 [K N R P G] [CK CC CL CB] I4 I5 I6].
  apply bool_decide_eq_true in Hid. rewrite negb_true_iff, exists_row_false in Hu. simpl in *.
  assert (forall j a, allocations d !! j = Some a -> a_credential_id a = CredentialID v ->
    a_node_id a <> k /\ a_role a <> role) as Hfresh.
  { intros j a Hj Hc. specialize (Hu j a Hj). rewrite Hc, bool_decide_true in Hu by done. simpl in Hu.
    by apply orb_false_iff in Hu as [?%bool_decide_eq_false ?%bool_decide_eq_false]. }
  split; simpl; try done.
  - constructor.
    + intros j a. rewrite lookup_insert. case_decide; [intros [= <-]; done|]. apply K.
    + intros j j' a a'. rewrite !lookup_insert. repeat case_decide; intros; simplify_eq/=; try done; [| |by eapply N];
        edestruct Hfresh; eauto; congruence.
    + intros j j' a a'. rewrite !lookup_insert. repeat case_decide; intros; simplify_eq/=; try done; [| |by eapply R];
        edestruct Hfresh; eauto; congruence.
    + intros j a. rewrite lookup_insert. assert (forall x, is_Some (nodes d !! x) ->
        is_Some (alter (set_allocated (fun c => c + 1)) k (nodes d) !! x)) as Hsome.
      { intros x [y Hy]. destruct (decide (x = k)) as [->|].
        - rewrite lookup_alter_eq, Hy. eauto.
        - rewrite lookup_alter_ne by done. eauto. }
      case_decide; [intros [= <-]|]; intros; apply Hsome; [simpl; eauto|eauto].
    + intros j a. rewrite lookup_insert. case_decide; [intros [= <-]|apply G]. simpl.
      exists (op_command_sequence o), o. split_and!; try done. rewrite <- Hoc, <- Hor. by eapply (ops_live _ _ I1).
  - constructor; intros j m (m0 & Hm & ->)%alter_Some.
    + case_decide; simpl; by apply CK.
    + rewrite count_insert_fresh by done. unfold holds at 1. simpl. pose proof (CC j m0 Hm).
      case_decide; simpl; [subst; rewrite bool_decide_true by done|rewrite bool_decide_false by congruence]; simpl; lia.
    + pose proof (CL j m0 Hm). case_decide; [|done]. subst. simplify_eq. unfold node_ceiling in *. simpl. lia.
    + case_decide; simpl; by apply (CB j m0).
Qed.

Lemma ceiling_div c r : 1 <= c -> 20 <= r <= 90 -> ceiling c r = c * (100 - r) / 100.
Proof. intros Hc Hr. unfold ceiling. rewrite Z.quot_div_nonneg by nia. done. Qed.

Definition placed (d : db) (now : Z) (id : string) (v : Operation) (k : string) (role : Role) (protocol : string) : db :=
  set_nodes (alter (set_allocated (fun c => c + 1)) k)
    (set_allocations (insert id (new_allocation now id v k role protocol)) d).
Lemma allocate_on_run now v protocol id role n t x t' :
  allocate_on now v protocol id role n t = (x, t') ->
  (exists e, x = Err e /\ t' = t) \/
  (x = Ok tt /\
   unique_allocation (new_allocation now id v (n_ID (nd_node n)) role protocol) (working t) = true /\
   t' = Txn (durable t) (placed (working t) now id v (n_ID (nd_node n)) role protocol)).
Proof.
  unfold allocate_on, require. rewrite run_get. destruct (unique_allocation _ _) eqn:E; rewrite ?run_ret, ?run_throw.
  - rewrite run_modify. intros [= <- <-]. right. done.
  - intros [= <- <-]. left. eauto.
Qed.

Definition bound (d : db) (v : Operation) : db :=
  set_operations (alter (bind_allocation_revision (DesiredRevision v)) (ID v)) d.
Lemma sim_bound d v : current d v -> db_sim d (bound d v).
Proof.
  intros (o & Ho & _ & _ & Hl). same_tables. apply pointwise_alter; [done|]. intros o' Ho'. simplify_eq.
  split_and!; [done|done|congruence].
Qed.

Lemma placeable_spec now region locked n :
  placeable now region locked n = true ->
  n_Region (nd_node n) = region /\ nd_status n = NActive /\
  (exists seen, nd_last_seen_at n = Some seen /\ now - freshness <= seen) /\
  n_AllocatedClients (nd_node n) < n_CapacityLimit (nd_node n) * (100 - n_ReservePercent (nd_node n)) / 100.
Proof.
  unfold placeable. rewrite !andb_true_iff, !bool_decide_eq_true. intros ((((-> & ->) & Hs) & Hc) & _).
  destruct (nd_last_seen_at n); [|done]. split_and!; [done|done|eexists; split; [done|]; lia|lia].
Qed.

(** The state after a new credential was placed on [n1] and [n2]. *)
Definition placed_pair (d : db) (now : Z) (id1 id2 : string) (v : Operation) (protocol : string) (n1 n2 : node_row) : db :=
  bound (placed (placed d now id1 v (n_ID (nd_node n1)) Primary protocol) now id2 v (n_ID (nd_node n2)) Failover protocol) v.
Definition both_unique (d : db) (now : Z) (id1 id2 : string) (v : Operation) (protocol : string) (n1 n2 : node_row) : Prop :=
  unique_allocation (new_allocation now id1 v (n_ID (nd_node n1)) Primary protocol) d = true /\
  unique_allocation (new_allocation now id2 v (n_ID (nd_node n2)) Failover protocol)
    (placed d now id1 v (n_ID (nd_node n1)) Primary protocol) = true.

Lemma both_unique_nodes d now id1 id2 v protocol n1 n2 :
  both_unique d now id1 id2 v protocol n1 n2 -> n_ID (nd_node n1) <> n_ID (nd_node n2) /\ id1 <> id2.
Proof.
  intros [_ [Hid Hu]%andb_true_iff]. apply bool_decide_eq_true in Hid. simpl in *. split.
  - intros E. rewrite negb_true_iff, exists_row_false in Hu. specialize (Hu id1 _ (lookup_insert_eq _ _ _)). simpl in Hu.
    by rewrite !bool_decide_true in Hu by congruence.
  - intros ->. by rewrite lookup_insert_eq in Hid.
Qed.

Lemma good_placed_pair d now region locked id1 id2 v protocol n1 n2 l :
  order_by by_load (where_ (placeable now region locked) (nodes d)) = n1 :: n2 :: l -> current d v ->
  both_unique d now id1 id2 v protocol n1 n2 -> Inv d -> Good d (placed_pair d now id1 id2 v protocol n1 n2).
Proof.
  intros Hsel Hcur Hu HI.
  assert (forall n, n ∈ [n1; n2] -> nodes d !! n_ID (nd_node n) = Some n /\
    n_AllocatedClients (nd_node n) < node_ceiling (nd_node n)) as Hnode.
  { intros n Hn. assert (n ∈ where_ (placeable now region locked) (nodes d)) as Hin.
    { apply (elem_order_by by_load). rewrite Hsel. set_solver. }
    apply elem_where in Hin as [(_ & _ & _ & Hc)%placeable_spec (k & Hk)].
    rewrite (cap_key _ _ (inv_caps _ HI) _ _ Hk). split; [done|].
    destruct (cap_limits _ _ (inv_caps _ HI) _ _ Hk). unfold node_ceiling. by rewrite ceiling_div by lia. }
  destruct (Hnode n1) as [Hn1 Hc1]; [set_solver|]. destruct (Hnode n2) as [Hn2 Hc2]; [set_solver|].
  pose proof (both_unique_nodes _ _ _ _ _ _ _ _ Hu) as [Hne _]. destruct Hu as [Hu1 Hu2].
  assert (Inv (placed d now id1 v (n_ID (nd_node n1)) Primary protocol)) as HI1 by (by eapply Inv_allocate).
  assert (current (placed d now id1 v (n_ID (nd_node n1)) Primary protocol) v) as Hcur1 by done.
  assert (Inv (placed (placed d now id1 v (n_ID (nd_node n1)) Primary protocol) now id2 v (n_ID (nd_node n2)) Failover protocol)) as HI2.
  { eapply Inv_allocate; [done| |done|exact Hc2|done]. simpl. by rewrite lookup_alter_ne. }
  eapply Good_sim; [by apply sim_bound|]. split; [done|apply settles_refl].
Qed.

(** ** Taking slots back *)

Definition revoked_on (k : string) (a : Allocation) : bool :=
  bool_decide (al_State a = ARevoked) && bool_decide (n_ID (al_Node a) = k).
Definition occ (k : string) (l : list Allocation) : Z := Z.of_nat (length (List.filter (revoked_on k) l)).
Definition generation_ok (v : Operation) (protocol : string) (a : Allocation) : Prop :=
  al_DesiredOperationID a = ID v /\ al_DesiredRevision a = DesiredRevision v /\ al_DesiredState a = DPresent /\
  al_Protocol a = protocol.
Definition taken (now : Z) (region : string) (l : list Allocation) (nds nds' : table node_row) : Prop := forall k,
  nds' !! k = set_allocated (fun c => c + occ k l) <$> nds !! k /\
  (0 < occ k l -> exists n seen, nds !! k = Some n /\ nd_status n = NActive /\ n_Region (nd_node n) = region /\
     nd_last_seen_at n = Some seen /\ now - freshness <= seen /\
     n_AllocatedClients (nd_node n) + occ k l <= node_ceiling (nd_node n)).

Lemma set_allocated_twice f g n : set_allocated g (set_allocated f n) = set_allocated (fun c => g (f c)) n.
Proof. done. Qed.
Lemma set_allocated_ext f g n : (forall c, f c = g c) -> set_allocated f n = set_allocated g n.
Proof. intros H. unfold set_allocated. by rewrite H. Qed.
Lemma occ_cons k a l : occ k (a :: l) = (if revoked_on k a then 1 else 0) + occ k l.
Proof. unfold occ. simpl. destruct (revoked_on k a); simpl; lia. Qed.
Lemma occ_nonneg k l : 0 <= occ k l.
Proof. unfold occ. lia. Qed.

Lemma taken_nil now region nds : taken now region [] nds nds.
Proof.
  intros k. unfold occ. simpl. split; [|lia]. destruct (nds !! k) as [n|]; [|done]. simpl.
  by rewrite set_allocated_id by lia.
Qed.
Lemma taken_skip now region a l nds nds' : al_State a <> ARevoked -> taken now region l nds nds' ->
  taken now region (a :: l) nds nds'.
Proof.
  intros Ha H k. assert (revoked_on k a = false) as Hr by (unfold revoked_on; by rewrite bool_decide_false).
  rewrite occ_cons, Hr, Z.add_0_l. apply H.
Qed.
Lemma taken_cons now region a l nds nds' n seen :
  al_State a = ARevoked -> nds !! n_ID (al_Node a) = Some n -> nd_last_seen_at n = Some seen ->
  can_reactivate now region n seen = true ->
  taken now region l (<[n_ID (al_Node a):=set_allocated (fun c => c + 1) n]> nds) nds' -> taken now region (a :: l) nds nds'.
Proof.
  intros Ha Hn Hseen Hcan H k. specialize (H k). pose proof (occ_nonneg k l) as Hpos.
  unfold can_reactivate in Hcan. rewrite !andb_true_iff, !bool_decide_eq_true, !negb_true_iff in Hcan.
  destruct Hcan as (((Hst & Hreg) & Hfr) & Hcap). rewrite Z.ltb_ge in Hfr. rewrite Z.leb_gt in Hcap.
  rewrite occ_cons. unfold revoked_on. rewrite bool_decide_true by done. simpl.
  rewrite lookup_insert in H. case_decide as Hk.
  - subst k. rewrite bool_decide_true by done. rewrite Hn. simpl in *. destruct H as [H1 H2]. split.
    + rewrite H1. f_equal. rewrite set_allocated_twice. apply set_allocated_ext. intros. lia.
    + intros _. exists n, seen. split_and!; try done. destruct (decide (occ (n_ID (al_Node a)) l = 0)) as [E|E].
      * rewrite E. unfold node_ceiling. lia.
      * destruct H2 as (n' & s' & [= <-] & _ & _ & _ & _ & Hle); [lia|]. simpl in Hle. unfold node_ceiling in *. simpl in Hle. lia.
  - rewrite bool_decide_false by done. simpl. by rewrite Z.add_0_l.
Qed.

Lemma reactivate_run now v region protocol l t x t' :
  reactivate now v region protocol l t = (x, t') ->
  (exists e, x = Err e /\ durable t' = durable t) \/
  (x = Ok tt /\ Forall (generation_ok v protocol) l /\ exists nds', taken now region l (nodes (working t)) nds' /\
   t' = Txn (durable t) (set_nodes (fun _ => nds') (working t))).
Proof.
  revert t. induction l as [|a l IH]; intros [du d]; simpl.
  - intros [= <- <-]. right. split; [done|]. split; [by constructor|]. exists (nodes d). split; [apply taken_nil|].
    by destruct d.
  - unfold require at 1. destruct (_ && _) eqn:Hg; [rewrite run_ret|rewrite run_throw; intros [= <- <-]; left; eauto].
    rewrite !andb_true_iff, !bool_decide_eq_true, Z.eqb_eq in Hg. destruct Hg as (((Hg1 & Hg2) & Hg3) & Hg4).
    destruct (bool_decide (al_State a = ARevoked)) eqn:Hs; simpl negb; cbv iota.
    + apply bool_decide_eq_true in Hs. unfold need, require.
      intros H. apply bind_inv in H as [(u & t1 & H1 & H2)|(e & H1 & ->)].
      * revert H1. rewrite run_get. cbn [working]. destruct (nodes d !! n_ID (al_Node a)) as [n|] eqn:Hn; [|done].
        rewrite run_ret. destruct (nd_last_seen_at n) as [seen|] eqn:Hseen; [|done]. rewrite run_ret.
        destruct (can_reactivate _ _ _ _) eqn:Hcan; [|done]. rewrite run_ret. intros [= <- <-].
        apply IH in H2 as [?|(-> & Hall & nds' & Ht & ->)]; [by left|]. right. split; [done|].
        split; [by constructor|]. exists nds'. split; [|done]. by eapply taken_cons.
      * left. exists e. split; [done|]. revert H1. rewrite run_get. cbn [working].
        destruct (nodes d !! _) as [n|]; rewrite ?run_ret, ?run_throw; [|by intros [= _ <-]].
        destruct (nd_last_seen_at n); rewrite ?run_ret, ?run_throw; [|by intros [= _ <-]].
        destruct (can_reactivate _ _ _ _); rewrite ?run_ret, ?run_throw; by intros [= _ <-].
    + apply bool_decide_eq_false in Hs. rewrite run_ret. intros H2.
      apply IH in H2 as [?|(-> & Hall & nds' & Ht & ->)]; [by left|]. right. split; [done|].
      split; [by constructor|]. exists nds'. split; [|done]. by apply taken_skip.
Qed.

(** The state after the slots in [nds'] were taken and the allocations made
    pending again. *)
Definition rebound (d : db) (now : Z) (v : Operation) (nds' : table node_row) : db :=
  bound (set_allocations (update_where (of_generation v) (rebind now (ID v) (DesiredRevision v)))
           (set_nodes (fun _ => nds') d)) v.

Lemma of_generation_true v a : of_generation v a = true <->
  a_credential_id a = CredentialID v /\ a_desired_operation_id a = ID v /\ a_desired_revision a = DesiredRevision v.
Proof. unfold of_generation. rewrite !andb_true_iff, !bool_decide_eq_true, Z.eqb_eq. tauto. Qed.

(** The listing of a credential shows every one of its allocations. *)
Lemma listAllocations_rows d c : Inv d ->
  Forall2 (fun a x => exists n, nodes d !! a_node_id a = Some n /\ n_ID (nd_node n) = a_node_id a /\
    x = allocation_view a n) (allocation_rows d c) (listAllocations d c).
Proof.
  intros HI. unfold listAllocations.
  assert (forall a, a ∈ allocation_rows d c -> exists n, nodes d !! a_node_id a = Some n /\ n_ID (nd_node n) = a_node_id a) as Hj.
  { intros a Ha. unfold allocation_rows in Ha. apply elem_order_by, elem_where in Ha as (_ & k & Hk).
    destruct (al_placed _ _ _ _ (inv_allocs _ HI) _ _ Hk) as [n Hn]. exists n. split; [done|]. by apply HI. }
  induction (allocation_rows d c) as [|a l IH]; [constructor|].
  destruct (Hj a) as (n & Hn & Hid); [left|]. simpl. unfold join_node at 1. rewrite Hn. simpl. constructor.
  - eauto.
  - apply IH. intros b Hb. apply Hj. by right.
Qed.

Lemma occ_rows d c k : Inv d -> occ k (listAllocations d c) =
  Z.of_nat (count_where (fun a => bool_decide (a_credential_id a = c) &&
    (bool_decide (a_state a = ARevoked) && bool_decide (a_node_id a = k))) (allocations d)).
Proof.
  intros HI. unfold occ, count_where, where_. f_equal.
  transitivity (length (List.filter (fun a => bool_decide (a_state a = ARevoked) && bool_decide (a_node_id a = k))
                          (allocation_rows d c))).
  - pose proof (listAllocations_rows d c HI) as H. induction H as [|a x l l' (n & _ & Hid & ->) H IH]; [done|].
    simpl. unfold revoked_on at 1. simpl. rewrite Hid. destruct (_ && _); simpl; by rewrite IH.
  - rewrite (count_filter_split (fun a => bool_decide (a_credential_id a = c))). apply count_perm. unfold allocation_rows, where_. by rewrite order_by_perm.
Qed.

Lemma generation_rows d v protocol : Inv d -> Forall (generation_ok v protocol) (listAllocations d (CredentialID v)) ->
  forall k a, allocations d !! k = Some a -> a_credential_id a = CredentialID v -> of_generation v a = true.
Proof.
  intros HI Hgen k a Hk Hc. assert (a ∈ allocation_rows d (CredentialID v)) as Hin.
  { apply elem_order_by, elem_where. rewrite bool_decide_true by done. eauto. }
  pose proof (listAllocations_rows d (CredentialID v) HI) as H2.
  apply list_elem_of_lookup_1 in Hin as [i Hi]. destruct (Forall2_lookup_l _ _ _ _ _ H2 Hi) as (x & Hx & n & _ & _ & ->).
  apply (Forall_lookup_1 _ _ _ _ Hgen) in Hx as (E1 & E2 & _). by apply of_generation_true.
Qed.

Lemma Inv_rebound d now v protocol region nds' :
  Inv d -> current d v -> Forall (generation_ok v protocol) (listAllocations d (CredentialID v)) ->
  taken now region (listAllocations d (CredentialID v)) (nodes d) nds' -> Good d (rebound d now v nds').
Proof.
  intros HI Hcur Hgen Ht. pose proof HI as [I1 I2 [K C L B] I4 I5 I6].
  pose proof (generation_rows _ _ _ HI Hgen) as Hof.
  assert (forall k, (count_where (holds k) (update_where (of_generation v) (rebind now (ID v) (DesiredRevision v)) (allocations d)) =
    count_where (holds k) (allocations d) + Z.to_nat (occ k (listAllocations d (CredentialID v))))%nat) as Hcount.
  { intros k. rewrite (occ_rows d _ _ HI), Nat2Z.id. apply count_update_gain. intros j a Hj.
    destruct (of_generation v a) eqn:Hg.
    - apply of_generation_true in Hg as (Hc & _). rewrite (bool_decide_true (_ = CredentialID v)) by done.
      unfold holds. simpl. destruct (bool_decide (a_node_id a = k)), (bool_decide (a_state a = ARevoked)); done.
    - rewrite bool_decide_false; [simpl; lia|]. intros Hc. specialize (Hof j a Hj Hc). congruence. }
  eapply Good_sim; [by apply sim_bound|]. split; [|apply settles_refl]. split; simpl; try done.
  - eapply allocs_ok_identity, I2; [|apply settles_refl|].
    + apply pointwise_update_where; [done|]. intros k a Hk Hg. apply of_generation_true in Hg as (_ & E1 & E2).
      unfold al_identity. simpl. by rewrite E1, E2.
    + intros k [n Hn]. destruct (Ht k) as [E _]. rewrite E, Hn. by eexists.
  - constructor; intros k n Hn; destruct (Ht k) as [E Hle]; rewrite E in Hn; apply fmap_Some in Hn as (n0 & H0 & ->);
      pose proof (occ_nonneg k (listAllocations d (CredentialID v))) as Hpos; simpl.
    + by apply K.
    + rewrite Hcount, (C k n0 H0). lia.
    + unfold node_ceiling. simpl. specialize (L k n0 H0).
      destruct (decide (occ k (listAllocations d (CredentialID v)) = 0)) as [->|]; [unfold node_ceiling in L; lia|].
      destruct Hle as (n1 & s & E1 & _ & _ & _ & _ & Hle); [lia|]. simplify_eq. done.
    + by apply (B k n0).
Qed.

(** The two ways [EnsureAllocations] succeeds. *)
Definition ensured (d : db) (now : Z) (locked : gset string) (id1 id2 : string) (v : Operation) (placement : Placement)
    (protocol : string) (d' : db) : Prop :=
  let existing := listAllocations d (CredentialID v) in
  (length existing = 2%nat /\ Forall (generation_ok v protocol) existing /\
   Primary ∈ al_Role <$> existing /\ Failover ∈ al_Role <$> existing /\
   exists nds', taken now (pl_Region placement) existing (nodes d) nds' /\ d' = rebound d now v nds') \/
  (existing = [] /\ exists n1 n2 l,
   order_by by_load (where_ (placeable now (pl_Region placement) locked) (nodes d)) = n1 :: n2 :: l /\
   both_unique d now id1 id2 v protocol n1 n2 /\ d' = placed_pair d now id1 id2 v protocol n1 n2).
Lemma EnsureAllocations_run now locked id1 id2 v placement protocol t x t' :
  EnsureAllocations now locked id1 id2 v placement protocol t = (x, t') ->
  (exists e, x = Err e /\ durable t' = durable t) \/
  (current (working t) v /\ protocol = "vless_reality"%string /\ now < pl_ValidUntil placement /\ exists d',
   ensured (working t) now locked id1 id2 v placement protocol d' /\
   x = Ok (listAllocations d' (CredentialID v)) /\ t' = Txn d' d').
Proof.
  destruct t as [du d]. intros H. unfold EnsureAllocations, require, need in H.
  destruct (_ && _) eqn:Hb in H; [rewrite run_ret in H|rewrite run_throw in H; injection H as <- <-; left; eauto].
  apply andb_true_iff in Hb as [_ Hproto%bool_decide_eq_true].
  rewrite run_get in H. cbn [working] in H.
  destruct (operations d !! ID v) as [o|] eqn:Ho; [rewrite run_ret in H|rewrite run_throw in H; injection H as <- <-; left; eauto].
  destruct (_ && _) eqn:Hi in H; [rewrite run_ret in H|rewrite run_throw in H; injection H as <- <-; left; eauto].
  apply andb_true_iff in Hi as [Hc%bool_decide_eq_true Hr%Z.eqb_eq].
  destruct (bool_decide (op_state o = SProcessing)) eqn:Hs; [rewrite run_ret in H|rewrite run_throw in H; injection H as <- <-; left; eauto].
  destruct (now <? pl_ValidUntil placement) eqn:Hv; [rewrite run_ret in H|rewrite run_throw in H; injection H as <- <-; left; eauto].
  apply bool_decide_eq_true in Hs. apply Z.ltb_lt in Hv.
  assert (current d v) as Hcur by (exists o; rewrite Hs; by split_and!). unfold ensured. cbn [working].
  destruct (listAllocations d (CredentialID v)) as [|a0 l0] eqn:Hl.
  - destruct (order_by by_load _) as [|n1 [|n2 l]] eqn:Hsel; [injection H as <- <-; left; eauto|injection H as <- <-; left; eauto|].
    apply bind_inv in H as [(u & t1 & H1 & H)|(e & H1 & ->)]; apply allocate_on_run in H1 as [(e1 & E1 & E2)|(E1 & Hu1 & E2)];
      simplify_eq; [|left; eauto].
    apply bind_inv in H as [(u & t1 & H1 & H)|(e & H1 & ->)]; apply allocate_on_run in H1 as [(e1 & E1 & E2)|(E1 & Hu2 & E2)];
      simplify_eq; [|left; eauto].
    rewrite run_modify, run_get, run_commit in H. injection H as <- <-. right. split; [done|]. split; [done|]. split; [done|].
    eexists. split; [|by split]. right. split; [done|]. exists n1, n2, l. by split_and!.
  - destruct (bool_decide (length (a0 :: l0) = 2%nat)) eqn:Hlen; [rewrite run_ret in H|rewrite run_throw in H; injection H as <- <-; left; eauto].
    apply bool_decide_eq_true in Hlen.
    apply bind_inv in H as [(u & t1 & H1 & H)|(e & H1 & ->)]; apply reactivate_run in H1 as [(e1 & E1 & E2)|(E1 & Hg & nds' & Ht & E2)];
      simplify_eq; [|left; eauto].
    destruct (bool_decide (Primary ∈ _)) eqn:Hp; [rewrite run_ret in H|rewrite run_throw in H; injection H as <- <-; left; eauto].
    destruct (bool_decide (Failover ∈ _)) eqn:Hf; [rewrite run_ret in H|rewrite run_throw in H; injection H as <- <-; left; eauto].
    rewrite run_get in H.
    destruct (bool_decide (count_where _ _ = _)); [rewrite run_ret in H|rewrite run_throw in H; injection H as <- <-; left; eauto].
    rewrite !run_modify, run_get, run_commit in H. injection H as <- <-. apply bool_decide_eq_true in Hp, Hf.
    right. split; [done|]. split; [done|]. split; [done|]. eexists. split; [|by split]. left.
    split; [simpl in *; congruence|]. split; [done|]. split; [done|]. split; [done|]. exists nds'. by split.
Qed.

Lemma good_ensured d now locked id1 id2 v placement protocol d' :
  Inv d -> current d v -> ensured d now locked id1 id2 v placement protocol d' -> Good d d'.
Proof.
  intros HI Hcur [(_ & Hg & _ & _ & nds' & Ht & ->)|(_ & n1 & n2 & l & Hsel & Hu & ->)].
  - by eapply Inv_rebound.
  - by eapply good_placed_pair.
Qed.
Lemma good_EnsureAllocations d0 now locked id1 id2 v placement protocol :
  preserves (Good d0) (EnsureAllocations now locked id1 id2 v placement protocol).
Proof.
  intros t HG. destruct (EnsureAllocations _ _ _ _ _ _ _ t) as [x t'] eqn:E.
  apply EnsureAllocations_run in E as [(e & -> & Hd)|(Hc & _ & _ & d' & He & -> & ->)]; simpl; [by rewrite Hd|].
  enough (Good d0 d') by done. eapply Good_trans; [done|]. destruct HG. by eapply good_ensured.
Qed.

(** ** The node inventory *)

Lemma node_checks_limits m : node_checks m = true ->
  1 <= n_CapacityLimit m <= 1000000 /\ 20 <= n_ReservePercent m <= 90.
Proof. unfold node_checks. rewrite !andb_true_iff, !Z.leb_le. tauto. Qed.

(** A node that carries nothing may be described anew. *)
Lemma Inv_new_node d k n :
  n_ID (nd_node n) = k -> n_AllocatedClients (nd_node n) = 0 -> node_checks (nd_node n) = true ->
  (forall n0, nodes d !! k = Some n0 -> n_AllocatedClients (nd_node n0) = 0) ->
  Inv d -> Inv (set_nodes (insert k n) d).
Proof.
  intros Hid Hz Hck Hold [I1 I2 [K C L B] I4 I5 I6].
  apply node_checks_limits in Hck as [Hc Hr]. split; simpl; try done.
  - eapply allocs_ok_identity, I2; [by apply pointwise_refl|apply settles_refl|]. intros j Hj.
    rewrite lookup_insert. case_decide; [by eexists|done].
  - constructor; intros j m; rewrite lookup_insert; case_decide as Hj; eauto; intros [= <-]; subst; try done.
    + rewrite Hz. destruct (count_where (holds (n_ID (nd_node n))) (allocations d)) as [|x] eqn:Ec; [done|].
      assert (exists a, a ∈ where_ (holds (n_ID (nd_node n))) (allocations d)) as [a Ha].
      { unfold count_where in Ec. destruct (where_ _ _) as [|a l]; [done|]. exists a. left. }
      apply elem_where in Ha as [[Ha _]%andb_true_iff (j & Hj)]. apply bool_decide_eq_true in Ha.
      destruct (al_placed _ _ _ _ I2 _ _ Hj) as [n0 Hn0]. rewrite Ha in Hn0.
      pose proof (C _ _ Hn0) as HC. rewrite (Hold _ Hn0), Ec in HC. lia.
    + rewrite Hz. unfold node_ceiling. rewrite ceiling_div by lia. apply Z.div_pos; nia.
Qed.

Lemma good_seedNode d0 seed : preserves (Good d0) (seedNode seed).
Proof.
  unfold seedNode. apply preserves_read. intros d HG [du w] Hw; simpl in Hw; subst w. unfold require, when.
  destruct (node_checks _) eqn:Hck; rewrite ?run_ret, ?run_throw; [|done].
  assert (forall n, n_ID (nd_node n) = sd_ID seed -> n_AllocatedClients (nd_node n) = 0 ->
    node_checks (nd_node n) = true ->
    (forall n0, nodes d !! sd_ID seed = Some n0 -> n_AllocatedClients (nd_node n0) = 0) ->
    Good d0 (set_nodes (insert (sd_ID seed) n) d)) as Hstep.
  { intros n H1 H2 H3 H4. destruct HG as [HI HS]. split; [by apply Inv_new_node|done]. }
  destruct (nodes d !! sd_ID seed) as [n|] eqn:Hn.
  - destruct (Z.eqb_spec (n_AllocatedClients (nd_node n)) 0) as [Hz|]; [|done].
    destruct (node_unique _ _); rewrite ?run_ret, ?run_throw; [|done]. simpl. split; [done|]. intros _.
    apply Hstep; try done. intros n0. by intros [= <-].
  - destruct (node_unique _ _); rewrite ?run_ret, ?run_throw; [|done]. simpl. split; [done|]. intros _. by apply Hstep.
Qed.
Lemma good_SeedNodes d0 seeds : preserves (Good d0) (SeedNodes seeds).
Proof.
  apply preserves_bind; [|intros _; apply preserves_commit].
  induction seeds as [|seed l IH]; simpl; [apply preserves_ret|]. apply preserves_bind; [apply good_seedNode|intros _; exact IH].
Qed.

(** A node that may take one more client of [region]. *)
Definition usable (d : db) (now : Z) (region k : string) : Prop := exists n seen,
  nodes d !! k = Some n /\ nd_status n = NActive /\ n_Region (nd_node n) = region /\
  nd_last_seen_at n = Some seen /\ now - freshness <= seen /\
  n_AllocatedClients (nd_node n) + 1 <= node_ceiling (nd_node n).
(** An allocation as [EnsureAllocations] leaves it: pending, of the
    operation's generation, on the node it already held a slot of or on a
    usable one. *)
Definition ensured_row (d : db) (now : Z) (v : Operation) (region protocol : string) (k : string) (a : allocation_row) : Prop :=
  a_credential_id a = CredentialID v /\ a_desired_operation_id a = ID v /\ a_desired_revision a = DesiredRevision v /\
  a_desired_state a = DPresent /\ a_allocation_revision a = DesiredRevision v /\ a_protocol a = protocol /\
  a_state a = APending /\ a_applied_config_revision a = None /\
  match allocations d !! k with
  | Some a0 => a_node_id a = a_node_id a0 /\ (a_state a0 = ARevoked -> usable d now region (a_node_id a))
  | None => usable d now region (a_node_id a)
  end.

Lemma two_rows d c x y : Inv d -> listAllocations d c = [x; y] -> exists k1 k2 a1 a2,
  allocations d !! k1 = Some a1 /\ allocations d !! k2 = Some a2 /\ a_credential_id a1 = c /\ a_credential_id a2 = c /\
  al_Role x = a_role a1 /\ al_Role y = a_role a2 /\ al_Protocol x = a_protocol a1 /\ al_Protocol y = a_protocol a2 /\
  (forall k a, allocations d !! k = Some a -> a_credential_id a = c -> k = k1 \/ k = k2).
Proof.
  intros HI Hl. pose proof (listAllocations_rows d c HI) as H2. rewrite Hl in H2.
  pose proof (list.Forall2_length _ _ _ H2) as Hlen. destruct (allocation_rows d c) as [|a1 [|a2 [|a3 l]]] eqn:Hr; try done.
  assert (forall a, a ∈ [a1; a2] -> exists k, allocations d !! k = Some a /\ a_credential_id a = c) as Hin.
  { intros a Ha. rewrite <- Hr in Ha. unfold allocation_rows in Ha.
    apply elem_order_by, elem_where in Ha as [Hc%bool_decide_eq_true (k & Hk)]. eauto. }
  destruct (Hin a1) as (k1 & Hk1 & Hc1); [set_solver|]. destruct (Hin a2) as (k2 & Hk2 & Hc2); [set_solver|].
  apply List.Forall2_cons_iff in H2 as [(n1 & _ & _ & ->) H2]. apply List.Forall2_cons_iff in H2 as [(n2 & _ & _ & ->) _].
  exists k1, k2, a1, a2. split_and!; try done. intros k a Hk Hc.
  assert (a ∈ allocation_rows d c) as Ha by (apply elem_order_by, elem_where; rewrite bool_decide_true by done; eauto).
  rewrite Hr in Ha. assert (a_id a = k) as <- by (by apply HI).
  assert (a_id a1 = k1) as <- by (by apply HI). assert (a_id a2 = k2) as <- by (by apply HI). set_solver.
Qed.
Lemma no_rows d c : Inv d -> listAllocations d c = [] -> forall k a, allocations d !! k = Some a -> a_credential_id a <> c.
Proof.
  intros HI Hl k a Hk Hc. pose proof (listAllocations_rows d c HI) as H2. rewrite Hl in H2. apply Forall2_nil_inv_r in H2.
  assert (a ∈ allocation_rows d c) as Ha by (apply elem_order_by, elem_where; rewrite bool_decide_true by done; eauto).
  rewrite H2 in Ha. by apply not_elem_of_nil in Ha.
Qed.

Lemma placeable_usable d now region locked n : Inv d -> n ∈ where_ (placeable now region locked) (nodes d) ->
  usable d now region (n_ID (nd_node n)).
Proof.
  intros HI [(H1 & H2 & (seen & H3 & H4) & H5)%placeable_spec (k & Hk)]%elem_where. exists n, seen.
  rewrite (cap_key _ _ (inv_caps _ HI) _ _ Hk). split_and!; try done.
  destruct (cap_limits _ _ (inv_caps _ HI) _ _ Hk). unfold node_ceiling. rewrite ceiling_div by lia. lia.
Qed.
Lemma taken_usable d now region c nds' k a : Inv d -> taken now region (listAllocations d c) (nodes d) nds' ->
  allocations d !! k = Some a -> a_credential_id a = c -> a_state a = ARevoked -> usable d now region (a_node_id a).
Proof.
  intros HI Ht Hk Hc Hs. destruct (Ht (a_node_id a)) as [_ Hu]. pose proof (occ_rows d c (a_node_id a) HI) as Hocc.
  assert (1 <= occ (a_node_id a) (listAllocations d c)) as Hpos.
  { rewrite Hocc. match goal with |- context [count_where ?p ?m] => pose proof (count_pos p m k a Hk) as Hp end.
    cbv beta in Hp. rewrite !bool_decide_true in Hp by done. specialize (Hp eq_refl). lia. }
  destruct Hu as (n & seen & H1 & H2 & H3 & H4 & H5 & H6); [lia|]. exists n, seen. split_and!; try done. lia.
Qed.

Lemma two_roles (a b : Role) : Primary ∈ [a; b] -> Failover ∈ [a; b] ->
  (a = Primary /\ b = Failover) \/ (a = Failover /\ b = Primary).
Proof. rewrite !list_elem_of_In. simpl. destruct a, b; intuition congruence. Qed.

Lemma ensured_effect d now locked id1 id2 v placement protocol d' :
  Inv d -> ensured d now locked id1 id2 v placement protocol d' -> exists kp kf ap af,
  allocations d' !! kp = Some ap /\ allocations d' !! kf = Some af /\ a_role ap = Primary /\ a_role af = Failover /\
  ensured_row d now v (pl_Region placement) protocol kp ap /\ ensured_row d now v (pl_Region placement) protocol kf af /\
  (forall k a, allocations d' !! k = Some a -> a_credential_id a = CredentialID v -> k = kp \/ k = kf) /\
  (forall k a, a_credential_id a <> CredentialID v -> allocations d' !! k = Some a <-> allocations d !! k = Some a).
Proof.
  intros HI [(Hlen & Hgen & Hp & Hf & nds' & Ht & ->)|(Hnil & n1 & n2 & l & Hsel & Hu & ->)].
  - destruct (listAllocations d (CredentialID v)) as [|x [|y [|]]] eqn:Hl; try done.
    destruct (two_rows d _ x y HI Hl) as (k1 & k2 & a1 & a2 & Hk1 & Hk2 & Hc1 & Hc2 & R1 & R2 & P1 & P2 & Honly).
    assert (forall k a, allocations (rebound d now v nds') !! k = Some a <-> exists a0, allocations d !! k = Some a0 /\
      a = if of_generation v a0 then rebind now (ID v) (DesiredRevision v) a0 else a0) as Hal.
    { intros k a. simpl. rewrite lookup_update_where, fmap_Some. naive_solver. }
    rewrite <- Hl in Hgen, Ht. pose proof (generation_rows _ _ _ HI Hgen) as Hof.
    rewrite Hl in Hgen. apply List.Forall_cons_iff in Hgen as [(_ & _ & _ & Hp1) Hgen].
    apply List.Forall_cons_iff in Hgen as [(_ & _ & _ & Hp2) _].
    assert (forall k a, allocations d !! k = Some a -> a_credential_id a = CredentialID v -> a_protocol a = protocol ->
      allocations (rebound d now v nds') !! k = Some (rebind now (ID v) (DesiredRevision v) a) /\
      ensured_row d now v (pl_Region placement) protocol k (rebind now (ID v) (DesiredRevision v) a)) as Hrow.
    { intros k a Hk Hc Hpr. split; [apply Hal; exists a; by rewrite (Hof k a Hk Hc)|]. unfold ensured_row. simpl.
      rewrite Hk. split_and!; try done. intros Hs. by eapply taken_usable. }
    assert (a_protocol a1 = protocol) as E1 by congruence. assert (a_protocol a2 = protocol) as E2 by congruence.
    destruct (Hrow _ _ Hk1 Hc1 E1) as [Q1 W1]. destruct (Hrow _ _ Hk2 Hc2 E2) as [Q2 W2].
    assert (forall k a, allocations (rebound d now v nds') !! k = Some a -> a_credential_id a = CredentialID v ->
      k = k1 \/ k = k2) as Honly'.
    { intros k a (a0 & Hk0 & ->)%Hal Hc. apply (Honly k a0 Hk0). by destruct (of_generation v a0). }
    assert (forall k a, a_credential_id a <> CredentialID v ->
      allocations (rebound d now v nds') !! k = Some a <-> allocations d !! k = Some a) as Hother.
    { intros k a Hne. rewrite Hal. split.
      - intros (a0 & Hk0 & ->). destruct (of_generation v a0) eqn:Hg; [|done]. by apply of_generation_true in Hg as [? _].
      - intros Hk. exists a. split; [done|]. destruct (of_generation v a) eqn:Hg; [|done].
        by apply of_generation_true in Hg as [? _]. }
    simpl in Hp, Hf. rewrite R1, R2 in Hp, Hf. destruct (two_roles _ _ Hp Hf) as [[F1 F2]|[F1 F2]].
    + exists k1, k2. do 2 eexists. split_and!; try done.
    + exists k2, k1. do 2 eexists. split_and!; try done. intros k a H1 H2. destruct (Honly' k a H1 H2); auto.
  - pose proof (no_rows d _ HI Hnil) as Hno. pose proof (both_unique_nodes _ _ _ _ _ _ _ _ Hu) as [_ Hids].
    destruct Hu as [[Hid1%bool_decide_eq_true _]%andb_true_iff [Hid2%bool_decide_eq_true _]%andb_true_iff]. simpl in *.
    rewrite lookup_insert_ne in Hid2 by done.
    assert (forall n, n ∈ [n1; n2] -> usable d now (pl_Region placement) (n_ID (nd_node n))) as Huse.
    { intros n Hn. eapply (placeable_usable _ _ _ locked); [done|]. apply (elem_order_by by_load). rewrite Hsel. set_solver. }
    exists id1, id2. do 2 eexists. rewrite lookup_insert_ne, !lookup_insert_eq by done. split_and!; try done.
    + unfold ensured_row. simpl. rewrite Hid1. split_and!; try done. apply Huse. set_solver.
    + unfold ensured_row. simpl. rewrite Hid2. split_and!; try done. apply Huse. set_solver.
    + intros k a. rewrite !lookup_insert. repeat case_decide; auto. intros Hk Hc. by destruct (Hno k a Hk).
    + intros k a Hne. rewrite !lookup_insert. repeat case_decide; subst; [|
       |done]; split; intros; simplify_eq/=; congruence.
Qed.
