(* ===== verification/ProvisioningSpec.v ===== *)
(** * provisioning-service: what the store guarantees

    The operations of the store as one transition function, the states its
    callers can reach, and the properties of those states. *)

From Stdlib Require Import List.
From S2P Require Import Prelude GoStrings Backoff Platform ProvisioningDomain ProvisioningStore ProvisioningInv.
From S2P Require Import ProvisioningSteps ProvisioningPlacement.

(** ** The store as a transition system *)

Inductive op :=
  | OpRecordCommand (now : Z) (meta : EventMeta) (command : Command) (kind : Kind) (maxAttempts : Z)
  | OpDeadLetter (now wall : Z) (eventID topic : string) (partition offset : Z) (hash reason : string)
  | OpClaimOperation (now lease : Z) (locked : gset string)
  | OpEnsureAllocations (now : Z) (locked : gset string) (id1 id2 : string) (v : Operation) (placement : Placement)
      (protocol : string)
  | OpPrepareRevoke (now : Z) (v : Operation)
  | OpMarkApplied (now : Z) (operationID nodeID : string) (configRevision : Z)
  | OpMarkRevoked (now : Z) (operationID nodeID : string) (configRevision : Z)
  | OpMarkFailed (operationID nodeID reason : string)
  | OpRetryOperation (now : Z) (operationID reason : string) (delay : Z)
  | OpCompleteProvision (now wall : Z) (eventID : string) (v : Operation) (status : ProvisionStatus)
      (allocations : list Allocation)
  | OpCompleteProvisionFailure (now wall : Z) (eventID : string) (v : Operation) (scope reason : string)
      (pending : list string)
  | OpCompleteRevoke (now wall : Z) (eventID : string) (v : Operation) (allocations : list Allocation)
  | OpCompleteRevokeFailure (now wall : Z) (eventID : string) (v : Operation) (reason : string) (pending : list string)
  | OpClaimOutbox (now lease : Z) (locked : gset string)
  | OpCompleteOutbox (now : Z) (eventID : string)
  | OpRetryOutbox (now delay : Z) (eventID : string)
  | OpSeedNodes (seeds : list NodeSeed)
  | OpRecordNodeHealth (now : Z) (status : AgentStatus) (staleAfter : Z)
  | OpMarkNodeOffline (nodeID : string)
  | OpClaimReconciliation (now limit lease : Z) (locked : gset string) (claims : list string)
  | OpReschedule (now : Z) (allocationID claimID : string) (delay : Z)
  | OpRequestReplay (topic : string) (partition offset : Z)
  | OpCompleteReplay (topic : string) (partition offset : Z).

Definition outcome {A} (m : prov_tx A) (d : db) : option ProvErr * db :=
  match in_tx m d with (Ok _, d') => (None, d') | (Err e, d') => (Some e, d') end.
Arguments outcome : simpl never.

Definition exec (o : op) : db -> option ProvErr * db :=
  match o with
  | OpRecordCommand now m c k n => outcome (RecordCommand now m c k n)
  | OpDeadLetter now w e t p off h r => outcome (RecordDeadLetter now w e t p off h r)
  | OpClaimOperation now l k => outcome (ClaimOperation now l k)
  | OpEnsureAllocations now k i1 i2 v p pr => outcome (EnsureAllocations now k i1 i2 v p pr)
  | OpPrepareRevoke now v => outcome (PrepareRevoke now v)
  | OpMarkApplied now i n r => outcome (MarkAllocationApplied now i n r)
  | OpMarkRevoked now i n r => outcome (MarkAllocationRevoked now i n r)
  | OpMarkFailed i n r => outcome (MarkAllocationFailed i n r)
  | OpRetryOperation now i r dl => outcome (RetryOperation now i r dl)
  | OpCompleteProvision now w e v s l => outcome (CompleteProvision now w e v s l)
  | OpCompleteProvisionFailure now w e v s r l => outcome (CompleteProvisionFailure now w e v s r l)
  | OpCompleteRevoke now w e v l => outcome (CompleteRevoke now w e v l)
  | OpCompleteRevokeFailure now w e v r l => outcome (CompleteRevokeFailure now w e v r l)
  | OpClaimOutbox now l k => outcome (ClaimOutbox now l k)
  | OpCompleteOutbox now e => outcome (CompleteOutbox now e)
  | OpRetryOutbox now dl e => outcome (RetryOutbox now dl e)
  | OpSeedNodes l => outcome (SeedNodes l)
  | OpRecordNodeHealth now s st => outcome (RecordNodeHealth now s st)
  | OpMarkNodeOffline n => outcome (MarkNodeOffline n)
  | OpClaimReconciliation now lim l k c => outcome (ClaimReconciliationCandidates now lim l k c)
  | OpReschedule now a c dl => outcome (RescheduleReconciliation now a c dl)
  | OpRequestReplay t p off => outcome (RequestDeadLetterReplay t p off)
  | OpCompleteReplay t p off => outcome (CompleteDeadLetterReplay t p off)
  end.

(** Workers conclude operations they claimed: the value they hold describes
    a row of the table, as it was at the claim or later. *)
Definition allowed (o : op) (d : db) : Prop :=
  match o with
  | OpCompleteProvision _ _ _ v _ _ | OpCompleteProvisionFailure _ _ _ v _ _ _
  | OpCompleteRevoke _ _ _ v _ | OpCompleteRevokeFailure _ _ _ v _ _ => genuine d v
  | _ => True
  end.

Inductive reaches (d : db) : db -> Prop :=
  | reaches_here : reaches d d
  | reaches_step d' o : reaches d d' -> allowed o d' -> reaches d (snd (exec o d')).
Definition reachable : db -> Prop := reaches empty_db.

Lemma outcome_snd {A} (m : prov_tx A) d : snd (outcome m d) = snd (in_tx m d).
Proof. unfold outcome. by destruct (in_tx m d) as [[?|?] ?]. Qed.

Lemma good_concludes d0 b e (m : prov_tx unit) : preserves (Good d0) m -> preserves (Good d0) (require b e ;;; m).
Proof. intros H. apply preserves_bind; [apply preserves_require | by intros _]. Qed.

Lemma exec_good o d : Inv d -> allowed o d -> Good d (snd (exec o d)).
Proof.
  intros HI Hok.
  destruct o; cbn [exec]; rewrite outcome_snd; (apply (preserves_in_tx (Good d)); [|by apply Good_refl]).
  - apply good_RecordCommand.
  - apply good_RecordDeadLetter.
  - apply good_ClaimOperation.
  - apply good_EnsureAllocations.
  - apply good_PrepareRevoke.
  - apply good_MarkAllocationApplied.
  - apply good_MarkAllocationRevoked.
  - apply good_MarkAllocationFailed.
  - apply good_RetryOperation.
  - apply good_concludes, good_concludes, good_complete; [done|done|set_solver].
  - apply good_complete; [done|done|set_solver].
  - apply good_concludes, good_complete; [done|done|set_solver].
  - apply good_complete; [done|done|set_solver].
  - apply good_ClaimOutbox.
  - apply good_CompleteOutbox.
  - apply good_RetryOutbox.
  - apply good_SeedNodes.
  - apply good_RecordNodeHealth.
  - apply good_MarkNodeOffline.
  - apply good_ClaimReconciliation.
  - apply good_Reschedule.
  - apply good_RequestReplay.
  - apply good_CompleteReplay.
Qed.

Lemma reaches_good d d' : Inv d -> reaches d d' -> Good d d'.
Proof.
  intros HI. induction 1 as [|d' o H IH Hok]; [by apply Good_refl|]. eapply Good_trans; [done|].
  apply exec_good; [apply IH|done].
Qed.
Lemma prov_reachable_inv d : reachable d -> Inv d.
Proof. intros H. by apply (reaches_good empty_db); [apply prov_Inv_empty|]. Qed.
Lemma reaches_trans d1 d2 d3 : reaches d1 d2 -> reaches d2 d3 -> reaches d1 d3.
Proof. intros H. induction 1; [done|by constructor]. Qed.

(** ** Safety of the whole store *)

(** C39: nodes are never oversold: in every reachable state the counter of a
    node is the number of allocations that hold a slot of it, it stays below
    the capacity less the reserve, and a credential has at most one
    allocation per role and per node. *)
Theorem capacity_respected d k n :
  reachable d -> nodes d !! k = Some n ->
  let m := nd_node n in
  n_AllocatedClients m = Z.of_nat (count_where (holds k) (allocations d)) /\
  100 * n_AllocatedClients m <= n_CapacityLimit m * (100 - n_ReservePercent m) /\
  n_AllocatedClients m < n_CapacityLimit m /\
  (forall k1 k2 a1 a2, allocations d !! k1 = Some a1 -> allocations d !! k2 = Some a2 ->
     a_credential_id a1 = a_credential_id a2 -> a_role a1 = a_role a2 \/ a_node_id a1 = a_node_id a2 -> k1 = k2).
Proof.
  intros [_ HA [K C L B] _ _ _]%prov_reachable_inv Hn. specialize (C k n Hn). specialize (L k n Hn).
  destruct (B k n Hn) as [Hc Hr]. unfold node_ceiling in L. rewrite ceiling_div in L by lia.
  assert (100 * n_AllocatedClients (nd_node n) <= n_CapacityLimit (nd_node n) * (100 - n_ReservePercent (nd_node n))) as H1.
  { pose proof (Z.mul_div_le (n_CapacityLimit (nd_node n) * (100 - n_ReservePercent (nd_node n))) 100). lia. }
  split; [done|]. split; [done|]. split; [nia|]. intros k1 k2 a1 a2 H2 H3 Hcr [E|E].
  - by eapply (al_role _ _ _ _ HA).
  - by eapply (al_node _ _ _ _ HA).
Qed.

(** A credential has at most one operation in progress, it is the one of
    the last command recorded, and the commands recorded are numbered
    [1, 2, ..., n] without gap, with increasing revisions. *)
Theorem one_operation_in_progress d c s r :
  reachable d -> command_cursors d !! c = Some (s, r) ->
  (forall k o, operations d !! k = Some o -> op_credential_id o = c -> live (op_state o) = true ->
     op_command_sequence o = s /\ op_desired_revision o = r /\
     forall k' o', operations d !! k' = Some o' -> op_credential_id o' = c -> k' <> k ->
       live (op_state o') = false /\ op_command_sequence o' < s) /\
  (forall n, 1 <= n <= s <-> exists k o, operations d !! k = Some o /\ op_credential_id o = c /\ op_command_sequence o = n).
Proof.
  intros [[K C L S R G] _ _ _ _ _]%prov_reachable_inv Hc. split.
  - intros k o Hk Ho Hl. pose proof (L k o Hk Hl) as Hcur. rewrite Ho, Hc in Hcur. injection Hcur as -> ->.
    split; [done|]. split; [done|]. intros k' o' Hk' Ho' Hne.
    assert (op_command_sequence o' <> op_command_sequence o) as Hns by (intros E; apply Hne, (S k' k o' o); congruence).
    split.
    + destruct (live (op_state o')) eqn:El; [|done]. pose proof (L k' o' Hk' El) as Hcur. rewrite Ho', Hc in Hcur.
      congruence.
    + destruct (C k' o' Hk') as (s' & r' & Hc' & Hs' & _). rewrite Ho', Hc in Hc'. simplify_eq. lia.
  - intros n. split; [by eapply G|]. intros (k & o & Hk & Ho & <-). destruct (C k o Hk) as (s' & r' & Hc' & Hs' & _).
    rewrite Ho, Hc in Hc'. by simplify_eq.
Qed.

(** C23: every operation that succeeded or failed has exactly one outcome
    event in the outbox, saying so, and no other operation has any. *)
Theorem outcome_exactly_once d k o b :
  reachable d -> operations d !! k = Some o ->
  (finished (op_state o) = Some b <-> exists id r, outbox d !! id = Some r /\ row_outcome r = Some (k, b)) /\
  (forall id1 id2 r1 r2 b1 b2, outbox d !! id1 = Some r1 -> outbox d !! id2 = Some r2 ->
     row_outcome r1 = Some (k, b1) -> row_outcome r2 = Some (k, b2) -> id1 = id2).
Proof.
  intros [_ _ _ [K N G S O E D] _ _]%prov_reachable_inv Hk. split; [split|].
  - intros Hf. destruct (E k o b Hk Hf) as (id & r & ?). eauto.
  - intros (id & r & Hid & Hr). specialize (N id r Hid). destruct (o_aggregate_sequence r); [|congruence].
    destruct N as (_ & _ & id' & b' & o' & E1 & E2 & _ & E4). congruence.
  - intros id1 id2 r1 r2 b1 b2. by apply O.
Qed.

(** The outcome events of a credential are numbered [1, 2, ..., n]
    without gap, the number in the envelope is the row's, and they conclude
    operations of increasing revision: consumers that apply them in order
    never go back to an older generation. *)
Theorem outcomes_in_revision_order d c id1 id2 r1 r2 n1 n2 k1 k2 b1 b2 o1 o2 :
  reachable d -> outbox d !! id1 = Some r1 -> outbox d !! id2 = Some r2 ->
  o_aggregate_id r1 = c -> o_aggregate_id r2 = c ->
  o_aggregate_sequence r1 = Some n1 -> o_aggregate_sequence r2 = Some n2 ->
  row_outcome r1 = Some (k1, b1) -> row_outcome r2 = Some (k2, b2) ->
  operations d !! k1 = Some o1 -> operations d !! k2 = Some o2 ->
  env_AggregateSequence (o_payload r1) = n1 /\ (n1 = n2 <-> id1 = id2) /\
  (n1 < n2 -> op_desired_revision o1 < op_desired_revision o2) /\
  (forall n, 1 <= n <= n1 -> exists id r, outbox d !! id = Some r /\ o_aggregate_id r = c /\ o_aggregate_sequence r = Some n).
Proof.
  intros [_ _ _ [K N G S O E D] _ _]%prov_reachable_inv H1 H2 Hc1 Hc2 Hn1 Hn2 Hr1 Hr2 Ho1 Ho2.
  pose proof (N id1 r1 H1) as N1. rewrite Hn1 in N1. destruct N1 as (Hle & Hp & _).
  split; [done|]. split; [split; [intros ->; by apply (S id1 id2 r1 r2 n2); congruence|congruence]|]. split.
  - intros Hlt. apply (D id1 id2 r1 r2 n1 n2 k1 k2 b1 b2); congruence.
  - intros n Hn. apply G. rewrite <- Hc1. lia.
Qed.

(** ** Fencing *)

(** What a worker that holds operation [k] may ask of the store. *)
Definition acts_for (k : string) (a : op) : Prop :=
  match a with
  | OpMarkApplied _ i _ _ | OpMarkRevoked _ i _ _ | OpMarkFailed i _ _ | OpRetryOperation _ i _ _ => i = k
  | OpEnsureAllocations _ _ _ _ v _ _ | OpCompleteProvision _ _ _ v _ _ | OpCompleteProvisionFailure _ _ _ v _ _ _
  | OpCompleteRevoke _ _ _ v _ | OpCompleteRevokeFailure _ _ _ v _ _ => ID v = k
  | _ => False
  end.

Lemma in_state_out l d k o : operations d !! k = Some o -> op_state o ∉ l -> in_state l d k = None.
Proof. unfold in_state. intros -> H. simpl. by case_guard. Qed.

Lemma outcome_err {A} (m : prov_tx A) d e : m (Txn d d) = (Err e, Txn d d) -> outcome m d = (Some e, d).
Proof. unfold outcome, in_tx. by intros ->. Qed.

Lemma complete_fenced now wall ev v topic dedupe data d o :
  operations d !! ID v = Some o -> op_state o = SSuperseded ->
  completeOperationWithEvent now wall ev v topic dedupe data (Txn d d) = (Err ErrConflict, Txn d d).
Proof.
  intros Ho Hs. unfold completeOperationWithEvent. rewrite run_get.
  cbn [working]. unfold need, require. rewrite Ho, run_ret, Hs. done.
Qed.

Lemma fenced d o a : operations d !! op_id o = Some o -> op_state o = SSuperseded -> acts_for (op_id o) a ->
  exists e, exec a d = (Some e, d).
Proof.
  intros Ho Hs Ha.
  assert (forall l, SSuperseded ∉ l -> in_state l d (op_id o) = None) as Hin.
  { intros l Hl. eapply in_state_out; [exact Ho|]. by rewrite Hs. }
  destruct a; simpl in Ha; try done; try subst operationID; try rewrite <- Ha in *; cbn [exec].
  - unfold EnsureAllocations, require, need.
    destruct (_ && _); [|by eexists; apply outcome_err]. destruct (operations d !! ID v) as [o'|] eqn:E; [|done]. simplify_eq.
    destruct (bool_decide (op_credential_id o = CredentialID v) && (op_desired_revision o =? DesiredRevision v)) eqn:Eg;
      eexists; apply outcome_err; rewrite run_ret, run_get; cbn [working]; rewrite E, run_ret, Eg;
      rewrite ?run_ret, ?run_throw; [|done]. by rewrite Hs.
  - eexists. apply outcome_err. unfold MarkAllocationApplied. rewrite run_get. cbn [working]. by rewrite Hin by set_solver.
  - eexists. apply outcome_err. unfold MarkAllocationRevoked. rewrite run_get. cbn [working]. by rewrite Hin by set_solver.
  - eexists. apply outcome_err. unfold MarkAllocationFailed. rewrite run_get. cbn [working]. by rewrite Hin by set_solver.
  - eexists. apply outcome_err. unfold RetryOperation. rewrite run_get. cbn [working]. by rewrite Hin by set_solver.
  - eexists. apply outcome_err. unfold CompleteProvision, require.
    destruct (forallb _ _); rewrite ?run_ret, ?run_throw; [|done].
    destruct (_ && _); rewrite ?run_ret, ?run_throw; [|done]. by eapply complete_fenced.
  - eexists. apply outcome_err. by eapply complete_fenced.
  - eexists. apply outcome_err. unfold CompleteRevoke, require.
    destruct (forallb _ _); rewrite ?run_ret, ?run_throw; [|done]. by eapply complete_fenced.
  - eexists. apply outcome_err. by eapply complete_fenced.
Qed.

(** A superseded operation is fenced off for good: whatever happens
    after a newer command superseded it, its row stays as it is and every
    store call a worker still makes for it (placing, marking an allocation,
    retrying, concluding) fails and changes nothing. *)
Theorem superseded_is_fenced d d' k o a :
  reachable d -> operations d !! k = Some o -> op_state o = SSuperseded -> reaches d d' -> acts_for k a ->
  operations d' !! k = Some o /\ exists e, exec a d' = (Some e, d').
Proof.
  intros HI%prov_reachable_inv Hk Hs Hr Ha. destruct (reaches_good _ _ HI Hr) as [_ Hset].
  destruct (Hset k o Hk) as (o' & Hk' & _ & Heq). rewrite (Heq ltac:(by rewrite Hs)) in Hk'.
  assert (op_id o = k) as <- by (by apply HI). split; [done|]. by apply (fenced d' o).
Qed.

(** ** Redelivery of commands *)

(** Recorded commands and dead letters stay recorded. *)
Section records.
Context (inbox0 : table command_row) (letters0 : gset (string * Z * Z)).
Let I (d : db) : Prop := inbox0 ⊆ command_inbox d /\ letters0 ⊆ dom (dead_letters d).

Lemma keeps_modify f : (forall d, command_inbox (f d) = command_inbox d) ->
  (forall d, dom (dead_letters d) ⊆ dom (dead_letters (f d))) -> preserves I (modify f : prov_tx unit).
Proof. intros H1 H2. apply preserves_modify. intros d [Hi Hl]. split; [by rewrite H1 | set_solver]. Qed.
Ltac keeps := repeat first
  [ apply keeps_modify; intros []; simpl; rewrite ?dom_insert_L; (done || set_solver)
  | apply preserves_require | apply preserves_need | apply preserves_get | apply preserves_commit | apply preserves_ret
  | apply preserves_throw | tx_split ].

Lemma keeps_insertOutbox now ev t ky a n dd p : preserves I (insertOutbox now ev t ky a n dd p).
Proof. unfold insertOutbox. keeps. Qed.
Lemma keeps_complete now w ev v t dd data : preserves I (completeOperationWithEvent now w ev v t dd data).
Proof. unfold completeOperationWithEvent. repeat first [apply keeps_insertOutbox | keeps]. Qed.
Lemma keeps_reactivate now v r p l : preserves I (reactivate now v r p l).
Proof. induction l as [|a l IH]; simpl; repeat first [exact IH | keeps]. Qed.
Lemma keeps_lease now lease d l cl : preserves I (lease_candidates now lease d l cl).
Proof. revert cl. induction l as [|a l IH]; intros [|x cl]; simpl; repeat first [apply IH | keeps]. Qed.
Lemma keeps_seed l : preserves I (seedNodes l).
Proof. induction l as [|a l IH]; simpl; [apply preserves_ret|]. unfold seedNode, when. repeat first [exact IH | keeps]. Qed.
Lemma keeps_RecordCommand now meta cmd kd mx : preserves I (RecordCommand now meta cmd kd mx).
Proof.
  intros t HI. destruct (RecordCommand now meta cmd kd mx t) as [x t'] eqn:E.
  apply RecordCommand_run in E as [(e & -> & Hd)|[(-> & -> & _)|(-> & Hnew & _ & ->)]]; simpl; [by rewrite Hd|done|].
  enough (I (commanded (working t) now meta cmd kd mx)) by done.
  destruct HI as [Hi Hl]. split; [|exact Hl]. simpl. etrans; [exact Hi|]. by apply insert_subseteq.
Qed.
Lemma exec_keeps o d : I d -> I (snd (exec o d)).
Proof.
  intros HI. destruct o; cbn [exec]; rewrite outcome_snd; (apply (preserves_in_tx I); [|done]).
  - apply keeps_RecordCommand.
  - unfold RecordDeadLetter. repeat first [apply keeps_insertOutbox | keeps].
  - unfold ClaimOperation. keeps.
  - unfold EnsureAllocations, allocate_on. repeat first [apply keeps_reactivate | keeps].
  - unfold PrepareRevoke. keeps.
  - unfold MarkAllocationApplied. keeps.
  - unfold MarkAllocationRevoked, when. keeps.
  - unfold MarkAllocationFailed. keeps.
  - unfold RetryOperation. keeps.
  - unfold CompleteProvision. repeat first [apply keeps_complete | keeps].
  - apply keeps_complete.
  - unfold CompleteRevoke. repeat first [apply keeps_complete | keeps].
  - apply keeps_complete.
  - unfold ClaimOutbox. keeps.
  - unfold CompleteOutbox. keeps.
  - unfold RetryOutbox. keeps.
  - unfold SeedNodes. repeat first [apply keeps_seed | keeps].
  - unfold RecordNodeHealth. keeps.
  - unfold MarkNodeOffline. keeps.
  - unfold ClaimReconciliationCandidates. repeat first [apply keeps_lease | keeps].
  - unfold RescheduleReconciliation. keeps.
  - unfold RequestDeadLetterReplay. keeps.
  - unfold CompleteDeadLetterReplay. keeps.
Qed.
End records.

Lemma reaches_keeps d d' : reaches d d' ->
  command_inbox d ⊆ command_inbox d' /\ dom (dead_letters d) ⊆ dom (dead_letters d').
Proof. induction 1 as [|d' o H IH Ho]; [done|]. by apply exec_keeps. Qed.

(** ** Effects *)

Lemma outcome_run {A} (m : prov_tx A) d r d' : outcome m d = (r, d') ->
  exists x t', m (Txn d d) = (x, t') /\ d' = durable t' /\ r = match x with Ok _ => None | Err e => Some e end.
Proof. unfold outcome, in_tx. destruct (m (Txn d d)) as [[x|e] t']; intros [= <- <-]; eauto. Qed.

(** The generation of an allocation after a command of its credential. *)
Definition new_generation (kind : Kind) (id : string) (revision : Z) (a a' : allocation_row) : Prop :=
  a_desired_operation_id a' = id /\ a_desired_revision a' = revision /\
  match kind with
  | Provision => a_desired_state a' = DPresent /\ a_allocation_revision a' = revision /\
      (a_state a' = ARevoked <-> a_state a = ARevoked) /\ (a_state a' = ARevoked \/ a_state a' = APending)
  | Revoke => a_desired_state a' = DAbsent /\ a_allocation_revision a' = a_allocation_revision a /\ a_state a' = a_state a
  end.

(** Recording a command has all of its effect or none: a replay changes
    nothing; a new command must carry the next sequence number and a higher
    revision, becomes the pending operation of its credential, supersedes
    whatever was in progress there, moves every allocation of the credential
    to the new generation, and touches no other credential. *)
Theorem RecordCommand_effect now meta command kind maxAttempts d d' :
  reachable d -> exec (OpRecordCommand now meta command kind maxAttempts) d = (None, d') ->
  let c := cmd_CredentialID command in
  let id := cmd_OperationID command in
  let revision := cmd_DesiredRevision command in
  (d' = d /\ exists row, command_inbox d !! EventID meta = Some row /\ same_command row meta command = true) \/
  (command_inbox d !! EventID meta = None /\ command_inbox d' !! EventID meta = Some (command_of meta command) /\
   (exists s r, default (0, 0) (command_cursors d !! c) = (s, r) /\ AggregateSequence meta = s + 1 /\ r < revision) /\
   command_cursors d' !! c = Some (AggregateSequence meta, revision) /\
   operations d !! id = None /\ operations d' !! id = Some (new_operation now meta command kind maxAttempts) /\
   (forall k o, operations d !! k = Some o -> exists o', operations d' !! k = Some o' /\
      if bool_decide (op_credential_id o = c) && live (op_state o) then op_state o' = SSuperseded else o' = o) /\
   (forall k a, allocations d !! k = Some a -> exists a', allocations d' !! k = Some a' /\
      if bool_decide (a_credential_id a = c) then new_generation kind id revision a a' else a' = a) /\
   nodes d' = nodes d /\ outbox d' = outbox d /\ outcome_cursors d' = outcome_cursors d).
Proof.
  intros HI%prov_reachable_inv (x & t' & Hrun & -> & Hx)%outcome_run c id revision.
  apply RecordCommand_run in Hrun as [(e & -> & _)|[(-> & -> & H)|(-> & Hin & (s & r & Ha) & ->)]]; [done|by left|right].
  cbn [working] in *. pose proof Ha as (Hcur & Hseq & Hrev & Hck & _ & _ & Hu).
  unfold operation_unique in Hu. apply andb_true_iff in Hu as [Hid%bool_decide_eq_true _]. simpl in Hid.
  split; [done|]. split; [simpl; by rewrite lookup_insert_eq|]. split; [eauto|].
  split; [simpl; by rewrite lookup_insert_eq|]. split; [done|]. split; [apply commanded_new|]. split_and!; try done.
  - intros k o Hk. assert (op_id o = k) as Hko by (by apply HI). simpl. fold c id revision.
    rewrite lookup_update_where, lookup_insert_ne, Hk by (unfold id in *; congruence). simpl. eexists. split; [done|].
    destruct (older_than c id revision o) eqn:E; unfold older_than in E.
    + rewrite !andb_true_iff in E. destruct E as (((-> & _) & _) & ->). done.
    + destruct (bool_decide (op_credential_id o = c)) eqn:Ec; [|done]. apply bool_decide_eq_true in Ec.
      destruct (old_op d command s r HI Hcur k o Hk Ec) as (_ & _ & Hle). rewrite Hko in E.
      rewrite (bool_decide_false (k = id)) in E by (unfold id in *; congruence).
      destruct (Z.ltb_spec (op_desired_revision o) revision); [|unfold revision in *; lia]. simpl in E. by rewrite E.
  - intros k a Hk. simpl. fold c id revision. rewrite lookup_update_where, Hk. simpl. eexists. split; [done|].
    destruct (bool_decide (a_credential_id a = c)) eqn:Ec; [|done]. apply bool_decide_eq_true in Ec.
    destruct (al_generation _ _ _ _ (inv_allocs _ HI) _ _ Hk) as (s' & o & Hc' & _). rewrite Ec in Hc'.
    unfold c in Hc'. rewrite Hc' in Hcur. simpl in Hcur. injection Hcur as -> Er.
    destruct (Z.ltb_spec (a_desired_revision a) revision); [|unfold revision in *; lia]. simpl.
    unfold new_generation. destruct kind; simpl; split_and!; try done; destruct (a_state a); simpl; naive_solver.
Qed.

(** A command that was recorded once is absorbed for ever: whatever
    happened since, delivering the same record again succeeds and changes
    nothing, and a different record under the same event identifier is a
    conflict that changes nothing. *)
Theorem command_redelivery now meta command kind maxAttempts d d1 d2 now' meta' command' kind' maxAttempts' :
  exec (OpRecordCommand now meta command kind maxAttempts) d = (None, d1) -> reaches d1 d2 ->
  EventID meta' = EventID meta ->
  exec (OpRecordCommand now' meta' command' kind' maxAttempts') d2 =
    (if bool_decide (command_of meta' command' = command_of meta command) then None else Some ErrConflict, d2).
Proof.
  intros (x & t' & Hrun & -> & Hx)%outcome_run Hr Hid.
  assert (command_inbox (durable t') !! EventID meta = Some (command_of meta command)) as Hin.
  { apply RecordCommand_run in Hrun as [(e & -> & _)|[(_ & -> & row & Hrow & Hs)|(_ & _ & _ & ->)]]; [done| |].
    - cbn [working durable] in *. rewrite Hrow. f_equal. unfold same_command in Hs.
      rewrite !andb_true_iff, !bool_decide_eq_true, !Z.eqb_eq in Hs. destruct row. unfold command_of. simpl in *.
      destruct Hs as (((((((-> & ->) & ->) & ->) & ->) & ->) & ->) & ->). done.
    - simpl. by rewrite lookup_insert_eq. }
  apply reaches_keeps in Hr as [Hr _]. eapply lookup_weaken in Hin; [|exact Hr]. cbn [exec]. unfold RecordCommand.
  assert (same_command (command_of meta command) meta' command' =
          bool_decide (command_of meta' command' = command_of meta command)) as Hsame.
  { apply eq_iff_eq_true. unfold same_command. rewrite !andb_true_iff, !bool_decide_eq_true, !Z.eqb_eq. simpl.
    unfold command_of. split.
    - intros (((((((E1 & E2) & E3) & E4) & E5) & E6) & E7) & E8). by f_equal.
    - intros [= <- <- <- <- <- <- <- <- <- <-]. by split_and!. }
  unfold outcome, in_tx. rewrite run_get. cbn [working]. rewrite Hid, Hin. unfold require. rewrite Hsame.
  by destruct (bool_decide _).
Qed.

(** [EnsureAllocations] gives a credential exactly one primary and one
    failover allocation, on different nodes: both pending and of the
    operation's generation; an allocation that already held its slot keeps
    its node, every other one sits on a node of the region that is active,
    was seen within 45 seconds and had a slot to spare; no other credential
    is touched. *)
Theorem EnsureAllocations_effect now locked id1 id2 v placement protocol d l d' :
  reachable d -> in_tx (EnsureAllocations now locked id1 id2 v placement protocol) d = (Ok l, d') ->
  l = listAllocations d' (CredentialID v) /\ current d v /\ now < pl_ValidUntil placement /\
  exists kp kf ap af, allocations d' !! kp = Some ap /\ allocations d' !! kf = Some af /\
  a_role ap = Primary /\ a_role af = Failover /\ a_node_id ap <> a_node_id af /\
  ensured_row d now v (pl_Region placement) protocol kp ap /\ ensured_row d now v (pl_Region placement) protocol kf af /\
  (forall k a, allocations d' !! k = Some a -> a_credential_id a = CredentialID v -> k = kp \/ k = kf) /\
  (forall k a, a_credential_id a <> CredentialID v -> allocations d' !! k = Some a <-> allocations d !! k = Some a).
Proof.
  intros HI%prov_reachable_inv H. unfold in_tx in H. destruct (EnsureAllocations _ _ _ _ _ _ _ _) as [x t'] eqn:E.
  injection H as -> <-.
  apply EnsureAllocations_run in E as [(e & ? & _)|(Hcur & _ & Hv & d' & He & [= ->] & ->)]; [done|].
  split; [done|]. split; [done|]. split; [done|].
  destruct (ensured_effect _ _ _ _ _ _ _ _ _ HI He) as (kp & kf & ap & af & H1 & H2 & H3 & H4 & H5 & H6 & H7 & H8).
  exists kp, kf, ap, af. destruct (good_ensured _ _ _ _ _ _ _ _ _ HI Hcur He) as [HI' _]. split_and!; try done.
  intros Hnode. assert (kp = kf) as -> by (eapply (al_node _ _ _ _ (inv_allocs _ HI')); eauto; destruct H5, H6; congruence).
  simpl in *. congruence.
Qed.

(** ** Atomicity *)

Lemma quiet_prov_insertOutbox now ev t k a n dd p : quiet (insertOutbox now ev t k a n dd p).
Proof. unfold insertOutbox. tx_auto. Qed.
Lemma quiet_reactivate now v r p l : quiet (reactivate now v r p l).
Proof. induction l; simpl; tx_auto; done. Qed.
Lemma quiet_lease now lease d l cl : quiet (lease_candidates now lease d l cl).
Proof. revert cl. induction l as [|a l IH]; intros [|x cl]; simpl; repeat first [apply IH | progress tx_auto]. Qed.
Lemma quiet_seedNode s : quiet (seedNode s).
Proof. unfold seedNode, when. tx_auto. Qed.
Lemma quiet_seedNodes l : quiet (seedNodes l).
Proof. induction l; simpl; [done|]. apply quiet_bind; [apply quiet_seedNode|by intros _]. Qed.
#[export] Hint Resolve quiet_prov_insertOutbox quiet_reactivate quiet_lease quiet_seedNodes : txdb.
Lemma atomic_complete now w ev v t dd data : atomic (completeOperationWithEvent now w ev v t dd data).
Proof. unfold completeOperationWithEvent. tx_auto. Qed.
#[export] Hint Resolve atomic_complete : txdb.
Lemma atomic_concludes b e (m : prov_tx unit) : atomic m -> atomic (require b e ;;; m).
Proof. intros H. apply atomic_bind; [apply quiet_require|by intros _]. Qed.

Lemma outcome_atomic {A} (m : prov_tx A) d e d' : atomic m -> outcome m d = (Some e, d') -> d' = d.
Proof. intros Hm (x & t' & Hr & -> & Hx)%outcome_run. destruct x; [done|]. by apply Hm in Hr. Qed.

(** An update that commits before the affected-row count is checked. *)
Lemma counted_update d p f b e r d' :
  outcome (modify (set_allocations (update_where p f)) ;;; commit ;;; require b e) d = (r, d') ->
  (b = false -> count_where p (allocations d) = 0%nat) -> r <> None -> d' = d.
Proof.
  intros H Hb Hr. unfold outcome, in_tx in H. rewrite run_modify, run_commit in H. unfold require in H.
  destruct b; simpl in H; injection H as <- <-; [done|]. unfold set_allocations. rewrite update_where_none by auto.
  by destruct d.
Qed.
Lemma on_node_unique d o nodeID q : Inv d ->
  (count_where (fun a => on_node o nodeID a && q a) (allocations d) <= 1)%nat.
Proof.
  intros HI. apply count_unique. intros k k' r r' Hk Hk' [(E1 & _ & _ & E2)%on_node_true _]%andb_true_iff
    [(E3 & _ & _ & E4)%on_node_true _]%andb_true_iff. eapply (al_node _ _ _ _ (inv_allocs _ HI)); eauto; congruence.
Qed.

(** Whatever the call, an error means the database is as it was: this
    holds for the statements sent outside a transaction too, whose
    affected-row checks come after the commit. *)
Theorem store_errors_are_clean o d e d' : reachable d -> exec o d = (Some e, d') -> d' = d.
Proof.
  intros HI%prov_reachable_inv. destruct o; cbn [exec].
  - apply outcome_atomic. intros t x t' E. apply RecordCommand_run in E as [(e' & _ & Hd)|[(? & _)|(? & _)]]; done.
  - apply outcome_atomic. unfold RecordDeadLetter. tx_auto.
  - apply outcome_atomic. unfold ClaimOperation. tx_auto.
  - apply outcome_atomic. intros t x t' E. apply EnsureAllocations_run in E as [(e' & _ & Hd)|(_ & _ & _ & d'' & _ & ? & _)]; done.
  - unfold PrepareRevoke. intros H. destruct (operations d !! ID v) as [o|] eqn:Eo; [|].
    + destruct (bool_decide (op_credential_id o = CredentialID v) && (op_desired_revision o =? DesiredRevision v) &&
                bool_decide (op_state o = SProcessing)) eqn:Ec.
      * eapply counted_update.
        -- unfold outcome, in_tx in *. rewrite run_get in H. cbn [working] in H. rewrite Eo, Ec in H. exact H.
        -- intros Hb. by apply negb_false_iff, bool_decide_eq_true in Hb.
        -- done.
      * unfold outcome, in_tx in H. rewrite run_get in H. cbn [working] in H. rewrite Eo, Ec in H. by injection H as _ <-.
    + unfold outcome, in_tx in H. rewrite run_get in H. cbn [working] in H. rewrite Eo in H. by injection H as _ <-.
  - unfold MarkAllocationApplied. intros H. unfold outcome, in_tx, need in H. rewrite run_get in H. cbn [working] in H.
    destruct (in_state _ _ _) as [o|]; [rewrite run_ret in H|rewrite run_throw in H; by injection H as _ <-].
    eapply counted_update; [exact H| |done]. intros Hb%bool_decide_eq_false.
    match goal with |- count_where ?p _ = _ => pose proof (count_unique p (allocations d)) as Hu end. 
    destruct (count_where _ _) as [|[|]]; [done|done|]. exfalso. enough (S (S n) <= 1)%nat by lia. apply Hu.
    intros k k' r r' Hk Hk' [[(E1 & _ & _ & E2)%on_node_true _]%andb_true_iff _]%andb_true_iff
      [[(E3 & _ & _ & E4)%on_node_true _]%andb_true_iff _]%andb_true_iff.
    eapply (al_node _ _ _ _ (inv_allocs _ HI)); eauto; congruence.
  - apply outcome_atomic. unfold MarkAllocationRevoked, when. tx_auto.
  - unfold MarkAllocationFailed. intros H. unfold outcome, in_tx, need in H. rewrite run_get in H. cbn [working] in H.
    destruct (in_state _ _ _) as [o|]; [rewrite run_ret in H|rewrite run_throw in H; by injection H as _ <-].
    eapply counted_update; [exact H| |done]. intros Hb%bool_decide_eq_false.
    pose proof (on_node_unique d o nodeID (fun a => negb (bool_decide (a_state a = ARevoked))) HI).
    destruct (count_where _ _) as [|[|]]; [done|done|lia].
  - apply outcome_atomic. unfold RetryOperation. tx_auto.
  - apply outcome_atomic. unfold CompleteProvision. tx_auto.
  - apply outcome_atomic, atomic_complete.
  - apply outcome_atomic. unfold CompleteRevoke. tx_auto.
  - apply outcome_atomic, atomic_complete.
  - apply outcome_atomic. unfold ClaimOutbox. tx_auto.
  - apply outcome_atomic. unfold CompleteOutbox. tx_auto.
  - apply outcome_atomic. unfold RetryOutbox. tx_auto.
  - apply outcome_atomic. unfold SeedNodes. tx_auto.
  - apply outcome_atomic. unfold RecordNodeHealth. tx_auto.
  - apply outcome_atomic. unfold MarkNodeOffline. tx_auto.
  - apply outcome_atomic. unfold ClaimReconciliationCandidates. tx_auto.
  - apply outcome_atomic. unfold RescheduleReconciliation. tx_auto.
  - apply outcome_atomic. unfold RequestDeadLetterReplay. tx_auto.
  - apply outcome_atomic. unfold CompleteDeadLetterReplay. tx_auto.
Qed.

(** ** A run to evaluate *)

Fixpoint run (l : list op) (d : db) : db :=
  match l with [] => d | o :: l' => run l' (snd (exec o d)) end.
Fixpoint outcomes (l : list op) (d : db) : list (option ProvErr) :=
  match l with [] => [] | o :: l' => fst (exec o d) :: outcomes l' (snd (exec o d)) end.
Definition genuineb (d : db) (v : Operation) : bool :=
  match operations d !! ID v with Some o => bool_decide (op_identity o = view_identity v) | None => false end.
Definition allowedb (o : op) (d : db) : bool :=
  match o with
  | OpCompleteProvision _ _ _ v _ _ | OpCompleteProvisionFailure _ _ _ v _ _ _
  | OpCompleteRevoke _ _ _ v _ | OpCompleteRevokeFailure _ _ _ v _ _ => genuineb d v
  | _ => true
  end.
Fixpoint all_allowed (l : list op) (d : db) : bool :=
  match l with [] => true | o :: l' => allowedb o d && all_allowed l' (snd (exec o d)) end.
Lemma allowedb_true o d : allowedb o d = true -> allowed o d.
Proof.
  assert (forall v, genuineb d v = true -> genuine d v) as H.
  { unfold genuineb, genuine. intros v. destruct (operations d !! ID v) as [o'|]; [|done].
    intros E%bool_decide_eq_true. eauto. }
  destruct o; simpl; auto.
Qed.
Lemma run_reaches l d0 d : reaches d0 d -> all_allowed l d = true -> reaches d0 (run l d).
Proof.
  revert d. induction l as [|o l IH]; simpl; intros d Hr; [done|]. intros [Ho Hl]%andb_true_iff.
  apply IH; [|done]. constructor; [done|]. by apply allowedb_true.
Qed.
Lemma run_reachable l : all_allowed l empty_db = true -> reachable (run l empty_db).
Proof. apply run_reaches. constructor. Qed.

Definition sample_key : string := "AAAAAAAAAAAAAAAAAAAAAAAAAAAAAAAAAAAAAAAAAAA".
Definition sample_seed (id : string) (capacity : Z) : NodeSeed :=
  MkSeed id "eu" ("https://" +:+ id) ("spiffe://" +:+ id) capacity 20 id 443 "host" sample_key "ab" "" "label".
Definition sample_status (id : string) : AgentStatus := MkAgentStatus id 1 0 true "1" "1".
Definition sample_meta (n : string) (seq : Z) (ty : string) : EventMeta :=
  MkEventMeta ("ev" +:+ n) ty "cred" seq "credential:cred" "corr" None 1 ty 0 seq "sha".
Definition sample_command (n : string) (revision : Z) : Command := MkCommand ("op" +:+ n) "cred" revision.
Definition provision_cmd (n : string) (now seq : Z) : op :=
  OpRecordCommand now (sample_meta n seq "access.provision.request.v1") (sample_command n seq) Provision 5.
Definition revoke_cmd (n : string) (now seq : Z) : op :=
  OpRecordCommand now (sample_meta n seq "access.revoke.request.v1") (sample_command n seq) Revoke 5.
Definition sample_operation (n : string) (kind : Kind) (seq attempts : Z) : Operation :=
  MkOperation ("op" +:+ n) "cred" kind seq seq attempts 5 0 "corr" ("ev" +:+ n).
Definition sample_placement : Placement := MkPlacement "sub" "per" "eu" 1 1 (1000 * second).
Definition two_nodes : list op :=
  [OpSeedNodes [sample_seed "n1" 10; sample_seed "n2" 2];
   OpRecordNodeHealth 1 (sample_status "n1") minute; OpRecordNodeHealth 1 (sample_status "n2") minute].
Definition claimed_ops : list op := two_nodes ++ [provision_cmd "1" 2 1; OpClaimOperation 3 minute ∅].
Definition placed_ops : list op :=
  claimed_ops ++ [OpEnsureAllocations 4 ∅ "a1" "a2" (sample_operation "1" Provision 1 1) sample_placement "vless_reality"].
Definition served_ops : list op := placed_ops ++ [OpMarkApplied 5 "op1" "n1" 7; OpMarkApplied 5 "op1" "n2" 9].
Definition served_db : db := run served_ops empty_db.
Definition provisioned_ops : list op :=
  served_ops ++ [OpCompleteProvision 6 6 "out1" (sample_operation "1" Provision 1 1) StActive (listAllocations served_db "cred")].
(** The credential is provisioned, then revoked. *)
Definition revoking_ops : list op := provisioned_ops ++ [revoke_cmd "2" 7 2; OpClaimOperation 8 minute ∅;
  OpPrepareRevoke 9 (sample_operation "2" Revoke 2 1); OpMarkRevoked 10 "op2" "n1" 8; OpMarkRevoked 10 "op2" "n2" 10].
Definition revoking_db : db := run revoking_ops empty_db.
Definition sample_ops : list op :=
  revoking_ops ++ [OpCompleteRevoke 11 11 "out2" (sample_operation "2" Revoke 2 1) (listAllocations revoking_db "cred")].
Definition sample_db : db := run sample_ops empty_db.
(** A command that overtakes one in progress. *)
Definition overtaken_ops : list op := placed_ops ++ [revoke_cmd "2" 7 2].
Definition overtaken_db : db := run overtaken_ops empty_db.

Example provisioning_run_ok : outcomes sample_ops empty_db = repeat None (length sample_ops).
Proof. vm_compute. reflexivity. Qed.
Example sample_counters :
  (n_AllocatedClients ∘ nd_node <$> nodes served_db !! "n2"%string, n_AllocatedClients ∘ nd_node <$> nodes sample_db !! "n2"%string)
  = (Some 1, Some 0).
Proof. vm_compute. reflexivity. Qed.
(** A node of two slots takes one client: the reserve is kept. *)
Example reserve_kept : fst (exec (OpEnsureAllocations 5 ∅ "b1" "b2" (MkOperation "opx" "credx" Provision 1 1 1 5 0 "corr" "evx")
    sample_placement "vless_reality")
    (run [OpRecordCommand 5 (MkEventMeta "evx" "access.provision.request.v1" "credx" 1 "credential:credx" "corr" None 1
            "access.provision.request.v1" 1 0 "sha") (MkCommand "opx" "credx" 1) Provision 5; OpClaimOperation 5 minute ∅] served_db))
  = Some ErrCapacity.
Proof. vm_compute. reflexivity. Qed.

(** ** Witnesses *)

Lemma sample_reachable : reachable sample_db.
Proof. apply (run_reachable sample_ops). vm_compute. reflexivity. Qed.
Lemma placed_reachable : reachable (run placed_ops empty_db).
Proof. apply run_reachable. vm_compute. reflexivity. Qed.
Lemma claimed_reachable : reachable (run claimed_ops empty_db).
Proof. apply run_reachable. vm_compute. reflexivity. Qed.
Lemma overtaken_reachable : reachable overtaken_db.
Proof. apply (run_reachable overtaken_ops). vm_compute. reflexivity. Qed.
Ltac row E x := match goal with |- context [?m !! ?k = Some _] =>
  destruct (m !! k) as [x|] eqn:E; [|by vm_compute in E] end.

Lemma capacity_respected_witness : exists n, nodes (run placed_ops empty_db) !! "n2"%string = Some n /\
  n_AllocatedClients (nd_node n) = Z.of_nat (count_where (holds "n2") (allocations (run placed_ops empty_db))).
Proof. row E n. exists n. split; [done|]. apply (capacity_respected _ _ _ placed_reachable E). Defined.

Lemma one_operation_in_progress_witness : command_cursors overtaken_db !! "cred"%string = Some (2, 2) /\
  exists k o, operations overtaken_db !! k = Some o /\ op_credential_id o = "cred"%string /\ op_command_sequence o = 1.
Proof.
  assert (command_cursors overtaken_db !! "cred"%string = Some (2, 2)) as Hc by (vm_compute; reflexivity).
  split; [exact Hc|]. apply (one_operation_in_progress _ _ _ _ overtaken_reachable Hc). lia.
Defined.

Lemma outcome_exactly_once_witness : exists id r, outbox sample_db !! id = Some r /\ row_outcome r = Some ("op2"%string, true).
Proof.
  destruct (operations sample_db !! "op2"%string) as [o|] eqn:E; [|by vm_compute in E].
  apply (outcome_exactly_once _ _ _ true sample_reachable E).
  assert (option_map (fun o => finished (op_state o)) (operations sample_db !! "op2"%string) = Some (Some true)) as H
    by (vm_compute; reflexivity). rewrite E in H. by injection H.
Defined.

Lemma outcomes_in_revision_order_witness : exists o1 o2, operations sample_db !! "op1"%string = Some o1 /\
  operations sample_db !! "op2"%string = Some o2 /\ op_desired_revision o1 < op_desired_revision o2.
Proof.
  destruct (operations sample_db !! "op1"%string) as [o1|] eqn:E1; [|by vm_compute in E1].
  destruct (operations sample_db !! "op2"%string) as [o2|] eqn:E2; [|by vm_compute in E2].
  exists o1, o2. split; [done|]. split; [done|].
  destruct (outbox sample_db !! "out1"%string) as [r1|] eqn:F1; [|by vm_compute in F1].
  destruct (outbox sample_db !! "out2"%string) as [r2|] eqn:F2; [|by vm_compute in F2].
  assert (option_map (fun r => (o_aggregate_id r, o_aggregate_sequence r, row_outcome r)) (outbox sample_db !! "out1"%string) =
    Some ("cred"%string, Some 1, Some ("op1"%string, true))) as G1 by (vm_compute; reflexivity).
  assert (option_map (fun r => (o_aggregate_id r, o_aggregate_sequence r, row_outcome r)) (outbox sample_db !! "out2"%string) =
    Some ("cred"%string, Some 2, Some ("op2"%string, true))) as G2 by (vm_compute; reflexivity).
  rewrite F1 in G1. rewrite F2 in G2. injection G1 as A1 B1 C1. injection G2 as A2 B2 C2.
  destruct (outcomes_in_revision_order _ _ _ _ _ _ _ _ _ _ _ _ _ _ sample_reachable F1 F2 A1 A2 B1 B2 C1 C2 E1 E2) as (_ & _ & H & _).
  apply H. lia.
Defined.

Lemma superseded_is_fenced_witness :
  exists e, exec (OpMarkApplied 9 "op1" "n1" 7) (snd (exec (OpClaimOperation 8 minute ∅) overtaken_db)) =
    (Some e, snd (exec (OpClaimOperation 8 minute ∅) overtaken_db)).
Proof.
  destruct (operations overtaken_db !! "op1"%string) as [o|] eqn:E; [|by vm_compute in E].
  assert (option_map op_state (operations overtaken_db !! "op1"%string) = Some SSuperseded) as H by (vm_compute; reflexivity).
  rewrite E in H. injection H as H.
  apply (superseded_is_fenced _ _ "op1" o (OpMarkApplied 9 "op1" "n1" 7) overtaken_reachable E H); [|done].
  by apply reaches_step; [apply reaches_here|].
Defined.

Lemma RecordCommand_effect_witness : exists d', exec (revoke_cmd "2" 7 2) (run placed_ops empty_db) = (None, d') /\
  exists k o', operations d' !! k = Some o' /\ op_state o' = SSuperseded.
Proof.
  exists overtaken_db. assert (exec (revoke_cmd "2" 7 2) (run placed_ops empty_db) = (None, overtaken_db)) as H
    by (vm_compute; reflexivity). split; [exact H|].
  destruct (RecordCommand_effect _ _ _ _ _ _ _ placed_reachable H) as [[E _]|(_ & _ & _ & _ & _ & _ & Hops & _)].
  - assert (command_cursors overtaken_db !! "cred"%string = command_cursors (run placed_ops empty_db) !! "cred"%string) as F by (by rewrite E).
    by vm_compute in F.
  - destruct (operations (run placed_ops empty_db) !! "op1"%string) as [o|] eqn:Eo; [|by vm_compute in Eo].
    destruct (Hops _ _ Eo) as (o' & Ho' & Hs). exists "op1"%string, o'. split; [done|].
    assert (option_map (fun o => bool_decide (op_credential_id o = "cred"%string) && live (op_state o))
      (operations (run placed_ops empty_db) !! "op1"%string) = Some true) as G by (vm_compute; reflexivity).
    rewrite Eo in G. injection G as G. unfold sample_command in Hs. simpl in Hs. by rewrite G in Hs.
Defined.

Lemma command_redelivery_witness :
  exec (revoke_cmd "2" 20 2) (snd (exec (OpClaimOperation 8 minute ∅) overtaken_db)) =
    (None, snd (exec (OpClaimOperation 8 minute ∅) overtaken_db)).
Proof.
  assert (exec (revoke_cmd "2" 7 2) (run placed_ops empty_db) = (None, overtaken_db)) as H by (vm_compute; reflexivity).
  unfold revoke_cmd in *.
  rewrite (command_redelivery _ _ _ _ _ _ _ (snd (exec (OpClaimOperation 8 minute ∅) overtaken_db)) 20
             (sample_meta "2" 2 "access.revoke.request.v1") (sample_command "2" 2) Revoke 5 H); [|by apply reaches_step; [apply reaches_here|]|done].
  by rewrite bool_decide_true.
Defined.

Lemma EnsureAllocations_effect_witness : exists l d', 
  in_tx (EnsureAllocations 4 ∅ "a1" "a2" (sample_operation "1" Provision 1 1) sample_placement "vless_reality")
    (run claimed_ops empty_db) = (Ok l, d') /\ l = listAllocations d' "cred".
Proof.
  destruct (in_tx (EnsureAllocations 4 ∅ "a1" "a2" (sample_operation "1" Provision 1 1) sample_placement "vless_reality")
    (run claimed_ops empty_db)) as [[l|e] d'] eqn:E; [|by vm_compute in E].
  exists l, d'. split; [done|]. apply (EnsureAllocations_effect _ _ _ _ _ _ _ _ _ _ claimed_reachable E).
Defined.

Lemma store_errors_are_clean_witness : exec (OpMarkApplied 9 "op1" "n9" 7) (run placed_ops empty_db) =
  (Some ErrConflict, run placed_ops empty_db).
Proof.
  destruct (exec (OpMarkApplied 9 "op1" "n9" 7) (run placed_ops empty_db)) as [[e|] d'] eqn:E; [|by vm_compute in E].
  rewrite (store_errors_are_clean _ _ _ _ placed_reachable E). do 2 f_equal.
  assert (fst (exec (OpMarkApplied 9 "op1" "n9" 7) (run placed_ops empty_db)) = Some ErrConflict) as H by (vm_compute; reflexivity).
  rewrite E in H. by injection H.
Defined.
