(* ===== verification/ProvisioningService.v ===== *)
(** * provisioning-service: commands from Kafka

    src/services/provisioning/internal/application/service.go
    ([ProcessEvent]) and src/services/provisioning/internal/kafka/consumer.go:
    one poll of the consumer loop with its commits, rewinds, dead letters and
    deferred sequence gaps, and when a deferred command stays. The strict JSON decoders of the envelope and of
    the command are parameters. *)

From Stdlib Require Import Ascii List.
From S2P Require Import Prelude GoStrings Sha256 Platform OrderedConsumer ProvisioningDomain ProvisioningStore.
From S2P Require Import ProvisioningInv ProvisioningSteps ProvisioningSpec.

(** What one attempt at a record draws: the database clock, the service's
    clock, the identifier of a dead-letter event, whether the store answers,
    and whether the dead letter and the offset commit go through. *)
Record attempt_env := MkAttempt {
  at_now : Z;
  at_wall : Z;
  at_event : string;
  at_store_up : bool;
  at_dead_letter_ok : bool;
  at_commit_ok : bool
}.

Definition lift_store {A} (rd : result ProvErr A * db) : result ServiceErr A * db :=
  match rd with (Ok a, d) => (Ok a, d) | (Err e, d) => (Err (StoreErr e), d) end.

Section service.
Context (decode_command : string -> option Command) (decode_envelope : string -> option (Envelope string)).
Context (maxAttempts : Z).

Definition kind_of (eventType : string) : option Kind :=
  if bool_decide (eventType = "access.provision.request.v1") then Some Provision
  else if bool_decide (eventType = "access.revoke.request.v1") then Some Revoke
  else None.

Definition ProcessEvent (e : attempt_env) (meta : EventMeta) (data : string) (d : db) : result ServiceErr unit * db :=
  match kind_of (EventType meta) with
  | None => (Err (ContractError "unsupported_event_type"), d)
  | Some kind =>
      match decode_command data with
      | None => (Err (ContractError "invalid_event_data"), d)
      | Some command =>
          if negb (event_invariant meta command) then (Err (ContractError "event_invariant_failed"), d)
          else if at_store_up e then lift_store (in_tx (RecordCommand (at_now e) meta command kind maxAttempts) d)
          else (Err (StoreErr (ErrSQL "begin provisioning command")), d)
      end
  end.

(** ** The consumer *)

(** The consumer repeats the pattern of the service. *)
Definition validateEnvelope (r : kafka_record) (envelope : Envelope string) : option string :=
  if negb (bool_decide (rec_topic r = "access.provision.request.v1")) &&
     negb (bool_decide (rec_topic r = "access.revoke.request.v1")) then Some "invalid_envelope_routing"%string
  else if negb (bool_decide (env_EventType envelope = rec_topic r)) || negb (env_SchemaVersion envelope =? 1) ||
     negb (bool_decide (env_Producer envelope = "access-service")) ||
     negb (bool_decide (env_AggregateType envelope = "credential")) then Some "invalid_envelope_routing"%string
  else if negb (uuidPattern (env_EventID envelope)) || negb (uuidPattern (env_AggregateID envelope)) ||
     negb (uuidPattern (env_CorrelationID envelope)) || (env_OccurredAt envelope =? 0) ||
     (env_AggregateSequence envelope <? 1) then Some "invalid_envelope_identifiers"%string
  else if match env_CausationID envelope with Some c => negb (uuidPattern c) | None => false end
  then Some "invalid_envelope_causation"%string
  else if negb (bool_decide (env_PartitionKey envelope = "credential:" +:+ env_AggregateID envelope)%string) ||
     negb (bool_decide (rec_key r = env_PartitionKey envelope)) then Some "invalid_envelope_partition_key"%string
  else if bool_decide (env_Data envelope = "") || bool_decide (env_Data envelope = "null")
  then Some "invalid_envelope_data"%string
  else None.

Definition meta_of (envelope : Envelope string) (r : kafka_record) : EventMeta :=
  MkEventMeta (env_EventID envelope) (env_EventType envelope) (env_AggregateID envelope)
    (env_AggregateSequence envelope) (env_PartitionKey envelope) (env_CorrelationID envelope)
    (env_CausationID envelope) (env_OccurredAt envelope) (rec_topic r) (rec_partition r) (rec_offset r)
    (sha256_hex (rec_value r)).

Definition process (e : attempt_env) (r : kafka_record) (d : db) : result ServiceErr unit * db :=
  match decode_envelope (rec_value r) with
  | None => (Err (ContractError "invalid_envelope_json"), d)
  | Some envelope =>
      match validateEnvelope r envelope with
      | Some code => (Err (ContractError code), d)
      | None => ProcessEvent e (meta_of envelope r) (env_Data envelope) d
      end
  end.

(** The part [pollOnce] and [retryDeferred] have in common: process, dead
    letter what violates the contract, commit the offset. *)
Definition attempt (e : attempt_env) (r : kafka_record) (d : db) : verdict * db :=
  let finish d := if at_commit_ok e then (Committed, d) else (CommitFailed, d) in
  match process e r d with
  | (Ok _, d1) => finish d1
  | (Err (StoreErr ErrSequenceGap), d1) => (Gap, d1)
  | (Err err, d1) =>
      match ContractErrorCode err with
      | None => (Retry, d1)
      | Some code =>
          if negb (at_dead_letter_ok e) then (Retry, d1)
          else match in_tx (RecordDeadLetter (at_now e) (at_wall e) (at_event e) (rec_topic r) (rec_partition r)
                              (rec_offset r) (sha256_hex (rec_value r)) code) d1 with
               | (Ok _, d2) => finish d2
               | (Err _, d2) => (Retry, d2)
               end
      end
  end.

(** ** What an attempt leaves behind *)

(** The record is in the database: as a command, or as a dead letter. *)
Definition settled (d : db) (r : kafka_record) : Prop :=
  (exists id c, command_inbox d !! id = Some c /\ ci_source c = source_of r /\
     ci_payload_sha256 c = sha256_hex (rec_value r)) \/ source_of r ∈ dom (dead_letters d).

Lemma settled_reaches d d' r : reaches d d' -> settled d r -> settled d' r.
Proof.
  intros [Hi Hl]%reaches_keeps [(id & c & H & ?)|H]; [left|right; set_solver].
  exists id, c. split; [by eapply lookup_weaken|done].
Qed.

Lemma RecordCommand_recorded now meta command kind maxAtt d u d' :
  in_tx (RecordCommand now meta command kind maxAtt) d = (Ok u, d') ->
  exists row, command_inbox d' !! EventID meta = Some row /\ same_command row meta command = true.
Proof.
  unfold in_tx. destruct (RecordCommand _ _ _ _ _ _) as [x t'] eqn:E. intros [= -> <-].
  apply RecordCommand_run in E as [(e & ? & _)|[(_ & -> & H)|(_ & _ & _ & ->)]]; [done|done|]. simpl.
  eexists. rewrite lookup_insert_eq. split; [done|]. unfold same_command. simpl.
  by rewrite !bool_decide_true, !Z.eqb_refl.
Qed.

Lemma exec_in_tx {A} (m : prov_tx A) d x d' : in_tx m d = (x, d') ->
  outcome m d = (match x with Ok _ => None | Err e => Some e end, d').
Proof. unfold outcome. intros ->. by destruct x. Qed.

Lemma RecordDeadLetter_recorded now wall ev topic p off h code d x d' :
  in_tx (RecordDeadLetter now wall ev topic p off h code) d = (x, d') ->
  match x with Ok _ => (topic, p, off) ∈ dom (dead_letters d') | Err _ => d' = d end.
Proof.
  destruct x as [u|err]; intros H.
  - revert H. unfold in_tx, RecordDeadLetter. rewrite run_get. cbn [working].
    destruct (dead_letters d !! _) as [row|] eqn:E.
    + intros [= _ <-]. apply elem_of_dom. by exists row.
    + rewrite run_modify. unfold bind. destruct (insertOutbox _ _ _ _ _ _ _ _ _) as [[v|err] t'] eqn:Ei; [|done].
      intros [= _ <-]. simpl. unfold insertOutbox, require in Ei. rewrite run_get in Ei.
      repeat (destruct (_ : bool) in Ei; rewrite ?run_ret, ?run_throw in Ei; [|done]).
      injection Ei as _ <-. simpl. rewrite dom_insert_L. set_solver.
  - assert (atomic (RecordDeadLetter now wall ev topic p off h code)) as Ha by (unfold RecordDeadLetter; tx_auto).
    unfold in_tx in H. destruct (RecordDeadLetter _ _ _ _ _ _ _ _ _) as [y t'] eqn:E. injection H as -> <-.
    by apply Ha in E.
Qed.

Lemma process_outcome e r d x d1 : process e r d = (x, d1) ->
  reaches d d1 /\ match x with Ok _ => settled d1 r | Err _ => d1 = d end.
Proof.
  assert (forall err, (Err err, d) = (x, d1) -> reaches d d1 /\ match x with Ok _ => settled d1 r | Err _ => d1 = d end)
    as Hsame by (intros err [= <- <-]; split; [constructor|done]).
  unfold process. destruct (decode_envelope _) as [envelope|]; [|apply Hsame].
  destruct (validateEnvelope _ _) as [code|]; [apply Hsame|]. unfold ProcessEvent.
  destruct (kind_of _) as [kind|]; [|apply Hsame]. destruct (decode_command _) as [command|]; [|apply Hsame].
  destruct (event_invariant _ _); [|apply Hsame]. destruct (at_store_up e); [|apply Hsame]. unfold negb.
  set (m := meta_of envelope r). destruct (in_tx _ d) as [y d2] eqn:E. pose proof (exec_in_tx _ _ _ _ E) as He.
  assert (reaches d d2) as Hr.
  { pose proof (reaches_step d d (OpRecordCommand (at_now e) m command kind maxAttempts) (reaches_here d) I) as H.
    cbn [exec] in H. by rewrite He in H. }
  destruct y as [u|err]; intros [= <- <-]; (split; [exact Hr|]).
  - left. apply RecordCommand_recorded in E as (row & Hrow & Hs). exists (EventID m), row. split; [done|].
    unfold same_command in Hs. rewrite !andb_true_iff, !bool_decide_eq_true in Hs. naive_solver.
  - unfold in_tx in E. destruct (RecordCommand _ _ _ _ _ _) as [z t'] eqn:Ez. injection E as -> <-.
    apply RecordCommand_run in Ez as [(? & _ & ->)|[(? & _)|(? & _)]]; done.
Qed.

Lemma attempt_outcome e r d v d1 : attempt e r d = (v, d1) ->
  reaches d d1 /\
  match v with
  | Committed => settled d1 r
  | CommitFailed => at_commit_ok e = false /\ settled d1 r
  | Gap | Retry => d1 = d
  end.
Proof.
  unfold attempt. destruct (process e r d) as [x d2] eqn:E. apply process_outcome in E as [Hr Hx].
  destruct x as [u|err].
  { destruct (at_commit_ok e) eqn:Ec; intros [= <- <-]; done. }
  subst d2. set (k := match ContractErrorCode err with Some _ => _ | None => _ end).
  assert (k = (v, d1) -> reaches d d1 /\ match v with Committed => settled d1 r
    | CommitFailed => at_commit_ok e = false /\ settled d1 r | Gap | Retry => d1 = d end) as Hk.
  { unfold k. destruct (ContractErrorCode err) as [code|]; [|intros [= <- <-]; done].
    destruct (at_dead_letter_ok e); simpl; [|intros [= <- <-]; done].
    destruct (in_tx _ d) as [y d3] eqn:Ed. pose proof (exec_in_tx _ _ _ _ Ed) as He.
    assert (reaches d d3) as Hd3.
    { pose proof (reaches_step d d (OpDeadLetter (at_now e) (at_wall e) (at_event e) (rec_topic r) (rec_partition r)
        (rec_offset r) (sha256_hex (rec_value r)) code) (reaches_here d) I) as H. cbn [exec] in H. by rewrite He in H. }
    apply RecordDeadLetter_recorded in Ed. destruct y as [u|err'].
    - destruct (at_commit_ok e) eqn:Ec; intros [= <- <-]; (split; [done|]); [|split; [done|]]; by right.
    - intros [= <- <-]. done. }
  destruct err as [code|[]]; try exact Hk. intros [= <- <-]. done.
Qed.

#[export] Instance prov_attempts : OrderedAttempts attempt at_commit_ok (fun _ => True) reaches settled.
Proof.
  split; [done|constructor|exact reaches_trans|exact settled_reaches|]. intros e r d v d1 _. apply attempt_outcome.
Qed.
Definition prov_pollOnce := pollOnce attempt.
Definition prov_retryDeferred := retryDeferred attempt.

(** The provisioning consumer loses no command: one poll terminates;
    a position is committed only when the record is in the database, as a
    recorded command or as a dead letter; every deferred record is still
    deferred or in the database; and the record fetched is in the database,
    deferred, or fetched again. A record is only fetched from a partition
    that is not paused. *)
Theorem commands_are_not_lost fuel envs range record cancelled alive e q d :
  (size q < fuel)%nat -> (forall r, record = Some r -> q !! partition_of r = None) ->
  exists go q' d' calls, prov_pollOnce fuel envs range record cancelled alive e q d = Some (go, q', d', calls) /\
    reaches d d' /\
    (forall r, CommitRecords r true ∈ calls -> settled d' r) /\
    (forall k r, q !! k = Some r -> q' !! k = Some r \/ settled d' r) /\
    (forall r, record = Some r -> settled d' r \/ q' !! partition_of r = Some r \/ SetOffsets r ∈ calls).
Proof. by apply (poll_keeps_records (inv := fun _ => True)). Qed.

(** The command a record carries, when it keeps the contract. *)
Definition command_in (r : kafka_record) : option (EventMeta * Command * Kind) :=
  envelope ← decode_envelope (rec_value r);
  guard (validateEnvelope r envelope = None);;
  kind ← kind_of (env_EventType envelope);
  command ← decode_command (env_Data envelope);
  guard (event_invariant (meta_of envelope r) command = true);;
  Some (meta_of envelope r, command, kind).

Lemma process_command e r d : process e r d =
  match command_in r with
  | Some (meta, command, kind) =>
      if at_store_up e then lift_store (in_tx (RecordCommand (at_now e) meta command kind maxAttempts) d)
      else (Err (StoreErr (ErrSQL "begin provisioning command")), d)
  | None => (fst (process e r d), d)
  end /\ (command_in r = None -> exists code, fst (process e r d) = Err (ContractError code)).
Proof.
  unfold process, command_in. destruct (decode_envelope _) as [envelope|]; simpl; [|by eauto].
  destruct (validateEnvelope r envelope) as [code|]; simpl; [by eauto|]. unfold ProcessEvent. simpl.
  destruct (kind_of _) as [kind|]; simpl; [|by eauto]. destruct (decode_command _) as [command|]; simpl; [|by eauto].
  destruct (event_invariant _ _); simpl; [|by eauto]. by split.
Qed.

Lemma attempt_gap e r d d' :
  attempt e r d = (Gap, d') <-> process e r d = (Err (StoreErr ErrSequenceGap), d').
Proof.
  unfold attempt. destruct (process e r d) as [[u|[code|[]]] d1]; simpl;
    repeat match goal with
    | |- context [if ?b then _ else _] => destruct b; simpl
    | |- context [in_tx ?m ?d] => destruct (in_tx m d) as [[?|?] ?]; simpl
    end; (split; [intros [=]; by subst | intros [=]; by subst]).
Qed.

Lemma RecordCommand_gap now meta command kind maxAtt d d' :
  in_tx (RecordCommand now meta command kind maxAtt) d = (Err ErrSequenceGap, d') <->
  d' = d /\ command_inbox d !! EventID meta = None /\
  fst (default (0, 0) (command_cursors d !! cmd_CredentialID command)) + 1 < AggregateSequence meta.
Proof.
  unfold in_tx, RecordCommand. rewrite run_get. cbn [working].
  destruct (command_inbox d !! EventID meta) as [row|].
  { unfold require, bind. destruct (same_command _ _ _); simpl; (split; [intros [=] | intros (_ & ? & _); done]). }
  destruct (default _ _) as [s rv] eqn:Ed. unfold require. simpl. destruct (Z.leb_spec (AggregateSequence meta) (s + 1)).
  - split; [|intros (_ & _ & ?); lia]. rewrite run_ret.
    repeat (match goal with |- context [if ?b then _ else _] => destruct b end;
            rewrite ?run_ret, ?run_throw; [|done]; rewrite ?run_modify). done.
  - rewrite run_throw. simpl. split; [intros [= <-]; split_and!; [done|done|lia]|by intros (-> & _)].
Qed.

(** The record carries a command that is not recorded yet and skips a
    sequence number of its credential: an earlier command is missing. *)
Definition ahead (d : db) (r : kafka_record) : Prop :=
  exists meta command kind, command_in r = Some (meta, command, kind) /\
    command_inbox d !! EventID meta = None /\
    fst (default (0, 0) (command_cursors d !! cmd_CredentialID command)) + 1 < AggregateSequence meta.

(** A command is deferred exactly when the store answered and the
    command keeps the contract, is not recorded yet, and skips a sequence
    number of its credential; deferring it changes nothing. *)
Lemma deferred_iff_gap e r d d' :
  attempt e r d = (Gap, d') <-> d' = d /\ at_store_up e = true /\ ahead d r.
Proof.
  unfold ahead. rewrite attempt_gap. destruct (process_command e r d) as [Hp Hc]. rewrite Hp.
  destruct (command_in r) as [[[meta command] kind]|].
  - assert (d' = d /\ at_store_up e = true /\ (exists m c k, Some (meta, command, kind) = Some (m, c, k) /\
        command_inbox d !! EventID m = None /\
        fst (default (0, 0) (command_cursors d !! cmd_CredentialID c)) + 1 < AggregateSequence m) <->
      at_store_up e = true /\ in_tx (RecordCommand (at_now e) meta command kind maxAttempts) d = (Err ErrSequenceGap, d'))
      as -> by (rewrite RecordCommand_gap; naive_solver).
    destruct (at_store_up e); [|split; [done|by intros [? _]]].
    unfold lift_store. destruct (in_tx _ _) as [[u|err] d1]; split; try (by intros [_ [=]]); try (by intros [=]).
    + intros [= -> ->]. done.
    + intros [_ [= -> ->]]. done.
  - destruct (Hc eq_refl) as [code ->]. split; [done|]. by intros (_ & _ & ? & ? & ? & ? & _).
Qed.

(** The database call the attempt at a record needs fails in [d]: the store
    does not answer, it refuses the command for a reason that is not the
    command's, or the dead letter of a record that breaks the contract does
    not go through. *)
Definition call_fails (e : attempt_env) (d : db) (r : kafka_record) : Prop :=
  exists err, process e r d = (Err err, d) /\
    ((exists op, err = StoreErr (ErrSQL op)) \/
     exists code, ContractErrorCode err = Some code /\
       (at_dead_letter_ok e = false \/
        exists err', in_tx (RecordDeadLetter (at_now e) (at_wall e) (at_event e) (rec_topic r) (rec_partition r)
                      (rec_offset r) (sha256_hex (rec_value r)) code) d = (Err err', d))).

Lemma RecordCommand_errors now meta command kind maxAtt d err d' :
  in_tx (RecordCommand now meta command kind maxAtt) d = (Err err, d') ->
  err = ErrConflict \/ err = ErrSequenceGap \/ exists op, err = ErrSQL op.
Proof.
  unfold in_tx, RecordCommand. rewrite run_get. destruct (_ !! _) as [row|].
  { unfold require, bind. destruct (same_command _ _ _); simpl; intros [=]; eauto. }
  destruct (default _ _) as [s rv]. unfold require.
  repeat (match goal with |- context [if ?b then _ else _] => destruct b end;
          rewrite ?run_ret, ?run_throw, ?run_modify; [|intros [= <-]; eauto]). done.
Qed.

Lemma retry_fails e r d d' : attempt e r d = (Retry, d') -> call_fails e d r.
Proof.
  unfold attempt, call_fails. destruct (process e r d) as [x d1] eqn:E. pose proof (process_outcome _ _ _ _ _ E) as [_ Hx].
  destruct x as [u|err]; [by destruct (at_commit_ok e)|]. subst d1. intros H. exists err. split; [done|].
  destruct (ContractErrorCode err) as [code|] eqn:Ec.
  - right. exists code. split; [done|]. destruct (at_dead_letter_ok e); [right|by left].
    destruct (in_tx _ d) as [[u|err'] d2] eqn:Ed.
    + destruct err as [?|[]]; try done; simpl in H; destruct (at_commit_ok e); done.
    + exists err'. apply RecordDeadLetter_recorded in Ed as ->. done.
  - left. destruct err as [code|err]; [done|]. pose proof (process_command e r d) as [Hp Hn]. rewrite E in Hp.
    destruct (command_in r) as [[[meta command] kind]|]; [|destruct (Hn eq_refl) as [code Hc]; by rewrite E in Hc].
    destruct (at_store_up e); [|injection Hp as ->; eauto]. unfold lift_store in Hp.
    destruct (in_tx _ d) as [[u|err'] d2] eqn:Ed; [done|]. injection Hp as -> <-.
    apply RecordCommand_errors in Ed as [->|[->|[op ->]]]; [done|done|eauto].
Qed.

(** Why a command is still deferred when the retries of a poll end in [d']
    after the calls [calls]: its commit failed, and it is in the database all
    the same; or, at a moment of the retries which is their end unless a
    commit failed, an earlier command of its credential was missing, or a
    database call failed. *)
Definition still_deferred (e : attempt_env) (r : kafka_record) (d d' : db) (calls : list client_call) : Prop :=
  (CommitRecords r false ∈ calls /\ settled d' r) \/
  exists dl, reaches d dl /\ reaches dl d' /\ (ahead dl r \/ call_fails e dl r) /\
    ((forall r', CommitRecords r' false ∉ calls) -> dl = d').

(** C37: a deferred command is picked up as soon as it can be: the retries
    of a poll end; every record that left the queue is in the database and its
    position was committed, and none was committed without; and for every
    record still deferred the last round found an earlier command of its
    credential missing, or a database call or the commit failed. Without a
    failed commit this is so of the database the retries leave: what they
    could process is in it and committed, in whatever order the partitions
    come. *)
Theorem retries_drain fuel envs range q d : (size q < fuel)%nat ->
  (forall i (q : deferred) k, is_Some (q !! k) -> k ∈ range i q) ->
  exists q' d' calls, prov_retryDeferred fuel 0 envs range q d = Some (q', d', calls) /\ q' ⊆ q /\ reaches d d' /\
    (forall r ok, CommitRecords r ok ∈ calls -> settled d' r) /\
    (forall k r, q !! k = Some r -> q' !! k = None -> settled d' r /\ CommitRecords r true ∈ calls) /\
    exists last, forall k r, q' !! k = Some r -> still_deferred (envs last k) r d d' calls.
Proof.
  intros Hf Hr. destruct (retries_settle (inv := fun _ => True) fuel 0 envs range q d I Hf Hr)
    as (q' & d' & calls & E & [R Q S C] & last & Hl).
  exists q', d', calls. split_and!; try done. exists last. intros k r Hk.
  destruct (Hl _ _ Hk) as [?|(dl & v & H1 & H2 & Ha & Hv & Hn)]; [by left|right].
  exists dl. split_and!; [done|done| |done]. destruct Hv as [-> | ->]; [left|right].
  - by apply deferred_iff_gap in Ha as (_ & _ & ?).
  - by eapply retry_fails.
Qed.
End service.

(** ** A run to evaluate *)

Definition uuid_n (n : string) : string := ("00000000-0000-4000-8000-00000000000" +:+ n)%string.
Definition sample_topic : string := "access.provision.request.v1".
Definition sample_envelope (n : string) (seq : Z) : Envelope string :=
  MkEnvelope (uuid_n n) sample_topic 1 5 "access-service" (uuid_n "c") None "credential" (uuid_n "a") seq
    ("credential:" +:+ uuid_n "a")%string n.
Definition sample_decode_envelope (s : string) : option (Envelope string) :=
  if bool_decide (s = "1"%string) then Some (sample_envelope s 1)
  else if bool_decide (s = "2"%string) then Some (sample_envelope s 2) else None.
Definition sample_decode_command (s : string) : option Command :=
  if bool_decide (s = "1"%string) then Some (MkCommand (uuid_n "d") (uuid_n "a") 1)
  else if bool_decide (s = "2"%string) then Some (MkCommand (uuid_n "e") (uuid_n "a") 2) else None.
Definition sample_record (partition : Z) (value : string) : kafka_record :=
  MkRecord sample_topic partition 0 ("credential:" +:+ uuid_n "a")%string value.
Definition sample_env : attempt_env := MkAttempt 10 10 "dead" true true true.
Definition sample_queue : gmap (string * Z) kafka_record := {[ (sample_topic, 1) := sample_record 1 "2" ]}.
Abbreviation sample_poll record :=
  (prov_pollOnce sample_decode_command sample_decode_envelope 5 2 (fun _ _ => sample_env) (fun _ q => (map_to_list q).*1)
    (Some record) false true sample_env).

(** The second command waits for the first; a record that is no command is
    dead lettered. *)
Example sample_poll_drains :
  match sample_poll (sample_record 0 "1") sample_queue empty_db with
  | Some (_, q, d, _) => (size q, size (operations d))
  | None => (9, 9)%nat
  end = (0, 2)%nat.
Proof. vm_compute. reflexivity. Qed.
Example sample_poison :
  match sample_poll (sample_record 0 "x") ∅ empty_db with
  | Some (_, q, d, _) => (size q, size (dead_letters d), size (outbox d))
  | None => (9, 9, 9)%nat
  end = (0, 1, 1)%nat.
Proof. vm_compute. reflexivity. Qed.

Lemma commands_are_not_lost_witness : exists go q' d' calls,
  sample_poll (sample_record 0 "1") sample_queue empty_db = Some (go, q', d', calls) /\ 
  settled d' (sample_record 0 "1").
Proof.
  destruct (commands_are_not_lost sample_decode_command sample_decode_envelope 5 2 (fun _ _ => sample_env)
    (fun _ q => (map_to_list q).*1) (Some (sample_record 0 "1")) false true sample_env sample_queue empty_db)
    as (go & q' & d' & calls & E & _ & Hc & _ & Hr).
  - vm_compute. lia.
  - intros r [= <-]. vm_compute. reflexivity.
  - exists go, q', d', calls. split; [exact E|]. apply Hc.
    assert (match sample_poll (sample_record 0 "1") sample_queue empty_db with
            | Some (_, _, _, calls) => bool_decide (head calls = Some (CommitRecords (sample_record 0 "1") true))
            | None => false end = true) as H by (vm_compute; reflexivity).
    rewrite E in H. apply bool_decide_eq_true in H. clear - H. destruct calls as [|c l]; [done|]. injection H as ->. left.
Defined.

(** The second command waits alone: it stays, for the first is missing. *)
Lemma retries_drain_witness :
  match prov_retryDeferred sample_decode_command sample_decode_envelope 5 2 0 (fun _ _ => sample_env)
    (fun _ q => (map_to_list q).*1) sample_queue empty_db with
  | Some (q', d', calls) => q' = sample_queue /\ calls = [] /\
      still_deferred sample_decode_command sample_decode_envelope 5 sample_env (sample_record 1 "2") empty_db d' calls
  | None => False
  end.
Proof.
  destruct (retries_drain sample_decode_command sample_decode_envelope 5 2 (fun _ _ => sample_env)
    (fun _ q => (map_to_list q).*1) sample_queue empty_db) as (q' & d' & calls & E & Hq & _ & _ & _ & last & Hl).
  - vm_compute. lia.
  - intros _ q k [r Hk]. apply list_elem_of_fmap. exists (k, r). split; [done|]. by apply elem_of_map_to_list.
  - rewrite E. assert (match prov_retryDeferred sample_decode_command sample_decode_envelope 5 2 0 (fun _ _ => sample_env)
      (fun _ q => (map_to_list q).*1) sample_queue empty_db with
      | Some (q', _, calls) => bool_decide (q' = sample_queue /\ calls = []) | None => false end = true) as H
      by (vm_compute; reflexivity).
    rewrite E in H. apply bool_decide_eq_true in H as [-> ->]. split_and!; [done|done|].
    apply (Hl (sample_topic, 1)). apply lookup_singleton_eq.
Defined.
