(* ===== verification/ProvisioningWorker.v ===== *)
(** * provisioning-service: the workers

    src/services/provisioning/internal/application/worker.go and the support
    endpoint of internal/httpapi/handler.go. A worker interleaves calls on
    the store with calls on the access and subscription services and on the
    node agents; before every call, whatever the rest of the system does may
    happen. The node agents are an [AgentClient]. *)

From Stdlib Require Import Ascii List.
From S2P Require Import Prelude GoStrings Backoff Platform Jobs ProvisioningDomain ProvisioningStore.

(** ** The node agents

    [G] is the state of all the node agents, [E] what one call draws from
    outside: the network, the agent's disk and its Xray process. An answer
    whose state is neither of the two known ones counts as an error. *)
Class AgentClient (G E : Type) := {
  agent_apply : E -> Node -> AgentDesiredState -> G -> result ProvErr AgentResult * G;
  agent_credential_state : E -> Node -> string -> G -> result ProvErr CredentialActualState;
  agent_status : E -> Node -> G -> result ProvErr AgentStatus
}.

(** ** Jobs *)

Record worker_env (G E : Type) := MkWorkerEnv {
  we_between : nat -> db * G -> db * G;
  we_link : nat -> link;
  we_now : nat -> Z;
  we_wall : nat -> Z;
  we_locked : nat -> gset string;
  we_draw : nat -> list string;
  we_agent : nat -> E;
  we_material : nat -> string -> result ProvErr CredentialMaterial;
  we_placement : nat -> string -> result ProvErr Placement;
  we_publish : nat -> outbox_row -> bool
}.
Arguments we_between {G E}. Arguments we_link {G E}. Arguments we_now {G E}. Arguments we_wall {G E}.
Arguments we_locked {G E}. Arguments we_draw {G E}. Arguments we_agent {G E}. Arguments we_material {G E}.
Arguments we_placement {G E}. Arguments we_publish {G E}.

(** The state the workers share: the database and the node agents. *)
Definition w_db {G} (w : world (db * G)) : db := fst (w_state w).
Definition w_agents {G} (w : world (db * G)) : G := snd (w_state w).

Record worker_config := MkConfig {
  wc_retryDelay : Z;
  wc_lease : Z;
  wc_interval : Z;
  wc_batch : Z;
  wc_staleAfter : Z
}.

Section worker.
Context {G E : Type} `{!AgentClient G E}.
Context (env : worker_env G E) (cfg : worker_config).

Definition unavailable : ProvErr := ErrSQL "unavailable".
Definition store {A} (m : nat -> prov_tx A) : job (db * G) (result ProvErr A) :=
  call_store (we_between env) fst (fun d s => (d, snd s)) (we_link env) unavailable m.
Definition agents_apply (node : Node) (desired : AgentDesiredState) : job (db * G) (result ProvErr AgentResult) :=
  call (we_between env) (fun i s =>
    let '(r, g) := agent_apply (we_agent env i) node desired (snd s) in (r, (fst s, g))).
Definition agents_credential_state (node : Node) (credentialID : string)
    : job (db * G) (result ProvErr CredentialActualState) :=
  ask (we_between env) (fun i s => agent_credential_state (we_agent env i) node credentialID (snd s)).
Definition agents_status (node : Node) : job (db * G) (result ProvErr AgentStatus) :=
  ask (we_between env) (fun i s => agent_status (we_agent env i) node (snd s)).
Definition access_GetCredentialMaterial (credentialID : string) : job (db * G) (result ProvErr CredentialMaterial) :=
  ask (we_between env) (fun i _ => we_material env i credentialID).
Definition subscription_GetPlacement (subscriptionID : string) : job (db * G) (result ProvErr Placement) :=
  ask (we_between env) (fun i _ => we_placement env i subscriptionID).

(** The store calls, with the clock and the identifiers drawn for them. *)
Definition drawn (i n : nat) : string := nth n (we_draw env i) "".
Definition do_ClaimOperation lease := store (fun i => ClaimOperation (we_now env i) lease (we_locked env i)).
Definition do_EnsureAllocations operation placement protocol :=
  store (fun i => EnsureAllocations (we_now env i) (we_locked env i) (drawn i 0) (drawn i 1) operation placement protocol).
Definition do_ListAllocations credentialID := store (fun _ => ListAllocations credentialID).
Definition do_PrepareRevoke operation := store (fun i => PrepareRevoke (we_now env i) operation).
Definition do_MarkAllocationApplied opID nodeID rev := store (fun i => MarkAllocationApplied (we_now env i) opID nodeID rev).
Definition do_MarkAllocationRevoked opID nodeID rev := store (fun i => MarkAllocationRevoked (we_now env i) opID nodeID rev).
Definition do_MarkAllocationFailed opID nodeID reason := store (fun _ => MarkAllocationFailed opID nodeID reason).
Definition do_RetryOperation opID reason delay := store (fun i => RetryOperation (we_now env i) opID reason delay).
Definition do_CompleteProvision operation status allocations :=
  store (fun i => CompleteProvision (we_now env i) (we_wall env i) (drawn i 0) operation status allocations).
Definition do_CompleteProvisionFailure operation scope reason pending :=
  store (fun i => CompleteProvisionFailure (we_now env i) (we_wall env i) (drawn i 0) operation scope reason pending).
Definition do_CompleteRevoke operation allocations :=
  store (fun i => CompleteRevoke (we_now env i) (we_wall env i) (drawn i 0) operation allocations).
Definition do_CompleteRevokeFailure operation reason pending :=
  store (fun i => CompleteRevokeFailure (we_now env i) (we_wall env i) (drawn i 0) operation reason pending).

(** ** Operations *)

Definition backoff (operation : Operation) : Z :=
  retryBackoff (wc_retryDelay cfg) (Attempts operation) (ID operation).
Definition retryOrFailProvision (operation : Operation) (scope reason : string) (pending : list string)
    : job (db * G) (result ProvErr unit) :=
  if MaxAttempts operation <=? Attempts operation then do_CompleteProvisionFailure operation scope reason pending
  else do_RetryOperation (ID operation) reason (backoff operation).
Definition retryOrFailRevoke (operation : Operation) (reason : string) (pending : list string)
    : job (db * G) (result ProvErr unit) :=
  if MaxAttempts operation <=? Attempts operation then do_CompleteRevokeFailure operation reason pending
  else do_RetryOperation (ID operation) reason (backoff operation).

Definition validAgentResult (r : AgentResult) (operation : Operation) (state : DesiredState) : bool :=
  bool_decide (ar_OperationID r = ID operation) && bool_decide (ar_CredentialID r = CredentialID operation) &&
  (ar_DesiredRevision r =? DesiredRevision operation) && bool_decide (ar_State r = state) &&
  (0 <? ar_ConfigRevision r) && negb (ar_AppliedAt r =? 0).
Definition roleActive (l : list Allocation) (role : Role) : bool :=
  existsb (fun a => bool_decide (al_Role a = role) && bool_decide (al_State a = AActive)) l.
Definition pendingNodeIDs (l : list Allocation) : list string :=
  order_by String.leb ((fun a => n_ID (al_Node a)) <$>
    List.filter (fun a => negb (bool_decide (al_State a = AActive)) && negb (bool_decide (al_State a = ARevoked))) l).
Definition unrevokedNodeIDs (l : list Allocation) : list string :=
  order_by String.leb ((fun a => n_ID (al_Node a)) <$> List.filter (fun a => negb (bool_decide (al_State a = ARevoked))) l).
Definition allocationsMatchOperation (l : list Allocation) (operation : Operation) (desired : DesiredState) : bool :=
  forallb (fun a => bool_decide (al_DesiredOperationID a = ID operation) &&
    (al_DesiredRevision a =? DesiredRevision operation) && bool_decide (al_DesiredState a = desired)) l.

(** The loop of [provision] over the allocations; [Err] is its early return. *)
Fixpoint apply_all (operation : Operation) (material : CredentialMaterial) (l : list Allocation)
    : job (db * G) (result ProvErr unit) :=
  match l with
  | [] => mret (Ok tt)
  | a :: l' =>
      if bool_decide (al_State a = AActive) then apply_all operation material l'
      else
        answer ← agents_apply (al_Node a) (MkAgentDesired (ID operation) (CredentialID operation)
                   (DesiredRevision operation) DPresent (mat_Protocol material) (mat_VLESSClientUUID material));
        match answer with
        | Ok r =>
            if validAgentResult r operation DPresent then
              marked ← do_MarkAllocationApplied (ID operation) (n_ID (al_Node a)) (ar_ConfigRevision r);
              match marked with
              | Ok _ => apply_all operation material l'
              | Err e => mret (Err e)
              end
            else
              _ ← do_MarkAllocationFailed (ID operation) (n_ID (al_Node a)) "agent_apply_failed";
              apply_all operation material l'
        | Err _ =>
            _ ← do_MarkAllocationFailed (ID operation) (n_ID (al_Node a)) "agent_apply_failed";
            apply_all operation material l'
        end
  end.

(** From the second reading of the allocations on. *)
Definition conclude_provision (operation : Operation) : job (db * G) (result ProvErr unit) :=
  read ← do_ListAllocations (CredentialID operation);
  match read with
  | Err _ => retryOrFailProvision operation "all" "allocation_read_failed" []
  | Ok allocations =>
      if negb (allocationsMatchOperation allocations operation DPresent) then mret (Err ErrConflict)
      else if negb (roleActive allocations Primary)
      then retryOrFailProvision operation "primary" "primary_apply_failed" (pendingNodeIDs allocations)
      else if negb (roleActive allocations Failover) then
        if MaxAttempts operation <=? Attempts operation then do_CompleteProvision operation StDegraded allocations
        else do_RetryOperation (ID operation) "failover_apply_failed" (backoff operation)
      else do_CompleteProvision operation StActive allocations
  end.

Definition provision (operation : Operation) : job (db * G) (result ProvErr unit) :=
  answer ← access_GetCredentialMaterial (CredentialID operation);
  match answer with
  | Err _ => retryOrFailProvision operation "all" "credential_material_unavailable" []
  | Ok material =>
      if negb (validMaterial material operation)
      then retryOrFailProvision operation "all" "credential_material_unavailable" []
      else
        answer ← subscription_GetPlacement (mat_SubscriptionID material);
        match answer with
        | Err _ => retryOrFailProvision operation "all" "placement_unavailable" []
        | Ok placement =>
            if negb (validPlacement placement (mat_SubscriptionID material))
            then retryOrFailProvision operation "all" "placement_unavailable" []
            else
              placed ← do_EnsureAllocations operation placement (mat_Protocol material);
              match placed with
              | Err ErrCapacity => retryOrFailProvision operation "all" "capacity_exhausted" []
              | Err _ => retryOrFailProvision operation "all" "allocation_failed" []
              | Ok allocations =>
                  if negb (allocationsMatchOperation allocations operation DPresent) then mret (Err ErrConflict)
                  else
                    applied ← apply_all operation material allocations;
                    match applied with
                    | Err e => mret (Err e)
                    | Ok _ => conclude_provision operation
                    end
              end
        end
  end.

Fixpoint revoke_all (operation : Operation) (l : list Allocation) : job (db * G) (result ProvErr unit) :=
  match l with
  | [] => mret (Ok tt)
  | a :: l' =>
      if bool_decide (al_State a = ARevoked) then revoke_all operation l'
      else
        answer ← agents_apply (al_Node a) (MkAgentDesired (ID operation) (CredentialID operation)
                   (DesiredRevision operation) DAbsent "" "");
        match answer with
        | Ok r =>
            if validAgentResult r operation DAbsent then
              marked ← do_MarkAllocationRevoked (ID operation) (n_ID (al_Node a)) (ar_ConfigRevision r);
              match marked with
              | Ok _ => revoke_all operation l'
              | Err e => mret (Err e)
              end
            else
              _ ← do_MarkAllocationFailed (ID operation) (n_ID (al_Node a)) "agent_revoke_failed";
              revoke_all operation l'
        | Err _ =>
            _ ← do_MarkAllocationFailed (ID operation) (n_ID (al_Node a)) "agent_revoke_failed";
            revoke_all operation l'
        end
  end.

Definition conclude_revoke (operation : Operation) : job (db * G) (result ProvErr unit) :=
  read ← do_ListAllocations (CredentialID operation);
  match read with
  | Err _ => retryOrFailRevoke operation "allocation_read_failed" []
  | Ok allocations =>
      if negb (allocationsMatchOperation allocations operation DAbsent) then mret (Err ErrConflict)
      else
        match unrevokedNodeIDs allocations with
        | [] => do_CompleteRevoke operation allocations
        | pending => retryOrFailRevoke operation "revoke_incomplete" pending
        end
  end.

Definition revoke (operation : Operation) : job (db * G) (result ProvErr unit) :=
  prepared ← do_PrepareRevoke operation;
  match prepared with
  | Ok _ | Err ErrNotFound =>
      read ← do_ListAllocations (CredentialID operation);
      match read with
      | Err _ => retryOrFailRevoke operation "allocation_read_failed" []
      | Ok allocations =>
          if negb (allocationsMatchOperation allocations operation DAbsent) then mret (Err ErrConflict)
          else
            revoked ← revoke_all operation allocations;
            match revoked with
            | Err e => mret (Err e)
            | Ok _ => conclude_revoke operation
            end
      end
  | Err _ => retryOrFailRevoke operation "revoke_prepare_failed" []
  end.

(** One tick of the operation worker. *)
Definition workOnce : job (db * G) (result ProvErr unit) :=
  claimed ← do_ClaimOperation (wc_lease cfg);
  match claimed with
  | Err e => mret (Err e)
  | Ok None => mret (Ok tt)
  | Ok (Some operation) =>
      match OpKind operation with Provision => provision operation | Revoke => revoke operation end
  end.

(** ** Reconciliation *)

Definition reconcile_lease (interval : Z) : Z :=
  let lease := int64 (3 * interval) in if lease <? 30 * second then 30 * second else lease.

Definition recordConvergence (a : Allocation) (configRevision : Z) : job (db * G) (result ProvErr unit) :=
  if configRevision <? 1 then mret (Err ErrConflict)
  else match al_DesiredState a with
  | DPresent =>
      if bool_decide (al_State a = AActive) then mret (Ok tt)
      else do_MarkAllocationApplied (al_DesiredOperationID a) (n_ID (al_Node a)) configRevision
  | DAbsent =>
      if bool_decide (al_State a = ARevoked) then mret (Ok tt)
      else do_MarkAllocationRevoked (al_DesiredOperationID a) (n_ID (al_Node a)) configRevision
  end.

Definition valid_convergence (r : AgentResult) (desired : AgentDesiredState) : bool :=
  bool_decide (ar_OperationID r = ad_OperationID desired) && bool_decide (ar_CredentialID r = ad_CredentialID desired) &&
  (ar_DesiredRevision r =? ad_DesiredRevision desired) && bool_decide (ar_State r = ad_State desired) &&
  (1 <=? ar_ConfigRevision r) && negb (ar_AppliedAt r =? 0).

Definition converge (a : Allocation) (desired : AgentDesiredState) : job (db * G) (result ProvErr unit) :=
  answer ← agents_apply (al_Node a) desired;
  match answer with
  | Err e => mret (Err e)
  | Ok r => if valid_convergence r desired then recordConvergence a (ar_ConfigRevision r) else mret (Err ErrConflict)
  end.

Definition reconcileOne (a : Allocation) : job (db * G) (result ProvErr unit) :=
  answer ← agents_credential_state (al_Node a) (al_CredentialID a);
  match answer with
  | Err e => mret (Err e)
  | Ok actual =>
      if al_DesiredRevision a <? ac_DesiredRevision actual then mret (Err ErrConflict)
      else if (ac_DesiredRevision actual =? al_DesiredRevision a) && bool_decide (ac_State actual = al_DesiredState a)
      then recordConvergence a (ac_ConfigRevision actual)
      else
        let desired := MkAgentDesired (al_DesiredOperationID a) (al_CredentialID a) (al_DesiredRevision a) in
        match al_DesiredState a with
        | DAbsent => converge a (desired DAbsent "" "")
        | DPresent =>
            answer ← access_GetCredentialMaterial (al_CredentialID a);
            match answer with
            | Err _ => mret (Err ErrConflict)
            | Ok material =>
                if bool_decide (mat_CredentialID material = al_CredentialID a) &&
                   (mat_Revision material =? al_DesiredRevision a) && bool_decide (mat_Protocol material = al_Protocol a)
                then converge a (desired DPresent (mat_Protocol material) (mat_VLESSClientUUID material))
                else mret (Err ErrConflict)
            end
        end
  end.

(** One round; failures are logged and the candidate is rescheduled. *)
Fixpoint reconcile_each (l : list ReconciliationCandidate) : job (db * G) unit :=
  match l with
  | [] => mret tt
  | c :: l' =>
      _ ← reconcileOne (rc_Allocation c);
      _ ← store (fun i => RescheduleReconciliation (we_now env i) (al_ID (rc_Allocation c)) (rc_ClaimID c) (wc_interval cfg));
      reconcile_each l'
  end.
Definition reconcile : job (db * G) unit :=
  claimed ← store (fun i => ClaimReconciliationCandidates (we_now env i) (wc_batch cfg)
              (reconcile_lease (wc_interval cfg)) (we_locked env i) (we_draw env i));
  match claimed with
  | Err _ => mret tt
  | Ok candidates => reconcile_each candidates
  end.

(** ** Outbox and health *)

Definition publishOnce : job (db * G) (result ProvErr unit) :=
  claimed ← store (fun i => ClaimOutbox (we_now env i) (wc_lease cfg) (we_locked env i));
  match claimed with
  | Err e => mret (Err e)
  | Ok None => mret (Ok tt)
  | Ok (Some message) =>
      published ← ask (we_between env) (fun i _ => we_publish env i message);
      if published : bool then store (fun i => CompleteOutbox (we_now env i) (o_event_id message))
      else store (fun i => RetryOutbox (we_now env i)
                    (retryBackoff (wc_retryDelay cfg) (o_attempts message) (o_event_id message)) (o_event_id message))
  end.

Fixpoint poll_each (l : list Node) : job (db * G) unit :=
  match l with
  | [] => mret tt
  | n :: l' =>
      answer ← agents_status n;
      _ ← match answer with
          | Ok status =>
              if bool_decide (as_NodeID status = n_ID n)
              then store (fun i => RecordNodeHealth (we_now env i) status (wc_staleAfter cfg))
              else store (fun _ => MarkNodeOffline (n_ID n))
          | Err _ => store (fun _ => MarkNodeOffline (n_ID n))
          end;
      poll_each l'
  end.
Definition poll : job (db * G) unit :=
  listed ← store (fun _ => ListNodes);
  match listed with Err _ => mret tt | Ok nodes => poll_each nodes end.
End worker.

(** ** The support endpoint *)

Inductive response (A : Type) := OK (body : A) | Failure (status : Z) (code : string).
Arguments OK {A} body. Arguments Failure {A} status code.

Definition http_GetCredentialSupportSnapshot (up : bool) (path : string) (d : db)
    : response (operation_row * list SupportAllocation) :=
  let credentialID := TrimSpace path in
  if negb (versioned_uuid credentialID) then Failure 400 "invalid_credential_id"
  else if negb up then Failure 500 "provisioning_unavailable"
  else match fst (in_tx (GetSupportSnapshot credentialID) d) with
  | Ok snapshot => OK snapshot
  | Err ErrNotFound => Failure 404 "not_found"
  | Err _ => Failure 500 "provisioning_unavailable"
  end.
