(* ===== verification/ProvisioningEvolution.v ===== *)
(** * provisioning-service: how rows evolve

    What one operation of the store does to an allocation row, which
    operations make a command succeed, and which outcome events appear: the
    facts the invariant over the store and the node agents rests on. *)

From Stdlib Require Import List.
From S2P Require Import Prelude GoStrings Backoff Platform ProvisioningDomain ProvisioningStore ProvisioningInv.
From S2P Require Import ProvisioningSteps ProvisioningPlacement ProvisioningSpec.

Definition kind_state (k : Kind) : DesiredState := match k with Provision => DPresent | Revoke => DAbsent end.
(** Where an allocation is and what it should become. *)
Definition core (a : allocation_row) :=
  (a_id a, a_credential_id a, a_node_id a, a_desired_operation_id a, a_desired_revision a, a_desired_state a).
Definition kind_ok (d : db) (a : allocation_row) : Prop := exists o,
  operations d !! a_desired_operation_id a = Some o /\ kind_state (op_kind o) = a_desired_state a.

Inductive evolves (o : op) (d d' : db) (a a' : allocation_row) : Prop :=
  | ev_quiet : core a' = core a -> a_state a' = a_state a -> evolves o d d' a a'
  | ev_pending : core a' = core a -> a_state a' = APending \/ a_state a' = AFailed -> evolves o d d' a a'
  | ev_command q : a_credential_id a' = a_credential_id a -> a_node_id a' = a_node_id a ->
      (forall j q, operations d !! j = Some q -> op_credential_id q = a_credential_id a ->
         op_desired_revision q < a_desired_revision a') ->
      operations d' !! a_desired_operation_id a' = Some q -> op_state q = SPending ->
      kind_state (op_kind q) = a_desired_state a' ->
      (a_state a' = ARevoked -> a_state a = ARevoked) -> (a_state a' = AActive -> a_desired_state a' = DAbsent) ->
      evolves o d d' a a'
  | ev_applied now rev : o = OpMarkApplied now (a_desired_operation_id a) (a_node_id a) rev -> core a' = core a ->
      a_desired_state a = DPresent -> a_state a' = AActive -> evolves o d d' a a'
  | ev_revoked now rev : o = OpMarkRevoked now (a_desired_operation_id a) (a_node_id a) rev -> core a' = core a ->
      a_desired_state a = DAbsent -> a_state a' = ARevoked -> evolves o d d' a a'.

Definition rows_evolve (o : op) (d d' : db) : Prop :=
  (forall k a, allocations d !! k = Some a -> exists a', allocations d' !! k = Some a' /\ evolves o d d' a a') /\
  (forall k a', allocations d !! k = None -> allocations d' !! k = Some a' ->
     a_state a' = APending /\ a_desired_state a' = DPresent /\ 
     exists now lk i1 i2 v p pr, o = OpEnsureAllocations now lk i1 i2 v p pr /\ a_desired_operation_id a' = ID v).

Lemma rows_evolve_same o d d' : allocations d' = allocations d -> rows_evolve o d d'.
Proof.
  intros E. unfold rows_evolve. rewrite E. split; [|congruence]. intros k a Hk. exists a. split; [done|]. by apply ev_quiet.
Qed.

(** ** Operations that touch no allocation, or only its reconciliation *)

Definition quiet_row (a a' : allocation_row) : Prop := core a' = core a /\ a_state a' = a_state a.
Lemma quiet_row_refl a : quiet_row a a. Proof. done. Qed.
#[export] Hint Resolve quiet_row_refl : core.
Section quiet_rows_step.
Context (A0 : table allocation_row).
Let I (d : db) : Prop := pointwise quiet_row A0 (allocations d).
Lemma rows_modify f : (forall d, allocations (f d) = allocations d) -> preserves I (modify f : prov_tx unit).
Proof. intros H. apply preserves_modify. intros d. unfold I. by rewrite H. Qed.
End quiet_rows_step.
Ltac rows := repeat first
  [ apply rows_modify; by intros []
  | apply preserves_require | apply preserves_need | apply preserves_get | apply preserves_commit | apply preserves_ret
  | apply preserves_throw | tx_split ].
Section quiet_rows.
Context (A0 : table allocation_row).
Let I (d : db) : Prop := pointwise quiet_row A0 (allocations d).

Lemma rows_insertOutbox now ev t ky a n dd p : preserves I (insertOutbox now ev t ky a n dd p).
Proof. unfold insertOutbox. rows. Qed.
Lemma rows_complete now w ev v t dd data : preserves I (completeOperationWithEvent now w ev v t dd data).
Proof. unfold completeOperationWithEvent. repeat first [apply rows_insertOutbox | rows]. Qed.
Lemma rows_seed l : preserves I (seedNodes l).
Proof. induction l as [|a l IH]; simpl; [apply preserves_ret|]. unfold seedNode, when. repeat first [exact IH | rows]. Qed.
Lemma rows_quiet_alter f k : (forall a, quiet_row a (f a)) ->
  preserves I (modify (set_allocations (alter f k)) : prov_tx unit).
Proof.
  intros Hf. apply preserves_modify. intros d H. eapply pointwise_trans; [|exact H|].
  - intros a b c [E1 E2] [E3 E4]. split; congruence.
  - simpl. by apply pointwise_alter.
Qed.
Lemma rows_lease now lease d l cl : preserves I (lease_candidates now lease d l cl).
Proof.
  revert cl. induction l as [|a l IH]; intros [|x cl]; simpl; repeat first [apply IH | apply rows_quiet_alter; done | rows].
Qed.
End quiet_rows.

Lemma pointwise_evolve o d d' : pointwise quiet_row (allocations d) (allocations d') -> rows_evolve o d d'.
Proof.
  intros H. split.
  - intros k a Hk. destruct (pointwise_fwd _ _ _ _ _ H Hk) as (a' & Hk' & E1 & E2). exists a'. split; [done|]. by apply ev_quiet.
  - intros k a' Hn Hk'. destruct (pointwise_bwd _ _ _ _ _ H Hk') as (a & Hk & _). congruence.
Qed.

Lemma evolve_update o d f p :
  (forall k a, allocations d !! k = Some a -> p a = true -> evolves o d (set_allocations (update_where p f) d) a (f a)) ->
  rows_evolve o d (set_allocations (update_where p f) d).
Proof.
  intros H. split; simpl.
  - intros k a Hk. rewrite lookup_update_where, Hk. simpl. eexists. split; [done|].
    destruct (p a) eqn:E; [by eapply H|by apply ev_quiet].
  - intros k a' Hn. rewrite lookup_update_where, Hn. done.
Qed.

(** A statement sent on its own: nothing, or the update. *)
Lemma evolve_counted o d p f b e :
  rows_evolve o d (set_allocations (update_where p f) d) ->
  rows_evolve o d (snd (outcome (modify (set_allocations (update_where p f)) ;;; commit ;;; require b e) d)).
Proof. intros H. unfold outcome, in_tx, require. rewrite run_modify, run_commit. by destruct b. Qed.

Lemma head_where (p : allocation_row -> bool) m a : head (where_ p m) = Some a -> p a = true /\ exists k, m !! k = Some a.
Proof.
  intros H. assert (a ∈ where_ p m) as Hin by (destruct (where_ p m); [done|]; injection H as ->; left).
  by apply elem_where in Hin.
Qed.

Lemma evolve_revoked d now id node rev : Inv d ->
  rows_evolve (OpMarkRevoked now id node rev) d (snd (exec (OpMarkRevoked now id node rev) d)).
Proof.
  intros HI. cbn [exec]. unfold outcome, in_tx, MarkAllocationRevoked, need. rewrite run_get. cbn [working].
  destruct (in_state _ _ _) as [o|] eqn:Eo; [|by apply rows_evolve_same]. rewrite run_ret.
  apply in_state_Some in Eo as [Eo _].
  destruct (head _) as [a|] eqn:Ea; [|by apply rows_evolve_same]. rewrite run_ret.
  apply head_where in Ea as [[Ho Hd%bool_decide_eq_true]%andb_true_iff [k Hk]]. apply on_node_true in Ho as (_ & Hid & _ & Hn).
  assert (op_id o = id) as Hoid by (by apply HI). rewrite Hoid in Hid.
  destruct (bool_decide (a_state a = ARevoked)); [by apply rows_evolve_same|]. simpl.
  assert (a_id a = k) as <- by (by apply HI). split; simpl.
  - intros j x Hj. rewrite lookup_insert. case_decide as E.
    + subst j. assert (x = a) as -> by congruence. eexists. split; [done|].
      eapply ev_revoked; [by rewrite Hid, Hn|done|done|done].
    + exists x. split; [done|]. by apply ev_quiet.
  - intros j x Hnone. rewrite lookup_insert. case_decide; congruence.
Qed.

Lemma evolve_applied d now id node rev : Inv d ->
  rows_evolve (OpMarkApplied now id node rev) d (snd (exec (OpMarkApplied now id node rev) d)).
Proof.
  intros HI. cbn [exec]. unfold MarkAllocationApplied, outcome, in_tx, need. rewrite run_get. cbn [working].
  destruct (in_state _ _ _) as [o|] eqn:Eo; [|by apply rows_evolve_same]. rewrite run_ret.
  apply in_state_Some in Eo as [Eo _]. assert (op_id o = id) as Hoid by (by apply HI).
  apply evolve_counted, evolve_update. intros k a Hk [[Ho Hd%bool_decide_eq_true]%andb_true_iff _]%andb_true_iff.
  apply on_node_true in Ho as (_ & Hid & _ & Hn). eapply ev_applied; [|done|done|done]. by rewrite Hid, Hn, Hoid.
Qed.

Lemma evolve_failed d id node reason : Inv d ->
  rows_evolve (OpMarkFailed id node reason) d (snd (exec (OpMarkFailed id node reason) d)).
Proof.
  intros HI. cbn [exec]. unfold MarkAllocationFailed, outcome, in_tx, need. rewrite run_get. cbn [working].
  destruct (in_state _ _ _) as [o|]; [|by apply rows_evolve_same]. rewrite run_ret.
  apply evolve_counted, evolve_update. intros k a Hk _. apply ev_pending; [done|]. by right.
Qed.

Lemma evolve_prepared d now v :
  rows_evolve (OpPrepareRevoke now v) d (snd (exec (OpPrepareRevoke now v) d)).
Proof.
  cbn [exec]. unfold PrepareRevoke, outcome, in_tx. rewrite run_get. cbn [working].
  destruct (operations d !! ID v) as [o|]; [|by apply rows_evolve_same].
  destruct (_ && _); [|by apply rows_evolve_same].
  apply evolve_counted, evolve_update. intros k a Hk Hp. apply ev_quiet; [|done].
  unfold prepared in Hp. rewrite !andb_true_iff, !bool_decide_eq_true in Hp. unfold core. simpl.
  destruct Hp as [_ ->]. done.
Qed.

Lemma evolve_rescheduled d now k claim dl : Inv d ->
  rows_evolve (OpReschedule now k claim dl) d (snd (exec (OpReschedule now k claim dl) d)).
Proof.
  intros HI. cbn [exec]. unfold RescheduleReconciliation, outcome, in_tx, require, need.
  destruct (0 <=? dl); [|by apply rows_evolve_same]. rewrite run_ret, run_get. cbn [working].
  destruct (allocations d !! k) as [a|] eqn:Ea; [|by apply rows_evolve_same]. rewrite run_ret.
  destruct (bool_decide _); [|by apply rows_evolve_same].
  apply pointwise_evolve. simpl. by apply (pointwise_insert _ _ _ a).
Qed.

Lemma in_tx_outcome {A} (m : prov_tx A) d : snd (outcome m d) = durable (snd (m (Txn d d))).
Proof. rewrite outcome_snd. unfold in_tx. by destruct (m (Txn d d)). Qed.

Lemma evolve_command d now meta cmd kind mx : Inv d ->
  rows_evolve (OpRecordCommand now meta cmd kind mx) d (snd (exec (OpRecordCommand now meta cmd kind mx) d)).
Proof.
  intros HI. cbn [exec]. rewrite in_tx_outcome. destruct (RecordCommand _ _ _ _ _ _) as [x t'] eqn:E.
  apply RecordCommand_run in E as [(e & _ & Hd)|[(_ & -> & _)|(_ & _ & (s & r & Ha) & ->)]];
    [simpl; rewrite Hd; by apply rows_evolve_same|by apply rows_evolve_same|]. cbn [snd durable working].
  destruct Ha as (Hcur & Hseq & Hrev & Hck & _ & _ & Hu). unfold operation_unique in Hu.
  apply andb_true_iff in Hu as [Hid%bool_decide_eq_true _]. simpl in Hid.
  pose proof (commanded_new d now meta cmd kind mx) as Hnew. split.
  - intros k a Hk. simpl. rewrite lookup_update_where, Hk. simpl. eexists. split; [done|].
    destruct (bool_decide (a_credential_id a = cmd_CredentialID cmd) && _) eqn:Ep; [|by apply ev_quiet].
    apply andb_true_iff in Ep as [Hc%bool_decide_eq_true Hlt%Z.ltb_lt]. unfold advance_generation.
    apply (ev_command _ _ _ _ _ (new_operation now meta cmd kind mx)); [by destruct kind|by destruct kind| | | |by destruct kind| |].
    + intros j q Hj Hq. destruct (old_op d cmd s r HI Hcur j q Hj) as (_ & _ & Hle); [congruence|]. destruct kind; simpl; lia.
    + destruct kind; exact Hnew.
    + done.
    + destruct kind; simpl; [|done]. by case_bool_decide.
    + destruct kind; simpl; [|done]. by case_bool_decide.
  - intros k a' Hn. simpl. rewrite lookup_update_where, Hn. done.
Qed.

Lemma evolve_ensured d now lk i1 i2 v p pr : Inv d ->
  rows_evolve (OpEnsureAllocations now lk i1 i2 v p pr) d (snd (exec (OpEnsureAllocations now lk i1 i2 v p pr) d)).
Proof.
  intros HI. cbn [exec]. rewrite in_tx_outcome. destruct (EnsureAllocations _ _ _ _ _ _ _ _) as [x t'] eqn:E.
  apply EnsureAllocations_run in E as [(e & _ & Hd)|(_ & _ & _ & d' & He & _ & ->)];
    [simpl; rewrite Hd; by apply rows_evolve_same|]. cbn [snd durable working].
  destruct He as [(_ & Hg & _ & _ & nds' & _ & ->)|(Hnil & n1 & n2 & l & _ & Hu & ->)].
  - split.
    + intros k a Hk. simpl. rewrite lookup_update_where, Hk. simpl. eexists. split; [done|].
      destruct (of_generation v a) eqn:Eg; [|by apply ev_quiet]. apply ev_pending; [|by left].
      apply of_generation_true in Eg as (Ec & Ei & Er).
      assert (a_desired_state a = DPresent) as Hs.
      { assert (a ∈ allocation_rows d (CredentialID v)) as Hin.
        { apply elem_order_by, elem_where. rewrite bool_decide_true by done. eauto. }
        pose proof (listAllocations_rows d (CredentialID v) HI) as H2.
        apply list_elem_of_lookup_1 in Hin as [i Hi]. destruct (Forall2_lookup_l _ _ _ _ _ H2 Hi) as (x' & Hx & n & _ & _ & ->).
        by apply (Forall_lookup_1 _ _ _ _ Hg) in Hx as (_ & _ & Hs & _). }
      unfold core. simpl. by rewrite Hs, Ei, Er.
    + intros k a' Hn. simpl. rewrite lookup_update_where, Hn. done.
  - pose proof (both_unique_nodes _ _ _ _ _ _ _ _ Hu) as [_ Hids].
    destruct Hu as [[Hid1%bool_decide_eq_true _]%andb_true_iff [Hid2%bool_decide_eq_true _]%andb_true_iff]. simpl in *.
    rewrite lookup_insert_ne in Hid2 by done. split.
    + intros k a Hk. unfold placed_pair, placed, bound. simpl. rewrite !lookup_insert_ne by congruence. exists a. split; [done|]. by apply ev_quiet.
    + intros k a' Hn. unfold placed_pair, placed, bound. simpl. rewrite !lookup_insert, Hn. repeat case_decide; [| |done]; intros [= <-]; split_and!; try done; eauto 10.
Qed.

Lemma exec_evolves o d : Inv d -> rows_evolve o d (snd (exec o d)).
Proof.
  intros HI.
  assert (forall A (m : prov_tx A), preserves (fun d' => pointwise quiet_row (allocations d) (allocations d')) m ->
    rows_evolve o d (snd (outcome m d))) as Hq.
  { intros A m Hm. apply pointwise_evolve. rewrite outcome_snd.
    apply (preserves_in_tx (fun d' => pointwise quiet_row (allocations d) (allocations d'))); [done|by apply pointwise_refl]. }
  destruct o; try (by apply evolve_command || by apply evolve_ensured || apply evolve_prepared || by apply evolve_applied ||
    by apply evolve_revoked || by apply evolve_failed || by apply evolve_rescheduled); cbn [exec]; apply Hq.
  - unfold RecordDeadLetter. repeat first [apply rows_insertOutbox | rows].
  - unfold ClaimOperation. rows.
  - unfold RetryOperation. rows.
  - unfold CompleteProvision. repeat first [apply rows_complete | rows].
  - apply rows_complete.
  - unfold CompleteRevoke. repeat first [apply rows_complete | rows].
  - apply rows_complete.
  - unfold ClaimOutbox. rows.
  - unfold CompleteOutbox. rows.
  - unfold RetryOutbox. rows.
  - unfold SeedNodes. repeat first [apply rows_seed | rows].
  - unfold RecordNodeHealth. rows.
  - unfold MarkNodeOffline. rows.
  - unfold ClaimReconciliationCandidates. repeat first [apply rows_lease | rows].
  - unfold RequestDeadLetterReplay. rows.
  - unfold CompleteDeadLetterReplay. rows.
Qed.

(** ** Which operations succeed, and what the outbox tells of them *)

Section frame.
Context (succ : string -> Prop) (told : event_data -> Prop).
Context (told_other : forall e, (forall i c r s l eps t, e <> ProvisionSucceeded i c r s l eps t) -> told e).
Let I (d : db) : Prop :=
  (forall i o, operations d !! i = Some o -> op_state o = SSucceeded -> succ i) /\
  (forall k r, outbox d !! k = Some r -> told (env_Data (o_payload r))).

(** What an operation may claim. *)
Definition may_claim (o : op) : Prop :=
  match o with
  | OpCompleteProvision _ wall _ v st l => succ (ID v) /\
      told (ProvisionSucceeded (ID v) (CredentialID v) (DesiredRevision v) (status_name st)
        (order_by String.leb ((fun a => n_ID (al_Node a)) <$> l))
        (sort_endpoints (endpointFromAllocation <$> List.filter is_active l)) wall)
  | OpCompleteRevoke _ _ _ v _ => succ (ID v)
  | _ => True
  end.

Lemma frame_modify f : (forall d, operations (f d) = operations d) -> (forall d, outbox (f d) = outbox d) ->
  preserves I (modify f : prov_tx unit).
Proof. intros H1 H2. apply preserves_modify. intros d [Ho Hr]. unfold I. by rewrite H1, H2. Qed.
Lemma frame_ops f : (forall d i o, operations (f d) !! i = Some o -> op_state o = SSucceeded ->
    (exists o', operations d !! i = Some o' /\ op_state o' = SSucceeded) \/ succ i) ->
  (forall d, outbox (f d) = outbox d) -> preserves I (modify f : prov_tx unit).
Proof.
  intros H1 H2. apply preserves_modify. intros d [Ho Hr]. split; [|by rewrite H2].
  intros i o Hi Hs. destruct (H1 d i o Hi Hs) as [(o' & Ho' & Hs')|?]; eauto.
Qed.
Lemma frame_outbox f : (forall d, operations (f d) = operations d) ->
  (forall d k r, outbox (f d) !! k = Some r ->
     (exists k' r', outbox d !! k' = Some r' /\ o_payload r' = o_payload r) \/ told (env_Data (o_payload r))) ->
  preserves I (modify f : prov_tx unit).
Proof.
  intros H1 H2. apply preserves_modify. intros d [Ho Hr]. split; [by rewrite H1|].
  intros k r Hk. destruct (H2 d k r Hk) as [(k' & r' & Hk' & <-)|?]; eauto.
Qed.
Ltac frame := repeat first
  [ apply frame_modify; by intros []
  | apply preserves_require | apply preserves_need | apply preserves_get | apply preserves_commit | apply preserves_ret
  | apply preserves_throw | tx_split ].

Lemma frame_insertOutbox now ev t ky a n dd p :
  told (env_Data p) -> preserves I (insertOutbox now ev t ky a n dd p).
Proof.
  intros Hp. unfold insertOutbox. frame. apply frame_outbox; [by intros []|]. intros d k r. simpl.
  rewrite lookup_insert. case_decide; [intros [= <-]; by right|left; eauto].
Qed.
Lemma frame_complete now w ev v t dd data : told data ->
  (t ≠ "access.provision.failed.v1"%string -> t ≠ "access.revoke.failed.v1"%string -> succ (ID v)) ->
  preserves I (completeOperationWithEvent now w ev v t dd data).
Proof.
  intros Hd Ht. unfold completeOperationWithEvent. repeat first [apply frame_insertOutbox; exact Hd | frame].
  apply frame_ops; [|by intros []]. intros d i o. simpl. intros (o0 & Ho0 & ->)%alter_Some.
  destruct (decide (ID v = i)) as [<-|]; [|eauto]. simpl.
  destruct (bool_decide (t = _ \/ _)) eqn:Eb; [done|]. apply bool_decide_eq_false in Eb. intros _. right. apply Ht; tauto.
Qed.
Lemma frame_lease now lease d l cl : preserves I (lease_candidates now lease d l cl).
Proof. revert cl. induction l as [|a l IH]; intros [|x cl]; simpl; repeat first [apply IH | frame]. Qed.
Lemma frame_seed l : preserves I (seedNodes l).
Proof. induction l as [|a l IH]; simpl; [apply preserves_ret|]. unfold seedNode, when. repeat first [exact IH | frame]. Qed.
Lemma frame_reactivate now v r p l : preserves I (reactivate now v r p l).
Proof. induction l as [|a l IH]; simpl; repeat first [exact IH | frame]. Qed.
Lemma frame_bind rev i : preserves I (modify (set_operations (alter (bind_allocation_revision rev) i)) : prov_tx unit).
Proof.
  apply frame_ops; [|by intros []]. intros d j o. simpl. intros (o0 & Ho0 & ->)%alter_Some. case_decide; eauto.
Qed.

Lemma frame_ClaimOperation now l k : preserves I (ClaimOperation now l k).
Proof.
  unfold ClaimOperation. frame. apply frame_ops; [|by intros []]. intros d i o'. simpl.
  rewrite lookup_insert. case_decide; [intros [= <-]; done|eauto].
Qed.
Lemma frame_RetryOperation now i r dl : preserves I (RetryOperation now i r dl).
Proof.
  unfold RetryOperation. frame. apply frame_ops; [|by intros []]. intros d j o'. simpl.
  rewrite lookup_insert. case_decide; [intros [= <-]; done|eauto].
Qed.
Lemma frame_RecordCommand now meta cmd kd mx : preserves I (RecordCommand now meta cmd kd mx).
Proof.
  unfold RecordCommand. frame.
  - apply frame_ops; [|by intros []]. intros d i o'. simpl. rewrite lookup_insert.
    case_decide; [intros [= <-]; done|eauto].
  - apply frame_ops; [|by intros []]. intros d i o'. simpl. rewrite lookup_update_where.
    intros (o0 & Ho0 & ->)%fmap_Some. destruct (older_than _ _ _ _); [done|eauto].
Qed.

Lemma frame_ClaimOutbox now l k : preserves I (ClaimOutbox now l k).
Proof.
  unfold ClaimOutbox. apply preserves_read. intros d HI [du w] Hw. simpl in Hw. subst w.
  destruct (first_by _ _ _) as [r|] eqn:E; [|done]. apply first_by_Some in E as [_ (j & Hj)]. simpl.
  match goal with |- _ /\ (_ -> I ?d') => enough (I d') by done end. destruct HI as [Ho Hr]. split; [done|].
  intros k' r'. simpl. rewrite lookup_insert. case_decide; [intros [= <-]; simpl; by eapply Hr|apply Hr].
Qed.
Lemma frame_alter_out f k : (forall r, o_payload (f r) = o_payload r) ->
  preserves I (modify (set_outbox (alter f k)) : prov_tx unit).
Proof.
  intros H. apply frame_outbox; [by intros []|]. intros d k' r. simpl. intros (r0 & Hr0 & ->)%alter_Some.
  left. exists k', r0. split; [done|]. case_decide; [by rewrite H|done].
Qed.

Lemma exec_frame o d : may_claim o -> I d -> I (snd (exec o d)).
Proof.
  intros Hc HI. destruct o; cbn [exec]; rewrite outcome_snd; (apply (preserves_in_tx I); [|done]); simpl in Hc.
  - apply frame_RecordCommand.
  - unfold RecordDeadLetter. repeat first [apply frame_insertOutbox; by apply told_other | frame].
  - apply frame_ClaimOperation.
  - unfold EnsureAllocations, allocate_on. repeat first [apply frame_reactivate | apply frame_bind | frame].
  - unfold PrepareRevoke. frame.
  - unfold MarkAllocationApplied. frame.
  - unfold MarkAllocationRevoked, when. frame.
  - unfold MarkAllocationFailed. frame.
  - apply frame_RetryOperation.
  - unfold CompleteProvision. repeat first [apply frame_complete; [apply Hc|intros _ _; apply Hc] | frame].
  - apply frame_complete; [by apply told_other|done].
  - unfold CompleteRevoke. repeat first [apply frame_complete; [by apply told_other|done] | frame].
  - apply frame_complete; [by apply told_other|done].
  - apply frame_ClaimOutbox.
  - unfold CompleteOutbox. repeat first [apply frame_alter_out; done | frame].
  - unfold RetryOutbox. repeat first [apply frame_alter_out; done | frame].
  - unfold SeedNodes. repeat first [apply frame_seed | frame].
  - unfold RecordNodeHealth. frame.
  - unfold MarkNodeOffline. frame.
  - unfold ClaimReconciliationCandidates. repeat first [apply frame_lease | frame].
  - unfold RescheduleReconciliation. frame.
  - unfold RequestDeadLetterReplay. frame.
  - unfold CompleteDeadLetterReplay. frame.
Qed.
End frame.
