(* ===== verification/ProvisioningSystem.v ===== *)
(** * provisioning-service and its node agents

    The database of provisioning-service together with the state of the node
    agents: the protocol the workers follow as a step relation, and the
    invariant that ties what the database says of a credential to what the
    node agents serve. *)

From Stdlib Require Import List.
From S2P Require Import Prelude GoStrings Backoff Platform ProvisioningDomain ProvisioningStore ProvisioningInv.
From S2P Require Import ProvisioningSteps ProvisioningPlacement ProvisioningSpec ProvisioningEvolution.
From S2P Require Import ProvisioningWorker.

(** ** What a node agent promises *)

(** What an agent holds for a credential: a revision and its state. A
    revision has one state for good, so revisions order what is held. *)
Definition hold : Type := Z * DesiredState.
Definition hold_le (h h' : hold) : Prop := fst h < fst h' \/ h = h'.
Lemma hold_le_refl h : hold_le h h.
Proof. by right. Qed.
Lemma hold_le_trans h1 h2 h3 : hold_le h1 h2 -> hold_le h2 h3 -> hold_le h1 h3.
Proof. intros [H1| ->]; [|done]. intros [H2| <-]; left; lia. Qed.
#[export] Hint Resolve hold_le_refl : core.

(** The contract of the node agents: revisions only go up, an accepted
    desired state is in force when the agent says so, and the state it
    reports is the one it holds. A node is reached at its own agent. What the
    data plane of a node runs, or would be started with, is a configuration
    it had while the agent's desired state did not change, or one rendered
    from what the agent holds, possibly with the credential that was asked
    for last. *)
Class AgentLaws (G E : Type) `{!AgentClient G E} := {
  agents_ok : G -> Prop;
  held : G -> string -> string -> hold;
  agent_apply_ok : forall e n v g x g', agents_ok g -> agent_apply e n v g = (x, g') ->
    agents_ok g' /\
    (forall m c, held g' m c = held g m c \/
       (m = n_ID n /\ c = ad_CredentialID v /\ fst (held g m c) < ad_DesiredRevision v /\
        held g' m c = (ad_DesiredRevision v, ad_State v))) /\
    (forall r, x = Ok r -> ar_OperationID r = ad_OperationID v -> ar_CredentialID r = ad_CredentialID v ->
       ar_DesiredRevision r = ad_DesiredRevision v -> ar_State r = ad_State v ->
       hold_le (ad_DesiredRevision v, ad_State v) (held g' (n_ID n) (ad_CredentialID v)));
  agent_state_ok : forall e n c g a, agents_ok g -> agent_credential_state e n c g = Ok a ->
    held g (n_ID n) c = (ac_DesiredRevision a, ac_State a);
  config : Type;
  configs : G -> string -> config -> Prop;
  renders : (string -> hold) -> config -> Prop;
  agent_apply_configs : forall e n v g x g' m cfg, agents_ok g -> agent_apply e n v g = (x, g') -> configs g' m cfg ->
    (configs g m cfg /\ forall c, held g' m c = held g m c) \/
    (exists f, renders f cfg /\ (forall c, hold_le (held g' m c) (f c)) /\
       forall c, f c = held g m c \/
         (m = n_ID n /\ c = ad_CredentialID v /\ fst (held g m c) < ad_DesiredRevision v /\
          f c = (ad_DesiredRevision v, ad_State v)))
}.

Section system.
Context {G E : Type} `{!AgentClient G E, !AgentLaws G E}.
Implicit Types s : db * G.

(** ** The invariant *)

(** A command of credential [c] asked for [h]. *)
Definition asked (d : db) (c : string) (h : hold) : Prop := exists i o, operations d !! i = Some o /\
  op_credential_id o = c /\ op_desired_revision o = fst h /\ kind_state (op_kind o) = snd h.

(** Credential [c] has an allocation on node [n]. *)
Definition placed (d : db) (n c : string) : Prop := exists k a, allocations d !! k = Some a /\
  a_credential_id a = c /\ a_node_id a = n.
(** What a configuration of node [n] may have been rendered from, when the
    agent holds [h]: nothing older than [h], nothing that was not asked for,
    and no credential revoked there. *)
Record sound (d : db) (n : string) (h f : string -> hold) : Prop := {
  f_newer : forall c, hold_le (h c) (f c);
  f_asked : forall c, f c = (0, DAbsent) \/ asked d c (f c);
  f_placed : forall c, snd (f c) = DPresent -> placed d n c;
  f_revoked : forall k a, allocations d !! k = Some a -> a_node_id a = n -> a_state a = ARevoked ->
    snd (f (a_credential_id a)) = DAbsent
}.

Record J (s : db * G) : Prop := {
  j_inv : Inv (fst s);
  j_agents : agents_ok (snd s);
  j_kind : forall k a, allocations (fst s) !! k = Some a -> kind_ok (fst s) a;
  (** Agents hold nothing that was not asked for. *)
  j_held : forall n c, held (snd s) n c = (0, DAbsent) \/ asked (fst s) c (held (snd s) n c);
  j_active : forall k a, allocations (fst s) !! k = Some a -> a_state a = AActive -> a_desired_state a = DPresent ->
    hold_le (a_desired_revision a, DPresent) (held (snd s) (a_node_id a) (a_credential_id a));
  j_revoked : forall k a, allocations (fst s) !! k = Some a -> a_state a = ARevoked ->
    snd (held (snd s) (a_node_id a) (a_credential_id a)) = DAbsent;
  j_served : forall k a o, allocations (fst s) !! k = Some a -> operations (fst s) !! a_desired_operation_id a = Some o ->
    op_state o = SSucceeded -> a_desired_state a = DPresent -> a_state a <> ARevoked;
  j_told : forall k r i c rev st l eps t ep, outbox (fst s) !! k = Some r ->
    env_Data (o_payload r) = ProvisionSucceeded i c rev st l eps t -> ep ∈ eps ->
    hold_le (rev, DPresent) (held (snd s) (ep_NodeID ep) c);
  (** A credential is served only where it has an allocation. *)
  j_placed : forall n c, snd (held (snd s) n c) = DPresent -> placed (fst s) n c;
  (** The data plane runs nothing revoked. *)
  j_configs : forall n cfg, configs (snd s) n cfg ->
    exists f, renders f cfg /\ sound (fst s) n (held (snd s) n) f
}.

(** ** The protocol *)

(** No allocation of generation [rev] has been revoked yet. *)
Definition unrevoked (d : db) (c : string) (rev : Z) : Prop := forall k a, allocations d !! k = Some a ->
  a_credential_id a = c -> a_desired_revision a = rev -> a_desired_state a = DPresent -> a_state a <> ARevoked.

(** When a worker may call an operation of the store. *)
Definition permitted (s : db * G) (o : op) : Prop :=
  match o with
  | OpMarkApplied _ i n _ => exists q, operations (fst s) !! i = Some q /\
      hold_le (op_desired_revision q, DPresent) (held (snd s) n (op_credential_id q))
  | OpMarkRevoked _ i n _ => exists q, operations (fst s) !! i = Some q /\
      hold_le (op_desired_revision q, DAbsent) (held (snd s) n (op_credential_id q))
  | OpEnsureAllocations _ _ _ _ v _ _ => genuine (fst s) v /\ OpKind v = Provision
  | OpCompleteProvision _ _ _ v _ l => genuine (fst s) v /\ unrevoked (fst s) (CredentialID v) (DesiredRevision v) /\
      forall a, a ∈ l -> al_State a = AActive ->
        hold_le (DesiredRevision v, DPresent) (held (snd s) (n_ID (al_Node a)) (CredentialID v))
  | OpCompleteRevoke _ _ _ v _ => genuine (fst s) v /\ OpKind v = Revoke
  | OpCompleteProvisionFailure _ _ _ v _ _ _ | OpCompleteRevokeFailure _ _ _ v _ _ => genuine (fst s) v
  | _ => True
  end.
Lemma permitted_allowed s o : permitted s o -> allowed o (fst s).
Proof. destruct o; simpl; naive_solver. Qed.

(** When a worker may hand an agent a desired state: a command asked for it,
    and a credential is only installed where its allocation has not been
    revoked at a later revision. *)
Definition may_apply (s : db * G) (n : Node) (v : AgentDesiredState) : Prop :=
  asked (fst s) (ad_CredentialID v) (ad_DesiredRevision v, ad_State v) /\
  (ad_State v = DPresent -> exists k a, allocations (fst s) !! k = Some a /\ a_credential_id a = ad_CredentialID v /\
     a_node_id a = n_ID n /\
     (a_state a = ARevoked -> ad_DesiredRevision v <= fst (held (snd s) (n_ID n) (ad_CredentialID v)))).

Inductive sys_step : db * G -> db * G -> Prop :=
  | step_store o d g : permitted (d, g) o -> sys_step (d, g) (snd (exec o d), g)
  | step_agent (e : E) n v d g : may_apply (d, g) n v -> sys_step (d, g) (d, snd (agent_apply e n v g)).
Definition sys_reaches : db * G -> db * G -> Prop := rtc sys_step.

(** ** The protocol keeps the invariant *)

Lemma asked_settles d d' c h : settles (operations d) (operations d') -> asked d c h -> asked d' c h.
Proof.
  intros Hs (i & o & Ho & <- & Hr & Hk). destruct (Hs i o Ho) as (o' & Ho' & [= _ E1 E2 E3 _ _ _ _] & _).
  exists i, o'. split_and!; congruence.
Qed.
Lemma kind_ok_settles d d' a : settles (operations d) (operations d') -> kind_ok d a -> kind_ok d' a.
Proof.
  intros Hs (o & Ho & Hk). destruct (Hs _ o Ho) as (o' & Ho' & [= _ _ E2 _ _ _ _ _] & _). exists o'. split; congruence.
Qed.
Lemma kind_ok_core d a a' : core a' = core a -> kind_ok d a -> kind_ok d a'.
Proof. intros [= _ _ _ E1 _ E2]. unfold kind_ok. by rewrite E1, E2. Qed.

(** Nothing newer than the generation of an allocation was ever asked for. *)
Lemma asked_bound d k a h : Inv d -> allocations d !! k = Some a -> asked d (a_credential_id a) h ->
  1 <= fst h <= a_desired_revision a.
Proof.
  intros HI Hk (i & o & Ho & Hc & <- & _).
  destruct (al_generation _ _ _ _ (inv_allocs _ HI) _ _ Hk) as (s & q & Hcur & _).
  destruct (ops_cursor _ _ (inv_ops _ HI) _ _ Ho) as (s' & r' & Hcur' & _ & ?). rewrite Hc, Hcur in Hcur'.
  by simplify_eq.
Qed.
Lemma generation_op d k a o : Inv d -> allocations d !! k = Some a -> operations d !! a_desired_operation_id a = Some o ->
  op_credential_id o = a_credential_id a /\ op_desired_revision o = a_desired_revision a.
Proof.
  intros HI Hk Ho. destruct (al_generation _ _ _ _ (inv_allocs _ HI) _ _ Hk) as (s & q & _ & Hq & ? & ?).
  by simplify_eq.
Qed.

Lemma J_agent e n v d g : may_apply (d, g) n v -> J (d, g) -> J (d, snd (agent_apply e n v g)).
Proof.
  intros [Hask Hrow] [HI HG HK HH HA HR HS HT HP HC]. simpl in *.
  destruct (agent_apply e n v g) as [x g'] eqn:Ea. destruct (agent_apply_ok _ _ _ _ _ _ HG Ea) as (HG' & Hheld & _).
  assert (forall m c, hold_le (held g m c) (held g' m c)) as Hle.
  { intros m c. destruct (Hheld m c) as [->|(_ & _ & Hlt & ->)]; [done|]. by left. }
  assert (forall k a, allocations d !! k = Some a -> a_state a = ARevoked -> a_node_id a = n_ID n ->
    a_credential_id a = ad_CredentialID v -> fst (held g (a_node_id a) (a_credential_id a)) < ad_DesiredRevision v ->
    ad_State v = DAbsent) as Hnew.
  { intros k a Hk Hs Em Ec Hlt. destruct (ad_State v) eqn:Ed; [|done].
    destruct (Hrow eq_refl) as (k' & a' & Hk' & Hc' & Hn' & Hrev).
    assert (k' = k) as -> by (eapply (al_node _ _ _ _ (inv_allocs _ HI)); eauto; congruence). simplify_eq.
    specialize (Hrev Hs). rewrite Em, Ec in Hlt. lia. }
  assert (forall m c, snd (ad_DesiredRevision v, ad_State v) = DPresent -> m = n_ID n -> c = ad_CredentialID v -> placed d m c) as Hpl.
  { simpl. intros m c Hd -> ->. destruct (Hrow Hd) as (k & a & ? & ? & ? & _). by exists k, a. }
  split; simpl; try done.
  - intros m c. destruct (Hheld m c) as [->|(-> & -> & _ & ->)]; [apply HH|by right].
  - intros k a Hk Hs Hd. eapply hold_le_trans; [by eapply HA|apply Hle].
  - intros k a Hk Hs. destruct (Hheld (a_node_id a) (a_credential_id a)) as [->|(Em & Ec & Hlt & ->)]; [by eapply HR|].
    by eapply Hnew.
  - intros k r i c rev st l eps t ep Hk He Hep. eapply hold_le_trans; [by eapply HT|apply Hle].
  - intros m c. destruct (Hheld m c) as [->|(-> & -> & _ & ->)]; [apply HP|]. intros Hd. by apply Hpl.
  - intros m cfg Hcfg. destruct (agent_apply_configs _ _ _ _ _ _ _ _ HG Ea Hcfg) as [[Hold Hsame]|(f & Hf & Hle' & Hfc)].
    + destruct (HC m cfg Hold) as (f & Hf & [S1 S2 S3 S4]). exists f. split; [done|]. split; try done.
      intros c. rewrite Hsame. apply S1.
    + exists f. split; [done|]. split; [done|..].
      * intros c. destruct (Hfc c) as [->|(-> & -> & _ & ->)]; [apply HH|by right].
      * intros c. destruct (Hfc c) as [->|(-> & -> & _ & ->)]; [apply HP|]. intros Hd. by apply Hpl.
      * intros k a Hk <- Hs. destruct (Hfc (a_credential_id a)) as [->|(Em & Ec & Hlt & ->)]; [by eapply HR|].
        by eapply Hnew.
Qed.

Lemma evolves_place o d d' a a' : evolves o d d' a a' ->
  a_credential_id a' = a_credential_id a /\ a_node_id a' = a_node_id a.
Proof. intros [Hc _|Hc _|q Ec En _ _ _ _ _ _|now rev _ Hc _ _|now rev _ Hc _ _]; by try (injection Hc; split). Qed.

(** The rows after a store operation. *)
Section after_store.
Context (o : op) (d : db) (g : G).
Context (HJ : J (d, g)) (Hp : permitted (d, g) o).
Let d' : db := snd (exec o d).

Lemma after_inv : Inv d' /\ settles (operations d) (operations d').
Proof. apply exec_good; [apply HJ|by apply permitted_allowed in Hp]. Qed.

Lemma after_row k a' : allocations d' !! k = Some a' ->
  (exists a, allocations d !! k = Some a /\ evolves o d d' a a') \/
  (a_state a' = APending /\ a_desired_state a' = DPresent /\
   exists now lk i1 i2 v p pr, o = OpEnsureAllocations now lk i1 i2 v p pr /\ a_desired_operation_id a' = ID v).
Proof.
  intros Hk. destruct (exec_evolves o d (j_inv _ HJ)) as [Hold Hnew].
  destruct (allocations d !! k) as [a|] eqn:Ek; [|right; by eapply Hnew].
  left. destruct (Hold k a Ek) as (a1 & Hk1 & He). exists a. split; [done|]. fold d' in Hk1. by assert (a1 = a') as -> by congruence.
Qed.

(** A row marked active or revoked is backed by the agent. *)
Lemma marked_applied k a now rev : allocations d !! k = Some a ->
  o = OpMarkApplied now (a_desired_operation_id a) (a_node_id a) rev ->
  hold_le (a_desired_revision a, DPresent) (held g (a_node_id a) (a_credential_id a)).
Proof.
  intros Hk Ho. pose proof Hp as Hp'. rewrite Ho in Hp'. destruct Hp' as (q & Hq & Hle). simpl in *.
  destruct (generation_op d k a q (j_inv _ HJ) Hk Hq) as [Ec Er]. by rewrite Ec, Er in Hle.
Qed.
Lemma marked_revoked k a now rev : allocations d !! k = Some a ->
  o = OpMarkRevoked now (a_desired_operation_id a) (a_node_id a) rev ->
  held g (a_node_id a) (a_credential_id a) = (a_desired_revision a, DAbsent).
Proof.
  intros Hk Ho. pose proof Hp as Hp'. rewrite Ho in Hp'. destruct Hp' as (q & Hq & Hle). simpl in *.
  destruct (generation_op d k a q (j_inv _ HJ) Hk Hq) as [Ec Er]. rewrite Ec, Er in Hle.
  destruct Hle as [Hlt|Heq]; [|by rewrite <- Heq]. simpl in Hlt.
  assert (asked d (a_credential_id a) (a_desired_revision a, kind_state (op_kind q))) as Hq'
    by (exists (a_desired_operation_id a), q; done).
  pose proof (asked_bound d k a _ (j_inv _ HJ) Hk Hq') as Hb. simpl in Hb.
  destruct (j_held _ HJ (a_node_id a) (a_credential_id a)) as [Hh|Hh]; simpl in Hh; [rewrite Hh in Hlt; simpl in Hlt; lia|].
  pose proof (asked_bound d k a _ (j_inv _ HJ) Hk Hh). lia.
Qed.

(** Then so is every configuration of that node. *)
Lemma marked_sound k a now rev f : allocations d !! k = Some a ->
  o = OpMarkRevoked now (a_desired_operation_id a) (a_node_id a) rev -> sound d (a_node_id a) (held g (a_node_id a)) f ->
  snd (f (a_credential_id a)) = DAbsent.
Proof.
  intros Hk Ho Hf. pose proof (marked_revoked k a now rev Hk Ho) as Hh.
  pose proof (f_newer _ _ _ _ Hf (a_credential_id a)) as Hle. rewrite Hh in Hle. destruct Hle as [Hlt|<-]; [|done].
  destruct (f_asked _ _ _ _ Hf (a_credential_id a)) as [->|Ha]; [done|].
  pose proof (asked_bound d k a _ (j_inv _ HJ) Hk Ha) as Hb. simpl in *. lia.
Qed.

Lemma after_kind k a' : allocations d' !! k = Some a' -> kind_ok d' a'.
Proof.
  destruct after_inv as [_ Hs]. intros [(a & Hk & He)|(_ & Hd & now & lk & i1 & i2 & v & p & pr & Ho & Hv)]%after_row.
  - assert (core a' = core a -> kind_ok d' a') as Hcore.
    { intros Hc. eapply kind_ok_core; [exact Hc|]. eapply kind_ok_settles; [exact Hs|]. by eapply (j_kind _ HJ). }
    destruct He; auto. by exists q.
  - pose proof Hp as Hp'. rewrite Ho in Hp'. destruct Hp' as [(q & Hq & Hi) Hkd]. simpl in *. injection Hi as _ _ Ek _ _ _ _ _.
    destruct (Hs _ _ Hq) as (q' & Hq' & [= _ _ Ek' _ _ _ _ _] & _). exists q'. rewrite Hv, Hd. split; [done|].
    by rewrite Ek', Ek, Hkd.
Qed.

Lemma after_active k a' : allocations d' !! k = Some a' -> a_state a' = AActive -> a_desired_state a' = DPresent ->
  hold_le (a_desired_revision a', DPresent) (held g (a_node_id a') (a_credential_id a')).
Proof.
  intros [(a & Hk & He)|(Hs & _)]%after_row Ha Hd; [|congruence].
  destruct He as [Hc Hs|Hc [Hs|Hs]|q _ _ _ _ _ _ _ Hact|now rev Ho Hc _ _|now rev _ Hc Hab Hs]; try congruence.
  - injection Hc as _ Ec En _ Er Ed. rewrite Ec, En, Er. eapply (j_active _ HJ); [exact Hk|congruence|congruence].
  - specialize (Hact Ha). congruence.
  - injection Hc as _ Ec En _ Er Ed. rewrite Ec, En, Er. by eapply marked_applied.
Qed.

Lemma after_revoked k a' : allocations d' !! k = Some a' -> a_state a' = ARevoked ->
  snd (held g (a_node_id a') (a_credential_id a')) = DAbsent.
Proof.
  intros [(a & Hk & He)|(Hs & _)]%after_row Ha; [|congruence].
  destruct He as [Hc Hs|Hc [Hs|Hs]|q Ec En _ _ _ _ Hrev _|now rev _ Hc _ Hs|now rev Ho Hc Hab _]; try congruence.
  - injection Hc as _ Ec En _ Er Ed. rewrite Ec, En. eapply (j_revoked _ HJ); [exact Hk|congruence].
  - rewrite Ec, En. by eapply (j_revoked _ HJ); [exact Hk|apply Hrev].
  - injection Hc as _ Ec En _ Er Ed. rewrite Ec, En. by rewrite (marked_revoked k a now rev Hk Ho).
Qed.

Lemma after_placed n c : placed d n c -> placed d' n c.
Proof.
  intros (k & a & Hk & Hc & Hn). destruct (proj1 (exec_evolves o d (j_inv _ HJ)) k a Hk) as (a' & Hk' & He).
  exists k, a'. split; [done|]. apply evolves_place in He as [-> ->]. done.
Qed.
Lemma after_sound n f : sound d n (held g n) f -> sound d' n (held g n) f.
Proof.
  intros Hf. pose proof Hf as [S1 S2 S3 S4]. destruct after_inv as [_ Hset]. split; [done|..].
  - intros c. destruct (S2 c) as [H|H]; [by left|right]. by eapply asked_settles.
  - intros c Hd. by apply after_placed, S3.
  - intros k a' Hk' Hn Ha. apply after_row in Hk' as [(a & Hk & He)|(Hs & _)]; [|congruence].
    destruct (evolves_place _ _ _ _ _ He) as [Ec En]. rewrite Ec. rewrite En in Hn. subst n.
    destruct He as [Hc Hs|Hc [Hs|Hs]|q _ _ _ _ _ _ Hrev _|now rev _ Hc _ Hs|now rev Ho Hc Hab _]; try congruence.
    + eapply S4; [exact Hk|done|congruence].
    + by eapply S4; [exact Hk|done|apply Hrev].
    + by eapply marked_sound.
Qed.

(** What the outbox tells, and which operations succeeded. *)
Definition truthful (e : event_data) : Prop :=
  match e with
  | ProvisionSucceeded i c rev st l eps t =>
      forall ep, ep ∈ eps -> hold_le (rev, DPresent) (held g (ep_NodeID ep) c)
  | _ => True
  end.
Definition concluded (i : string) : Prop :=
  (exists q, operations d !! i = Some q /\ op_state q = SSucceeded) \/
  (exists now w e v st l, o = OpCompleteProvision now w e v st l /\ ID v = i) \/
  (exists now w e v l, o = OpCompleteRevoke now w e v l /\ ID v = i).
Lemma after_frame : (forall i q, operations d' !! i = Some q -> op_state q = SSucceeded -> concluded i) /\
  (forall k r, outbox d' !! k = Some r -> truthful (env_Data (o_payload r))).
Proof.
  apply (exec_frame concluded truthful).
  - intros e He. destruct e; try done. exfalso. by eapply He.
  - pose proof Hp as Hp'. destruct o eqn:Eo; try done; simpl.
    + destruct Hp' as (Hg & _ & Hl). simpl in *. split; [right; left; by do 6 eexists|].
      intros ep Hep. unfold sort_endpoints in Hep. apply elem_order_by, list_elem_of_fmap in Hep as (a & -> & Ha).
      apply list_elem_of_In, filter_In in Ha as [Ha%list_elem_of_In Hact%bool_decide_eq_true]. by apply Hl.
    + right. right. by do 5 eexists.
  - split.
    + intros i q Hq Hs. left. eauto.
    + intros k r Hk. destruct (env_Data (o_payload r)) eqn:Er; try done. simpl. intros ep Hep. by eapply (j_told _ HJ).
Qed.

Lemma after_served k a' q : allocations d' !! k = Some a' -> operations d' !! a_desired_operation_id a' = Some q ->
  op_state q = SSucceeded -> a_desired_state a' = DPresent -> a_state a' <> ARevoked.
Proof.
  intros Hk' Hq Hs Hd. destruct after_frame as [Hc _]. specialize (Hc _ _ Hq Hs).
  destruct (after_row k a' Hk') as [(a & Hk & He)|(Ha & _)]; [|congruence].
  destruct He as [Hco Hst|Hco [Hst|Hst]|q0 _ _ _ Hq0 Hpend _ _ _|now rev _ Hco _ Hst|now rev _ Hco Hab _]; try congruence.
  - rewrite Hst. pose proof Hco as [= _ Ec En Ei Er Ed]. rewrite Ei in Hc. destruct Hc as [(q0 & Hq0 & Hs0)|[Hc|Hc]].
    + eapply (j_served _ HJ); [exact Hk|exact Hq0|done|congruence].
    + destruct Hc as (now & w & e & v & st & l & Ho & Hv). pose proof Hp as Hp'. rewrite Ho in Hp'.
      destruct Hp' as ((q1 & Hq1 & Hid) & Hun & _). simpl in *. injection Hid as _ E2 _ E4 _ _ _ _.
      rewrite Hv in Hq1. destruct (generation_op d k a q1 (j_inv _ HJ) Hk Hq1) as [F1 F2].
      eapply Hun; [exact Hk|congruence|congruence|congruence].
    + destruct Hc as (now & w & e & v & l & Ho & Hv). pose proof Hp as Hp'. rewrite Ho in Hp'.
      destruct Hp' as ((q1 & Hq1 & Hid) & Hkd). simpl in *. injection Hid as _ _ E3 _ _ _ _ _.
      destruct (j_kind _ HJ k a Hk) as (q2 & Hq2 & Hk2). rewrite Hv in Hq1. simpl in Hq2.
      assert (q2 = q1) as -> by congruence. rewrite E3, Hkd in Hk2. simpl in Hk2. congruence.
  - injection Hco as _ _ _ _ _ Ed. congruence.
Qed.

Lemma J_store : J (d', g).
Proof.
  destruct after_inv as [HI' Hs]. destruct after_frame as [_ Ht]. split; simpl; try done.
  - apply HJ.
  - apply after_kind.
  - intros n c. destruct (j_held _ HJ n c) as [H|H]; [by left|right]. by eapply asked_settles.
  - apply after_active.
  - apply after_revoked.
  - apply after_served.
  - intros k r i c rev st l eps t ep Hk He Hep. specialize (Ht k r Hk). rewrite He in Ht. by apply Ht.
  - intros n c Hd. by apply after_placed, (j_placed _ HJ).
  - intros n cfg Hcfg. destruct (j_configs _ HJ n cfg Hcfg) as (f & Hf & Hsd). exists f. split; [done|]. by apply after_sound.
Qed.
End after_store.

Lemma J_step s s' : sys_step s s' -> J s -> J s'.
Proof. intros [o d g Hp|e n v d g Hm] HJ; [by apply J_store|by apply J_agent]. Qed.
Lemma J_reaches s s' : sys_reaches s s' -> J s -> J s'.
Proof. induction 1; [done|]. intros HJ. by apply IHrtc, (J_step x). Qed.

(** ** Where the system starts *)

Definition initial (g : G) : Prop := agents_ok g /\ (forall n c, held g n c = (0, DAbsent)) /\
  forall n cfg, configs g n cfg -> renders (fun _ => (0, DAbsent)) cfg.
Definition sys_reachable (s : db * G) : Prop := exists g, initial g /\ sys_reaches (empty_db, g) s.
Lemma J_initial g : initial g -> J (empty_db, g).
Proof.
  intros (Hg & H0 & Hc). split; simpl; intros; simplify_map_eq; try done.
  - apply prov_Inv_empty.
  - left. apply H0.
  - rewrite H0 in *. done.
  - eexists. split; [by eapply Hc|]. split; simpl; [|by left|done|].
    + intros c. by rewrite H0.
    + intros k a Hk. simplify_map_eq.
Qed.
Lemma J_reachable s : sys_reachable s -> J s.
Proof. intros (g & Hg & Hr). eapply J_reaches; [exact Hr|by apply J_initial]. Qed.

(** ** What the invariant says *)

Lemma J_active_held d g k a : J (d, g) -> allocations d !! k = Some a -> a_state a = AActive ->
  a_desired_state a = DPresent -> held g (a_node_id a) (a_credential_id a) = (a_desired_revision a, DPresent).
Proof.
  intros HJ Hk Hs Hd. pose proof (j_active _ HJ k a Hk Hs Hd) as Hle. simpl in Hle.
  destruct (j_kind _ HJ k a Hk) as (o & Ho & _).
  destruct (generation_op _ _ _ _ (j_inv _ HJ) Hk Ho) as [Ec Er].
  assert (asked d (a_credential_id a) (a_desired_revision a, kind_state (op_kind o))) as Hown
    by (exists (a_desired_operation_id a), o; done).
  pose proof (asked_bound d k a _ (j_inv _ HJ) Hk Hown) as Hb.
  destruct Hle as [Hlt|<-]; [|done]. simpl in *.
  destruct (j_held _ HJ (a_node_id a) (a_credential_id a)) as [Hh|Hh]; simpl in Hh; [rewrite Hh in Hlt; simpl in Hlt; lia|].
  pose proof (asked_bound d k a _ (j_inv _ HJ) Hk Hh). lia.
Qed.

(** What the database calls active is held: in every state the protocol
    reaches, the node of an active allocation that should be present holds
    exactly the revision of that allocation, present. *)
Theorem active_is_held d g k a : sys_reachable (d, g) -> allocations d !! k = Some a -> a_state a = AActive ->
  a_desired_state a = DPresent -> held g (a_node_id a) (a_credential_id a) = (a_desired_revision a, DPresent).
Proof. intros HJ%J_reachable. by apply J_active_held. Qed.

(** What is served anywhere is allocated there, and not revoked: behind a
    configuration that a node's data plane runs, or would be started with,
    every present credential has an allocation on the node that is not
    revoked. *)
Lemma J_configs_allocated d g n cfg : J (d, g) -> configs g n cfg ->
  exists f, renders f cfg /\ forall c, snd (f c) = DPresent ->
    exists k a, allocations d !! k = Some a /\ a_credential_id a = c /\ a_node_id a = n /\ a_state a <> ARevoked.
Proof.
  intros HJ Hcfg. destruct (j_configs _ HJ n cfg Hcfg) as (f & Hf & [_ _ S3 S4]). exists f. split; [done|].
  intros c Hc. destruct (S3 c Hc) as (k & a & Hk & <- & <-). exists k, a. split_and!; [done..|].
  intros Hs. rewrite (S4 k a Hk eq_refl Hs) in Hc. done.
Qed.
Lemma J_held_allocated d g n c : J (d, g) -> snd (held g n c) = DPresent ->
  exists k a, allocations d !! k = Some a /\ a_credential_id a = c /\ a_node_id a = n /\ a_state a <> ARevoked.
Proof.
  intros HJ Hc. destruct (j_placed _ HJ n c Hc) as (k & a & Hk & <- & <-). exists k, a. split_and!; [done..|].
  intros Hs. pose proof (j_revoked _ HJ k a Hk Hs) as Hr. simpl in *. congruence.
Qed.

(** Nodes are not overloaded: the credentials a node really serves never
    outnumber its allocation counter, which stays below its capacity. *)
Theorem served_within_capacity d g k n cs : sys_reachable (d, g) -> nodes d !! k = Some n -> NoDup cs ->
  (forall c, c ∈ cs -> snd (held g k c) = DPresent) ->
  Z.of_nat (length cs) <= n_AllocatedClients (nd_node n) < n_CapacityLimit (nd_node n).
Proof.
  intros HJ%J_reachable Hn Hnd Hcs. pose proof (j_inv _ HJ) as HI. split.
  - rewrite (cap_count _ _ (inv_caps _ HI) k n Hn). apply inj_le. unfold count_where.
    rewrite <- (length_fmap a_credential_id). apply submseteq_length, NoDup_submseteq; [done|]. intros c Hc.
    destruct (j_placed _ HJ k c (Hcs c Hc)) as (j & a & Hj & <- & <-). apply list_elem_of_fmap_2, elem_where.
    split; [|eauto]. unfold holds. rewrite bool_decide_true by done. simpl. apply negb_true_iff, bool_decide_eq_false.
    intros Hs. pose proof (j_revoked _ HJ j a Hj Hs) as Hr. simpl in Hr. rewrite Hcs in Hr; done.
  - destruct (cap_limits _ _ (inv_caps _ HI) k n Hn). pose proof (cap_ceiling _ _ (inv_caps _ HI) k n Hn) as Hc.
    unfold node_ceiling in Hc. rewrite ceiling_div in Hc by lia.
    pose proof (Z.mul_div_le (n_CapacityLimit (nd_node n) * (100 - n_ReservePercent (nd_node n))) 100). nia.
Qed.

(** C24: a client is only told of endpoints that serve it: every endpoint in
    a provision-succeeded event belongs to a node that held the credential,
    present, at the event's revision when it was sent, or has been given a
    later one since. *)
Theorem announced_endpoints_serve d g k r i c rev st l eps t ep : sys_reachable (d, g) ->
  outbox d !! k = Some r -> env_Data (o_payload r) = ProvisionSucceeded i c rev st l eps t -> ep ∈ eps ->
  held g (ep_NodeID ep) c = (rev, DPresent) \/ rev < fst (held g (ep_NodeID ep) c).
Proof.
  intros HJ%J_reachable Hk He Hep. destruct (j_told _ HJ k r i c rev st l eps t ep Hk He Hep) as [H|H]; auto.
Qed.
End system.
