(* ===== verification/ProvisioningJobs.v ===== *)
(** * provisioning-service: the workers keep to the protocol

    Every call the operation, reconciliation, outbox and health workers make
    is a step of the protocol of ProvisioningSystem.v, whatever the answers
    they get and whatever the rest of the system does between two calls, as
    long as that, too, keeps to the protocol. *)

From Stdlib Require Import List.
From S2P Require Import Prelude GoStrings Backoff Platform Jobs ProvisioningDomain ProvisioningStore ProvisioningInv.
From S2P Require Import ProvisioningSteps ProvisioningPlacement ProvisioningSpec ProvisioningEvolution.
From S2P Require Import ProvisioningWorker ProvisioningSystem.

#[export] Instance provisioning_protocol {G E} `{!AgentClient G E, !AgentLaws G E} : Protocol (db * G) := {
  pstep := sys_step;
  pinv := J;
  pstep_keeps := J_step
}.

Section jobs.
Context {G E : Type} `{!AgentClient G E, !AgentLaws G E}.
Context (env : worker_env G E) (cfg : worker_config).
(** The others keep to the protocol. *)
Context (Hrely : relies (we_between env)).
Implicit Types s : db * G.

(** ** Assertions that others cannot break *)

Lemma step_settles s s' : J s -> sys_step s s' -> settles (operations (fst s)) (operations (fst s')).
Proof.
  intros HJ Hs. revert HJ. destruct Hs as [o d g Hp|e n v d g _]; intros HJ; [|apply settles_refl].
  apply (after_inv o d g HJ Hp).
Qed.
Lemma stable_genuine v : stable (fun s => genuine (fst s) v).
Proof. intros s s' HJ Hs. apply genuine_settles. by apply step_settles. Qed.
Lemma stable_asked c h : stable (fun s => asked (fst s) c h).
Proof. intros s s' HJ Hs. apply asked_settles. by apply step_settles. Qed.
Lemma step_held s s' n c : J s -> sys_step s s' -> hold_le (held (snd s) n c) (held (snd s') n c).
Proof.
  intros HJ Hs. revert HJ. destruct Hs as [o d g Hp|e m v d g _]; intros HJ; simpl; [done|]. destruct (agent_apply e m v g) as [x g'] eqn:Ea.
  destruct (agent_apply_ok _ _ _ _ _ _ (j_agents _ HJ) Ea) as (_ & Hheld & _). simpl.
  destruct (Hheld n c) as [->|(_ & _ & Hlt & ->)]; [done|]. by left.
Qed.
Lemma stable_held h n c : stable (fun s => hold_le h (held (snd s) n c)).
Proof. intros s s' HJ Hs Hle. eapply hold_le_trans; [exact Hle|]. by apply step_held. Qed.

(** An operation row of generation [rev] of credential [c]. *)
Definition op_known (i c : string) (rev : Z) (d : db) : Prop := exists q, operations d !! i = Some q /\
  op_credential_id q = c /\ op_desired_revision q = rev.
Lemma stable_op_known i c rev : stable (fun s => op_known i c rev (fst s)).
Proof.
  intros s s' HJ Hs (q & Hq & <- & <-). destruct (step_settles _ _ HJ Hs _ _ Hq) as (q' & Hq' & [= _ E1 _ E2 _ _ _ _] & _).
  exists q'. split_and!; congruence.
Qed.

(** The credential has an allocation on [n], of generation [rev] or later;
    if it is revoked by now, that was at [rev] or later. *)
Definition placed_at (c n : string) (rev : Z) s : Prop := exists k a, allocations (fst s) !! k = Some a /\
  a_credential_id a = c /\ a_node_id a = n /\ rev <= a_desired_revision a /\
  (a_state a = ARevoked -> rev <= fst (held (snd s) n c)).
Lemma stable_placed_at c n rev : stable (placed_at c n rev).
Proof.
  intros s s' HJ Hs (k & a & Hk & Hc & Hn & Hr & Hrev). 
  assert (rev <= fst (held (snd s) n c) -> rev <= fst (held (snd s') n c)) as Hup
    by (destruct (step_held _ _ n c HJ Hs) as [?|<-]; lia).
  revert HJ Hk Hrev Hup. destruct Hs as [o d g Hp|e m v d g Hm]; intros HJ Hk Hrev Hup; simpl in *; [|exists k, a; split_and!; auto].
  destruct (proj1 (exec_evolves o d (j_inv _ HJ)) k a Hk) as (a' & Hk' & He). exists k, a'.
  destruct (evolves_place _ _ _ _ _ He) as [-> ->]. split_and!; try done.
  - destruct He as [Hco _|Hco _|q _ _ Hlt _ _ _ _ _|now r _ Hco _ _|now r _ Hco _ _]; try (injection Hco as _ _ _ _ -> _; done).
    destruct (j_kind _ HJ k a Hk) as (q' & Hq' & _). destruct (generation_op _ _ _ _ (j_inv _ HJ) Hk Hq') as [E1 E2].
    specialize (Hlt _ _ Hq' E1). lia.
  - destruct He as [_ Hst|_ [Hst|Hst]|q _ _ _ _ _ _ Hst _|now r _ _ _ Hst|now r Ho Hco _ _]; intros Hs'; try congruence; auto.
    + apply Hrev. congruence.
    + simpl. rewrite <- Hc, <- Hn. rewrite (marked_revoked o d g HJ Hp k a now r Hk Ho). done.
Qed.

Definition unrevoked_known (c : string) (rev : Z) s : Prop :=
  (exists i, op_known i c rev (fst s)) /\ unrevoked (fst s) c rev.
Lemma stable_unrevoked c rev : stable (unrevoked_known c rev).
Proof.
  intros s s' HJ Hs [[i Hi] Hu]. split; [exists i; by eapply stable_op_known|].
  revert HJ Hi Hu. destruct Hs as [o d g Hp|e m v d g Hm]; intros HJ Hi Hu; simpl in *; [|done]. intros k a' Hk' Hc Hr Hd.
  destruct (after_row o d g HJ k a' Hk') as [(a & Hk & He)|(Hs & _)]; [|congruence].
  destruct (evolves_place _ _ _ _ _ He) as [Ec _].
  destruct He as [Hco Hst|Hco [Hst|Hst]|q _ _ Hlt _ _ _ _ _|now r _ Hco _ Hst|now r _ Hco Hab _]; try congruence.
  - rewrite Hst. injection Hco as _ _ _ _ Er Ed. eapply Hu; [exact Hk|congruence|congruence|congruence].
  - destruct Hi as (q' & Hq' & Hqc & Hqr). specialize (Hlt _ _ Hq'). rewrite Hqc, Hqr in Hlt.
    exfalso. assert (rev < a_desired_revision a') by (apply Hlt; congruence). lia.
  - injection Hco as _ _ _ _ _ Ed. congruence.
Qed.

(** ** Calls *)

(** A call on the store: a permitted operation, or a mere reading. *)
Definition silent (s : db * G) (d' : db) : Prop :=
  d' = fst s \/ exists o, permitted s o /\ d' = snd (exec o (fst s)).
Lemma silent_reaches s d' : silent s d' -> sys_reaches s (d', snd s).
Proof.
  destruct s as [d g]. intros [->|(o & Hp & ->)]; [apply rtc_refl|]. simpl. by apply rtc_once, step_store.
Qed.
Lemma triple_store {A} (P : db * G -> Prop) (m : nat -> prov_tx A) (F : A -> db * G -> Prop) :
  stable P -> (forall i s x d', J s -> P s -> in_tx (m i) (fst s) = (x, d') -> silent s d') ->
  (forall i s x d', J s -> P s -> in_tx (m i) (fst s) = (Ok x, d') -> J (d', snd s) -> F x (d', snd s)) ->
  triple P (store env m) (fun r s => P s /\ forall x, r = Ok x -> F x s).
Proof.
  intros HP Hs HF. apply triple_call_store; [exact Hrely|exact HP| |exact HF].
  intros i s x d' HJ HPs Hr. apply silent_reaches. by eapply Hs.
Qed.

Lemma triple_apply (P : db * G -> Prop) n v : stable P -> (forall s, J s -> P s -> may_apply s n v) ->
  triple P (agents_apply env n v) (fun r s => P s /\ forall x, r = Ok x -> ar_OperationID x = ad_OperationID v ->
    ar_CredentialID x = ad_CredentialID v -> ar_DesiredRevision x = ad_DesiredRevision v -> ar_State x = ad_State v ->
    hold_le (ad_DesiredRevision v, ad_State v) (held (snd s) (n_ID n) (ad_CredentialID v))).
Proof.
  intros HP Hm. apply triple_call; [exact Hrely|exact HP|]. intros i [d g] r s' HJ Hs. simpl.
  destruct (agent_apply (we_agent env i) n v g) as [y g'] eqn:Er. intros [= <- <-].
  destruct (agent_apply_ok _ _ _ _ _ _ (j_agents _ HJ) Er) as (_ & _ & Hok). split.
  - apply rtc_once. assert (g' = snd (agent_apply (we_agent env i) n v g)) as -> by (by rewrite Er).
    apply (step_agent (we_agent env i)). by apply Hm.
  - intros _ x ->. by apply Hok.
Qed.

Lemma triple_state (P : db * G -> Prop) n c : stable P ->
  triple P (agents_credential_state env n c) (fun r s => P s /\ forall x, r = Ok x ->
    hold_le (ac_DesiredRevision x, ac_State x) (held (snd s) (n_ID n) c)).
Proof.
  intros HP. apply (triple_ask (we_between env) Hrely P
    (fun i s => agent_credential_state (we_agent env i) n c (snd s))
    (fun r s => forall x, r = Ok x -> hold_le (ac_DesiredRevision x, ac_State x) (held (snd s) (n_ID n) c)) HP).
  intros i s HJ _ x Hx. rewrite (agent_state_ok _ _ _ _ _ (j_agents _ HJ) Hx). by right.
Qed.

Lemma silent_op {A} s o (m : prov_tx A) x d' : permitted s o -> exec o (fst s) = outcome m (fst s) ->
  in_tx m (fst s) = (x, d') -> silent s d'.
Proof. intros Hp He Hr. right. exists o. split; [done|]. by rewrite He, outcome_snd, Hr. Qed.
(** A call whose answer tells nothing. *)
Lemma triple_op {A} (P : db * G -> Prop) (m : nat -> prov_tx A) (o : nat -> op) :
  stable P -> (forall i s, J s -> P s -> permitted s (o i)) -> (forall i d, exec (o i) d = outcome (m i) d) ->
  triple P (store env m) (fun _ s => P s).
Proof.
  intros HP Ho He. eapply triple_conseq.
  - apply (triple_store P m (fun _ _ => True) HP); [|done]. intros i s x d' HJ Hs Hr.
    by apply (silent_op s (o i) (m i) x d'); [apply Ho|apply He|].
  - done.
  - by intros r s _ [? _].
Qed.
(** ** The operation worker *)

Section operation.
Context (v : Operation).

Definition own s : Prop := genuine (fst s) v.
Lemma own_known s : own s -> op_known (ID v) (CredentialID v) (DesiredRevision v) (fst s).
Proof. intros (q & Hq & [= _ E2 _ E4 _ _ _ _]). exists q. by split_and!. Qed.
Lemma own_asked s : own s -> asked (fst s) (CredentialID v) (DesiredRevision v, kind_state (OpKind v)).
Proof. intros (q & Hq & [= _ E2 E3 E4 _ _ _ _]). exists (ID v), q. simpl. rewrite E3. by split_and!. Qed.
Lemma own_marked s n x : own s -> hold_le (DesiredRevision v, x) (held (snd s) n (CredentialID v)) ->
  exists q, operations (fst s) !! ID v = Some q /\
    hold_le (op_desired_revision q, x) (held (snd s) n (op_credential_id q)).
Proof. intros (q & Hq & Ec & Er)%own_known Hle. exists q. split; [done|]. by rewrite Ec, Er. Qed.

Lemma triple_retryOrFailProvision sc r pe P : stable P -> (forall s, P s -> own s) ->
  triple P (retryOrFailProvision env cfg v sc r pe) (fun _ s => P s).
Proof.
  intros HP Ho. unfold retryOrFailProvision. destruct (_ <=? _).
  - apply (triple_op P _ (fun i => OpCompleteProvisionFailure (we_now env i) (we_wall env i) (drawn env i 0) v sc r pe));
      [done| |done]. intros i s _ Hs. by apply Ho.
  - by apply (triple_op P _ (fun i => OpRetryOperation (we_now env i) (ID v) r (backoff cfg v))).
Qed.
Lemma triple_retryOrFailRevoke r pe P : stable P -> (forall s, P s -> own s) ->
  triple P (retryOrFailRevoke env cfg v r pe) (fun _ s => P s).
Proof.
  intros HP Ho. unfold retryOrFailRevoke. destruct (_ <=? _).
  - apply (triple_op P _ (fun i => OpCompleteRevokeFailure (we_now env i) (we_wall env i) (drawn env i 0) v r pe));
      [done| |done]. intros i s _ Hs. by apply Ho.
  - by apply (triple_op P _ (fun i => OpRetryOperation (we_now env i) (ID v) r (backoff cfg v))).
Qed.
Lemma triple_failed n r P : stable P -> triple P (do_MarkAllocationFailed env (ID v) n r) (fun _ s => P s).
Proof. intros HP. by apply (triple_op P _ (fun _ => OpMarkFailed (ID v) n r)). Qed.

(** What the answer of an agent proves once it was checked. *)
Lemma valid_result r x : validAgentResult r v x = true ->
  ar_OperationID r = ID v /\ ar_CredentialID r = CredentialID v /\ ar_DesiredRevision r = DesiredRevision v /\ ar_State r = x.
Proof. unfold validAgentResult. rewrite !andb_true_iff, !bool_decide_eq_true, Z.eqb_eq. tauto. Qed.

(** The views of the allocations that were placed for the operation. *)
Definition provisioning (l : list Allocation) s : Prop :=
  own s /\ unrevoked_known (CredentialID v) (DesiredRevision v) s /\
  forall a, a ∈ l -> placed_at (CredentialID v) (n_ID (al_Node a)) (DesiredRevision v) s.
Lemma stable_provisioning l : stable (provisioning l).
Proof.
  apply stable_and; [apply stable_genuine|]. apply stable_and; [apply stable_unrevoked|].
  apply stable_all. intros a. apply stable_impl, stable_placed_at.
Qed.
Lemma provisioning_sub l l' s : (forall a, a ∈ l' -> a ∈ l) -> provisioning l s -> provisioning l' s.
Proof. intros Hl (H1 & H2 & H3). split_and!; auto. Qed.

Lemma triple_apply_all material l : OpKind v = Provision ->
  triple (provisioning l) (apply_all env v material l) (fun _ s => provisioning [] s).
Proof.
  intros Hkd. induction l as [|a l IH]; simpl.
  { apply triple_ret. intros s _ H. exact H. }
  assert (forall s, provisioning (a :: l) s -> provisioning l s) as Hsub
    by (intros s; apply provisioning_sub; intros x; by right).
  destruct (bool_decide (al_State a = AActive)); [by eapply triple_conseq; [exact IH|exact Hsub|]|].
  eapply triple_bind.
  - apply triple_apply; [apply (stable_provisioning (a :: l))|]. intros s HJ (Ho & _ & Hp). split; simpl.
    + apply own_asked in Ho. by rewrite Hkd in Ho.
    + intros _. destruct (Hp a) as (k & x & Hk & Hc & Hn & _ & Hr); [left|]. by exists k, x.
  - intros [r|e]; cbv beta iota.
    + destruct (validAgentResult r v DPresent) eqn:Hv.
      * apply valid_result in Hv as (E1 & E2 & E3 & E4). eapply triple_bind.
        -- eapply (triple_weaken _ (fun s => provisioning (a :: l) s /\
             hold_le (DesiredRevision v, DPresent) (held (snd s) (n_ID (al_Node a)) (CredentialID v)))).
           ++ apply (triple_op _ _
                (fun i => OpMarkApplied (we_now env i) (ID v) (n_ID (al_Node a)) (ar_ConfigRevision r))); [| |done].
              ** apply stable_and; [apply stable_provisioning|apply stable_held].
              ** intros i s _ [(Ho & _) Hle]. by apply own_marked.
           ++ intros s [? Hle]. split; [done|]. by apply (Hle r).
        -- intros [u|e]; [by eapply triple_conseq; [exact IH|intros s [? _]; by apply Hsub|]|].
           apply triple_ret. intros s _ [? _]. eapply provisioning_sub; [|done]. intros x Hx. by apply not_elem_of_nil in Hx.
      * eapply triple_bind; [eapply triple_weaken; [apply (triple_failed _ _ (provisioning (a :: l))), stable_provisioning|exact (fun s Hs => proj1 Hs)]|]. intros r'.
        by eapply triple_conseq; [exact IH|exact Hsub|].
    + eapply triple_bind; [eapply triple_weaken; [apply (triple_failed _ _ (provisioning (a :: l))), stable_provisioning|exact (fun s Hs => proj1 Hs)]|]. intros r'.
      by eapply triple_conseq; [exact IH|exact Hsub|].
Qed.

(** A listing tells what the rows said. *)
Lemma in_listing s c a : J s -> a ∈ listAllocations (fst s) c -> exists k x n, allocations (fst s) !! k = Some x /\
  a_credential_id x = c /\ a_node_id x = n_ID (nd_node n) /\ a = allocation_view x n.
Proof.
  intros HJ Ha. pose proof (listAllocations_rows (fst s) c (j_inv _ HJ)) as H2.
  apply list_elem_of_lookup_1 in Ha as [i Hi]. destruct (Forall2_lookup_r _ _ _ _ _ H2 Hi) as (x & Hx & n & _ & Hn & ->).
  apply list_elem_of_lookup_2 in Hx. unfold allocation_rows in Hx.
  apply elem_order_by, elem_where in Hx as [Hc%bool_decide_eq_true (k & Hk)]. exists k, x, n. by split_and!.
Qed.
Definition active_backed (l : list Allocation) s : Prop := forall a, a ∈ l -> al_State a = AActive ->
  al_DesiredState a = DPresent -> hold_le (al_DesiredRevision a, DPresent) (held (snd s) (n_ID (al_Node a)) (CredentialID v)).
Lemma stable_active_backed l : stable (active_backed l).
Proof.
  apply stable_all. intros a. apply stable_impl. apply stable_impl, stable_impl, stable_held.
Qed.
Lemma triple_list P : stable P ->
  triple P (do_ListAllocations env (CredentialID v)) (fun r s => P s /\ forall l, r = Ok l -> active_backed l s).
Proof.
  intros HP. apply triple_store; [done| |].
  - intros i s x d' HJ Hs. unfold in_tx, ListAllocations. rewrite run_get. intros [= _ <-]. by left.
  - intros i s l d' HJ Hs. unfold in_tx, ListAllocations. rewrite run_get. intros [= <- <-] HJ'. cbn [working].
    intros a Ha Hst Hd. destruct (in_listing s _ a HJ Ha) as (k & x & n & Hk & Hc & Hn & ->). simpl in *.
    rewrite <- Hc, <- Hn. by eapply (j_active _ HJ).
Qed.
Lemma matching l x a : allocationsMatchOperation l v x = true -> a ∈ l ->
  al_DesiredOperationID a = ID v /\ al_DesiredRevision a = DesiredRevision v /\ al_DesiredState a = x.
Proof.
  unfold allocationsMatchOperation. rewrite forallb_forall. intros H Ha%list_elem_of_In. specialize (H a Ha).
  rewrite !andb_true_iff, !bool_decide_eq_true, Z.eqb_eq in H. tauto.
Qed.

Lemma triple_conclude_provision : OpKind v = Provision ->
  triple (provisioning []) (conclude_provision env cfg v) (fun _ _ => True).
Proof.
  intros Hkd. unfold conclude_provision. eapply triple_bind; [apply triple_list, (stable_provisioning [])|].
  assert (forall P sc r pe, stable P -> (forall s, P s -> own s) ->
    triple P (retryOrFailProvision env cfg v sc r pe) (fun _ _ => True)) as Hretry.
  { intros P sc r pe HP Ho. eapply triple_conseq; [by apply (triple_retryOrFailProvision sc r pe P)|done|done]. }
  intros [l|e]; cbv beta iota.
  2: { eapply triple_conseq; [apply (Hretry (provisioning []))| |done]; [apply stable_provisioning|by intros s [? _]|].
       exact (fun s Hs => proj1 Hs). }
  destruct (allocationsMatchOperation l v DPresent) eqn:Hm; simpl; [|by apply triple_ret].
  assert (forall Q (m : job (db * G) Q), triple (fun s => provisioning [] s /\ active_backed l s) m (fun _ _ => True) ->
    triple (fun s => provisioning [] s /\ forall l', Ok (E:=ProvErr) l = Ok l' -> active_backed l' s) m (fun _ _ => True)) as Hpre.
  { intros Q m H. eapply triple_conseq; [exact H| |done]. intros s [? Hl]. split; [done|]. by apply Hl. }
  assert (stable (fun s => provisioning [] s /\ active_backed l s)) as Hst
    by (apply stable_and; [apply stable_provisioning|apply stable_active_backed]).
  assert (forall status, triple (fun s => provisioning [] s /\ active_backed l s) (do_CompleteProvision env v status l)
    (fun _ _ => True)) as Hcomplete.
  { intros status. eapply triple_conseq.
    - apply (triple_op _ _ (fun i => OpCompleteProvision (we_now env i) (we_wall env i) (drawn env i 0) v status l));
        [exact Hst| |done]. intros i s _ [(Ho & [_ Hu] & _) Hl]. split; [exact Ho|]. split; [exact Hu|].
      intros a Ha Hact. destruct (matching l _ a Hm Ha) as (_ & Er & Ed). rewrite <- Er. by apply Hl.
    - done.
    - done. }
  apply Hpre. destruct (roleActive l Primary); simpl.
  2: { apply Hretry; [exact Hst|]. by intros s [[? _] _]. }
  destruct (roleActive l Failover); simpl; [apply Hcomplete|].
  destruct (_ <=? _); [apply Hcomplete|]. eapply triple_conseq.
  - by apply (triple_op _ _ (fun i => OpRetryOperation (we_now env i) (ID v) "failover_apply_failed" (backoff cfg v)) Hst).
  - done.
  - done.
Qed.

Lemma triple_ensure placement protocol : OpKind v = Provision ->
  triple own (do_EnsureAllocations env v placement protocol)
    (fun r s => own s /\ forall l, r = Ok l -> provisioning l s).
Proof.
  intros Hkd. apply triple_store; [apply stable_genuine| |].
  - intros i s x d' HJ Ho. apply (silent_op s (OpEnsureAllocations (we_now env i) (we_locked env i) (drawn env i 0)
      (drawn env i 1) v placement protocol)); [by split|done].
  - intros i s l d' HJ Ho Hr HJ'. unfold in_tx in Hr. destruct (EnsureAllocations _ _ _ _ _ _ _ _) as [y t'] eqn:Ee.
    injection Hr as -> <-. apply EnsureAllocations_run in Ee as [(e & ? & _)|(Hcur & _ & _ & d' & He & [= ->] & ->)]; [done|].
    simpl in *. destruct (good_ensured _ _ _ _ _ _ _ _ _ (j_inv _ HJ) Hcur He) as [HI' Hset].
    destruct (ensured_effect _ _ _ _ _ _ _ _ _ (j_inv _ HJ) He) as (kp & kf & ap & af & Hp & Hf & _ & _ & Rp & Rf & Honly & _).
    assert (own (d', snd s)) as Ho' by (eapply genuine_settles; [exact Hset|exact Ho]).
    assert (forall k a, allocations d' !! k = Some a -> a_credential_id a = CredentialID v ->
      a_desired_revision a = DesiredRevision v /\ a_state a = APending) as Hrows.
    { intros k a Hk Hc. destruct (Honly k a Hk Hc) as [->| ->]; [assert (a = ap) as -> by congruence; destruct Rp|
        assert (a = af) as -> by congruence; destruct Rf]; tauto. }
    split; [done|]. split.
    + split; [exists (ID v); by apply own_known|]. intros k a Hk Hc _ _. destruct (Hrows k a Hk Hc). congruence.
    + intros a Ha. destruct (in_listing (d', snd s) _ a HJ' Ha) as (k & x & n & Hk & Hc & Hn & ->).
      destruct (Hrows k x Hk Hc) as [Er Es]. exists k, x. simpl in *. split_and!; try done; [lia|congruence].
Qed.

Lemma triple_provision : OpKind v = Provision -> triple own (provision env cfg v) (fun _ _ => True).
Proof.
  intros Hkd. assert (forall sc r pe, triple own (retryOrFailProvision env cfg v sc r pe) (fun _ _ => True)) as Hretry.
  { intros sc r pe. eapply triple_conseq; [apply (triple_retryOrFailProvision sc r pe own); [apply stable_genuine|done]|done|done]. }
  unfold provision. eapply triple_bind;
    [apply (triple_aside _ Hrely own), stable_genuine|]. intros [material|e]; [|apply Hretry].
  destruct (validMaterial _ _); simpl; [|apply Hretry].
  eapply triple_bind;
    [apply (triple_aside _ Hrely own), stable_genuine|]. intros [placement|e]; [|apply Hretry].
  destruct (validPlacement _ _); simpl; [|apply Hretry].
  eapply triple_bind; [by apply triple_ensure|]. intros [l|e]; cbv beta iota.
  - destruct (allocationsMatchOperation _ _ _); simpl; [|by apply triple_ret].
    eapply triple_bind; [eapply triple_weaken; [by apply (triple_apply_all material l)|]|].
    + intros s [_ Hl]. by apply Hl.
    + intros [u|e]; [by apply triple_conclude_provision|by apply triple_ret].
  - destruct e; (eapply triple_conseq; [apply Hretry|exact (fun s Hs => proj1 Hs)|done]).
Qed.

Lemma triple_revoke_all l : OpKind v = Revoke -> triple own (revoke_all env v l) (fun _ s => own s).
Proof.
  intros Hkd. induction l as [|a l IH]; simpl.
  { apply triple_ret. intros s _ H. exact H. }
  destruct (bool_decide (al_State a = ARevoked)); [exact IH|]. eapply triple_bind.
  - apply triple_apply; [apply stable_genuine|]. intros s HJ Ho. split; simpl; [|done].
    apply own_asked in Ho. by rewrite Hkd in Ho.
  - assert (triple own (_ ← do_MarkAllocationFailed env (ID v) (n_ID (al_Node a)) "agent_revoke_failed"; revoke_all env v l)
      (fun _ s => own s)) as Hfail.
    { eapply triple_bind; [apply (triple_failed _ _ own), stable_genuine|]. intros r'. exact IH. }
    intros [r|e]; cbv beta iota.
    2: { eapply triple_conseq; [exact Hfail|exact (fun s Hs => proj1 Hs)|done]. }
    destruct (validAgentResult r v DAbsent) eqn:Hv.
    2: { eapply triple_conseq; [exact Hfail|exact (fun s Hs => proj1 Hs)|done]. }
    apply valid_result in Hv as (E1 & E2 & E3 & E4). eapply triple_bind.
    + eapply (triple_weaken _ (fun s => own s /\
        hold_le (DesiredRevision v, DAbsent) (held (snd s) (n_ID (al_Node a)) (CredentialID v)))).
      * apply (triple_op _ _
          (fun i => OpMarkRevoked (we_now env i) (ID v) (n_ID (al_Node a)) (ar_ConfigRevision r))); [| |done].
        -- apply stable_and; [apply stable_genuine|apply stable_held].
        -- intros i s _ [Ho Hle]. by apply own_marked.
      * intros s [? Hle]. split; [done|]. by apply (Hle r).
    + intros [u|e]; [eapply triple_conseq; [exact IH|exact (fun s Hs => proj1 Hs)|done]|].
      apply triple_ret. intros s _ Hs. exact (proj1 Hs).
Qed.

Lemma triple_revoke : OpKind v = Revoke -> triple own (revoke env cfg v) (fun _ _ => True).
Proof.
  intros Hkd. assert (forall P r pe, (forall s, P s -> own s) -> triple P (retryOrFailRevoke env cfg v r pe) (fun _ _ => True)) as Hretry.
  { intros P r pe HP. eapply (triple_conseq _ own);
      [apply (triple_retryOrFailRevoke r pe own); [apply stable_genuine|done]|exact HP|done]. }
  assert (triple own (conclude_revoke env cfg v) (fun _ _ => True)) as Hconclude.
  { unfold conclude_revoke. eapply triple_bind; [apply triple_list, stable_genuine|].
    intros [l|e]; [|apply Hretry; exact (fun s Hs => proj1 Hs)].
    destruct (allocationsMatchOperation _ _ _); simpl; [|by apply triple_ret].
    destruct (unrevokedNodeIDs l); [|apply Hretry; exact (fun s Hs => proj1 Hs)].
    eapply (triple_conseq _ own); [|exact (fun s Hs => proj1 Hs)|done].
    - apply (triple_op own _ (fun i => OpCompleteRevoke (we_now env i) (we_wall env i) (drawn env i 0) v l));
        [apply stable_genuine| |done]. by intros i s _ Ho. }
  assert (triple own (read ← do_ListAllocations env (CredentialID v);
    match read with
    | Err _ => retryOrFailRevoke env cfg v "allocation_read_failed" []
    | Ok allocations =>
        if negb (allocationsMatchOperation allocations v DAbsent) then mret (Err ErrConflict)
        else revoked ← revoke_all env v allocations;
          match revoked with Err e => mret (Err e) | Ok _ => conclude_revoke env cfg v end
    end) (fun _ _ => True)) as Hread.
  { eapply triple_bind; [apply triple_list, stable_genuine|].
    intros [l|e]; [|apply Hretry; exact (fun s Hs => proj1 Hs)].
    destruct (allocationsMatchOperation _ _ _); simpl; [|by apply triple_ret].
    eapply triple_bind; [eapply triple_weaken; [by apply triple_revoke_all|exact (fun s Hs => proj1 Hs)]|].
    intros [u|e]; [exact Hconclude|by apply triple_ret]. }
  unfold revoke. eapply triple_bind.
  - apply (triple_op own _ (fun i => OpPrepareRevoke (we_now env i) v)); [apply stable_genuine|done|done].
  - intros [u|[]]; try exact Hread; by apply Hretry.
Qed.
End operation.

Lemma claimed_genuine i s lease v d' : J s ->
  in_tx (ClaimOperation (we_now env i) lease (we_locked env i)) (fst s) = (Ok (Some v), d') -> genuine d' v.
Proof.
  intros HJ. unfold in_tx, ClaimOperation. rewrite run_get. cbn [working].
  destruct (first_by _ _ _) as [o|]; [|done]. rewrite run_modify, run_commit. simpl. intros [= <- <-].
  unfold genuine. simpl. rewrite lookup_insert_eq. by eexists.
Qed.

Lemma triple_workOnce : triple (fun _ => True) (workOnce env cfg) (fun _ _ => True).
Proof.
  unfold workOnce. eapply triple_bind.
  - apply (triple_store (fun _ => True) (fun i => ClaimOperation (we_now env i) (wc_lease cfg) (we_locked env i))
      (fun x s => forall v, x = Some v -> genuine (fst s) v)); [done| |].
    + intros i s x d' HJ _. by apply (silent_op s (OpClaimOperation (we_now env i) (wc_lease cfg) (we_locked env i))).
    + intros i s x d' HJ _ Hr HJ' v ->. exact (claimed_genuine i s _ v d' HJ Hr).
  - intros [[v|]|e]; [|by apply triple_ret|by apply triple_ret].
    assert (forall m : job (db * G) (result ProvErr unit), triple (own v) m (fun _ _ => True) ->
      triple (fun s => True /\ forall x, Ok (E:=ProvErr) (Some v) = Ok x -> forall v0, x = Some v0 -> genuine (fst s) v0) m
        (fun _ _ => True)) as Hpre.
    { intros m H. eapply triple_conseq; [exact H| |done]. intros s [_ Hg]. by apply (Hg (Some v)). }
    destruct (OpKind v) eqn:Hk; apply Hpre; [by apply triple_provision|by apply triple_revoke].
Qed.

(** ** The reconciliation worker *)

Definition candidate (a : Allocation) s : Prop :=
  op_known (al_DesiredOperationID a) (al_CredentialID a) (al_DesiredRevision a) (fst s) /\
  asked (fst s) (al_CredentialID a) (al_DesiredRevision a, al_DesiredState a) /\
  (al_DesiredState a = DPresent -> placed_at (al_CredentialID a) (n_ID (al_Node a)) (al_DesiredRevision a) s).
Lemma stable_candidate a : stable (candidate a).
Proof.
  apply stable_and; [apply stable_op_known|]. apply stable_and; [apply stable_asked|]. apply stable_impl, stable_placed_at.
Qed.
Definition held_in_force (a : Allocation) s : Prop :=
  hold_le (al_DesiredRevision a, al_DesiredState a) (held (snd s) (n_ID (al_Node a)) (al_CredentialID a)).

Section reconcile_one.
Context (P : db * G -> Prop) (a : Allocation).
Context (HP : stable P) (Hcand : forall s, P s -> candidate a s).

Lemma marked_in_force s : P s -> held_in_force a s -> exists q, operations (fst s) !! al_DesiredOperationID a = Some q /\
  hold_le (op_desired_revision q, al_DesiredState a) (held (snd s) (n_ID (al_Node a)) (op_credential_id q)).
Proof. intros Hs Hf. destruct (Hcand s Hs) as ((q & Hq & Ec & Er) & _). exists q. split; [done|]. by rewrite Ec, Er. Qed.
Lemma triple_recordConvergence rev : triple (fun s => P s /\ held_in_force a s) (recordConvergence env a rev) (fun _ s => P s).
Proof.
  assert (stable (fun s => P s /\ held_in_force a s)) as Hst by (apply stable_and; [exact HP|apply stable_held]).
  assert (forall x : result ProvErr unit, triple (fun s => P s /\ held_in_force a s) (mret x) (fun _ s => P s)) as Hret
    by (intros x; apply triple_ret; intros s _ H; exact (proj1 H)).
  pose proof marked_in_force as Hm. unfold recordConvergence. destruct (rev <? 1); [apply Hret|].
  destruct (al_DesiredState a) eqn:Ed; (destruct (bool_decide _); [apply Hret|]);
    (eapply (triple_conseq _ (fun s => P s /\ held_in_force a s) _ _ (fun _ s => P s /\ held_in_force a s));
      [|done|intros x s _ H; exact (proj1 H)]).
  - apply (triple_op _ _ (fun i => OpMarkApplied (we_now env i) (al_DesiredOperationID a) (n_ID (al_Node a)) rev));
      [exact Hst| |done]. intros i s _ [Hs Hf]. by apply Hm.
  - apply (triple_op _ _ (fun i => OpMarkRevoked (we_now env i) (al_DesiredOperationID a) (n_ID (al_Node a)) rev));
      [exact Hst| |done]. intros i s _ [Hs Hf]. by apply Hm.
Qed.

Lemma triple_converge desired : ad_CredentialID desired = al_CredentialID a ->
  ad_DesiredRevision desired = al_DesiredRevision a -> ad_State desired = al_DesiredState a ->
  triple P (converge env a desired) (fun _ s => P s).
Proof.
  intros E2 E3 E4. unfold converge. eapply triple_bind.
  - apply triple_apply; [exact HP|]. intros s _ Hs. destruct (Hcand s Hs) as (_ & Ha & Hp). unfold may_apply.
    rewrite E2, E3, E4. split; [done|]. intros Hd. destruct (Hp Hd) as (k & x & Hk & Hc & Hn & _ & Hr). by exists k, x.
  - intros [r|e]; [|apply triple_ret; intros s _ H; exact (proj1 H)].
    destruct (valid_convergence r desired) eqn:Hv; [|apply triple_ret; intros s _ H; exact (proj1 H)].
    unfold valid_convergence in Hv. rewrite !andb_true_iff, !bool_decide_eq_true, Z.eqb_eq in Hv.
    destruct Hv as (((((V1 & V2) & V3) & V4) & _) & _).
    eapply triple_weaken; [apply triple_recordConvergence|]. intros s [Hs Hl]. split; [done|]. unfold held_in_force.
    rewrite <- E2, <- E3, <- E4. by apply (Hl r).
Qed.

Lemma triple_reconcileOne : triple P (reconcileOne env a) (fun _ s => P s).
Proof.
  assert (forall (R : db * G -> Prop) (x : result ProvErr unit), (forall s, R s -> P s) ->
    triple R (mret x) (fun _ s => P s)) as Hret by (intros R x HR; apply triple_ret; auto).
  unfold reconcileOne. eapply triple_bind; [by apply triple_state|].
  intros [actual|e]; [|apply Hret; intros s H; exact (proj1 H)].
  destruct (_ <? _); [apply Hret; intros s H; exact (proj1 H)|].
  destruct ((ac_DesiredRevision actual =? al_DesiredRevision a) && bool_decide (ac_State actual = al_DesiredState a)) eqn:Es.
  - apply andb_true_iff in Es as [Er%Z.eqb_eq Est%bool_decide_eq_true].
    eapply triple_weaken; [apply triple_recordConvergence|]. intros s [Hs Hl]. split; [done|]. unfold held_in_force.
    rewrite <- Er, <- Est. by apply (Hl actual).
  - eapply (triple_weaken _ P); [|intros s H; exact (proj1 H)].
    destruct (al_DesiredState a) eqn:Ed; [|by apply triple_converge].
    eapply triple_bind;
      [apply (triple_aside _ Hrely P), HP|].
    intros [material|e]; [|by apply Hret].
    match goal with |- triple _ (if ?b then _ else _) _ => destruct b end; [|by apply Hret]. by apply triple_converge.
Qed.
End reconcile_one.

Lemma lease_views now lease d l cl t x t' : lease_candidates now lease d l cl t = (x, t') ->
  exists cs, x = Ok cs /\ forall c, c ∈ cs -> exists r, r ∈ l /\ join_node d r = Some (rc_Allocation c).
Proof.
  revert cl t x t'. induction l as [|r l IH]; intros [|claim cl] t x t'; simpl; try (intros [= <- _]; exists []; split; [done|set_solver]).
  rewrite run_modify. unfold bind. destruct (lease_candidates _ _ _ _ _ _) as [y t1] eqn:E1.
  apply IH in E1 as (cs & -> & Hcs). intros [= <- _]. eexists. split; [done|]. intros c Hc.
  destruct (join_node d r) as [view|] eqn:Ev.
  - apply elem_of_cons in Hc as [->|Hc]; [exists r; split; [left|done]|].
    destruct (Hcs c Hc) as (r' & Hr' & ?). exists r'. split; [by right|done].
  - destruct (Hcs c Hc) as (r' & Hr' & ?). exists r'. split; [by right|done].
Qed.

Lemma claimed_candidates i s limit lease cs d' : J s ->
  in_tx (ClaimReconciliationCandidates (we_now env i) limit lease (we_locked env i) (we_draw env i)) (fst s) = (Ok cs, d') ->
  forall c, c ∈ cs -> candidate (rc_Allocation c) s.
Proof.
  intros HJ. unfold in_tx, ClaimReconciliationCandidates, require. destruct (_ && _); [|done].
  rewrite run_ret, run_get. cbn [working]. unfold bind.
  destruct (lease_candidates _ _ _ _ _ _) as [x t1] eqn:El. apply lease_views in El as (cs0 & -> & Hcs).
  unfold commit, ret. intros [= <- _] c Hc. destruct (Hcs c Hc) as (r & Hr & Hj). apply list_elem_of_In in Hr.
  assert (r ∈ where_ (reconcilable (we_now env i) (we_locked env i) (fst s)) (allocations (fst s))) as Hin.
  { apply (elem_order_by by_reconcile). apply list_elem_of_In in Hr. revert Hr. apply subseteq_take. }
  apply elem_where in Hin as [Hrec (k & Hk)]. unfold join_node in Hj. apply fmap_Some in Hj as (n & Hn & Ec).
  unfold reconcilable in Hrec. rewrite !andb_true_iff in Hrec. destruct Hrec as (((( _ & Ho) & _) & _) & _).
  destruct (operations (fst s) !! a_desired_operation_id r) as [o|] eqn:Eo; [|done]. apply bool_decide_eq_true in Ho.
  destruct (generation_op _ _ _ _ (j_inv _ HJ) Hk Eo) as [G1 G2].
  destruct (j_kind _ HJ k r Hk) as (q & Hq & Hkd). assert (q = o) as -> by congruence.
  rewrite Ec. split_and!; simpl.
  - by exists o.
  - by exists (a_desired_operation_id r), o.
  - intros Hd. exists k, r. rewrite (cap_key _ _ (inv_caps _ (j_inv _ HJ)) _ _ Hn). split_and!; try done.
    intros Hrev. exfalso. destruct Ho as [Ho|Ho]; [congruence|]. by apply (j_served _ HJ k r o).
Qed.

Lemma triple_reconcile_each l :
  triple (fun s => forall c, c ∈ l -> candidate (rc_Allocation c) s) (reconcile_each env cfg l) (fun _ _ => True).
Proof.
  induction l as [|c l IH]; simpl; [by apply triple_ret|].
  assert (stable (fun s => forall x, x ∈ c :: l -> candidate (rc_Allocation x) s)) as Hst.
  { apply stable_all. intros x. apply stable_impl, stable_candidate. }
  eapply triple_bind.
  - apply (triple_reconcileOne _ (rc_Allocation c) Hst). intros s Hs. apply Hs. left.
  - intros r1. eapply triple_bind.
    + apply (triple_op _ _ (fun i => OpReschedule (we_now env i) (al_ID (rc_Allocation c)) (rc_ClaimID c) (wc_interval cfg)) Hst);
        done.
    + intros r2. eapply triple_conseq; [exact IH| |done]. intros s Hs x Hx. apply Hs. by right.
Qed.
Lemma triple_reconcile : triple (fun _ => True) (reconcile env cfg) (fun _ _ => True).
Proof.
  unfold reconcile. eapply triple_bind.
  - apply (triple_store (fun _ => True) _ (fun cs s => forall c, c ∈ cs -> candidate (rc_Allocation c) s)); [done| |].
    + intros i s x d' HJ _. by apply (silent_op s (OpClaimReconciliation (we_now env i) (wc_batch cfg)
        (reconcile_lease (wc_interval cfg)) (we_locked env i) (we_draw env i))).
    + intros i s cs d' HJ _ Hr HJ' c Hc. apply (stable_rtc _ s (d', snd s) (stable_candidate (rc_Allocation c)) HJ).
      * apply silent_reaches. by eapply (silent_op s (OpClaimReconciliation (we_now env i) (wc_batch cfg)
          (reconcile_lease (wc_interval cfg)) (we_locked env i) (we_draw env i))).
      * by eapply claimed_candidates.
  - intros [cs|e]; [|by apply triple_ret]. eapply triple_conseq; [apply triple_reconcile_each| |done].
    intros s [_ H]. by apply H.
Qed.

(** ** The outbox and health workers *)

Lemma triple_any {A} (m : nat -> prov_tx A) (o : nat -> op) :
  (forall i s, permitted s (o i)) -> (forall i d, exec (o i) d = outcome (m i) d) ->
  triple (fun _ => True) (store env m) (fun _ _ => True).
Proof. intros H1 H2. by apply (triple_op _ _ o). Qed.
Lemma triple_publishOnce : triple (fun _ => True) (publishOnce env cfg) (fun _ _ => True).
Proof.
  unfold publishOnce. eapply triple_bind;
    [by apply (triple_any _ (fun i => OpClaimOutbox (we_now env i) (wc_lease cfg) (we_locked env i)))|].
  intros [[m|]|e]; [|by apply triple_ret|by apply triple_ret].
  eapply triple_bind; [by apply (triple_aside _ Hrely (fun _ => True))|]. intros [|].
  - by apply (triple_any _ (fun i => OpCompleteOutbox (we_now env i) (o_event_id m))).
  - by apply (triple_any _ (fun i => OpRetryOutbox (we_now env i)
      (retryBackoff (wc_retryDelay cfg) (o_attempts m) (o_event_id m)) (o_event_id m))).
Qed.
Lemma triple_poll : triple (fun _ => True) (poll env cfg) (fun _ _ => True).
Proof.
  unfold poll. eapply triple_bind.
  - apply (triple_store (fun _ => True) (fun _ => ListNodes) (fun _ _ => True)); [done| |done].
    intros i s x d' _ _. unfold in_tx, ListNodes. rewrite run_get. intros [= _ <-]. by left.
  - intros [l|e]; [|by apply triple_ret]. eapply (triple_weaken _ (fun _ => True)); [|done].
    induction l as [|n l IH]; simpl; [by apply triple_ret|].
    eapply triple_bind; [by apply (triple_aside _ Hrely (fun _ => True))|].
    intros [status|e]; (eapply triple_bind; [|intros x; exact IH]).
    + destruct (bool_decide _).
      * by apply (triple_any _ (fun i => OpRecordNodeHealth (we_now env i) status (wc_staleAfter cfg))).
      * by apply (triple_any _ (fun i => OpMarkNodeOffline (n_ID n))).
    + by apply (triple_any _ (fun i => OpMarkNodeOffline (n_ID n))).
Qed.
End jobs.

(** ** The protocol theorem *)

Inductive worker := OperationWorker | ReconciliationWorker | OutboxWorker | HealthWorker.
Definition run_worker {G E} `{!AgentClient G E} (env : worker_env G E) (cfg : worker_config) (k : worker) (w : world (db * G))
    : world (db * G) :=
  match k with
  | OperationWorker => snd (workOnce env cfg w)
  | ReconciliationWorker => snd (reconcile env cfg w)
  | OutboxWorker => snd (publishOnce env cfg w)
  | HealthWorker => snd (poll env cfg w)
  end.

Lemma run_worker_reaches {G E} `{!AgentClient G E, !AgentLaws G E} (env : worker_env G E) cfg k w :
  relies (we_between env) -> J (w_state w) ->
  sys_reaches (w_state w) (w_state (run_worker env cfg k w)).
Proof.
  intros Hrely HJ. destruct k; simpl.
  - destruct (workOnce env cfg w) as [x w'] eqn:Er. by apply (triple_workOnce env cfg Hrely w x w').
  - destruct (reconcile env cfg w) as [x w'] eqn:Er. by apply (triple_reconcile env cfg Hrely w x w').
  - destruct (publishOnce env cfg w) as [x w'] eqn:Er. by apply (triple_publishOnce env cfg Hrely w x w').
  - destruct (poll env cfg w) as [x w'] eqn:Er. by apply (triple_poll env cfg Hrely w x w').
Qed.

(** C1: the workers refine the protocol: whatever answers the store, the
    node agents and the other services give, and whatever the others do
    between two calls, one tick of any worker is a sequence of protocol
    steps, so it keeps the invariant that ties the database to the agents. *)
Theorem workers_follow_protocol {G E} `{!AgentClient G E, !AgentLaws G E} (env : worker_env G E) cfg k w :
  relies (we_between env) -> J (w_state w) ->
  sys_reaches (w_state w) (w_state (run_worker env cfg k w)) /\ J (w_state (run_worker env cfg k w)).
Proof.
  intros Hrely HJ. pose proof (run_worker_reaches env cfg k w Hrely HJ) as H. split; [done|by eapply J_reaches].
Qed.

(** ** How an attempt ends *)

Section attempt.
Context {G E : Type} `{!AgentClient G E}.
Context (env : worker_env G E) (cfg : worker_config) (v : Operation).

Definition ended (d : db) : Prop := exists o, operations d !! ID v = Some o /\
  (is_Some (finished (op_state o)) \/ (Attempts v < MaxAttempts v /\ op_state o = SRetry)).
Definition ends (m : job (db * G) (result ProvErr unit)) : Prop := forall w w', m w = (Ok tt, w') -> ended (w_db w').
Lemma ends_bind {A} (m : job (db * G) A) k : (forall a, ends (k a)) -> ends (m ≫= k).
Proof. intros H w w'. unfold mbind, job_bind. destruct (m w) as [a w1]. apply H. Qed.
Lemma ends_err e : ends (mret (Err e)).
Proof. by intros w w' [=]. Qed.
Lemma ends_store (m : nat -> prov_tx unit) :
  (forall i d d', in_tx (m i) d = (Ok tt, d') -> ended d') -> ends (store env m).
Proof.
  intros H w w'. unfold store, call_store, call. destruct (we_between env (w_step w) (w_state w)) as [d0 g].
  destruct (we_link env (w_step w)); [|done|]; simpl;
    destruct (in_tx (m (w_step w)) d0) as [[[]|e] d] eqn:Er; try done. intros [= <-]. by apply H in Er.
Qed.
Lemma complete_ends now wall e t dd data d d' :
  in_tx (completeOperationWithEvent now wall e v t dd data) d = (Ok tt, d') -> ended d'.
Proof.
  unfold in_tx, completeOperationWithEvent, need, require. rewrite run_get. cbn [working].
  destruct (operations d !! ID v) as [o|] eqn:Eo; rewrite ?run_ret, ?run_throw; [|done].
  case_bool_decide as Hf.
  - intros [= <-]. exists o. split; [done|]. left. destruct Hf as [-> | ->]; by eexists.
  - destruct (bool_decide _); rewrite ?run_ret, ?run_throw; [|done].
    destruct (command_cursors d !! CredentialID v); rewrite ?run_ret, ?run_throw; [|done].
    destruct (_ =? _); rewrite ?run_ret, ?run_throw; [|done]. rewrite run_modify. unfold bind.
    destruct (insertOutbox _ _ _ _ _ _ _ _ _) as [[u|err] t'] eqn:Ei; [|done]. intros [= <-].
    apply prov_insertOutbox_run in Ei as [(? & [=] & _)|(_ & _ & _ & ->)]. unfold ended. simpl.
    rewrite lookup_alter_eq, Eo. eexists. split; [done|]. left. simpl. destruct (bool_decide _); by eexists.
Qed.
Lemma check_ends b e (m : prov_tx unit) d d' : (forall d d', in_tx m d = (Ok tt, d') -> ended d') ->
  in_tx (require b e ;;; m) d = (Ok tt, d') -> ended d'.
Proof. intros H. unfold require. destruct b; [apply H|done]. Qed.

Lemma RetryOperation_ends now reason delay d d' : Attempts v < MaxAttempts v ->
  in_tx (RetryOperation now (ID v) reason delay) d = (Ok tt, d') -> ended d'.
Proof.
  intros Hlt. unfold in_tx, RetryOperation, need. rewrite run_get. cbn [working].
  destruct (in_state _ _ _) as [o|]; [|done]. rewrite run_ret, run_modify. intros [= <-]. unfold ended. simpl.
  rewrite lookup_insert_eq. eexists. split; [done|]. by right.
Qed.

Lemma do_CompleteProvision_ends status l : ends (do_CompleteProvision env v status l).
Proof. apply ends_store. intros i d d'. unfold CompleteProvision. apply check_ends; clear; intros d d'.
  apply check_ends; clear; intros d d'. apply complete_ends. Qed.
Lemma do_CompleteRevoke_ends l : ends (do_CompleteRevoke env v l).
Proof. apply ends_store. intros i d d'. unfold CompleteRevoke. apply check_ends. clear. intros d d'; apply complete_ends. Qed.
Lemma do_RetryOperation_ends reason delay : Attempts v < MaxAttempts v -> ends (do_RetryOperation env (ID v) reason delay).
Proof. intros Hlt. apply ends_store. intros i d d'. by apply RetryOperation_ends. Qed.
Lemma retryOrFailProvision_ends sc r pe : ends (retryOrFailProvision env cfg v sc r pe).
Proof.
  unfold retryOrFailProvision. destruct (Z.leb_spec (MaxAttempts v) (Attempts v)); [|by apply do_RetryOperation_ends].
  apply ends_store. intros i d d'. apply complete_ends.
Qed.
Lemma retryOrFailRevoke_ends r pe : ends (retryOrFailRevoke env cfg v r pe).
Proof.
  unfold retryOrFailRevoke. destruct (Z.leb_spec (MaxAttempts v) (Attempts v)); [|by apply do_RetryOperation_ends].
  apply ends_store. intros i d d'. apply complete_ends.
Qed.
Hint Resolve do_CompleteProvision_ends do_CompleteRevoke_ends retryOrFailProvision_ends retryOrFailRevoke_ends ends_err : core.

Ltac follow := repeat first
  [ solve [auto]
  | apply ends_bind; intros []
  | match goal with |- ends (if ?b then _ else _) => destruct b | |- ends (match ?x with _ => _ end) => destruct x end ].
Lemma conclude_provision_ends : ends (conclude_provision env cfg v).
Proof.
  unfold conclude_provision. apply ends_bind. intros [l|e]; [|auto].
  destruct (allocationsMatchOperation _ _ _); [|simpl; auto]. destruct (roleActive l Primary); [|simpl; auto].
  destruct (roleActive l Failover); [|simpl; destruct (Z.leb_spec (MaxAttempts v) (Attempts v)); [auto|by apply do_RetryOperation_ends]].
  simpl. auto.
Qed.
Hint Resolve conclude_provision_ends : core.

(** C38: an attempt that returns without error has settled its operation: it
    is finished, or waits for its next attempt and has attempts left; so the
    last attempt of an operation always concludes it. *)
Theorem attempt_settles w w' :
  match OpKind v with Provision => provision env cfg v | Revoke => revoke env cfg v end w = (Ok tt, w') ->
  exists o, operations (w_db w') !! ID v = Some o /\
    (is_Some (finished (op_state o)) \/ (Attempts v < MaxAttempts v /\ op_state o = SRetry)).
Proof.
  assert (ends (provision env cfg v)) as Hp by (unfold provision; follow).
  assert (ends (revoke env cfg v)) as Hr by (unfold revoke, conclude_revoke; follow).
  intros H. destruct (OpKind v); [by apply (Hp w w')|by apply (Hr w w')].
Qed.
End attempt.
