(* ===== verification/Fleet.v ===== *)
(** * The node agents as provisioning-service sees them

    src/services/provisioning/internal/nodeagent/client.go against the node
    agents of NodeAgent.v: the HTTP client and server together implement the
    [AgentClient] interface of the workers and keep its contract, so that what
    the database calls revoked is in no configuration of Xray. A node is
    reached at the agent its management identity names; JSON decodes to what
    was encoded. *)

From Stdlib Require Import Ascii List.
From S2P Require Import Prelude GoStrings Backoff Platform Jobs.
From S2P Require NodeDomain NodeAgent NodeAgentSpec Xray.
From S2P Require Import ProvisioningDomain ProvisioningStore ProvisioningInv ProvisioningSpec.
From S2P Require Import ProvisioningWorker ProvisioningSystem ProvisioningJobs.

(** ** The wire *)

Definition state_name (s : DesiredState) : string := match s with DPresent => "present" | DAbsent => "absent" end.
Definition state_of (s : string) : option DesiredState :=
  if bool_decide (s = "present"%string) then Some DPresent
  else if bool_decide (s = "absent"%string) then Some DAbsent else None.
Definition to_wire (v : AgentDesiredState) : NodeDomain.DesiredState :=
  NodeDomain.MkDesired (ad_OperationID v) (ad_CredentialID v) (ad_DesiredRevision v) (state_name (ad_State v))
    (ad_Protocol v) (ad_VLESSClientUUID v).
Definition result_of_wire (r : NodeDomain.ApplyResult) : option AgentResult :=
  st ← state_of (NodeDomain.ar_State r);
  Some (MkAgentResult (NodeDomain.ar_OperationID r) (NodeDomain.ar_CredentialID r) (NodeDomain.ar_DesiredRevision r) st
          (NodeDomain.ar_ConfigRevision r) (NodeDomain.ar_AppliedAt r)).
Definition actual_of_wire (c : NodeDomain.CredentialState) : option CredentialActualState :=
  st ← state_of (NodeDomain.cs_State c);
  Some (MkActual (NodeDomain.cs_CredentialID c) (NodeDomain.cs_DesiredRevision c) st (NodeDomain.cs_ConfigRevision c)).
Definition status_of_wire (s : NodeDomain.AgentStatus) : AgentStatus :=
  MkAgentStatus (NodeDomain.st_NodeID s) (NodeDomain.st_ConfigRevision s) (NodeDomain.st_ActiveClients s)
    (NodeDomain.st_XrayHealthy s) (NodeDomain.st_AgentVersion s) (NodeDomain.st_XrayVersion s).

(** [url.PathEscape]. The client puts its result into the [Path] of a URL,
    which escapes it once more: what the server finds in its path is the
    escaped name, not the name. *)
Definition escaped (c : ascii) : bool :=
  negb (digit c || between "a" "z" c || between "A" "Z" c ||
        existsb (Ascii.eqb c) ["-"; "_"; "."; "~"; "$"; "&"; "+"; "="; ":"; "@"]%char).
Definition upper_hex (n : Z) : ascii := ascii_of_N (Z.to_N (if n <? 10 then 48 + n else 55 + n)).
Fixpoint PathEscape (s : string) : string :=
  match s with
  | EmptyString => EmptyString
  | String c s' =>
      if escaped c then String "%" (String (upper_hex (Z.shiftr (byte_of c) 4))
                          (String (upper_hex (Z.land (byte_of c) 15)) (PathEscape s')))
      else String c (PathEscape s')
  end.
Example PathEscape_space : PathEscape "a b/c" = "a%20b%2Fc"%string.
Proof. reflexivity. Qed.

(** The client's reading of an answer. *)
Definition doJSON {A B} (decode : A -> option B) (answer : NodeAgent.http A) : result ProvErr B :=
  match answer with
  | NodeAgent.Reply _ a => match decode a with Some b => Ok b | None => Err (ErrSQL "decode node-agent response") end
  | NodeAgent.Fault _ status _ =>
      if status =? 404 then Err ErrNotFound else Err (ErrSQL "node-agent rejected request")
  end.
Definition unreachable : ProvErr := ErrSQL "node-agent unavailable".

(** A name the agent accepts is the one that was sent. *)
Definition plain (c : ascii) : bool := (33 <=? byte_of c) && (byte_of c <=? 127).
Lemma all_bytes_cases (P : ascii -> bool) : forallb P (map (fun i => ascii_of_nat i) (seq 0 256)) = true -> forall c, P c = true.
Proof.
  intros H c. rewrite forallb_forall in H. apply H, in_map_iff. exists (nat_of_ascii c).
  split; [apply ascii_nat_embedding|]. apply in_seq. pose proof (nat_ascii_bounded c). lia.
Qed.
Lemma strip_any_plain ps c s : plain c = true ->
  forallb (fun p => match p with String c' _ => negb (plain c') | EmptyString => false end) ps = true ->
  strip_any ps (String c s) = None.
Proof.
  intros Hc. induction ps as [|p ps IH]; simpl; [done|]. rewrite andb_true_iff. intros [Hp Hps].
  destruct p as [|c' p']; [done|]. simpl. destruct (Ascii.eqb_spec c' c) as [->|]; [by rewrite Hc in Hp|]. by apply IH.
Qed.
Lemma trim_fuel_plain fuel ps s : all_bytes plain s = true ->
  forallb (fun p => match p with String c' _ => negb (plain c') | EmptyString => false end) ps = true ->
  trim_fuel fuel ps s = s.
Proof.
  intros Hs Hps. destruct fuel as [|fuel]; [done|]. simpl. destruct s as [|c s].
  - assert (strip_any ps "" = None) as ->; [|done]. induction ps as [|p ps IH]; [done|]. simpl in *.
    apply andb_true_iff in Hps as [Hp Hps]. destruct p; [done|]. simpl. by apply IH.
  - simpl in Hs. apply andb_true_iff in Hs as [Hc _]. by rewrite strip_any_plain.
Qed.
Lemma all_bytes_Forall p s : all_bytes p s = true <-> Forall (fun c => p c = true) (String.list_ascii_of_string s).
Proof.
  induction s as [|c s IH]; simpl; [split; [by constructor|done]|].
  rewrite andb_true_iff, List.Forall_cons_iff, IH. tauto.
Qed.
Lemma TrimSpace_plain s : all_bytes plain s = true -> TrimSpace s = s.
Proof.
  intros Hs. unfold TrimSpace, trim_left, trim_right. rewrite (trim_fuel_plain _ spaces s) by (done || by vm_compute).
  rewrite trim_fuel_plain; [| |by vm_compute].
  - unfold string_rev. rewrite String.list_ascii_of_string_of_list_ascii, rev_involutive.
    apply String.string_of_list_ascii_of_string.
  - unfold string_rev. apply all_bytes_Forall. rewrite String.list_ascii_of_string_of_list_ascii.
    apply Forall_rev, all_bytes_Forall, Hs.
Qed.
Lemma PathEscape_plain s : all_bytes plain (PathEscape s) = true.
Proof.
  induction s as [|c s IH]; [done|]. simpl. destruct (escaped c) eqn:Ec; simpl; rewrite IH, andb_true_r.
  - apply (all_bytes_cases (fun c => plain (upper_hex (Z.shiftr (byte_of c) 4)) && plain (upper_hex (Z.land (byte_of c) 15)))).
    by vm_compute.
  - pose proof (all_bytes_cases (fun c => escaped c || plain c)) as H. specialize (H ltac:(by vm_compute) c).
    simpl in H. by rewrite Ec in H.
Qed.
Lemma matches_without x pat s : forallb (fun f : ascii -> bool => negb (f x)) pat = true -> matches pat s = true ->
  all_bytes (fun c => negb (Ascii.eqb c x)) s = true.
Proof.
  revert s. induction pat as [|f pat IH]; intros [|c s]; simpl; try done. rewrite !andb_true_iff. intros [Hf Hp] [Hc Hs].
  split; [|by apply IH]. destruct (Ascii.eqb_spec c x) as [->|]; [by rewrite Hc in Hf|done].
Qed.
Lemma PathEscape_id s : all_bytes (fun c => negb (Ascii.eqb c "%")) (PathEscape s) = true -> PathEscape s = s.
Proof.
  induction s as [|c s IH]; [done|]. simpl. destruct (escaped c); simpl; [done|]. rewrite andb_true_iff.
  intros [_ H]. by rewrite IH.
Qed.
Lemma accepted_name c : NodeDomain.uuidPattern (TrimSpace (PathEscape c)) = true -> TrimSpace (PathEscape c) = c.
Proof.
  rewrite TrimSpace_plain by apply PathEscape_plain. intros H. apply PathEscape_id. by eapply matches_without; [|exact H].
Qed.

Section fleet.
Context {X E : Type} `{!Xray.XrayManager X E}.

(** What one call draws: whether the request arrives and the answer comes
    back, what the agent's files and Xray do, what Xray says of itself. *)
Record fleet_env := MkFleetEnv {
  fe_reached : bool;
  fe_answered : bool;
  fe_call : NodeAgent.call_env E;
  fe_healthy : bool;
  fe_xray_version : string
}.
Abbreviation fleet := (gmap string (NodeAgent.Agent X)).

Definition client_Apply (e : fleet_env) (node : Node) (desired : AgentDesiredState) (g : fleet)
    : result ProvErr AgentResult * fleet :=
  match g !! n_ID node with
  | None => (Err unreachable, g)
  | Some a =>
      if negb (fe_reached e) then (Err unreachable, g)
      else
        let '(answer, a') := NodeAgent.ApplyDesiredState (fun _ => Some (to_wire desired)) (fe_call e)
                               (PathEscape (ad_CredentialID desired)) "" a in
        (if fe_answered e then doJSON result_of_wire answer else Err unreachable, <[n_ID node := a']> g)
  end.
Definition client_CredentialState (e : fleet_env) (node : Node) (credentialID : string) (g : fleet)
    : result ProvErr CredentialActualState :=
  match g !! n_ID node with
  | None => Err unreachable
  | Some a =>
      if negb (fe_reached e && fe_answered e) then Err unreachable
      else doJSON actual_of_wire (NodeAgent.http_CredentialState (PathEscape credentialID) a)
  end.
Definition client_Status (e : fleet_env) (node : Node) (g : fleet) : result ProvErr AgentStatus :=
  match g !! n_ID node with
  | None => Err unreachable
  | Some a =>
      if negb (fe_reached e && fe_answered e) then Err unreachable
      else doJSON (fun s => Some (status_of_wire s))
             (NodeAgent.Reply _ (NodeAgent.Status (fe_healthy e) (fe_xray_version e) a))
  end.
#[export] Instance fleet_client : AgentClient fleet fleet_env := {
  agent_apply := client_Apply;
  agent_credential_state := client_CredentialState;
  agent_status := client_Status
}.

(** ** What the agents hold *)

Definition hold_of (c : NodeDomain.Credential) : hold :=
  (NodeDomain.c_DesiredRevision c,
   if bool_decide (NodeDomain.c_State c = "present"%string) then DPresent else DAbsent).
Definition snapshot_held (s : NodeDomain.Snapshot) (c : string) : hold :=
  match NodeDomain.sn_Credentials s !! c with Some x => hold_of x | None => (0, DAbsent) end.
Definition agent_held (a : NodeAgent.Agent X) (c : string) : hold := snapshot_held (NodeAgent.ag_snapshot a) c.
Definition fleet_held (g : fleet) (n c : string) : hold :=
  match g !! n with Some a => agent_held a c | None => (0, DAbsent) end.

Lemma present_held (a : NodeAgent.Agent X) id c : NodeDomain.sn_Credentials (NodeAgent.ag_snapshot a) !! id = Some c ->
  NodeDomain.c_State c = "present"%string -> snd (agent_held a id) = DPresent.
Proof. intros Hc Hs. unfold agent_held, snapshot_held, hold_of. by rewrite Hc, Hs. Qed.

(** A journal entry records a result that was in force. *)
Definition journal_backed (a : NodeAgent.Agent X) : Prop := forall k en st, NodeAgent.ag_journal a !! k = Some en ->
  state_of (NodeDomain.ar_State (NodeDomain.je_Result en)) = Some st ->
  hold_le (NodeDomain.ar_DesiredRevision (NodeDomain.je_Result en), st)
    (agent_held a (NodeDomain.ar_CredentialID (NodeDomain.je_Result en))).
Definition fleet_ok (g : fleet) : Prop := forall n a, g !! n = Some a ->
  journal_backed a /\ Xray.xinv (NodeAgent.ag_xray a).
(** What Xray runs on a node, or would be started with, and what such a
    configuration was rendered from. *)
Definition fleet_configs (g : fleet) (n : string) (cfg : Xray.XrayConfig) : Prop :=
  exists a, g !! n = Some a /\ NodeAgentSpec.runs a cfg.
Definition rendered_from (f : string -> hold) (cfg : Xray.XrayConfig) : Prop :=
  exists s, (forall c, snapshot_held s c = f c) /\ Xray.rendered s cfg.

Lemma state_of_name s : state_of (state_name s) = Some s.
Proof. by destruct s. Qed.
Lemma state_of_present s st : state_of s = Some st ->
  (if bool_decide (s = "present"%string) then DPresent else DAbsent) = st.
Proof. unfold state_of. case_bool_decide; [by intros [= <-]|]. case_bool_decide; [by intros [= <-]|done]. Qed.

Lemma finish_journal (e : NodeAgent.call_env E) d h rev (a : NodeAgent.Agent X) r a' k en : NodeAgent.finish e d h rev a = (r, a') ->
  NodeAgent.ag_journal a' !! k = Some en -> NodeAgent.ag_journal a !! k = Some en \/
  NodeDomain.je_Result en = NodeDomain.newResult d rev (NodeAgent.ce_now e).
Proof.
  unfold NodeAgent.finish, NodeAgent.recordJournal, NodeAgent.SaveJournal. simpl.
  set (j := <[NodeDomain.OperationID d := _]> (NodeAgent.ag_journal a)).
  assert (forall j', j' ⊆ j -> j' !! k = Some en -> NodeAgent.ag_journal a !! k = Some en \/
    NodeDomain.je_Result en = NodeDomain.newResult d rev (NodeAgent.ce_now e)) as Hsub.
  { intros j' Hj Hk. pose proof (lookup_weaken _ _ _ _ Hk Hj) as Hl. unfold j in Hl. rewrite lookup_insert in Hl.
    case_decide; [|by left]. right. by simplify_eq. }
  pose proof (NodeAgentSpec.evict_subseteq (size j) 0 (NodeAgent.ce_range e) (NodeAgent.ag_maxJournal a) j) as He.
  destruct (NodeAgent.ce_journal e); intros [= <- <-]; simpl; [by apply Hsub|].
  apply Hsub. etrans; [apply delete_subseteq|exact He].
Qed.

(** What a request asks the agent to hold, and what one call does to what it
    holds. *)
Definition wanted (d : NodeDomain.DesiredState) : hold :=
  (NodeDomain.DesiredRevision d, if bool_decide (NodeDomain.State d = "present"%string) then DPresent else DAbsent).
Lemma hold_installed d : hold_of (NodeAgent.installed_credential d) = wanted d.
Proof. unfold NodeAgent.installed_credential, hold_of, wanted. by case_bool_decide. Qed.

Lemma Apply_cases (e : NodeAgent.call_env E) d (a : NodeAgent.Agent X) r a' : NodeAgent.Apply e d a = (r, a') ->
  (NodeAgent.ag_snapshot a' = NodeAgent.ag_snapshot a /\ NodeAgent.ag_journal a' = NodeAgent.ag_journal a /\
   forall x, r = Ok x -> exists k en, NodeAgent.ag_journal a !! k = Some en /\ x = NodeDomain.je_Result en) \/
  (exists a1 h rev, NodeAgent.finish e d h rev a1 = (r, a') /\ NodeAgent.ag_journal a1 = NodeAgent.ag_journal a /\
   agent_held a1 (NodeDomain.CredentialID d) = wanted d /\
   forall c, agent_held a1 c = agent_held a c \/ (c = NodeDomain.CredentialID d /\
     fst (agent_held a c) < NodeDomain.DesiredRevision d /\ agent_held a1 c = wanted d)).
Proof.
  intros Hap. destruct (NodeAgentSpec.Apply_outcome _ _ _ _ _ Hap)
    as [[-> Hr]|(Hv & _ & [(c & Hc & Hrev & Hs & Hf)|(Hnew & ok & x1 & _ & Hcase)])].
  - left. split_and!; [done|done|]. intros x ->. destruct Hr as [Hr|[Hr|(en & Hen & _ & [= ->])]]; [done|done|eauto].
  - right. do 3 eexists. split_and!; [exact Hf|done| |by left]. unfold agent_held, snapshot_held. rewrite Hc.
    unfold hold_of, wanted. unfold NodeDomain.sameDesired in Hs.
    rewrite !andb_true_iff, !bool_decide_eq_true in Hs. destruct Hs as [[-> _] _]. by rewrite Hrev.
  - destruct Hcase as [(-> & -> & ->)|[(-> & _ & ok2 & x2 & _ & -> & ->)|(-> & _ & Hf)]].
    + left. by split_and!.
    + left. split_and!; [done|done|]. by destruct ok2.
    + right. do 3 eexists. split_and!; [exact Hf|done| |]; unfold agent_held, snapshot_held; simpl.
      * rewrite lookup_insert, decide_True by done. apply hold_installed.
      * intros c. rewrite lookup_insert. case_decide as Hid; [|by left]. subst c. right. split_and!; [done| |apply hold_installed].
        destruct (NodeDomain.sn_Credentials (NodeAgent.ag_snapshot a) !! NodeDomain.CredentialID d) as [c|] eqn:Ec;
          simpl; [by apply Hnew|]. apply NodeDomain.validateDesired_true in Hv as (_ & _ & ? & _). lia.
Qed.

Lemma agent_held_snapshot (a a' : NodeAgent.Agent X) c : NodeAgent.ag_snapshot a' = NodeAgent.ag_snapshot a -> agent_held a' c = agent_held a c.
Proof. unfold agent_held. by intros ->. Qed.

Lemma Apply_held (e : NodeAgent.call_env E) d (a : NodeAgent.Agent X) r a' : journal_backed a -> NodeAgent.Apply e d a = (r, a') ->
  journal_backed a' /\
  (forall c, agent_held a' c = agent_held a c \/ (c = NodeDomain.CredentialID d /\
     fst (agent_held a c) < NodeDomain.DesiredRevision d /\ agent_held a' c = wanted d)) /\
  (forall x st, r = Ok x -> state_of (NodeDomain.ar_State x) = Some st ->
     hold_le (NodeDomain.ar_DesiredRevision x, st) (agent_held a' (NodeDomain.ar_CredentialID x))).
Proof.
  intros HB Hap. destruct (Apply_cases _ _ _ _ _ Hap) as [(Hs & Hj & Hr)|(a1 & h & rev & Hf & Hj & Hw & Hc)].
  - assert (forall c, agent_held a' c = agent_held a c) as He by (intros c; by apply agent_held_snapshot).
    split_and!; [|by left|].
    + intros k en st. rewrite Hj, He. apply HB.
    + intros x st Hx. destruct (Hr x Hx) as (k & en & Hen & ->). rewrite He. by apply (HB k).
  - assert (forall c, agent_held a' c = agent_held a1 c) as He.
    { intros c. apply agent_held_snapshot. by apply NodeAgentSpec.finish_outcome in Hf as [(-> & _) _]. }
    assert (forall c, hold_le (agent_held a c) (agent_held a' c)) as Hle.
    { intros c. rewrite He. destruct (Hc c) as [->|(_ & Hlt & ->)]; [done|by left]. }
    assert (forall rev now st, state_of (NodeDomain.State d) = Some st ->
      hold_le (NodeDomain.ar_DesiredRevision (NodeDomain.newResult d rev now), st)
        (agent_held a' (NodeDomain.ar_CredentialID (NodeDomain.newResult d rev now)))) as Hnew.
    { intros rev' now st Hst. simpl. rewrite He, Hw. unfold wanted. by rewrite (state_of_present _ _ Hst). }
    split_and!.
    + intros k en st Hk Hst. destruct (finish_journal _ _ _ _ _ _ _ _ _ Hf Hk) as [Hold|Heq].
      * rewrite Hj in Hold. eapply hold_le_trans; [by eapply HB|apply Hle].
      * rewrite Heq in *. by apply Hnew.
    + intros c. rewrite He. apply Hc.
    + intros x st Hx Hst. apply NodeAgentSpec.finish_outcome in Hf as [_ [(Hr & _)|(Hr & _)]]; [|congruence].
      assert (x = NodeDomain.newResult d rev (NodeAgent.ce_now e)) as -> by congruence. by apply Hnew.
Qed.

(** What one call leaves Xray with. *)
Lemma Apply_configs (e : NodeAgent.call_env E) d (a : NodeAgent.Agent X) r a' cfg : journal_backed a ->
  Xray.xinv (NodeAgent.ag_xray a) -> NodeAgent.Apply e d a = (r, a') -> NodeAgentSpec.runs a' cfg ->
  (NodeAgentSpec.runs a cfg /\ forall c, agent_held a' c = agent_held a c) \/
  (exists f, rendered_from f cfg /\ (forall c, hold_le (agent_held a' c) (f c)) /\
     forall c, f c = agent_held a c \/ (c = NodeDomain.CredentialID d /\
       fst (agent_held a c) < NodeDomain.DesiredRevision d /\ f c = wanted d)).
Proof.
  intros HB HX Hap Hr. destruct (Apply_held _ _ _ _ _ HB Hap) as (_ & Hc & _).
  destruct (NodeAgentSpec.Apply_runs _ _ _ _ _ _ HX Hap Hr) as [[Hs Hold]|[Hren|(Hs & _ & Hv & Hnew & Hren)]].
  - left. split; [done|]. intros c. by apply agent_held_snapshot.
  - right. exists (agent_held a'). split_and!; [by eexists|done|done].
  - right. exists (snapshot_held (NodeAgent.next_snapshot d (NodeAgent.ag_snapshot a))).
    assert (forall c, snapshot_held (NodeAgent.next_snapshot d (NodeAgent.ag_snapshot a)) c = agent_held a c \/
      (c = NodeDomain.CredentialID d /\ fst (agent_held a c) < NodeDomain.DesiredRevision d /\
       snapshot_held (NodeAgent.next_snapshot d (NodeAgent.ag_snapshot a)) c = wanted d)) as Hcases.
    { intros c. unfold agent_held, snapshot_held. simpl. rewrite lookup_insert. case_decide as Hid; [|by left].
      subst c. right. split_and!; [done| |apply hold_installed].
      destruct (NodeDomain.sn_Credentials (NodeAgent.ag_snapshot a) !! NodeDomain.CredentialID d) as [c|] eqn:Ec;
        simpl; [by apply Hnew|]. apply NodeDomain.validateDesired_true in Hv as (_ & _ & ? & _). lia. }
    split_and!; [by eexists| |done]. intros c. rewrite (agent_held_snapshot a a' c Hs).
    destruct (Hcases c) as [->|(_ & Hlt & ->)]; [done|by left].
Qed.

(** ** The contract *)

Definition apply_law n v (g : fleet) (x : result ProvErr AgentResult) (g' : fleet) : Prop :=
  fleet_ok g' /\
  (forall m c, fleet_held g' m c = fleet_held g m c \/
     (m = n_ID n /\ c = ad_CredentialID v /\ fst (fleet_held g m c) < ad_DesiredRevision v /\
      fleet_held g' m c = (ad_DesiredRevision v, ad_State v))) /\
  (forall r, x = Ok r -> ar_OperationID r = ad_OperationID v -> ar_CredentialID r = ad_CredentialID v ->
     ar_DesiredRevision r = ad_DesiredRevision v -> ar_State r = ad_State v ->
     hold_le (ad_DesiredRevision v, ad_State v) (fleet_held g' (n_ID n) (ad_CredentialID v))) /\
  (forall m cfg, fleet_configs g' m cfg ->
     (fleet_configs g m cfg /\ forall c, fleet_held g' m c = fleet_held g m c) \/
     (exists f, rendered_from f cfg /\ (forall c, hold_le (fleet_held g' m c) (f c)) /\
        forall c, f c = fleet_held g m c \/
          (m = n_ID n /\ c = ad_CredentialID v /\ fst (fleet_held g m c) < ad_DesiredRevision v /\
           f c = (ad_DesiredRevision v, ad_State v)))).
Lemma fleet_update n v g (a a' : NodeAgent.Agent X) x : fleet_ok g -> g !! n_ID n = Some a -> journal_backed a' ->
  Xray.xinv (NodeAgent.ag_xray a') ->
  (forall cfg, NodeAgentSpec.runs a' cfg -> (NodeAgentSpec.runs a cfg /\ forall c, agent_held a' c = agent_held a c) \/
     (exists f, rendered_from f cfg /\ (forall c, hold_le (agent_held a' c) (f c)) /\
        forall c, f c = agent_held a c \/ (c = ad_CredentialID v /\
          fst (agent_held a c) < ad_DesiredRevision v /\ f c = (ad_DesiredRevision v, ad_State v)))) ->
  (forall c, agent_held a' c = agent_held a c \/ (c = ad_CredentialID v /\
     fst (agent_held a c) < ad_DesiredRevision v /\ agent_held a' c = (ad_DesiredRevision v, ad_State v))) ->
  (forall r, x = Ok r -> ar_OperationID r = ad_OperationID v -> ar_CredentialID r = ad_CredentialID v ->
     ar_DesiredRevision r = ad_DesiredRevision v -> ar_State r = ad_State v ->
     hold_le (ad_DesiredRevision v, ad_State v) (agent_held a' (ad_CredentialID v))) ->
  apply_law n v g x (<[n_ID n := a']> g).
Proof.
  intros HG Ea H1 HX Hcf H2 H3. unfold apply_law, fleet_held. split_and!.
  - intros m b. rewrite lookup_insert. case_decide; [by intros [= <-]|apply HG].
  - intros m c. rewrite lookup_insert. case_decide; [|by left]. subst m. rewrite Ea.
    destruct (H2 c) as [->|(-> & Hlt & ->)]; [by left|by right].
  - intros r Hr. rewrite lookup_insert_eq. by apply H3.
  - intros m cfg (b & Hb & Hr). revert Hb. rewrite lookup_insert. case_decide as Hm.
    + intros [= <-]. subst m. rewrite Ea. destruct (Hcf cfg Hr) as [[Hr0 Hs]|(f & Hf & Hle & Hc)].
      * left. split; [by exists a|exact Hs].
      * right. exists f. split_and!; [exact Hf|exact Hle|]. intros c.
        destruct (Hc c) as [->|(-> & Hlt & ->)]; [by left|by right].
    + intros Hb. left. split; [by exists b|done].
Qed.

Lemma fleet_apply_ok e n v g x g' : fleet_ok g -> client_Apply e n v g = (x, g') -> apply_law n v g x g'.
Proof.
  intros HG. unfold client_Apply.
  assert (apply_law n v g (Err unreachable) g) as Hstay by (split_and!; [done|by left|done|by left]).
  destruct (g !! n_ID n) as [a|] eqn:Ea; [|by intros [= <- <-]].
  destruct (fe_reached e); simpl; [|by intros [= <- <-]].
  assert (forall status code, apply_law n v g
    (if fe_answered e then doJSON result_of_wire (NodeAgent.Fault _ status code) else Err unreachable) (<[n_ID n := a]> g)) as Hfault.
  { intros status code. apply fleet_update with a; [done|done|by eapply HG|by eapply HG|by left|by left|]. intros r. destruct (fe_answered e); [|done].
    simpl. by destruct (_ =? _). }
  unfold NodeAgent.ApplyDesiredState. destruct (NodeDomain.uuidPattern _) eqn:Hu; simpl; [|intros [= <- <-]; apply (Hfault 400 ""%string)].
  case_bool_decide as Hc; simpl; [|intros [= <- <-]; apply (Hfault 400 ""%string)].
  destruct (NodeAgent.Apply _ _ a) as [r a'] eqn:Hap.
  destruct (HG _ _ Ea) as [HB HX]. destruct (Apply_held _ _ _ _ _ HB Hap) as (H1 & H2 & H3).
  pose proof (fun cfg => Apply_configs _ _ _ _ _ cfg HB HX Hap) as Hcf.
  assert (wanted (to_wire v) = (ad_DesiredRevision v, ad_State v)) as Hw by (unfold wanted; simpl; by destruct (ad_State v)).
  rewrite Hw in H2. rewrite Hw in Hcf. assert (exists y, (match r with
      | Ok r => (NodeAgent.Reply _ r, a') | Err NodeDomain.ErrStale => (NodeAgent.Fault _ 409 "stale_revision"%string, a')
      | Err NodeDomain.ErrConflict => (NodeAgent.Fault _ 409 "operation_conflict"%string, a')
      | Err _ => (NodeAgent.Fault _ 503 "apply_failed"%string, a') end) = (y, a') /\
      forall z, y = NodeAgent.Reply _ z -> r = Ok z) as (y & -> & Hy).
  { destruct r as [r|[]]; eexists; (split; [reflexivity|]); try done. by intros z [= <-]. }
  intros [= <- <-]. apply fleet_update with a; [done|done|done|by eapply NodeAgentSpec.Apply_xinv|exact Hcf|exact H2|].
  intros r0 Hr0 _ Ec Er Es. destruct (fe_answered e); [|done].
  destruct y as [res|status code]; simpl in Hr0; [|by destruct (_ =? _)].
  unfold result_of_wire in Hr0. destruct (state_of (NodeDomain.ar_State res)) as [st|] eqn:Hst; [|done]. simpl in Hr0.
  injection Hr0 as <-. simpl in *. rewrite <- Er, <- Es, <- Ec. apply (H3 res st); [by apply Hy|done].
Qed.

Lemma fleet_state_ok n c e g a : fleet_ok g -> client_CredentialState e n c g = Ok a ->
  fleet_held g (n_ID n) c = (ac_DesiredRevision a, ac_State a).
Proof.
  intros _. unfold client_CredentialState, fleet_held. destruct (g !! n_ID n) as [b|] eqn:Eb; [|done].
  destruct (fe_reached e && fe_answered e); [|done]. simpl. unfold NodeAgent.http_CredentialState.
  destruct (NodeDomain.uuidPattern _) eqn:Hu; [|by simpl]. rewrite (accepted_name c Hu). simpl.
  unfold NodeAgent.GetCredentialState, agent_held, snapshot_held, actual_of_wire, hold_of.
  destruct (NodeDomain.sn_Credentials (NodeAgent.ag_snapshot b) !! c) as [x|]; simpl; [|by intros [= <-]].
  destruct (state_of (NodeDomain.c_State x)) as [st|] eqn:Hst; simpl; [|done]. intros [= <-]. simpl.
  by rewrite (state_of_present _ _ Hst).
Qed.
#[export] Instance fleet_laws : AgentLaws fleet fleet_env := {
  agents_ok := fleet_ok;
  held := fleet_held;
  agent_apply_ok := fun e n v g x g' HG Ha =>
    let '(conj H1 (conj H2 (conj H3 _))) := fleet_apply_ok e n v g x g' HG Ha in conj H1 (conj H2 H3);
  config := Xray.XrayConfig;
  configs := fleet_configs;
  renders := rendered_from;
  agent_apply_configs := fun e n v g x g' m cfg HG Ha =>
    let '(conj _ (conj _ (conj _ H))) := fleet_apply_ok e n v g x g' HG Ha in H m cfg;
  agent_state_ok := fun e n c g a => fleet_state_ok n c e g a
}.

(** C2: from the database down to the node: a credential whose allocation is
    active is in the desired state that allocation's node agent keeps,
    present at the allocation's revision; and one whose allocations on a
    node are all revoked is not present there. *)
Theorem database_matches_agents (d : db) (g : fleet) n a : sys_reachable (d, g) -> g !! n = Some a ->
  (forall k x, allocations d !! k = Some x -> a_node_id x = n -> a_state x = AActive -> a_desired_state x = DPresent ->
     exists c, NodeDomain.sn_Credentials (NodeAgent.ag_snapshot a) !! a_credential_id x = Some c /\
       NodeDomain.c_DesiredRevision c = a_desired_revision x /\ NodeDomain.c_State c = "present"%string) /\
  (forall id c, NodeDomain.sn_Credentials (NodeAgent.ag_snapshot a) !! id = Some c -> NodeDomain.c_State c = "present"%string ->
     exists k x, allocations d !! k = Some x /\ a_credential_id x = id /\ a_node_id x = n /\ a_state x <> ARevoked).
Proof.
  intros HJ%J_reachable Ha. split.
  - intros k x Hk <- Hs Hd. pose proof (J_active_held d g k x HJ Hk Hs Hd) as Hh. simpl in Hh.
    unfold fleet_held in Hh. rewrite Ha in Hh. unfold agent_held, snapshot_held in Hh.
    destruct (NodeDomain.sn_Credentials _ !! a_credential_id x) as [c|] eqn:Ec; [|done]. exists c.
    unfold hold_of in Hh. case_bool_decide; [|done]. by injection Hh as ->.
  - intros id c Hc Hs. apply (J_held_allocated d g n id HJ). simpl. unfold fleet_held. rewrite Ha.
    by apply present_held with c.
Qed.

(** C25: what the database calls revoked is gone from the nodes: whatever
    configuration Xray runs on a node, or would be started with, and whatever
    reloads failed on the way, every client it admits is the client of a
    credential that has an allocation on that node which is not revoked; and
    so is every credential present in the agent's desired state. *)
Theorem revoked_is_gone (d : db) (g : fleet) n a : sys_reachable (d, g) -> g !! n = Some a ->
  (forall cfg, NodeAgentSpec.runs a cfg -> exists s, Xray.rendered s cfg /\
     forall client, client ∈ Xray.xc_clients cfg ->
       exists id c, NodeDomain.sn_Credentials s !! id = Some c /\ NodeDomain.c_State c = "present"%string /\
         NodeDomain.c_VLESSClientUUID c = client /\
         exists k x, allocations d !! k = Some x /\ a_credential_id x = id /\ a_node_id x = n /\ a_state x <> ARevoked) /\
  (forall id, (forall k x, allocations d !! k = Some x -> a_credential_id x = id -> a_node_id x = n -> a_state x = ARevoked) ->
     forall c, NodeDomain.sn_Credentials (NodeAgent.ag_snapshot a) !! id = Some c -> NodeDomain.c_State c <> "present"%string).
Proof.
  intros HJ%J_reachable Ha. split.
  - intros cfg Hr. destruct (@J_configs_allocated fleet fleet_env fleet_client fleet_laws d g n cfg HJ) as (f & (s & Hs & Hren) & Hf); [by exists a|].
    exists s. split; [done|]. intros client Hc.
    destruct (Xray.rendered_clients s cfg client Hren Hc) as (id & c & Hk & Hp & Hu).
    exists id, c. split_and!; [done..|]. apply Hf. rewrite <- Hs. unfold snapshot_held. rewrite Hk.
    unfold hold_of. by rewrite Hp.
  - intros id Hrev c Hc Hp. destruct (J_held_allocated d g n id HJ) as (k & x & Hk & Hid & Hn & Hx).
    + simpl. unfold fleet_held. rewrite Ha. by apply present_held with c.
    + by apply Hx, (Hrev k x).
Qed.
End fleet.

(** ** The theorems at work

    Two nodes, each with an agent of NodeAgent.v that runs Xray.v; a
    credential is provisioned by one tick of the operation worker and revoked
    by the next. *)

Module Demo.
Import Xray NodeAgent NodeAgentSpec.
#[local] Existing Instance demo_xray.

Definition demo_agent (n : string) : Agent Manager :=
  MkAgent (demo_id n) "v1" 10 (NodeDomain.MkSnapshot (demo_id n) 0 ∅) ∅ (ag_xray start_agent) (MkDisk Missing Missing).
Definition demo_fleet : gmap string (Agent Manager) := {[ demo_id "8" := demo_agent "8"; demo_id "9" := demo_agent "9" ]}.
Definition demo_meta (n : string) (seq : Z) (ty : string) : EventMeta :=
  MkEventMeta (demo_id n) ty (demo_id "1") seq ("credential:" +:+ demo_id "1") (demo_id "c") None 1 ty 0 seq "sha".
Definition setup : list op :=
  [OpSeedNodes [sample_seed (demo_id "8") 10; sample_seed (demo_id "9") 2];
   OpRecordNodeHealth 1 (sample_status (demo_id "8")) minute; OpRecordNodeHealth 1 (sample_status (demo_id "9")) minute;
   OpRecordCommand 2 (demo_meta "d" 1 "access.provision.request.v1") (MkCommand (demo_id "5") (demo_id "1") 1) Provision 5].
Definition revoke_arrives : list op :=
  [OpRecordCommand 19 (demo_meta "e" 2 "access.revoke.request.v1") (MkCommand (demo_id "6") (demo_id "1") 2) Revoke 5].
(** The turn the second tick begins at. *)
Definition second_tick : nat := 10.
Definition arrivals (i : nat) : list op :=
  if bool_decide (i = 0%nat) then setup else if bool_decide (i = second_tick) then revoke_arrives else [].
Definition tick_call : call_env reload_env := MkCallEnv good_reload good_reload true true 7 in_order.
Definition demo_env : worker_env (gmap string (Agent Manager)) (@fleet_env reload_env) :=
  MkWorkerEnv _ _ (fun i (s : db * gmap string (Agent Manager)) => (ProvisioningSpec.run (arrivals i) (fst s), snd s)) (fun _ => Up) (fun i => 10 + Z.of_nat i) (fun i => 10 + Z.of_nat i)
    (fun _ => ∅) (fun i => [("x" +:+ decimal (Z.of_nat i))%string; ("y" +:+ decimal (Z.of_nat i))%string])
    (fun i => MkFleetEnv true true tick_call true "1.8")
    (fun _ c => Ok (MkMaterial c (demo_id "2") 1 "vless_reality" (demo_id "a")))
    (fun _ s => Ok (MkPlacement s (demo_id "3") "eu" 1 1 (1000 * second))) (fun _ _ => true).
Definition demo_config : worker_config := MkConfig second minute minute 10 minute.
Definition world0 : world (db * gmap string (Agent Manager)) := MkWorld 0 (empty_db, demo_fleet).
Definition world1 := run_worker demo_env demo_config OperationWorker world0.
Definition world2 := run_worker demo_env demo_config OperationWorker world1.

Definition arrival (o : op) : bool :=
  match o with OpSeedNodes _ | OpRecordNodeHealth _ _ _ | OpRecordCommand _ _ _ _ _ => true | _ => false end.
Lemma run_arrivals l d (g : gmap string (Agent Manager)) : forallb arrival l = true ->
  sys_reaches (E := @fleet_env reload_env) (d, g) (run l d, g).
Proof.
  revert d. induction l as [|o l IH]; intros d; simpl; [reflexivity|]. intros [Ho Hl]%andb_true_iff.
  eapply rtc_l; [|by apply IH]. apply step_store. by destruct o.
Qed.
Lemma demo_rely : relies (we_between demo_env).
Proof. intros i [d g] _. apply run_arrivals. unfold arrivals. by repeat case_bool_decide. Qed.
Lemma demo_initial : initial demo_fleet.
Proof.
  assert (forall n a, demo_fleet !! n = Some a -> a = demo_agent "8" \/ a = demo_agent "9") as Hag.
  { intros n a. unfold demo_fleet. rewrite lookup_insert. case_decide; [intros [= <-]; by left|].
    rewrite lookup_singleton. case_decide; [|done]. intros [= <-]. by right. }
  split_and!.
  - intros n a Ha. destruct (Hag n a Ha) as [-> | ->]; (split; [by intros ???|by intros c H]).
  - intros n c. simpl. unfold fleet_held. destruct (demo_fleet !! n) as [a|] eqn:Ha; [|done].
    by destruct (Hag n a Ha) as [-> | ->].
  - intros n cfg (a & Ha & Hr). exists (NodeDomain.MkSnapshot (demo_id "0") 0 ∅). split; [done|].
    assert (cfg = start_config) as -> by (by destruct (Hag n a Ha) as [-> | ->]; destruct Hr as [[= <-]|[= <-]]).
    vm_compute. reflexivity.
Qed.
Lemma demo_J0 : J (w_state world0).
Proof. apply J_initial, demo_initial. Qed.
Lemma world1_reached : sys_reaches (w_state world0) (w_state world1).
Proof. exact (run_worker_reaches demo_env demo_config OperationWorker world0 demo_rely demo_J0). Qed.
Lemma world2_reached : sys_reaches (w_state world1) (w_state world2).
Proof.
  exact (run_worker_reaches demo_env demo_config OperationWorker world1 demo_rely
    (J_reaches _ _ world1_reached demo_J0)).
Qed.
Lemma reached {w : world (db * gmap string (Agent Manager))} : sys_reaches (w_state world0) (w_state w) ->
  sys_reachable (w_db w, w_agents w).
Proof. destruct w as [i [d g]]. intros Hr. exists demo_fleet. split; [apply demo_initial|exact Hr]. Qed.
Lemma world1_reachable : sys_reachable (w_db world1, w_agents world1).
Proof. exact (reached world1_reached). Qed.
Lemma world2_reachable : sys_reachable (w_db world2, w_agents world2).
Proof. exact (reached (transitivity world1_reached world2_reached)). Qed.

Lemma workers_follow_protocol_witness : sys_reaches (w_state world0) (w_state world1) /\ size (outbox (w_db world1)) = 1%nat.
Proof.
  split; [|vm_compute; reflexivity].
  exact (proj1 (workers_follow_protocol demo_env demo_config OperationWorker world0 demo_rely demo_J0)).
Defined.
Lemma active_is_held_witness : exists a, allocations (w_db world1) !! "x3"%string = Some a /\
  fleet_held (w_agents world1) (a_node_id a) (a_credential_id a) = (a_desired_revision a, DPresent).
Proof.
  destruct (allocations (w_db world1) !! "x3"%string) as [a|] eqn:Ea; [|vm_compute in Ea; discriminate Ea].
  assert ((fun a => (a_state a, a_desired_state a)) <$> allocations (w_db world1) !! "x3"%string = Some (AActive, DPresent)) as Hs
    by (vm_compute; reflexivity).
  rewrite Ea in Hs. injection Hs as Hs Hd. exists a. split; [reflexivity|].
  exact (active_is_held _ _ _ _ world1_reachable Ea Hs Hd).
Defined.
Lemma all_revoked (m : gmap string allocation_row) :
  forallb (fun ka => bool_decide (a_state (snd ka) = ARevoked)) (map_to_list m) = true ->
  forall k a, m !! k = Some a -> a_state a = ARevoked.
Proof.
  intros Hm k a Hk. rewrite forallb_forall in Hm. specialize (Hm (k, a)). apply bool_decide_eq_true in Hm; [exact Hm|].
  by apply list_elem_of_In, elem_of_map_to_list.
Qed.
(** After the first tick Xray on node 9 admits the credential's client; after
    the second, nobody. *)
Lemma revoked_is_gone_witness :
  (exists a cfg, w_agents world1 !! demo_id "9" = Some a /\ running (ag_xray a) = Some cfg /\ xc_clients cfg = [demo_id "a"]) /\
  (forall a cfg, w_agents world2 !! demo_id "9" = Some a -> running (ag_xray a) = Some cfg -> xc_clients cfg = []).
Proof.
  split.
  - assert (match w_agents world1 !! demo_id "9" with
            | Some a => xc_clients <$> running (ag_xray a) = Some [demo_id "a"] | None => False end) as H
      by (vm_compute; reflexivity).
    destruct (w_agents world1 !! demo_id "9") as [a|]; [|destruct H]. destruct (running (ag_xray a)) as [cfg|] eqn:Er; [|discriminate H].
    exists a, cfg. injection H as H. split; [reflexivity|]. split; [exact Er|exact H].
  - intros a cfg Ha Hr. destruct (xc_clients cfg) as [|client l] eqn:El; [reflexivity|exfalso].
    destruct (revoked_is_gone (w_db world2) (w_agents world2) (demo_id "9") a world2_reachable Ha) as [H _].
    destruct (H cfg (or_introl Hr)) as (s & _ & Hc).
    destruct (Hc client) as (id & c & _ & _ & _ & k & x & Hk & _ & _ & Hx); [rewrite El; left|].
    apply Hx. revert k x Hk Hx. intros k x Hk _. revert k x Hk. apply all_revoked. vm_compute. reflexivity.
Defined.
Lemma served_within_capacity_witness : exists n, nodes (w_db world1) !! demo_id "9" = Some n /\
  1 <= n_AllocatedClients (nd_node n) < n_CapacityLimit (nd_node n).
Proof.
  destruct (nodes (w_db world1) !! demo_id "9") as [n|] eqn:En; [|vm_compute in En; discriminate En].
  exists n. split; [reflexivity|].
  apply (served_within_capacity _ _ (demo_id "9") n [demo_id "1"] world1_reachable En).
  - apply NoDup_singleton.
  - intros c ->%list_elem_of_singleton. vm_compute. reflexivity.
Defined.
Lemma announced_endpoints_serve_witness : exists r, outbox (w_db world1) !! "x9"%string = Some r /\
  match env_Data (o_payload r) with
  | ProvisionSucceeded _ c rev _ _ (ep :: _) _ =>
      fleet_held (w_agents world1) (ep_NodeID ep) c = (rev, DPresent) \/
      rev < fst (fleet_held (w_agents world1) (ep_NodeID ep) c)
  | _ => False
  end.
Proof.
  destruct (outbox (w_db world1) !! "x9"%string) as [r|] eqn:Er; [|vm_compute in Er; discriminate Er].
  exists r. split; [reflexivity|].
  assert (match env_Data ∘ o_payload <$> outbox (w_db world1) !! "x9"%string with
          | Some (ProvisionSucceeded _ _ _ _ _ (_ :: _) _) => True | _ => False end) as Hs by (vm_compute; exact I).
  rewrite Er in Hs. simpl in Hs. destruct (env_Data (o_payload r)) as [ | i c rev sta l [|ep eps] t | | | ] eqn:Ed; try contradiction.
  exact (announced_endpoints_serve (w_db world1) (w_agents world1) "x9" r i c rev sta l (ep :: eps) t ep
    world1_reachable Er Ed (list_elem_of_here ep eps)).
Defined.
Lemma database_matches_agents_witness : exists a, w_agents world1 !! demo_id "9" = Some a /\
  exists c, NodeDomain.sn_Credentials (ag_snapshot a) !! demo_id "1" = Some c /\ NodeDomain.c_State c = "present"%string.
Proof.
  destruct (w_agents world1 !! demo_id "9") as [a|] eqn:Ea; [|vm_compute in Ea; discriminate Ea]. exists a. split; [reflexivity|].
  destruct (allocations (w_db world1) !! "y3"%string) as [x|] eqn:Ex; [|vm_compute in Ex; discriminate Ex].
  assert ((fun a => (a_node_id a, a_state a, a_desired_state a, a_credential_id a)) <$> allocations (w_db world1) !! "y3"%string =
    Some (demo_id "9", AActive, DPresent, demo_id "1")) as Hs by (vm_compute; reflexivity).
  rewrite Ex in Hs. injection Hs as Hn Hs Hd Hc.
  destruct (database_matches_agents _ _ _ a world1_reachable Ea) as [H _].
  destruct (H "y3"%string x Ex Hn Hs Hd) as (c & H1 & _ & H2). exists c. rewrite <- Hc. split; [exact H1|exact H2].
Defined.
(** One attempt at the operation the first tick claims. *)
Definition claimed_world : world (db * gmap string (Agent Manager)) :=
  MkWorld 1 (run [OpClaimOperation 10 minute ∅] (run setup empty_db), demo_fleet).
Definition demo_operation : Operation := MkOperation (demo_id "5") (demo_id "1") Provision 1 1 1 5 0 (demo_id "c") (demo_id "d").
Lemma fst_known {A B} (p : A * B) a : fst p = a -> p = (a, snd p).
Proof. by destruct p; intros <-. Qed.
Lemma attempt_settles_witness : exists o, operations (w_db (snd (provision demo_env demo_config demo_operation claimed_world)))
    !! demo_id "5" = Some o /\ (is_Some (finished (op_state o)) \/ op_state o = SRetry).
Proof.
  destruct (attempt_settles demo_env demo_config demo_operation claimed_world
    (snd (provision demo_env demo_config demo_operation claimed_world))) as (o & Ho & Hs).
  - apply fst_known. vm_compute. reflexivity.
  - exists o. split; [exact Ho|]. destruct Hs as [Hs|[_ Hs]]; [left; exact Hs|right; exact Hs].
Defined.
End Demo.
