(* ===== verification/BillingDomain.v ===== *)
(** * billing-service: data, money and the payment provider

    src/services/billing/internal/domain/types.go, and the YooKassa client of
    internal/yookassa/client.go with its decimal amounts. *)

From Stdlib Require Import Ascii List.
From S2P Require Import Prelude GoStrings GoText Sha256 Backoff Platform.

Inductive BillErr :=
  | ErrNotFound
  | ErrIdempotencyConflict
  | ErrStateConflict
  | ErrUserUnavailable
  | ErrConsentRequired
  | ProviderError (kind code : string)
  | ErrOther (what : string).
#[export] Instance BillErr_eq_dec : EqDecision BillErr.
Proof. solve_decision. Defined.

Inductive OrderStatus := OrderCreated | OrderPaymentPending | OrderPaid | OrderCanceled.
#[export] Instance OrderStatus_eq_dec : EqDecision OrderStatus.
Proof. solve_decision. Defined.
Inductive PayStatus :=
  | PaymentCreated | PaymentVerificationPending | PaymentPending | PaymentSucceeded | PaymentCanceled | PaymentFailed.
#[export] Instance PayStatus_eq_dec : EqDecision PayStatus.
Proof. solve_decision. Defined.
Definition status_text (s : PayStatus) : string :=
  match s with
  | PaymentCreated => "created" | PaymentVerificationPending => "verification_pending"
  | PaymentPending => "pending" | PaymentSucceeded => "succeeded"
  | PaymentCanceled => "canceled" | PaymentFailed => "failed"
  end.

Record PlanSnapshot := MkPlan {
  pl_PlanID : string;
  pl_Name : string;
  pl_DurationDays : Z;
  pl_GracePeriodHours : Z;
  pl_AmountMinor : Z;
  pl_Currency : string;
  pl_Region : string;
  pl_RegionPolicy : string;
  pl_TrafficPolicy : string;
  pl_PrimaryNodes : Z;
  pl_FailoverNodes : Z
}.
#[export] Instance PlanSnapshot_eq_dec : EqDecision PlanSnapshot.
Proof. solve_decision. Defined.

Record Order := MkOrder {
  or_OrderID : string;
  or_UserID : string;
  or_Status : OrderStatus;
  or_AmountMinor : Z;
  or_Currency : string;
  or_AcceptedTermsVersion : string;
  or_PlanSnapshot : PlanSnapshot;
  or_CreatedAt : Z
}.

(** [domain.PaymentOperation] with the [domain.Payment] it embeds. *)
Record PaymentOperation := MkPayment {
  PaymentID : string;
  OrderID : string;
  Status : PayStatus;
  AmountMinor : Z;
  Currency : string;
  ConfirmationURL : option string;
  PaidAt : option Z;
  CreatedAt : Z;
  UserID : string;
  PlanID : string;
  Provider : string;
  ProviderPaymentID : option string;
  ProviderIdempotencyKey : string;
  ProviderCreateDeadline : Z;
  NextReconcileAt : Z;
  ReconcileAttempts : Z
}.

Record CreateOrderInput := MkOrderInput {
  in_UserID : string;
  in_PlanID : string;
  in_Region : string;
  in_AcceptedTermsVersion : string;
  in_IdempotencyKey : string;
  in_RequestHash : string;
  in_Snapshot : PlanSnapshot
}.
Record CreatePaymentInput := MkPaymentInput {
  pi_UserID : string;
  pi_OrderID : string;
  pi_IdempotencyKey : string;
  pi_RequestHash : string
}.
Record WebhookNotification := MkWebhook {
  wh_InboxID : string;
  wh_EventType : string;
  wh_ProviderObjectID : string;
  wh_ObservedStatus : string;
  wh_Attempts : Z
}.

Record ProviderPayment := MkProviderPayment {
  pp_ProviderPaymentID : string;
  pp_Status : string;
  pp_AmountMinor : Z;
  pp_Currency : string;
  pp_ConfirmationURL : option string;
  pp_Test : bool;
  pp_AccountID : string;
  pp_MetadataOrderID : string;
  pp_MetadataPaymentID : string;
  pp_CapturedAt : option Z;
  pp_CanceledAt : option Z
}.
Record ProviderCreateRequest := MkCreateRequest {
  cr_IdempotencyKey : string;
  cr_OrderID : string;
  cr_PaymentID : string;
  cr_AmountMinor : Z;
  cr_Currency : string
}.
#[export] Instance ProviderCreateRequest_eq_dec : EqDecision ProviderCreateRequest.
Proof. solve_decision. Defined.

Definition IsProviderRetryable (e : BillErr) : bool :=
  match e with
  | ProviderError kind _ => bool_decide (kind = "ambiguous"%string) || bool_decide (kind = "temporary"%string)
  | _ => false
  end.

(** ** Amounts *)

(** [%d] and [%02d] of an [int64]. *)
Definition two_digits (z : Z) : string := if z <? 0 then FormatInt z else padded 2 z.
Definition formatMinor (value : Z) : string :=
  (FormatInt (Z.quot value 100) +:+ "." +:+ two_digits (Z.rem value 100))%string.

Definition parseMinor (value : string) : option Z :=
  match split_on "." value with
  | [p0; p1] =>
      if negb (go_len p1 =? 2) || bool_decide (p0 = ""%string) then None
      else
        major ← ParseInt p0;
        if major <? 0 then None
        else
          minor ← ParseInt p1;
          if (minor <? 0) || (99 <? minor) then None
          else if Z.quot (2 ^ 63 - 1 - minor) 100 <? major then None
          else Some (major * 100 + minor)
  | _ => None
  end.

(** ** The provider's client *)

Record paymentResponse := MkResponse {
  rs_ID : string;
  rs_Status : string;
  rs_Value : string;
  rs_Currency : string;
  rs_ConfirmationURL : option string;      (* None: no confirmation object *)
  rs_Metadata : gmap string string;
  rs_Test : bool;
  rs_CapturedAt : option Z;
  rs_CanceledAt : option Z;
  rs_AccountID : string
}.

Definition normalizePayment (r : paymentResponse) : result BillErr ProviderPayment :=
  match parseMinor (rs_Value r) with
  | None => Err (ProviderError "temporary" "invalid_payment")
  | Some minor =>
      if bool_decide (rs_ID r = ""%string) || bool_decide (rs_Currency r = ""%string)
      then Err (ProviderError "temporary" "invalid_payment")
      else if negb (bool_decide (rs_Status r = "pending"%string) || bool_decide (rs_Status r = "succeeded"%string) ||
                    bool_decide (rs_Status r = "canceled"%string))
      then Err (ProviderError "temporary" "unknown_status")
      else
        let confirmationURL := url ← rs_ConfirmationURL r; if bool_decide (url = ""%string) then None else Some url in
        Ok (MkProviderPayment (rs_ID r) (rs_Status r) minor (rs_Currency r) confirmationURL (rs_Test r)
              (rs_AccountID r) (default "" (rs_Metadata r !! "order_id"%string))
              (default "" (rs_Metadata r !! "payment_id"%string)) (rs_CapturedAt r) (rs_CanceledAt r))
  end.

(** What comes back from one HTTP exchange. *)
Inductive http_answer := NoAnswer | BadBody | Answer (status : Z) (body : string).
(** [do]: [decode] is the JSON decoder of a response. *)
Definition yookassa_do (decode : string -> option paymentResponse) (ambiguous : bool) (answer : http_answer)
    : result BillErr paymentResponse :=
  let lost := if ambiguous then "ambiguous"%string else "temporary"%string in
  match answer with
  | NoAnswer => Err (ProviderError lost "transport_error")
  | BadBody => Err (ProviderError "temporary" "invalid_response")
  | Answer status body =>
      if (status <? 200) || (300 <=? status) then
        let kind := if status =? 429 then "temporary"%string else if 500 <=? status then lost else "permanent"%string in
        Err (ProviderError kind ("http_" +:+ FormatInt status))
      else match decode body with
           | None => Err (ProviderError "temporary" "invalid_json")
           | Some r => Ok r
           end
  end.

(** The body of the POST that creates a payment: [capture] is true and the
    confirmation is a redirect. *)
Record createPaymentRequest := MkPayload {
  pr_Value : string;
  pr_Currency : string;
  pr_ReturnURL : string;
  pr_Description : string;
  pr_Metadata : gmap string string
}.
Definition shortID (value : string) : string := if 12 <? go_len value then String.substring 0 12 value else value.
Definition payload (returnURL : string) (input : ProviderCreateRequest) : createPaymentRequest :=
  MkPayload (formatMinor (cr_AmountMinor input)) (cr_Currency input) returnURL ("VPN order " +:+ shortID (cr_OrderID input))
    (<["order_id" := cr_OrderID input]> (<["payment_id" := cr_PaymentID input]> ∅)).
(** [post] is the exchange, given the idempotency key and the body. *)
Definition client_CreatePayment (decode : string -> option paymentResponse) (returnURL : string)
    (post : string -> createPaymentRequest -> http_answer) (input : ProviderCreateRequest) : result BillErr ProviderPayment :=
  match yookassa_do decode true (post (cr_IdempotencyKey input) (payload returnURL input)) with
  | Ok r => normalizePayment r
  | Err e => Err e
  end.
Definition client_GetPayment (decode : string -> option paymentResponse) (paymentID : string) (answer : http_answer)
    : result BillErr ProviderPayment :=
  if bool_decide (TrimSpace paymentID = ""%string) || contains_any "/?#" paymentID
  then Err (ProviderError "permanent" "invalid_payment_id")
  else match yookassa_do decode false answer with Ok r => normalizePayment r | Err e => Err e end.

(** ** Amounts survive the wire *)

Lemma digits_without s : plain_digits s -> without "." s.
Proof. apply all_bytes_impl. intros c. unfold digit, between. by destruct (Ascii.eqb_spec c ".") as [->|]. Qed.

Definition cents_ok (z : Z) : bool :=
  all_bytes digit (padded 2 z) && (go_len (padded 2 z) =? 2) && bool_decide (ParseInt (padded 2 z) = Some z).
Lemma cents z : 0 <= z < 100 -> cents_ok z = true.
Proof.
  intros Hz. assert (forallb cents_ok (map Z.of_nat (seq 0 100)) = true) as H by (by vm_compute).
  rewrite forallb_forall in H. apply H, in_map_iff. exists (Z.to_nat z). split; [lia|]. apply in_seq. lia.
Qed.

(** Amounts survive the provider's wire format: the client parses the
    decimal it writes for an amount back to that amount, for every amount an
    [int64] can hold; and whatever text the provider sends, a parsed amount is
    non-negative and fits an [int64]. *)
Theorem amounts_roundtrip value text amount :
  (0 <= value < 2 ^ 63 -> parseMinor (formatMinor value) = Some value) /\
  (parseMinor text = Some amount -> 0 <= amount < 2 ^ 63).
Proof.
  split.
  - intros Hv. unfold formatMinor. rewrite Z.quot_div_nonneg, Z.rem_mod_nonneg by lia.
    pose proof (Z.mod_pos_bound value 100). pose proof (Z.div_mod value 100). pose proof (Z.div_pos value 100).
    assert (value / 100 <= value) by (apply Z.div_le_upper_bound; lia).
    unfold FormatInt, two_digits. destruct (Z.ltb_spec (value / 100) 0); [lia|]. destruct (Z.ltb_spec (value mod 100) 0); [lia|].
    pose proof (cents (value mod 100) ltac:(lia)) as Hc. unfold cents_ok in Hc.
    rewrite !andb_true_iff, Z.eqb_eq, bool_decide_eq_true in Hc. destruct Hc as [[Hd Hl] Hp].
    unfold parseMinor. 
    change ("." +:+ padded 2 (value mod 100))%string with (String "." (padded 2 (value mod 100))).
    rewrite split_on_app by (by apply digits_without, decimal_fuel_digits). rewrite split_on_none by (by apply digits_without).
    rewrite Hl, ParseInt_decimal by (unfold is_int64; lia). rewrite Hp.
    destruct (decimal_fuel_head 20 (value / 100) "") as (c & s & Hs & _); [lia|].
    rewrite bool_decide_eq_false_2 by (unfold decimal; by rewrite Hs). simpl.
    destruct (Z.ltb_spec (value / 100) 0); [lia|]. destruct (Z.ltb_spec (value mod 100) 0); [lia|].
    destruct (Z.ltb_spec 99 (value mod 100)); [lia|]. simpl. rewrite Z.quot_div_nonneg by lia.
    destruct (Z.ltb_spec ((2 ^ 63 - 1 - value mod 100) / 100) (value / 100)) as [Hlt|_]; [|f_equal; lia].
    pose proof (Z.mul_succ_div_gt (2 ^ 63 - 1 - value mod 100) 100). lia.
  - unfold parseMinor. destruct (split_on "." text) as [|p0 [|p1 [|]]]; try done.
    destruct (_ || _); [done|]. destruct (ParseInt p0) as [major|]; [|done]. simpl.
    destruct (Z.ltb_spec major 0); [done|]. destruct (ParseInt p1) as [minor|]; [|done]. simpl.
    destruct (Z.ltb_spec minor 0); [done|]. destruct (Z.ltb_spec 99 minor); [done|]. simpl.
    destruct (Z.ltb_spec (Z.quot (2 ^ 63 - 1 - minor) 100) major) as [|Hle]; [done|]. intros [= <-].
    rewrite Z.quot_div_nonneg in Hle by lia. pose proof (Z.mul_div_le (2 ^ 63 - 1 - minor) 100). lia.
Qed.
Lemma amounts_roundtrip_witness : parseMinor (formatMinor 19905) = Some 19905 /\ 0 <= 19905 < 2 ^ 63.
Proof.
  split.
  - apply (amounts_roundtrip 19905 "" 0). lia.
  - apply (amounts_roundtrip 0 "199.05" 19905). vm_compute. reflexivity.
Defined.
