(* ===== verification/BillingStore.v ===== *)
(** * billing-service: the PostgreSQL store

    The tables of src/services/billing/migrations with their triggers, and the
    operations of src/services/billing/internal/postgres/store.go. [now] is
    the database clock, [wall] the service's own; drawn identifiers and
    locked rows are arguments. *)

From Stdlib Require Import Ascii List.
From S2P Require Import Prelude GoStrings Backoff Platform BillingDomain.

(** ** Tables *)

Record order_row := MkOrderRow {
  ord_id : string;
  ord_user_id : string;
  ord_status : OrderStatus;
  ord_amount_minor : Z;
  ord_currency : string;
  ord_plan_id : string;
  ord_region : string;
  ord_terms : string;
  ord_snapshot : PlanSnapshot;
  ord_created_at : Z
}.

Record payment_row := MkPaymentRow {
  pay_id : string;
  pay_order_id : string;
  pay_provider : string;
  pay_provider_payment_id : option string;
  pay_provider_idempotency_key : string;
  pay_status : PayStatus;
  pay_amount_minor : Z;
  pay_currency : string;
  pay_confirmation_url : option string;
  pay_provider_create_deadline : Z;
  pay_next_reconcile_at : Z;
  pay_reconcile_lease_until : option Z;
  pay_reconcile_attempts : Z;
  pay_last_error_code : option string;
  pay_paid_at : option Z;
  pay_canceled_at : option Z;
  pay_created_at : Z
}.

Record idempotency_row := MkIdempotency {
  ik_request_hash : string;
  ik_resource_id : string
}.

Inductive WebhookState := WPending | WProcessing | WProcessed | WDead.
#[export] Instance WebhookState_eq_dec : EqDecision WebhookState.
Proof. solve_decision. Defined.
Record webhook_row := MkWebhookRow {
  wr_id : string;
  wr_event_type : string;
  wr_provider_object_id : string;
  wr_observed_status : string;
  wr_state : WebhookState;
  wr_attempts : Z;
  wr_next_attempt_at : Z;
  wr_lease_until : option Z;
  wr_last_error_code : option string;
  wr_received_at : Z;
  wr_processed_at : option Z
}.

Inductive event_data :=
  | PaymentSucceededData (paymentID orderID userID planID : string) (amountMinor : Z) (currency : string) (paidAt : Z)
  | PaymentCanceledData (paymentID orderID userID : string) (canceledAt : Z).

Inductive OutState := OPending | OProcessing | OPublished.
#[export] Instance OutState_eq_dec : EqDecision OutState.
Proof. solve_decision. Defined.
Record outbox_row := MkOutRow {
  ob_event_id : string;
  ob_topic : string;
  ob_partition_key : string;
  ob_aggregate_id : string;
  ob_payload : Envelope event_data;
  ob_state : OutState;
  ob_attempts : Z;
  ob_next_attempt_at : Z;
  ob_lease_until : option Z;
  ob_created_at : Z;
  ob_published_at : option Z
}.

Record db := MkDB {
  orders : table order_row;
  payments : table payment_row;
  idempotency_keys : gmap (string * string * string) idempotency_row;   (* subject, operation, key *)
  webhooks : table webhook_row;
  outbox : table outbox_row
}.
Definition empty_db : db := MkDB ∅ ∅ ∅ ∅ ∅.
Definition set_orders f d := MkDB (f (orders d)) (payments d) (idempotency_keys d) (webhooks d) (outbox d).
Definition set_payments f d := MkDB (orders d) (f (payments d)) (idempotency_keys d) (webhooks d) (outbox d).
Definition set_keys f d := MkDB (orders d) (payments d) (f (idempotency_keys d)) (webhooks d) (outbox d).
Definition set_webhooks f d := MkDB (orders d) (payments d) (idempotency_keys d) (f (webhooks d)) (outbox d).
Definition set_outbox f d := MkDB (orders d) (payments d) (idempotency_keys d) (webhooks d) (f (outbox d)).

Abbreviation bill_tx := (tx db BillErr).
Definition sql (what : string) : BillErr := ErrOther what.

(** A [timestamptz] column keeps whole microseconds: what the driver sends for a
    finer time is cut off. The database's own clock is as coarse. *)
Definition timestamptz (t : Z) : Z := t / 1000 * 1000.

Definition currency_code (s : string) : bool := matches (repeat (between "A" "Z") 3) s.

(** ** Constraints and triggers *)

(** A [uuid] column holds no empty string. *)
Definition order_checks (o : order_row) : bool :=
  negb (bool_decide (ord_id o = ""%string)) && (0 <? ord_amount_minor o) && currency_code (ord_currency o) && length_between 1 128 (ord_plan_id o) &&
  length_between 2 64 (ord_region o) && length_between 1 64 (ord_terms o).
Definition open_status (s : OrderStatus) : bool := bool_decide (s = OrderCreated \/ s = OrderPaymentPending).
Definition order_transition (old new : OrderStatus) : bool :=
  bool_decide (new = old) ||
  match old with
  | OrderCreated => bool_decide (new = OrderPaymentPending \/ new = OrderCanceled)
  | OrderPaymentPending => bool_decide (new = OrderPaid \/ new = OrderCanceled)
  | _ => false
  end.

Definition terminal (s : PayStatus) : bool :=
  bool_decide (s = PaymentSucceeded \/ s = PaymentCanceled \/ s = PaymentFailed).
Definition payment_checks (p : payment_row) : bool :=
  match pay_provider_payment_id p with Some i => length_between 1 128 i | None => true end &&
  match pay_confirmation_url p with
  | Some u => (text_length u <=? 2048) && negb (terminal (pay_status p))
  | None => true
  end &&
  match pay_last_error_code p with Some c => text_length c <=? 64 | None => true end.
Definition payment_transition (old new : PayStatus) : bool :=
  bool_decide (new = old) ||
  match old with
  | PaymentCreated => bool_decide (new = PaymentVerificationPending \/ new = PaymentPending \/ new = PaymentFailed)
  | PaymentVerificationPending =>
      bool_decide (new = PaymentPending \/ new = PaymentSucceeded \/ new = PaymentCanceled \/ new = PaymentFailed)
  | PaymentPending => bool_decide (new = PaymentSucceeded \/ new = PaymentCanceled \/ new = PaymentFailed)
  | _ => false
  end.
Definition enforce_payment_invariants (old new : payment_row) : bool :=
  match pay_provider_payment_id old with
  | Some i => bool_decide (pay_provider_payment_id new = Some i)
  | None => true
  end && payment_transition (pay_status old) (pay_status new).
(** UNIQUE (provider_payment_id). *)
Definition provider_id_free (p : payment_row) (d : db) : bool :=
  negb (exists_row (fun q => bool_decide (pay_id q <> pay_id p /\ pay_provider_payment_id q <> None /\
                                          pay_provider_payment_id q = pay_provider_payment_id p)) (payments d)).

(** [UPDATE orders SET status=... WHERE id AND p], [UPDATE payments SET f
    WHERE id AND p]: whether a row was updated. *)
Definition set_order_status (status : OrderStatus) (o : order_row) : order_row :=
  MkOrderRow (ord_id o) (ord_user_id o) status (ord_amount_minor o) (ord_currency o) (ord_plan_id o) (ord_region o)
    (ord_terms o) (ord_snapshot o) (ord_created_at o).
Definition update_order (orderID : string) (p : OrderStatus -> bool) (status : OrderStatus) : bill_tx unit :=
  let* d := get in
  match orders d !! orderID with
  | Some o =>
      if p (ord_status o) then
        require (order_transition (ord_status o) status) (sql "invalid order status transition") ;;;
        modify (set_orders (insert orderID (set_order_status status o)))
      else ret tt
  | None => ret tt
  end.
Definition update_payment (paymentID : string) (p : payment_row -> bool) (f : payment_row -> payment_row)
    : bill_tx bool :=
  let* d := get in
  match payments d !! paymentID with
  | Some r =>
      if p r then
        require (enforce_payment_invariants r (f r)) (sql "invalid payment status transition") ;;;
        require (payment_checks (f r) && provider_id_free (f r) d) (sql "payments constraint") ;;;
        modify (set_payments (insert paymentID (f r))) ;;;
        ret true
      else ret false
  | None => ret false
  end.

(** The columns an update of a payment sets. *)
Definition set_payment (status : PayStatus) (provider_id url : option string) (next : Z) (lease : option Z)
    (attempts : Z) (err : option string) (paid canceled : option Z) (p : payment_row) : payment_row :=
  MkPaymentRow (pay_id p) (pay_order_id p) (pay_provider p) provider_id (pay_provider_idempotency_key p) status
    (pay_amount_minor p) (pay_currency p) url (pay_provider_create_deadline p) next lease attempts err paid canceled
    (pay_created_at p).
(** Still to be settled with the provider. *)
Definition unsettled (s : PayStatus) : bool :=
  bool_decide (s = PaymentCreated \/ s = PaymentVerificationPending \/ s = PaymentPending).

(** ** Reading *)

Definition order_view (o : order_row) : Order :=
  MkOrder (ord_id o) (ord_user_id o) (ord_status o) (ord_amount_minor o) (ord_currency o) (ord_terms o)
    (ord_snapshot o) (ord_created_at o).
Definition getOrder (userID orderID : string) (d : db) : result BillErr Order :=
  match orders d !! orderID with
  | Some o => if bool_decide (ord_user_id o = userID) then Ok (order_view o) else Err ErrNotFound
  | None => Err ErrNotFound
  end.
(** [payments p JOIN orders o ON o.id = p.order_id]. *)
Definition payment_view (p : payment_row) (o : order_row) : PaymentOperation :=
  MkPayment (pay_id p) (pay_order_id p) (pay_status p) (pay_amount_minor p) (pay_currency p) (pay_confirmation_url p)
    (pay_paid_at p) (pay_created_at p) (ord_user_id o) (ord_plan_id o) (pay_provider p) (pay_provider_payment_id p)
    (pay_provider_idempotency_key p) (pay_provider_create_deadline p) (pay_next_reconcile_at p)
    (pay_reconcile_attempts p).
Definition join_order (p : payment_row) (d : db) : option PaymentOperation :=
  payment_view p <$> orders d !! pay_order_id p.
Definition found {A} (o : option A) : result BillErr A := match o with Some a => Ok a | None => Err ErrNotFound end.
Definition payment_where (p : payment_row -> bool) (d : db) : option payment_row := head (where_ p (payments d)).
Definition getPayment (paymentID : string) (d : db) : result BillErr PaymentOperation :=
  found (p ← payments d !! paymentID; join_order p d).
Definition getPayment_of_order (orderID : string) (d : db) : result BillErr PaymentOperation :=
  found (p ← payment_where (fun p => bool_decide (pay_order_id p = orderID)) d; join_order p d).
Definition getPayment_by_provider (providerID : string) (d : db) : result BillErr PaymentOperation :=
  found (p ← payment_where (fun p => bool_decide (pay_provider_payment_id p = Some providerID)) d; join_order p d).
Definition lookupIdempotency (subject operation key requestHash : string) (d : db) : result BillErr (option string) :=
  match idempotency_keys d !! (subject, operation, key) with
  | None => Ok None
  | Some row => if bool_decide (ik_request_hash row = requestHash) then Ok (Some (ik_resource_id row))
                else Err ErrIdempotencyConflict
  end.

Definition FindOrderReplay (userID idempotencyKey requestHash : string) : bill_tx (option Order) :=
  let* r := query (lookupIdempotency userID "create_order" idempotencyKey requestHash) in
  match r with
  | None => ret None
  | Some resourceID => let* o := query (getOrder userID resourceID) in ret (Some o)
  end.
Definition GetOrder (userID orderID : string) : bill_tx Order := query (getOrder userID orderID).
Definition FindPaymentReplay (userID idempotencyKey requestHash : string) : bill_tx (option PaymentOperation) :=
  let* r := query (lookupIdempotency userID "create_payment" idempotencyKey requestHash) in
  match r with
  | None => ret None
  | Some resourceID => let* p := query (getPayment resourceID) in ret (Some p)
  end.
Definition GetPayment (paymentID : string) : bill_tx PaymentOperation := query (getPayment paymentID).
Definition GetPaymentByProviderID (providerID : string) : bill_tx PaymentOperation :=
  query (getPayment_by_provider providerID).

(** ** Orders and payments *)

Definition insert_key (subject operation key requestHash resourceID : string) : bill_tx unit :=
  let* d := get in
  require (length_between 8 128 key && all_bytes lower_hex requestHash && (go_len requestHash =? 64)) (sql "idempotency_keys constraint") ;;;
  require (bool_decide (idempotency_keys d !! (subject, operation, key) = None)) (sql "idempotency_keys_pkey") ;;;
  modify (set_keys (insert (subject, operation, key) (MkIdempotency requestHash resourceID))).

(** [orderID] is the identifier drawn. *)
Definition CreateOrder (now : Z) (orderID : string) (input : CreateOrderInput) : bill_tx (Order * bool) :=
  let* replay := query (lookupIdempotency (in_UserID input) "create_order" (in_IdempotencyKey input) (in_RequestHash input)) in
  match replay with
  | Some resourceID =>
      let* order := query (getOrder (in_UserID input) resourceID) in
      commit ;;; ret (order, false)
  | None =>
      let* d := get in
      let s := in_Snapshot input in
      let row := MkOrderRow orderID (in_UserID input) OrderCreated (pl_AmountMinor s) (pl_Currency s) (pl_PlanID s)
                   (in_Region input) (in_AcceptedTermsVersion input) s now in
      require (order_checks row) (sql "insert order") ;;;
      let* inserted :=
        match head (where_ (fun o => bool_decide (ord_user_id o = in_UserID input) && open_status (ord_status o)) (orders d)) with
        | None =>
            require (bool_decide (orders d !! orderID = None)) (sql "insert order") ;;;
            modify (set_orders (insert orderID row)) ;;;
            ret (orderID, true)
        | Some existing =>
            require (bool_decide (ord_snapshot existing = s) &&
                     bool_decide (ord_terms existing = in_AcceptedTermsVersion input)) ErrStateConflict ;;;
            ret (ord_id existing, false)
        end in
      insert_key (in_UserID input) "create_order" (in_IdempotencyKey input) (in_RequestHash input) (fst inserted) ;;;
      let* order := query (getOrder (in_UserID input) (fst inserted)) in
      commit ;;; ret (order, snd inserted)
  end.

Definition new_payment (now wall createWindow : Z) (paymentID providerKey provider : string) (order : Order)
    : payment_row :=
  MkPaymentRow paymentID (or_OrderID order) provider None providerKey PaymentCreated (or_AmountMinor order)
    (or_Currency order) None (timestamptz (wall + createWindow)) now None 0 None None None now.
Definition CreatePayment (now wall : Z) (paymentID providerKey : string) (input : CreatePaymentInput)
    (provider : string) (createWindow : Z) : bill_tx (PaymentOperation * bool) :=
  let* replay := query (lookupIdempotency (pi_UserID input) "create_payment" (pi_IdempotencyKey input) (pi_RequestHash input)) in
  match replay with
  | Some resourceID =>
      let* payment := query (getPayment resourceID) in
      commit ;;; ret (payment, false)
  | None =>
      let* order := query (getOrder (pi_UserID input) (pi_OrderID input)) in
      require (open_status (or_Status order)) ErrStateConflict ;;;
      let* d := get in
      let* payment :=
        match getPayment_of_order (pi_OrderID input) d with
        | Ok payment => ret (payment, false)
        | Err _ =>
            let row := new_payment now wall createWindow paymentID providerKey provider order in
            require (bool_decide (provider = "yookassa"%string) && length_between 1 64 providerKey) (sql "insert payment") ;;;
            require (bool_decide (payments d !! paymentID = None) &&
                     negb (exists_row (fun p => bool_decide (pay_provider_idempotency_key p = providerKey \/
                                                             pay_order_id p = or_OrderID order)) (payments d)))
                    (sql "insert payment") ;;;
            modify (set_payments (insert paymentID row)) ;;;
            update_order (pi_OrderID input) (fun _ => true) OrderPaymentPending ;;;
            let* payment := query (getPayment paymentID) in
            ret (payment, true)
        end in
      insert_key (pi_UserID input) "create_payment" (pi_IdempotencyKey input) (pi_RequestHash input)
        (PaymentID (fst payment)) ;;;
      commit ;;; ret payment
  end.

(** ** Talking to the provider *)

Definition fail_payment (code : string) (p : payment_row) : payment_row :=
  set_payment PaymentFailed (pay_provider_payment_id p) None (pay_next_reconcile_at p) None (pay_reconcile_attempts p)
    (Some code) (pay_paid_at p) (pay_canceled_at p) p.
Definition PrepareProviderCreate (paymentID : string) (observedAt : Z) : bill_tx (PaymentOperation * bool) :=
  let* payment := query (getPayment paymentID) in
  let active := bool_decide (Status payment = PaymentCreated \/ Status payment = PaymentVerificationPending) in
  if negb active || bool_decide (ProviderPaymentID payment <> None) then commit ;;; ret (payment, false)
  else if ProviderCreateDeadline payment <=? observedAt then
    update_payment paymentID (fun _ => true) (fail_payment "create_window_expired") ;;;
    update_order (OrderID payment) open_status OrderCanceled ;;;
    let* payment := query (getPayment paymentID) in
    commit ;;; ret (payment, false)
  else commit ;;; ret (payment, true).

(** The statement of [ApplyProviderCreate]; the row is read afterwards. *)
Definition apply_provider_create (now : Z) (paymentID : string) (pp : ProviderPayment) : bill_tx unit :=
  let status := if bool_decide (pp_Status pp = "pending"%string) then PaymentPending else PaymentVerificationPending in
  let* updated := update_payment paymentID
    (fun p => unsettled (pay_status p) &&
              match pay_provider_payment_id p with Some i => bool_decide (i = pp_ProviderPaymentID pp) | None => true end)
    (fun p => set_payment status (Some (pp_ProviderPaymentID pp)) (pp_ConfirmationURL pp) now None
                (pay_reconcile_attempts p) None (pay_paid_at p) (pay_canceled_at p) p) in
  commit ;;; require updated ErrStateConflict.

Definition MarkProviderCreateAmbiguous (now : Z) (paymentID code : string) (delay : Z) : bill_tx unit :=
  update_payment paymentID
    (fun p => bool_decide (pay_status p = PaymentCreated \/ pay_status p = PaymentVerificationPending))
    (fun p => set_payment PaymentVerificationPending (pay_provider_payment_id p) (pay_confirmation_url p) (now + delay)
                None (pay_reconcile_attempts p) (Some code) (pay_paid_at p) (pay_canceled_at p) p) ;;;
  commit.

Definition MarkProviderCreateFailed (paymentID code : string) : bill_tx unit :=
  let* d := get in
  let* updated := update_payment paymentID (fun p => unsettled (pay_status p)) (fail_payment code) in
  match payments d !! paymentID with
  | Some p => when (updated && negb (bool_decide (pay_order_id p = ""%string))) (update_order (pay_order_id p) open_status OrderCanceled)
  | None => ret tt
  end ;;;
  commit.

(** ** Webhooks *)

Definition set_webhook (state : WebhookState) (attempts next : Z) (lease : option Z) (err : option string)
    (processed : option Z) (w : webhook_row) : webhook_row :=
  MkWebhookRow (wr_id w) (wr_event_type w) (wr_provider_object_id w) (wr_observed_status w) state attempts next lease
    err (wr_received_at w) processed.
Definition webhook_checks (n : WebhookNotification) : bool :=
  (bool_decide (wh_EventType n = "payment.succeeded"%string) || bool_decide (wh_EventType n = "payment.canceled"%string)) &&
  length_between 1 128 (wh_ProviderObjectID n) &&
  (bool_decide (wh_ObservedStatus n = "pending"%string) || bool_decide (wh_ObservedStatus n = "succeeded"%string) ||
   bool_decide (wh_ObservedStatus n = "canceled"%string)).
(** Whether the notification is new. *)
Definition InsertWebhook (now : Z) (n : WebhookNotification) : bill_tx bool :=
  let* d := get in
  require (webhook_checks n) (sql "insert webhook inbox") ;;;
  if bool_decide (webhooks d !! wh_InboxID n <> None) ||
     exists_row (fun w => bool_decide (wr_event_type w = wh_EventType n /\
       wr_provider_object_id w = wh_ProviderObjectID n /\ wr_observed_status w = wh_ObservedStatus n)) (webhooks d)
  then commit ;;; ret false
  else
    modify (set_webhooks (insert (wh_InboxID n)
      (MkWebhookRow (wh_InboxID n) (wh_EventType n) (wh_ProviderObjectID n) (wh_ObservedStatus n) WPending 0 now None
         None now None))) ;;;
    commit ;;; ret true.

Definition lapsed (lease : option Z) (now : Z) : bool := match lease with Some l => l <? now | None => false end.
Definition webhook_due (now : Z) (locked : gset string) (w : webhook_row) : bool :=
  ((bool_decide (wr_state w = WPending) && (wr_next_attempt_at w <=? now)) ||
   (bool_decide (wr_state w = WProcessing) && lapsed (wr_lease_until w) now)) && negb (bool_decide (wr_id w ∈ locked)).
Definition ClaimWebhook (now lease : Z) (locked : gset string) : bill_tx (option WebhookNotification) :=
  let* d := get in
  match first_by (fun a b => wr_received_at a <=? wr_received_at b) (webhook_due now locked) (webhooks d) with
  | None => commit ;;; ret None
  | Some w =>
      modify (set_webhooks (insert (wr_id w)
        (set_webhook WProcessing (wr_attempts w + 1) (wr_next_attempt_at w) (Some (now + lease)) (wr_last_error_code w)
           (wr_processed_at w) w))) ;;;
      commit ;;;
      ret (Some (MkWebhook (wr_id w) (wr_event_type w) (wr_provider_object_id w) (wr_observed_status w) (wr_attempts w + 1)))
  end.
Definition nullif_empty (s : string) : option string := if bool_decide (s = ""%string) then None else Some s.
Definition webhook_code_ok (w : webhook_row) : bool :=
  match wr_last_error_code w with Some c => text_length c <=? 64 | None => true end.
Definition update_webhook (inboxID : string) (f : webhook_row -> webhook_row) : bill_tx unit :=
  let claimed w := bool_decide (wr_id w = inboxID) && bool_decide (wr_state w = WProcessing) in
  let* d := get in
  require (negb (exists_row (fun w => claimed w && negb (webhook_code_ok (f w))) (webhooks d))) (sql "webhook_inbox constraint") ;;;
  modify (set_webhooks (update_where claimed f)) ;;;
  commit.
Definition finishWebhook (now : Z) (inboxID : string) (state : WebhookState) (code : string) : bill_tx unit :=
  update_webhook inboxID (fun w => set_webhook state (wr_attempts w) (wr_next_attempt_at w) None (nullif_empty code) (Some now) w).
Definition CompleteWebhook (now : Z) (inboxID code : string) : bill_tx unit := finishWebhook now inboxID WProcessed code.
Definition RejectWebhook (now : Z) (inboxID code : string) : bill_tx unit := finishWebhook now inboxID WDead code.
Definition RetryWebhook (now : Z) (inboxID code : string) (delay : Z) : bill_tx unit :=
  update_webhook inboxID (fun w => set_webhook WPending (wr_attempts w) (now + delay) None (Some code) (wr_processed_at w) w).

(** ** Reconciliation *)

Definition payment_due (now : Z) (locked : gset string) (p : payment_row) : bool :=
  unsettled (pay_status p) && (pay_next_reconcile_at p <=? now) &&
  match pay_reconcile_lease_until p with Some l => l <? now | None => true end && negb (bool_decide (pay_id p ∈ locked)).
(** The statement of [ClaimPaymentForReconcile]: the payment claimed. *)
Definition claim_payment (now lease : Z) (locked : gset string) : bill_tx (option string) :=
  let* d := get in
  match first_by (fun a b => pay_next_reconcile_at a <=? pay_next_reconcile_at b) (payment_due now locked) (payments d) with
  | None => commit ;;; ret None
  | Some p =>
      update_payment (pay_id p) (fun _ => true)
        (fun p => set_payment (pay_status p) (pay_provider_payment_id p) (pay_confirmation_url p) (pay_next_reconcile_at p)
                    (Some (now + lease)) (pay_reconcile_attempts p + 1) (pay_last_error_code p) (pay_paid_at p)
                    (pay_canceled_at p) p) ;;;
      commit ;;; ret (Some (pay_id p))
  end.
Definition ReschedulePayment (now : Z) (paymentID code : string) (delay : Z) : bill_tx unit :=
  update_payment paymentID (fun p => unsettled (pay_status p))
    (fun p => set_payment (pay_status p) (pay_provider_payment_id p) (pay_confirmation_url p) (now + delay) None
                (pay_reconcile_attempts p) (nullif_empty code) (pay_paid_at p) (pay_canceled_at p) p) ;;;
  commit.

(** ** Outcomes *)

Definition topic_succeeded : string := "billing.payment.succeeded.v1".
Definition topic_canceled : string := "billing.payment.canceled.v1".
(** Topic, time and envelope of the event; [AggregateSequence] is never set. *)
Definition buildPaymentEvent (payment : PaymentOperation) (pp : ProviderPayment) (correlationID eventID : string)
    : result BillErr (string * Z * Envelope event_data) :=
  let envelope topic at_ data :=
    MkEnvelope eventID topic 1 at_ "billing-service" correlationID None "payment" (PaymentID payment) 0
      ("user:" +:+ UserID payment)%string data in
  if bool_decide (pp_Status pp = "succeeded"%string) then
    match pp_CapturedAt pp with
    | None => Err (ErrOther "succeeded payment has no captured_at")
    | Some at_ => Ok (topic_succeeded, at_, envelope topic_succeeded at_
        (PaymentSucceededData (PaymentID payment) (OrderID payment) (UserID payment) (PlanID payment)
           (AmountMinor payment) (Currency payment) at_))
    end
  else if bool_decide (pp_Status pp = "canceled"%string) then
    match pp_CanceledAt pp with
    | None => Err (ErrOther "canceled payment has no observed cancellation time")
    | Some at_ => Ok (topic_canceled, at_, envelope topic_canceled at_
        (PaymentCanceledData (PaymentID payment) (OrderID payment) (UserID payment) at_))
    end
  else Err (ErrOther "provider status is not terminal").

Definition settle_payment (status : PayStatus) (paid canceled : option Z) (p : payment_row) : payment_row :=
  set_payment status (pay_provider_payment_id p) None (pay_next_reconcile_at p) None (pay_reconcile_attempts p) None
    paid canceled p.
Definition insert_outbox (now : Z) (eventID topic key aggregateID : string) (payload : Envelope event_data) : bill_tx unit :=
  let* d := get in
  if exists_row (fun r => bool_decide (ob_topic r = topic /\ ob_aggregate_id r = aggregateID)) (outbox d) then ret tt
  else
    require (bool_decide (outbox d !! eventID = None)) (sql "outbox_pkey") ;;;
    modify (set_outbox (insert eventID
      (MkOutRow eventID topic key aggregateID payload OPending 0 now None now None))).

Definition ApplyVerifiedPayment (now : Z) (eventID : string) (expected : PaymentOperation) (pp : ProviderPayment)
    (correlationID : string) : bill_tx unit :=
  let* current := query (getPayment (PaymentID expected)) in
  if bool_decide (Status current = PaymentSucceeded \/ Status current = PaymentCanceled) then
    require (bool_decide (status_text (Status current) = pp_Status pp)) ErrStateConflict ;;; commit
  else if bool_decide (pp_Status pp = "pending"%string) then
    update_payment (PaymentID current) (fun _ => true)
      (fun p => set_payment PaymentPending (pay_provider_payment_id p) (pay_confirmation_url p) (now + minute) None
                  (pay_reconcile_attempts p) None (pay_paid_at p) (pay_canceled_at p) p) ;;;
    commit
  else
    match buildPaymentEvent current pp correlationID eventID with
    | Err e => throw e
    | Ok (topic, occurredAt, payload) =>
        (if bool_decide (pp_Status pp = "succeeded"%string) then
           update_payment (PaymentID current) (fun _ => true)
             (fun p => settle_payment PaymentSucceeded (Some (timestamptz occurredAt)) (pay_canceled_at p) p) ;;;
           update_order (OrderID current) (fun _ => true) OrderPaid
         else
           update_payment (PaymentID current) (fun _ => true)
             (fun p => settle_payment PaymentCanceled (pay_paid_at p) (Some (timestamptz occurredAt)) p) ;;;
           update_order (OrderID current) (fun _ => true) OrderCanceled) ;;;
        insert_outbox now eventID topic ("user:" +:+ UserID current)%string (PaymentID current) payload ;;;
        commit
    end.

(** ** Outbox *)

Definition set_out (state : OutState) (attempts next : Z) (lease published : option Z) (r : outbox_row) : outbox_row :=
  MkOutRow (ob_event_id r) (ob_topic r) (ob_partition_key r) (ob_aggregate_id r) (ob_payload r) state attempts next lease
    (ob_created_at r) published.
Definition out_due (now : Z) (locked : gset string) (r : outbox_row) : bool :=
  ((bool_decide (ob_state r = OPending) && (ob_next_attempt_at r <=? now)) ||
   (bool_decide (ob_state r = OProcessing) && lapsed (ob_lease_until r) now)) && negb (bool_decide (ob_event_id r ∈ locked)).
Definition ClaimOutbox (now lease : Z) (locked : gset string) : bill_tx (option outbox_row) :=
  let* d := get in
  match first_by (fun a b => ob_created_at a <=? ob_created_at b) (out_due now locked) (outbox d) with
  | None => commit ;;; ret None
  | Some r =>
      let r' := set_out OProcessing (ob_attempts r + 1) (ob_next_attempt_at r) (Some (now + lease)) (ob_published_at r) r in
      modify (set_outbox (insert (ob_event_id r) r')) ;;; commit ;;; ret (Some r')
  end.
Definition update_out (eventID : string) (f : outbox_row -> outbox_row) : bill_tx unit :=
  modify (set_outbox (update_where
    (fun r => bool_decide (ob_event_id r = eventID) && bool_decide (ob_state r = OProcessing)) f)) ;;;
  commit.
Definition CompleteOutbox (now : Z) (eventID : string) : bill_tx unit :=
  update_out eventID (fun r => set_out OPublished (ob_attempts r) (ob_next_attempt_at r) None (Some now) r).
Definition RetryOutbox (now : Z) (eventID : string) (delay : Z) : bill_tx unit :=
  update_out eventID (fun r => set_out OPending (ob_attempts r) (now + delay) None (ob_published_at r) r).
