(* ===== verification/BillingInv.v ===== *)
(** * billing-service: store invariants

    What every reachable database satisfies: an order and its payment agree,
    a settled payment has exactly its event, identities never change; and
    every operation of the store keeps it. *)

From Stdlib Require Import List.
From S2P Require Import Prelude GoStrings Backoff Platform BillingDomain BillingStore.

(** ** The invariant *)

(** The statuses an order and its payment can have together. *)
Definition agree (o : OrderStatus) (p : PayStatus) : Prop :=
  match o with
  | OrderCreated => False
  | OrderPaymentPending => unsettled p = true
  | OrderPaid => p = PaymentSucceeded
  | OrderCanceled => p = PaymentCanceled \/ p = PaymentFailed
  end.

(** What an event says of its payment and order. *)
Definition event_says (r : outbox_row) (p : payment_row) (o : order_row) : Prop :=
  match env_Data (ob_payload r) with
  | PaymentSucceededData i oid u pl amount currency at_ =>
      ob_topic r = topic_succeeded /\ pay_status p = PaymentSucceeded /\ pay_paid_at p = Some (timestamptz at_) /\
      i = pay_id p /\ oid = ord_id o /\ u = ord_user_id o /\ pl = ord_plan_id o /\
      amount = ord_amount_minor o /\ currency = ord_currency o
  | PaymentCanceledData i oid u at_ =>
      ob_topic r = topic_canceled /\ pay_status p = PaymentCanceled /\ pay_canceled_at p = Some (timestamptz at_) /\
      i = pay_id p /\ oid = ord_id o /\ u = ord_user_id o
  end.

Record Inv (d : db) : Prop := {
  i_order_key : forall k o, orders d !! k = Some o -> ord_id o = k;
  i_pay_key : forall k p, payments d !! k = Some p -> pay_id p = k;
  i_pay_order : forall k p, payments d !! k = Some p -> exists o, orders d !! pay_order_id p = Some o /\
    pay_amount_minor p = ord_amount_minor o /\ pay_currency p = ord_currency o /\ agree (ord_status o) (pay_status p);
  i_pay_unique : forall k k' p p', payments d !! k = Some p -> payments d !! k' = Some p' ->
    pay_order_id p = pay_order_id p' -> k = k';
  i_order_pay : forall k o, orders d !! k = Some o -> ord_status o <> OrderCreated ->
    exists kp p, payments d !! kp = Some p /\ pay_order_id p = k;
  i_open : forall k k' o o', orders d !! k = Some o -> orders d !! k' = Some o' -> ord_user_id o = ord_user_id o' ->
    open_status (ord_status o) = true -> open_status (ord_status o') = true -> k = k';
  i_provider_key : forall k k' p p', payments d !! k = Some p -> payments d !! k' = Some p' ->
    pay_provider_idempotency_key p = pay_provider_idempotency_key p' -> k = k';
  i_provider_id : forall k k' p p' i, payments d !! k = Some p -> payments d !! k' = Some p' ->
    pay_provider_payment_id p = Some i -> pay_provider_payment_id p' = Some i -> k = k';
  i_out_key : forall k r, outbox d !! k = Some r -> ob_event_id r = k;
  i_out_unique : forall k k' r r', outbox d !! k = Some r -> outbox d !! k' = Some r' -> ob_topic r = ob_topic r' ->
    ob_aggregate_id r = ob_aggregate_id r' -> k = k';
  i_out_says : forall k r, outbox d !! k = Some r -> exists p o, payments d !! ob_aggregate_id r = Some p /\
    orders d !! pay_order_id p = Some o /\ event_says r p o;
  i_out_told : forall k p, payments d !! k = Some p ->
    match pay_status p with
    | PaymentSucceeded => exists kr r, outbox d !! kr = Some r /\ ob_topic r = topic_succeeded /\ ob_aggregate_id r = k
    | PaymentCanceled => exists kr r, outbox d !! kr = Some r /\ ob_topic r = topic_canceled /\ ob_aggregate_id r = k
    | _ => True
    end;
  i_keys : forall u op key row, idempotency_keys d !! (u, op, key) = Some row ->
    (op = "create_order"%string -> exists o, orders d !! ik_resource_id row = Some o /\ ord_user_id o = u) /\
    (op = "create_payment"%string -> exists p o, payments d !! ik_resource_id row = Some p /\
       orders d !! pay_order_id p = Some o /\ ord_user_id o = u);
  i_named : orders d !! ""%string = None
}.
Lemma billing_Inv_empty : Inv empty_db.
Proof. split; intros; simpl in *; simplify_map_eq; try reflexivity. Qed.

(** ** What never changes *)

Definition pay_identity (p : payment_row) :=
  (pay_id p, pay_order_id p, pay_provider p, pay_provider_idempotency_key p, pay_amount_minor p, pay_currency p,
   pay_provider_create_deadline p, pay_created_at p).
Definition pay_outcome (p : payment_row) := (pay_status p, pay_paid_at p, pay_canceled_at p).
Record pay_evolves (p p' : payment_row) : Prop := {
  pe_identity : pay_identity p' = pay_identity p;
  pe_provider : forall i, pay_provider_payment_id p = Some i -> pay_provider_payment_id p' = Some i;
  pe_final : unsettled (pay_status p) = false -> pay_outcome p' = pay_outcome p
}.
Definition ord_identity (o : order_row) :=
  (ord_id o, ord_user_id o, ord_amount_minor o, ord_currency o, ord_plan_id o, ord_region o, ord_terms o, ord_snapshot o,
   ord_created_at o).
Definition ord_evolves (o o' : order_row) : Prop :=
  ord_identity o' = ord_identity o /\ (open_status (ord_status o) = false -> ord_status o' = ord_status o).
Definition out_content (r : outbox_row) := (ob_event_id r, ob_topic r, ob_partition_key r, ob_aggregate_id r, ob_payload r).

Lemma pay_evolves_refl p : pay_evolves p p.
Proof. by split. Qed.
Lemma pay_evolves_trans p1 p2 p3 : pay_evolves p1 p2 -> pay_evolves p2 p3 -> pay_evolves p1 p3.
Proof.
  intros [I1 P1 F1] [I2 P2 F2]. split; [congruence|auto|]. intros H. specialize (F1 H). rewrite F2; [done|].
  by injection F1 as -> _ _.
Qed.
Lemma ord_evolves_refl o : ord_evolves o o.
Proof. by split. Qed.
Lemma ord_evolves_trans o1 o2 o3 : ord_evolves o1 o2 -> ord_evolves o2 o3 -> ord_evolves o1 o3.
Proof. intros [I1 F1] [I2 F2]. split; [congruence|]. intros H. specialize (F1 H). by rewrite F2, F1; rewrite ?F1. Qed.
#[export] Hint Resolve pay_evolves_refl ord_evolves_refl : core.

Record settles (d d' : db) : Prop := {
  se_payments : grows pay_evolves (payments d) (payments d');
  se_orders : grows ord_evolves (orders d) (orders d');
  se_outbox : grows (fun r r' => out_content r' = out_content r) (outbox d) (outbox d');
  se_keys : idempotency_keys d ⊆ idempotency_keys d'
}.

Lemma bill_settles_refl d : settles d d.
Proof. split; try apply grows_refl; auto. Qed.
Lemma bill_settles_trans d1 d2 d3 : settles d1 d2 -> settles d2 d3 -> settles d1 d3.
Proof.
  intros [P1 O1 B1 K1] [P2 O2 B2 K2]. split.
  - eapply grows_trans; eauto using pay_evolves_trans.
  - eapply grows_trans; eauto using ord_evolves_trans.
  - eapply grows_trans; [|done..]. congruence.
  - by etrans.
Qed.
Definition Good (d0 d : db) : Prop := Inv d /\ settles d0 d.
Lemma Good_step d0 d d' : Good d0 d -> Inv d' -> settles d d' -> Good d0 d'.
Proof. intros [_ H1] H2 H3. split; [done|by eapply bill_settles_trans]. Qed.

(** ** Payments that stay in their phase *)

Record pay_sim (p p' : payment_row) : Prop := {
  ps_evolves : pay_evolves p p';
  ps_phase : pay_status p' = pay_status p \/ (unsettled (pay_status p) = true /\ unsettled (pay_status p') = true)
}.
Lemma pay_sim_refl p : pay_sim p p.
Proof. split; auto. Qed.
#[export] Hint Resolve pay_sim_refl : core.
Definition providers_distinct (m : table payment_row) : Prop := forall k k' p p' i, m !! k = Some p ->
  m !! k' = Some p' -> pay_provider_payment_id p = Some i -> pay_provider_payment_id p' = Some i -> k = k'.

Lemma agree_sim o p p' : pay_sim p p' -> agree o (pay_status p) -> agree o (pay_status p').
Proof.
  intros [_ [->|[H1 H2]]]; [done|]. destruct o; simpl; [done|done|intros E|intros [E|E]]; by rewrite E in H1.
Qed.
Lemma settled_sim p p' : pay_sim p p' -> unsettled (pay_status p') = false -> pay_outcome p' = pay_outcome p.
Proof.
  intros [[_ _ F] [E|[_ H]]] Hu; [|congruence]. apply F. by rewrite <- E.
Qed.
Lemma event_says_sim r p p' o : pay_sim p p' -> event_says r p o -> event_says r p' o.
Proof.
  intros Hs. unfold event_says. destruct (ps_evolves _ _ Hs) as [[= I1 _ _ _ _ _ _ _] _ F]. rewrite I1.
  destruct (env_Data (ob_payload r)); intros (H1 & H2 & H3 & H4);
    (assert (unsettled (pay_status p) = false) as Hu by (by rewrite H2)); injection (F Hu) as F1 F2 F3;
    rewrite F1, ?F2, ?F3; (split; [done|]); by repeat split; try apply H4.
Qed.

Lemma Inv_pay_sim d m : Inv d -> pointwise pay_sim (payments d) m -> providers_distinct m ->
  Inv (set_payments (fun _ => m) d) /\ settles d (set_payments (fun _ => m) d).
Proof.
  intros HI Hm Hd.
  assert (forall k p', m !! k = Some p' -> exists p, payments d !! k = Some p /\ pay_sim p p' /\
    pay_id p' = pay_id p /\ pay_order_id p' = pay_order_id p /\ pay_amount_minor p' = pay_amount_minor p /\
    pay_currency p' = pay_currency p /\ pay_provider_idempotency_key p' = pay_provider_idempotency_key p) as Hb.
  { intros k p' (p & Hp & Hs)%(pointwise_bwd _ _ _ _ _ Hm). exists p. destruct (ps_evolves _ _ Hs) as [[= I1 I2 _ I4 I5 I6 _ _] _ _].
    by split_and!. }
  split; [split; simpl|].
  - apply HI.
  - intros k p (q & Hq & _ & -> & _)%Hb. by apply HI.
  - intros k p (q & Hq & Hs & _ & -> & -> & -> & _)%Hb. destruct (i_pay_order _ HI k q Hq) as (o & Ho & E1 & E2 & Ha).
    exists o. split_and!; try done. by eapply agree_sim.
  - intros k k' p p' (q & Hq & _ & _ & -> & _)%Hb (q' & Hq' & _ & _ & -> & _)%Hb. by apply (i_pay_unique _ HI).
  - intros k o Hk Ho. destruct (i_order_pay _ HI k o Hk Ho) as (kp & p & Hp & <-).
    destruct (pointwise_fwd _ _ _ _ _ Hm Hp) as (p' & Hp' & Hs). exists kp, p'. split; [done|].
    by destruct (ps_evolves _ _ Hs) as [[= _ -> _ _ _ _ _ _] _ _].
  - apply HI.
  - intros k k' p p' (q & Hq & _ & _ & _ & _ & _ & ->)%Hb (q' & Hq' & _ & _ & _ & _ & _ & ->)%Hb.
    by apply (i_provider_key _ HI).
  - exact Hd.
  - apply HI.
  - apply HI.
  - intros k r Hk. destruct (i_out_says _ HI k r Hk) as (p & o & Hp & Ho & He).
    destruct (pointwise_fwd _ _ _ _ _ Hm Hp) as (p' & Hp' & Hs). exists p', o. split; [done|].
    destruct (ps_evolves _ _ Hs) as [[= _ -> _ _ _ _ _ _] _ _]. split; [done|by eapply event_says_sim].
  - intros k p' (p & Hp & Hs & _)%Hb. pose proof (i_out_told _ HI k p Hp) as Ht.
    pose proof (settled_sim _ _ Hs) as Hf. destruct (pay_status p') eqn:E; try done;
      injection (Hf eq_refl) as E' _ _; by rewrite <- E', ?E in Ht.
  - intros u op key row Hk. destruct (i_keys _ HI u op key row Hk) as [H1 H2]. split; [done|].
    intros Hop. destruct (H2 Hop) as (p & o & Hp & Ho & Hu). destruct (pointwise_fwd _ _ _ _ _ Hm Hp) as (p' & Hp' & Hs).
    exists p', o. by destruct (ps_evolves _ _ Hs) as [[= _ -> _ _ _ _ _ _] _ _].
  - apply HI.
  - split; simpl; try apply grows_refl; auto. intros k p Hk. destruct (pointwise_fwd _ _ _ _ _ Hm Hk) as (p' & Hp' & Hs).
    exists p'. split; [done|apply Hs].
Qed.

Definition provider_free (d : db) (k : string) (p : payment_row) : Prop := forall k' q i, payments d !! k' = Some q ->
  pay_provider_payment_id q = Some i -> pay_provider_payment_id p = Some i -> k' = k.
Lemma providers_insert d k p : Inv d -> provider_free d k p -> providers_distinct (<[k:=p]> (payments d)).
Proof.
  intros HI Hf j j' q q' i. rewrite !lookup_insert. case_decide; case_decide; subst; intros H1 H2 E1 E2; simplify_eq.
  - done.
  - symmetry. by eapply Hf.
  - by eapply Hf.
  - by eapply (i_provider_id _ HI).
Qed.
Lemma provider_free_kept d k p p' : Inv d -> payments d !! k = Some p ->
  pay_provider_payment_id p' = pay_provider_payment_id p -> provider_free d k p'.
Proof. intros HI Hk E k' q i Hq Eq. rewrite E. intros E'. by eapply (i_provider_id _ HI). Qed.
Lemma provider_id_free_true d k p p' : Inv d -> payments d !! k = Some p -> pay_id p' = pay_id p ->
  provider_id_free p' d = true -> provider_free d k p'.
Proof.
  intros HI Hk Ei. unfold provider_id_free. rewrite negb_true_iff, exists_row_false. intros H k' q i Hq Eq E'.
  specialize (H k' q Hq). apply bool_decide_eq_false in H. destruct (decide (k' = k)) as [|Hne]; [done|]. destruct H.
  split_and!; [|congruence|congruence]. rewrite Ei, (i_pay_key _ HI _ _ Hq), (i_pay_key _ HI _ _ Hk). done.
Qed.
Lemma Good_pay_sim d0 d k p p' : Good d0 d -> payments d !! k = Some p -> pay_sim p p' -> provider_free d k p' ->
  Good d0 (set_payments (insert k p') d).
Proof.
  intros HG Hk Hs Hf. destruct (Inv_pay_sim d (<[k:=p']> (payments d))) as [H1 H2].
  - apply HG.
  - by apply (pointwise_insert _ _ _ p).
  - apply providers_insert; [apply HG|done].
  - by eapply Good_step.
Qed.

(** ** A payment is settled *)

(** The order takes the final status, and the event is written. *)
Definition settled_outbox (d : db) (k : string) (p' : payment_row) (o : order_row) (out : table outbox_row) : Prop :=
  match pay_status p' with
  | PaymentFailed => out = outbox d
  | _ => exists ev r, out = <[ev:=r]> (outbox d) /\ outbox d !! ev = None /\ ob_event_id r = ev /\
      ob_aggregate_id r = k /\ event_says r p' o
  end.
Lemma unsettled_silent d k p r : Inv d -> payments d !! k = Some p -> unsettled (pay_status p) = true ->
  forall j, outbox d !! j = Some r -> ob_aggregate_id r <> k.
Proof.
  intros HI Hk Hu j Hj <-. destruct (i_out_says _ HI j r Hj) as (q & o & Hq & _ & He). rewrite Hk in Hq. injection Hq as <-.
  unfold event_says in He. destruct (env_Data (ob_payload r)); destruct He as (_ & E & _); by rewrite E in Hu.
Qed.
Lemma event_topic r p o : event_says r p o ->
  (pay_status p = PaymentSucceeded /\ ob_topic r = topic_succeeded) \/
  (pay_status p = PaymentCanceled /\ ob_topic r = topic_canceled).
Proof. unfold event_says. destruct (env_Data (ob_payload r)); naive_solver. Qed.

Section settle.
Context (d : db) (k : string) (p p' : payment_row) (o : order_row) (st : OrderStatus) (out : table outbox_row).
Context (HI : Inv d) (Hk : payments d !! k = Some p) (Hu : unsettled (pay_status p) = true).
Context (Ho : orders d !! pay_order_id p = Some o) (He : pay_evolves p p').
Context (Hprov : pay_provider_payment_id p' = pay_provider_payment_id p).
Context (Hst : agree st (pay_status p')) (Hopen : open_status st = false).
Context (Hout : settled_outbox d k p' (set_order_status st o) out).
Let d' : db := MkDB (<[pay_order_id p := set_order_status st o]> (orders d)) (<[k:=p']> (payments d))
  (idempotency_keys d) (webhooks d) out.

Lemma settle_ids : pay_id p' = k /\ pay_order_id p' = pay_order_id p /\ ord_id o = pay_order_id p /\
  pay_amount_minor p' = pay_amount_minor p /\ pay_currency p' = pay_currency p /\
  pay_provider_idempotency_key p' = pay_provider_idempotency_key p.
Proof.
  destruct He as [[= I1 I2 _ I4 I5 I6 _ _] _ _]. split_and!; try done; [rewrite I1|]; by apply HI.
Qed.
Lemma settle_order_pending : ord_status o = OrderPaymentPending.
Proof.
  destruct (i_pay_order _ HI k p Hk) as (o' & Ho' & _ & _ & Ha). rewrite Ho in Ho'. injection Ho' as <-.
  destruct (ord_status o); simpl in Ha; [done|done|by rewrite Ha in Hu|by destruct Ha as [E|E]; rewrite E in Hu].
Qed.
(** Rows of other payments and orders are as they were. *)
Lemma settle_payment_cases j q : payments d' !! j = Some q -> (j = k /\ q = p') \/ (j <> k /\ payments d !! j = Some q).
Proof. simpl. rewrite lookup_insert. case_decide; [intros [= <-]; by left|by right]. Qed.
Lemma settle_order_cases j q : orders d' !! j = Some q ->
  (j = pay_order_id p /\ q = set_order_status st o) \/ (j <> pay_order_id p /\ orders d !! j = Some q).
Proof. simpl. rewrite lookup_insert. case_decide; [intros [= <-]; by left|by right]. Qed.
Lemma settle_order_keep j q : orders d !! j = Some q -> exists q', orders d' !! j = Some q' /\ ord_evolves q q' /\
  (j <> pay_order_id p -> q' = q).
Proof.
  intros Hj. simpl. rewrite lookup_insert. case_decide as E; [|exists q; by split_and!]. subst j.
  rewrite Ho in Hj. injection Hj as <-. eexists. split_and!; [done| |done]. split; [done|]. by rewrite settle_order_pending.
Qed.
Lemma settle_payment_keep j q : payments d !! j = Some q -> exists q', payments d' !! j = Some q' /\ pay_evolves q q' /\
  pay_order_id q' = pay_order_id q /\ (j <> k -> q' = q).
Proof.
  intros Hj. simpl. rewrite lookup_insert. case_decide as E; [|exists q; by split_and!]. subst j.
  rewrite Hk in Hj. injection Hj as <-. exists p'. split_and!; try done. apply settle_ids.
Qed.
Lemma settle_out j r : out !! j = Some r -> outbox d !! j = Some r \/
  (outbox d !! j = None /\ ob_event_id r = j /\ ob_aggregate_id r = k /\ event_says r p' (set_order_status st o)).
Proof.
  intros Hj. unfold settled_outbox in Hout. destruct (pay_status p'); try (subst; by left);
    destruct Hout as (ev & r' & -> & H1 & H2 & H3 & H4); rewrite lookup_insert in Hj; case_decide; simplify_eq; auto.
Qed.
Lemma settle_out_new j j' r r' : out !! j = Some r -> out !! j' = Some r' -> outbox d !! j = None ->
  outbox d !! j' = None -> j = j'.
Proof.
  intros Hj Hj' Hn Hn'. unfold settled_outbox in Hout. destruct (pay_status p'); try (subst; congruence);
    destruct Hout as (ev & r0 & -> & _); rewrite !lookup_insert in *; repeat case_decide; congruence.
Qed.
Lemma settle_out_keep j r : outbox d !! j = Some r -> out !! j = Some r.
Proof.
  intros Hj. unfold settled_outbox in Hout. destruct (pay_status p'); try (by subst);
    destruct Hout as (ev & r' & -> & H1 & _); rewrite lookup_insert_ne; congruence.
Qed.
Lemma settle_told : match pay_status p' with
    | PaymentSucceeded => exists kr r, out !! kr = Some r /\ ob_topic r = topic_succeeded /\ ob_aggregate_id r = k
    | PaymentCanceled => exists kr r, out !! kr = Some r /\ ob_topic r = topic_canceled /\ ob_aggregate_id r = k
    | _ => True end.
Proof.
  pose proof Hout as H. unfold settled_outbox in H. destruct (pay_status p') eqn:E; try done;
    destruct H as (ev & r & -> & _ & _ & Ha & Hs); exists ev, r; (split; [apply lookup_insert_eq|]);
    destruct (event_topic _ _ _ Hs) as [[E1 E2]|[E1 E2]]; by try congruence.
Qed.

Lemma settle_payment_back j q : payments d' !! j = Some q -> exists q0, payments d !! j = Some q0 /\
  pay_order_id q = pay_order_id q0 /\ pay_provider_idempotency_key q = pay_provider_idempotency_key q0 /\
  pay_provider_payment_id q = pay_provider_payment_id q0.
Proof.
  destruct settle_ids as (_ & I2 & _ & _ & _ & I6). intros [[-> ->]|[_ Hj]]%settle_payment_cases; [by exists p|by exists q].
Qed.
Lemma settle_order_back j q : orders d' !! j = Some q -> exists q0, orders d !! j = Some q0 /\
  ord_user_id q = ord_user_id q0 /\ (open_status (ord_status q) = true -> open_status (ord_status q0) = true) /\
  (ord_status q <> OrderCreated -> ord_status q0 <> OrderCreated).
Proof.
  intros [[-> ->]|[_ Hj]]%settle_order_cases; [|by exists q]. exists o. split_and!; [done|done|simpl; congruence|].
  by rewrite settle_order_pending.
Qed.

Lemma settle_says j r : out !! j = Some r -> exists q oq, payments d' !! ob_aggregate_id r = Some q /\
  orders d' !! pay_order_id q = Some oq /\ event_says r q oq.
Proof.
  destruct settle_ids as (_ & I2 & _). intros [Hj|(_ & _ & -> & Hs)]%settle_out.
  - destruct (i_out_says _ HI j r Hj) as (q & oq & Hq & Hoq & Hs).
    assert (ob_aggregate_id r <> k) as Hne by (by eapply unsettled_silent).
    destruct (settle_payment_keep _ _ Hq) as (q' & Hq' & _ & _ & Heq). rewrite (Heq Hne) in Hq'.
    destruct (settle_order_keep _ _ Hoq) as (oq' & Hoq' & _ & Heqo). exists q, oq'. split_and!; [done|done|].
    rewrite Heqo; [done|]. intros E. apply Hne. by eapply (i_pay_unique _ HI).
  - exists p', (set_order_status st o). split_and!; [simpl; apply lookup_insert_eq| |done].
    simpl. rewrite I2. apply lookup_insert_eq.
Qed.

Lemma settle_Inv : Inv d'.
Proof.
  destruct settle_ids as (I1 & I2 & I3 & I4 & I5 & I6). split.
  - intros j q [[-> ->]|[_ Hj]]%settle_order_cases; [done|by apply HI].
  - intros j q [[-> ->]|[_ Hj]]%settle_payment_cases; [done|by apply HI].
  - intros j q [[-> ->]|[Hne Hj]]%settle_payment_cases.
    + rewrite I2. simpl. rewrite lookup_insert_eq. eexists. split; [done|]. simpl. rewrite I4, I5.
      destruct (i_pay_order _ HI k p Hk) as (o' & Ho' & E1 & E2 & _). rewrite Ho in Ho'. by injection Ho' as <-.
    + destruct (i_pay_order _ HI j q Hj) as (o' & Ho' & E1 & E2 & Ha).
      destruct (settle_order_keep _ _ Ho') as (o2 & Ho2 & _ & Heq). rewrite Heq in Ho2; [by eauto|].
      intros E. apply Hne. by eapply (i_pay_unique _ HI).
  - intros j j' q q' (q0 & H0 & -> & _)%settle_payment_back (q1 & H1 & -> & _)%settle_payment_back.
    by apply (i_pay_unique _ HI).
  - intros j q (q0 & H0 & _ & _ & Hc)%settle_order_back Hs. destruct (i_order_pay _ HI j q0 H0 (Hc Hs)) as (kp & x & Hx & <-).
    destruct (settle_payment_keep _ _ Hx) as (x' & Hx' & _ & E & _). eauto.
  - intros j j' q q' (q0 & H0 & -> & F0 & _)%settle_order_back (q1 & H1 & -> & F1 & _)%settle_order_back E S0 S1.
    eapply (i_open _ HI); eauto.
  - intros j j' q q' (q0 & H0 & _ & -> & _)%settle_payment_back (q1 & H1 & _ & -> & _)%settle_payment_back.
    by apply (i_provider_key _ HI).
  - intros j j' q q' i (q0 & H0 & _ & _ & ->)%settle_payment_back (q1 & H1 & _ & _ & ->)%settle_payment_back.
    by apply (i_provider_id _ HI).
  - intros j r [Hj|(_ & Hj & _)]%settle_out; [by apply HI|done].
  - intros j j' r r' Hr Hr' Et Ea. destruct (settle_out j r Hr) as [Hj|(Hn & Hj & Ha & Hs)],
      (settle_out j' r' Hr') as [Hj'|(Hn' & Hj' & Ha' & Hs')].
    + by eapply (i_out_unique _ HI).
    + exfalso. eapply (unsettled_silent d k p r); eauto. congruence.
    + exfalso. eapply (unsettled_silent d k p r'); eauto. congruence.
    + by eapply settle_out_new.
  - apply settle_says.
  - intros j q [[-> ->]|[Hne Hj]]%settle_payment_cases; [apply settle_told|].
    pose proof (i_out_told _ HI j q Hj) as Ht. destruct (pay_status q); try done;
      destruct Ht as (kr & r & Hr & ? & ?); exists kr, r; (split; [by apply settle_out_keep|done]).
  - intros u op key row Hkr. destruct (i_keys _ HI u op key row Hkr) as [K1 K2]. split; intros Hop.
    + destruct (K1 Hop) as (oq & Hoq & <-). destruct (settle_order_keep _ _ Hoq) as (oq' & Hoq' & [[= _ E _ _ _ _ _ _ _] _] & _). eauto.
    + destruct (K2 Hop) as (q & oq & Hq & Hoq & <-). destruct (settle_payment_keep _ _ Hq) as (q' & Hq' & _ & E & _).
      destruct (settle_order_keep _ _ Hoq) as (oq' & Hoq' & [[= _ E' _ _ _ _ _ _ _] _] & _). exists q', oq'. rewrite E. by split_and!.
  - simpl. rewrite lookup_insert_ne; [apply HI|]. intros E. pose proof (i_named _ HI) as Hn. congruence.
Qed.
Lemma settle_settles : settles d d'.
Proof.
  split; simpl.
  - intros j q Hj. destruct (settle_payment_keep _ _ Hj) as (q' & Hq' & Hev & _). eauto.
  - intros j q Hj. destruct (settle_order_keep _ _ Hj) as (q' & Hq' & Hev & _). eauto.
  - intros j r Hj. exists r. split; [by apply settle_out_keep|done].
  - done.
Qed.
End settle.

(** ** New rows *)

Lemma fresh_ne {A} (m : table A) k j x : m !! k = None -> m !! j = Some x -> j <> k.
Proof. congruence. Qed.

Lemma Inv_new_order d k o : Inv d -> orders d !! k = None -> ord_id o = k -> k <> ""%string -> ord_status o = OrderCreated ->
  (forall j q, orders d !! j = Some q -> ord_user_id q = ord_user_id o -> open_status (ord_status q) = false) ->
  Inv (set_orders (insert k o) d) /\ settles d (set_orders (insert k o) d).
Proof.
  intros HI Hk Hid Hne Hs Huser.
  assert (forall j q, orders d !! j = Some q -> <[k:=o]> (orders d) !! j = Some q) as Hold
    by (intros j q Hj; rewrite lookup_insert_ne by (by eapply not_eq_sym, fresh_ne); exact Hj).
  assert (forall j q, <[k:=o]> (orders d) !! j = Some q -> (j = k /\ q = o) \/ orders d !! j = Some q) as Hback.
  { intros j q. rewrite lookup_insert. case_decide; [intros [= <-]; by left|by right]. }
  split; [split; simpl|].
  - intros j q [[-> ->]|Hj]%Hback; [done|by apply HI].
  - apply HI.
  - intros j p Hj. destruct (i_pay_order _ HI j p Hj) as (q & Hq & H). eauto.
  - apply HI.
  - intros j q [[-> ->]|Hj]%Hback Hs0; [done|by apply (i_order_pay _ HI j q)].
  - intros j j' q q' [[-> ->]|Hj]%Hback [[-> ->]|Hj']%Hback E S0 S1; [done| | |by eapply (i_open _ HI)].
    + by rewrite (Huser _ _ Hj') in S1.
    + by rewrite (Huser _ _ Hj) in S0.
  - apply HI.
  - apply HI.
  - apply HI.
  - apply HI.
  - intros j r Hj. destruct (i_out_says _ HI j r Hj) as (p & q & Hp & Hq & He). eauto 6.
  - apply HI.
  - intros u op key row Hr. destruct (i_keys _ HI u op key row Hr) as [K1 K2]. split; intros Hop.
    + destruct (K1 Hop) as (q & Hq & Hu). eauto.
    + destruct (K2 Hop) as (p & q & Hp & Hq & Hu). eauto 6.
  - rewrite lookup_insert_ne by done. apply HI.
  - split; simpl; try (apply grows_refl; auto); [|done]. apply grows_insert; [auto|]. intros q Hq. congruence.
Qed.

Section new_payment.
Context (d : db) (k : string) (p : payment_row) (o : order_row).
Context (HI : Inv d) (Hk : payments d !! k = None) (Hid : pay_id p = k) (Ho : orders d !! pay_order_id p = Some o).
Context (Hopen : open_status (ord_status o) = true).
Context (Hnone : forall j q, payments d !! j = Some q -> pay_order_id q <> pay_order_id p /\
  pay_provider_idempotency_key q <> pay_provider_idempotency_key p).
Context (Hsame : pay_amount_minor p = ord_amount_minor o /\ pay_currency p = ord_currency o).
Context (Hnew : pay_status p = PaymentCreated /\ pay_provider_payment_id p = None).
Let o' : order_row := set_order_status OrderPaymentPending o.
Let d' : db := MkDB (<[pay_order_id p := o']> (orders d)) (<[k:=p]> (payments d)) (idempotency_keys d) (webhooks d) (outbox d).

Lemma new_payment_created : ord_status o = OrderCreated.
Proof.
  destruct (ord_status o) eqn:E; try done; destruct (i_order_pay _ HI _ _ Ho) as (j & q & Hj & Eq); try congruence;
    by destruct (Hnone j q Hj) as [[] _].
Qed.
Lemma new_payment_back j q : payments d' !! j = Some q -> (j = k /\ q = p) \/ (j <> k /\ payments d !! j = Some q).
Proof. simpl. rewrite lookup_insert. case_decide; [intros [= <-]; by left|by right]. Qed.
Lemma new_payment_keep j q : payments d !! j = Some q -> payments d' !! j = Some q.
Proof. intros Hj. simpl. by rewrite lookup_insert_ne by congruence. Qed.
Lemma new_payment_order_back j q : orders d' !! j = Some q ->
  (j = pay_order_id p /\ q = o') \/ (j <> pay_order_id p /\ orders d !! j = Some q).
Proof. simpl. rewrite lookup_insert. case_decide; [intros [= <-]; by left|by right]. Qed.
Lemma new_payment_order_keep j q : orders d !! j = Some q -> exists q', orders d' !! j = Some q' /\
  ord_identity q' = ord_identity q /\ (j <> pay_order_id p -> q' = q).
Proof.
  intros Hj. simpl. rewrite lookup_insert. case_decide as E; [|exists q; by split_and!]. subst j.
  rewrite Ho in Hj. injection Hj as <-. by exists o'.
Qed.
Lemma new_payment_stays j q oq : payments d !! j = Some q -> orders d !! pay_order_id q = Some oq ->
  orders d' !! pay_order_id q = Some oq.
Proof.
  intros Hq Hoq. destruct (new_payment_order_keep _ _ Hoq) as (x & Hx & _ & E). rewrite E in Hx; [done|].
  by apply (Hnone _ _ Hq).
Qed.

Lemma new_payment_Inv : Inv d'.
Proof.
  pose proof new_payment_created as Hc. destruct Hsame as [E1 E2], Hnew as [S1 S2]. split.
  - intros j q [[-> ->]|[_ Hj]]%new_payment_order_back; [simpl; by apply HI|by apply HI].
  - intros j q [[-> ->]|[_ Hj]]%new_payment_back; [done|by apply HI].
  - intros j q [[-> ->]|[Hne Hj]]%new_payment_back.
    + exists o'. simpl. rewrite lookup_insert_eq. split_and!; try done. by rewrite S1.
    + destruct (i_pay_order _ HI j q Hj) as (oq & Hoq & H). exists oq. split; [by eapply new_payment_stays|done].
  - intros j j' q q' [[-> ->]|[_ Hj]]%new_payment_back [[-> ->]|[_ Hj']]%new_payment_back E; [done| | |by eapply (i_pay_unique _ HI)].
    + by destruct (Hnone _ _ Hj') as [[] _].
    + by destruct (Hnone _ _ Hj) as [[] _].
  - intros j q [[-> ->]|[Hne Hj]]%new_payment_order_back Hs.
    + exists k, p. split; [simpl; apply lookup_insert_eq|done].
    + destruct (i_order_pay _ HI j q Hj Hs) as (kp & x & Hx & Ex). exists kp, x. split; [by apply new_payment_keep|done].
  - intros j j' q q' Hq Hq' E F F'.
    assert (forall j q, orders d' !! j = Some q -> open_status (ord_status q) = true -> exists q0, orders d !! j = Some q0 /\
      ord_user_id q0 = ord_user_id q /\ open_status (ord_status q0) = true) as Hb.
    { intros i x [[-> ->]|[_ Hi]]%new_payment_order_back Hx; [by exists o|by exists x]. }
    destruct (Hb _ _ Hq F) as (q0 & H0 & U0 & F0), (Hb _ _ Hq' F') as (q1 & H1 & U1 & F1).
    eapply (i_open _ HI); eauto. congruence.
  - intros j j' q q' [[-> ->]|[_ Hj]]%new_payment_back [[-> ->]|[_ Hj']]%new_payment_back E; [done| | |by eapply (i_provider_key _ HI)].
    + by destruct (Hnone _ _ Hj') as [_ []].
    + by destruct (Hnone _ _ Hj) as [_ []].
  - intros j j' q q' i [[-> ->]|[_ Hj]]%new_payment_back [[-> ->]|[_ Hj']]%new_payment_back F F'; [done|congruence..|].
    by eapply (i_provider_id _ HI).
  - apply HI.
  - apply HI.
  - intros j r Hj. destruct (i_out_says _ HI j r Hj) as (q & oq & Hq & Hoq & He). exists q, oq.
    split_and!; [by apply new_payment_keep|by eapply new_payment_stays|done].
  - intros j q [[-> ->]|[_ Hj]]%new_payment_back; [by rewrite S1|by apply (i_out_told _ HI)].
  - intros u op key row Hr. destruct (i_keys _ HI u op key row Hr) as [K1 K2]. split; intros Hop.
    + destruct (K1 Hop) as (q & Hq & <-). destruct (new_payment_order_keep _ _ Hq) as (q' & Hq' & [= _ E _ _ _ _ _ _ _] & _). eauto.
    + destruct (K2 Hop) as (q & oq & Hq & Hoq & Hu). exists q, oq. split_and!; [by apply new_payment_keep|by eapply new_payment_stays|done].
  - simpl. rewrite lookup_insert_ne; [apply HI|]. intros E. pose proof (i_named _ HI) as Hn. congruence.
Qed.
Lemma new_payment_settles : settles d d'.
Proof.
  split; simpl.
  - apply grows_insert; [auto|]. intros q Hq. congruence.
  - intros j q Hj. destruct (new_payment_order_keep _ _ Hj) as (q' & Hq' & Hi & Heq). exists q'. split; [done|]. split; [done|].
    intros Hf. destruct (decide (j = pay_order_id p)) as [->|Hne]; [|by rewrite Heq]. rewrite Ho in Hj. injection Hj as <-.
    by rewrite Hopen in Hf.
  - by apply grows_refl.
  - done.
Qed.
End new_payment.

Lemma Inv_new_key d u op key row : Inv d -> idempotency_keys d !! (u, op, key) = None ->
  (op = "create_order"%string -> exists o, orders d !! ik_resource_id row = Some o /\ ord_user_id o = u) ->
  (op = "create_payment"%string -> exists p o, payments d !! ik_resource_id row = Some p /\
     orders d !! pay_order_id p = Some o /\ ord_user_id o = u) ->
  Inv (set_keys (insert (u, op, key) row) d) /\ settles d (set_keys (insert (u, op, key) row) d).
Proof.
  intros HI Hk H1 H2. split; [split; simpl; try apply HI|].
  - intros u' op' key' row'. rewrite lookup_insert. case_decide as E; [|by apply HI]. injection E as <- <- <-.
    intros [= <-]. by split.
  - split; simpl; try (apply grows_refl; auto). by apply insert_subseteq.
Qed.

(** Webhooks do not matter; outbox rows keep their content. *)
Lemma Inv_webhooks d f : Inv d -> Inv (set_webhooks f d) /\ settles d (set_webhooks f d).
Proof. intros [*]. split; [by split|]. split; simpl; try (apply grows_refl; auto); done. Qed.
Definition same_content (r r' : outbox_row) : Prop := out_content r' = out_content r.
Lemma event_says_content r r' p o : same_content r r' -> event_says r p o -> event_says r' p o.
Proof. intros [= _ E1 _ _ E2]. unfold event_says. by rewrite E1, E2. Qed.
Lemma Inv_outbox d m : Inv d -> pointwise same_content (outbox d) m ->
  Inv (set_outbox (fun _ => m) d) /\ settles d (set_outbox (fun _ => m) d).
Proof.
  intros HI Hm. assert (forall k r, m !! k = Some r -> exists r0, outbox d !! k = Some r0 /\ same_content r0 r /\
    ob_event_id r = ob_event_id r0 /\ ob_topic r = ob_topic r0 /\ ob_aggregate_id r = ob_aggregate_id r0) as Hb.
  { intros k r (r0 & H0 & Hs)%(pointwise_bwd _ _ _ _ _ Hm). exists r0. pose proof Hs as [= E1 E2 _ E3 _]. by split_and!. }
  split; [split; simpl; try apply HI|].
  - intros k r (r0 & H0 & _ & -> & _)%Hb. by apply HI.
  - intros k k' r r' (r0 & H0 & _ & _ & -> & ->)%Hb (r1 & H1 & _ & _ & -> & ->)%Hb. by apply (i_out_unique _ HI).
  - intros k r (r0 & H0 & Hs & _ & _ & ->)%Hb. destruct (i_out_says _ HI k r0 H0) as (p & o & Hp & Ho & He).
    exists p, o. split_and!; [done|done|by eapply event_says_content].
  - intros k p Hk. pose proof (i_out_told _ HI k p Hk) as Ht.
    assert (forall t, (exists kr r, outbox d !! kr = Some r /\ ob_topic r = t /\ ob_aggregate_id r = k) ->
      exists kr r, m !! kr = Some r /\ ob_topic r = t /\ ob_aggregate_id r = k) as Hup.
    { intros t (kr & r & Hr & <- & <-). destruct (pointwise_fwd _ _ _ _ _ Hm Hr) as (r' & Hr' & [= _ E2 _ E3 _]).
      exists kr, r'. by split_and!. }
    destruct (pay_status p); auto.
  - split; simpl; try (apply grows_refl; auto); [|done]. by apply grows_pointwise.
Qed.
