(* ===== verification/BillingSteps.v ===== *)
(** * billing-service: every operation keeps the store invariant

    What the statements of the store do when they succeed, and that each
    operation leads from a coherent database to a coherent one in which
    nothing settled has changed. *)

From Stdlib Require Import List.
From S2P Require Import Prelude GoStrings Backoff Platform BillingDomain BillingStore BillingInv.

(** ** Statements *)

Definition payment_updated (k : string) (p : payment_row -> bool) (f : payment_row -> payment_row) (r : payment_row)
    (d : db) : Prop :=
  payments d !! k = Some r /\ p r = true /\ enforce_payment_invariants r (f r) = true /\
  payment_checks (f r) = true /\ provider_id_free (f r) d = true.
Lemma update_payment_run k p f t x t' : update_payment k p f t = (x, t') ->
  (exists e, x = Err e /\ t' = t) \/
  (x = Ok false /\ t' = t /\ forall r, payments (working t) !! k = Some r -> p r = false) \/
  (x = Ok true /\ exists r, payment_updated k p f r (working t) /\
     t' = Txn (durable t) (set_payments (insert k (f r)) (working t))).
Proof.
  unfold update_payment. rewrite run_get. destruct (payments (working t) !! k) as [r|] eqn:Hk.
  2: { intros [= <- <-]. right. left. by split_and!. }
  destruct (p r) eqn:Hp.
  2: { intros [= <- <-]. right. left. split_and!; [done|done|]. intros ? [= <-]. done. }
  unfold require. destruct (enforce_payment_invariants r (f r)) eqn:He; [rewrite run_ret|intros [= <- <-]; eauto].
  destruct (payment_checks (f r) && provider_id_free (f r) (working t)) eqn:Hc; [rewrite run_ret|intros [= <- <-]; eauto].
  apply andb_true_iff in Hc as [Hc1 Hc2]. rewrite run_modify. intros [= <- <-]. right. right. split; [done|].
  exists r. by repeat split.
Qed.
Lemma quiet_update_payment k p f : quiet (update_payment k p f).
Proof. unfold update_payment. tx_auto. Qed.

Lemma update_order_ok k p st t t' : update_order k p st t = (Ok tt, t') ->
  (t' = t /\ forall o, orders (working t) !! k = Some o -> p (ord_status o) = false) \/
  exists o, orders (working t) !! k = Some o /\ p (ord_status o) = true /\ order_transition (ord_status o) st = true /\
    t' = Txn (durable t) (set_orders (insert k (set_order_status st o)) (working t)).
Proof.
  unfold update_order. rewrite run_get. destruct (orders (working t) !! k) as [o|] eqn:Hk.
  2: { intros [= <-]. left. by split. }
  destruct (p (ord_status o)) eqn:Hp.
  2: { intros [= <-]. left. split; [done|]. intros ? [= <-]. done. }
  unfold require. destruct (order_transition (ord_status o) st) eqn:He; [rewrite run_ret|done].
  intros [= <-]. right. by exists o.
Qed.
Lemma quiet_update_order k p st : quiet (update_order k p st).
Proof. unfold update_order. tx_auto. Qed.

Lemma insert_outbox_ok now ev topic key agg payload t t' : insert_outbox now ev topic key agg payload t = (Ok tt, t') ->
  (t' = t /\ exists j r, outbox (working t) !! j = Some r /\ ob_topic r = topic /\ ob_aggregate_id r = agg) \/
  (outbox (working t) !! ev = None /\
   t' = Txn (durable t) (set_outbox (insert ev (MkOutRow ev topic key agg payload OPending 0 now None now None)) (working t))).
Proof.
  unfold insert_outbox. rewrite run_get. destruct (exists_row _ _) eqn:E.
  - intros [= <-]. left. split; [done|]. apply exists_row_true in E as (j & r & Hj & [H1 H2]%bool_decide_eq_true). eauto.
  - unfold require. case_bool_decide as Hn; [rewrite run_ret|done]. intros [= <-]. by right.
Qed.
Lemma quiet_insert_outbox now ev topic key agg payload : quiet (insert_outbox now ev topic key agg payload).
Proof. unfold insert_outbox. tx_auto. Qed.
Lemma quiet_insert_key u op key hash res : quiet (insert_key u op key hash res).
Proof. unfold insert_key. tx_auto. Qed.
#[export] Hint Resolve quiet_update_payment quiet_update_order quiet_insert_outbox quiet_insert_key : txdb.

Lemma insert_key_ok u op key hash res t t' : insert_key u op key hash res t = (Ok tt, t') ->
  idempotency_keys (working t) !! (u, op, key) = None /\
  t' = Txn (durable t) (set_keys (insert (u, op, key) (MkIdempotency hash res)) (working t)).
Proof.
  unfold insert_key. rewrite run_get. unfold require. destruct (_ && _); [rewrite run_ret|done].
  case_bool_decide as Hn; [rewrite run_ret|done]. by intros [= <-].
Qed.

(** ** Views *)

Lemma getPayment_ok k d v : getPayment k d = Ok v ->
  exists p o, payments d !! k = Some p /\ orders d !! pay_order_id p = Some o /\ v = payment_view p o.
Proof.
  unfold getPayment, join_order, found. destruct (payments d !! k) as [p|]; simpl; [|done].
  destruct (orders d !! pay_order_id p) as [o|] eqn:E; simpl; [|done]. intros [= <-]. by exists p, o.
Qed.
Lemma getOrder_ok u k d v : getOrder u k d = Ok v ->
  exists o, orders d !! k = Some o /\ ord_user_id o = u /\ v = order_view o.
Proof.
  unfold getOrder. destruct (orders d !! k) as [o|]; [|done]. case_bool_decide; [|done]. intros [= <-]. by exists o.
Qed.
Lemma payment_where_Some q d p : payment_where q d = Some p -> q p = true /\ exists k, payments d !! k = Some p.
Proof.
  unfold payment_where. intros H. apply elem_where. destruct (where_ q (payments d)); simplify_eq/=. by left.
Qed.
Lemma payment_where_None q d : payment_where q d = None -> forall k p, payments d !! k = Some p -> q p = false.
Proof.
  unfold payment_where. intros H k p Hk. destruct (q p) eqn:Hq; [|done].
  assert (p ∈ where_ q (payments d)) as Hin by (apply elem_where; eauto).
  destruct (where_ q (payments d)); [by apply not_elem_of_nil in Hin|done].
Qed.
Lemma getPayment_of_order_ok k d v : Inv d -> getPayment_of_order k d = Ok v ->
  exists p o, payments d !! pay_id p = Some p /\ pay_order_id p = k /\ orders d !! k = Some o /\ v = payment_view p o.
Proof.
  intros HI. unfold getPayment_of_order, join_order, found. destruct (payment_where _ d) as [p|] eqn:E; simpl; [|done].
  apply payment_where_Some in E as [E%bool_decide_eq_true (j & Hj)]. subst k.
  destruct (orders d !! pay_order_id p) as [o|] eqn:Eo; simpl; [|done]. intros [= <-]. exists p, o.
  by rewrite (i_pay_key _ HI _ _ Hj).
Qed.
Lemma getPayment_of_order_err k d e : Inv d -> getPayment_of_order k d = Err e ->
  e = ErrNotFound /\ forall j p, payments d !! j = Some p -> pay_order_id p <> k.
Proof.
  intros HI. unfold getPayment_of_order, join_order, found. destruct (payment_where _ d) as [p|] eqn:E; simpl.
  - apply payment_where_Some in E as [_ (j & Hj)]. destruct (i_pay_order _ HI _ _ Hj) as (o & -> & _). done.
  - intros [= <-]. split; [done|]. intros j p Hj. apply (payment_where_None _ _ E) in Hj. by apply bool_decide_eq_false in Hj.
Qed.
Lemma getPayment_by_provider_ok i d v : Inv d -> getPayment_by_provider i d = Ok v ->
  exists p o, payments d !! pay_id p = Some p /\ pay_provider_payment_id p = Some i /\
    orders d !! pay_order_id p = Some o /\ v = payment_view p o.
Proof.
  intros HI. unfold getPayment_by_provider, join_order, found. destruct (payment_where _ d) as [p|] eqn:E; simpl; [|done].
  apply payment_where_Some in E as [E%bool_decide_eq_true (j & Hj)].
  destruct (orders d !! pay_order_id p) as [o|] eqn:Eo; simpl; [|done]. intros [= <-]. exists p, o.
  by rewrite (i_pay_key _ HI _ _ Hj).
Qed.

(** ** Payments in flight *)

(** An update that leaves identity and outcome, and moves the status only
    among the unsettled ones. *)
Lemma pay_sim_update r r' : enforce_payment_invariants r r' = true -> pay_identity r' = pay_identity r ->
  pay_paid_at r' = pay_paid_at r -> pay_canceled_at r' = pay_canceled_at r ->
  (pay_status r' = pay_status r \/ unsettled (pay_status r') = true) -> pay_sim r r'.
Proof.
  intros [He Ht]%andb_true_iff Hi Hp Hc Hs.
  assert (pay_status r' = pay_status r \/ (unsettled (pay_status r) = true /\ unsettled (pay_status r') = true)) as Hph.
  { destruct Hs as [Hs|Hs]; [by left|]. unfold payment_transition in Ht. rewrite orb_true_iff, bool_decide_eq_true in Ht.
    destruct Ht as [Ht|Ht]; [by left|]. destruct (pay_status r); [by right..|done|done|done]. }
  split; [split|done]; [done| |].
  - intros i Hi'. rewrite Hi' in He. by apply bool_decide_eq_true in He.
  - intros Hu. unfold pay_outcome. rewrite Hp, Hc. destruct Hph as [->|[Hu' _]]; [done|congruence].
Qed.

Lemma good_payment_updated d0 d k p f r : Good d0 d -> payment_updated k p f r d -> pay_identity (f r) = pay_identity r ->
  pay_paid_at (f r) = pay_paid_at r -> pay_canceled_at (f r) = pay_canceled_at r ->
  (pay_status (f r) = pay_status r \/ unsettled (pay_status (f r)) = true) ->
  Good d0 (set_payments (insert k (f r)) d).
Proof.
  intros HG (Hk & _ & He & _ & Hf) Hi Hp Hc Hs. eapply Good_pay_sim; [done..| |].
  - by apply pay_sim_update.
  - eapply provider_id_free_true; [apply HG|done| |done]. injection Hi as -> _ _ _ _ _ _ _. done.
Qed.
Lemma good_update_payment d0 k p f : (forall r, pay_identity (f r) = pay_identity r /\ pay_paid_at (f r) = pay_paid_at r /\
    pay_canceled_at (f r) = pay_canceled_at r) ->
  (forall r, pay_status (f r) = pay_status r \/ unsettled (pay_status (f r)) = true) ->
  preserves (Good d0) (update_payment k p f).
Proof.
  intros Hf Hs. apply preserves_result; [apply quiet_update_payment|]. intros t b t' HG Hr.
  destruct (update_payment_run _ _ _ _ _ _ Hr) as [(e & [=] & _)|[(_ & -> & _)|(_ & r & Hu & ->)]]; [done|]. simpl.
  destruct (Hf r) as (? & ? & ?). by eapply good_payment_updated.
Qed.

Lemma good_apply_provider_create d0 now k pp : preserves (Good d0) (apply_provider_create now k pp).
Proof.
  unfold apply_provider_create. apply preserves_bind; [|intros b; tx_auto]. apply good_update_payment; [done|].
  intros r. right. simpl. by case_bool_decide.
Qed.
Definition bound_row (now : Z) (pp : ProviderPayment) (p : payment_row) : payment_row :=
  set_payment (if bool_decide (pp_Status pp = "pending"%string) then PaymentPending else PaymentVerificationPending)
    (Some (pp_ProviderPaymentID pp)) (pp_ConfirmationURL pp) now None (pay_reconcile_attempts p) None (pay_paid_at p)
    (pay_canceled_at p) p.
Lemma apply_provider_create_run now k pp d x t' : apply_provider_create now k pp (Txn d d) = (x, t') ->
  durable t' = d \/ exists p, payments d !! k = Some p /\ durable t' = set_payments (insert k (bound_row now pp p)) d.
Proof.
  unfold apply_provider_create. intros [(b & t1 & H1 & H2)|(e & H1 & ->)]%bind_inv.
  - rewrite run_commit in H2. assert (durable t' = working t1) as -> by (by destruct b; injection H2 as _ <-).
    destruct (update_payment_run _ _ _ _ _ _ H1) as [(e & [=] & _)|[(_ & -> & _)|(_ & r & (Hk & _) & ->)]]; [by left|].
    right. by exists r.
  - left. by destruct (update_payment_run _ _ _ _ _ _ H1) as [(? & _ & ->)|[([=] & _)|([=] & _)]].
Qed.
Lemma good_MarkProviderCreateAmbiguous d0 now k code delay : preserves (Good d0) (MarkProviderCreateAmbiguous now k code delay).
Proof. unfold MarkProviderCreateAmbiguous. apply preserves_bind; [|intros b; tx_auto]. apply good_update_payment; [done|]. by right. Qed.
Lemma good_claim_payment d0 now lease locked : preserves (Good d0) (claim_payment now lease locked).
Proof. unfold claim_payment. tx_auto. apply good_update_payment; [done|]. by left. Qed.
Lemma good_ReschedulePayment d0 now k code delay : preserves (Good d0) (ReschedulePayment now k code delay).
Proof. unfold ReschedulePayment. apply preserves_bind; [|intros b; tx_auto]. apply good_update_payment; [done|]. by left. Qed.

(** ** Webhooks and the outbox *)

Lemma good_webhooks d0 d f : Good d0 d -> Good d0 (set_webhooks f d).
Proof. intros HG. destruct (Inv_webhooks d f) as [H1 H2]; [apply HG|]. by eapply Good_step. Qed.
Lemma good_InsertWebhook d0 now n : preserves (Good d0) (InsertWebhook now n).
Proof. unfold InsertWebhook. tx_auto. apply preserves_modify. intros d. apply good_webhooks. Qed.
Lemma good_ClaimWebhook d0 now lease locked : preserves (Good d0) (ClaimWebhook now lease locked).
Proof. unfold ClaimWebhook. tx_auto. apply preserves_modify. intros d. apply good_webhooks. Qed.
Lemma good_update_webhook d0 i f : preserves (Good d0) (update_webhook i f).
Proof. unfold update_webhook. tx_auto. apply preserves_modify. intros d. apply good_webhooks. Qed.

Lemma good_outbox d0 d m : Good d0 d -> pointwise same_content (outbox d) m -> Good d0 (set_outbox (fun _ => m) d).
Proof. intros HG Hm. destruct (Inv_outbox d m) as [H1 H2]; [apply HG|done|]. by eapply Good_step. Qed.
Lemma bill_good_ClaimOutbox d0 now lease locked : preserves (Good d0) (ClaimOutbox now lease locked).
Proof.
  unfold ClaimOutbox. apply preserves_read. intros d HG t Hw.
  destruct (first_by _ _ _) as [r|] eqn:E; [|by rewrite run_commit; simpl; rewrite Hw].
  rewrite run_modify, run_commit. simpl. rewrite Hw.
  enough (Good d0 (set_outbox (insert (ob_event_id r)
    (set_out OProcessing (ob_attempts r + 1) (ob_next_attempt_at r) (Some (now + lease)) (ob_published_at r) r)) d)) by done.
  apply (good_outbox _ _ (<[ob_event_id r := _]> (outbox d))); [done|]. apply first_by_Some in E as [_ (k & Hk)].
  pose proof (i_out_key _ (proj1 HG) _ _ Hk) as Hid. rewrite Hid. by eapply pointwise_insert.
Qed.
Lemma good_update_out d0 ev f : (forall r, same_content r (f r)) -> preserves (Good d0) (update_out ev f).
Proof.
  intros Hf. unfold update_out. tx_auto. apply preserves_modify. intros d HG. apply (good_outbox _ _ (update_where _ f (outbox d))); [done|].
  apply pointwise_update_where; [done|]. intros k x _ _. apply Hf.
Qed.

(** ** Settling *)

Lemma good_settle d0 d k p p' o st out : Good d0 d -> payments d !! k = Some p -> unsettled (pay_status p) = true ->
  orders d !! pay_order_id p = Some o -> pay_evolves p p' -> pay_provider_payment_id p' = pay_provider_payment_id p ->
  agree st (pay_status p') -> open_status st = false -> settled_outbox d k p' (set_order_status st o) out ->
  Good d0 (MkDB (<[pay_order_id p := set_order_status st o]> (orders d)) (<[k:=p']> (payments d)) (idempotency_keys d)
             (webhooks d) out).
Proof. intros HG ????????. eapply Good_step; [done|eapply settle_Inv|eapply settle_settles]; try done; apply HG. Qed.

Lemma transition_unsettled p st : payment_transition (pay_status p) st = true -> pay_status p <> st -> unsettled (pay_status p) = true.
Proof.
  unfold payment_transition. rewrite orb_true_iff, bool_decide_eq_true. intros [H|H] Hne; [congruence|].
  by destruct (pay_status p).
Qed.
(** The order of an unsettled payment waits for it. *)
Lemma unsettled_order d k p o : Inv d -> payments d !! k = Some p -> orders d !! pay_order_id p = Some o ->
  unsettled (pay_status p) = true -> ord_status o = OrderPaymentPending.
Proof.
  intros HI Hk Ho Hu. destruct (i_pay_order _ HI _ _ Hk) as (o' & Ho' & _ & _ & Ha). rewrite Ho in Ho'. injection Ho' as <-.
  destruct (ord_status o); simpl in Ha; [done|done|by rewrite Ha in Hu|by destruct Ha as [E|E]; rewrite E in Hu].
Qed.

(** *** A payment fails, and its order is canceled with it *)

Definition rows_of (k : string) (p : payment_row) (o : order_row) (d : db) : Prop :=
  payments d !! k = Some p /\ orders d !! pay_order_id p = Some o.
(** After the update of the payment, [b] telling whether it took place. *)
Definition updated (d0 : db) (k : string) (q : payment_row -> bool) (f : payment_row -> payment_row) (p : payment_row)
    (o : order_row) (b : bool) (d1 : db) : Prop :=
  exists d, Good d0 d /\ rows_of k p o d /\
    (if b then payment_updated k q f p d /\ d1 = set_payments (insert k (f p)) d else q p = false /\ d1 = d).
Lemma keeps_update d0 k q f p o I : leads I (fun d => Good d0 d /\ rows_of k p o d) (update_payment k q f) (updated d0 k q f p o).
Proof.
  apply leads_quiet; [apply quiet_update_payment|]. intros t b t' [HG Hr] E.
  destruct (update_payment_run _ _ _ _ _ _ E) as [(e & [=] & _)|[([= ->] & -> & Hn)|([= ->] & r & Hu & ->)]].
  - exists (working t). destruct Hr as [Hk Ho]. split_and!; [done|done|by apply Hn|done].
  - exists (working t). split; [done|]. split; [done|]. destruct Hr as [Hk _]. pose proof Hu as [Hk' _].
    rewrite Hk in Hk'. by injection Hk' as <-.
Qed.
Lemma updated_false d0 k q f p o d : updated d0 k q f p o false d -> Good d0 d.
Proof. by intros (d1 & HG & _ & _ & ->). Qed.

Lemma keeps_fail d0 k q code p o I : leads I (updated d0 k q (fail_payment code) p o true)
  (update_order (pay_order_id p) open_status OrderCanceled) (fun _ => Good d0).
Proof.
  apply leads_quiet; [apply quiet_update_order|]. intros t [] t' (d & HG & [Hk Ho] & Hu & Ew) H2%update_order_ok.
  rewrite Ew in H2. simpl in H2. rewrite Ho in H2.
  pose proof Hu as (_ & _ & He & _). apply andb_true_iff in He as [_ Ht]. simpl in Ht.
  destruct (decide (pay_status p = PaymentFailed)) as [Es|Es].
  - destruct H2 as [(-> & _)|(o' & [= <-] & Hop & _)].
    + rewrite Ew. eapply good_payment_updated; try done. by left.
    + destruct (i_pay_order _ (proj1 HG) _ _ Hk) as (o' & Ho' & _ & _ & Ha). rewrite Ho in Ho'. injection Ho' as <-.
      rewrite Es in Ha. by destruct (ord_status o).
  - pose proof (transition_unsettled p PaymentFailed Ht Es) as Hun.
    pose proof (unsettled_order _ _ _ _ (proj1 HG) Hk Ho Hun) as Eo.
    destruct H2 as [(-> & Hno)|(o' & [= <-] & _ & _ & ->)].
    + specialize (Hno o eq_refl). by rewrite Eo in Hno.
    + simpl. eapply (good_settle d0 d); try done; [|by right]. split; [done|done|]. intros E. congruence.
Qed.

Definition paid_for (d0 : db) (k : string) (v : PaymentOperation) (d : db) : Prop :=
  Good d0 d /\ exists p o, rows_of k p o d /\ v = payment_view p o.
Lemma keeps_getPayment d0 k : leads (Good d0) (Good d0) (query (getPayment k)) (paid_for d0 k).
Proof. apply leads_query. intros d v HG (p & o & Hk & Ho & ->)%getPayment_ok. split; [done|]. by exists p, o. Qed.
Lemma keeps_paid_for {A} d0 k v (m : bill_tx A) Q :
  (forall p o, v = payment_view p o -> leads (Good d0) (fun d => Good d0 d /\ rows_of k p o d) m Q) ->
  leads (Good d0) (paid_for d0 k v) m Q.
Proof. intros H t (HG & p & o & Hr & ->). by apply (H p o). Qed.

Lemma good_PrepareProviderCreate d0 k observedAt : preserves (Good d0) (PrepareProviderCreate k observedAt).
Proof.
  unfold PrepareProviderCreate. apply leads_preserves. eapply leads_bind; [apply keeps_getPayment|]. intros v.
  apply keeps_paid_for. intros p o ->. cbv zeta. destruct (_ || _); [apply leads_end; tauto|].
  destruct (_ <=? _); [|apply leads_end; tauto]. cbn [OrderID payment_view].
  eapply leads_bind; [apply keeps_update|]. intros b.
  eapply (leads_bind _ _ _ _ (fun _ => Good d0)).
  - destruct b; [apply keeps_fail|]. intros t (d & _ & _ & [=] & _).
  - intros x. eapply leads_bind; [apply keeps_getPayment|]. intros v. apply leads_end. by intros d [HG _].
Qed.

Lemma good_MarkProviderCreateFailed d0 k code : preserves (Good d0) (MarkProviderCreateFailed k code).
Proof.
  unfold MarkProviderCreateFailed. apply leads_preserves, leads_read. intros d HG.
  destruct (payments d !! k) as [p|] eqn:Hk.
  - destruct (i_pay_order _ (proj1 HG) _ _ Hk) as (o & Ho & _).
    apply (leads_weaken _ _ (fun d' => Good d0 d' /\ rows_of k p o d') _ _ (fun _ => Good d0)); [|by intros d' [HG' ->]|done].
    eapply leads_bind; [apply keeps_update|]. intros b. eapply (leads_bind _ _ _ _ (fun _ => Good d0)); [|by intros x; apply leads_commit].
    destruct b; [|by apply leads_ret, updated_false]. rewrite bool_decide_false; [apply keeps_fail|].
    intros E. rewrite E, (i_named _ (proj1 HG)) in Ho. done.
  - apply (leads_bind _ _ _ _ (fun _ => Good d0)).
    2: { intros b. apply (leads_bind _ _ _ _ (fun _ => Good d0)); [by apply leads_ret|intros x; by apply leads_commit]. }
    apply leads_quiet; [apply quiet_update_payment|]. intros t b t' [HG' Ew] E.
    destruct (update_payment_run _ _ _ _ _ _ E) as [(e & _ & ->)|[(_ & -> & _)|(_ & r & (Hk' & _) & _)]]; [done|done|congruence].
Qed.

(** *** The provider's verdict is applied *)

Definition verdict (pp : ProviderPayment) : PayStatus :=
  if bool_decide (pp_Status pp = "succeeded"%string) then PaymentSucceeded else PaymentCanceled.
Definition order_verdict (pp : ProviderPayment) : OrderStatus :=
  if bool_decide (pp_Status pp = "succeeded"%string) then OrderPaid else OrderCanceled.
Definition settled_row (pp : ProviderPayment) (at_ : Z) (p : payment_row) : payment_row :=
  if bool_decide (pp_Status pp = "succeeded"%string) then settle_payment PaymentSucceeded (Some (timestamptz at_)) (pay_canceled_at p) p
  else settle_payment PaymentCanceled (pay_paid_at p) (Some (timestamptz at_)) p.
Lemma buildPaymentEvent_says d k p o pp corr ev topic at_ payload now : Inv d -> rows_of k p o d ->
  buildPaymentEvent (payment_view p o) pp corr ev = Ok (topic, at_, payload) ->
  event_says (MkOutRow ev topic ("user:" +:+ ord_user_id o) (pay_id p) payload OPending 0 now None now None)
    (settled_row pp at_ p) (set_order_status (order_verdict pp) o).
Proof.
  intros HI [Hk Ho]. destruct (i_pay_order _ HI _ _ Hk) as (o' & Ho' & E1 & E2 & _). rewrite Ho in Ho'. injection Ho' as <-.
  pose proof (i_order_key _ HI _ _ Ho) as Eo.
  unfold buildPaymentEvent, event_says, settled_row. case_bool_decide.
  - destruct (pp_CapturedAt pp); [|done]. intros [= <- <- <-]. by split_and!.
  - case_bool_decide; [|done]. destruct (pp_CanceledAt pp); [|done]. intros [= <- <- <-]. by split_and!.
Qed.

(** The whole effect of an outcome. *)
Definition settled_db (now : Z) (ev topic : string) (pp : ProviderPayment) (at_ : Z) (payload : Envelope event_data)
    (k : string) (p : payment_row) (o : order_row) (d : db) : db :=
  MkDB (<[pay_order_id p := set_order_status (order_verdict pp) o]> (orders d)) (<[k := settled_row pp at_ p]> (payments d))
    (idempotency_keys d) (webhooks d)
    (<[ev := MkOutRow ev topic ("user:" +:+ ord_user_id o) k payload OPending 0 now None now None]> (outbox d)).
Lemma good_settled_db d0 d now corr ev topic pp at_ payload k p o : Good d0 d -> rows_of k p o d ->
  payment_transition (pay_status p) (verdict pp) = true -> pay_status p <> verdict pp -> outbox d !! ev = None ->
  buildPaymentEvent (payment_view p o) pp corr ev = Ok (topic, at_, payload) ->
  Good d0 (settled_db now ev topic pp at_ payload k p o d).
Proof.
  intros HG Hr Ht Hne Hev Hb. pose proof (transition_unsettled p _ Ht Hne) as Hu. destruct Hr as [Hk Ho].
  pose proof (buildPaymentEvent_says _ _ _ _ _ _ _ _ _ _ now (proj1 HG) (conj Hk Ho) Hb) as Hs.
  rewrite (i_pay_key _ (proj1 HG) _ _ Hk) in Hs. unfold settled_db.
  eapply (good_settle d0 d); try done.
  - unfold settled_row. case_bool_decide; (split; [done|done|intros E; congruence]).
  - unfold settled_row. by case_bool_decide.
  - unfold settled_row, order_verdict. case_bool_decide; [done|by left].
  - unfold order_verdict. by case_bool_decide.
  - unfold settled_outbox. revert Hs. unfold settled_row. case_bool_decide; simpl; eauto 10.
Qed.

(** The three updates of an outcome, run one after the other. *)
Definition settle_steps (now : Z) (eventID : string) (current : PaymentOperation) (pp : ProviderPayment)
    (topic : string) (at_ : Z) (payload : Envelope event_data) : bill_tx unit :=
  (if bool_decide (pp_Status pp = "succeeded"%string) then
     update_payment (PaymentID current) (fun _ => true) (fun p => settle_payment PaymentSucceeded (Some (timestamptz at_)) (pay_canceled_at p) p) ;;;
     update_order (OrderID current) (fun _ => true) OrderPaid
   else
     update_payment (PaymentID current) (fun _ => true) (fun p => settle_payment PaymentCanceled (pay_paid_at p) (Some (timestamptz at_)) p) ;;;
     update_order (OrderID current) (fun _ => true) OrderCanceled) ;;;
  insert_outbox now eventID topic ("user:" +:+ UserID current)%string (PaymentID current) payload.
Lemma settle_steps_eq now eventID current pp topic at_ payload t :
  settle_steps now eventID current pp topic at_ payload t =
  (update_payment (PaymentID current) (fun _ => true) (settled_row pp at_) ;;;
   update_order (OrderID current) (fun _ => true) (order_verdict pp) ;;;
   insert_outbox now eventID topic ("user:" +:+ UserID current)%string (PaymentID current) payload) t.
Proof.
  unfold settle_steps, settled_row, order_verdict, bind.
  case_bool_decide; (destruct (update_payment _ _ _ t) as [[?|?] t1]; [|done]); by destruct (update_order _ _ _ t1) as [[?|?] ?].
Qed.
Lemma settle_steps_ok now eventID pp corr topic at_ payload k p o t t' : Inv (working t) -> rows_of k p o (working t) ->
  pay_status p <> verdict pp -> buildPaymentEvent (payment_view p o) pp corr eventID = Ok (topic, at_, payload) ->
  settle_steps now eventID (payment_view p o) pp topic at_ payload t = (Ok tt, t') ->
  payment_transition (pay_status p) (verdict pp) = true /\ outbox (working t) !! eventID = None /\
  t' = Txn (durable t) (settled_db now eventID topic pp at_ payload k p o (working t)).
Proof.
  intros HI [Hk Ho] Hne Hb. rewrite settle_steps_eq. cbn [PaymentID OrderID UserID payment_view].
  rewrite (i_pay_key _ HI _ _ Hk). intros (b & t1 & H1 & (x & t2 & H2 & H3)%bind_ok_inv)%bind_ok_inv. destruct x.
  destruct (update_payment_run _ _ _ _ _ _ H1) as [(e & [=] & _)|[(_ & _ & Hf)|(_ & r & Hu & ->)]]; [by apply Hf in Hk|].
  destruct Hu as (Hk' & _ & He & _). rewrite Hk in Hk'. injection Hk' as <-. apply andb_true_iff in He as [_ Ht].
  assert (pay_status (settled_row pp at_ p) = verdict pp) as Es by (unfold settled_row, verdict; by case_bool_decide).
  rewrite Es in Ht. split; [done|].
  destruct (update_order_ok _ _ _ _ _ H2) as [(-> & Hf)|(o' & Ho' & _ & _ & ->)]; [by apply Hf in Ho|].
  simpl in Ho'. rewrite Ho in Ho'. injection Ho' as <-.
  destruct (insert_outbox_ok _ _ _ _ _ _ _ _ H3) as [(-> & j & r & Hj & _ & Ea)|[Hn ->]].
  - simpl in Hj. exfalso. eapply (unsettled_silent (working t) k p r); eauto. by eapply transition_unsettled.
  - done.
Qed.

(** Which of its branches [ApplyVerifiedPayment] took, when it succeeded. *)
Inductive applied (now : Z) (ev : string) (k : string) (pp : ProviderPayment) (corr : string) (d : db) : db -> Prop :=
  | applied_already p o : rows_of k p o d -> pay_status p = PaymentSucceeded \/ pay_status p = PaymentCanceled ->
      status_text (pay_status p) = pp_Status pp -> applied now ev k pp corr d d
  | applied_pending p o : rows_of k p o d -> unsettled (pay_status p) = true -> pp_Status pp = "pending"%string ->
      applied now ev k pp corr d
        (set_payments (insert k (set_payment PaymentPending (pay_provider_payment_id p) (pay_confirmation_url p)
           (now + minute) None (pay_reconcile_attempts p) None (pay_paid_at p) (pay_canceled_at p) p)) d)
  | applied_settled p o topic at_ payload : rows_of k p o d ->
      pay_status p = PaymentVerificationPending \/ pay_status p = PaymentPending -> outbox d !! ev = None ->
      buildPaymentEvent (payment_view p o) pp corr ev = Ok (topic, at_, payload) ->
      applied now ev k pp corr d (settled_db now ev topic pp at_ payload k p o d).
Lemma transition_verdict p pp : payment_transition (pay_status p) (verdict pp) = true -> pay_status p <> verdict pp ->
  pay_status p = PaymentVerificationPending \/ pay_status p = PaymentPending.
Proof.
  unfold verdict. intros Ht Hne. destruct (pay_status p); auto; case_bool_decide; try done; by vm_compute in Ht.
Qed.

Lemma ApplyVerifiedPayment_run now ev expected pp corr t x t' : Inv (working t) ->
  ApplyVerifiedPayment now ev expected pp corr t = (x, t') ->
  (exists e, x = Err e /\ durable t' = durable t) \/
  (x = Ok tt /\ exists d', applied now ev (PaymentID expected) pp corr (working t) d' /\ t' = Txn d' d').
Proof.
  intros HI. unfold ApplyVerifiedPayment. intros [(v & t1 & [-> Hv]%query_ok & H)|(e & [-> _]%run_query & ->)]%bind_inv; [|eauto].
  apply getPayment_ok in Hv as (p & o & Hk & Ho & ->). revert H. cbn [Status payment_view].
  pose proof (i_pay_key _ HI _ _ Hk) as Ek. case_bool_decide as Hfin; [|case_bool_decide as Hpend].
  - unfold require. case_bool_decide as Hs; [rewrite run_ret; unfold commit|]; intros [= <- <-]; [|left; eauto].
    right. split; [done|]. exists (working t). split; [|done]. by apply (applied_already _ _ _ _ _ _ p o).
  - cbn [PaymentID payment_view]. rewrite Ek. intros [(b & t1 & H1 & H2)|(e & H1 & ->)]%bind_inv.
    + unfold commit in H2. injection H2 as <- <-.
      destruct (update_payment_run _ _ _ _ _ _ H1) as [(e & [=] & _)|[(_ & _ & Hf)|(_ & r & Hu & ->)]]; [by apply Hf in Hk|].
      right. split; [done|]. eexists. split; [|done]. simpl. destruct Hu as (Hk' & _ & He & _). rewrite Hk in Hk'.
      injection Hk' as <-. apply (applied_pending _ _ _ _ _ _ p o); [done| |done].
      apply andb_true_iff in He as [_ Ht]. simpl in Ht. destruct (pay_status p); try done; exfalso; auto.
    + left. exists e. split; [done|]. by destruct (update_payment_run _ _ _ _ _ _ H1) as [(? & _ & ->)|[([=] & _)|([=] & _)]].
  - destruct (buildPaymentEvent _ _ _ _) as [[[topic at_] payload]|e] eqn:Hb; [|intros [= <- <-]; left; eauto].
    assert (pay_status p <> verdict pp) as Hne by (unfold verdict; case_bool_decide; intros E; apply Hfin; auto).
    intros H. assert (bind (settle_steps now ev (payment_view p o) pp topic at_ payload) (fun _ => commit) t = (x, t')) as H'.
    { rewrite <- H. apply bind_assoc. }
    apply bind_inv in H' as [([] & t1 & H1 & H2)|(e & H1 & ->)].
    + unfold commit in H2. injection H2 as <- <-. right. split; [done|].
      destruct (settle_steps_ok _ _ _ _ _ _ _ _ _ _ _ _ HI (conj Hk Ho) Hne Hb H1) as (Ht & Hn & ->). eexists. split; [|done].
      eapply applied_settled; [done| |done|done]. by eapply transition_verdict.
    + left. exists e. split; [done|].
      assert (quiet (settle_steps now ev (payment_view p o) pp topic at_ payload)) as Hq by (unfold settle_steps; tx_auto).
      by rewrite <- (Hq t), H1.
Qed.
Lemma good_applied d0 now ev k pp corr d d' : Good d0 d -> applied now ev k pp corr d d' -> Good d0 d'.
Proof.
  intros HG [p o Hr _ _|p o [Hk Ho] Hu _|p o topic at_ payload Hr Hs Hn Hb]; [done| |].
  - eapply Good_pay_sim; [done..| |by eapply provider_free_kept; [apply HG|..]].
    split; [split; [done|done|congruence]|by right].
  - eapply good_settled_db; try done; unfold verdict; case_bool_decide; by destruct Hs as [-> | ->].
Qed.
Lemma good_ApplyVerifiedPayment d0 now ev expected pp corr : preserves (Good d0) (ApplyVerifiedPayment now ev expected pp corr).
Proof.
  apply preserves_run. intros t x t' HG H. destruct (ApplyVerifiedPayment_run _ _ _ _ _ _ _ _ (proj1 HG) H) as [?|(-> & d' & Ha & ->)]; [by left|].
  right. exists tt, d'. split_and!; [done| |done]. by eapply good_applied.
Qed.

(** ** New orders *)

Definition order_of (now : Z) (k : string) (input : CreateOrderInput) : order_row :=
  let s := in_Snapshot input in
  MkOrderRow k (in_UserID input) OrderCreated (pl_AmountMinor s) (pl_Currency s) (pl_PlanID s) (in_Region input)
    (in_AcceptedTermsVersion input) s now.
Abbreviation order_key input := (in_UserID input, "create_order"%string, in_IdempotencyKey input).
Definition remember (key : string * string * string) (hash resource : string) (d : db) : db :=
  set_keys (insert key (MkIdempotency hash resource)) d.
Definition open_order (u : string) (o : order_row) : bool :=
  bool_decide (ord_user_id o = u) && open_status (ord_status o).

Inductive order_created (now : Z) (k : string) (input : CreateOrderInput) (d : db) : Order * bool -> db -> Prop :=
  | created_replay row o : idempotency_keys d !! order_key input = Some row -> ik_request_hash row = in_RequestHash input ->
      orders d !! ik_resource_id row = Some o -> ord_user_id o = in_UserID input ->
      order_created now k input d (order_view o, false) d
  | created_open k' o : idempotency_keys d !! order_key input = None -> orders d !! k' = Some o ->
      open_order (in_UserID input) o = true -> ord_snapshot o = in_Snapshot input ->
      ord_terms o = in_AcceptedTermsVersion input ->
      order_created now k input d (order_view o, false) (remember (order_key input) (in_RequestHash input) k' d)
  | created_new : idempotency_keys d !! order_key input = None ->
      (forall k' o, orders d !! k' = Some o -> open_order (in_UserID input) o = false) ->
      order_checks (order_of now k input) = true -> orders d !! k = None ->
      order_created now k input d (order_view (order_of now k input), true)
        (remember (order_key input) (in_RequestHash input) k (set_orders (insert k (order_of now k input)) d)).

Lemma lookupIdempotency_ok u op key hash d v : lookupIdempotency u op key hash d = Ok v ->
  match v with
  | None => idempotency_keys d !! (u, op, key) = None
  | Some i => exists row, idempotency_keys d !! (u, op, key) = Some row /\ ik_request_hash row = hash /\ ik_resource_id row = i
  end.
Proof.
  unfold lookupIdempotency. destruct (idempotency_keys d !! _) as [row|] eqn:E; [|by intros [= <-]].
  case_bool_decide; [|done]. intros [= <-]. by exists row.
Qed.
(** A query that follows the writes, and the commit after it. *)
Lemma finish_run {A B} (f : db -> result BillErr A) (g : A -> B) t a x t' : f (working t) = Ok a ->
  (let* v := query f in commit ;;; ret (g v)) t = (x, t') -> x = Ok (g a) /\ t' = Txn (working t) (working t).
Proof.
  intros Hf. unfold query at 1, bind at 1. rewrite run_get, Hf. simpl. rewrite run_commit. by intros [= <- <-].
Qed.
Lemma insert_key_run {B} u op key hash res (m : bill_tx B) t x t' :
  (insert_key u op key hash res ;;; m) t = (x, t') ->
  (exists e, x = Err e /\ durable t' = durable t) \/
  (idempotency_keys (working t) !! (u, op, key) = None /\
   m (Txn (durable t) (remember (u, op, key) hash res (working t))) = (x, t')).
Proof.
  intros [([] & t1 & H1 & H2)|(e & H1 & ->)]%bind_inv.
  - apply insert_key_ok in H1 as [Hn ->]. right. by split.
  - left. exists e. split; [done|]. pose proof (quiet_insert_key u op key hash res t) as Hq. by rewrite H1 in Hq.
Qed.

Lemma CreateOrder_run now k input t x t' : Inv (working t) -> CreateOrder now k input t = (x, t') ->
  (exists e, x = Err e /\ durable t' = durable t) \/
  (exists r d', x = Ok r /\ order_created now k input (working t) r d' /\ t' = Txn d' d').
Proof.
  intros HI. unfold CreateOrder. intros [(v & t1 & [-> Hv]%query_ok & H)|(e & [-> _]%run_query & ->)]%bind_inv; [|eauto].
  apply lookupIdempotency_ok in Hv. destruct v as [i|].
  - destruct Hv as (row & Hrow & Eh & <-). destruct (i_keys _ HI _ _ _ _ Hrow) as [Hk _]. destruct (Hk eq_refl) as (o & Ho & Hu).
    right. eapply (finish_run _ (fun v => (v, false)) _ (order_view o)) in H as [-> ->].
    + eexists _, _. split_and!; [done| |done]. by eapply created_replay.
    + unfold getOrder. rewrite Ho. by rewrite bool_decide_true.
  - rewrite run_get in H. unfold require in H. destruct (order_checks _) eqn:Hc; [rewrite run_ret in H|injection H as <- <-; left; eauto].
    destruct (head (where_ _ _)) as [o|] eqn:Eh.
    + apply where_head_Some in Eh as [Hop (k' & Hk')]. pose proof (i_order_key _ HI _ _ Hk') as Ek.
      destruct (bool_decide (ord_snapshot o = _) && _) eqn:Es; [|injection H as <- <-; left; eauto].
      apply andb_true_iff in Es as [Es1%bool_decide_eq_true Es2%bool_decide_eq_true]. cbn [fst snd] in H.
      unfold bind in H at 1. cbn in H. apply insert_key_run in H as [?|[Hn H]]; [by left|]. right.
      rewrite Ek in H. eapply (finish_run _ (fun v => (v, false)) _ (order_view o)) in H as [-> ->].
      * eexists _, _. split_and!; [done| |done]. by eapply created_open.
      * unfold getOrder. simpl. rewrite Hk'. apply andb_true_iff in Hop as [Hop%bool_decide_eq_true _]. by rewrite bool_decide_true.
    + case_bool_decide as Hn; [|injection H as <- <-; left; eauto].
      unfold bind in H at 1. cbn in H. apply insert_key_run in H as [?|[Hnk H]]; [by left|]. right.
      eapply (finish_run _ (fun v => (v, true)) _ (order_view (order_of now k input))) in H as [-> ->].
      * eexists _, _. split_and!; [done| |done]. apply created_new; try done. by apply where_head_None.
      * unfold getOrder. simpl. rewrite lookup_insert_eq. by rewrite bool_decide_true.
Qed.
Lemma good_CreateOrder d0 now k input : preserves (Good d0) (CreateOrder now k input).
Proof.
  apply preserves_run. intros t x t' HG H.
  destruct (CreateOrder_run _ _ _ _ _ _ (proj1 HG) H) as [?|(r & d' & -> & Hc & ->)]; [by left|].
  right. exists r, d'. split_and!; [done| |done]. pose proof (proj1 HG) as HI.
  destruct Hc as [row o _ _ _ _|k' o Hn Hk' Hop _ _|Hn Hno Hck Hk]; [done| |].
  - destruct (Inv_new_key (working t) (in_UserID input) "create_order" (in_IdempotencyKey input)
      (MkIdempotency (in_RequestHash input) k')) as [H1 H2]; [done|done| |done|by eapply Good_step].
    intros _. exists o. apply andb_true_iff in Hop as [Hop%bool_decide_eq_true _]. by split.
  - destruct (Inv_new_order (working t) k (order_of now k input)) as [H1 H2]; try done.
    { intros ->. by vm_compute in Hck. }
    { intros j q Hj E. specialize (Hno j q Hj). unfold open_order in Hno. by rewrite bool_decide_true in Hno. }
    destruct (Inv_new_key (set_orders (insert k (order_of now k input)) (working t)) (in_UserID input) "create_order"
      (in_IdempotencyKey input) (MkIdempotency (in_RequestHash input) k)) as [H3 H4]; [done|done| |done|].
    + intros _. exists (order_of now k input). split; [apply lookup_insert_eq|done].
    + eapply Good_step; [eapply (Good_step d0 (working t)); [done|exact H1|exact H2]|done..].
Qed.

(** ** New payments *)

Abbreviation payment_key input := (pi_UserID input, "create_payment"%string, pi_IdempotencyKey input).
Definition pending_order (o : order_row) : order_row := set_order_status OrderPaymentPending o.
Inductive payment_created (now wall window : Z) (k providerKey provider : string) (input : CreatePaymentInput) (d : db)
    : PaymentOperation * bool -> db -> Prop :=
  | paycreated_replay row p o : idempotency_keys d !! payment_key input = Some row -> ik_request_hash row = pi_RequestHash input ->
      rows_of (ik_resource_id row) p o d -> ord_user_id o = pi_UserID input ->
      payment_created now wall window k providerKey provider input d (payment_view p o, false) d
  | paycreated_existing k' p o : idempotency_keys d !! payment_key input = None -> rows_of k' p o d ->
      pay_order_id p = pi_OrderID input -> ord_user_id o = pi_UserID input -> open_status (ord_status o) = true ->
      payment_created now wall window k providerKey provider input d (payment_view p o, false)
        (remember (payment_key input) (pi_RequestHash input) k' d)
  | paycreated_new o : idempotency_keys d !! payment_key input = None -> orders d !! pi_OrderID input = Some o ->
      ord_user_id o = pi_UserID input -> open_status (ord_status o) = true -> payments d !! k = None ->
      (forall j q, payments d !! j = Some q -> pay_order_id q <> pi_OrderID input /\ pay_provider_idempotency_key q <> providerKey) ->
      let p := new_payment now wall window k providerKey provider (order_view o) in
      payment_created now wall window k providerKey provider input d (payment_view p (pending_order o), true)
        (remember (payment_key input) (pi_RequestHash input) k
           (set_orders (insert (pi_OrderID input) (pending_order o)) (set_payments (insert k p) d))).

Lemma insert_payment_run k (p : payment_row) o t : orders (working t) !! pay_order_id p = Some o ->
  open_status (ord_status o) = true ->
  (modify (set_payments (insert k p)) ;;;
   update_order (pay_order_id p) (fun _ => true) OrderPaymentPending ;;;
   let* v := query (getPayment k) in ret (v, true)) t =
  (Ok (payment_view p (pending_order o), true),
   Txn (durable t) (set_orders (insert (pay_order_id p) (pending_order o)) (set_payments (insert k p) (working t)))).
Proof.
  intros Ho Hop. rewrite run_modify. unfold update_order, require.
  assert (order_transition (ord_status o) OrderPaymentPending = true) as Htr by (by destruct (ord_status o)).
  unfold bind at 1 2. simpl. rewrite Ho. unfold bind at 1. rewrite Htr. unfold query, bind. simpl.
  unfold getPayment, join_order, found. simpl. rewrite lookup_insert_eq. simpl. by rewrite lookup_insert_eq.
Qed.
Lemma CreatePayment_run now wall k pkey input provider window t x t' : Inv (working t) ->
  CreatePayment now wall k pkey input provider window t = (x, t') ->
  (exists e, x = Err e /\ durable t' = durable t) \/
  (exists r d', x = Ok r /\ payment_created now wall window k pkey provider input (working t) r d' /\ t' = Txn d' d').
Proof.
  intros HI. unfold CreatePayment. intros [(v & t1 & [-> Hv]%query_ok & H)|(e & [-> _]%run_query & ->)]%bind_inv; [|eauto].
  apply lookupIdempotency_ok in Hv. destruct v as [i|].
  - destruct Hv as (row & Hrow & Eh & <-). destruct (i_keys _ HI _ _ _ _ Hrow) as [_ Hk].
    destruct (Hk eq_refl) as (p & o & Hp & Ho & Hu). right.
    eapply (finish_run _ (fun v => (v, false)) _ (payment_view p o)) in H as [-> ->].
    + eexists _, _. split_and!; [done| |done]. by eapply paycreated_replay.
    + unfold getPayment, join_order. rewrite Hp. simpl. by rewrite Ho.
  - apply bind_inv in H as [(w & t1 & [-> Hw]%query_ok & H)|(e & [-> _]%run_query & ->)]; [|eauto].
    apply getOrder_ok in Hw as (o & Ho & Hu & ->). unfold require in H. cbn [or_Status order_view] in H.
    destruct (open_status (ord_status o)) eqn:Hop; [rewrite run_ret in H|injection H as <- <-; left; eauto].
    rewrite run_get in H. destruct (getPayment_of_order _ _) as [w|e] eqn:Eg.
    + apply (getPayment_of_order_ok _ _ _ HI) in Eg as (p & o' & Hp & Eo & Ho' & ->). rewrite Ho in Ho'. injection Ho' as <-.
      rewrite run_ret in H. cbn [fst PaymentID payment_view] in H. apply insert_key_run in H as [?|[Hn H]]; [by left|].
      unfold bind, commit, ret in H. injection H as <- <-. right. eexists _, _. split_and!; [done| |done].
      eapply paycreated_existing; try done. split; [done|by rewrite Eo].
    + apply (getPayment_of_order_err _ _ _ HI) in Eg as [-> Hnone].
      destruct (bool_decide _ && _); [|injection H as <- <-; left; eauto]. cbn [or_OrderID order_view] in H.
      pose proof (i_order_key _ HI _ _ Ho) as Eo. rewrite Eo in H.
      destruct (bool_decide (payments (working t) !! k = None) && _) eqn:Efree; [|injection H as <- <-; left; eauto].
      apply andb_true_iff in Efree as [Hk%bool_decide_eq_true Efree%negb_true_iff]. rewrite exists_row_false in Efree.
      assert (forall j q, payments (working t) !! j = Some q -> pay_order_id q <> pi_OrderID input /\
        pay_provider_idempotency_key q <> pkey) as Hfree.
      { intros j q Hj. specialize (Efree j q Hj). apply bool_decide_eq_false in Efree. tauto. }
      erewrite bind_ok in H; cycle 1.
      { cbv iota. rewrite !run_ret. rewrite <- Eo.
        exact (insert_payment_run k (new_payment now wall window k pkey provider (order_view o)) o t
          ltac:(by simpl; rewrite Eo) Hop). }
      apply insert_key_run in H as [?|[Hn H]]; [by left|]. unfold bind, commit, ret in H. injection H as <- <-. right.
      eexists _, _. split_and!; [done| |done]. simpl. rewrite Eo. by apply paycreated_new.
Qed.
Lemma good_CreatePayment d0 now wall k pkey input provider window :
  preserves (Good d0) (CreatePayment now wall k pkey input provider window).
Proof.
  apply preserves_run. intros t x t' HG H. pose proof (proj1 HG) as HI.
  destruct (CreatePayment_run _ _ _ _ _ _ _ _ _ _ HI H) as [?|(r & d' & -> & Hc & ->)]; [by left|].
  right. exists r, d'. split_and!; [done| |done].
  destruct Hc as [row p o _ _ _ _|k' p o Hn [Hk' Ho] Eo Hu _|o Hn Ho Hu Hop Hk Hfree p]; [done| |].
  - destruct (Inv_new_key (working t) (pi_UserID input) "create_payment" (pi_IdempotencyKey input)
      (MkIdempotency (pi_RequestHash input) k')) as [H1 H2]; [done|done|done| |by eapply Good_step].
    intros _. by exists p, o.
  - pose proof (i_order_key _ HI _ _ Ho) as Eo.
    assert (orders (working t) !! pay_order_id p = Some o) as Ho' by (by simpl; rewrite Eo).
    assert (forall j q, payments (working t) !! j = Some q -> pay_order_id q <> pay_order_id p /\
      pay_provider_idempotency_key q <> pay_provider_idempotency_key p) as Hfree' by (simpl; by rewrite Eo).
    pose proof (new_payment_Inv (working t) k p o HI Hk eq_refl Ho' Hop Hfree' ltac:(by split) ltac:(by split)) as H1.
    pose proof (new_payment_settles (working t) k p o Hk Ho' Hop) as H2.
    change (pay_order_id p) with (ord_id o) in H1, H2. rewrite Eo in H1, H2.
    match type of H1 with Inv ?d1 => destruct (Inv_new_key d1 (pi_UserID input) "create_payment" (pi_IdempotencyKey input)
      (MkIdempotency (pi_RequestHash input) k)) as [H3 H4] end; [done|done|done| |].
    + intros _. exists p, (pending_order o). simpl. rewrite Eo, !lookup_insert_eq. by split_and!.
    + eapply Good_step; [eapply (Good_step d0 (working t)); [done|exact H1|exact H2]|done..].
Qed.
