(* ===== verification/BillingSpec.v ===== *)
(** * billing-service: what the store guarantees

    The operations of the store as one transition function, the databases its
    callers can reach, and the properties of those databases. *)

From Stdlib Require Import List.
From S2P Require Import Prelude GoStrings Backoff Platform BillingDomain BillingStore BillingInv BillingSteps.

(** ** The store as a transition system *)

Inductive op :=
  | OpCreateOrder (now : Z) (orderID : string) (input : CreateOrderInput)
  | OpCreatePayment (now wall : Z) (paymentID providerKey : string) (input : CreatePaymentInput) (provider : string)
      (window : Z)
  | OpPrepareProviderCreate (paymentID : string) (observedAt : Z)
  | OpApplyProviderCreate (now : Z) (paymentID : string) (pp : ProviderPayment)
  | OpMarkAmbiguous (now : Z) (paymentID code : string) (delay : Z)
  | OpMarkFailed (paymentID code : string)
  | OpInsertWebhook (now : Z) (n : WebhookNotification)
  | OpClaimWebhook (now lease : Z) (locked : gset string)
  | OpCompleteWebhook (now : Z) (inboxID code : string)
  | OpRejectWebhook (now : Z) (inboxID code : string)
  | OpRetryWebhook (now : Z) (inboxID code : string) (delay : Z)
  | OpClaimPayment (now lease : Z) (locked : gset string)
  | OpReschedulePayment (now : Z) (paymentID code : string) (delay : Z)
  | OpApplyVerified (now : Z) (eventID : string) (expected : PaymentOperation) (pp : ProviderPayment) (correlationID : string)
  | OpClaimOutbox (now lease : Z) (locked : gset string)
  | OpCompleteOutbox (now : Z) (eventID : string)
  | OpRetryOutbox (now : Z) (eventID : string) (delay : Z).

Definition outcome {A} (m : bill_tx A) (d : db) : option BillErr * db :=
  match in_tx m d with (Ok _, d') => (None, d') | (Err e, d') => (Some e, d') end.
Definition exec (o : op) : db -> option BillErr * db :=
  match o with
  | OpCreateOrder now k input => outcome (CreateOrder now k input)
  | OpCreatePayment now wall k pk input p w => outcome (CreatePayment now wall k pk input p w)
  | OpPrepareProviderCreate k at_ => outcome (PrepareProviderCreate k at_)
  | OpApplyProviderCreate now k pp => outcome (apply_provider_create now k pp)
  | OpMarkAmbiguous now k c dl => outcome (MarkProviderCreateAmbiguous now k c dl)
  | OpMarkFailed k c => outcome (MarkProviderCreateFailed k c)
  | OpInsertWebhook now n => outcome (InsertWebhook now n)
  | OpClaimWebhook now l k => outcome (ClaimWebhook now l k)
  | OpCompleteWebhook now i c => outcome (CompleteWebhook now i c)
  | OpRejectWebhook now i c => outcome (RejectWebhook now i c)
  | OpRetryWebhook now i c dl => outcome (RetryWebhook now i c dl)
  | OpClaimPayment now l k => outcome (claim_payment now l k)
  | OpReschedulePayment now k c dl => outcome (ReschedulePayment now k c dl)
  | OpApplyVerified now ev v pp c => outcome (ApplyVerifiedPayment now ev v pp c)
  | OpClaimOutbox now l k => outcome (ClaimOutbox now l k)
  | OpCompleteOutbox now e => outcome (CompleteOutbox now e)
  | OpRetryOutbox now e dl => outcome (RetryOutbox now e dl)
  end.

Inductive reaches (d : db) : db -> Prop :=
  | reaches_here : reaches d d
  | reaches_step d' o : reaches d d' -> reaches d (snd (exec o d')).
Definition reachable : db -> Prop := reaches empty_db.

Lemma bill_outcome_snd {A} (m : bill_tx A) d : snd (outcome m d) = snd (in_tx m d).
Proof. unfold outcome. by destruct (in_tx m d) as [[?|?] ?]. Qed.
Lemma bill_exec_good o d : Inv d -> Good d (snd (exec o d)).
Proof.
  intros HI. destruct o; cbn [exec]; rewrite bill_outcome_snd;
    (apply (preserves_in_tx (Good d)); [|by split; [|apply bill_settles_refl]]).
  - apply good_CreateOrder.
  - apply good_CreatePayment.
  - apply good_PrepareProviderCreate.
  - apply good_apply_provider_create.
  - apply good_MarkProviderCreateAmbiguous.
  - apply good_MarkProviderCreateFailed.
  - apply good_InsertWebhook.
  - apply good_ClaimWebhook.
  - apply good_update_webhook.
  - apply good_update_webhook.
  - apply good_update_webhook.
  - apply good_claim_payment.
  - apply good_ReschedulePayment.
  - apply good_ApplyVerifiedPayment.
  - apply bill_good_ClaimOutbox.
  - by apply good_update_out.
  - by apply good_update_out.
Qed.
Lemma bill_reaches_good d d' : Inv d -> reaches d d' -> Good d d'.
Proof.
  intros HI. induction 1 as [|d' o H IH]; [by split; [|apply bill_settles_refl]|].
  destruct (bill_exec_good o d' (proj1 IH)) as [H1 H2]. by eapply Good_step.
Qed.
Lemma bill_reachable_inv d : reachable d -> Inv d.
Proof. intros H. apply (bill_reaches_good empty_db); [apply billing_Inv_empty|done]. Qed.
Lemma bill_reaches_trans d1 d2 d3 : reaches d1 d2 -> reaches d2 d3 -> reaches d1 d3.
Proof. intros H. induction 1; [done|by constructor]. Qed.
Lemma reaches_in_tx {A} (m : bill_tx A) o d : (forall d', exec o d' = outcome m d') -> reaches d (snd (in_tx m d)).
Proof. intros E. rewrite <- bill_outcome_snd, <- E. apply reaches_step, reaches_here. Qed.

Fixpoint exec_all (l : list op) (d : db) : db :=
  match l with [] => d | o :: l' => exec_all l' (snd (exec o d)) end.
Fixpoint outcomes (l : list op) (d : db) : list (option BillErr) :=
  match l with [] => [] | o :: l' => fst (exec o d) :: outcomes l' (snd (exec o d)) end.
Lemma reaches_all l d : reaches d (exec_all l d).
Proof.
  revert d. induction l as [|o l IH]; intros d; simpl; [constructor|].
  eapply bill_reaches_trans; [|apply IH]. apply reaches_step, reaches_here.
Qed.

(** ** Runs of one operation *)

Lemma CreateOrder_cases now k input d x d' : Inv d -> in_tx (CreateOrder now k input) d = (x, d') ->
  (exists e, x = Err e /\ d' = d) \/ exists r, x = Ok r /\ order_created now k input d r d'.
Proof.
  intros HI H. unfold in_tx in H. destruct (CreateOrder now k input (Txn d d)) as [y t] eqn:E. injection H as <- <-.
  apply CreateOrder_run in E as [(e & -> & Ed)|(r & d1 & -> & Hc & ->)]; [left; eauto|right; eauto|done].
Qed.
Lemma CreatePayment_cases now wall k pk input pr w d x d' : Inv d ->
  in_tx (CreatePayment now wall k pk input pr w) d = (x, d') ->
  (exists e, x = Err e /\ d' = d) \/ exists r, x = Ok r /\ payment_created now wall w k pk pr input d r d'.
Proof.
  intros HI H. unfold in_tx in H. destruct (CreatePayment now wall k pk input pr w (Txn d d)) as [y t] eqn:E. injection H as <- <-.
  apply CreatePayment_run in E as [(e & -> & Ed)|(r & d1 & -> & Hc & ->)]; [left; eauto|right; eauto|done].
Qed.
Lemma ApplyVerified_cases now ev expected pp corr d x d' : Inv d ->
  in_tx (ApplyVerifiedPayment now ev expected pp corr) d = (x, d') ->
  (exists e, x = Err e /\ d' = d) \/ (x = Ok tt /\ applied now ev (PaymentID expected) pp corr d d').
Proof.
  intros HI H. unfold in_tx in H. destruct (ApplyVerifiedPayment now ev expected pp corr (Txn d d)) as [y t] eqn:E.
  injection H as <- <-. apply ApplyVerifiedPayment_run in E as [(e & -> & Ed)|(-> & d1 & Ha & ->)]; [left; eauto|by right|done].
Qed.

(** ** Coherence *)

(** C8: in every reachable database an order and its payment agree: the
    payment charges the order's amount, in its currency; a paid order has a
    succeeded payment and nothing else makes an order paid; a canceled order
    has a canceled or failed payment, and an order that waits for its payment
    an unsettled one; an order that was only created has none; an order has at
    most one payment, a user at most one open order, and a provider payment or
    a provider key belongs to at most one payment. *)
Theorem orders_and_payments_agree d :
  reachable d ->
  (forall k p, payments d !! k = Some p -> exists o, orders d !! pay_order_id p = Some o /\
     pay_amount_minor p = ord_amount_minor o /\ pay_currency p = ord_currency o /\
     (ord_status o = OrderPaid <-> pay_status p = PaymentSucceeded) /\
     (ord_status o = OrderCanceled <-> pay_status p = PaymentCanceled \/ pay_status p = PaymentFailed) /\
     (ord_status o = OrderPaymentPending <-> unsettled (pay_status p) = true)) /\
  (forall k o, orders d !! k = Some o ->
     match ord_status o with
     | OrderCreated => forall kp p, payments d !! kp = Some p -> pay_order_id p <> k
     | OrderPaymentPending => exists kp p, payments d !! kp = Some p /\ pay_order_id p = k /\ unsettled (pay_status p) = true
     | OrderPaid => exists kp p, payments d !! kp = Some p /\ pay_order_id p = k /\ pay_status p = PaymentSucceeded
     | OrderCanceled => exists kp p, payments d !! kp = Some p /\ pay_order_id p = k /\
         (pay_status p = PaymentCanceled \/ pay_status p = PaymentFailed)
     end) /\
  (forall k k' p p', payments d !! k = Some p -> payments d !! k' = Some p' ->
     pay_order_id p = pay_order_id p' \/ pay_provider_idempotency_key p = pay_provider_idempotency_key p' \/
     (exists i, pay_provider_payment_id p = Some i /\ pay_provider_payment_id p' = Some i) -> k = k') /\
  (forall k k' o o', orders d !! k = Some o -> orders d !! k' = Some o' -> ord_user_id o = ord_user_id o' ->
     open_status (ord_status o) = true -> open_status (ord_status o') = true -> k = k').
Proof.
  intros HI%bill_reachable_inv. split_and!.
  - intros k p Hk. destruct (i_pay_order _ HI _ _ Hk) as (o & Ho & E1 & E2 & Ha). exists o. split_and!; [done..| | |];
      destruct (ord_status o), (pay_status p); naive_solver.
  - intros k o Hk. pose proof (i_order_pay _ HI _ _ Hk) as Hp. destruct (ord_status o) eqn:Es.
    { intros kp p Hkp E. destruct (i_pay_order _ HI _ _ Hkp) as (o' & Ho' & _ & _ & Ha). rewrite E, Hk in Ho'.
      injection Ho' as <-. by rewrite Es in Ha. }
    all: destruct Hp as (kp & p & Hp & <-); [done|]; destruct (i_pay_order _ HI _ _ Hp) as (o' & Ho' & _ & _ & Ha);
      rewrite Hk in Ho'; injection Ho' as <-; rewrite Es in Ha; eauto.
  - intros k k' p p' H1 H2 [E|[E|(i & E1 & E2)]]; [by eapply (i_pay_unique _ HI)|by eapply (i_provider_key _ HI)|
      by eapply (i_provider_id _ HI)].
  - apply HI.
Qed.

(** C13: a payment has a success event exactly when it succeeded and a
    cancellation event exactly when it was canceled, never both and never
    twice; the event names the payment, its order, user, plan and amount as
    the tables have them, and the time it carries is the one in the table,
    which keeps it cut off to the microsecond. *)
Theorem payment_event_exactly_once d k p o :
  reachable d -> payments d !! k = Some p -> orders d !! pay_order_id p = Some o ->
  (pay_status p = PaymentSucceeded <-> exists kr r, outbox d !! kr = Some r /\ ob_aggregate_id r = k /\ ob_topic r = topic_succeeded) /\
  (pay_status p = PaymentCanceled <-> exists kr r, outbox d !! kr = Some r /\ ob_aggregate_id r = k /\ ob_topic r = topic_canceled) /\
  (forall kr kr' r r', outbox d !! kr = Some r -> outbox d !! kr' = Some r' -> ob_aggregate_id r = k ->
     ob_aggregate_id r' = k -> kr = kr') /\
  (forall kr r, outbox d !! kr = Some r -> ob_aggregate_id r = k ->
     exists at_,
       (pay_paid_at p = Some (timestamptz at_) /\ env_Data (ob_payload r) =
          PaymentSucceededData k (ord_id o) (ord_user_id o) (ord_plan_id o) (pay_amount_minor p) (pay_currency p) at_) \/
       (pay_canceled_at p = Some (timestamptz at_) /\ env_Data (ob_payload r) = PaymentCanceledData k (ord_id o) (ord_user_id o) at_)).
Proof.
  intros HI%bill_reachable_inv Hk Ho. pose proof (i_out_told _ HI _ _ Hk) as Ht.
  assert (forall kr r, outbox d !! kr = Some r -> ob_aggregate_id r = k -> event_says r p o) as Hs.
  { intros kr r Hr <-. destruct (i_out_says _ HI _ _ Hr) as (p' & o' & Hp' & Ho' & Hs). by simplify_eq. }
  split_and!.
  - split.
    + intros E. rewrite E in Ht. destruct Ht as (kr & r & ? & ? & ?). eauto.
    + intros (kr & r & Hr & Ha & Et). by destruct (event_topic _ _ _ (Hs _ _ Hr Ha)) as [[? ?]|[? E]]; [|rewrite Et in E].
  - split.
    + intros E. rewrite E in Ht. destruct Ht as (kr & r & ? & ? & ?). eauto.
    + intros (kr & r & Hr & Ha & Et). by destruct (event_topic _ _ _ (Hs _ _ Hr Ha)) as [[? E]|[? ?]]; [rewrite Et in E|].
  - intros kr kr' r r' Hr Hr' Ha Ha'. apply (i_out_unique _ HI _ _ _ _ Hr Hr'); [|congruence].
    destruct (event_topic _ _ _ (Hs _ _ Hr Ha)) as [[? ->]|[? ->]], (event_topic _ _ _ (Hs _ _ Hr' Ha')) as [[? ->]|[? ->]]; congruence.
  - intros kr r Hr Ha. destruct (i_pay_order _ HI _ _ Hk) as (o' & Ho' & E1 & E2 & _). rewrite Ho in Ho'. injection Ho' as <-.
    pose proof (i_pay_key _ HI _ _ Hk) as Ek. specialize (Hs _ _ Hr Ha). unfold event_says in Hs.
    destruct (env_Data (ob_payload r)) as [i oid u pl a c at_|i oid u at_]; exists at_; [left|right]; naive_solver congruence.
Qed.

(** What is settled stays settled: as long as the database lives, a
    payment keeps its order, amount, currency, provider key and creation
    window; once bound to a provider payment it stays bound to it; once it
    succeeded, was canceled or failed, its status and times never change; an
    order keeps what was ordered, and a paid or canceled one its status; an
    idempotency key keeps naming the same request and resource; an event
    keeps its content. *)
Theorem settled_is_final d d' :
  reachable d -> reaches d d' ->
  (forall k p, payments d !! k = Some p -> exists p', payments d' !! k = Some p' /\
     pay_identity p' = pay_identity p /\
     (forall i, pay_provider_payment_id p = Some i -> pay_provider_payment_id p' = Some i) /\
     (unsettled (pay_status p) = false -> pay_outcome p' = pay_outcome p)) /\
  (forall k o, orders d !! k = Some o -> exists o', orders d' !! k = Some o' /\ ord_identity o' = ord_identity o /\
     (open_status (ord_status o) = false -> ord_status o' = ord_status o)) /\
  (forall k row, idempotency_keys d !! k = Some row -> idempotency_keys d' !! k = Some row) /\
  (forall k r, outbox d !! k = Some r -> exists r', outbox d' !! k = Some r' /\ out_content r' = out_content r).
Proof.
  intros HI%bill_reachable_inv Hr. destruct (bill_reaches_good _ _ HI Hr) as [_ [P O B K]]. split_and!.
  - intros k p Hk. destruct (P k p Hk) as (p' & Hp' & [? ? ?]). eauto.
  - intros k o Hk. destruct (O k o Hk) as (o' & Ho' & [? ?]). eauto.
  - intros k row Hk. by apply (lookup_weaken _ _ _ _ Hk).
  - intros k r Hk. destruct (B k r Hk) as (r' & Hr' & ?). eauto.
Qed.

(** ** Requests *)

Lemma reaches_key d d' key row : Inv d -> reaches d d' -> idempotency_keys d !! key = Some row -> idempotency_keys d' !! key = Some row.
Proof. intros HI Hr Hk. destruct (bill_reaches_good _ _ HI Hr) as [_ [_ _ _ K]]. by apply (lookup_weaken _ _ _ _ Hk). Qed.
Lemma CreateOrder_replay now k input d row : Inv d -> idempotency_keys d !! order_key input = Some row ->
  exists o, orders d !! ik_resource_id row = Some o /\ ord_user_id o = in_UserID input /\
  in_tx (CreateOrder now k input) d =
    (if bool_decide (ik_request_hash row = in_RequestHash input) then Ok (order_view o, false) else Err ErrIdempotencyConflict, d).
Proof.
  intros HI Hk. destruct (proj1 (i_keys _ HI _ _ _ _ Hk) eq_refl) as (o & Ho & Hu). exists o. split; [done|]. split; [done|].
  unfold in_tx, CreateOrder, query, bind, get, lookupIdempotency. cbn [working]. rewrite Hk.
  case_bool_decide; [|done]. simpl. unfold getOrder. rewrite Ho, bool_decide_true by done. done.
Qed.
Lemma CreatePayment_replay now wall k pk input pr w d row : Inv d -> idempotency_keys d !! payment_key input = Some row ->
  exists p o, rows_of (ik_resource_id row) p o d /\ ord_user_id o = pi_UserID input /\
  in_tx (CreatePayment now wall k pk input pr w) d =
    (if bool_decide (ik_request_hash row = pi_RequestHash input) then Ok (payment_view p o, false) else Err ErrIdempotencyConflict, d).
Proof.
  intros HI Hk. destruct (proj2 (i_keys _ HI _ _ _ _ Hk) eq_refl) as (p & o & Hp & Ho & Hu). exists p, o.
  split; [by split|]. split; [done|].
  unfold in_tx, CreatePayment, query, bind, get, lookupIdempotency. cbn [working]. rewrite Hk.
  case_bool_decide; [|done]. simpl. unfold getPayment, join_order. rewrite Hp. simpl. rewrite Ho. done.
Qed.
Lemma order_created_key now k input d r d' : Inv d -> order_created now k input d r d' ->
  exists row, idempotency_keys d' !! order_key input = Some row /\ ik_request_hash row = in_RequestHash input /\
    ik_resource_id row = or_OrderID (fst r).
Proof.
  intros HI Hc. destruct Hc as [row o Hk Eh Ho _|k' o Hn Hk' _ _ _|Hn _ _ _].
  - exists row. simpl. by rewrite (i_order_key _ HI _ _ Ho).
  - eexists. split; [apply lookup_insert_eq|]. simpl. by rewrite (i_order_key _ HI _ _ Hk').
  - eexists. by split; [apply lookup_insert_eq|].
Qed.
Lemma payment_created_key now wall w k pk pr input d r d' : Inv d -> payment_created now wall w k pk pr input d r d' ->
  exists row, idempotency_keys d' !! payment_key input = Some row /\ ik_request_hash row = pi_RequestHash input /\
    ik_resource_id row = PaymentID (fst r).
Proof.
  intros HI Hc. destruct Hc as [row p o Hk Eh [Hp Ho] _|k' p o Hn [Hk' _] _ _ _|o Hn _ _ _ _ _ p].
  - exists row. simpl. by rewrite (i_pay_key _ HI _ _ Hp).
  - eexists. split; [apply lookup_insert_eq|]. simpl. by rewrite (i_pay_key _ HI _ _ Hk').
  - eexists. by split; [apply lookup_insert_eq|].
Qed.

(** Requests are idempotent. Once an order was created under a key, then
    for ever after, whatever else happens, the same request of the user under
    that key answers with that order and changes nothing, and another request
    under it is refused as a conflict and changes nothing; payments alike. *)
Theorem requests_are_idempotent d :
  reachable d ->
  (forall now k input order new d1 d2 now' k' input',
     in_tx (CreateOrder now k input) d = (Ok (order, new), d1) -> reaches d1 d2 ->
     in_UserID input' = in_UserID input -> in_IdempotencyKey input' = in_IdempotencyKey input ->
     if bool_decide (in_RequestHash input' = in_RequestHash input)
     then exists order', or_OrderID order' = or_OrderID order /\ in_tx (CreateOrder now' k' input') d2 = (Ok (order', false), d2)
     else in_tx (CreateOrder now' k' input') d2 = (Err ErrIdempotencyConflict, d2)) /\
  (forall now wall k pk input pr w payment new d1 d2 now' wall' k' pk' input' pr' w',
     in_tx (CreatePayment now wall k pk input pr w) d = (Ok (payment, new), d1) -> reaches d1 d2 ->
     pi_UserID input' = pi_UserID input -> pi_IdempotencyKey input' = pi_IdempotencyKey input ->
     if bool_decide (pi_RequestHash input' = pi_RequestHash input)
     then exists payment', PaymentID payment' = PaymentID payment /\
            in_tx (CreatePayment now' wall' k' pk' input' pr' w') d2 = (Ok (payment', false), d2)
     else in_tx (CreatePayment now' wall' k' pk' input' pr' w') d2 = (Err ErrIdempotencyConflict, d2)).
Proof.
  intros Hd. pose proof (bill_reachable_inv _ Hd) as HI. split.
  - intros now k input order new d1 d2 now' k' input' H Hr Eu Ek.
    assert (reaches d d1) as Hd1 by (pose proof (reaches_in_tx _ (OpCreateOrder now k input) d (fun _ => eq_refl)) as Hx; by rewrite H in Hx).
    pose proof (proj1 (bill_reaches_good _ _ HI Hd1)) as HI1. pose proof (proj1 (bill_reaches_good _ _ HI1 Hr)) as HI2.
    destruct (CreateOrder_cases _ _ _ _ _ _ HI H) as [(e & [=] & _)|(r & [= <-] & Hc)].
    destruct (order_created_key _ _ _ _ _ _ HI Hc) as (row & Hk & Eh & Ei). rewrite <- Eu, <- Ek in Hk.
    destruct (CreateOrder_replay now' k' input' d2 row HI2 (reaches_key _ _ _ _ HI1 Hr Hk)) as (o & Ho & _ & ->).
    rewrite Eh, (bool_decide_ext (in_RequestHash input = _) (in_RequestHash input' = in_RequestHash input)) by done.
    case_bool_decide; [|done]. exists (order_view o). split; [|done]. simpl. by rewrite (i_order_key _ HI2 _ _ Ho).
  - intros now wall k pk input pr w payment new d1 d2 now' wall' k' pk' input' pr' w' H Hr Eu Ek.
    assert (reaches d d1) as Hd1 by (pose proof (reaches_in_tx _ (OpCreatePayment now wall k pk input pr w) d (fun _ => eq_refl)) as Hx; by rewrite H in Hx).
    pose proof (proj1 (bill_reaches_good _ _ HI Hd1)) as HI1. pose proof (proj1 (bill_reaches_good _ _ HI1 Hr)) as HI2.
    destruct (CreatePayment_cases _ _ _ _ _ _ _ _ _ _ HI H) as [(e & [=] & _)|(r & [= <-] & Hc)].
    destruct (payment_created_key _ _ _ _ _ _ _ _ _ _ HI Hc) as (row & Hk & Eh & Ei). rewrite <- Eu, <- Ek in Hk.
    destruct (CreatePayment_replay now' wall' k' pk' input' pr' w' d2 row HI2 (reaches_key _ _ _ _ HI1 Hr Hk)) as (p & o & [Hp _] & _ & ->).
    rewrite Eh, (bool_decide_ext (pi_RequestHash input = _) (pi_RequestHash input' = pi_RequestHash input)) by done.
    case_bool_decide; [|done]. exists (payment_view p o). split; [|done]. simpl. by rewrite (i_pay_key _ HI2 _ _ Hp).
Qed.

(** ** Verdicts *)

Lemma ApplyVerified_start now ev expected pp corr d p o : rows_of (PaymentID expected) p o d ->
  ApplyVerifiedPayment now ev expected pp corr (Txn d d) =
  (let current := payment_view p o in
   if bool_decide (Status current = PaymentSucceeded \/ Status current = PaymentCanceled) then
     require (bool_decide (status_text (Status current) = pp_Status pp)) ErrStateConflict ;;; commit
   else if bool_decide (pp_Status pp = "pending"%string) then
     update_payment (PaymentID current) (fun _ => true)
       (fun p => set_payment PaymentPending (pay_provider_payment_id p) (pay_confirmation_url p) (now + minute) None
                   (pay_reconcile_attempts p) None (pay_paid_at p) (pay_canceled_at p) p) ;;; commit
   else match buildPaymentEvent current pp corr ev with
    | Err e => throw e
    | Ok (topic, at_, payload) => settle_steps now ev current pp topic at_ payload ;;; commit
    end) (Txn d d).
Proof.
  intros [Hp Ho]. unfold ApplyVerifiedPayment, query. unfold bind at 1 2. unfold get. cbn [working].
  unfold getPayment, join_order. rewrite Hp. simpl. rewrite Ho. unfold found, ret. cbn -[bind].
  case_bool_decide; [done|]. case_bool_decide; [done|]. destruct (buildPaymentEvent _ _ _ _) as [[[topic at_] payload]|e]; [|done].
  symmetry. unfold settle_steps. by rewrite bind_assoc.
Qed.

(** *** Facts about single payments *)

(** The status a payment only takes on the provider's word. *)
Definition decided (s : PayStatus) : bool := bool_decide (s = PaymentSucceeded \/ s = PaymentCanceled).
(** The operations that neither bind a payment to the provider nor decide it. *)
Definition neutral_op (o : op) : bool :=
  match o with OpApplyProviderCreate _ _ _ | OpApplyVerified _ _ _ _ _ => false | _ => true end.

Section rows.
Context (X : payment_row -> Prop).
Context (may_create : Z -> Z -> Z -> Prop).
Context (Hnew : forall now wall w k pk pr o, may_create now wall w -> X (new_payment now wall w k pk pr o)).
Context (Hneutral : forall r r', X r -> pay_identity r' = pay_identity r ->
  pay_provider_payment_id r' = pay_provider_payment_id r ->
  (decided (pay_status r') = true -> pay_outcome r' = pay_outcome r) -> payment_checks r' = true -> X r').
Definition rows_ok (d : db) : Prop := forall k p, payments d !! k = Some p -> X p.
Definition creates_well (o : op) : Prop :=
  match o with OpCreatePayment now wall _ _ _ _ w => may_create now wall w | _ => True end.

Lemma rows_insert d k p : rows_ok d -> X p -> rows_ok (set_payments (insert k p) d).
Proof. intros Hd Hp j q. simpl. rewrite lookup_insert. case_decide; [by intros [= <-]|apply Hd]. Qed.
Lemma rows_update_payment k q f :
  (forall r, X r -> enforce_payment_invariants r (f r) = true -> payment_checks (f r) = true -> X (f r)) ->
  preserves rows_ok (update_payment k q f).
Proof.
  intros Hf. apply preserves_result; [apply quiet_update_payment|]. intros t b t' Hw Hr.
  destruct (update_payment_run _ _ _ _ _ _ Hr) as [(e & [=] & _)|[(_ & -> & _)|(_ & r & (Hk & _ & He & Hc & _) & ->)]]; [done|].
  apply rows_insert; [done|]. eauto.
Qed.
Lemma pay_rows_modify f : (forall d, payments (f d) = payments d) -> preserves rows_ok (modify f : bill_tx unit).
Proof. intros H. apply preserves_modify. intros d Hd k p. rewrite H. apply Hd. Qed.
Lemma rows_new now wall w k pk pr o : may_create now wall w ->
  preserves rows_ok (modify (set_payments (insert k (new_payment now wall w k pk pr o))) : bill_tx unit).
Proof. intros H. apply preserves_modify. intros d Hd. apply rows_insert; auto. Qed.
Lemma rows_update_order k q st : preserves rows_ok (update_order k q st).
Proof. unfold update_order. tx_auto. by apply pay_rows_modify. Qed.
Lemma rows_when b m : preserves rows_ok m -> preserves rows_ok (when b m : bill_tx unit).
Proof. apply preserves_when. Qed.
#[local] Hint Resolve rows_new rows_update_order rows_when : txdb.
#[local] Hint Extern 2 (preserves rows_ok (modify _)) => (apply pay_rows_modify; reflexivity) : txdb.
#[local] Hint Extern 2 (preserves rows_ok (update_payment _ _ _)) =>
  (apply rows_update_payment; intros r Hr _ Hc; by apply (Hneutral r)) : txdb.

Lemma rows_exec o d : neutral_op o = true -> creates_well o -> rows_ok d -> rows_ok (snd (exec o d)).
Proof.
  intros Ho Hok Hd. destruct o; try done; cbn [exec]; rewrite bill_outcome_snd; (apply (preserves_in_tx rows_ok); [|done]);
    unfold CreateOrder, CreatePayment, insert_key, PrepareProviderCreate, MarkProviderCreateAmbiguous, MarkProviderCreateFailed,
      InsertWebhook, ClaimWebhook, CompleteWebhook, RejectWebhook, finishWebhook, RetryWebhook, update_webhook, claim_payment, ReschedulePayment, ClaimOutbox; tx_auto.
Qed.
End rows.

(** Rows satisfy the CHECK constraints. *)
Definition checked : db -> Prop := rows_ok (fun p => payment_checks p = true).
Lemma exec_checked o d : checked d -> checked (snd (exec o d)).
Proof.
  intros Hd. destruct (neutral_op o) eqn:Ho; [by apply (rows_exec _ (fun _ _ _ => True)); [..|destruct o|]|].
  assert (forall k q f, preserves checked (update_payment k q f)) as Hu by (intros; by apply rows_update_payment).
  destruct o; try done; cbn [exec]; rewrite bill_outcome_snd; (apply (preserves_in_tx checked); [|done]).
  - unfold apply_provider_create. tx_auto.
  - unfold ApplyVerifiedPayment, insert_outbox. tx_auto; first [apply Hu|apply rows_update_order|by apply pay_rows_modify].
Qed.
Lemma reachable_checked d : reachable d -> checked d.
Proof. induction 1; [intros k p; simpl; by rewrite lookup_empty|by apply exec_checked]. Qed.

Definition verdict_result (now : Z) (ev : string) (k : string) (p : payment_row) (o : order_row) (pp : ProviderPayment)
    (corr : string) (d : db) : result BillErr unit * db :=
  let refused := (Err (sql "invalid payment status transition"), d) in
  match pay_status p with
  | PaymentSucceeded | PaymentCanceled =>
      (if bool_decide (status_text (pay_status p) = pp_Status pp) then Ok tt else Err ErrStateConflict, d)
  | st =>
      if bool_decide (pp_Status pp = "pending"%string) then
        if unsettled st
        then (Ok tt, set_payments (insert k (set_payment PaymentPending (pay_provider_payment_id p) (pay_confirmation_url p)
                (now + minute) None (pay_reconcile_attempts p) None (pay_paid_at p) (pay_canceled_at p) p)) d)
        else refused
      else
        match buildPaymentEvent (payment_view p o) pp corr ev with
        | Err e => (Err e, d)
        | Ok (topic, at_, payload) =>
            if bool_decide (st = PaymentVerificationPending \/ st = PaymentPending)
            then (Ok tt, settled_db now ev topic pp at_ payload k p o d)
            else refused
        end
  end.

Lemma update_payment_known k q f p t : payments (working t) !! k = Some p -> q p = true ->
  update_payment k q f t =
  if enforce_payment_invariants p (f p) then
    if payment_checks (f p) && provider_id_free (f p) (working t)
    then (Ok true, Txn (durable t) (set_payments (insert k (f p)) (working t)))
    else (Err (sql "payments constraint"), t)
  else (Err (sql "invalid payment status transition"), t).
Proof.
  intros Hk Hq. unfold update_payment. rewrite run_get, Hk, Hq. unfold require.
  destruct (enforce_payment_invariants _ _); [rewrite run_ret|done]. by destruct (_ && _).
Qed.
(** An update that keeps the binding to the provider is only refused for the
    status. *)
Lemma update_payment_status d k f p : Inv d -> checked d -> payments d !! k = Some p -> pay_id (f p) = pay_id p ->
  pay_provider_payment_id (f p) = pay_provider_payment_id p ->
  (pay_confirmation_url (f p) = None \/ (pay_confirmation_url (f p) = pay_confirmation_url p /\ terminal (pay_status (f p)) = false)) ->
  pay_last_error_code (f p) = None ->
  update_payment k (fun _ => true) f (Txn d d) =
  if payment_transition (pay_status p) (pay_status (f p))
  then (Ok true, Txn d (set_payments (insert k (f p)) d)) else (Err (sql "invalid payment status transition"), Txn d d).
Proof.
  intros HI Hc Hk Ei Ep Eu El. rewrite (update_payment_known k _ f p) by done. cbn [working durable].
  specialize (Hc _ _ Hk). unfold payment_checks in Hc. rewrite !andb_true_iff in Hc. destruct Hc as [[Hc1 Hc2] _].
  assert (enforce_payment_invariants p (f p) = payment_transition (pay_status p) (pay_status (f p))) as ->.
  { unfold enforce_payment_invariants. rewrite Ep. by destruct (pay_provider_payment_id p); [rewrite bool_decide_true|]. }
  destruct (payment_transition _ _); [|done].
  assert (payment_checks (f p) = true) as ->.
  { unfold payment_checks. rewrite Ep, El, Hc1. destruct Eu as [-> | [-> ->]]; [done|].
    destruct (pay_confirmation_url p); [|done]. apply andb_true_iff in Hc2 as [-> _]. done. }
  assert (provider_id_free (f p) d = true) as ->; [|done].
  unfold provider_id_free. rewrite negb_true_iff, exists_row_false. intros j q Hj. apply bool_decide_eq_false.
  rewrite Ei, Ep, (i_pay_key _ HI _ _ Hk), (i_pay_key _ HI _ _ Hj). intros (Hne & Hs & E).
  destruct (pay_provider_payment_id q) as [i|] eqn:Eq; [|done]. apply Hne. by eapply (i_provider_id _ HI).
Qed.

Lemma transition_settled p pp : pay_status p <> PaymentSucceeded /\ pay_status p <> PaymentCanceled ->
  payment_transition (pay_status p) (verdict pp) = bool_decide (pay_status p = PaymentVerificationPending \/ pay_status p = PaymentPending).
Proof. unfold verdict. intros [H1 H2]. by destruct (bool_decide (pp_Status pp = _)), (pay_status p). Qed.
Lemma order_settles o pp : ord_status o = OrderPaymentPending -> order_transition (ord_status o) (order_verdict pp) = true.
Proof. intros ->. unfold order_verdict. by case_bool_decide. Qed.
Lemma settle_steps_done now ev pp corr topic at_ payload k p o d : Inv d -> checked d -> rows_of k p o d ->
  pay_status p <> PaymentSucceeded /\ pay_status p <> PaymentCanceled -> outbox d !! ev = None ->
  buildPaymentEvent (payment_view p o) pp corr ev = Ok (topic, at_, payload) ->
  settle_steps now ev (payment_view p o) pp topic at_ payload (Txn d d) =
  if bool_decide (pay_status p = PaymentVerificationPending \/ pay_status p = PaymentPending)
  then (Ok tt, Txn d (settled_db now ev topic pp at_ payload k p o d))
  else (Err (sql "invalid payment status transition"), Txn d d).
Proof.
  intros HI Hc [Hk Ho] Hs Hev Hb. rewrite settle_steps_eq. cbn [PaymentID OrderID UserID payment_view].
  rewrite (i_pay_key _ HI _ _ Hk). pose proof (transition_settled p pp Hs) as Ht.
  assert (pay_status (settled_row pp at_ p) = verdict pp) as Es by (unfold settled_row, verdict; by destruct (bool_decide (pp_Status pp = _))).
  pose proof (update_payment_status d k (settled_row pp at_) p HI Hc Hk) as Hu. rewrite Es, Ht in Hu.
  unfold bind at 1. rewrite Hu; [|unfold settled_row; destruct (bool_decide (pp_Status pp = _)); auto..].
  destruct (bool_decide (_ \/ _)) eqn:Ein; [|done]. apply bool_decide_eq_true in Ein.
  assert (unsettled (pay_status p) = true) as Hun by (by destruct Ein as [-> | ->]).
  pose proof (order_settles o pp (unsettled_order _ _ _ _ HI Hk Ho Hun)) as Hto.
  unfold update_order, insert_outbox, get, require, bind. simpl. rewrite Ho, Hto. simpl.
  destruct (exists_row _ _) eqn:Ex.
  - apply exists_row_true in Ex as (j & r & Hj & [_ Ea]%bool_decide_eq_true). simpl in Hj. exfalso.
    exact (unsettled_silent d k p r HI Hk Hun j Hj Ea).
  - rewrite bool_decide_true by done. done.
Qed.

(** The provider's verdict takes effect once, on every branch: a payment
    already succeeded or canceled answers success to the verdict it has and
    refuses the other, unchanged; a pending answer keeps an unsettled payment
    pending; a final answer without its time is refused; a success or
    cancellation of a payment known to the provider settles the payment, its
    order and the event together; and for a payment that failed, or was never
    submitted, every verdict is refused without effect. *)
Theorem verdict_takes_effect now ev expected k p o pp corr d :
  reachable d -> PaymentID expected = k -> payments d !! k = Some p -> orders d !! pay_order_id p = Some o ->
  outbox d !! ev = None ->
  in_tx (ApplyVerifiedPayment now ev expected pp corr) d = verdict_result now ev k p o pp corr d.
Proof.
  intros Hd <- Hk Ho Hev. pose proof (bill_reachable_inv _ Hd) as HI. pose proof (reachable_checked _ Hd) as Hc.
  unfold in_tx. rewrite (ApplyVerified_start _ _ _ _ _ _ p o) by done. cbv zeta. cbn [Status payment_view PaymentID].
  rewrite (i_pay_key _ HI _ _ Hk). unfold verdict_result.
  destruct (decide (pay_status p = PaymentSucceeded \/ pay_status p = PaymentCanceled)) as [Hf|Hf].
  - rewrite bool_decide_true by done. destruct Hf as [-> | ->]; cbn [status_text]; unfold require; by case_bool_decide.
  - rewrite bool_decide_false by done.
    assert (pay_status p <> PaymentSucceeded /\ pay_status p <> PaymentCanceled) as Hs by tauto.
    destruct (bool_decide (pp_Status pp = "pending"%string)).
    + unfold bind at 1. rewrite (update_payment_status d (PaymentID expected) _ p HI Hc Hk); [|done|done|by right|done].
      destruct (pay_status p); simpl; try done; tauto.
    + destruct (buildPaymentEvent _ _ _ _) as [[[topic at_] payload]|e] eqn:Hb; [|destruct (pay_status p); tauto].
      unfold bind at 1. rewrite (settle_steps_done _ _ _ _ _ _ _ (PaymentID expected) _ _ _ HI Hc (conj Hk Ho) Hs Hev Hb).
      destruct (pay_status p); simpl; try done; tauto.
Qed.

(** ** A run to evaluate *)

Module Demo.
Definition plan := MkPlan "monthly" "Monthly" 30 24 500 "RUB" "eu" "fixed" "unmetered" 1 0.
Definition hash : string := "0123456789abcdef0123456789abcdef0123456789abcdef0123456789abcdef".
Definition other_hash : string := "fedcba9876543210fedcba9876543210fedcba9876543210fedcba9876543210".
Definition order_input := MkOrderInput "u1" "monthly" "eu" "v1" "key-order" hash plan.
Definition other_order_input := MkOrderInput "u1" "monthly" "us" "v1" "key-order" other_hash plan.
Definition payment_input := MkPaymentInput "u1" "ord1" "key-payment" hash.
Definition pending := MkProviderPayment "prov1" "pending" 500 "RUB" (Some "https://pay.example/1") false "acc" "ord1" "pay1" None None.
Definition succeeded := MkProviderPayment "prov1" "succeeded" 500 "RUB" None false "acc" "ord1" "pay1" (Some (8 * minute)) None.
Definition submit : list op :=
  [OpCreateOrder minute "ord1" order_input;
   OpCreatePayment (2 * minute) (2 * minute) "pay1" "pk1" payment_input "yookassa" (24 * hour);
   OpPrepareProviderCreate "pay1" (3 * minute);
   OpApplyProviderCreate (4 * minute) "pay1" pending].
Definition d_submitted : db := Eval vm_compute in exec_all submit empty_db.
Definition claimed : PaymentOperation := Eval vm_compute in
  match getPayment "pay1" d_submitted with Ok v => v | Err _ => MkPayment "" "" PaymentFailed 0 "" None None 0 "" "" "" None "" 0 0 0 end.
Definition settle : list op :=
  [OpInsertWebhook (8 * minute) (MkWebhook "in1" "payment.succeeded" "prov1" "succeeded" 0);
   OpClaimWebhook (9 * minute) minute ∅;
   OpApplyVerified (10 * minute) "ev1" claimed succeeded "corr";
   OpCompleteWebhook (10 * minute) "in1" "";
   OpClaimOutbox (11 * minute) minute ∅;
   OpCompleteOutbox (12 * minute) "ev1"].
Definition d_paid : db := Eval vm_compute in exec_all settle d_submitted.

Example demo_runs : outcomes (submit ++ settle) empty_db = repeat None 10.
Proof. vm_compute. reflexivity. Qed.
Lemma submitted_reachable : reachable d_submitted.
Proof. exact (reaches_all submit empty_db). Qed.
Lemma paid_reaches : reaches d_submitted d_paid.
Proof. exact (reaches_all settle d_submitted). Qed.
Lemma paid_reachable : reachable d_paid.
Proof. exact (bill_reaches_trans _ _ _ submitted_reachable paid_reaches). Qed.

Definition pay1 : payment_row := Eval vm_compute in
  default (new_payment 0 0 0 "" "" "" (MkOrder "" "" OrderCreated 0 "" "" plan 0)) (payments d_paid !! "pay1"%string).
Definition ord1 : order_row := Eval vm_compute in default (order_of 0 "" order_input) (orders d_paid !! "ord1"%string).
Definition pay1_submitted : payment_row := Eval vm_compute in default pay1 (payments d_submitted !! "pay1"%string).
Definition ord1_submitted : order_row := Eval vm_compute in default ord1 (orders d_submitted !! "ord1"%string).

Lemma orders_and_payments_agree_witness :
  pay_status pay1 = PaymentSucceeded /\ orders d_paid !! "ord1"%string = Some ord1 /\ ord_status ord1 = OrderPaid /\
  exists kp p, payments d_paid !! kp = Some p /\ pay_order_id p = "ord1"%string /\ pay_status p = PaymentSucceeded.
Proof.
  split; [reflexivity|]. split; [vm_compute; reflexivity|]. split; [reflexivity|].
  exact (proj1 (proj2 (orders_and_payments_agree d_paid paid_reachable)) "ord1"%string ord1 ltac:(vm_compute; reflexivity)).
Defined.
Lemma payment_event_exactly_once_witness :
  exists kr r, outbox d_paid !! kr = Some r /\ ob_aggregate_id r = "pay1"%string /\ ob_topic r = topic_succeeded.
Proof.
  exact (proj1 (proj1 (payment_event_exactly_once d_paid "pay1" pay1 ord1 paid_reachable
    ltac:(vm_compute; reflexivity) ltac:(vm_compute; reflexivity))) eq_refl).
Defined.
(** Nothing that happens later touches the payment. *)
Definition late : list op := [OpMarkFailed "pay1" "late"; OpApplyVerified (20 * minute) "ev2" claimed pending "corr"; OpMarkAmbiguous (21 * minute) "pay1" "late" minute].
Definition d_late : db := Eval vm_compute in exec_all late d_paid.
Lemma settled_is_final_witness :
  exists p', payments d_late !! "pay1"%string = Some p' /\ pay_outcome p' = pay_outcome pay1.
Proof.
  destruct (proj1 (settled_is_final d_paid d_late paid_reachable (reaches_all late d_paid)) "pay1"%string pay1 ltac:(vm_compute; reflexivity))
    as (p' & Hp & _ & _ & Hf).
  exists p'. split; [exact Hp|exact (Hf eq_refl)].
Defined.
Definition first_answer : Order := Eval vm_compute in
  match fst (in_tx (CreateOrder minute "ord1" order_input) empty_db) with Ok (o, _) => o | Err _ => order_view ord1 end.
Definition d_ordered : db := Eval vm_compute in snd (in_tx (CreateOrder minute "ord1" order_input) empty_db).
Lemma ordered_reaches : reaches d_ordered d_paid.
Proof. exact (reaches_all (tail submit ++ settle) d_ordered). Qed.
Lemma requests_are_idempotent_witness :
  (exists order', or_OrderID order' = "ord1"%string /\ in_tx (CreateOrder hour "ord9" order_input) d_paid = (Ok (order', false), d_paid)) /\
  in_tx (CreateOrder hour "ord9" other_order_input) d_paid = (Err ErrIdempotencyConflict, d_paid).
Proof.
  split.
  - exact (proj1 (requests_are_idempotent empty_db (reaches_here _)) minute "ord1"%string order_input first_answer true d_ordered d_paid
      hour "ord9"%string order_input ltac:(vm_compute; reflexivity) ordered_reaches eq_refl eq_refl).
  - exact (proj1 (requests_are_idempotent empty_db (reaches_here _)) minute "ord1"%string order_input first_answer true d_ordered d_paid
      hour "ord9"%string other_order_input ltac:(vm_compute; reflexivity) ordered_reaches eq_refl eq_refl).
Defined.
Lemma verdict_takes_effect_witness :
  fst (in_tx (ApplyVerifiedPayment (10 * minute) "ev1" claimed succeeded "corr") d_submitted) = Ok tt /\
  in_tx (ApplyVerifiedPayment (10 * minute) "ev1" claimed succeeded "corr") d_submitted =
    verdict_result (10 * minute) "ev1" "pay1" pay1_submitted ord1_submitted succeeded "corr" d_submitted.
Proof.
  split; [vm_compute; reflexivity|].
  exact (verdict_takes_effect (10 * minute) "ev1" claimed "pay1" pay1_submitted ord1_submitted succeeded "corr" d_submitted
    submitted_reachable eq_refl ltac:(vm_compute; reflexivity) ltac:(vm_compute; reflexivity) ltac:(vm_compute; reflexivity)).
Defined.
End Demo.
