(* ===== verification/BillingService.v ===== *)
(** * billing-service: the service, its workers and its HTTP API

    src/services/billing/internal/application (service.go, worker.go) and
    internal/httpapi/handler.go. A request or a turn of a worker interleaves
    calls on the store with calls on the identity service, the catalog, the
    payment provider and Kafka; before each call whatever the rest of the
    system does may happen. The calls on the provider are logged. *)

From Stdlib Require Import Ascii List.
From S2P Require Import Prelude GoStrings Sha256 Backoff Platform Jobs BillingDomain BillingStore.

(** ** Surroundings *)

(** A call on the payment provider, with its answer. *)
Inductive provider_call :=
  | ProviderCreate (request : ProviderCreateRequest) (answer : result BillErr ProviderPayment)
  | ProviderGet (paymentID : string) (answer : result BillErr ProviderPayment).
(** A request to create a payment: when the service allowed it, when it was
    sent, and what it asks. *)
Record create_sent := MkSent { cs_allowed : Z; cs_sent : Z; cs_request : ProviderCreateRequest }.
(** The state everybody shares: the database, the calls made so far, and the
    requests to create a payment among them with their times, the latest
    first. *)
Record shared := MkShared { sh_db : db; sh_calls : list provider_call; sh_creates : list create_sent }.
Definition put_db (d : db) (s : shared) : shared := MkShared d (sh_calls s) (sh_creates s).
Definition log_call (c : provider_call) (s : shared) : shared := MkShared (sh_db s) (c :: sh_calls s) (sh_creates s).
Definition log_create (c : create_sent) (answer : result BillErr ProviderPayment) (s : shared) : shared :=
  MkShared (sh_db s) (ProviderCreate (cs_request c) answer :: sh_calls s) (c :: sh_creates s).

(** What the [i]-th call meets: [be_wall] is the service's clock, [be_now]
    the database's, [be_draw] the identifiers drawn. *)
Record billing_env := MkBillingEnv {
  be_between : nat -> shared -> shared;
  be_link : nat -> link;
  be_now : nat -> Z;
  be_wall : nat -> Z;
  be_locked : nat -> gset string;
  be_draw : nat -> string * string;
  be_canceled : nat -> bool;                                      (* ctx.Err() *)
  be_identity : nat -> string -> string -> option BillErr;
  be_catalog : nat -> string -> string -> result BillErr PlanSnapshot;
  be_create : nat -> string -> createPaymentRequest -> http_answer;
  be_get : nat -> string -> http_answer;
  be_publish : nat -> outbox_row -> bool
}.

Record billing_config := MkBillingConfig {
  bc_shopID : string;
  bc_returnURL : string;
  bc_createWindow : Z;
  bc_retryDelay : Z;
  bc_lease : Z
}.

(** Go's joined errors: the errors in them. *)
Abbreviation errs := (list BillErr).
Definition errors_Is (l : errs) (e : BillErr) : bool := bool_decide (e ∈ l).
Definition one {A} (r : result BillErr A) : result errs A := match r with Ok a => Ok a | Err e => Err [e] end.

Definition providerErrorCode (e : BillErr) : string :=
  match e with ProviderError _ code => code | _ => "provider_error" end.
Definition hashParts (parts : list string) : string :=
  sha256_hex (String.concat "" ((fun part => TrimSpace part +:+ byte_string [0%nat])%string <$> parts)).

Section service.
Context (env : billing_env) (cfg : billing_config).
(** The JSON decoder of a provider's response, and [url.Parse]: the scheme
    and the host of a URL it accepts. *)
Context (decode : string -> option paymentResponse) (url_Parse : string -> option (string * string)).

Definition store {A} (m : nat -> bill_tx A) : job shared (result BillErr A) :=
  call_store (be_between env) sh_db put_db (be_link env) (ErrOther "unavailable") m.
Definition aside {A} (f : nat -> A) : job shared A := ask (be_between env) (fun i _ => f i).
(** [allowed], when the request was allowed, only goes to the log. *)
Definition provider_CreatePayment (allowed : Z) (request : ProviderCreateRequest) : job shared (result BillErr ProviderPayment) :=
  call (be_between env) (fun i s =>
    let answer := client_CreatePayment decode (bc_returnURL cfg) (be_create env i) request in
    (answer, log_create (MkSent allowed (be_wall env i) request) answer s)).
Definition provider_GetPayment (paymentID : string) : job shared (result BillErr ProviderPayment) :=
  call (be_between env) (fun i s =>
    let answer := client_GetPayment decode paymentID (be_get env i paymentID) in
    (answer, log_call (ProviderGet paymentID answer) s)).

(** The store calls, with the clock and the identifiers drawn for them. *)
Definition do_CreateOrder input := store (fun i => CreateOrder (be_now env i) (fst (be_draw env i)) input).
Definition do_CreatePayment input :=
  store (fun i => CreatePayment (be_now env i) (be_wall env i) (fst (be_draw env i)) (snd (be_draw env i)) input
                    "yookassa" (bc_createWindow cfg)).
Definition do_PrepareProviderCreate paymentID now := store (fun _ => PrepareProviderCreate paymentID now).
Definition do_MarkProviderCreateAmbiguous paymentID code :=
  store (fun i => MarkProviderCreateAmbiguous (be_now env i) paymentID code (bc_retryDelay cfg)).
Definition markProviderCreateFailed paymentID code := store (fun _ => MarkProviderCreateFailed paymentID code).
Definition do_GetPayment paymentID := store (fun _ => GetPayment paymentID).
Definition ApplyProviderCreate paymentID pp : job shared (result BillErr PaymentOperation) :=
  applied ← store (fun i => apply_provider_create (be_now env i) paymentID pp);
  match applied with
  | Ok _ => do_GetPayment paymentID
  | Err e => mret (Err e)
  end.

(** ** service.go *)

Definition validateProviderPayment (expected : PaymentOperation) (actual : ProviderPayment) (requireConfirmation : bool)
    : bool :=
  match ProviderPaymentID expected with
  | Some i => bool_decide (i = pp_ProviderPaymentID actual)
  | None => true
  end &&
  pp_Test actual && bool_decide (pp_AccountID actual = bc_shopID cfg) && (pp_AmountMinor actual =? AmountMinor expected) &&
  bool_decide (pp_Currency actual = Currency expected) && bool_decide (pp_MetadataOrderID actual = OrderID expected) &&
  bool_decide (pp_MetadataPaymentID actual = PaymentID expected) &&
  (if requireConfirmation && bool_decide (pp_Status actual = "pending"%string) then
     match pp_ConfirmationURL actual with
     | None => false
     | Some url =>
         match url_Parse url with
         | Some (scheme, host) => bool_decide (scheme = "https"%string) && negb (bool_decide (host = ""%string))
         | None => false
         end
     end
   else true).

Definition create_request (operation : PaymentOperation) : ProviderCreateRequest :=
  MkCreateRequest (ProviderIdempotencyKey operation) (OrderID operation) (PaymentID operation) (AmountMinor operation)
    (Currency operation).
Definition createAtProvider (operation : PaymentOperation) : job shared (result errs PaymentOperation) :=
  canceled ← aside (be_canceled env);
  if (canceled : bool) then mret (Err [ErrOther "context canceled"])
  else
    now ← aside (be_wall env);
    prepared ← do_PrepareProviderCreate (PaymentID operation) now;
    match prepared with
    | Err e => mret (Err [e])
    | Ok (operation, false) => mret (Ok operation)
    | Ok (operation, true) =>
        answer ← provider_CreatePayment now (create_request operation);
        match answer with
        | Err e =>
            if IsProviderRetryable e then
              marked ← do_MarkProviderCreateAmbiguous (PaymentID operation) (providerErrorCode e);
              match marked with
              | Err markErr => mret (Err [e; markErr])
              | Ok _ =>
                  current ← do_GetPayment (PaymentID operation);
                  mret (match current with Err getErr => Err [e; getErr] | Ok current => Ok current end)
              end
            else
              marked ← markProviderCreateFailed (PaymentID operation) (providerErrorCode e);
              mret (Err (match marked with Err markErr => [e; markErr] | Ok _ => [e] end))
        | Ok providerPayment =>
            if validateProviderPayment operation providerPayment true then
              applied ← ApplyProviderCreate (PaymentID operation) providerPayment;
              mret (one applied)
            else
              marked ← markProviderCreateFailed (PaymentID operation) "provider_mismatch";
              let e := ErrOther "provider payment verification mismatch" in
              mret (Err (match marked with Err markErr => [e; markErr] | Ok _ => [e] end))
        end
    end.

Definition service_CreateOrder (userID planID region termsVersion idempotencyKey : string)
    : job shared (result BillErr (Order * bool)) :=
  let requestHash := hashParts [userID; planID; region; termsVersion] in
  replayed ← store (fun _ => FindOrderReplay userID idempotencyKey requestHash);
  match replayed with
  | Err e => mret (Err e)
  | Ok (Some replayed) => mret (Ok (replayed, false))
  | Ok None =>
      verified ← aside (fun i => be_identity env i userID termsVersion);
      match verified with
      | Some e => mret (Err e)
      | None =>
          snapshot ← aside (fun i => be_catalog env i planID region);
          match snapshot with
          | Err e => mret (Err e)
          | Ok snapshot =>
              do_CreateOrder (MkOrderInput userID planID region termsVersion idempotencyKey requestHash snapshot)
          end
      end
  end.

Definition service_GetOrder (userID orderID : string) : job shared (result BillErr Order) :=
  store (fun _ => GetOrder userID orderID).

Definition service_GetPaymentStatus (userID orderID paymentID : string) : job shared (result BillErr PaymentOperation) :=
  payment ← do_GetPayment paymentID;
  mret (match payment with
        | Err e => Err e
        | Ok payment =>
            if negb (bool_decide (UserID payment = userID)) || negb (bool_decide (OrderID payment = orderID))
            then Err ErrNotFound else Ok payment
        end).

Definition service_CreatePayment (userID orderID idempotencyKey : string)
    : job shared (result errs (PaymentOperation * bool)) :=
  let requestHash := hashParts [userID; orderID] in
  replayed ← store (fun _ => FindPaymentReplay userID idempotencyKey requestHash);
  match replayed with
  | Err e => mret (Err [e])
  | Ok (Some replayed) => mret (Ok (replayed, false))
  | Ok None =>
      order ← service_GetOrder userID orderID;
      match order with
      | Err e => mret (Err [e])
      | Ok order =>
          verified ← aside (fun i => be_identity env i userID (or_AcceptedTermsVersion order));
          match verified with
          | Some e => mret (Err [e])
          | None =>
              created ← do_CreatePayment (MkPaymentInput userID orderID idempotencyKey requestHash);
              match created with
              | Err e => mret (Err [e])
              | Ok (operation, created) =>
                  if negb (bool_decide (Status operation = PaymentCreated \/ Status operation = PaymentVerificationPending)) ||
                     bool_decide (ProviderPaymentID operation <> None)
                  then mret (Ok (operation, created))
                  else
                    payment ← createAtProvider operation;
                    mret (match payment with Ok payment => Ok (payment, created) | Err l => Err l end)
              end
          end
      end
  end.

(** ** worker.go *)

Definition reschedule paymentID code delay := store (fun i => ReschedulePayment (be_now env i) paymentID code delay).
Definition retry_webhook (n : WebhookNotification) code :=
  store (fun i => RetryWebhook (be_now env i) (wh_InboxID n) code
                    (retryBackoff_billing (bc_retryDelay cfg) (wh_Attempts n) (wh_InboxID n))).
Definition reject_webhook (n : WebhookNotification) code := store (fun i => RejectWebhook (be_now env i) (wh_InboxID n) code).

(** The cancellation of a payment whose provider gives no time for it is
    dated by the worker's clock. *)
Definition dated (now : Z) (pp : ProviderPayment) : ProviderPayment :=
  if bool_decide (pp_Status pp = "canceled"%string) && bool_decide (pp_CanceledAt pp = None)
  then MkProviderPayment (pp_ProviderPaymentID pp) (pp_Status pp) (pp_AmountMinor pp) (pp_Currency pp) (pp_ConfirmationURL pp)
         (pp_Test pp) (pp_AccountID pp) (pp_MetadataOrderID pp) (pp_MetadataPaymentID pp) (pp_CapturedAt pp) (Some now)
  else pp.
Definition applyProviderState (operation : PaymentOperation) (pp : ProviderPayment) : job shared (result BillErr unit) :=
  if bool_decide (pp_Status pp = "pending"%string) then reschedule (PaymentID operation) "" minute
  else
    now ← aside (be_wall env);
    if bool_decide (pp_Status pp = "succeeded"%string) && bool_decide (pp_CapturedAt pp = None)
    then mret (Err (ErrOther "succeeded provider payment has no captured_at"))
    else
      correlationID ← aside (fun i => fst (be_draw env i));
      store (fun i => ApplyVerifiedPayment (be_now env i) (fst (be_draw env i)) operation (dated now pp) correlationID).

Definition processWebhook : job shared (result BillErr unit) :=
  claimed ← store (fun i => ClaimWebhook (be_now env i) (bc_lease cfg) (be_locked env i));
  match claimed with
  | Err e => mret (Err e)
  | Ok None => mret (Ok tt)
  | Ok (Some notification) =>
      operation ← store (fun _ => GetPaymentByProviderID (wh_ProviderObjectID notification));
      match operation with
      | Err ErrNotFound => reject_webhook notification "unknown_payment"
      | Err _ => retry_webhook notification "database_error"
      | Ok operation =>
          answer ← provider_GetPayment (wh_ProviderObjectID notification);
          match answer with
          | Err e =>
              if IsProviderRetryable e then retry_webhook notification (providerErrorCode e)
              else reject_webhook notification (providerErrorCode e)
          | Ok pp =>
              if negb (validateProviderPayment operation pp false) then reject_webhook notification "provider_mismatch"
              else
                applied ← applyProviderState operation pp;
                match applied with
                | Err ErrStateConflict => reject_webhook notification "state_conflict"
                | Err _ => retry_webhook notification "apply_failed"
                | Ok _ => store (fun i => CompleteWebhook (be_now env i) (wh_InboxID notification) "verified")
                end
          end
      end
  end.

(** The statement of [ClaimPaymentForReconcile], then the row. *)
Definition ClaimPaymentForReconcile : job shared (result BillErr (option PaymentOperation)) :=
  claimed ← store (fun i => claim_payment (be_now env i) (bc_lease cfg) (be_locked env i));
  match claimed with
  | Err e => mret (Err e)
  | Ok None => mret (Ok None)
  | Ok (Some paymentID) =>
      payment ← do_GetPayment paymentID;
      mret (match payment with Ok p => Ok (Some p) | Err e => Err e end)
  end.
Definition reconcilePayment : job shared (result errs unit) :=
  claimed ← ClaimPaymentForReconcile;
  match claimed with
  | Err e => mret (Err [e])
  | Ok None => mret (Ok tt)
  | Ok (Some operation) =>
      let backoff := retryBackoff_billing (bc_retryDelay cfg) (ReconcileAttempts operation) (PaymentID operation) in
      match ProviderPaymentID operation with
      | None =>
          created ← createAtProvider operation;
          match created with
          | Err l => mret (Err l)
          | Ok created =>
              if negb (unsettled (Status created)) then mret (Ok tt)
              else r ← reschedule (PaymentID created) "" backoff; mret (one r)
          end
      | Some providerID =>
          answer ← provider_GetPayment providerID;
          match answer with
          | Err e =>
              r ← (if IsProviderRetryable e then reschedule (PaymentID operation) (providerErrorCode e) backoff
                   else markProviderCreateFailed (PaymentID operation) (providerErrorCode e));
              mret (one r)
          | Ok pp =>
              r ← (if validateProviderPayment operation pp false then applyProviderState operation pp
                   else markProviderCreateFailed (PaymentID operation) "provider_mismatch");
              mret (one r)
          end
      end
  end.

Definition billing_publishOutbox : job shared (result BillErr unit) :=
  claimed ← store (fun i => ClaimOutbox (be_now env i) (bc_lease cfg) (be_locked env i));
  match claimed with
  | Err e => mret (Err e)
  | Ok None => mret (Ok tt)
  | Ok (Some message) =>
      published ← aside (fun i => be_publish env i message);
      if (published : bool) then store (fun i => CompleteOutbox (be_now env i) (ob_event_id message))
      else store (fun i => RetryOutbox (be_now env i) (ob_event_id message)
                             (retryBackoff_billing (bc_retryDelay cfg) (ob_attempts message) (ob_event_id message)))
  end.
Definition billing_workOnce : job shared unit :=
  _ ← processWebhook; _ ← reconcilePayment; _ ← billing_publishOutbox; mret tt.

(** ** handler.go *)

Inductive reply (A : Type) := Reply (status : Z) (body : A) | Problem (status : Z) (code : string).
Arguments Reply {A} status body.
Arguments Problem {A} status code.

Definition key_byte (c : ascii) : bool :=
  between "a" "z" c || between "A" "Z" c || digit c || Ascii.eqb c "-" || Ascii.eqb c "_" || Ascii.eqb c "." || Ascii.eqb c ":".
Definition validIdempotencyKey (value : string) : bool :=
  (8 <=? go_len value) && (go_len value <=? 128) && all_bytes key_byte value.
Definition isUUID (value : string) : bool :=
  matches (repeat hex 8 ++ [dash] ++ repeat hex 4 ++ [dash] ++ repeat hex 4 ++ [dash] ++ repeat hex 4 ++ [dash] ++
           repeat hex 12) value.

Definition writeDomainError {A} (l : errs) : reply A :=
  if errors_Is l ErrNotFound then Problem 404 "not_found"
  else if errors_Is l ErrIdempotencyConflict then Problem 409 "idempotency_conflict"
  else if errors_Is l ErrStateConflict then Problem 409 "state_conflict"
  else if errors_Is l ErrUserUnavailable then Problem 403 "user_unavailable"
  else if errors_Is l ErrConsentRequired then Problem 403 "consent_required"
  else if existsb (fun e => match e with ProviderError _ _ => true | _ => false end) l
       then Problem 502 "payment_provider_error"
  else Problem 500 "billing_error".

(** The strict decoders of the two request bodies, and the decoder of the
    webhook's object. *)
Context (decode_order : string -> option (string * string * string)).
Context (decode_notification : string -> option (string * string * string)).
Context (decode_object : string -> option (string * string)).

Definition http_CreateOrder (user_id idempotency_key body : string) : job shared (reply Order) :=
  let idempotencyKey := TrimSpace idempotency_key in
  if negb (isUUID user_id) || negb (validIdempotencyKey idempotencyKey) then mret (Problem 400 "invalid_request")
  else match decode_order body with
  | None => mret (Problem 400 "invalid_json")
  | Some (plan, region, terms) =>
      let planID := TrimSpace plan in
      let region := TrimSpace region in
      let terms := TrimSpace terms in
      if bool_decide (planID = ""%string) || (128 <? go_len planID) || (go_len region <? 2) || (64 <? go_len region) ||
         bool_decide (terms = ""%string) || (64 <? go_len terms)
      then mret (Problem 400 "invalid_order")
      else
        r ← service_CreateOrder user_id planID region terms idempotencyKey;
        mret (match r with
              | Err e => writeDomainError [e]
              | Ok (order, created) => Reply (if (created : bool) then 201 else 200) order
              end)
  end.
Definition http_GetOrder (user_id order_id : string) : job shared (reply Order) :=
  if negb (isUUID user_id) || negb (isUUID order_id) then mret (Problem 400 "invalid_request")
  else
    r ← service_GetOrder user_id order_id;
    mret (match r with Err e => writeDomainError [e] | Ok order => Reply 200 order end).
Definition http_GetPaymentStatus (user_id order_id payment_id : string) : job shared (reply PaymentOperation) :=
  if negb (isUUID user_id) || negb (isUUID order_id) || negb (isUUID payment_id) then mret (Problem 400 "invalid_request")
  else
    r ← service_GetPaymentStatus user_id order_id payment_id;
    mret (match r with Err e => writeDomainError [e] | Ok payment => Reply 200 payment end).
Definition http_CreatePayment (user_id order_id idempotency_key : string) : job shared (reply PaymentOperation) :=
  let idempotencyKey := TrimSpace idempotency_key in
  if negb (isUUID user_id) || negb (isUUID order_id) || negb (validIdempotencyKey idempotencyKey)
  then mret (Problem 400 "invalid_request")
  else
    r ← service_CreatePayment user_id order_id idempotencyKey;
    mret (match r with
          | Err l => writeDomainError l
          | Ok (payment, created) =>
              Reply (if bool_decide (Status payment = PaymentVerificationPending \/ Status payment = PaymentCreated) then 202
                     else if (created : bool) then 201 else 200) payment
          end).

Definition YooKassaWebhook (body : string) : job shared (reply unit) :=
  match decode_notification body with
  | None => mret (Problem 400 "invalid_webhook")
  | Some (type, event, object) =>
      if negb (bool_decide (type = "notification"%string)) ||
         negb (bool_decide (event = "payment.succeeded"%string) || bool_decide (event = "payment.canceled"%string))
      then mret (Problem 400 "unsupported_webhook")
      else match decode_object object with
      | None => mret (Problem 400 "invalid_webhook")
      | Some (id, status) =>
          if bool_decide (id = ""%string) || (128 <? go_len id) then mret (Problem 400 "invalid_webhook")
          else if negb (bool_decide (status = default event (strip_prefix "payment." event)))
          then mret (Problem 400 "invalid_webhook")
          else
            r ← store (fun i => InsertWebhook (be_now env i) (MkWebhook (fst (be_draw env i)) event id status 0));
            mret (match r with Err _ => Problem 503 "webhook_unavailable" | Ok _ => Reply 200 tt end)
      end
  end.
End service.
