(* ===== verification/BillingSystem.v ===== *)
(** * billing-service: the protocol between the service and the provider

    Every request and every turn of a worker only takes steps of a protocol:
    permitted operations of the store, and calls on the provider that ask for
    what a payment row says, allowed before the row's deadline. Under the
    protocol an order is charged under one key and one amount, and a payment
    only succeeds on the provider's word. The provider forgets a key after a
    while ([provider_memory]) and then carries out a request under it like a
    new one; [terms] has the creation window and the configuration. *)

From Stdlib Require Import List.
From S2P Require Import Prelude GoStrings Backoff Platform Jobs BillingDomain BillingStore BillingInv BillingSteps BillingSpec.
From S2P Require Import BillingService.

(** ** The protocol *)

(** What the service asks the provider for a payment. *)
Definition request_of (p : payment_row) : ProviderCreateRequest :=
  MkCreateRequest (pay_provider_idempotency_key p) (pay_order_id p) (pay_id p) (pay_amount_minor p) (pay_currency p).
(** The provider's payment is the one of the row: it belongs to the shop, and
    names the payment, its order, its amount and its currency. *)
Definition vouches (shop : string) (p : payment_row) (pp : ProviderPayment) : Prop :=
  pp_Test pp = true /\ pp_AccountID pp = shop /\ pp_AmountMinor pp = pay_amount_minor p /\ pp_Currency pp = pay_currency p /\
  pp_MetadataOrderID pp = pay_order_id p /\ pp_MetadataPaymentID pp = pay_id p.
(** The provider answered the request of the payment with its payment [i]. *)
Definition bound_by (shop : string) (calls : list provider_call) (p : payment_row) (i : string) : Prop :=
  exists pp, ProviderCreate (request_of p) (Ok pp) ∈ calls /\ pp_ProviderPaymentID pp = i /\ vouches shop p pp.
(** Asked for the payment it is bound to, the provider answered [pp]. *)
Definition looked_up (shop : string) (calls : list provider_call) (p : payment_row) (pp : ProviderPayment) : Prop :=
  exists i, pay_provider_payment_id p = Some i /\ ProviderGet i (Ok pp) ∈ calls /\ pp_ProviderPaymentID pp = i /\
    vouches shop p pp.

(** What the parties agree on: the shop, and with which readings of the
    database's clock and of the service's, and which creation window, a
    payment may be created. *)
Record terms := MkTerms { tm_shop : string; tm_create : Z -> Z -> Z -> Prop }.
Definition permitted (tm : terms) (s : shared) (o : op) : Prop :=
  match o with
  | OpCreatePayment now wall _ _ _ _ window => tm_create tm now wall window
  | OpApplyProviderCreate _ k pp => exists p, payments (sh_db s) !! k = Some p /\
      ProviderCreate (request_of p) (Ok pp) ∈ sh_calls s /\ vouches (tm_shop tm) p pp
  | OpApplyVerified _ _ v pp _ => exists p pp0 now, payments (sh_db s) !! PaymentID v = Some p /\
      looked_up (tm_shop tm) (sh_calls s) p pp0 /\ pp = dated now pp0
  | _ => True
  end.
Inductive bill_step (tm : terms) (s : shared) : shared -> Prop :=
  | bill_store o : permitted tm s o -> bill_step tm s (put_db (snd (exec o (sh_db s))) s)
  | bill_create p k allowed sent answer : payments (sh_db s) !! k = Some p -> allowed < pay_provider_create_deadline p ->
      bill_step tm s (log_create (MkSent allowed sent (request_of p)) answer s)
  | bill_get i answer : bill_step tm s (log_call (ProviderGet i answer) s).
Definition bill_reaches (tm : terms) : shared -> shared -> Prop := rtc (bill_step tm).
Definition initial : shared := MkShared empty_db [] [].

(** ** What it keeps *)

Definition confirmed (shop : string) (calls : list provider_call) (p : payment_row) : Prop :=
  exists pp, looked_up shop calls p pp /\ pp_Status pp = status_text (pay_status p) /\
    (pay_status p = PaymentSucceeded -> pay_paid_at p = timestamptz <$> pp_CapturedAt pp).
Definition row_ok (shop : string) (calls : list provider_call) (p : payment_row) : Prop :=
  (forall i, pay_provider_payment_id p = Some i -> bound_by shop calls p i) /\
  (decided (pay_status p) = true -> confirmed shop calls p).
(** The deadline of a payment counts from the service's clock at its creation. *)
Definition deadline_ok (tm : terms) (p : payment_row) : Prop := exists wall window,
  tm_create tm (pay_created_at p) wall window /\ pay_provider_create_deadline p = timestamptz (wall + window).
Record JB (tm : terms) (s : shared) : Prop := {
  jb_reachable : reachable (sh_db s);
  jb_requests : forall req answer, ProviderCreate req answer ∈ sh_calls s -> exists p,
    payments (sh_db s) !! cr_PaymentID req = Some p /\ req = request_of p;
  jb_rows : rows_ok (row_ok (tm_shop tm) (sh_calls s)) (sh_db s);
  jb_deadlines : rows_ok (deadline_ok tm) (sh_db s);
  jb_creates : forall c, c ∈ sh_creates s -> exists p, payments (sh_db s) !! cr_PaymentID (cs_request c) = Some p /\
    cs_request c = request_of p /\ cs_allowed c < pay_provider_create_deadline p
}.
Lemma JB_inv tm s : JB tm s -> Inv (sh_db s).
Proof. intros HJ. apply bill_reachable_inv, HJ. Qed.
Lemma JB_initial tm : JB tm initial.
Proof.
  split; simpl; [constructor| |intros k p; simpl; by rewrite lookup_empty..|].
  - by intros req a H%not_elem_of_nil.
  - by intros c H%not_elem_of_nil.
Qed.

Lemma request_same p p' : pay_identity p' = pay_identity p -> request_of p' = request_of p.
Proof. intros [= E1 E2 _ E4 E5 E6 _ _]. unfold request_of. congruence. Qed.
Lemma vouches_same shop p p' pp : pay_identity p' = pay_identity p -> vouches shop p pp -> vouches shop p' pp.
Proof. intros [= E1 E2 _ E4 E5 E6 _ _]. unfold vouches. by rewrite E1, E2, E5, E6. Qed.
Lemma bound_same shop calls p p' i : pay_identity p' = pay_identity p -> bound_by shop calls p i -> bound_by shop calls p' i.
Proof.
  intros E (pp & Hc & Ei & Hv). exists pp. rewrite (request_same p p' E). split_and!; [done..|by eapply vouches_same].
Qed.
Lemma looked_up_same shop calls p p' pp : pay_identity p' = pay_identity p ->
  (forall i, pay_provider_payment_id p = Some i -> pay_provider_payment_id p' = Some i) ->
  looked_up shop calls p pp -> looked_up shop calls p' pp.
Proof. intros E Ep (i & Hi & Hc & Ei & Hv). exists i. split_and!; auto. by eapply vouches_same. Qed.
Lemma row_ok_neutral shop calls p p' : row_ok shop calls p -> pay_identity p' = pay_identity p ->
  pay_provider_payment_id p' = pay_provider_payment_id p ->
  (decided (pay_status p') = true -> pay_outcome p' = pay_outcome p) -> row_ok shop calls p'.
Proof.
  intros [Hb Hc] Ei Ep Hd. split.
  - intros i. rewrite Ep. intros Hi. eapply bound_same; eauto.
  - intros Hdec. specialize (Hd Hdec). injection Hd as E1 E2 _. rewrite E1 in Hdec. destruct (Hc Hdec) as (pp & Hl & Hs & Ht).
    exists pp. rewrite E1, E2. split_and!; [|done|done]. eapply looked_up_same; [done| |done]. by rewrite Ep.
Qed.
Lemma calls_grow shop calls c p : row_ok shop calls p -> row_ok shop (c :: calls) p.
Proof.
  intros [Hb Hc]. split.
  - intros i (pp & Hi & ? & ?)%Hb. exists pp. split_and!; [by right|done|done].
  - intros (pp & (i & Hi & Hin & ? & ?) & ? & ?)%Hc. exists pp. split; [|done]. exists i. split_and!; [done|by right|done|done].
Qed.

Lemma dated_same now pp : pp_Status (dated now pp) = pp_Status pp /\ pp_CapturedAt (dated now pp) = pp_CapturedAt pp.
Proof. unfold dated. by destruct (_ && _). Qed.
Lemma applied_rows shop calls now ev k pp0 at_now corr d d' p : rows_ok (row_ok shop calls) d -> payments d !! k = Some p ->
  looked_up shop calls p pp0 -> applied now ev k (dated at_now pp0) corr d d' -> rows_ok (row_ok shop calls) d'.
Proof.
  intros HX Hk Hl Ha. destruct (dated_same at_now pp0) as [Es Ec].
  destruct Ha as [q o _ _ _|q o [Hq _] Hu _|q o topic at_ payload [Hq _] _ _ Hb]; [done| |].
  - rewrite Hk in Hq. injection Hq as <-. apply rows_insert; [done|]. eapply (row_ok_neutral _ _ p); [by eapply HX|done..].
  - rewrite Hk in Hq. injection Hq as <-. intros j r. simpl. rewrite lookup_insert. case_decide; [intros [= <-]|apply HX].
    destruct (HX k p Hk) as [Hbd _]. unfold settled_row, buildPaymentEvent in *. rewrite Es in *.
    destruct (bool_decide (pp_Status pp0 = "succeeded"%string)) eqn:E1.
    + apply bool_decide_eq_true in E1. split.
      * intros i Hi. by eapply bound_same; [|apply Hbd].
      * intros _. exists pp0. split; [by eapply looked_up_same|]. split; [done|]. intros _. simpl. rewrite Ec in Hb.
        destruct (pp_CapturedAt pp0); [|done]. by injection Hb as _ -> _.
    + destruct (bool_decide (pp_Status pp0 = "canceled"%string)) eqn:E2; [|done]. apply bool_decide_eq_true in E2. split.
      * intros i Hi. by eapply bound_same; [|apply Hbd].
      * intros _. exists pp0. split; [by eapply looked_up_same|]. by split.
Qed.

Lemma store_rows tm s o : JB tm s -> permitted tm s o ->
  rows_ok (row_ok (tm_shop tm) (sh_calls s)) (snd (exec o (sh_db s))).
Proof.
  intros HJ Hp. pose proof (JB_inv _ _ HJ) as HI. destruct (neutral_op o) eqn:Hn.
  { apply (rows_exec _ (fun _ _ _ => True)); [|by intros; eapply row_ok_neutral|done|by destruct o|apply HJ].
    intros. split; simpl; [done|by vm_compute]. }
  destruct o as [| | |now k pp| | | | | | | | | |now ev v pp corr| | |]; try done; cbn [exec]; rewrite bill_outcome_snd.
  - destruct Hp as (p & Hk & Hc & Hv). unfold in_tx. destruct (apply_provider_create now k pp _) as [x t] eqn:E.
    destruct (apply_provider_create_run _ _ _ _ _ _ E) as [->|(r & Hr & ->)]; [apply HJ|].
    simpl in *. rewrite Hk in Hr. injection Hr as <-. apply rows_insert; [apply HJ|]. split; simpl.
    + intros i [= <-]. exists pp. by split_and!.
    + by case_bool_decide.
  - destruct Hp as (p & pp0 & at_now & Hk & Hl & ->).
    destruct (in_tx (ApplyVerifiedPayment now ev v (dated at_now pp0) corr) (sh_db s)) as [x d'] eqn:E.
    destruct (ApplyVerified_cases _ _ _ _ _ _ _ _ HI E) as [(e & -> & ->)|(-> & Ha)]; [apply HJ|].
    eapply applied_rows; [apply HJ|exact Hk|exact Hl|exact Ha].
Qed.
Lemma store_deadlines tm s o : JB tm s -> permitted tm s o -> rows_ok (deadline_ok tm) (snd (exec o (sh_db s))).
Proof.
  intros HJ Hp. pose proof (jb_deadlines _ _ HJ) as Hd. destruct (neutral_op o) eqn:Hn.
  { apply (rows_exec _ (tm_create tm)); [| |done|by destruct o|done].
    - intros now wall w k pk pr oo Hc. exists wall, w. by split.
    - intros r r' (wall & w & Hr) [= _ _ _ _ _ _ Ed Ec] _ _ _. exists wall, w. by rewrite Ed, Ec. }
  assert (forall k q f, (forall r, pay_identity (f r) = pay_identity r) -> preserves (rows_ok (deadline_ok tm)) (update_payment k q f)) as Hu.
  { intros k q f Hf. apply rows_update_payment. intros r (wall & w & Hr) _ _. exists wall, w. specialize (Hf r).
    injection Hf as _ _ _ _ _ _ -> ->. done. }
  destruct o; try done; cbn [exec]; rewrite bill_outcome_snd; (apply (preserves_in_tx (rows_ok (deadline_ok tm))); [|done]).
  - unfold apply_provider_create. tx_auto.
  - unfold ApplyVerifiedPayment, insert_outbox. tx_auto; first [by apply Hu|apply rows_update_order|by apply pay_rows_modify].
Qed.

Lemma JB_step tm s s' : bill_step tm s s' -> JB tm s -> JB tm s'.
Proof.
  intros Hs HJ. pose proof (JB_inv _ _ HJ) as HI. destruct Hs as [o Hp|p k allowed sent a Hk Hd|i a].
  - destruct (bill_exec_good o (sh_db s) HI) as [_ HS]. split; simpl.
    + apply reaches_step, HJ.
    + intros req a Hin. destruct (jb_requests _ _ HJ _ _ Hin) as (p & Hk & ->). destruct (se_payments _ _ HS _ _ Hk) as (p' & Hk' & He).
      exists p'. split; [done|]. symmetry. apply request_same, He.
    + by apply store_rows.
    + by apply store_deadlines.
    + intros c (p & Hk & Er & Ha)%(jb_creates _ _ HJ). destruct (se_payments _ _ HS _ _ Hk) as (p' & Hk' & He).
      exists p'. rewrite (request_same _ _ (pe_identity _ _ He)). split_and!; [done..|].
      destruct He as [[= _ _ _ _ _ _ -> _] _ _]. done.
  - split; simpl; [apply HJ| |intros j q Hj; apply calls_grow; by apply (jb_rows _ _ HJ j)|apply HJ|].
    + intros req b [[= -> ->]|Hin]%elem_of_cons; [|by eapply jb_requests]. exists p. simpl. by rewrite (i_pay_key _ HI _ _ Hk).
    + intros c [->|Hin]%elem_of_cons; [|by eapply jb_creates]. exists p. simpl. by rewrite (i_pay_key _ HI _ _ Hk).
  - split; simpl; [apply HJ| |intros j q Hj; apply calls_grow; by apply (jb_rows _ _ HJ j)|apply HJ|apply HJ].
    intros req b [|Hin]%elem_of_cons; [done|by eapply jb_requests].
Qed.
Definition billing_protocol (tm : terms) : Protocol shared :=
  {| pstep := bill_step tm; pinv := JB tm; pstep_keeps := JB_step tm |}.
Lemma bill_reaches_JB tm s s' : bill_reaches tm s s' -> JB tm s -> JB tm s'.
Proof. induction 1; eauto using JB_step. Qed.

(** ** What the provider charges *)

(** The provider retains a result under its idempotency key for 24 hours
    (docs/external-sources.md): a request with the key is answered with it,
    and once it is forgotten the request is carried out again. *)
Definition retained : Z := 24 * hour.
Record provider_memory := MkMemory { pm_results : gmap string Z; pm_charges : list ProviderCreateRequest }.
Definition receive (c : create_sent) (m : provider_memory) : provider_memory :=
  let key := cr_IdempotencyKey (cs_request c) in
  let carried_out := MkMemory (<[key := cs_sent c]> (pm_results m)) (cs_request c :: pm_charges m) in
  match pm_results m !! key with
  | Some first => if cs_sent c <? first + retained then m else carried_out
  | None => carried_out
  end.
(** The charges the requests of a log make at most. *)
Definition charges (log : list create_sent) : list ProviderCreateRequest :=
  pm_charges (foldr receive (MkMemory ∅ []) log).

Section charges.
Context (log : list create_sent) (oid : string).
Context (Horder : forall c c', c ∈ log -> c' ∈ log -> cr_OrderID (cs_request c) = cr_OrderID (cs_request c') ->
  cr_IdempotencyKey (cs_request c) = cr_IdempotencyKey (cs_request c')).
Context (Hkey : forall c c', c ∈ log -> c' ∈ log ->
  cr_IdempotencyKey (cs_request c) = cr_IdempotencyKey (cs_request c') -> cs_sent c < cs_sent c' + retained).
Let of_order : list ProviderCreateRequest -> list ProviderCreateRequest := filter (fun r => cr_OrderID r = oid).

Definition memory_ok (m : provider_memory) : Prop :=
  (forall k t, pm_results m !! k = Some t -> exists c, c ∈ log /\ cs_sent c = t /\ cr_IdempotencyKey (cs_request c) = k) /\
  (forall r, r ∈ pm_charges m -> is_Some (pm_results m !! cr_IdempotencyKey r) /\ exists c, c ∈ log /\ cs_request c = r) /\
  (length (of_order (pm_charges m)) <= 1)%nat.
Lemma receive_ok c m : c ∈ log -> memory_ok m -> memory_ok (receive c m).
Proof.
  intros Hc (Hr & Hm & Hl). unfold receive. set (key := cr_IdempotencyKey (cs_request c)).
  destruct (pm_results m !! key) as [t|] eqn:Ek.
  { destruct (Hr _ _ Ek) as (c0 & Hc0 & <- & E0). rewrite (proj2 (Z.ltb_lt _ _) (Hkey _ _ Hc Hc0 (eq_sym E0))). by split_and!. }
  split_and!; simpl.
  - intros k t. rewrite lookup_insert. case_decide as E; [|by apply Hr]. intros [= <-]. by exists c.
  - intros r [->|Hin]%elem_of_cons; [rewrite lookup_insert_eq; split; [done|by exists c]|].
    destruct (Hm r Hin) as [[t Ht] ?]. split; [|done]. rewrite lookup_insert. case_decide; by eexists.
  - unfold of_order in *. rewrite filter_cons. case_decide as Eo; [|done]. simpl.
    destruct (filter _ (pm_charges m)) as [|r l] eqn:Ef; [simpl; lia|]. exfalso.
    assert (r ∈ filter (fun r => cr_OrderID r = oid) (pm_charges m)) as Hin by (rewrite Ef; left).
    apply list_elem_of_filter in Hin as [Er Hin]. destruct (Hm r Hin) as [[t Ht] (c' & Hc' & <-)].
    rewrite (Horder c' c Hc' Hc ltac:(congruence)) in Ht. unfold key in Ek. by rewrite Ht in Ek.
Qed.
Lemma charged_once : (length (of_order (charges log)) <= 1)%nat.
Proof.
  assert (forall l, l ⊆ log -> memory_ok (foldr receive (MkMemory ∅ []) l)) as H; [|by apply (H log)].
  induction l as [|c l IH]; intros Hl; simpl.
  - split_and!; simpl; [intros k t; by rewrite lookup_empty|by intros r ?%not_elem_of_nil|lia].
  - apply receive_ok; [apply Hl; left|]. apply IH. intros x Hx. apply Hl. by right.
Qed.
End charges.

(** The service's clock, the provider's and the database's differ by at most
    [skew], and a request the service allowed is at the provider within
    [delay]. *)
Definition timely (skew delay : Z) (s : shared) : Prop := forall c p, c ∈ sh_creates s ->
  payments (sh_db s) !! cr_PaymentID (cs_request c) = Some p ->
  pay_created_at p <= cs_sent c + skew /\ cs_sent c <= cs_allowed c + delay.
Definition within (shop : string) (skew window : Z) : terms :=
  MkTerms shop (fun now wall w => wall <= now + skew /\ w <= window).
Lemma timestamptz_le t : timestamptz t <= t.
Proof. unfold timestamptz. pose proof (Z.mul_div_le t 1000). lia. Qed.
Lemma timely_once shop skew delay window s oid : JB (within shop skew window) s -> timely skew delay s ->
  window + 2 * skew + delay <= retained ->
  (length (filter (fun r => cr_OrderID r = oid) (charges (sh_creates s))) <= 1)%nat.
Proof.
  intros HJ Ht Hw. pose proof (JB_inv _ _ HJ) as HI. apply charged_once.
  - intros c c' (p & Hp & Er & _)%(jb_creates _ _ HJ) (p' & Hp' & Er' & _)%(jb_creates _ _ HJ). rewrite Er, Er' in *. simpl.
    intros E. pose proof (i_pay_unique _ HI _ _ _ _ Hp Hp' E) as Ek. simpl in *. rewrite Ek in Hp. by simplify_eq.
  - intros c c' Hc Hc' E. destruct (jb_creates _ _ HJ c Hc) as (p & Hp & Er & Ha), (jb_creates _ _ HJ c' Hc') as (p' & Hp' & Er' & _).
    destruct (Ht c p Hc Hp) as [_ H1], (Ht c' p' Hc' Hp') as [H2 _].
    rewrite Er, Er' in *. simpl in *. pose proof (i_provider_key _ HI _ _ _ _ Hp Hp' E) as Ek. rewrite Ek in Hp.
    rewrite Hp in Hp'. injection Hp' as <-. destruct (jb_deadlines _ _ HJ _ _ Hp) as (wall & w & [H3 H4] & Ed).
    pose proof (timestamptz_le (wall + w)). lia.
Qed.
