(* ===== verification/BillingJobs.v ===== *)
(** * billing-service: requests and workers keep to the protocol

    Every handler of the API and every worker only takes steps of the
    protocol of BillingSystem.v, whatever answers it gets and whatever the
    rest of the system does between two calls, as long as that, too, keeps to
    the protocol; and what follows for charges and payments. *)

From Stdlib Require Import List.
From S2P Require Import Prelude GoStrings Backoff Platform Jobs BillingDomain BillingStore BillingInv BillingSteps BillingSpec.
From S2P Require Import BillingService BillingSystem.

Section jobs.
Context (env : billing_env) (cfg : billing_config).
Context (decode : string -> option paymentResponse) (url_Parse : string -> option (string * string)).
#[local] Abbreviation shop := (bc_shopID cfg).
(** With which clocks and windows payments are created; those of the service
    are among them. *)
Context (may_create : Z -> Z -> Z -> Prop) (Hcreate : forall i, may_create (be_now env i) (be_wall env i) (bc_createWindow cfg)).
#[local] Abbreviation tm := (MkTerms shop may_create).
#[local] Instance protocol : Protocol shared := billing_protocol tm.
(** The others keep to the protocol. *)
Context (Hrely : relies (be_between env)).
Implicit Types s : shared.

(** ** Assertions that others cannot break *)

Lemma step_payment s s' k p : JB tm s -> bill_step tm s s' -> payments (sh_db s) !! k = Some p ->
  exists p', payments (sh_db s') !! k = Some p' /\ pay_evolves p p'.
Proof.
  intros HJ Hs Hk. revert HJ Hk. destruct Hs as [o Hp|q j al se a Hj Hd|i a]; intros HJ Hk; simpl; [|by exists p..].
  destruct (bill_exec_good o (sh_db s) (JB_inv _ _ HJ)) as [_ HS]. by apply (se_payments _ _ HS).
Qed.
Lemma step_calls s s' c : bill_step tm s s' -> c ∈ sh_calls s -> c ∈ sh_calls s'.
Proof. intros [o Hp|q j al se a Hj Hd|i a] Hc; simpl; [done|by right..]. Qed.

(** The value a worker holds describes a payment, as it was or is. *)
Definition known (v : PaymentOperation) s : Prop := exists p, payments (sh_db s) !! PaymentID v = Some p /\
  create_request v = request_of p /\ forall i, ProviderPaymentID v = Some i -> pay_provider_payment_id p = Some i.
Lemma stable_known v : stable (known v).
Proof.
  intros s s' HJ Hs (p & Hk & Er & Hi). destruct (step_payment s s' _ p HJ Hs Hk) as (p' & Hk' & He).
  exists p'. split_and!; [done| |].
  - rewrite Er. symmetry. apply request_same, He.
  - intros i ?%Hi. by apply (pe_provider _ _ He).
Qed.
(** The payment may be sent to the provider, as of [now]. *)
Definition ready (now : Z) (v : PaymentOperation) s : Prop := exists p, payments (sh_db s) !! PaymentID v = Some p /\
  create_request v = request_of p /\ now < pay_provider_create_deadline p.
Lemma stable_ready now v : stable (ready now v).
Proof.
  intros s s' HJ Hs (p & Hk & Er & Hd). destruct (step_payment s s' _ p HJ Hs Hk) as (p' & Hk' & He).
  exists p'. split_and!; [done| |].
  - rewrite Er. symmetry. apply request_same, He.
  - destruct He as [[= _ _ _ _ _ _ -> _] _ _]. done.
Qed.
Definition called (c : provider_call) s : Prop := c ∈ sh_calls s.
Lemma stable_called c : stable (called c).
Proof. intros s s' _ Hs. by apply step_calls. Qed.
Lemma stable_True : stable (fun _ : shared => True).
Proof. by intros s s' _ _. Qed.
Hint Resolve stable_known stable_ready stable_called stable_True : core.

Lemma known_view d cs log k p o : Inv d -> payments d !! k = Some p -> known (payment_view p o) (MkShared d cs log).
Proof. intros HI Hk. exists p. split_and!; [simpl; by rewrite (i_pay_key _ HI _ _ Hk)|done|done]. Qed.
Lemma valid_vouches v p pp b : validateProviderPayment cfg url_Parse v pp b = true -> create_request v = request_of p ->
  vouches shop p pp /\ forall i, ProviderPaymentID v = Some i -> i = pp_ProviderPaymentID pp.
Proof.
  unfold validateProviderPayment. rewrite !andb_true_iff, !bool_decide_eq_true, Z.eqb_eq.
  intros (((((((Hi & Ht) & Ea) & Em) & Ec) & Eo) & Ep) & _) [= _ E2 E3 E4 E5]. split.
  - unfold vouches. split_and!; first [done|congruence].
  - intros i E. rewrite E in Hi. by apply bool_decide_eq_true in Hi.
Qed.

(** ** Calls *)

Lemma triple_bill_op {A} (P : shared -> Prop) (m : nat -> bill_tx A) (o : nat -> op) (F : A -> shared -> Prop) :
  stable P -> (forall i s, JB tm s -> P s -> permitted tm s (o i)) -> (forall i d, exec (o i) d = outcome (m i) d) ->
  (forall i s x d', JB tm s -> P s -> in_tx (m i) (sh_db s) = (Ok x, d') -> JB tm (put_db d' s) -> F x (put_db d' s)) ->
  triple P (store env m) (fun r s => P s /\ forall x, r = Ok x -> F x s).
Proof.
  intros HP Ho He HF. apply triple_call_store; [exact Hrely|exact HP| |exact HF].
  intros i s x d' HJ Hs Hr. apply rtc_once. assert (d' = snd (exec (o i) (sh_db s))) as -> by (by rewrite He, bill_outcome_snd, Hr).
  apply bill_store. by apply Ho.
Qed.
(** A call whose answer tells nothing. *)
Lemma triple_do {A} (P : shared -> Prop) (m : nat -> bill_tx A) (o : nat -> op) :
  stable P -> (forall i s, JB tm s -> P s -> permitted tm s (o i)) -> (forall i d, exec (o i) d = outcome (m i) d) ->
  triple P (store env m) (fun _ => P).
Proof.
  intros HP Ho He. eapply triple_conseq; [by apply (triple_bill_op P m o (fun _ _ => True))|done|by intros r s _ [? _]].
Qed.
Lemma in_tx_query {A} (f : db -> result BillErr A) d x d' : in_tx (query f) d = (x, d') -> d' = d /\ x = f d.
Proof. unfold in_tx. destruct (query f (Txn d d)) as [y t] eqn:E. apply run_query in E as [-> ->]. by intros [= <- <-]. Qed.
Lemma triple_read {A} (P : shared -> Prop) (m : nat -> bill_tx A) (F : A -> shared -> Prop) : stable P ->
  (forall i d x d', in_tx (m i) d = (x, d') -> d' = d) ->
  (forall i s x, JB tm s -> P s -> in_tx (m i) (sh_db s) = (Ok x, sh_db s) -> F x s) ->
  triple P (store env m) (fun r s => P s /\ forall x, r = Ok x -> F x s).
Proof.
  intros HP Hq HF. apply triple_call_store; [exact Hrely|exact HP| |].
  - intros i s x d' _ _ Hr. rewrite (Hq _ _ _ _ Hr). destruct s. apply rtc_refl.
  - intros i s x d' HJ Hs Hr _. pose proof (Hq _ _ _ _ Hr) as ->. specialize (HF i s x HJ Hs Hr). by destruct s.
Qed.
Lemma quiet_reads {A} (m : bill_tx A) d x d' : quiet m -> in_tx m d = (x, d') -> d' = d.
Proof. intros Hq. unfold in_tx. specialize (Hq (Txn d d)). destruct (m (Txn d d)) as [y t]. intros [= _ <-]. exact Hq. Qed.
Lemma triple_reading {A} (P : shared -> Prop) (m : nat -> bill_tx A) : stable P -> (forall i, quiet (m i)) ->
  triple P (store env m) (fun _ => P).
Proof.
  intros HP Hq. eapply triple_conseq; [apply (triple_read P m (fun _ _ => True)); [done| |done]|done|by intros r s _ [? _]].
  intros i d x d'. by apply quiet_reads.
Qed.
Lemma triple_GetPayment (P : shared -> Prop) k : stable P ->
  triple P (do_GetPayment env k) (fun r s => P s /\ forall v, r = Ok v -> known v s /\ PaymentID v = k).
Proof.
  intros HP. apply (triple_read P (fun _ => GetPayment k)); [done|intros _ d x d' [-> _]%in_tx_query; done|].
  intros _ [d cs log] v HJ _ [_ Hv]%in_tx_query. symmetry in Hv. apply getPayment_ok in Hv as (p & o & Hk & Ho & ->).
  split; [by eapply known_view; [apply (JB_inv _ _ HJ)|]|]. simpl. by apply (i_pay_key _ (JB_inv _ _ HJ)).
Qed.

(** Asking the provider for what a row says. *)
Lemma triple_create (P : shared -> Prop) now v : stable P -> (forall s, P s -> ready now v s) ->
  triple P (provider_CreatePayment env cfg decode now (create_request v))
    (fun r s => P s /\ called (ProviderCreate (create_request v) r) s).
Proof.
  intros HP Hv. apply triple_call; [exact Hrely|exact HP|]. intros i s a s' HJ Hs [= <- <-]. split.
  - apply rtc_once. destruct (Hv s Hs) as (p & Hk & -> & Hd). by eapply bill_create.
  - intros _. by left.
Qed.
Lemma triple_get (P : shared -> Prop) i : stable P ->
  triple P (provider_GetPayment env decode i) (fun r s => P s /\ called (ProviderGet i r) s).
Proof.
  intros HP. apply triple_call; [exact Hrely|exact HP|]. intros j s a s' HJ Hs [= <- <-]. split.
  - apply rtc_once, bill_get.
  - intros _. by left.
Qed.

Lemma prepared_view k at_ d v d' : Inv d -> in_tx (PrepareProviderCreate k at_) d = (Ok (v, true), d') ->
  d' = d /\ exists p o, payments d !! k = Some p /\ v = payment_view p o /\ at_ < pay_provider_create_deadline p.
Proof.
  intros HI. unfold in_tx. destruct (PrepareProviderCreate k at_ (Txn d d)) as [x t] eqn:E. intros [= -> <-].
  unfold PrepareProviderCreate in E. apply bind_ok_inv in E as (w & t1 & [-> Hw]%query_ok & E).
  apply getPayment_ok in Hw as (p & o & Hk & Ho & ->). destruct (_ || _); [by injection E|].
  destruct (_ <=? _) eqn:Hd; [|injection E as <- <-; apply Z.leb_gt in Hd; split; [done|by exists p, o]].
  apply bind_ok_inv in E as (a & t1 & _ & E). apply bind_ok_inv in E as (b & t2 & _ & E).
  apply bind_ok_inv in E as (c & t3 & _ & E). unfold bind, commit, ret in E. by injection E.
Qed.
Lemma triple_Prepare now v : triple (known v) (do_PrepareProviderCreate env (PaymentID v) now)
  (fun r s => known v s /\ forall x, r = Ok x -> snd x = true -> known (fst x) s /\ ready now (fst x) s).
Proof.
  apply (triple_bill_op _ _ (fun _ => OpPrepareProviderCreate (PaymentID v) now)); [done..|].
  intros i [d cs log] [w b] d' HJ _ Hr _ Hb. simpl in Hb. subst b.
  destruct (prepared_view _ _ _ _ _ (JB_inv _ _ HJ) Hr) as (-> & p & o & Hk & -> & Hd).
  pose proof (JB_inv _ _ HJ) as HI. split; [by eapply known_view|]. exists p. simpl in *. by rewrite (i_pay_key _ HI _ _ Hk).
Qed.
Lemma triple_fail k code (P : shared -> Prop) : stable P -> triple P (markProviderCreateFailed env k code) (fun _ => P).
Proof. intros HP. by apply (triple_do P _ (fun _ => OpMarkFailed k code)). Qed.
Lemma triple_ambiguous k code (P : shared -> Prop) : stable P -> triple P (do_MarkProviderCreateAmbiguous env cfg k code) (fun _ => P).
Proof. intros HP. by apply (triple_do P _ (fun i => OpMarkAmbiguous (be_now env i) k code (bc_retryDelay cfg))). Qed.
Lemma triple_apply_create v pp : validateProviderPayment cfg url_Parse v pp true = true ->
  triple (fun s => known v s /\ called (ProviderCreate (create_request v) (Ok pp)) s)
    (ApplyProviderCreate env (PaymentID v) pp) (fun _ _ => True).
Proof.
  intros Hv. assert (stable (fun s => known v s /\ called (ProviderCreate (create_request v) (Ok pp)) s)) as Hst
    by (by apply stable_and).
  unfold ApplyProviderCreate. eapply triple_seq.
  - apply (triple_do _ _ (fun i => OpApplyProviderCreate (be_now env i) (PaymentID v) pp) Hst); [|done].
    intros i s _ [(p & Hk & Er & _) Hc]. exists p. rewrite <- Er. split_and!; [done|done|].
    by apply (valid_vouches v p pp true).
  - intros [x|e]; [|apply triple_done]. by eapply triple_forget, triple_GetPayment.
Qed.

Lemma triple_createAtProvider v : triple (known v) (createAtProvider env cfg decode url_Parse v) (fun _ _ => True).
Proof.
  unfold createAtProvider. eapply triple_seq; [by apply (triple_aside _ Hrely)|]. intros [|]; [apply triple_done|].
  eapply triple_seq; [by apply (triple_aside _ Hrely)|]. intros now.
  eapply triple_bind; [apply triple_Prepare|]. intros [[w [|]]|e]; [|apply triple_done..]. cbv beta iota.
  apply (triple_weaken _ (fun s => known w s /\ ready now w s)); [|by intros s [_ H]; apply (H (w, true))].
  eapply triple_bind; [apply (triple_create (fun s => known w s /\ ready now w s)); [by apply stable_and|by intros s [_ H]]|].
  intros [pp|e]; cbv beta iota.
  - apply (triple_weaken _ (fun s => known w s /\ called (ProviderCreate (create_request w) (Ok pp)) s)); [|by intros s [[? _] ?]].
    destruct (validateProviderPayment cfg url_Parse w pp true) eqn:Hval.
    + eapply triple_seq; [by eapply triple_forget, triple_apply_create|]. intros r. apply triple_done.
    + eapply triple_seq; [apply triple_fail; by apply stable_and|]. intros r. apply triple_done.
  - apply (triple_weaken _ (known w)); [|by intros s [[? _] _]]. destruct (IsProviderRetryable e).
    + eapply triple_seq; [by apply triple_ambiguous|]. intros [u|e']; [|apply triple_done].
      eapply triple_seq; [by eapply triple_forget, triple_GetPayment|]. intros r. apply triple_done.
    + eapply triple_seq; [by apply triple_fail|]. intros r. apply triple_done.
Qed.

(** ** Requests *)

Lemma payment_created_known now wall w k pk pr input d v b d' cs log : JB tm (MkShared d' cs log) -> Inv d ->
  payment_created now wall w k pk pr input d (v, b) d' -> known v (MkShared d' cs log).
Proof.
  intros HJ HI Hc. pose proof (JB_inv _ _ HJ) as HI'. simpl in HI'. remember (v, b) as vb eqn:E.
  destruct Hc as [row p o _ _ [Hk _] _|k' p o _ [Hk _] _ _ _|o _ _ _ _ _ _ p]; injection E as <- <-.
  - by eapply known_view.
  - by eapply (known_view _ _ _ k').
  - eapply (known_view _ _ _ k); [done|]. apply lookup_insert_eq.
Qed.
Lemma triple_CreatePayment input : triple (fun _ => True) (do_CreatePayment env cfg input)
  (fun r s => True /\ forall x, r = Ok x -> known (fst x) s).
Proof.
  apply (triple_bill_op _ _ (fun i => OpCreatePayment (be_now env i) (be_wall env i) (fst (be_draw env i)) (snd (be_draw env i)) input
    "yookassa" (bc_createWindow cfg))); [done|by intros i s _ _; apply Hcreate|done|].
  intros i [d cs log] [v b] d' HJ _ Hr HJ'. simpl in Hr. pose proof (JB_inv _ _ HJ) as HI.
  destruct (CreatePayment_cases _ _ _ _ _ _ _ _ _ _ HI Hr) as [(e & [=] & _)|(r & [= <-] & Hc)].
  by eapply payment_created_known.
Qed.
Lemma quiet_FindOrderReplay u k h : quiet (FindOrderReplay u k h).
Proof. unfold FindOrderReplay. tx_auto. Qed.
Lemma quiet_FindPaymentReplay u k h : quiet (FindPaymentReplay u k h).
Proof. unfold FindPaymentReplay. tx_auto. Qed.
Hint Resolve quiet_FindOrderReplay quiet_FindPaymentReplay : core.

Lemma triple_service_CreateOrder u p r t k : triple (fun _ => True) (service_CreateOrder env u p r t k) (fun _ _ => True).
Proof.
  unfold service_CreateOrder. eapply triple_seq; [by apply triple_reading|]. intros [[o|]|e]; [apply triple_done| |apply triple_done].
  eapply triple_seq; [by apply (triple_aside _ Hrely)|]. intros [e|]; [apply triple_done|].
  eapply triple_seq; [by apply (triple_aside _ Hrely)|]. intros [snapshot|e]; [|apply triple_done].
  by eapply triple_forget, (triple_do (fun _ => True) _ (fun i => OpCreateOrder (be_now env i) (fst (be_draw env i)) _)).
Qed.
Lemma triple_GetOrder u k : triple (fun _ => True) (service_GetOrder env u k) (fun _ _ => True).
Proof. apply triple_reading; [done|]. intros _. unfold GetOrder. tx_auto. Qed.
Lemma triple_GetPaymentStatus u o k : triple (fun _ => True) (service_GetPaymentStatus env u o k) (fun _ _ => True).
Proof. eapply triple_seq; [by eapply triple_forget, triple_GetPayment|]. intros r. apply triple_done. Qed.
Lemma triple_service_CreatePayment u o k :
  triple (fun _ => True) (service_CreatePayment env cfg decode url_Parse u o k) (fun _ _ => True).
Proof.
  unfold service_CreatePayment. eapply triple_seq; [by apply triple_reading|]. intros [[v|]|e]; [apply triple_done| |apply triple_done].
  eapply triple_seq; [apply triple_GetOrder|]. intros [order|e]; [|apply triple_done].
  eapply triple_seq; [by apply (triple_aside _ Hrely)|]. intros [e|]; [apply triple_done|].
  eapply triple_bind; [apply triple_CreatePayment|]. intros [[v b]|e]; [|apply triple_done]. cbv beta iota.
  destruct (_ || _); [apply triple_done|].
  apply (triple_weaken _ (known v)); [|by intros s [_ H]; apply (H (v, b))].
  eapply triple_seq; [apply triple_createAtProvider|]. intros r. apply triple_done.
Qed.

(** ** Workers *)

Lemma triple_reschedule k code delay (P : shared -> Prop) : stable P -> triple P (reschedule env k code delay) (fun _ => P).
Proof. intros HP. by apply (triple_do P _ (fun i => OpReschedulePayment (be_now env i) k code delay)). Qed.
Lemma triple_reject n code (P : shared -> Prop) : stable P -> triple P (reject_webhook env n code) (fun _ => P).
Proof. intros HP. by apply (triple_do P _ (fun i => OpRejectWebhook (be_now env i) (wh_InboxID n) code)). Qed.
Lemma triple_retry n code (P : shared -> Prop) : stable P -> triple P (retry_webhook env cfg n code) (fun _ => P).
Proof.
  intros HP. apply (triple_do P _ (fun i => OpRetryWebhook (be_now env i) (wh_InboxID n) code
    (retryBackoff_billing (bc_retryDelay cfg) (wh_Attempts n) (wh_InboxID n)))); [exact HP|exact (fun _ _ _ _ => I)|reflexivity].
Qed.

(** The provider answered for the payment [v] is bound to. *)
Definition answered (v : PaymentOperation) (i : string) (pp : ProviderPayment) s : Prop :=
  known v s /\ called (ProviderGet i (Ok pp)) s.
Lemma stable_answered v i pp : stable (answered v i pp).
Proof. by apply stable_and. Qed.
Lemma triple_applyProviderState v i pp : ProviderPaymentID v = Some i ->
  validateProviderPayment cfg url_Parse v pp false = true ->
  triple (answered v i pp) (applyProviderState env v pp) (fun _ _ => True).
Proof.
  intros Hi Hv. pose proof (stable_answered v i pp) as Hst. unfold applyProviderState. case_bool_decide.
  { by eapply triple_forget, triple_reschedule. }
  eapply triple_seq; [by apply (triple_aside _ Hrely)|]. intros now. destruct (_ && _); [apply triple_done|].
  eapply triple_seq; [by apply (triple_aside _ Hrely)|]. intros corr.
  eapply triple_forget, (triple_do _ _ (fun j => OpApplyVerified (be_now env j) (fst (be_draw env j)) v (dated now pp) corr) Hst); [|done].
  intros j s _ [(p & Hk & Er & Hb) Hc]. destruct (valid_vouches v p pp false Hv Er) as [Hvo Hid].
  exists p, pp, now. split_and!; [done| |done]. exists i. split_and!; [by apply Hb|done|symmetry; by apply Hid|done].
Qed.

Lemma triple_by_provider i (P : shared -> Prop) : stable P -> triple P (store env (fun _ => GetPaymentByProviderID i))
  (fun r s => P s /\ forall v, r = Ok v -> known v s /\ ProviderPaymentID v = Some i).
Proof.
  intros HP. apply (triple_read P (fun _ => GetPaymentByProviderID i)); [done|intros _ d x d' [-> _]%in_tx_query; done|].
  intros _ [d cs log] v HJ _ [_ Hv]%in_tx_query. symmetry in Hv. pose proof (JB_inv _ _ HJ) as HI.
  apply (getPayment_by_provider_ok _ _ _ HI) in Hv as (p & o & Hk & Hi & Ho & ->). split; [by eapply known_view|done].
Qed.
Lemma triple_processWebhook : triple (fun _ => True) (processWebhook env cfg decode url_Parse) (fun _ _ => True).
Proof.
  unfold processWebhook. eapply triple_seq.
  { by apply (triple_do _ _ (fun i => OpClaimWebhook (be_now env i) (bc_lease cfg) (be_locked env i))). }
  intros [[n|]|e]; [|apply triple_done..].
  eapply triple_bind; [by apply (triple_by_provider (wh_ProviderObjectID n) (fun _ => True))|]. intros [v|e]; cbv beta iota.
  2: { destruct e; [by eapply triple_forget, triple_weaken; [apply (triple_reject n _ (fun _ => True))|]|..];
       by eapply triple_forget, triple_weaken; [apply (triple_retry n _ (fun _ => True))|]. }
  set (i := wh_ProviderObjectID n). destruct (decide (ProviderPaymentID v = Some i)) as [Hi|Hi].
  2: { intros w x w' _ [_ H]. by destruct (H v eq_refl) as [_ ?]. }
  apply (triple_weaken _ (known v)); [|by intros s [_ H]; apply (H v)].
  eapply triple_bind; [by apply (triple_get (known v) i)|]. intros [pp|e]; cbv beta iota.
  - destruct (validateProviderPayment cfg url_Parse v pp false) eqn:Hv; simpl.
    + eapply triple_seq; [apply (triple_applyProviderState v i pp Hi Hv)|]. intros [u|e].
      * by eapply triple_forget, (triple_do (fun _ => True) _ (fun j => OpCompleteWebhook (be_now env j) (wh_InboxID n) "verified")).
      * destruct e; [| |by eapply triple_forget, triple_reject|..]; by eapply triple_forget, triple_retry.
    + by eapply triple_forget, triple_weaken; [apply (triple_reject n _ (fun _ => True))|].
  - destruct (IsProviderRetryable e); [by eapply triple_forget, triple_weaken; [apply (triple_retry n _ (fun _ => True))|]|].
    by eapply triple_forget, triple_weaken; [apply (triple_reject n _ (fun _ => True))|].
Qed.

Lemma triple_claim : triple (fun _ => True) (ClaimPaymentForReconcile env cfg)
  (fun r s => forall v, r = Ok (Some v) -> known v s).
Proof.
  unfold ClaimPaymentForReconcile. eapply triple_seq.
  { by apply (triple_do _ _ (fun i => OpClaimPayment (be_now env i) (bc_lease cfg) (be_locked env i))). }
  intros [[k|]|e]; [|by apply triple_ret..]. eapply triple_bind; [by apply (triple_GetPayment (fun _ => True))|].
  intros [v|e]; apply triple_ret; [|done]. intros s _ [_ H] x [= <-]. by apply H.
Qed.
Lemma triple_reconcilePayment : triple (fun _ => True) (reconcilePayment env cfg decode url_Parse) (fun _ _ => True).
Proof.
  unfold reconcilePayment. eapply triple_bind; [apply triple_claim|]. intros [[v|]|e]; [|apply triple_done..].
  apply (triple_weaken _ (known v)); [|intros s H; by apply H].
  destruct (ProviderPaymentID v) as [i|] eqn:Hi.
  - eapply triple_bind; [by apply (triple_get (known v) i)|]. intros [pp|e]; cbv beta iota.
    + destruct (validateProviderPayment cfg url_Parse v pp false) eqn:Hv.
      * eapply triple_seq; [by apply (triple_applyProviderState v i pp Hi Hv)|]. intros r. apply triple_done.
      * eapply triple_seq; [apply triple_fail; by apply stable_and|]. intros r. apply triple_done.
    + destruct (IsProviderRetryable e).
      * eapply triple_seq; [apply triple_reschedule; by apply stable_and|]. intros r. apply triple_done.
      * eapply triple_seq; [apply triple_fail; by apply stable_and|]. intros r. apply triple_done.
  - eapply triple_seq; [apply triple_createAtProvider|]. intros [v'|l]; [|apply triple_done]. destruct (negb _); [apply triple_done|].
    eapply triple_seq; [by apply triple_reschedule|]. intros r. apply triple_done.
Qed.
Lemma triple_billing_publishOutbox : triple (fun _ => True) (billing_publishOutbox env cfg) (fun _ _ => True).
Proof.
  unfold billing_publishOutbox. eapply triple_seq.
  { by apply (triple_do _ _ (fun i => OpClaimOutbox (be_now env i) (bc_lease cfg) (be_locked env i))). }
  intros [[r|]|e]; [|apply triple_done..]. eapply triple_seq; [by apply (triple_aside _ Hrely)|]. intros [|].
  - by eapply triple_forget, (triple_do (fun _ => True) _ (fun i => OpCompleteOutbox (be_now env i) (ob_event_id r))).
  - by eapply triple_forget, (triple_do (fun _ => True) _ (fun i => OpRetryOutbox (be_now env i) (ob_event_id r)
      (retryBackoff_billing (bc_retryDelay cfg) (ob_attempts r) (ob_event_id r)))).
Qed.
Lemma triple_billing_workOnce : triple (fun _ => True) (billing_workOnce env cfg decode url_Parse) (fun _ _ => True).
Proof.
  unfold billing_workOnce. eapply triple_seq; [apply triple_processWebhook|]. intros r1.
  eapply triple_seq; [apply triple_reconcilePayment|]. intros r2.
  eapply triple_seq; [apply triple_billing_publishOutbox|]. intros r3. apply triple_done.
Qed.

(** ** The API *)

Context (decode_order decode_notification : string -> option (string * string * string)).
Context (decode_object : string -> option (string * string)).

Lemma triple_http_CreateOrder u k b : triple (fun _ => True) (http_CreateOrder env decode_order u k b) (fun _ _ => True).
Proof.
  unfold http_CreateOrder. destruct (_ || _); [apply triple_done|].
  destruct (decode_order b) as [[[plan region] terms]|]; [|apply triple_done]. cbv zeta. destruct (_ || _); [apply triple_done|].
  eapply triple_seq; [apply triple_service_CreateOrder|]. intros r. apply triple_done.
Qed.
Lemma triple_http_GetOrder u o : triple (fun _ => True) (http_GetOrder env u o) (fun _ _ => True).
Proof. unfold http_GetOrder. destruct (_ || _); [apply triple_done|]. eapply triple_seq; [apply triple_GetOrder|]. intros r. apply triple_done. Qed.
Lemma triple_http_GetPaymentStatus u o p : triple (fun _ => True) (http_GetPaymentStatus env u o p) (fun _ _ => True).
Proof.
  unfold http_GetPaymentStatus. destruct (_ || _); [apply triple_done|]. eapply triple_seq; [apply triple_GetPaymentStatus|].
  intros r. apply triple_done.
Qed.
Lemma triple_http_CreatePayment u o k : triple (fun _ => True) (http_CreatePayment env cfg decode url_Parse u o k) (fun _ _ => True).
Proof.
  unfold http_CreatePayment. destruct (_ || _); [apply triple_done|]. eapply triple_seq; [apply triple_service_CreatePayment|].
  intros r. apply triple_done.
Qed.
Lemma triple_YooKassaWebhook b : triple (fun _ => True) (YooKassaWebhook env decode_notification decode_object b) (fun _ _ => True).
Proof.
  unfold YooKassaWebhook. destruct (decode_notification b) as [[[ty event] object]|]; [|apply triple_done].
  destruct (_ || _); [apply triple_done|]. destruct (decode_object object) as [[i st]|]; [|apply triple_done].
  destruct (_ || _); [apply triple_done|]. destruct (negb _); [apply triple_done|]. eapply triple_seq; [|intros r; apply triple_done].
  by apply (triple_do (fun _ => True) _ (fun j => OpInsertWebhook (be_now env j) (MkWebhook (fst (be_draw env j)) event i st 0))).
Qed.

(** What the service does: serve a request, or take a turn of its worker. *)
Inductive activity :=
  | ServeCreateOrder (user_id idempotency_key body : string)
  | ServeGetOrder (user_id order_id : string)
  | ServeGetPaymentStatus (user_id order_id payment_id : string)
  | ServeCreatePayment (user_id order_id idempotency_key : string)
  | ServeWebhook (body : string)
  | WorkOnce.
Definition perform (a : activity) : job shared unit :=
  match a with
  | ServeCreateOrder u k b => _ ← http_CreateOrder env decode_order u k b; mret tt
  | ServeGetOrder u o => _ ← http_GetOrder env u o; mret tt
  | ServeGetPaymentStatus u o p => _ ← http_GetPaymentStatus env u o p; mret tt
  | ServeCreatePayment u o k => _ ← http_CreatePayment env cfg decode url_Parse u o k; mret tt
  | ServeWebhook b => _ ← YooKassaWebhook env decode_notification decode_object b; mret tt
  | WorkOnce => billing_workOnce env cfg decode url_Parse
  end.
Lemma triple_perform a : triple (fun _ => True) (perform a) (fun _ _ => True).
Proof.
  destruct a; simpl; [..|apply triple_billing_workOnce]; (eapply triple_seq; [|intros r; apply triple_done]).
  - apply triple_http_CreateOrder.
  - apply triple_http_GetOrder.
  - apply triple_http_GetPaymentStatus.
  - apply triple_http_CreatePayment.
  - apply triple_YooKassaWebhook.
Qed.
Lemma perform_reaches a w w' : bill_reaches tm initial (w_state w) -> perform a w = (tt, w') ->
  bill_reaches tm (w_state w) (w_state w').
Proof.
  intros Hw Hr. apply (triple_perform a w tt w'); [|done|done]. by apply (bill_reaches_JB _ _ _ Hw), JB_initial.
Qed.
End jobs.

(** ** What the protocol guarantees *)

(** C7: whatever it is asked, and whatever the provider, the other services
    and the network answer, the billing service only takes steps of its
    protocol: statements of the store that are permitted, and calls on the
    provider for what a payment row says, allowed before the row's deadline. *)
Theorem billing_follows_protocol env cfg may_create decode url_Parse decode_order decode_notification decode_object a w w' :
  let tm := MkTerms (bc_shopID cfg) may_create in
  (forall i, may_create (be_now env i) (be_wall env i) (bc_createWindow cfg)) ->
  (forall i s, JB tm s -> bill_reaches tm s (be_between env i s)) ->
  bill_reaches tm initial (w_state w) ->
  perform env cfg decode url_Parse decode_order decode_notification decode_object a w = (tt, w') ->
  bill_reaches tm (w_state w) (w_state w').
Proof. intros tm Hcreate Hrely. by apply perform_reaches. Qed.

(** C6: an order is charged at most once: however many requests for a payment
    were served, whatever the workers did and however often the provider was
    asked to create it and whatever it answered, every request for the order
    carries the same idempotency key, payment, amount and currency, which are
    the order's; and although the provider forgets a key after 24 hours, and
    carries out a request whose key it does not know, it carries out at most
    one of them, as long as the creation window leaves room for the
    differences of the clocks and the time a request is under way. *)
Theorem one_charge_per_order env cfg window skew delay decode url_Parse decode_order decode_notification decode_object a w w' :
  let tm := within (bc_shopID cfg) skew window in
  bc_createWindow cfg <= window ->
  window + 2 * skew + delay <= retained ->
  (forall i, be_wall env i <= be_now env i + skew) ->
  (forall i s, JB tm s -> bill_reaches tm s (be_between env i s)) ->
  bill_reaches tm initial (w_state w) ->
  perform env cfg decode url_Parse decode_order decode_notification decode_object a w = (tt, w') ->
  timely skew delay (w_state w') ->
  let s := w_state w' in
  (forall r1 r2 a1 a2, ProviderCreate r1 a1 ∈ sh_calls s -> ProviderCreate r2 a2 ∈ sh_calls s ->
     cr_OrderID r1 = cr_OrderID r2 ->
     r1 = r2 /\ exists o, orders (sh_db s) !! cr_OrderID r1 = Some o /\ cr_AmountMinor r1 = ord_amount_minor o /\
       cr_Currency r1 = ord_currency o) /\
  (forall oid, (length (filter (fun r => cr_OrderID r = oid) (charges (sh_creates s))) <= 1)%nat).
Proof.
  intros tm Hwin Hroom Hclock Hrely Hw Hr Ht s. assert (JB tm s) as HJ.
  { eapply bill_reaches_JB; [|apply JB_initial]. etrans; [exact Hw|].
    by apply (perform_reaches env cfg decode url_Parse _ (fun i => conj (Hclock i) Hwin) Hrely _ _ _ a w w' Hw Hr). }
  split; [|intros oid; by eapply timely_once]. intros r1 r2 a1 a2 H1 H2 E. pose proof (JB_inv _ _ HJ) as HI.
  destruct (jb_requests _ _ HJ _ _ H1) as (p1 & K1 & ->), (jb_requests _ _ HJ _ _ H2) as (p2 & K2 & ->). simpl in *.
  pose proof (i_pay_unique _ HI _ _ _ _ K1 K2 E) as Ek. rewrite <- Ek in K2. rewrite K1 in K2. injection K2 as <-.
  split; [done|]. destruct (i_pay_order _ HI _ _ K1) as (o & Ho & E1 & E2 & _). eauto.
Qed.

(** C5: nobody is served for a payment the provider does not know: a paid
    order has a payment that was created at the provider by the service's own
    request, and whose success, for the order's amount and currency and at
    the time recorded to the microsecond, the provider confirmed when it was
    asked; and so has
    every success event handed out. *)
Theorem paid_is_confirmed tm s :
  bill_reaches tm initial s ->
  let confirmed_order o := exists k p i pp pp', payments (sh_db s) !! k = Some p /\ pay_order_id p = ord_id o /\
    pay_provider_payment_id p = Some i /\
    ProviderCreate (request_of p) (Ok pp') ∈ sh_calls s /\ pp_ProviderPaymentID pp' = i /\
    ProviderGet i (Ok pp) ∈ sh_calls s /\ pp_Status pp = "succeeded"%string /\ pp_AccountID pp = tm_shop tm /\
    pp_AmountMinor pp = ord_amount_minor o /\ pp_Currency pp = ord_currency o /\ pp_MetadataOrderID pp = ord_id o /\
    pay_paid_at p = timestamptz <$> pp_CapturedAt pp in
  (forall k o, orders (sh_db s) !! k = Some o -> ord_status o = OrderPaid -> confirmed_order o) /\
  (forall kr r pay oid u pl am cur at_, outbox (sh_db s) !! kr = Some r ->
     env_Data (ob_payload r) = PaymentSucceededData pay oid u pl am cur at_ ->
     exists o, orders (sh_db s) !! oid = Some o /\ confirmed_order o /\ ord_amount_minor o = am).
Proof.
  intros HJ%bill_reaches_JB confirmed_order; [|apply JB_initial]. pose proof (JB_inv _ _ HJ) as HI.
  assert (forall kp p o, payments (sh_db s) !! kp = Some p -> orders (sh_db s) !! pay_order_id p = Some o ->
    pay_status p = PaymentSucceeded -> confirmed_order o) as Hc.
  { intros kp p o Hp Ho Es. destruct (jb_rows _ _ HJ _ _ Hp) as [Hb Hc].
    destruct (Hc ltac:(by rewrite Es)) as (pp & (i & Hi & Hg & Ei & Hv) & Hst & Ht).
    destruct (Hb i Hi) as (pp' & Hcr & Ei' & _). destruct Hv as (_ & V1 & V2 & V3 & V4 & _). rewrite Es in Hst.
    destruct (i_pay_order _ HI _ _ Hp) as (o' & Ho' & E1 & E2 & _). rewrite Ho in Ho'. injection Ho' as <-.
    pose proof (i_order_key _ HI _ _ Ho) as Eo. exists kp, p, i, pp, pp'. split_and!; try done; [congruence..|by apply Ht]. }
  split.
  - intros k o Ho Es. destruct (i_order_pay _ HI _ _ Ho) as (kp & p & Hp & Eo); [congruence|]. subst k.
    destruct (i_pay_order _ HI _ _ Hp) as (o' & Ho' & _ & _ & Ha). rewrite Ho in Ho'. injection Ho' as <-. rewrite Es in Ha.
    by eapply Hc.
  - intros kr r pay oid u pl am cur at_ Hr Hd. destruct (i_out_says _ HI _ _ Hr) as (p & o & Hp & Ho & Hs).
    unfold event_says in Hs. rewrite Hd in Hs. destruct Hs as (_ & Es & _ & _ & -> & _ & _ & -> & _).
    exists o. rewrite (i_order_key _ HI _ _ Ho). split_and!; [done|by eapply Hc|done].
Qed.

(** ** A run to evaluate *)

Module SystemDemo.
Definition uuid (c : string) : string := ("00000000-0000-0000-0000-00000000000" +:+ c)%string.
Definition user := uuid "1".
Definition order_id := uuid "2".
Definition payment_id := uuid "3".
Definition response (status : string) (url : option string) (captured : option Z) : paymentResponse :=
  MkResponse "prov1" status "5.00" "RUB" url (<["order_id" := order_id]> (<["payment_id" := payment_id]> ∅)) true captured None "shop".
Definition decode (body : string) : option paymentResponse :=
  if bool_decide (body = "pending"%string) then Some (response "pending" (Some "https://pay.example/1") None)
  else if bool_decide (body = "succeeded"%string) then Some (response "succeeded" None (Some (5 * minute)))
  else None.
Definition url_Parse (url : string) : option (string * string) := Some ("https", "pay.example").
Definition decode_order (body : string) : option (string * string * string) := Some ("monthly", "eu", "v1").
Definition decode_notification (body : string) : option (string * string * string) :=
  Some ("notification", "payment.succeeded", body).
Definition decode_object (object : string) : option (string * string) := Some ("prov1", "succeeded").
Definition cfg := MkBillingConfig "shop" "https://bot.example/return" (23 * hour) second minute.
(** Clocks a minute apart at most, and the window of the configuration. *)
Definition demo_terms : terms := within "shop" minute (23 * hour).
Definition environment (t : Z) (draw : string * string) (create get : http_answer) : billing_env :=
  MkBillingEnv (fun _ s => s) (fun _ => Up) (fun _ => t) (fun _ => t) (fun _ => ∅) (fun _ => draw) (fun _ => false)
    (fun _ _ _ => None) (fun _ _ _ => Ok Demo.plan) (fun _ _ _ => create) (fun _ _ => get) (fun _ _ => true).
Definition act (e : billing_env) (a : activity) (w : world shared) : world shared :=
  snd (perform e cfg decode url_Parse decode_order decode_notification decode_object a w).

Definition e1 := environment minute (order_id, "") NoAnswer NoAnswer.
Definition e2 := environment (2 * minute) (payment_id, "key-1") NoAnswer NoAnswer.
Definition e3 := environment (4 * minute) ("ev0", "") (Answer 200 "pending") NoAnswer.
Definition e4 := environment (6 * minute) ("inbox1", "") NoAnswer NoAnswer.
Definition e5 := environment (7 * minute) ("ev1", "") NoAnswer (Answer 200 "succeeded").
Definition w0 : world shared := MkWorld 0 initial.
Definition w1 := Eval vm_compute in act e1 (ServeCreateOrder user "key-order" "") w0.
(** The provider does not answer, and the worker tries again later. *)
Definition w2 := Eval vm_compute in act e2 (ServeCreatePayment user order_id "key-payment") w1.
Definition w3 := Eval vm_compute in act e3 WorkOnce w2.
Definition w4 := Eval vm_compute in act e4 (ServeWebhook "") w3.
Definition w5 := Eval vm_compute in act e5 WorkOnce w4.

Definition order_status (w : world shared) : option OrderStatus := ord_status <$> orders (sh_db (w_state w)) !! order_id.
Example billing_demo_runs : map order_status [w1; w2; w3; w4; w5] =
  [Some OrderCreated; Some OrderPaymentPending; Some OrderPaymentPending; Some OrderPaymentPending; Some OrderPaid].
Proof. evaluates. Qed.
Example calls_made : length (sh_calls (w_state w5)) = 3%nat.
Proof. evaluates. Qed.

Lemma clocks_ok t : t <= t + minute /\ 23 * hour <= 23 * hour.
Proof. by split; [unfold minute, second; lia|]. Qed.
Lemma act_reaches e a w w' : (forall i s, be_between e i s = s) -> (forall i, be_wall e i = be_now e i) -> bill_reaches demo_terms initial (w_state w) -> act e a w = w' ->
  bill_reaches demo_terms initial (w_state w').
Proof.
  intros He Hc Hw Hr. etransitivity; [exact Hw|].
  apply (perform_reaches e cfg decode url_Parse (tm_create demo_terms) ltac:(intros i; rewrite Hc; exact (clocks_ok _))
    ltac:(intros i s _; rewrite He; apply rtc_refl) decode_order decode_notification decode_object a w w'); [exact Hw|].
  unfold act in Hr. destruct (perform _ _ _ _ _ _ _ _ _) as [[] w1']. by subst.
Qed.
Lemma reached1 : bill_reaches demo_terms initial (w_state w1).
Proof. apply (act_reaches e1 (ServeCreateOrder user "key-order" "") w0); [done|done|apply rtc_refl|]. evaluates. Qed.
Lemma reached2 : bill_reaches demo_terms initial (w_state w2).
Proof. apply (act_reaches e2 (ServeCreatePayment user order_id "key-payment") w1); [done|done|exact reached1|]. evaluates. Qed.
Lemma reached3 : bill_reaches demo_terms initial (w_state w3).
Proof. apply (act_reaches e3 WorkOnce w2); [done|done|exact reached2|]. evaluates. Qed.
Lemma reached4 : bill_reaches demo_terms initial (w_state w4).
Proof. apply (act_reaches e4 (ServeWebhook "") w3); [done|done|exact reached3|]. evaluates. Qed.
Lemma reached5 : bill_reaches demo_terms initial (w_state w5).
Proof. apply (act_reaches e5 WorkOnce w4); [done|done|exact reached4|]. evaluates. Qed.

Lemma billing_follows_protocol_witness : bill_reaches demo_terms (w_state w1) (w_state w2).
Proof.
  exact (billing_follows_protocol e2 cfg _ decode url_Parse decode_order decode_notification decode_object
    (ServeCreatePayment user order_id "key-payment") w1 w2 (fun i => clocks_ok (2 * minute)) (fun i s _ => rtc_refl _ s) reached1
    ltac:(evaluates)).
Defined.
Definition the_request : ProviderCreateRequest := MkCreateRequest "key-1" order_id payment_id 500 "RUB".
Definition first_answer : result BillErr ProviderPayment := Err (ProviderError "ambiguous" "transport_error").
Definition second_answer : result BillErr ProviderPayment := Eval vm_compute in client_CreatePayment decode "" (fun _ _ => Answer 200 "pending") the_request.
Lemma w5_timely : timely minute minute (w_state w5).
Proof.
  assert (forallb (fun c => match payments (sh_db (w_state w5)) !! cr_PaymentID (cs_request c) with
    | Some p => (pay_created_at p <=? cs_sent c + minute) && (cs_sent c <=? cs_allowed c + minute)
    | None => true
    end) (sh_creates (w_state w5)) = true) as H by evaluates.
  rewrite forallb_forall in H. intros c p Hc%list_elem_of_In%H Hp. rewrite Hp in Hc.
  apply andb_true_iff in Hc as [?%Z.leb_le ?%Z.leb_le]. by split.
Qed.
Lemma one_charge_per_order_witness :
  ProviderCreate the_request first_answer ∈ sh_calls (w_state w5) /\
  (exists o, orders (sh_db (w_state w5)) !! order_id = Some o /\ 500 = ord_amount_minor o /\ "RUB"%string = ord_currency o) /\
  length (sh_creates (w_state w5)) = 2%nat /\
  (length (filter (fun r => cr_OrderID r = order_id) (charges (sh_creates (w_state w5)))) <= 1)%nat.
Proof.
  assert (ProviderCreate the_request first_answer ∈ sh_calls (w_state w5)) as H1 by (vm_compute; right; right; left).
  assert (ProviderCreate the_request second_answer ∈ sh_calls (w_state w5)) as H2 by (vm_compute; right; left).
  destruct (one_charge_per_order e5 cfg (23 * hour) minute minute decode url_Parse decode_order decode_notification decode_object
    WorkOnce w4 w5 ltac:(vm_compute; discriminate) ltac:(vm_compute; discriminate)
    (fun i => proj1 (clocks_ok (7 * minute))) (fun i s _ => rtc_refl _ s) reached4 ltac:(evaluates) w5_timely) as [H3 H4].
  split; [exact H1|]. split; [exact (proj2 (H3 _ _ _ _ H1 H2 eq_refl))|]. split; [reflexivity|exact (H4 order_id)].
Defined.
Definition paid_order : order_row := Eval vm_compute in
  default (order_of 0 "" Demo.order_input) (orders (sh_db (w_state w5)) !! order_id).
Lemma paid_is_confirmed_witness : ord_status paid_order = OrderPaid /\
  exists k p i pp pp', payments (sh_db (w_state w5)) !! k = Some p /\ pay_order_id p = ord_id paid_order /\
    pay_provider_payment_id p = Some i /\
    ProviderCreate (request_of p) (Ok pp') ∈ sh_calls (w_state w5) /\ pp_ProviderPaymentID pp' = i /\
    ProviderGet i (Ok pp) ∈ sh_calls (w_state w5) /\ pp_Status pp = "succeeded"%string /\ pp_AccountID pp = "shop"%string /\
    pp_AmountMinor pp = ord_amount_minor paid_order /\ pp_Currency pp = ord_currency paid_order /\
    pp_MetadataOrderID pp = ord_id paid_order /\ pay_paid_at p = timestamptz <$> pp_CapturedAt pp.
Proof.
  split; [reflexivity|].
  exact (proj1 (paid_is_confirmed demo_terms (w_state w5) reached5) order_id paid_order ltac:(evaluates) eq_refl).
Defined.

(** A payment the worker gave up, which the provider then reports paid: its
    webhook is tried again and again, without effect and without end. *)
Definition f3 := environment (4 * minute) ("ev0", "") (Answer 200 "pending") NoAnswer.
Definition f4 := environment (5 * minute) ("ev0", "") NoAnswer (Answer 404 "").
Definition f5 t := environment t ("ev1", "") NoAnswer (Answer 200 "succeeded").
Definition v3 := Eval vm_compute in act f3 WorkOnce w2.
Definition v4 := Eval vm_compute in act f4 WorkOnce v3.
Definition v5 := Eval vm_compute in act e4 (ServeWebhook "") v4.
Definition v6 := Eval vm_compute in act (f5 (7 * minute)) WorkOnce v5.
Definition v7 := Eval vm_compute in act (f5 (20 * minute)) WorkOnce v6.
Definition webhook_state (w : world shared) : option (WebhookState * Z * option string) :=
  (fun r => (wr_state r, wr_attempts r, wr_last_error_code r)) <$> webhooks (sh_db (w_state w)) !! "inbox1"%string.
Example failed_then_paid : map order_status [v3; v4; v6; v7] =
    [Some OrderPaymentPending; Some OrderCanceled; Some OrderCanceled; Some OrderCanceled] /\
  map webhook_state [v6; v7] = [Some (WPending, 1, Some "apply_failed"%string); Some (WPending, 2, Some "apply_failed"%string)].
Proof. split; evaluates. Qed.
End SystemDemo.
