(* ===== verification/AccessDomain.v ===== *)
(** * access-service: data

    src/services/access/internal/domain/types.go. *)

From Stdlib Require Import Ascii List.
From S2P Require Import Prelude GoStrings.

Inductive AccErr :=
  | ErrNotFound
  | ErrNotReady
  | ErrAlreadyIssued
  | ErrIdempotencyReplay
  | ErrIdempotencyConflict
  | ErrDurableStateConflict
  | ErrLifecycleSequenceGap
  | ErrOutcomeSequenceGap
  | ErrRecoveryNotAllowed
  | ErrSQL (what : string).
#[export] Instance AccErr_eq_dec : EqDecision AccErr.
Proof. solve_decision. Defined.

Inductive CredStatus := StProvisioning | StActive | StDegraded | StFailed | StRevoking | StRevoked.
#[export] Instance CredStatus_eq_dec : EqDecision CredStatus.
Proof. solve_decision. Defined.
Definition status_text (s : CredStatus) : string :=
  match s with
  | StProvisioning => "provisioning"
  | StActive => "active"
  | StDegraded => "degraded"
  | StFailed => "failed"
  | StRevoking => "revoking"
  | StRevoked => "revoked"
  end.
(** The values the [status] column admits. *)
Definition parse_status (s : string) : option CredStatus :=
  find (fun st => bool_decide (status_text st = s))
    [StProvisioning; StActive; StDegraded; StFailed; StRevoking; StRevoked].

Record EventMeta := MkEventMeta {
  EventID : string;
  EventType : string;
  AggregateID : string;
  AggregateSequence : Z;
  PartitionKey : string;
  CorrelationID : string;
  CausationID : option string;
  OccurredAt : Z;
  SourceTopic : string;
  SourcePartition : Z;
  SourceOffset : Z;
  PayloadSHA256 : string
}.

Record PaymentSucceeded := MkPayment {
  pay_PaymentID : string;
  pay_OrderID : string;
  pay_UserID : string;
  pay_PlanID : string;
  pay_AmountMinor : Z;
  pay_Currency : string;
  pay_PaidAt : Z
}.

Record PeriodEvent := MkPeriod {
  per_SubscriptionID : string;
  per_UserID : string;
  per_PeriodID : string;
  per_SourceOrderID : string;
  per_SourcePaymentID : string;
  per_PeriodStart : Z;
  per_PeriodEnd : Z;
  per_GraceEndsAt : Z
}.

Record TerminalEvent := MkTerminal {
  te_SubscriptionID : string;
  te_UserID : string;
  te_Reason : string;
  te_AffectedPeriodIDs : list string;
  te_EffectiveAt : Z
}.

Record GraceEvent := MkGrace {
  gr_SubscriptionID : string;
  gr_UserID : string;
  gr_PeriodEnd : Z;
  gr_GraceEndsAt : Z;
  gr_EffectiveAt : Z
}.

Record EndpointSnapshot := MkEndpoint {
  NodeID : string;
  Role : string;
  Address : string;
  Port : Z;
  ServerName : string;
  RealityPublicKey : string;
  ShortID : string;
  SpiderX : string;
  Label : string
}.
#[export] Instance EndpointSnapshot_eq_dec : EqDecision EndpointSnapshot.
Proof. solve_decision. Defined.

(** Patterns of src/services/access/internal/happ/render.go, which the
    migrations repeat. *)
Definition base64url_byte (c : ascii) : bool :=
  between "A" "Z" c || between "a" "z" c || digit c || Ascii.eqb c "_" || Ascii.eqb c "-".
Definition realityPublicKeyPattern (s : string) : bool := matches (repeat base64url_byte 43) s.
Definition shortIDPattern (s : string) : bool :=
  all_bytes hex s && (go_len s <=? 16) && (go_len s mod 2 =? 0).

Record ProvisionSucceeded := MkProvisionSucceeded {
  ps_OperationID : string;
  ps_CredentialID : string;
  ps_AppliedRevision : Z;
  ps_Status : string;
  ps_AssignedNodeIDs : list string;
  ps_Endpoints : list EndpointSnapshot;
  ps_AppliedAt : Z
}.

Record OperationFailed := MkOperationFailed {
  of_OperationID : string;
  of_CredentialID : string;
  of_FailedRevision : Z;
  of_FailureScope : string;
  of_Terminal : bool;
  of_ReasonCode : string;
  of_PendingNodeIDs : list string;
  of_FailedAt : Z
}.

Record RevokeSucceeded := MkRevokeSucceeded {
  rs_OperationID : string;
  rs_CredentialID : string;
  rs_DesiredRevision : Z;
  rs_AllocationRevision : Z;
  rs_AllAssignedNodesRemoved : bool;
  rs_NodeIDs : list string;
  rs_RevokedAt : Z
}.

Record CredentialSeed := MkCredentialSeed {
  cs_CredentialID : string;
  cs_OperationID : string;
  cs_Ciphertext : string;
  cs_KeyVersion : Z
}.

Record TokenSeed := MkTokenSeed {
  ts_TokenID : string;
  ts_LookupHMAC : string;
  ts_LookupHMACVersion : Z;
  ts_IdempotencyKey : string;
  ts_RequestSHA256 : string
}.

Record AccessStatus := MkAccessStatus {
  as_SubscriptionID : string;
  as_CredentialID : string;
  as_AccessStatus : string;
  as_ProvisioningStatus : string;
  as_TokenStatus : string
}.

Record AdminRecoveryInput := MkRecoveryInput {
  ri_CredentialID : string;
  ri_OperationID : string;
  ri_IdempotencyKey : string;
  ri_RequestSHA256 : string;
  ri_ActionID : string;
  ri_CorrelationID : string
}.

Record AdminRecoveryResult := MkRecoveryResult {
  rr_CredentialID : string;
  rr_OperationID : string;
  rr_DesiredRevision : Z;
  rr_Status : string;
  rr_Replay : bool
}.

Record ProfileRecord := MkProfileRecord {
  pr_CredentialID : string;
  pr_Ciphertext : string;
  pr_KeyVersion : Z;
  pr_EntitlementExpiresAt : Z;
  pr_Endpoints : list EndpointSnapshot
}.

Record ProvisioningRecord := MkProvisioningRecord {
  pv_CredentialID : string;
  pv_SubscriptionID : string;
  pv_Revision : Z;
  pv_Ciphertext : string;
  pv_KeyVersion : Z
}.

(** [credential.MaxTokenHMACKeys]. *)
Definition MaxTokenHMACKeys : nat := 4.
