(* ===== verification/AccessStore.v ===== *)
(** * access-service: the PostgreSQL store

    The tables of src/services/access/migrations and the operations of
    src/services/access/internal/postgres/store.go. [now] is the database
    clock; drawn identifiers, locked rows and, where a query leaves the choice
    of a row open, the choice are arguments. The columns [updated_at] are only
    ever written and are left out. *)

From Stdlib Require Import Ascii List.
From S2P Require Import Prelude GoStrings Platform AccessDomain.

(** ** Tables *)

Inductive Kind := Provision | Revoke.
#[export] Instance Kind_eq_dec : EqDecision Kind.
Proof. solve_decision. Defined.
Inductive OpStatus := OpPending | OpSucceeded | OpFailed.
#[export] Instance OpStatus_eq_dec : EqDecision OpStatus.
Proof. solve_decision. Defined.
Inductive TokenStatus := TkActive | TkRotated | TkRevoked | TkExpired.
#[export] Instance TokenStatus_eq_dec : EqDecision TokenStatus.
Proof. solve_decision. Defined.
Inductive OutState := OPending | OProcessing | OPublished.
#[export] Instance OutState_eq_dec : EqDecision OutState.
Proof. solve_decision. Defined.

Record credential_row := MkCred {
  c_id : string;
  c_subscription_id : string;
  c_user_id : string;
  c_status : CredStatus;
  c_version : Z;
  c_ciphertext : string;
  c_key_version : Z;
  c_expires_at : Z;                    (* entitlement_expires_at *)
  c_revoked_at : option Z;
  c_reason : option string;            (* revocation_reason *)
  c_allocation_revision : Z;
  c_outbox_sequence : Z;
  c_notification_sequence : Z;
  c_created_at : Z
}.

Record endpoint_row := MkEndpointRow {
  e_allocation_revision : Z;
  e_endpoint : EndpointSnapshot
}.

Record operation_row := MkOpRow {
  op_id : string;
  op_credential_id : string;
  op_kind : Kind;
  op_revision : Z;                     (* desired_revision *)
  op_allocation_revision : option Z;
  op_status : OpStatus;
  op_causation : string;
  op_failure_code : option string;
  op_created_at : Z;
  op_completed_at : option Z
}.

Record token_row := MkToken {
  t_id : string;
  t_credential_id : string;
  t_hmac : string;
  t_hmac_version : Z;
  t_status : TokenStatus;
  t_expires_at : Z;
  t_rotated_from : option string;
  t_last_used_at : option Z;
  t_revoked_at : option Z;
  t_created_at : Z
}.

Record url_row := MkUrlRow {
  u_subscription_id : string;
  u_operation : string;
  u_request_sha256 : string;
  u_token_id : string
}.

Record inbox_row := MkInbox {
  i_event_id : string;
  i_event_type : string;
  i_aggregate_id : string;
  i_correlation_id : string;
  i_source : string * Z * Z;
  i_payload_sha256 : string;
  i_sequence : Z
}.

Record sli_row := MkSli {
  sl_user_id : string;
  sl_paid_at : option Z;
  sl_payment_event : option string;
  sl_fulfilled : option (string * string * string * Z)   (* event, subscription, kind, at *)
}.

Record recovery_row := MkRecovery {
  rc_request_sha256 : string;
  rc_action_id : string;
  rc_correlation_id : string;
  rc_credential_id : string;
  rc_operation_id : string;
  rc_revision : Z
}.

Record audit_row := MkAudit {
  au_actor : string;
  au_credential_id : string;
  au_occurred_at : Z
}.

Inductive event_data :=
  | CommandData (operationID credentialID : string) (revision : Z)
  | ReadyData (subscriptionID credentialID userID status : string) (readyAt : Z)
  | ProvisioningFailedData (subscriptionID credentialID userID : string) (revision : Z) (reason : string) (failedAt : Z)
  | RevokedData (subscriptionID credentialID userID : string) (revision : Z) (reason : string) (revokedAt : Z).

Record outbox_row := MkOutRow {
  o_event_id : string;
  o_topic : string;
  o_partition_key : string;
  o_aggregate_id : string;
  o_sequence : Z;
  o_dedupe_key : string;
  o_payload : Envelope event_data;
  o_state : OutState;
  o_attempts : Z;
  o_next_attempt_at : Z;
  o_lease_until : option Z;
  o_created_at : Z;
  o_published_at : option Z
}.

Record db := MkDB {
  credentials : table credential_row;
  endpoints : gmap (string * string) endpoint_row;            (* credential, node *)
  assignments : gset (string * Z * string);                   (* credential, allocation revision, node *)
  operations : table operation_row;
  tokens : table token_row;
  url_idempotency : table url_row;
  inbox : table inbox_row;
  lifecycle : gmap string (string * Z);                       (* subscription: user, last applied *)
  outcomes : gmap string Z;                                   (* credential: last applied *)
  sli : table sli_row;
  recoveries : table recovery_row;
  dead_letters : gmap (string * Z * Z) (string * string);
  audit : table audit_row;
  outbox : table outbox_row
}.
Definition empty_db : db := MkDB ∅ ∅ ∅ ∅ ∅ ∅ ∅ ∅ ∅ ∅ ∅ ∅ ∅ ∅.
Definition set_credentials f d := MkDB (f (credentials d)) (endpoints d) (assignments d) (operations d) (tokens d)
  (url_idempotency d) (inbox d) (lifecycle d) (outcomes d) (sli d) (recoveries d) (dead_letters d) (audit d) (outbox d).
Definition set_endpoints f d := MkDB (credentials d) (f (endpoints d)) (assignments d) (operations d) (tokens d)
  (url_idempotency d) (inbox d) (lifecycle d) (outcomes d) (sli d) (recoveries d) (dead_letters d) (audit d) (outbox d).
Definition set_assignments f d := MkDB (credentials d) (endpoints d) (f (assignments d)) (operations d) (tokens d)
  (url_idempotency d) (inbox d) (lifecycle d) (outcomes d) (sli d) (recoveries d) (dead_letters d) (audit d) (outbox d).
Definition set_operations f d := MkDB (credentials d) (endpoints d) (assignments d) (f (operations d)) (tokens d)
  (url_idempotency d) (inbox d) (lifecycle d) (outcomes d) (sli d) (recoveries d) (dead_letters d) (audit d) (outbox d).
Definition set_tokens f d := MkDB (credentials d) (endpoints d) (assignments d) (operations d) (f (tokens d))
  (url_idempotency d) (inbox d) (lifecycle d) (outcomes d) (sli d) (recoveries d) (dead_letters d) (audit d) (outbox d).
Definition set_urls f d := MkDB (credentials d) (endpoints d) (assignments d) (operations d) (tokens d)
  (f (url_idempotency d)) (inbox d) (lifecycle d) (outcomes d) (sli d) (recoveries d) (dead_letters d) (audit d) (outbox d).
Definition set_inbox f d := MkDB (credentials d) (endpoints d) (assignments d) (operations d) (tokens d)
  (url_idempotency d) (f (inbox d)) (lifecycle d) (outcomes d) (sli d) (recoveries d) (dead_letters d) (audit d) (outbox d).
Definition set_lifecycle f d := MkDB (credentials d) (endpoints d) (assignments d) (operations d) (tokens d)
  (url_idempotency d) (inbox d) (f (lifecycle d)) (outcomes d) (sli d) (recoveries d) (dead_letters d) (audit d) (outbox d).
Definition set_outcomes f d := MkDB (credentials d) (endpoints d) (assignments d) (operations d) (tokens d)
  (url_idempotency d) (inbox d) (lifecycle d) (f (outcomes d)) (sli d) (recoveries d) (dead_letters d) (audit d) (outbox d).
Definition set_sli f d := MkDB (credentials d) (endpoints d) (assignments d) (operations d) (tokens d)
  (url_idempotency d) (inbox d) (lifecycle d) (outcomes d) (f (sli d)) (recoveries d) (dead_letters d) (audit d) (outbox d).
Definition set_recoveries f d := MkDB (credentials d) (endpoints d) (assignments d) (operations d) (tokens d)
  (url_idempotency d) (inbox d) (lifecycle d) (outcomes d) (sli d) (f (recoveries d)) (dead_letters d) (audit d) (outbox d).
Definition set_dead_letters f d := MkDB (credentials d) (endpoints d) (assignments d) (operations d) (tokens d)
  (url_idempotency d) (inbox d) (lifecycle d) (outcomes d) (sli d) (recoveries d) (f (dead_letters d)) (audit d) (outbox d).
Definition set_audit f d := MkDB (credentials d) (endpoints d) (assignments d) (operations d) (tokens d)
  (url_idempotency d) (inbox d) (lifecycle d) (outcomes d) (sli d) (recoveries d) (dead_letters d) (f (audit d)) (outbox d).
Definition set_outbox f d := MkDB (credentials d) (endpoints d) (assignments d) (operations d) (tokens d)
  (url_idempotency d) (inbox d) (lifecycle d) (outcomes d) (sli d) (recoveries d) (dead_letters d) (audit d) (f (outbox d)).

Abbreviation acc_tx := (tx db AccErr).

(** A row of an unordered result. *)
Definition pick_row {A} (pick : nat) (l : list A) : option A := l !! (pick mod length l)%nat.
Definition int4 (z : Z) : bool := (- 2 ^ 31 <=? z) && (z <? 2 ^ 31).

(** ** Credentials *)

Definition revocation_reasons : list string := ["expired"; "refund"; "refund_gap"; "admin_block"; "abuse"; "deleted"]%string.
Definition credential_checks (r : credential_row) : bool :=
  (0 <? c_version r) && int4 (c_version r) && (29 <=? go_len (c_ciphertext r)) && (0 <? c_key_version r) &&
  int4 (c_key_version r) && (0 <=? c_allocation_revision r) && int4 (c_allocation_revision r) &&
  bool_decide (c_status r = StRevoked <-> c_revoked_at r <> None) &&
  match c_reason r with
  | Some reason => bool_decide (reason ∈ revocation_reasons) && bool_decide (c_status r = StRevoking \/ c_status r = StRevoked)
  | None => negb (bool_decide (c_status r = StRevoking \/ c_status r = StRevoked))
  end.
(** One credential of a subscription is not revoked. *)
Definition current_unique (r : credential_row) (d : db) : bool :=
  bool_decide (c_status r = StRevoked) ||
  negb (exists_row (fun q => bool_decide (c_id q <> c_id r /\ c_subscription_id q = c_subscription_id r /\
                                          c_status q <> StRevoked)) (credentials d)).
Definition insert_credential (r : credential_row) : acc_tx unit :=
  let* d := get in
  require (credential_checks r && current_unique r d && bool_decide (credentials d !! c_id r = None))
    (ErrSQL "insert access credential") ;;;
  modify (set_credentials (insert (c_id r) r)).
Definition update_credential (id : string) (f : credential_row -> credential_row) : acc_tx unit :=
  let* d := get in
  match credentials d !! id with
  | None => ret tt
  | Some r =>
      require (credential_checks (f r) && current_unique (f r) d) (ErrSQL "update access credential") ;;;
      modify (set_credentials (insert id (f r)))
  end.

(** The fields an update may change. *)
Definition set_cred (status : CredStatus) (version expires : Z) (revoked_at : option Z) (reason : option string)
    (allocation : Z) (r : credential_row) : credential_row :=
  MkCred (c_id r) (c_subscription_id r) (c_user_id r) status version (c_ciphertext r) (c_key_version r) expires
    revoked_at reason allocation (c_outbox_sequence r) (c_notification_sequence r) (c_created_at r).
Definition set_sequences (outbox notification : Z) (r : credential_row) : credential_row :=
  MkCred (c_id r) (c_subscription_id r) (c_user_id r) (c_status r) (c_version r) (c_ciphertext r) (c_key_version r)
    (c_expires_at r) (c_revoked_at r) (c_reason r) (c_allocation_revision r) outbox notification (c_created_at r).

Definition current_credential (subscriptionID : string) (d : db) : option credential_row :=
  head (where_ (fun r => bool_decide (c_subscription_id r = subscriptionID) && negb (bool_decide (c_status r = StRevoked)))
          (credentials d)).

(** ** Operations and the outbox *)

Definition insertOperation (operationID credentialID : string) (kind : Kind) (revision : Z) (allocationRevision : option Z)
    (causationID : string) (now : Z) : acc_tx unit :=
  let* d := get in
  require ((0 <? revision) && int4 revision &&
           match kind, allocationRevision with
           | Provision, None => true
           | Revoke, Some a => (0 <=? a) && int4 a
           | _, _ => false
           end &&
           bool_decide (credentials d !! credentialID <> None) && bool_decide (operations d !! operationID = None) &&
           negb (exists_row (fun o => bool_decide (op_kind o = kind /\
                   ((op_credential_id o = credentialID /\ op_revision o = revision) \/ op_causation o = causationID)))
                   (operations d)))
    (ErrSQL "insert access operation") ;;;
  modify (set_operations (insert operationID
    (MkOpRow operationID credentialID kind revision allocationRevision OpPending causationID None now None))).

(** [eventSequence] is the sequence the envelope carries in place of the
    row's. *)
Definition insertOutbox (now : Z) (eventID : string) (meta : EventMeta) (occurredAt : Z)
    (topic partitionKey aggregateID dedupeKey aggregateType : string) (data : event_data) (eventSequence : Z)
    : acc_tx unit :=
  let* d := get in
  let* r := need (credentials d !! aggregateID) (ErrSQL "advance access aggregate sequence") in
  let sequence := c_outbox_sequence r + 1 in
  modify (set_credentials (insert aggregateID (set_sequences sequence (c_notification_sequence r) r))) ;;;
  let payload := MkEnvelope eventID topic 1 occurredAt "access-service" (CorrelationID meta) (Some (EventID meta))
                   aggregateType aggregateID eventSequence partitionKey data in
  require (length_between 1 249 topic && length_between 1 128 partitionKey && length_between 1 256 dedupeKey &&
           bool_decide (outbox d !! eventID = None) &&
           negb (exists_row (fun o => bool_decide (o_dedupe_key o = dedupeKey \/
                   (o_aggregate_id o = aggregateID /\ o_sequence o = sequence))) (outbox d)))
    (ErrSQL "insert access outbox") ;;;
  modify (set_outbox (insert eventID
    (MkOutRow eventID topic partitionKey aggregateID sequence dedupeKey payload OPending 0 now None occurredAt None))).

Definition insertOperationOutbox (now : Z) (eventID : string) (meta : EventMeta) (topic operationID credentialID : string)
    (revision : Z) : acc_tx unit :=
  insertOutbox now eventID meta now topic ("credential:" +:+ credentialID)%string credentialID
    (topic +:+ ":" +:+ operationID)%string "credential" (CommandData operationID credentialID revision) revision.

Definition insertNotificationOutbox (now : Z) (eventID : string) (meta : EventMeta) (occurredAt : Z)
    (topic userID credentialID dedupeKey : string) (data : event_data) : acc_tx unit :=
  let* d := get in
  let* r := need (credentials d !! credentialID) (ErrSQL "advance access notification sequence") in
  let sequence := c_notification_sequence r + 1 in
  modify (set_credentials (insert credentialID (set_sequences (c_outbox_sequence r) sequence r))) ;;;
  insertOutbox now eventID meta occurredAt topic ("user:" +:+ userID)%string credentialID dedupeKey "access" data sequence.

(** ** Inbox and sequence cursors *)

Definition isLifecycleEvent (eventType : string) : bool :=
  bool_decide (eventType ∈ ["subscription.activated.v1"; "subscription.extended.v1"; "subscription.grace.started.v1";
                            "subscription.expired.v1"; "subscription.revoked.v1"]%string).
(** The event types of the index on provisioning outcomes. *)
Definition isOutcomeEvent (eventType : string) : bool :=
  bool_decide (eventType ∈ ["access.provision.succeeded.v1"; "access.provision.failed.v1";
                            "access.revoke.succeeded.v1"; "access.revoke.failed.v1"]%string).
Definition source_of (meta : EventMeta) : string * Z * Z := (SourceTopic meta, SourcePartition meta, SourceOffset meta).
Definition inbox_of (meta : EventMeta) : inbox_row :=
  MkInbox (EventID meta) (EventType meta) (AggregateID meta) (CorrelationID meta) (source_of meta) (PayloadSHA256 meta)
    (AggregateSequence meta).
Definition inbox_checks (r : inbox_row) : bool :=
  (bool_decide (i_event_type r = "billing.payment.succeeded.v1"%string) || isLifecycleEvent (i_event_type r) ||
   isOutcomeEvent (i_event_type r)) &&
  bool_decide (fst (fst (i_source r)) = i_event_type r) && (0 <=? snd (fst (i_source r))) && (0 <=? snd (i_source r)) &&
  sha256_text (i_payload_sha256 r) && (0 <? i_sequence r).
Definition inbox_conflict (r q : inbox_row) : bool :=
  bool_decide (i_event_id q = i_event_id r) || bool_decide (i_source q = i_source r) ||
  (bool_decide (i_aggregate_id q = i_aggregate_id r) && (i_sequence q =? i_sequence r) &&
   ((isLifecycleEvent (i_event_type q) && isLifecycleEvent (i_event_type r)) ||
    (isOutcomeEvent (i_event_type q) && isOutcomeEvent (i_event_type r)))).
(** [event_type LIKE 'subscription.%'] *)
Definition like_subscription (eventType : string) : bool := bool_decide (strip_prefix "subscription." eventType <> None).
Definition inbox_match (meta : EventMeta) (q : inbox_row) : bool :=
  bool_decide (i_event_id q = EventID meta) || bool_decide (i_source q = source_of meta) ||
  (bool_decide (i_aggregate_id q = AggregateID meta) && negb (AggregateSequence meta =? 0) &&
   (i_sequence q =? AggregateSequence meta) &&
   eqb (like_subscription (i_event_type q)) (isLifecycleEvent (EventType meta))).
(** Whether the event is new. *)
Definition insertInbox (pick : nat) (meta : EventMeta) : acc_tx bool :=
  let* d := get in
  let r := inbox_of meta in
  require (inbox_checks r) (ErrSQL "insert access inbox") ;;;
  if exists_row (inbox_conflict r) (inbox d) then
    let* q := need (pick_row pick (where_ (inbox_match meta) (inbox d))) (ErrSQL "resolve access inbox conflict") in
    require (bool_decide (i_event_id q = EventID meta) && bool_decide (i_event_type q = EventType meta) &&
             bool_decide (i_payload_sha256 q = PayloadSHA256 meta)) ErrDurableStateConflict ;;;
    ret false
  else modify (set_inbox (insert (EventID meta) r)) ;;; ret true.

Definition prepareLifecycle (pick : nat) (meta : EventMeta) (subscriptionID userID : string) : acc_tx bool :=
  require (1 <=? AggregateSequence meta) ErrDurableStateConflict ;;;
  let* d := get in
  modify (set_lifecycle (fun m => match m !! subscriptionID with
                                  | Some _ => m | None => <[subscriptionID := (userID, 0)]> m end)) ;;;
  let '(storedUserID, lastApplied) := default (userID, 0) (lifecycle d !! subscriptionID) in
  require (bool_decide (storedUserID = userID)) ErrDurableStateConflict ;;;
  require (AggregateSequence meta <=? lastApplied + 1) ErrLifecycleSequenceGap ;;;
  let* inserted := insertInbox pick meta in
  if negb inserted then ret false
  else
    require (lastApplied <? AggregateSequence meta) ErrDurableStateConflict ;;;
    modify (set_lifecycle (insert subscriptionID (storedUserID, AggregateSequence meta))) ;;;
    ret true.

Definition prepareOutcome (pick : nat) (meta : EventMeta) (credentialID : string) : acc_tx bool :=
  require (1 <=? AggregateSequence meta) ErrDurableStateConflict ;;;
  let* d := get in
  match outcomes d !! credentialID with
  | Some _ => ret tt
  | None =>
      require (bool_decide (credentials d !! credentialID <> None)) ErrDurableStateConflict ;;;
      modify (set_outcomes (insert credentialID 0))
  end ;;;
  let lastApplied := default 0 (outcomes d !! credentialID) in
  require (AggregateSequence meta <=? lastApplied + 1) ErrOutcomeSequenceGap ;;;
  let* inserted := insertInbox pick meta in
  if negb inserted then ret false
  else
    require (lastApplied <? AggregateSequence meta) ErrDurableStateConflict ;;;
    modify (set_outcomes (insert credentialID (AggregateSequence meta))) ;;;
    ret true.

(** ** Payment to access *)

Definition sli_unique (paymentID : string) (r : sli_row) (d : db) : bool :=
  forallb (fun kq => bool_decide (fst kq = paymentID) ||
      negb (bool_decide (sl_payment_event (snd kq) <> None /\ sl_payment_event (snd kq) = sl_payment_event r) ||
            bool_decide (sl_fulfilled (snd kq) <> None /\
                         (fst ∘ fst ∘ fst <$> sl_fulfilled (snd kq)) = (fst ∘ fst ∘ fst <$> sl_fulfilled r))))
    (map_to_list (sli d)).
(** [INSERT ... ON CONFLICT (payment_id) DO UPDATE ... WHERE]: the row is
    created, or updated where [ok] says so. *)
Definition upsert_sli (paymentID : string) (fresh : sli_row) (ok : sli_row -> bool) (update : sli_row -> sli_row)
    (what : string) : acc_tx unit :=
  let* d := get in
  let write r := require (sli_unique paymentID r d) (ErrSQL what) ;;; modify (set_sli (insert paymentID r)) in
  match sli d !! paymentID with
  | None => write fresh
  | Some r => if ok r then write (update r) else throw ErrDurableStateConflict
  end.

Definition ApplyPaymentSucceeded (pick : nat) (meta : EventMeta) (event : PaymentSucceeded) : acc_tx unit :=
  let* inserted := insertInbox pick meta in
  if negb inserted then commit
  else
    upsert_sli (pay_PaymentID event)
      (MkSli (pay_UserID event) (Some (pay_PaidAt event)) (Some (EventID meta)) None)
      (fun r => bool_decide (sl_user_id r = pay_UserID event) &&
                bool_decide (sl_paid_at r = None \/ sl_paid_at r = Some (pay_PaidAt event)) &&
                bool_decide (sl_payment_event r = None))
      (fun r => MkSli (sl_user_id r) (Some (pay_PaidAt event)) (Some (EventID meta)) (sl_fulfilled r))
      "project payment SLI start" ;;;
    commit.

Definition completePaymentAccessSLI (now : Z) (meta : EventMeta) (event : PeriodEvent) (kind : string) : acc_tx unit :=
  require (bool_decide (EventType meta = "subscription.activated.v1"%string \/
                        EventType meta = "subscription.extended.v1"%string)) ErrDurableStateConflict ;;;
  let fulfilled := Some (EventID meta, per_SubscriptionID event, kind, now) in
  upsert_sli (per_SourcePaymentID event) (MkSli (per_UserID event) None None fulfilled)
    (fun r => bool_decide (sl_user_id r = per_UserID event) && bool_decide (sl_fulfilled r = None))
    (fun r => MkSli (sl_user_id r) (sl_paid_at r) (sl_payment_event r) fulfilled)
    "project payment SLI fulfillment".

(** ** Lifecycle events *)

Definition tokens_where (credentialID : string) (f : token_row -> token_row) : acc_tx unit :=
  modify (set_tokens (update_where (fun t => bool_decide (t_credential_id t = credentialID) &&
                                             bool_decide (t_status t = TkActive)) f)).
Definition set_token (status : TokenStatus) (expires : Z) (used revoked : option Z) (t : token_row) : token_row :=
  MkToken (t_id t) (t_credential_id t) (t_hmac t) (t_hmac_version t) status expires (t_rotated_from t) used revoked
    (t_created_at t).
Definition end_token (status : TokenStatus) (now : Z) (t : token_row) : token_row :=
  set_token status (t_expires_at t) (t_last_used_at t) (Some now) t.
Definition extend_token (graceEndsAt : Z) (t : token_row) : token_row :=
  set_token (t_status t) (Z.max (t_expires_at t) graceEndsAt) (t_last_used_at t) (t_revoked_at t) t.
Definition delete_endpoints (credentialID : string) : acc_tx unit :=
  modify (set_endpoints (base.filter (fun kr => fst (fst kr) <> credentialID))).

Definition new_credential (now : Z) (event : PeriodEvent) (seed : CredentialSeed) : credential_row :=
  MkCred (cs_CredentialID seed) (per_SubscriptionID event) (per_UserID event) StProvisioning 1 (cs_Ciphertext seed)
    (cs_KeyVersion seed) (per_GraceEndsAt event) None None 0 0 0 now.
Definition ApplyPeriod (now : Z) (pick : nat) (newEvent : string) (meta : EventMeta) (event : PeriodEvent)
    (seed : CredentialSeed) : acc_tx unit :=
  let* apply := prepareLifecycle pick meta (per_SubscriptionID event) (per_UserID event) in
  if negb apply then commit
  else if per_GraceEndsAt event <=? now then commit
  else
    let* d := get in
    match current_credential (per_SubscriptionID event) d with
    | None =>
        insert_credential (new_credential now event seed) ;;;
        insertOperation (cs_OperationID seed) (cs_CredentialID seed) Provision 1 None (EventID meta) now ;;;
        insertOperationOutbox now newEvent meta "access.provision.request.v1" (cs_OperationID seed)
          (cs_CredentialID seed) 1 ;;;
        completePaymentAccessSLI now meta event "activation" ;;;
        commit
    | Some r =>
        require (bool_decide (c_user_id r = per_UserID event)) ErrDurableStateConflict ;;;
        (if bool_decide (c_status r = StRevoking \/ c_status r = StFailed) then
           let revision := c_version r + 1 in
           update_credential (c_id r) (fun r =>
             set_cred StProvisioning revision (Z.max (c_expires_at r) (per_GraceEndsAt event)) None None 0 r) ;;;
           delete_endpoints (c_id r) ;;;
           insertOperation (cs_OperationID seed) (c_id r) Provision revision None (EventID meta) now ;;;
           insertOperationOutbox now newEvent meta "access.provision.request.v1" (cs_OperationID seed) (c_id r) revision
         else
           update_credential (c_id r) (fun r =>
             set_cred (c_status r) (c_version r) (Z.max (c_expires_at r) (per_GraceEndsAt event)) (c_revoked_at r)
               (c_reason r) (c_allocation_revision r) r) ;;;
           tokens_where (c_id r) (extend_token (per_GraceEndsAt event))) ;;;
        completePaymentAccessSLI now meta event "extension" ;;;
        commit
    end.

Definition ApplyGrace (pick : nat) (meta : EventMeta) (event : GraceEvent) : acc_tx unit :=
  let* apply := prepareLifecycle pick meta (gr_SubscriptionID event) (gr_UserID event) in
  if negb apply then commit else commit.

Definition ApplyTerminal (now : Z) (pick : nat) (newEvent : string) (meta : EventMeta) (event : TerminalEvent)
    (operationID : string) : acc_tx unit :=
  let* apply := prepareLifecycle pick meta (te_SubscriptionID event) (te_UserID event) in
  if negb apply then commit
  else
    let* d := get in
    match current_credential (te_SubscriptionID event) d with
    | None => commit
    | Some r =>
        if bool_decide (EventType meta = "subscription.expired.v1"%string) && (te_EffectiveAt event <? c_expires_at r)
        then commit
        else if bool_decide (c_status r = StRevoking) then commit
        else
          let revision := c_version r + 1 in
          update_credential (c_id r) (fun r =>
            set_cred StRevoking revision (c_expires_at r) (c_revoked_at r) (Some (te_Reason event))
              (c_allocation_revision r) r) ;;;
          tokens_where (c_id r) (end_token TkRevoked now) ;;;
          insertOperation operationID (c_id r) Revoke revision (Some (c_allocation_revision r)) (EventID meta) now ;;;
          insertOperationOutbox now newEvent meta "access.revoke.request.v1" operationID (c_id r) revision ;;;
          commit
    end.

(** ** Provisioning outcomes *)

Definition set_op (status : OpStatus) (allocation : option Z) (failure : option string) (completed : option Z)
    (o : operation_row) : operation_row :=
  MkOpRow (op_id o) (op_credential_id o) (op_kind o) (op_revision o) allocation status (op_causation o) failure
    (op_created_at o) completed.
Definition complete_operation (now : Z) (operationID : string) : acc_tx unit :=
  modify (set_operations (alter (fun o =>
    set_op OpSucceeded (op_allocation_revision o) (op_failure_code o) (Some now) o) operationID)).
(** [JOIN access_operations ... WHERE c.id = $1 AND o.id = $2 AND o.kind = $3
    AND o.desired_revision = $4] *)
Definition joined (credentialID operationID : string) (kind : Kind) (revision : Z) (d : db)
    : result AccErr (credential_row * operation_row) :=
  if negb (int4 revision) then Err (ErrSQL "select access operation")
  else match credentials d !! credentialID, operations d !! operationID with
       | Some c, Some o =>
           if bool_decide (op_credential_id o = credentialID) && bool_decide (op_kind o = kind) && (op_revision o =? revision)
           then Ok (c, o) else Err ErrDurableStateConflict
       | _, _ => Err ErrDurableStateConflict
       end.

Fixpoint insert_assignments (credentialID : string) (revision : Z) (nodes : list string) : acc_tx unit :=
  match nodes with
  | [] => ret tt
  | n :: nodes' =>
      let* d := get in
      require ((0 <? revision) && bool_decide ((credentialID, revision, n) ∉ assignments d)) (ErrSQL "insert assignment snapshot") ;;;
      modify (set_assignments (union {[(credentialID, revision, n)]})) ;;;
      insert_assignments credentialID revision nodes'
  end.
Definition endpoint_checks (e : EndpointSnapshot) : bool :=
  bool_decide (Role e = "primary"%string \/ Role e = "failover"%string) && length_between 1 255 (Address e) &&
  (1 <=? Port e) && (Port e <=? 65535) && length_between 1 255 (ServerName e) &&
  realityPublicKeyPattern (RealityPublicKey e) && shortIDPattern (ShortID e) && (text_length (SpiderX e) <=? 255) &&
  length_between 1 64 (Label e).
Fixpoint insert_endpoints (credentialID : string) (revision : Z) (l : list EndpointSnapshot) : acc_tx unit :=
  match l with
  | [] => ret tt
  | e :: l' =>
      let* d := get in
      require (endpoint_checks e && (0 <? revision) && bool_decide (endpoints d !! (credentialID, NodeID e) = None) &&
               forallb (fun kr => negb (bool_decide (fst (fst kr) = credentialID /\ Role (e_endpoint (snd kr)) = Role e)))
                 (map_to_list (endpoints d)))
        (ErrSQL "insert endpoint snapshot") ;;;
      modify (set_endpoints (insert (credentialID, NodeID e) (MkEndpointRow revision e))) ;;;
      insert_endpoints credentialID revision l'
  end.
Definition replaceProvisionSnapshots (event : ProvisionSucceeded) : acc_tx unit :=
  modify (set_assignments (base.filter (fun k => fst k <> (ps_CredentialID event, ps_AppliedRevision event)))) ;;;
  insert_assignments (ps_CredentialID event) (ps_AppliedRevision event) (ps_AssignedNodeIDs event) ;;;
  delete_endpoints (ps_CredentialID event) ;;;
  insert_endpoints (ps_CredentialID event) (ps_AppliedRevision event) (ps_Endpoints event).

(** The pending revocation of a credential learns what it has to remove. *)
Definition bind_revoke (credentialID : string) (revision allocation : Z) : acc_tx unit :=
  let* d := get in
  let p o := bool_decide (op_credential_id o = credentialID /\ op_kind o = Revoke /\ op_revision o = revision /\
                          op_status o = OpPending) in
  modify (set_operations (update_where p (fun o =>
    set_op (op_status o) (Some allocation) (op_failure_code o) (op_completed_at o) o))) ;;;
  require (bool_decide (count_where p (operations d) = 1%nat)) ErrDurableStateConflict.

(** While the credential is being revoked. *)
Definition late_success (now : Z) (event : ProvisionSucceeded) (c : credential_row) : acc_tx unit :=
  if c_version c <=? ps_AppliedRevision event then commit
  else if ps_AppliedRevision event <=? c_allocation_revision c then
    complete_operation now (ps_OperationID event) ;;; commit
  else
    replaceProvisionSnapshots event ;;;
    complete_operation now (ps_OperationID event) ;;;
    update_credential (ps_CredentialID event) (fun r =>
      if bool_decide (c_status r = StRevoking)
      then set_cred (c_status r) (c_version r) (c_expires_at r) (c_revoked_at r) (c_reason r) (ps_AppliedRevision event) r
      else r) ;;;
    bind_revoke (ps_CredentialID event) (c_version c) (ps_AppliedRevision event) ;;;
    commit.

(** The access has run out before it could be provisioned. *)
Definition elapsed_success (now : Z) (newEvent revokeOperationID : string) (meta : EventMeta) (event : ProvisionSucceeded)
    : acc_tx unit :=
  let revokeRevision := ps_AppliedRevision event + 1 in
  update_credential (ps_CredentialID event) (fun r =>
    set_cred StRevoking revokeRevision (c_expires_at r) (c_revoked_at r) (Some "expired"%string)
      (ps_AppliedRevision event) r) ;;;
  tokens_where (ps_CredentialID event) (end_token TkExpired now) ;;;
  insertOperation revokeOperationID (ps_CredentialID event) Revoke revokeRevision (Some (ps_AppliedRevision event))
    (EventID meta) now ;;;
  insertOperationOutbox now newEvent meta "access.revoke.request.v1" revokeOperationID (ps_CredentialID event)
    revokeRevision ;;;
  commit.

Definition ready_success (now : Z) (newEvent : string) (meta : EventMeta) (event : ProvisionSucceeded) (c : credential_row)
    : acc_tx unit :=
  let* status := need (parse_status (ps_Status event)) (ErrSQL "mark credential ready") in
  update_credential (ps_CredentialID event) (fun r =>
    set_cred status (c_version r) (c_expires_at r) (c_revoked_at r) (c_reason r) (ps_AppliedRevision event) r) ;;;
  insertNotificationOutbox now newEvent meta now "access.ready.v1" (c_user_id c) (ps_CredentialID event)
    ("ready:" +:+ ps_OperationID event)%string
    (ReadyData (c_subscription_id c) (ps_CredentialID event) (c_user_id c) (ps_Status event) now) ;;;
  commit.

Definition ApplyProvisionSucceeded (now : Z) (pick : nat) (newEvent revokeOperationID : string) (meta : EventMeta)
    (event : ProvisionSucceeded) : acc_tx unit :=
  let* apply := prepareOutcome pick meta (ps_CredentialID event) in
  if negb apply then commit
  else
    let* co := query (joined (ps_CredentialID event) (ps_OperationID event) Provision (ps_AppliedRevision event)) in
    let '(c, o) := co in
    if negb (bool_decide (op_status o = OpPending)) then commit
    else if bool_decide (c_status c = StRevoked) then commit
    else if bool_decide (c_status c = StRevoking) then late_success now event c
    else if negb (c_version c =? ps_AppliedRevision event) then commit
    else
      replaceProvisionSnapshots event ;;;
      complete_operation now (ps_OperationID event) ;;;
      if c_expires_at c <=? now then elapsed_success now newEvent revokeOperationID meta event
      else ready_success now newEvent meta event c.

Definition fail_operation (reason : string) (at_ : Z) (operationID : string) : acc_tx unit :=
  let* d := get in
  require (length_between 1 64 reason) (ErrSQL "fail access operation") ;;;
  modify (set_operations (alter (fun o => set_op OpFailed (op_allocation_revision o) (Some reason) (Some at_) o) operationID)).
Definition ApplyOperationFailed (now : Z) (pick : nat) (newEvent : string) (meta : EventMeta) (event : OperationFailed)
    (kind : Kind) : acc_tx unit :=
  let* apply := prepareOutcome pick meta (of_CredentialID event) in
  if negb apply then commit
  else
    let* co := query (joined (of_CredentialID event) (of_OperationID event) kind (of_FailedRevision event)) in
    let '(c, o) := co in
    if negb (c_version c =? of_FailedRevision event) || negb (bool_decide (op_status o = OpPending)) then commit
    else
      when (of_Terminal event)
        (fail_operation (of_ReasonCode event) (of_FailedAt event) (of_OperationID event) ;;;
         when (bool_decide (kind = Provision))
           (update_credential (of_CredentialID event) (fun r =>
              set_cred StFailed (c_version r) (c_expires_at r) (c_revoked_at r) (c_reason r) (c_allocation_revision r) r) ;;;
            insertNotificationOutbox now newEvent meta (of_FailedAt event) "access.provisioning.failed.v1" (c_user_id c)
              (of_CredentialID event) ("provisioning-failed:" +:+ of_OperationID event)%string
              (ProvisioningFailedData (c_subscription_id c) (of_CredentialID event) (c_user_id c)
                 (of_FailedRevision event) (of_ReasonCode event) (of_FailedAt event)))) ;;;
      commit.

Definition listAssignedNodeIDs (credentialID : string) (revision : Z) (d : db) : list string :=
  order_by String.leb (snd <$> List.filter (fun k => bool_decide (fst k = (credentialID, revision)))
                                (elements (assignments d))).
Definition sameNodeSet (expected actual : list string) : bool :=
  bool_decide (length expected = length actual) && bool_decide (NoDup actual) &&
  forallb (fun n => bool_decide (n ∈ actual)) expected.
Definition ApplyRevokeSucceeded (now : Z) (pick : nat) (newEvent : string) (meta : EventMeta) (event : RevokeSucceeded)
    : acc_tx unit :=
  let* apply := prepareOutcome pick meta (rs_CredentialID event) in
  if negb apply then commit
  else
    let* co := query (joined (rs_CredentialID event) (rs_OperationID event) Revoke (rs_DesiredRevision event)) in
    let '(c, o) := co in
    (* NULL does not scan into a string *)
    let* reason := need (c_reason c) (ErrSQL "select revoke operation") in
    let* operationAllocation := need (op_allocation_revision o) (ErrSQL "select revoke operation") in
    if negb (c_version c =? rs_DesiredRevision event) || negb (bool_decide (op_status o = OpPending)) then commit
    else
      require ((c_allocation_revision c =? rs_AllocationRevision event) &&
               (operationAllocation =? rs_AllocationRevision event)) ErrDurableStateConflict ;;;
      let* d := get in
      require (sameNodeSet (listAssignedNodeIDs (rs_CredentialID event) (rs_AllocationRevision event) d) (rs_NodeIDs event))
        ErrDurableStateConflict ;;;
      update_credential (rs_CredentialID event) (fun r =>
        set_cred StRevoked (c_version r) (c_expires_at r) (Some now) (c_reason r) (c_allocation_revision r) r) ;;;
      complete_operation now (rs_OperationID event) ;;;
      insertNotificationOutbox now newEvent meta now "access.revoked.v1" (c_user_id c) (rs_CredentialID event)
        ("revoked:" +:+ rs_OperationID event)%string
        (RevokedData (c_subscription_id c) (rs_CredentialID event) (c_user_id c) (rs_DesiredRevision event) reason now) ;;;
      commit.

(** ** Subscription URLs *)

Definition url_operations : list string := ["issue"; "rotate"]%string.
Definition insert_token (t : token_row) : acc_tx unit :=
  let* d := get in
  require ((go_len (t_hmac t) =? 32) && (0 <? t_hmac_version t) && bool_decide (tokens d !! t_id t = None) &&
           negb (exists_row (fun q => bool_decide (t_hmac q = t_hmac t \/
                   (t_credential_id q = t_credential_id t /\ t_status q = TkActive))) (tokens d)))
    (ErrSQL "insert subscription token") ;;;
  modify (set_tokens (insert (t_id t) t)).
Definition insert_url (key subscriptionID operation hash tokenID : string) : acc_tx unit :=
  let* d := get in
  require (length_between 8 128 key && bool_decide (operation ∈ url_operations) && sha256_text hash &&
           bool_decide (url_idempotency d !! key = None)) (ErrSQL "complete URL idempotency") ;;;
  modify (set_urls (insert key (MkUrlRow subscriptionID operation hash tokenID))).
Definition active_token (credentialID : string) (d : db) : option token_row :=
  head (where_ (fun t => bool_decide (t_credential_id t = credentialID) && bool_decide (t_status t = TkActive)) (tokens d)).

Definition IssueToken (now : Z) (subscriptionID operation : string) (seed : TokenSeed) : acc_tx unit :=
  let* d := get in
  match url_idempotency d !! ts_IdempotencyKey seed with
  | Some u =>
      throw (if bool_decide (u_subscription_id u = subscriptionID) && bool_decide (u_operation u = operation) &&
                bool_decide (u_request_sha256 u = ts_RequestSHA256 seed)
             then ErrIdempotencyReplay else ErrIdempotencyConflict)
  | None =>
      let* c := need (current_credential subscriptionID d) ErrNotReady in
      require (bool_decide (c_status c = StActive \/ c_status c = StDegraded) && (now <? c_expires_at c)) ErrNotReady ;;;
      let previous := active_token (c_id c) d in
      (if bool_decide (operation = "issue"%string) then require (bool_decide (previous = None)) ErrAlreadyIssued
       else
         let* t := need previous ErrNotFound in
         modify (set_tokens (alter (end_token TkRotated now) (t_id t)))) ;;;
      insert_token (MkToken (ts_TokenID seed) (c_id c) (ts_LookupHMAC seed) (ts_LookupHMACVersion seed) TkActive
                      (c_expires_at c) (t_id <$> previous) None None now) ;;;
      insert_url (ts_IdempotencyKey seed) subscriptionID operation (ts_RequestSHA256 seed) (ts_TokenID seed) ;;;
      commit
  end.

Definition token_text (s : TokenStatus) : string :=
  match s with TkActive => "active" | TkRotated => "rotated" | TkRevoked => "revoked" | TkExpired => "expired" end.
Definition latest_credential (subscriptionID : string) (d : db) : option credential_row :=
  first_by (fun a b => c_created_at b <=? c_created_at a) (fun c => bool_decide (c_subscription_id c = subscriptionID))
    (credentials d).
Definition latest_token (credentialID : string) (d : db) : option token_row :=
  first_by (fun a b => t_created_at b <=? t_created_at a) (fun t => bool_decide (t_credential_id t = credentialID))
    (tokens d).
Definition GetAccessStatus (now : Z) (subscriptionID : string) (d : db) : result AccErr AccessStatus :=
  match latest_credential subscriptionID d with
  | None => Err ErrNotFound
  | Some c =>
      let entitlementElapsed := c_expires_at c <=? now in
      let tokenStatus :=
        match latest_token (c_id c) d with
        | Some t => if bool_decide (t_status t = TkActive) && ((t_expires_at t <=? now) || entitlementElapsed)
                    then "expired"%string else token_text (t_status t)
        | None => "not_issued"%string
        end in
      let accessStatus :=
        if entitlementElapsed && negb (bool_decide (c_status c = StRevoking)) && negb (bool_decide (c_status c = StRevoked))
        then "expired"%string
        else match c_status c with
             | StActive | StDegraded => if bool_decide (tokenStatus = "active"%string) then "active"%string else "ready"%string
             | StFailed => "failed"%string
             | StRevoking => "revoking"%string
             | StRevoked => "revoked"%string
             | StProvisioning => "pending"%string
             end in
      Ok (MkAccessStatus subscriptionID (c_id c) accessStatus (status_text (c_status c)) tokenStatus)
  end.

(** ** Administrative recovery *)

Definition insert_recovery (key : string) (row : recovery_row) : acc_tx unit :=
  let* d := get in
  require (length_between 8 128 key && sha256_text (rc_request_sha256 row) && (1 <? rc_revision row) &&
           bool_decide (recoveries d !! key = None) &&
           negb (exists_row (fun q => bool_decide (rc_action_id q = rc_action_id row)) (recoveries d)))
    (ErrSQL "record provisioning recovery") ;;;
  modify (set_recoveries (insert key row)).
Definition recovery_meta (input : AdminRecoveryInput) : EventMeta :=
  MkEventMeta (ri_ActionID input) "" "" 0 "" (ri_CorrelationID input) None 0 "" 0 0 "".

Definition RecoverProvisioning (now : Z) (newEvent : string) (input : AdminRecoveryInput) : acc_tx AdminRecoveryResult :=
  let* d := get in
  match recoveries d !! ri_IdempotencyKey input with
  | Some row =>
      require (bool_decide (rc_request_sha256 row = ri_RequestSHA256 input) &&
               bool_decide (rc_credential_id row = ri_CredentialID input)) ErrIdempotencyConflict ;;;
      commit ;;;
      ret (MkRecoveryResult (rc_credential_id row) (rc_operation_id row) (rc_revision row) "provisioning" true)
  | None =>
      let* c := need (credentials d !! ri_CredentialID input) ErrNotFound in
      require (bool_decide (c_status c = StFailed) && (now <? c_expires_at c)) ErrRecoveryNotAllowed ;;;
      let desiredRevision := c_version c + 1 in
      update_credential (ri_CredentialID input) (fun r =>
        set_cred StProvisioning desiredRevision (c_expires_at r) None None 0 r) ;;;
      delete_endpoints (ri_CredentialID input) ;;;
      insertOperation (ri_OperationID input) (ri_CredentialID input) Provision desiredRevision None (ri_ActionID input) now ;;;
      insertOperationOutbox now newEvent (recovery_meta input) "access.provision.request.v1" (ri_OperationID input)
        (ri_CredentialID input) desiredRevision ;;;
      insert_recovery (ri_IdempotencyKey input)
        (MkRecovery (ri_RequestSHA256 input) (ri_ActionID input) (ri_CorrelationID input) (ri_CredentialID input)
           (ri_OperationID input) desiredRevision) ;;;
      commit ;;;
      ret (MkRecoveryResult (ri_CredentialID input) (ri_OperationID input) desiredRevision "provisioning" false)
  end.

(** ** Profiles and provisioning material *)

(** The three statements of [GetProfileByTokenHMACs] are sent one by one. *)
Definition ready_status (s : CredStatus) : bool := bool_decide (s = StActive \/ s = StDegraded).
Definition token_serves (now : Z) (lookups : list string) (d : db) (t : token_row) : bool :=
  bool_decide (t_hmac t ∈ lookups) && bool_decide (t_status t = TkActive) && (now <? t_expires_at t) &&
  match credentials d !! t_credential_id t with
  | Some c => (now <? c_expires_at c) && ready_status (c_status c)
  | None => false
  end.
Definition lookup_token (now : Z) (pick : nat) (lookups : list string) (d : db) : result AccErr (token_row * credential_row) :=
  match pick_row pick (where_ (token_serves now lookups d) (tokens d)) with
  | Some t => match credentials d !! t_credential_id t with Some c => Ok (t, c) | None => Err ErrNotFound end
  | None => Err ErrNotFound
  end.
Definition snapshot_before (a b : EndpointSnapshot) : bool :=
  if bool_decide (Role a = "primary"%string) then negb (bool_decide (Role b = "primary"%string)) || String.leb (NodeID a) (NodeID b)
  else negb (bool_decide (Role b = "primary"%string)) && String.leb (NodeID a) (NodeID b).
Definition list_endpoints (credentialID : string) (d : db) : list EndpointSnapshot :=
  order_by snapshot_before ((fun kr => e_endpoint (snd kr)) <$>
    List.filter (fun kr => bool_decide (fst (fst kr) = credentialID)) (map_to_list (endpoints d))).
Definition touch_token (now : Z) (tokenID : string) : acc_tx unit :=
  modify (set_tokens (alter (fun t =>
    if match t_last_used_at t with Some u => u <? now - 5 * minute | None => true end
    then set_token (t_status t) (t_expires_at t) (Some now) (t_revoked_at t) t else t) tokenID)) ;;;
  commit.

Definition GetProvisioningRecord (credentialID : string) (d : db) : result AccErr ProvisioningRecord :=
  match credentials d !! credentialID with
  | Some c => if bool_decide (c_status c = StRevoked) then Err ErrNotFound
              else Ok (MkProvisioningRecord (c_id c) (c_subscription_id c) (c_version c) (c_ciphertext c) (c_key_version c))
  | None => Err ErrNotFound
  end.
Definition RecordCredentialMaterialAccess (now : Z) (eventID credentialID actorService : string) : acc_tx unit :=
  let* d := get in
  require (length_between 1 64 actorService && bool_decide (credentials d !! credentialID <> None) &&
           bool_decide (audit d !! eventID = None)) (ErrSQL "record credential material security audit") ;;;
  modify (set_audit (insert eventID (MkAudit actorService credentialID now))) ;;;
  commit.
Definition RecordDeadLetter (topic : string) (partition offset : Z) (payloadSHA256 reason : string) : acc_tx unit :=
  let* d := get in
  require (sha256_text payloadSHA256 && length_between 1 64 reason) (ErrSQL "record access consumer dead letter") ;;;
  modify (set_dead_letters (fun m => match m !! (topic, partition, offset) with
                                     | Some _ => m
                                     | None => <[(topic, partition, offset) := (payloadSHA256, reason)]> m
                                     end)) ;;;
  commit.

(** ** Delivery *)

Definition lease_over (now : Z) (lease : option Z) : bool :=
  match lease with Some l => l <=? now | None => true end.
Definition deliverable (now : Z) (locked : gset string) (d : db) (o : outbox_row) : bool :=
  bool_decide (o_state o <> OPublished) && (o_next_attempt_at o <=? now) && lease_over now (o_lease_until o) &&
  negb (exists_row (fun older => bool_decide (o_aggregate_id older = o_aggregate_id o /\ o_state older <> OPublished) &&
                                 (o_sequence older <? o_sequence o)) (outbox d)) &&
  bool_decide (o_event_id o ∉ locked).
Definition by_creation (a b : outbox_row) : bool :=
  (o_created_at a <? o_created_at b) ||
  ((o_created_at a =? o_created_at b) &&
   if bool_decide (o_aggregate_id a = o_aggregate_id b) then o_sequence a <=? o_sequence b
   else String.leb (o_aggregate_id a) (o_aggregate_id b)).
Definition set_out (state : OutState) (attempts next : Z) (lease published : option Z) (o : outbox_row) : outbox_row :=
  MkOutRow (o_event_id o) (o_topic o) (o_partition_key o) (o_aggregate_id o) (o_sequence o) (o_dedupe_key o) (o_payload o)
    state attempts next lease (o_created_at o) published.
Definition ClaimOutbox (now lease : Z) (locked : gset string) : acc_tx (option outbox_row) :=
  let* d := get in
  match first_by by_creation (deliverable now locked d) (outbox d) with
  | None => commit ;;; ret None
  | Some o =>
      let o' := set_out OProcessing (o_attempts o + 1) (o_next_attempt_at o) (Some (now + lease)) (o_published_at o) o in
      modify (set_outbox (insert (o_event_id o) o')) ;;; commit ;;; ret (Some o')
  end.
Definition update_out (eventID : string) (f : outbox_row -> outbox_row) : acc_tx unit :=
  let* d := get in
  let p o := bool_decide (o_event_id o = eventID) && bool_decide (o_state o = OProcessing) in
  modify (set_outbox (update_where p f)) ;;; commit ;;;
  require (bool_decide (count_where p (outbox d) = 1%nat)) ErrDurableStateConflict.
Definition CompleteOutbox (now : Z) (eventID : string) : acc_tx unit :=
  update_out eventID (fun o => set_out OPublished (o_attempts o) (o_next_attempt_at o) None (Some now) o).
Definition RetryOutbox (now : Z) (eventID : string) (delay : Z) : acc_tx unit :=
  update_out eventID (fun o => set_out OPending (o_attempts o) (now + delay) None (o_published_at o) o).
