(* ===== verification/AccessInv.v ===== *)
(** * access-service: the invariant of the store

    What every reachable database satisfies: a credential, its operations,
    endpoints and tokens agree; every revision of a credential has exactly
    one operation and one command; the cursors say which events were
    applied. *)

From Stdlib Require Import List.
From S2P Require Import Prelude GoStrings Platform AccessDomain AccessStore.

(** ** Credentials *)

Record creds_ok (cs : table credential_row) : Prop := {
  cr_id : forall k c, cs !! k = Some c -> c_id c = k;
  cr_checks : forall k c, cs !! k = Some c -> credential_checks c = true;
  cr_current : forall k k' c c', cs !! k = Some c -> cs !! k' = Some c' -> c_subscription_id c = c_subscription_id c' ->
    c_status c <> StRevoked -> c_status c' <> StRevoked -> k = k'
}.

(** ** Operations *)

Definition kind_for (s : CredStatus) : Kind :=
  match s with StRevoking | StRevoked => Revoke | _ => Provision end.
(** How the operation of the current revision stands. *)
Definition current_op (c : credential_row) (o : operation_row) : Prop :=
  op_kind o = kind_for (c_status c) /\
  match c_status c with
  | StProvisioning => op_status o = OpPending /\ c_allocation_revision c = 0
  | StActive | StDegraded => op_status o = OpSucceeded /\ c_allocation_revision c = c_version c
  | StFailed => op_status o = OpFailed /\ c_allocation_revision c = 0
  | StRevoking => op_status o <> OpSucceeded /\ op_allocation_revision o = Some (c_allocation_revision c) /\
      c_allocation_revision c < c_version c
  | StRevoked => op_status o = OpSucceeded /\ op_allocation_revision o = Some (c_allocation_revision c) /\
      c_allocation_revision c < c_version c
  end.
Record ops_ok (cs : table credential_row) (os : table operation_row) : Prop := {
  op_key : forall k o, os !! k = Some o -> op_id o = k;
  op_owner : forall k o, os !! k = Some o -> exists c, cs !! op_credential_id o = Some c /\
    1 <= op_revision o <= c_version c;
  op_unique : forall k k' o o', os !! k = Some o -> os !! k' = Some o' -> op_credential_id o = op_credential_id o' ->
    op_revision o = op_revision o' -> k = k';
  op_every : forall k c n, cs !! k = Some c -> 1 <= n <= c_version c -> exists ko o, os !! ko = Some o /\
    op_credential_id o = k /\ op_revision o = n;
  op_current : forall k c, cs !! k = Some c -> exists ko o, os !! ko = Some o /\ op_credential_id o = k /\
    op_revision o = c_version c /\ current_op c o
}.

(** ** The outbox *)

Definition command_topic (kind : Kind) : string :=
  match kind with Provision => "access.provision.request.v1" | Revoke => "access.revoke.request.v1" end.
Definition is_command (r : outbox_row) : bool :=
  match env_Data (o_payload r) with CommandData _ _ _ => true | _ => false end.
Definition row_says (os : table operation_row) (c : credential_row) (r : outbox_row) : Prop :=
  match env_Data (o_payload r) with
  | CommandData id k rev => k = o_aggregate_id r /\ env_AggregateSequence (o_payload r) = rev /\
      exists o, os !! id = Some o /\ op_credential_id o = k /\ op_revision o = rev /\ o_topic r = command_topic (op_kind o)
  | _ => 1 <= env_AggregateSequence (o_payload r) <= c_notification_sequence c
  end.
Record outs_ok (cs : table credential_row) (os : table operation_row) (out : table outbox_row) : Prop := {
  ob_key : forall k r, out !! k = Some r -> o_event_id r = k;
  ob_row : forall k r, out !! k = Some r -> exists c, cs !! o_aggregate_id r = Some c /\
    1 <= o_sequence r <= c_outbox_sequence c /\ row_says os c r;
  ob_unique : forall k k' r r', out !! k = Some r -> out !! k' = Some r' -> o_aggregate_id r = o_aggregate_id r' ->
    o_sequence r = o_sequence r' -> k = k';
  ob_every : forall k c n, cs !! k = Some c -> 1 <= n <= c_outbox_sequence c -> exists kr r, out !! kr = Some r /\
    o_aggregate_id r = k /\ o_sequence r = n;
  ob_order : forall k k' r r', out !! k = Some r -> out !! k' = Some r' -> o_aggregate_id r = o_aggregate_id r' ->
    is_command r = is_command r' ->
    env_AggregateSequence (o_payload r) <= env_AggregateSequence (o_payload r') -> o_sequence r <= o_sequence r';
  ob_command : forall k o, os !! k = Some o -> exists kr r, out !! kr = Some r /\
    env_Data (o_payload r) = CommandData k (op_credential_id o) (op_revision o);
  ob_notification : forall k c n, cs !! k = Some c -> 1 <= n <= c_notification_sequence c -> exists kr r,
    out !! kr = Some r /\ o_aggregate_id r = k /\ is_command r = false /\ env_AggregateSequence (o_payload r) = n;
  ob_sequences : forall k c, cs !! k = Some c -> 0 <= c_outbox_sequence c /\ 0 <= c_notification_sequence c;
  ob_attempts : forall k r, out !! k = Some r -> 0 <= o_attempts r /\ (o_state r <> OPending -> 0 < o_attempts r);
  ob_published : forall k k' r r', out !! k = Some r -> out !! k' = Some r' -> o_aggregate_id r = o_aggregate_id r' ->
    o_sequence r < o_sequence r' -> 0 < o_attempts r' -> o_state r = OPublished
}.

(** ** Endpoints and tokens *)

Definition eps_ok (cs : table credential_row) (es : gmap (string * string) endpoint_row) : Prop :=
  forall k n e, es !! (k, n) = Some e -> 0 < e_allocation_revision e /\ NodeID (e_endpoint e) = n /\
    exists c, cs !! k = Some c /\ c_allocation_revision c = e_allocation_revision e.

Record toks_ok (cs : table credential_row) (ts : table token_row) (us : table url_row) : Prop := {
  tk_key : forall k t, ts !! k = Some t -> t_id t = k;
  tk_owner : forall k t, ts !! k = Some t -> exists c, cs !! t_credential_id t = Some c /\
    (t_status t = TkActive -> ready_status (c_status c) = true /\ t_expires_at t = c_expires_at c);
  tk_active : forall k k' t t', ts !! k = Some t -> ts !! k' = Some t' -> t_credential_id t = t_credential_id t' ->
    t_status t = TkActive -> t_status t' = TkActive -> k = k';
  tk_hmac : forall k k' t t', ts !! k = Some t -> ts !! k' = Some t' -> t_hmac t = t_hmac t' -> k = k';
  tk_url : forall k u, us !! k = Some u -> exists t c, ts !! u_token_id u = Some t /\
    cs !! t_credential_id t = Some c /\ c_subscription_id c = u_subscription_id u
}.

Definition recs_ok (os : table operation_row) (rs : table recovery_row) : Prop :=
  forall k r, rs !! k = Some r -> exists o, os !! rc_operation_id r = Some o /\
    op_credential_id o = rc_credential_id r /\ op_revision o = rc_revision r /\ op_kind o = Provision.

(** ** Applied events *)

Record cursors_ok (lc : gmap string (string * Z)) (oc : gmap string Z) (ib : table inbox_row) : Prop := {
  cu_key : forall k q, ib !! k = Some q -> i_event_id q = k;
  cu_checks : forall k q, ib !! k = Some q -> inbox_checks q = true;
  cu_distinct : forall k k' q q', ib !! k = Some q -> ib !! k' = Some q' -> inbox_conflict q q' = true -> k = k';
  cu_life : forall s u n, lc !! s = Some (u, n) -> 0 <= n /\ forall m, 1 <= m <= n -> exists k q, ib !! k = Some q /\
    isLifecycleEvent (i_event_type q) = true /\ i_aggregate_id q = s /\ i_sequence q = m;
  cu_life_in : forall k q, ib !! k = Some q -> isLifecycleEvent (i_event_type q) = true -> exists u n,
    lc !! i_aggregate_id q = Some (u, n) /\ 1 <= i_sequence q <= n;
  cu_out : forall s n, oc !! s = Some n -> 0 <= n /\ forall m, 1 <= m <= n -> exists k q, ib !! k = Some q /\
    isOutcomeEvent (i_event_type q) = true /\ i_aggregate_id q = s /\ i_sequence q = m;
  cu_out_in : forall k q, ib !! k = Some q -> isOutcomeEvent (i_event_type q) = true -> exists n,
    oc !! i_aggregate_id q = Some n /\ 1 <= i_sequence q <= n
}.

(** The tables a credential's life is written in, and the rest. *)
Record core_ok (cs : table credential_row) (es : gmap (string * string) endpoint_row) (os : table operation_row)
    (ts : table token_row) (us : table url_row) (rs : table recovery_row) (out : table outbox_row) : Prop := {
  k_creds : creds_ok cs;
  k_ops : ops_ok cs os;
  k_outs : outs_ok cs os out;
  k_eps : eps_ok cs es;
  k_toks : toks_ok cs ts us;
  k_recs : recs_ok os rs
}.
Definition Core (d : db) : Prop :=
  core_ok (credentials d) (endpoints d) (operations d) (tokens d) (url_idempotency d) (recoveries d) (outbox d).
Definition Cursors (d : db) : Prop := cursors_ok (lifecycle d) (outcomes d) (inbox d).
Definition Inv (d : db) : Prop := Core d /\ Cursors d.

Lemma access_Inv_empty : Inv empty_db.
Proof. repeat split; intros; simpl in *; try intros ?; intros; simplify_map_eq. Qed.

(** ** Updates of a credential *)

Section update.
Context (cs : table credential_row) (k : string) (c c' : credential_row) (Hk : cs !! k = Some c).
Context (Eid : c_id c' = c_id c) (Esub : c_subscription_id c' = c_subscription_id c).
Let cs' : table credential_row := <[k:=c']> cs.

Lemma cred_cases j x : cs' !! j = Some x -> (j = k /\ x = c') \/ (j <> k /\ cs !! j = Some x).
Proof. unfold cs'. rewrite lookup_insert. case_decide; [intros [= <-]; by left|by right]. Qed.
Lemma cred_keep j x : cs !! j = Some x -> exists x', cs' !! j = Some x' /\ (j = k -> x = c /\ x' = c') /\ (j <> k -> x' = x).
Proof.
  intros Hj. unfold cs'. rewrite lookup_insert. case_decide as E; [|by exists x].
  subst. exists c'. split; [done|]. split; [|done]. intros _. split; [congruence|done].
Qed.

Lemma creds_ok_update : creds_ok cs -> credential_checks c' = true -> (c_status c' <> StRevoked -> c_status c <> StRevoked) ->
  creds_ok cs'.
Proof.
  intros [I C U] Hc Hs. split.
  - intros j x [[-> ->]|[_ Hj]]%cred_cases; [rewrite Eid|]; by apply I.
  - intros j x [[_ ->]|[_ Hj]]%cred_cases; [done|by eapply C].
  - intros j j' x x' [[-> ->]|[_ Hj]]%cred_cases [[-> ->]|[_ Hj']]%cred_cases; rewrite ?Esub; intros E H1 H2; [done|..].
    + apply (U k j' c x'); auto.
    + apply (U j k x c); auto.
    + by apply (U j j' x x').
Qed.

(** The operations do not see what does not concern them. *)
Lemma ops_ok_frame os : ops_ok cs os -> c_version c' = c_version c -> (forall o, current_op c o -> current_op c' o) ->
  ops_ok cs' os.
Proof.
  intros [K O U E X] Hv Hc. split; try done.
  - intros j o Hj. destruct (O j o Hj) as (x & Hx & Hr). destruct (cred_keep _ _ Hx) as (x' & Hx' & H1 & H2).
    exists x'. split; [done|]. destruct (decide (op_credential_id o = k)) as [Ej|Ej]; [|by rewrite H2].
    destruct (H1 Ej) as [-> ->]. by rewrite Hv.
  - intros j x n [[-> ->]|[_ Hj]]%cred_cases; [rewrite Hv|]; by apply E.
  - intros j x [[-> ->]|[_ Hj]]%cred_cases; [|by apply X]. destruct (X k c Hk) as (ko & o & ? & ? & ? & ?).
    exists ko, o. rewrite Hv. by split_and!; try apply Hc.
Qed.
Lemma outs_ok_frame os out : outs_ok cs os out -> c_outbox_sequence c' = c_outbox_sequence c ->
  c_notification_sequence c' = c_notification_sequence c -> outs_ok cs' os out.
Proof.
  intros [K R U E O C N S A P] H1 H2. split; try done.
  - intros j r Hj. destruct (R j r Hj) as (x & Hx & Hr & Hs). destruct (cred_keep _ _ Hx) as (x' & Hx' & E1 & E2).
    exists x'. split; [done|]. destruct (decide (o_aggregate_id r = k)) as [Ej|Ej]; [|by rewrite E2].
    destruct (E1 Ej) as [-> ->]. rewrite H1. split; [done|]. unfold row_says in *. destruct (env_Data _); try done; by rewrite H2.
  - intros j x n [[-> ->]|[_ Hj]]%cred_cases; [rewrite H1|]; by apply E.
  - intros j x n [[-> ->]|[_ Hj]]%cred_cases; [rewrite H2|]; by apply N.
  - intros j x [[-> ->]|[_ Hj]]%cred_cases; [rewrite H1, H2|]; by eapply S.
Qed.
Lemma eps_ok_frame es : eps_ok cs es -> c_allocation_revision c' = c_allocation_revision c -> eps_ok cs' es.
Proof.
  intros H Ha j n e Hj. destruct (H j n e Hj) as (? & ? & x & Hx & Ex). split; [done|]. split; [done|].
  destruct (cred_keep _ _ Hx) as (x' & Hx' & E1 & E2). exists x'. split; [done|].
  destruct (decide (j = k)) as [Ej|Ej]; [|by rewrite E2]. destruct (E1 Ej) as [-> ->]. by rewrite Ha.
Qed.
(** The endpoints of the credential are replaced. *)
Lemma eps_ok_replace (es es' : gmap (string * string) endpoint_row) : eps_ok cs es ->
  (forall n e, es' !! (k, n) = Some e -> 0 < e_allocation_revision e /\ NodeID (e_endpoint e) = n /\
     e_allocation_revision e = c_allocation_revision c') ->
  (forall j n, j <> k -> es' !! (j, n) = es !! (j, n)) -> eps_ok cs' es'.
Proof.
  intros H Hn Ho j n e. destruct (decide (j = k)) as [->|Hj].
  - intros (? & ? & ?)%Hn. split_and!; try done. exists c'. split; [apply lookup_insert_eq|done].
  - rewrite (Ho _ _ Hj). intros (? & ? & x & Hx & ?)%H. split_and!; try done. exists x.
    split; [by unfold cs'; rewrite lookup_insert_ne|done].
Qed.
Lemma toks_ok_frame ts us : toks_ok cs ts us ->
  ((exists kt t, ts !! kt = Some t /\ t_credential_id t = k /\ t_status t = TkActive) ->
     ready_status (c_status c) = true -> ready_status (c_status c') = true /\ c_expires_at c' = c_expires_at c) ->
  toks_ok cs' ts us.
Proof.
  intros [K O A H U] Hc. split; try done.
  - intros j t Hj. destruct (O j t Hj) as (x & Hx & Ha). destruct (cred_keep _ _ Hx) as (x' & Hx' & E1 & E2).
    exists x'. split; [done|]. intros Hs. destruct (Ha Hs) as [Hr He].
    destruct (decide (t_credential_id t = k)) as [Ej|Ej]; [|by rewrite E2]. destruct (E1 Ej) as [-> ->].
    destruct Hc as [Hc1 Hc2]; eauto. by rewrite Hc2.
  - intros j u Hj. destruct (U j u Hj) as (t & x & Ht & Hx & Es). destruct (cred_keep _ _ Hx) as (x' & Hx' & E1 & E2).
    exists t, x'. split_and!; [done|done|]. destruct (decide (t_credential_id t = k)) as [Ej|Ej]; [|by rewrite E2].
    destruct (E1 Ej) as [-> ->]. congruence.
Qed.
End update.

(** ** A new revision *)

(** The credential [k], new or not, takes its next revision: it gets the
    operation [o], and a command for it. *)
Section advance.
Context (cs : table credential_row) (os : table operation_row) (k : string) (c' : credential_row).
Context (id : string) (o : operation_row).
Context (HO : ops_ok cs os) (Hv : c_version c' = default 0 (c_version <$> cs !! k) + 1) (Hpos : 0 < c_version c').
Context (Hid : os !! id = None) (Eid : op_id o = id) (Eo : op_credential_id o = k) (Er : op_revision o = c_version c').
Let cs' : table credential_row := <[k:=c']> cs.
Let os' : table operation_row := <[id:=o]> os.

Lemma op_cases j x : os' !! j = Some x -> (j = id /\ x = o) \/ (j <> id /\ os !! j = Some x).
Proof. unfold os'. rewrite lookup_insert. case_decide; [intros [= <-]; by left|by right]. Qed.
Lemma op_keep j x : os !! j = Some x -> os' !! j = Some x.
Proof. intros Hj. unfold os'. rewrite lookup_insert_ne; [done|congruence]. Qed.
(** Operations so far are of earlier revisions. *)
Lemma op_before j x : os !! j = Some x -> op_credential_id x = k -> 1 <= op_revision x < c_version c'.
Proof. intros Hj Ex. destruct (op_owner _ _ HO j x Hj) as (c & Hc & Hr). rewrite Ex in Hc. rewrite Hv, Hc. simpl. lia. Qed.

Lemma ops_ok_advance : current_op c' o -> ops_ok cs' os'.
Proof.
  intros Hcur. pose proof HO as [K O U E X]. split.
  - intros j x [[-> ->]|[_ Hj]]%op_cases; auto.
  - intros j x [[-> ->]|[_ Hj]]%op_cases.
    + exists c'. rewrite Eo, Er. split; [apply lookup_insert_eq|lia].
    + destruct (decide (op_credential_id x = k)) as [Ex|Ex].
      * pose proof (op_before _ _ Hj Ex). exists c'. rewrite Ex. split; [apply lookup_insert_eq|lia].
      * destruct (O j x Hj) as (c & Hc & Hr). exists c. split; [by unfold cs'; rewrite lookup_insert_ne|done].
  - intros j j' x x' [[-> ->]|[_ Hj]]%op_cases [[-> ->]|[_ Hj']]%op_cases Ec Erev; [done|..|by eapply U].
    + pose proof (op_before _ _ Hj' ltac:(congruence)). lia.
    + pose proof (op_before _ _ Hj ltac:(congruence)). lia.
  - intros j c n Hj Hn. unfold cs' in Hj. rewrite lookup_insert in Hj. case_decide as Ej.
    + injection Hj as <-. subst j. destruct (decide (n = c_version c')) as [->|Hne].
      { exists id, o. split_and!; [apply lookup_insert_eq|done|done]. }
      destruct (cs !! k) as [c|] eqn:Ek; simpl in Hv; [|lia].
      destruct (E k c n Ek) as (ko & x & Hx & ? & ?); [lia|]. exists ko, x. split; [by apply op_keep|done].
    + destruct (E j c n Hj Hn) as (ko & x & Hx & ? & ?). exists ko, x. split; [by apply op_keep|done].
  - intros j c Hj. unfold cs' in Hj. rewrite lookup_insert in Hj. case_decide as Ej.
    + injection Hj as <-. subst j. exists id, o. split_and!; [apply lookup_insert_eq|done|done|done].
    + destruct (X j c Hj) as (ko & x & Hx & ? & ? & ?). exists ko, x. split; [by apply op_keep|done].
Qed.

Context (out : table outbox_row) (ev : string) (r : outbox_row).
Context (HB : outs_ok cs os out).
Context (Hout : c_outbox_sequence c' = default 0 (c_outbox_sequence <$> cs !! k) + 1).
Context (Hnot : c_notification_sequence c' = default 0 (c_notification_sequence <$> cs !! k)).
Context (Hev : out !! ev = None) (Eev : o_event_id r = ev) (Ea : o_aggregate_id r = k).
Context (Es : o_sequence r = c_outbox_sequence c') (Ed : env_Data (o_payload r) = CommandData id k (c_version c')).
Context (Ee : env_AggregateSequence (o_payload r) = c_version c') (Et : o_topic r = command_topic (op_kind o)).
Context (Eat : o_attempts r = 0) (Est : o_state r = OPending).
Let out' : table outbox_row := <[ev:=r]> out.

Lemma out_cases j x : out' !! j = Some x -> (j = ev /\ x = r) \/ (j <> ev /\ out !! j = Some x).
Proof. unfold out'. rewrite lookup_insert. case_decide; [intros [= <-]; by left|by right]. Qed.
Lemma out_keep j x : out !! j = Some x -> out' !! j = Some x.
Proof. intros Hj. unfold out'. rewrite lookup_insert_ne; [done|congruence]. Qed.
(** Rows so far come before the new one. *)
Lemma out_before j x : out !! j = Some x -> o_aggregate_id x = k -> 1 <= o_sequence x < c_outbox_sequence c'.
Proof. intros Hj Ex. destruct (ob_row _ _ _ HB j x Hj) as (c & Hc & Hr & _). rewrite Ex in Hc. rewrite Hout, Hc. simpl. lia. Qed.
Lemma command_before j x : out !! j = Some x -> o_aggregate_id x = k -> is_command x = true ->
  env_AggregateSequence (o_payload x) < c_version c'.
Proof.
  intros Hj Ex. destruct (ob_row _ _ _ HB j x Hj) as (c & Hc & _ & Hs). unfold is_command, row_says in *.
  destruct (env_Data (o_payload x)) as [i kk rev| | |]; try done. destruct Hs as (-> & -> & y & Hy & E1 & E2 & _). intros _.
  rewrite <- E2.
  pose proof (op_before _ _ Hy ltac:(congruence)). lia.
Qed.

Lemma outs_ok_command : outs_ok cs' os' out'.
Proof.
  pose proof HB as [K R U E O C N S A P].
  assert (forall c, cs !! k = Some c -> 0 <= c_outbox_sequence c /\ 0 <= c_notification_sequence c) as HS by apply S.
  assert (is_command r = true) as Hcmd by (unfold is_command; by rewrite Ed).
  assert (forall j x, out' !! j = Some x -> o_aggregate_id x = k -> 1 <= o_sequence x <= c_outbox_sequence c') as Hle.
  { intros j x [[-> ->]|[_ Hj]]%out_cases Ex; [|pose proof (out_before _ _ Hj Ex); lia].
    rewrite Es, Hout. destruct (cs !! k) as [c|]; simpl; [destruct (HS c eq_refl)|]; lia. }
  split.
  - intros j x [[-> ->]|[_ Hj]]%out_cases; auto.
  - intros j x Hx. destruct (decide (o_aggregate_id x = k)) as [Ex|Ex].
    + exists c'. rewrite Ex. split; [apply lookup_insert_eq|]. split; [by eapply Hle|].
      apply out_cases in Hx as [[-> ->]|[_ Hj]].
      * unfold row_says. rewrite Ed. split_and!; [done|done|]. exists o. split_and!; [apply lookup_insert_eq|done|done|done].
      * destruct (R j x Hj) as (c & Hc & _ & Hs). rewrite Ex in Hc. unfold row_says in Hs |- *.
        destruct (env_Data (o_payload x)); [|rewrite Hnot, Hc; exact Hs..].
        destruct Hs as (? & ? & y & Hy & ?). split_and!; [done|done|]. exists y. split; [by apply op_keep|done].
    + apply out_cases in Hx as [[-> ->]|[_ Hj]]; [done|]. destruct (R j x Hj) as (c & Hc & Hr & Hs).
      exists c. split; [by unfold cs'; rewrite lookup_insert_ne|]. split; [done|]. unfold row_says in Hs |- *.
      destruct (env_Data (o_payload x)); try done. destruct Hs as (? & ? & y & Hy & ?). split_and!; [done|done|].
      exists y. split; [by apply op_keep|done].
  - intros j j' x x' [[-> ->]|[_ Hj]]%out_cases [[-> ->]|[_ Hj']]%out_cases E1 E2; [done|..|by eapply U].
    + pose proof (out_before _ _ Hj' ltac:(congruence)). lia.
    + pose proof (out_before _ _ Hj ltac:(congruence)). lia.
  - intros j c n Hj Hn. unfold cs' in Hj. rewrite lookup_insert in Hj. case_decide as Ej.
    + injection Hj as <-. subst j. destruct (decide (n = c_outbox_sequence c')) as [->|Hne].
      { exists ev, r. split_and!; [apply lookup_insert_eq|done|done]. }
      destruct (cs !! k) as [c|] eqn:Ek; simpl in Hout; [|lia].
      destruct (E k c n Ek) as (ko & x & Hx & ? & ?); [lia|]. exists ko, x. split; [by apply out_keep|done].
    + destruct (E j c n Hj Hn) as (ko & x & Hx & ? & ?). exists ko, x. split; [by apply out_keep|done].
  - intros j j' x x' [[-> ->]|[_ Hj]]%out_cases [[-> ->]|[_ Hj']]%out_cases E1 E2 E3; [done|..|by eapply O].
    + pose proof (command_before _ _ Hj' ltac:(congruence) ltac:(congruence)). lia.
    + pose proof (out_before _ _ Hj ltac:(congruence)). lia.
  - intros j x [[-> ->]|[_ Hj]]%op_cases.
    + exists ev, r. split; [apply lookup_insert_eq|]. by rewrite Ed, Eo, Er.
    + destruct (C j x Hj) as (kr & y & Hy & ?). exists kr, y. split; [by apply out_keep|done].
  - intros j c n Hj Hn. assert (exists c0, cs !! j = Some c0 /\ 1 <= n <= c_notification_sequence c0) as (c0 & Hc0 & Hn0).
    { unfold cs' in Hj. rewrite lookup_insert in Hj. case_decide as Ej; [|eauto]. injection Hj as <-. subst j.
      rewrite Hnot in Hn. destruct (cs !! k) as [c|]; simpl in Hn; [eauto|lia]. }
    destruct (N j c0 n Hc0 Hn0) as (kr & y & Hy & ?). exists kr, y. split; [by apply out_keep|done].
  - intros j c Hj. unfold cs' in Hj. rewrite lookup_insert in Hj. case_decide as Ej; [|by eapply S].
    injection Hj as <-. rewrite Hout, Hnot. destruct (cs !! k) as [c|]; simpl; [destruct (HS c eq_refl)|]; lia.
  - intros j x [[-> ->]|[_ Hj]]%out_cases; [|by eapply A]. rewrite Eat, Est. split; [lia|done].
  - intros j j' x x' [[-> ->]|[_ Hj]]%out_cases [[-> ->]|[_ Hj']]%out_cases E1 E2 E3; [lia|..|by eapply P].
    + pose proof (out_before _ _ Hj' ltac:(congruence)). lia.
    + lia.
Qed.
End advance.

(** ** An operation moves on *)

Definition op_identity (o : operation_row) :=
  (op_id o, op_credential_id o, op_kind o, op_revision o, op_causation o, op_created_at o).
Section conclude.
Context (cs : table credential_row) (os : table operation_row) (k : string) (c c' : credential_row).
Context (id : string) (o o' : operation_row).
Context (HO : ops_ok cs os) (Hk : cs !! k = Some c) (Hv : c_version c' = c_version c).
Context (Hid : os !! id = Some o) (Eo : op_credential_id o = k) (Ei : op_identity o' = op_identity o).
Let cs' : table credential_row := <[k:=c']> cs.
Let os' : table operation_row := <[id:=o']> os.

Lemma op_moved j x : os' !! j = Some x -> exists y, os !! j = Some y /\ op_identity x = op_identity y.
Proof. unfold os'. rewrite lookup_insert. case_decide; [intros [= <-]; subst; by exists o|by exists x]. Qed.
Lemma op_moves j y : os !! j = Some y -> exists x, os' !! j = Some x /\ op_identity x = op_identity y /\ (j <> id -> x = y) /\
  (j = id -> x = o' /\ y = o).
Proof.
  intros Hj. unfold os'. rewrite lookup_insert. case_decide as E; [|exists y; by split_and!].
  subst. rewrite Hid in Hj. injection Hj as <-. by exists o'.
Qed.

Lemma ops_ok_conclude : (op_revision o = c_version c -> current_op c' o') ->
  (op_revision o <> c_version c -> forall x, current_op c x -> current_op c' x) -> ops_ok cs' os'.
Proof.
  intros Hcur Hoth. pose proof HO as [K O U E X]. split.
  - intros j x (y & Hy & [= -> _ _ _ _ _])%op_moved. by apply K.
  - intros j x (y & Hy & [= _ -> _ -> _ _])%op_moved. destruct (O j y Hy) as (z & Hz & Hr).
    destruct (cred_keep cs k c c' Hk _ _ Hz) as (z' & Hz' & E1 & E2). exists z'. split; [done|].
    destruct (decide (op_credential_id y = k)) as [Ey|Ey]; [|by rewrite E2]. destruct (E1 Ey) as [-> ->]. by rewrite Hv.
  - intros j j' x x' (y & Hy & [= _ -> _ -> _ _])%op_moved (y' & Hy' & [= _ -> _ -> _ _])%op_moved. by apply U.
  - intros j z n Hj Hn. assert (exists z0, cs !! j = Some z0 /\ 1 <= n <= c_version z0) as (z0 & Hz0 & Hn0).
    { apply cred_cases in Hj as [[-> ->]|[_ Hj]]; [exists c; by rewrite <- Hv|eauto]. }
    destruct (E j z0 n Hz0 Hn0) as (ko & y & Hy & ? & ?). destruct (op_moves _ _ Hy) as (x & Hx & [= _ E2 _ E4 _ _] & _).
    exists ko, x. by rewrite E2, E4.
  - intros j z [[-> ->]|[Hne Hj]]%cred_cases.
    + destruct (X k c Hk) as (ko & y & Hy & Ey & Er & Hc). destruct (decide (ko = id)) as [->|Hko].
      * rewrite Hid in Hy. injection Hy as <-. exists id, o'. injection Ei as _ E2 _ E4 _ _. rewrite E2, E4, Hv.
        split_and!; [apply lookup_insert_eq|done|done|by apply Hcur].
      * exists ko, y. unfold os'. rewrite lookup_insert_ne by congruence. split_and!; [done|done|congruence|].
        apply Hoth; [|done]. intros Eq. apply Hko. apply (U ko id y o); [done|done|congruence|congruence].
    + destruct (X j z Hj) as (ko & y & Hy & Ey & Er & Hc). destruct (op_moves _ _ Hy) as (x & Hx & _ & E1 & E2).
      assert (x = y) as -> by (apply E1; intros ->; destruct (E2 eq_refl); congruence). by exists ko, y.
Qed.

Lemma outs_ok_op_moves (cs0 : table credential_row) out : outs_ok cs0 os out -> outs_ok cs0 os' out.
Proof.
  intros [K R U E O C N S A P]. split; try done.
  - intros j r Hj. destruct (R j r Hj) as (x & Hx & Hr & Hs). exists x. split; [done|]. split; [done|].
    unfold row_says in *. destruct (env_Data (o_payload r)); try done. destruct Hs as (? & ? & y & Hy & ? & ? & ?).
    destruct (op_moves _ _ Hy) as (y' & Hy' & [= _ E2 E3 E4 _ _] & _). split_and!; [done|done|].
    exists y'. by rewrite E2, E3, E4.
  - intros j y' (y & Hy & [= _ -> _ -> _ _])%op_moved. by apply C.
Qed.
Lemma recs_ok_op_moves rs : recs_ok os rs -> recs_ok os' rs.
Proof.
  intros H j r Hj. destruct (H j r Hj) as (y & Hy & ? & ? & ?).
  destruct (op_moves _ _ Hy) as (y' & Hy' & [= _ E2 E3 E4 _ _] & _). exists y'. by rewrite E2, E3, E4.
Qed.
End conclude.
Lemma recs_ok_insert os rs id o : recs_ok os rs -> os !! id = None -> recs_ok (<[id:=o]> os) rs.
Proof.
  intros H Hid j r Hj. destruct (H j r Hj) as (y & Hy & ?). exists y. rewrite lookup_insert_ne; [done|congruence].
Qed.

(** ** A notification *)

Section notify.
Context (cs : table credential_row) (os : table operation_row) (out : table outbox_row) (k : string) (c c' : credential_row).
Context (ev : string) (r : outbox_row) (HB : outs_ok cs os out) (Hk : cs !! k = Some c).
Context (Hout : c_outbox_sequence c' = c_outbox_sequence c + 1) (Hnot : c_notification_sequence c' = c_notification_sequence c + 1).
Context (Hev : out !! ev = None) (Eev : o_event_id r = ev) (Ea : o_aggregate_id r = k) (Es : o_sequence r = c_outbox_sequence c').
Context (Ee : env_AggregateSequence (o_payload r) = c_notification_sequence c') (Hcmd : is_command r = false).
Context (Eat : o_attempts r = 0) (Est : o_state r = OPending).
Let cs' : table credential_row := <[k:=c']> cs.
Let out' : table outbox_row := <[ev:=r]> out.

Lemma note_before j x : out !! j = Some x -> o_aggregate_id x = k -> 1 <= o_sequence x < c_outbox_sequence c' /\
  (is_command x = false -> 1 <= env_AggregateSequence (o_payload x) < c_notification_sequence c').
Proof.
  intros Hj Ex. destruct (ob_row _ _ _ HB j x Hj) as (z & Hz & Hr & Hs). rewrite Ex, Hk in Hz. injection Hz as <-.
  split; [lia|]. unfold is_command, row_says in *. destruct (env_Data (o_payload x)); try done; lia.
Qed.
Lemma row_says_own x : is_command x = false -> 1 <= env_AggregateSequence (o_payload x) <= c_notification_sequence c' ->
  row_says os c' x.
Proof. unfold is_command, row_says. by destruct (env_Data (o_payload x)). Qed.

Lemma outs_ok_notify : outs_ok cs' os out'.
Proof.
  pose proof HB as [K R U E O C N S A P]. destruct (S k c Hk) as [S1 S2]. split.
  - intros j x [[-> ->]|[_ Hj]]%out_cases; auto.
  - intros j x [[-> ->]|[_ Hj]]%out_cases.
    + exists c'. rewrite Ea. split; [apply lookup_insert_eq|]. split; [lia|]. apply row_says_own; [done|lia].
    + destruct (R j x Hj) as (z & Hz & Hr & Hs). destruct (cred_keep cs k c c' Hk _ _ Hz) as (z' & Hz' & E1 & E2).
      exists z'. split; [done|]. destruct (decide (o_aggregate_id x = k)) as [Ex|Ex]; [|by rewrite E2].
      destruct (E1 Ex) as [-> ->]. split; [lia|]. unfold row_says in *. destruct (env_Data (o_payload x)); try done; lia.
  - intros j j' x x' [[-> ->]|[_ Hj]]%out_cases [[-> ->]|[_ Hj']]%out_cases E1 E2; [done|..|by eapply U].
    + destruct (note_before _ _ Hj' ltac:(congruence)). lia.
    + destruct (note_before _ _ Hj ltac:(congruence)). lia.
  - intros j z n [[-> ->]|[_ Hj]]%cred_cases Hn.
    + destruct (decide (n = c_outbox_sequence c')) as [->|Hne].
      { exists ev, r. split_and!; [apply lookup_insert_eq|done|done]. }
      destruct (E k c n Hk) as (ko & x & Hx & ? & ?); [lia|]. exists ko, x. split; [by apply out_keep|done].
    + destruct (E j z n Hj Hn) as (ko & x & Hx & ? & ?). exists ko, x. split; [by apply out_keep|done].
  - intros j j' x x' [[-> ->]|[_ Hj]]%out_cases [[-> ->]|[_ Hj']]%out_cases E1 E2 E3; [done|..|by eapply O].
    + destruct (note_before _ _ Hj' ltac:(congruence)) as [_ Hn]. specialize (Hn ltac:(congruence)). lia.
    + destruct (note_before _ _ Hj ltac:(congruence)). lia.
  - intros j x Hj. destruct (C j x Hj) as (kr & y & Hy & ?). exists kr, y. split; [by apply out_keep|done].
  - intros j z n [[-> ->]|[_ Hj]]%cred_cases Hn.
    + destruct (decide (n = c_notification_sequence c')) as [->|Hne].
      { exists ev, r. split_and!; [apply lookup_insert_eq|done..]. }
      destruct (N k c n Hk) as (ko & x & Hx & ?); [lia|]. exists ko, x. split; [by apply out_keep|done].
    + destruct (N j z n Hj Hn) as (ko & x & Hx & ?). exists ko, x. split; [by apply out_keep|done].
  - intros j z [[-> ->]|[_ Hj]]%cred_cases; [lia|by eapply S].
  - intros j x [[-> ->]|[_ Hj]]%out_cases; [|by eapply A]. rewrite Eat, Est. split; [lia|done].
  - intros j j' x x' [[-> ->]|[_ Hj]]%out_cases [[-> ->]|[_ Hj']]%out_cases E1 E2 E3; [lia|..|by eapply P].
    + destruct (note_before _ _ Hj' ltac:(congruence)). lia.
    + lia.
Qed.
End notify.

(** ** The publisher *)

Definition out_content (r : outbox_row) :=
  (o_event_id r, o_topic r, o_partition_key r, o_aggregate_id r, o_sequence r, o_dedupe_key r, o_payload r, o_created_at r).
(** What the publisher does to a row: attempts grow, published is final, and
    it touches a row for the first time when all before it are published. *)
Record published_step (out : table outbox_row) (r r' : outbox_row) : Prop := {
  pu_content : out_content r' = out_content r;
  pu_attempts : 0 <= o_attempts r -> (o_state r <> OPending -> 0 < o_attempts r) ->
    0 <= o_attempts r' /\ (o_state r' <> OPending -> 0 < o_attempts r');
  pu_final : o_state r = OPublished -> o_state r' = OPublished;
  pu_first : 0 < o_attempts r' -> 0 < o_attempts r \/ forall k q, out !! k = Some q ->
    o_aggregate_id q = o_aggregate_id r -> o_sequence q < o_sequence r -> o_state q = OPublished
}.
Lemma outs_ok_publish cs os out out' : outs_ok cs os out -> pointwise (published_step out) out out' -> outs_ok cs os out'.
Proof.
  intros [K R U E O C N S A P] H.
  assert (forall k r', out' !! k = Some r' -> exists r, out !! k = Some r /\ published_step out r r' /\
    o_event_id r' = o_event_id r /\ o_topic r' = o_topic r /\ o_aggregate_id r' = o_aggregate_id r /\ o_sequence r' = o_sequence r /\
    o_payload r' = o_payload r) as Hb.
  { intros k r' (r & Hr & Hs)%(pointwise_bwd _ _ _ _ _ H). exists r. pose proof (pu_content _ _ _ Hs) as [=]. by split_and!. }
  assert (forall k r, out !! k = Some r -> exists r', out' !! k = Some r' /\ published_step out r r' /\
    o_aggregate_id r' = o_aggregate_id r /\ o_sequence r' = o_sequence r /\ o_payload r' = o_payload r) as Hf.
  { intros k r (r' & Hr & Hs)%(pointwise_fwd _ _ _ _ _ H). exists r'. pose proof (pu_content _ _ _ Hs) as [=]. by split_and!. }
  split.
  - intros k r' (r & Hr & _ & -> & _)%Hb. by apply K.
  - intros k r' (r & Hr & _ & _ & E2 & E3 & E4 & E5)%Hb. rewrite E3, E4. destruct (R k r Hr) as (c & Hc & Hn & Hs).
    exists c. split; [done|]. split; [done|]. unfold row_says in *. by rewrite E5, E3, E2.
  - intros k k' r r' (q & Hq & _ & _ & _ & -> & -> & _)%Hb (q' & Hq' & _ & _ & _ & -> & -> & _)%Hb. by apply (U k k' q q').
  - intros k c n Hk Hn. destruct (E k c n Hk Hn) as (kr & r & (r' & Hr' & _ & E3 & E4 & _)%Hf & ? & ?). exists kr, r'. by rewrite E3, E4.
  - intros k k' r r' (q & Hq & _ & _ & _ & -> & -> & E5)%Hb (q' & Hq' & _ & _ & _ & -> & -> & E5')%Hb. unfold is_command.
    rewrite E5, E5'. by apply (O k k' q q').
  - intros k o Hk. destruct (C k o Hk) as (kr & r & (r' & Hr' & _ & _ & _ & E5)%Hf & ?). exists kr, r'. by rewrite E5.
  - intros k c n Hk Hn. destruct (N k c n Hk Hn) as (kr & r & (r' & Hr' & _ & E3 & _ & E5)%Hf & ? & Hc & ?). exists kr, r'.
    unfold is_command in *. by rewrite E3, E5.
  - done.
  - intros k r' (r & Hr & Hs & _)%Hb. destruct (A k r Hr). by apply (pu_attempts _ _ _ Hs).
  - intros k k' r r' (q & Hq & Hs & _ & _ & -> & -> & _)%Hb (q' & Hq' & Hs' & _ & _ & -> & -> & _)%Hb Ea Hlt Hat.
    apply (pu_final _ _ _ Hs). destruct (pu_first _ _ _ Hs' Hat) as [H0|H0]; [by apply (P k k' q q')|by apply (H0 k q)].
Qed.

(** ** Tokens *)

Definition token_identity (t : token_row) :=
  (t_id t, t_credential_id t, t_hmac t, t_hmac_version t, t_rotated_from t, t_created_at t).
(** An update that may end a token, or move the end of an active one. *)
Record token_evolves (t t' : token_row) : Prop := {
  te_identity : token_identity t' = token_identity t;
  te_final : t_status t <> TkActive -> t_status t' = t_status t /\ t_expires_at t' = t_expires_at t /\
    t_revoked_at t' = t_revoked_at t
}.
Lemma token_evolves_refl t : token_evolves t t.
Proof. by split. Qed.
Lemma token_evolves_trans t1 t2 t3 : token_evolves t1 t2 -> token_evolves t2 t3 -> token_evolves t1 t3.
Proof. intros [I1 F1] [I2 F2]. split; [congruence|]. intros H.
  destruct (F1 H) as (E1 & E2 & E3). destruct F2 as (-> & -> & ->); [congruence|done].
Qed.
#[export] Hint Resolve token_evolves_refl : core.

Lemma toks_ok_evolve cs cs' ts ts' us : toks_ok cs ts us -> pointwise token_evolves ts ts' ->
  (forall k c, cs !! k = Some c -> exists c', cs' !! k = Some c' /\ c_subscription_id c' = c_subscription_id c) ->
  (forall k t t' c c', ts !! k = Some t -> ts' !! k = Some t' -> cs !! t_credential_id t = Some c ->
     cs' !! t_credential_id t = Some c' -> t_status t' = TkActive ->
     (t_status t = TkActive -> ready_status (c_status c) = true /\ t_expires_at t = c_expires_at c) ->
     ready_status (c_status c') = true /\ t_expires_at t' = c_expires_at c') ->
  toks_ok cs' ts' us.
Proof.
  intros [K O A H U] Ht Hc Ha.
  assert (forall k t', ts' !! k = Some t' -> exists t, ts !! k = Some t /\ token_evolves t t' /\ t_id t' = t_id t /\
    t_credential_id t' = t_credential_id t /\ t_hmac t' = t_hmac t /\ (t_status t' = TkActive -> t_status t = TkActive)) as Hb.
  { intros k t' (t & Hk & He)%(pointwise_bwd _ _ _ _ _ Ht). exists t. pose proof (te_identity _ _ He) as [=].
    split_and!; try done. intros E. destruct (decide (t_status t = TkActive)) as [|Hn]; [done|].
    destruct (te_final _ _ He Hn). congruence. }
  split.
  - intros k t' (t & Hk & _ & -> & _)%Hb. by apply K.
  - intros k t' Hk'. destruct (Hb _ _ Hk') as (t & Hk & _ & _ & Ec & _ & Es). rewrite Ec. destruct (O k t Hk) as (c & Hcc & Hr).
    destruct (Hc _ _ Hcc) as (c' & Hc' & _). exists c'. split; [done|]. intros E. by eapply Ha.
  - intros k k' t1 t2 (q1 & H1 & _ & _ & -> & _ & E1)%Hb (q2 & H2 & _ & _ & -> & _ & E2)%Hb E A1 A2.
    apply (A k k' q1 q2); auto.
  - intros k k' t1 t2 (q1 & H1 & _ & _ & _ & -> & _)%Hb (q2 & H2 & _ & _ & _ & -> & _)%Hb. by apply (H k k' q1 q2).
  - intros k u Hk. destruct (U k u Hk) as (t & c & Hti & Hcc & Es). destruct (pointwise_fwd _ _ _ _ _ Ht Hti) as (t' & Ht' & He).
    destruct (Hc _ _ Hcc) as (c' & Hc' & Es'). exists t', c'. pose proof (te_identity _ _ He) as [= _ -> _ _ _ _]. split_and!; try done. congruence.
Qed.

(** The active tokens of a credential end with it. *)
Definition own_active (k : string) (t : token_row) : bool :=
  bool_decide (t_credential_id t = k) && bool_decide (t_status t = TkActive).
Definition with_tokens (k : string) (f : token_row -> token_row) (ts : table token_row) : table token_row :=
  update_where (own_active k) f ts.
Lemma with_tokens_evolves k f ts : (forall t, t_status t = TkActive -> token_evolves t (f t)) ->
  pointwise token_evolves ts (with_tokens k f ts).
Proof.
  intros Hf. apply pointwise_update_where; [done|]. intros j t _ [_ H%bool_decide_eq_true]%andb_true_iff. by apply Hf.
Qed.
Lemma end_token_evolves st now t : t_status t = TkActive -> token_evolves t (end_token st now t).
Proof. intros E. split; [done|]. intros H. congruence. Qed.
Lemma extend_token_evolves g t : t_status t = TkActive -> token_evolves t (extend_token g t).
Proof. intros E. split; [done|]. intros H. congruence. Qed.

Lemma update_row (cs : table credential_row) (k : string) c c' : cs !! k = Some c -> c_subscription_id c' = c_subscription_id c ->
  forall j x, cs !! j = Some x -> exists x', <[k:=c']> cs !! j = Some x' /\ c_subscription_id x' = c_subscription_id x.
Proof.
  intros Hk Es j x Hj. rewrite lookup_insert. case_decide; [|by exists x]. subst. exists c'. split; [done|congruence].
Qed.
Lemma toks_ok_end cs ts us k c c' st now : toks_ok cs ts us -> cs !! k = Some c -> c_subscription_id c' = c_subscription_id c ->
  st <> TkActive -> toks_ok (<[k:=c']> cs) (with_tokens k (end_token st now) ts) us.
Proof.
  intros HT Hk Es Hst. eapply toks_ok_evolve; [done|apply with_tokens_evolves, end_token_evolves|by eapply update_row|].
  intros j t t' x x' Hj Hj' Hx Hx'. unfold with_tokens in Hj'. rewrite lookup_update_where, Hj in Hj'. injection Hj' as <-.
  destruct (own_active k t) eqn:E; [done|]. intros Hs H. specialize (H Hs). apply andb_false_iff in E as [E|E];
    apply bool_decide_eq_false in E; [|done]. rewrite lookup_insert_ne in Hx' by congruence. by simplify_eq.
Qed.
Lemma toks_ok_extend cs ts us k c c' g : toks_ok cs ts us -> cs !! k = Some c -> c_subscription_id c' = c_subscription_id c ->
  c_status c' = c_status c -> c_expires_at c' = Z.max (c_expires_at c) g ->
  toks_ok (<[k:=c']> cs) (with_tokens k (extend_token g) ts) us.
Proof.
  intros HT Hk Es Est Ee. eapply toks_ok_evolve; [done|apply with_tokens_evolves, extend_token_evolves|by eapply update_row|].
  intros j t t' x x' Hj Hj' Hx Hx'. unfold with_tokens in Hj'. rewrite lookup_update_where, Hj in Hj'. injection Hj' as <-.
  destruct (own_active k t) eqn:E; intros Hs H.
  - apply andb_true_iff in E as [E1%bool_decide_eq_true E2%bool_decide_eq_true]. destruct (H E2) as [Hr He].
    rewrite E1, lookup_insert_eq in Hx'. rewrite E1 in Hx. simplify_eq. simpl. rewrite Est, He, Ee. by split.
  - specialize (H Hs). apply andb_false_iff in E as [E|E]; apply bool_decide_eq_false in E; [|done].
    rewrite lookup_insert_ne in Hx' by congruence. by simplify_eq.
Qed.
(** The credential changes and has no active token to look after. *)
Lemma toks_ok_silent cs ts us k c c' : toks_ok cs ts us -> cs !! k = Some c -> c_subscription_id c' = c_subscription_id c ->
  (ready_status (c_status c) = true -> ready_status (c_status c') = true /\ c_expires_at c' = c_expires_at c) ->
  toks_ok (<[k:=c']> cs) ts us.
Proof.
  intros HT Hk Es Hr. eapply toks_ok_evolve; [done|by apply pointwise_refl|by eapply update_row|].
  intros j t t' x x' Hj Hj' Hx Hx' Hs H. assert (t' = t) as -> by congruence. specialize (H Hs).
  rewrite lookup_insert in Hx'. case_decide as E; [|by simplify_eq]. simplify_eq. destruct (Hr (proj1 H)) as [H1 H2].
  split; [done|]. rewrite H2. apply H.
Qed.
Lemma toks_ok_new cs ts us k c' : toks_ok cs ts us -> cs !! k = None -> toks_ok (<[k:=c']> cs) ts us.
Proof.
  intros HT Hk. eapply toks_ok_evolve; [done|by apply pointwise_refl| |].
  - intros j x Hj. exists x. rewrite lookup_insert_ne; [done|congruence].
  - intros j t t' x x' Hj Hj' Hx Hx' Hs H. rewrite lookup_insert_ne in Hx' by congruence.
    assert (t' = t) as -> by congruence. simplify_eq. auto.
Qed.
Lemma toks_ok_insert cs ts us (t : token_row) (c : credential_row) : toks_ok cs ts us -> ts !! t_id t = None ->
  cs !! t_credential_id t = Some c -> ready_status (c_status c) = true -> t_expires_at t = c_expires_at c ->
  (forall k q, ts !! k = Some q -> t_hmac q <> t_hmac t /\ (t_credential_id q = t_credential_id t -> t_status q <> TkActive)) ->
  toks_ok cs (<[t_id t := t]> ts) us.
Proof.
  intros [K O A H U] Hf Hc Hr He Hn.
  assert (forall k q, <[t_id t := t]> ts !! k = Some q -> (k = t_id t /\ q = t) \/ (k <> t_id t /\ ts !! k = Some q)) as Hb.
  { intros k q. rewrite lookup_insert. case_decide; [intros [= <-]; by left|by right]. }
  split.
  - intros k q [[-> ->]|[_ Hk]]%Hb; auto.
  - intros k q [[-> ->]|[_ Hk]]%Hb; [|by eapply O]. by exists c.
  - intros k k' q q' [[-> ->]|[_ Hk]]%Hb [[-> ->]|[_ Hk']]%Hb E H1 H2; [done|..|by apply (A k k' q q')].
    + by destruct (proj2 (Hn _ _ Hk')).
    + by destruct (proj2 (Hn _ _ Hk)).
  - intros k k' q q' [[-> ->]|[_ Hk]]%Hb [[-> ->]|[_ Hk']]%Hb E; [done|..|by apply (H k k' q q')].
    + by destruct (proj1 (Hn _ _ Hk')).
    + by destruct (proj1 (Hn _ _ Hk)).
  - intros k u Hk. destruct (U k u Hk) as (q & x & Hq & ?). exists q, x. rewrite lookup_insert_ne; [done|congruence].
Qed.
Lemma toks_ok_url cs ts us k u t c : toks_ok cs ts us -> ts !! u_token_id u = Some t -> cs !! t_credential_id t = Some c ->
  c_subscription_id c = u_subscription_id u -> toks_ok cs ts (<[k:=u]> us).
Proof.
  intros [K O A H U] Ht Hc Es. split; try done. intros j v. rewrite lookup_insert. case_decide; [|by apply U].
  intros [= <-]. by exists t, c.
Qed.
