(* ===== verification/AccessSteps.v ===== *)
(** * access-service: what the operations of the store do

    The state machine of a credential, what survives every operation, and the
    effect of each operation when it succeeds. *)

From Stdlib Require Import List.
From S2P Require Import Prelude GoStrings Platform AccessDomain AccessStore AccessInv.

(** ** The state machine of a credential *)

(** Status, version, end of the entitlement, allocation in force. *)
Record cred_view := MkView { v_status : CredStatus; v_version : Z; v_expires : Z; v_allocation : Z }.
Definition view (c : credential_row) : cred_view :=
  MkView (c_status c) (c_version c) (c_expires_at c) (c_allocation_revision c).
Inductive view_step : cred_view -> cred_view -> Prop :=
  (* a period is bought while access is being set up or works *)
  | vs_extend s v e e' a : s = StProvisioning \/ s = StActive \/ s = StDegraded -> e <= e' -> view_step (MkView s v e a) (MkView s v e' a)
  (* a period is bought while access is withdrawn, or after it could not be set up *)
  | vs_restart s v e e' a : s = StRevoking \/ s = StFailed -> e <= e' -> view_step (MkView s v e a) (MkView StProvisioning (v + 1) e' 0)
  (* the subscription ends, or has run out before access was there *)
  | vs_revoke s v e a : s <> StRevoking -> s <> StRevoked -> view_step (MkView s v e a) (MkView StRevoking (v + 1) e a)
  (* provisioning-service answers *)
  | vs_ready s v e a : s = StActive \/ s = StDegraded -> view_step (MkView StProvisioning v e a) (MkView s v e v)
  | vs_failed v e a : view_step (MkView StProvisioning v e a) (MkView StFailed v e a)
  | vs_late v e a a' : a < a' < v -> view_step (MkView StRevoking v e a) (MkView StRevoking v e a')
  | vs_revoked v e a : view_step (MkView StRevoking v e a) (MkView StRevoked v e a).

Definition cred_identity (c : credential_row) :=
  (c_id c, c_subscription_id c, c_user_id c, c_ciphertext c, c_key_version c, c_created_at c).
Record cred_evolves (c c' : credential_row) : Prop := {
  ce_identity : cred_identity c' = cred_identity c;
  ce_view : rtc view_step (view c) (view c');
  ce_outbox : c_outbox_sequence c <= c_outbox_sequence c';
  ce_notifications : c_notification_sequence c <= c_notification_sequence c'
}.
Lemma cred_evolves_refl c : cred_evolves c c.
Proof. by split. Qed.
Lemma cred_evolves_trans c1 c2 c3 : cred_evolves c1 c2 -> cred_evolves c2 c3 -> cred_evolves c1 c3.
Proof. intros [I1 V1 O1 N1] [I2 V2 O2 N2]. split; [congruence|by etrans|lia|lia]. Qed.

Definition op_evolves (o o' : operation_row) : Prop :=
  op_identity o' = op_identity o /\ (op_status o <> OpPending -> o' = o).
Definition row_evolves (r r' : outbox_row) : Prop :=
  out_content r' = out_content r /\ (o_state r = OPublished -> o_state r' = OPublished).
Definition sli_evolves (r r' : sli_row) : Prop :=
  sl_user_id r' = sl_user_id r /\ (sl_payment_event r <> None -> sl_payment_event r' = sl_payment_event r /\ sl_paid_at r' = sl_paid_at r) /\
  (sl_fulfilled r <> None -> sl_fulfilled r' = sl_fulfilled r).
Lemma op_evolves_refl o : op_evolves o o.
Proof. by split. Qed.
Lemma op_evolves_trans o1 o2 o3 : op_evolves o1 o2 -> op_evolves o2 o3 -> op_evolves o1 o3.
Proof. intros [I1 F1] [I2 F2]. split; [congruence|]. intros H. specialize (F1 H). subst. by apply F2. Qed.
Lemma row_evolves_refl r : row_evolves r r.
Proof. by split. Qed.
Lemma row_evolves_trans r1 r2 r3 : row_evolves r1 r2 -> row_evolves r2 r3 -> row_evolves r1 r3.
Proof. intros [I1 F1] [I2 F2]. split; [congruence|auto]. Qed.
Lemma sli_evolves_refl r : sli_evolves r r.
Proof. by split. Qed.
Lemma sli_evolves_trans r1 r2 r3 : sli_evolves r1 r2 -> sli_evolves r2 r3 -> sli_evolves r1 r3.
Proof.
  intros (U1 & P1 & F1) (U2 & P2 & F2). split_and!; [congruence| |].
  - intros H. destruct (P1 H) as [E1 E2]. rewrite <- E1 in H. destruct (P2 H). split; congruence.
  - intros H. rewrite (F2 ltac:(rewrite F1; done)). auto.
Qed.
#[export] Hint Resolve cred_evolves_refl op_evolves_refl row_evolves_refl sli_evolves_refl : core.

(** What an operation leaves of what was there. *)
Record keeps (d d' : db) : Prop := {
  kp_creds : grows cred_evolves (credentials d) (credentials d');
  kp_ops : grows op_evolves (operations d) (operations d');
  kp_tokens : grows token_evolves (tokens d) (tokens d');
  kp_out : grows row_evolves (outbox d) (outbox d');
  kp_sli : grows sli_evolves (sli d) (sli d');
  kp_urls : url_idempotency d ⊆ url_idempotency d';
  kp_recoveries : recoveries d ⊆ recoveries d';
  kp_inbox : inbox d ⊆ inbox d';
  kp_dead : dead_letters d ⊆ dead_letters d';
  kp_life : forall s u n, lifecycle d !! s = Some (u, n) -> exists n', lifecycle d' !! s = Some (u, n') /\ n <= n';
  kp_outcomes : forall k n, outcomes d !! k = Some n -> exists n', outcomes d' !! k = Some n' /\ n <= n'
}.
Lemma keeps_refl d : keeps d d.
Proof. split; try (by apply grows_refl); try reflexivity; intros; eexists; (split; [done|lia]). Qed.
Lemma keeps_trans d1 d2 d3 : keeps d1 d2 -> keeps d2 d3 -> keeps d1 d3.
Proof.
  intros [C1 O1 T1 B1 S1 U1 R1 I1 D1 L1 N1] [C2 O2 T2 B2 S2 U2 R2 I2 D2 L2 N2]. split; try (by etrans).
  - eapply grows_trans; eauto using cred_evolves_trans.
  - eapply grows_trans; eauto using op_evolves_trans.
  - eapply grows_trans; eauto using token_evolves_trans.
  - eapply grows_trans; eauto using row_evolves_trans.
  - eapply grows_trans; eauto using sli_evolves_trans.
  - intros s u n Hs. destruct (L1 s u n Hs) as (n1 & H1 & ?). destruct (L2 s u n1 H1) as (n2 & H2 & ?). exists n2. split; [done|lia].
  - intros k n Hk. destruct (N1 k n Hk) as (n1 & H1 & ?). destruct (N2 k n1 H1) as (n2 & H2 & ?). exists n2. split; [done|lia].
Qed.
Definition Good (d0 d : db) : Prop := Inv d /\ keeps d0 d.
Lemma acc_good_step d0 d d' : Good d0 d -> Inv d' -> keeps d d' -> Good d0 d'.
Proof. intros [_ H1] H2 H3. split; [done|by eapply keeps_trans]. Qed.

(** Databases with the same tables. *)
Lemma db_ext d d' : credentials d = credentials d' -> endpoints d = endpoints d' -> assignments d = assignments d' ->
  operations d = operations d' -> tokens d = tokens d' -> url_idempotency d = url_idempotency d' -> inbox d = inbox d' ->
  lifecycle d = lifecycle d' -> outcomes d = outcomes d' -> sli d = sli d' -> recoveries d = recoveries d' ->
  dead_letters d = dead_letters d' -> audit d = audit d' -> outbox d = outbox d' -> d = d'.
Proof. destruct d, d'. simpl. by intros -> -> -> -> -> -> -> -> -> -> -> -> -> ->. Qed.
(** Table by table, an insertion over another one. *)
Ltac same_db := apply db_ext; try reflexivity; simpl; by rewrite ?insert_insert_eq.

(** ** Statements *)

Lemma update_credential_ok k f t t' : update_credential k f t = (Ok tt, t') ->
  (credentials (working t) !! k = None /\ t' = t) \/
  exists c, credentials (working t) !! k = Some c /\ credential_checks (f c) = true /\
    t' = Txn (durable t) (set_credentials (insert k (f c)) (working t)).
Proof.
  unfold update_credential. rewrite run_get. destruct (credentials (working t) !! k) as [c|] eqn:E; [|intros [= <-]; by left].
  unfold require. destruct (_ && _) eqn:H; [rewrite run_ret|done]. apply andb_true_iff in H as [H _].
  intros [= <-]. right. by exists c.
Qed.
Lemma insert_credential_ok r t t' : insert_credential r t = (Ok tt, t') ->
  credentials (working t) !! c_id r = None /\ credential_checks r = true /\
  t' = Txn (durable t) (set_credentials (insert (c_id r) r) (working t)).
Proof.
  unfold insert_credential. rewrite run_get. unfold require. destruct (_ && _) eqn:H; [rewrite run_ret|done].
  rewrite !andb_true_iff, bool_decide_eq_true in H. destruct H as [[H1 H2] H3]. by intros [= <-].
Qed.
Lemma current_credential_Some s d c : Inv d -> current_credential s d = Some c ->
  credentials d !! c_id c = Some c /\ c_subscription_id c = s /\ c_status c <> StRevoked.
Proof.
  intros HI. unfold current_credential. intros [H (k & Hk)]%where_head_Some.
  apply andb_true_iff in H as [H1%bool_decide_eq_true H2%negb_true_iff%bool_decide_eq_false].
  by rewrite (cr_id _ (k_creds _ _ _ _ _ _ _ (proj1 HI)) _ _ Hk).
Qed.
Lemma current_credential_None s d : current_credential s d = None -> forall k c, credentials d !! k = Some c ->
  c_subscription_id c = s -> c_status c = StRevoked.
Proof.
  intros H k c Hk Es. pose proof (where_head_None _ _ H k c Hk) as E. simpl in E. rewrite bool_decide_true in E by done.
  simpl in E. by apply negb_false_iff, bool_decide_eq_true in E.
Qed.

Definition fresh_op (id k : string) (kind : Kind) (rev : Z) (alloc : option Z) (causation : string) (now : Z) : operation_row :=
  MkOpRow id k kind rev alloc OpPending causation None now None.
Lemma insertOperation_ok id k kind rev alloc causation now t t' :
  insertOperation id k kind rev alloc causation now t = (Ok tt, t') ->
  operations (working t) !! id = None /\ (kind = Revoke -> exists a, alloc = Some a) /\
  t' = Txn (durable t) (set_operations (insert id (fresh_op id k kind rev alloc causation now)) (working t)).
Proof.
  unfold insertOperation. rewrite run_get. unfold require. destruct (_ && _) eqn:H; [rewrite run_ret|done].
  rewrite !andb_true_iff, !bool_decide_eq_true in H. destruct H as [[[[_ Ha] _] Hid] _]. intros [= <-].
  split_and!; [done| |done]. intros ->. destruct alloc; [by eexists|done].
Qed.

Definition out_row (now : Z) (ev : string) (meta : EventMeta) (at_ : Z) (topic key agg dedupe type : string)
    (data : event_data) (eseq seq : Z) : outbox_row :=
  MkOutRow ev topic key agg seq dedupe
    (MkEnvelope ev topic 1 at_ "access-service" (CorrelationID meta) (Some (EventID meta)) type agg eseq key data)
    OPending 0 now None at_ None.
Definition bump (c : credential_row) : credential_row :=
  set_sequences (c_outbox_sequence c + 1) (c_notification_sequence c) c.
Definition bump_both (c : credential_row) : credential_row :=
  set_sequences (c_outbox_sequence c + 1) (c_notification_sequence c + 1) c.
Lemma insertOutbox_ok now ev meta at_ topic key agg dedupe type data eseq t t' :
  insertOutbox now ev meta at_ topic key agg dedupe type data eseq t = (Ok tt, t') ->
  exists c, credentials (working t) !! agg = Some c /\ outbox (working t) !! ev = None /\
    t' = Txn (durable t) (set_outbox (insert ev (out_row now ev meta at_ topic key agg dedupe type data eseq (c_outbox_sequence c + 1)))
           (set_credentials (insert agg (bump c)) (working t))).
Proof.
  unfold insertOutbox. rewrite run_get. destruct (credentials (working t) !! agg) as [c|] eqn:E; [|done].
  unfold need, require. rewrite run_ret. cbv zeta. rewrite run_modify.
  destruct (_ && _) eqn:H; [rewrite run_ret|done]. rewrite !andb_true_iff, bool_decide_eq_true in H.
  destruct H as [[_ Hev] _]. intros [= <-]. by exists c.
Qed.
Lemma insertOperationOutbox_ok now ev meta topic id k rev t t' : insertOperationOutbox now ev meta topic id k rev t = (Ok tt, t') ->
  exists c, credentials (working t) !! k = Some c /\ outbox (working t) !! ev = None /\
    t' = Txn (durable t) (set_outbox (insert ev (out_row now ev meta now topic ("credential:" +:+ k) k (topic +:+ ":" +:+ id)
             "credential" (CommandData id k rev) rev (c_outbox_sequence c + 1)))
           (set_credentials (insert k (bump c)) (working t))).
Proof. apply insertOutbox_ok. Qed.
Lemma insertNotificationOutbox_ok now ev meta at_ topic user k dedupe data t t' :
  insertNotificationOutbox now ev meta at_ topic user k dedupe data t = (Ok tt, t') ->
  exists c, credentials (working t) !! k = Some c /\ outbox (working t) !! ev = None /\
    t' = Txn (durable t) (set_outbox (insert ev (out_row now ev meta at_ topic ("user:" +:+ user) k dedupe "access" data
             (c_notification_sequence c + 1) (c_outbox_sequence c + 1)))
           (set_credentials (insert k (bump_both c)) (working t))).
Proof.
  unfold insertNotificationOutbox. rewrite run_get. destruct (credentials (working t) !! k) as [c|] eqn:E; [|done].
  unfold need. rewrite run_ret. cbv zeta. rewrite run_modify. intros (c1 & H1 & H2 & ->)%insertOutbox_ok. cbn in H1, H2.
  rewrite lookup_insert_eq in H1. injection H1 as <-. exists c. split_and!; [done|done|].
  f_equal. same_db.
Qed.

Lemma quiet_update_credential k f : quiet (update_credential k f).
Proof. unfold update_credential. tx_auto. Qed.
Lemma quiet_insert_credential r : quiet (insert_credential r).
Proof. unfold insert_credential. tx_auto. Qed.
Lemma quiet_insertOperation id k kind rev alloc c now : quiet (insertOperation id k kind rev alloc c now).
Proof. unfold insertOperation. tx_auto. Qed.
Lemma quiet_acc_insertOutbox now ev meta at_ topic key agg dedupe type data eseq :
  quiet (insertOutbox now ev meta at_ topic key agg dedupe type data eseq).
Proof. unfold insertOutbox. tx_auto. Qed.
Lemma quiet_insertOperationOutbox now ev meta topic id k rev : quiet (insertOperationOutbox now ev meta topic id k rev).
Proof. apply quiet_acc_insertOutbox. Qed.
#[export] Hint Resolve quiet_update_credential quiet_insert_credential quiet_insertOperation quiet_acc_insertOutbox
  quiet_insertOperationOutbox : txdb.
Lemma quiet_insertNotificationOutbox now ev meta at_ topic user k dedupe data :
  quiet (insertNotificationOutbox now ev meta at_ topic user k dedupe data).
Proof. unfold insertNotificationOutbox. tx_auto. Qed.
Lemma quiet_acc_insertInbox pick meta : quiet (insertInbox pick meta).
Proof. unfold insertInbox. tx_auto. Qed.
#[export] Hint Resolve quiet_insertNotificationOutbox quiet_acc_insertInbox : txdb.
Lemma quiet_prepareLifecycle pick meta s u : quiet (prepareLifecycle pick meta s u).
Proof. unfold prepareLifecycle. tx_auto. Qed.
Lemma quiet_prepareOutcome pick meta k : quiet (prepareOutcome pick meta k).
Proof. unfold prepareOutcome. tx_auto. Qed.
Lemma quiet_upsert_sli id fresh ok upd what : quiet (upsert_sli id fresh ok upd what).
Proof. unfold upsert_sli. tx_auto. Qed.
#[export] Hint Resolve quiet_prepareLifecycle quiet_prepareOutcome quiet_upsert_sli : txdb.
Lemma quiet_completeSLI now meta event kind : quiet (completePaymentAccessSLI now meta event kind).
Proof. unfold completePaymentAccessSLI. tx_auto. Qed.
Lemma quiet_insert_assignments k rev l : quiet (insert_assignments k rev l).
Proof. induction l; simpl; tx_auto. Qed.
Lemma quiet_insert_endpoints k rev l : quiet (insert_endpoints k rev l).
Proof. induction l; simpl; tx_auto. Qed.
#[export] Hint Resolve quiet_completeSLI quiet_insert_assignments quiet_insert_endpoints : txdb.
Lemma quiet_replace event : quiet (replaceProvisionSnapshots event).
Proof. unfold replaceProvisionSnapshots, delete_endpoints. tx_auto. Qed.
Lemma quiet_bind_revoke k v a : quiet (bind_revoke k v a).
Proof. unfold bind_revoke. tx_auto. Qed.
#[export] Hint Resolve quiet_replace quiet_bind_revoke : txdb.

(** ** Applied events *)

Definition no_conflict (meta : EventMeta) (d : db) : Prop :=
  forall k q, inbox d !! k = Some q -> inbox_conflict (inbox_of meta) q = false.
Definition seen (meta : EventMeta) (d : db) : Prop := exists k q, inbox d !! k = Some q /\
  i_event_id q = EventID meta /\ i_event_type q = EventType meta /\ i_payload_sha256 q = PayloadSHA256 meta.
Lemma insertInbox_ok pick meta t b t' : insertInbox pick meta t = (Ok b, t') ->
  if b then no_conflict meta (working t) /\ inbox_checks (inbox_of meta) = true /\
         t' = Txn (durable t) (set_inbox (insert (EventID meta) (inbox_of meta)) (working t))
  else seen meta (working t) /\ t' = t.
Proof.
  unfold insertInbox. rewrite run_get. cbv zeta. unfold require.
  destruct (inbox_checks (inbox_of meta)) eqn:Hchk; [rewrite run_ret|done].
  destruct (exists_row _ _) eqn:E.
  - destruct (pick_row pick _) as [q|] eqn:Eq; [|done]. unfold need. rewrite run_ret.
    destruct (_ && _) eqn:H; [rewrite run_ret|done]. rewrite !andb_true_iff, !bool_decide_eq_true in H.
    destruct H as [[H1 H2] H3]. intros [= <- <-]. split; [|done]. apply list_elem_of_lookup_2, elem_where in Eq as [_ (k & Hk)].
    by exists k, q.
  - intros [= <- <-]. split_and!; [|done|done]. intros k q. by apply exists_row_false.
Qed.

Inductive life_prepared (meta : EventMeta) (s u : string) (d : db) : bool -> db -> Prop :=
  | life_new : 1 <= AggregateSequence meta -> default (u, 0) (lifecycle d !! s) = (u, AggregateSequence meta - 1) ->
      no_conflict meta d -> inbox_checks (inbox_of meta) = true ->
      life_prepared meta s u d true (set_lifecycle (insert s (u, AggregateSequence meta))
        (set_inbox (insert (EventID meta) (inbox_of meta)) d))
  | life_replay n : default (u, 0) (lifecycle d !! s) = (u, n) -> seen meta d ->
      life_prepared meta s u d false (set_lifecycle (insert s (u, n)) d).
Lemma prepareLifecycle_ok pick meta s u t b t' : prepareLifecycle pick meta s u t = (Ok b, t') ->
  exists d', life_prepared meta s u (working t) b d' /\ t' = Txn (durable t) d'.
Proof.
  unfold prepareLifecycle, require. destruct (Z.leb_spec 1 (AggregateSequence meta)) as [H1|]; [rewrite run_ret|done].
  rewrite run_get, run_modify. destruct (default _ _) as [u' n] eqn:Ed.
  case_bool_decide as Eu; [rewrite run_ret; subst u'|done].
  destruct (Z.leb_spec (AggregateSequence meta) (n + 1)) as [H2|]; [rewrite run_ret|done].
  intros (b1 & t1 & Hi & H)%bind_ok_inv. apply insertInbox_ok in Hi.
  assert (forall x, <[s:=x]> (match lifecycle (working t) !! s with Some _ => lifecycle (working t)
    | None => <[s:=(u,0)]> (lifecycle (working t)) end) = <[s:=x]> (lifecycle (working t))) as Hins.
  { intros x. destruct (lifecycle (working t) !! s); [done|]. by rewrite insert_insert_eq. }
  destruct b1; unfold negb in H; cbv beta iota in H.
  - destruct Hi as (Hn & Hc & ->). destruct (Z.ltb_spec n (AggregateSequence meta)) as [H3|]; [rewrite run_ret in H|done].
    rewrite run_modify in H. injection H as <- <-. eexists. split; [by apply life_new; [lia|rewrite Ed; f_equal; lia|..]|].
    f_equal. apply db_ext; try reflexivity. simpl. by rewrite Hins.
  - destruct Hi as [Hs ->]. injection H as <- <-. exists (set_lifecycle (insert s (u, n)) (working t)). split; [by apply life_replay|].
    cbn [durable working]. f_equal. apply db_ext; try reflexivity. simpl. destruct (lifecycle (working t) !! s) as [[u0 n0]|] eqn:El; simpl in Ed.
    + injection Ed as -> ->. by rewrite insert_id.
    + by injection Ed as <-.
Qed.

Inductive outcome_prepared (meta : EventMeta) (k : string) (d : db) : bool -> db -> Prop :=
  | outcome_new : 1 <= AggregateSequence meta -> default 0 (outcomes d !! k) = AggregateSequence meta - 1 ->
      no_conflict meta d -> inbox_checks (inbox_of meta) = true ->
      outcome_prepared meta k d true (set_outcomes (insert k (AggregateSequence meta))
        (set_inbox (insert (EventID meta) (inbox_of meta)) d))
  | outcome_replay n : default 0 (outcomes d !! k) = n -> seen meta d ->
      outcome_prepared meta k d false (set_outcomes (insert k n) d).
Lemma prepareOutcome_ok pick meta k t b t' : prepareOutcome pick meta k t = (Ok b, t') ->
  exists d', outcome_prepared meta k (working t) b d' /\ t' = Txn (durable t) d'.
Proof.
  unfold prepareOutcome, require. destruct (Z.leb_spec 1 (AggregateSequence meta)) as [H1|]; [rewrite run_ret|done].
  rewrite run_get. intros ([] & t0 & H0 & H)%bind_ok_inv. set (n := default 0 (outcomes (working t) !! k)) in *.
  assert (t0 = Txn (durable t) (set_outcomes (insert k n) (working t))) as ->.
  { unfold n. destruct (outcomes (working t) !! k) eqn:E; simpl.
    - injection H0 as <-. destruct t as [du w]. cbn in *. f_equal. unfold set_outcomes. rewrite insert_id by done. by destruct w.
    - case_bool_decide; [|done]. by injection H0 as <-. }
  destruct (Z.leb_spec (AggregateSequence meta) (n + 1)) as [H2|]; [rewrite run_ret in H|done].
  apply bind_ok_inv in H as (b1 & t1 & Hi & H). apply insertInbox_ok in Hi.
  destruct b1; unfold negb in H; cbv beta iota in H.
  - destruct Hi as (Hn & Hc & ->). destruct (Z.ltb_spec n (AggregateSequence meta)) as [H3|]; [rewrite run_ret in H|done].
    rewrite run_modify in H. injection H as <- <-. eexists. split; [by apply outcome_new; [lia|unfold n in *; lia|..]|].
    f_equal. same_db.
  - destruct Hi as [Hs ->]. injection H as <- <-. exists (set_outcomes (insert k n) (working t)). split; [by apply outcome_replay|done].
Qed.

(** *** They keep the cursors *)

Definition lifecycle_meta (meta : EventMeta) (s : string) : Prop := isLifecycleEvent (EventType meta) = true /\ AggregateID meta = s.
Definition outcome_meta (meta : EventMeta) (k : string) : Prop := isOutcomeEvent (EventType meta) = true /\ AggregateID meta = k.
Lemma lifecycle_not_outcome ty : isLifecycleEvent ty = true -> isOutcomeEvent ty = true -> False.
Proof.
  unfold isLifecycleEvent, isOutcomeEvent. rewrite !bool_decide_eq_true, !elem_of_cons, elem_of_nil. naive_solver.
Qed.
Lemma conflict_sym r q : inbox_conflict r q = inbox_conflict q r.
Proof.
  unfold inbox_conflict. rewrite (Z.eqb_sym (i_sequence q)), (andb_comm (isLifecycleEvent _)), (andb_comm (isOutcomeEvent _)).
  repeat f_equal; apply bool_decide_ext; split; congruence.
Qed.

Section new_row.
Context (lc : gmap string (string * Z)) (oc : gmap string Z) (ib : table inbox_row) (r : inbox_row).
Context (HC : cursors_ok lc oc ib) (Hn : forall k q, ib !! k = Some q -> inbox_conflict r q = false).
Context (Hck : inbox_checks r = true).
Let ib' : table inbox_row := <[i_event_id r := r]> ib.

Lemma inbox_cases k q : ib' !! k = Some q -> (k = i_event_id r /\ q = r) \/ (k <> i_event_id r /\ ib !! k = Some q).
Proof. unfold ib'. rewrite lookup_insert. case_decide; [intros [= <-]; by left|by right]. Qed.
Lemma inbox_fresh : ib !! i_event_id r = None.
Proof.
  destruct (ib !! i_event_id r) as [q|] eqn:E; [|done]. pose proof (Hn _ _ E) as H. unfold inbox_conflict in H.
  rewrite (bool_decide_true (i_event_id q = _)) in H by (by apply (cu_key _ _ _ HC)). done.
Qed.
Lemma inbox_keep k q : ib !! k = Some q -> ib' !! k = Some q.
Proof. intros Hk. unfold ib'. rewrite lookup_insert_ne; [done|]. intros <-. by rewrite inbox_fresh in Hk. Qed.
Lemma inbox_subset : ib ⊆ ib'.
Proof. apply insert_subseteq, inbox_fresh. Qed.
Lemma new_key : (forall k q, ib' !! k = Some q -> i_event_id q = k) /\ (forall k q, ib' !! k = Some q -> inbox_checks q = true) /\
  forall k k' q q', ib' !! k = Some q -> ib' !! k' = Some q' -> inbox_conflict q q' = true -> k = k'.
Proof.
  split_and!.
  - intros k q [[-> ->]|[_ Hk]]%inbox_cases; [done|by apply (cu_key _ _ _ HC)].
  - intros k q [[-> ->]|[_ Hk]]%inbox_cases; [done|by eapply (cu_checks _ _ _ HC)].
  - intros k k' q q' [[-> ->]|[_ Hk]]%inbox_cases [[-> ->]|[_ Hk']]%inbox_cases H; [done|..|by eapply (cu_distinct _ _ _ HC)].
    + by rewrite (Hn _ _ Hk') in H.
    + by rewrite conflict_sym, (Hn _ _ Hk) in H.
Qed.
(** A row that counts for no cursor. *)
Lemma cursors_ok_other : isLifecycleEvent (i_event_type r) = false -> isOutcomeEvent (i_event_type r) = false ->
  cursors_ok lc oc ib'.
Proof.
  intros H1 H2. pose proof HC as [K X D L LI O OI]. destruct new_key as (N1 & N2 & N3). split; [done|done|done| | | |].
  - intros s u n Hs. destruct (L s u n Hs) as [? H]. split; [done|]. intros m Hm. destruct (H m Hm) as (k & q & Hk & ?).
    exists k, q. split; [by apply inbox_keep|done].
  - intros k q [[-> ->]|[_ Hk]]%inbox_cases Ht; [congruence|by eapply LI].
  - intros s n Hs. destruct (O s n Hs) as [? H]. split; [done|]. intros m Hm. destruct (H m Hm) as (k & q & Hk & ?).
    exists k, q. split; [by apply inbox_keep|done].
  - intros k q [[-> ->]|[_ Hk]]%inbox_cases Ht; [congruence|by eapply OI].
Qed.
Lemma cursors_ok_life u : isLifecycleEvent (i_event_type r) = true -> 1 <= i_sequence r ->
  default (u, 0) (lc !! i_aggregate_id r) = (u, i_sequence r - 1) ->
  cursors_ok (<[i_aggregate_id r := (u, i_sequence r)]> lc) oc ib'.
Proof.
  intros H1 Hs Hd. assert (isOutcomeEvent (i_event_type r) = false) as H2.
  { destruct (isOutcomeEvent _) eqn:E; [|done]. by destruct (lifecycle_not_outcome _ H1 E). }
  pose proof HC as [K X D L LI O OI]. destruct new_key as (N1 & N2 & N3). split; [done|done|done| | | |].
  - intros s u' n Hs'. rewrite lookup_insert in Hs'. case_decide as Es.
    + injection Hs' as <- <-. split; [lia|]. intros m Hm. destruct (decide (m = i_sequence r)) as [->|Hne].
      { exists (i_event_id r), r. split_and!; [apply lookup_insert_eq|done|done|done]. }
      destruct (lc !! i_aggregate_id r) as [[u0 n0]|] eqn:E; simpl in Hd; [|injection Hd; lia]. injection Hd as -> ->.
      destruct (proj2 (L _ _ _ E) m) as (k & q & Hk & ?); [lia|]. exists k, q. rewrite <- Es. split; [by apply inbox_keep|done].
    + destruct (L s u' n Hs') as [? H]. split; [done|]. intros m Hm. destruct (H m Hm) as (k & q & Hk & ?).
      exists k, q. split; [by apply inbox_keep|done].
  - intros k q [[-> ->]|[_ Hk]]%inbox_cases Ht.
    + exists u, (i_sequence r). split; [apply lookup_insert_eq|lia].
    + destruct (LI k q Hk Ht) as (u' & n & Hl & ?). rewrite lookup_insert. case_decide as Ea; [|eauto].
      rewrite Ea, Hl in Hd. simpl in Hd. injection Hd as -> ->. exists u, (i_sequence r). split; [done|lia].
  - intros s n Hs'. destruct (O s n Hs') as [? H]. split; [done|]. intros m Hm. destruct (H m Hm) as (k & q & Hk & ?).
    exists k, q. split; [by apply inbox_keep|done].
  - intros k q [[-> ->]|[_ Hk]]%inbox_cases Ht; [congruence|by eapply OI].
Qed.
Lemma cursors_ok_outcome : isOutcomeEvent (i_event_type r) = true -> 1 <= i_sequence r ->
  default 0 (oc !! i_aggregate_id r) = i_sequence r - 1 ->
  cursors_ok lc (<[i_aggregate_id r := i_sequence r]> oc) ib'.
Proof.
  intros H1 Hs Hd. assert (isLifecycleEvent (i_event_type r) = false) as H2.
  { destruct (isLifecycleEvent _) eqn:E; [|done]. by destruct (lifecycle_not_outcome _ E H1). }
  pose proof HC as [K X D L LI O OI]. destruct new_key as (N1 & N2 & N3). split; [done|done|done| | | |].
  - intros s u n Hs'. destruct (L s u n Hs') as [? H]. split; [done|]. intros m Hm. destruct (H m Hm) as (k & q & Hk & ?).
    exists k, q. split; [by apply inbox_keep|done].
  - intros k q [[-> ->]|[_ Hk]]%inbox_cases Ht; [congruence|by eapply LI].
  - intros s n Hs'. rewrite lookup_insert in Hs'. case_decide as Es.
    + injection Hs' as <-. split; [lia|]. intros m Hm. destruct (decide (m = i_sequence r)) as [->|Hne].
      { exists (i_event_id r), r. split_and!; [apply lookup_insert_eq|done|done|done]. }
      destruct (oc !! i_aggregate_id r) as [n0|] eqn:E; simpl in Hd; [|lia]. subst n0.
      destruct (proj2 (O _ _ E) m) as (k & q & Hk & ?); [lia|]. exists k, q. rewrite <- Es. split; [by apply inbox_keep|done].
    + destruct (O s n Hs') as [? H]. split; [done|]. intros m Hm. destruct (H m Hm) as (k & q & Hk & ?).
      exists k, q. split; [by apply inbox_keep|done].
  - intros k q [[-> ->]|[_ Hk]]%inbox_cases Ht.
    + exists (i_sequence r). split; [apply lookup_insert_eq|lia].
    + destruct (OI k q Hk Ht) as (n & Hl & ?). rewrite lookup_insert. case_decide as Ea; [|eauto].
      rewrite Ea, Hl in Hd. simpl in Hd. subst n. exists (i_sequence r). split; [done|lia].
Qed.
End new_row.

Lemma keeps_inbox d k r : inbox d !! k = None -> keeps d (set_inbox (insert k r) d).
Proof.
  intros Hk. split; simpl; try (by apply grows_refl); try reflexivity; try (intros; eexists; split; [done|lia]).
  by apply insert_subseteq.
Qed.
Lemma keeps_lifecycle d s u n : snd (default (u, 0) (lifecycle d !! s)) <= n -> fst (default (u, 0) (lifecycle d !! s)) = u ->
  keeps d (set_lifecycle (insert s (u, n)) d).
Proof.
  intros H1 H2. split; simpl; try (by apply grows_refl); try reflexivity; try (intros; eexists; split; [done|lia]).
  intros s' u' n' Hs. rewrite lookup_insert. case_decide; [subst|by exists n'].
  rewrite Hs in H1, H2. simpl in H1, H2. exists n. by rewrite H2.
Qed.
Lemma keeps_outcomes d k n : default 0 (outcomes d !! k) <= n -> keeps d (set_outcomes (insert k n) d).
Proof.
  intros H1. split; simpl; try (by apply grows_refl); try reflexivity; try (intros; eexists; split; [done|lia]).
  intros s' n' Hs. rewrite lookup_insert. case_decide; [subst|by exists n'].
  rewrite Hs in H1. simpl in H1. by exists n.
Qed.

Lemma life_prepared_good d0 d meta s u b d1 : Good d0 d -> lifecycle_meta meta s -> life_prepared meta s u d b d1 -> Good d0 d1.
Proof.
  intros HG [Hty Ha] Hp. pose proof HG as [[HK HC] _]. unfold Cursors in HC. destruct Hp as [H1 Hd Hn Hck|n Hd _].
  - pose proof (inbox_fresh _ _ _ _ HC Hn) as Hfresh. apply (acc_good_step _ _ _ HG).
    + split; [exact HK|]. rewrite <- Ha in Hd |- *. by apply (cursors_ok_life _ _ _ (inbox_of meta)).
    + eapply keeps_trans; [by apply keeps_inbox|]. apply keeps_lifecycle; simpl; rewrite Hd; simpl; [lia|done].
  - apply (acc_good_step _ _ _ HG); [|apply keeps_lifecycle; rewrite Hd; simpl; [lia|done]].
    split; [exact HK|]. destruct HC as [K X D L LI O OI]. split; simpl; try done.
    + intros s' u' m. rewrite lookup_insert. case_decide as Es; [|apply L]. intros [= <- <-]. subst s'.
      destruct (lifecycle d !! s) as [[u0 n0]|] eqn:E; simpl in Hd; [injection Hd as <- <-; by eapply L|].
      injection Hd as <-. split; [done|lia].
    + intros k q Hk Ht. destruct (LI k q Hk Ht) as (u' & m & Hl & ?). rewrite lookup_insert. case_decide as Es; [|eauto].
      rewrite Es, Hl in Hd. simpl in Hd. injection Hd as <- <-. eauto.
Qed.
Lemma outcome_prepared_good d0 d meta k b d1 : Good d0 d -> outcome_meta meta k -> outcome_prepared meta k d b d1 -> Good d0 d1.
Proof.
  intros HG [Hty Ha] Hp. pose proof HG as [[HK HC] _]. unfold Cursors in HC. destruct Hp as [H1 Hd Hn Hck|n Hd _].
  - pose proof (inbox_fresh _ _ _ _ HC Hn) as Hfresh. apply (acc_good_step _ _ _ HG).
    + split; [exact HK|]. rewrite <- Ha in Hd |- *. by apply (cursors_ok_outcome _ _ _ (inbox_of meta)).
    + eapply keeps_trans; [by apply keeps_inbox|]. apply keeps_outcomes. simpl. rewrite Hd. lia.
  - apply (acc_good_step _ _ _ HG); [|apply keeps_outcomes; rewrite Hd; lia].
    split; [exact HK|]. destruct HC as [K X D L LI O OI]. split; simpl; try done.
    + intros s' m. rewrite lookup_insert. case_decide as Es; [|apply O]. intros [= <-]. subst s'.
      destruct (outcomes d !! k) as [n0|] eqn:E; simpl in Hd; subst n; [by eapply O|]. split; [done|lia].
    + intros j q Hk Ht. destruct (OI j q Hk Ht) as (m & Hl & ?). rewrite lookup_insert. case_decide as Es; [|eauto].
      rewrite Es, Hl in Hd. simpl in Hd. subst n. eauto.
Qed.

(** ** A command is issued *)

Definition issued (now : Z) (ev : string) (meta : EventMeta) (kind : Kind) (id k : string) (rev : Z) (alloc : option Z)
    (c1 : credential_row) (d : db) : db :=
  set_outbox (insert ev (out_row now ev meta now (command_topic kind) ("credential:" +:+ k) k
                (command_topic kind +:+ ":" +:+ id) "credential" (CommandData id k rev) rev (c_outbox_sequence c1 + 1)))
    (set_operations (insert id (fresh_op id k kind rev alloc (EventID meta) now))
       (set_credentials (insert k (bump c1)) d)).
Lemma issue_ok now ev meta kind id k rev alloc t t1 t2 c1 : credentials (working t) !! k = Some c1 ->
  insertOperation id k kind rev alloc (EventID meta) now t = (Ok tt, t1) ->
  insertOperationOutbox now ev meta (command_topic kind) id k rev t1 = (Ok tt, t2) ->
  operations (working t) !! id = None /\ outbox (working t) !! ev = None /\
  t2 = Txn (durable t) (issued now ev meta kind id k rev alloc c1 (working t)).
Proof.
  intros Hk (Hid & _ & ->)%insertOperation_ok (c & Hc & Hev & ->)%insertOperationOutbox_ok. cbn in Hc, Hev. simplify_eq. done.
Qed.

Section issue.
Context (d0 d : db) (HG : Good d0 d) (now : Z) (ev : string) (meta : EventMeta) (kind : Kind) (id k : string) (rev : Z)
  (alloc : option Z) (c1 : credential_row) (es' : gmap (string * string) endpoint_row) (ts' : table token_row).
Context (Hrev : rev = c_version c1) (Hv : c_version c1 = default 0 (c_version <$> credentials d !! k) + 1).
Context (Hout : c_outbox_sequence c1 = default 0 (c_outbox_sequence <$> credentials d !! k)).
Context (Hnot : c_notification_sequence c1 = default 0 (c_notification_sequence <$> credentials d !! k)).
Context (Hid : operations d !! id = None) (Hev : outbox d !! ev = None).
Context (Hcs : creds_ok (<[k := bump c1]> (credentials d))) (Hes : eps_ok (<[k := bump c1]> (credentials d)) es').
Context (Hts : toks_ok (<[k := bump c1]> (credentials d)) ts' (url_idempotency d)).
Context (Hop : current_op (bump c1) (fresh_op id k kind rev alloc (EventID meta) now)).
Context (Hce : forall c, credentials d !! k = Some c -> cred_evolves c c1) (Hte : grows token_evolves (tokens d) ts').

Lemma issued_good : Good d0 (issued now ev meta kind id k rev alloc c1 (set_tokens (fun _ => ts') (set_endpoints (fun _ => es') d))).
Proof.
  pose proof HG as [[[KC KO KB KE KT KR] HC] _]. subst rev.
  assert (0 < c_version c1) as Hpos.
  { assert (credential_checks (bump c1) = true) as H by (eapply (cr_checks _ Hcs); apply lookup_insert_eq).
    unfold credential_checks in H. rewrite !andb_true_iff in H. cbn in H. lia. }
  apply (acc_good_step _ _ _ HG).
  - split; [|exact HC]. split; simpl; try done.
    + by apply ops_ok_advance.
    + apply outs_ok_command; try done. simpl. lia.
    + by apply recs_ok_insert.
  - split; simpl; try (by apply grows_refl); try reflexivity; try (intros; eexists; split; [done|lia]).
    + apply grows_insert. { done. } intros c Hc. eapply cred_evolves_trans; [by apply Hce|]. split; simpl; try done; lia.
    + apply grows_insert; [done|]. intros o Ho. congruence.
    + done.
    + apply grows_insert; [done|]. intros o Ho. congruence.
Qed.
End issue.

(** ** The payment-to-access record *)

Definition upserted (id : string) (fresh : sli_row) (ok : sli_row -> bool) (upd : sli_row -> sli_row) (d d' : db) : Prop :=
  exists r, d' = set_sli (insert id r) d /\ sli_unique id r d = true /\
    match sli d !! id with Some q => ok q = true /\ r = upd q | None => r = fresh end.
Lemma upsert_sli_ok id fresh ok upd what t t' : upsert_sli id fresh ok upd what t = (Ok tt, t') ->
  exists d', upserted id fresh ok upd (working t) d' /\ t' = Txn (durable t) d'.
Proof.
  unfold upsert_sli, require. rewrite run_get. cbv zeta. destruct (sli (working t) !! id) as [q|] eqn:E.
  - destruct (ok q) eqn:Eok; [|done]. destruct (sli_unique id (upd q) (working t)) eqn:Eu; [rewrite run_ret|done].
    intros [= <-]. eexists. split; [|done]. exists (upd q). by rewrite E.
  - destruct (sli_unique id fresh (working t)) eqn:Eu; [rewrite run_ret|done].
    intros [= <-]. eexists. split; [|done]. exists fresh. by rewrite E.
Qed.
Lemma upserted_good d0 d id fresh ok upd d' : Good d0 d -> upserted id fresh ok upd d d' ->
  (forall q, ok q = true -> sli_evolves q (upd q)) -> Good d0 d'.
Proof.
  intros HG (r & -> & _ & Hr) Hs. pose proof HG as [HI _]. apply (acc_good_step _ _ _ HG); [exact HI|].
  split; simpl; try (by apply grows_refl); try reflexivity; try (intros; eexists; split; [done|lia]).
  apply grows_insert; [done|]. intros q Hq. rewrite Hq in Hr. destruct Hr as [Hok ->]. auto.
Qed.
Definition payment_fulfilled (now : Z) (meta : EventMeta) (event : PeriodEvent) (kind : string) : db -> db -> Prop :=
  let f := Some (EventID meta, per_SubscriptionID event, kind, now) in
  upserted (per_SourcePaymentID event) (MkSli (per_UserID event) None None f)
    (fun r => bool_decide (sl_user_id r = per_UserID event) && bool_decide (sl_fulfilled r = None))
    (fun r => MkSli (sl_user_id r) (sl_paid_at r) (sl_payment_event r) f).
Lemma completeSLI_ok now meta event kind t t' : completePaymentAccessSLI now meta event kind t = (Ok tt, t') ->
  exists d', payment_fulfilled now meta event kind (working t) d' /\ t' = Txn (durable t) d'.
Proof.
  unfold completePaymentAccessSLI, require. case_bool_decide; [rewrite run_ret|done]. cbv zeta. apply upsert_sli_ok.
Qed.
Lemma fulfilled_good d0 d now meta event kind d' : Good d0 d -> payment_fulfilled now meta event kind d d' -> Good d0 d'.
Proof.
  intros HG H. eapply upserted_good; [done|exact H|]. intros q [_ Hf%bool_decide_eq_true]%andb_true_iff.
  by split_and!.
Qed.
Definition payment_recorded (meta : EventMeta) (event : PaymentSucceeded) : db -> db -> Prop :=
  upserted (pay_PaymentID event) (MkSli (pay_UserID event) (Some (pay_PaidAt event)) (Some (EventID meta)) None)
    (fun r => bool_decide (sl_user_id r = pay_UserID event) &&
              bool_decide (sl_paid_at r = None \/ sl_paid_at r = Some (pay_PaidAt event)) &&
              bool_decide (sl_payment_event r = None))
    (fun r => MkSli (sl_user_id r) (Some (pay_PaidAt event)) (Some (EventID meta)) (sl_fulfilled r)).

Inductive payment_applied (meta : EventMeta) (event : PaymentSucceeded) (d : db) : db -> Prop :=
  | pya_replay : seen meta d -> payment_applied meta event d d
  | pya_new d' : no_conflict meta d -> inbox_checks (inbox_of meta) = true -> payment_recorded meta event (set_inbox (insert (EventID meta) (inbox_of meta)) d) d' ->
      payment_applied meta event d d'.
Lemma ApplyPaymentSucceeded_ok pick meta event t t' : ApplyPaymentSucceeded pick meta event t = (Ok tt, t') ->
  exists d', payment_applied meta event (working t) d' /\ t' = Txn d' d'.
Proof.
  unfold ApplyPaymentSucceeded. intros (b & t1 & Hi & H)%bind_ok_inv. apply insertInbox_ok in Hi. destruct b; simpl in H.
  - destruct Hi as (Hn & Hck & ->). apply bind_ok_inv in H as ([] & t2 & Hu & H).
    apply upsert_sli_ok in Hu as (d' & Hu & ->). injection H as <-. exists d'. split; [by eapply pya_new|done].
  - destruct Hi as [Hs ->]. injection H as <-. exists (working t). split; [by apply pya_replay|done].
Qed.
Definition payment_meta (meta : EventMeta) : Prop :=
  isLifecycleEvent (EventType meta) = false /\ isOutcomeEvent (EventType meta) = false.
Lemma payment_applied_good d0 d meta event d' : Good d0 d -> payment_meta meta -> payment_applied meta event d d' -> Good d0 d'.
Proof.
  intros HG [H1 H2] [|d1 Hn Hck Hu]; [done|]. pose proof HG as [[HK HC] _].
  assert (Good d0 (set_inbox (insert (EventID meta) (inbox_of meta)) d)) as HG1.
  { apply (acc_good_step _ _ _ HG); [split; [exact HK|]|apply keeps_inbox].
    - by apply (cursors_ok_other _ _ _ (inbox_of meta)).
    - by apply (inbox_fresh _ _ _ (inbox_of meta) HC). }
  eapply upserted_good; [exact HG1|exact Hu|]. intros q. rewrite !andb_true_iff, !bool_decide_eq_true. intros [[_ _] He].
  by split_and!.
Qed.

(** ** Changes of a credential *)

Lemma creds_ok_insert cs c : creds_ok cs -> cs !! c_id c = None -> credential_checks c = true ->
  (forall k x, cs !! k = Some x -> c_subscription_id x = c_subscription_id c -> c_status x = StRevoked) ->
  creds_ok (<[c_id c := c]> cs).
Proof.
  intros [I C U] Hn Hc Hs.
  assert (forall j x, <[c_id c := c]> cs !! j = Some x -> (j = c_id c /\ x = c) \/ (j <> c_id c /\ cs !! j = Some x)) as Hb.
  { intros j x. rewrite lookup_insert. case_decide; [intros [= <-]; by left|by right]. }
  split.
  - intros k x [[-> ->]|[_ Hk]]%Hb; auto.
  - intros k x [[-> ->]|[_ Hk]]%Hb; eauto.
  - intros k k' x x' [[-> ->]|[_ Hk]]%Hb [[-> ->]|[_ Hk']]%Hb E H1 H2; [done|..|by apply (U k k' x x')].
    + by destruct H2; eapply Hs.
    + by destruct H1; eapply Hs.
Qed.
(** A new version: a step of the machine and nothing else. *)
Lemma cred_evolves_step c c1 : cred_identity c1 = cred_identity c -> c_outbox_sequence c1 = c_outbox_sequence c ->
  c_notification_sequence c1 = c_notification_sequence c -> view_step (view c) (view c1) -> cred_evolves c c1.
Proof. intros H1 H2 H3 H4. split; [done|by apply rtc_once|lia|lia]. Qed.
Lemma checks_reason c : credential_checks c = true -> c_reason c = None <-> c_status c <> StRevoking /\ c_status c <> StRevoked.
Proof.
  intros [_ H]%andb_true_iff. destruct (c_reason c).
  - apply andb_true_iff in H as [_ H%bool_decide_eq_true]. naive_solver.
  - apply negb_true_iff, bool_decide_eq_false in H. naive_solver.
Qed.
Definition other_endpoints (k : string) (es : gmap (string * string) endpoint_row) : gmap (string * string) endpoint_row :=
  base.filter (fun kr => fst (fst kr) <> k) es.
Lemma other_endpoints_own k es n : other_endpoints k es !! (k, n) = None.
Proof. unfold other_endpoints. apply map_lookup_filter_None. right. intros e _ H. by apply H. Qed.
Lemma other_endpoints_other k es j n : j <> k -> other_endpoints k es !! (j, n) = es !! (j, n).
Proof.
  intros Hj. unfold other_endpoints. destruct (es !! (j, n)) as [e|] eqn:E.
  - by apply map_lookup_filter_Some.
  - apply map_lookup_filter_None. by left.
Qed.
Lemma eps_ok_cleared cs es k c c' : eps_ok cs es -> cs !! k = Some c -> eps_ok (<[k:=c']> cs) (other_endpoints k es).
Proof.
  intros H Hk. eapply eps_ok_replace; [done|..].
  - intros n e. by rewrite other_endpoints_own.
  - intros j n. apply other_endpoints_other.
Qed.

(** An update of a credential and its tokens that issues nothing. *)
Lemma good_credential d0 d k c c' ts' : Good d0 d -> credentials d !! k = Some c -> cred_identity c' = cred_identity c ->
  c_outbox_sequence c' = c_outbox_sequence c -> c_notification_sequence c' = c_notification_sequence c ->
  rtc view_step (view c) (view c') -> credential_checks c' = true -> (c_status c' <> StRevoked -> c_status c <> StRevoked) ->
  c_version c' = c_version c -> (forall o, current_op c o -> current_op c' o) -> c_allocation_revision c' = c_allocation_revision c ->
  toks_ok (<[k:=c']> (credentials d)) ts' (url_idempotency d) -> grows token_evolves (tokens d) ts' ->
  Good d0 (set_tokens (fun _ => ts') (set_credentials (insert k c') d)).
Proof.
  intros HG Hk Hid Ho Hn Hvs Hchk Hst Hv Hop Ha Ht Hg. pose proof HG as [[[KC KO KB KE KT KR] HC] _].
  pose proof Hid as [= I1 I2 I3 I4 I5 I6]. apply (acc_good_step _ _ _ HG).
  - split; [|exact HC]. split; simpl; try done.
    + by apply (creds_ok_update _ _ c).
    + by apply (ops_ok_frame _ _ c).
    + by apply (outs_ok_frame _ _ c).
    + by apply (eps_ok_frame _ _ c).
  - split; simpl; try (by apply grows_refl); try reflexivity; try (intros; eexists; split; [done|lia]); [|done].
    apply grows_insert; [done|]. intros x Hx. assert (x = c) as -> by congruence. split; try done; lia.
Qed.
(** The preparation leaves the tables of the credentials alone. *)
Lemma life_core meta s u d b d1 : life_prepared meta s u d b d1 -> credentials d1 = credentials d /\ endpoints d1 = endpoints d /\
  operations d1 = operations d /\ tokens d1 = tokens d /\ url_idempotency d1 = url_idempotency d /\ outbox d1 = outbox d /\ sli d1 = sli d.
Proof. by intros []. Qed.
Lemma current_life meta s u d b d1 s' : life_prepared meta s u d b d1 -> current_credential s' d1 = current_credential s' d.
Proof. intros H%life_core. unfold current_credential. by destruct H as (-> & _). Qed.
