(* ===== verification/AccessLifecycle.v ===== *)
(** * access-service: events of a subscription

    What periods, the end of a subscription, subscription URLs and
    administrative recovery do to the store. *)

From Stdlib Require Import List.
From S2P Require Import Prelude GoStrings Platform AccessDomain AccessStore AccessInv AccessSteps.

(** ** Periods *)

Definition activated (now : Z) (ev : string) (meta : EventMeta) (event : PeriodEvent) (seed : CredentialSeed) : db -> db :=
  issued now ev meta Provision (cs_OperationID seed) (cs_CredentialID seed) 1 None (new_credential now event seed).
Definition restarted_cred (grace : Z) (c : credential_row) : credential_row :=
  set_cred StProvisioning (c_version c + 1) (Z.max (c_expires_at c) grace) None None 0 c.
Definition restarted (now : Z) (ev : string) (meta : EventMeta) (id : string) (grace : Z) (c : credential_row) (d : db) : db :=
  issued now ev meta Provision id (c_id c) (c_version c + 1) None (restarted_cred grace c)
    (set_endpoints (other_endpoints (c_id c)) d).
Definition extended_cred (grace : Z) (c : credential_row) : credential_row :=
  set_cred (c_status c) (c_version c) (Z.max (c_expires_at c) grace) (c_revoked_at c) (c_reason c) (c_allocation_revision c) c.
Definition extended (grace : Z) (c : credential_row) (d : db) : db :=
  set_tokens (with_tokens (c_id c) (extend_token grace)) (set_credentials (insert (c_id c) (extended_cred grace c)) d).
Definition can_restart (s : CredStatus) : Prop := s = StRevoking \/ s = StFailed.

Inductive period_applied (now : Z) (ev : string) (meta : EventMeta) (event : PeriodEvent) (seed : CredentialSeed) (d : db)
    : db -> Prop :=
  | pa_replay d1 : life_prepared meta (per_SubscriptionID event) (per_UserID event) d false d1 ->
      period_applied now ev meta event seed d d1
  | pa_elapsed d1 : life_prepared meta (per_SubscriptionID event) (per_UserID event) d true d1 ->
      per_GraceEndsAt event <= now -> period_applied now ev meta event seed d d1
  | pa_activated d1 d' : life_prepared meta (per_SubscriptionID event) (per_UserID event) d true d1 ->
      now < per_GraceEndsAt event -> current_credential (per_SubscriptionID event) d = None ->
      credentials d !! cs_CredentialID seed = None -> operations d !! cs_OperationID seed = None -> outbox d !! ev = None ->
      credential_checks (new_credential now event seed) = true ->
      payment_fulfilled now meta event "activation" (activated now ev meta event seed d1) d' ->
      period_applied now ev meta event seed d d'
  | pa_restarted d1 c d' : life_prepared meta (per_SubscriptionID event) (per_UserID event) d true d1 ->
      now < per_GraceEndsAt event -> current_credential (per_SubscriptionID event) d = Some c ->
      c_user_id c = per_UserID event -> can_restart (c_status c) ->
      operations d !! cs_OperationID seed = None -> outbox d !! ev = None ->
      credential_checks (restarted_cred (per_GraceEndsAt event) c) = true ->
      payment_fulfilled now meta event "extension"
        (restarted now ev meta (cs_OperationID seed) (per_GraceEndsAt event) c d1) d' ->
      period_applied now ev meta event seed d d'
  | pa_extended d1 c d' : life_prepared meta (per_SubscriptionID event) (per_UserID event) d true d1 ->
      now < per_GraceEndsAt event -> current_credential (per_SubscriptionID event) d = Some c ->
      c_user_id c = per_UserID event -> ~ can_restart (c_status c) ->
      payment_fulfilled now meta event "extension" (extended (per_GraceEndsAt event) c d1) d' ->
      period_applied now ev meta event seed d d'.

Lemma ApplyPeriod_ok now pick ev meta event seed t t' : Inv (working t) -> lifecycle_meta meta (per_SubscriptionID event) ->
  ApplyPeriod now pick ev meta event seed t = (Ok tt, t') ->
  exists d', period_applied now ev meta event seed (working t) d' /\ t' = Txn d' d'.
Proof.
  intros HI Hm. unfold ApplyPeriod. intros (b & t1 & (d1 & Hp & ->)%prepareLifecycle_ok & H)%bind_ok_inv.
  destruct b; simpl in H; [|injection H as <-; exists d1; split; [by apply pa_replay|done]].
  destruct (Z.leb_spec (per_GraceEndsAt event) now) as [Hg|Hg].
  { injection H as <-. exists d1. split; [by apply pa_elapsed|done]. }
  pose proof (life_core _ _ _ _ _ _ Hp) as (Ec & _ & Eo & _ & _ & Eb & _).
  assert (Good (working t) d1) as [HI1 _] by (eapply life_prepared_good; [split; [done|apply keeps_refl]|done..]).
  rewrite run_get in H. cbn [working] in H. rewrite (current_life _ _ _ _ _ _ _ Hp) in H.
  destruct (current_credential (per_SubscriptionID event) (working t)) as [c|] eqn:Ecur.
  - assert (current_credential (per_SubscriptionID event) d1 = Some c) as Ecur1 by (by rewrite (current_life _ _ _ _ _ _ _ Hp)).
    pose proof (current_credential_Some _ _ _ HI1 Ecur1) as (Hk & Hsub & Hnr).
    unfold require in H. case_bool_decide as Eu; [rewrite run_ret in H|done].
    apply bind_ok_inv in H as ([] & t2 & H1 & H). apply bind_ok_inv in H as ([] & t3 & H2 & H). injection H as <-.
    apply completeSLI_ok in H2 as (d' & Hf & ->). exists d'. split; [|done]. case_bool_decide as Est.
    + tx_inv H1. destruct v. apply update_credential_ok in Hs as [[Hn _]|(c0 & Hc0 & Hchk & ->)]; [cbn in Hn; congruence|].
      cbn [working] in Hc0.
      assert (c0 = c) as -> by congruence. unfold delete_endpoints in H1. rewrite run_modify in H1.
      apply bind_ok_inv in H1 as ([] & t4 & H3 & H4).
      destruct (issue_ok now ev meta Provision _ _ _ _ _ _ _ _ (lookup_insert_eq _ _ _) H3 H4) as (Hid & Hev & ->).
      cbn in Hid, Hev. eapply pa_restarted; try done; try congruence.
      match goal with |- payment_fulfilled _ _ _ _ ?x _ => match type of Hf with payment_fulfilled _ _ _ _ ?y _ => assert (x = y) as ->; [|exact Hf] end end.
      same_db.
    + tx_inv H1. destruct v. apply update_credential_ok in Hs as [[Hn _]|(c0 & Hc0 & Hchk & ->)]; [cbn in Hn; congruence|].
      cbn [working] in Hc0.
      assert (c0 = c) as -> by congruence. unfold tokens_where, modify in H1. injection H1 as <-. cbn in Hf.
      eapply pa_extended; try done.
  - tx_inv H. destruct v. apply insert_credential_ok in Hs as (Hn & Hchk & ->). cbn in Hn.
    apply bind_ok_inv in H as ([] & t2 & H1 & H). apply bind_ok_inv in H as ([] & t3 & H2 & H).
    apply bind_ok_inv in H as ([] & t4 & H3 & H). injection H as <-. apply completeSLI_ok in H3 as (d' & Hf & ->).
    destruct (issue_ok now ev meta Provision _ _ _ _ _ _ _ _ (lookup_insert_eq _ _ _) H1 H2) as (Hid & Hev & ->).
    cbn in Hid, Hev. exists d'. split; [|done]. eapply pa_activated; try done; try congruence.
    match goal with |- payment_fulfilled _ _ _ _ ?x _ => match type of Hf with payment_fulfilled _ _ _ _ ?y _ => assert (x = y) as ->; [|exact Hf] end end.
    same_db.
Qed.

Lemma good_activated d0 d now ev meta event seed : Good d0 d -> credentials d !! cs_CredentialID seed = None ->
  operations d !! cs_OperationID seed = None -> outbox d !! ev = None ->
  credential_checks (new_credential now event seed) = true -> current_credential (per_SubscriptionID event) d = None ->
  Good d0 (activated now ev meta event seed d).
Proof.
  intros HG Hn Hid Hev Hchk Hcur. pose proof HG as [[[KC KO KB KE KT KR] HC] _].
  apply (issued_good d0 d HG now ev meta Provision (cs_OperationID seed) (cs_CredentialID seed) 1 None
           (new_credential now event seed) (endpoints d) (tokens d)); try done; rewrite ?Hn; try done.
  - apply (creds_ok_insert _ (bump (new_credential now event seed))); [done|done|done|].
    intros k x Hk. by apply (current_credential_None _ _ Hcur k x).
  - intros k n e Hk. destruct (KE k n e Hk) as (? & ? & x & Hx & ?). split_and!; [done|done|]. exists x.
    rewrite lookup_insert_ne by congruence. done.
  - by apply toks_ok_new.
  - by apply grows_refl.
Qed.
Lemma good_restarted d0 d now ev meta id grace c : Good d0 d -> credentials d !! c_id c = Some c -> can_restart (c_status c) ->
  operations d !! id = None -> outbox d !! ev = None -> credential_checks (restarted_cred grace c) = true ->
  Good d0 (restarted now ev meta id grace c d).
Proof.
  intros HG Hk Hst Hid Hev Hchk. pose proof HG as [[[KC KO KB KE KT KR] HC] _].
  apply (issued_good d0 d HG now ev meta Provision id (c_id c) (c_version c + 1) None (restarted_cred grace c)
           (other_endpoints (c_id c) (endpoints d)) (tokens d)); try done; rewrite ?Hk; try done.
  - apply (creds_ok_update _ _ c (bump (restarted_cred grace c))); try done. intros _. by destruct Hst as [-> | ->].
  - by eapply eps_ok_cleared.
  - eapply toks_ok_silent; [done|done|done|]. unfold ready_status. rewrite bool_decide_false; [done|]. intros [E|E]; by destruct Hst; congruence.
  - intros x [= <-]. apply cred_evolves_step; try done. apply vs_restart; [done|simpl; lia].
  - by apply grows_refl.
Qed.

Lemma good_extended d0 d grace c : Good d0 d -> credentials d !! c_id c = Some c -> ~ can_restart (c_status c) ->
  c_status c <> StRevoked -> Good d0 (extended grace c d).
Proof.
  intros HG Hk Hst Hnr. pose proof HG as [[[KC KO KB KE KT KR] HC] _].
  apply (good_credential d0 d (c_id c) c); try done.
  - apply rtc_once, vs_extend; [|simpl; lia]. revert Hst Hnr. unfold can_restart. simpl. destruct (c_status c); naive_solver.
  - by apply (cr_checks _ KC) in Hk.
  - by eapply toks_ok_extend.
  - apply grows_pointwise, with_tokens_evolves, extend_token_evolves.
Qed.

Lemma period_applied_good d0 d now ev meta event seed d' : Good d0 d -> lifecycle_meta meta (per_SubscriptionID event) ->
  period_applied now ev meta event seed d d' -> Good d0 d'.
Proof.
  intros HG Hm H. destruct H as [d1 Hp|d1 Hp|d1 d' Hp _ Hcur Hn Hid Hev Hchk Hf|d1 c d' Hp _ Hcur Hu Hst Hid Hev Hchk Hf|d1 c d' Hp _ Hcur Hu Hst Hf];
    pose proof (life_prepared_good _ _ _ _ _ _ _ HG Hm Hp) as HG1; pose proof (life_core _ _ _ _ _ _ Hp) as (Ec & _ & Eo & _ & _ & Eb & _);
    try done; (eapply fulfilled_good; [|exact Hf]).
  - apply good_activated; try congruence. by rewrite (current_life _ _ _ _ _ _ _ Hp).
  - pose proof (current_credential_Some _ _ _ (proj1 HG) Hcur) as (Hk & _). apply good_restarted; try congruence; done.
  - pose proof (current_credential_Some _ _ _ (proj1 HG) Hcur) as (Hk & _ & Hnr). apply good_extended; try congruence; done.
Qed.

(** ** The end of a subscription *)

Definition revoking_cred (reason : string) (c : credential_row) : credential_row :=
  set_cred StRevoking (c_version c + 1) (c_expires_at c) (c_revoked_at c) (Some reason) (c_allocation_revision c) c.
Definition revoking (now : Z) (ev : string) (meta : EventMeta) (id reason : string) (st : TokenStatus) (c : credential_row) (d : db) : db :=
  issued now ev meta Revoke id (c_id c) (c_version c + 1) (Some (c_allocation_revision c)) (revoking_cred reason c)
    (set_tokens (with_tokens (c_id c) (end_token st now)) d).
(** An expiry that is overtaken by a longer entitlement. *)
Definition premature (meta : EventMeta) (event : TerminalEvent) (c : credential_row) : bool :=
  bool_decide (EventType meta = "subscription.expired.v1"%string) && (te_EffectiveAt event <? c_expires_at c).

Inductive terminal_applied (now : Z) (ev : string) (meta : EventMeta) (event : TerminalEvent) (id : string) (d : db) : db -> Prop :=
  | ta_replay d1 : life_prepared meta (te_SubscriptionID event) (te_UserID event) d false d1 ->
      terminal_applied now ev meta event id d d1
  | ta_absent d1 : life_prepared meta (te_SubscriptionID event) (te_UserID event) d true d1 ->
      current_credential (te_SubscriptionID event) d = None -> terminal_applied now ev meta event id d d1
  | ta_ignored d1 c : life_prepared meta (te_SubscriptionID event) (te_UserID event) d true d1 ->
      current_credential (te_SubscriptionID event) d = Some c -> premature meta event c = true \/ c_status c = StRevoking ->
      terminal_applied now ev meta event id d d1
  | ta_revoking d1 c : life_prepared meta (te_SubscriptionID event) (te_UserID event) d true d1 ->
      current_credential (te_SubscriptionID event) d = Some c -> premature meta event c = false -> c_status c <> StRevoking ->
      operations d !! id = None -> outbox d !! ev = None -> credential_checks (revoking_cred (te_Reason event) c) = true ->
      terminal_applied now ev meta event id d (revoking now ev meta id (te_Reason event) TkRevoked c d1).

Lemma ApplyTerminal_ok now pick ev meta event id t t' : Inv (working t) -> lifecycle_meta meta (te_SubscriptionID event) ->
  ApplyTerminal now pick ev meta event id t = (Ok tt, t') ->
  exists d', terminal_applied now ev meta event id (working t) d' /\ t' = Txn d' d'.
Proof.
  intros HI Hm. unfold ApplyTerminal. intros (b & t1 & (d1 & Hp & ->)%prepareLifecycle_ok & H)%bind_ok_inv.
  destruct b; simpl in H; [|injection H as <-; exists d1; split; [by apply ta_replay|done]].
  pose proof (life_core _ _ _ _ _ _ Hp) as (Ec & _ & Eo & _ & _ & Eb & _).
  assert (Good (working t) d1) as [HI1 _] by (eapply life_prepared_good; [split; [done|apply keeps_refl]|done..]).
  rewrite run_get in H. cbn [working] in H. rewrite (current_life _ _ _ _ _ _ _ Hp) in H.
  destruct (current_credential (te_SubscriptionID event) (working t)) as [c|] eqn:Ecur.
  2: { injection H as <-. exists d1. split; [by apply ta_absent|done]. }
  assert (current_credential (te_SubscriptionID event) d1 = Some c) as Ecur1 by (by rewrite (current_life _ _ _ _ _ _ _ Hp)).
  pose proof (current_credential_Some _ _ _ HI1 Ecur1) as (Hk & Hsub & Hnr).
  fold (premature meta event c) in H. destruct (premature meta event c) eqn:Epre.
  { injection H as <-. exists d1. split; [eapply ta_ignored; eauto|done]. }
  destruct (bool_decide (c_status c = StRevoking)) eqn:Est; [apply bool_decide_eq_true in Est|apply bool_decide_eq_false in Est].
  { injection H as <-. exists d1. split; [eapply ta_ignored; eauto|done]. }
  tx_inv H. destruct v. apply update_credential_ok in Hs as [[Hn _]|(c0 & Hc0 & Hchk & ->)]; [cbn in Hn; congruence|].
  cbn [working] in Hc0. assert (c0 = c) as -> by congruence. unfold tokens_where in H. rewrite run_modify in H.
  apply bind_ok_inv in H as ([] & t2 & H1 & H). apply bind_ok_inv in H as ([] & t3 & H2 & H). injection H as <-.
  destruct (issue_ok now ev meta Revoke _ _ _ _ _ _ _ _ (lookup_insert_eq _ _ _) H1 H2) as (Hid & Hev & ->).
  cbn in Hid, Hev. eexists. split; [eapply ta_revoking; try done; congruence|].
  f_equal; same_db.
Qed.

Lemma good_revoking d0 d now ev meta id reason st c : st <> TkActive -> Good d0 d -> credentials d !! c_id c = Some c ->
  c_status c <> StRevoking -> c_status c <> StRevoked -> operations d !! id = None -> outbox d !! ev = None ->
  credential_checks (revoking_cred reason c) = true -> Good d0 (revoking now ev meta id reason st c d).
Proof.
  intros Htk HG Hk Hst Hnr Hid Hev Hchk. pose proof HG as [[[KC KO KB KE KT KR] HC] _].
  apply (issued_good d0 d HG now ev meta Revoke id (c_id c) (c_version c + 1) (Some (c_allocation_revision c))
           (revoking_cred reason c) (endpoints d) (with_tokens (c_id c) (end_token st now) (tokens d)));
    try done; rewrite ?Hk; try done.
  - apply (creds_ok_update _ _ c (bump (revoking_cred reason c))); done.
  - by apply (eps_ok_frame _ _ c).
  - by eapply toks_ok_end.
  - split; [done|]. simpl. split_and!; [done|done|]. destruct (op_current _ _ KO _ _ Hk) as (ko & o & _ & _ & _ & _ & Hcur).
    pose proof (cr_checks _ KC _ _ Hk) as Hc. unfold credential_checks in Hc. rewrite !andb_true_iff in Hc.
    destruct (c_status c); try done; lia.
  - intros x [= <-]. by apply cred_evolves_step; try done; apply vs_revoke.
  - apply grows_pointwise, with_tokens_evolves. intros t. apply end_token_evolves.
Qed.
Lemma terminal_applied_good d0 d now ev meta event id d' : Good d0 d -> lifecycle_meta meta (te_SubscriptionID event) ->
  terminal_applied now ev meta event id d d' -> Good d0 d'.
Proof.
  intros HG Hm H. destruct H as [d1 Hp|d1 Hp|d1 c Hp|d1 c Hp Hcur _ Hst Hid Hev Hchk];
    pose proof (life_prepared_good _ _ _ _ _ _ _ HG Hm Hp) as HG1; try done.
  pose proof (life_core _ _ _ _ _ _ Hp) as (Ec & _ & Eo & _ & _ & Eb & _).
  pose proof (current_credential_Some _ _ _ (proj1 HG) Hcur) as (Hk & _ & Hnr). apply good_revoking; try congruence; done.
Qed.

(** ** Administrative recovery *)

Definition recovered_cred (c : credential_row) : credential_row :=
  set_cred StProvisioning (c_version c + 1) (c_expires_at c) None None 0 c.
Definition recovery_row_of (input : AdminRecoveryInput) (c : credential_row) : recovery_row :=
  MkRecovery (ri_RequestSHA256 input) (ri_ActionID input) (ri_CorrelationID input) (ri_CredentialID input)
    (ri_OperationID input) (c_version c + 1).
Definition recovered (now : Z) (ev : string) (input : AdminRecoveryInput) (c : credential_row) (d : db) : db :=
  set_recoveries (insert (ri_IdempotencyKey input) (recovery_row_of input c))
    (issued now ev (recovery_meta input) Provision (ri_OperationID input) (ri_CredentialID input) (c_version c + 1) None
       (recovered_cred c) (set_endpoints (other_endpoints (ri_CredentialID input)) d)).
Inductive recovery_done (now : Z) (ev : string) (input : AdminRecoveryInput) (d : db) : AdminRecoveryResult -> db -> Prop :=
  | rd_replay row : recoveries d !! ri_IdempotencyKey input = Some row -> rc_request_sha256 row = ri_RequestSHA256 input ->
      rc_credential_id row = ri_CredentialID input ->
      recovery_done now ev input d (MkRecoveryResult (rc_credential_id row) (rc_operation_id row) (rc_revision row) "provisioning" true) d
  | rd_new c : recoveries d !! ri_IdempotencyKey input = None -> credentials d !! ri_CredentialID input = Some c ->
      c_status c = StFailed -> now < c_expires_at c -> operations d !! ri_OperationID input = None -> outbox d !! ev = None ->
      credential_checks (recovered_cred c) = true ->
      recovery_done now ev input d
        (MkRecoveryResult (ri_CredentialID input) (ri_OperationID input) (c_version c + 1) "provisioning" false)
        (recovered now ev input c d).
Lemma insert_recovery_ok key row t t' : insert_recovery key row t = (Ok tt, t') ->
  recoveries (working t) !! key = None /\ t' = Txn (durable t) (set_recoveries (insert key row) (working t)).
Proof.
  unfold insert_recovery, require. rewrite run_get. destruct (_ && _) eqn:E; [rewrite run_ret|done].
  rewrite !andb_true_iff, bool_decide_eq_true in E. destruct E as [[_ E] _]. by intros [= <-].
Qed.
Lemma RecoverProvisioning_ok now ev input t r t' : Inv (working t) -> RecoverProvisioning now ev input t = (Ok r, t') ->
  exists d', recovery_done now ev input (working t) r d' /\ t' = Txn d' d'.
Proof.
  intros HI. unfold RecoverProvisioning. rewrite run_get. destruct (recoveries (working t) !! _) as [row|] eqn:Er.
  { unfold require. destruct (_ && _) eqn:E; [|done]. rewrite !andb_true_iff, !bool_decide_eq_true in E. destruct E as [E1 E2].
    intros [= <- <-]. exists (working t). split; [by eapply rd_replay|done]. }
  destruct (credentials (working t) !! ri_CredentialID input) as [c|] eqn:Ec; [|done]. unfold need. rewrite run_ret.
  unfold require. destruct (_ && _) eqn:E; [rewrite run_ret|done]. rewrite andb_true_iff, bool_decide_eq_true in E. destruct E as [E1 E2].
  cbv zeta. intros H. tx_inv H. destruct v. apply update_credential_ok in Hs as [[Hn _]|(c0 & Hc0 & Hchk & ->)]; [congruence|].
  assert (c0 = c) as -> by congruence. unfold delete_endpoints in H. rewrite run_modify in H.
  apply bind_ok_inv in H as ([] & t2 & H1 & H). apply bind_ok_inv in H as ([] & t3 & H2 & H).
  apply bind_ok_inv in H as ([] & t4 & H3 & H). injection H as <- <-.
  destruct (issue_ok now ev (recovery_meta input) Provision _ _ _ _ _ _ _ _ (lookup_insert_eq _ _ _) H1 H2) as (Hid & Hev & ->).
  apply insert_recovery_ok in H3 as [_ ->]. cbn in Hid, Hev. eexists. split; [eapply rd_new; try done; lia|].
  f_equal; same_db.
Qed.
Lemma recovery_done_good d0 d now ev input r d' : Good d0 d -> recovery_done now ev input d r d' -> Good d0 d'.
Proof.
  intros HG [row ? _ _|c Hr Hk Hst Hexp Hid Hev Hchk]; [done|]. pose proof HG as [[[KC KO KB KE KT KR] HC] _].
  pose proof (cr_id _ KC _ _ Hk) as Eid. rewrite <- Eid in Hk.
  assert (Good d0 (issued now ev (recovery_meta input) Provision (ri_OperationID input) (ri_CredentialID input) (c_version c + 1) None
       (recovered_cred c) (set_endpoints (other_endpoints (ri_CredentialID input)) d))) as HG1.
  { rewrite <- Eid.
    apply (issued_good d0 d HG now ev (recovery_meta input) Provision (ri_OperationID input) (c_id c) (c_version c + 1) None
             (recovered_cred c) (other_endpoints (c_id c) (endpoints d)) (tokens d)); try done; rewrite ?Hk; try done.
    - apply (creds_ok_update _ _ c (bump (recovered_cred c))); try done. intros _. by rewrite Hst.
    - by eapply eps_ok_cleared.
    - eapply toks_ok_silent; [done|done|done|]. unfold ready_status. rewrite bool_decide_false; [done|]. rewrite Hst. naive_solver.
    - intros x [= <-]. apply cred_evolves_step; try done. apply vs_restart; [by right|simpl; lia].
    - by apply grows_refl. }
  apply (acc_good_step _ _ _ HG1).
  - destruct HG1 as [[[KC1 KO1 KB1 KE1 KT1 KR1] HC1] _]. split; [|exact HC1]. split; try done. intros k row. simpl.
    rewrite lookup_insert. case_decide; [|apply KR1]. intros [= <-]. eexists. simpl. split; [apply lookup_insert_eq|done].
  - split; simpl; try (by apply grows_refl); try reflexivity; try (intros; eexists; split; [done|lia]). by apply insert_subseteq.
Qed.

(** ** Subscription URLs *)

Definition issued_token (now : Z) (seed : TokenSeed) (c : credential_row) (previous : option token_row) : token_row :=
  MkToken (ts_TokenID seed) (c_id c) (ts_LookupHMAC seed) (ts_LookupHMACVersion seed) TkActive (c_expires_at c)
    (t_id <$> previous) None None now.
Definition url_row_of (subscriptionID operation : string) (seed : TokenSeed) : url_row :=
  MkUrlRow subscriptionID operation (ts_RequestSHA256 seed) (ts_TokenID seed).
Definition rotated (now : Z) (previous : option token_row) (ts : table token_row) : table token_row :=
  match previous with Some t => alter (end_token TkRotated now) (t_id t) ts | None => ts end.
Definition url_issued (now : Z) (subscriptionID operation : string) (seed : TokenSeed) (c : credential_row)
    (previous : option token_row) (d : db) : db :=
  set_urls (insert (ts_IdempotencyKey seed) (url_row_of subscriptionID operation seed))
    (set_tokens (fun ts => <[ts_TokenID seed := issued_token now seed c previous]> (rotated now previous ts)) d).
(** The new token does not collide with those there. *)
Definition token_fresh (t : token_row) (ts : table token_row) : Prop := ts !! t_id t = None /\ forall k q, ts !! k = Some q ->
  t_hmac q <> t_hmac t /\ (t_credential_id q = t_credential_id t -> t_status q <> TkActive).
Inductive token_issued (now : Z) (sub operation : string) (seed : TokenSeed) (d : db) : db -> Prop :=
  | ti_done c previous : url_idempotency d !! ts_IdempotencyKey seed = None -> current_credential sub d = Some c ->
      ready_status (c_status c) = true -> now < c_expires_at c -> active_token (c_id c) d = previous ->
      (if bool_decide (operation = "issue"%string) then previous = None else previous <> None) ->
      token_fresh (issued_token now seed c previous) (rotated now previous (tokens d)) ->
      token_issued now sub operation seed d (url_issued now sub operation seed c previous d).

Lemma insert_token_ok tok t t' : insert_token tok t = (Ok tt, t') ->
  token_fresh tok (tokens (working t)) /\ t' = Txn (durable t) (set_tokens (insert (t_id tok) tok) (working t)).
Proof.
  unfold insert_token, require. rewrite run_get. destruct (_ && _) eqn:E; [rewrite run_ret|done].
  rewrite !andb_true_iff, bool_decide_eq_true, negb_true_iff in E. destruct E as [[_ E] Hn]. intros [= <-]. split; [|done].
  split; [done|]. intros k q Hk. pose proof (proj1 (exists_row_false _ _) Hn k q Hk) as H. apply bool_decide_eq_false in H. naive_solver.
Qed.
Lemma insert_url_ok key sub operation hash tok t t' : insert_url key sub operation hash tok t = (Ok tt, t') ->
  url_idempotency (working t) !! key = None /\
  t' = Txn (durable t) (set_urls (insert key (MkUrlRow sub operation hash tok)) (working t)).
Proof.
  unfold insert_url, require. rewrite run_get. destruct (_ && _) eqn:E; [rewrite run_ret|done].
  rewrite !andb_true_iff, !bool_decide_eq_true in E. destruct E as [_ E]. by intros [= <-].
Qed.
Lemma IssueToken_ok now sub operation seed t t' : IssueToken now sub operation seed t = (Ok tt, t') ->
  exists d', token_issued now sub operation seed (working t) d' /\ t' = Txn d' d'.
Proof.
  unfold IssueToken. rewrite run_get. destruct (url_idempotency (working t) !! _) as [u|] eqn:Eu; [done|].
  destruct (current_credential sub (working t)) as [c|] eqn:Ec; [|done]. unfold need at 1. rewrite run_ret.
  unfold require at 1. destruct (_ && _) eqn:E; [rewrite run_ret|done]. apply andb_true_iff in E as [E1 E2]. cbv zeta.
  set (previous := active_token (c_id c) (working t)). intros (v & t1 & H1 & H)%bind_ok_inv.
  assert (t1 = Txn (durable t) (set_tokens (rotated now previous) (working t)) /\
    (if bool_decide (operation = "issue"%string) then previous = None else previous <> None)) as [-> Hprev].
  { unfold require in H1. destruct (bool_decide (operation = _)).
    - destruct (bool_decide (previous = None)) eqn:Ep; [|done]. apply bool_decide_eq_true in Ep. injection H1 as _ <-.
      rewrite Ep. split; [|done]. destruct t as [du w]. cbn. f_equal. by destruct w.
    - destruct previous as [tok|]; [|done]. unfold need in H1. rewrite run_ret in H1. by injection H1 as _ <-. }
  apply bind_ok_inv in H as ([] & t2 & H2 & H). apply bind_ok_inv in H as ([] & t3 & H3 & H). injection H as <-.
  apply insert_token_ok in H2 as [Hf ->]. apply insert_url_ok in H3 as [_ ->].
  eexists. split; [eapply ti_done; try done; lia|]. f_equal; same_db.
Qed.

Lemma active_token_Some k d tok : Inv d -> active_token k d = Some tok ->
  tokens d !! t_id tok = Some tok /\ t_credential_id tok = k /\ t_status tok = TkActive.
Proof.
  intros HI. unfold active_token. intros [H (j & Hj)]%where_head_Some.
  apply andb_true_iff in H as [H1%bool_decide_eq_true H2%bool_decide_eq_true].
  by rewrite (tk_key _ _ _ (k_toks _ _ _ _ _ _ _ (proj1 HI)) _ _ Hj).
Qed.
Lemma rotated_evolves now d k : Inv d -> pointwise token_evolves (tokens d) (rotated now (active_token k d) (tokens d)).
Proof.
  intros HI. unfold rotated. destruct (active_token k d) as [tok|] eqn:E; [|by apply pointwise_refl].
  apply active_token_Some in E as (Hk & _ & Hs); [|done]. apply pointwise_alter; [done|]. intros x Hx.
  assert (x = tok) as -> by congruence. by apply end_token_evolves.
Qed.
Lemma rotated_lookup now previous ts k q : rotated now previous ts !! k = Some q ->
  exists q0, ts !! k = Some q0 /\ (q = q0 \/ q = end_token TkRotated now q0).
Proof. destruct previous as [p|]; simpl; [|eauto]. intros (q0 & Hq & ->)%alter_Some. exists q0. split; [done|]. case_decide; auto. Qed.
Lemma token_issued_good d0 d now sub operation seed d' : Good d0 d -> token_issued now sub operation seed d d' -> Good d0 d'.
Proof.
  intros HG [c previous Hu Hcur Hr Hexp Hprev Hop [Hf Hn]]. pose proof HG as [[[KC KO KB KE KT KR] HC] _].
  pose proof (current_credential_Some _ _ _ (proj1 HG) Hcur) as (Hk & Hsub & Hnr).
  assert (pointwise token_evolves (tokens d) (rotated now previous (tokens d))) as Hp
    by (subst previous; apply rotated_evolves, (proj1 HG)).
  assert (toks_ok (credentials d) (rotated now previous (tokens d)) (url_idempotency d)) as HT.
  { eapply toks_ok_evolve; [exact KT|exact Hp|eauto|]. intros k t t' x x' Ht Ht' Hx Hx' Hs H.
    assert (x' = x) as -> by congruence. destruct (rotated_lookup _ _ _ _ _ Ht') as (t0 & Ht0 & Et). assert (t0 = t) as -> by congruence.
    destruct Et as [-> | ->]; [by apply H|done]. }
  apply (acc_good_step _ _ _ HG).
  - split; [|exact HC]. split; try done. eapply toks_ok_url.
    + apply (toks_ok_insert _ _ _ (issued_token now seed c previous) c); try done.
    + apply lookup_insert_eq.
    + exact Hk.
    + done.
  - split; simpl; try (by apply grows_refl); try reflexivity; try (intros; eexists; split; [done|lia]).
    + eapply grows_trans; [apply token_evolves_trans|by apply grows_pointwise|]. apply grows_insert; [done|].
      intros q Hq. simpl in Hf. congruence.
    + by apply insert_subseteq.
Qed.
