(* ===== verification/AccessOutcomes.v ===== *)
(** * access-service: outcomes of provisioning

    What the answers of provisioning-service do to the store. *)

From Stdlib Require Import List.
From S2P Require Import Prelude GoStrings Platform AccessDomain AccessStore AccessInv AccessSteps AccessLifecycle.

(** ** An operation ends *)

Section conclude.
Context (d0 d : db) (HG : Good d0 d) (k : string) (c c2 : credential_row) (id : string) (o o' : operation_row).
Context (es' : gmap (string * string) endpoint_row) (as' : gset (string * Z * string)) (out' : table outbox_row).
Context (Hk : credentials d !! k = Some c) (Hid : operations d !! id = Some o) (Eo : op_credential_id o = k).
Context (Ho : op_evolves o o') (Hce : cred_evolves c c2) (Hv : c_version c2 = c_version c).
Context (Hchk : credential_checks c2 = true) (Hst : c_status c2 <> StRevoked -> c_status c <> StRevoked).
Context (Hcur : op_revision o = c_version c -> current_op c2 o').
Context (Hoth : op_revision o <> c_version c -> forall x, current_op c x -> current_op c2 x).
Context (Hes : eps_ok (<[k:=c2]> (credentials d)) es').
Context (Hready : ready_status (c_status c) = true -> ready_status (c_status c2) = true /\ c_expires_at c2 = c_expires_at c).
Context (Hob : outs_ok (<[k:=c2]> (credentials d)) (operations d) out') (Hgb : grows row_evolves (outbox d) out').

Lemma concluded_good : Good d0 (set_outbox (fun _ => out') (set_operations (insert id o') (set_credentials (insert k c2)
  (set_endpoints (fun _ => es') (set_assignments (fun _ => as') d))))).
Proof.
  pose proof HG as [[[KC KO KB KE KT KR] HC] _]. pose proof (proj1 Ho) as Ei.
  pose proof (ce_identity _ _ Hce) as [= I1 I2 I3 I4 I5 I6]. apply (acc_good_step _ _ _ HG).
  - split; [|exact HC]. split; simpl; try done.
    + by apply (creds_ok_update _ _ c).
    + by apply (ops_ok_conclude _ _ k c c2 id o o').
    + by apply (outs_ok_op_moves _ _ k c c2 id o o' Hk Hid Eo Ei).
    + by eapply toks_ok_silent.
    + by apply (recs_ok_op_moves _ _ k c c2 id o o' Hk Hid Eo Ei).
  - split; simpl; try (by apply grows_refl); try reflexivity; try (intros; eexists; split; [done|lia]); [| |done].
    + apply grows_insert; [done|]. intros x Hx. assert (x = c) as -> by congruence. done.
    + apply grows_insert; [done|]. intros x Hx. assert (x = o) as -> by congruence. done.
Qed.
End conclude.

Definition done_op (now : Z) (o : operation_row) : operation_row :=
  set_op OpSucceeded (op_allocation_revision o) (op_failure_code o) (Some now) o.
Definition failed_op (reason : string) (at_ : Z) (o : operation_row) : operation_row :=
  set_op OpFailed (op_allocation_revision o) (Some reason) (Some at_) o.
Lemma pending_evolves o o' : op_status o = OpPending -> op_identity o' = op_identity o -> op_evolves o o'.
Proof. intros H E. by split. Qed.
Lemma joined_ok k id kind rev d c o : joined k id kind rev d = Ok (c, o) ->
  credentials d !! k = Some c /\ operations d !! id = Some o /\ op_credential_id o = k /\ op_kind o = kind /\ op_revision o = rev.
Proof.
  unfold joined. destruct (int4 rev); simpl; [|done]. destruct (credentials d !! k) as [x|]; [|done].
  destruct (operations d !! id) as [y|]; [|done]. destruct (_ && _) eqn:E; [|done].
  rewrite !andb_true_iff, !bool_decide_eq_true in E. intros [= <- <-]. destruct E as [[? ?] ?]. split_and!; try done. lia.
Qed.
(** The operation of a credential's current revision. *)
Lemma current_is d k c id o : Inv d -> credentials d !! k = Some c -> operations d !! id = Some o ->
  op_credential_id o = k -> op_revision o = c_version c -> current_op c o.
Proof.
  intros [[KC KO _ _ _ _] _] Hk Hid Eo Er. destruct (op_current _ _ KO _ _ Hk) as (ko & x & Hx & E1 & E2 & Hc).
  assert (ko = id) as -> by (apply (op_unique _ _ KO ko id x o); congruence). by simplify_eq.
Qed.

(** ** Snapshots *)

Record snapshots (event : ProvisionSucceeded) (d : db) (es : gmap (string * string) endpoint_row)
    (asg : gset (string * Z * string)) : Prop := {
  sn_own : forall n e, es !! (ps_CredentialID event, n) = Some e <->
    exists ep, ep ∈ ps_Endpoints event /\ NodeID ep = n /\ e = MkEndpointRow (ps_AppliedRevision event) ep;
  sn_other : forall k n, k <> ps_CredentialID event -> es !! (k, n) = endpoints d !! (k, n);
  sn_positive : ps_Endpoints event <> [] -> 0 < ps_AppliedRevision event;
  sn_roles : forall ep ep', ep ∈ ps_Endpoints event -> ep' ∈ ps_Endpoints event -> Role ep = Role ep' -> ep = ep';
  sn_assigned : forall n, (ps_CredentialID event, ps_AppliedRevision event, n) ∈ asg <-> n ∈ ps_AssignedNodeIDs event;
  sn_assigned_other : forall a n, a <> (ps_CredentialID event, ps_AppliedRevision event) -> (a, n) ∈ asg <-> (a, n) ∈ assignments d;
  sn_checks : forall ep, ep ∈ ps_Endpoints event -> endpoint_checks ep = true
}.
Lemma insert_assignments_ok k rev l t t' : insert_assignments k rev l t = (Ok tt, t') ->
  exists asg, t' = Txn (durable t) (set_assignments (fun _ => asg) (working t)) /\
    forall x, x ∈ asg <-> x ∈ assignments (working t) \/ exists n, n ∈ l /\ x = (k, rev, n).
Proof.
  revert t. induction l as [|n l IH]; intros t; simpl.
  - intros [= <-]. exists (assignments (working t)). split.
    + destruct t as [du w]. cbn. f_equal. by destruct w.
    + intros x. split; [by left|]. intros [H|(n & H & _)]; [done|by apply elem_of_nil in H].
  - rewrite run_get. unfold require. destruct (_ && _); [rewrite run_ret|done]. rewrite run_modify.
    intros (asg & -> & H)%IH. exists asg. split; [done|]. intros x. rewrite H. cbn. setoid_rewrite elem_of_cons.
    rewrite elem_of_union, elem_of_singleton. naive_solver.
Qed.
Definition own_roles (k : string) (es : gmap (string * string) endpoint_row) (role : string) : Prop :=
  exists n e, es !! (k, n) = Some e /\ Role (e_endpoint e) = role.
Lemma insert_endpoints_ok k rev l t t' : insert_endpoints k rev l t = (Ok tt, t') ->
  exists es, t' = Txn (durable t) (set_endpoints (fun _ => es) (working t)) /\
    (forall j n, j <> k -> es !! (j, n) = endpoints (working t) !! (j, n)) /\
    (forall n e, es !! (k, n) = Some e <-> endpoints (working t) !! (k, n) = Some e \/
       exists ep, ep ∈ l /\ NodeID ep = n /\ e = MkEndpointRow rev ep) /\
    (l <> [] -> 0 < rev) /\ (forall ep, ep ∈ l -> endpoint_checks ep = true) /\
    (forall ep, ep ∈ l -> ~ own_roles k (endpoints (working t)) (Role ep)) /\
    (forall ep ep', ep ∈ l -> ep' ∈ l -> Role ep = Role ep' -> ep = ep').
Proof.
  revert t. induction l as [|x l IH]; intros t; simpl.
  - intros [= <-]. exists (endpoints (working t)). split_and!; try done; try (by intros ? ?%elem_of_nil).
    + destruct t as [du w]. cbn. f_equal. by destruct w.
    + intros n e. split; [by left|]. intros [H|(ep & H & _)]; [done|by apply elem_of_nil in H].
    + by intros ? ? ?%elem_of_nil.
  - rewrite run_get. unfold require. destruct (_ && _) eqn:E; [rewrite run_ret|done]. rewrite run_modify.
    rewrite !andb_true_iff, bool_decide_eq_true in E. destruct E as [[[Ec Er] En] Ef].
    assert (~ own_roles k (endpoints (working t)) (Role x)) as Hx.
    { intros (n & e & He & Hr). rewrite forallb_forall in Ef. specialize (Ef ((k, n), e)). simpl in Ef.
      rewrite bool_decide_true in Ef by done. by apply diff_false_true, Ef, list_elem_of_In, elem_of_map_to_list. }
    intros (es & -> & Ho & Hk & _ & Hc & Hf & Hd)%IH. cbn in Ho, Hk, Hf. exists es. split; [done|].
    assert (forall ep, ep ∈ l -> Role ep <> Role x) as Hne.
    { intros ep Hep Eq. apply (Hf ep Hep). exists (NodeID x), (MkEndpointRow rev x). rewrite lookup_insert_eq. by split. }
    split_and!.
    + intros j n Hj. rewrite Ho, lookup_insert_ne; [done|congruence|done].
    + intros n e. rewrite Hk, lookup_insert. setoid_rewrite elem_of_cons. case_decide as Eq.
      * injection Eq as <-. rewrite En. split; [|naive_solver]. intros [[= <-]|(ep & ? & ? & ?)]; [right; by exists x; auto|naive_solver].
      * naive_solver.
    + lia.
    + intros ep [->|Hep]%elem_of_cons; auto.
    + intros ep [->|Hep]%elem_of_cons; [done|]. intros (n & e & He & Hr). apply (Hf ep Hep). exists n, e.
      rewrite lookup_insert_ne; [done|]. intros [= Eq]. subst n. congruence.
    + intros ep ep' [->|H1]%elem_of_cons [->|H2]%elem_of_cons Eq; auto; [by destruct (Hne ep')|by destruct (Hne ep)].
Qed.
Lemma replace_ok event t t' : replaceProvisionSnapshots event t = (Ok tt, t') ->
  exists es asg, snapshots event (working t) es asg /\
    t' = Txn (durable t) (set_endpoints (fun _ => es) (set_assignments (fun _ => asg) (working t))).
Proof.
  unfold replaceProvisionSnapshots. rewrite run_modify. intros ([] & t1 & (asg & -> & Ha)%insert_assignments_ok & H)%bind_ok_inv.
  unfold delete_endpoints in H. rewrite run_modify in H. apply insert_endpoints_ok in H as (es & -> & Ho & Hk & Hpos & Hc & _ & Hd).
  exists es, asg. split; [|done]. cbn in Ha, Ho, Hk. fold (other_endpoints (ps_CredentialID event) (endpoints (working t))) in Ho, Hk.
  split; try done.
  - intros n e. rewrite Hk, other_endpoints_own. naive_solver.
  - intros k n Hne. rewrite Ho by done. by apply other_endpoints_other.
  - intros n. rewrite Ha, elem_of_filter. simpl. naive_solver.
  - intros a n Hne. rewrite Ha, elem_of_filter. simpl. split; [|naive_solver]. intros [[_ H]|(m & _ & [= -> _])]; done.
Qed.
Lemma snapshots_eps event d es asg cs k c c2 : snapshots event d es asg -> eps_ok cs (endpoints d) -> cs !! k = Some c ->
  ps_CredentialID event = k -> c_allocation_revision c2 = ps_AppliedRevision event -> eps_ok (<[k:=c2]> cs) es.
Proof.
  intros HS HE Hk <- Ha. eapply eps_ok_replace; [exact HE|..].
  - intros n e (ep & Hep & <- & ->)%(sn_own _ _ _ _ HS). simpl. split_and!; [|done|done].
    apply (sn_positive _ _ _ _ HS). intros E. rewrite E in Hep. by apply elem_of_nil in Hep.
  - intros j n. apply (sn_other _ _ _ _ HS).
Qed.

(** ** Preparation *)

Lemma outcome_core meta k d b d1 : outcome_prepared meta k d b d1 -> credentials d1 = credentials d /\
  operations d1 = operations d /\ tokens d1 = tokens d /\ outbox d1 = outbox d /\ endpoints d1 = endpoints d /\
  assignments d1 = assignments d.
Proof. by intros []. Qed.

(** The credential and the operation an outcome is about. *)
Record about (d : db) (k id : string) (kind : Kind) (rev : Z) (c : credential_row) (o : operation_row) : Prop := {
  ab_credential : credentials d !! k = Some c;
  ab_operation : operations d !! id = Some o;
  ab_owner : op_credential_id o = k;
  ab_kind : op_kind o = kind;
  ab_revision : op_revision o = rev
}.
Lemma joined_about k id kind rev d c o : joined k id kind rev d = Ok (c, o) -> about d k id kind rev c o.
Proof. intros (?&?&?&?&?)%joined_ok. by split. Qed.
Lemma about_prepared meta k0 d b d1 k id kind rev c o : outcome_prepared meta k0 d b d1 ->
  about d1 k id kind rev c o <-> about d k id kind rev c o.
Proof. intros (E1 & E2 & _)%outcome_core. split; intros []; split; congruence. Qed.
(** A pending operation of the current revision says where its credential
    stands. *)
Lemma about_current d k id kind rev c o : Inv d -> about d k id kind rev c o -> c_version c = rev -> current_op c o.
Proof. intros HI [Hk Hid Eo _ Er] Ev. eapply current_is; try done. congruence. Qed.
Lemma pending_provisioning c o : current_op c o -> op_status o = OpPending -> op_kind o = Provision ->
  c_status c = StProvisioning.
Proof. intros [E H] Hp Hk. destruct (c_status c); simpl in *; try done; try (destruct H; congruence); congruence. Qed.
Lemma pending_revoking c o : current_op c o -> op_status o = OpPending -> op_kind o = Revoke -> c_status c = StRevoking.
Proof. intros [E H] Hp Hk. destruct (c_status c); simpl in *; try done; try congruence. destruct H. congruence. Qed.

(** ** Endings of an operation *)

Definition concluded (k : string) (c2 : credential_row) (id : string) (o' : operation_row)
    (es : gmap (string * string) endpoint_row) (asg : gset (string * Z * string)) (d : db) : db :=
  set_operations (insert id o') (set_credentials (insert k c2)
    (set_endpoints (fun _ => es) (set_assignments (fun _ => asg) d))).
(** ... that users are told about. *)
Definition announced (now : Z) (ev : string) (meta : EventMeta) (at_ : Z) (topic dedupe : string) (data : event_data)
    (k : string) (c2 : credential_row) (d : db) : db :=
  set_outbox (insert ev (out_row now ev meta at_ topic ("user:" +:+ c_user_id c2) k dedupe "access" data
                           (c_notification_sequence c2 + 1) (c_outbox_sequence c2 + 1)))
    (set_credentials (insert k (bump_both c2)) d).
Definition is_command_data (data : event_data) : bool := match data with CommandData _ _ _ => true | _ => false end.

Section endings.
Context (d0 d : db) (HG : Good d0 d) (k id : string) (c c2 : credential_row) (o o' : operation_row).
Context (es : gmap (string * string) endpoint_row) (asg : gset (string * Z * string)).
Context (Hk : credentials d !! k = Some c) (Hid : operations d !! id = Some o) (Eo : op_credential_id o = k).
Context (Hp : op_status o = OpPending) (Ho : op_identity o' = op_identity o).
Context (Hci : cred_identity c2 = cred_identity c) (Hcv : rtc view_step (view c) (view c2)) (Hv : c_version c2 = c_version c).
Context (Hos : c_outbox_sequence c2 = c_outbox_sequence c) (Hns : c_notification_sequence c2 = c_notification_sequence c).
Context (Hchk : credential_checks c2 = true) (Hst : c_status c <> StRevoked).
Context (Hcur : op_revision o = c_version c -> current_op c2 o').
Context (Hoth : op_revision o <> c_version c -> forall x, current_op c x -> current_op c2 x).
Context (Hes : eps_ok (<[k:=c2]> (credentials d)) es).
Context (Hready : ready_status (c_status c) = true -> ready_status (c_status c2) = true /\ c_expires_at c2 = c_expires_at c).

Lemma good_concluded : Good d0 (concluded k c2 id o' es asg d).
Proof.
  pose proof HG as [[[KC KO KB KE KT KR] HC] _].
  assert (concluded k c2 id o' es asg d = set_outbox (fun _ => outbox d) (concluded k c2 id o' es asg d)) as -> by same_db.
  apply (concluded_good d0 d HG k c c2 id o o' es asg (outbox d)); try done.
  - split; try done; lia.
  - by apply (outs_ok_frame _ _ c).
  - by apply grows_refl.
Qed.
Lemma good_announced now ev meta at_ topic dedupe data : outbox d !! ev = None -> is_command_data data = false ->
  Good d0 (announced now ev meta at_ topic dedupe data k c2 (concluded k c2 id o' es asg d)).
Proof.
  intros Hev Hd. pose proof HG as [[[KC KO KB KE KT KR] HC] _].
  match goal with |- Good _ (announced _ _ _ _ _ _ _ _ _ _) => 
    assert (announced now ev meta at_ topic dedupe data k c2 (concluded k c2 id o' es asg d) =
      set_outbox (fun _ => <[ev := out_row now ev meta at_ topic ("user:" +:+ c_user_id c2) k dedupe "access" data
        (c_notification_sequence c2 + 1) (c_outbox_sequence c2 + 1)]> (outbox d))
        (concluded k (bump_both c2) id o' es asg d)) as -> by same_db end.
  assert (eps_ok (<[k:=bump_both c2]> (credentials d)) es) as Hes'.
  { intros j n e He. destruct (Hes j n e He) as (? & ? & x & Hx & ?). split_and!; try done.
    rewrite lookup_insert in Hx |- *. case_decide; [|by exists x]. injection Hx as <-. by exists (bump_both c2). }
  apply (concluded_good d0 d HG k c (bump_both c2) id o o' es asg); try done.
  - split; try done; simpl; lia.
  - apply (outs_ok_notify _ _ _ k c); try done; simpl; lia.
  - apply grows_insert; [done|]. intros r Hr. congruence.
Qed.
End endings.

(** ** Access is provisioned *)

Definition provisioned_cred (s : CredStatus) (rev : Z) (c : credential_row) : credential_row :=
  set_cred s (c_version c) (c_expires_at c) (c_revoked_at c) (c_reason c) rev c.
Definition bound_op (allocation : Z) (o : operation_row) : operation_row :=
  set_op (op_status o) (Some allocation) (op_failure_code o) (op_completed_at o) o.
(** The success of an operation that no longer matters. *)
Definition stale_success (rev : Z) (c : credential_row) (o : operation_row) : Prop :=
  op_status o <> OpPending \/ c_status c = StRevoked \/ (c_status c = StRevoking /\ c_version c <= rev) \/
  (c_status c <> StRevoking /\ c_version c <> rev).
Definition ready_announced (now : Z) (ev : string) (meta : EventMeta) (event : ProvisionSucceeded) (c c2 : credential_row)
    (d : db) : db :=
  announced now ev meta now "access.ready.v1" ("ready:" +:+ ps_OperationID event)
    (ReadyData (c_subscription_id c) (ps_CredentialID event) (c_user_id c) (ps_Status event) now)
    (ps_CredentialID event) c2 d.

Inductive success_applied (now : Z) (ev rid : string) (meta : EventMeta) (event : ProvisionSucceeded) (d : db) : db -> Prop :=
  | sa_replay d1 : outcome_prepared meta (ps_CredentialID event) d false d1 -> success_applied now ev rid meta event d d1
  | sa_stale d1 c o : outcome_prepared meta (ps_CredentialID event) d true d1 ->
      about d (ps_CredentialID event) (ps_OperationID event) Provision (ps_AppliedRevision event) c o ->
      stale_success (ps_AppliedRevision event) c o -> success_applied now ev rid meta event d d1
  | sa_superseded d1 c o : outcome_prepared meta (ps_CredentialID event) d true d1 ->
      about d (ps_CredentialID event) (ps_OperationID event) Provision (ps_AppliedRevision event) c o ->
      op_status o = OpPending -> c_status c = StRevoking -> ps_AppliedRevision event < c_version c ->
      ps_AppliedRevision event <= c_allocation_revision c ->
      success_applied now ev rid meta event d (set_operations (insert (ps_OperationID event) (done_op now o)) d1)
  | sa_late d1 c o id' o2 es asg : outcome_prepared meta (ps_CredentialID event) d true d1 ->
      about d (ps_CredentialID event) (ps_OperationID event) Provision (ps_AppliedRevision event) c o ->
      op_status o = OpPending -> c_status c = StRevoking ->
      c_allocation_revision c < ps_AppliedRevision event < c_version c -> snapshots event d es asg ->
      credential_checks (provisioned_cred StRevoking (ps_AppliedRevision event) c) = true ->
      about d (ps_CredentialID event) id' Revoke (c_version c) c o2 -> op_status o2 = OpPending ->
      success_applied now ev rid meta event d
        (concluded (ps_CredentialID event) (provisioned_cred StRevoking (ps_AppliedRevision event) c) id'
           (bound_op (ps_AppliedRevision event) o2) es asg
           (set_operations (insert (ps_OperationID event) (done_op now o)) d1))
  | sa_elapsed d1 c o es asg : outcome_prepared meta (ps_CredentialID event) d true d1 ->
      about d (ps_CredentialID event) (ps_OperationID event) Provision (ps_AppliedRevision event) c o ->
      op_status o = OpPending -> c_status c = StProvisioning -> c_version c = ps_AppliedRevision event ->
      c_expires_at c <= now -> snapshots event d es asg -> operations d !! rid = None -> outbox d !! ev = None ->
      credential_checks (revoking_cred "expired" (provisioned_cred StActive (ps_AppliedRevision event) c)) = true ->
      success_applied now ev rid meta event d
        (revoking now ev meta rid "expired" TkExpired (provisioned_cred StActive (ps_AppliedRevision event) c)
           (concluded (ps_CredentialID event) (provisioned_cred StActive (ps_AppliedRevision event) c) (ps_OperationID event)
              (done_op now o) es asg d1))
  | sa_ready d1 c o es asg s : outcome_prepared meta (ps_CredentialID event) d true d1 ->
      about d (ps_CredentialID event) (ps_OperationID event) Provision (ps_AppliedRevision event) c o ->
      op_status o = OpPending -> c_status c = StProvisioning -> c_version c = ps_AppliedRevision event ->
      now < c_expires_at c -> snapshots event d es asg -> parse_status (ps_Status event) = Some s -> outbox d !! ev = None ->
      credential_checks (provisioned_cred s (ps_AppliedRevision event) c) = true ->
      success_applied now ev rid meta event d
        (ready_announced now ev meta event c (provisioned_cred s (ps_AppliedRevision event) c)
           (concluded (ps_CredentialID event) (provisioned_cred s (ps_AppliedRevision event) c) (ps_OperationID event)
              (done_op now o) es asg d1)).

Lemma snapshots_frame event d d' es asg : endpoints d' = endpoints d -> assignments d' = assignments d ->
  snapshots event d es asg -> snapshots event d' es asg.
Proof. intros E1 E2 [A B C D F G H]. split; try done; intros; rewrite ?E1, ?E2; auto. Qed.
Definition op_keys_unique (d : db) : Prop := forall j j' x x', operations d !! j = Some x -> operations d !! j' = Some x' ->
  op_credential_id x = op_credential_id x' -> op_revision x = op_revision x' -> j = j'.
Lemma bind_revoke_ok k rev a t t' : op_keys_unique (working t) -> bind_revoke k rev a t = (Ok tt, t') ->
  exists id o, operations (working t) !! id = Some o /\ op_credential_id o = k /\ op_kind o = Revoke /\ op_revision o = rev /\
    op_status o = OpPending /\ t' = Txn (durable t) (set_operations (insert id (bound_op a o)) (working t)).
Proof.
  intros HU. unfold bind_revoke. rewrite run_get. cbv zeta. rewrite run_modify. unfold require.
  destruct (bool_decide (count_where _ _ = 1%nat)) eqn:E; [|done]. apply bool_decide_eq_true in E. intros [= <-].
  match type of E with count_where ?p ?m = _ => destruct (exists_row p m) eqn:Hx end.
  - apply exists_row_true in Hx as (id & o & Ho & Hp). exists id, o. pose proof Hp as (H1 & H2 & H3 & H4)%bool_decide_eq_true.
    split_and!; try done. f_equal. apply db_ext; try reflexivity. simpl. apply update_where_unique; [done|done|].
    intros j y Hj (G1 & _ & G3 & _)%bool_decide_eq_true. apply (HU j id y o); congruence.
  - rewrite (count_zero _ _ (proj1 (exists_row_false _ _) Hx)) in E. done.
Qed.

(** The branches of [ApplyProvisionSucceeded], from the state the outcome was
    admitted to. *)
Section success.
Context (now : Z) (ev rid : string) (meta : EventMeta) (event : ProvisionSucceeded) (d d1 : db) (HI : Inv d).
Context (Hp : outcome_prepared meta (ps_CredentialID event) d true d1) (c : credential_row) (o : operation_row).
Context (Ha : about d (ps_CredentialID event) (ps_OperationID event) Provision (ps_AppliedRevision event) c o).
Context (Ho : op_status o = OpPending) (du : db) (t' : txn db).

Lemma replaced_db es asg : snapshots event d1 es asg -> snapshots event d es asg.
Proof. pose proof (outcome_core _ _ _ _ _ Hp) as (_ & _ & _ & _ & E1 & E2). by apply snapshots_frame. Qed.
Lemma late_ok : c_status c = StRevoking -> late_success now event c (Txn du d1) = (Ok tt, t') ->
  exists d', success_applied now ev rid meta event d d' /\ t' = Txn d' d'.
Proof.
  intros Hst. pose proof Ha as [Hk Hid Eo Ek Er]. pose proof (outcome_core _ _ _ _ _ Hp) as (E1 & E2 & _).
  unfold late_success, complete_operation. destruct (Z.leb_spec (c_version c) (ps_AppliedRevision event)) as [Hv|Hv].
  { intros [= <-]. exists d1. split; [eapply sa_stale; try done; right; right; by left|done]. }
  destruct (Z.leb_spec (ps_AppliedRevision event) (c_allocation_revision c)) as [Hal|Hal].
  { rewrite run_modify. intros [= <-]. eexists. split; [by eapply sa_superseded|]. cbn [durable working].
    f_equal; apply db_ext; try reflexivity; simpl; by rewrite (alter_known _ _ _ o) by congruence. }
  intros H. tx_inv H. destruct v. apply replace_ok in Hs as (es & asg & Hsn & ->). rewrite run_modify in H.
  apply bind_ok_inv in H as ([] & t2 & H1 & H). cbn [durable working] in H1.
  apply update_credential_ok in H1 as [[Hn _]|(c0 & Hc0 & Hchk & ->)]; [cbn in Hn; congruence|].
  cbn in Hc0. assert (c0 = c) as -> by congruence. rewrite bool_decide_true in Hchk by done.
  apply bind_ok_inv in H as ([] & t3 & H2 & H). injection H as <-.
  apply bind_revoke_ok in H2 as (id' & o2 & Ho2 & G1 & G2 & G3 & G4 & ->).
  - cbn in Ho2. rewrite (alter_known _ _ _ o) in Ho2 by congruence. rewrite lookup_insert in Ho2. case_decide as En; [by injection Ho2 as <-|].
    rewrite E2 in Ho2. eexists. split; [eapply (sa_late _ _ _ _ _ _ d1 c o id' o2 es asg); try done|].
    + by apply replaced_db.
    + by rewrite Hst in Hchk.
    + cbn [durable working]. f_equal; apply db_ext; try reflexivity; simpl; rewrite ?(alter_known _ _ _ o), ?bool_decide_true by congruence;
        by rewrite ?Hst.
  - clear H2. intros j j' x x'. cbn. rewrite (alter_known _ _ _ o) by congruence. rewrite E2. intros Hx Hx' Ec Erv.
    assert (forall i y, <[ps_OperationID event := done_op now o]> (operations d) !! i = Some y -> exists z, operations d !! i = Some z /\
      op_credential_id y = op_credential_id z /\ op_revision y = op_revision z) as Hz.
    { intros i y. rewrite lookup_insert. case_decide as Ei; intros Hy; [|by exists y]. exists o. assert (y = done_op now o) as -> by congruence. by rewrite <- Ei. }
    destruct (Hz _ _ Hx) as (z & Hz1 & F1 & F2), (Hz _ _ Hx') as (z' & Hz2 & F3 & F4).
    apply (op_unique _ _ (k_ops _ _ _ _ _ _ _ (proj1 HI)) j j' z z'); congruence.
Qed.
Lemma current_ok : c_status c <> StRevoked -> c_status c <> StRevoking -> c_version c = ps_AppliedRevision event ->
  (replaceProvisionSnapshots event ;;; complete_operation now (ps_OperationID event) ;;;
   if c_expires_at c <=? now then elapsed_success now ev rid meta event else ready_success now ev meta event c) (Txn du d1)
    = (Ok tt, t') ->
  exists d', success_applied now ev rid meta event d d' /\ t' = Txn d' d'.
Proof.
  intros _ _ Hv H. pose proof Ha as [Hk Hid Eo Ek Er]. pose proof (outcome_core _ _ _ _ _ Hp) as (E1 & E2 & E3 & E4 & _).
  pose proof (pending_provisioning _ _ (about_current _ _ _ _ _ _ _ HI Ha Hv) Ho Ek) as Hst.
  pose proof (cr_id _ (k_creds _ _ _ _ _ _ _ (proj1 HI)) _ _ Hk) as Eid.
  tx_inv H. destruct v. apply replace_ok in Hs as (es & asg & Hsn & ->). unfold complete_operation in H. rewrite run_modify in H.
  cbn [durable working] in H. destruct (Z.leb_spec (c_expires_at c) now) as [He|He].
  - unfold elapsed_success in H. cbv zeta in H. apply bind_ok_inv in H as ([] & t2 & H1 & H).
    apply update_credential_ok in H1 as [[Hn _]|(c0 & Hc0 & Hchk & ->)]; [cbn in Hn; congruence|].
    cbn in Hc0. assert (c0 = c) as -> by congruence. unfold tokens_where in H. rewrite run_modify in H.
    apply bind_ok_inv in H as ([] & t3 & H3 & H). apply bind_ok_inv in H as ([] & t4 & H4 & H). injection H as <-.
    destruct (issue_ok now ev meta Revoke _ _ _ _ _ _ _ _ (lookup_insert_eq _ _ _) H3 H4) as (Hrid & Hev & ->).
    cbn in Hrid, Hev. rewrite (alter_known _ _ _ o) in Hrid by congruence. rewrite lookup_insert in Hrid. case_decide; [done|].
    rewrite <- Hv in Hchk.
    eexists. split; [eapply (sa_elapsed _ _ _ _ _ _ d1 c o es asg); try done; try congruence; try (by apply replaced_db)|].
    + rewrite <- Hv. exact Hchk.
    + cbn [durable working]. f_equal; apply db_ext; try reflexivity; simpl; rewrite ?Eid, ?(alter_known _ _ _ o), ?insert_insert_eq by congruence;
        rewrite <- ?Hv; done.
  - unfold ready_success in H. destruct (parse_status (ps_Status event)) as [s|] eqn:Es; [|done]. unfold need in H. rewrite run_ret in H.
    apply bind_ok_inv in H as ([] & t2 & H1 & H).
    apply update_credential_ok in H1 as [[Hn _]|(c0 & Hc0 & Hchk & ->)]; [cbn in Hn; congruence|].
    cbn in Hc0. assert (c0 = c) as -> by congruence. apply bind_ok_inv in H as ([] & t3 & H2 & H). injection H as <-.
    apply insertNotificationOutbox_ok in H2 as (c1 & Hc1 & Hev & ->). cbn in Hc1, Hev. rewrite lookup_insert_eq in Hc1. injection Hc1 as <-.
    eexists. split; [eapply (sa_ready _ _ _ _ _ _ d1 c o es asg s); try done; try congruence; try (by apply replaced_db)|].
    cbn [durable working]. f_equal; apply db_ext; try reflexivity; simpl; rewrite ?(alter_known _ _ _ o), ?insert_insert_eq by congruence; done.
Qed.
End success.

Lemma ApplyProvisionSucceeded_ok now pick ev rid meta event t t' : Inv (working t) ->
  ApplyProvisionSucceeded now pick ev rid meta event t = (Ok tt, t') ->
  exists d', success_applied now ev rid meta event (working t) d' /\ t' = Txn d' d'.
Proof.
  intros HI. unfold ApplyProvisionSucceeded. intros (b & t1 & (d1 & Hp & ->)%prepareOutcome_ok & H)%bind_ok_inv.
  destruct b; simpl in H; [|injection H as <-; exists d1; split; [by apply sa_replay|done]].
  apply bind_ok_inv in H as ([c o] & t2 & [-> Hj]%query_ok & H). cbn [working] in Hj. apply joined_about in Hj.
  rewrite (about_prepared _ _ _ _ _ _ _ _ _ _ _ Hp) in Hj.
  case_bool_decide as Ho; simpl in H; [|injection H as <-; exists d1; split; [eapply sa_stale; try done; by left|done]].
  case_bool_decide as Er; [injection H as <-; exists d1; split; [eapply sa_stale; try done; right; by left|done]|].
  case_bool_decide as Ev; [by eapply late_ok|].
  destruct (Z.eqb_spec (c_version c) (ps_AppliedRevision event)) as [Hv|Hv]; simpl in H.
  - by eapply current_ok.
  - injection H as <-. exists d1. split; [eapply sa_stale; try done; right; right; by right|done].
Qed.

(** Endings that change neither versions nor the end of the entitlement. *)
Lemma done_current c o rev now s : current_op c o -> op_status o = OpPending -> c_status c = StProvisioning ->
  s = StActive \/ s = StDegraded -> c_version c = rev -> current_op (provisioned_cred s rev c) (done_op now o).
Proof. intros [Ek _] _ Hst Hs <-. split; simpl; [rewrite Ek, Hst|]; by destruct Hs as [-> | ->]. Qed.
Lemma view_provisioned c s rev : c_status c = StProvisioning -> s = StActive \/ s = StDegraded -> c_version c = rev ->
  rtc view_step (view c) (view (provisioned_cred s rev c)).
Proof. intros Hst Hs <-. apply rtc_once. unfold view. simpl. rewrite Hst. by apply vs_ready. Qed.
Lemma checks_provisioned c s rev : credential_checks c = true -> c_status c = StProvisioning -> s = StActive \/ s = StDegraded ->
  c_version c = rev -> credential_checks (provisioned_cred s rev c) = true.
Proof.
  intros H Hst Hs <-. unfold credential_checks in *. simpl. rewrite Hst in H. rewrite !andb_true_iff in *.
  destruct H as [[[[[[[[H1 H2] H3] H4] H5] H6] H7] H8] H9]. apply bool_decide_eq_true in H8. split_and!; try done; try lia.
  - apply bool_decide_eq_true. split; [by destruct Hs as [-> | ->]|]. intros Hr. by apply H8 in Hr.
  - destruct (c_reason c); [apply andb_true_iff in H9 as [_ H9%bool_decide_eq_true]; by destruct H9|].
    apply negb_true_iff, bool_decide_eq_false. intros [E|E]; by destruct Hs; congruence.
Qed.

Lemma success_applied_good d0 d now ev rid meta event d' : Good d0 d -> outcome_meta meta (ps_CredentialID event) ->
  ps_Status event = "active"%string \/ ps_Status event = "degraded"%string ->
  success_applied now ev rid meta event d d' -> Good d0 d'.
Proof.
  intros HG Hm Hs H. pose proof (proj1 HG) as HI. pose proof HI as [[KC KO KB KE KT KR] _].
  destruct H as [d1 Hp|d1 c o Hp|d1 c o Hp Ha Ho Hst Hv Hal|d1 c o id' o2 es asg Hp Ha Ho Hst Hv Hsn Hchk Ha2 Ho2
    |d1 c o es asg Hp Ha Ho Hst Hv He Hsn Hrid Hev Hchk|d1 c o es asg s Hp Ha Ho Hst Hv He Hsn Es Hev Hchk];
    pose proof (outcome_prepared_good _ _ _ _ _ _ HG Hm Hp) as HG1; try done; pose proof Ha as [Hk Hid Eo Ek Er];
    pose proof (outcome_core _ _ _ _ _ Hp) as (E1 & E2 & E3 & E4 & E5 & E6).
  - assert (set_operations (insert (ps_OperationID event) (done_op now o)) d1 =
      concluded (ps_CredentialID event) c (ps_OperationID event) (done_op now o) (endpoints d1) (assignments d1) d1) as ->.
    { apply db_ext; try reflexivity. simpl. by rewrite insert_id by congruence. }
    apply (good_concluded d0 d1 HG1 _ _ c c o); try done; try congruence; try lia.
    + by apply (cr_checks _ KC) in Hk.
    + rewrite E1, E5, insert_id; done.
  - assert (Good d0 (set_operations (insert (ps_OperationID event) (done_op now o)) d1)) as HG2.
    { assert (set_operations (insert (ps_OperationID event) (done_op now o)) d1 =
        concluded (ps_CredentialID event) c (ps_OperationID event) (done_op now o) (endpoints d1) (assignments d1) d1) as ->.
      { apply db_ext; try reflexivity. simpl. by rewrite insert_id by congruence. }
      apply (good_concluded d0 d1 HG1 _ _ c c o); try done; try congruence; try lia.
      + by apply (cr_checks _ KC) in Hk.
      + rewrite E1, E5, insert_id; done. }
    destruct Ha2 as [_ Hid2 Eo2 Ek2 Er2].
    apply (good_concluded d0 _ HG2 _ _ c (provisioned_cred StRevoking (ps_AppliedRevision event) c) o2); try done; try (simpl; congruence).
    + simpl. rewrite E2, lookup_insert_ne; [done|]. intros Eq. rewrite <- Eq in Hid2. congruence.
    + apply rtc_once. unfold view. simpl. rewrite Hst. apply vs_late. lia.
    + intros _. split; [exact Ek2|]. simpl. rewrite Ho2. split_and!; [done|done|lia].
    + simpl. rewrite E1. by eapply snapshots_eps.
    + by rewrite Hst.
  - assert (c_status (provisioned_cred StActive (ps_AppliedRevision event) c) = StActive) as Ea by done.
    assert (Good d0 (concluded (ps_CredentialID event) (provisioned_cred StActive (ps_AppliedRevision event) c) (ps_OperationID event)
              (done_op now o) es asg d1)) as HG2.
    { apply (good_concluded d0 d1 HG1 _ _ c _ o); try done; try congruence.
      - apply view_provisioned; auto.
      - apply checks_provisioned; auto. by apply (cr_checks _ KC) in Hk.
      - rewrite E1. by eapply snapshots_eps. }
    apply good_revoking; try done.
    + simpl. rewrite (cr_id _ KC _ _ Hk). apply lookup_insert_eq.
    + simpl. rewrite E2, lookup_insert_ne; [done|]. congruence.
    + simpl. congruence.
  - assert (s = StActive \/ s = StDegraded) as Hss by (destruct Hs as [Hs|Hs]; rewrite Hs in Es; injection Es; auto).
    apply (good_announced d0 d1 HG1 _ _ c _ o); try done; try congruence.
    + apply view_provisioned; auto.
    + intros _. apply done_current; auto. eapply about_current; try done.
    + rewrite E1. by eapply snapshots_eps.
    + by rewrite Hst.
Qed.

(** ** An operation has failed *)

Definition failed_cred (c : credential_row) : credential_row :=
  set_cred StFailed (c_version c) (c_expires_at c) (c_revoked_at c) (c_reason c) (c_allocation_revision c) c.
Definition failure_announced (now : Z) (ev : string) (meta : EventMeta) (event : OperationFailed) (c c2 : credential_row)
    (d : db) : db :=
  announced now ev meta (of_FailedAt event) "access.provisioning.failed.v1" ("provisioning-failed:" +:+ of_OperationID event)
    (ProvisioningFailedData (c_subscription_id c) (of_CredentialID event) (c_user_id c) (of_FailedRevision event)
       (of_ReasonCode event) (of_FailedAt event)) (of_CredentialID event) c2 d.
Inductive failed_applied (now : Z) (ev : string) (meta : EventMeta) (event : OperationFailed) (kind : Kind) (d : db) : db -> Prop :=
  | fa_replay d1 : outcome_prepared meta (of_CredentialID event) d false d1 -> failed_applied now ev meta event kind d d1
  | fa_ignored d1 c o : outcome_prepared meta (of_CredentialID event) d true d1 ->
      about d (of_CredentialID event) (of_OperationID event) kind (of_FailedRevision event) c o ->
      c_version c <> of_FailedRevision event \/ op_status o <> OpPending \/ of_Terminal event = false ->
      failed_applied now ev meta event kind d d1
  | fa_revoke d1 c o : outcome_prepared meta (of_CredentialID event) d true d1 ->
      about d (of_CredentialID event) (of_OperationID event) kind (of_FailedRevision event) c o ->
      op_status o = OpPending -> c_version c = of_FailedRevision event -> of_Terminal event = true -> kind = Revoke ->
      failed_applied now ev meta event kind d
        (set_operations (insert (of_OperationID event) (failed_op (of_ReasonCode event) (of_FailedAt event) o)) d1)
  | fa_provision d1 c o : outcome_prepared meta (of_CredentialID event) d true d1 ->
      about d (of_CredentialID event) (of_OperationID event) kind (of_FailedRevision event) c o ->
      op_status o = OpPending -> c_version c = of_FailedRevision event -> of_Terminal event = true -> kind = Provision ->
      outbox d !! ev = None -> credential_checks (failed_cred c) = true ->
      failed_applied now ev meta event kind d
        (failure_announced now ev meta event c (failed_cred c)
           (concluded (of_CredentialID event) (failed_cred c) (of_OperationID event)
              (failed_op (of_ReasonCode event) (of_FailedAt event) o) (endpoints d1) (assignments d1) d1)).

Lemma fail_operation_ok reason at_ id o t t' : operations (working t) !! id = Some o ->
  fail_operation reason at_ id t = (Ok tt, t') ->
  t' = Txn (durable t) (set_operations (insert id (failed_op reason at_ o)) (working t)).
Proof.
  intros Ho. unfold fail_operation, require. rewrite run_get. destruct (length_between _ _ _); [rewrite run_ret|done].
  intros [= <-]. f_equal. apply db_ext; try reflexivity. simpl. by rewrite (alter_known _ _ _ o).
Qed.
Lemma ApplyOperationFailed_ok now pick ev meta event kind t t' : Inv (working t) ->
  ApplyOperationFailed now pick ev meta event kind t = (Ok tt, t') ->
  exists d', failed_applied now ev meta event kind (working t) d' /\ t' = Txn d' d'.
Proof.
  intros HI. unfold ApplyOperationFailed. intros (b & t1 & (d1 & Hp & ->)%prepareOutcome_ok & H)%bind_ok_inv.
  destruct b; simpl in H; [|injection H as <-; exists d1; split; [by apply fa_replay|done]].
  apply bind_ok_inv in H as ([c o] & t2 & [-> Hj]%query_ok & H). cbn [working] in Hj. apply joined_about in Hj.
  rewrite (about_prepared _ _ _ _ _ _ _ _ _ _ _ Hp) in Hj.
  destruct (Z.eqb_spec (c_version c) (of_FailedRevision event)) as [Hv|Hv]; simpl in H.
  2: { injection H as <-. exists d1. split; [eapply fa_ignored; try done; by left|done]. }
  destruct (bool_decide (op_status o = OpPending)) eqn:Ho; simpl in H.
  2: { apply bool_decide_eq_false in Ho. injection H as <-. exists d1. split; [eapply fa_ignored; try done; right; by left|done]. }
  apply bool_decide_eq_true in Ho. destruct (of_Terminal event) eqn:Et; simpl in H.
  2: { injection H as <-. exists d1. split; [eapply fa_ignored; try done; right; by right|done]. }
  pose proof Hj as [Hk Hid Eo Ek Er]. pose proof (outcome_core _ _ _ _ _ Hp) as (E1 & E2 & E3 & E4 & _).
  apply bind_ok_inv in H as ([] & t3 & H1 & H). injection H as <-. apply bind_ok_inv in H1 as ([] & t2 & H1 & H).
  apply (fail_operation_ok _ _ _ o) in H1 as ->; [|cbn; congruence]. cbn [durable working] in H. destruct kind; simpl in H.
  - apply bind_ok_inv in H as ([] & t4 & H2 & H).
    apply update_credential_ok in H2 as [[Hn _]|(c0 & Hc0 & Hchk & ->)]; [cbn in Hn; congruence|].
    cbn in Hc0. assert (c0 = c) as -> by congruence.
    apply insertNotificationOutbox_ok in H as (c1 & Hc1 & Hev & ->). cbn in Hc1, Hev. rewrite lookup_insert_eq in Hc1. injection Hc1 as <-.
    eexists. split; [eapply (fa_provision _ _ _ _ _ _ d1 c o); try done; congruence|].
    cbn [durable working]. f_equal; same_db.
  - injection H as <-. eexists. split; [by eapply (fa_revoke _ _ _ _ _ _ d1 c o)|done].
Qed.

Lemma failed_applied_good d0 d now ev meta event kind d' : Good d0 d -> outcome_meta meta (of_CredentialID event) ->
  failed_applied now ev meta event kind d d' -> Good d0 d'.
Proof.
  intros HG Hm H. pose proof (proj1 HG) as HI. pose proof HI as [[KC KO KB KE KT KR] _].
  destruct H as [d1 Hp|d1 c o Hp|d1 c o Hp Ha Ho Hv Ht ->|d1 c o Hp Ha Ho Hv Ht -> Hev Hchk];
    pose proof (outcome_prepared_good _ _ _ _ _ _ HG Hm Hp) as HG1; try done; pose proof Ha as [Hk Hid Eo Ek Er];
    pose proof (outcome_core _ _ _ _ _ Hp) as (E1 & E2 & E3 & E4 & E5 & E6);
    pose proof (about_current _ _ _ _ _ _ _ HI Ha Hv) as Hcur.
  - pose proof (pending_revoking _ _ Hcur Ho Ek) as Hst.
    assert (set_operations (insert (of_OperationID event) (failed_op (of_ReasonCode event) (of_FailedAt event) o)) d1 =
      concluded (of_CredentialID event) c (of_OperationID event) (failed_op (of_ReasonCode event) (of_FailedAt event) o)
        (endpoints d1) (assignments d1) d1) as ->.
    { apply db_ext; try reflexivity. simpl. by rewrite insert_id by congruence. }
    apply (good_concluded d0 d1 HG1 _ _ c c o); try done; try congruence.
    + by apply (cr_checks _ KC) in Hk.
    + intros _. destruct Hcur as [G1 G2]. split; [exact G1|]. revert G2. rewrite Hst. naive_solver.
    + rewrite E1, E5, insert_id; done.
  - pose proof (pending_provisioning _ _ Hcur Ho Ek) as Hst.
    apply (good_announced d0 d1 HG1 _ _ c _ o); try done; try congruence.
    + apply rtc_once. unfold view. simpl. rewrite Hst. apply vs_failed.
    + intros _. destruct Hcur as [G1 G2]. split; [by rewrite Hst in G1|]. revert G2. rewrite Hst. simpl. naive_solver.
    + rewrite E1, E5. by apply (eps_ok_frame _ _ c).
    + by rewrite Hst.
Qed.

(** ** Access is withdrawn *)

Definition revoked_cred (now : Z) (c : credential_row) : credential_row :=
  set_cred StRevoked (c_version c) (c_expires_at c) (Some now) (c_reason c) (c_allocation_revision c) c.
Definition revocation_announced (now : Z) (ev : string) (meta : EventMeta) (event : RevokeSucceeded) (reason : string)
    (c c2 : credential_row) (d : db) : db :=
  announced now ev meta now "access.revoked.v1" ("revoked:" +:+ rs_OperationID event)
    (RevokedData (c_subscription_id c) (rs_CredentialID event) (c_user_id c) (rs_DesiredRevision event) reason now)
    (rs_CredentialID event) c2 d.
Inductive revoke_applied (now : Z) (ev : string) (meta : EventMeta) (event : RevokeSucceeded) (d : db) : db -> Prop :=
  | ra_replay d1 : outcome_prepared meta (rs_CredentialID event) d false d1 -> revoke_applied now ev meta event d d1
  | ra_ignored d1 c o : outcome_prepared meta (rs_CredentialID event) d true d1 ->
      about d (rs_CredentialID event) (rs_OperationID event) Revoke (rs_DesiredRevision event) c o ->
      c_version c <> rs_DesiredRevision event \/ op_status o <> OpPending -> revoke_applied now ev meta event d d1
  | ra_revoked d1 c o reason : outcome_prepared meta (rs_CredentialID event) d true d1 ->
      about d (rs_CredentialID event) (rs_OperationID event) Revoke (rs_DesiredRevision event) c o ->
      op_status o = OpPending -> c_version c = rs_DesiredRevision event -> c_reason c = Some reason ->
      c_allocation_revision c = rs_AllocationRevision event ->
      sameNodeSet (listAssignedNodeIDs (rs_CredentialID event) (rs_AllocationRevision event) d) (rs_NodeIDs event) = true ->
      outbox d !! ev = None -> credential_checks (revoked_cred now c) = true ->
      revoke_applied now ev meta event d
        (revocation_announced now ev meta event reason c (revoked_cred now c)
           (concluded (rs_CredentialID event) (revoked_cred now c) (rs_OperationID event) (done_op now o)
              (endpoints d1) (assignments d1) d1)).

Lemma ApplyRevokeSucceeded_ok now pick ev meta event t t' : Inv (working t) ->
  ApplyRevokeSucceeded now pick ev meta event t = (Ok tt, t') ->
  exists d', revoke_applied now ev meta event (working t) d' /\ t' = Txn d' d'.
Proof.
  intros HI. unfold ApplyRevokeSucceeded. intros (b & t1 & (d1 & Hp & ->)%prepareOutcome_ok & H)%bind_ok_inv.
  destruct b; simpl in H; [|injection H as <-; exists d1; split; [by apply ra_replay|done]].
  apply bind_ok_inv in H as ([c o] & t2 & [-> Hj]%query_ok & H). cbn [working] in Hj. apply joined_about in Hj.
  rewrite (about_prepared _ _ _ _ _ _ _ _ _ _ _ Hp) in Hj.
  destruct (c_reason c) as [reason|] eqn:Ereason; [|done]. unfold need at 1 in H. rewrite run_ret in H.
  destruct (op_allocation_revision o) as [a|] eqn:Ea; [|done]. unfold need at 1 in H. rewrite run_ret in H.
  destruct (Z.eqb_spec (c_version c) (rs_DesiredRevision event)) as [Hv|Hv]; simpl in H.
  2: { injection H as <-. exists d1. split; [eapply ra_ignored; try done; by left|done]. }
  destruct (bool_decide (op_status o = OpPending)) eqn:Ho; simpl in H.
  2: { apply bool_decide_eq_false in Ho. injection H as <-. exists d1. split; [eapply ra_ignored; try done; by right|done]. }
  apply bool_decide_eq_true in Ho. unfold require in H. destruct (_ && _) eqn:Eal in H; [rewrite run_ret in H|done].
  apply andb_true_iff in Eal as [Eal _]. rewrite run_get in H. cbn [working] in H.
  pose proof Hj as [Hk Hid Eo Ek Er]. pose proof (outcome_core _ _ _ _ _ Hp) as (E1 & E2 & E3 & E4 & E5 & E6).
  destruct (sameNodeSet _ _) eqn:En in H; [rewrite run_ret in H|done]. unfold listAssignedNodeIDs in En. rewrite E6 in En.
  apply bind_ok_inv in H as ([] & t2 & H1 & H).
  apply update_credential_ok in H1 as [[Hn _]|(c0 & Hc0 & Hchk & ->)]; [cbn in Hn; congruence|].
  cbn in Hc0. assert (c0 = c) as -> by congruence. unfold complete_operation in H. rewrite run_modify in H.
  apply bind_ok_inv in H as ([] & t3 & H2 & H). injection H as <-.
  apply insertNotificationOutbox_ok in H2 as (c1 & Hc1 & Hev & ->). cbn in Hc1, Hev. rewrite lookup_insert_eq in Hc1. injection Hc1 as <-.
  eexists. split; [eapply (ra_revoked _ _ _ _ _ d1 c o reason); try done; try congruence; lia|].
  cbn [durable working]. f_equal; apply db_ext; try reflexivity; simpl; rewrite ?(alter_known _ _ _ o), ?insert_insert_eq by congruence; done.
Qed.
Lemma revoke_applied_good d0 d now ev meta event d' : Good d0 d -> outcome_meta meta (rs_CredentialID event) ->
  revoke_applied now ev meta event d d' -> Good d0 d'.
Proof.
  intros HG Hm H. pose proof (proj1 HG) as HI. pose proof HI as [[KC KO KB KE KT KR] _].
  destruct H as [d1 Hp|d1 c o Hp|d1 c o reason Hp Ha Ho Hv Hr Hal Hn Hev Hchk];
    pose proof (outcome_prepared_good _ _ _ _ _ _ HG Hm Hp) as HG1; try done; pose proof Ha as [Hk Hid Eo Ek Er];
    pose proof (outcome_core _ _ _ _ _ Hp) as (E1 & E2 & E3 & E4 & E5 & E6);
    pose proof (about_current _ _ _ _ _ _ _ HI Ha Hv) as Hcur.
  pose proof (pending_revoking _ _ Hcur Ho Ek) as Hst.
  apply (good_announced d0 d1 HG1 _ _ c _ o); try done; try congruence.
  - apply rtc_once. unfold view. simpl. rewrite Hst. apply vs_revoked.
  - intros _. destruct Hcur as [G1 G2]. split; [by rewrite Hst in G1|]. revert G2. rewrite Hst. simpl. naive_solver.
  - rewrite E1, E5. by apply (eps_ok_frame _ _ c).
  - by rewrite Hst.
Qed.
