(* ===== verification/AccessSpec.v ===== *)
(** * access-service: what the store guarantees

    The operations of the store as one transition function, the databases its
    callers can reach, and the properties of those databases. *)

From Stdlib Require Import List.
From S2P Require Import Prelude GoStrings Backoff Platform AccessDomain AccessStore AccessInv AccessSteps AccessLifecycle AccessOutcomes.

(** ** The operations keep the invariant *)

Create HintDb access.
Lemma acc_Good_refl d : Inv d -> Good d d.
Proof. intros H. split; [done|apply keeps_refl]. Qed.
#[export] Hint Resolve acc_Good_refl : access.

(** An operation whose effect is known. *)
Lemma good_effect {A} d0 (m : acc_tx A) (P : db -> A -> db -> Prop) : atomic m ->
  (forall t a t', Inv (working t) -> m t = (Ok a, t') -> exists d', P (working t) a d' /\ t' = Txn d' d') ->
  (forall d a d', Good d0 d -> P d a d' -> Good d0 d') -> preserves (Good d0) m.
Proof.
  intros Ha Hm HP. apply preserves_atomic; [done|]. intros t a t' HG Hr.
  destruct (Hm _ _ _ (proj1 HG) Hr) as (d' & H & ->). exists d'. split; [by eapply HP|done].
Qed.

Lemma atomic_ApplyPaymentSucceeded pick meta event : atomic (ApplyPaymentSucceeded pick meta event).
Proof. unfold ApplyPaymentSucceeded. tx_auto. Qed.
Lemma atomic_ApplyPeriod now pick ev meta event seed : atomic (ApplyPeriod now pick ev meta event seed).
Proof. unfold ApplyPeriod, delete_endpoints, tokens_where. tx_auto. Qed.
Lemma atomic_ApplyGrace pick meta event : atomic (ApplyGrace pick meta event).
Proof. unfold ApplyGrace. tx_auto. Qed.
Lemma atomic_ApplyTerminal now pick ev meta event id : atomic (ApplyTerminal now pick ev meta event id).
Proof. unfold ApplyTerminal, tokens_where. tx_auto. Qed.
Lemma atomic_ApplyProvisionSucceeded now pick ev rid meta event :
  atomic (ApplyProvisionSucceeded now pick ev rid meta event).
Proof.
  unfold ApplyProvisionSucceeded, late_success, elapsed_success, ready_success, complete_operation, tokens_where. tx_auto.
Qed.
Lemma atomic_ApplyOperationFailed now pick ev meta event kind : atomic (ApplyOperationFailed now pick ev meta event kind).
Proof. unfold ApplyOperationFailed, fail_operation. tx_auto. apply quiet_when. tx_auto. apply quiet_when. tx_auto. Qed.
Lemma atomic_ApplyRevokeSucceeded now pick ev meta event : atomic (ApplyRevokeSucceeded now pick ev meta event).
Proof. unfold ApplyRevokeSucceeded, complete_operation. tx_auto. Qed.
Lemma atomic_IssueToken now sub operation seed : atomic (IssueToken now sub operation seed).
Proof. unfold IssueToken, insert_token, insert_url. tx_auto. Qed.
Lemma atomic_RecoverProvisioning now ev input : atomic (RecoverProvisioning now ev input).
Proof. unfold RecoverProvisioning, delete_endpoints, insert_recovery. tx_auto. Qed.
#[export] Hint Resolve atomic_ApplyPaymentSucceeded atomic_ApplyPeriod atomic_ApplyGrace atomic_ApplyTerminal
  atomic_ApplyProvisionSucceeded atomic_ApplyOperationFailed atomic_ApplyRevokeSucceeded atomic_IssueToken
  atomic_RecoverProvisioning : access.

Lemma good_ApplyPaymentSucceeded d0 pick meta event : payment_meta meta -> preserves (Good d0) (ApplyPaymentSucceeded pick meta event).
Proof.
  intros Hm. apply (good_effect _ _ (fun d _ d' => payment_applied meta event d d')); [eauto with access| |].
  - intros t [] t' _ H. by eapply ApplyPaymentSucceeded_ok.
  - intros d _ d' HG H. by eapply payment_applied_good.
Qed.
Lemma good_ApplyPeriod d0 now pick ev meta event seed : lifecycle_meta meta (per_SubscriptionID event) ->
  preserves (Good d0) (ApplyPeriod now pick ev meta event seed).
Proof.
  intros Hm. apply (good_effect _ _ (fun d _ d' => period_applied now ev meta event seed d d')); [eauto with access| |].
  - intros t [] t' HI H. by eapply ApplyPeriod_ok.
  - intros d _ d' HG H. by eapply period_applied_good.
Qed.
Lemma ApplyGrace_ok pick meta event t t' : ApplyGrace pick meta event t = (Ok tt, t') ->
  exists b d', life_prepared meta (gr_SubscriptionID event) (gr_UserID event) (working t) b d' /\ t' = Txn d' d'.
Proof.
  unfold ApplyGrace. intros (b & t1 & (d1 & Hp & ->)%prepareLifecycle_ok & H)%bind_ok_inv. exists b, d1. split; [done|].
  by destruct b; injection H as <-.
Qed.
Lemma good_ApplyGrace d0 pick meta event : lifecycle_meta meta (gr_SubscriptionID event) ->
  preserves (Good d0) (ApplyGrace pick meta event).
Proof.
  intros Hm. apply (good_effect _ _ (fun d _ d' => exists b, life_prepared meta (gr_SubscriptionID event) (gr_UserID event) d b d'));
    [eauto with access| |].
  - intros t [] t' _ (b & d' & Hp & ->)%ApplyGrace_ok. eauto.
  - intros d _ d' HG (b & H). by eapply life_prepared_good.
Qed.
Lemma good_ApplyTerminal d0 now pick ev meta event id : lifecycle_meta meta (te_SubscriptionID event) ->
  preserves (Good d0) (ApplyTerminal now pick ev meta event id).
Proof.
  intros Hm. apply (good_effect _ _ (fun d _ d' => terminal_applied now ev meta event id d d')); [eauto with access| |].
  - intros t [] t' HI H. by eapply ApplyTerminal_ok.
  - intros d _ d' HG H. by eapply terminal_applied_good.
Qed.
Definition announced_status (event : ProvisionSucceeded) : Prop :=
  ps_Status event = "active"%string \/ ps_Status event = "degraded"%string.
Lemma good_ApplyProvisionSucceeded d0 now pick ev rid meta event : outcome_meta meta (ps_CredentialID event) ->
  announced_status event -> preserves (Good d0) (ApplyProvisionSucceeded now pick ev rid meta event).
Proof.
  intros Hm Hs. apply (good_effect _ _ (fun d _ d' => success_applied now ev rid meta event d d')); [eauto with access| |].
  - intros t [] t' HI H. by eapply ApplyProvisionSucceeded_ok.
  - intros d _ d' HG H. by eapply success_applied_good.
Qed.
Lemma good_ApplyOperationFailed d0 now pick ev meta event kind : outcome_meta meta (of_CredentialID event) ->
  preserves (Good d0) (ApplyOperationFailed now pick ev meta event kind).
Proof.
  intros Hm. apply (good_effect _ _ (fun d _ d' => failed_applied now ev meta event kind d d')); [eauto with access| |].
  - intros t [] t' HI H. by eapply ApplyOperationFailed_ok.
  - intros d _ d' HG H. by eapply failed_applied_good.
Qed.
Lemma good_ApplyRevokeSucceeded d0 now pick ev meta event : outcome_meta meta (rs_CredentialID event) ->
  preserves (Good d0) (ApplyRevokeSucceeded now pick ev meta event).
Proof.
  intros Hm. apply (good_effect _ _ (fun d _ d' => revoke_applied now ev meta event d d')); [eauto with access| |].
  - intros t [] t' HI H. by eapply ApplyRevokeSucceeded_ok.
  - intros d _ d' HG H. by eapply revoke_applied_good.
Qed.
Lemma good_IssueToken d0 now sub operation seed : preserves (Good d0) (IssueToken now sub operation seed).
Proof.
  apply (good_effect _ _ (fun d _ d' => token_issued now sub operation seed d d')); [eauto with access| |].
  - intros t [] t' _ H. by eapply IssueToken_ok.
  - intros d _ d' HG H. by eapply token_issued_good.
Qed.
Lemma good_RecoverProvisioning d0 now ev input : preserves (Good d0) (RecoverProvisioning now ev input).
Proof.
  apply (good_effect _ _ (fun d r d' => recovery_done now ev input d r d')); [eauto with access| |].
  - intros t r t' HI H. by eapply RecoverProvisioning_ok.
  - intros d r d' HG H. by eapply recovery_done_good.
Qed.

(** *** The other tables *)

(** Tables the invariant does not speak of. *)
Lemma good_aside d0 d d' : Good d0 d -> (forall e, e = d' -> credentials e = credentials d /\ endpoints e = endpoints d /\
  operations e = operations d /\ tokens e = tokens d /\ url_idempotency e = url_idempotency d /\ recoveries e = recoveries d /\
  outbox e = outbox d /\ lifecycle e = lifecycle d /\ outcomes e = outcomes d /\ inbox e = inbox d /\ sli e = sli d) ->
  dead_letters d ⊆ dead_letters d' -> Good d0 d'.
Proof.
  intros HG H Hd. pose proof HG as [[HK HC] _]. destruct (H _ eq_refl) as (E1 & E2 & E3 & E4 & E5 & E6 & E7 & E8 & E9 & E10 & E11).
  apply (acc_good_step _ _ _ HG).
  - split; [unfold Core|unfold Cursors]; rewrite ?E1, ?E2, ?E3, ?E4, ?E5, ?E6, ?E7, ?E8, ?E9, ?E10; done.
  - split; rewrite ?E1, ?E2, ?E3, ?E4, ?E5, ?E6, ?E7, ?E8, ?E9, ?E10, ?E11; try (by apply grows_refl); try done;
      intros; eexists; split; [done|lia].
Qed.
Lemma good_touch_token d0 now id : preserves (Good d0) (touch_token now id).
Proof.
  unfold touch_token. tx_auto. apply preserves_modify. intros d HG. pose proof HG as [[[KC KO KB KE KT KR] HC] _].
  match goal with |- Good _ (set_tokens (alter ?f _) _) => set (g := f) end.
  assert (forall t, token_evolves t (g t) /\ t_status (g t) = t_status t /\ t_expires_at (g t) = t_expires_at t) as Hg
    by (intros t; unfold g; destruct (match t_last_used_at t with Some _ => _ | None => _ end); by split_and!).
  assert (pointwise token_evolves (tokens d) (alter g id (tokens d))) as Hp by (apply pointwise_alter; [done|intros x _; apply Hg]).
  apply (acc_good_step _ _ _ HG).
  - split; [|exact HC]. split; try done. eapply toks_ok_evolve; [exact KT|exact Hp|eauto|].
    intros k t t' c c' Ht Ht' Hc Hc'. simpl in Hc'. assert (c' = c) as -> by congruence. apply alter_Some in Ht' as (x & Hx & ->).
    assert (x = t) as -> by congruence. case_decide; [destruct (Hg t) as (_ & -> & ->)|]; auto.
  - split; simpl; try (by apply grows_refl); try reflexivity; try (intros; eexists; split; [done|lia]). by apply grows_pointwise.
Qed.
Lemma good_material_access d0 now ev k actor : preserves (Good d0) (RecordCredentialMaterialAccess now ev k actor).
Proof.
  unfold RecordCredentialMaterialAccess. tx_auto. apply preserves_modify. intros d HG. apply (good_aside d0 d); [done| |done].
  by intros e ->.
Qed.
Lemma good_acc_RecordDeadLetter d0 topic p off hash reason : preserves (Good d0) (RecordDeadLetter topic p off hash reason).
Proof.
  unfold RecordDeadLetter. tx_auto. apply preserves_modify. intros d HG. apply (good_aside d0 d); [done|by intros e ->|].
  simpl. destruct (dead_letters d !! _) eqn:E; [done|]. by apply insert_subseteq.
Qed.

(** *** The publisher *)

Lemma good_acc_outbox d0 d out : Good d0 d -> pointwise (published_step (outbox d)) (outbox d) out ->
  Good d0 (set_outbox (fun _ => out) d).
Proof.
  intros HG Hp. pose proof HG as [[[KC KO KB KE KT KR] HC] _]. apply (acc_good_step _ _ _ HG).
  - split; [|exact HC]. split; try done. by eapply outs_ok_publish.
  - split; simpl; try (by apply grows_refl); try reflexivity; try (intros; eexists; split; [done|lia]).
    intros k r Hk. destruct (pointwise_fwd _ _ _ _ _ Hp Hk) as (r' & Hr' & Hs). exists r'. split; [done|].
    split; [apply (pu_content _ _ _ Hs)|apply (pu_final _ _ _ Hs)].
Qed.
Lemma published_step_refl out r : published_step out r r.
Proof. split; try done. intros. by left. Qed.
Lemma good_acc_ClaimOutbox d0 now lease locked : preserves (Good d0) (ClaimOutbox now lease locked).
Proof.
  unfold ClaimOutbox. apply preserves_read. intros d HG t Hw.
  destruct (first_by _ _ _) as [r|] eqn:E; [|by rewrite run_commit; simpl; rewrite Hw].
  rewrite run_modify, run_commit. simpl. rewrite Hw.
  enough (Good d0 (set_outbox (insert (o_event_id r)
    (set_out OProcessing (o_attempts r + 1) (o_next_attempt_at r) (Some (now + lease)) (o_published_at r) r)) d)) by done.
  apply first_by_Some in E as [Hd (k & Hk)]. pose proof HG as [[[_ _ KB _ _ _] _] _].
  rewrite (ob_key _ _ _ KB _ _ Hk).
  apply (good_acc_outbox d0 d (<[k:=_]> (outbox d))); [done|]. apply (pointwise_insert _ _ _ r); [apply published_step_refl|done|].
  unfold deliverable in Hd. rewrite !andb_true_iff, bool_decide_eq_true, negb_true_iff in Hd. destruct Hd as [[[[Hs _] _] Hold] _].
  split; simpl; try done; try lia. intros _. right. intros j q Hj Ea Hlt.
  pose proof (proj1 (exists_row_false _ _) Hold j q Hj) as H. simpl in H. apply andb_false_iff in H as [H|H]; [|lia].
  apply bool_decide_eq_false in H. destruct (o_state q); naive_solver.
Qed.
Lemma good_acc_update_out d0 ev f : (forall r, o_state r = OProcessing -> forall out, published_step out r (f r)) ->
  preserves (Good d0) (update_out ev f).
Proof.
  intros Hf. unfold update_out. tx_auto. apply preserves_modify. intros d HG.
  apply (good_acc_outbox _ _ (update_where _ f (outbox d))); [done|].
  apply pointwise_update_where; [apply published_step_refl|]. intros k x _ [_ H%bool_decide_eq_true]%andb_true_iff. by apply Hf.
Qed.
Lemma processing_step out r st next lease pub : o_state r = OProcessing ->
  published_step out r (set_out st (o_attempts r) next lease pub r).
Proof. intros E. split; simpl; try done; [|congruence|by left]. intros H1 H2. split; [done|]. intros _. apply H2. congruence. Qed.

(** ** The store as a transition system *)

Inductive op :=
  | OpPayment (pick : nat) (meta : EventMeta) (event : PaymentSucceeded)
  | OpPeriod (now : Z) (pick : nat) (newEvent : string) (meta : EventMeta) (event : PeriodEvent) (seed : CredentialSeed)
  | OpGrace (pick : nat) (meta : EventMeta) (event : GraceEvent)
  | OpTerminal (now : Z) (pick : nat) (newEvent : string) (meta : EventMeta) (event : TerminalEvent) (operationID : string)
  | OpProvisioned (now : Z) (pick : nat) (newEvent revokeID : string) (meta : EventMeta) (event : ProvisionSucceeded)
  | OpFailure (now : Z) (pick : nat) (newEvent : string) (meta : EventMeta) (event : OperationFailed) (kind : Kind)
  | OpRemoved (now : Z) (pick : nat) (newEvent : string) (meta : EventMeta) (event : RevokeSucceeded)
  | OpIssueToken (now : Z) (subscriptionID operation : string) (seed : TokenSeed)
  | OpTouchToken (now : Z) (tokenID : string)
  | OpRecover (now : Z) (newEvent : string) (input : AdminRecoveryInput)
  | OpMaterialAccess (now : Z) (eventID credentialID actor : string)
  | OpDeadLetter (topic : string) (partition offset : Z) (hash reason : string)
  | OpClaimOutbox (now lease : Z) (locked : gset string)
  | OpCompleteOutbox (now : Z) (eventID : string)
  | OpRetryOutbox (now : Z) (eventID : string) (delay : Z).

Definition outcome {A} (m : acc_tx A) (d : db) : option AccErr * db :=
  match in_tx m d with (Ok _, d') => (None, d') | (Err e, d') => (Some e, d') end.
Arguments outcome : simpl never.
Definition exec (o : op) : db -> option AccErr * db :=
  match o with
  | OpPayment p m e => outcome (ApplyPaymentSucceeded p m e)
  | OpPeriod now p ev m e s => outcome (ApplyPeriod now p ev m e s)
  | OpGrace p m e => outcome (ApplyGrace p m e)
  | OpTerminal now p ev m e id => outcome (ApplyTerminal now p ev m e id)
  | OpProvisioned now p ev rid m e => outcome (ApplyProvisionSucceeded now p ev rid m e)
  | OpFailure now p ev m e k => outcome (ApplyOperationFailed now p ev m e k)
  | OpRemoved now p ev m e => outcome (ApplyRevokeSucceeded now p ev m e)
  | OpIssueToken now s o seed => outcome (IssueToken now s o seed)
  | OpTouchToken now t => outcome (touch_token now t)
  | OpRecover now ev i => outcome (RecoverProvisioning now ev i)
  | OpMaterialAccess now ev k a => outcome (RecordCredentialMaterialAccess now ev k a)
  | OpDeadLetter t p off h r => outcome (RecordDeadLetter t p off h r)
  | OpClaimOutbox now l k => outcome (ClaimOutbox now l k)
  | OpCompleteOutbox now e => outcome (CompleteOutbox now e)
  | OpRetryOutbox now e dl => outcome (RetryOutbox now e dl)
  end.

(** Events reach the store as the service has checked them: the type of the
    envelope is that of the handler, and its aggregate the subscription or
    credential the event is about. *)
Definition allowed (o : op) : Prop :=
  match o with
  | OpPayment _ m _ => payment_meta m
  | OpPeriod _ _ _ m e _ => lifecycle_meta m (per_SubscriptionID e)
  | OpGrace _ m e => lifecycle_meta m (gr_SubscriptionID e)
  | OpTerminal _ _ _ m e _ => lifecycle_meta m (te_SubscriptionID e)
  | OpProvisioned _ _ _ _ m e => outcome_meta m (ps_CredentialID e) /\ announced_status e
  | OpFailure _ _ _ m e _ => outcome_meta m (of_CredentialID e)
  | OpRemoved _ _ _ m e => outcome_meta m (rs_CredentialID e)
  | _ => True
  end.
Inductive reaches (d : db) : db -> Prop :=
  | reaches_here : reaches d d
  | reaches_step d' o : reaches d d' -> allowed o -> reaches d (snd (exec o d')).
Definition reachable : db -> Prop := reaches empty_db.

Lemma acc_outcome_snd {A} (m : acc_tx A) d : snd (outcome m d) = snd (in_tx m d).
Proof. unfold outcome. by destruct (in_tx m d) as [[?|?] ?]. Qed.
Lemma acc_exec_good d0 o d : Good d0 d -> allowed o -> Good d0 (snd (exec o d)).
Proof.
  intros HG Hok. destruct o; cbn [exec]; rewrite acc_outcome_snd; (apply (preserves_in_tx (Good d0)); [|done]).
  - by apply good_ApplyPaymentSucceeded.
  - by apply good_ApplyPeriod.
  - by apply good_ApplyGrace.
  - by apply good_ApplyTerminal.
  - destruct Hok. by apply good_ApplyProvisionSucceeded.
  - by apply good_ApplyOperationFailed.
  - by apply good_ApplyRevokeSucceeded.
  - apply good_IssueToken.
  - apply good_touch_token.
  - apply good_RecoverProvisioning.
  - apply good_material_access.
  - apply good_acc_RecordDeadLetter.
  - apply good_acc_ClaimOutbox.
  - apply good_acc_update_out. intros r Hr out. by apply processing_step.
  - apply good_acc_update_out. intros r Hr out. by apply processing_step.
Qed.
Lemma acc_reaches_good d d' : Inv d -> reaches d d' -> Good d d'.
Proof.
  intros HI. induction 1 as [|d' o H IH]; [by apply acc_Good_refl|]. by apply acc_exec_good.
Qed.
Lemma acc_reachable_inv d : reachable d -> Inv d.
Proof. intros H. by apply (acc_reaches_good empty_db); [apply access_Inv_empty|]. Qed.
Lemma acc_reaches_trans d1 d2 d3 : reaches d1 d2 -> reaches d2 d3 -> reaches d1 d3.
Proof. intros H. induction 1; [done|by constructor]. Qed.

Fixpoint exec_all (l : list op) (d : db) : db :=
  match l with [] => d | o :: l' => exec_all l' (snd (exec o d)) end.
Fixpoint results (l : list op) (d : db) : list (option AccErr) :=
  match l with [] => [] | o :: l' => fst (exec o d) :: results l' (snd (exec o d)) end.
Lemma acc_reaches_all l d : Forall allowed l -> reaches d (exec_all l d).
Proof.
  revert d. induction l as [|o l IH]; intros d; simpl; [constructor|]. intros H. inversion H as [|? ? Ho Hl]; subst.
  eapply acc_reaches_trans; [|by apply IH]. by apply reaches_step; [apply reaches_here|].
Qed.

(** A run that succeeds is its committed effect. *)
Lemma exec_effect {A} (m : acc_tx A) (P : db -> A -> db -> Prop) d d' : Inv d ->
  (forall t a t', Inv (working t) -> m t = (Ok a, t') -> exists d1, P (working t) a d1 /\ t' = Txn d1 d1) ->
  outcome m d = (None, d') -> exists a, P d a d'.
Proof.
  intros HI Hm. unfold outcome, in_tx. destruct (m (Txn d d)) as [[a|e] t'] eqn:Hr; [|done]. intros [= <-].
  destruct (Hm (Txn d d) a t' HI Hr) as (d1 & H & ->). eauto.
Qed.

(** ** The life of a credential *)

Lemma revoked_is_final v v' : v_status v = StRevoked -> rtc view_step v v' -> v' = v.
Proof. intros Hs H. destruct H as [|v1 v2 v3 H _]; [done|]. by inversion H; subst; simpl in *; subst; naive_solver. Qed.
Lemma machine_version v v' : rtc view_step v v' -> v_version v <= v_version v'.
Proof. induction 1 as [v|v1 v2 v3 H _ IH]; [lia|]. apply (Z.le_trans _ (v_version v2)); [|exact IH]. inversion H; simpl; lia. Qed.

(** C10: A credential lives by the state machine [view_step], as long as the
    database does: whatever the store is asked to do, its subscription, owner
    and encrypted material stay the same, its status, version, end and
    allocation move along the machine, its version never decreases, and a
    revoked credential never changes again. *)
Theorem credential_follows_machine d d' k c :
  reachable d -> reaches d d' -> credentials d !! k = Some c ->
  exists c', credentials d' !! k = Some c' /\ cred_identity c' = cred_identity c /\ rtc view_step (view c) (view c') /\
    c_version c <= c_version c' /\ (c_status c = StRevoked -> view c' = view c).
Proof.
  intros HI%acc_reachable_inv Hr Hk. destruct (acc_reaches_good _ _ HI Hr) as [_ Hkp].
  destruct (kp_creds _ _ Hkp _ _ Hk) as (c' & Hk' & [E1 E2 _ _]). exists c'. split_and!; try done.
  - apply (machine_version _ _ E2).
  - intros Hs. by apply revoked_is_final.
Qed.

Lemma command_rows d k r r' j j' n n' id id' : Inv d -> outbox d !! j = Some r -> outbox d !! j' = Some r' ->
  env_Data (o_payload r) = CommandData id k n -> env_Data (o_payload r') = CommandData id' k n' ->
  o_aggregate_id r = k /\ env_AggregateSequence (o_payload r) = n /\ (n < n' -> o_sequence r < o_sequence r') /\ (n = n' -> j = j').
Proof.
  intros [[KC KO KB KE KT KR] _] Hj Hj' Ed Ed'.
  destruct (ob_row _ _ _ KB _ _ Hj) as (c & Hc & Hn & Hs), (ob_row _ _ _ KB _ _ Hj') as (c' & Hc' & Hn' & Hs').
  unfold row_says in Hs, Hs'. rewrite Ed in Hs. rewrite Ed' in Hs'. destruct Hs as (Ea & Es & _), Hs' as (Ea' & Es' & _).
  assert (is_command r = is_command r') as Hcmd by (unfold is_command; by rewrite Ed, Ed').
  assert (n <= n' -> o_sequence r <= o_sequence r') as H1 by (intros; apply (ob_order _ _ _ KB j j' r r'); try done; [congruence|lia]).
  assert (n' <= n -> o_sequence r' <= o_sequence r) as H2 by (intros; apply (ob_order _ _ _ KB j' j r' r); try done; [congruence|lia]).
  split_and!; try done.
  - intros Hlt. destruct (decide (o_sequence r = o_sequence r')) as [E|]; [|lia].
    assert (j = j') as -> by (apply (ob_unique _ _ _ KB j j' r r'); congruence). assert (r = r') as <- by congruence. rewrite Ed in Ed'. injection Ed' as _ <-. lia.
  - intros E. apply (ob_unique _ _ _ KB j j' r r'); [done|done|congruence|lia].
Qed.

(** C27: Provisioning-service is told everything, once and in order: every
    revision of a credential, from 1 to its version, has exactly one
    operation, that operation exactly one command in the outbox, on the topic
    of its kind and carrying the revision as its sequence, commands of later
    revisions come later, and the rows of the outbox of a credential are
    numbered without gap. *)
Theorem operations_are_commanded d k c :
  reachable d -> credentials d !! k = Some c ->
  (forall n, 1 <= n <= c_version c -> exists id o j r, operations d !! id = Some o /\ op_credential_id o = k /\ op_revision o = n /\
     outbox d !! j = Some r /\ o_aggregate_id r = k /\ env_Data (o_payload r) = CommandData id k n /\
     env_AggregateSequence (o_payload r) = n /\ o_topic r = command_topic (op_kind o) /\
     (forall id' o', operations d !! id' = Some o' -> op_credential_id o' = k -> op_revision o' = n -> id' = id) /\
     (forall j' r' id', outbox d !! j' = Some r' -> env_Data (o_payload r') = CommandData id' k n -> j' = j)) /\
  (forall j j' r r' id id' n n', outbox d !! j = Some r -> outbox d !! j' = Some r' ->
     env_Data (o_payload r) = CommandData id k n -> env_Data (o_payload r') = CommandData id' k n' ->
     n < n' -> o_sequence r < o_sequence r') /\
  (forall n, 1 <= n <= c_outbox_sequence c -> exists j r, outbox d !! j = Some r /\ o_aggregate_id r = k /\ o_sequence r = n /\
     forall j' r', outbox d !! j' = Some r' -> o_aggregate_id r' = k -> o_sequence r' = n -> j' = j).
Proof.
  intros HI%acc_reachable_inv Hk. pose proof HI as [[KC KO KB KE KT KR] _]. split_and!.
  - intros n Hn. destruct (op_every _ _ KO _ _ n Hk Hn) as (id & o & Ho & Eo & Er).
    destruct (ob_command _ _ _ KB _ _ Ho) as (j & r & Hj & Ed). rewrite Eo, Er in Ed. exists id, o, j, r.
    destruct (command_rows d k r r j j n n id id HI Hj Hj Ed Ed) as (Ea & Es & _).
    destruct (ob_row _ _ _ KB _ _ Hj) as (c1 & _ & _ & Hs). unfold row_says in Hs. rewrite Ed in Hs.
    destruct Hs as (_ & _ & o2 & Ho2 & _ & _ & Et). assert (o2 = o) as -> by congruence. split_and!; try done.
    + intros id' o' Ho' E1 E2. apply (op_unique _ _ KO id' id o' o); congruence.
    + intros j' r' id' Hj' Ed'. by apply (command_rows d k r' r j' j n n id' id HI Hj' Hj Ed' Ed).
  - intros j j' r r' id id' n n' Hj Hj' Ed Ed'. by apply (command_rows d k r r' j j' n n' id id' HI Hj Hj' Ed Ed').
  - intros n Hn. destruct (ob_every _ _ _ KB _ _ n Hk Hn) as (j & r & Hj & Ea & Es). exists j, r. split_and!; try done.
    intros j' r' Hj' Ea' Es'. apply (ob_unique _ _ _ KB j' j r' r); congruence.
Qed.

(** The status of a credential is backed by the operation of its version:
    access that works or works partly was provisioned at exactly that version,
    access being set up or withdrawn has an operation that has not succeeded,
    a withdrawal knows the allocation it has to remove; the endpoints stored
    are those of the allocation in force; and of the credentials of a
    subscription at most one is not revoked. *)
Theorem status_is_backed d k c :
  reachable d -> credentials d !! k = Some c ->
  (exists id o, operations d !! id = Some o /\ op_credential_id o = k /\ op_revision o = c_version c /\ current_op c o) /\
  (forall n e, endpoints d !! (k, n) = Some e ->
     0 < c_allocation_revision c /\ e_allocation_revision e = c_allocation_revision c /\ NodeID (e_endpoint e) = n) /\
  (forall k' c', credentials d !! k' = Some c' -> c_subscription_id c' = c_subscription_id c ->
     c_status c <> StRevoked -> c_status c' <> StRevoked -> k' = k).
Proof.
  intros [[KC KO KB KE KT KR] _]%acc_reachable_inv Hk. split_and!.
  - destruct (op_current _ _ KO _ _ Hk) as (id & o & ?). eauto.
  - intros n e He. destruct (KE k n e He) as (H1 & H2 & c' & Hc' & H3). assert (c' = c) as -> by congruence. split_and!; [lia|lia|done].
  - intros k' c' Hk' Es H1 H2. by apply (cr_current _ KC k' k c' c).
Qed.

Lemma lookup_token_Ok now pick l d t c : Inv d -> lookup_token now pick l d = Ok (t, c) ->
  tokens d !! t_id t = Some t /\ credentials d !! t_credential_id t = Some c /\ t_hmac t ∈ l /\ t_status t = TkActive /\
  now < t_expires_at t /\ now < c_expires_at c /\ ready_status (c_status c) = true.
Proof.
  intros [[KC KO KB KE KT KR] _]. unfold lookup_token, pick_row.
  destruct (where_ (token_serves now l d) (tokens d) !! _) as [x|] eqn:E; [|done].
  apply list_elem_of_lookup_2, elem_where in E as [Hs (k & Hk)].
  destruct (credentials d !! t_credential_id x) as [y|] eqn:Ec; [|done]. intros [= <- <-].
  rewrite (tk_key _ _ _ KT _ _ Hk). unfold token_serves in Hs.
  rewrite Ec, !andb_true_iff, !bool_decide_eq_true in Hs. destruct Hs as [[[H1 H2] H3] [H4 H5]]. split_and!; try done; lia.
Qed.
Lemma elem_list_endpoints d k e : e ∈ list_endpoints k d <-> exists n r, endpoints d !! (k, n) = Some r /\ e = e_endpoint r.
Proof.
  unfold list_endpoints. rewrite elem_order_by, list_elem_of_fmap. setoid_rewrite list_elem_of_In. setoid_rewrite filter_In.
  setoid_rewrite <- list_elem_of_In. setoid_rewrite elem_of_map_to_list'. setoid_rewrite bool_decide_eq_true. split.
  - intros ([[k' n] r] & -> & Hr & Ek). simpl in *. subst. eauto.
  - intros (n & r & Hr & ->). exists ((k, n), r). by split_and!.
Qed.

Lemma ready_while v v' : rtc view_step v v' -> (v_status v = StActive \/ v_status v = StDegraded) -> v_version v' = v_version v ->
  v_allocation v' = v_allocation v.
Proof.
  intros H. induction H as [|v1 v2 v3 H Hr IH]; [done|]. intros Hs Ev. pose proof (machine_version _ _ Hr) as Hv.
  inversion H; subst; simpl in *; first [lia|by destruct Hs|rewrite IH; [done|tauto|lia]].
Qed.

(** C12: A subscription URL serves only who is entitled: if a profile request
    finds a token, it is active and one of the candidates asked for, its
    credential is ready and its entitlement not over, the token ends with the
    entitlement, access was provisioned at the credential's very version, and
    no other token of the credential is active. The endpoints are listed by a
    later statement: whatever happened in between, every one handed out is of
    that same credential and of the one allocation it then has, and of the
    very allocation the lookup found unless the credential has moved on to a
    newer version. *)
Theorem lookup_serves_the_entitled d d' now pick lookups t c :
  reachable d -> lookup_token now pick lookups d = Ok (t, c) -> reaches d d' ->
  credentials d !! t_credential_id t = Some c /\ c_id c = t_credential_id t /\ t_hmac t ∈ lookups /\ t_status t = TkActive /\
  now < c_expires_at c /\ t_expires_at t = c_expires_at c /\
  (c_status c = StActive \/ c_status c = StDegraded) /\ c_allocation_revision c = c_version c /\
  (exists id o, operations d !! id = Some o /\ op_credential_id o = t_credential_id t /\ op_revision o = c_version c /\
     op_kind o = Provision /\ op_status o = OpSucceeded) /\
  (forall k' t', tokens d !! k' = Some t' -> t_credential_id t' = t_credential_id t -> t_status t' = TkActive -> t' = t) /\
  (forall e, e ∈ list_endpoints (c_id c) d' -> exists c',
     credentials d' !! c_id c = Some c' /\ cred_identity c' = cred_identity c /\ c_version c <= c_version c' /\
     endpoints d' !! (c_id c, NodeID e) = Some (MkEndpointRow (c_allocation_revision c') e) /\
     (c_version c' = c_version c -> c_allocation_revision c' = c_version c)).
Proof.
  intros HI%acc_reachable_inv H Hreach. pose proof HI as [[KC KO KB KE KT KR] _].
  destruct (lookup_token_Ok _ _ _ _ _ _ HI H) as (Ht & Hc & Hin & Hs & _ & He & Hr).
  destruct (tk_owner _ _ _ KT _ _ Ht) as (c' & Hc' & Ha). assert (c' = c) as -> by congruence. destruct (Ha Hs) as [_ Ee].
  unfold ready_status in Hr. apply bool_decide_eq_true in Hr. pose proof (cr_id _ KC _ _ Hc) as Eid.
  destruct (op_current _ _ KO _ _ Hc) as (id & o & Ho & Eo & Erv & Ek & Hcur).
  assert (op_kind o = Provision /\ op_status o = OpSucceeded /\ c_allocation_revision c = c_version c) as (G1 & G2 & G3)
    by (destruct Hr as [Hr|Hr]; rewrite Hr in Ek, Hcur; naive_solver).
  split_and!; try done.
  - exists id, o. by split_and!.
  - intros k' t' Ht' E1 E2. assert (k' = t_id t) as -> by (by apply (tk_active _ _ _ KT k' (t_id t) t' t)). congruence.
  - intros e (n & r & Hrow & ->)%elem_list_endpoints. destruct (acc_reaches_good _ _ HI Hreach) as [[[_ _ _ KE' _ _] _] Hkp].
    destruct (KE' _ _ _ Hrow) as (_ & <- & x & Hx & Ex). rewrite Eid in *.
    destruct (kp_creds _ _ Hkp _ _ Hc) as (c' & Hk' & [E1 E2 _ _]). assert (x = c') as -> by congruence. exists c'.
    pose proof (machine_version _ _ E2) as Hv. split_and!; try done.
    + rewrite Hrow, Ex. by destruct r.
    + intros Ev. rewrite <- G3. by apply (ready_while _ _ E2).
Qed.

(** C9: When a subscription ends, its URL stops working for good: once the
    end of a subscription is applied (an expiry overtaken by a longer
    entitlement is not an end), the credential is being revoked, and whatever
    happens later, restarts included, no token that existed then ever serves a
    profile again. *)
Theorem ended_access_is_cut_off d d1 d2 now pick ev meta event id c :
  reachable d -> allowed (OpTerminal now pick ev meta event id) -> ~ seen meta d ->
  current_credential (te_SubscriptionID event) d = Some c -> premature meta event c = false ->
  exec (OpTerminal now pick ev meta event id) d = (None, d1) -> reaches d1 d2 ->
  (exists c1, credentials d1 !! c_id c = Some c1 /\ c_status c1 = StRevoking) /\
  forall now' pick' lookups t c', lookup_token now' pick' lookups d2 = Ok (t, c') -> t_credential_id t = c_id c ->
    tokens d !! t_id t = None.
Proof.
  intros HI%acc_reachable_inv Hok Hseen Hcur Hpre Hex Hr. pose proof (acc_Good_refl _ HI) as HG.
  apply (exec_effect _ (fun d _ d' => terminal_applied now ev meta event id d d')) in Hex as [[] Hta]; [|done|].
  2: { intros t [] t' HI' H. by eapply ApplyTerminal_ok. }
  pose proof (terminal_applied_good _ _ _ _ _ _ _ _ HG Hok Hta) as HG1.
  destruct (acc_reaches_good _ _ (proj1 HG1) Hr) as [HI2 Hkp].
  pose proof HI as [[KC KO KB KE KT KR] _]. destruct (current_credential_Some _ _ _ HI Hcur) as (Hk & _ & _).
  assert ((exists c1, credentials d1 !! c_id c = Some c1 /\ c_status c1 = StRevoking) /\
    forall j t0, tokens d !! j = Some t0 -> t_credential_id t0 = c_id c -> exists t1, tokens d1 !! j = Some t1 /\ t_status t1 <> TkActive)
    as [H1 H2].
  { destruct Hta as [d1 Hp|d1 Hp Hn|d1 c0 Hp Hc0 Hig|d1 c0 Hp Hc0 Hpr Hst].
    - inversion Hp; subst. by destruct Hseen.
    - congruence.
    - assert (c0 = c) as -> by congruence. pose proof (life_core _ _ _ _ _ _ Hp) as (Ec & _ & _ & Et & _).
      destruct Hig as [Hig|Hig]; [congruence|]. rewrite Ec, Et. split; [by exists c|]. intros j t0 Hj Ej. exists t0. split; [done|].
      intros Ha. destruct (tk_owner _ _ _ KT _ _ Hj) as (x & Hx & Hax). destruct (Hax Ha) as [Hrd _].
      assert (x = c) as -> by congruence. by rewrite Hig in Hrd.
    - assert (c0 = c) as -> by congruence. pose proof (life_core _ _ _ _ _ _ Hp) as (Ec & _ & _ & Et & _).
      split; [eexists; split; [apply lookup_insert_eq|done]|]. intros j t0 Hj Ej. simpl. rewrite Et. unfold with_tokens.
      rewrite lookup_update_where, Hj. simpl. eexists. split; [done|]. unfold own_active. rewrite (bool_decide_true _ Ej). simpl.
      case_bool_decide; [done|by simpl]. }
  split; [done|]. intros now' pick' lookups t c' Hl Et. destruct (lookup_token_Ok _ _ _ _ _ _ HI2 Hl) as (Ht & _ & _ & Hs & _).
  destruct (tokens d !! t_id t) as [t0|] eqn:E0; [|done]. exfalso.
  destruct (kp_tokens _ _ (proj2 HG1) _ _ E0) as (t1 & Ht1 & [I1 _]). destruct (kp_tokens _ _ Hkp _ _ Ht1) as (t2 & Ht2 & [I2 F2]).
  assert (t2 = t) as -> by congruence. injection I1 as _ E1 _ _ _ _. injection I2 as _ E2 _ _ _ _.
  destruct (H2 _ _ E0) as (t1' & Ht1' & Hna); [congruence|]. assert (t1' = t1) as -> by congruence.
  destruct (F2 Hna). congruence.
Qed.

(** ** Events *)

(** The events of a subscription, and the outcomes of a credential, are
    applied in their order, each once: the cursor says [n] exactly when the
    events 1 to [n] have been applied, and two different inbox rows of a
    stream never carry the same number. *)
Theorem events_applied_in_order d :
  reachable d ->
  (forall s u n, lifecycle d !! s = Some (u, n) -> forall m, 1 <= m <= n <-> exists k q, inbox d !! k = Some q /\
     isLifecycleEvent (i_event_type q) = true /\ i_aggregate_id q = s /\ i_sequence q = m) /\
  (forall s n, outcomes d !! s = Some n -> forall m, 1 <= m <= n <-> exists k q, inbox d !! k = Some q /\
     isOutcomeEvent (i_event_type q) = true /\ i_aggregate_id q = s /\ i_sequence q = m) /\
  (forall k k' q q', inbox d !! k = Some q -> inbox d !! k' = Some q' -> i_aggregate_id q = i_aggregate_id q' ->
     i_sequence q = i_sequence q' ->
     (isLifecycleEvent (i_event_type q) = true /\ isLifecycleEvent (i_event_type q') = true \/
      isOutcomeEvent (i_event_type q) = true /\ isOutcomeEvent (i_event_type q') = true) -> k = k').
Proof.
  intros [_ [K X D L LI O OI]]%acc_reachable_inv. split_and!.
  - intros s u n Hs m. split; [apply (proj2 (L s u n Hs))|]. intros (k & q & Hk & Ht & <- & <-).
    destruct (LI k q Hk Ht) as (u' & n' & Hl & Hn). rewrite Hs in Hl. injection Hl as _ ->. done.
  - intros s n Hs m. split; [apply (proj2 (O s n Hs))|]. intros (k & q & Hk & Ht & <- & <-).
    destruct (OI k q Hk Ht) as (n' & Hl & Hn). rewrite Hs in Hl. by injection Hl as ->.
  - intros k k' q q' Hk Hk' Ea Es Ht. apply (D k k' q q' Hk Hk'). unfold inbox_conflict. rewrite !orb_true_iff. right.
    rewrite Ea, Es, bool_decide_true, Z.eqb_refl by done. by destruct Ht as [[-> ->]|[-> ->]]; rewrite ?orb_true_r.
Qed.

(** *** Redelivery *)

(** The event an operation delivers, whatever clock and drawn identifiers the
    delivery uses. *)
Definition same_delivery (o o' : op) : Prop :=
  match o, o' with
  | OpPeriod _ _ _ m e _, OpPeriod _ _ _ m' e' _ => m = m' /\ e = e'
  | OpGrace _ m e, OpGrace _ m' e' => m = m' /\ e = e'
  | OpTerminal _ _ _ m e _, OpTerminal _ _ _ m' e' _ => m = m' /\ e = e'
  | OpProvisioned _ _ _ _ m e, OpProvisioned _ _ _ _ m' e' => m = m' /\ e = e'
  | OpFailure _ _ _ m e k, OpFailure _ _ _ m' e' k' => m = m' /\ e = e' /\ k = k'
  | OpRemoved _ _ _ m e, OpRemoved _ _ _ m' e' => m = m' /\ e = e'
  | _, _ => False
  end.
Definition delivered (o : op) : option EventMeta :=
  match o with
  | OpPeriod _ _ _ m _ _ | OpGrace _ m _ | OpTerminal _ _ _ m _ _ | OpProvisioned _ _ _ _ m _ | OpFailure _ _ _ m _ _
  | OpRemoved _ _ _ m _ => Some m
  | _ => None
  end.
(** No payment event bears the identifier of a subscription or credential. *)
Definition apart (meta : EventMeta) (d : db) : Prop := forall k q, inbox d !! k = Some q ->
  i_event_type q = "billing.payment.succeeded.v1"%string -> i_aggregate_id q <> AggregateID meta.

Lemma like_lifecycle ty : isLifecycleEvent ty = true -> like_subscription ty = true.
Proof.
  unfold isLifecycleEvent, like_subscription. rewrite bool_decide_eq_true, !elem_of_cons, elem_of_nil.
  by intros [->|[->|[->|[->|[->|[]]]]]].
Qed.
Lemma like_outcome ty : isOutcomeEvent ty = true -> like_subscription ty = false.
Proof.
  unfold isOutcomeEvent, like_subscription. rewrite bool_decide_eq_true, !elem_of_cons, elem_of_nil.
  by intros [->|[->|[->|[->|[]]]]].
Qed.
(** The inbox finds the event itself. *)
Lemma match_is_event d meta q k : Cursors d -> inbox d !! EventID meta = Some (inbox_of meta) -> apart meta d ->
  isLifecycleEvent (EventType meta) = true \/ isOutcomeEvent (EventType meta) = true ->
  inbox d !! k = Some q -> inbox_match meta q = true -> q = inbox_of meta.
Proof.
  intros [K X D _ _ _ _] Hm Hap Hty Hk Hq.
  enough (inbox_conflict (inbox_of meta) q = true) as H.
  { assert (EventID meta = k) as <- by (apply (D _ _ _ _ Hm Hk); done). congruence. }
  unfold inbox_match in Hq. unfold inbox_conflict. rewrite !orb_true_iff in Hq |- *. destruct Hq as [[H|H]|H]; [by left; left|by left; right|].
  right. rewrite !andb_true_iff in H. rewrite !andb_true_iff. destruct H as [[[Ha _] Hs] He]. split; [by split|].
  apply Bool.eqb_prop in He. pose proof (X k q Hk) as Hc. unfold inbox_checks in Hc. rewrite !andb_true_iff in Hc.
  destruct Hc as [[[[[Hc _] _] _] _] _]. rewrite !orb_true_iff in Hc. apply bool_decide_eq_true in Ha.
  apply orb_true_iff. destruct Hty as [Hty|Hty]; [left|right]; simpl; rewrite Hty, andb_true_r.
  - rewrite Hty in He. destruct Hc as [[Hc%bool_decide_eq_true|Hc]|Hc]; [by rewrite Hc in He|done|by rewrite like_outcome in He].
  - assert (isLifecycleEvent (EventType meta) = false) as E
      by (destruct (isLifecycleEvent _) eqn:E; [by destruct (lifecycle_not_outcome _ E Hty)|done]).
    rewrite E in He. destruct Hc as [[Hc%bool_decide_eq_true|Hc]|Hc]; [by destruct (Hap k q Hk Hc)|by rewrite like_lifecycle in He|done].
Qed.
Lemma insertInbox_again pick meta d t : Cursors d -> inbox d !! EventID meta = Some (inbox_of meta) -> apart meta d ->
  isLifecycleEvent (EventType meta) = true \/ isOutcomeEvent (EventType meta) = true ->
  working t = d -> insertInbox pick meta t = (Ok false, t).
Proof.
  intros HC Hm Hap Hty Hw. unfold insertInbox. rewrite run_get, Hw. unfold require.
  pose proof HC as [K X D _ _ _ _]. pose proof (X _ _ Hm) as ->. rewrite run_ret.
  assert (exists_row (inbox_conflict (inbox_of meta)) (inbox d) = true) as ->.
  { apply exists_row_true. exists (EventID meta), (inbox_of meta). split; [done|]. unfold inbox_conflict. by rewrite bool_decide_true. }
  assert (inbox_of meta ∈ where_ (inbox_match meta) (inbox d)) as Hin.
  { apply elem_where. split; [|eauto]. unfold inbox_match. simpl. by rewrite bool_decide_true. }
  unfold pick_row. destruct (where_ (inbox_match meta) (inbox d) !! _) as [q|] eqn:E.
  - unfold need. rewrite run_ret. apply list_elem_of_lookup_2, elem_where in E as [Hq (k & Hk)].
    rewrite (match_is_event _ _ _ _ HC Hm Hap Hty Hk Hq). simpl. rewrite !bool_decide_true by done. simpl. by rewrite run_ret.
  - apply lookup_ge_None in E. destruct (where_ (inbox_match meta) (inbox d)) as [|x l]; [by apply elem_of_nil in Hin|].
    pose proof (Nat.mod_upper_bound pick (length (x :: l))) as Hb. simpl in *. lia.
Qed.

Definition settled_life (meta : EventMeta) (s u : string) (d : db) : Prop :=
  inbox d !! EventID meta = Some (inbox_of meta) /\
  exists n, lifecycle d !! s = Some (u, n) /\ 1 <= AggregateSequence meta <= n.
Definition settled_outcome (meta : EventMeta) (k : string) (d : db) : Prop :=
  inbox d !! EventID meta = Some (inbox_of meta) /\ exists n, outcomes d !! k = Some n /\ 1 <= AggregateSequence meta <= n.
Lemma settled_life_keeps meta s u d d' : keeps d d' -> settled_life meta s u d -> settled_life meta s u d'.
Proof.
  intros Hk [Hi (n & Hl & Hn)]. split; [by apply (lookup_weaken _ _ _ _ Hi), (kp_inbox _ _ Hk)|].
  destruct (kp_life _ _ Hk _ _ _ Hl) as (n' & Hl' & Hle). exists n'. split; [done|lia].
Qed.
Lemma settled_outcome_keeps meta k d d' : keeps d d' -> settled_outcome meta k d -> settled_outcome meta k d'.
Proof.
  intros Hk [Hi (n & Hl & Hn)]. split; [by apply (lookup_weaken _ _ _ _ Hi), (kp_inbox _ _ Hk)|].
  destruct (kp_outcomes _ _ Hk _ _ Hl) as (n' & Hl' & Hle). exists n'. split; [done|lia].
Qed.
Lemma prepareLifecycle_again pick meta s u d : Inv d -> settled_life meta s u d -> apart meta d -> lifecycle_meta meta s ->
  prepareLifecycle pick meta s u (Txn d d) = (Ok false, Txn d d).
Proof.
  intros [_ HC] [Hi (n & Hl & Hn)] Hap [Hty Ha]. unfold prepareLifecycle, require.
  destruct (Z.leb_spec 1 (AggregateSequence meta)); [rewrite run_ret|lia]. rewrite run_get, run_modify. cbn [durable working].
  rewrite Hl. change (default (u, 0) (Some (u, n))) with (u, n). cbv beta iota. rewrite bool_decide_true, run_ret by done.
  destruct (Z.leb_spec (AggregateSequence meta) (n + 1)); [rewrite run_ret|lia].
  assert (set_lifecycle (fun m => match m !! s with Some _ => m | None => <[s:=(u,0)]> m end) d = d) as ->
    by (apply db_ext; try reflexivity; simpl; by rewrite Hl).
  unfold bind at 1. erewrite (insertInbox_again pick meta d); try done. by left.
Qed.
Lemma prepareOutcome_again pick meta k d : Inv d -> settled_outcome meta k d -> apart meta d -> outcome_meta meta k ->
  prepareOutcome pick meta k (Txn d d) = (Ok false, Txn d d).
Proof.
  intros [_ HC] [Hi (n & Hl & Hn)] Hap [Hty Ha]. unfold prepareOutcome, require.
  destruct (Z.leb_spec 1 (AggregateSequence meta)); [rewrite run_ret|lia]. rewrite run_get. cbn [durable working].
  rewrite Hl, run_ret. cbv zeta. change (default 0 (Some n)) with n. destruct (Z.leb_spec (AggregateSequence meta) (n + 1)); [rewrite run_ret|lia].
  unfold bind at 1. erewrite (insertInbox_again pick meta d); try done. by right.
Qed.

Lemma prepared_settled meta s u d b d1 d' : life_prepared meta s u d b d1 -> ~ seen meta d -> inbox d' = inbox d1 ->
  lifecycle d' = lifecycle d1 -> settled_life meta s u d'.
Proof.
  intros [H1 H2 H3 H4|n H1 H2] Hn Ei El; [|done]. unfold settled_life. rewrite Ei, El. simpl. split; [apply lookup_insert_eq|].
  eexists. split; [apply lookup_insert_eq|lia].
Qed.
Lemma outcome_settled meta k d b d1 d' : outcome_prepared meta k d b d1 -> ~ seen meta d -> inbox d' = inbox d1 ->
  outcomes d' = outcomes d1 -> settled_outcome meta k d'.
Proof.
  intros [H1 H2 H3 H4|n H1 H2] Hn Ei El; [|done]. unfold settled_outcome. rewrite Ei, El. simpl. split; [apply lookup_insert_eq|].
  eexists. split; [apply lookup_insert_eq|lia].
Qed.
Lemma fulfilled_frame now meta event kind d d' : payment_fulfilled now meta event kind d d' -> inbox d' = inbox d /\ lifecycle d' = lifecycle d.
Proof. by intros (r & -> & _). Qed.
Lemma period_settles now ev meta event seed d d' : period_applied now ev meta event seed d d' -> ~ seen meta d ->
  settled_life meta (per_SubscriptionID event) (per_UserID event) d'.
Proof.
  intros [d1 Hp|d1 Hp|d1 d2 Hp _ _ _ _ _ _ Hf|d1 c d2 Hp _ _ _ _ _ _ _ Hf|d1 c d2 Hp _ _ _ _ Hf] Hn;
    try (by eapply prepared_settled); destruct (fulfilled_frame _ _ _ _ _ _ Hf) as [E1 E2]; by eapply prepared_settled.
Qed.
Lemma terminal_settles now ev meta event id d d' : terminal_applied now ev meta event id d d' -> ~ seen meta d ->
  settled_life meta (te_SubscriptionID event) (te_UserID event) d'.
Proof. intros [] Hn; by eapply prepared_settled. Qed.
Lemma success_settles now ev rid meta event d d' : success_applied now ev rid meta event d d' -> ~ seen meta d ->
  settled_outcome meta (ps_CredentialID event) d'.
Proof. intros [] Hn; by eapply outcome_settled. Qed.
Lemma failed_settles now ev meta event kind d d' : failed_applied now ev meta event kind d d' -> ~ seen meta d ->
  settled_outcome meta (of_CredentialID event) d'.
Proof. intros [] Hn; by eapply outcome_settled. Qed.
Lemma revoke_settles now ev meta event d d' : revoke_applied now ev meta event d d' -> ~ seen meta d ->
  settled_outcome meta (rs_CredentialID event) d'.
Proof. intros [] Hn; by eapply outcome_settled. Qed.
Lemma replayed {A} (m : bool -> acc_tx A) p d a : p (Txn d d) = (Ok false, Txn d d) ->
  m false = (commit ;;; ret a) -> outcome (bind p m) d = (None, d).
Proof. intros Hp Hm. unfold outcome, in_tx, bind. rewrite Hp, Hm. done. Qed.

(** Events are applied once: after an event about a subscription or an
    outcome of provisioning has been applied, delivering it again, at any
    time and whatever clock and identifiers the second delivery draws,
    succeeds and changes nothing. *)
Theorem redelivered_event_changes_nothing d d1 d2 o o' meta :
  reachable d -> allowed o -> delivered o = Some meta -> ~ seen meta d -> exec o d = (None, d1) -> reaches d1 d2 ->
  apart meta d2 -> same_delivery o o' -> exec o' d2 = (None, d2).
Proof.
  intros HI%acc_reachable_inv Hok Hd Hn Hex Hr Hap Hs.
  assert (Good d d1) as HG1 by (replace d1 with (snd (exec o d)) by (by rewrite Hex); apply acc_exec_good; [by apply acc_Good_refl|done]).
  destruct (acc_reaches_good _ _ (proj1 HG1) Hr) as [HI2 Hkp].
  destruct o as [|now p ev m e sd|p m e|now p ev m e i|now p ev rid m e|now p ev m e kd|now p ev m e| | | | | | | |]; try done;
    injection Hd as ->; destruct o' as [|now' p' ev' m' e' sd'|p' m' e'|now' p' ev' m' e' i'|now' p' ev' rid' m' e'|now' p' ev' m' e' kd'|now' p' ev' m' e'| | | | | | | |];
    try done; cbn [exec] in *.
  - destruct Hs as [<- <-]. apply (exec_effect _ (fun d _ d' => period_applied now ev meta e sd d d')) in Hex as [_ Hex]; [|done|].
    2: { intros t [] t' HI' H. by eapply ApplyPeriod_ok. }
    apply period_settles in Hex; [|done]. eapply replayed; [|done].
    apply prepareLifecycle_again; [done|by eapply settled_life_keeps|done|done].
  - destruct Hs as [<- <-].
    apply (exec_effect _ (fun d _ d' => exists b, life_prepared meta (gr_SubscriptionID e) (gr_UserID e) d b d')) in Hex as (_ & b & Hex); [|done|].
    2: { intros t [] t' HI' (b & x & H & ->)%ApplyGrace_ok. eauto. }
    assert (settled_life meta (gr_SubscriptionID e) (gr_UserID e) d1) as Hset by (by eapply prepared_settled).
    eapply replayed; [|done]. apply prepareLifecycle_again; [done|by eapply settled_life_keeps|done|done].
  - destruct Hs as [<- <-]. apply (exec_effect _ (fun d _ d' => terminal_applied now ev meta e i d d')) in Hex as [_ Hex]; [|done|].
    2: { intros t [] t' HI' H. by eapply ApplyTerminal_ok. }
    apply terminal_settles in Hex; [|done]. eapply replayed; [|done].
    apply prepareLifecycle_again; [done|by eapply settled_life_keeps|done|done].
  - destruct Hs as [<- <-]. apply (exec_effect _ (fun d _ d' => success_applied now ev rid meta e d d')) in Hex as [_ Hex]; [|done|].
    2: { intros t [] t' HI' H. by eapply ApplyProvisionSucceeded_ok. }
    apply success_settles in Hex; [|done]. eapply replayed; [|done].
    apply prepareOutcome_again; [done|by eapply settled_outcome_keeps|done|apply Hok].
  - destruct Hs as (<- & <- & <-). apply (exec_effect _ (fun d _ d' => failed_applied now ev meta e kd d d')) in Hex as [_ Hex]; [|done|].
    2: { intros t [] t' HI' H. by eapply ApplyOperationFailed_ok. }
    apply failed_settles in Hex; [|done]. eapply replayed; [|done].
    apply prepareOutcome_again; [done|by eapply settled_outcome_keeps|done|apply Hok].
  - destruct Hs as [<- <-]. apply (exec_effect _ (fun d _ d' => revoke_applied now ev meta e d d')) in Hex as [_ Hex]; [|done|].
    2: { intros t [] t' HI' H. by eapply ApplyRevokeSucceeded_ok. }
    apply revoke_settles in Hex; [|done]. eapply replayed; [|done].
    apply prepareOutcome_again; [done|by eapply settled_outcome_keeps|done|apply Hok].
Qed.

(** ** Withdrawal *)

Lemma listAssigned_elem k rev d n : n ∈ listAssignedNodeIDs k rev d <-> (k, rev, n) ∈ assignments d.
Proof.
  unfold listAssignedNodeIDs. rewrite elem_order_by, list_elem_of_fmap. setoid_rewrite list_elem_of_In. setoid_rewrite filter_In.
  setoid_rewrite <- list_elem_of_In. setoid_rewrite elem_of_elements. setoid_rewrite bool_decide_eq_true. split.
  - intros ([a m] & -> & Ha & E). simpl in *. by subst.
  - intros H. by exists ((k, rev), n).
Qed.
Lemma listAssigned_NoDup k rev d : NoDup (listAssignedNodeIDs k rev d).
Proof.
  unfold listAssignedNodeIDs. rewrite order_by_perm.
  pose proof (NoDup_elements (assignments d)) as H. induction (elements (assignments d)) as [|[a m] l IH]; simpl; [constructor|].
  apply list.NoDup_cons in H as [H1 H2]. case_bool_decide as E; simpl in *; [|auto]. constructor; [|auto].
  rewrite list_elem_of_fmap. intros ([a' m'] & Em & Hin). simpl in Em. subst m'. rewrite list_elem_of_In, filter_In, bool_decide_eq_true in Hin.
  destruct Hin as [Hin Ea]. simpl in Ea. apply H1. subst. by apply list_elem_of_In.
Qed.
Lemma sameNodeSet_spec l l' : NoDup l -> sameNodeSet l l' = true <-> NoDup l' /\ forall n, n ∈ l <-> n ∈ l'.
Proof.
  intros Hl. unfold sameNodeSet. rewrite !andb_true_iff, !bool_decide_eq_true, forallb_forall.
  assert ((forall n, In n l -> bool_decide (n ∈ l') = true) <-> forall n, n ∈ l -> n ∈ l') as ->
    by (split; intros H n Hn; [apply list_elem_of_In, H in Hn; by apply bool_decide_eq_true in Hn|apply list_elem_of_In, H in Hn; by apply bool_decide_eq_true]).
  split.
  - intros [[Hlen Hnd] Hs]. split; [done|]. intros n. split; [apply Hs|]. intros Hn'. assert (l ≡ₚ l') as ->; [|done].
    apply submseteq_length_Permutation; [|lia]. by apply list.NoDup_submseteq.
  - intros [Hnd Hs]. split_and!; [|done|by intros n; apply Hs]. apply Permutation_length, list.NoDup_Permutation; done.
Qed.

(** A credential is not revoked by a step unless the step says so. *)
Definition none_revoked (d d' : db) : Prop := forall k c c', credentials d !! k = Some c -> credentials d' !! k = Some c' ->
  c_status c' = StRevoked -> c_status c = StRevoked.
Lemma none_revoked_same d d' : credentials d' = credentials d -> none_revoked d d'.
Proof. intros E k c c' H1 H2. rewrite E in H2. congruence. Qed.
Lemma none_revoked_insert d d' k c2 : credentials d' = <[k := c2]> (credentials d) -> c_status c2 <> StRevoked -> none_revoked d d'.
Proof.
  intros E Hs j c c' H1 H2. rewrite E, lookup_insert in H2. case_decide; [|congruence]. injection H2 as <-. done.
Qed.
Lemma period_none_revoked now ev meta event seed d d' : Inv d -> period_applied now ev meta event seed d d' -> none_revoked d d'.
Proof.
  intros HI H. destruct H as [d1 Hp|d1 Hp|d1 d2 Hp _ _ _ _ _ _ Hf|d1 c d2 Hp _ _ _ _ _ _ _ Hf|d1 c d2 Hp _ Hc _ _ Hf];
    pose proof (life_core _ _ _ _ _ _ Hp) as (Ec & _); try (by apply none_revoked_same); destruct Hf as (r & -> & _).
  - eapply none_revoked_insert; [simpl; by rewrite Ec|done].
  - eapply none_revoked_insert; [simpl; by rewrite Ec|done].
  - eapply none_revoked_insert; [simpl; by rewrite Ec|]. by apply (current_credential_Some _ _ _ HI Hc).
Qed.
Lemma terminal_none_revoked now ev meta event id d d' : terminal_applied now ev meta event id d d' -> none_revoked d d'.
Proof.
  intros H. destruct H as [d1 Hp|d1 Hp|d1 c Hp|d1 c Hp]; pose proof (life_core _ _ _ _ _ _ Hp) as (Ec & _);
    try (by apply none_revoked_same). eapply none_revoked_insert; [simpl; by rewrite Ec|done].
Qed.
Lemma success_none_revoked now ev rid meta event d d' : announced_status event -> success_applied now ev rid meta event d d' -> none_revoked d d'.
Proof.
  intros Hs H. destruct H as [d1 Hp|d1 c o Hp|d1 c o Hp|d1 c o id' o2 es asg Hp|d1 c o es asg Hp Ha|d1 c o es asg s Hp _ _ _ _ _ _ Es];
    pose proof (outcome_core _ _ _ _ _ Hp) as (Ec & _); try (by apply none_revoked_same).
  - eapply none_revoked_insert; [simpl; by rewrite Ec|done].
  - intros k x x' Hx Hx'. simpl in Hx'. rewrite Ec, !lookup_insert in Hx'. repeat case_decide; simplify_eq; done.
  - intros k x x' Hx Hx'. simpl in Hx'. rewrite Ec, !lookup_insert in Hx'.
    destruct Hs as [Hs|Hs]; rewrite Hs in Es; injection Es as <-; repeat case_decide; simplify_eq; done.
Qed.
Lemma failed_none_revoked now ev meta event kind d d' : failed_applied now ev meta event kind d d' -> none_revoked d d'.
Proof.
  intros H. destruct H as [d1 Hp|d1 c o Hp|d1 c o Hp|d1 c o Hp]; pose proof (outcome_core _ _ _ _ _ Hp) as (Ec & _);
    try (by apply none_revoked_same). intros k x x' Hx Hx'. simpl in Hx'. rewrite Ec, !lookup_insert in Hx'. repeat case_decide; simplify_eq; done.
Qed.
Lemma issued_none_revoked now sub operation seed d d' : token_issued now sub operation seed d d' -> none_revoked d d'.
Proof. intros []. by apply none_revoked_same. Qed.
Lemma recovery_none_revoked now ev input r d d' : recovery_done now ev input d r d' -> none_revoked d d'.
Proof. intros []; [by apply none_revoked_same|]. by eapply none_revoked_insert. Qed.
Lemma quiet_none_revoked {A} (m : acc_tx A) d : preserves (fun e => credentials e = credentials d) m ->
  none_revoked d (snd (outcome m d)).
Proof. intros H. apply none_revoked_same. rewrite acc_outcome_snd. by apply (preserves_in_tx (fun e => credentials e = credentials d)). Qed.
Lemma effect_cases {A} (m : acc_tx A) (P : db -> A -> db -> Prop) d : Inv d -> atomic m ->
  (forall t a t', Inv (working t) -> m t = (Ok a, t') -> exists d1, P (working t) a d1 /\ t' = Txn d1 d1) ->
  (exists e, outcome m d = (Some e, d)) \/ exists a d', outcome m d = (None, d') /\ P d a d'.
Proof.
  intros HI Ha Hm. unfold outcome. destruct (in_tx m d) as [[a|e] d'] eqn:Hr.
  - right. unfold in_tx in Hr. destruct (m (Txn d d)) as [[b|e'] t'] eqn:E; [|done]. injection Hr as <- <-.
    destruct (Hm (Txn d d) b t' HI E) as (d1 & H & ->). by exists b, d1.
  - left. exists e. by rewrite (atomic_in_tx _ _ _ _ Ha Hr).
Qed.
Lemma effect_none_revoked {A} (m : acc_tx A) (P : db -> A -> db -> Prop) d : Inv d -> atomic m ->
  (forall t a t', Inv (working t) -> m t = (Ok a, t') -> exists d1, P (working t) a d1 /\ t' = Txn d1 d1) ->
  (forall a d', P d a d' -> none_revoked d d') -> none_revoked d (snd (outcome m d)).
Proof.
  intros HI Ha Hm HP. destruct (effect_cases m P d HI Ha Hm) as [[e ->]|(a & d' & -> & H)]; simpl; [by apply none_revoked_same|eauto].
Qed.
Lemma others_none_revoked o d : Inv d -> allowed o -> (forall now p ev m e, o <> OpRemoved now p ev m e) ->
  none_revoked d (snd (exec o d)).
Proof.
  intros HI Hok Hne. destruct o as [p m e|now p ev m e sd|p m e|now p ev m e i|now p ev rid m e|now p ev m e kd|now p ev m e| | | | | | | |];
    cbn [exec]; try (by destruct (Hne now p ev m e)); try (by apply quiet_none_revoked; unfold touch_token, RecordCredentialMaterialAccess,
      RecordDeadLetter, ClaimOutbox, CompleteOutbox, RetryOutbox, update_out; tx_auto; apply preserves_modify; intros x Hx).
  - apply (effect_none_revoked _ (fun d _ d' => payment_applied m e d d')); [done|eauto with access| |].
    + intros t [] t' _ H. by eapply ApplyPaymentSucceeded_ok.
    + intros _ d' []; [by apply none_revoked_same|]. match goal with H : payment_recorded _ _ _ _ |- _ => destruct H as (r & -> & _) end.
      by apply none_revoked_same.
  - apply (effect_none_revoked _ (fun d _ d' => period_applied now ev m e sd d d')); [done|eauto with access| |].
    + intros t [] t' HI' H. by eapply ApplyPeriod_ok.
    + intros _ d' H. by eapply period_none_revoked.
  - apply (effect_none_revoked _ (fun d _ d' => exists b, life_prepared m (gr_SubscriptionID e) (gr_UserID e) d b d'));
      [done|eauto with access| |].
    + intros t [] t' _ (b & x & H & ->)%ApplyGrace_ok. eauto.
    + intros _ d' (b & (E & _)%life_core). by apply none_revoked_same.
  - apply (effect_none_revoked _ (fun d _ d' => terminal_applied now ev m e i d d')); [done|eauto with access| |].
    + intros t [] t' HI' H. by eapply ApplyTerminal_ok.
    + intros _ d' H. by eapply terminal_none_revoked.
  - apply (effect_none_revoked _ (fun d _ d' => success_applied now ev rid m e d d')); [done|eauto with access| |].
    + intros t [] t' HI' H. by eapply ApplyProvisionSucceeded_ok.
    + intros _ d' H. eapply success_none_revoked; [apply Hok|done].
  - apply (effect_none_revoked _ (fun d _ d' => failed_applied now ev m e kd d d')); [done|eauto with access| |].
    + intros t [] t' HI' H. by eapply ApplyOperationFailed_ok.
    + intros _ d' H. by eapply failed_none_revoked.
  - apply (effect_none_revoked _ (fun d _ d' => token_issued now subscriptionID operation seed d d')); [done|eauto with access| |].
    + intros t [] t' _ H. by eapply IssueToken_ok.
    + intros _ d' H. by eapply issued_none_revoked.
  - apply (effect_none_revoked _ (fun d r d' => recovery_done now newEvent input d r d')); [done|eauto with access| |].
    + intros t r t' HI' H. by eapply RecoverProvisioning_ok.
    + intros r d' H. by eapply recovery_none_revoked.
Qed.

(** C28: Access counts as withdrawn only when it is: whatever the store is
    asked, a credential becomes revoked only by the success of its current
    revocation, for the allocation in force and naming exactly the nodes
    assigned to it, and users are told. *)
Theorem withdrawn_only_when_removed d o k c c1 :
  reachable d -> allowed o -> credentials d !! k = Some c -> credentials (snd (exec o d)) !! k = Some c1 ->
  c_status c <> StRevoked -> c_status c1 = StRevoked ->
  exists now pick ev meta event, o = OpRemoved now pick ev meta event /\ rs_CredentialID event = k /\
    c_status c = StRevoking /\ rs_DesiredRevision event = c_version c /\ rs_AllocationRevision event = c_allocation_revision c /\
    NoDup (rs_NodeIDs event) /\ (forall n, n ∈ rs_NodeIDs event <-> (k, c_allocation_revision c, n) ∈ assignments d) /\
    c_revoked_at c1 = Some now /\
    exists r, outbox (snd (exec o d)) !! ev = Some r /\ o_aggregate_id r = k /\ o_topic r = "access.revoked.v1"%string.
Proof.
  intros HI%acc_reachable_inv Hok Hk Hk1 Hs Hs1.
  destruct o as [| | | | | |now p ev m e| | | | | | | |]; try (destruct Hs; by apply (others_none_revoked _ d HI Hok) with (k:=k) (c':=c1)).
  exists now, p, ev, m, e. cbn [exec] in *.
  destruct (effect_cases (ApplyRevokeSucceeded now p ev m e) (fun d _ d' => revoke_applied now ev m e d d') d) as
    [[x Ex]|([] & d' & Ex & Ha)]; [done|eauto with access|intros t [] t' HI' H; by eapply ApplyRevokeSucceeded_ok|rewrite Ex in Hk1; simpl in Hk1; congruence|].
  rewrite Ex in Hk1 |- *. simpl in Hk1 |- *.
  destruct Ha as [d1 Hp|d1 c0 o Hp|d1 c0 o reason Hp Ha Ho Hv Hr Hal Hn Hev Hchk];
    pose proof (outcome_core _ _ _ _ _ Hp) as (E1 & E2 & E3 & E4 & E5 & E6); try congruence.
  simpl in Hk1. rewrite E1, !lookup_insert in Hk1. pose proof (about_current _ _ _ _ _ _ _ HI Ha Hv) as Hcur. destruct Ha as [Hkk Hid Eo Ek Er].
  destruct (decide (rs_CredentialID e = k)) as [Eq|]; [|congruence]. subst k. assert (c0 = c) as -> by congruence.
  injection Hk1 as <-. apply sameNodeSet_spec in Hn as [Hnd Hn]; [|apply listAssigned_NoDup].
  split_and!; try done.
  - by eapply pending_revoking.
  - intros n. by rewrite <- Hn, listAssigned_elem, Hal.
  - eexists. split; [apply lookup_insert_eq|done].
Qed.

(** ** Errors *)

Lemma clean {A} (m : acc_tx A) d e d1 : atomic m -> outcome m d = (Some e, d1) -> d1 = d.
Proof. intros Ha. unfold outcome. destruct (in_tx m d) as [[a|x] d'] eqn:Hr; [done|]. intros [= <- <-]. by eapply atomic_in_tx. Qed.
Lemma update_out_clean ev f d e d1 : Inv d -> outcome (update_out ev f) d = (Some e, d1) -> d1 = d.
Proof.
  intros [[KC KO KB KE KT KR] _]. unfold outcome, in_tx, update_out. rewrite run_get. cbv zeta. rewrite run_modify, run_commit.
  cbn [durable working]. unfold require. case_bool_decide as Hc; [done|]. simpl. intros [= _ <-].
  match type of Hc with count_where ?p _ <> _ => assert (count_where p (outbox d) = 0%nat) as H0 end.
  { match goal with |- count_where ?p _ = _ => pose proof (count_unique p (outbox d)) as Hu end.
    apply Nat.le_1_r in Hu as [|]; [done|done|]. intros k k' r r' Hk Hk' H1 H2.
    apply andb_true_iff in H1 as [H1%bool_decide_eq_true _], H2 as [H2%bool_decide_eq_true _].
    rewrite <- (ob_key _ _ _ KB _ _ Hk), <- (ob_key _ _ _ KB _ _ Hk'). congruence. }
  apply db_ext; try reflexivity. simpl. by rewrite (update_where_none _ _ _ H0).
Qed.

(** An operation that fails leaves the store as it was: a refused event,
    request or delivery report has no effect at all. *)
Theorem access_errors_are_clean d o e d1 : reachable d -> exec o d = (Some e, d1) -> d1 = d.
Proof.
  intros HI%acc_reachable_inv. destruct o; cbn [exec]; intros H; try (eapply clean; [|exact H]; solve [eauto with access]).
  - eapply clean; [|exact H]. unfold touch_token. tx_auto.
  - eapply clean; [|exact H]. unfold RecordCredentialMaterialAccess. tx_auto.
  - eapply clean; [|exact H]. unfold RecordDeadLetter. tx_auto.
  - eapply clean; [|exact H]. unfold ClaimOutbox. tx_auto.
  - by eapply update_out_clean.
  - by eapply update_out_clean.
Qed.

(** ** Subscription URLs *)

(** What a drawn token must be: hashes have 32 bytes, do not collide with
    known ones, and the request is well-formed. *)
Definition token_drawn (operation : string) (seed : TokenSeed) (d : db) : Prop :=
  go_len (ts_LookupHMAC seed) = 32 /\ 0 < ts_LookupHMACVersion seed /\ tokens d !! ts_TokenID seed = None /\
  (forall k t, tokens d !! k = Some t -> t_hmac t <> ts_LookupHMAC seed) /\
  length_between 8 128 (ts_IdempotencyKey seed) = true /\ operation ∈ url_operations /\
  sha256_text (ts_RequestSHA256 seed) = true.

Lemma insert_token_run tok t : go_len (t_hmac tok) = 32 -> 0 < t_hmac_version tok -> token_fresh tok (tokens (working t)) ->
  insert_token tok t = (Ok tt, Txn (durable t) (set_tokens (insert (t_id tok) tok) (working t))).
Proof.
  intros H1 H2 [H3 H4]. unfold insert_token, require. rewrite run_get, H1, H3, bool_decide_true, (proj2 (Z.ltb_lt _ _) H2) by done.
  simpl. match goal with |- context [exists_row ?p ?m] => assert (exists_row p m = false) as -> end; [|done].
  apply exists_row_false. intros k q Hk. apply bool_decide_eq_false. destruct (H4 k q Hk). naive_solver.
Qed.
Lemma insert_url_run key sub operation hash tok t : length_between 8 128 key = true -> operation ∈ url_operations ->
  sha256_text hash = true -> url_idempotency (working t) !! key = None ->
  insert_url key sub operation hash tok t = (Ok tt, Txn (durable t) (set_urls (insert key (MkUrlRow sub operation hash tok)) (working t))).
Proof. intros H1 H2 H3 H4. unfold insert_url, require. rewrite run_get, H1, H3, H4, !bool_decide_true by done. done. Qed.
Lemma rotated_fresh now d k seed c : Inv d -> active_token k d = active_token (c_id c) d -> k = c_id c ->
  tokens d !! ts_TokenID seed = None -> (forall j t, tokens d !! j = Some t -> t_hmac t <> ts_LookupHMAC seed) ->
  token_fresh (issued_token now seed c (active_token k d)) (rotated now (active_token k d) (tokens d)).
Proof.
  intros HI _ -> Hn Hh. pose proof HI as [[KC KO KB KE KT KR] _]. split.
  - simpl. destruct (rotated _ _ _ !! _) as [q|] eqn:E; [|done]. apply rotated_lookup in E as (q0 & Hq & _). congruence.
  - intros j q Hj. destruct (rotated_lookup _ _ _ _ _ Hj) as (q0 & Hq & Eq).
    split; [destruct Eq as [-> | ->]; apply (Hh j q0 Hq)|].
    simpl. intros Ec Ha. destruct Eq as [-> | ->]; [|done]. destruct (active_token (c_id c) d) as [p|] eqn:Ep.
    + apply active_token_Some in Ep as (Hp & E1 & E2); [|done].
      assert (j = t_id p) as -> by (apply (tk_active _ _ _ KT j (t_id p) q0 p); congruence).
      simpl in Hj. rewrite lookup_alter_eq, Hp in Hj. assert (q0 = p) as -> by congruence. injection Hj as E.
      rewrite <- E in Ha. done.
    + pose proof (where_head_None _ _ Ep j q0 Hq) as H. simpl in H. rewrite !bool_decide_true in H by done. done.
Qed.

(** A subscription URL is issued exactly when it may be: on a key not
    used before, the request needs a current credential that is ready and
    whose entitlement is not over, a first URL needs that none is active, a
    rotation that one is; then the new token ends with the entitlement, the
    rotated one stops at once, and the key remembers the request. A key
    already used never issues a token again. *)
Theorem IssueToken_effect d now sub operation seed :
  reachable d -> token_drawn operation seed d ->
  exec (OpIssueToken now sub operation seed) d =
  match url_idempotency d !! ts_IdempotencyKey seed with
  | Some u => (Some (if bool_decide (u_subscription_id u = sub /\ u_operation u = operation /\
                                    u_request_sha256 u = ts_RequestSHA256 seed)
                     then ErrIdempotencyReplay else ErrIdempotencyConflict), d)
  | None =>
      match current_credential sub d with
      | Some c =>
          if ready_status (c_status c) && (now <? c_expires_at c) then
            match bool_decide (operation = "issue"%string), active_token (c_id c) d with
            | true, Some _ => (Some ErrAlreadyIssued, d)
            | false, None => (Some ErrNotFound, d)
            | _, previous => (None, url_issued now sub operation seed c previous d)
            end
          else (Some ErrNotReady, d)
      | None => (Some ErrNotReady, d)
      end
  end.
Proof.
  intros HI%acc_reachable_inv (H1 & H2 & H3 & H4 & H5 & H6 & H7). cbn [exec]. unfold outcome, in_tx, IssueToken.
  rewrite run_get. cbn [working]. destruct (url_idempotency d !! _) as [u|] eqn:Eu.
  { unfold throw. cbn [durable]. do 2 f_equal. repeat case_bool_decide; simpl; naive_solver. }
  destruct (current_credential sub d) as [c|] eqn:Ec; [|done]. unfold need at 1. rewrite run_ret. unfold require at 1.
  fold (ready_status (c_status c)). destruct (ready_status _ && _); [rewrite run_ret|done]. cbv zeta.
  pose proof (rotated_fresh now d (c_id c) seed c HI eq_refl eq_refl H3 H4) as Hf.
  assert (forall w, set_tokens (rotated now (active_token (c_id c) d)) d = w ->
    forall x, (insert_token (issued_token now seed c (active_token (c_id c) d)) ;;;
      insert_url (ts_IdempotencyKey seed) sub operation (ts_RequestSHA256 seed) (ts_TokenID seed) ;;; commit) (Txn d w) = x ->
    x = (Ok tt, Txn (url_issued now sub operation seed c (active_token (c_id c) d) d)
                    (url_issued now sub operation seed c (active_token (c_id c) d) d))) as Hrun.
  { intros w <- x <-. rewrite (bind_ok _ _ _ _ _ (insert_token_run (issued_token now seed c (active_token (c_id c) d))
      (Txn d (set_tokens (rotated now (active_token (c_id c) d)) d)) H1 H2 Hf)). cbn [durable working].
    erewrite bind_ok; [|by apply insert_url_run]. unfold commit. cbn [durable working]. do 2 f_equal; same_db. }
  unfold issued_token in Hrun. case_bool_decide as Eop; destruct (active_token (c_id c) d) as [p|] eqn:Ep; try done.
  - unfold require. rewrite bool_decide_true, run_ret by done. assert (set_tokens (rotated now None) d = d) as Hd by (by destruct d).
    by rewrite (Hrun _ Hd _ eq_refl).
  - erewrite (bind_ok _ _ _ tt (Txn d (set_tokens (rotated now (Some p)) d))); [|reflexivity].
    by rewrite (Hrun _ eq_refl _ eq_refl).
Qed.
