(* ===== verification/AccessDemo.v ===== *)
(** * access-service: runs of the store

    Concrete histories, at which the theorems of AccessSpec.v are applied. *)

From Stdlib Require Import List.
From S2P Require Import Prelude GoStrings Backoff Platform AccessDomain AccessStore AccessInv AccessSteps AccessLifecycle AccessOutcomes AccessSpec.

Module AccessRuns.
Local Open Scope string_scope.
Definition hash : string := "0123456789abcdef0123456789abcdef0123456789abcdef0123456789abcdef".
Definition other_hash : string := "fedcba9876543210fedcba9876543210fedcba9876543210fedcba9876543210".
Definition ciphertext : string := "0123456789abcdef0123456789abcdef".
Definition meta (id type agg : string) (seq off : Z) : EventMeta :=
  MkEventMeta id type agg seq "user:u1" "corr" None 0 type 0 off hash.
Definition period (id type : string) (seq off : Z) (payment : string) (start until : Z) (k o : string) (now : Z) (ev : string) : op :=
  OpPeriod now 0 ev (meta id type "s1" seq off) (MkPeriod "s1" "u1" "p1" "ord1" payment start until until)
    (MkCredentialSeed k o ciphertext 1).
Definition node (n role : string) : EndpointSnapshot :=
  MkEndpoint n role "vpn.example.org" 443 "www.example.org" "0123456789abcdef0123456789abcdef0123456789a" "ab12" "" "Server".
Definition ready (id o : string) (seq off rev now : Z) (ev : string) : op :=
  OpProvisioned now 0 ev (ev +:+ "-revoke") (meta id "access.provision.succeeded.v1" "c1" seq off)
    (MkProvisionSucceeded o "c1" rev "active" ["n1"; "n2"] [node "n1" "primary"; node "n2" "failover"] now).
Definition token_seed (id key : string) (h : string) : TokenSeed := MkTokenSeed id h 1 key hash.
Definition hmac1 : string := "token-one-hmac-token-one-hmac-01".
Definition hmac2 : string := "token-two-hmac-token-two-hmac-02".
Definition seed1 : TokenSeed := token_seed "t1" "url-key-1" hmac1.
Definition seed2 : TokenSeed := token_seed "t2" "url-key-2" hmac2.
Definition terminal_meta : EventMeta := meta "e2" "subscription.revoked.v1" "s1" 2 2.
Definition terminal_event : TerminalEvent := MkTerminal "s1" "u1" "refund" [] 400.
Definition removed_meta : EventMeta := meta "r2" "access.revoke.succeeded.v1" "c1" 2 4.
Definition removed (rev alloc : Z) (o : string) : RevokeSucceeded := MkRevokeSucceeded o "c1" rev alloc true ["n2"; "n1"] 500.

(** A period is bought, access is provisioned, a URL issued and rotated. *)
Definition setup : list op :=
  [period "e1" "subscription.activated.v1" 1 1 "pay1" 0 1000 "c1" "o1" 100 "m1";
   OpClaimOutbox 101 50 ∅; OpCompleteOutbox 102 "m1";
   ready "r1" "o1" 1 3 1 200 "m2";
   OpIssueToken 210 "s1" "issue" seed1].
Definition d_issued : db := Eval vm_compute in exec_all setup empty_db.
Definition end_of_access : op := OpTerminal 400 0 "m3" terminal_meta terminal_event "o2".
Definition d_ended : db := Eval vm_compute in snd (exec end_of_access d_issued).
Definition removal : op := OpRemoved 500 0 "m4" removed_meta (removed 2 1 "o2").
Definition d_removed : db := Eval vm_compute in snd (exec removal d_ended).

Example setup_runs : results setup empty_db = [None; None; None; None; None].
Proof. vm_compute. reflexivity. Qed.
Example end_runs : fst (exec end_of_access d_issued) = None /\ fst (exec removal d_ended) = None.
Proof. vm_compute. done. Qed.
Definition c_issued : credential_row := Eval vm_compute in
  default (MkCred "" "" "" StFailed 0 "" 0 0 None None 0 0 0 0) (credentials d_issued !! "c1").
Definition c_ended : credential_row := Eval vm_compute in default c_issued (credentials d_ended !! "c1").
Definition c_removed : credential_row := Eval vm_compute in default c_issued (credentials d_removed !! "c1").
Example life_views : (view c_issued, view c_ended, view c_removed) =
  (MkView StActive 1 1000 1, MkView StRevoking 2 1000 1, MkView StRevoked 2 1000 1).
Proof. reflexivity. Qed.
Definition t_issued : token_row := Eval vm_compute in
  default (MkToken "" "" "" 0 TkExpired 0 None None None 0) (tokens d_issued !! "t1").

Ltac allow := repeat constructor; simpl; unfold lifecycle_meta, outcome_meta, announced_status; naive_solver.
Lemma setup_allowed : Forall allowed setup.
Proof. allow. Qed.
Lemma issued_reachable : reachable d_issued.
Proof. exact (acc_reaches_all setup empty_db setup_allowed). Qed.
Lemma end_allowed : allowed end_of_access.
Proof. allow. Qed.
Lemma removal_allowed : allowed removal.
Proof. allow. Qed.
Lemma ended_reaches : reaches d_issued d_ended.
Proof. exact (reaches_step _ _ end_of_access (reaches_here _) end_allowed). Qed.
Lemma ended_reachable : reachable d_ended.
Proof. exact (acc_reaches_trans _ _ _ issued_reachable ended_reaches). Qed.
Lemma removed_reaches : reaches d_ended d_removed.
Proof. exact (reaches_step _ _ removal (reaches_here _) removal_allowed). Qed.

Lemma credential_follows_machine_witness :
  c_status c_issued = StActive /\ exists c', credentials d_removed !! "c1" = Some c' /\ rtc view_step (view c_issued) (view c').
Proof.
  split; [reflexivity|].
  destruct (credential_follows_machine d_issued d_removed "c1" c_issued issued_reachable
    (acc_reaches_trans _ _ _ ended_reaches removed_reaches) ltac:(vm_compute; reflexivity)) as (c' & H1 & _ & H2 & _).
  exists c'. split; [exact H1|exact H2].
Defined.
Lemma operations_are_commanded_witness :
  c_version c_ended = 2 /\ forall n, 1 <= n <= 2 -> exists id o j r, operations d_ended !! id = Some o /\ op_revision o = n /\
    outbox d_ended !! j = Some r /\ env_Data (o_payload r) = CommandData id "c1" n.
Proof.
  split; [reflexivity|]. intros n Hn.
  destruct (proj1 (operations_are_commanded d_ended "c1" c_ended ended_reachable ltac:(vm_compute; reflexivity)) n Hn)
    as (id & o & j & r & H1 & _ & H2 & H3 & _ & H4 & _).
  exists id, o, j, r. split_and!; [exact H1|exact H2|exact H3|exact H4].
Defined.
Lemma status_is_backed_witness :
  exists id o, operations d_issued !! id = Some o /\ op_credential_id o = "c1" /\ op_revision o = 1 /\ op_status o = OpSucceeded.
Proof.
  destruct (proj1 (status_is_backed d_issued "c1" c_issued issued_reachable ltac:(vm_compute; reflexivity)))
    as (id & o & H1 & H2 & H3 & _ & H4 & _).
  exists id, o. split_and!; [exact H1|exact H2|exact H3|exact H4].
Defined.
Lemma lookup_serves_the_entitled_witness :
  lookup_token 300 0 [hmac2; hmac1] d_issued = Ok (t_issued, c_issued) /\ 300 < c_expires_at c_issued /\
  list_endpoints "c1" d_issued = [node "n1" "primary"; node "n2" "failover"] /\
  exists c', credentials d_issued !! "c1"%string = Some c' /\ c_allocation_revision c' = c_version c_issued.
Proof.
  assert (lookup_token 300 0 [hmac2; hmac1] d_issued = Ok (t_issued, c_issued)) as H by (vm_compute; reflexivity).
  destruct (lookup_serves_the_entitled d_issued d_issued 300 0 [hmac2; hmac1] t_issued c_issued issued_reachable H (acc_reaches_all [] d_issued (Forall_nil_2 _)))
    as (_ & _ & _ & _ & H1 & _ & _ & _ & _ & _ & H2).
  split; [exact H|]. split; [exact H1|]. split; [vm_compute; reflexivity|].
  destruct (H2 (node "n1" "primary")) as (c' & H3 & _ & _ & _ & H4); [vm_compute; left|].
  exists c'. split; [exact H3|]. apply H4. vm_compute in H3. by injection H3 as <-.
Defined.
Lemma not_seen (m : EventMeta) d : forallb (fun q => negb (bool_decide (i_event_id q = EventID m))) (rows (inbox d)) = true -> ~ seen m d.
Proof.
  rewrite forallb_forall. intros H (k & q & Hk & E & _). assert (In q (rows (inbox d))) as Hin by (apply list_elem_of_In, elem_rows; eauto).
  apply H in Hin. by rewrite bool_decide_true in Hin.
Qed.
(** Bought again, provisioned again: the old token stays dead. *)
Definition restart : list op :=
  [period "e3" "subscription.activated.v1" 3 5 "pay2" 600 2000 "c9" "o3" 600 "m5"; ready "r2'" "o3" 2 6 3 700 "m6"].
Definition d_restarted : db := Eval vm_compute in exec_all restart d_ended.
Example restart_runs : results restart d_ended = [None; None] /\
  (view <$> credentials d_restarted !! "c1") = Some (MkView StActive 3 2000 3).
Proof. vm_compute. done. Qed.
Lemma restart_allowed : Forall allowed restart.
Proof. allow. Qed.
Lemma ended_access_is_cut_off_witness :
  (view <$> credentials d_restarted !! "c1") = Some (MkView StActive 3 2000 3) /\
  forall now' pick' lookups t c', lookup_token now' pick' lookups d_restarted = Ok (t, c') -> t_credential_id t = "c1" ->
    tokens d_issued !! t_id t = None.
Proof.
  split; [vm_compute; reflexivity|].
  exact (proj2 (ended_access_is_cut_off d_issued d_ended d_restarted 400 0 "m3" terminal_meta terminal_event "o2" c_issued
    issued_reachable end_allowed (not_seen terminal_meta d_issued ltac:(vm_compute; reflexivity)) ltac:(vm_compute; reflexivity)
    ltac:(vm_compute; reflexivity) ltac:(vm_compute; reflexivity) (acc_reaches_all restart d_ended restart_allowed))).
Defined.
Lemma events_applied_in_order_witness :
  (1 <= 1 <= 2 <-> exists k q, inbox d_ended !! k = Some q /\ isLifecycleEvent (i_event_type q) = true /\
    i_aggregate_id q = "s1" /\ i_sequence q = 1) /\
  (1 <= 3 <= 2 <-> exists k q, inbox d_ended !! k = Some q /\ isLifecycleEvent (i_event_type q) = true /\
    i_aggregate_id q = "s1" /\ i_sequence q = 3).
Proof.
  pose proof (proj1 (events_applied_in_order d_ended ended_reachable) "s1" "u1" 2 ltac:(vm_compute; reflexivity)) as H.
  exact (conj (H 1) (H 3)).
Defined.
Lemma apart_check (m : EventMeta) d : forallb (fun q => negb (bool_decide (i_event_type q = "billing.payment.succeeded.v1")) ||
  negb (bool_decide (i_aggregate_id q = AggregateID m))) (rows (inbox d)) = true -> apart m d.
Proof.
  rewrite forallb_forall. intros H k q Hk E1 E2. assert (In q (rows (inbox d))) as Hin by (apply list_elem_of_In, elem_rows; eauto).
  apply H in Hin. by rewrite !bool_decide_true in Hin.
Qed.
Lemma redelivered_event_changes_nothing_witness :
  exec (OpTerminal 900 7 "m9" terminal_meta terminal_event "o9") d_removed = (None, d_removed).
Proof.
  exact (redelivered_event_changes_nothing d_issued d_ended d_removed end_of_access
    (OpTerminal 900 7 "m9" terminal_meta terminal_event "o9") terminal_meta issued_reachable end_allowed eq_refl
    (not_seen terminal_meta d_issued ltac:(vm_compute; reflexivity)) ltac:(vm_compute; reflexivity) removed_reaches
    (apart_check terminal_meta d_removed ltac:(vm_compute; reflexivity)) (conj eq_refl eq_refl)).
Defined.
Lemma withdrawn_only_when_removed_witness :
  exists now pick ev m event, removal = OpRemoved now pick ev m event /\
    forall n, n ∈ rs_NodeIDs event <-> ("c1", 1, n) ∈ assignments d_ended.
Proof.
  destruct (withdrawn_only_when_removed d_ended removal "c1" c_ended c_removed ended_reachable removal_allowed
    ltac:(vm_compute; reflexivity) ltac:(vm_compute; reflexivity) ltac:(discriminate) eq_refl)
    as (now & p & ev & m & e & H1 & _ & _ & _ & _ & _ & H2 & _).
  exists now, p, ev, m, e. split; [exact H1|exact H2].
Defined.
Lemma access_errors_are_clean_witness :
  fst (exec (OpIssueToken 450 "s1" "rotate" seed2) d_ended) = Some ErrNotReady /\
  snd (exec (OpIssueToken 450 "s1" "rotate" seed2) d_ended) = d_ended.
Proof.
  split; [vm_compute; reflexivity|].
  exact (access_errors_are_clean d_ended (OpIssueToken 450 "s1" "rotate" seed2) ErrNotReady _ ended_reachable ltac:(vm_compute; reflexivity)).
Defined.
Lemma seed2_drawn : token_drawn "rotate" seed2 d_issued.
Proof.
  split_and!; try reflexivity; try (vm_compute; reflexivity).
  - intros k t Hk E. assert (forallb (fun t => negb (bool_decide (t_hmac t = hmac2))) (rows (tokens d_issued)) = true) as H by (vm_compute; reflexivity).
    rewrite forallb_forall in H. assert (In t (rows (tokens d_issued))) as Hin by (apply list_elem_of_In, elem_rows; eauto).
    apply H in Hin. by rewrite bool_decide_true in Hin.
  - unfold url_operations. set_solver.
Qed.
Lemma IssueToken_effect_witness :
  exec (OpIssueToken 220 "s1" "rotate" seed2) d_issued =
    (None, url_issued 220 "s1" "rotate" seed2 c_issued (Some t_issued) d_issued) /\
  t_status <$> tokens (snd (exec (OpIssueToken 220 "s1" "rotate" seed2) d_issued)) !! "t1" = Some TkRotated.
Proof.
  split; [|vm_compute; reflexivity].
  exact (IssueToken_effect d_issued 220 "s1" "rotate" seed2 issued_reachable seed2_drawn).
Defined.

(** ** Two gaps *)

(** A revocation that succeeds after the subscription was bought again: the
    credential no longer has a reason, and reading it fails where the code
    means to see that the revision is no longer current. The event is refused
    each time it is delivered. *)
Definition late_removal : op := OpRemoved 650 0 "m7" removed_meta (removed 2 1 "o2").
Definition d_bought_again : db := Eval vm_compute in exec_all (firstn 1 restart) d_ended.
Example late_removal_is_refused :
  results (firstn 1 restart) d_ended = [None] /\
  exec late_removal d_bought_again = (Some (ErrSQL "select revoke operation"), d_bought_again).
Proof. vm_compute. done. Qed.
End AccessRuns.
