(* ===== verification/AccessProfile.v ===== *)
(** * access-service: the profile clients download

    src/services/access/internal/happ/render.go: validation of an endpoint
    and the list of links a client reads. *)

From Stdlib Require Import Ascii List Sorted.
From S2P Require Import Prelude GoStrings Sha256 Backoff GoText Platform AccessDomain AccessStore.

(** ** Validation *)

Definition trim_suffix_dot (s : string) : string :=
  match String.length s with
  | O => s
  | S n => if bool_decide (String.get n s = Some "."%char) then String.substring 0 n s else s
  end.
Definition host_byte (c : ascii) : bool := alnum c || Ascii.eqb c "-".
Definition first_byte (s : string) : option ascii := String.get 0 s.
Definition last_byte (s : string) : option ascii := String.get (String.length s - 1) s.
Definition host_label (label : string) : bool :=
  (1 <=? go_len label) && (go_len label <=? 63) && negb (bool_decide (first_byte label = Some "-"%char)) &&
  negb (bool_decide (last_byte label = Some "-"%char)) && all_bytes host_byte label.
Definition newlines : string := String "013" (String "010" "").
Definition validHost (value : string) (allowIP : bool) : bool :=
  if bool_decide (value = ""%string) || (253 <? go_len value) || negb (bool_decide (TrimSpace value = value)) ||
     contains_any newlines value then false
  else if ParseIP value then allowIP
  else forallb host_label (split_on "." (trim_suffix_dot value)).

Definition ValidateEndpoint (e : EndpointSnapshot) : bool :=
  (bool_decide (Role e = "primary"%string) || bool_decide (Role e = "failover"%string)) &&
  validHost (Address e) true && (1 <=? Port e) && (Port e <=? 65535) &&
  validHost (ServerName e) false && realityPublicKeyPattern (RealityPublicKey e) && shortIDPattern (ShortID e) &&
  negb (bool_decide (Label e = ""%string)) && negb (contains_any newlines (Label e)) && (go_len (Label e) <=? 64) &&
  negb (contains_any newlines (SpiderX e)) && (go_len (SpiderX e) <=? 255).

Definition uuidLike (value : string) : bool :=
  matches (repeat hex 8 ++ [dash] ++ repeat hex 4 ++ [dash] ++ repeat hex 4 ++ [dash] ++ repeat hex 4 ++ [dash] ++ repeat hex 12) value.

(** ** Rendering *)

Definition query_values (e : EndpointSnapshot) : gmap string string :=
  let query : gmap string string :=
    <["encryption" := "none"]> (<["flow" := "xtls-rprx-vision"]> (<["fp" := "chrome"]> (<["headerType" := "none"]>
      (<["pbk" := RealityPublicKey e]> (<["security" := "reality"]> (<["sid" := ShortID e]> (<["sni" := ServerName e]>
         (<["type" := "tcp"]> ∅))))))))%string in
  if bool_decide (SpiderX e = ""%string) then query else <["spx"%string := SpiderX e]> query.
(** [url.URL.String] of a URL with a user, a host, a query and a fragment;
    validated user and host need no escape. *)
Definition vless_link (vlessUUID : string) (e : EndpointSnapshot) : string :=
  ("vless://" +:+ vlessUUID +:+ "@" +:+ JoinHostPort (Address e) (decimal (Port e)) +:+
   "?" +:+ Encode (query_values e) +:+ "#" +:+ FragmentEscape (Label e))%string.
Definition renderEndpoint (vlessUUID : string) (e : EndpointSnapshot) : option string :=
  if ValidateEndpoint e then Some (vless_link vlessUUID e) else None.
Fixpoint render_lines (vlessUUID : string) (l : list EndpointSnapshot) : option (list string) :=
  match l with
  | [] => Some []
  | e :: l' => line ← renderEndpoint vlessUUID e; lines ← render_lines vlessUUID l'; Some (line :: lines)
  end.
Definition newline : string := String "010" "".
Definition Render (vlessUUID : string) (endpoints : list EndpointSnapshot) : option string :=
  if negb (uuidLike vlessUUID) then None
  else match render_lines vlessUUID (order_by snapshot_before endpoints) with
       | None => None
       | Some [] => None
       | Some lines => Some (join newline lines +:+ newline)%string
       end.

(** ** The reader *)

Record profile_link := MkLink {
  pl_user : string;
  pl_host : string;
  pl_port : Z;
  pl_query : list (string * string);
  pl_label : string
}.
Definition read_host (s : string) : option (string * string) :=
  match s with
  | String "[" s' => '(h, rest) ← cut_on "]" s'; match rest with String ":" p => Some (h, p) | _ => None end
  | _ => cut_on ":" s
  end.
Fixpoint read_pairs (l : list string) : option (list (string * string)) :=
  match l with
  | [] => Some []
  | kv :: l' =>
      '(k, v) ← cut_on "=" kv; k' ← url_unescape true k; v' ← url_unescape true v; rest ← read_pairs l'; Some ((k', v') :: rest)
  end.
Definition read_link (line : string) : option profile_link :=
  s ← strip_prefix "vless://" line;
  '(user, s) ← cut_on "@" s; '(authority, s) ← cut_on "?" s; '(query, fragment) ← cut_on "#" s;
  '(host, port) ← read_host authority; p ← ParseInt port; q ← read_pairs (split_on "&" query); label ← url_unescape false fragment;
  Some (MkLink user host p q label).
(** The parameters of an endpoint, by name. *)
Definition expected_query (e : EndpointSnapshot) : list (string * string) :=
  [("encryption", "none"); ("flow", "xtls-rprx-vision"); ("fp", "chrome"); ("headerType", "none"); ("pbk", RealityPublicKey e);
   ("security", "reality"); ("sid", ShortID e); ("sni", ServerName e)]%string ++
  (if bool_decide (SpiderX e = ""%string) then [] else [("spx"%string, SpiderX e)]) ++ [("type", "tcp")]%string.

Definition sample_endpoint : EndpointSnapshot :=
  MkEndpoint "n1" "primary" "2001:db8::1" 443 "www.example.org" "0123456789abcdef0123456789abcdef0123456789a" "ab12" "/a b" "Köln #1".
Definition sample_uuid : string := "0b6f0c0e-9a3b-4c2d-8e1f-001122334455".
Example sample_link :
  Render sample_uuid [sample_endpoint] = Some ("vless://0b6f0c0e-9a3b-4c2d-8e1f-001122334455@[2001:db8::1]:443?encryption=none&flow=xtls-rprx-vision&fp=chrome&headerType=none&pbk=0123456789abcdef0123456789abcdef0123456789a&security=reality&sid=ab12&sni=www.example.org&spx=%2Fa+b&type=tcp#K%C3%B6ln%20%231" +:+ newline)%string.
Proof. vm_compute. reflexivity. Qed.
Example sample_read : read_link (vless_link sample_uuid sample_endpoint) =
  Some (MkLink sample_uuid "2001:db8::1" 443 (expected_query sample_endpoint) "Köln #1").
Proof. vm_compute. reflexivity. Qed.

(** ** What is rendered is read *)

Lemma query_sorted e : order_by (fun a b => String.leb (fst a) (fst b)) (map_to_list (query_values e)) = expected_query e.
Proof. unfold query_values, expected_query. destruct (bool_decide (SpiderX e = _)); vm_compute; reflexivity. Qed.
Definition encoded_pair (kv : string * string) : string := (QueryEscape (fst kv) +:+ "=" +:+ QueryEscape (snd kv))%string.

(** Bytes that separate the parts of a link. *)
Definition separator (c : ascii) : bool := contains_any ("@?#&=:[]" +:+ newlines) (String c "").
Definition plain (s : string) : Prop := all_bytes (fun c => negb (separator c)) s = true.
Lemma plain_without c s : separator c = true -> plain s -> without c s.
Proof.
  intros Hc. apply all_bytes_impl. intros d Hd. apply negb_true_iff. destruct (Ascii.eqb_spec d c) as [->|]; [|done].
  by rewrite Hc in Hd.
Qed.
Lemma plain_escape keep plus s : (forall c, keep c = true -> negb (separator c) = true) -> plain (url_escape keep plus s).
Proof.
  intros H. apply url_escape_bytes; try done. intros n Hn.
  assert (forallb (fun n => negb (separator (upper_hex n))) (map Z.of_nat (seq 0 16)) = true) as Hf by (by vm_compute).
  rewrite forallb_forall in Hf. apply Hf, in_map_iff. exists (Z.to_nat n). split; [lia|]. apply in_seq. lia.
Qed.
Lemma plain_query s : plain (QueryEscape s).
Proof.
  apply plain_escape. intros c. apply (all_ascii_impl unreserved (fun c => negb (separator c))). by vm_compute.
Qed.
Lemma plain_app s1 s2 : plain s1 -> plain s2 -> plain (s1 +:+ s2).
Proof. unfold plain. rewrite all_bytes_app, andb_true_iff. done. Qed.
Lemma matches_plain (p : list (ascii -> bool)) s :
  forallb (fun f : ascii -> bool => all_ascii (fun c => implb (f c) (negb (separator c)))) p = true -> matches p s = true -> plain s.
Proof.
  revert s. induction p as [|f p IH]; intros [|c s]; cbn [forallb matches]; try done. rewrite !andb_true_iff. intros [Hf Hp] [Hc Hs].
  unfold plain in *. simpl. rewrite IH by done. by rewrite (all_ascii_impl f (fun c => negb (separator c)) c Hf Hc).
Qed.
Lemma uuid_plain s : uuidLike s = true -> plain s.
Proof. apply matches_plain. by vm_compute. Qed.

Lemma read_pairs_encoded l : read_pairs (encoded_pair <$> l) = Some l.
Proof.
  induction l as [|[k v] l IH]; [done|]. rewrite fmap_cons. cbn [read_pairs].
  change (encoded_pair (k, v)) with (QueryEscape k +:+ String "=" (QueryEscape v))%string.
  rewrite cut_on_app by (apply plain_without; [done|apply plain_query]). cbn [mbind option_bind].
  rewrite !query_roundtrip. cbn [mbind option_bind]. by rewrite IH.
Qed.
Lemma without_string_cons sep c s : without sep (String c s) <-> c <> sep /\ without sep s.
Proof. unfold without. simpl. rewrite andb_true_iff, negb_true_iff, Ascii.eqb_neq. done. Qed.
Lemma pair_without sep kv : separator sep = true -> sep <> "="%char -> without sep (encoded_pair kv).
Proof.
  intros Hs Hne. unfold encoded_pair. rewrite !without_app. split_and!; [apply plain_without; [done|apply plain_query]| |
    apply plain_without; [done|apply plain_query]]. apply without_string_cons. split; [congruence|done].
Qed.
Lemma join_without sep glue l : without sep glue -> Forall (without sep) l -> without sep (join glue l).
Proof.
  intros Hg H. induction H as [|x l Hx H IH]; [done|]. simpl. destruct l; [done|]. by rewrite !without_app.
Qed.
Lemma query_without sep e : separator sep = true -> sep <> "="%char -> sep <> "&"%char -> without sep (Encode (query_values e)).
Proof.
  intros H1 H2 H3. unfold Encode. rewrite query_sorted. apply join_without.
  - apply without_string_cons. split; [congruence|done].
  - apply Forall_fmap, Forall_true. intros kv. by apply pair_without.
Qed.
Lemma query_read e : read_pairs (split_on "&" (Encode (query_values e))) = Some (expected_query e).
Proof.
  unfold Encode. rewrite query_sorted. change (fun kv => (QueryEscape (fst kv) +:+ "=" +:+ QueryEscape (snd kv))%string) with encoded_pair.
  rewrite split_join.
  - apply read_pairs_encoded.
  - unfold expected_query. by destruct (bool_decide _).
  - apply Forall_fmap, Forall_true. intros kv. by apply pair_without.
Qed.

(** *** Hosts *)

Definition host_char (c : ascii) : bool := alnum c || contains_any "-.:" (String c "").
Lemma split_bytes p sep s : p sep = true -> forallb (all_bytes p) (split_on sep s) = true -> all_bytes p s = true.
Proof.
  intros Hp. induction s as [|c s IH]; [done|]. simpl. destruct (Ascii.eqb_spec c sep) as [->|Hne].
  - simpl. intros H. rewrite Hp. auto.
  - destruct (split_on sep s) as [|x l] eqn:E; simpl.
    + rewrite !andb_true_iff. intros [[? ?] _]. split; [done|]. destruct s; [done|]. simpl in E. by destruct (Ascii.eqb _ _), (split_on sep s).
    + rewrite !andb_true_iff. intros [[? ?] ?]. split; [done|]. apply IH. simpl. by rewrite andb_true_iff.
Qed.
Lemma digit_host c : digit c = true -> host_char c = true.
Proof. apply all_ascii_impl. by vm_compute. Qed.
Lemma hex_host c : hex c = true -> host_char c = true.
Proof. apply all_ascii_impl. by vm_compute. Qed.
Lemma octet_host s : octet s = true -> all_bytes host_char s = true.
Proof.
  destruct s as [|c s]; [done|]. unfold octet. rewrite !andb_true_iff. intros [[H _] _]. revert H. apply all_bytes_impl, digit_host.
Qed.
Lemma ipv4_host s : ipv4 s = true -> all_bytes host_char s = true.
Proof.
  unfold ipv4. intros H. apply (split_bytes _ "."); [done|].
  destruct (split_on "." s) as [|a [|b [|c [|d [|]]]]]; try done. rewrite !andb_true_iff in H. destruct H as [[[H1 H2] H3] H4].
  simpl. by rewrite !octet_host.
Qed.
Lemma hex_run_host s : all_bytes host_char (snd (hex_run s)) = true -> all_bytes host_char s = true.
Proof.
  induction s as [|c s IH]; [done|]. simpl. destruct (hex c) eqn:E; simpl; [|done]. intros H. by rewrite hex_host, IH.
Qed.
Lemma ipv6_groups_host fuel i ell s : ipv6_groups fuel i ell s = true -> all_bytes host_char s = true.
Proof.
  revert i ell s. induction fuel as [|fuel IH]; intros i ell s; [done|]. cbn [ipv6_groups].
  destruct (hex_run s) as [off rest] eqn:E. destruct (_ || _); [done|]. intros H.
  assert (all_bytes host_char rest = true -> all_bytes host_char s = true) as Hr by (intros Hb; apply hex_run_host; by rewrite E).
  destruct rest as [|c rest]; [by apply Hr|].
  destruct (Ascii.eqb_spec c ".") as [->|Hd].
  { cbv beta iota in H. rewrite !andb_true_iff in H. destruct H as [[_ H] _]. exact (ipv4_host _ H). }
  destruct (Ascii.eqb_spec c ":") as [->|Hc]; [|destruct c as [[] [] [] [] [] [] [] []]; done].
  apply Hr. clear Hr E. change (all_bytes host_char rest = true). destruct rest as [|c rest]; [done|].
  destruct (Ascii.eqb_spec c ":") as [->|Hc].
  - destruct ell; [done|]. case_bool_decide as Er; [by subst|]. by apply IH in H.
  - apply (IH (i + 2) ell). destruct c as [[] [] [] [] [] [] [] []]; done.
Qed.
Lemma ParseIP_host s : ParseIP s = true -> all_bytes host_char s = true.
Proof.
  unfold ParseIP. destruct (first_of ".:%" s) as [c|]; [|done]. intros H.
  destruct (Ascii.eqb_spec c ".") as [->|Hd]; [by apply ipv4_host|].
  destruct (Ascii.eqb_spec c ":") as [->|Hc]; [|destruct c as [[] [] [] [] [] [] [] []]; done].
  apply andb_true_iff in H as [_ H]. unfold ipv6 in H.
  destruct s as [|c s]; [by apply ipv6_groups_host in H|]. destruct (Ascii.eqb_spec c ":") as [->|Hc].
  - destruct s as [|c s]; [by apply ipv6_groups_host in H|]. destruct (Ascii.eqb_spec c ":") as [->|Hc].
    + case_bool_decide as Es; [by subst|]. by apply ipv6_groups_host in H.
    + apply (ipv6_groups_host 8 0 false). destruct c as [[] [] [] [] [] [] [] []]; done.
  - apply (ipv6_groups_host 8 0 false). destruct c as [[] [] [] [] [] [] [] []]; done.
Qed.
Lemma trim_suffix_bytes p s : p "."%char = true -> all_bytes p (trim_suffix_dot s) = true -> all_bytes p s = true.
Proof.
  intros Hp. unfold trim_suffix_dot. destruct (String.length s) as [|n] eqn:Hn; [done|]. case_bool_decide as Hg; [|done].
  revert n Hn Hg. induction s as [|c s IH]; intros n Hn Hg H; [done|]. simpl in Hn. injection Hn as Hn. destruct n as [|n].
  - simpl in Hg. injection Hg as ->. destruct s; [|done]. simpl. by rewrite Hp.
  - simpl in Hg, H |- *. apply andb_true_iff in H as [-> H]. simpl. by apply (IH n).
Qed.
Lemma validHost_host s ip : validHost s ip = true -> s <> ""%string /\ all_bytes host_char s = true.
Proof.
  unfold validHost. destruct (_ || _) eqn:E; [done|]. rewrite !orb_false_iff in E. destruct E as [[[E _] _] _]. apply bool_decide_eq_false in E.
  intros H. split; [done|]. destruct (ParseIP s) eqn:Ei; [by apply ParseIP_host|].
  apply trim_suffix_bytes; [done|]. apply (split_bytes _ "."); [done|]. rewrite forallb_forall in H |- *. intros x Hx.
  apply H in Hx. unfold host_label in Hx. rewrite !andb_true_iff in Hx. destruct Hx as [_ Hx]. revert Hx. apply all_bytes_impl.
  intros c. apply (all_ascii_impl host_byte host_char). by vm_compute.
Qed.

(** *** The theorem *)

Lemma contains_without set s c : contains_any set s = false -> existsb (Ascii.eqb c) (String.list_ascii_of_string set) = true -> without c s.
Proof.
  intros H Hc. induction s as [|d s IH]; [done|]. simpl in H. apply orb_false_iff in H as [H1 H2]. apply without_string_cons. split; [|auto].
  intros ->. congruence.
Qed.
Lemma host_without c s : host_char c = false -> all_bytes host_char s = true -> without c s.
Proof.
  intros Hc. apply all_bytes_impl. intros d Hd. apply negb_true_iff. destruct (Ascii.eqb_spec d c) as [->|]; [congruence|done].
Qed.
Lemma digits_host s : all_bytes digit s = true -> all_bytes host_char s = true.
Proof. apply all_bytes_impl, digit_host. Qed.
Lemma decimal_digits n : all_bytes digit (decimal n) = true.
Proof. by apply decimal_fuel_digits. Qed.
Lemma JoinHostPort_without c h p : host_char c = false -> c <> "["%char -> c <> "]"%char -> all_bytes host_char h = true -> all_bytes digit p = true ->
  without c (JoinHostPort h p).
Proof.
  intros Hc H1 H2 Hh Hp. assert (c <> ":"%char) by (by intros ->). pose proof (host_without c h Hc Hh). pose proof (host_without c p Hc (digits_host p Hp)).
  unfold JoinHostPort. destruct (contains_any _ _); rewrite !without_app; split_and!; try done; by rewrite !without_string_cons.
Qed.
Lemma read_JoinHostPort h p : h <> ""%string -> all_bytes host_char h = true -> read_host (JoinHostPort h p) = Some (h, p).
Proof.
  intros Hne Hh. unfold JoinHostPort. destruct (contains_any ":%" h) eqn:E.
  - transitivity ('(h', rest) ← cut_on "]" (h +:+ String "]" (":" +:+ p)%string); match rest with String ":" p => Some (h', p) | _ => None end);
      [done|]. by rewrite cut_on_app by (by apply host_without).
  - change (h +:+ ":" +:+ p)%string with (h +:+ String ":" p)%string. destruct h as [|c h]; [done|].
    assert (c <> "["%char) as Hc by (intros ->; done). transitivity (cut_on ":" (String c h +:+ String ":" p)).
    + destruct c as [[] [] [] [] [] [] [] []]; done.
    + apply cut_on_app. by apply (contains_without ":%").
Qed.
Lemma valid_host e : ValidateEndpoint e = true -> Address e <> ""%string /\ all_bytes host_char (Address e) = true /\ 0 < Port e < 2 ^ 63.
Proof.
  unfold ValidateEndpoint. rewrite !andb_true_iff, !Z.leb_le. intros H. destruct_and! H.
  match goal with H : validHost (Address e) true = true |- _ => apply validHost_host in H as [? ?] end. split_and!; done || lia.
Qed.
Lemma read_link_link u e : uuidLike u = true -> ValidateEndpoint e = true ->
  read_link (vless_link u e) = Some (MkLink u (Address e) (Port e) (expected_query e) (Label e)).
Proof.
  intros Hu He. apply valid_host in He as (H1 & H2 & H3). apply uuid_plain in Hu. unfold read_link, vless_link.
  change (strip_prefix _ _) with (Some (u +:+ String "@" (JoinHostPort (Address e) (decimal (Port e)) +:+
    String "?" (Encode (query_values e) +:+ String "#" (FragmentEscape (Label e))))))%string. cbn [mbind option_bind].
  rewrite cut_on_app by (by apply plain_without). cbn [mbind option_bind].
  rewrite cut_on_app by (apply JoinHostPort_without; try done; apply decimal_digits). cbn [mbind option_bind].
  rewrite cut_on_app by (by apply query_without). cbn [mbind option_bind].
  rewrite read_JoinHostPort by done. cbn [mbind option_bind]. rewrite ParseInt_decimal by (unfold is_int64; lia). cbn [mbind option_bind].
  rewrite query_read, fragment_roundtrip. done.
Qed.
Lemma link_one_line u e : uuidLike u = true -> ValidateEndpoint e = true -> without "010" (vless_link u e).
Proof.
  intros Hu He. apply valid_host in He as (H1 & H2 & H3). apply uuid_plain in Hu. unfold vless_link. rewrite !without_app. split_and!; try done.
  - by apply plain_without.
  - apply JoinHostPort_without; try done. apply decimal_digits.
  - by apply query_without.
  - unfold without, FragmentEscape. apply url_escape_bytes; try done.
    + intros c. apply (all_ascii_impl fragment_byte (fun c => negb (Ascii.eqb c "010"))). by vm_compute.
    + intros n Hn. assert (forallb (fun n => negb (Ascii.eqb (upper_hex n) "010")) (map Z.of_nat (seq 0 16)) = true) as Hf by (by vm_compute).
      rewrite forallb_forall in Hf. apply Hf, in_map_iff. exists (Z.to_nat n). split; [lia|]. apply in_seq. lia.
Qed.

Definition profile_lines (body : string) : list string :=
  List.filter (fun line => negb (bool_decide (line = ""%string))) (split_on "010" body).
Definition read_profile (body : string) : option (list profile_link) := mapM read_link (profile_lines body).
Definition expected_link (u : string) (e : EndpointSnapshot) : profile_link :=
  MkLink u (Address e) (Port e) (expected_query e) (Label e).
(** The primary endpoint comes before the others. *)
Definition primary_first (a b : EndpointSnapshot) : Prop := Role b = "primary"%string -> Role a = "primary"%string.

Lemma render_lines_Some u l lines :
  render_lines u l = Some lines <-> Forall (fun e => ValidateEndpoint e = true) l /\ lines = vless_link u <$> l.
Proof.
  revert lines. induction l as [|e l IH]; intros lines; simpl.
  - split; [intros [= <-]; done|by intros [_ ->]].
  - unfold renderEndpoint. rewrite Forall_cons_iff. destruct (ValidateEndpoint e); simpl; [|naive_solver].
    destruct (render_lines u l) as [ls|]; simpl.
    + destruct (proj1 (IH ls) eq_refl) as [Hv ->]. split; [by intros [= <-]|by intros [_ ->]].
    + split; [done|]. intros [[_ Hv] _]. discriminate (proj2 (IH (vless_link u <$> l)) (conj Hv eq_refl)).
Qed.
Lemma lines_of lines : lines <> [] -> Forall (without "010") lines -> Forall (fun line => line <> ""%string) lines ->
  profile_lines (join newline lines +:+ newline) = lines.
Proof.
  intros Hne Hw Hn. assert (forall l, l <> [] -> (join newline l +:+ newline)%string = join newline (l ++ [""%string])) as Hj.
  { clear. induction l as [|x l IH]; [done|]. intros _. destruct l as [|y l]; [simpl; by rewrite string_app_nil_r|].
    specialize (IH ltac:(done)). cbn [join app] in IH |- *. rewrite !string_app_assoc, IH. done. }
  unfold profile_lines. rewrite Hj by done. rewrite (split_join "010"); [|by destruct lines|apply Forall_app; split; [done|by repeat constructor]].
  rewrite List.filter_app. simpl. rewrite app_nil_r. clear -Hn. induction Hn as [|x l Hx _ IH]; [done|]. simpl.
  rewrite bool_decide_false by done. simpl. by rewrite IH.
Qed.
Lemma order_by_primary_first l : StronglySorted primary_first (order_by snapshot_before l).
Proof.
  apply order_by_sorted; unfold primary_first, snapshot_before.
  - intros a b H Hb. destruct (decide (Role a = "primary"%string)); [done|]. rewrite (bool_decide_false _ n), (bool_decide_true _ Hb) in H. done.
  - intros a b H Ha. rewrite (bool_decide_true _ Ha) in H. destruct (decide (Role b = "primary"%string)); [done|].
    by rewrite (bool_decide_false _ n) in H.
  - auto.
Qed.

Lemma Render_read u es :
  (Render u es = None <-> uuidLike u = false \/ es = [] \/ Exists (fun e => ValidateEndpoint e = false) es) /\
  forall body, Render u es = Some body ->
    exists sorted, sorted ≡ₚ es /\ StronglySorted primary_first sorted /\ read_profile body = Some (expected_link u <$> sorted).
Proof.
  pose proof (order_by_perm snapshot_before es) as Hp. pose proof (order_by_primary_first es) as Hs. unfold Render.
  set (sorted := order_by snapshot_before es) in *. destruct (uuidLike u) eqn:Hu; simpl.
  2: { split; [|done]. tauto. }
  destruct (render_lines u sorted) as [lines|] eqn:Hl.
  - apply render_lines_Some in Hl as [Hv ->]. destruct sorted as [|e l] eqn:El.
    + split; [|done]. split; [intros _; right; left; by apply Permutation_nil_l in Hp|done].
    + rewrite fmap_cons. split.
      * split; [done|]. intros [?|[->|Hex]]; [done|by apply Permutation_sym, Permutation_nil_cons in Hp|].
        apply Exists_exists in Hex as (x & Hx & Hxv). rewrite Forall_forall in Hv. rewrite Hv in Hxv; [done|by rewrite Hp].
      * intros body [= <-]. exists (e :: l). split_and!; try done.
        change (read_profile (join newline (vless_link u <$> e :: l) +:+ newline)%string = Some (expected_link u <$> e :: l)). unfold read_profile. rewrite lines_of.
        -- clear -Hv Hu. apply mapM_Some_2, Forall2_fmap_l, Forall2_fmap_r. induction Hv; constructor; auto. by apply read_link_link.
        -- done.
        -- apply Forall_fmap. revert Hv. apply List.Forall_impl. intros x Hx. by apply link_one_line.
        -- by apply Forall_fmap, Forall_true.
  - split; [|done]. split; [|done]. intros _. right. right. rewrite <- Hp. destruct (decide (Forall (fun e => ValidateEndpoint e = true) sorted)) as [Hv|Hv].
    + by rewrite (proj2 (render_lines_Some u sorted _) (conj Hv eq_refl)) in Hl.
    + apply not_Forall_Exists in Hv; [|intros ?; apply _]. revert Hv. apply List.Exists_impl. intros x Hx. by apply not_true_is_false.
Qed.

(** C26: A profile says what the snapshots say: rendering succeeds exactly for
    a well-formed user and a non-empty list of valid endpoints, and reading
    the body back gives one link per endpoint, the primary first, each with
    the endpoint's user, address, port, parameters and label, whatever bytes
    the label and the spider path hold. *)
Theorem profile_roundtrip u es :
  (Render u es = None <-> uuidLike u = false \/ es = [] \/ Exists (fun e => ValidateEndpoint e = false) es) /\
  forall body, Render u es = Some body ->
    exists sorted, sorted ≡ₚ es /\ StronglySorted primary_first sorted /\ read_profile body = Some (expected_link u <$> sorted).
Proof. apply Render_read. Qed.

Definition spare_endpoint : EndpointSnapshot :=
  MkEndpoint "n2" "failover" "edge-2.example.net" 8443 "www.example.org" "0123456789abcdef0123456789abcdef0123456789b" "cd34" "" "100% #2".
Lemma profile_roundtrip_witness :
  exists sorted, sorted ≡ₚ [spare_endpoint; sample_endpoint] /\ StronglySorted primary_first sorted /\
    read_profile (default "" (Render sample_uuid [spare_endpoint; sample_endpoint])) = Some (expected_link sample_uuid <$> sorted).
Proof.
  apply (proj2 (profile_roundtrip sample_uuid [spare_endpoint; sample_endpoint])). vm_compute. reflexivity.
Defined.
