(* ===== verification/AccessCrypto.v ===== *)
(** * access-service: keys

    src/services/access/internal/credential/crypto.go: the keyring that seals
    the credentials' secret, and the keyed hashes subscription tokens are
    looked up by. *)

From Stdlib Require Import Ascii List.
From S2P Require Import Prelude GoStrings Sha256 Backoff GoText Aes AccessDomain.

Definition KeyBytes : Z := 32.
Definition MaxKeyringKeys : nat := 4.

(** What both kinds of keyring demand of their keys. *)
Definition keys_ok (activeVersion : Z) (keys : gmap Z string) : bool :=
  negb ((activeVersion <=? 0) || (size keys =? 0)%nat || (MaxKeyringKeys <? size keys)%nat) &&
  forallb (fun vk => negb ((fst vk <=? 0) || negb (go_len (snd vk) =? KeyBytes))) (map_to_list keys) &&
  bool_decide (is_Some (keys !! activeVersion)).

(** ** The keyring *)

Record Keyring := MkKeyring { kr_activeVersion : Z; kr_keys : gmap Z string }.
Definition NewKeyring (activeVersion : Z) (keys : gmap Z string) : option Keyring :=
  if keys_ok activeVersion keys then Some (MkKeyring activeVersion keys) else None.

(** The cipher of a version: its key. *)
Definition gcm (version : Z) (k : Keyring) : option string := kr_keys k !! version.
Definition Encrypt (k : Keyring) (plaintext nonce binding : string) : option (string * Z) :=
  match gcm (kr_activeVersion k) k with
  | None => None
  | Some key =>
      if negb (String.length nonce =? NonceSize)%nat then None
      else if bool_decide (binding = ""%string) then None
      else let sealed := Seal (bytes_of key) (bytes_of nonce) (bytes_of plaintext) (bytes_of binding) in
           Some (nonce +:+ of_bytes sealed, kr_activeVersion k)%string
  end.
Definition Decrypt (k : Keyring) (version : Z) (envelope binding : string) : option string :=
  match gcm version k with
  | None => None
  | Some key =>
      let bytes := bytes_of envelope in
      if (length bytes <? NonceSize + Overhead)%nat then None
      else if bool_decide (binding = ""%string) then None
      else of_bytes <$> Open (bytes_of key) (firstn NonceSize bytes) (skipn NonceSize bytes) (bytes_of binding)
  end.

(** ** The token hasher *)

Record TokenHasher := MkTokenHasher { th_activeVersion : Z; th_keys : gmap Z string; th_versions : list Z }.
Definition NewTokenHasherKeyring (activeVersion : Z) (keys : gmap Z string) : option TokenHasher :=
  if keys_ok activeVersion keys then Some (MkTokenHasher activeVersion keys (order_by Z.leb (fst <$> map_to_list keys))) else None.
Definition NewTokenHasher (key : string) : option TokenHasher := NewTokenHasherKeyring 1 {[1 := key]}.
Definition token_sum (h : TokenHasher) (version : Z) (token : string) : string :=
  of_bytes (hmac_sha256 (bytes_of (default ""%string (th_keys h !! version))) (bytes_of token)).
Definition Sum (h : TokenHasher) (token : string) : string := token_sum h (th_activeVersion h) token.
Definition ActiveVersion (h : TokenHasher) : Z := th_activeVersion h.
Definition Candidates (h : TokenHasher) (token : string) : list string :=
  token_sum h (th_activeVersion h) token ::
  ((fun version => token_sum h version token) <$> List.filter (fun v => negb (v =? th_activeVersion h)) (th_versions h)).

(** ** Keys in the configuration *)

Definition DecodeKey (value : string) : option string :=
  decoded ← Std_Decode value; if go_len decoded =? KeyBytes then Some decoded else None.
Definition decode_item (keys : gmap Z string) (item : string) : option (gmap Z string) :=
  if (size keys =? MaxKeyringKeys)%nat then None
  else match cut_on ":" (TrimSpace item) with
       | None => None
       | Some (versionText, encoded) =>
           if bool_decide (versionText = ""%string) || bool_decide (encoded = ""%string) then None
           else match ParseInt versionText with
                | None => None
                | Some version =>
                    if version <=? 0 then None
                    else match keys !! version with
                         | Some _ => None
                         | None => key ← DecodeKey encoded; Some (<[version := key]> keys)
                         end
                end
       end.
Fixpoint decode_items (keys : gmap Z string) (items : list string) : option (gmap Z string) :=
  match items with
  | [] => Some keys
  | item :: items' => keys' ← decode_item keys item; decode_items keys' items'
  end.
Definition DecodeKeySet (value : string) : option (gmap Z string) :=
  if bool_decide (TrimSpace value = ""%string) then None
  else keys ← decode_items ∅ (split_on "," value); if (size keys =? 0)%nat then None else Some keys.

(** ** What is kept under a key stays readable *)

Lemma keys_ok_true active keys : keys_ok active keys = true <->
  0 < active /\ (1 <= size keys <= 4)%nat /\ (forall v key, keys !! v = Some key -> 0 < v /\ go_len key = KeyBytes) /\
  is_Some (keys !! active).
Proof.
  unfold keys_ok. rewrite !andb_true_iff, negb_true_iff, !orb_false_iff, Z.leb_gt, Nat.eqb_neq, Nat.ltb_ge, forallb_forall, bool_decide_eq_true.
  change MaxKeyringKeys with 4%nat. split.
  - intros [[[[H1 H2] H3] H4] H5]. split_and!; try done; try lia. intros v key H%elem_of_map_to_list%list_elem_of_In%H4.
    simpl in H. rewrite negb_true_iff, orb_false_iff, Z.leb_gt, negb_false_iff, Z.eqb_eq in H. done.
  - intros (H1 & H2 & H3 & H4). split_and!; try done; try lia. intros [v key] H%list_elem_of_In%elem_of_map_to_list%H3.
    simpl. rewrite negb_true_iff, orb_false_iff, Z.leb_gt, negb_false_iff, Z.eqb_eq. done.
Qed.

(** What is sealed under a key opens as long as its version keeps that key,
    whichever key is active by then; a nonce of the right length and a binding
    are all that sealing asks for. *)
Lemma Decrypt_Encrypt active keys k plaintext nonce binding : NewKeyring active keys = Some k ->
  (is_Some (Encrypt k plaintext nonce binding) <-> String.length nonce = NonceSize /\ binding <> ""%string) /\
  forall envelope version, Encrypt k plaintext nonce binding = Some (envelope, version) ->
    version = active /\ forall k', gcm version k' = gcm version k -> Decrypt k' version envelope binding = Some plaintext.
Proof.
  unfold NewKeyring. destruct (keys_ok active keys) eqn:Hok; [|done]. intros [= <-].
  apply keys_ok_true in Hok as (_ & _ & _ & [key Hk]). unfold Encrypt, gcm. simpl. rewrite Hk.
  destruct (Nat.eqb_spec (String.length nonce) NonceSize) as [Hn|Hn]; simpl; [|split; [split; [by intros [? ?]|by intros []]|done]].
  destruct (bool_decide _) eqn:Hb; [apply bool_decide_eq_true in Hb; split; [split; [by intros [? ?]|by intros []]|done]|].
  apply bool_decide_eq_false in Hb. split; [split; [done|by eexists]|]. intros envelope version [= <- <-]. split; [done|].
  intros k' Hk'. unfold Decrypt, gcm in *. rewrite Hk', Hk. rewrite bytes_of_app, bytes_of_bytes by apply Seal_bytes, bytes_of_byte.
  rewrite length_app, length_bytes_of, length_Seal, Hn. destruct (Nat.ltb_spec (NonceSize + (length (bytes_of plaintext) + Overhead)) (NonceSize + Overhead)); [lia|].
  rewrite bool_decide_false by done. rewrite take_app_length', drop_app_length' by (by rewrite length_bytes_of).
  rewrite Open_Seal. simpl. f_equal. apply of_bytes_of.
Qed.

(** A sum computed before a rotation is a candidate after it, if the key of
    its version is kept; the candidates are one per key. *)
Lemma Candidates_hold h h' active keys token : NewTokenHasherKeyring active keys = Some h ->
  (exists active' keys', NewTokenHasherKeyring active' keys' = Some h') -> th_keys h' !! active = keys !! active ->
  Sum h token ∈ Candidates h' token.
Proof.
  unfold NewTokenHasherKeyring. destruct (keys_ok active keys) eqn:Hok; [|done]. intros [= <-] (active' & keys' & H) Hk.
  destruct (keys_ok active' keys'); [|done]. injection H as <-. simpl in Hk. unfold Sum, Candidates. simpl.
  apply keys_ok_true in Hok as (_ & _ & _ & [key Hkey]).
  assert (forall h2, th_keys h2 !! active = keys !! active -> token_sum (MkTokenHasher active keys (order_by Z.leb (fst <$> map_to_list keys))) active token = token_sum h2 active token) as Hs
    by (intros h2 H; unfold token_sum; simpl; by rewrite H).
  rewrite (Hs (MkTokenHasher active' keys' (order_by Z.leb (fst <$> map_to_list keys')))) by done.
  destruct (decide (active = active')) as [<-|Hne]; [left|right].
  apply (list_elem_of_fmap_2 (fun version => token_sum _ version token)). apply list_elem_of_In, filter_In. split.
  - apply list_elem_of_In, elem_order_by, list_elem_of_fmap. exists (active, key). split; [done|]. apply elem_of_map_to_list. congruence.
  - rewrite negb_true_iff. by apply Z.eqb_neq.
Qed.
Lemma length_versions (keys : gmap Z string) : length (order_by Z.leb (fst <$> map_to_list keys)) = size keys.
Proof. rewrite order_by_perm, length_fmap. apply length_map_to_list. Qed.
Lemma length_Candidates h active keys token : NewTokenHasherKeyring active keys = Some h ->
  length (Candidates h token) = size keys /\ (1 <= size keys <= 4)%nat /\ Forall (fun c => String.length c = 32%nat) (Candidates h token).
Proof.
  unfold NewTokenHasherKeyring. destruct (keys_ok active keys) eqn:Hok; [|done]. intros [= <-].
  apply keys_ok_true in Hok as (_ & Hn & _ & [key Hk]). split_and!; try lia.
  - unfold Candidates. simpl. rewrite length_fmap, <- length_versions. set (l := order_by Z.leb _).
    assert (NoDup l /\ active ∈ l) as [Hnd Hin].
    { unfold l. rewrite order_by_perm. split; [apply NoDup_fst_map_to_list|]. apply list_elem_of_fmap. exists (active, key).
      split; [done|]. by apply elem_of_map_to_list. }
    clearbody l. clear -Hnd Hin. apply list_elem_of_split in Hin as (l1 & l2 & ->). rewrite List.filter_app, !length_app. simpl. rewrite Z.eqb_refl. simpl.
    apply list.NoDup_app in Hnd as (_ & H1 & [H2 _]%list.NoDup_cons).
    assert (forall l, active ∉ l -> List.filter (fun v => negb (v =? active)) l = l) as Hf.
    { clear. induction l as [|v l IH]; [done|]. intros [Hne Hl]%not_elem_of_cons. simpl. destruct (Z.eqb_spec v active); [congruence|]. simpl. by rewrite IH. }
    rewrite !Hf; [lia|done|]. intros Hi. apply (H1 active Hi). by left.
  - apply Forall_forall. intros c Hc.
    assert (exists h v, c = token_sum h v token) as (h & v & ->)
      by (unfold Candidates in Hc; apply list_elem_of_In, elem_of_cons in Hc as [->|(v & -> & _)%list_elem_of_fmap]; eauto).
    unfold token_sum. rewrite <- length_bytes_of, bytes_of_bytes by apply hmac_bytes. apply length_hmac.
Qed.

(** A key set that was decoded is a keyring for every version it holds. *)
Definition key_set_ok (keys : gmap Z string) : Prop :=
  (size keys <= 4)%nat /\ forall v key, keys !! v = Some key -> 0 < v /\ go_len key = KeyBytes.
Lemma decode_item_ok keys item keys' : key_set_ok keys -> decode_item keys item = Some keys' -> key_set_ok keys'.
Proof.
  intros [Hn Hk]. unfold decode_item. change MaxKeyringKeys with 4%nat. destruct (Nat.eqb_spec (size keys) 4) as [|Hne]; [done|].
  destruct (cut_on _ _) as [[v e]|]; [|done]. destruct (_ || _); [done|]. destruct (ParseInt v) as [n|]; [|done].
  destruct (Z.leb_spec n 0); [done|]. destruct (keys !! n) eqn:E; [done|]. unfold DecodeKey.
  destruct (Std_Decode e) as [key|]; [|done]. simpl. destruct (Z.eqb_spec (go_len key) KeyBytes); [|done]. intros [= <-]. split.
  - rewrite map_size_insert_None by done. lia.
  - intros v' key'. rewrite lookup_insert_Some. intros [[<- <-]|[_ Hv]]; [done|by apply Hk].
Qed.
Lemma DecodeKeySet_ok value keys : DecodeKeySet value = Some keys -> key_set_ok keys /\ (1 <= size keys)%nat.
Proof.
  unfold DecodeKeySet. destruct (bool_decide _); [done|].
  assert (forall items k0 k1, key_set_ok k0 -> decode_items k0 items = Some k1 -> key_set_ok k1) as Hd.
  { induction items as [|item items IH]; intros k0 k1 H0; simpl; [by intros [= <-]|].
    destruct (decode_item k0 item) eqn:E; [|done]. simpl. apply IH. by eapply decode_item_ok. }
  destruct (decode_items _ _) as [k|] eqn:E; [|done]. simpl. destruct (Nat.eqb_spec (size k) 0); [done|]. intros [= <-].
  split; [|lia]. eapply Hd; [|exact E]. split; [rewrite map_size_empty; lia|]. intros v key H. by rewrite lookup_empty in H.
Qed.
Lemma decoded_keys_ok value keys active : DecodeKeySet value = Some keys -> keys_ok active keys = true <-> is_Some (keys !! active).
Proof.
  intros [[Hn Hk] H1]%DecodeKeySet_ok. rewrite keys_ok_true. split; [tauto|]. intros [key Ha]. split_and!; try done; try lia.
  by apply (Hk active key).
Qed.
