(* ===== verification/AccessConsumer.v ===== *)
(** * access-service: events from Kafka

    [ProcessEvent] of src/services/access/internal/application/service.go with
    the checks it makes, and src/services/access/internal/kafka/consumer.go:
    envelopes, and the loop of [OrderedConsumer.v] over them. The strict JSON
    decoders of the envelope and of each event are parameters. *)

From Stdlib Require Import Ascii List.
From S2P Require Import Prelude GoStrings Sha256 Platform GoText OrderedConsumer AccessDomain AccessStore AccessInv AccessSteps.
From S2P Require Import AccessLifecycle AccessOutcomes AccessSpec AccessProfile AccessCrypto.

(** ** Errors *)

Inductive ServiceErr :=
  | ContractError (code : string)
  | StoreErr (e : AccErr)
  | OtherErr (what : string).
Definition ContractErrorCode (e : ServiceErr) : option string :=
  match e with
  | ContractError code => Some code
  | StoreErr ErrDurableStateConflict => Some "durable_state_conflict"
  | _ => None
  end.
Definition isSequenceGap (e : ServiceErr) : bool :=
  match e with StoreErr ErrLifecycleSequenceGap | StoreErr ErrOutcomeSequenceGap => true | _ => false end.

(** ** Checks *)

Definition uuidPattern : string -> bool := any_uuid.
Definition reason_byte (c : ascii) : bool := between "a" "z" c || digit c || Ascii.eqb c "_".
Definition reasonCodePattern (s : string) : bool :=
  match s with
  | String c s' => between "a" "z" c && all_bytes reason_byte s' && (2 <=? go_len s') && (go_len s' <=? 63)
  | EmptyString => false
  end.
Definition validUUIDs (values : list string) : bool := forallb uuidPattern values.
Fixpoint unique_uuids (seen : list string) (values : list string) : bool :=
  match values with
  | [] => true
  | v :: values' => validUUIDs [v] && bool_decide (v ∉ seen) && unique_uuids (v :: seen) values'
  end.
Definition validUniqueUUIDs (values : list string) : bool := unique_uuids [] values.
Definition validFailureScope (value : string) : bool := bool_decide (value ∈ ["primary"; "failover"; "all"; "unknown"]%string).
Definition validRevocationReason (value : string) : bool :=
  bool_decide (value ∈ ["expired"; "refund"; "refund_gap"; "admin_block"; "abuse"; "deleted"]%string).

(** The loop over the endpoints: those seen, and how many of each role. *)
Fixpoint check_endpoints (assigned seen : list string) (primary failover : nat) (endpoints : list EndpointSnapshot) : option (nat * nat) :=
  match endpoints with
  | [] => Some (primary, failover)
  | e :: endpoints' =>
      if negb (validUUIDs [NodeID e]) || negb (ValidateEndpoint e) then None
      else if bool_decide (NodeID e ∈ seen) then None
      else if bool_decide (NodeID e ∉ assigned) then None
      else if bool_decide (Role e = "primary"%string) then check_endpoints assigned (NodeID e :: seen) (S primary) failover endpoints'
      else if bool_decide (Role e = "failover"%string) then check_endpoints assigned (NodeID e :: seen) primary (S failover) endpoints'
      else None
  end.
Definition validateProvisionSucceeded (meta : EventMeta) (event : ProvisionSucceeded) : bool :=
  if negb (bool_decide (ps_CredentialID event = AggregateID meta)) || negb (validUUIDs [ps_OperationID event; ps_CredentialID event]) ||
     (ps_AppliedRevision event <? 1) || (ps_AppliedAt event =? 0) ||
     (negb (bool_decide (ps_Status event = "active"%string)) && negb (bool_decide (ps_Status event = "degraded"%string))) ||
     negb (length (ps_AssignedNodeIDs event) =? 2)%nat || negb (validUniqueUUIDs (ps_AssignedNodeIDs event))
  then false
  else match check_endpoints (ps_AssignedNodeIDs event) [] 0 0 (ps_Endpoints event) with
       | None => false
       | Some (primary, failover) =>
           negb (negb (primary =? 1)%nat || (1 <? failover)%nat ||
                 (bool_decide (ps_Status event = "active"%string) && negb (failover =? 1)%nat) ||
                 (bool_decide (ps_Status event = "degraded"%string) && negb (failover =? 0)%nat))
       end.

Definition user_key (userID : string) : string := ("user:" +:+ userID)%string.
Definition payment_ok (meta : EventMeta) (e : PaymentSucceeded) : bool :=
  negb (negb (bool_decide (pay_PaymentID e = AggregateID meta)) || negb (bool_decide (PartitionKey meta = user_key (pay_UserID e))) ||
        negb (validUUIDs [pay_PaymentID e; pay_OrderID e; pay_UserID e; pay_PlanID e]) || (pay_AmountMinor e <? 1) ||
        bool_decide (pay_Currency e = ""%string) || (pay_PaidAt e =? 0) || negb (pay_PaidAt e =? OccurredAt meta)).
Definition period_ok (meta : EventMeta) (e : PeriodEvent) : bool :=
  negb (negb (bool_decide (per_SubscriptionID e = AggregateID meta)) || negb (bool_decide (PartitionKey meta = user_key (per_UserID e))) ||
        bool_decide (per_UserID e = ""%string) || negb (per_PeriodStart e <? per_GraceEndsAt e) || (per_GraceEndsAt e <? per_PeriodEnd e)).
Definition terminal_ok (meta : EventMeta) (e : TerminalEvent) : bool :=
  negb (negb (bool_decide (te_SubscriptionID e = AggregateID meta)) || negb (bool_decide (PartitionKey meta = user_key (te_UserID e))) ||
        bool_decide (te_UserID e = ""%string) || (te_EffectiveAt e =? 0) || negb (validRevocationReason (te_Reason e))).
Definition grace_ok (meta : EventMeta) (e : GraceEvent) : bool :=
  negb (negb (bool_decide (gr_SubscriptionID e = AggregateID meta)) || negb (bool_decide (PartitionKey meta = user_key (gr_UserID e))) ||
        bool_decide (gr_UserID e = ""%string) || (gr_PeriodEnd e =? 0) || (gr_EffectiveAt e =? 0) ||
        negb (gr_PeriodEnd e <? gr_GraceEndsAt e) || negb (gr_EffectiveAt e =? gr_PeriodEnd e)).
Definition failure_ok (meta : EventMeta) (e : OperationFailed) : bool :=
  negb (negb (bool_decide (of_CredentialID e = AggregateID meta)) || negb (validUUIDs [of_OperationID e; of_CredentialID e]) ||
        (of_FailedRevision e <? 1) || negb (reasonCodePattern (of_ReasonCode e)) || (of_FailedAt e =? 0) ||
        negb (validFailureScope (of_FailureScope e)) || negb (validUniqueUUIDs (of_PendingNodeIDs e))).
Definition removal_ok (meta : EventMeta) (e : RevokeSucceeded) : bool :=
  negb (negb (bool_decide (rs_CredentialID e = AggregateID meta)) || negb (validUUIDs [rs_OperationID e; rs_CredentialID e]) ||
        (rs_DesiredRevision e <? 1) || (rs_AllocationRevision e <? 0) || negb (rs_AllAssignedNodesRemoved e) ||
        (rs_RevokedAt e =? 0) || negb (validUniqueUUIDs (rs_NodeIDs e))).

(** ** One event *)

(** What an attempt at an event draws: the database clock and the order in
    which it returns rows, the identifiers and random bytes, whether the store
    answers, and whether the dead letter and the commit go through. *)
Record attempt_env := MkAttempt {
  at_now : Z;
  at_pick : nat;
  at_event : string;
  at_revoke : string;
  at_credential : list Z;
  at_operation : list Z;
  at_vless : list Z;
  at_nonce : list Z;
  at_store_up : bool;
  at_dead_letter_ok : bool;
  at_commit_ok : bool
}.
(** The generator fills the buffers it is given. *)
Definition draws_ok (e : attempt_env) : Prop :=
  length (at_credential e) = 16%nat /\ Forall is_byte (at_credential e) /\ length (at_vless e) = 16%nat /\ Forall is_byte (at_vless e) /\
  length (at_nonce e) = Aes.NonceSize /\ Forall is_byte (at_nonce e).

Record decoders := MkDecoders {
  dec_envelope : string -> option (Envelope string);
  dec_payment : string -> option PaymentSucceeded;
  dec_period : string -> option PeriodEvent;
  dec_terminal : string -> option TerminalEvent;
  dec_grace : string -> option GraceEvent;
  dec_success : string -> option ProvisionSucceeded;
  dec_failure : string -> option OperationFailed;
  dec_removal : string -> option RevokeSucceeded
}.

Section service.
Context (dec : decoders) (keyring : Keyring).

Definition newCredential (e : attempt_env) : option CredentialSeed :=
  let credentialID := RandomUUID (at_credential e) in
  let operationID := RandomUUID (at_operation e) in
  let vlessUUID := RandomUUID (at_vless e) in
  '(ciphertext, keyVersion) ← Encrypt keyring vlessUUID (of_bytes (at_nonce e)) credentialID;
  Some (MkCredentialSeed credentialID operationID ciphertext keyVersion).

(** Decode, check, then run the operation on the store. *)
Definition handle {A} (decode : string -> option A) (ok : A -> bool) (run : A -> result ServiceErr (db -> option AccErr * db))
    (e : attempt_env) (data : string) (d : db) : result ServiceErr unit * db :=
  match decode data with
  | None => (Err (ContractError "invalid_event_data"), d)
  | Some event =>
      if negb (ok event) then (Err (ContractError "event_invariant_failed"), d)
      else match run event with
           | Err err => (Err err, d)
           | Ok f => if at_store_up e then match f d with (None, d') => (Ok tt, d') | (Some err, d') => (Err (StoreErr err), d') end
                     else (Err (StoreErr (ErrSQL "unavailable")), d)
           end
  end.
Definition ProcessEvent (e : attempt_env) (meta : EventMeta) (data : string) (d : db) : result ServiceErr unit * db :=
  let ty := EventType meta in
  let of_type s := bool_decide (ty = s%string) in
  if of_type "billing.payment.succeeded.v1" then
    handle (dec_payment dec) (payment_ok meta) (fun event => Ok (exec (OpPayment (at_pick e) meta event))) e data d
  else if of_type "subscription.activated.v1" || of_type "subscription.extended.v1" then
    handle (dec_period dec) (period_ok meta) (fun event =>
      match newCredential e with
      | None => Err (OtherErr "new credential")
      | Some seed => Ok (exec (OpPeriod (at_now e) (at_pick e) (at_event e) meta event seed))
      end) e data d
  else if of_type "subscription.expired.v1" || of_type "subscription.revoked.v1" then
    handle (dec_terminal dec) (terminal_ok meta) (fun event =>
      Ok (exec (OpTerminal (at_now e) (at_pick e) (at_event e) meta event (RandomUUID (at_operation e))))) e data d
  else if of_type "subscription.grace.started.v1" then
    handle (dec_grace dec) (grace_ok meta) (fun event => Ok (exec (OpGrace (at_pick e) meta event))) e data d
  else if of_type "access.provision.succeeded.v1" then
    handle (dec_success dec) (validateProvisionSucceeded meta) (fun event =>
      Ok (exec (OpProvisioned (at_now e) (at_pick e) (at_event e) (at_revoke e) meta event))) e data d
  else if of_type "access.provision.failed.v1" || of_type "access.revoke.failed.v1" then
    handle (dec_failure dec) (failure_ok meta) (fun event =>
      Ok (exec (OpFailure (at_now e) (at_pick e) (at_event e) meta event (if of_type "access.revoke.failed.v1" then Revoke else Provision)))) e data d
  else if of_type "access.revoke.succeeded.v1" then
    handle (dec_removal dec) (removal_ok meta) (fun event => Ok (exec (OpRemoved (at_now e) (at_pick e) (at_event e) meta event))) e data d
  else (Err (ContractError "unsupported_event_type"), d).

(** ** The consumer *)

Record envelopeRule := MkRule { producer : string; aggregateType : string; partitionPrefix : string }.
Definition envelopeRules : gmap string envelopeRule := list_to_map [
  ("billing.payment.succeeded.v1", MkRule "billing-service" "payment" "user:");
  ("subscription.activated.v1", MkRule "subscription-service" "subscription" "user:");
  ("subscription.extended.v1", MkRule "subscription-service" "subscription" "user:");
  ("subscription.grace.started.v1", MkRule "subscription-service" "subscription" "user:");
  ("subscription.expired.v1", MkRule "subscription-service" "subscription" "user:");
  ("subscription.revoked.v1", MkRule "subscription-service" "subscription" "user:");
  ("access.provision.succeeded.v1", MkRule "provisioning-service" "credential" "credential:");
  ("access.provision.failed.v1", MkRule "provisioning-service" "credential" "credential:");
  ("access.revoke.succeeded.v1", MkRule "provisioning-service" "credential" "credential:");
  ("access.revoke.failed.v1", MkRule "provisioning-service" "credential" "credential:")]%string.
Definition partitionID (key : string) : string := match cut_on ":" key with Some (_, value) => value | None => "" end.
Definition validateEnvelope (r : kafka_record) (envelope : Envelope string) : option string :=
  match envelopeRules !! rec_topic r with
  | None => Some "invalid_envelope_routing"%string
  | Some rule =>
      let key := partitionID (env_PartitionKey envelope) in
      if negb (bool_decide (env_EventType envelope = rec_topic r)) || negb (env_SchemaVersion envelope =? 1) ||
         negb (bool_decide (env_Producer envelope = producer rule)) ||
         negb (bool_decide (env_AggregateType envelope = aggregateType rule)) then Some "invalid_envelope_routing"%string
      else if negb (uuidPattern (env_EventID envelope)) || negb (uuidPattern (env_AggregateID envelope)) ||
              negb (uuidPattern (env_CorrelationID envelope)) || (env_OccurredAt envelope =? 0) then Some "invalid_envelope_identifiers"%string
      else if match env_CausationID envelope with Some c => negb (uuidPattern c) | None => false end
      then Some "invalid_envelope_causation"%string
      else if negb (bool_decide (env_PartitionKey envelope = partitionPrefix rule +:+ key)%string) || negb (uuidPattern key) ||
              negb (bool_decide (rec_key r = env_PartitionKey envelope)) then Some "invalid_envelope_partition_key"%string
      else if bool_decide (partitionPrefix rule = "credential:"%string) && negb (bool_decide (key = env_AggregateID envelope))
      then Some "invalid_envelope_aggregate_key"%string
      else if env_AggregateSequence envelope <? 1 then Some "invalid_envelope_sequence"%string
      else if bool_decide (env_Data envelope = ""%string) || bool_decide (env_Data envelope = "null"%string) then Some "invalid_envelope_data"%string
      else None
  end.
Definition meta_of (envelope : Envelope string) (r : kafka_record) : EventMeta :=
  MkEventMeta (env_EventID envelope) (env_EventType envelope) (env_AggregateID envelope)
    (env_AggregateSequence envelope) (env_PartitionKey envelope) (env_CorrelationID envelope)
    (env_CausationID envelope) (env_OccurredAt envelope) (rec_topic r) (rec_partition r) (rec_offset r)
    (sha256_hex (rec_value r)).
Definition process (e : attempt_env) (r : kafka_record) (d : db) : result ServiceErr unit * db :=
  match dec_envelope dec (rec_value r) with
  | None => (Err (ContractError "invalid_envelope_json"), d)
  | Some envelope =>
      match validateEnvelope r envelope with
      | Some code => (Err (ContractError code), d)
      | None => ProcessEvent e (meta_of envelope r) (env_Data envelope) d
      end
  end.
Definition attempt (e : attempt_env) (r : kafka_record) (d : db) : verdict * db :=
  let finish d := if at_commit_ok e then (Committed, d) else (CommitFailed, d) in
  match process e r d with
  | (Ok _, d1) => finish d1
  | (Err err, d1) =>
      if isSequenceGap err then (Gap, d1)
      else match ContractErrorCode err with
           | None => (Retry, d1)
           | Some code =>
               if negb (at_dead_letter_ok e) then (Retry, d1)
               else match exec (OpDeadLetter (rec_topic r) (rec_partition r) (rec_offset r) (sha256_hex (rec_value r)) code) d1 with
                    | (None, d2) => finish d2
                    | (Some _, d2) => (Retry, d2)
                    end
           end
  end.
Definition access_pollOnce := pollOnce attempt.
Definition access_retryDeferred := retryDeferred attempt.

(** ** What an attempt leaves behind *)

(** The event is in the inbox, or the record among the dead letters. *)
Definition settled (d : db) (r : kafka_record) : Prop :=
  (exists k q, inbox d !! k = Some q /\ i_event_type q = rec_topic r /\ i_payload_sha256 q = sha256_hex (rec_value r)) \/
  OrderedConsumer.source_of r ∈ dom (dead_letters d).

(** An operation the service asks for: [ProcessEvent] ends in one, or changes
    nothing. *)
Definition supplied (e : attempt_env) (meta : EventMeta) (o : op) : Prop :=
  allowed o /\
  match o with
  | OpPeriod _ _ _ m _ seed => m = meta /\ newCredential e = Some seed
  | OpProvisioned _ _ _ _ m event => m = meta /\ validateProvisionSucceeded meta event = true
  | OpPayment _ m _ | OpGrace _ m _ | OpTerminal _ _ _ m _ _ | OpFailure _ _ _ m _ _ | OpRemoved _ _ _ m _ => m = meta
  | _ => False
  end.
Definition one_op (e : attempt_env) (meta : EventMeta) (d : db) (x : result ServiceErr unit * db) : Prop :=
  (exists err, x = (Err err, d) /\ isSequenceGap err = false) \/
  exists o, supplied e meta o /\
    x = match exec o d with (None, d') => (Ok tt, d') | (Some err, d') => (Err (StoreErr err), d') end.
Lemma handle_one_op {A} decode ok run e meta data d :
  (forall event : A, ok event = true -> match run event with
     | Err err => isSequenceGap err = false
     | Ok f => exists o, supplied e meta o /\ f = exec o
     end) -> one_op e meta d (handle decode ok run e data d).
Proof.
  intros H. unfold handle. destruct (decode data) as [event|]; [|left; by eexists]. destruct (ok event) eqn:Hok; simpl; [|left; by eexists].
  specialize (H event Hok). destruct (run event) as [f|err]; [|left; by eexists]. destruct (at_store_up e); [|left; by eexists].
  destruct H as (o & Ho & ->). right. by exists o.
Qed.
Lemma ok_aggregate (b : bool) (x y : string) : negb (negb (bool_decide (x = y)) || b) = true -> y = x.
Proof. rewrite negb_true_iff, orb_false_iff, negb_false_iff, bool_decide_eq_true. by intros [-> _]. Qed.
Lemma validated_success meta event : validateProvisionSucceeded meta event = true ->
  AggregateID meta = ps_CredentialID event /\ announced_status event.
Proof.
  unfold validateProvisionSucceeded. destruct (_ || _) eqn:E; [done|]. intros _. rewrite !orb_false_iff, !negb_false_iff, bool_decide_eq_true in E.
  destruct E as [[[[[[E1 _] _] _] E2] _] _]. split; [done|]. apply andb_false_iff in E2. rewrite !negb_false_iff, !bool_decide_eq_true in E2. exact E2.
Qed.
Ltac supply :=
  let event := fresh "event" in let Hok := fresh "Hok" in let H := fresh "H" in
  apply handle_one_op; intros event Hok; try (destruct (newCredential _) as [seed|] eqn:Hs; [|done]);
  eexists; split; [|reflexivity]; unfold supplied, allowed, payment_meta, lifecycle_meta, outcome_meta;
  match goal with H : EventType _ = _ |- _ => rewrite H end;
  first [ apply validated_success in Hok as H; destruct H
        | unfold payment_ok, period_ok, terminal_ok, grace_ok, failure_ok, removal_ok in Hok; rewrite <- ?orb_assoc in Hok;
          apply ok_aggregate in Hok ];
  split_and!; try done.
Ltac on_type meta s :=
  let E := fresh "E" in
  destruct (bool_decide (EventType meta = s)) eqn:E; cbn [orb]; [apply bool_decide_eq_true in E; supply|clear E].
Lemma ProcessEvent_one_op e meta data d : one_op e meta d (ProcessEvent e meta data d).
Proof.
  unfold ProcessEvent. cbv zeta.
  on_type meta "billing.payment.succeeded.v1"%string.
  on_type meta "subscription.activated.v1"%string.
  on_type meta "subscription.extended.v1"%string.
  on_type meta "subscription.expired.v1"%string.
  on_type meta "subscription.revoked.v1"%string.
  on_type meta "subscription.grace.started.v1"%string.
  on_type meta "access.provision.succeeded.v1"%string.
  on_type meta "access.provision.failed.v1"%string.
  on_type meta "access.revoke.failed.v1"%string.
  on_type meta "access.revoke.succeeded.v1"%string.
  left. by eexists.
Qed.

Lemma prepared_seen meta s u d b d1 d' : life_prepared meta s u d b d1 -> inbox d' = inbox d1 -> seen meta d'.
Proof.
  unfold seen. intros [H1 H2 H3 H4|n H1 (k & q & H)] ->; [|by exists k, q]. exists (EventID meta), (inbox_of meta).
  split; [apply lookup_insert_eq|done].
Qed.
Lemma outcome_prepared_seen meta k d b d1 d' : outcome_prepared meta k d b d1 -> inbox d' = inbox d1 -> seen meta d'.
Proof.
  unfold seen. intros [H1 H2 H3 H4|n H1 (j & q & H)] ->; [|by exists j, q]. exists (EventID meta), (inbox_of meta).
  split; [apply lookup_insert_eq|done].
Qed.
Lemma supplied_seen e meta o d d1 : Inv d -> supplied e meta o -> exec o d = (None, d1) -> seen meta d1.
Proof.
  intros HI [Hok Ho] Hex.
  destruct o as [p m ev|now p i m ev sd|p m ev|now p i m ev id|now p i rid m ev|now p i m ev kd|now p i m ev| | | | | | | |]; try done; cbn [exec] in Hex.
  - subst m. apply (exec_effect _ (fun d _ d' => payment_applied meta ev d d')) in Hex as [_ Hex]; [|done|].
    2: { intros t [] t' _ H. by eapply ApplyPaymentSucceeded_ok. }
    destruct Hex as [Hs|d1 Hn Hck Hu]; [done|]. destruct Hu as (r & -> & _). exists (EventID meta), (inbox_of meta).
    split; [apply lookup_insert_eq|done].
  - destruct Ho as [-> _]. apply (exec_effect _ (fun d _ d' => period_applied now i meta ev sd d d')) in Hex as [_ Hex]; [|done|].
    2: { intros t [] t' HI' H. by eapply ApplyPeriod_ok. }
    destruct Hex as [d1 Hp|d1 Hp|d1 d2 Hp _ _ _ _ _ _ Hf|d1 c d2 Hp _ _ _ _ _ _ _ Hf|d1 c d2 Hp _ _ _ _ Hf];
      try (by eapply prepared_seen); destruct (fulfilled_frame _ _ _ _ _ _ Hf) as [E1 E2]; by eapply prepared_seen.
  - subst m. apply (exec_effect _ (fun d _ d' => exists b, life_prepared meta (gr_SubscriptionID ev) (gr_UserID ev) d b d')) in Hex as (_ & b & Hex); [|done|].
    2: { intros t [] t' _ (b & x & H & ->)%ApplyGrace_ok. eauto. }
    by eapply prepared_seen.
  - subst m. apply (exec_effect _ (fun d _ d' => terminal_applied now i meta ev id d d')) in Hex as [_ Hex]; [|done|].
    2: { intros t [] t' HI' H. by eapply ApplyTerminal_ok. }
    destruct Hex; by eapply prepared_seen.
  - destruct Ho as [-> _]. apply (exec_effect _ (fun d _ d' => success_applied now i rid meta ev d d')) in Hex as [_ Hex]; [|done|].
    2: { intros t [] t' HI' H. by eapply ApplyProvisionSucceeded_ok. }
    destruct Hex; by eapply outcome_prepared_seen.
  - subst m. apply (exec_effect _ (fun d _ d' => failed_applied now i meta ev kd d d')) in Hex as [_ Hex]; [|done|].
    2: { intros t [] t' HI' H. by eapply ApplyOperationFailed_ok. }
    destruct Hex; by eapply outcome_prepared_seen.
  - subst m. apply (exec_effect _ (fun d _ d' => revoke_applied now i meta ev d d')) in Hex as [_ Hex]; [|done|].
    2: { intros t [] t' HI' H. by eapply ApplyRevokeSucceeded_ok. }
    destruct Hex; by eapply outcome_prepared_seen.
Qed.

(** ** The consumer loop *)

(** What later databases keep. *)
Definition later (d d' : db) : Prop := reaches d d' /\ inbox d ⊆ inbox d' /\ dead_letters d ⊆ dead_letters d'.
Lemma later_refl d : later d d.
Proof. split; [constructor|done]. Qed.
Lemma later_trans d1 d2 d3 : later d1 d2 -> later d2 d3 -> later d1 d3.
Proof. intros (R1 & I1 & D1) (R2 & I2 & D2). split_and!; [by eapply acc_reaches_trans|by etrans|by etrans]. Qed.
Lemma settled_later d d' r : later d d' -> settled d r -> settled d' r.
Proof.
  intros (_ & HI & HD) [(k & q & Hk & H)|H]; [left|right; by apply (subseteq_dom _ _ HD)].
  exists k, q. split; [by eapply lookup_weaken|done].
Qed.
Lemma exec_later d o : reachable d -> allowed o -> later d (snd (exec o d)).
Proof.
  intros Hd Ho. pose proof (acc_reachable_inv _ Hd) as HI. destruct (acc_exec_good d o d (acc_Good_refl _ HI) Ho) as [_ HK].
  split_and!; [by apply reaches_step; [constructor|]|apply HK|apply HK].
Qed.
Lemma reachable_later d d' : later d d' -> reachable d -> reachable d'.
Proof. intros [H _] Hd. by eapply acc_reaches_trans. Qed.

Lemma envelope_type r envelope : validateEnvelope r envelope = None -> env_EventType envelope = rec_topic r.
Proof.
  unfold validateEnvelope. destruct (envelopeRules !! _) as [rule|]; [|done]. cbv zeta. destruct (_ || _) eqn:E; [done|]. intros _.
  rewrite !orb_false_iff, negb_false_iff, bool_decide_eq_true in E. tauto.
Qed.
Lemma failed_exec o d e d' : match o with OpCompleteOutbox _ _ | OpRetryOutbox _ _ _ => False | _ => True end ->
  exec o d = (Some e, d') -> d' = d.
Proof.
  assert (forall A (m : acc_tx A), atomic m -> outcome m d = (Some e, d') -> d' = d) as H.
  { intros A m Ha. unfold outcome. destruct (in_tx m d) as [[a|e'] x] eqn:E; [done|]. intros [= <- <-]. by eapply atomic_in_tx. }
  destruct o; try done; intros _; cbn [exec]; apply H; eauto with access;
    unfold touch_token, RecordCredentialMaterialAccess, RecordDeadLetter, ClaimOutbox; tx_auto.
Qed.
Lemma dead_lettered topic p off h code d d' : exec (OpDeadLetter topic p off h code) d = (None, d') -> (topic, p, off) ∈ dom (dead_letters d').
Proof.
  cbn [exec]. unfold outcome, in_tx, RecordDeadLetter. rewrite run_get. unfold require. destruct (_ && _); [rewrite run_ret, run_modify|done].
  intros [= <-]. simpl. destruct (dead_letters d !! _) eqn:E; [by apply elem_of_dom|]. rewrite dom_insert_L. set_solver.
Qed.
Lemma acc_process_outcome e r d x d1 : reachable d -> process e r d = (x, d1) ->
  later d d1 /\ match x with Ok _ => settled d1 r | Err _ => d1 = d end.
Proof.
  intros Hd. assert (forall err, (Err err, d) = (x, d1) -> later d d1 /\ match x with Ok _ => settled d1 r | Err _ => d1 = d end)
    as Hsame by (intros err [= <- <-]; split; [apply later_refl|done]).
  unfold process. destruct (dec_envelope _ _) as [envelope|]; [|apply Hsame].
  destruct (validateEnvelope _ _) as [code|] eqn:Ev; [apply Hsame|]. apply envelope_type in Ev. set (meta := meta_of envelope r).
  destruct (ProcessEvent_one_op e meta (env_Data envelope) d) as [(err & -> & _)|(o & Ho & ->)]; [apply Hsame|].
  pose proof (exec_later d o Hd (proj1 Ho)) as Hl. destruct (exec o d) as [[err|] d2] eqn:Ex; intros [= <- <-]; (split; [exact Hl|]).
  - eapply failed_exec; [|exact Ex]. destruct Ho as [_ Ho]. by destruct o.
  - destruct (supplied_seen e meta o d d2 (acc_reachable_inv _ Hd) Ho Ex) as (k & q & Hk & _ & Ht & Hh). left. exists k, q.
    split_and!; [done| |done]. simpl in Ht. congruence.
Qed.
Lemma acc_attempt_outcome e r d v d1 : reachable d -> attempt e r d = (v, d1) ->
  later d d1 /\
  match v with
  | Committed => settled d1 r
  | CommitFailed => at_commit_ok e = false /\ settled d1 r
  | Gap | Retry => d1 = d
  end.
Proof.
  intros Hd. unfold attempt. destruct (process e r d) as [x d2] eqn:E. apply acc_process_outcome in E as [Hr Hx]; [|done].
  destruct x as [u|err].
  { destruct (at_commit_ok e) eqn:Ec; intros [= <- <-]; done. }
  subst d2. destruct (isSequenceGap err); [intros [= <- <-]; done|].
  destruct (ContractErrorCode err) as [code|]; [|intros [= <- <-]; done].
  destruct (at_dead_letter_ok e); cbn [negb]; [|intros [= <- <-]; done].
  set (o := OpDeadLetter (rec_topic r) (rec_partition r) (rec_offset r) (sha256_hex (rec_value r)) code). pose proof (exec_later d o Hd I) as Hl. destruct (exec o d) as [[err'|] d3] eqn:Ex.
  - intros [= <- <-]. split; [exact Hl|]. by eapply failed_exec; [|exact Ex].
  - apply dead_lettered in Ex. destruct (at_commit_ok e) eqn:Ec; intros [= <- <-]; (split; [exact Hl|]); [|split; [done|]]; by right.
Qed.
#[export] Instance access_attempts : OrderedAttempts attempt at_commit_ok reachable later settled.
Proof.
  split; [exact reachable_later|exact later_refl|exact later_trans|exact settled_later|exact acc_attempt_outcome].
Qed.

(** Access-service loses no event: one poll terminates and only runs
    operations whose events were checked; a position is committed only when
    the event is in the inbox or the record among the dead letters; every
    deferred record is still deferred or taken in; and the record fetched is
    taken in, deferred, or fetched again. A record is only fetched from a
    partition that is not paused. *)
Theorem access_events_are_not_lost fuel envs range record cancelled alive e q d :
  reachable d -> (size q < fuel)%nat -> (forall r, record = Some r -> q !! partition_of r = None) ->
  exists go q' d' calls, access_pollOnce fuel envs range record cancelled alive e q d = Some (go, q', d', calls) /\
    reaches d d' /\
    (forall r, CommitRecords r true ∈ calls -> settled d' r) /\
    (forall k r, q !! k = Some r -> q' !! k = Some r \/ settled d' r) /\
    (forall r, record = Some r -> settled d' r \/ q' !! partition_of r = Some r \/ SetOffsets r ∈ calls).
Proof.
  intros Hd Hf Hp. destruct (poll_keeps_records (inv := reachable) fuel envs range record cancelled alive e q d Hd Hf Hp)
    as (go & q' & d' & calls & E & [Hr _] & H). by exists go, q', d', calls.
Qed.
End service.
