(* ===== verification/AccessService.v ===== *)
(** * access-service: subscription URLs, profiles and support

    The requests of src/services/access/internal/application/service.go, the
    handlers of src/services/access/internal/httpapi/handler.go, and one turn
    of the outbox worker (src/services/access/internal/application/worker.go),
    as jobs: between any two calls on the database the rest of the system may
    have done anything. *)

From Stdlib Require Import Ascii List.
From S2P Require Import Prelude GoStrings Sha256 Backoff GoText Platform Jobs AccessDomain AccessStore AccessInv AccessSteps.
From S2P Require Import AccessLifecycle AccessOutcomes AccessSpec AccessProfile AccessCrypto AccessConsumer.

(** What a process runs in: what others do between its calls, whether each
    call gets through, the database clock, the order rows come in, the random
    bytes and the identifiers drawn before a call. *)
Record svc_env := MkEnv {
  sv_between : nat -> db -> db;
  sv_link : nat -> link;
  sv_now : nat -> Z;
  sv_pick : nat -> nat;
  sv_random : nat -> nat -> list Z;
  sv_draw : nat -> string
}.
Record svc_config := MkConfig {
  cf_keyring : Keyring;
  cf_hasher : TokenHasher;
  cf_publicURL : string
}.

Record Profile := MkProfile { p_Body : string; p_ExpiresAt : Z }.
Record ProvisioningMaterial := MkMaterial {
  m_CredentialID : string;
  m_SubscriptionID : string;
  m_Revision : Z;
  m_Protocol : string;
  m_VLESSClientUUID : string
}.

Inductive reply (A : Type) := Reply (status : Z) (body : A) | Problem (status : Z) (code : string).
Arguments Reply {A} status body.
Arguments Problem {A} status code.

Section service.
Context (env : svc_env) (cfg : svc_config).

(** A transaction on the store, and a single query. *)
Definition store {A} (m : nat -> acc_tx A) : job db (result AccErr A) :=
  call_store (sv_between env) (fun d => d) (fun d _ => d) (sv_link env) (ErrSQL "unavailable") m.
Definition query {A} (f : nat -> db -> result AccErr A) : job db (result AccErr A) :=
  ask (sv_between env) (fun i d => match sv_link env i with Up => f i d | _ => Err (ErrSQL "unavailable") end).
(** Random bytes are read from the process's own generator. *)
Definition random (which n : nat) : job db (list Z) := fun w => (take n (sv_random env (w_step w) which), w).
Definition do {A} (o : nat -> acc_tx A) : job db (result ServiceErr A) :=
  r ← store o; mret (match r with Ok a => Ok a | Err e => Err (StoreErr e) end).

(** ** service.go *)

Definition IssueSubscriptionURL (subscriptionID idempotencyKey operation : string) : job db (result ServiceErr string) :=
  if negb (bool_decide (operation = "issue"%string)) && negb (bool_decide (operation = "rotate"%string))
  then mret (Err (OtherErr "unsupported URL operation"))
  else
    token_bytes ← random 0 32;
    token_id ← random 1 16;
    let token := encode_raw true token_bytes in
    let tokenID := RandomUUID token_id in
    let seed := MkTokenSeed tokenID (Sum (cf_hasher cfg) token) (ActiveVersion (cf_hasher cfg)) idempotencyKey
                  (sha256_hex (operation +:+ newline +:+ subscriptionID)%string) in
    r ← do (fun i => IssueToken (sv_now env i) subscriptionID operation seed);
    mret (match r with
          | Ok _ => Ok (cf_publicURL cfg +:+ "/s/" +:+ token)%string
          | Err e => Err e
          end).

Definition service_GetAccessStatus (subscriptionID : string) : job db (result ServiceErr AccessStatus) :=
  r ← query (fun i d => GetAccessStatus (sv_now env i) subscriptionID d);
  mret (match r with Ok s => Ok s | Err e => Err (StoreErr e) end).

Definition service_RecoverProvisioning (input : AdminRecoveryInput) : job db (result ServiceErr AdminRecoveryResult) :=
  id ← random 0 16;
  do (fun i => RecoverProvisioning (sv_now env i) (sv_draw env i)
                 (MkRecoveryInput (ri_CredentialID input) (RandomUUID id) (ri_IdempotencyKey input) (ri_RequestSHA256 input)
                    (ri_ActionID input) (ri_CorrelationID input))).

(** [GetProfileByTokenHMACs]: three statements, sent one by one; the outcome
    of the last is ignored. *)
Definition GetProfileByTokenHMACs (lookups : list string) : job db (result AccErr ProfileRecord) :=
  if (length lookups =? 0)%nat || (MaxTokenHMACKeys <? length lookups)%nat then mret (Err ErrNotFound)
  else
    found ← query (fun i d => lookup_token (sv_now env i) (sv_pick env i) lookups d);
    match found with
    | Err e => mret (Err e)
    | Ok (t, c) =>
        listed ← query (fun _ d => Ok (list_endpoints (c_id c) d));
        match listed with
        | Err e => mret (Err e)
        | Ok endpoints =>
            if bool_decide (endpoints = []) then mret (Err ErrNotFound)
            else
              _ ← store (fun i => touch_token (sv_now env i) (t_id t));
              mret (Ok (MkProfileRecord (c_id c) (c_ciphertext c) (c_key_version c) (c_expires_at c) endpoints))
        end
    end.
Definition GetProfile (token : string) : job db (result ServiceErr Profile) :=
  match RawURL_Decode token with
  | None => mret (Err (StoreErr ErrNotFound))
  | Some decoded =>
      if negb (go_len decoded =? 32) then mret (Err (StoreErr ErrNotFound))
      else
        r ← GetProfileByTokenHMACs (Candidates (cf_hasher cfg) token);
        mret (match r with
              | Err e => Err (StoreErr e)
              | Ok record =>
                  match Decrypt (cf_keyring cfg) (pr_KeyVersion record) (pr_Ciphertext record) (pr_CredentialID record) with
                  | None => Err (OtherErr "decrypt profile credential")
                  | Some vlessUUID =>
                      match Render vlessUUID (pr_Endpoints record) with
                      | None => Err (OtherErr "render Happ profile")
                      | Some body => Ok (MkProfile body (pr_EntitlementExpiresAt record))
                      end
                  end
              end)
  end.

Definition GetProvisioningMaterial (credentialID actorService : string) : job db (result ServiceErr ProvisioningMaterial) :=
  if bool_decide (actorService = ""%string) || (64 <? go_len actorService) then mret (Err (OtherErr "provisioning actor identity is invalid"))
  else
    r ← query (fun _ d => GetProvisioningRecord credentialID d);
    match r with
    | Err e => mret (Err (StoreErr e))
    | Ok record =>
        match Decrypt (cf_keyring cfg) (pv_KeyVersion record) (pv_Ciphertext record) (pv_CredentialID record) with
        | None => mret (Err (OtherErr "decrypt provisioning credential"))
        | Some vlessUUID =>
            audited ← do (fun i => RecordCredentialMaterialAccess (sv_now env i) (sv_draw env i) (pv_CredentialID record) actorService);
            mret (match audited with
                  | Err e => Err e
                  | Ok _ => Ok (MkMaterial (pv_CredentialID record) (pv_SubscriptionID record) (pv_Revision record) "vless_reality" vlessUUID)
                  end)
        end
    end.

(** ** handler.go *)

Definition key_byte (c : ascii) : bool := alnum c || contains_any "._:-" (String c "").
Definition idempotencyKeyPattern (s : string) : bool :=
  match s with
  | String c s' => alnum c && all_bytes key_byte s' && (7 <=? go_len s') && (go_len s' <=? 127)
  | EmptyString => false
  end.

Definition handleURLCommand (subscription_id idempotency_key operation : string) : job db (reply string) :=
  let subscriptionID := TrimSpace subscription_id in
  let idempotencyKey := TrimSpace idempotency_key in
  if negb (uuidPattern subscriptionID) then mret (Problem 400 "invalid_subscription_id")
  else if negb (idempotencyKeyPattern idempotencyKey) then mret (Problem 400 "invalid_idempotency_key")
  else
    r ← IssueSubscriptionURL subscriptionID idempotencyKey operation;
    mret (match r with
          | Ok url => Reply 200 url
          | Err (StoreErr ErrNotReady) => Problem 409 "access_not_ready"
          | Err (StoreErr ErrAlreadyIssued) => Problem 409 "subscription_url_already_issued"
          | Err (StoreErr ErrIdempotencyReplay) => Problem 409 "idempotency_response_unavailable"
          | Err (StoreErr ErrIdempotencyConflict) => Problem 409 "idempotency_key_conflict"
          | Err (StoreErr ErrNotFound) => Problem 404 "access_not_found"
          | Err _ => Problem 500 "access_unavailable"
          end).
Definition http_IssueSubscriptionURL (subscription_id idempotency_key : string) := handleURLCommand subscription_id idempotency_key "issue".
Definition http_RotateSubscriptionURL (subscription_id idempotency_key : string) := handleURLCommand subscription_id idempotency_key "rotate".
Definition http_GetAccessStatus (subscription_id : string) : job db (reply AccessStatus) :=
  let subscriptionID := TrimSpace subscription_id in
  if negb (uuidPattern subscriptionID) then mret (Problem 400 "invalid_subscription_id")
  else
    r ← service_GetAccessStatus subscriptionID;
    mret (match r with
          | Ok status => Reply 200 status
          | Err (StoreErr ErrNotFound) => Problem 404 "access_not_found"
          | Err _ => Problem 500 "access_unavailable"
          end).
(** [identity]: the service the request's certificate names. *)
Definition http_GetProvisioningMaterial (identity : option string) (credential_id : string) : job db (reply ProvisioningMaterial) :=
  let credentialID := TrimSpace credential_id in
  if negb (uuidPattern credentialID) then mret (Problem 400 "invalid_credential_id")
  else
    r ← GetProvisioningMaterial credentialID (default "dev-insecure"%string identity);
    mret (match r with
          | Ok material => Reply 200 material
          | Err (StoreErr ErrNotFound) => Problem 404 "credential_not_found"
          | Err _ => Problem 500 "credential_unavailable"
          end).

(** The strict decoder of the recovery request: action and correlation. *)
Context (decode_recovery : string -> option (string * string)).
Definition maxAdminRecoveryBodyBytes : Z := 8 * 1024.
Definition decodeStrictJSON (body : string) : option (string * string) :=
  if maxAdminRecoveryBodyBytes <? go_len body then None else decode_recovery body.
Definition http_RecoverProvisioning (credential_id idempotency_key body : string) : job db (reply AdminRecoveryResult) :=
  let credentialID := TrimSpace credential_id in
  let idempotencyKey := TrimSpace idempotency_key in
  if negb (uuidPattern credentialID) || negb (idempotencyKeyPattern idempotencyKey) then mret (Problem 400 "invalid_request")
  else match decodeStrictJSON body with
  | None => mret (Problem 400 "invalid_json")
  | Some (action_id, correlation_id) =>
      let actionID := TrimSpace action_id in
      let correlationID := TrimSpace correlation_id in
      if negb (uuidPattern actionID) || negb (uuidPattern correlationID) then mret (Problem 400 "invalid_request")
      else
        let hash := sha256_hex ("access.provisioning.recover" +:+ newline +:+ credentialID +:+ newline +:+ actionID +:+ newline +:+ correlationID)%string in
        r ← service_RecoverProvisioning (MkRecoveryInput credentialID "" idempotencyKey hash actionID correlationID);
        mret (match r with
              | Ok result => Reply 200 result
              | Err (StoreErr ErrNotFound) => Problem 404 "credential_not_found"
              | Err (StoreErr ErrIdempotencyConflict) => Problem 409 "idempotency_conflict"
              | Err (StoreErr ErrRecoveryNotAllowed) => Problem 409 "recovery_not_allowed"
              | Err _ => Problem 500 "recovery_failed"
              end)
  end.

(** The public page: a status, the headers set and the body. *)
Record page := MkPage { pg_status : Z; pg_headers : list (string * string); pg_body : string }.
Definition security_headers : list (string * string) :=
  [("Cache-Control", "no-store"); ("Pragma", "no-cache"); ("X-Content-Type-Options", "nosniff"); ("Referrer-Policy", "no-referrer")]%string.
Definition unavailable : page :=
  MkPage 404 (security_headers ++ [("Content-Type", "text/plain; charset=utf-8")%string]) ("subscription unavailable" +:+ newline)%string.
Definition failure_page (status : Z) (text : string) (extra : list (string * string)) : page :=
  MkPage status (security_headers ++ extra ++ [("Content-Type", "text/plain; charset=utf-8")%string]) (text +:+ newline)%string.
Definition unix_epoch : Z := 62135596800.
Definition profile_headers (profileTitle supportURL : string) (updateHours expiresAt : Z) : list (string * string) :=
  security_headers ++
  [("Content-Type", "text/plain; charset=utf-8"); ("profile-title", profileTitle); ("profile-update-interval", decimal updateHours);
   ("subscription-userinfo", "upload=0; download=0; total=0; expire=" +:+ decimal (expiresAt / second - unix_epoch))]%string ++
  (if bool_decide (supportURL = ""%string) then [] else [("support-url"%string, supportURL)]).
(** [limit] is the limiter's answer, when there is a limiter. *)
Definition GetHappSubscription (profileTitle supportURL : string) (updateHours : Z) (limit : option (option bool)) (token : string)
    : job db page :=
  match limit with
  | Some None => mret (failure_page 503 "temporarily unavailable" [])
  | Some (Some false) => mret (failure_page 429 "rate limit exceeded" [("Retry-After", "60")]%string)
  | _ =>
      r ← GetProfile token;
      mret (match r with
            | Err (StoreErr ErrNotFound) => unavailable
            | Err _ => failure_page 503 "temporarily unavailable" []
            | Ok profile => MkPage 200 (profile_headers profileTitle supportURL updateHours (p_ExpiresAt profile)) (p_Body profile)
            end)
  end.

(** ** worker.go *)

(** [publish]: whether the broker took the message. *)
Definition access_workOnce (lease retryDelay : Z) (locked : nat -> gset string) (publish : nat -> outbox_row -> bool)
    : job db (result AccErr unit) :=
  claimed ← store (fun i => ClaimOutbox (sv_now env i) lease (locked i));
  match claimed with
  | Err e => mret (Err e)
  | Ok None => mret (Ok tt)
  | Ok (Some message) =>
      published ← ask (sv_between env) (fun i _ => publish i message);
      if (published : bool) then store (fun i => CompleteOutbox (sv_now env i) (o_event_id message))
      else store (fun i => RetryOutbox (sv_now env i) (o_event_id message) (retryBackoff retryDelay (o_attempts message) (o_event_id message)))
  end.
End service.
