(* ===== verification/AccessProfiles.v ===== *)
(** * access-service: what profile requests are answered

    Sealed credentials stay readable and stored endpoints stay valid, so a
    profile request is answered with a profile or told that there is none.
    The token and the endpoints are read by two statements, which may meet two
    databases; what a profile says is stated of both. *)

From Stdlib Require Import Ascii List Sorted.
From S2P Require Import Prelude GoStrings Sha256 Backoff GoText Aes Platform Jobs OrderedConsumer AccessDomain AccessStore AccessInv AccessSteps.
From S2P Require Import AccessLifecycle AccessOutcomes AccessSpec AccessProfile AccessCrypto AccessConsumer AccessService.

(** ** What the store holds can be served *)

(** Every keyring that keeps the key of the version opens the envelope. *)
Definition opens (keys : gmap Z string) (version : Z) (ciphertext credentialID : string) : Prop :=
  exists uuid, any_uuid uuid = true /\
    forall k, kr_keys k !! version = keys !! version -> Decrypt k version ciphertext credentialID = Some uuid.
Definition serveable (keys : gmap Z string) (d : db) : Prop :=
  (forall k c, credentials d !! k = Some c -> c_id c = k /\ opens keys (c_key_version c) (c_ciphertext c) k) /\
  (forall kn r, endpoints d !! kn = Some r -> ValidateEndpoint (e_endpoint r) = true).

(** The seeds and endpoints the service hands to the store. *)
Definition well_supplied (keys : gmap Z string) (o : op) : Prop :=
  match o with
  | OpPeriod _ _ _ _ _ seed => opens keys (cs_KeyVersion seed) (cs_Ciphertext seed) (cs_CredentialID seed)
  | OpProvisioned _ _ _ _ _ event => Forall (fun e => ValidateEndpoint e = true) (ps_Endpoints event)
  | _ => True
  end.

Section serveable.
Context (keys : gmap Z string).
Notation Sv := (serveable keys).

(** Statements that leave credentials and endpoints alone. *)
Lemma serveable_aside {d d'} : credentials d' = credentials d -> endpoints d' = endpoints d -> Sv d -> Sv d'.
Proof. unfold serveable. by intros -> ->. Qed.
Lemma modify_aside f : (forall d, credentials (f d) = credentials d) -> (forall d, endpoints (f d) = endpoints d) -> preserves Sv (modify f : acc_tx unit).
Proof. intros H1 H2. apply preserves_modify. intros d. by apply serveable_aside. Qed.
Definition keeps_secret (f : credential_row -> credential_row) : Prop :=
  forall r, c_id (f r) = c_id r /\ c_key_version (f r) = c_key_version r /\ c_ciphertext (f r) = c_ciphertext r.
Lemma update_credential_serveable id f : keeps_secret f -> preserves Sv (update_credential id f).
Proof.
  intros Hf. unfold update_credential. apply preserves_read. intros d [HC HE] t Hw.
  destruct (credentials d !! id) as [r|] eqn:Er; [|by simpl; rewrite Hw]. unfold require. destruct (_ && _); [rewrite run_ret|done].
  split; [done|]. simpl. rewrite Hw. intros _. split; [|exact HE]. simpl. intros k c. rewrite lookup_insert_Some.
  destruct (Hf r) as (E1 & E2 & E3). intros [[<- <-]|[_ Hk]]; [rewrite E1, E2, E3|]; by apply HC.
Qed.
Lemma insert_credential_serveable r : opens keys (c_key_version r) (c_ciphertext r) (c_id r) -> preserves Sv (insert_credential r).
Proof.
  intros Ho. unfold insert_credential. tx_auto. apply preserves_modify. intros d [HC HE]. split; [|exact HE]. simpl. intros k c.
  rewrite lookup_insert_Some. intros [[<- <-]|[_ Hk]]; [done|by apply HC].
Qed.
Lemma delete_endpoints_serveable k : preserves Sv (delete_endpoints k).
Proof.
  unfold delete_endpoints. apply preserves_modify. intros d [HC HE]. split; [exact HC|]. simpl. intros kn r [Hr _]%map_lookup_filter_Some. by eapply HE.
Qed.
Lemma insert_endpoints_serveable k n l : Forall (fun e => ValidateEndpoint e = true) l -> preserves Sv (insert_endpoints k n l).
Proof.
  induction 1 as [|e l He _ IH]; cbn [insert_endpoints]; tx_auto. apply preserves_modify. intros d [HC HE]. split; [exact HC|].
  simpl. intros kn r. rewrite lookup_insert_Some. intros [[_ <-]|[_ Hr]]; [done|by eapply HE].
Qed.
Lemma insert_assignments_serveable k n l : preserves Sv (insert_assignments k n l).
Proof. induction l as [|x l IH]; cbn [insert_assignments]; tx_auto. by apply modify_aside. Qed.
End serveable.

Ltac serve :=
  tx_auto; try (by apply modify_aside); try (apply update_credential_serveable; intros ?; repeat case_match; by split_and!); try apply delete_endpoints_serveable;
  try apply insert_assignments_serveable.

Section operations.
Context (keys : gmap Z string).
Notation Sv := (serveable keys).

Lemma insertInbox_serveable pick meta : preserves Sv (insertInbox pick meta).
Proof. unfold insertInbox. serve. Qed.
Lemma prepareLifecycle_serveable pick meta s u : preserves Sv (prepareLifecycle pick meta s u).
Proof. unfold prepareLifecycle. serve; by try apply insertInbox_serveable. Qed.
Lemma prepareOutcome_serveable pick meta k : preserves Sv (prepareOutcome pick meta k).
Proof. unfold prepareOutcome. serve; by try apply insertInbox_serveable. Qed.
Lemma upsert_sli_serveable id fresh ok upd e : preserves Sv (upsert_sli id fresh ok upd e).
Proof. unfold upsert_sli. serve. Qed.
Lemma insertOperation_serveable id k kd n a cid now : preserves Sv (insertOperation id k kd n a cid now).
Proof. unfold insertOperation. serve. Qed.
(** A statement that numbers a row of the outbox. *)
Lemma bump_serveable {A} k f e (m : db -> credential_row -> acc_tx A) : keeps_secret f -> (forall d r, preserves Sv (m d r)) ->
  preserves Sv (let* d := get in let* r := need (credentials d !! k) e in modify (set_credentials (insert k (f r))) ;;; m d r).
Proof.
  intros Hf Hm. apply preserves_read. intros d [HC HE] t Hw. unfold need. destruct (credentials d !! k) as [r|] eqn:Er; [|by split].
  rewrite run_ret, run_modify. refine (Hm d r (Txn (durable t) _) _). split; simpl; rewrite Hw; [|exact HE]. intros j c. rewrite lookup_insert_Some.
  destruct (Hf r) as (E1 & E2 & E3). intros [[<- <-]|[_ Hk]]; [rewrite E1, E2, E3|]; by apply HC.
Qed.
Lemma insertOutbox_serveable now ev meta at_ topic pk ag dd ty data n : preserves Sv (insertOutbox now ev meta at_ topic pk ag dd ty data n).
Proof.
  apply (bump_serveable ag (fun r => set_sequences (c_outbox_sequence r + 1) (c_notification_sequence r) r)); [done|].
  intros d r. serve.
Qed.
Lemma insertOperationOutbox_serveable now ev meta topic id k n : preserves Sv (insertOperationOutbox now ev meta topic id k n).
Proof. apply insertOutbox_serveable. Qed.
Lemma insertNotificationOutbox_serveable now ev meta at_ topic u k dd data : preserves Sv (insertNotificationOutbox now ev meta at_ topic u k dd data).
Proof.
  apply (bump_serveable k (fun r => set_sequences (c_outbox_sequence r) (c_notification_sequence r + 1) r)); [done|].
  intros d r. apply insertOutbox_serveable.
Qed.
End operations.
#[export] Hint Resolve prepareLifecycle_serveable prepareOutcome_serveable upsert_sli_serveable insertOperation_serveable
  insertOperationOutbox_serveable insertNotificationOutbox_serveable insertInbox_serveable : txdb.

Section handlers.
Context (keys : gmap Z string).
Notation Sv := (serveable keys).

Lemma ApplyPaymentSucceeded_serveable pick meta event : preserves Sv (ApplyPaymentSucceeded pick meta event).
Proof. unfold ApplyPaymentSucceeded. serve. Qed.
Lemma ApplyPeriod_serveable now pick ev meta event seed :
  opens keys (cs_KeyVersion seed) (cs_Ciphertext seed) (cs_CredentialID seed) -> preserves Sv (ApplyPeriod now pick ev meta event seed).
Proof.
  intros Ho. unfold ApplyPeriod, completePaymentAccessSLI, tokens_where. serve. by apply insert_credential_serveable.
Qed.
Lemma ApplyGrace_serveable pick meta event : preserves Sv (ApplyGrace pick meta event).
Proof. unfold ApplyGrace. serve. Qed.
Lemma ApplyTerminal_serveable now pick ev meta event id : preserves Sv (ApplyTerminal now pick ev meta event id).
Proof. unfold ApplyTerminal, tokens_where. serve. Qed.
Lemma replaceProvisionSnapshots_serveable event : Forall (fun e => ValidateEndpoint e = true) (ps_Endpoints event) ->
  preserves Sv (replaceProvisionSnapshots event).
Proof. intros H. unfold replaceProvisionSnapshots. serve. by apply insert_endpoints_serveable. Qed.
Lemma ApplyProvisionSucceeded_serveable now pick ev rid meta event : Forall (fun e => ValidateEndpoint e = true) (ps_Endpoints event) ->
  preserves Sv (ApplyProvisionSucceeded now pick ev rid meta event).
Proof.
  intros H. pose proof (replaceProvisionSnapshots_serveable event H).
  unfold ApplyProvisionSucceeded, late_success, elapsed_success, ready_success, complete_operation, bind_revoke, tokens_where. serve.
Qed.
Lemma ApplyOperationFailed_serveable now pick ev meta event kind : preserves Sv (ApplyOperationFailed now pick ev meta event kind).
Proof. unfold ApplyOperationFailed, fail_operation. serve; apply preserves_when; serve; apply preserves_when; serve. Qed.
Lemma ApplyRevokeSucceeded_serveable now pick ev meta event : preserves Sv (ApplyRevokeSucceeded now pick ev meta event).
Proof. unfold ApplyRevokeSucceeded, complete_operation. serve. Qed.
Lemma IssueToken_serveable now sub operation seed : preserves Sv (IssueToken now sub operation seed).
Proof. unfold IssueToken, insert_token, insert_url. serve. Qed.
Lemma RecoverProvisioning_serveable now ev input : preserves Sv (RecoverProvisioning now ev input).
Proof. unfold RecoverProvisioning, insert_recovery. serve. Qed.
End handlers.

(** ** Runs of the service *)

Section runs.
Context (keys : gmap Z string).

Lemma touch_token_serveable now id : preserves (serveable keys) (touch_token now id).
Proof. unfold touch_token. serve. Qed.
Lemma exec_serveable o d : well_supplied keys o -> serveable keys d -> serveable keys (snd (exec o d)).
Proof.
  intros Ho HS. assert (forall A (m : acc_tx A), preserves (serveable keys) m -> serveable keys (snd (outcome m d))) as H.
  { intros A m Hm. rewrite acc_outcome_snd. by apply (preserves_in_tx (serveable keys)). }
  destruct o; cbn [exec]; apply H.
  - apply ApplyPaymentSucceeded_serveable.
  - by apply ApplyPeriod_serveable.
  - apply ApplyGrace_serveable.
  - apply ApplyTerminal_serveable.
  - by apply ApplyProvisionSucceeded_serveable.
  - apply ApplyOperationFailed_serveable.
  - apply ApplyRevokeSucceeded_serveable.
  - apply IssueToken_serveable.
  - apply touch_token_serveable.
  - apply RecoverProvisioning_serveable.
  - unfold RecordCredentialMaterialAccess. serve.
  - unfold RecordDeadLetter. serve.
  - unfold ClaimOutbox. serve.
  - unfold CompleteOutbox, update_out. serve.
  - unfold RetryOutbox, update_out. serve.
Qed.

(** What the processes of the service do to the database, and what they know
    of it. *)
Definition service_step (d d' : db) : Prop := exists o, allowed o /\ well_supplied keys o /\ d' = snd (exec o d).
Definition service_inv (d : db) : Prop := reachable d /\ serveable keys d.
#[export] Instance access_protocol : Protocol db.
Proof.
  refine {| pstep := service_step; pinv := service_inv |}. intros d d' (o & Ha & Hw & ->) [Hr Hs].
  split; [by apply reaches_step|by apply exec_serveable].
Defined.
Lemma service_inv_empty : service_inv empty_db.
Proof. split; [constructor|]. split; intros ? ? H; simpl in H; by rewrite lookup_empty in H. Qed.

(** *** The consumer supplies what is asked of it *)

Lemma RandomUUID_any value : length value = 16%nat -> Forall is_byte value -> any_uuid (RandomUUID value) = true.
Proof. intros H1 H2. by apply versioned_uuid_any, RandomUUID_versioned. Qed.
Lemma newCredential_opens active ks k e seed : NewKeyring active ks = Some k -> ks ⊆ keys -> draws_ok e ->
  newCredential k e = Some seed -> opens keys (cs_KeyVersion seed) (cs_Ciphertext seed) (cs_CredentialID seed).
Proof.
  intros Hk Hsub (_ & _ & Hv & Hvb & _) Hn. unfold newCredential in Hn. destruct (Encrypt _ _ _ _) as [[c v]|] eqn:E; [|done].
  injection Hn as <-. simpl. destruct (Decrypt_Encrypt active ks k (RandomUUID (at_vless e)) (of_bytes (at_nonce e)) (RandomUUID (at_credential e)) Hk) as [_ H].
  destruct (H _ _ E) as [-> Hd]. exists (RandomUUID (at_vless e)). split; [by apply RandomUUID_any|]. intros k' Hk'. apply Hd.
  unfold gcm. rewrite Hk'. unfold NewKeyring in Hk. destruct (keys_ok active ks) eqn:Hok; [|done]. injection Hk as <-. simpl.
  apply keys_ok_true in Hok as (_ & _ & _ & [key Hkey]). rewrite Hkey. by eapply lookup_weaken.
Qed.
Lemma checked_endpoints assigned seen p f l : is_Some (check_endpoints assigned seen p f l) -> Forall (fun e => ValidateEndpoint e = true) l.
Proof.
  revert seen p f. induction l as [|e l IH]; intros seen p f; simpl; [constructor|].
  destruct (ValidateEndpoint e) eqn:Ev; rewrite ?orb_true_r; [|by intros [? ?]]. simpl.
  intros Hs. repeat case_match; try (by destruct Hs); constructor; eauto.
Qed.
Lemma supplied_well active ks k e meta o : NewKeyring active ks = Some k -> ks ⊆ keys -> draws_ok e ->
  supplied k e meta o -> well_supplied keys o.
Proof.
  intros Hk Hsub Hd [_ Ho]. destruct o; try done; simpl.
  - destruct Ho as [_ Ho]. by eapply newCredential_opens.
  - destruct Ho as [_ Ho]. unfold validateProvisionSucceeded in Ho. destruct (_ || _); [done|].
    destruct (check_endpoints _ _ _ _ _) as [pf|] eqn:E; [|done]. eapply checked_endpoints. by rewrite E.
Qed.
End runs.

(** ** The jobs keep to the protocol *)

Section jobs.
Context (keys : gmap Z string).
#[local] Instance protocol_here : Protocol db := access_protocol keys.
Notation step := (@pstep db protocol_here).
Notation inv := (@pinv db protocol_here).

Context (env : svc_env) (cfg : svc_config) (Hrely : relies (sv_between env)).

Lemma acc_triple_op {A} (P : db -> Prop) (m : nat -> acc_tx A) (o : nat -> op) : stable P ->
  (forall i d, snd (exec (o i) d) = snd (in_tx (m i) d)) -> (forall i, allowed (o i)) -> (forall i, well_supplied keys (o i)) ->
  triple P (store env m) (fun _ d => P d).
Proof.
  intros HP Ho Ha Hw. eapply triple_conseq; [apply (triple_call_store _ _ _ _ _ Hrely P m (fun _ _ => True))|done|by intros r d _ [? _]].
  - done.
  - intros i d x d' HI Hd E. apply rtc_once. exists (o i). split_and!; [apply Ha|apply Hw|by rewrite Ho, E].
  - done.
Qed.

(** The databases the first and the second statement of a request meet. *)
Definition first_seen (w : world db) : db := sv_between env (w_step w) (w_state w).
Definition then_seen (w : world db) : db := sv_between env (S (w_step w)) (first_seen w).
Lemma query_run {A} (f : nat -> db -> result AccErr A) w : query env f w =
  (match sv_link env (w_step w) with Up => f (w_step w) (first_seen w) | _ => Err (ErrSQL "unavailable") end,
   MkWorld (S (w_step w)) (first_seen w)).
Proof. reflexivity. Qed.
Lemma seen_steps w : inv (w_state w) -> rtc step (w_state w) (first_seen w) /\ rtc step (first_seen w) (then_seen w) /\
  inv (first_seen w) /\ inv (then_seen w).
Proof.
  intros HI. pose proof (Hrely (w_step w) _ HI) as H1. pose proof (rtc_keeps _ _ H1 HI) as HI1.
  pose proof (Hrely (S (w_step w)) _ HI1) as H2. split_and!; [exact H1|exact H2|exact HI1|by eapply rtc_keeps].
Qed.

(** Why there is no profile: none is found, or a call fails. *)
Definition no_profile (e : AccErr) : Prop := e = ErrNotFound \/ exists what, e = ErrSQL what.
Definition record_of (w : world db) (c : credential_row) : ProfileRecord :=
  MkProfileRecord (c_id c) (c_ciphertext c) (c_key_version c) (c_expires_at c) (list_endpoints (c_id c) (then_seen w)).
Definition token_at (w : world db) (lookups : list string) : result AccErr (token_row * credential_row) :=
  lookup_token (sv_now env (w_step w)) (sv_pick env (w_step w)) lookups (first_seen w).
Lemma GetProfileByTokenHMACs_run lookups w r w' : inv (w_state w) -> GetProfileByTokenHMACs env lookups w = (r, w') ->
  rtc step (w_state w) (w_state w') /\
  match r with
  | Err e => no_profile e
  | Ok record => exists t c, token_at w lookups = Ok (t, c) /\ record = record_of w c /\
      list_endpoints (c_id c) (then_seen w) <> [] /\ rtc step (then_seen w) (w_state w')
  end.
Proof.
  intros HI. destruct (seen_steps w HI) as (S1 & S2 & I1 & I2). unfold GetProfileByTokenHMACs.
  destruct (_ || _); [intros [= <- <-]; split; [apply rtc_refl|by left]|]. unfold mbind, job_bind. rewrite query_run. fold (token_at w lookups).
  assert (forall e, no_profile e -> (Err e : result AccErr ProfileRecord, MkWorld (S (w_step w)) (first_seen w)) = (r, w') ->
    rtc step (w_state w) (w_state w') /\ match r with Err e => no_profile e | Ok _ => False end) as Hfail1 by (intros e He [= <- <-]; by split).
  assert (forall e, no_profile e -> (Err e : result AccErr ProfileRecord, MkWorld (S (S (w_step w))) (then_seen w)) = (r, w') ->
    rtc step (w_state w) (w_state w') /\ match r with Err e => no_profile e | Ok _ => False end) as Hfail2
    by (intros e He [= <- <-]; split; [by etrans|done]).
  assert (forall Q : ProfileRecord -> Prop, rtc step (w_state w) (w_state w') /\ match r with Err e => no_profile e | Ok _ => False end ->
    rtc step (w_state w) (w_state w') /\ match r with Err e => no_profile e | Ok x => Q x end) as Hweak by (intros Q [? ?]; split; [done|by destruct r]).
  destruct (sv_link env (w_step w)); [|intros E; apply Hweak; eapply Hfail1; [right; by eexists|exact E]..].
  destruct (token_at w lookups) as [[t c]|e] eqn:Et.
  2: { intros E. apply Hweak. apply (Hfail1 e); [|exact E]. left. revert Et. unfold token_at, lookup_token. by repeat case_match; intros [= <-]. }
  rewrite query_run. change (first_seen (MkWorld (S (w_step w)) (first_seen w))) with (then_seen w). cbn [w_step].
  destruct (sv_link env (S (w_step w))); [|intros E; apply Hweak; eapply Hfail2; [right; by eexists|exact E]..].
  case_bool_decide as Hl; [intros E; apply Hweak; eapply Hfail2; [by left|exact E]|].
  destruct (store _ _ _) as [x w3] eqn:Es. intros [= <- <-].
  assert (rtc step (then_seen w) (w_state w3)) as S3.
  { destruct (acc_triple_op (fun _ => True) _ (fun i => OpTouchToken (sv_now env i) (t_id t)) ltac:(by intros ? ?) ltac:(by intros i d; cbn [exec]; rewrite acc_outcome_snd) ltac:(done) ltac:(done)
      (MkWorld (S (S (w_step w))) (then_seen w)) x w3 I2 I Es) as [H _]. exact H. }
  split; [by do 2 (etrans; [eassumption|])|]. exists t, c. by split_and!.
Qed.

Lemma any_uuid_like s : any_uuid s = true -> uuidLike s = true.
Proof.
  unfold any_uuid, uuidLike. apply matches_weaken. repeat (constructor; [intros c; try done; try (apply (all_ascii_impl variant hex); by vm_compute)|]). constructor.
Qed.
(** What a profile says: the end and the secret of a credential, and
    endpoints, the primary first. *)
Definition profile_from (c : credential_row) (endpoints : list EndpointSnapshot) (p : Profile) : Prop :=
  exists uuid sorted, p_ExpiresAt p = c_expires_at c /\
    Decrypt (cf_keyring cfg) (c_key_version c) (c_ciphertext c) (c_id c) = Some uuid /\
    sorted ≡ₚ endpoints /\ StronglySorted primary_first sorted /\
    read_profile (p_Body p) = Some (expected_link uuid <$> sorted).
(** The profile a request gets from a token [now] valid in the database [d1],
    and the endpoints listed in [d2]. *)
Definition served (lookups : list string) (now : Z) (d1 d2 : db) (p : Profile) : Prop :=
  exists t c, tokens d1 !! t_id t = Some t /\ credentials d1 !! c_id c = Some c /\ t_credential_id t = c_id c /\
    t_hmac t ∈ lookups /\ t_status t = TkActive /\ now < t_expires_at t /\ now < c_expires_at c /\ ready_status (c_status c) = true /\
    profile_from c (list_endpoints (c_id c) d2) p.
Definition only_absent (e : ServiceErr) : Prop := exists e', e = StoreErr e' /\ no_profile e'.

(** A stored credential opens, and its endpoints are rendered. *)
Lemma rendered active c d d2 : NewKeyring active keys = Some (cf_keyring cfg) -> inv d -> inv d2 ->
  credentials d !! c_id c = Some c -> list_endpoints (c_id c) d2 <> [] ->
  exists uuid body, Decrypt (cf_keyring cfg) (c_key_version c) (c_ciphertext c) (c_id c) = Some uuid /\
    Render uuid (list_endpoints (c_id c) d2) = Some body /\
    profile_from c (list_endpoints (c_id c) d2) (MkProfile body (c_expires_at c)).
Proof.
  intros Hk [_ HS] [_ HS2] Hc Hne.
  assert (kr_keys (cf_keyring cfg) = keys) as Hkeys by (unfold NewKeyring in Hk; destruct (keys_ok _ _); [by injection Hk as <-|done]).
  destruct (proj1 HS _ _ Hc) as [_ (uuid & Hu & Ho)]. specialize (Ho (cf_keyring cfg)). rewrite Hkeys in Ho. specialize (Ho eq_refl).
  destruct (Render_read uuid (list_endpoints (c_id c) d2)) as [Hnone Hsome].
  destruct (Render uuid (list_endpoints (c_id c) d2)) as [body|] eqn:Er.
  - exists uuid, body. split_and!; [done..|]. destruct (Hsome body eq_refl) as (sorted & Hp & Hs & Hread). by exists uuid, sorted.
  - exfalso. destruct (proj1 Hnone eq_refl) as [H|[H|H]]; [by rewrite any_uuid_like in H|done|].
    apply Exists_exists in H as (x & Hx & Hv). apply list_elem_of_In, elem_list_endpoints in Hx as (n & row & Hrow & ->).
    by rewrite (proj2 HS2 _ _ Hrow) in Hv.
Qed.
Lemma GetProfile_run active token w r w' : NewKeyring active keys = Some (cf_keyring cfg) -> inv (w_state w) ->
  GetProfile env cfg token w = (r, w') ->
  rtc step (w_state w) (w_state w') /\
  match r with
  | Ok p => served (Candidates (cf_hasher cfg) token) (sv_now env (w_step w)) (first_seen w) (then_seen w) p /\
      rtc step (then_seen w) (w_state w')
  | Err e => only_absent e
  end.
Proof.
  intros Hk HI. destruct (seen_steps w HI) as (S1 & S2 & I1 & I2). unfold GetProfile.
  assert (only_absent (StoreErr ErrNotFound)) as Hnf by (eexists; split; [done|by left]).
  assert ((Err (StoreErr ErrNotFound) : result ServiceErr Profile, w) = (r, w') -> rtc step (w_state w) (w_state w') /\
    match r with Err e => only_absent e | Ok _ => False end) as Hnone by (intros [= <- <-]; split; [apply rtc_refl|done]).
  destruct (RawURL_Decode token) as [decoded|]; [|intros [? ?]%Hnone; split; [done|by destruct r]].
  destruct (negb _); [intros [? ?]%Hnone; split; [done|by destruct r]|]. unfold mbind, job_bind.
  destruct (GetProfileByTokenHMACs env _ w) as [x w1] eqn:E. apply GetProfileByTokenHMACs_run in E as [Hr Hx]; [|done].
  destruct x as [record|e]; [|intros [= <- <-]; split; [done|by exists e]].
  destruct Hx as (t & c & Ht & -> & Hne & Hlast). unfold record_of. cbn [pr_KeyVersion pr_Ciphertext pr_CredentialID pr_Endpoints pr_EntitlementExpiresAt].
  pose proof (acc_reachable_inv _ (proj1 I1)) as HI1.
  apply (lookup_token_Ok _ _ _ _ _ _ HI1) in Ht as (T1 & T2 & T3 & T4 & T5 & T6 & T7).
  pose proof (proj1 (proj1 (proj2 I1) _ _ T2)) as Hid. rewrite <- Hid in T2.
  destruct (rendered active c (first_seen w) (then_seen w) Hk I1 I2 T2 Hne) as (uuid & body & -> & -> & Hp).
  intros [= <- <-]. split_and!; [done| |done]. exists t, c. by split_and!.
Qed.
End jobs.

(** C36: A profile request is answered: whatever the other processes do in
    between, it ends in a profile, in the answer that there is none, or in a
    failed call on the database, and never because a stored credential could
    not be opened or a stored endpoint not be rendered. A profile served
    comes from a token the request names, which was active and not expired,
    with a credential that was ready and not over, in the database the
    lookup of this request met and by its clock; it carries that credential's
    secret, its end, and the endpoints stored for it in the database the next
    statement met, the primary first. *)
Theorem profile_requests_are_answered keys active env cfg token w r w' :
  NewKeyring active keys = Some (cf_keyring cfg) -> @relies db (access_protocol keys) (sv_between env) ->
  service_inv keys (w_state w) -> GetProfile env cfg token w = (r, w') ->
  let d1 := sv_between env (w_step w) (w_state w) in
  let d2 := sv_between env (S (w_step w)) d1 in
  rtc (service_step keys) (w_state w) (w_state w') /\
  match r with
  | Ok p => served cfg (Candidates (cf_hasher cfg) token) (sv_now env (w_step w)) d1 d2 p /\
      rtc (service_step keys) (w_state w) d1 /\ rtc (service_step keys) d1 d2 /\ rtc (service_step keys) d2 (w_state w')
  | Err e => only_absent e
  end.
Proof.
  intros Hk Hrely HI Hr d1 d2. destruct (GetProfile_run keys env cfg Hrely active token w r w' Hk HI Hr) as [H1 H2].
  destruct (seen_steps keys env Hrely w HI) as (S1 & S2 & _). split; [exact H1|]. destruct r; [|exact H2]. by destruct H2.
Qed.

(** ** An issued address serves *)

Definition random_bytes (env : svc_env) : Prop := forall i k, length (sv_random env i k) = 32%nat /\ Forall is_byte (sv_random env i k).

Lemma pick_row_elem {A} n (l : list A) : l <> [] -> exists x, pick_row n l = Some x /\ x ∈ l.
Proof.
  intros Hl. unfold pick_row. destruct (lookup_lt_is_Some_2 l (n mod length l)) as [x Hx].
  - apply Nat.mod_upper_bound. by destruct l.
  - exists x. split; [done|]. by eapply list_elem_of_lookup_2.
Qed.
Lemma token_decodes l : length l = 32%nat -> Forall is_byte l ->
  exists decoded, RawURL_Decode (encode_raw true l) = Some decoded /\ go_len decoded = 32.
Proof.
  intros Hl Hb. exists (of_bytes l). unfold RawURL_Decode. rewrite encode_no_newlines, decode_encode by done. split; [done|].
  unfold go_len. rewrite <- length_bytes_of, bytes_of_bytes by done. by rewrite Hl.
Qed.

(** The only token a request finds. *)
Lemma lookup_finds now n lookups d t c : Inv d -> tokens d !! t_id t = Some t -> credentials d !! t_credential_id t = Some c ->
  t_hmac t ∈ lookups -> t_status t = TkActive -> now < t_expires_at t -> now < c_expires_at c -> ready_status (c_status c) = true ->
  (forall k t', tokens d !! k = Some t' -> t_hmac t' ∈ lookups -> k = t_id t) ->
  lookup_token now n lookups d = Ok (t, c).
Proof.
  intros HI Ht Hc Hin Hs H1 H2 Hr Hun. assert (t ∈ where_ (token_serves now lookups d) (tokens d)) as Hm.
  { apply elem_where. split; [|by exists (t_id t)]. unfold token_serves. rewrite Hc, Hr, !bool_decide_true by done.
    rewrite !andb_true_iff, !Z.ltb_lt. done. }
  unfold lookup_token. destruct (pick_row_elem n (where_ (token_serves now lookups d) (tokens d))) as (x & -> & Hx); [by intros E; rewrite E in Hm; apply elem_of_nil in Hm|].
  apply elem_where in Hx as [Hx (k & Hk)]. unfold token_serves in Hx. rewrite !andb_true_iff, bool_decide_eq_true in Hx.
  rewrite (Hun k x Hk) in Hk by apply Hx. assert (x = t) as -> by congruence. by rewrite Hc.
Qed.
(** A request with an active token, whose calls go through, gets its profile. *)
Lemma active_GetProfile keys active env cfg t c token w : @relies db (access_protocol keys) (sv_between env) ->
  (forall i, sv_link env i = Up) -> NewKeyring active keys = Some (cf_keyring cfg) -> service_inv keys (w_state w) ->
  let d1 := first_seen env w in let d2 := then_seen env w in
  tokens d1 !! t_id t = Some t -> credentials d1 !! t_credential_id t = Some c ->
  t_hmac t ∈ Candidates (cf_hasher cfg) token -> (length (Candidates (cf_hasher cfg) token) <= 4)%nat -> t_status t = TkActive ->
  sv_now env (w_step w) < t_expires_at t -> sv_now env (w_step w) < c_expires_at c -> ready_status (c_status c) = true ->
  (forall k t', tokens d1 !! k = Some t' -> t_hmac t' ∈ Candidates (cf_hasher cfg) token -> k = t_id t) ->
  list_endpoints (c_id c) d2 <> [] -> (exists decoded, RawURL_Decode token = Some decoded /\ go_len decoded = 32) ->
  exists p w', GetProfile env cfg token w = (Ok p, w') /\ profile_from cfg c (list_endpoints (c_id c) d2) p.
Proof.
  intros Hrely Hl Hk HI d1 d2 Ht Hc Hin Hlen Hs Hn1 Hn2 Hr Hun Hne (decoded & Hd & Hdl).
  destruct (seen_steps keys env Hrely w HI) as (_ & _ & I1 & I2).
  assert (token_at env w (Candidates (cf_hasher cfg) token) = Ok (t, c)) as Hat by (by apply lookup_finds; [apply acc_reachable_inv, I1|..]).
  assert (credentials d1 !! c_id c = Some c) as Hc' by (by rewrite (proj1 (proj1 (proj2 I1) _ _ Hc))).
  destruct (rendered keys cfg active c d1 d2 Hk I1 I2 Hc' Hne) as (uuid & body & Hdec & Hren & Hp).
  unfold GetProfile. rewrite Hd, Hdl. cbn [negb Z.eqb Pos.eqb]. unfold GetProfileByTokenHMACs.
  assert ((length (Candidates (cf_hasher cfg) token) =? 0)%nat || (MaxTokenHMACKeys <? length (Candidates (cf_hasher cfg) token))%nat = false) as ->.
  { apply orb_false_iff. split; [|by apply Nat.ltb_ge]. by destruct (Candidates (cf_hasher cfg) token); [apply elem_of_nil in Hin|]. }
  unfold mbind, job_bind. rewrite (query_run env _ w), Hl. fold (token_at env w (Candidates (cf_hasher cfg) token)). rewrite Hat.
  rewrite query_run, Hl. change (first_seen env (MkWorld (S (w_step w)) (first_seen env w))) with (then_seen env w).
  rewrite bool_decide_false by done. destruct (store _ _ _) as [x w3]. cbn. rewrite Hdec. unfold d2 in Hren. rewrite Hren. by eexists _, w3.
Qed.

Lemma steps_keep keys d d' : service_inv keys d -> rtc (service_step keys) d d' -> keeps d d'.
Proof.
  intros HI Hs. apply (acc_reaches_good d d'); [by apply acc_reachable_inv; apply HI|]. clear HI.
  induction Hs as [d|d1 d2 d3 (o & Ha & _ & ->) _ IH]; [apply (acc_reaches_all []); constructor|].
  eapply acc_reaches_trans; [|exact IH]. apply (acc_reaches_all [o]). by constructor.
Qed.
Lemma issued_facts now sub operation seed d d' : Inv d -> token_issued now sub operation seed d d' ->
  exists c t, current_credential sub d' = Some c /\ credentials d' !! c_id c = Some c /\ tokens d' !! t_id t = Some t /\ t_id t = ts_TokenID seed /\
    t_credential_id t = c_id c /\ t_hmac t = ts_LookupHMAC seed /\ t_status t = TkActive /\ t_expires_at t = c_expires_at c /\
    ready_status (c_status c) = true.
Proof.
  intros HI [c previous Hu Hc Hr Hn Hp Ho Hf]. exists c, (issued_token now seed c previous). split_and!; try done.
  - by destruct (current_credential_Some _ _ _ HI Hc).
  - simpl. apply lookup_insert_eq.
Qed.
Lemma issued_store env cfg sub key operation w url w1 : IssueSubscriptionURL env cfg sub key operation w = (Ok url, w1) ->
  exists i seed, ts_LookupHMAC seed = Sum (cf_hasher cfg) (encode_raw true (take 32 (sv_random env i 0))) /\
    url = (cf_publicURL cfg +:+ "/s/" +:+ encode_raw true (take 32 (sv_random env i 0)))%string /\
    in_tx (IssueToken (sv_now env i) sub operation seed) (sv_between env i (w_state w)) = (Ok tt, w_state w1).
Proof.
  unfold IssueSubscriptionURL. destruct (_ && _); [by intros [= ]|]. unfold mbind, job_bind, random, do, store, call_store, call, mbind, job_bind.
  cbv zeta. destruct (sv_link env (w_step w)) eqn:El; [|by intros [= ]|destruct (in_tx _ _); by intros [= ]].
  destruct (in_tx _ _) as [[[]|e] d1] eqn:E; intros [= <- <-]. exists (w_step w). eexists. split_and!; [| |exact E]; done.
Qed.

(** C11: An address that was issued works: its token is active, and however
    much later, as long as it is, and for all the other processes do, the token
    in the address, asked for by a process that keeps the keys the hash and
    the secret were made under (whichever are active by then) and whose hashes
    do not collide, while its calls on the database go through, gets the
    profile of the subscription's credential: its end, its secret and exactly
    the endpoints then stored for it, if there are any. *)
Theorem issued_url_serves keys hkeys hactive env cfg sub key operation w url w1 :
  @relies db (access_protocol keys) (sv_between env) -> service_inv keys (w_state w) -> random_bytes env ->
  NewTokenHasherKeyring hactive hkeys = Some (cf_hasher cfg) ->
  IssueSubscriptionURL env cfg sub key operation w = (Ok url, w1) ->
  exists token id c, url = (cf_publicURL cfg +:+ "/s/" +:+ token)%string /\ current_credential sub (w_state w1) = Some c /\
    (exists t, tokens (w_state w1) !! id = Some t /\ t_status t = TkActive /\ t_expires_at t = c_expires_at c) /\
    forall env' cfg' active' hactive' hkeys' w2,
      @relies db (access_protocol keys) (sv_between env') -> (forall i, sv_link env' i = Up) ->
      rtc (service_step keys) (w_state w1) (w_state w2) ->
      NewKeyring active' keys = Some (cf_keyring cfg') ->
      NewTokenHasherKeyring hactive' hkeys' = Some (cf_hasher cfg') -> hkeys' !! hactive = hkeys !! hactive ->
      let now := sv_now env' (w_step w2) in
      let d1 := sv_between env' (w_step w2) (w_state w2) in
      let d2 := sv_between env' (S (w_step w2)) d1 in
      (forall k k' t t', tokens d1 !! k = Some t -> tokens d1 !! k' = Some t' ->
         t_hmac t ∈ Candidates (cf_hasher cfg') token -> t_hmac t' ∈ Candidates (cf_hasher cfg') token -> k = k') ->
      (exists t, tokens d1 !! id = Some t /\ t_status t = TkActive /\ now < t_expires_at t) ->
      list_endpoints (c_id c) d2 <> [] ->
      exists p w3 c1, GetProfile env' cfg' token w2 = (Ok p, w3) /\ credentials d1 !! c_id c = Some c1 /\
        cred_identity c1 = cred_identity c /\ profile_from cfg' c1 (list_endpoints (c_id c) d2) p.
Proof.
  intros Hrely HI Hrnd Hh Hr. apply issued_store in Hr as (i & seed & Hs & -> & Hr).
  pose proof (@rtc_keeps db (access_protocol keys) _ _ (Hrely i _ HI) HI) as HI0.
  assert (service_inv keys (w_state w1)) as HI1.
  { destruct HI0 as [H1 H2]. assert (w_state w1 = snd (exec (OpIssueToken (sv_now env i) sub operation seed) (sv_between env i (w_state w)))) as ->
      by (cbn [exec]; by rewrite acc_outcome_snd, Hr).
    split; [by apply reaches_step|by apply exec_serveable]. }
  destruct (exec_effect (IssueToken (sv_now env i) sub operation seed) (fun d _ d' => token_issued (sv_now env i) sub operation seed d d')
    (sv_between env i (w_state w)) (w_state w1)) as [_ Hi]; [by apply acc_reachable_inv; apply HI0| |by unfold outcome; rewrite Hr|].
  { intros t [] t' _ H. by eapply IssueToken_ok. }
  apply issued_facts in Hi as (c & t & E1 & E2 & E3 & E4 & E5 & E6 & E7 & E8 & E9); [|by apply acc_reachable_inv; apply HI0].
  set (token := encode_raw true (take 32 (sv_random env i 0))) in *. exists token, (t_id t), c. split_and!; [done..|by exists t|].
  intros env' cfg' active' hactive' hkeys' w2 Hrely' Hup H12 Hk Hh' Hkept now d1 d2 Hcol (t1 & Ht1 & Ha1 & Hn1) Hne.
  pose proof (@rtc_keeps db (access_protocol keys) _ _ H12 HI1) as HI2.
  destruct (seen_steps keys env' Hrely' w2 HI2) as (S1 & _ & Id1 & _).
  assert (keeps (w_state w1) d1) as Hkeep by (eapply steps_keep; [exact HI1|by etrans]).
  destruct (kp_tokens _ _ Hkeep _ _ E3) as (t1' & Ht1' & Htev). assert (t1' = t1) as -> by (unfold d1 in *; congruence).
  destruct (kp_creds _ _ Hkeep _ _ E2) as (c1 & Hc1 & [Eid _ _ _]).
  destruct Htev as [[= F1 F2 F3 _ _ _] _].
  pose proof (acc_reachable_inv _ (proj1 Id1)) as [[_ _ _ _ KT _] _].
  destruct (tk_owner _ _ _ KT _ _ Ht1) as (c1' & Hc1' & Hready). rewrite F2, E5 in Hc1'. assert (c1' = c1) as -> by (unfold d1, first_seen in *; congruence).
  destruct (Hready Ha1) as [Hrd Hex].
  assert (c_id c1 = c_id c) as Ecid by (by injection Eid).
  assert (t_hmac t ∈ Candidates (cf_hasher cfg') token) as Hin.
  { rewrite E6, Hs. eapply Candidates_hold; [exact Hh|by eauto|]. rewrite <- Hkept. clear -Hh'. unfold NewTokenHasherKeyring in Hh'.
    destruct (keys_ok _ _); [|done]. by injection Hh' as <-. }
  destruct (active_GetProfile keys active' env' cfg' t1 c1 token w2 Hrely' Hup Hk HI2) as (p & w3 & Hp & Hprof).
  - by rewrite F1.
  - by rewrite F2, E5.
  - by rewrite F3.
  - destruct (length_Candidates _ _ _ token Hh') as (-> & Hl & _). lia.
  - done.
  - done.
  - fold now. by rewrite <- Hex.
  - done.
  - intros k t' Hk' Hin'. rewrite F1. apply (Hcol k (t_id t) t' t1); [done|done|done|by rewrite F3].
  - by rewrite Ecid.
  - destruct (Hrnd i 0%nat) as [Hl Hb]. subst token. rewrite take_ge by lia. by apply token_decodes.
  - exists p, w3, c1. rewrite Ecid in Hprof. by split_and!.
Qed.
