(* ===== verification/AccessServiceDemo.v ===== *)
(** * access-service: a run from the event to the profile

    Events arrive in envelopes, the credential is sealed with a real key, an
    address is issued and a profile downloaded. *)

From Stdlib Require Import Ascii List Sorted.
From S2P Require Import Prelude GoStrings Sha256 Backoff GoText Aes Platform Jobs OrderedConsumer AccessDomain AccessStore AccessInv AccessSteps.
From S2P Require Import AccessLifecycle AccessOutcomes AccessSpec AccessProfile AccessCrypto AccessConsumer AccessService AccessProfiles.

Module AccessServiceRuns.

Definition uid (n : string) : string := ("00000000-0000-4000-8000-0000000000" +:+ n)%string.
Definition key_text (c : ascii) : string := String.string_of_list_ascii (repeat c 32).
Definition all_keys : gmap Z string := {[ 1 := key_text "k"; 2 := key_text "l" ]}.
Definition old_hash_keys : gmap Z string := {[ 1 := key_text "h" ]}.
Definition new_hash_keys : gmap Z string := {[ 1 := key_text "h"; 2 := key_text "i" ]}.
Definition old_keyring : Keyring := MkKeyring 1 {[ 1 := key_text "k" ]}.
Definition new_keyring : Keyring := MkKeyring 2 all_keys.
Definition old_hasher : TokenHasher := MkTokenHasher 1 old_hash_keys [1].
Definition new_hasher : TokenHasher := MkTokenHasher 2 new_hash_keys [1; 2].
Example keyrings : NewKeyring 1 {[ 1 := key_text "k" ]} = Some old_keyring /\ NewKeyring 2 all_keys = Some new_keyring /\
  NewTokenHasherKeyring 1 old_hash_keys = Some old_hasher /\ NewTokenHasherKeyring 2 new_hash_keys = Some new_hasher.
Proof. vm_compute. done. Qed.

(** The events: an activation, and the provisioning of two nodes. *)
Definition sub_id : string := uid "01".
Definition user_id : string := uid "02".
Definition bytes16 (b : Z) : list Z := repeat b 16.
Definition cred_id : string := Eval vm_compute in RandomUUID (bytes16 17).
Definition op_id : string := Eval vm_compute in RandomUUID (bytes16 18).
Definition activation_body : PeriodEvent := MkPeriod sub_id user_id (uid "03") (uid "04") (uid "05") 100 900 1000.
Definition node_at (n role host label : string) : EndpointSnapshot :=
  MkEndpoint (uid n) role host 443 "www.example.org" "0123456789abcdef0123456789abcdef0123456789a" "ab12" "" label.
Definition success_body : ProvisionSucceeded :=
  MkProvisionSucceeded op_id cred_id 1 "active" [uid "11"; uid "12"]
    [node_at "11" "primary" "edge-1.example.net" "Köln #1"; node_at "12" "failover" "2001:db8::2" "100% #2"] 150.
Definition envelope (id topic agg producer key : string) (data : string) : Envelope string :=
  MkEnvelope (uid id) topic 1 120 producer (uid "0a") None agg (if bool_decide (agg = "credential"%string) then cred_id else sub_id) 1 key data.
Definition activation_envelope : Envelope string :=
  envelope "21" "subscription.activated.v1" "subscription" "subscription-service" ("user:" +:+ user_id) "activation".
Definition success_envelope : Envelope string :=
  envelope "22" "access.provision.succeeded.v1" "credential" "provisioning-service" ("credential:" +:+ cred_id) "success".
Definition only {A} (text : string) (a : A) (s : string) : option A := if bool_decide (s = text) then Some a else None.
Definition demo_decoders : decoders :=
  MkDecoders (fun s => if bool_decide (s = "activation"%string) then Some activation_envelope
                       else if bool_decide (s = "success"%string) then Some success_envelope else None)
    (only "" (MkPayment "" "" "" "" 0 "" 0)) (only "activation" activation_body) (fun _ => None) (fun _ => None)
    (only "success" success_body) (fun _ => None) (fun _ => None).
Definition activation_record : kafka_record := MkRecord "subscription.activated.v1" 0 7 ("user:" +:+ user_id) "activation".
Definition success_record : kafka_record := MkRecord "access.provision.succeeded.v1" 0 3 ("credential:" +:+ cred_id) "success".
Definition demo_attempt (now : Z) (event : string) : attempt_env :=
  MkAttempt now 0 event "rid" (bytes16 17) (bytes16 18) (bytes16 19) (repeat 20 12) true true true.
Definition at_once (now : Z) (event : string) (r : kafka_record) (d : db) : verdict * db :=
  attempt demo_decoders old_keyring (demo_attempt now event) r d.

Definition d_provisioned : db := Eval vm_compute in
  snd (at_once 200 "out2" success_record (snd (at_once 130 "out1" activation_record empty_db))).
Example both_committed :
  fst (at_once 130 "out1" activation_record empty_db) = Committed /\
  fst (at_once 200 "out2" success_record (snd (at_once 130 "out1" activation_record empty_db))) = Committed /\
  size (dead_letters (snd (at_once 200 "out2" success_record empty_db))) = 1%nat.
Proof. vm_compute. done. Qed.

Definition quiet_env (now : Z) : svc_env :=
  MkEnv (fun _ d => d) (fun _ => Up) (fun _ => now) (fun _ => 0%nat) (fun i k => repeat (Z.of_nat (3 + k)) 32) (fun _ => "drawn"%string).
Definition old_config : svc_config := MkConfig old_keyring old_hasher "https://vpn.example.org".
Definition new_config : svc_config := MkConfig new_keyring new_hasher "https://vpn.example.org".
Definition issued_run := Eval vm_compute in
  http_IssueSubscriptionURL (quiet_env 300) old_config sub_id "idem-key-1" (MkWorld 0 d_provisioned).
Definition demo_token : string := Eval vm_compute in encode_raw true (repeat 3 32).
Definition w_issued : world db := Eval vm_compute in snd issued_run.
Example address : fst issued_run = Reply 200 ("https://vpn.example.org/s/" +:+ demo_token)%string.
Proof. vm_compute. reflexivity. Qed.
Example page_served :
  pg_status (fst (GetHappSubscription (quiet_env 400) new_config "VPN" "" 12 None demo_token w_issued)) = 200 /\
  fst (GetHappSubscription (quiet_env 1000) new_config "VPN" "" 12 None demo_token w_issued) = unavailable /\
  fst (GetHappSubscription (quiet_env 400) new_config "VPN" "" 12 None "short" w_issued) = unavailable.
Proof. vm_compute. done. Qed.

(** ** Witnesses *)

Lemma demo_draws now ev : draws_ok (demo_attempt now ev).
Proof. by split_and!; repeat constructor. Qed.
Definition demo_seed : CredentialSeed := Eval vm_compute in
  default (MkCredentialSeed "" "" "" 0) (newCredential old_keyring (demo_attempt 130 "out1")).
Lemma demo_seed_drawn : newCredential old_keyring (demo_attempt 130 "out1") = Some demo_seed.
Proof. vm_compute. reflexivity. Qed.
Definition activation : op := OpPeriod 130 0 "out1" (meta_of activation_envelope activation_record) activation_body demo_seed.
Definition provisioned : op := OpProvisioned 200 0 "out2" "rid" (meta_of success_envelope success_record) success_body.
Lemma demo_supplied : allowed activation /\ well_supplied all_keys activation /\ allowed provisioned /\ well_supplied all_keys provisioned.
Proof.
  split_and!.
  - by vm_compute.
  - eapply (newCredential_opens all_keys 1 {[ 1 := key_text "k" ]} old_keyring); [apply keyrings| |apply demo_draws|apply demo_seed_drawn].
    apply map_subseteq_spec. intros v x. rewrite lookup_singleton_Some. intros [<- <-]. done.
  - split; [by vm_compute|by left].
  - by repeat constructor.
Qed.
Lemma provisioned_run : snd (exec provisioned (snd (exec activation empty_db))) = d_provisioned.
Proof. evaluates. Qed.
Lemma provisioned_service : service_inv all_keys d_provisioned.
Proof.
  rewrite <- provisioned_run. destruct demo_supplied as (A1 & W1 & A2 & W2). destruct (service_inv_empty all_keys) as [H1 H2]. split.
  - by repeat apply reaches_step.
  - by repeat apply exec_serveable.
Qed.
Lemma quiet_relies now : @relies db (access_protocol all_keys) (sv_between (quiet_env now)).
Proof. intros i d _. apply rtc_refl. Qed.
Definition issue_op : op := Eval vm_compute in
  OpIssueToken 300 sub_id "issue" (MkTokenSeed (RandomUUID (repeat 4 16)) (Sum old_hasher demo_token) 1 "idem-key-1"
    (sha256_hex ("issue" +:+ newline +:+ sub_id)%string)).
Lemma issue_run : snd (exec issue_op d_provisioned) = w_state w_issued.
Proof. evaluates. Qed.
Lemma issued_service : service_inv all_keys (w_state w_issued).
Proof.
  rewrite <- issue_run. destruct provisioned_service as [H1 H2]. split; [by apply reaches_step|by apply exec_serveable].
Qed.

Lemma profile_requests_are_answered_witness :
  match GetProfile (quiet_env 400) new_config demo_token w_issued with
  | (Ok p, _) => served new_config (Candidates new_hasher demo_token) 400 (w_state w_issued) (w_state w_issued) p
  | _ => False
  end.
Proof.
  destruct (GetProfile (quiet_env 400) new_config demo_token w_issued) as [r w'] eqn:E.
  destruct (profile_requests_are_answered all_keys 2 (quiet_env 400) new_config demo_token w_issued r w'
    ltac:(apply keyrings) (quiet_relies 400) issued_service E) as [_ H]. destruct r as [p|e]; [exact (proj1 H)|].
  assert (match GetProfile (quiet_env 400) new_config demo_token w_issued with (Ok _, _) => true | _ => false end = true) as Ho
    by (vm_compute; reflexivity).
  rewrite E in Ho. discriminate Ho.
Defined.

Lemma demo_random now : random_bytes (MkEnv (fun _ d => d) (fun _ => Up) (fun _ => now) (fun _ => 0%nat) (fun _ _ => repeat 3 32) (fun _ => "drawn"%string)).
Proof. intros i k. by split; repeat constructor. Qed.
Definition issue_env : svc_env :=
  MkEnv (fun _ d => d) (fun _ => Up) (fun _ => 300) (fun _ => 0%nat) (fun _ _ => repeat 3 32) (fun _ => "drawn"%string).
Definition w_fresh : world db := Eval vm_compute in
  snd (IssueSubscriptionURL issue_env old_config sub_id "idem-key-1" "issue" (MkWorld 0 d_provisioned)).
Definition demo_url : string := ("https://vpn.example.org/s/" +:+ demo_token)%string.
Lemma fresh_run : IssueSubscriptionURL issue_env old_config sub_id "idem-key-1" "issue" (MkWorld 0 d_provisioned) = (Ok demo_url, w_fresh).
Proof. evaluates. Qed.
Lemma only_token (d : db) (P : token_row -> Prop) (k0 : string) : (forall k t, tokens d !! k = Some t -> k = k0) ->
  forall k k' t t', tokens d !! k = Some t -> tokens d !! k' = Some t' -> P t -> P t' -> k = k'.
Proof. intros H k k' t t' Hk Hk' _ _. by rewrite (H k t Hk), (H k' t' Hk'). Qed.
Lemma fresh_tokens k t : tokens (w_state w_fresh) !! k = Some t -> k = RandomUUID (repeat 3 16).
Proof.
  intros Hk. apply elem_of_map_to_list in Hk.
  assert (forallb (fun kt => bool_decide (fst kt = RandomUUID (repeat 3 16))) (map_to_list (tokens (w_state w_fresh))) = true) as H by (vm_compute; reflexivity).
  rewrite forallb_forall in H. apply list_elem_of_In, H in Hk. by apply bool_decide_eq_true in Hk.
Qed.
(** Who rotates the keys asks for the fresh address. *)
Lemma issued_url_serves_witness :
  exists token c, demo_url = ("https://vpn.example.org/s/" +:+ token)%string /\ current_credential sub_id (w_state w_fresh) = Some c /\
    exists p w3 c1, GetProfile (quiet_env 400) new_config token w_fresh = (Ok p, w3) /\ cred_identity c1 = cred_identity c /\
      profile_from new_config c1 (list_endpoints (c_id c) (w_state w_fresh)) p.
Proof.
  destruct (issued_url_serves all_keys old_hash_keys 1 issue_env old_config sub_id "idem-key-1" "issue" (MkWorld 0 d_provisioned) demo_url w_fresh)
    as (token & id & c & Hu & Hc & (t & Ht & Ha & He) & H).
  - intros i d _. apply rtc_refl.
  - exact provisioned_service.
  - apply demo_random.
  - apply keyrings.
  - exact fresh_run.
  - exists token, c. split; [exact Hu|]. split; [exact Hc|].
    assert (c_expires_at c = 1000 /\ list_endpoints (c_id c) (w_state w_fresh) <> []) as [H1 H2].
    { assert (match current_credential sub_id (w_state w_fresh) with
              | Some c => (c_expires_at c =? 1000) && negb (bool_decide (list_endpoints (c_id c) (w_state w_fresh) = []))
              | None => false end = true) as Hb by (vm_compute; reflexivity).
      rewrite Hc in Hb. apply andb_true_iff in Hb as [Hb1 Hb2]. apply Z.eqb_eq in Hb1. apply negb_true_iff, bool_decide_eq_false in Hb2. exact (conj Hb1 Hb2). }
    destruct (H (quiet_env 400) new_config 2 2 new_hash_keys w_fresh) as (p & w3 & c1 & Hp & _ & Hid & Hprof).
    + exact (quiet_relies 400).
    + reflexivity.
    + apply rtc_refl.
    + apply keyrings.
    + apply keyrings.
    + reflexivity.
    + apply (only_token _ (fun t => t_hmac t ∈ Candidates (cf_hasher new_config) token) (RandomUUID (repeat 3 16))), fresh_tokens.
    + exists t. split; [exact Ht|]. split; [exact Ha|]. rewrite He, H1. reflexivity.
    + exact H2.
    + exists p, w3, c1. split; [exact Hp|]. split; [exact Hid|exact Hprof].
Defined.

(** The consumer, with the outcome waiting behind the activation. *)
Definition demo_poll (record : option kafka_record) (d : db) :=
  access_pollOnce demo_decoders old_keyring 5 (fun _ _ => demo_attempt 200 "out2") (fun _ q => (map_to_list q).*1) record false true
    (demo_attempt 130 "out1") ∅ d.
Lemma access_events_are_not_lost_witness :
  exists go q' d' calls, demo_poll (Some activation_record) empty_db = Some (go, q', d', calls) /\ settled d' activation_record.
Proof.
  destruct (access_events_are_not_lost demo_decoders old_keyring 5 (fun _ _ => demo_attempt 200 "out2") (fun _ q => (map_to_list q).*1)
    (Some activation_record) false true (demo_attempt 130 "out1") ∅ empty_db) as (go & q' & d' & calls & E & _ & Hc & _).
  - constructor.
  - vm_compute. lia.
  - intros r _. apply lookup_empty.
  - exists go, q', d', calls. split; [exact E|]. apply Hc.
    assert (match demo_poll (Some activation_record) empty_db with
            | Some (_, _, _, calls) => bool_decide (head calls = Some (CommitRecords activation_record true))
            | None => false end = true) as H by (vm_compute; reflexivity).
    unfold demo_poll in H. rewrite E in H. apply bool_decide_eq_true in H. clear - H. destruct calls as [|x l]; [done|]. injection H as ->. left.
Defined.
End AccessServiceRuns.
