(* ===== verification/NotificationDomain.v ===== *)
(** * notification-service: data and texts

    src/services/notification/internal/domain/types.go, the message texts of
    internal/template/render.go, and what that code uses of Go's [html],
    [strings] and [time] packages. *)

From Stdlib Require Import Ascii List.
From S2P Require Import Prelude GoStrings Backoff Platform GoText.

Inductive NotifErr :=
  | ErrNotFound
  | ErrEventConflict
  | ErrSequenceGap
  | ErrIdempotencyConflict
  | ErrRetryNotAllowed
  | ErrSQL (what : string).
#[export] Instance NotifErr_eq_dec : EqDecision NotifErr.
Proof. solve_decision. Defined.

Inductive JobStatus := JPending | JProcessing | JRetry | JDelivered | JPermanentlyFailed | JSuppressed.
#[export] Instance JobStatus_eq_dec : EqDecision JobStatus.
Proof. solve_decision. Defined.
Definition job_status_text (s : JobStatus) : string :=
  match s with
  | JPending => "pending"
  | JProcessing => "processing"
  | JRetry => "retry"
  | JDelivered => "delivered"
  | JPermanentlyFailed => "permanently_failed"
  | JSuppressed => "suppressed"
  end.

Record EventMeta := MkEventMeta {
  EventID : string;
  EventType : string;
  Producer : string;
  AggregateType : string;
  AggregateID : string;
  AggregateSequence : Z;
  PartitionKey : string;
  CorrelationID : string;
  CausationID : option string;
  OccurredAt : Z;
  SourceTopic : string;
  SourcePartition : Z;
  SourceOffset : Z;
  PayloadSHA256 : string
}.

Record Intent := MkIntent {
  in_NotificationID : string;
  in_UserID : string;
  in_SubscriptionID : option string;
  in_CredentialID : option string;
  in_NotificationType : string;
  in_TemplateVersion : Z;
  in_BusinessDedupeKey : string;
  in_DeliveryStreamKey : string;
  in_DeliverySequence : Z;
  in_SupersedesOlder : bool;
  in_Variables : gmap string string;
  in_SuppressedReason : string;
  in_MaxAttempts : Z
}.

Record Job := MkJob {
  jb_NotificationID : string;
  jb_UserID : string;
  jb_SubscriptionID : option string;
  jb_CredentialID : option string;
  jb_NotificationType : string;
  jb_TemplateVersion : Z;
  jb_Status : JobStatus;
  jb_Attempts : Z;
  jb_MaxAttempts : Z;
  jb_NextAttemptAt : Z;
  jb_ClaimID : string;
  jb_SourceProducer : string;
  jb_SourceAggregate : string;
  jb_SourceAggregateID : string;
  jb_SourceSequence : Z;
  jb_DeliveryStream : string;
  jb_DeliverySequence : Z;
  jb_SupersedesOlder : bool;
  jb_CorrelationID : string;
  jb_CausationID : option string;
  jb_Variables : gmap string string;
  jb_TerminalReason : option string;
  jb_DeliveredAt : option Z;
  jb_CreatedAt : Z;
  jb_UpdatedAt : Z
}.

Record TelegramTarget := MkTarget { tt_Eligible : bool; tt_ReasonCode : string; tt_TelegramChatID : Z; tt_Locale : string }.
Record SubscriptionState := MkState { ss_Status : string; ss_CurrentPeriodEnd : option Z; ss_GraceEndsAt : option Z }.
Record DeliveryError := MkDeliveryError { de_Code : string; de_Retryable : bool; de_RetryAfter : Z }.
Record DeadLetter := MkDeadLetter {
  dl_SourceTopic : string; dl_SourcePartition : Z; dl_SourceOffset : Z; dl_PayloadSHA256 : string;
  dl_EventType : option string; dl_ReasonCode : string; dl_State : string; dl_CreatedAt : Z; dl_UpdatedAt : Z
}.

(** ** Message texts *)

(** [html.EscapeString]. *)
Fixpoint EscapeString (s : string) : string :=
  match s with
  | EmptyString => EmptyString
  | String c s' =>
      let rest := EscapeString s' in
      if Ascii.eqb c "&" then ("&amp;" +:+ rest)%string
      else if Ascii.eqb c "'" then ("&#39;" +:+ rest)%string
      else if Ascii.eqb c "<" then ("&lt;" +:+ rest)%string
      else if Ascii.eqb c ">" then ("&gt;" +:+ rest)%string
      else if Ascii.eqb c "034" then ("&#34;" +:+ rest)%string
      else String c rest
  end.
Definition MaxTelegramRunes : Z := 4096.
Definition credential_material (text : string) : bool :=
  Contains (ToLower text) "vless://" || Contains (ToLower text) "/s/".

Definition template_text (notificationType : string) (escape : string -> string) : option string :=
  let of_type s := bool_decide (notificationType = s%string) in
  if of_type "payment_confirmed" then Some "<b>Payment confirmed.</b> We are preparing your VPN access."%string
  else if of_type "subscription_extended" then
    Some ("<b>Subscription extended.</b> Access is valid through " +:+ escape "period_end" +:+ ".")%string
  else if of_type "subscription_grace" then
    Some ("<b>Grace period started.</b> Renew before " +:+ escape "grace_ends_at" +:+ " to keep VPN access.")%string
  else if of_type "subscription_expired" then Some "<b>Subscription expired.</b> VPN access is no longer available."%string
  else if of_type "subscription_revoked" then
    Some "<b>Subscription access revoked.</b> Contact support if this was unexpected."%string
  else if of_type "refund_confirmed" then
    Some "<b>Refund confirmed.</b> Subscription access will follow the remaining paid periods."%string
  else if of_type "access_ready" then
    Some "<b>VPN access is ready.</b> Send /link to receive your one-time Happ subscription link."%string
  else if of_type "access_degraded" then
    Some "<b>VPN access is ready.</b> Backup capacity is temporarily reduced. Send /link to receive your one-time Happ subscription link."%string
  else if of_type "provisioning_failed" then
    Some "<b>VPN setup needs attention.</b> We could not finish setup. Please contact support."%string
  else None.
(** Variables come out of a [jsonb] column, so they are valid UTF-8 and
    [utf8.RuneCountInString] is the number of characters. *)
Definition Render (notificationType : string) (version : Z) (variables : gmap string string) : option string :=
  if negb (version =? 1) then None
  else
    let escape name := EscapeString (TrimSpace (default ""%string (variables !! name))) in
    text ← template_text notificationType escape;
    if credential_material text then None
    else if MaxTelegramRunes <? text_length text then None
    else Some text.

(** ** [time.Parse(time.RFC3339Nano, s)]

    The format the service itself writes. Go accepts a few spellings more (a
    comma before the fraction), which nothing here writes. *)
Definition number (s : string) (lo hi : Z) : option Z :=
  n ← digits_value s 0; if (lo <=? n) && (n <=? hi) then Some n else None.
Definition leap (y : Z) : bool := (y mod 4 =? 0) && (negb (y mod 100 =? 0) || (y mod 400 =? 0)).
Definition daysIn (m y : Z) : Z :=
  if m =? 2 then (if leap y then 29 else 28)
  else if bool_decide (m ∈ [4; 6; 9; 11]) then 30 else 31.
(** Days since 1 January of year 1. *)
Definition days_of (y m d : Z) : Z :=
  let y' := if m <=? 2 then y - 1 else y in
  let era := y' / 400 in
  let yoe := y' - era * 400 in
  let doy := (153 * (if m <=? 2 then m + 9 else m - 3) + 2) / 5 + d - 1 in
  era * 146097 + (yoe * 365 + yoe / 4 - yoe / 100 + doy) - 306.
Fixpoint leading_digits (s : string) : string * string :=
  match s with
  | String c s' => if digit c then let '(a, b) := leading_digits s' in (String c a, b) else (""%string, s)
  | EmptyString => (""%string, s)
  end.
(** Digits after the ninth are dropped. *)
Definition nanoseconds (digits : string) : option Z :=
  let d := String.substring 0 9 digits in
  n ← digits_value d 0; Some (n * 10 ^ (9 - go_len d)).
Definition zone_offset (s : string) : option Z :=
  if String.eqb s "Z" then Some 0
  else match s with
       | String sign (String h1 (String h2 (String colon (String m1 (String m2 EmptyString))))) =>
           hr ← number (String h1 (String h2 "")) 0 23;
           mm ← number (String m1 (String m2 "")) 0 59;
           if Ascii.eqb colon ":" then
             if Ascii.eqb sign "+" then Some ((hr * 60 + mm) * 60)
             else if Ascii.eqb sign "-" then Some (- ((hr * 60 + mm) * 60)) else None
           else None
       | _ => None
       end.
Definition at_byte (i : nat) (c : ascii) (s : string) : bool :=
  match String.get i s with Some c' => Ascii.eqb c' c | None => false end.
Definition ParseRFC3339Nano (s : string) : option Z :=
  year ← number (String.substring 0 4 s) 0 9999;
  month ← number (String.substring 5 2 s) 1 12;
  day ← number (String.substring 8 2 s) 1 (daysIn month year);
  hour ← number (String.substring 11 2 s) 0 23;
  min ← number (String.substring 14 2 s) 0 59;
  sec ← number (String.substring 17 2 s) 0 59;
  if negb ((19 <=? go_len s) && at_byte 4 "-" s && at_byte 7 "-" s && at_byte 10 "T" s && at_byte 13 ":" s && at_byte 16 ":" s) then None
  else
    let rest := String.substring 19 (String.length s - 19) s in
    '(nsec, zone) ← match rest with
      | String c (String c1 _ as frac) =>
          if Ascii.eqb c "." && digit c1 then
            let '(ds, zone) := leading_digits frac in n ← nanoseconds ds; Some (n, zone)
          else Some (0, rest)
      | _ => Some (0, rest)
      end;
    offset ← zone_offset zone;
    Some (((((days_of year month day * 24 + hour) * 60 + min) * 60 + sec - offset) * second) + nsec).

Example escapes : EscapeString "<a & 'b'>" = "&lt;a &amp; &#39;b&#39;&gt;"%string /\ EscapeString (String "034" "") = "&#34;"%string.
Proof. done. Qed.
Example parses_what_it_formats :
  let t := (1784376000 + 62135596800) * second + 500000000 in ParseRFC3339Nano (rfc3339nano t) = Some t.
Proof. vm_compute. reflexivity. Qed.
Example parses_zones :
  ParseRFC3339Nano "2026-07-18T14:00:00.5+02:00" = ParseRFC3339Nano "2026-07-18T12:00:00.5Z" /\
  ParseRFC3339Nano "2026-02-29T12:00:00Z" = None /\ ParseRFC3339Nano "0001-01-01T00:00:00Z" = Some 0.
Proof. vm_compute. done. Qed.
