(* ===== verification/NotificationStore.v ===== *)
(** * notification-service: the database

    The tables of src/services/notification/migrations and one transaction per
    method of src/services/notification/internal/postgres/store.go. *)

From Stdlib Require Import Ascii List.
From S2P Require Import Prelude GoStrings NotificationDomain.

(** ** Tables *)

Record cursor_row := MkCursor { k_last_sequence : Z; k_last_event_id : string; k_last_payload_sha256 : string }.
Record inbox_row := MkInbox {
  i_event_id : string;
  i_event_type : string;
  i_source : string * Z * Z;
  i_payload_sha256 : string;
  i_producer : string;
  i_aggregate_type : string;
  i_aggregate_id : string;
  i_sequence : option Z;
  i_dedupe_key : string
}.
Record job_row := MkJobRow {
  j_id : string;
  j_user_id : string;
  j_subscription_id : option string;
  j_credential_id : option string;
  j_type : string;
  j_template_version : Z;
  j_source_event_id : string;
  j_dedupe_key : string;
  j_status : JobStatus;
  j_attempts : Z;
  j_max_attempts : Z;
  j_next_attempt_at : Z;
  j_lease_until : option Z;
  j_claim_id : option string;
  j_delivered_at : option Z;
  j_reason : option string;
  j_correlation_id : string;
  j_causation_id : option string;
  j_variables : gmap string string;
  j_source_producer : string;
  j_source_aggregate_type : string;
  j_source_aggregate_id : string;
  j_source_sequence : option Z;
  j_stream : string;
  j_sequence : Z;
  j_supersedes : bool;
  j_created_at : Z;
  j_updated_at : Z
}.
(** The columns deliveries change. *)
Definition set_job (status : JobStatus) (attempts next : Z) (lease : option Z) (claim : option string)
    (delivered : option Z) (reason : option string) (updated : Z) (j : job_row) : job_row :=
  MkJobRow (j_id j) (j_user_id j) (j_subscription_id j) (j_credential_id j) (j_type j) (j_template_version j)
    (j_source_event_id j) (j_dedupe_key j) status attempts (j_max_attempts j) next lease claim delivered reason
    (j_correlation_id j) (j_causation_id j) (j_variables j) (j_source_producer j) (j_source_aggregate_type j)
    (j_source_aggregate_id j) (j_source_sequence j) (j_stream j) (j_sequence j) (j_supersedes j) (j_created_at j) updated.
Record dead_row := MkDead {
  dd_payload_sha256 : string; dd_event_type : option string; dd_reason : string; dd_state : string; dd_created_at : Z; dd_updated_at : Z
}.
Record admin_row := MkAdmin { ad_request_sha256 : string; ad_notification_id : string }.

Record db := MkDB {
  cursors : gmap string cursor_row;
  inbox : gmap string inbox_row;
  jobs : gmap string job_row;
  dead_letters : gmap (string * Z * Z) dead_row;
  admin_requests : gmap string admin_row
}.
Definition empty_db : db := MkDB ∅ ∅ ∅ ∅ ∅.
Definition set_cursors f d := MkDB (f (cursors d)) (inbox d) (jobs d) (dead_letters d) (admin_requests d).
Definition set_inbox f d := MkDB (cursors d) (f (inbox d)) (jobs d) (dead_letters d) (admin_requests d).
Definition set_jobs f d := MkDB (cursors d) (inbox d) (f (jobs d)) (dead_letters d) (admin_requests d).
Definition set_dead_letters f d := MkDB (cursors d) (inbox d) (jobs d) (f (dead_letters d)) (admin_requests d).
Definition set_admin_requests f d := MkDB (cursors d) (inbox d) (jobs d) (dead_letters d) (f (admin_requests d)).

Abbreviation notif_tx := (tx db NotifErr).

(** [notification_templates]: filled by the migration, never written. *)
Definition templates : list (string * Z) :=
  (fun t => (t, 1)) <$> ["payment_confirmed"; "subscription_activated"; "subscription_extended"; "subscription_grace";
    "subscription_expired"; "subscription_revoked"; "refund_confirmed"; "access_ready"; "access_degraded";
    "provisioning_failed"; "access_physically_revoked"]%string.

(** ** Checks *)

Definition opt_uuid (o : option string) : bool := match o with Some s => pg_uuid s | None => true end.
Definition code_byte (c : ascii) : bool := between "a" "z" c || digit c || Ascii.eqb c "_".
Definition reason_text (s : string) : bool :=
  match s with
  | String c s' => between "a" "z" c && all_bytes code_byte s' && (2 <=? go_len s') && (go_len s' <=? 63)
  | EmptyString => false
  end.
Definition inbox_checks (r : inbox_row) : bool :=
  let '(topic, partition, offset) := i_source r in
  pg_uuid (i_event_id r) && length_between 3 128 (i_event_type r) && length_between 1 249 topic &&
  (0 <=? partition) && (0 <=? offset) && sha256_text (i_payload_sha256 r) && length_between 3 64 (i_producer r) &&
  length_between 3 64 (i_aggregate_type r) && pg_uuid (i_aggregate_id r) &&
  match i_sequence r with Some n => 0 <? n | None => true end && length_between 3 200 (i_dedupe_key r).
Definition inbox_unique (r : inbox_row) (d : db) : bool :=
  negb (exists_row (fun q => bool_decide (i_source q = i_source r) ||
    bool_decide ((i_aggregate_type q, i_aggregate_id q, i_sequence q) = (i_aggregate_type r, i_aggregate_id r, i_sequence r))) (inbox d)).
Definition job_checks (j : job_row) : bool :=
  pg_uuid (j_id j) && pg_uuid (j_user_id j) && opt_uuid (j_subscription_id j) && opt_uuid (j_credential_id j) &&
  length_between 3 200 (j_dedupe_key j) && (0 <=? j_attempts j) && (1 <=? j_max_attempts j) && (j_max_attempts j <=? 100) &&
  match j_reason j with Some r => reason_text r | None => true end &&
  pg_uuid (j_correlation_id j) && opt_uuid (j_causation_id j) &&
  bool_decide ((j_type j, j_template_version j) ∈ templates) &&
  Bool.eqb (bool_decide (j_status j = JProcessing)) (bool_decide (is_Some (j_lease_until j)) && bool_decide (is_Some (j_claim_id j))) &&
  Bool.eqb (bool_decide (j_status j = JDelivered)) (bool_decide (is_Some (j_delivered_at j))) &&
  length_between 3 64 (j_source_producer j) && length_between 3 64 (j_source_aggregate_type j) &&
  match j_source_sequence j with Some n => 0 <? n | None => true end &&
  length_between 3 200 (j_stream j) && (0 <? j_sequence j).

(** ** Events *)

Definition stream_key (meta : EventMeta) : string :=
  (Producer meta +:+ ":" +:+ AggregateType meta +:+ ":" +:+ AggregateID meta)%string.
(** The cursor of a sequenced aggregate: only the next event passes. *)
Definition advance_cursor (meta : EventMeta) : notif_tx unit :=
  let* d := get in
  let row := MkCursor (AggregateSequence meta) (EventID meta) (PayloadSHA256 meta) in
  match cursors d !! stream_key meta with
  | None =>
      if negb (AggregateSequence meta =? 1) then throw ErrSequenceGap
      else require (length_between 3 200 (stream_key meta) && length_between 3 64 (Producer meta) &&
                    length_between 3 64 (AggregateType meta) && pg_uuid (AggregateID meta) && pg_uuid (EventID meta) &&
                    sha256_text (PayloadSHA256 meta)) (ErrSQL "advance notification cursor") ;;;
           modify (set_cursors (insert (stream_key meta) row))
  | Some c =>
      if AggregateSequence meta =? k_last_sequence c + 1 then modify (set_cursors (insert (stream_key meta) row))
      else if k_last_sequence c + 1 <? AggregateSequence meta then throw ErrSequenceGap
      else throw ErrEventConflict
  end.
Definition event_sequence (meta : EventMeta) : option Z :=
  if 0 <? AggregateSequence meta then Some (AggregateSequence meta) else None.
Definition insert_inbox (meta : EventMeta) (dedupe : string) : notif_tx unit :=
  let* d := get in
  let row := MkInbox (EventID meta) (EventType meta) (SourceTopic meta, SourcePartition meta, SourceOffset meta)
    (PayloadSHA256 meta) (Producer meta) (AggregateType meta) (AggregateID meta) (event_sequence meta) dedupe in
  require (inbox_checks row) (ErrSQL "insert notification inbox") ;;;
  require (inbox_unique row d) ErrEventConflict ;;;
  modify (set_inbox (insert (EventID meta) row)).

Definition later_superseder (stream : string) (sequence : Z) (m : gmap string job_row) : bool :=
  exists_row (fun j => bool_decide (j_stream j = stream) && (sequence <? j_sequence j) && j_supersedes j) m.
Definition superseded_reason : string := "superseded_by_terminal_state".
Definition new_job (now : Z) (meta : EventMeta) (intent : Intent) (status : JobStatus) (reason : option string) : job_row :=
  MkJobRow (in_NotificationID intent) (in_UserID intent) (in_SubscriptionID intent) (in_CredentialID intent)
    (in_NotificationType intent) (in_TemplateVersion intent) (EventID meta) (in_BusinessDedupeKey intent) status 0
    (in_MaxAttempts intent) now None None None reason (CorrelationID meta) (CausationID meta) (in_Variables intent)
    (Producer meta) (AggregateType meta) (AggregateID meta) (event_sequence meta) (in_DeliveryStreamKey intent)
    (in_DeliverySequence intent) (in_SupersedesOlder intent) now now.
(** [ON CONFLICT (business_dedupe_key) DO NOTHING]: whether a row went in. *)
Definition insert_job (j : job_row) : notif_tx bool :=
  let* d := get in
  require (job_checks j) (ErrSQL "insert notification job") ;;;
  if exists_row (fun q => bool_decide (j_dedupe_key q = j_dedupe_key j)) (jobs d) then ret false
  else
    require (bool_decide (jobs d !! j_id j = None)) (ErrSQL "insert notification job") ;;;
    modify (set_jobs (insert (j_id j) j)) ;;; ret true.
Definition waiting (j : job_row) : bool := bool_decide (j_status j = JPending \/ j_status j = JRetry).
Definition suppress_older (now : Z) (stream : string) (sequence : Z) : notif_tx unit :=
  modify (set_jobs (update_where
    (fun j => bool_decide (j_stream j = stream) && (j_sequence j <? sequence) && waiting j)
    (fun j => set_job JSuppressed (j_attempts j) (j_next_attempt_at j) None None (j_delivered_at j) (Some superseded_reason) now j))).
Definition RecordEvent (now : Z) (meta : EventMeta) (intent : Intent) : notif_tx bool :=
  let* d := get in
  match inbox d !! EventID meta with
  | Some r => if bool_decide (i_payload_sha256 r = PayloadSHA256 meta) then ret false else throw ErrEventConflict
  | None =>
      when (0 <? AggregateSequence meta) (advance_cursor meta) ;;;
      insert_inbox meta (in_BusinessDedupeKey intent) ;;;
      let* d1 := get in
      let '(status, reason) :=
        if negb (bool_decide (in_SuppressedReason intent = ""%string)) then (JSuppressed, Some (in_SuppressedReason intent))
        else if later_superseder (in_DeliveryStreamKey intent) (in_DeliverySequence intent) (jobs d1)
        then (JSuppressed, Some superseded_reason) else (JPending, None) in
      let* inserted := insert_job (new_job now meta intent status reason) in
      when (in_SupersedesOlder intent) (suppress_older now (in_DeliveryStreamKey intent) (in_DeliverySequence intent)) ;;;
      commit ;;; ret inserted
  end.

Definition nullif_empty (s : string) : option string := if bool_decide (s = ""%string) then None else Some s.
(** Two statements on the pool; the second only looks at what was there. *)
Definition RecordDeadLetter (now : Z) (topic : string) (partition offset : Z) (payloadHash eventType reason : string) : notif_tx unit :=
  let* d := get in
  match dead_letters d !! (topic, partition, offset) with
  | None =>
      require (length_between 1 249 topic && (0 <=? partition) && (0 <=? offset) && sha256_text payloadHash &&
               (bool_decide (eventType = ""%string) || length_between 3 128 eventType) && reason_text reason)
        (ErrSQL "record notification dead letter") ;;;
      modify (set_dead_letters (insert (topic, partition, offset)
        (MkDead payloadHash (nullif_empty eventType) reason "available" now now))) ;;; commit
  | Some r =>
      require (bool_decide (dd_payload_sha256 r = payloadHash) && bool_decide (default ""%string (dd_event_type r) = eventType) &&
               bool_decide (dd_reason r = reason)) ErrEventConflict
  end.
Definition dead_before (a b : string * Z * Z * dead_row) : bool :=
  let '(ta, pa, oa, ra) := a in let '(tb, pb, ob, rb) := b in
  if dd_created_at rb <? dd_created_at ra then true
  else if dd_created_at ra <? dd_created_at rb then false
  else if negb (bool_decide (ta = tb)) then String.leb ta tb
  else if negb (pa =? pb) then pa <? pb else oa <=? ob.
Definition ListDeadLetters (limit : nat) (d : db) : list DeadLetter :=
  (fun x => let '(t, p, o, r) := x in
     MkDeadLetter t p o (dd_payload_sha256 r) (dd_event_type r) (dd_reason r) (dd_state r) (dd_created_at r) (dd_updated_at r)) <$>
  take limit (order_by dead_before (map_to_list (dead_letters d))).

(** ** Deliveries *)

Definition job_of (zero_claim : string) (j : job_row) : Job :=
  MkJob (j_id j) (j_user_id j) (j_subscription_id j) (j_credential_id j) (j_type j) (j_template_version j) (j_status j)
    (j_attempts j) (j_max_attempts j) (j_next_attempt_at j) (default zero_claim (j_claim_id j)) (j_source_producer j)
    (j_source_aggregate_type j) (j_source_aggregate_id j) (default 0 (j_source_sequence j)) (j_stream j) (j_sequence j)
    (j_supersedes j) (j_correlation_id j) (j_causation_id j) (j_variables j) (j_reason j) (j_delivered_at j)
    (j_created_at j) (j_updated_at j).
Definition zero_uuid : string := "00000000-0000-0000-0000-000000000000".

Definition unfinished (j : job_row) : bool := waiting j || bool_decide (j_status j = JProcessing).
Definition due (now : Z) (j : job_row) : bool :=
  (waiting j && (j_next_attempt_at j <=? now)) ||
  (bool_decide (j_status j = JProcessing) && match j_lease_until j with Some l => l <=? now | None => false end).
Definition blocked (d : db) (j : job_row) : bool :=
  exists_row (fun p => bool_decide (j_stream p = j_stream j) && (j_sequence p <? j_sequence j) && unfinished p) (jobs d).
Definition claimable (now : Z) (locked : gset string) (d : db) (j : job_row) : bool :=
  due now j && negb (blocked d j) && bool_decide (j_id j ∉ locked).
(** [ORDER BY next_attempt_at, delivery_stream_key, delivery_sequence, created_at]. *)
Definition claim_before (a b : job_row) : bool :=
  if negb (j_next_attempt_at a =? j_next_attempt_at b) then j_next_attempt_at a <? j_next_attempt_at b
  else if negb (bool_decide (j_stream a = j_stream b)) then String.leb (j_stream a) (j_stream b)
  else if negb (j_sequence a =? j_sequence b) then j_sequence a <? j_sequence b
  else j_created_at a <=? j_created_at b.
(** [locked] are the rows [SKIP LOCKED] passes over. *)
Definition ClaimJob (now lease : Z) (locked : gset string) (claimID : string) : notif_tx (option Job) :=
  let* d := get in
  match first_by claim_before (claimable now locked d) (jobs d) with
  | None => ret None
  | Some j =>
      let j' := set_job JProcessing (j_attempts j + 1) (j_next_attempt_at j) (Some (now + lease)) (Some claimID)
                  (j_delivered_at j) (j_reason j) now j in
      require (job_checks j') (ErrSQL "claim notification job") ;;;
      modify (set_jobs (insert (j_id j) j')) ;;;
      commit ;;; ret (Some (job_of zero_uuid j'))
  end.
Definition held (claimID : string) (j : job_row) : bool :=
  bool_decide (j_status j = JProcessing) && bool_decide (j_claim_id j = Some claimID).
Definition finishClaim (now : Z) (notificationID claimID : string) (status : JobStatus) (reason : string) (delay : Z) : notif_tx unit :=
  let* d := get in
  match jobs d !! notificationID with
  | Some j =>
      if held claimID j then
        let superseded := bool_decide (status = JRetry \/ status = JPermanentlyFailed) &&
                          later_superseder (j_stream j) (j_sequence j) (jobs d) in
        let '(status, reason, delay) := if superseded then (JSuppressed, superseded_reason, 0) else (status, reason, delay) in
        let j' := set_job status (j_attempts j) (if bool_decide (status = JRetry) then now + delay else j_next_attempt_at j)
                    None None (if bool_decide (status = JDelivered) then Some now else None) (nullif_empty reason) now j in
        require (job_checks j') (ErrSQL "finish notification claim") ;;;
        modify (set_jobs (insert notificationID j')) ;;;
        commit
      else throw ErrEventConflict
  | None => throw ErrEventConflict
  end.
Definition CompleteJob (now : Z) (notificationID claimID : string) := finishClaim now notificationID claimID JDelivered "" 0.
Definition RetryJob (now : Z) (notificationID claimID : string) (delay : Z) := finishClaim now notificationID claimID JRetry "" delay.
Definition FailJob (now : Z) (notificationID claimID reason : string) := finishClaim now notificationID claimID JPermanentlyFailed reason 0.
Definition SuppressJob (now : Z) (notificationID claimID reason : string) := finishClaim now notificationID claimID JSuppressed reason 0.

Definition GetJob (notificationID : string) (d : db) : result NotifErr Job :=
  match jobs d !! notificationID with Some j => Ok (job_of zero_uuid j) | None => Err ErrNotFound end.
Definition has_successor (j : job_row) (d : db) : bool :=
  exists_row (fun q => bool_decide (j_stream q = j_stream j) && (j_sequence j <? j_sequence q)) (jobs d).
Definition RequestRetry (now : Z) (notificationID idempotencyKey requestHash : string) : notif_tx (Job * bool) :=
  let* d := get in
  match admin_requests d !! idempotencyKey with
  | Some r =>
      require (bool_decide (ad_request_sha256 r = requestHash) && bool_decide (ad_notification_id r = notificationID)) ErrIdempotencyConflict ;;;
      let* job := query (GetJob notificationID) in ret (job, true)
  | None =>
      let* j := need (jobs d !! notificationID) ErrNotFound in
      require (bool_decide (j_status j = JPermanentlyFailed \/ j_status j = JRetry)) ErrRetryNotAllowed ;;;
      require (negb (has_successor j d)) ErrRetryNotAllowed ;;;
      modify (set_jobs (insert notificationID (set_job JPending 0 now None None (j_delivered_at j) None now j))) ;;;
      require (length_between 8 128 idempotencyKey && sha256_text requestHash) (ErrSQL "insert notification retry request") ;;;
      modify (set_admin_requests (insert idempotencyKey (MkAdmin requestHash notificationID))) ;;;
      let* job := query (GetJob notificationID) in
      commit ;;; ret (job, false)
  end.
