(* ===== verification/NotificationInv.v ===== *)
(** * notification-service: what its operations do, and what they keep

    The effect of each transaction of [NotificationStore.v] as a relation
    between databases, the invariant of the tables and its preservation. *)

From Stdlib Require Import Ascii List.
From S2P Require Import Prelude GoStrings NotificationDomain NotificationStore.

(** ** Effects *)

(** What a delivery never changes of a job. *)
Definition ident (j : job_row) : job_row := set_job JPending 0 0 None None None None 0 j.
Lemma ident_set st a n l c dl r u j : ident (set_job st a n l c dl r u j) = ident j.
Proof. done. Qed.
Lemma ident_fields j j' : ident j = ident j' ->
  j_id j = j_id j' /\ j_dedupe_key j = j_dedupe_key j' /\ j_stream j = j_stream j' /\ j_sequence j = j_sequence j' /\
  j_supersedes j = j_supersedes j' /\ j_source_event_id j = j_source_event_id j' /\ j_max_attempts j = j_max_attempts j' /\
  j_user_id j = j_user_id j' /\ j_type j = j_type j' /\ j_variables j = j_variables j'.
Proof.
  intros H. split_and!; [apply (f_equal j_id) in H|apply (f_equal j_dedupe_key) in H|apply (f_equal j_stream) in H
    |apply (f_equal j_sequence) in H|apply (f_equal j_supersedes) in H|apply (f_equal j_source_event_id) in H
    |apply (f_equal j_max_attempts) in H|apply (f_equal j_user_id) in H|apply (f_equal j_type) in H|apply (f_equal j_variables) in H]; exact H.
Qed.

Definition suppressed (now : Z) (j : job_row) : job_row :=
  set_job JSuppressed (j_attempts j) (j_next_attempt_at j) None None (j_delivered_at j) (Some superseded_reason) now j.
Definition older_waiting (stream : string) (sequence : Z) (j : job_row) : bool :=
  bool_decide (j_stream j = stream) && (j_sequence j <? sequence) && waiting j.
Definition inbox_of (meta : EventMeta) (dedupe : string) : inbox_row :=
  MkInbox (EventID meta) (EventType meta) (SourceTopic meta, SourcePartition meta, SourceOffset meta)
    (PayloadSHA256 meta) (Producer meta) (AggregateType meta) (AggregateID meta) (event_sequence meta) dedupe.
Definition cursor_of (meta : EventMeta) : cursor_row := MkCursor (AggregateSequence meta) (EventID meta) (PayloadSHA256 meta).

Inductive cursor_moved (meta : EventMeta) (m : gmap string cursor_row) : gmap string cursor_row -> Prop :=
  | CursorIdle : AggregateSequence meta <= 0 -> cursor_moved meta m m
  | CursorFirst : AggregateSequence meta = 1 -> m !! stream_key meta = None ->
      cursor_moved meta m (<[stream_key meta := cursor_of meta]> m)
  | CursorNext c : 0 < AggregateSequence meta -> m !! stream_key meta = Some c -> AggregateSequence meta = k_last_sequence c + 1 ->
      cursor_moved meta m (<[stream_key meta := cursor_of meta]> m).
Inductive job_added (now : Z) (meta : EventMeta) (intent : Intent) (m : gmap string job_row) : bool -> gmap string job_row -> Prop :=
  | JobKnown k j : m !! k = Some j -> j_dedupe_key j = in_BusinessDedupeKey intent -> job_added now meta intent m false m
  | JobNew st reason : (forall k j, m !! k = Some j -> j_dedupe_key j <> in_BusinessDedupeKey intent) ->
      m !! in_NotificationID intent = None ->
      (st = JSuppressed \/ st = JPending /\ later_superseder (in_DeliveryStreamKey intent) (in_DeliverySequence intent) m = false) ->
      (in_SuppressedReason intent <> ""%string -> st = JSuppressed) ->
      job_checks (new_job now meta intent st reason) = true ->
      job_added now meta intent m true (<[in_NotificationID intent := new_job now meta intent st reason]> m).
Inductive event_applied (now : Z) (meta : EventMeta) (intent : Intent) (d : db) : bool -> db -> Prop :=
  | EventKnown r : inbox d !! EventID meta = Some r -> i_payload_sha256 r = PayloadSHA256 meta -> event_applied now meta intent d false d
  | EventNew inserted cs js : inbox d !! EventID meta = None -> inbox_unique (inbox_of meta (in_BusinessDedupeKey intent)) d = true ->
      cursor_moved meta (cursors d) cs -> job_added now meta intent (jobs d) inserted js ->
      event_applied now meta intent d inserted
        (MkDB cs (<[EventID meta := inbox_of meta (in_BusinessDedupeKey intent)]> (inbox d))
          (if in_SupersedesOlder intent
           then update_where (older_waiting (in_DeliveryStreamKey intent) (in_DeliverySequence intent)) (suppressed now) js else js)
          (dead_letters d) (admin_requests d)).

Lemma advance_cursor_ok meta t x t' : 0 < AggregateSequence meta -> advance_cursor meta t = (Ok x, t') ->
  exists cs, cursor_moved meta (cursors (working t)) cs /\ t' = Txn (durable t) (set_cursors (fun _ => cs) (working t)).
Proof.
  intros Hpos. unfold advance_cursor. rewrite run_get. destruct (cursors (working t) !! stream_key meta) as [c|] eqn:E.
  - destruct (_ =? _) eqn:Hn; [|by destruct (_ <? _)]. intros [= <- <-]. eexists. split; [eapply CursorNext; [done|done|lia]|done].
  - destruct (_ =? 1) eqn:Hn; [|done]. cbn [negb]. intros (u & t1 & [_ ->]%require_ok & [= <- <-])%bind_ok_inv.
    eexists. split; [apply CursorFirst; [lia|done]|done].
Qed.
Lemma insert_inbox_ok meta dedupe t x t' : insert_inbox meta dedupe t = (Ok x, t') ->
  inbox_unique (inbox_of meta dedupe) (working t) = true /\
  t' = Txn (durable t) (set_inbox (insert (EventID meta) (inbox_of meta dedupe)) (working t)).
Proof.
  unfold insert_inbox. rewrite run_get. cbv zeta. intros (u & t1 & [_ ->]%require_ok & H)%bind_ok_inv.
  apply bind_ok_inv in H as (u' & t1 & [Hu ->]%require_ok & [= <- <-]). done.
Qed.
Lemma insert_job_ok now meta intent st reason t b t' : insert_job (new_job now meta intent st reason) t = (Ok b, t') ->
  (st = JSuppressed \/ st = JPending /\ later_superseder (in_DeliveryStreamKey intent) (in_DeliverySequence intent) (jobs (working t)) = false) ->
  (in_SuppressedReason intent <> ""%string -> st = JSuppressed) ->
  exists js, job_added now meta intent (jobs (working t)) b js /\ t' = Txn (durable t) (set_jobs (fun _ => js) (working t)).
Proof.
  unfold insert_job. rewrite run_get. intros (u & t1 & [Hc ->]%require_ok & H)%bind_ok_inv Hs Hr.
  cbn [j_dedupe_key new_job j_id] in H. destruct (exists_row _ _) eqn:E.
  - injection H as <- <-. apply exists_row_true in E as (k & j & Hk & Hj). exists (jobs (working t)). split.
    + eapply JobKnown; [done|by apply bool_decide_eq_true in Hj].
    + by destruct t as [? []].
  - apply bind_ok_inv in H as (u' & t1 & [Hn ->]%require_ok & H). apply bool_decide_eq_true in Hn. injection H as <- <-.
    eexists. split; [|done]. eapply JobNew; try done. intros k j Hk He.
    rewrite exists_row_false in E. specialize (E k j Hk). by rewrite bool_decide_true in E.
Qed.
Lemma RecordEvent_ok now meta intent t b t' : RecordEvent now meta intent t = (Ok b, t') ->
  exists d', event_applied now meta intent (working t) b d' /\ (t' = Txn d' d' \/ d' = working t /\ t' = t).
Proof.
  unfold RecordEvent. rewrite run_get. destruct (inbox (working t) !! EventID meta) as [r|] eqn:E.
  { case_bool_decide as Hh; [|done]. intros [= <- <-]. exists (working t). split; [by eapply EventKnown|by right]. }
  intros (u & t1 & H1 & H)%bind_ok_inv.
  assert (exists cs, cursor_moved meta (cursors (working t)) cs /\ t1 = Txn (durable t) (set_cursors (fun _ => cs) (working t)))
    as (cs & Hcs & ->).
  { unfold when in H1. destruct (0 <? AggregateSequence meta) eqn:Hp; [by apply advance_cursor_ok in H1; [|lia]|].
    injection H1 as <- <-. exists (cursors (working t)). split; [apply CursorIdle; lia|by destruct t as [? []]]. }
  apply bind_ok_inv in H as (u' & t2 & [Hu ->]%insert_inbox_ok & H). cbn [working durable] in Hu, H. rewrite run_get in H. cbn [working] in H.
  set (d1 := set_inbox _ _) in H.
  assert (exists st reason, (st = JSuppressed \/ st = JPending /\ later_superseder (in_DeliveryStreamKey intent) (in_DeliverySequence intent) (jobs d1) = false) /\
    (in_SuppressedReason intent <> ""%string -> st = JSuppressed) /\
    (let* inserted := insert_job (new_job now meta intent st reason) in
     when (in_SupersedesOlder intent) (suppress_older now (in_DeliveryStreamKey intent) (in_DeliverySequence intent)) ;;;
     commit ;;; ret inserted) (Txn (durable t) d1) = (Ok b, t')) as (st & reason & Hst & Hr & H').
  { destruct (bool_decide (in_SuppressedReason intent = "")) eqn:Es; cbn [negb] in H; [|do 2 eexists; split_and!; [| |exact H]; [by left|done]].
    apply bool_decide_eq_true in Es. destruct (later_superseder _ _ _) eqn:El; do 2 eexists; (split_and!; [| |exact H]); try (by left); try done. by right. }
  clear H. apply bind_ok_inv in H' as (ins & t3 & Hi & H). apply insert_job_ok in Hi as (js & Hj & ->); [|done|done].
  cbn [working durable] in Hj, H.
  exists (MkDB cs (<[EventID meta := inbox_of meta (in_BusinessDedupeKey intent)]> (inbox (working t)))
    (if in_SupersedesOlder intent
     then update_where (older_waiting (in_DeliveryStreamKey intent) (in_DeliverySequence intent)) (suppressed now) js else js)
    (dead_letters (working t)) (admin_requests (working t))).
  assert (ins = b /\ t' = Txn (MkDB cs (<[EventID meta := inbox_of meta (in_BusinessDedupeKey intent)]> (inbox (working t)))
    (if in_SupersedesOlder intent
     then update_where (older_waiting (in_DeliveryStreamKey intent) (in_DeliverySequence intent)) (suppressed now) js else js)
    (dead_letters (working t)) (admin_requests (working t))) (MkDB cs (<[EventID meta := inbox_of meta (in_BusinessDedupeKey intent)]> (inbox (working t)))
    (if in_SupersedesOlder intent
     then update_where (older_waiting (in_DeliveryStreamKey intent) (in_DeliverySequence intent)) (suppressed now) js else js)
    (dead_letters (working t)) (admin_requests (working t)))) as [<- ->].
  { destruct (in_SupersedesOlder intent); cbn in H; injection H as <- <-; done. }
  split; [|by left]. by apply EventNew.
Qed.

(** A job as a claim, the end of a claim and an administrator leave it. *)
Definition claimed (now lease : Z) (claimID : string) (j : job_row) : job_row :=
  set_job JProcessing (j_attempts j + 1) (j_next_attempt_at j) (Some (now + lease)) (Some claimID) (j_delivered_at j) (j_reason j) now j.
Definition finished (now : Z) (status : JobStatus) (reason : string) (delay : Z) (j : job_row) : job_row :=
  set_job status (j_attempts j) (if bool_decide (status = JRetry) then now + delay else j_next_attempt_at j) None None
    (if bool_decide (status = JDelivered) then Some now else None) (nullif_empty reason) now j.
Definition reopened (now : Z) (j : job_row) : job_row := set_job JPending 0 now None None (j_delivered_at j) None now j.

Inductive job_claimed (now lease : Z) (claimID : string) (d : db) : option Job -> db -> Prop :=
  | ClaimNone : job_claimed now lease claimID d None d
  | ClaimSome locked k j : first_by claim_before (claimable now locked d) (jobs d) = Some j -> jobs d !! k = Some j ->
      job_checks (claimed now lease claimID j) = true ->
      job_claimed now lease claimID d (Some (job_of zero_uuid (claimed now lease claimID j)))
        (set_jobs (insert (j_id j) (claimed now lease claimID j)) d).
Lemma ClaimJob_ok now lease locked claimID t r t' : ClaimJob now lease locked claimID t = (Ok r, t') ->
  exists d', job_claimed now lease claimID (working t) r d' /\ (t' = Txn d' d' \/ d' = working t /\ t' = t).
Proof.
  unfold ClaimJob. rewrite run_get. destruct (first_by _ _ _) as [j|] eqn:E; [|intros [= <- <-]; eexists; split; [constructor|by right]].
  cbv zeta. intros (u & t1 & [Hc ->]%require_ok & [= <- <-])%bind_ok_inv.
  pose proof (first_by_Some _ _ _ _ E) as [_ (k & Hk)]. eexists. split; [by eapply ClaimSome|by left].
Qed.

Definition demoted (status : JobStatus) (j : job_row) (m : gmap string job_row) : bool :=
  bool_decide (status = JRetry \/ status = JPermanentlyFailed) && later_superseder (j_stream j) (j_sequence j) m.
Definition concluded (now : Z) (status : JobStatus) (reason : string) (delay : Z) (j : job_row) (m : gmap string job_row) : job_row :=
  if demoted status j m then finished now JSuppressed superseded_reason 0 j else finished now status reason delay j.
Inductive claim_finished (now : Z) (k claimID : string) (status : JobStatus) (reason : string) (delay : Z) (d : db) : db -> Prop :=
  ClaimFinished j : jobs d !! k = Some j -> held claimID j = true -> job_checks (concluded now status reason delay j (jobs d)) = true ->
    claim_finished now k claimID status reason delay d (set_jobs (insert k (concluded now status reason delay j (jobs d))) d).
Lemma finishClaim_ok now k claimID status reason delay t x t' : finishClaim now k claimID status reason delay t = (Ok x, t') ->
  exists d', claim_finished now k claimID status reason delay (working t) d' /\ t' = Txn d' d'.
Proof.
  unfold finishClaim. rewrite run_get. destruct (jobs (working t) !! k) as [j|] eqn:E; [|done].
  destruct (held claimID j) eqn:Hh; [|done]. cbv zeta. intros H.
  enough (exists d', claim_finished now k claimID status reason delay (working t) d' /\
    Txn (set_jobs (insert k (concluded now status reason delay j (jobs (working t)))) (working t))
        (set_jobs (insert k (concluded now status reason delay j (jobs (working t)))) (working t)) = Txn d' d' /\
    t' = Txn (set_jobs (insert k (concluded now status reason delay j (jobs (working t)))) (working t))
        (set_jobs (insert k (concluded now status reason delay j (jobs (working t)))) (working t))) as (d' & H1 & H2 & ->) by eauto.
  eexists. split; [|split; [reflexivity|]].
  - constructor; [done|done|]. unfold concluded, demoted. destruct (_ && _);
      apply bind_ok_inv in H as (u & t1 & [Hc ->]%require_ok & H); exact Hc.
  - unfold concluded, demoted. destruct (_ && _); apply bind_ok_inv in H as (u & t1 & [Hc ->]%require_ok & H); by injection H as <- <-.
Qed.

Inductive retry_requested (now : Z) (k key hash : string) (d : db) : Job * bool -> db -> Prop :=
  | RetryReplayed r j : admin_requests d !! key = Some r -> ad_request_sha256 r = hash -> ad_notification_id r = k ->
      jobs d !! k = Some j -> retry_requested now k key hash d (job_of zero_uuid j, true) d
  | RetryAccepted j : admin_requests d !! key = None -> jobs d !! k = Some j ->
      (j_status j = JPermanentlyFailed \/ j_status j = JRetry) -> has_successor j d = false ->
      retry_requested now k key hash d (job_of zero_uuid (reopened now j), false)
        (set_admin_requests (insert key (MkAdmin hash k)) (set_jobs (insert k (reopened now j)) d)).
Lemma RequestRetry_ok now k key hash t r t' : RequestRetry now k key hash t = (Ok r, t') ->
  exists d', retry_requested now k key hash (working t) r d' /\ (t' = Txn d' d' \/ d' = working t /\ t' = t).
Proof.
  unfold RequestRetry. rewrite run_get. destruct (admin_requests (working t) !! key) as [a|] eqn:E.
  - intros (u & t1 & [Hc ->]%require_ok & H)%bind_ok_inv. apply bind_ok_inv in H as (job & t1 & [-> Hj]%query_ok & [= <- <-]).
    apply andb_true_iff in Hc as [H1%bool_decide_eq_true H2%bool_decide_eq_true]. unfold GetJob in Hj.
    destruct (jobs (working t) !! k) as [j|] eqn:Ej; [|done]. injection Hj as <-. eexists. split; [by eapply RetryReplayed|by right].
  - destruct (jobs (working t) !! k) as [j|] eqn:Ej; [|done]. cbn [need]. rewrite run_ret.
    intros (u & t1 & [Hs ->]%require_ok & H)%bind_ok_inv. apply bool_decide_eq_true in Hs.
    apply bind_ok_inv in H as (u' & t1 & [Hn ->]%require_ok & H). apply negb_true_iff in Hn. rewrite run_modify in H.
    apply bind_ok_inv in H as (u'' & t1 & [Hk ->]%require_ok & H). rewrite run_modify in H.
    apply bind_ok_inv in H as (job & t1 & [-> Hj]%query_ok & [= <- <-]). unfold GetJob in Hj. cbn in Hj. rewrite lookup_insert_eq in Hj.
    injection Hj as <-. eexists. split; [by eapply RetryAccepted|by left].
Qed.

Inductive dead_lettered (now : Z) (source : string * Z * Z) (hash ty reason : string) (d : db) : db -> Prop :=
  | DeadNew r : dead_letters d !! source = None -> dead_lettered now source hash ty reason d (set_dead_letters (insert source r) d)
  | DeadKnown r : dead_letters d !! source = Some r -> dead_lettered now source hash ty reason d d.
Lemma RecordDeadLetter_ok now topic p o hash ty reason t x t' : RecordDeadLetter now topic p o hash ty reason t = (Ok x, t') ->
  exists d', dead_lettered now (topic, p, o) hash ty reason (working t) d' /\ (t' = Txn d' d' \/ d' = working t /\ t' = t).
Proof.
  unfold RecordDeadLetter. rewrite run_get. destruct (dead_letters (working t) !! _) as [r|] eqn:E.
  - intros [_ ->]%require_ok. exists (working t). split; [by eapply DeadKnown|by right].
  - intros (u & t1 & [_ ->]%require_ok & [= <- <-])%bind_ok_inv. eexists. split; [by eapply DeadNew|by left].
Qed.

(** ** The invariant *)

(** Where a job stands in its stream: subscriptions and credentials number
    their events one by one, which a cursor follows; a payment has the
    confirmation first, and a refund that supersedes it second. *)
Definition sequenced_kinds : list string := ["subscription"; "access"]%string.
Definition sequenced_stream (kind id : string) : string := (kind +:+ ":" +:+ id)%string.
Definition sequenced_cursor (kind id : string) : string := (kind +:+ "-service:" +:+ kind +:+ ":" +:+ id)%string.
Definition payment_stream (id : string) : string := ("payment:" +:+ id)%string.
Definition placed (cs : gmap string cursor_row) (j : job_row) : Prop :=
  (exists kind id c, kind ∈ sequenced_kinds /\ j_stream j = sequenced_stream kind id /\
     cs !! sequenced_cursor kind id = Some c /\ j_sequence j <= k_last_sequence c) \/
  (exists id, j_stream j = payment_stream id /\ (j_sequence j = 1 \/ j_sequence j = 2 /\ j_supersedes j = true)).
(** What the consumer plans for an event. *)
Definition planned (meta : EventMeta) (intent : Intent) : Prop :=
  (exists kind, kind ∈ sequenced_kinds /\ AggregateType meta = kind /\ Producer meta = (kind +:+ "-service")%string /\
     in_DeliveryStreamKey intent = sequenced_stream kind (AggregateID meta) /\
     0 < AggregateSequence meta /\ in_DeliverySequence intent = AggregateSequence meta) \/
  (AggregateSequence meta <= 0 /\ exists id, in_DeliveryStreamKey intent = payment_stream id /\
     (in_DeliverySequence intent = 1 \/ in_DeliverySequence intent = 2 /\ in_SupersedesOlder intent = true)).

Definition worked (j : job_row) : bool := negb (bool_decide (j_status j = JPending \/ j_status j = JSuppressed)).
Definition before (a b : job_row) : Prop := j_stream a = j_stream b /\ j_sequence a < j_sequence b.

Record jobs_ok (cs : gmap string cursor_row) (m : gmap string job_row) : Prop := {
  jo_key : forall k j, m !! k = Some j -> j_id j = k;
  jo_dedupe : forall k k' j j', m !! k = Some j -> m !! k' = Some j' -> j_dedupe_key j = j_dedupe_key j' -> k = k';
  jo_checks : forall k j, m !! k = Some j -> job_checks j = true;
  jo_worked : forall k j, m !! k = Some j -> worked j = true -> 0 < j_attempts j;
  jo_placed : forall k j, m !! k = Some j -> placed cs j;
  jo_superseded : forall k k' a b, m !! k = Some a -> m !! k' = Some b -> before a b -> j_supersedes b = true -> waiting a = false;
  jo_order : forall k k' a b, m !! k = Some a -> m !! k' = Some b -> before a b -> 0 < j_attempts b -> unfinished a = false
}.
Record Inv (d : db) : Prop := {
  inv_jobs : jobs_ok (cursors d) (jobs d);
  inv_job : forall e r, inbox d !! e = Some r -> exists k j, jobs d !! k = Some j /\ j_dedupe_key j = i_dedupe_key r;
  inv_source : forall k j, jobs d !! k = Some j -> exists r, inbox d !! j_source_event_id j = Some r /\ i_dedupe_key r = j_dedupe_key j;
  inv_inbox : forall e r, inbox d !! e = Some r -> i_event_id r = e;
  inv_unique : forall e e' r r', inbox d !! e = Some r -> inbox d !! e' = Some r' ->
    (i_aggregate_type r, i_aggregate_id r, i_sequence r) = (i_aggregate_type r', i_aggregate_id r', i_sequence r') -> e = e';
  inv_cursor : forall s c, cursors d !! s = Some c -> forall n, 1 <= n <= k_last_sequence c <-> exists e r, inbox d !! e = Some r /\
    (i_producer r +:+ ":" +:+ i_aggregate_type r +:+ ":" +:+ i_aggregate_id r)%string = s /\ i_sequence r = Some n;
  inv_sequenced : forall e r n, inbox d !! e = Some r -> i_sequence r = Some n ->
    is_Some (cursors d !! (i_producer r +:+ ":" +:+ i_aggregate_type r +:+ ":" +:+ i_aggregate_id r)%string)
}.
Lemma notif_Inv_empty : Inv empty_db.
Proof. split; [split|..]; intros; simplify_map_eq. Qed.

(** Finished jobs are neither waiting nor in progress. *)
Lemma unfinished_false j : unfinished j = false <-> j_status j = JDelivered \/ j_status j = JPermanentlyFailed \/ j_status j = JSuppressed.
Proof. unfold unfinished, waiting. destruct (j_status j); naive_solver. Qed.
Lemma waiting_unfinished j : waiting j = true -> unfinished j = true.
Proof. unfold unfinished. by intros ->. Qed.

(** Deliveries only touch jobs one at a time. *)
Lemma jobs_ok_update cs m k j j' : jobs_ok cs m -> m !! k = Some j -> ident j' = ident j -> job_checks j' = true ->
  (worked j' = true -> 0 < j_attempts j') ->
  (waiting j' = true -> waiting j = true \/ later_superseder (j_stream j) (j_sequence j) m = false) ->
  (unfinished j' = true -> unfinished j = true \/ forall k' b, m !! k' = Some b -> ~ before j b) ->
  (0 < j_attempts j' -> 0 < j_attempts j \/ forall k' a, m !! k' = Some a -> before a j -> unfinished a = false) ->
  jobs_ok cs (<[k := j']> m).
Proof.
  intros [K D C W P S O] Hk Hi Hc Hw Hwait Hunf Hatt. destruct (ident_fields _ _ Hi) as (E1 & E2 & E3 & E4 & E5 & _).
  assert (forall a, before a j' <-> before a j) as Hb by (intros a; unfold before; by rewrite E3, E4).
  assert (forall b, before j' b <-> before j b) as Hb' by (intros b; unfold before; by rewrite E3, E4).
  split.
  - intros k1 a [[<- <-]|[Hn H]]%lookup_insert_Some; [rewrite E1; eauto|eauto].
  - assert (forall k1 a, <[k := j']> m !! k1 = Some a -> exists a0, m !! k1 = Some a0 /\ j_dedupe_key a0 = j_dedupe_key a) as Hd.
    { intros k1 a [[<- <-]|[Hn H]]%lookup_insert_Some; eauto. }
    intros k1 k2 a b (a0 & H1 & F1)%Hd (b0 & H2 & F2)%Hd Hab. apply (D _ _ _ _ H1 H2). congruence.
  - intros k1 a [[<- <-]|[Hn H]]%lookup_insert_Some; eauto.
  - intros k1 a [[<- <-]|[Hn H]]%lookup_insert_Some; eauto.
  - intros k1 a [[<- <-]|[Hn H]]%lookup_insert_Some; [|eauto]. specialize (P _ _ Hk). unfold placed in *. by rewrite E3, E4, E5.
  - intros k1 k2 a b [[<- <-]|[Hn H]]%lookup_insert_Some [[<- <-]|[Hn' H']]%lookup_insert_Some Hab Hs.
    + unfold before in Hab. lia.
    + apply Hb' in Hab. destruct (waiting j') eqn:Ew; [|done]. exfalso. destruct (Hwait eq_refl) as [Hj|Hn].
      * by rewrite (S _ _ _ _ Hk H' Hab Hs) in Hj.
      * unfold later_superseder in Hn. rewrite exists_row_false in Hn. specialize (Hn _ _ H'). destruct Hab as [F1 F2].
        rewrite Hs, bool_decide_true, (proj2 (Z.ltb_lt _ _) F2) in Hn; done.
    + rewrite E5 in Hs. apply Hb in Hab. by eapply (S _ k).
    + by eapply (S k1 k2).
  - intros k1 k2 a b [[<- <-]|[Hn H]]%lookup_insert_Some [[<- <-]|[Hn' H']]%lookup_insert_Some Hab Hs.
    + unfold before in Hab. lia.
    + apply Hb' in Hab. destruct (unfinished j') eqn:Ew; [|done]. exfalso. destruct (Hunf eq_refl) as [Hj|Hn]; [|by eapply Hn].
      by rewrite (O _ _ _ _ Hk H' Hab Hs) in Hj.
    + apply Hb in Hab. destruct (Hatt Hs) as [Hj|Hp]; [by eapply (O _ k)|by eapply Hp].
    + by eapply (O k1 k2).
Qed.
(** The cursors only move forward. *)
Lemma placed_mono cs cs' j : (forall s c, cs !! s = Some c -> exists c', cs' !! s = Some c' /\ k_last_sequence c <= k_last_sequence c') ->
  placed cs j -> placed cs' j.
Proof.
  intros H [(kind & id & c & H1 & H2 & H3 & H4)|Hp]; [|by right]. destruct (H _ _ H3) as (c' & H5 & H6). left.
  exists kind, id, c'. split_and!; [done..|lia].
Qed.
Lemma cursor_moved_mono meta m m' : cursor_moved meta m m' ->
  forall s c, m !! s = Some c -> exists c', m' !! s = Some c' /\ k_last_sequence c <= k_last_sequence c'.
Proof.
  intros H s c Hs. destruct H as [H|H Hn|c0 H Hc He].
  - eexists. split; [done|lia].
  - eexists. rewrite lookup_insert_ne by congruence. split; [done|lia].
  - destruct (decide (stream_key meta = s)) as [<-|Hne].
    + rewrite lookup_insert_eq. eexists. split; [done|]. assert (c0 = c) as -> by congruence. simpl. lia.
    + rewrite lookup_insert_ne by done. eexists. split; [done|lia].
Qed.

(** *** An event *)

Lemma sequenced_stream_inj kind kind' id id' : kind ∈ sequenced_kinds -> kind' ∈ sequenced_kinds ->
  sequenced_stream kind id = sequenced_stream kind' id' -> kind = kind' /\ id = id'.
Proof.
  unfold sequenced_kinds. rewrite !elem_of_cons, !elem_of_nil. intros [->|[->|[]]] [->|[->|[]]] H; try done; split; try done; by injection H.
Qed.
Lemma sequenced_not_payment kind id id' : kind ∈ sequenced_kinds -> sequenced_stream kind id <> payment_stream id'.
Proof. unfold sequenced_kinds. rewrite !elem_of_cons, !elem_of_nil. by intros [->|[->|[]]]. Qed.
Lemma sequenced_key meta kind : kind ∈ sequenced_kinds -> AggregateType meta = kind -> Producer meta = (kind +:+ "-service")%string ->
  stream_key meta = sequenced_cursor kind (AggregateID meta).
Proof. unfold sequenced_kinds, stream_key. rewrite !elem_of_cons, !elem_of_nil. intros [->|[->|[]]] -> ->; done. Qed.

Section event.
Context (now : Z) (meta : EventMeta) (intent : Intent) (cs cs' : gmap string cursor_row) (m : gmap string job_row).
Context (HI : jobs_ok cs m) (Hp : planned meta intent) (Hcs : cursor_moved meta cs cs').

Lemma new_placed st reason : placed cs' (new_job now meta intent st reason).
Proof.
  destruct Hp as [(kind & Hk & E1 & E2 & E3 & E4 & E5)|(_ & id & E1 & E2)]; [left|right; by exists id].
  exists kind, (AggregateID meta), (cursor_of meta). simpl. rewrite <- (sequenced_key meta kind) by done.
  split_and!; [done|done| |lia]. destruct Hcs; [lia|apply lookup_insert_eq..].
Qed.
(** Nothing that a new job has to wait for was sent already. *)
Lemma no_late_job st reason k b : m !! k = Some b -> before (new_job now meta intent st reason) b ->
  later_superseder (in_DeliveryStreamKey intent) (in_DeliverySequence intent) m = true.
Proof.
  intros Hb [E1 E2]. cbn [new_job j_stream j_sequence] in E1, E2.
  destruct Hp as [(kind & Hk & F1 & F2 & F3 & F4 & F5)|(_ & id & F1 & F2)]; destruct (jo_placed _ _ HI _ _ Hb) as [(kind' & id' & c & G1 & G2 & G3 & G4)|(id' & G1 & G2)].
  - exfalso. rewrite F3, G2 in E1. apply sequenced_stream_inj in E1 as [<- <-]; [|done..].
    rewrite <- (sequenced_key meta kind) in G3 by done. destruct Hcs as [?|? ?|c0 ? Hc ?]; [lia|congruence|].
    assert (c0 = c) as -> by congruence. lia.
  - exfalso. rewrite F3, G1 in E1. by eapply sequenced_not_payment.
  - exfalso. rewrite F1, G2 in E1. by eapply sequenced_not_payment.
  - apply exists_row_true. exists k, b. split; [done|]. rewrite bool_decide_true by done. destruct G2 as [G2|[G2 G3]]; [lia|].
    rewrite G3, andb_true_r. simpl. lia.
Qed.
Let older := older_waiting (in_DeliveryStreamKey intent) (in_DeliverySequence intent).
Definition job_new (k : string) (j : job_row) : Prop := k = in_NotificationID intent /\ m !! k = None /\
  exists st reason, j = new_job now meta intent st reason /\
    (st = JSuppressed \/ st = JPending /\ later_superseder (in_DeliveryStreamKey intent) (in_DeliverySequence intent) m = false) /\
    job_checks j = true /\ forall k' q, m !! k' = Some q -> j_dedupe_key q <> j_dedupe_key j.
(** Where the rows come from once the event is in. *)
Record job_left (k : string) (j' : job_row) : Prop := {
  jl_from : job_row;
  jl_known : m !! k = Some jl_from \/ job_new k jl_from;
  jl_ident : ident j' = ident jl_from;
  jl_attempts : j_attempts j' = j_attempts jl_from;
  jl_waiting : waiting j' = true -> waiting jl_from = true /\ (in_SupersedesOlder intent = true -> older jl_from = false);
  jl_unfinished : unfinished j' = true -> unfinished jl_from = true;
  jl_worked : worked j' = true -> worked jl_from = true;
  jl_checks : job_checks jl_from = true -> job_checks j' = true
}.
Lemma suppressed_checks j : waiting j = true -> job_checks j = true -> job_checks (suppressed now j) = true.
Proof.
  intros Hw Hc. assert (j_delivered_at j = None) as Hdel.
  { unfold job_checks in Hc. rewrite !andb_true_iff in Hc. destruct Hc as [[[[[[_ Hdl] _] _] _] _] _].
    apply Bool.eqb_prop in Hdl. rewrite bool_decide_false in Hdl by (intros E; unfold waiting in Hw; rewrite E in Hw; done).
    symmetry in Hdl. apply bool_decide_eq_false in Hdl. by destruct (j_delivered_at j); [destruct Hdl|]. }
  revert Hc. unfold job_checks, suppressed. cbn [set_job j_id j_user_id j_subscription_id j_credential_id j_dedupe_key j_attempts
    j_max_attempts j_reason j_correlation_id j_causation_id j_type j_template_version j_status j_lease_until j_claim_id j_delivered_at
    j_source_producer j_source_aggregate_type j_source_sequence j_stream j_sequence]. rewrite Hdel, !andb_true_iff. cbn. tauto.
Qed.
Lemma job_added_from b js k j' : job_added now meta intent m b js ->
  (if in_SupersedesOlder intent then update_where older (suppressed now) js else js) !! k = Some j' -> job_left k j'.
Proof.
  intros Ha Hk.
  assert (exists j, js !! k = Some j /\ (j' = j \/ older j = true /\ j' = suppressed now j) /\
    (in_SupersedesOlder intent = true -> older j = true -> j' = suppressed now j)) as (j & Hj & Hor & Hsup).
  { destruct (in_SupersedesOlder intent); [|by exists j'; split_and!; [|left|]].
    rewrite lookup_update_where in Hk. destruct (js !! k) as [j|]; [|done]. injection Hk as <-. exists j. split; [done|].
    destruct (older j); split; try done; [by right|by left]. }
  assert (m !! k = Some j \/ job_new k j) as Hm.
  { destruct Ha as [|st reason Hd Hn Hs _ Hc]; [by left|]. apply lookup_insert_Some in Hj as [[<- <-]|[_ H]]; [right|by left].
    split_and!; [done|done|]. exists st, reason. split_and!; [done|done|done|]. intros k' q Hk'. by apply (Hd k'). }
  exists j; [done|by destruct Hor as [->|[_ ->]]..|idtac| | |]; destruct Hor as [->|[HP ->]]; try done.
  - intros Hw. split; [done|]. intros Hs. destruct (older j) eqn:E; [|done]. by rewrite (Hsup Hs eq_refl) in Hw.
  - apply suppressed_checks. by apply andb_true_iff in HP as [_ ?].
Qed.
Lemma job_added_ok b js : job_added now meta intent m b js ->
  jobs_ok cs' (if in_SupersedesOlder intent then update_where older (suppressed now) js else js).
Proof.
  intros Ha. assert (Hall := fun k j' => job_added_from b js k j' Ha).
  destruct HI as [K D C W Pl S O]. split.
  - intros k j' [j Hj Hi]%Hall. destruct (ident_fields _ _ Hi) as (-> & _).
    destruct Hj as [Hj|(-> & _ & st & reason & -> & _)]; [eauto|done].
  - intros k k' a b' [a0 Ha0 Hia]%Hall [b0 Hb0 Hib]%Hall.
    destruct (ident_fields _ _ Hia) as (_ & -> & _). destruct (ident_fields _ _ Hib) as (_ & -> & _).
    destruct Ha0 as [Ha0|(-> & _ & st & reason & -> & _ & _ & Hd)], Hb0 as [Hb0|(-> & _ & st' & reason' & -> & _ & _ & Hd')].
    + eauto.
    + intros E. by destruct (Hd' _ _ Ha0).
    + intros E. by destruct (Hd _ _ Hb0).
    + done.
  - intros k j' [j Hj _ _ _ _ _ Hc]%Hall. apply Hc. destruct Hj as [Hj|(-> & _ & st & reason & -> & _ & Hc' & _)]; eauto.
  - intros k j' [j Hj _ -> _ _ Hw _]%Hall Hw'. apply Hw in Hw'.
    destruct Hj as [Hj|(-> & _ & st & reason & -> & [->|[-> _]] & _)]; [eauto|done|done].
  - intros k j' [j Hj Hi]%Hall. destruct (ident_fields _ _ Hi) as (_ & _ & E1 & E2 & E3 & _). unfold placed. rewrite E1, E2, E3.
    destruct Hj as [Hj|(-> & _ & st & reason & -> & _)]; [|apply (new_placed st reason)].
    apply (placed_mono cs); [by eapply cursor_moved_mono|eauto].
  - intros k k' a' b' [a Ha' Hia _ Hwa]%Hall [b0 Hb' Hib]%Hall Hab Hs.
    destruct (ident_fields _ _ Hia) as (_ & _ & E1 & E2 & _). destruct (ident_fields _ _ Hib) as (_ & _ & F1 & F2 & F3 & _).
    unfold before in Hab. rewrite E1, E2, F1, F2 in Hab. rewrite F3 in Hs.
    destruct (waiting a') eqn:Ew; [|done]. exfalso. destruct (Hwa eq_refl) as [Hw HP].
    destruct Hb' as [Hb'|(_ & _ & st' & reason' & -> & _)].
    + destruct Ha' as [Ha'|(_ & _ & st & reason & -> & [->|[-> Hl]] & _)]; [|done|].
      * by rewrite (S _ _ _ _ Ha' Hb' Hab Hs) in Hw.
      * destruct Hab as [G1 G2]. unfold later_superseder in Hl. rewrite exists_row_false in Hl. specialize (Hl _ _ Hb').
        cbn [new_job j_stream j_sequence] in G1, G2. rewrite Hs, bool_decide_true, (proj2 (Z.ltb_lt _ _) G2) in Hl; done.
    + destruct Hab as [G1 G2]. cbn [new_job j_stream j_sequence j_supersedes] in G1, G2, Hs. specialize (HP Hs).
      unfold older, older_waiting in HP. rewrite Hw, bool_decide_true, (proj2 (Z.ltb_lt _ _) G2) in HP; done.
  - intros k k' a' b' [a Ha' Hia _ _ Hua]%Hall [b0 Hb' Hib Eb]%Hall Hab Hs.
    destruct (ident_fields _ _ Hia) as (_ & _ & E1 & E2 & _). destruct (ident_fields _ _ Hib) as (_ & _ & F1 & F2 & _).
    unfold before in Hab. rewrite E1, E2, F1, F2 in Hab. rewrite Eb in Hs.
    destruct (unfinished a') eqn:Ew; [|done]. exfalso. specialize (Hua eq_refl).
    destruct Hb' as [Hb'|(_ & _ & st' & reason' & -> & _)]; [|cbn in Hs; lia].
    destruct Ha' as [Ha'|(_ & _ & st & reason & -> & Hst & _)]; [by rewrite (O _ _ _ _ Ha' Hb' Hab Hs) in Hua|].
    pose proof (no_late_job st reason _ _ Hb' Hab) as Hl. destruct Hst as [->|[-> Hl']]; [done|congruence].
Qed.
End event.

(** ** What becomes of a job *)

(** One operation as a single job sees it. Delivered and suppressed jobs
    never change again. *)
Inductive job_step (j : job_row) : job_row -> Prop :=
  | JobSame : job_step j j
  | JobClaimed now lease claimID : unfinished j = true -> job_step j (claimed now lease claimID j)
  | JobFinished now status reason delay : j_status j = JProcessing -> status <> JPending -> status <> JProcessing ->
      job_step j (finished now status reason delay j)
  | JobSuppressed now : waiting j = true -> job_step j (suppressed now j)
  | JobReopened now : j_status j = JPermanentlyFailed \/ j_status j = JRetry -> job_step j (reopened now j).
Lemma job_step_ident j j' : job_step j j' -> ident j' = ident j.
Proof. by intros [| | | |]. Qed.
Lemma job_step_final j j' : job_step j j' -> j_status j = JDelivered \/ j_status j = JSuppressed -> j' = j.
Proof.
  intros H Hs. destruct H as [|now l c H|now st r dl H|now H|now H]; [done|exfalso..];
    unfold unfinished, waiting in *; destruct Hs as [E|E]; rewrite E in H; naive_solver.
Qed.

Record keeps (d d' : db) : Prop := {
  kp_inbox : inbox d ⊆ inbox d';
  kp_dead : dom (dead_letters d) ⊆ dom (dead_letters d');
  kp_admin : admin_requests d ⊆ admin_requests d';
  kp_jobs : forall k j, jobs d !! k = Some j -> exists j', jobs d' !! k = Some j' /\ rtc job_step j j'
}.
Lemma notif_keeps_refl d : keeps d d.
Proof. split; [done..|]. intros k j Hk. exists j. split; [done|apply rtc_refl]. Qed.
Lemma notif_keeps_trans d1 d2 d3 : keeps d1 d2 -> keeps d2 d3 -> keeps d1 d3.
Proof.
  intros [I1 D1 A1 J1] [I2 D2 A2 J2]. split; [by etrans..|]. intros k j (j1 & H1 & S1)%J1. apply J2 in H1 as (j2 & H2 & S2).
  exists j2. split; [done|by etrans].
Qed.
Lemma rtc_job_ident j j' : rtc job_step j j' -> ident j' = ident j.
Proof. induction 1 as [|j j1 j' H1 _ IH]; [done|]. rewrite IH. by apply job_step_ident. Qed.
Lemma rtc_job_final j j' : rtc job_step j j' -> j_status j = JDelivered \/ j_status j = JSuppressed -> j' = j.
Proof. induction 1 as [|j j1 j' H1 _ IH]; [done|]. intros Hs. pose proof (job_step_final _ _ H1 Hs) as ->. auto. Qed.

(** *** Preservation *)

(** A job changes in place, everything else stays. *)
Lemma Inv_job d k j j' : Inv d -> jobs d !! k = Some j -> ident j' = ident j -> jobs_ok (cursors d) (<[k := j']> (jobs d)) ->
  Inv (set_jobs (insert k j') d).
Proof.
  intros [J I S N U C Q] Hk Hi HJ. destruct (ident_fields _ _ Hi) as (_ & E1 & _ & _ & _ & E2 & _). split; simpl; try done.
  - intros e r Hr. destruct (I e r Hr) as (k0 & j0 & H0 & H1). destruct (decide (k0 = k)) as [->|Hne].
    + exists k, j'. rewrite lookup_insert_eq. split; [done|]. congruence.
    + exists k0, j0. by rewrite lookup_insert_ne.
  - intros k0 j0 [[<- <-]|[Hne H]]%lookup_insert_Some; [|eauto]. rewrite E1, E2. eauto.
Qed.
Lemma keeps_job d k j j' : jobs d !! k = Some j -> job_step j j' -> keeps d (set_jobs (insert k j') d).
Proof.
  intros Hk Hs. split; [done..|]. simpl. intros k0 j0 H0. destruct (decide (k0 = k)) as [->|Hne].
  - exists j'. rewrite lookup_insert_eq. split; [done|]. assert (j0 = j) as -> by congruence. by apply rtc_once.
  - exists j0. rewrite lookup_insert_ne by done. split; [done|apply rtc_refl].
Qed.

Lemma claimable_facts now locked d j : claimable now locked d j = true ->
  unfinished j = true /\ forall k a, jobs d !! k = Some a -> before a j -> unfinished a = false.
Proof.
  unfold claimable. rewrite !andb_true_iff, negb_true_iff. intros [[Hd Hb] _]. split.
  - unfold due, unfinished in *. apply orb_true_iff. apply orb_true_iff in Hd as [Hd|Hd]; apply andb_true_iff in Hd as [Hd _]; auto.
  - intros k a Ha [E1 E2]. unfold blocked in Hb. rewrite exists_row_false in Hb. specialize (Hb k a Ha).
    rewrite bool_decide_true, (proj2 (Z.ltb_lt _ _) E2) in Hb by done. exact Hb.
Qed.
Lemma claim_good now lease claimID d r d' : Inv d -> job_claimed now lease claimID d r d' -> Inv d' /\ keeps d d'.
Proof.
  intros HI [|locked k j Hf Hk Hc]; [split; [done|apply notif_keeps_refl]|].
  pose proof (inv_jobs _ HI) as HJ. pose proof (jo_key _ _ HJ _ _ Hk) as ->. apply first_by_Some in Hf as [Hcl _].
  apply claimable_facts in Hcl as [Hu Hb]. split; [|eapply keeps_job; [done|by constructor]].
  eapply Inv_job; [done|done|done|]. eapply jobs_ok_update; try done.
  - intros _. simpl. pose proof (jo_checks _ _ HJ _ _ Hk) as Hc0. unfold job_checks in Hc0. rewrite !andb_true_iff in Hc0. lia.
  - intros _. by left.
  - intros _. by right.
Qed.
Lemma finish_good now k claimID status reason delay d d' : Inv d -> status <> JPending -> status <> JProcessing ->
  claim_finished now k claimID status reason delay d d' -> Inv d' /\ keeps d d'.
Proof.
  intros HI Hs1 Hs2 [j Hk Hh Hc]. pose proof (inv_jobs _ HI) as HJ. apply andb_true_iff in Hh as [Hp _]. apply bool_decide_eq_true in Hp.
  assert (job_step j (concluded now status reason delay j (jobs d))) as Hst by (unfold concluded; destruct (demoted _ _ _); by apply JobFinished).
  split; [|by eapply keeps_job]. eapply Inv_job; [done|done|by apply job_step_ident|].
  assert (0 < j_attempts j) as Hatt by (apply (jo_worked _ _ HJ _ _ Hk); unfold worked; by rewrite Hp).
  eapply jobs_ok_update; try done; [by apply job_step_ident|..].
  - intros _. unfold concluded. by destruct (demoted _ _ _).
  - intros Hw. right. unfold concluded, demoted in Hw. destruct (later_superseder _ _ _); [|done]. rewrite andb_true_r in Hw.
    case_bool_decide as E; [done|]. unfold waiting in Hw. apply bool_decide_eq_true in Hw. cbn in Hw. naive_solver.
  - intros _. left. unfold unfinished. rewrite Hp. apply orb_true_r.
  - intros _. by left.
Qed.
Lemma reopened_checks now j : j_status j = JPermanentlyFailed \/ j_status j = JRetry -> job_checks j = true -> job_checks (reopened now j) = true.
Proof.
  intros Hs. unfold job_checks. cbn [reopened set_job j_id j_user_id j_subscription_id j_credential_id j_dedupe_key j_attempts
    j_max_attempts j_reason j_correlation_id j_causation_id j_type j_template_version j_status j_lease_until j_claim_id j_delivered_at
    j_source_producer j_source_aggregate_type j_source_sequence j_stream j_sequence]. rewrite !andb_true_iff.
  replace (bool_decide (j_status j = JDelivered)) with false by (symmetry; apply bool_decide_eq_false; destruct Hs as [-> | ->]; done).
  cbn. tauto.
Qed.
Lemma retry_good now k key hash d r d' : Inv d -> retry_requested now k key hash d r d' -> Inv d' /\ keeps d d'.
Proof.
  intros HI [r0 j H1 H2 H3 H4|j Hn Hk Hs Hsucc]; [split; [done|apply notif_keeps_refl]|].
  pose proof (inv_jobs _ HI) as HJ. assert (Inv (set_jobs (insert k (reopened now j)) d)) as HI'.
  { eapply Inv_job; [done|done|done|]. eapply jobs_ok_update; try done.
    - apply reopened_checks; [done|]. by eapply jo_checks.
    - intros _. right. unfold has_successor, later_superseder in *. rewrite exists_row_false in *. intros k' b Hb. specialize (Hsucc k' b Hb).
      cbn in Hsucc. by rewrite Hsucc.
    - intros _. right. intros k' b Hb [E1 E2]. unfold has_successor in Hsucc. rewrite exists_row_false in Hsucc. specialize (Hsucc k' b Hb).
      rewrite bool_decide_true, (proj2 (Z.ltb_lt _ _) E2) in Hsucc; done. }
  split.
  - destruct HI' as [J I S N U C Q]. by split.
  - destruct (keeps_job d k j (reopened now j) Hk (JobReopened _ _ Hs)) as [KI KD KA KJ]. split; [done|done| |done]. simpl.
    by apply insert_subseteq.
Qed.
Lemma dead_good now source hash ty reason d d' : Inv d -> dead_lettered now source hash ty reason d d' -> Inv d' /\ keeps d d' /\ source ∈ dom (dead_letters d').
Proof.
  intros HI [r Hn|r Hs]; [|split_and!; [done|apply notif_keeps_refl|by apply elem_of_dom]]. destruct HI as [J I S N U C Q]. split_and!; [by split| |].
  - split; [done|simpl; set_solver|done|]. intros k j Hk. exists j. split; [done|apply rtc_refl].
  - simpl. set_solver.
Qed.

Section event_good.
Context (now : Z) (meta : EventMeta) (intent : Intent) (d : db) (HI : Inv d) (Hp : planned meta intent).
Context (Hfresh : inbox d !! EventID meta = None) (Hunique : inbox_unique (inbox_of meta (in_BusinessDedupeKey intent)) d = true).

Lemma fresh_sequence e r : inbox d !! e = Some r ->
  (i_aggregate_type r, i_aggregate_id r, i_sequence r) <> (AggregateType meta, AggregateID meta, event_sequence meta).
Proof.
  intros Hr E. unfold inbox_unique in Hunique. apply negb_true_iff in Hunique. rewrite exists_row_false in Hunique.
  specialize (Hunique e r Hr). apply orb_false_iff in Hunique as [_ Hu]. by apply bool_decide_eq_false in Hu.
Qed.
(** The cursor counts the events of its aggregate. *)
Lemma moved_cursor cs' s c n : cursor_moved meta (cursors d) cs' -> cs' !! s = Some c ->
  1 <= n <= k_last_sequence c <->
  (exists c0, cursors d !! s = Some c0 /\ 1 <= n <= k_last_sequence c0) \/ stream_key meta = s /\ event_sequence meta = Some n.
Proof.
  unfold event_sequence. intros [Hz|H1 Hn|c0 Hpos Hc Hnext] Hs.
  - destruct (Z.ltb_spec 0 (AggregateSequence meta)); [lia|]. naive_solver.
  - rewrite H1. cbn. apply lookup_insert_Some in Hs as [[<- <-]|[Hne Hs]]; cbn; [|naive_solver]. rewrite Hn. split.
    + intros Hr. right. split; [done|]. f_equal. lia.
    + intros [(c0 & ? & _)|[_ [= <-]]]; [done|lia].
  - destruct (Z.ltb_spec 0 (AggregateSequence meta)); [|lia].
    apply lookup_insert_Some in Hs as [[<- <-]|[Hne Hs]]; cbn; [|naive_solver]. split.
    + intros Hr. destruct (decide (n = AggregateSequence meta)) as [->|]; [by right|]. left. exists c0. split; [done|lia].
    + intros [(c1 & H2 & H3)|[_ [= <-]]]; [|lia]. assert (c1 = c0) as -> by congruence. lia.
Qed.
Lemma event_good cs' inserted js : cursor_moved meta (cursors d) cs' -> job_added now meta intent (jobs d) inserted js ->
  let js' := if in_SupersedesOlder intent
             then update_where (older_waiting (in_DeliveryStreamKey intent) (in_DeliverySequence intent)) (suppressed now) js else js in
  let d' := MkDB cs' (<[EventID meta := inbox_of meta (in_BusinessDedupeKey intent)]> (inbox d)) js' (dead_letters d) (admin_requests d) in
  Inv d' /\ keeps d d'.
Proof.
  intros Hcs Ha js' d'. pose proof (job_added_ok now meta intent _ _ _ (inv_jobs _ HI) Hp Hcs _ _ Ha) as HJ. fold js' in HJ.
  assert (forall k j', js' !! k = Some j' -> job_left now meta intent (jobs d) k j') as Hfrom by (intros k j'; by eapply job_added_from).
  assert (forall k j, js !! k = Some j -> exists j', js' !! k = Some j' /\ ident j' = ident j /\ job_step j j') as Hjs'.
  { intros k j Hk. unfold js'. destruct (in_SupersedesOlder intent); [|exists j; split_and!; [done|done|constructor]].
    rewrite lookup_update_where, Hk. eexists. split; [done|]. destruct (older_waiting _ _ j) eqn:Eo; [|split; [done|constructor]].
    split; [done|]. apply JobSuppressed. by apply andb_true_iff in Eo as [_ ?]. }
  assert (forall k j, jobs d !! k = Some j -> js !! k = Some j) as Hjs.
  { intros k j Hk. destruct Ha as [|st reason Hd Hn _ _ _]; [done|]. rewrite lookup_insert_ne; [done|congruence]. }
  assert (exists k j, js !! k = Some j /\ j_dedupe_key j = in_BusinessDedupeKey intent) as (k1 & j1 & Hk1 & Hd1).
  { destruct Ha as [k j Hk Hd|st reason Hd Hn _ _ _]; [by exists k, j|]. eexists _, _. by rewrite lookup_insert_eq. }
  destruct HI as [J I S N U C Q]. split; [split; simpl|split; simpl; try done].
  - exact HJ.
  - intros e r [[<- <-]|[Hne Hr]]%lookup_insert_Some.
    + destruct (Hjs' _ _ Hk1) as (j' & Hj' & Hi & _). exists k1, j'. split; [done|]. destruct (ident_fields _ _ Hi) as (_ & -> & _). done.
    + destruct (I e r Hr) as (k & j & Hk & Hd). destruct (Hjs' _ _ (Hjs _ _ Hk)) as (j' & Hj' & Hi & _). exists k, j'. split; [done|].
      destruct (ident_fields _ _ Hi) as (_ & -> & _). done.
  - intros k j' [j Hj Hi]%Hfrom. destruct (ident_fields _ _ Hi) as (_ & -> & _ & _ & _ & -> & _).
    destruct Hj as [Hj|(-> & _ & st & reason & -> & _)].
    + destruct (S k j Hj) as (r & Hr & Hd). exists r. rewrite lookup_insert_ne by congruence. done.
    + eexists. rewrite lookup_insert_eq. done.
  - intros e r [[<- <-]|[Hne Hr]]%lookup_insert_Some; [done|eauto].
  - intros e e' r r' [[<- <-]|[Hne Hr]]%lookup_insert_Some [[<- <-]|[Hne' Hr']]%lookup_insert_Some E; [done| | |eauto].
    + by destruct (fresh_sequence _ _ Hr').
    + by destruct (fresh_sequence _ _ Hr).
  - intros s c Hs n. rewrite (moved_cursor _ _ _ _ Hcs Hs). split.
    + intros [(c0 & Hc0 & Hn)|[<- Hn]].
      * apply (C _ _ Hc0) in Hn as (e & r & Hr & Hn). exists e, r. rewrite lookup_insert_ne by congruence. done.
      * eexists _, _. by rewrite lookup_insert_eq.
    + intros (e & r & [[<- <-]|[Hne Hr]]%lookup_insert_Some & Hk & Hn); [by right|left].
      destruct (Q e r n Hr Hn) as [c0 Hc0]. rewrite Hk in Hc0. exists c0. split; [done|]. apply (C _ _ Hc0). eauto.
  - intros e r n [[<- <-]|[Hne Hr]]%lookup_insert_Some Hn.
    + cbn in Hn. unfold event_sequence in Hn. destruct (Z.ltb_spec 0 (AggregateSequence meta)); [|done].
      destruct Hcs; [lia|rewrite lookup_insert_eq; by eexists..].
    + destruct (Q e r n Hr Hn) as [c0 Hc0]. destruct (cursor_moved_mono _ _ _ Hcs _ _ Hc0) as (c' & Hc' & _). by exists c'.
  - by apply insert_subseteq.
  - intros k j Hk. destruct (Hjs' _ _ (Hjs _ _ Hk)) as (j' & Hj' & _ & Hst). exists j'. split; [done|by apply rtc_once].
Qed.
End event_good.
Lemma event_applied_good now meta intent d b d' : Inv d -> planned meta intent -> event_applied now meta intent d b d' -> Inv d' /\ keeps d d'.
Proof. intros HI Hp [r|inserted cs js Hn Hu Hc Ha]; [split; [done|apply notif_keeps_refl]|]. by eapply event_good. Qed.
