(* ===== verification/NotificationSpec.v ===== *)
(** * notification-service: what the store guarantees

    The operations of the store as one transition function, the databases the
    service can reach, and the properties of those databases. *)

From Stdlib Require Import Ascii List.
From S2P Require Import Prelude GoStrings NotificationDomain NotificationStore NotificationInv.

Inductive op :=
  | OpEvent (now : Z) (meta : EventMeta) (intent : Intent)
  | OpDeadLetter (now : Z) (topic : string) (partition offset : Z) (hash eventType reason : string)
  | OpClaim (now lease : Z) (locked : gset string) (claimID : string)
  | OpComplete (now : Z) (k claimID : string)
  | OpRetryLater (now : Z) (k claimID : string) (delay : Z)
  | OpFail (now : Z) (k claimID reason : string)
  | OpSuppress (now : Z) (k claimID reason : string)
  | OpRequestRetry (now : Z) (k key hash : string).
Definition outcome {A} (m : notif_tx A) (d : db) : option NotifErr * db :=
  match in_tx m d with (Ok _, d') => (None, d') | (Err e, d') => (Some e, d') end.
Definition exec (o : op) : db -> option NotifErr * db :=
  match o with
  | OpEvent now meta intent => outcome (RecordEvent now meta intent)
  | OpDeadLetter now t p f h ty r => outcome (RecordDeadLetter now t p f h ty r)
  | OpClaim now l k c => outcome (ClaimJob now l k c)
  | OpComplete now k c => outcome (CompleteJob now k c)
  | OpRetryLater now k c dl => outcome (RetryJob now k c dl)
  | OpFail now k c r => outcome (FailJob now k c r)
  | OpSuppress now k c r => outcome (SuppressJob now k c r)
  | OpRequestRetry now k key h => outcome (RequestRetry now k key h)
  end.
(** Events come from the consumer, which plans their place in a stream. *)
Definition allowed (o : op) : Prop := match o with OpEvent _ meta intent => planned meta intent | _ => True end.
Inductive reaches (d : db) : db -> Prop :=
  | reaches_here : reaches d d
  | reaches_step d' o : reaches d d' -> allowed o -> reaches d (snd (exec o d')).
Definition reachable : db -> Prop := reaches empty_db.

(** Operations that neither hand out a job nor mark one delivered, and what
    they lead to. *)
Definition plain_op (o : op) : Prop := match o with OpClaim _ _ _ _ | OpComplete _ _ _ => False | _ => allowed o end.
Definition advances : db -> db -> Prop := rtc (fun d d' => exists o, plain_op o /\ d' = snd (exec o d)).

(** ** Every operation keeps the invariant *)

Lemma atomic_RecordEvent now meta intent : atomic (RecordEvent now meta intent).
Proof. unfold RecordEvent, advance_cursor, insert_inbox, insert_job, suppress_older. tx_auto; apply quiet_when; tx_auto. Qed.
Lemma atomic_RecordDeadLetter now t p f h ty r : atomic (RecordDeadLetter now t p f h ty r).
Proof. unfold RecordDeadLetter. tx_auto; apply atomic_quiet, quiet_require. Qed.
Lemma atomic_ClaimJob now l k c : atomic (ClaimJob now l k c).
Proof. unfold ClaimJob. tx_auto. Qed.
Lemma atomic_finishClaim now k c st r dl : atomic (finishClaim now k c st r dl).
Proof. unfold finishClaim. tx_auto. Qed.
Lemma atomic_RequestRetry now k key h : atomic (RequestRetry now k key h).
Proof. unfold RequestRetry. tx_auto. Qed.

(** What one operation does: nothing, or one of the effects. *)
Inductive effect (d : db) : op -> db -> Prop :=
  | EffNone o : effect d o d
  | EffEvent now meta intent b d' : event_applied now meta intent d b d' -> effect d (OpEvent now meta intent) d'
  | EffDead now t p f h ty r d' : dead_lettered now (t, p, f) h ty r d d' -> effect d (OpDeadLetter now t p f h ty r) d'
  | EffClaim now l k c r d' : job_claimed now l c d r d' -> effect d (OpClaim now l k c) d'
  | EffFinish o now k c st r dl d' : st <> JPending -> st <> JProcessing -> claim_finished now k c st r dl d d' ->
      match o with
      | OpComplete now' k' c' => now' = now /\ k' = k /\ c' = c /\ st = JDelivered
      | OpRetryLater _ k' c' _ => k' = k /\ c' = c /\ st = JRetry
      | OpFail _ k' c' _ => k' = k /\ c' = c /\ st = JPermanentlyFailed
      | OpSuppress _ k' c' _ => k' = k /\ c' = c /\ st = JSuppressed
      | _ => False
      end -> effect d o d'
  | EffRetry now k key h r d' : retry_requested now k key h d r d' -> effect d (OpRequestRetry now k key h) d'.
Lemma outcome_effect {A} (m : notif_tx A) (d : db) (E : A -> db -> Prop) : atomic m ->
  (forall t a t', m t = (Ok a, t') -> exists d', (working t = d -> E a d') /\ (t' = Txn d' d' \/ d' = working t /\ t' = t)) ->
  (exists e, outcome m d = (Some e, d)) \/ exists a d', E a d' /\ outcome m d = (None, d').
Proof.
  intros Ha Hm. unfold outcome, in_tx. destruct (m (Txn d d)) as [[a|e] t'] eqn:Hr.
  - destruct (Hm _ _ _ Hr) as (d' & HE & Ht). right. exists a, d'. split; [by apply HE|]. by destruct Ht as [->|[-> ->]].
  - left. exists e. by rewrite (Ha _ _ _ Hr).
Qed.
Lemma finish_effect o now k c st r dl d : exec o d = outcome (finishClaim now k c st r dl) d ->
  (exists e, exec o d = (Some e, d)) \/ exists d', claim_finished now k c st r dl d d' /\ exec o d = (None, d').
Proof.
  intros ->. destruct (outcome_effect (finishClaim now k c st r dl) d (fun _ d' => claim_finished now k c st r dl d d')) as [H|(a & d' & H1 & H2)];
    [apply atomic_finishClaim| |by left|right; eauto].
  intros t a t' (d' & H & ->)%finishClaim_ok. exists d'. split; [by intros <-|by left].
Qed.
Lemma notif_exec_effect o d : (exists e, exec o d = (Some e, d)) \/ exists d', effect d o d' /\ exec o d = (None, d').
Proof.
  destruct o as [now meta intent|now t p f h ty r|now l k c|now k c|now k c dl|now k c r|now k c r|now k key h].
  - destruct (outcome_effect (RecordEvent now meta intent) d (event_applied now meta intent d)) as [H|(a & d' & H1 & H2)];
      [apply atomic_RecordEvent| |by left|right; exists d'; split; [by eapply EffEvent|done]].
    intros t a t' (d' & H & Ht)%RecordEvent_ok. exists d'. split; [by intros <-|done].
  - destruct (outcome_effect (RecordDeadLetter now t p f h ty r) d (fun _ => dead_lettered now (t, p, f) h ty r d)) as [H|(a & d' & H1 & H2)];
      [apply atomic_RecordDeadLetter| |by left|right; exists d'; split; [by apply EffDead|done]].
    intros x a t' (d' & H & Ht)%RecordDeadLetter_ok. exists d'. split; [by intros <-|done].
  - destruct (outcome_effect (ClaimJob now l k c) d (job_claimed now l c d)) as [H|(a & d' & H1 & H2)];
      [apply atomic_ClaimJob| |by left|right; exists d'; split; [by eapply EffClaim|done]].
    intros t a t' (d' & H & Ht)%ClaimJob_ok. exists d'. split; [by intros <-|done].
  - destruct (finish_effect (OpComplete now k c) now k c JDelivered "" 0 d eq_refl) as [H|(d' & H1 & H2)]; [by left|right].
    exists d'. split; [by eapply EffFinish; [| |exact H1|]|done].
  - destruct (finish_effect (OpRetryLater now k c dl) now k c JRetry "" dl d eq_refl) as [H|(d' & H1 & H2)]; [by left|right].
    exists d'. split; [by eapply EffFinish; [| |exact H1|]|done].
  - destruct (finish_effect (OpFail now k c r) now k c JPermanentlyFailed r 0 d eq_refl) as [H|(d' & H1 & H2)]; [by left|right].
    exists d'. split; [by eapply EffFinish; [| |exact H1|]|done].
  - destruct (finish_effect (OpSuppress now k c r) now k c JSuppressed r 0 d eq_refl) as [H|(d' & H1 & H2)]; [by left|right].
    exists d'. split; [by eapply EffFinish; [| |exact H1|]|done].
  - destruct (outcome_effect (RequestRetry now k key h) d (retry_requested now k key h d)) as [H|(a & d' & H1 & H2)];
      [apply atomic_RequestRetry| |by left|right; exists d'; split; [by eapply EffRetry|done]].
    intros t a t' (d' & H & Ht)%RequestRetry_ok. exists d'. split; [by intros <-|done].
Qed.
Lemma effect_good d o d' : Inv d -> allowed o -> effect d o d' -> Inv d' /\ keeps d d'.
Proof.
  intros HI Ho He. destruct He as [o'|now meta intent b d'' H|now t p f h ty r d'' H|now l k c r d'' H|o' now k c st r dl d'' H1 H2 H _|now k key h r d'' H].
  - split; [done|apply notif_keeps_refl].
  - by eapply event_applied_good; [| |exact H].
  - destruct (dead_good _ _ _ _ _ _ _ HI H) as (? & ? & _). done.
  - by eapply claim_good.
  - by eapply finish_good; [| | |exact H].
  - by eapply retry_good.
Qed.
Lemma notif_exec_good o d : Inv d -> allowed o -> Inv (snd (exec o d)) /\ keeps d (snd (exec o d)).
Proof.
  intros HI Ho. destruct (notif_exec_effect o d) as [[e ->]|(d' & He & ->)]; [split; [done|apply notif_keeps_refl]|]. by eapply effect_good.
Qed.
Lemma notif_reaches_good d d' : Inv d -> reaches d d' -> Inv d' /\ keeps d d'.
Proof.
  intros HI. induction 1 as [|d1 o H [HI1 HK] Ho]; [split; [done|apply notif_keeps_refl]|]. destruct (notif_exec_good o d1 HI1 Ho) as [HI2 HK2].
  split; [done|by eapply notif_keeps_trans].
Qed.
Lemma notif_reachable_inv d : reachable d -> Inv d.
Proof. intros H. by apply (notif_reaches_good empty_db); [apply notif_Inv_empty|]. Qed.
Lemma notif_reaches_trans d1 d2 d3 : reaches d1 d2 -> reaches d2 d3 -> reaches d1 d3.
Proof. intros H. induction 1; [done|by apply reaches_step]. Qed.
Lemma advances_reaches d d' : advances d d' -> reaches d d'.
Proof.
  induction 1 as [|d1 d2 d3 (o & Ho & ->) _ IH]; [constructor|].
  eapply notif_reaches_trans; [|exact IH]. apply reaches_step; [constructor|by destruct o].
Qed.
Definition exec_all (l : list op) (d : db) : db := fold_left (fun d o => snd (exec o d)) l d.
Lemma notif_reaches_all l d : Forall allowed l -> reaches d (exec_all l d).
Proof.
  revert d. induction l as [|o l IH]; intros d Hl; [constructor|]. apply Forall_cons_iff in Hl as [Ho Hl].
  apply (notif_reaches_trans _ (snd (exec o d))); [|by apply IH]. apply reaches_step; [constructor|done].
Qed.

(** ** Streams *)

(** A finished job that has a successor stays as it is. *)
Definition passed (k : string) (a : job_row) (d : db) : Prop :=
  jobs d !! k = Some a /\ unfinished a = false /\ exists k' b, jobs d !! k' = Some b /\ before a b.
Lemma passed_effect k a d o d' : Inv d -> effect d o d' -> passed k a d -> jobs d' !! k = Some a.
Proof.
  intros HI He (Ha & Hu & k' & b & Hb & Hab). pose proof (inv_jobs _ HI) as HJ.
  destruct He as [o|now meta intent ins d' H|now t p f h ty r d' H|now l k0 c r d' H|o now k0 c st r dl d' H1 H2 H _|now k0 key h r d' H]; [done|..].
  - destruct H as [r|ins cs js Hn _ _ Hadd]; [done|]. simpl.
    assert (js !! k = Some a) as Hjs by (destruct Hadd; [done|rewrite lookup_insert_ne by congruence; done]).
    destruct (in_SupersedesOlder intent); [|done]. rewrite lookup_update_where, Hjs. simpl. unfold older_waiting.
    unfold unfinished in Hu. apply orb_false_iff in Hu as [-> _]. by rewrite andb_false_r.
  - by destruct H.
  - destruct H as [|locked k1 j Hf Hk Hc]; [done|]. simpl. apply first_by_Some in Hf as [Hcl _]. apply claimable_facts in Hcl as [Hj _].
    pose proof (jo_key _ _ HJ _ _ Hk) as ->. rewrite lookup_insert_ne; [done|]. intros ->. congruence.
  - destruct H as [j Hk Hh Hc]. simpl. rewrite lookup_insert_ne; [done|]. intros ->. assert (j = a) as -> by congruence.
    unfold held in Hh. apply andb_true_iff in Hh as [Hh _]. unfold unfinished in Hu. rewrite Hh, orb_true_r in Hu. done.
  - destruct H as [r0 j H1 H2 H3 H4|j Hn Hk Hs Hsucc]; [done|]. simpl. rewrite lookup_insert_ne; [done|]. intros ->.
    assert (j = a) as -> by congruence. unfold has_successor in Hsucc. rewrite exists_row_false in Hsucc. specialize (Hsucc _ _ Hb).
    destruct Hab as [E1 E2]. rewrite bool_decide_true, (proj2 (Z.ltb_lt _ _) E2) in Hsucc; done.
Qed.
Lemma passed_reaches k a d d' : Inv d -> passed k a d -> reaches d d' -> passed k a d'.
Proof.
  intros HI Hp. induction 1 as [|d1 o Hr IH Ho]; [done|]. destruct (notif_reaches_good _ _ HI Hr) as [HI1 _].
  destruct (notif_exec_good o d1 HI1 Ho) as [_ HK]. destruct IH as (Ha & Hu & k' & b & Hb & Hab).
  assert (jobs (snd (exec o d1)) !! k = Some a) as Ha'.
  { destruct (notif_exec_effect o d1) as [[e ->]|(d2 & He & ->)]; [done|]. eapply passed_effect; [exact HI1|exact He|]. split_and!; eauto. }
  split_and!; [done|done|]. destruct (kp_jobs _ _ HK _ _ Hb) as (b' & Hb' & Hst%rtc_job_ident). exists k', b'. split; [done|].
  destruct (ident_fields _ _ Hst) as (_ & _ & E1 & E2 & _). destruct Hab. split; congruence.
Qed.

(** C22: Messages of one stream go out in order: a job is handed to a worker
    only when every job before it in its stream is finished, and from then on
    none of those ever changes again, so that nothing older can follow a
    message that may have been sent; and once an event is recorded that
    supersedes what came before it, no older job is handed out any more except
    to finish an attempt that is already under way. *)
Theorem notifications_in_order d d1 d2 now lease locked claimID job :
  reachable d -> in_tx (ClaimJob now lease locked claimID) d = (Ok (Some job), d1) -> reaches d1 d2 ->
  (exists b, jobs d1 !! jb_NotificationID job = Some b /\ j_status b = JProcessing /\ j_claim_id b = Some claimID /\
     job = job_of zero_uuid b /\
     forall k a, jobs d1 !! k = Some a -> before a b -> unfinished a = false /\ jobs d2 !! k = Some a) /\
  (forall k k' a b, jobs d2 !! k = Some a -> jobs d2 !! k' = Some b -> before a b -> j_supersedes b = true -> waiting a = false).
Proof.
  intros Hd%notif_reachable_inv Hc Hr.
  assert (exec (OpClaim now lease locked claimID) d = (None, d1)) as Hex by (cbn [exec]; unfold outcome; by rewrite Hc).
  destruct (notif_exec_good (OpClaim now lease locked claimID) d Hd I) as [HI1 _]. rewrite Hex in HI1. cbn [snd] in HI1.
  destruct (notif_reaches_good _ _ HI1 Hr) as [HI2 _]. split; [|apply (jo_superseded _ _ (inv_jobs _ HI2))].
  unfold in_tx in Hc. destruct (ClaimJob _ _ _ _ _) as [x t'] eqn:E. destruct x as [r|e]; [|done]. injection Hc as -> <-.
  apply ClaimJob_ok in E as (d' & H & Ht). cbn [working] in H. inversion H as [|locked' k0 b0 Hf Hk Hck]; subst.
  assert (durable t' = set_jobs (insert (j_id b0) (claimed now lease claimID b0)) d) as Ed.
  { destruct Ht as [->|[E ->]]; [done|]. exfalso. cbn [working] in E. assert (jobs d !! j_id b0 = Some (claimed now lease claimID b0)) as E'.
    { rewrite <- E at 1. simpl. apply lookup_insert_eq. }
    pose proof (jo_key _ _ (inv_jobs _ Hd) _ _ Hk) as Ek. rewrite Ek, Hk in E'. injection E' as E'. apply (f_equal j_attempts) in E'. simpl in E'. lia. }
  exists (claimed now lease claimID b0). rewrite Ed. cbn [jb_NotificationID job_of j_id claimed set_job jobs set_jobs].
  rewrite lookup_insert_eq. split_and!; [done|done|done|done|]. intros k a Ha Hab.
  assert (k <> j_id b0) as Hne by (intros ->; rewrite lookup_insert_eq in Ha; injection Ha as <-; destruct Hab; lia).
  assert (unfinished a = false) as Hu.
  { eapply (jo_order _ _ (inv_jobs _ HI1) k (j_id b0) a (claimed now lease claimID b0)); [|rewrite Ed; simpl; apply lookup_insert_eq|exact Hab|].
    - by rewrite Ed.
    - simpl. pose proof (jo_checks _ _ (inv_jobs _ Hd) _ _ Hk) as Hc0. unfold job_checks in Hc0. rewrite !andb_true_iff in Hc0. lia. }
  split; [done|]. eapply (passed_reaches k a (durable t') d2); [done| |done]. split_and!; [by rewrite Ed|done|].
  exists (j_id b0), (claimed now lease claimID b0). split; [rewrite Ed; simpl; apply lookup_insert_eq|done].
Qed.

(** C29: Every business fact is announced by one notification: each recorded
    event has exactly one job under its deduplication key, whichever event
    brought the fact first; a job keeps its recipient, text and place for
    good, moves only along [job_step], and never changes again once it is
    delivered or suppressed. *)
Theorem one_notification_per_fact d d' :
  reachable d -> reaches d d' ->
  (forall e r, inbox d !! e = Some r -> exists k j, jobs d !! k = Some j /\ j_dedupe_key j = i_dedupe_key r /\
     forall k' j', jobs d !! k' = Some j' -> j_dedupe_key j' = i_dedupe_key r -> k' = k) /\
  (forall k j, jobs d !! k = Some j -> exists j', jobs d' !! k = Some j' /\ ident j' = ident j /\ rtc job_step j j' /\
     (j_status j = JDelivered \/ j_status j = JSuppressed -> j' = j)).
Proof.
  intros Hd%notif_reachable_inv Hr. destruct (notif_reaches_good _ _ Hd Hr) as [_ HK]. split.
  - intros e r Hr'. destruct (inv_job _ Hd e r Hr') as (k & j & Hk & Hj). exists k, j. split_and!; [done..|].
    intros k' j' Hk' Hj'. apply (jo_dedupe _ _ (inv_jobs _ Hd) k' k j' j); congruence.
  - intros k j Hk. destruct (kp_jobs _ _ HK _ _ Hk) as (j' & Hj' & Hs). exists j'.
    split_and!; [done|by apply rtc_job_ident|done|by apply rtc_job_final].
Qed.

(** The events of a subscription or a credential are taken in one by one:
    the cursor of an aggregate stands at [n] exactly when its events 1 to [n]
    are in the inbox, and no number is used twice. *)
Theorem notified_events_in_sequence d :
  reachable d ->
  (forall s c, cursors d !! s = Some c -> forall n, 1 <= n <= k_last_sequence c <-> exists e r, inbox d !! e = Some r /\
     (i_producer r +:+ ":" +:+ i_aggregate_type r +:+ ":" +:+ i_aggregate_id r)%string = s /\ i_sequence r = Some n) /\
  (forall e r n, inbox d !! e = Some r -> i_sequence r = Some n ->
     is_Some (cursors d !! (i_producer r +:+ ":" +:+ i_aggregate_type r +:+ ":" +:+ i_aggregate_id r)%string)) /\
  (forall e e' r r', inbox d !! e = Some r -> inbox d !! e' = Some r' ->
     (i_aggregate_type r, i_aggregate_id r, i_sequence r) = (i_aggregate_type r', i_aggregate_id r', i_sequence r') -> e = e').
Proof. intros [_ _ _ _ U C Q]%notif_reachable_inv. done. Qed.

(** ** The end of an attempt *)

Definition acceptable (reason : string) : bool := bool_decide (reason = ""%string) || reason_text reason.
Lemma finished_checks now st reason delay j : job_checks j = true -> st <> JProcessing ->
  job_checks (finished now st reason delay j) = acceptable reason.
Proof.
  intros Hc Hst. apply eq_bool_prop_intro. revert Hc. unfold job_checks, acceptable.
  cbn [finished set_job j_id j_user_id j_subscription_id j_credential_id j_dedupe_key j_attempts
    j_max_attempts j_reason j_correlation_id j_causation_id j_type j_template_version j_status j_lease_until j_claim_id j_delivered_at
    j_source_producer j_source_aggregate_type j_source_sequence j_stream j_sequence].
  replace (Bool.eqb (bool_decide (st = JProcessing)) _) with true by (by rewrite bool_decide_false).
  replace (Bool.eqb (bool_decide (st = JDelivered)) _) with true
    by (destruct (decide (st = JDelivered)) as [->|E]; [done|by rewrite !(bool_decide_false (st = JDelivered))]).
  unfold nullif_empty. destruct (bool_decide (reason = "")); cbn [orb]; rewrite !andb_true_iff; intros H;
    destruct (reason_text reason); rewrite !Is_true_true, !andb_true_iff; cbn; tauto.
Qed.

(** Only the worker that holds the latest claim of a job ends the attempt,
    and the end is the one it reports unless the stream has moved on: a failed
    or delayed message that a later event supersedes is dropped. A report is
    refused when the claim is not held, and when its reason is not a code the
    table admits; then nothing changes. *)
Theorem claim_end_effect d now k claimID st reason delay :
  reachable d -> st <> JPending -> st <> JProcessing ->
  outcome (finishClaim now k claimID st reason delay) d =
  match jobs d !! k with
  | Some j =>
      if held claimID j then
        if demoted st j (jobs d) || acceptable reason
        then (None, set_jobs (insert k (concluded now st reason delay j (jobs d))) d)
        else (Some (ErrSQL "finish notification claim"), d)
      else (Some ErrEventConflict, d)
  | None => (Some ErrEventConflict, d)
  end.
Proof.
  intros Hd%notif_reachable_inv Hst1 Hst2. unfold outcome, in_tx, finishClaim. rewrite run_get. cbn [working].
  destruct (jobs d !! k) as [j|] eqn:Hj; [|done]. destruct (held claimID j); [|done]. cbv zeta.
  pose proof (jo_checks _ _ (inv_jobs _ Hd) _ _ Hj) as Hc. unfold concluded, demoted.
  destruct (_ && _); cbn [orb].
  - fold (finished now JSuppressed superseded_reason 0 j). by rewrite finished_checks.
  - fold (finished now st reason delay j). rewrite finished_checks by done. by destruct (acceptable reason).
Qed.

(** An operation that fails leaves the store as it was. *)
Lemma notif_errors_are_clean d o e d1 : exec o d = (Some e, d1) -> d1 = d.
Proof. destruct (notif_exec_effect o d) as [[e' ->]|(d' & _ & ->)]; [by intros [= _ <-]|done]. Qed.
