(* ===== verification/NotificationService.v ===== *)
(** * notification-service: events, deliveries and the API

    src/services/notification/internal/application/service.go and worker.go,
    kafka/consumer.go, the clients of the services the worker asks
    (internal/identity, subscription, access, telegram) and httpapi/handler.go.
    JSON decoders are parameters. *)

From Stdlib Require Import Ascii List.
From S2P Require Import Prelude GoStrings Sha256 Backoff Platform GoText Jobs OrderedConsumer.
From S2P Require Import NotificationDomain NotificationStore NotificationInv NotificationSpec.

Inductive ServiceErr := ContractError (code : string) | StoreErr (e : NotifErr).
Definition ContractErrorCode (e : ServiceErr) : option string :=
  match e with
  | ContractError code => Some code
  | StoreErr ErrEventConflict => Some "durable_event_conflict"%string
  | StoreErr _ => None
  end.

(** ** Events *)

Record paymentSucceeded := MkPayment { pay_PaymentID : string; pay_OrderID : string; pay_UserID : string; pay_PlanID : string;
  pay_AmountMinor : Z; pay_Currency : string; pay_PaidAt : Z }.
Record refundSucceeded := MkRefund { ref_RefundID : string; ref_PaymentID : string; ref_OrderID : string; ref_UserID : string;
  ref_AmountMinor : Z; ref_Currency : string; ref_RefundScope : string; ref_RefundedAt : Z }.
Record periodEvent := MkPeriod { per_SubscriptionID : string; per_UserID : string; per_PeriodID : string; per_SourceOrderID : string;
  per_SourcePaymentID : string; per_PeriodStart : Z; per_PeriodEnd : Z; per_GraceEndsAt : Z }.
Record graceStarted := MkGrace { gr_SubscriptionID : string; gr_UserID : string; gr_PeriodEnd : Z; gr_GraceEndsAt : Z; gr_EffectiveAt : Z }.
Record terminalEvent := MkTerminal { te_SubscriptionID : string; te_UserID : string; te_Reason : string;
  te_AffectedPeriodIDs : list string; te_EffectiveAt : Z }.
Record accessReady := MkReady { rd_SubscriptionID : string; rd_CredentialID : string; rd_UserID : string; rd_ProvisioningStatus : string;
  rd_ReadyAt : Z; rd_LinkIssuanceRequired : bool }.
Record provisioningFailed := MkFailed { pf_SubscriptionID : string; pf_CredentialID : string; pf_UserID : string; pf_FailedRevision : Z;
  pf_ReasonCode : string; pf_FailedAt : Z }.
Record accessRevoked := MkRevoked { rv_SubscriptionID : string; rv_CredentialID : string; rv_UserID : string; rv_DesiredRevision : Z;
  rv_Reason : string; rv_RevokedAt : Z }.
(** The strict decoders of the event payloads, of the envelope, and the lax
    one that looks for an event type in a record that is given up. *)
Record decoders := MkDecoders {
  dec_envelope : string -> option (Envelope string);
  dec_event_type : string -> option string;
  dec_payment : string -> option paymentSucceeded;
  dec_refund : string -> option refundSucceeded;
  dec_period : string -> option periodEvent;
  dec_grace : string -> option graceStarted;
  dec_terminal : string -> option terminalEvent;
  dec_ready : string -> option accessReady;
  dec_failed : string -> option provisioningFailed;
  dec_revoked : string -> option accessRevoked
}.
Definition nonempty (s : string) : bool := negb (bool_decide (s = ""%string)).
Definition same (a b : string) : bool := bool_decide (a = b).
Definition user_key (userID : string) : string := ("user:" +:+ userID)%string.
Definition numbered (prefix id : string) (n : Z) : string := (prefix +:+ ":" +:+ id +:+ ":" +:+ decimal n)%string.

(** What the branches of [intent] fill in. *)
Record plan := MkPlan {
  pl_UserID : string; pl_SubscriptionID : option string; pl_CredentialID : option string; pl_Type : string; pl_Key : string;
  pl_Stream : string; pl_Sequence : Z; pl_Supersedes : bool; pl_Variables : gmap string string; pl_Suppressed : string
}.
Section events.
Context (dec : decoders).

Definition decoded {A} (decode : string -> option A) (data : string) (ok : A -> bool) (k : A -> plan) : result ServiceErr plan :=
  match decode data with
  | Some event => if ok event then Ok (k event) else Err (ContractError "invalid_event_data")
  | None => Err (ContractError "invalid_event_data")
  end.
Definition plan_of (meta : EventMeta) (data : string) : result ServiceErr plan :=
  let of_type s := same (EventType meta) s in
  let sequence := AggregateSequence meta in
  let numbered_event := 1 <=? sequence in
  if of_type "billing.payment.succeeded.v1" then
    decoded (dec_payment dec) data (fun e => same (pay_PaymentID e) (AggregateID meta) && nonempty (pay_UserID e) &&
        negb (pay_PaidAt e =? 0) && (1 <=? pay_AmountMinor e))
      (fun e => MkPlan (pay_UserID e) None None "payment_confirmed" ("payment_confirmed:" +:+ pay_PaymentID e)
        (payment_stream (pay_PaymentID e)) 1 false
        (<["amount_minor" := decimal (pay_AmountMinor e)]> {["currency" := pay_Currency e]}) "")
  else if of_type "billing.refund.succeeded.v1" then
    decoded (dec_refund dec) data (fun e => same (ref_RefundID e) (AggregateID meta) && nonempty (ref_PaymentID e) && nonempty (ref_UserID e) &&
        same (ref_RefundScope e) "full" && negb (ref_RefundedAt e =? 0))
      (fun e => MkPlan (ref_UserID e) None None "refund_confirmed" ("refund_confirmed:" +:+ ref_RefundID e)
        (payment_stream (ref_PaymentID e)) 2 true ∅ "")
  else if of_type "subscription.activated.v1" || of_type "subscription.extended.v1" then
    let activated := of_type "subscription.activated.v1" in
    decoded (dec_period dec) data (fun e => numbered_event && same (per_SubscriptionID e) (AggregateID meta) && nonempty (per_UserID e) &&
        nonempty (per_PeriodID e) && negb (per_PeriodEnd e =? 0))
      (fun e => MkPlan (per_UserID e) (Some (per_SubscriptionID e)) None
        (if activated then "subscription_activated" else "subscription_extended")
        (if activated then "activation:" +:+ per_PeriodID e else "extension:" +:+ per_PeriodID e)
        (sequenced_stream "subscription" (per_SubscriptionID e)) sequence false
        {["period_end" := rfc3339nano (per_PeriodEnd e)]} (if activated then "covered_by_payment_and_ready" else ""))
  else if of_type "subscription.grace.started.v1" then
    decoded (dec_grace dec) data (fun e => numbered_event && same (gr_SubscriptionID e) (AggregateID meta) && nonempty (gr_UserID e) &&
        negb (gr_GraceEndsAt e =? 0) && (gr_PeriodEnd e <? gr_GraceEndsAt e))
      (fun e => MkPlan (gr_UserID e) (Some (gr_SubscriptionID e)) None "subscription_grace" (numbered "grace" (gr_SubscriptionID e) sequence)
        (sequenced_stream "subscription" (gr_SubscriptionID e)) sequence false {["grace_ends_at" := rfc3339nano (gr_GraceEndsAt e)]} "")
  else if of_type "subscription.expired.v1" || of_type "subscription.revoked.v1" then
    decoded (dec_terminal dec) data (fun e => numbered_event && same (te_SubscriptionID e) (AggregateID meta) && nonempty (te_UserID e) &&
        negb (te_EffectiveAt e =? 0))
      (fun e => MkPlan (te_UserID e) (Some (te_SubscriptionID e)) None
        (if of_type "subscription.revoked.v1" then "subscription_revoked" else "subscription_expired")
        (numbered "terminal" (te_SubscriptionID e) sequence)
        (sequenced_stream "subscription" (te_SubscriptionID e)) sequence true {["reason" := te_Reason e]} "")
  else if of_type "access.ready.v1" then
    decoded (dec_ready dec) data (fun e => numbered_event && same (rd_CredentialID e) (AggregateID meta) && nonempty (rd_UserID e) &&
        nonempty (rd_SubscriptionID e) && negb (rd_ReadyAt e =? 0) && rd_LinkIssuanceRequired e &&
        (same (rd_ProvisioningStatus e) "active" || same (rd_ProvisioningStatus e) "degraded"))
      (fun e => MkPlan (rd_UserID e) (Some (rd_SubscriptionID e)) (Some (rd_CredentialID e))
        (if same (rd_ProvisioningStatus e) "degraded" then "access_degraded" else "access_ready")
        (numbered "access_ready" (rd_CredentialID e) sequence)
        (sequenced_stream "access" (rd_CredentialID e)) sequence false ∅ "")
  else if of_type "access.provisioning.failed.v1" then
    decoded (dec_failed dec) data (fun e => numbered_event && same (pf_CredentialID e) (AggregateID meta) && nonempty (pf_UserID e) &&
        nonempty (pf_SubscriptionID e) && (1 <=? pf_FailedRevision e) && negb (pf_FailedAt e =? 0))
      (fun e => MkPlan (pf_UserID e) (Some (pf_SubscriptionID e)) (Some (pf_CredentialID e)) "provisioning_failed"
        (numbered "provisioning_failed" (pf_CredentialID e) (pf_FailedRevision e))
        (sequenced_stream "access" (pf_CredentialID e)) sequence false ∅ "")
  else if of_type "access.revoked.v1" then
    decoded (dec_revoked dec) data (fun e => numbered_event && same (rv_CredentialID e) (AggregateID meta) && nonempty (rv_UserID e) &&
        nonempty (rv_SubscriptionID e) && (1 <=? rv_DesiredRevision e) && negb (rv_RevokedAt e =? 0))
      (fun e => MkPlan (rv_UserID e) (Some (rv_SubscriptionID e)) (Some (rv_CredentialID e)) "access_physically_revoked"
        (numbered "access_revoked" (rv_CredentialID e) (rv_DesiredRevision e))
        (sequenced_stream "access" (rv_CredentialID e)) sequence true ∅ "covered_by_entitlement_terminal")
  else Err (ContractError "unsupported_event_type").
(** [NewService]. *)
Definition max_attempts (configured : Z) : Z := if configured <? 1 then 8 else configured.
Definition intent (notificationID : string) (maxAttempts : Z) (meta : EventMeta) (data : string) : result ServiceErr Intent :=
  match plan_of meta data with
  | Err e => Err e
  | Ok p =>
      if negb (same (PartitionKey meta) (user_key (pl_UserID p))) then Err (ContractError "event_partition_mismatch")
      else if same (pl_Stream p) "" || (pl_Sequence p <? 1) then Err (ContractError "invalid_delivery_order")
      else Ok (MkIntent notificationID (pl_UserID p) (pl_SubscriptionID p) (pl_CredentialID p) (pl_Type p) 1 (pl_Key p)
             (pl_Stream p) (pl_Sequence p) (pl_Supersedes p) (pl_Variables p) (pl_Suppressed p) maxAttempts)
  end.

(** What an attempt at an event draws: clock, random identifier, whether the
    store answers, and whether the dead letter and the commit go through. *)
Record attempt_env := MkAttempt {
  at_now : Z;
  at_notification : list Z;
  at_store_up : bool;
  at_dead_letter_ok : bool;
  at_commit_ok : bool
}.
Context (maxAttempts : Z).
Definition lift_op (up : bool) (o : op) (d : db) : result ServiceErr unit * db :=
  if up then match exec o d with (None, d') => (Ok tt, d') | (Some e, d') => (Err (StoreErr e), d') end
  else (Err (StoreErr (ErrSQL "unavailable")), d).
Definition ProcessEvent (e : attempt_env) (meta : EventMeta) (data : string) (d : db) : result ServiceErr unit * db :=
  match intent (RandomUUID (at_notification e)) (max_attempts maxAttempts) meta data with
  | Err err => (Err err, d)
  | Ok i => lift_op (at_store_up e) (OpEvent (at_now e) meta i) d
  end.

(** ** The consumer *)

Record envelopeRule := MkRule { producer : string; aggregateType : string; rule_sequenced : bool }.
Definition rules : gmap string envelopeRule := list_to_map [
  ("billing.payment.succeeded.v1", MkRule "billing-service" "payment" false);
  ("billing.refund.succeeded.v1", MkRule "billing-service" "refund" false);
  ("subscription.activated.v1", MkRule "subscription-service" "subscription" true);
  ("subscription.extended.v1", MkRule "subscription-service" "subscription" true);
  ("subscription.grace.started.v1", MkRule "subscription-service" "subscription" true);
  ("subscription.expired.v1", MkRule "subscription-service" "subscription" true);
  ("subscription.revoked.v1", MkRule "subscription-service" "subscription" true);
  ("access.ready.v1", MkRule "access-service" "access" true);
  ("access.provisioning.failed.v1", MkRule "access-service" "access" true);
  ("access.revoked.v1", MkRule "access-service" "access" true)]%string.
Definition uuidPattern : string -> bool := any_uuid.
Definition validateEnvelope (r : kafka_record) (envelope : Envelope string) : option string :=
  match rules !! rec_topic r with
  | None => Some "invalid_envelope_routing"%string
  | Some rule =>
      if negb (same (env_EventType envelope) (rec_topic r)) || negb (env_SchemaVersion envelope =? 1) ||
         negb (same (env_Producer envelope) (producer rule)) || negb (same (env_AggregateType envelope) (aggregateType rule))
      then Some "invalid_envelope_routing"%string
      else if negb (uuidPattern (env_EventID envelope)) || negb (uuidPattern (env_AggregateID envelope)) ||
              negb (uuidPattern (env_CorrelationID envelope)) || (env_OccurredAt envelope =? 0) then Some "invalid_envelope_identifiers"%string
      else if match env_CausationID envelope with Some c => negb (uuidPattern c) | None => false end
      then Some "invalid_envelope_causation"%string
      else if match strip_prefix "user:" (env_PartitionKey envelope) with Some id => negb (uuidPattern id) | None => true end ||
              negb (same (rec_key r) (env_PartitionKey envelope)) then Some "invalid_envelope_partition_key"%string
      else if (rule_sequenced rule && (env_AggregateSequence envelope <? 1)) ||
              (negb (rule_sequenced rule) && negb (env_AggregateSequence envelope =? 0)) then Some "invalid_envelope_sequence"%string
      else if same (env_Data envelope) "" || same (env_Data envelope) "null" then Some "invalid_envelope_data"%string
      else None
  end.
Definition meta_of (envelope : Envelope string) (r : kafka_record) : EventMeta :=
  MkEventMeta (env_EventID envelope) (env_EventType envelope) (env_Producer envelope) (env_AggregateType envelope)
    (env_AggregateID envelope) (env_AggregateSequence envelope) (env_PartitionKey envelope) (env_CorrelationID envelope)
    (env_CausationID envelope) (env_OccurredAt envelope) (rec_topic r) (rec_partition r) (rec_offset r) (sha256_hex (rec_value r)).
Definition process (e : attempt_env) (r : kafka_record) (d : db) : result ServiceErr unit * db :=
  match dec_envelope dec (rec_value r) with
  | None => (Err (ContractError "invalid_envelope_json"), d)
  | Some envelope =>
      match validateEnvelope r envelope with
      | Some code => (Err (ContractError code), d)
      | None => ProcessEvent e (meta_of envelope r) (env_Data envelope) d
      end
  end.
Definition deadLetter (e : attempt_env) (r : kafka_record) (reason : string) (d : db) : result ServiceErr unit * db :=
  let eventType := match dec_event_type dec (rec_value r) with
                   | Some t => if bool_decide (is_Some (rules !! t)) then t else ""%string
                   | None => ""%string
                   end in
  lift_op (at_dead_letter_ok e) (OpDeadLetter (at_now e) (rec_topic r) (rec_partition r) (rec_offset r) (sha256_hex (rec_value r)) eventType reason) d.
Definition attempt (e : attempt_env) (r : kafka_record) (d : db) : verdict * db :=
  let commit d := if at_commit_ok e then (Committed, d) else (CommitFailed, d) in
  match process e r d with
  | (Ok _, d1) => commit d1
  | (Err (StoreErr ErrSequenceGap), d1) => (Gap, d1)
  | (Err err, d1) =>
      match ContractErrorCode err with
      | None => (Retry, d1)
      | Some code => match deadLetter e r code d1 with (Ok _, d2) => commit d2 | (Err _, d2) => (Retry, d2) end
      end
  end.
(** One pass over the deferred records, in the order [keys] yields them. *)
Definition notif_retryDeferred (envs : string * Z -> attempt_env) (keys : list (string * Z)) (q : deferred) (d : db)
    : deferred * db * list client_call :=
  let '(_, q1, d1, calls) := retry_round attempt envs keys q d in (q1, d1, calls).
Definition notif_pollOnce (envs : string * Z -> attempt_env) (keys : list (string * Z)) (record : option kafka_record)
    (cancelled alive : bool) (e : attempt_env) (q : deferred) (d : db) : bool * deferred * db * list client_call :=
  match record with
  | None => let '(q1, d1, calls) := notif_retryDeferred envs keys q d in (alive, q1, d1, calls ++ [AllowRebalance])
  | Some r =>
      if cancelled then (false, q, d, [SetOffsets r; AllowRebalance])
      else match attempt e r d with
           | (Gap, d1) => let '(q1, calls) := deferGap r q in (alive, q1, d1, calls ++ [AllowRebalance])
           | (Committed, d1) =>
               let '(q2, d2, calls) := notif_retryDeferred envs keys q d1 in
               (alive, q2, d2, CommitRecords r true :: calls ++ [AllowRebalance])
           | (v, d1) => (alive, q, d1, commit_call v r ++ [SetOffsets r; AllowRebalance])
           end
  end.
End events.

(** ** The services the worker asks *)

(** A response: its status and body; [None] when there is none. *)
Abbreviation response := (option (Z * string)).
(** [httpdecode.Strict] with the limit of the clients. *)
Definition strict {A} (decode : string -> option A) (body : string) : option A :=
  if 16 * 1024 <? go_len body then None else decode body.
Definition token_byte (c : ascii) : bool := alnum c || Ascii.eqb c "_" || Ascii.eqb c "-".
Definition boundedToken (value : string) (minLength maxLength : Z) : bool :=
  (minLength <=? go_len value) && (go_len value <=? maxLength) && all_bytes token_byte value.
Definition boundedCode (value fallback : string) : string :=
  if (go_len value <? 3) || (64 <? go_len value) then fallback
  else if all_bytes code_byte value then value else fallback.

Record target_body := MkTargetBody { tb_Eligible : bool; tb_ReasonCode : string; tb_TelegramChatID : option Z; tb_Locale : option string }.
Record state_body := MkStateBody { sb_SubscriptionID : string; sb_UserID : string; sb_Status : string;
  sb_CurrentPeriodStart : option Z; sb_CurrentPeriodEnd : option Z; sb_GraceEndsAt : option Z }.
Record access_body := MkAccessBody { ab_SubscriptionID : string; ab_CredentialID : string; ab_AccessStatus : string;
  ab_ProvisioningStatus : string; ab_TokenStatus : string }.
Record delivery_body := MkDeliveryBody { db_Status : string; db_ReasonCode : string; db_RetryAfterSeconds : Z }.
Record client_decoders := MkClientDecoders {
  dec_target : string -> option target_body;
  dec_state : string -> option state_body;
  dec_access : string -> option access_body;
  dec_delivery : string -> option delivery_body
}.
Section clients.
Context (cdec : client_decoders).

Definition GetNotificationTarget (r : response) : option TelegramTarget :=
  '(status, body) ← r;
  if negb (status =? 200) then None
  else
    p ← strict (dec_target cdec) body;
    if tb_Eligible p && (match tb_TelegramChatID p with Some c => c <=? 0 | None => true end || nonempty (tb_ReasonCode p)) then None
    else if negb (tb_Eligible p) && (bool_decide (is_Some (tb_TelegramChatID p)) || negb (boundedToken (tb_ReasonCode p) 3 64)) then None
    else if match tb_Locale p with Some l => negb (boundedToken l 2 16) | None => false end then None
    else Some (MkTarget (tb_Eligible p) (tb_ReasonCode p) (default 0 (tb_TelegramChatID p)) (default ""%string (tb_Locale p))).
Definition GetState (userID subscriptionID : string) (r : response) : option SubscriptionState :=
  '(status, body) ← r;
  if status =? 404 then Some (MkState "missing" None None)
  else if negb (status =? 200) then None
  else
    p ← strict (dec_state cdec) body;
    if negb (same (sb_UserID p) userID) || negb (same (sb_SubscriptionID p) subscriptionID) then None
    else if bool_decide (sb_Status p ∈ ["active"; "grace"; "pending"; "expired"; "revoked"]%string)
    then Some (MkState (sb_Status p) (sb_CurrentPeriodEnd p) (sb_GraceEndsAt p)) else None.
Definition IsCurrentReady (subscriptionID credentialID : string) (r : response) : option bool :=
  '(status, body) ← r;
  if status =? 404 then Some false
  else if negb (status =? 200) then None
  else
    p ← strict (dec_access cdec) body;
    if negb (same (ab_SubscriptionID p) subscriptionID) || same (ab_CredentialID p) "" || same (ab_AccessStatus p) "" ||
       same (ab_ProvisioningStatus p) "" || same (ab_TokenStatus p) "" then None
    else Some (same (ab_CredentialID p) credentialID && (same (ab_AccessStatus p) "ready" || same (ab_AccessStatus p) "active") &&
               (same (ab_ProvisioningStatus p) "active" || same (ab_ProvisioningStatus p) "degraded")).
Definition invalidResponse : DeliveryError := MkDeliveryError "telegram_invalid_response" true 0.
(** Whether the bot had sent the message before, or why it was not sent. *)
Definition Deliver (r : response) : result DeliveryError bool :=
  match r with
  | None => Err (MkDeliveryError "telegram_network" true 0)
  | Some (status, body) =>
      match strict (dec_delivery cdec) body with
      | None => Err invalidResponse
      | Some p =>
          if (db_RetryAfterSeconds p <? 0) || (900 <? db_RetryAfterSeconds p) then Err invalidResponse
          else if same (db_Status p) "delivered" then (if status =? 200 then Ok false else Err invalidResponse)
          else if same (db_Status p) "replay" then (if status =? 200 then Ok true else Err invalidResponse)
          else if same (db_Status p) "retryable" then
            (if (status =? 409) || (status =? 503)
             then Err (MkDeliveryError (boundedCode (db_ReasonCode p) "telegram_retryable") true (db_RetryAfterSeconds p * second))
             else Err invalidResponse)
          else if same (db_Status p) "permanent" then
            (if (status =? 409) || (status =? 422)
             then Err (MkDeliveryError (boundedCode (db_ReasonCode p) "telegram_permanent") false 0) else Err invalidResponse)
          else Err invalidResponse
      end
  end.
End clients.

(** ** The worker *)

Definition isSubscriptionStateSensitive (notificationType : string) : bool :=
  bool_decide (notificationType ∈ ["subscription_extended"; "subscription_grace"; "subscription_expired"; "subscription_revoked";
    "access_ready"; "access_degraded"; "provisioning_failed"]%string).
Definition ready_type (notificationType : string) : bool := same notificationType "access_ready" || same notificationType "access_degraded".
Definition stated (expected actual : option Z) : bool :=
  match expected, actual with Some a, Some b => a =? b | _, _ => false end.
Definition subscriptionNotificationCurrent (job : Job) (state : SubscriptionState) : bool :=
  let of_type s := same (jb_NotificationType job) s in
  let variable name := ParseRFC3339Nano (default ""%string (jb_Variables job !! name)) in
  if of_type "subscription_extended" then
    same (ss_Status state) "active" && stated (variable "period_end"%string) (ss_CurrentPeriodEnd state)
  else if of_type "subscription_grace" then
    same (ss_Status state) "grace" && stated (variable "grace_ends_at"%string) (ss_GraceEndsAt state)
  else if of_type "subscription_expired" then same (ss_Status state) "expired"
  else if of_type "subscription_revoked" then same (ss_Status state) "revoked"
  else if of_type "access_ready" || of_type "access_degraded" || of_type "provisioning_failed" then
    same (ss_Status state) "active" || same (ss_Status state) "grace"
  else true.
Definition notification_retryBackoff := retryBackoff.
Definition fifteen_minutes : Z := 15 * minute.

(** What the worker shares with the rest of the system: the database, and a
    record of what was asked, answered and sent, by claim. *)
Inductive trace_entry :=
  | Claimed (claimID : string) (job : Job)
  | Target (claimID userID : string) (target : TelegramTarget)
  | State (claimID userID subscriptionID : string) (state : SubscriptionState)
  | Ready (claimID subscriptionID credentialID : string) (current : bool)
  | Sent (claimID notificationID : string) (chatID : Z) (notificationType : string) (templateVersion : Z) (text : string) (accepted : bool).
Record sys := MkSys { s_db : db; s_trace : list trace_entry }.
Definition push (e : trace_entry) (s : sys) : sys := MkSys (s_db s) (e :: s_trace s).

(** What a run of the worker draws, call by call. *)
Record worker_env := MkWorker {
  wk_now : nat -> Z;
  wk_claim : list Z;
  wk_locked : nat -> gset string;
  wk_link : nat -> link;
  wk_identity : nat -> response;
  wk_subscription : nat -> response;
  wk_access : nat -> response;
  wk_telegram : nat -> response
}.
Section worker.
Context (cdec : client_decoders) (between : nat -> sys -> sys) (lease retryBase : Z) (env : worker_env).

Definition store {A} (m : nat -> notif_tx A) : job sys (result NotifErr A) :=
  call_store between s_db (fun d s => MkSys d (s_trace s)) (wk_link env) (ErrSQL "unavailable") m.
Definition claimID : string := RandomUUID (wk_claim env).
Definition claim : job sys (result NotifErr (option Job)) := call between (fun i s =>
  match wk_link env i with
  | Down => (Err (ErrSQL "unavailable"), s)
  | l =>
      let '(r, d) := in_tx (ClaimJob (wk_now env i) lease (wk_locked env i) claimID) (s_db s) in
      let trace := match r with Ok (Some job) => Claimed claimID job :: s_trace s | _ => s_trace s end in
      (match l with Lost => Err (ErrSQL "unavailable") | _ => r end, MkSys d trace)
  end).
(** A question to another service, with its answer put on record. *)
Definition inquire {A} (answer : nat -> option A) (entry : A -> trace_entry) : job sys (option A) := call between (fun i s =>
  match answer i with Some a => (Some a, push (entry a) s) | None => (None, s) end).
Definition deliver (notificationID : string) (chatID : Z) (notificationType : string) (templateVersion : Z) (text : string)
    : job sys (result DeliveryError bool) := call between (fun i s =>
  let r := Deliver cdec (wk_telegram env i) in
  (r, push (Sent claimID notificationID chatID notificationType templateVersion text (is_ok r)) s)).

Definition retryOrFail (j : Job) (err : DeliveryError) : job sys (result NotifErr unit) :=
  if negb (de_Retryable err) || (jb_MaxAttempts j <=? jb_Attempts j) then
    store (fun i => FailJob (wk_now env i) (jb_NotificationID j) (jb_ClaimID j) (de_Code err))
  else
    let delay := if de_RetryAfter err <=? 0 then notification_retryBackoff retryBase (jb_Attempts j) (jb_NotificationID j)
                 else de_RetryAfter err in
    let delay := if fifteen_minutes <? delay then fifteen_minutes else delay in
    store (fun i => RetryJob (wk_now env i) (jb_NotificationID j) (jb_ClaimID j) delay).
Definition suppress (j : Job) (reason : string) : job sys (result NotifErr unit) :=
  store (fun i => SuppressJob (wk_now env i) (jb_NotificationID j) (jb_ClaimID j) reason).
Definition unavailable (code : string) : DeliveryError := MkDeliveryError code true 0.

(** Rendering and sending, once the message is known to be current. *)
Definition send (j : Job) (target : TelegramTarget) : job sys (result NotifErr unit) :=
  match Render (jb_NotificationType j) (jb_TemplateVersion j) (jb_Variables j) with
  | None => store (fun i => FailJob (wk_now env i) (jb_NotificationID j) (jb_ClaimID j) "invalid_template")
  | Some text =>
      r ← deliver (jb_NotificationID j) (tt_TelegramChatID target) (jb_NotificationType j) (jb_TemplateVersion j) text;
      match r with
      | Err err => retryOrFail j err
      | Ok _ => store (fun i => CompleteJob (wk_now env i) (jb_NotificationID j) (jb_ClaimID j))
      end
  end.
Definition check_access (j : Job) (target : TelegramTarget) : job sys (result NotifErr unit) :=
  match ready_type (jb_NotificationType j), jb_SubscriptionID j, jb_CredentialID j with
  | true, Some subscriptionID, Some credentialID =>
      current ← inquire (fun i => IsCurrentReady cdec subscriptionID credentialID (wk_access env i)) (Ready claimID subscriptionID credentialID);
      match current with
      | None => retryOrFail j (unavailable "access_state_unavailable")
      | Some false => suppress j "stale_access_state"
      | Some true => send j target
      end
  | _, _, _ => send j target
  end.
Definition check_subscription (j : Job) (target : TelegramTarget) : job sys (result NotifErr unit) :=
  match isSubscriptionStateSensitive (jb_NotificationType j), jb_SubscriptionID j with
  | true, Some subscriptionID =>
      state ← inquire (fun i => GetState cdec (jb_UserID j) subscriptionID (wk_subscription env i)) (State claimID (jb_UserID j) subscriptionID);
      match state with
      | None => retryOrFail j (unavailable "subscription_state_unavailable")
      | Some state => if subscriptionNotificationCurrent j state then check_access j target else suppress j "stale_subscription_state"
      end
  | _, _ => check_access j target
  end.
Definition workOnce : job sys (result NotifErr unit) :=
  r ← claim;
  match r with
  | Err e => mret (Err e)
  | Ok None => mret (Ok tt)
  | Ok (Some j) =>
      target ← inquire (fun i => GetNotificationTarget cdec (wk_identity env i)) (Target claimID (jb_UserID j));
      match target with
      | None => retryOrFail j (unavailable "identity_unavailable")
      | Some target =>
          if negb (tt_Eligible target) then
            suppress j (if same (tt_ReasonCode target) "" then "target_unavailable"%string else tt_ReasonCode target)
          else check_subscription j target
      end
  end.
End worker.

(** ** The API *)

Inductive reply (A : Type) := Reply (status : Z) (body : A) | Problem (status : Z) (code : string).
Arguments Reply {A} status body.
Arguments Problem {A} status code.
Record RetryReply := MkRetryReply { rr_NotificationID : string; rr_NotificationType : string; rr_Status : JobStatus;
  rr_Attempts : Z; rr_MaxAttempts : Z; rr_Replay : bool }.
Definition maxRetryBodyBytes : Z := 8 * 1024.
Definition key_byte (c : ascii) : bool := alnum c || contains_any "._:-" (String c "").
Definition keyPattern (s : string) : bool :=
  match s with
  | String c s' => alnum c && all_bytes key_byte s' && (7 <=? go_len s') && (go_len s' <=? 127)
  | EmptyString => false
  end.
Definition newline : string := String "010" EmptyString.
Definition retry_hash (id reason : string) : string :=
  sha256_hex ("notification.retry" +:+ newline +:+ id +:+ newline +:+ reason)%string.
Section api.
Context (between : nat -> sys -> sys) (links : nat -> link) (now : nat -> Z).
(** The strict decoder of the request: its reason. *)
Context (decode_retry : string -> option string).

Definition read {A} (f : db -> result NotifErr A) : job sys (result NotifErr A) := ask between (fun i s =>
  match links i with Up => f (s_db s) | _ => Err (ErrSQL "unavailable") end).
Definition decodeStrict (body : string) : option string :=
  if maxRetryBodyBytes <? go_len body then None else decode_retry body.

Definition http_GetNotification (notification_id : string) : job sys (reply Job) :=
  let id := TrimSpace notification_id in
  if negb (uuidPattern id) then mret (Problem 400 "invalid_notification_id")
  else
    r ← read (GetJob id);
    mret (match r with
          | Ok job => Reply 200 job
          | Err ErrNotFound => Problem 404 "not_found"
          | Err _ => Problem 500 "notification_read_failed"
          end).
Definition http_RetryNotification (notification_id idempotency_key body : string) : job sys (reply RetryReply) :=
  let id := TrimSpace notification_id in
  let key := TrimSpace idempotency_key in
  if negb (uuidPattern id) || negb (keyPattern key) then mret (Problem 400 "invalid_request")
  else match decodeStrict body with
  | None => mret (Problem 400 "invalid_json")
  | Some reason =>
      let reason := TrimSpace reason in
      if (go_len reason <? 3) || (512 <? go_len reason) then mret (Problem 400 "invalid_reason")
      else
        r ← call_store between s_db (fun d s => MkSys d (s_trace s)) links (ErrSQL "unavailable")
              (fun i => RequestRetry (now i) id key (retry_hash id reason));
        mret (match r with
              | Ok (job, replay) => Reply 202 (MkRetryReply (jb_NotificationID job) (jb_NotificationType job) (jb_Status job)
                                                 (jb_Attempts job) (jb_MaxAttempts job) replay)
              | Err ErrNotFound => Problem 404 "not_found"
              | Err ErrIdempotencyConflict => Problem 409 "idempotency_conflict"
              | Err ErrRetryNotAllowed => Problem 409 "retry_not_allowed"
              | Err _ => Problem 500 "notification_retry_failed"
              end)
  end.
Definition http_ListDeadLetters (limit : string) : job sys (reply (list DeadLetter)) :=
  let value := TrimSpace limit in
  let limit := if bool_decide (value = ""%string) then Some 50
               else match ParseInt value with
                    | Some parsed => if (parsed <? 1) || (200 <? parsed) then None else Some parsed
                    | None => None
                    end in
  match limit with
  | None => mret (Problem 400 "invalid_limit")
  | Some limit =>
      r ← read (fun d => Ok (ListDeadLetters (Z.to_nat limit) d));
      mret (match r with Ok items => Reply 200 items | Err _ => Problem 500 "dead_letters_unavailable" end)
  end.
End api.
