(* ===== verification/NotificationJobs.v ===== *)
(** * notification-service: what the consumer and the worker guarantee

    The consumer plans an event's place in its stream from a checked envelope,
    and loses no event. The worker, with the API and everything else that
    shares the database, keeps to a protocol under which a message goes out
    only after the answers that justify it, and a job counts as delivered only
    when the bot took its message. *)

From Stdlib Require Import Ascii List.
From S2P Require Import Prelude GoStrings Sha256 Backoff Platform GoText Jobs OrderedConsumer.
From S2P Require Import NotificationDomain NotificationStore NotificationInv NotificationSpec NotificationService.

(** ** The consumer *)

Section consumer.
Context (dec : decoders) (maxAttempts : Z).
Implicit Types (e : attempt_env) (r : kafka_record) (d : db).

Lemma same_true a b : same a b = true -> a = b.
Proof. by intros ?%bool_decide_eq_true. Qed.
Lemma decoded_ok {A} decode data (ok : A -> bool) k p : decoded decode data ok k = Ok p -> exists x, ok x = true /\ p = k x.
Proof. unfold decoded. destruct (decode data) as [x|]; [|done]. destruct (ok x) eqn:E; [|done]. intros [= <-]. eauto. Qed.

(** The rule an accepted envelope follows. *)
Lemma envelope_rule r envelope : validateEnvelope r envelope = None ->
  exists rule, rules !! env_EventType envelope = Some rule /\ env_EventType envelope = rec_topic r /\
    env_Producer envelope = producer rule /\ env_AggregateType envelope = aggregateType rule /\
    (if rule_sequenced rule then 1 <= env_AggregateSequence envelope else env_AggregateSequence envelope = 0).
Proof.
  unfold validateEnvelope. destruct (rules !! rec_topic r) as [rule|] eqn:Er; [|done].
  destruct (_ || _) eqn:E1; [done|]. rewrite !orb_false_iff, !negb_false_iff in E1. destruct E1 as [[[E1%same_true _] E2%same_true] E3%same_true].
  do 3 (match goal with |- (if ?b then _ else _) = _ -> _ => destruct b; [done|] end).
  match goal with |- (if ?b then _ else _) = _ -> _ => destruct b eqn:E4; [done|] end. intros _. exists rule. rewrite E1. split_and!; try done.
  destruct (rule_sequenced rule); cbn [andb orb negb] in E4; [rewrite orb_false_r in E4; lia|].
  apply negb_false_iff in E4. lia.
Qed.

(** What a checked envelope is turned into has its place in a stream. *)
Lemma intent_planned id attempts meta data i rule : intent dec id attempts meta data = Ok i ->
  rules !! EventType meta = Some rule -> Producer meta = producer rule -> AggregateType meta = aggregateType rule ->
  (if rule_sequenced rule then 1 <= AggregateSequence meta else AggregateSequence meta = 0) -> planned meta i.
Proof.
  unfold intent. destruct (plan_of dec meta data) as [p|] eqn:Hp; [|done]. destruct (negb _); [done|]. destruct (_ || _); [done|].
  intros [= <-] Hr HP HA Hs. revert Hp. unfold plan_of. cbv zeta.
  assert (forall s, same (EventType meta) s = true -> rules !! s = Some rule) as Hrule by (intros s <-%same_true; done).
  repeat match goal with
  | |- (if ?b then _ else _) = Ok _ -> _ => let E := fresh "E" in destruct b eqn:E
  end; [..|done]; intros (x & Hx & ->)%decoded_ok; rewrite ?orb_true_iff, ?andb_true_iff in *;
  try match goal with E : _ \/ _ |- _ => destruct E end;
  match goal with E : same (EventType meta) _ = true |- _ => apply Hrule in E; vm_compute in E; injection E as <- end;
  cbn in HP, HA, Hs; cbn [pl_Stream pl_Sequence pl_Supersedes];
  first [right; split; [lia|]; eexists; split; [reflexivity|]; cbn; by auto
        |left; eexists; split_and!; [|exact HA|exact HP| | |]; [first [by left|by right; left]| |lia|done];
         destruct_and!; cbn; f_equal; by apply same_true].
Qed.

(** The event is in the inbox, or the record among the dead letters. *)
Definition settled (d : db) (r : kafka_record) : Prop :=
  (exists k q, inbox d !! k = Some q /\ i_payload_sha256 q = sha256_hex (rec_value r)) \/
  OrderedConsumer.source_of r ∈ dom (dead_letters d).
Definition later (d d' : db) : Prop := advances d d' /\ inbox d ⊆ inbox d' /\ dom (dead_letters d) ⊆ dom (dead_letters d').
Lemma notif_later_refl d : later d d.
Proof. by split. Qed.
Lemma notif_later_trans d1 d2 d3 : later d1 d2 -> later d2 d3 -> later d1 d3.
Proof. intros (R1 & I1 & D1) (R2 & I2 & D2). split_and!; by etrans. Qed.
Lemma notif_settled_later d d' r : later d d' -> settled d r -> settled d' r.
Proof.
  intros (_ & HI & HD) [(k & q & Hk & H)|H]; [left|right; by apply HD]. exists k, q. split; [by eapply lookup_weaken|done].
Qed.
Lemma notif_exec_later d o : reachable d -> plain_op o -> later d (snd (exec o d)).
Proof.
  intros Hd Ho. destruct (notif_exec_good o d (notif_reachable_inv _ Hd)) as [_ HK]; [by destruct o|].
  split_and!; [apply rtc_once; by exists o|apply HK|apply HK].
Qed.
Lemma notif_reachable_later d d' : later d d' -> reachable d -> reachable d'.
Proof. intros [H%advances_reaches _] Hd. by eapply notif_reaches_trans. Qed.

(** An operation that goes through settles what it was asked for. *)
Lemma event_recorded now meta i d d' : exec (OpEvent now meta i) d = (None, d') ->
  exists k q, inbox d' !! k = Some q /\ i_payload_sha256 q = PayloadSHA256 meta.
Proof.
  cbn [exec]. intros H.
  assert (exists b, event_applied now meta i d b d') as (b & He).
  { destruct (outcome_effect (RecordEvent now meta i) d (event_applied now meta i d)) as [[e E]|(b & d1 & He & E)];
      [apply atomic_RecordEvent| |congruence|exists b; congruence].
    intros t a t' (d1 & H1 & H2)%RecordEvent_ok. exists d1. split; [by intros <-|done]. }
  destruct He as [r Hr Hh|inserted cs js Hn _ _ _]; [by exists (EventID meta), r|].
  eexists (EventID meta), _. simpl. by rewrite lookup_insert_eq.
Qed.
Lemma letter_recorded now topic p off h ty code d d' : exec (OpDeadLetter now topic p off h ty code) d = (None, d') ->
  (topic, p, off) ∈ dom (dead_letters d').
Proof.
  cbn [exec]. intros H.
  destruct (outcome_effect (RecordDeadLetter now topic p off h ty code) d (fun _ => dead_lettered now (topic, p, off) h ty code d))
    as [[e E]|(b & d1 & He & E)]; [apply atomic_RecordDeadLetter| |congruence|].
  { intros t a t' (d1 & H1 & H2)%RecordDeadLetter_ok. exists d1. split; [by intros <-|done]. }
  assert (d1 = d') as -> by congruence. destruct He as [r Hn|r Hs]; [simpl; set_solver|by apply elem_of_dom].
Qed.

Lemma lift_op_outcome up o d x d1 : reachable d -> plain_op o -> lift_op up o d = (x, d1) ->
  later d d1 /\ match x with Ok _ => exec o d = (None, d1) | Err _ => d1 = d end.
Proof.
  intros Hd Ho. unfold lift_op. destruct up; [|intros [= <- <-]; split; [apply notif_later_refl|done]].
  pose proof (notif_exec_later d o Hd Ho) as Hl. destruct (exec o d) as [[e|] d'] eqn:Ex; intros [= <- <-]; (split; [exact Hl|]); [|done].
  by eapply notif_errors_are_clean.
Qed.
Lemma notif_process_outcome e r d x d1 : reachable d -> process dec maxAttempts e r d = (x, d1) ->
  later d d1 /\ match x with Ok _ => settled d1 r | Err _ => d1 = d end.
Proof.
  intros Hd. assert (forall err, (Err err, d) = (x, d1) -> later d d1 /\ match x with Ok _ => settled d1 r | Err _ => d1 = d end)
    as Hsame by (intros err [= <- <-]; split; [apply notif_later_refl|done]).
  unfold process. destruct (dec_envelope _ _) as [envelope|]; [|apply Hsame].
  destruct (validateEnvelope _ _) as [code|] eqn:Ev; [apply Hsame|]. apply envelope_rule in Ev as (rule & Hr & _ & HP & HA & Hs).
  unfold ProcessEvent. set (meta := meta_of envelope r). destruct (intent _ _ _ _ _) as [i|err] eqn:Ei; [|apply Hsame].
  eapply intent_planned in Ei; [|exact Hr|exact HP|exact HA|exact Hs]. intros Hl.
  apply lift_op_outcome in Hl as [Hl Hx]; [|done|exact Ei]. split; [done|]. destruct x; [|done].
  apply event_recorded in Hx as (k & q & Hk & Hh). left. by exists k, q.
Qed.
Lemma notif_attempt_outcome e r d v d1 : reachable d -> attempt dec maxAttempts e r d = (v, d1) ->
  later d d1 /\
  match v with
  | Committed => settled d1 r
  | CommitFailed => at_commit_ok e = false /\ settled d1 r
  | Gap | Retry => d1 = d
  end.
Proof.
  intros Hd. unfold attempt. destruct (process _ _ e r d) as [x d2] eqn:E. apply notif_process_outcome in E as [Hr Hx]; [|done].
  destruct x as [u|err]; [destruct (at_commit_ok e) eqn:Ec; intros [= <- <-]; done|]. subst d2.
  assert (forall code, match deadLetter dec e r code d with (Ok _, d2) => if at_commit_ok e then (Committed, d2) else (CommitFailed, d2)
      | (Err _, d2) => (Retry, d2) end = (v, d1) ->
    later d d1 /\ match v with Committed => settled d1 r | CommitFailed => at_commit_ok e = false /\ settled d1 r | _ => d1 = d end) as Hdead.
  { intros code. unfold deadLetter. cbv zeta. destruct (lift_op _ _ _) as [x d2] eqn:El.
    apply lift_op_outcome in El as [Hl Hx]; [|done|done]. destruct x as [u|err']; [|by intros [= <- <-]].
    apply letter_recorded in Hx. destruct (at_commit_ok e) eqn:Ec; intros [= <- <-]; (split; [done|]); [|split; [done|]]; by right. }
  destruct err as [code|[] ]; cbn [ContractErrorCode]; try (by apply Hdead); intros [= <- <-]; done.
Qed.
#[export] Instance notification_attempts : OrderedAttempts (attempt dec maxAttempts) at_commit_ok reachable later settled.
Proof.
  split; [exact notif_reachable_later|exact notif_later_refl|exact notif_later_trans|exact notif_settled_later|exact notif_attempt_outcome].
Qed.

(** C30: Notification-service loses no event: one poll only runs operations
    whose events were checked; a position is committed only when the event is
    in the inbox or the record among the dead letters; every deferred record
    is still deferred or taken in; and the record fetched is taken in,
    deferred, or fetched again. A record is only fetched from a partition that
    is not paused. *)
Theorem notification_events_are_not_lost envs keys record cancelled alive e q d go q' d' calls :
  reachable d -> (forall r, record = Some r -> q !! partition_of r = None) ->
  notif_pollOnce dec maxAttempts envs keys record cancelled alive e q d = (go, q', d', calls) ->
  advances d d' /\
  (forall r, CommitRecords r true ∈ calls -> settled d' r) /\
  (forall k r, q !! k = Some r -> q' !! k = Some r \/ settled d' r) /\
  (forall r, record = Some r -> settled d' r \/ q' !! partition_of r = Some r \/ SetOffsets r ∈ calls).
Proof.
  intros Hd Hp. unfold notif_pollOnce, notif_retryDeferred.
  assert (forall (q q' : deferred) k (r : kafka_record), q' ⊆ q -> q !! k = Some r -> q' !! k = Some r \/ q' !! k = None) as Hsub.
  { intros q0 q1 k r Hs Hk. destruct (q1 !! k) as [r'|] eqn:E; [|by right]. left. eapply lookup_weaken in E; [|exact Hs]. congruence. }
  destruct record as [r|].
  - specialize (Hp r eq_refl). destruct cancelled.
    { intros [= <- <- <- <-]. split_and!; [by apply rtc_refl|set_solver|by left|intros r' [= <-]; set_solver]. }
    destruct (attempt _ _ e r d) as [v d1] eqn:Ea. apply at_outcome in Ea as [Hr Hv]; [|done]. destruct v.
    + destruct (retry_round _ _ _ _ _) as [[[p q2] d2] c2] eqn:E.
      apply (retry_round_outcome (inv := reachable)) in E as [[R Q S C] _]; [|by eapply notif_reachable_later].
      pose proof (notif_settled_later _ _ _ R Hv) as Hv2. intros [= <- <- <- <-].
      split_and!; [etrans; [apply Hr|apply R]| | |].
      * intros r' [[= ->]|[H|H]%elem_of_app]%elem_of_cons; [done|by eapply C|set_solver].
      * intros k r' Hk. destruct (Hsub _ _ _ _ Q Hk) as [|Hn]; [by left|right; by eapply S].
      * intros r' [= <-]. by left.
    + intros [= <- <- <- <-]. split_and!; [apply Hr|simpl; set_solver|by left|intros r' [= <-]; simpl; set_solver].
    + unfold deferGap. rewrite Hp. intros [= <- <- <- <-]. split_and!; [apply Hr|set_solver| |].
      * intros k r' Hk. left. rewrite lookup_insert_ne by congruence. done.
      * intros r' [= <-]. right; left. apply lookup_insert_eq.
    + intros [= <- <- <- <-]. split_and!; [apply Hr|simpl; set_solver|by left|intros r' [= <-]; simpl; set_solver].
  - destruct (retry_round _ _ _ _ _) as [[[p q2] d2] c2] eqn:E.
    apply (retry_round_outcome (inv := reachable)) in E as [[R Q S C] _]; [|done]. intros [= <- <- <- <-].
    split_and!; [apply R| | |done].
    + intros r' [Hc|Hc]%elem_of_app; [by eapply C|set_solver].
    + intros k r' Hk. destruct (Hsub _ _ _ _ Q Hk) as [|Hn]; [by left|right; by eapply S].
Qed.
End consumer.
