(* ===== verification/NotificationWorker.v ===== *)
(** * notification-service: what lies behind a message

    The worker, the API, the consumer and everything else that shares the
    database keep to a protocol: a message goes out only after the answers
    that justify it, and a job is marked delivered only once the bot took its
    message. The protocol's invariant says what a delivered job therefore
    stands for; turns of the worker and retries an administrator asks for
    ([notif_perform]) are shown to follow it, and the claim is about their
    runs. *)

From Stdlib Require Import Ascii List.
From S2P Require Import Prelude GoStrings Sha256 Backoff Platform GoText Jobs OrderedConsumer.
From S2P Require Import NotificationDomain NotificationStore NotificationInv NotificationSpec NotificationService.

(** ** What the store does to delivered and to older jobs *)

Lemma event_job_from now meta intent d b d' k j' : event_applied now meta intent d b d' -> jobs d' !! k = Some j' ->
  (exists j, jobs d !! k = Some j /\ (j' = j \/ j' = suppressed now j)) \/
  jobs d !! k = None /\ j_status j' <> JDelivered.
Proof.
  intros [r Hr Hh|ins cs js Hn Hu Hc Ha]; [intros Hk; left; exists j'; auto|]. simpl. intros Hk.
  assert (exists j, js !! k = Some j /\ (j' = j \/ j' = suppressed now j)) as (j & Hj & Hor).
  { destruct (in_SupersedesOlder intent); [|exists j'; auto]. rewrite lookup_update_where in Hk.
    destruct (js !! k) as [j|]; [|done]. injection Hk as <-. exists j. split; [done|]. destruct (older_waiting _ _ j); auto. }
  destruct Ha as [k0 j0 _ _|st reason _ Hnone Hst _ _]; [left; eauto|].
  apply lookup_insert_Some in Hj as [[<- <-]|[_ H]]; [|left; eauto]. right. split; [done|].
  destruct Hor as [->| ->]; cbn; [|done]. by destruct Hst as [->|[-> _]].
Qed.
(** Only the end of an attempt makes a job delivered. *)
Lemma delivered_from d o d' k j : effect d o d' -> jobs d' !! k = Some j -> j_status j = JDelivered ->
  (exists j0, jobs d !! k = Some j0 /\ j_status j0 = JDelivered) \/ exists now c, o = OpComplete now k c.
Proof.
  intros He Hk Hd. destruct He as [o|now meta intent b d' H|now t p f h ty r d' H|now l k0 c r d' H|o now k0 c st r dl d' H1 H2 H Ho|now k0 key h r d' H].
  - left; eauto.
  - destruct (event_job_from _ _ _ _ _ _ _ _ H Hk) as [(j0 & Hj0 & [->| ->])|[_ Hn]]; [left; eauto|done|done].
  - destruct H; left; eauto.
  - destruct H as [|locked k1 j1 Hf Hk1 Hc]; [left; eauto|]. simpl in Hk. apply lookup_insert_Some in Hk as [[_ <-]|[_ Hk]]; [done|left; eauto].
  - destruct H as [j0 Hj0 Hh Hc]. simpl in Hk. apply lookup_insert_Some in Hk as [[<- <-]|[_ Hk]]; [|left; eauto].
    unfold concluded in Hd. destruct (demoted _ _ _); [done|]. cbn in Hd. subst st.
    destruct o; naive_solver.
  - destruct H as [|j0 _ Hj0 Hs _]; [left; eauto|]. simpl in Hk. apply lookup_insert_Some in Hk as [[_ <-]|[_ Hk]]; [done|left; eauto].
Qed.

(** Every job of the stream before [b] is over. *)
Definition cleared (b : job_row) (d : db) : Prop := forall k a, jobs d !! k = Some a -> before a b -> unfinished a = false.
Lemma cleared_effect k b d o d' : Inv d -> allowed o -> effect d o d' -> jobs d !! k = Some b -> cleared b d ->
  exists b', jobs d' !! k = Some b' /\ ident b' = ident b /\ cleared b' d'.
Proof.
  intros HI Ho He Hk Hcl. destruct (effect_good _ _ _ HI Ho He) as [_ HK].
  destruct (kp_jobs _ _ HK _ _ Hk) as (b' & Hb' & Hst%rtc_job_ident). exists b'. split_and!; [done|done|].
  destruct (ident_fields _ _ Hst) as (_ & _ & E1 & E2 & _). intros k' a Ha Hab.
  assert (before a b) as Hab0 by (destruct Hab; split; congruence).
  destruct (jobs d !! k') as [a0|] eqn:Ha0.
  - destruct (kp_jobs _ _ HK _ _ Ha0) as (a' & Ha' & Hsa%rtc_job_ident). assert (a' = a) as -> by congruence.
    destruct (ident_fields _ _ Hsa) as (_ & _ & F1 & F2 & _).
    assert (before a0 b) as Hb0 by (destruct Hab0; split; congruence).
    assert (jobs d' !! k' = Some a0) as H by (eapply passed_effect; [done|exact He|]; split_and!; eauto).
    assert (a0 = a) as -> by congruence. eauto.
  - destruct He as [o|now meta intent ins d' H|now t p f h ty r d' H|now l k0 c r d' H|o now k0 c st r dl d' H1 H2 H _|now k0 key h r d' H].
    + congruence.
    + destruct H as [r|ins cs js Hn Hu Hc Hadd]; [congruence|]. simpl in Ha.
      destruct (job_added_from now meta intent (jobs d) ins js k' a Hadd Ha) as [a0 Hfrom Hi _ _ Hu0 _ _].
      destruct Hfrom as [Hfrom|(_ & _ & st & reason & -> & Hst' & _)]; [congruence|].
      destruct (ident_fields _ _ Hi) as (_ & _ & F1 & F2 & _).
      destruct (unfinished a) eqn:Ea; [|done]. exfalso. specialize (Hu0 eq_refl).
      assert (before (new_job now meta intent st reason) b) as Hb0 by (destruct Hab0; split; congruence).
      pose proof (no_late_job now meta intent _ _ _ (inv_jobs _ HI) Ho Hc st reason _ _ Hk Hb0) as Hl.
      destruct Hst' as [->|[-> Hl']]; [done|congruence].
    + destruct H; simpl in Ha; congruence.
    + destruct H as [|locked k1 j Hf Hk1 Hck]; [congruence|]. simpl in Ha. pose proof (jo_key _ _ (inv_jobs _ HI) _ _ Hk1) as E.
      apply lookup_insert_Some in Ha as [[E' _]|[_ Ha]]; congruence.
    + destruct H as [j Hj _ _]. simpl in Ha. apply lookup_insert_Some in Ha as [[E' _]|[_ Ha]]; congruence.
    + destruct H as [|j _ Hj _ _]; [congruence|]. simpl in Ha. apply lookup_insert_Some in Ha as [[E' _]|[_ Ha]]; congruence.
Qed.

(** ** The protocol *)

(** What makes a message right: the claim under which it is sent, the address
    its user has, and, for a message about a subscription or a credential,
    that it still tells the truth. [pre] is what was on record before. *)
Definition justified (pre : list trace_entry) (claimID k : string) (chat : Z) (ty : string) (version : Z) (text : string) : Prop :=
  exists job target,
    Claimed claimID job ∈ pre /\ jb_NotificationID job = k /\ jb_NotificationType job = ty /\ jb_TemplateVersion job = version /\
    Render ty version (jb_Variables job) = Some text /\
    Target claimID (jb_UserID job) target ∈ pre /\ tt_Eligible target = true /\ tt_TelegramChatID target = chat /\
    (forall subscriptionID, isSubscriptionStateSensitive ty = true -> jb_SubscriptionID job = Some subscriptionID ->
       exists state, State claimID (jb_UserID job) subscriptionID state ∈ pre /\ subscriptionNotificationCurrent job state = true) /\
    (forall subscriptionID credentialID, ready_type ty = true ->
       jb_SubscriptionID job = Some subscriptionID -> jb_CredentialID job = Some credentialID ->
       Ready claimID subscriptionID credentialID true ∈ pre).
Definition valid_target (target : TelegramTarget) : Prop := tt_Eligible target = true -> 0 < tt_TelegramChatID target.
Definition answer (e : trace_entry) : Prop :=
  match e with
  | Target _ _ target => valid_target target
  | State _ _ _ _ | Ready _ _ _ _ => True
  | _ => False
  end.
Definition with_db (d : db) (s : sys) : sys := MkSys d (s_trace s).
Definition accepted (k claimID : string) (trace : list trace_entry) : Prop :=
  exists chat ty version text, Sent claimID k chat ty version text true ∈ trace.
Inductive sys_step (s : sys) : sys -> Prop :=
  | StepStore o : plain_op o -> sys_step s (with_db (snd (exec o (s_db s))) s)
  | StepClaim now lease locked claimID : sys_step s
      (match in_tx (ClaimJob now lease locked claimID) (s_db s) with
       | (Ok (Some job), d) => MkSys d (Claimed claimID job :: s_trace s)
       | (_, d) => with_db d s
       end)
  | StepAnswer e : answer e -> sys_step s (push e s)
  | StepSend claimID k chat ty version text ok : justified (s_trace s) claimID k chat ty version text ->
      sys_step s (push (Sent claimID k chat ty version text ok) s)
  | StepComplete now k claimID : accepted k claimID (s_trace s) -> sys_step s (with_db (snd (exec (OpComplete now k claimID) (s_db s))) s).

(** A claimed job is a row of the table, as it stood, and everything before it
    in its stream is over. *)
Definition known_job (job : Job) (d : db) : Prop := exists b b0, jobs d !! jb_NotificationID job = Some b /\
  ident b0 = ident b /\ job = job_of zero_uuid b0 /\ cleared b d.
Record sys_inv (s : sys) : Prop := {
  si_db : reachable (s_db s);
  si_claims : forall claimID job, Claimed claimID job ∈ s_trace s -> known_job job (s_db s);
  si_targets : forall claimID user target, Target claimID user target ∈ s_trace s -> valid_target target;
  si_sent : forall post claimID k chat ty version text ok pre, s_trace s = post ++ Sent claimID k chat ty version text ok :: pre ->
    justified pre claimID k chat ty version text;
  si_order : forall post claimID job pre, s_trace s = post ++ Claimed claimID job :: pre ->
    forall claimID' job', Claimed claimID' job' ∈ pre -> jb_DeliveryStream job = jb_DeliveryStream job' ->
    jb_DeliverySequence job' <= jb_DeliverySequence job;
  si_delivered : forall k j, jobs (s_db s) !! k = Some j -> j_status j = JDelivered -> exists claimID, accepted k claimID (s_trace s)
}.

Lemma known_exec job d o : reachable d -> allowed o -> known_job job d -> known_job job (snd (exec o d)).
Proof.
  intros Hd%notif_reachable_inv Ho (b & b0 & Hb & Hi & -> & Hc). destruct (notif_exec_effect o d) as [[e ->]|(d' & He & ->)]; [by exists b, b0|].
  destruct (cleared_effect _ _ _ _ _ Hd Ho He Hb Hc) as (b' & Hb' & Hi' & Hc'). exists b', b0. split_and!; [done|congruence|done|done].
Qed.
(** The store moves on, the record stays or gets one more claim. *)
Lemma inv_store o s : sys_inv s -> allowed o ->
  (forall now k claimID, o = OpComplete now k claimID -> accepted k claimID (s_trace s)) ->
  sys_inv (with_db (snd (exec o (s_db s))) s).
Proof.
  intros [D C T S O L] Ho Hc. split; simpl; try done.
  - by apply reaches_step.
  - intros claimID job H. apply known_exec; eauto.
  - intros k j Hk Hd. destruct (notif_exec_effect o (s_db s)) as [[e E]|(d' & He & E)]; rewrite E in Hk; [eauto|].
    destruct (delivered_from _ _ _ _ _ He Hk Hd) as [(j0 & H0 & H1)|(now & c & ->)]; [eauto|].
    exists c. by eapply Hc.
Qed.
Lemma claim_exec now lease locked claimID r d d' : in_tx (ClaimJob now lease locked claimID) d = (r, d') ->
  snd (exec (OpClaim now lease locked claimID) d) = d'.
Proof. intros H. cbn [exec]. unfold outcome. rewrite H. by destruct r. Qed.
Lemma claim_known now lease locked claimID d job d' : Inv d -> in_tx (ClaimJob now lease locked claimID) d = (Ok (Some job), d') ->
  known_job job d'.
Proof.
  intros HI Hc. pose proof (claim_exec _ _ _ _ _ _ _ Hc) as Hex. destruct (notif_exec_good (OpClaim now lease locked claimID) d HI I) as [HI' _].
  rewrite Hex in HI'. unfold in_tx in Hc. destruct (ClaimJob _ _ _ _ _) as [x t'] eqn:E. destruct x as [r|e]; [|done]. injection Hc as -> <-.
  apply ClaimJob_ok in E as (d' & H & Ht). cbn [working] in H. inversion H as [|locked' k0 b0 Hf Hk Hck]; subst.
  assert (jobs (durable t') !! j_id b0 = Some (claimed now lease claimID b0)) as Hb.
  { destruct Ht as [->|[Ew ->]]; simpl; [apply lookup_insert_eq|]. cbn [working] in Ew. rewrite <- Ew at 1. apply lookup_insert_eq. }
  exists (claimed now lease claimID b0), (claimed now lease claimID b0). split_and!; [done|done|done|].
  intros k a Ha Hab. eapply (jo_order _ _ (inv_jobs _ HI')); [exact Ha|exact Hb|exact Hab|].
  simpl. pose proof (jo_checks _ _ (inv_jobs _ HI) _ _ Hk) as Hc0. unfold job_checks in Hc0. rewrite !andb_true_iff in Hc0. lia.
Qed.
(** A job is not handed out when one after it in its stream was. *)
Lemma claim_after now lease locked claimID d job d' job' : Inv d -> in_tx (ClaimJob now lease locked claimID) d = (Ok (Some job), d') ->
  known_job job' d -> jb_DeliveryStream job = jb_DeliveryStream job' -> jb_DeliverySequence job' <= jb_DeliverySequence job.
Proof.
  intros HI Hc (b & b1 & Hb & Hi & -> & Hcl) Es. unfold in_tx in Hc. destruct (ClaimJob _ _ _ _ _) as [x t'] eqn:E.
  destruct x as [r|e]; [|done]. injection Hc as -> _. apply ClaimJob_ok in E as (d1 & H & _). cbn [working] in H.
  inversion H as [|locked' k0 b0 Hf Hk Hck]; subst. cbn in *. apply first_by_Some in Hf as [[Hu _]%claimable_facts _].
  destruct (ident_fields _ _ Hi) as (_ & _ & E1 & E2 & _). destruct (Z.le_gt_cases (j_sequence b1) (j_sequence b0)) as [|Hlt]; [done|].
  exfalso. rewrite (Hcl _ _ Hk) in Hu; [done|]. split; [congruence|lia].
Qed.
(** One more entry on record. *)
Lemma inv_push e s : sys_inv s -> (forall claimID job, e = Claimed claimID job -> known_job job (s_db s) /\
    forall claimID' job', Claimed claimID' job' ∈ s_trace s -> jb_DeliveryStream job = jb_DeliveryStream job' ->
    jb_DeliverySequence job' <= jb_DeliverySequence job) ->
  (forall claimID user target, e = Target claimID user target -> valid_target target) ->
  (forall claimID k chat ty version text ok, e = Sent claimID k chat ty version text ok ->
     justified (s_trace s) claimID k chat ty version text) ->
  sys_inv (push e s).
Proof.
  intros [D C T S O L] H1 H2 H3. split; simpl; try done.
  - intros claimID job [E|H]%elem_of_cons; [by apply (H1 claimID)|by eapply C].
  - intros claimID user target [E|H]%elem_of_cons; [by eapply H2|by eapply T].
  - intros post claimID k chat ty version text ok pre E. destruct post as [|e' post]; injection E as -> E; [|by eapply S].
    subst pre. by eapply H3.
  - intros post claimID job pre E. destruct post as [|e' post]; injection E as -> E; [|by eapply O].
    subst pre. by eapply H1.
  - intros k j Hk Hd. destruct (L k j Hk Hd) as (c & chat & ty & version & text & H). exists c, chat, ty, version, text.
    by apply elem_of_cons; right.
Qed.
Lemma sys_step_keeps s s' : sys_step s s' -> sys_inv s -> sys_inv s'.
Proof.
  intros Hs HJ. destruct Hs as [o Ho|now lease locked claimID|e He|claimID k chat ty version text ok Hj|now k claimID Ha].
  - apply inv_store; [done|by destruct o|]. intros now k c ->. done.
  - destruct (in_tx _ _) as [r d'] eqn:E. pose proof (claim_exec _ _ _ _ _ _ _ E) as Hd.
    assert (sys_inv (with_db d' s)) as HJ' by (rewrite <- Hd; by apply inv_store).
    pose proof (notif_reachable_inv _ (si_db _ HJ)) as HI. destruct r as [[job|]|e]; [|done..].
    apply (inv_push _ (with_db d' s)); [done| |done|done]. intros c j [= -> ->]. cbn. split; [by eapply claim_known|].
    intros c' j' Hj' Es. eapply claim_after; [done|exact E|by eapply si_claims|done].
  - apply inv_push; [done|..]; intros; subst e; done.
  - apply inv_push; [done..|]. by intros ??????? [= <- <- <- <- <- <- <-].
  - apply inv_store; [done..|]. by intros ??? [= <- <- <-].
Qed.
#[export] Instance notification_protocol : Protocol sys := {| pstep := sys_step; pinv := sys_inv; pstep_keeps := sys_step_keeps |}.

(** *** What others cannot take back *)

Lemma step_grows s s' e : sys_step s s' -> e ∈ s_trace s -> e ∈ s_trace s'.
Proof.
  intros Hs He. destruct Hs as [o Ho|now lease locked claimID|e' He'|claimID k chat ty version text ok Hj|now k claimID Ha]; simpl;
    try (apply elem_of_cons; by right); try done.
  destruct (in_tx _ _) as [[[job|]|x] d']; simpl; [apply elem_of_cons; by right|done..].
Qed.
Lemma stable_on_record e : stable (fun s => e ∈ s_trace s).
Proof. intros s s' _ Hs. by apply step_grows. Qed.
Lemma stable_accepted k claimID : stable (fun s => accepted k claimID (s_trace s)).
Proof. intros s s' _ Hs (chat & ty & version & text & H). exists chat, ty, version, text. by eapply step_grows. Qed.

(** ** The worker's turn *)

Lemma valid_response cdec r target : GetNotificationTarget cdec r = Some target -> valid_target target.
Proof.
  unfold GetNotificationTarget. destruct r as [[status body]|]; [|done]. cbn. destruct (negb _); [done|].
  destruct (strict _ _) as [p|]; [|done]. cbn. destruct (tb_Eligible p && _) eqn:E1; [done|].
  destruct (negb (tb_Eligible p) && _); [done|]. destruct (match tb_Locale p with Some _ => _ | None => _ end); [done|].
  intros [= <-]. intros He. cbn in *. rewrite He in E1. apply orb_false_iff in E1 as [E1 _]. destruct (tb_TelegramChatID p); [cbn; lia|done].
Qed.

Section worker.
Context (cdec : client_decoders) (between : nat -> sys -> sys) (lease retryBase : Z) (env : worker_env).
Context (Hrely : relies between).
Let me : string := claimID env.

(** A report on an attempt that is not a success. *)
Lemma triple_report {A} P links (m : nat -> notif_tx A) (o : nat -> op) : (forall i, plain_op (o i)) ->
  (forall i d, exec (o i) d = outcome (m i) d) ->
  triple P (call_store between s_db (fun d s => MkSys d (s_trace s)) links (ErrSQL "unavailable") m) (fun _ _ => True).
Proof.
  intros Ho He. apply (triple_weaken P (fun _ => True)); [|done].
  eapply triple_forget, (triple_call_store between s_db (fun d s => MkSys d (s_trace s)) links (ErrSQL "unavailable") Hrely
    (fun _ => True) m (fun _ _ => True)); [by intros ? ?| |done].
  intros i s x d' _ _ Hr. apply rtc_once. replace d' with (snd (exec (o i) (s_db s))); [by apply StepStore|].
  rewrite He. unfold outcome. rewrite Hr. by destruct x.
Qed.
Lemma triple_retryOrFail P j err : triple P (retryOrFail between retryBase env j err) (fun _ _ => True).
Proof.
  unfold retryOrFail. destruct (_ || _).
  - by apply (triple_report P _ _ (fun i => OpFail (wk_now env i) (jb_NotificationID j) (jb_ClaimID j) (de_Code err))).
  - cbv zeta. set (delay := if fifteen_minutes <? _ then _ else _).
    by apply (triple_report P _ _ (fun i => OpRetryLater (wk_now env i) (jb_NotificationID j) (jb_ClaimID j) delay)).
Qed.
Lemma triple_suppress P j reason : triple P (suppress between env j reason) (fun _ _ => True).
Proof. by apply (triple_report P _ _ (fun i => OpSuppress (wk_now env i) (jb_NotificationID j) (jb_ClaimID j) reason)). Qed.
Lemma triple_inquire {A} P (f : nat -> option A) (entry : A -> trace_entry) : stable P ->
  (forall i a, f i = Some a -> answer (entry a)) ->
  triple P (inquire between f entry) (fun r s => P s /\ forall a, r = Some a -> entry a ∈ s_trace s).
Proof.
  intros HP Ha. apply (triple_call between Hrely P); [done|]. intros i s r s' HJ Hs. destruct (f i) as [a|] eqn:Ef; intros [= <- <-].
  - split; [apply rtc_once, StepAnswer; eauto|]. intros _ a' [= <-]. apply elem_of_cons. by left.
  - split; [apply rtc_refl|done].
Qed.
Lemma notif_triple_claim : triple (fun _ => True) (claim between lease env) (fun r s =>
  forall job, r = Ok (Some job) -> Claimed me job ∈ s_trace s /\ jb_ClaimID job = me).
Proof.
  eapply triple_conseq.
  - apply (triple_call between Hrely (fun _ => True) _ (fun r s => forall job, r = Ok (Some job) -> Claimed me job ∈ s_trace s /\ jb_ClaimID job = me)); [by intros ? ?|].
    intros i s r s' HJ _. destruct (wk_link env i) eqn:El; [|intros [= <- <-]; split; [apply rtc_refl|done]|].
    all: destruct (in_tx _ _) as [y d'] eqn:E; intros [= <- <-]; pose proof (StepClaim s (wk_now env i) lease (wk_locked env i) me) as Hst;
      fold me in E; rewrite E in Hst; (split; [apply rtc_once; destruct y as [[job|]|]; exact Hst|]); intros _ job.
    2: by intros [=].
    intros ->. split; [apply elem_of_cons; by left|].
    unfold in_tx in E. destruct (ClaimJob _ _ _ _ _) as [x t'] eqn:Ex. destruct x as [r|e]; [|done]. injection E as -> _.
    apply ClaimJob_ok in Ex as (d1 & H & _). by inversion H.
  - done.
  - by intros r s _ [_ H].
Qed.

(** What the worker has learned of a message so far. *)
Definition addressed (j : Job) (target : TelegramTarget) (s : sys) : Prop :=
  Claimed me j ∈ s_trace s /\ Target me (jb_UserID j) target ∈ s_trace s.
Definition current (j : Job) (s : sys) : Prop :=
  forall subscriptionID, isSubscriptionStateSensitive (jb_NotificationType j) = true -> jb_SubscriptionID j = Some subscriptionID ->
    exists state, State me (jb_UserID j) subscriptionID state ∈ s_trace s /\ subscriptionNotificationCurrent j state = true.
Definition ready (j : Job) (s : sys) : Prop :=
  forall subscriptionID credentialID, ready_type (jb_NotificationType j) = true -> jb_SubscriptionID j = Some subscriptionID ->
    jb_CredentialID j = Some credentialID -> Ready me subscriptionID credentialID true ∈ s_trace s.
Lemma stable_addressed j target : stable (addressed j target).
Proof. apply stable_and; apply stable_on_record. Qed.
Lemma stable_current j : stable (current j).
Proof. intros s s' _ Hs H sub H1 H2. destruct (H sub H1 H2) as (st & H3 & H4). exists st. split; [by eapply step_grows|done]. Qed.
Lemma stable_deliverable j : stable (ready j).
Proof. intros s s' _ Hs H sub cred H1 H2 H3. eapply step_grows; eauto. Qed.

Lemma triple_send j target : jb_ClaimID j = me -> tt_Eligible target = true ->
  triple (fun s => addressed j target s /\ current j s /\ ready j s) (send cdec between retryBase env j target) (fun _ _ => True).
Proof.
  intros Hme Hel. assert (stable (fun s => addressed j target s /\ current j s /\ ready j s)) as HP
    by (apply stable_and; [apply stable_addressed|apply stable_and; [apply stable_current|apply stable_deliverable]]).
  unfold send. destruct (Render _ _ _) as [text|] eqn:Hr.
  2: { by apply (triple_report _ _ _ (fun i => OpFail (wk_now env i) (jb_NotificationID j) (jb_ClaimID j) "invalid_template")). }
  eapply triple_bind with (R := fun r s => is_ok r = true -> accepted (jb_NotificationID j) me (s_trace s)).
  - eapply triple_conseq.
    + apply (triple_call between Hrely _ _ (fun r s => is_ok r = true -> accepted (jb_NotificationID j) me (s_trace s)) HP).
      intros i s r s' HJ ([Hc Ht] & Hcur & Hrdy) E. injection E as <- <-. split.
      * apply rtc_once, StepSend. exists j, target. split_and!; try done.
      * intros _ Hok. rewrite Hok. exists (tt_TelegramChatID target), (jb_NotificationType j), (jb_TemplateVersion j), text. apply elem_of_cons. by left.
    + done.
    + by intros r s _ [_ H].
  - intros [replayed|err]; [|apply triple_retryOrFail].
    eapply triple_weaken with (P' := fun s => accepted (jb_NotificationID j) me (s_trace s)); [|intros s H; by apply H].
    eapply triple_forget, (triple_call_store between s_db (fun d s => MkSys d (s_trace s)) (wk_link env) (ErrSQL "unavailable") Hrely _
        (fun i => CompleteJob (wk_now env i) (jb_NotificationID j) (jb_ClaimID j)) (fun _ _ => True)); [apply stable_accepted| |done].
    intros i s x d' _ Ha Hx. apply rtc_once.
    replace d' with (snd (exec (OpComplete (wk_now env i) (jb_NotificationID j) (jb_ClaimID j)) (s_db s))).
    + apply StepComplete. by rewrite Hme.
    + cbn [exec]. unfold outcome. rewrite Hx. by destruct x.
Qed.
(** A check that does not apply to the message. *)
Ltac unchecked next := eapply triple_weaken; [by apply next|]; intros s Hs; repeat split; try apply Hs;
  unfold current, ready; congruence.
Lemma triple_check_access j target : jb_ClaimID j = me -> tt_Eligible target = true ->
  triple (fun s => addressed j target s /\ current j s) (check_access cdec between retryBase env j target) (fun _ _ => True).
Proof.
  intros Hme Hel. assert (stable (fun s => addressed j target s /\ current j s)) as HP
    by (apply stable_and; [apply stable_addressed|apply stable_current]).
  unfold check_access.
  destruct (ready_type (jb_NotificationType j)) eqn:Ety; [|unchecked (triple_send j target)].
  destruct (jb_SubscriptionID j) as [sub|] eqn:Es; [|unchecked (triple_send j target)].
  destruct (jb_CredentialID j) as [cred|] eqn:Ec; [|unchecked (triple_send j target)].
  eapply triple_bind; [by apply triple_inquire|]. intros [[|]|].
  - eapply triple_weaken; [by apply (triple_send j target)|]. intros s [[H1 H2] H3]. split_and!; [done|done|].
    unfold ready. intros sub' cred' _ E1 E2. rewrite Es in E1. rewrite Ec in E2. injection E1 as <-. injection E2 as <-. by apply H3.
  - apply triple_suppress.
  - apply triple_retryOrFail.
Qed.
Lemma triple_check_subscription j target : jb_ClaimID j = me -> tt_Eligible target = true ->
  triple (addressed j target) (check_subscription cdec between retryBase env j target) (fun _ _ => True).
Proof.
  intros Hme Hel. unfold check_subscription.
  destruct (isSubscriptionStateSensitive (jb_NotificationType j)) eqn:Ety; [|unchecked (triple_check_access j target)].
  destruct (jb_SubscriptionID j) as [sub|] eqn:Es; [|unchecked (triple_check_access j target)].
  eapply triple_bind; [apply triple_inquire; [apply stable_addressed|done]|]. intros [state|].
  - destruct (subscriptionNotificationCurrent j state) eqn:Ecur.
    + eapply triple_weaken; [by apply (triple_check_access j target)|]. intros s [H1 H3]. split; [done|].
      unfold current. intros sub' _ E1. rewrite Es in E1. injection E1 as <-. exists state. auto.
    + apply triple_suppress.
  - apply triple_retryOrFail.
Qed.
Lemma notif_triple_workOnce : triple (fun _ => True) (workOnce cdec between lease retryBase env) (fun _ _ => True).
Proof.
  unfold workOnce. eapply triple_bind; [apply notif_triple_claim|]. intros [[j|]|e]; [|apply triple_done..].
  eapply triple_bind with (R := fun r s => (Claimed me j ∈ s_trace s /\ jb_ClaimID j = me) /\
    forall target, r = Some target -> Target me (jb_UserID j) target ∈ s_trace s).
  - eapply triple_conseq; [apply (triple_inquire (fun s => Claimed me j ∈ s_trace s /\ jb_ClaimID j = me))|..].
    + apply stable_and; [apply stable_on_record|apply stable_pure].
    + intros i target. apply valid_response.
    + intros s H. by apply H.
    + done.
  - intros [target|]; [|apply triple_retryOrFail].
    destruct (tt_Eligible target) eqn:Hel; cbn [negb];
      [|apply triple_suppress].
    intros w x w' HJ [[H1 H2] H3]. apply (triple_check_subscription j target H2 Hel w x w' HJ). split; auto.
Qed.
End worker.

(** ** What the protocol comes to *)

Definition start : sys := MkSys empty_db [].
Lemma start_inv : sys_inv start.
Proof.
  split; simpl; try done; try (by intros ?? H%elem_of_nil); try (by intros ??? H%elem_of_nil); try (by intros [|??]).
  constructor.
Qed.
Lemma started_inv s : rtc sys_step start s -> sys_inv s.
Proof. generalize start_inv. intros HI H. induction H as [|s s1 s2 Hs _ IH]; [done|]. apply IH. by eapply sys_step_keeps. Qed.

(** What the service does with its jobs: a turn of the worker, or an
    administrator's request to retry one. *)
Inductive notif_activity :=
  | WorkerTurn (lease retryBase : Z) (env : worker_env)
  | ServeRetry (links : nat -> link) (now : nat -> Z) (decode_retry : string -> option string) (id key body : string).
Section activities.
Context (cdec : client_decoders) (between : nat -> sys -> sys) (Hrely : relies between).
Definition notif_perform (a : notif_activity) : job sys unit :=
  match a with
  | WorkerTurn lease retryBase env => _ ← workOnce cdec between lease retryBase env; mret tt
  | ServeRetry links now decode_retry id key body => _ ← http_RetryNotification between links now decode_retry id key body; mret tt
  end.
(** Every part of the service keeps to that protocol, as long as the
    others do: a turn of the worker at any point where calls fail or answers
    are lost, a retry an administrator asks for, and whatever the consumer
    lets the store do. *)
Theorem notification_service_keeps_protocol a d d' trace :
  advances d d' ->
  triple (fun _ => True) (notif_perform a) (fun _ _ => True) /\ rtc sys_step (MkSys d trace) (MkSys d' trace).
Proof.
  intros Hd. split; [destruct a as [lease retryBase env|links now decode_retry id key body]; cbn [notif_perform]; (eapply triple_seq; [|intros r; apply triple_done])|].
  - by apply notif_triple_workOnce.
  - unfold http_RetryNotification. cbv zeta. destruct (_ || _); [apply triple_done|]. destruct (decodeStrict _ _) as [reason|]; [|apply triple_done].
    destruct (_ || _); [apply triple_done|]. eapply triple_bind; [|intros r; apply triple_done].
    by apply (triple_report between Hrely _ _ _ (fun i => OpRequestRetry (now i) (TrimSpace id) (TrimSpace key) (retry_hash (TrimSpace id) (TrimSpace reason)))).
  - induction Hd as [|d1 d2 d3 (o & Ho & ->) _ IH]; [done|]. eapply rtc_l; [|exact IH]. by apply (StepStore (MkSys d1 trace)).
Qed.
End activities.

(** C14: Whatever the other parts of the service do between its calls, a turn of
    the worker, or a retry an administrator asks for, keeps to the protocol,
    and afterwards every delivered notification was accepted by the bot; its
    text is what the template makes of the recorded facts, its address the one
    identity-service gave for its user, and subscription-service and
    access-service had said under the same claim, before it went out, that it
    still tells the truth. And the deliveries of one stream are handed out in
    the order of their numbers. *)
Theorem delivered_messages_are_justified cdec between a w w' :
  relies between -> rtc sys_step start (w_state w) -> notif_perform cdec between a w = (tt, w') ->
  let s := w_state w' in
  rtc sys_step (w_state w) s /\
  (forall k j, jobs (s_db s) !! k = Some j -> j_status j = JDelivered ->
     exists claimID target text post pre,
       s_trace s = post ++ Sent claimID k (tt_TelegramChatID target) (j_type j) (j_template_version j) text true :: pre /\
       Render (j_type j) (j_template_version j) (j_variables j) = Some text /\
       Target claimID (j_user_id j) target ∈ pre /\ tt_Eligible target = true /\ 0 < tt_TelegramChatID target /\
       (forall subscriptionID, isSubscriptionStateSensitive (j_type j) = true -> j_subscription_id j = Some subscriptionID ->
          exists state, State claimID (j_user_id j) subscriptionID state ∈ pre /\
            subscriptionNotificationCurrent (job_of zero_uuid j) state = true) /\
       (forall subscriptionID credentialID, ready_type (j_type j) = true -> j_subscription_id j = Some subscriptionID ->
          j_credential_id j = Some credentialID -> Ready claimID subscriptionID credentialID true ∈ pre)) /\
  (forall post claimID job pre claimID' job', s_trace s = post ++ Claimed claimID job :: pre -> Claimed claimID' job' ∈ pre ->
     jb_DeliveryStream job = jb_DeliveryStream job' -> jb_DeliverySequence job' <= jb_DeliverySequence job).
Proof.
  intros Hrely Hw Hr s.
  destruct (notification_service_keeps_protocol cdec between Hrely a empty_db empty_db [] (rtc_refl _ _)) as [Ht _].
  destruct (Ht w tt w' (started_inv _ Hw) I Hr) as [Hsteps _]. split; [exact Hsteps|].
  assert (sys_inv s) as Hs by (apply started_inv; by etrans). split.
  - intros k j Hk Hd. destruct (si_delivered _ Hs k j Hk Hd) as (c & chat & ty & version & text & Hin).
    apply list_elem_of_split in Hin as (post & pre & E). destruct (si_sent _ Hs _ _ _ _ _ _ _ _ _ E) as
      (job & target & H1 & H2 & H3 & H4 & H5 & H6 & H7 & H8 & H9 & H10).
    destruct (si_claims _ Hs c job) as (b & b0 & Hb & Hi & -> & _); [rewrite E; set_solver|].
    cbn in H2, Hb. rewrite H2 in Hb. assert (b = j) as -> by congruence. cbn in H3, H4, H5, H6, H9, H10.
    assert (j_template_version b0 = j_template_version j /\ j_subscription_id b0 = j_subscription_id j /\
      j_credential_id b0 = j_credential_id j) as (F1 & F2 & F3)
      by (split_and!; [apply (f_equal j_template_version) in Hi|apply (f_equal j_subscription_id) in Hi|apply (f_equal j_credential_id) in Hi]; exact Hi).
    destruct (ident_fields _ _ Hi) as (_ & _ & _ & _ & _ & _ & _ & F4 & F5 & F6).
    exists c, target, text, post, pre. subst ty version chat.
    rewrite F1, F5 in E. rewrite F1, F5, F6 in H5. rewrite F4 in H6. rewrite F2, F4, F5 in H9. rewrite F2, F3, F5 in H10.
    split_and!; [exact E|exact H5|exact H6|exact H7| | |exact H10].
    + eapply (si_targets _ Hs c (j_user_id j)); [|done]. rewrite E. set_solver.
    + intros sub G1 G2. destruct (H9 sub G1 G2) as (st & G3 & G4). exists st. split; [done|].
      revert G4. unfold subscriptionNotificationCurrent. cbn. by rewrite F5, F6.
  - intros post c job pre c' job' E. by eapply si_order.
Qed.
