(* ===== verification/NotificationDemo.v ===== *)
(** * notification-service: a run from the event to the chat

    A payment is announced, a subscription extended and then ended; the worker
    sends what still holds and drops the rest. *)

From Stdlib Require Import Ascii List.
From S2P Require Import Prelude GoStrings Sha256 Backoff Platform GoText Jobs OrderedConsumer.
From S2P Require Import NotificationDomain NotificationStore NotificationInv NotificationSpec NotificationService NotificationJobs NotificationWorker.

Module NotificationRuns.

Definition uid (n : string) : string := ("00000000-0000-4000-8000-0000000000" +:+ n)%string.
Definition user_id : string := uid "02".
Definition sub_id : string := uid "01".
Definition pay_id : string := uid "05".
Definition day (n : Z) : Z := (days_of 2026 7 n) * 24 * 60 * minute.
Definition envelope (id topic producer agg agg_id : string) (sequence : Z) (data : string) : Envelope string :=
  MkEnvelope (uid id) topic 1 (day 1) producer (uid "0a") None agg agg_id sequence ("user:" +:+ user_id) data.
Definition envelopes (s : string) : option (Envelope string) :=
  if bool_decide (s = "paid"%string) then Some (envelope "21" "billing.payment.succeeded.v1" "billing-service" "payment" pay_id 0 s)
  else if bool_decide (s = "extended"%string) then
    Some (envelope "22" "subscription.extended.v1" "subscription-service" "subscription" sub_id 1 s)
  else if bool_decide (s = "expired"%string) then
    Some (envelope "23" "subscription.expired.v1" "subscription-service" "subscription" sub_id 2 s)
  else None.
Definition only {A} (text : string) (a : A) (s : string) : option A := if bool_decide (s = text) then Some a else None.
Definition demo_decoders : decoders := MkDecoders envelopes (fun _ => None)
  (only "paid" (MkPayment pay_id (uid "04") user_id (uid "06") 49900 "RUB" (day 1))) (fun _ => None)
  (only "extended" (MkPeriod sub_id user_id (uid "03") (uid "04") pay_id (day 1) (day 31) (day 33)))
  (fun _ => None) (only "expired" (MkTerminal sub_id user_id "period_elapsed" [uid "03"] (day 33)))
  (fun _ => None) (fun _ => None) (fun _ => None).
Definition record (topic : string) (offset : Z) (value : string) : kafka_record :=
  MkRecord topic 0 offset ("user:" +:+ user_id) value.
Definition paid_record := record "billing.payment.succeeded.v1" 3 "paid".
Definition extended_record := record "subscription.extended.v1" 7 "extended".
Definition expired_record := record "subscription.expired.v1" 2 "expired".
Definition demo_attempt (now byte : Z) : attempt_env := MkAttempt now (repeat byte 16) true true true.
Definition at_once (now byte : Z) (r : kafka_record) (d : db) : verdict * db := attempt demo_decoders 0 (demo_attempt now byte) r d.

Definition d_paid : db := Eval vm_compute in snd (at_once (day 2) 17 paid_record empty_db).
Definition d_extended : db := Eval vm_compute in snd (at_once (day 2) 18 extended_record d_paid).
Example taken_in : fst (at_once (day 2) 17 paid_record empty_db) = Committed /\ fst (at_once (day 2) 18 extended_record d_paid) = Committed /\
  fst (at_once (day 2) 19 expired_record d_paid) = Gap /\
  map_to_list (j_type <$> jobs d_extended) = [(RandomUUID (repeat 17 16), "payment_confirmed"); (RandomUUID (repeat 18 16), "subscription_extended")]%string.
Proof. vm_compute. done. Qed.

Definition answers : client_decoders := MkClientDecoders
  (only "target" (MkTargetBody true "" (Some 42) (Some "en"%string)))
  (only "state" (MkStateBody sub_id user_id "active" (Some (day 1)) (Some (day 31)) None)) (fun _ => None)
  (only "sent" (MkDeliveryBody "delivered" "" 0)).
Definition demo_worker (now byte : Z) : worker_env :=
  MkWorker (fun _ => now) (repeat byte 16) (fun _ => ∅) (fun _ => Up) (fun _ => Some (200, "target"%string))
    (fun _ => Some (200, "state"%string)) (fun _ => None) (fun _ => Some (200, "sent"%string)).
Definition alone (i : nat) (s : sys) : sys := s.
Definition turn (now byte : Z) (s : sys) : result NotifErr unit * world sys :=
  workOnce answers alone (60 * second) second (demo_worker now byte) (MkWorld 0 s).
Definition s_paid : sys := Eval vm_compute in w_state (snd (turn (day 3) 33 (MkSys d_extended []))).
Definition s_extended : sys := Eval vm_compute in w_state (snd (turn (day 3) 34 s_paid)).
Example both_delivered : map_to_list (j_status <$> jobs (s_db s_extended)) =
    [(RandomUUID (repeat 17 16), JDelivered); (RandomUUID (repeat 18 16), JDelivered)] /\
  length (s_trace s_extended) = 7%nat.
Proof. vm_compute. done. Qed.
(** The end of the subscription overtakes the news of its extension. *)
Definition d_expired : db := Eval vm_compute in snd (at_once (day 4) 19 expired_record (s_db s_paid)).
Example overtaken : map_to_list ((fun j => (j_type j, j_status j)) <$> jobs d_expired) =
    [(RandomUUID (repeat 19 16), ("subscription_expired", JPending)); (RandomUUID (repeat 17 16), ("payment_confirmed", JDelivered));
     (RandomUUID (repeat 18 16), ("subscription_extended", JSuppressed))]%string.
Proof. vm_compute. done. Qed.

(** ** Witnesses *)

Lemma attempt_advances now byte r d : reachable d -> advances d (snd (at_once now byte r d)).
Proof.
  intros Hd. unfold at_once. destruct (attempt _ _ _ _ _) as [v d'] eqn:E. by apply notif_attempt_outcome in E as [[H _] _].
Qed.
Lemma run_paid : snd (at_once (day 2) 17 paid_record empty_db) = d_paid.
Proof. evaluates. Qed.
Lemma run_extended : snd (at_once (day 2) 18 extended_record d_paid) = d_extended.
Proof. evaluates. Qed.
Lemma run_expired : snd (at_once (day 4) 19 expired_record (s_db s_paid)) = d_expired.
Proof. evaluates. Qed.
Lemma paid_advances : advances empty_db d_paid.
Proof. rewrite <- run_paid. apply attempt_advances. constructor. Qed.
Lemma extended_advances : advances empty_db d_extended.
Proof.
  etrans; [apply paid_advances|]. rewrite <- run_extended. apply attempt_advances. apply advances_reaches, paid_advances.
Qed.
Lemma extended_reachable : reachable d_extended.
Proof. apply advances_reaches, extended_advances. Qed.
Lemma alone_relies : relies alone.
Proof. intros i s _. apply rtc_refl. Qed.
Lemma turn_steps now byte s : rtc sys_step start s -> rtc sys_step s (w_state (snd (turn now byte s))).
Proof.
  intros Hs. unfold turn. destruct (workOnce _ _ _ _ _ _) as [x w'] eqn:E.
  by apply (notif_triple_workOnce _ _ _ _ _ alone_relies (MkWorld 0 s) x w' (started_inv s Hs) I) in E as [H _].
Qed.
Lemma extended_started : rtc sys_step start (MkSys d_extended []).
Proof.
  pose proof extended_advances as Hd. unfold start. induction Hd as [|d1 d2 d3 (o & Ho & ->) _ IH]; [done|].
  eapply rtc_l; [|exact IH]. by apply (StepStore (MkSys d1 [])).
Qed.
Lemma turn_paid : w_state (snd (turn (day 3) 33 (MkSys d_extended []))) = s_paid.
Proof. evaluates. Qed.
Lemma turn_extended : w_state (snd (turn (day 3) 34 s_paid)) = s_extended.
Proof. evaluates. Qed.
Lemma paid_started : rtc sys_step start s_paid.
Proof. etrans; [apply extended_started|]. rewrite <- turn_paid. apply turn_steps, extended_started. Qed.
Definition extended_world : world sys := MkWorld (w_step (snd (turn (day 3) 34 s_paid))) s_extended.
Lemma turn_performed :
  notif_perform answers alone (WorkerTurn (60 * second) second (demo_worker (day 3) 34)) (MkWorld 0 s_paid) = (tt, extended_world).
Proof. evaluates. Qed.
Definition extension_row : job_row := Eval vm_compute in
  match jobs (s_db s_extended) !! RandomUUID (repeat 18 16) with Some j => j | None => new_job 0 (MkEventMeta "" "" "" "" "" 0 "" "" None 0 "" 0 0 "") (MkIntent "" "" None None "" 0 "" "" 0 false ∅ "" 0) JPending None end.
Lemma delivered_messages_are_justified_witness :
  exists claimID chat text post pre,
    s_trace s_extended = post ++ Sent claimID (RandomUUID (repeat 18 16)) chat "subscription_extended" 1 text true :: pre /\ 0 < chat /\
    Render "subscription_extended" 1 (j_variables extension_row) = Some text /\
    exists state, State claimID user_id sub_id state ∈ pre /\ subscriptionNotificationCurrent (job_of zero_uuid extension_row) state = true.
Proof.
  destruct (proj1 (proj2 (delivered_messages_are_justified answers alone (WorkerTurn (60 * second) second (demo_worker (day 3) 34))
      (MkWorld 0 s_paid) extended_world alone_relies paid_started turn_performed)) (RandomUUID (repeat 18 16)) extension_row)
    as (c & target & text & post & pre & E & Hr & _ & _ & Hp & Hs & _); [vm_compute; reflexivity|reflexivity|].
  exists c, (tt_TelegramChatID target), text, post, pre. split; [exact E|]. split; [exact Hp|]. split; [exact Hr|].
  exact (Hs sub_id ltac:(vm_compute; reflexivity) ltac:(vm_compute; reflexivity)).
Defined.
Lemma notification_service_keeps_protocol_witness :
  triple (fun _ => True) (notif_perform answers alone (WorkerTurn (60 * second) second (demo_worker (day 3) 33))) (fun _ _ => True) /\
  rtc sys_step (MkSys empty_db []) (MkSys d_extended []).
Proof.
  destruct (notification_service_keeps_protocol answers alone alone_relies (WorkerTurn (60 * second) second (demo_worker (day 3) 33))
    empty_db d_extended [] extended_advances) as [H1 H2].
  exact (conj H1 H2).
Defined.
Lemma notification_events_are_not_lost_witness :
  exists go q' d' calls, notif_pollOnce demo_decoders 0 (fun _ => demo_attempt (day 2) 17) [] (Some paid_record) false true
    (demo_attempt (day 2) 17) ∅ empty_db = (go, q', d', calls) /\ settled d' paid_record.
Proof.
  destruct (notif_pollOnce demo_decoders 0 (fun _ => demo_attempt (day 2) 17) [] (Some paid_record) false true
    (demo_attempt (day 2) 17) ∅ empty_db) as [[[go q'] d'] calls] eqn:E.
  exists go, q', d', calls. split; [reflexivity|].
  destruct (notification_events_are_not_lost demo_decoders 0 (fun _ => demo_attempt (day 2) 17) [] (Some paid_record) false true
    (demo_attempt (day 2) 17) ∅ empty_db go q' d' calls) as (_ & Hc & _).
  - constructor.
  - intros r _. apply lookup_empty.
  - exact E.
  - apply Hc. assert (bool_decide (head (snd (notif_pollOnce demo_decoders 0 (fun _ => demo_attempt (day 2) 17) [] (Some paid_record) false true
      (demo_attempt (day 2) 17) ∅ empty_db)) = Some (CommitRecords paid_record true)) = true) as H by (vm_compute; reflexivity).
    rewrite E in H. apply bool_decide_eq_true in H. clear - H. destruct calls as [|x l]; [done|]. injection H as ->. left.
Defined.

Lemma notif_paid_reachable : reachable (s_db s_paid).
Proof. apply si_db, started_inv, paid_started. Qed.
Lemma expired_reaches : reaches (s_db s_paid) d_expired.
Proof. rewrite <- run_expired. apply advances_reaches, attempt_advances, notif_paid_reachable. Qed.
Lemma expired_reachable : reachable d_expired.
Proof. eapply notif_reaches_trans; [apply notif_paid_reachable|apply expired_reaches]. Qed.
Definition claim_by (c : string) (d : db) := in_tx (ClaimJob (day 5) (60 * second) ∅ c) d.
Lemma notifications_in_order_witness :
  exists job d1, claim_by "c1" d_expired = (Ok (Some job), d1) /\ jb_NotificationType job = "subscription_expired"%string /\
    exists b, jobs d1 !! jb_NotificationID job = Some b /\ j_status b = JProcessing /\
      forall k a, jobs d1 !! k = Some a -> before a b -> unfinished a = false.
Proof.
  destruct (claim_by "c1" d_expired) as [[[job|]|e] d1] eqn:E; [|vm_compute in E; discriminate E..].
  exists job, d1. split; [reflexivity|]. split.
  { assert (match claim_by "c1" d_expired with (Ok (Some j), _) => jb_NotificationType j = "subscription_expired"%string | _ => False end) as H
      by (vm_compute; reflexivity). rewrite E in H. exact H. }
  destruct (proj1 (notifications_in_order d_expired d1 d1 (day 5) (60 * second) ∅ "c1" job expired_reachable E (reaches_here d1)))
    as (b & Hb & Hs & _ & _ & Ho).
  exists b. split; [exact Hb|]. split; [exact Hs|]. intros k a Ha Hab. exact (proj1 (Ho k a Ha Hab)).
Defined.
Lemma one_notification_per_fact_witness :
  exists j j', jobs (s_db s_paid) !! RandomUUID (repeat 17 16) = Some j /\ jobs d_expired !! RandomUUID (repeat 17 16) = Some j' /\
    j_status j = JDelivered /\ j' = j.
Proof.
  destruct (jobs (s_db s_paid) !! RandomUUID (repeat 17 16)) as [j|] eqn:E; [|vm_compute in E; discriminate E].
  assert (j_status j = JDelivered) as Hs by (vm_compute in E; injection E as <-; reflexivity).
  destruct (proj2 (one_notification_per_fact (s_db s_paid) d_expired notif_paid_reachable expired_reaches) _ j E) as (j' & Hj' & _ & _ & Hf).
  exists j, j'. split; [reflexivity|]. split; [exact Hj'|]. split; [exact Hs|]. exact (Hf (or_introl Hs)).
Defined.
Lemma notified_events_in_sequence_witness :
  exists e r, inbox d_expired !! e = Some r /\
    (i_producer r +:+ ":" +:+ i_aggregate_type r +:+ ":" +:+ i_aggregate_id r)%string = sequenced_cursor "subscription" sub_id /\
    i_sequence r = Some 2.
Proof.
  destruct (cursors d_expired !! sequenced_cursor "subscription" sub_id) as [c|] eqn:E; [|vm_compute in E; discriminate E].
  assert (k_last_sequence c = 2) as Hc by (vm_compute in E; injection E as <-; reflexivity).
  apply (proj1 (notified_events_in_sequence d_expired expired_reachable) _ c E 2). rewrite Hc. split; discriminate.
Defined.

(** The bot names a reason, or the identity service a code, the table does not admit. *)
Definition d_claimed : db := Eval vm_compute in snd (claim_by "c1" d_expired).
Definition expired_id : string := RandomUUID (repeat 19 16).
Lemma notif_claimed_reachable : reachable d_claimed.
Proof.
  assert (snd (exec (OpClaim (day 5) (60 * second) ∅ "c1") d_expired) = d_claimed) as <- by evaluates.
  apply reaches_step; [apply expired_reachable|done].
Qed.
Example refused_codes :
  boundedCode "4xx_blocked" "telegram_permanent" = "4xx_blocked"%string /\ acceptable "4xx_blocked" = false /\
  boundedToken "User-Deleted" 3 64 = true /\ acceptable "User-Deleted" = false.
Proof. vm_compute. done. Qed.
Lemma claim_end_effect_witness :
  outcome (FailJob (day 6) expired_id "c1" "4xx_blocked") d_claimed = (Some (ErrSQL "finish notification claim"), d_claimed) /\
  (exists d', outcome (CompleteJob (day 6) expired_id "c1") d_claimed = (None, d') /\ j_status <$> jobs d' !! expired_id = Some JDelivered) /\
  outcome (CompleteJob (day 6) expired_id "c2") d_claimed = (Some ErrEventConflict, d_claimed).
Proof.
  split; [|split].
  - unfold FailJob. rewrite (claim_end_effect d_claimed (day 6) expired_id "c1" JPermanentlyFailed "4xx_blocked" 0 notif_claimed_reachable ltac:(discriminate) ltac:(discriminate)).
    vm_compute. reflexivity.
  - unfold CompleteJob. rewrite (claim_end_effect d_claimed (day 6) expired_id "c1" JDelivered "" 0 notif_claimed_reachable ltac:(discriminate) ltac:(discriminate)).
    eexists. split; vm_compute; reflexivity.
  - unfold CompleteJob. rewrite (claim_end_effect d_claimed (day 6) expired_id "c2" JDelivered "" 0 notif_claimed_reachable ltac:(discriminate) ltac:(discriminate)).
    vm_compute. reflexivity.
Defined.
End NotificationRuns.
