(* ===== verification/TelegramBot.v ===== *)
(** * telegram-bot: deliveries, commands and their guards in Redis

    src/services/telegram-bot: internal/redisstore (the scripts that guard
    updates and deliveries, chat states, the rate limit), internal/telegram
    (the Bot API client), internal/bot/delivery.go (messages other services
    send) and internal/bot/webhook.go (messages users send). Calls to
    identity-, catalog- and billing-service are answered from outside, judged
    as the clients of internal/identity, internal/catalog and internal/billing
    judge them. JSON decoders are parameters. *)

From Stdlib Require Import Ascii List.
From S2P Require Import Prelude GoStrings Sha256 Backoff Platform GoText Jobs NotificationDomain.

Definition newline : string := String "010" EmptyString.

(** ** Redis *)

(** A value and when it expires, if it does. *)
Abbreviation redis := (gmap string (string * option Z)).
Definition live (now : Z) (k : string) (r : redis) : option string :=
  match r !! k with
  | Some (v, Some e) => if now <? e then Some v else None
  | Some (v, None) => Some v
  | None => None
  end.
Record Store := MkStore { st_keyPrefix : string; st_dedupeTTL : Z; st_processingTTL : Z; st_fsmTTL : Z }.
Definition New (keyPrefix : string) (dedupeTTL processingTTL fsmTTL : Z) : Store :=
  MkStore (if bool_decide (keyPrefix = ""%string) then "telegram"%string else keyPrefix) dedupeTTL
    (if processingTTL <=? 0 then 30 * second else processingTTL) fsmTTL.
Definition millisecond : Z := second / 1000.
Definition ttlMillis (ttl : Z) : Z := Z.quot (if ttl <=? 0 then second else ttl) millisecond.

Section scripts.
Context (cfg : Store).
Definition completedKey (updateID : Z) : string := (st_keyPrefix cfg +:+ ":dedupe:completed:" +:+ FormatInt updateID)%string.
Definition processingKey (updateID : Z) : string := (st_keyPrefix cfg +:+ ":dedupe:processing:" +:+ FormatInt updateID)%string.
Definition fsmKey (telegramUserID : Z) : string := (st_keyPrefix cfg +:+ ":fsm:" +:+ FormatInt telegramUserID)%string.
Definition deliveryCompletedKey (deliveryID : string) : string := (st_keyPrefix cfg +:+ ":delivery:completed:" +:+ deliveryID)%string.
Definition deliveryProcessingKey (deliveryID : string) : string := (st_keyPrefix cfg +:+ ":delivery:processing:" +:+ deliveryID)%string.

(** [SET key value PX ms]: Redis refuses a time to live of zero, which ends
    the script. *)
Definition set_px (now : Z) (k v : string) (ms : Z) (r : redis) : option redis :=
  if ms <=? 0 then None else Some (<[k := (v, Some (now + ms * millisecond))]> r).
(** A script: what it returns, [None] when it fails, and what it leaves. *)
Abbreviation script A := (redis -> option A * redis).

Definition StartProcessing (now updateID : Z) (token : string) : script string := fun r =>
  if bool_decide (is_Some (live now (completedKey updateID) r)) then (Some "completed"%string, r)
  else if bool_decide (is_Some (live now (processingKey updateID) r)) then (Some "processing"%string, r)
  else match set_px now (processingKey updateID) token (ttlMillis (st_processingTTL cfg)) r with
       | Some r' => (Some "acquired"%string, r')
       | None => (None, r)
       end.
Definition CompleteProcessing (now updateID : Z) (token : string) : script unit := fun r =>
  match set_px now (completedKey updateID) "1" (ttlMillis (st_dedupeTTL cfg)) r with
  | Some r' => (Some tt, if bool_decide (live now (processingKey updateID) r' = Some token)
                         then delete (processingKey updateID) r' else r')
  | None => (None, r)
  end.
Definition ReleaseProcessing (now updateID : Z) (token : string) : script unit := fun r =>
  (Some tt, if bool_decide (live now (processingKey updateID) r = Some token) then delete (processingKey updateID) r else r).
Definition redis_GetState (now telegramUserID : Z) : script string := fun r => (Some (default ""%string (live now (fsmKey telegramUserID) r)), r).
(** A time to live that is not positive means none. *)
Definition SetState (now telegramUserID : Z) (state : string) : script unit := fun r =>
  (Some tt, <[fsmKey telegramUserID := (state, if st_fsmTTL cfg <=? 0 then None else Some (now + st_fsmTTL cfg))]> r).
Definition lease_value (requestHash token : string) : string := (requestHash +:+ "|" +:+ token)%string.
Definition StartDelivery (now : Z) (deliveryID requestHash token : string) : script string := fun r =>
  match live now (deliveryCompletedKey deliveryID) r with
  | Some completed => (Some (if bool_decide (completed = requestHash) then "completed" else "conflict")%string, r)
  | None =>
      match live now (deliveryProcessingKey deliveryID) r with
      | Some processing =>
          (Some (if bool_decide (String.substring 0 64 processing = requestHash) then "processing" else "conflict")%string, r)
      | None =>
          match set_px now (deliveryProcessingKey deliveryID) (lease_value requestHash token) (ttlMillis (st_processingTTL cfg)) r with
          | Some r' => (Some "acquired"%string, r')
          | None => (None, r)
          end
      end
  end.
(** [false]: the lease was lost. *)
Definition CompleteDelivery (now : Z) (deliveryID requestHash token : string) : script bool := fun r =>
  if bool_decide (live now (deliveryProcessingKey deliveryID) r = Some (lease_value requestHash token)) then
    match set_px now (deliveryCompletedKey deliveryID) requestHash (ttlMillis (st_dedupeTTL cfg)) r with
    | Some r' => (Some true, delete (deliveryProcessingKey deliveryID) r')
    | None => (None, r)
    end
  else (Some false, r).
Definition ReleaseDelivery (now : Z) (deliveryID requestHash token : string) : script bool := fun r =>
  if bool_decide (live now (deliveryProcessingKey deliveryID) r = Some (lease_value requestHash token))
  then (Some true, delete (deliveryProcessingKey deliveryID) r) else (Some false, r).
End scripts.

(** *** The rate limit: [INCR], then [EXPIRE] in a call of its own *)

Record RateLimiter := MkLimiter { rl_keyPrefix : string; rl_limit : Z; rl_window : Z }.
Definition NewRateLimiter (keyPrefix : string) (limit window : Z) : RateLimiter :=
  MkLimiter (if bool_decide (keyPrefix = ""%string) then "telegram"%string else keyPrefix)
    (if limit <=? 0 then 60 else limit) (if window <=? 0 then minute else window).
Definition rateKey (l : RateLimiter) (key : string) : string := (rl_keyPrefix l +:+ ":rate:" +:+ key)%string.
(** [INCR] keeps the time to live of the counter. *)
Definition Incr (now : Z) (k : string) (r : redis) : option Z * redis :=
  match live now k r with
  | None => (Some 1, <[k := ("1"%string, None)]> r)
  | Some v =>
      match ParseInt v with
      | Some n => if n =? 2 ^ 63 - 1 then (None, r)
                  else (Some (n + 1), <[k := (FormatInt (n + 1), match r !! k with Some (_, e) => e | None => None end)]> r)
      | None => (None, r)
      end
  end.
(** Whole seconds, at least one. *)
Definition Expire (now : Z) (k : string) (ttl : Z) (r : redis) : option unit * redis :=
  let seconds := if ttl <? second then 1 else Z.quot ttl second in
  (Some tt, match live now k r with Some v => <[k := (v, Some (now + seconds * second))]> r | None => r end).

(** ** The Bot API *)

Inductive ErrorKind := NetworkError | ResponseReadError | ResponseTooLarge | InvalidResponse | HTTPStatus | API | RateLimited.
#[export] Instance ErrorKind_eq_dec : EqDecision ErrorKind.
Proof. solve_decision. Defined.
Record APIError := MkAPIError { ae_Kind : ErrorKind; ae_StatusCode : Z; ae_ErrorCode : Z; ae_RetryAfter : Z }.
Record responseEnvelope := MkResponse { re_OK : bool; re_ErrorCode : Z; re_RetryAfter : option Z }.
(** What comes back: nothing, or a status and a body, [None] if it breaks off. *)
Abbreviation api_response := (option (Z * option string)).
Definition maxResponseBytes : Z := 64 * 1024.
Section api_client.
Context (decode : string -> option responseEnvelope).
Definition plain_error (kind : ErrorKind) : APIError := MkAPIError kind 0 0 0.
Definition decodeEnvelope (body : option string) : result APIError responseEnvelope :=
  match body with
  | None => Err (plain_error ResponseReadError)
  | Some payload =>
      if maxResponseBytes <? go_len payload then Err (plain_error ResponseTooLarge)
      else match decode payload with Some envelope => Ok envelope | None => Err (plain_error InvalidResponse) end
  end.
Definition telegramAPIError (kind : ErrorKind) (statusCode : Z) (envelope : responseEnvelope) : APIError :=
  match re_RetryAfter envelope with
  | Some seconds =>
      if 0 <? seconds
      then MkAPIError RateLimited statusCode (re_ErrorCode envelope) ((if 900 <? seconds then 900 else seconds) * second)
      else MkAPIError kind statusCode (re_ErrorCode envelope) 0
  | None => MkAPIError kind statusCode (re_ErrorCode envelope) 0
  end.
Definition sendMessage (r : api_response) : result APIError unit :=
  match r with
  | None => Err (plain_error NetworkError)
  | Some (status, body) =>
      match decodeEnvelope body with
      | Err e => Err e
      | Ok envelope =>
          if (status <? 200) || (300 <=? status) then Err (telegramAPIError HTTPStatus status envelope)
          else if negb (re_OK envelope) then Err (telegramAPIError API status envelope)
          else Ok tt
      end
  end.
End api_client.

(** ** Deliveries *)

Record delivery_request := MkDelivery { dq_TelegramChatID : Z; dq_NotificationType : string; dq_TemplateVersion : Z; dq_Text : string }.
Definition request_hash (q : delivery_request) : string :=
  sha256_hex (FormatInt (dq_TelegramChatID q) +:+ newline +:+ dq_NotificationType q +:+ newline +:+
              FormatInt (dq_TemplateVersion q) +:+ newline +:+ dq_Text q)%string.
Definition notificationTypes : list string :=
  ["payment_confirmed"; "subscription_extended"; "subscription_grace"; "subscription_expired"; "subscription_revoked";
   "refund_confirmed"; "access_ready"; "access_degraded"; "provisioning_failed"]%string.
(** The strings come out of the JSON decoder, so they are valid UTF-8. *)
Definition valid_delivery (q : delivery_request) : bool :=
  (0 <? dq_TelegramChatID q) && (dq_TemplateVersion q =? 1) &&
  (1 <=? text_length (dq_Text q)) && (text_length (dq_Text q) <=? 4096) &&
  bool_decide (dq_NotificationType q ∈ notificationTypes) && negb (credential_material (dq_Text q)).
Inductive delivery_reply :=
  | BadRequest (code : string)
  | Delivery (status : Z) (result reason : string) (retryAfter : Z).
Definition classifyTelegramDelivery (e : APIError) : delivery_reply :=
  if bool_decide (ae_Kind e = RateLimited) then Delivery 503 "retryable" "telegram_rate_limited" (ae_RetryAfter e / second)
  else if bool_decide (ae_Kind e ∈ [NetworkError; ResponseReadError; ResponseTooLarge; InvalidResponse]) || (500 <=? ae_StatusCode e)
  then Delivery 503 "retryable" "telegram_temporary" 0
  else if (ae_StatusCode e =? 401) || (ae_ErrorCode e =? 401) then Delivery 422 "permanent" "telegram_unauthorized" 0
  else if (ae_StatusCode e =? 403) || (ae_ErrorCode e =? 403) then Delivery 422 "permanent" "telegram_bot_blocked" 0
  else if ((400 <=? ae_StatusCode e) && (ae_StatusCode e <? 500)) || ((400 <=? ae_ErrorCode e) && (ae_ErrorCode e <? 500))
  then Delivery 422 "permanent" "telegram_invalid_target" 0
  else Delivery 503 "retryable" "telegram_unknown" 0.

(** What the handlers share: the clock of Redis, its data, and a record of what
    went out and of the answers that came in. *)
Inductive bot_entry :=
  | Posted (token deliveryID : string) (q : delivery_request) (accepted : bool)
  | Identified (telegramUserID : Z) (userID status : string)
  | Consented (userID version : string)
  | OrderRequested (updateID : Z) (userID planID region version key : string)
  | PaymentRequested (updateID : Z) (userID orderID key : string)
  | Said (chatID : Z) (text : string).
Record bsys := MkBot { b_now : Z; b_redis : redis; b_trace : list bot_entry }.
Definition note (e : bot_entry) (s : bsys) : bsys := MkBot (b_now s) (b_redis s) (e :: b_trace s).

Record delivery_env := MkDeliveryEnv { de_link : nat -> link; de_token : list Z; de_telegram : nat -> api_response }.
Definition maxDeliveryBodyBytes : Z := 32 * 1024.
Section handlers.
Context (between : nat -> bsys -> bsys) (links : nat -> link).

(** A script runs in Redis as a whole; its answer may be lost. *)
Definition eval {A} (m : Z -> redis -> option A * redis) : job bsys (option A) := call between (fun i s =>
  match links i with
  | Down => (None, s)
  | l => let '(x, r) := m (b_now s) (b_redis s) in
         (match l with Lost => None | _ => x end, MkBot (b_now s) r (b_trace s))
  end).
Definition Allow (l : RateLimiter) (key : string) : job bsys (option bool) :=
  incremented ← eval (fun now => Incr now (rateKey l key));
  match incremented with
  | None => mret None
  | Some count =>
      if count =? 1 then
        expired ← eval (fun now => Expire now (rateKey l key) (rl_window l));
        mret (match expired with Some _ => Some (count <=? rl_limit l) | None => None end)
      else mret (Some (count <=? rl_limit l))
  end.
End handlers.

Section delivery.
Context (cfg : Store) (between : nat -> bsys -> bsys) (env : delivery_env).
Context (decode_api : string -> option responseEnvelope) (decode_request : string -> option delivery_request).
Let run {A} := @eval between (de_link env) A.
Let token : string := RandomUUID (de_token env).

Definition post (deliveryID : string) (q : delivery_request) : job bsys (result APIError unit) := call between (fun i s =>
  let r := sendMessage decode_api (de_telegram env i) in (r, note (Posted token deliveryID q (is_ok r)) s)).
Definition decodeDeliveryJSON (body : string) : option delivery_request :=
  if maxDeliveryBodyBytes <? go_len body then None else decode_request body.
Definition guard_unavailable : delivery_reply := Delivery 503 "retryable" "delivery_guard_unavailable" 0.
Definition send_guarded (deliveryID : string) (q : delivery_request) : job bsys delivery_reply :=
  sent ← post deliveryID q;
  match sent with
  | Err e =>
      _ ← run (fun now => ReleaseDelivery cfg now deliveryID (request_hash q) token);
      mret (classifyTelegramDelivery e)
  | Ok _ =>
      completed ← run (fun now => CompleteDelivery cfg now deliveryID (request_hash q) token);
      mret (match completed with
            | Some true => Delivery 200 "delivered" "" 0
            | _ => Delivery 503 "retryable" "delivery_result_unavailable" 0
            end)
  end.
Definition bot_Deliver (delivery_id body : string) : job bsys delivery_reply :=
  let deliveryID := TrimSpace delivery_id in
  if negb (any_uuid deliveryID) then mret (BadRequest "invalid_delivery_id")
  else match decodeDeliveryJSON body with
  | None => mret (BadRequest "invalid_json")
  | Some q =>
      if negb (valid_delivery q) then mret (Delivery 422 "permanent" "invalid_notification" 0)
      else
        state ← run (fun now => StartDelivery cfg now deliveryID (request_hash q) token);
        match state with
        | None => mret guard_unavailable
        | Some state =>
            if bool_decide (state = "completed"%string) then mret (Delivery 200 "replay" "" 0)
            else if bool_decide (state = "processing"%string) then mret (Delivery 409 "retryable" "delivery_in_progress" 1)
            else if bool_decide (state = "conflict"%string) then mret (Delivery 409 "permanent" "delivery_id_conflict" 0)
            else if bool_decide (state = "acquired"%string) then send_guarded deliveryID q
            else mret guard_unavailable
        end
  end.
End delivery.

(** ** Updates *)

Record user := MkUser { u_ID : Z; u_Username : string; u_FirstName : string; u_LastName : string; u_LanguageCode : string }.
Record message := MkMessage { m_Text : string; m_ChatID : Z; m_From : option user }.
Record update := MkUpdate { up_UpdateID : Z; up_Message : option message }.
Record TelegramProfile := MkProfile { tp_TelegramUserID : Z; tp_Username : option string; tp_DisplayName : option string;
  tp_LanguageCode : option string; tp_Locale : option string }.
Record IdentityUser := MkIdentityUser { iu_UserID : string; iu_Status : string }.
Record Plan := MkPlan { pl_PlanID : string; pl_Name : string; pl_DurationDays : Z; pl_AmountMinor : Z; pl_Currency : string;
  pl_Regions : list string }.
Record Config := MkConfig { wc_WebhookSecret : string; wc_ConsentVersion : string; wc_TermsURL : string; wc_RateLimitKey : string }.

Definition normalize (value : string) : option string :=
  let trimmed := TrimSpace value in if bool_decide (trimmed = ""%string) then None else Some trimmed.
Definition displayName (firstName lastName : string) : option string :=
  normalize (TrimSpace firstName +:+ " " +:+ TrimSpace lastName).
Definition profile_of (u : user) : TelegramProfile :=
  MkProfile (u_ID u) (normalize (u_Username u)) (displayName (u_FirstName u) (u_LastName u)) (normalize (u_LanguageCode u))
    (normalize (u_LanguageCode u)).
(** [strings.Fields(text)[0]]. *)
Fixpoint first_field (s : string) : string :=
  match strip_any spaces s with
  | Some _ => EmptyString
  | None => match s with EmptyString => EmptyString | String c s' => String c (first_field s') end
  end.
Fixpoint before_at (s : string) : string :=
  match s with
  | EmptyString => EmptyString
  | String c s' => if Ascii.eqb c "@" then EmptyString else String c (before_at s')
  end.
Definition normalizedCommand (text : string) : string := before_at (ToLower (first_field (trim_left text))).
Definition isConsentAccept (text : string) : bool :=
  bool_decide (ToLower (TrimSpace text) ∈ ["accept"; "i accept"; "согласен"; "принимаю"]%string).
Definition pad02 (n : Z) : string := if n <? 0 then FormatInt n else padded 2 n.
Definition formatPlan (plan : Plan) : string :=
  (pl_Name plan +:+ ": " +:+ FormatInt (pl_DurationDays plan) +:+ " days, " +:+ FormatInt (Z.quot (pl_AmountMinor plan) 100) +:+ "." +:+
   pad02 (Z.rem (pl_AmountMinor plan) 100) +:+ " " +:+ pl_Currency plan +:+ ", regions: " +:+ join ", " (pl_Regions plan))%string.
Definition consentPrompt (version termsURL : string) : string :=
  ("Please review terms version " +:+ version +:+ ": " +:+ termsURL +:+ newline +:+ "To accept, send: accept")%string.
Definition mainMenuText : string := "Menu: /plans, /buy, subscription status, help."%string.
Definition unavailableText : string := "Account is unavailable. Contact support."%string.
Definition StateAwaitingConsent : string := "awaiting_consent"%string.
Definition StateMenu : string := "menu"%string.
Definition orderKey (updateID : Z) : string := ("tg:" +:+ FormatInt updateID +:+ ":order")%string.
Definition paymentKey (updateID : Z) : string := ("tg:" +:+ FormatInt updateID +:+ ":payment")%string.

Example commands : normalizedCommand " /START@vpn_bot now " = "/start"%string /\ normalizedCommand "Buy" = "buy"%string /\
  isConsentAccept "СОГЛАСЕН " = true /\ isConsentAccept "I Accept" = true /\ isConsentAccept "no" = false.
Proof. vm_compute. done. Qed.
Example plan_text : formatPlan (MkPlan "p" "Month" 30 49905 "RUB" ["eu"; "us"]) = "Month: 30 days, 499.05 RUB, regions: eu, us"%string.
Proof. vm_compute. done. Qed.
