(* ===== verification/TelegramWebhook.v ===== *)
(** * telegram-bot: the webhook

    src/services/telegram-bot/internal/bot/webhook.go: an update is taken in
    at most once, commands are answered, and an order is placed for a user
    who is active and has accepted the current terms. *)

From Stdlib Require Import Ascii List.
From S2P Require Import Prelude GoStrings Sha256 Backoff Platform GoText Jobs NotificationDomain TelegramBot.

(** ** The services it asks *)

(** A response: its status and body; [None] when there is none. *)
Abbreviation response := (option (Z * string)).
Definition success (status : Z) : bool := (200 <=? status) && (status <? 300).
(** [doJSON] of internal/identity: a body is read unless the status says there
    is none. *)
Definition identity_doJSON {A} (decode : string -> option A) (zero : A) (r : response) : option A :=
  '(status, body) ← r; if negb (success status) then None else if status =? 204 then Some zero else decode body.
Definition no_body (body : string) : option unit := Some tt.
Definition limited {A} (decode : string -> option A) (body : string) : option A := decode (String.substring 0 65536 body).
Definition billing_post {A} (decode : string -> option A) (r : response) : option A :=
  '(status, body) ← r; if negb (success status) then None else limited decode body.
Definition ListPlans (decode : string -> option (list Plan)) (r : response) : option (list Plan) :=
  '(status, body) ← r; if negb (status =? 200) then None else limited decode body.
Record Order := MkOrder { o_OrderID : string }.
Record Payment := MkPayment { py_Status : string; py_ConfirmationURL : option string }.
Record webhook_decoders := MkWebhookDecoders {
  dec_update : string -> option update;
  dec_user : string -> option IdentityUser;
  dec_consent : string -> option bool;
  dec_plans : string -> option (list Plan);
  dec_order : string -> option Order;
  dec_payment : string -> option Payment;
  dec_api : string -> option responseEnvelope
}.
(** What a request draws: the wall clock, the fate of each call on Redis, and
    the answers of the services, call by call; whether there is a catalog and
    a billing service at all. *)
Record webhook_env := MkWebhookEnv {
  we_wall : Z;
  we_link : nat -> link;
  we_identity : nat -> response;
  we_catalog : nat -> response;
  we_billing : nat -> response;
  we_telegram : nat -> api_response;
  we_has_catalog : bool;
  we_has_billing : bool
}.
Inductive reply := Done | Problem (status : Z) (code : string).

Section webhook.
Context (st : Store) (cfg : Config) (limiter : option RateLimiter) (dec : webhook_decoders).
Context (between : nat -> bsys -> bsys) (env : webhook_env).
Let run {A} := @eval between (we_link env) A.

(** An error ends the handling. *)
Definition attempt {A B} (m : job bsys (option A)) (k : A -> job bsys (option B)) : job bsys (option B) :=
  x ← m; match x with Some a => k a | None => mret None end.
(** A question whose answer [f] goes on record when it says something. *)
Definition consult {A} (f : nat -> option A) (entry : A -> option bot_entry) : job bsys (option A) := call between (fun i s =>
  match f i with
  | Some a => (Some a, match entry a with Some e => note e s | None => s end)
  | None => (None, s)
  end).
(** A request that goes on record whatever becomes of it. *)
Definition request {A} (f : nat -> option A) (entry : bot_entry) : job bsys (option A) := call between (fun i s => (f i, note entry s)).

Definition UpsertTelegramIdentity (profile : TelegramProfile) : job bsys (option IdentityUser) :=
  consult (fun i => identity_doJSON (dec_user dec) (MkIdentityUser "" "") (we_identity env i))
    (fun u => Some (Identified (tp_TelegramUserID profile) (iu_UserID u) (iu_Status u))).
Definition HasConsent (userID : string) : job bsys (option bool) :=
  consult (fun i => identity_doJSON (dec_consent dec) false (we_identity env i))
    (fun accepted => if (accepted : bool) then Some (Consented userID (wc_ConsentVersion cfg)) else None).
Definition AcceptConsent (userID : string) : job bsys (option unit) :=
  consult (fun i => identity_doJSON no_body tt (we_identity env i)) (fun _ => None).
Definition list_plans : job bsys (option (list Plan)) := consult (fun i => ListPlans (dec_plans dec) (we_catalog env i)) (fun _ => None).
Definition SendMessage (chatID : Z) (text : string) : job bsys (option unit) :=
  request (fun i => match sendMessage (dec_api dec) (we_telegram env i) with Ok _ => Some tt | Err _ => None end) (Said chatID text).
Definition set_state (telegramUserID : Z) (state : string) : job bsys (option unit) :=
  run (fun now => SetState st now telegramUserID state).

(** A lapsed consent answers the user itself: [Some false]. *)
Definition ensureConsent (userID : string) (telegramUserID chatID : Z) : job bsys (option bool) :=
  attempt (HasConsent userID) (fun accepted =>
    if accepted then mret (Some true)
    else attempt (set_state telegramUserID StateAwaitingConsent) (fun _ =>
         attempt (SendMessage chatID (consentPrompt (wc_ConsentVersion cfg) (wc_TermsURL cfg))) (fun _ => mret (Some false)))).
Definition sendPlans (chatID : Z) : job bsys (option unit) :=
  if negb (we_has_catalog env) then SendMessage chatID "Plans are temporarily unavailable."
  else attempt list_plans (fun plans =>
    match plans with
    | [] => SendMessage chatID "No plans are currently available."
    | plan :: _ => SendMessage chatID (formatPlan plan +:+ newline +:+ "Send /buy to create a sandbox payment.")
    end).
Definition createPayment (updateID chatID : Z) (userID : string) : job bsys (option unit) :=
  if negb (we_has_catalog env) || negb (we_has_billing env) then SendMessage chatID "Payments are temporarily unavailable."
  else attempt list_plans (fun plans =>
    match plans with
    | plan :: _ =>
        match pl_Regions plan with
        | region :: _ =>
            attempt (request (fun i => billing_post (dec_order dec) (we_billing env i))
                       (OrderRequested updateID userID (pl_PlanID plan) region (wc_ConsentVersion cfg) (orderKey updateID))) (fun order =>
            attempt (request (fun i => billing_post (dec_payment dec) (we_billing env i))
                       (PaymentRequested updateID userID (o_OrderID order) (paymentKey updateID))) (fun payment =>
              match py_ConfirmationURL payment with
              | None => SendMessage chatID "Payment creation is being reconciled. Send /buy again shortly to check it."
              | Some url => SendMessage chatID ("Complete the sandbox payment: " +:+ url)
              end))
        | [] => SendMessage chatID "No plans are currently available."
        end
    | [] => SendMessage chatID "No plans are currently available."
    end).
Definition menu (telegramUserID chatID : Z) : job bsys (option unit) :=
  attempt (set_state telegramUserID StateMenu) (fun _ => SendMessage chatID mainMenuText).
Definition start (userID : string) (telegramUserID chatID : Z) : job bsys (option unit) :=
  attempt (HasConsent userID) (fun accepted =>
    if accepted then menu telegramUserID chatID
    else attempt (set_state telegramUserID StateAwaitingConsent) (fun _ =>
         SendMessage chatID (consentPrompt (wc_ConsentVersion cfg) (wc_TermsURL cfg)))).
Definition with_consent (userID : string) (telegramUserID chatID : Z) (k : job bsys (option unit)) : job bsys (option unit) :=
  attempt (ensureConsent userID telegramUserID chatID) (fun accepted => if accepted then k else mret (Some tt)).
Definition otherwise (userID text : string) (telegramUserID chatID : Z) : job bsys (option unit) :=
  attempt (run (fun now => redis_GetState st now telegramUserID)) (fun state =>
    if bool_decide (state = StateAwaitingConsent) && isConsentAccept text
    then attempt (AcceptConsent userID) (fun _ => menu telegramUserID chatID)
    else SendMessage chatID "Send /start to open the menu.").
Definition command (updateID chatID telegramUserID : Z) (userID text : string) : job bsys (option unit) :=
  let is_command name := bool_decide (normalizedCommand text = name%string) in
  if is_command "/start" then start userID telegramUserID chatID
  else if is_command "/plans" || is_command "plans" then with_consent userID telegramUserID chatID (sendPlans chatID)
  else if is_command "/buy" || is_command "buy" then with_consent userID telegramUserID chatID (createPayment updateID chatID userID)
  else otherwise userID text telegramUserID chatID.
Definition bot_process (up : update) : job bsys (option unit) :=
  match up_Message up with
  | Some m =>
      match m_From m with
      | Some from =>
          let text := TrimSpace (m_Text m) in
          if (m_ChatID m =? 0) || bool_decide (text = ""%string) then mret (Some tt)
          else attempt (UpsertTelegramIdentity (profile_of from)) (fun user =>
            if bool_decide (iu_Status user = "active"%string)
            then command (up_UpdateID up) (m_ChatID m) (u_ID from) (iu_UserID user) text
            else SendMessage (m_ChatID m) unavailableText)
      | None => mret (Some tt)
      end
  | None => mret (Some tt)
  end.

Definition validSecret (value : string) : bool :=
  negb (bool_decide (wc_WebhookSecret cfg = ""%string)) && bool_decide (value = wc_WebhookSecret cfg).
Definition webhook_token (up : update) : string := (FormatInt (up_UpdateID up) +:+ ":" +:+ FormatInt (we_wall env))%string.
Definition admitted : job bsys (option bool) :=
  match limiter with
  | None => mret (Some true)
  | Some l => Allow between (we_link env) l
                (if bool_decide (wc_RateLimitKey cfg = ""%string) then "telegram-webhook"%string else wc_RateLimitKey cfg)
  end.
Definition guarded (up : update) : job bsys reply :=
  status ← run (fun now => StartProcessing st now (up_UpdateID up) (webhook_token up));
  match status with
  | None => mret (Problem 503 "dedupe_unavailable")
  | Some status =>
      if bool_decide (status = "completed"%string) then mret Done
      else if bool_decide (status = "processing"%string) then mret (Problem 503 "update_processing")
      else
        processed ← bot_process up;
        match processed with
        | None =>
            _ ← run (fun now => ReleaseProcessing st now (up_UpdateID up) (webhook_token up));
            mret (Problem 503 "telegram_update_failed")
        | Some _ =>
            completed ← run (fun now => CompleteProcessing st now (up_UpdateID up) (webhook_token up));
            mret (match completed with Some _ => Done | None => Problem 503 "dedupe_unavailable" end)
        end
  end.
Definition ServeHTTP (secret body : string) : job bsys reply :=
  if negb (validSecret secret) then mret (Problem 401 "unauthenticated")
  else
    allowed ← admitted;
    match allowed with
    | None => mret (Problem 503 "rate_limit_unavailable")
    | Some false => mret (Problem 429 "rate_limited")
    | Some true =>
        match dec_update dec body with
        | None => mret (Problem 400 "invalid_json")
        | Some up => if up_UpdateID up <=? 0 then mret (Problem 400 "invalid_update") else guarded up
        end
    end.
End webhook.
