(* ===== verification/TelegramSpec.v ===== *)
(** * telegram-bot: what its guards guarantee

    Deliveries and updates share one Redis and run at the same time. The
    protocol every handler keeps to, its invariant, and what follows: a
    delivery that was completed is not sent again while Redis remembers it,
    an answer 200 means that the message was accepted, and an order is
    requested only for an active user who accepted the terms. *)

From Stdlib Require Import Ascii List.
From S2P Require Import Prelude GoStrings Sha256 Backoff Platform GoText Jobs NotificationDomain TelegramBot TelegramWebhook.

Section protocol.
Context (cfg : Store).
Implicit Types (s : bsys) (r : redis).

(** ** Keys *)

Abbreviation ck := (deliveryCompletedKey cfg).
Abbreviation pk := (deliveryProcessingKey cfg).
Abbreviation uck := (completedKey cfg).
Abbreviation upk := (processingKey cfg).
Lemma prefixed_ne p (a b : string) : a <> b -> (p +:+ a)%string <> (p +:+ b)%string.
Proof. by intros H ?%(inj (String.append p)). Qed.
(** The keys of different kinds are apart. *)
Definition delivery_key (k : string) : Prop := exists id, k = ck id \/ k = pk id.
Definition update_key (k : string) : Prop := exists id, k = uck id \/ k = upk id.
Lemma ck_pk id id' : ck id <> pk id'.
Proof. by apply prefixed_ne. Qed.
Lemma ck_inj id id' : ck id = ck id' -> id = id'.
Proof. intros H%(inj (String.append _)). by injection H. Qed.
Lemma pk_inj id id' : pk id = pk id' -> id = id'.
Proof. intros H%(inj (String.append _)). by injection H. Qed.
Lemma uck_upk id id' : uck id <> upk id'.
Proof. by apply prefixed_ne. Qed.
Lemma update_not_delivery k : update_key k -> delivery_key k -> False.
Proof. by intros [u [->| ->]] [id [H|H]]; apply (inj (String.append _)) in H. Qed.
Lemma fsm_apart u : ~ delivery_key (fsmKey cfg u) /\ ~ update_key (fsmKey cfg u).
Proof. split; by intros [id [H|H]]; apply (inj (String.append _)) in H. Qed.
Lemma rate_apart l key : rl_keyPrefix l = st_keyPrefix cfg -> ~ delivery_key (rateKey l key) /\ ~ update_key (rateKey l key).
Proof. unfold rateKey. intros ->. split; by intros [id [H|H]]; apply (inj (String.append _)) in H. Qed.

(** ** The protocol *)

Definition delivered (k h : string) (trace : list bot_entry) : Prop := exists token q, Posted token k q true ∈ trace /\ request_hash q = h.
Definition fair_entry (trace : list bot_entry) (e : bot_entry) : Prop :=
  match e with
  | Posted _ k q _ => valid_delivery q = true
  | OrderRequested u userID _ _ version key =>
      key = orderKey u /\ Consented userID version ∈ trace /\ exists tg, Identified tg userID "active" ∈ trace
  | PaymentRequested u userID _ key => key = paymentKey u /\ exists plan region version, OrderRequested u userID plan region version (orderKey u) ∈ trace
  | Identified _ _ _ | Consented _ _ | Said _ _ => True
  end.
Definition with_redis (r : redis) (s : bsys) : bsys := MkBot (b_now s) r (b_trace s).
Inductive bot_step (s : bsys) : bsys -> Prop :=
  | BTick now : b_now s <= now -> bot_step s (MkBot now (b_redis s) (b_trace s))
  | BStart k h token : bot_step s (with_redis (snd (StartDelivery cfg (b_now s) k h token (b_redis s))) s)
  | BRelease k h token : bot_step s (with_redis (snd (ReleaseDelivery cfg (b_now s) k h token (b_redis s))) s)
  | BComplete k h token : delivered k h (b_trace s) ->
      bot_step s (with_redis (snd (CompleteDelivery cfg (b_now s) k h token (b_redis s))) s)
  | BUpdateStart u token : bot_step s (with_redis (snd (StartProcessing cfg (b_now s) u token (b_redis s))) s)
  | BUpdateRelease u token : bot_step s (with_redis (snd (ReleaseProcessing cfg (b_now s) u token (b_redis s))) s)
  | BUpdateComplete u token : bot_step s (with_redis (snd (CompleteProcessing cfg (b_now s) u token (b_redis s))) s)
  | BOther r : (forall k, delivery_key k \/ update_key k -> r !! k = b_redis s !! k) -> bot_step s (with_redis r s)
  | BNote e : fair_entry (b_trace s) e -> bot_step s (note e s).
Record bot_inv (s : bsys) : Prop := {
  bi_completed : forall k v e, b_redis s !! ck k = Some (v, e) -> delivered k v (b_trace s);
  bi_single : forall k, is_Some (live (b_now s) (ck k) (b_redis s)) -> live (b_now s) (pk k) (b_redis s) = None;
  bi_fair : forall post e pre, b_trace s = post ++ e :: pre -> fair_entry pre e
}.

Lemma live_later now now' k r v : now <= now' -> live now' k r = Some v -> live now k r = Some v.
Proof.
  unfold live. intros Hn. destruct (r !! k) as [[v' [e|]]|]; [|done..]. destruct (Z.ltb_spec now' e); [|done].
  destruct (Z.ltb_spec now e); [done|lia].
Qed.
Lemma live_frame now k r r' : r' !! k = r !! k -> live now k r' = live now k r.
Proof. unfold live. by intros ->. Qed.
Lemma set_px_Some now k v ms r r' : set_px now k v ms r = Some r' -> r' = <[k := (v, Some (now + ms * millisecond))]> r /\ 0 < ms.
Proof. unfold set_px. destruct (Z.leb_spec ms 0); [done|]. by intros [= <-]. Qed.

(** What each script leaves. *)
Lemma StartDelivery_left now k h token r :
  snd (StartDelivery cfg now k h token r) = r \/
  live now (ck k) r = None /\ live now (pk k) r = None /\
  exists e, snd (StartDelivery cfg now k h token r) = <[pk k := (lease_value h token, Some e)]> r.
Proof.
  unfold StartDelivery. destruct (live now (ck k) r) eqn:E1; [by left|]. destruct (live now (pk k) r) eqn:E2; [by left|].
  destruct (set_px _ _ _ _ _) as [r'|] eqn:E; [|by left]. apply set_px_Some in E as [-> _]. right. split_and!; [done..|]. by eexists.
Qed.
Lemma CompleteDelivery_left now k h token r :
  snd (CompleteDelivery cfg now k h token r) = r \/
  live now (pk k) r = Some (lease_value h token) /\
  exists e, snd (CompleteDelivery cfg now k h token r) = delete (pk k) (<[ck k := (h, Some e)]> r).
Proof.
  unfold CompleteDelivery. case_bool_decide as E1; [|by left]. destruct (set_px _ _ _ _ _) as [r'|] eqn:E; [|by left].
  apply set_px_Some in E as [-> _]. right. split; [done|]. by eexists.
Qed.
Lemma ReleaseDelivery_left now k h token r :
  snd (ReleaseDelivery cfg now k h token r) = r \/ snd (ReleaseDelivery cfg now k h token r) = delete (pk k) r.
Proof. unfold ReleaseDelivery. case_bool_decide; [by right|by left]. Qed.
(** The scripts of the updates stay away from the deliveries. *)
Lemma update_scripts_apart now u token r k : delivery_key k ->
  snd (StartProcessing cfg now u token r) !! k = r !! k /\ snd (ReleaseProcessing cfg now u token r) !! k = r !! k /\
  snd (CompleteProcessing cfg now u token r) !! k = r !! k.
Proof.
  intros Hk. assert (uck u <> k /\ upk u <> k) as [H1 H2].
  { split; intros <-; eapply update_not_delivery; [|exact Hk| |exact Hk]; exists u; auto. }
  unfold StartProcessing, ReleaseProcessing, CompleteProcessing. split_and!.
  - do 2 (case_bool_decide; [done|]). destruct (set_px _ _ _ _ _) eqn:E; [|done]. apply set_px_Some in E as [-> _]. simpl. by rewrite lookup_insert_ne.
  - case_bool_decide; simpl; [by rewrite lookup_delete_ne|done].
  - destruct (set_px _ _ _ _ _) eqn:E; [|done]. apply set_px_Some in E as [-> _]. simpl.
    case_bool_decide; [rewrite lookup_delete_ne by done|]; by rewrite lookup_insert_ne.
Qed.

Lemma delivered_grows k h e trace : delivered k h trace -> delivered k h (e :: trace).
Proof. intros (token & q & H & Hh). exists token, q. split; [apply elem_of_cons; by right|done]. Qed.
(** Redis changes only where no delivery is kept. *)
Lemma inv_apart s r : (forall k, delivery_key k -> r !! k = b_redis s !! k) -> bot_inv s -> bot_inv (with_redis r s).
Proof.
  intros Hr [C S F]. assert (forall k, r !! ck k = b_redis s !! ck k /\ r !! pk k = b_redis s !! pk k) as Hk.
  { intros k. split; apply Hr; exists k; auto. }
  split; simpl; [| |done].
  - intros k v e H. rewrite (proj1 (Hk k)) in H. eauto.
  - intros k. rewrite (live_frame _ (ck k) _ _ (proj1 (Hk k))), (live_frame _ (pk k) _ _ (proj2 (Hk k))). apply S.
Qed.
Lemma bot_step_keeps s s' : bot_step s s' -> bot_inv s -> bot_inv s'.
Proof.
  intros Hs HI. pose proof HI as [C S F].
  destruct Hs as [now Hn|k h token|k h token|k h token Hd|u token|u token|u token|r Hr|e He].
  - split; simpl; [done| |done]. intros k [v Hv%(live_later _ _ _ _ _ Hn)].
    destruct (live now (pk k) (b_redis s)) as [v'|] eqn:E; [|done]. apply (live_later _ _ _ _ _ Hn) in E. rewrite S in E; [done|by eexists].
  - destruct (StartDelivery_left (b_now s) k h token (b_redis s)) as [->|(H1 & H2 & e & ->)]; [done|].
    split; simpl; [| |done].
    + intros k' v e'. rewrite lookup_insert_ne by (intros ?; by eapply ck_pk). apply C.
    + intros k'. rewrite (live_frame _ (ck k') (b_redis s)) by (apply lookup_insert_ne; intros ?; by eapply ck_pk). intros Hl.
      destruct (decide (k = k')) as [->|Hne]; [rewrite H1 in Hl; by destruct Hl|].
      rewrite (live_frame _ (pk k') (b_redis s)); [by apply S|]. apply lookup_insert_ne. by intros ?%pk_inj.
  - destruct (ReleaseDelivery_left (b_now s) k h token (b_redis s)) as [->| ->]; [done|]. split; simpl; [| |done].
    + intros k' v e'. rewrite lookup_delete_ne by (intros ?; by eapply ck_pk). apply C.
    + intros k'. rewrite (live_frame _ (ck k') (b_redis s)) by (apply lookup_delete_ne; intros ?; by eapply ck_pk). intros Hl.
      destruct (decide (k = k')) as [->|Hne]; [unfold live; by rewrite lookup_delete_eq|].
      rewrite (live_frame _ (pk k') (b_redis s)); [by apply S|]. apply lookup_delete_ne. by intros ?%pk_inj.
  - destruct (CompleteDelivery_left (b_now s) k h token (b_redis s)) as [->|(H1 & e & ->)]; [done|]. split; simpl; [| |done].
    + intros k' v e'. rewrite lookup_delete_ne by (intros ?; by eapply ck_pk).
      intros [[H [= <- <-]]|[Hne H]]%lookup_insert_Some; [apply ck_inj in H as ->; done|by eapply C].
    + intros k' Hl. destruct (decide (k = k')) as [->|Hne]; [unfold live; by rewrite lookup_delete_eq|].
      assert (pk k <> pk k') by (by intros ?%pk_inj). assert (ck k <> ck k') by (by intros ?%ck_inj).
      rewrite (live_frame _ (pk k') (b_redis s)); [apply S|rewrite lookup_delete_ne, lookup_insert_ne; [done|intros ?; by eapply ck_pk|done]].
      rewrite (live_frame _ (ck k') (b_redis s)) in Hl; [done|].
      rewrite lookup_delete_ne, lookup_insert_ne; [done|done|intros ?; by eapply ck_pk].
  - apply inv_apart; [|done]. intros k Hk. by apply update_scripts_apart.
  - apply inv_apart; [|done]. intros k Hk. by apply update_scripts_apart.
  - apply inv_apart; [|done]. intros k Hk. by apply update_scripts_apart.
  - apply inv_apart; [|done]. intros k Hk. apply Hr. by left.
  - split; simpl; [|done|].
    + intros k v x H. by eapply delivered_grows, C.
    + intros [|e' post] e0 pre [= -> E]; [by subst|]. by eapply F.
Qed.
#[export] Instance bot_protocol : Protocol bsys := {| pstep := bot_step; pinv := bot_inv; pstep_keeps := bot_step_keeps |}.

(** ** What others cannot take back *)

Lemma bot_step_grows s s' e : bot_step s s' -> e ∈ b_trace s -> e ∈ b_trace s'.
Proof. intros Hs He. destruct Hs; simpl; try done. apply elem_of_cons. by right. Qed.
Lemma stable_noted e : stable (fun s => e ∈ b_trace s).
Proof. intros s s' _ Hs. by apply bot_step_grows. Qed.
Lemma stable_delivered k h : stable (fun s => delivered k h (b_trace s)).
Proof. intros s s' _ Hs (token & q & H & Hh). exists token, q. split; [by eapply bot_step_grows|done]. Qed.

(** Redis remembers until [T] that [k] was delivered with [h]. *)
Definition remembered (k h : string) (T : Z) s : Prop := b_now s < T -> b_redis s !! ck k = Some (h, Some T).
Lemma remembered_live k h T s : remembered k h T s -> b_now s < T -> live (b_now s) (ck k) (b_redis s) = Some h.
Proof. intros H Hn. unfold live. rewrite (H Hn). by rewrite (proj2 (Z.ltb_lt _ _) Hn). Qed.
Lemma stable_remembered k h T : stable (remembered k h T).
Proof.
  intros s s' HI Hs H. unfold remembered in *.
  destruct Hs as [now Hn|k' h' token|k' h' token|k' h' token Hd|u token|u token|u token|r Hr|e He]; cbn [with_redis note b_redis b_now]; intros HT; [apply H; lia|..].
  - destruct (StartDelivery_left (b_now s) k' h' token (b_redis s)) as [->|(H1 & H2 & e & ->)]; [by apply H|].
    rewrite lookup_insert_ne by (intros ?; by eapply ck_pk). by apply H.
  - destruct (ReleaseDelivery_left (b_now s) k' h' token (b_redis s)) as [->| ->]; [by apply H|].
    rewrite lookup_delete_ne by (intros ?; by eapply ck_pk). by apply H.
  - destruct (CompleteDelivery_left (b_now s) k' h' token (b_redis s)) as [->|(H1 & e & ->)]; [by apply H|].
    destruct (decide (k' = k)) as [->|Hne].
    + exfalso. rewrite (bi_single _ HI k) in H1; [done|]. rewrite (remembered_live k h T s); [by eexists|done..].
    + rewrite lookup_delete_ne by (intros ?; by eapply ck_pk). rewrite lookup_insert_ne by (by intros ?%ck_inj). by apply H.
  - rewrite (proj1 (update_scripts_apart _ u token _ (ck k) ltac:(exists k; by left))). by apply H.
  - rewrite (proj1 (proj2 (update_scripts_apart _ u token _ (ck k) ltac:(exists k; by left)))). by apply H.
  - rewrite (proj2 (proj2 (update_scripts_apart _ u token _ (ck k) ltac:(exists k; by left)))). by apply H.
  - rewrite Hr by (left; exists k; by left). by apply H.
  - by apply H.
Qed.

(** The scripts of the deliveries stay away from the updates. *)
Lemma delivery_scripts_apart now id h token r k : update_key k ->
  snd (StartDelivery cfg now id h token r) !! k = r !! k /\ snd (ReleaseDelivery cfg now id h token r) !! k = r !! k /\
  snd (CompleteDelivery cfg now id h token r) !! k = r !! k.
Proof.
  intros Hk. assert (ck id <> k /\ pk id <> k) as [H1 H2].
  { split; intros <-; eapply update_not_delivery; [exact Hk| |exact Hk|]; exists id; auto. }
  split_and!.
  - destruct (StartDelivery_left now id h token r) as [->|(_ & _ & e & ->)]; [done|]. by rewrite lookup_insert_ne.
  - destruct (ReleaseDelivery_left now id h token r) as [->| ->]; [done|]. by rewrite lookup_delete_ne.
  - destruct (CompleteDelivery_left now id h token r) as [->|(_ & e & ->)]; [done|]. by rewrite lookup_delete_ne, lookup_insert_ne.
Qed.
(** Redis remembers at least until [T] that the update [u] was handled. *)
Definition dedupe_window : Z := ttlMillis (st_dedupeTTL cfg) * millisecond.
Definition handled (u T : Z) s : Prop := T <= b_now s + dedupe_window /\
  (b_now s < T -> exists v e, b_redis s !! uck u = Some (v, Some e) /\ T <= e).
Lemma uck_inj u u' : uck u = uck u' -> FormatInt u = FormatInt u'.
Proof. intros H%(inj (String.append _)). by injection H. Qed.
Lemma stable_handled u T : stable (handled u T).
Proof.
  intros s s' HI Hs [HT H]. unfold handled.
  destruct Hs as [now Hn|k' h' token|k' h' token|k' h' token Hd|u' token|u' token|u' token|r Hr|e He]; cbn [with_redis note b_redis b_now];
    (split; [lia|]); intros Hnow; [apply H; lia|..].
  - rewrite (proj1 (delivery_scripts_apart _ k' h' token _ (uck u) ltac:(exists u; by left))). by apply H.
  - rewrite (proj1 (proj2 (delivery_scripts_apart _ k' h' token _ (uck u) ltac:(exists u; by left)))). by apply H.
  - rewrite (proj2 (proj2 (delivery_scripts_apart _ k' h' token _ (uck u) ltac:(exists u; by left)))). by apply H.
  - unfold StartProcessing. do 2 (case_bool_decide; [by apply H|]). destruct (set_px _ _ _ _ _) eqn:E; [|by apply H].
    apply set_px_Some in E as [-> _]. simpl. rewrite lookup_insert_ne by (intros E; symmetry in E; by eapply uck_upk). by apply H.
  - unfold ReleaseProcessing. case_bool_decide; simpl; [|by apply H].
    rewrite lookup_delete_ne by (intros E; symmetry in E; by eapply uck_upk). by apply H.
  - unfold CompleteProcessing. destruct (set_px _ _ _ _ _) as [r'|] eqn:E; [|by apply H]. apply set_px_Some in E as [-> _]. simpl.
    assert (exists v e, <[uck u' := ("1"%string, Some (b_now s + dedupe_window))]> (b_redis s) !! uck u = Some (v, Some e) /\ T <= e) as H'.
    { destruct (decide (uck u' = uck u)) as [->|Hne]; [rewrite lookup_insert_eq; by do 2 eexists|rewrite lookup_insert_ne by done; by apply H]. }
    case_bool_decide; [|exact H']. rewrite lookup_delete_ne by (intros E; symmetry in E; by eapply uck_upk). exact H'.
  - rewrite Hr by (right; exists u; by left). by apply H.
  - by apply H.
Qed.
End protocol.
