(* ===== verification/TelegramJobs.v ===== *)
(** * telegram-bot: the handlers at work

    Deliveries and updates beside any other activity of the bot, and what the
    client of notification-service may conclude from an answer. *)

From Stdlib Require Import Ascii List.
From S2P Require Import Prelude GoStrings Sha256 Backoff Platform GoText Jobs NotificationDomain NotificationService.
From S2P Require Import TelegramBot TelegramWebhook TelegramSpec.

Section jobs.
Context (cfg : Store).
#[local] Existing Instance bot_protocol.
Context (between : nat -> bsys -> bsys) (Hrely : @relies bsys (bot_protocol cfg) between).
Abbreviation triple := (@triple bsys (bot_protocol cfg)).
Abbreviation stable := (@stable bsys (bot_protocol cfg)).

Lemma triple_eval {A} links P (m : Z -> redis -> option A * redis) (F : A -> bsys -> Prop) : stable P ->
  (forall s, bot_inv cfg s -> P s -> bot_step cfg s (with_redis (snd (m (b_now s) (b_redis s))) s)) ->
  (forall s x, bot_inv cfg s -> P s -> fst (m (b_now s) (b_redis s)) = Some x -> F x (with_redis (snd (m (b_now s) (b_redis s))) s)) ->
  triple P (eval between links m) (fun r s => P s /\ forall x, r = Some x -> F x s).
Proof.
  intros HP Hs HF. apply (triple_call between Hrely P); [exact HP|]. intros i s r s' HI HPs. destruct (links i).
  2: { intros [= <- <-]. split; [apply rtc_refl|]. intros _ x. by intros [=]. }
  all: destruct (m (b_now s) (b_redis s)) as [x r'] eqn:E; intros [= <- <-];
    specialize (Hs s HI HPs); rewrite E in Hs; (split; [by apply rtc_once|]); intros _ y Hy.
  2: done.
  specialize (HF s y HI HPs). rewrite E in HF. by apply HF.
Qed.
(** A script whose answer tells nothing. *)
Lemma triple_script {A} links P (m : Z -> redis -> option A * redis) : stable P ->
  (forall s, bot_inv cfg s -> P s -> bot_step cfg s (with_redis (snd (m (b_now s) (b_redis s))) s)) ->
  triple P (eval between links m) (fun _ => P).
Proof. intros HP Hs. eapply triple_conseq; [by apply (triple_eval links P m (fun _ _ => True))|done|]. by intros x s _ [H _]. Qed.

(** ** Deliveries *)

Section delivery.
Context (env : delivery_env) (decode_api : string -> option responseEnvelope) (decode_request : string -> option delivery_request).
Let me : string := RandomUUID (de_token env).

Lemma triple_post P k q : stable P -> valid_delivery q = true ->
  triple P (post between env decode_api k q) (fun r s => P s /\ (is_ok r = true -> delivered k (request_hash q) (b_trace s))).
Proof.
  intros HP Hq. apply (triple_call between Hrely P); [exact HP|]. intros i s r s' HI HPs E. injection E as <- <-. split.
  - by apply rtc_once, BNote.
  - intros _ Hok. rewrite Hok. exists me, q. split; [apply elem_of_cons; by left|done].
Qed.
Lemma triple_send_guarded k q : valid_delivery q = true ->
  triple (fun _ => True) (send_guarded cfg between env decode_api k q)
    (fun reply s => forall result reason n, reply = Delivery 200 result reason n -> delivered k (request_hash q) (b_trace s)).
Proof.
  intros Hq. unfold send_guarded. eapply triple_bind.
  { apply (triple_post (fun _ => True)); [by intros ? ?|done]. }
  intros [u|e].
  - eapply triple_seq with (R := fun s => delivered k (request_hash q) (b_trace s)).
    + eapply triple_weaken; [apply (triple_script _ (fun s => delivered k (request_hash q) (b_trace s)))|].
      * apply stable_delivered.
      * intros s _ Hd. by apply BComplete.
      * intros s [_ H]. by apply H.
    + intros completed. apply triple_ret. intros s _ Hd result reason n _. exact Hd.
  - eapply triple_seq with (R := fun _ => True).
    + eapply triple_weaken; [apply (triple_script _ (fun _ => True)); [by intros ? ?|]|done]. intros s _ _. apply BRelease.
    + intros x. apply triple_ret. intros s _ _ result reason n. unfold classifyTelegramDelivery.
      repeat case_bool_decide; repeat (destruct (_ || _)); done.
Qed.
(** An answer 200 is only given for a message the Bot API accepted. *)
Lemma triple_bot_Deliver id body : triple (fun _ => True) (bot_Deliver cfg between env decode_api decode_request id body)
  (fun reply s => forall result reason n, reply = Delivery 200 result reason n -> forall q, decodeDeliveryJSON decode_request body = Some q ->
     delivered (TrimSpace id) (request_hash q) (b_trace s)).
Proof.
  unfold bot_Deliver. destruct (negb _); [by apply triple_ret|]. destruct (decodeDeliveryJSON _ _) as [q|] eqn:Eq; [|by apply triple_ret].
  destruct (valid_delivery q) eqn:Hv; cbn [negb]; [|by apply triple_ret].
  eapply triple_bind.
  { apply (triple_eval _ (fun _ => True) _ (fun state s => state = "completed"%string -> delivered (TrimSpace id) (request_hash q) (b_trace s)));
      [by intros ? ?|intros s _ _; apply BStart|].
    intros s x HI _ Hx Hc. subst x. unfold StartDelivery in Hx |- *. destruct (live _ _ _) as [h|] eqn:El.
    - simpl in Hx. case_bool_decide as Eh; [|done]. subst h. cbn. unfold live in El.
      destruct (b_redis s !! _) as [[v e]|] eqn:Er; [|done]. apply (bi_completed _ _ HI) in Er.
      destruct e as [e|]; [destruct (b_now s <? e); [|done]|]; injection El as El; by rewrite El in Er.
    - destruct (live (b_now s) (deliveryProcessingKey cfg _) _); [simpl in Hx; by case_bool_decide|]. by destruct (set_px _ _ _ _ _). }
  intros [state|]; [|by apply triple_ret].
  assert (forall (reply : delivery_reply) (H : forall result reason n, reply <> Delivery 200 result reason n),
    triple (fun s => True /\ forall x, Some state = Some x -> x = "completed"%string -> delivered (TrimSpace id) (request_hash q) (b_trace s)) (mret reply)
      (fun reply s => forall result reason n, reply = Delivery 200 result reason n -> forall q0, Some q = Some q0 ->
         delivered (TrimSpace id) (request_hash q0) (b_trace s))) as Hother.
  { intros reply H. apply triple_ret. intros s _ _ result reason n E. by destruct (H result reason n). }
  case_bool_decide as E1; [|do 2 (case_bool_decide; [by apply Hother|]); case_bool_decide; [|by apply Hother]].
  - apply triple_ret. intros s _ [_ Hd] result reason n _ q' [= <-]. by eapply Hd.
  - eapply triple_conseq; [by apply (triple_send_guarded (TrimSpace id) q)|done|]. intros reply s _ Hd result reason n E q' [= <-]. by eapply Hd.
Qed.
End delivery.

(** ** Updates *)

Section update.
Context (wcfg : Config) (limiter : option RateLimiter) (dec : webhook_decoders) (env : webhook_env).
Context (Hprefix : forall l, limiter = Some l -> rl_keyPrefix l = st_keyPrefix cfg).

Lemma triple_attempt {A B} P (m : job bsys (option A)) (k : A -> job bsys (option B)) (R : A -> bsys -> Prop) (Q : option B -> bsys -> Prop) :
  triple P m (fun r s => forall a, r = Some a -> R a s) -> (forall a, triple (R a) (k a) Q) -> (forall s, Q None s) ->
  triple P (attempt m k) Q.
Proof.
  intros Hm Hk HQ. unfold attempt. eapply triple_bind; [exact Hm|]. intros [a|]; [|by apply triple_ret].
  eapply triple_conseq; [apply Hk|intros s H; by apply H|done].
Qed.
(** [R]: what an answer that came through tells. *)
Ltac learn R := simple refine (triple_attempt _ _ _ R _ _ _ _); cbv beta; [| |done].
(** A step whose answer tells nothing more than was known. *)
Lemma triple_then {A B} P (m : job bsys (option A)) (k : A -> job bsys (option B)) (Q : option B -> bsys -> Prop) :
  triple P m (fun _ => P) -> (forall a, triple P (k a) Q) -> (forall s, Q None s) -> triple P (attempt m k) Q.
Proof. intros Hm. apply triple_attempt. eapply triple_conseq; [exact Hm|done|]. by intros x s _ H a _. Qed.
Lemma triple_consult {A} P (f : nat -> option A) (entry : A -> option bot_entry) : stable P ->
  (forall a e trace, entry a = Some e -> fair_entry trace e) ->
  triple P (consult between f entry) (fun r s => P s /\ forall a e, r = Some a -> entry a = Some e -> e ∈ b_trace s).
Proof.
  intros HP Hf. apply (triple_call between Hrely P); [exact HP|]. intros i s r s' HI HPs. destruct (f i) as [a|]; [|intros [= <- <-]; split; [apply rtc_refl|done]].
  destruct (entry a) as [e|] eqn:Ee; intros [= <- <-].
  - split; [apply rtc_once, BNote; by eapply Hf|]. intros _ a' e' [= <-] E. rewrite Ee in E. injection E as <-. apply elem_of_cons. by left.
  - split; [apply rtc_refl|]. intros _ a' e' [= <-]. congruence.
Qed.
Lemma triple_request {A} P (f : nat -> option A) (e : bot_entry) : stable P -> (forall s, P s -> fair_entry (b_trace s) e) ->
  triple P (request between f e) (fun _ s => P s /\ e ∈ b_trace s).
Proof.
  intros HP Hf. apply (triple_call between Hrely P); [exact HP|]. intros i s r s' HI HPs [= <- <-].
  split; [apply rtc_once, BNote; by apply Hf|]. intros _. apply elem_of_cons. by left.
Qed.
Lemma triple_SendMessage P chat text : stable P -> triple P (SendMessage dec between env chat text) (fun _ => P).
Proof. intros HP. eapply triple_conseq; [by apply (triple_request P)|done|]. by intros x s _ [H _]. Qed.
Lemma triple_say P chat text : triple P (SendMessage dec between env chat text) (fun _ _ => True).
Proof. apply (triple_weaken P (fun _ => True)); [|done]. by apply (triple_SendMessage (fun _ => True)). Qed.
Lemma bot_triple_state P u state : stable P -> triple P (set_state cfg between env u state) (fun _ => P).
Proof.
  intros HP. apply triple_script; [exact HP|]. intros s _ _. apply BOther. intros k Hk. simpl. apply lookup_insert_ne. intros <-.
  destruct (fsm_apart cfg u) as [H1 H2]. by destruct Hk.
Qed.
Lemma triple_menu P u chat : stable P -> triple P (menu cfg dec between env u chat) (fun _ _ => True).
Proof. intros HP. eapply triple_then; [by apply bot_triple_state|intros _; apply triple_say|done]. Qed.

(** A user who may buy. *)
Definition active_user (userID : string) (s : bsys) : Prop := exists tg, Identified tg userID "active" ∈ b_trace s.
Definition consented (userID : string) (s : bsys) : Prop := Consented userID (wc_ConsentVersion wcfg) ∈ b_trace s.
Definition entitled (userID : string) (s : bsys) : Prop := consented userID s /\ active_user userID s.
Lemma stable_active userID : stable (active_user userID).
Proof. intros s s' _ Hs [tg H]. exists tg. exact (bot_step_grows cfg s s' _ Hs H). Qed.
Lemma stable_entitled userID : stable (entitled userID).
Proof. apply stable_and; [apply stable_noted|apply stable_active]. Qed.
Lemma triple_HasConsent P userID : stable P ->
  triple P (HasConsent wcfg dec between env userID) (fun r s => P s /\ (r = Some true -> consented userID s)).
Proof.
  intros HP. eapply triple_conseq; [apply (triple_consult P); [exact HP|]|done|].
  - intros [|] e trace E; [injection E as <-; exact I|done].
  - intros x s _ [H1 H2]. split; [done|]. intros ->. exact (H2 true _ eq_refl eq_refl).
Qed.
Lemma triple_ensureConsent P userID tg chat : stable P ->
  triple P (ensureConsent cfg wcfg dec between env userID tg chat) (fun r s => r = Some true -> P s /\ consented userID s).
Proof.
  intros HP. unfold ensureConsent. learn (fun accepted s => P s /\ (accepted = true -> consented userID s)).
  - eapply triple_conseq; [by apply triple_HasConsent|done|]. intros x s _ [H1 H2] a ->. split; [done|]. intros ->. auto.
  - intros [|]; [apply triple_ret; naive_solver|]. eapply (triple_conseq _ (fun _ => True)); [|done|by intros x s _ H; exact H].
    eapply triple_then; [by apply bot_triple_state|intros _|done].
    eapply triple_then; [by apply triple_SendMessage|intros _|done]. by apply triple_ret.
Qed.
Lemma triple_with_consent P userID tg chat k : stable P -> triple (fun s => P s /\ consented userID s) k (fun _ _ => True) ->
  triple P (with_consent cfg wcfg dec between env userID tg chat k) (fun _ _ => True).
Proof.
  intros HP Hk. unfold with_consent. learn (fun accepted s => accepted = true -> P s /\ consented userID s).
  - eapply triple_conseq; [by apply triple_ensureConsent|done|]. intros x s _ H a ->. intros ->. auto.
  - intros [|]; [|apply triple_done]. eapply triple_weaken; [exact Hk|]. intros s H. by apply H.
Qed.
Lemma triple_list_plans P : stable P -> triple P (list_plans dec between env) (fun _ => P).
Proof. intros HP. eapply triple_conseq; [by apply (triple_consult P)|done|]. by intros x s _ [H _]. Qed.
(** The order is requested for a user who may buy, the payment for an order
    that was requested, both under the keys of the update. *)
Lemma triple_createPayment u chat userID : triple (entitled userID) (createPayment wcfg dec between env u chat userID) (fun _ _ => True).
Proof.
  unfold createPayment. destruct (_ || _); [apply triple_say|].
  eapply triple_then; [apply triple_list_plans, stable_entitled|intros plans|done].
  destruct plans as [|plan plans]; [apply triple_say|]. destruct (pl_Regions plan) as [|region regions]; [apply triple_say|].
  set (e := OrderRequested _ _ _ _ _ _). learn (fun (_ : Order) s => entitled userID s /\ e ∈ b_trace s).
  - eapply triple_conseq; [apply (triple_request (entitled userID) _ e); [apply stable_entitled|]|done|by intros x s _ H a _].
    intros s [H1 H2]. by split_and!.
  - intros order. set (f := PaymentRequested _ _ _ _). learn (fun (_ : Payment) (_ : bsys) => True).
    + eapply triple_conseq; [apply (triple_request (fun s => e ∈ b_trace s) _ f); [apply stable_noted|]|by intros s [_ H]|done].
      intros s H. split; [done|]. by do 3 eexists.
    + intros payment. destruct (py_ConfirmationURL payment); apply triple_say.
Qed.
Lemma triple_command u chat tg userID text :
  triple (active_user userID) (command cfg wcfg dec between env u chat tg userID text) (fun _ _ => True).
Proof.
  assert (stable (active_user userID)) as HP by apply stable_active. unfold command, start, otherwise. cbv zeta. case_bool_decide.
  { learn (fun _ : bool => active_user userID).
    - eapply triple_conseq; [by apply triple_HasConsent|done|]. by intros x s _ [Hx _] a _.
    - intros [|]; [by apply triple_menu|]. eapply triple_then; [by apply bot_triple_state|intros _; apply triple_say|done]. }
  destruct (_ || _).
  { apply triple_with_consent; [done|]. unfold sendPlans. destruct (negb _); [apply triple_say|].
    eapply triple_then; [apply triple_list_plans, stable_and; [done|apply stable_noted]|intros plans|done]. destruct plans; apply triple_say. }
  destruct (_ || _).
  { apply triple_with_consent; [done|]. eapply triple_weaken; [apply triple_createPayment|]. by intros s [H1 H2]. }
  eapply triple_then; [apply triple_script; [done|]|intros state|done].
  { intros s _ _. by apply BOther. }
  destruct (_ && _); [|apply triple_say]. learn (fun (_ : unit) (_ : bsys) => True).
  - eapply triple_conseq; [by apply (triple_consult (fun _ => True))|done|done].
  - intros _. by apply triple_menu.
Qed.
Lemma triple_process up : triple (fun _ => True) (bot_process cfg wcfg dec between env up) (fun _ _ => True).
Proof.
  unfold bot_process. destruct (up_Message up) as [m|]; [|apply triple_done]. destruct (m_From m) as [from|]; [|apply triple_done]. cbv zeta.
  destruct (_ || _); [apply triple_done|].
  learn (fun user s => Identified (u_ID from) (iu_UserID user) (iu_Status user) ∈ b_trace s).
  - eapply triple_conseq; [apply (triple_consult (fun _ => True)); [done|by intros a e trace [= <-]]|done|].
    intros x s _ [_ H] a ->. exact (H a _ eq_refl eq_refl).
  - intros user. case_bool_decide as E; [|apply triple_say]. rewrite E. eapply triple_weaken; [apply triple_command|].
    intros s H. by exists (u_ID from).
Qed.
Lemma triple_admitted : triple (fun _ => True) (admitted wcfg limiter between env) (fun _ _ => True).
Proof.
  unfold admitted. destruct limiter as [l|] eqn:El; [|apply triple_done]. unfold Allow. set (key := if bool_decide _ then _ else _).
  pose proof (rate_apart cfg l key (Hprefix l eq_refl)) as [H1 H2].
  assert (forall (A : Type) (m : Z -> redis -> option A * redis),
    (forall now r k, k <> rateKey l key -> snd (m now r) !! k = r !! k) ->
    triple (fun _ => True) (eval between (we_link env) m) (fun _ _ => True)) as Hm.
  { intros A m Hm. apply triple_script; [by intros ? ?|]. intros s _ _. apply BOther. intros k Hk. apply Hm. intros ->. by destruct Hk. }
  eapply triple_bind; [apply Hm|].
  - intros now r k Hk. unfold Incr. destruct (live _ _ _) as [v|]; [|simpl; by rewrite lookup_insert_ne].
    destruct (ParseInt v) as [n|]; [|done]. destruct (_ =? _); [done|]. simpl. by rewrite lookup_insert_ne.
  - intros [count|]; [|apply triple_done]. destruct (count =? 1); [|apply triple_done].
    eapply triple_bind; [apply Hm|intros; apply triple_done]. intros now r k Hk. unfold Expire. cbv zeta. simpl.
    destruct (live _ _ _); [by rewrite lookup_insert_ne|done].
Qed.
Lemma triple_guarded up : triple (fun _ => True) (guarded cfg wcfg dec between env up) (fun _ _ => True).
Proof.
  unfold guarded. eapply triple_bind; [apply (triple_script _ (fun _ => True)); [by intros ? ?|intros s _ _; apply BUpdateStart]|].
  intros [status|]; [|apply triple_done]. do 2 (case_bool_decide; [apply triple_done|]).
  eapply triple_bind; [apply triple_process|]. intros [u|];
    (eapply triple_bind; [apply (triple_script _ (fun _ => True)); [by intros ? ?|intros s _ _]|intros; apply triple_done]).
  - apply BUpdateComplete.
  - apply BUpdateRelease.
Qed.
Lemma triple_ServeHTTP secret body : triple (fun _ => True) (ServeHTTP cfg wcfg limiter dec between env secret body) (fun _ _ => True).
Proof.
  unfold ServeHTTP. destruct (negb _); [apply triple_done|]. eapply triple_bind; [apply triple_admitted|].
  intros [[|]|]; [|apply triple_done..]. destruct (dec_update _ _) as [up|]; [|apply triple_done].
  destruct (_ <=? _); [apply triple_done|apply triple_guarded].
Qed.
End update.
End jobs.

(** ** What follows *)

(** An answer of the bot as the client of notification-service sees it:
    [encode] writes the body, [problem] that of a refused request. *)
Definition delivery_response (encode : delivery_body -> string) (problem : string -> string) (reply : delivery_reply) : option (Z * string) :=
  match reply with
  | BadRequest code => Some (400, problem code)
  | Delivery status result reason n => Some (status, encode (MkDeliveryBody result reason n))
  end.
Lemma accepted_status cdec r replayed : Deliver cdec r = Ok replayed -> exists body, r = Some (200, body).
Proof.
  unfold Deliver. destruct r as [[status body]|]; [|done]. destruct (strict _ _) as [p|]; [|done]. destruct (_ || _); [done|].
  destruct (same _ "delivered"); [destruct (Z.eqb_spec status 200) as [->|]; [by exists body|done]|].
  destruct (same _ "replay"); [destruct (Z.eqb_spec status 200) as [->|]; [by exists body|done]|].
  destruct (same _ "retryable"); [by destruct (_ || _)|]. destruct (same _ "permanent"); [by destruct (_ || _)|done].
Qed.

(** C15: What notification-service counts as delivered was accepted by the Bot
    API: when the bot's answer to a request makes the client report success,
    now or as a repetition, the bot has on record that the Bot API took a
    message with this delivery's identifier whose chat, type, version and
    text have the request's hash, whatever else the bot and others do. *)
Theorem accepted_means_sent cfg between env decode_api decode_request id body q w reply w' cdec encode problem replayed :
  @relies bsys (bot_protocol cfg) between -> bot_inv cfg (w_state w) ->
  bot_Deliver cfg between env decode_api decode_request id body w = (reply, w') ->
  decodeDeliveryJSON decode_request body = Some q ->
  Deliver cdec (delivery_response encode problem reply) = Ok replayed ->
  exists token q', Posted token (TrimSpace id) q' true ∈ b_trace (w_state w') /\ request_hash q' = request_hash q.
Proof.
  intros Hrely HI Hrun Hq Hok. apply accepted_status in Hok as [text Hr].
  destruct (triple_bot_Deliver cfg between Hrely env decode_api decode_request id body w reply w' HI I Hrun) as [_ H].
  destruct reply as [code|status result reason n]; [done|]. injection Hr as -> _. exact (H result reason n eq_refl q Hq).
Qed.

(** What completing leaves in Redis. *)
Lemma CompleteDelivery_remembers cfg s id h token r' : CompleteDelivery cfg (b_now s) id h token (b_redis s) = (Some true, r') ->
  0 < dedupe_window cfg /\ remembered cfg id h (b_now s + dedupe_window cfg) (MkBot (b_now s) r' (b_trace s)).
Proof.
  unfold CompleteDelivery. case_bool_decide; [|done]. destruct (set_px _ _ _ _ _) as [r|] eqn:E; [|done]. intros [= <-].
  apply set_px_Some in E as [-> Hms]. unfold remembered, dedupe_window. split; [by apply Z.mul_pos_pos|]. intros _. simpl.
  rewrite lookup_delete_ne by (intros ?; by eapply ck_pk). apply lookup_insert_eq.
Qed.
Lemma CompleteProcessing_remembers cfg s u token r' : CompleteProcessing cfg (b_now s) u token (b_redis s) = (Some tt, r') ->
  0 < dedupe_window cfg /\ handled cfg u (b_now s + dedupe_window cfg) (MkBot (b_now s) r' (b_trace s)).
Proof.
  unfold CompleteProcessing. destruct (set_px _ _ _ _ _) as [r|] eqn:E; [|done]. intros [= <-].
  apply set_px_Some in E as [-> Hms]. unfold handled, dedupe_window. split; [by apply Z.mul_pos_pos|]. split; [simpl; lia|]. intros _.
  do 2 eexists. split; [|reflexivity]. simpl. case_bool_decide; [|apply lookup_insert_eq].
  rewrite lookup_delete_ne by (intros ?; by eapply uck_upk). apply lookup_insert_eq.
Qed.
Lemma eval_Some {A} between links (m : Z -> redis -> option A * redis) w x w' : eval between links m w = (Some x, w') ->
  exists s r', s = between (w_step w) (w_state w) /\ m (b_now s) (b_redis s) = (Some x, r') /\ w_state w' = MkBot (b_now s) r' (b_trace s).
Proof.
  unfold eval, call. set (s := between _ _). destruct (m (b_now s) (b_redis s)) as [y r'] eqn:E.
  destruct (links _); [|done..]. intros [= -> <-]. by exists s, r'.
Qed.
Lemma delivered_remembered cfg between env decode_api decode_request id body q w reason n w' :
  decodeDeliveryJSON decode_request body = Some q ->
  bot_Deliver cfg between env decode_api decode_request id body w = (Delivery 200 "delivered" reason n, w') ->
  0 < dedupe_window cfg /\ remembered cfg (TrimSpace id) (request_hash q) (b_now (w_state w') + dedupe_window cfg) (w_state w').
Proof.
  intros Hq. unfold bot_Deliver. rewrite Hq. destruct (negb _); [done|]. destruct (negb _); [done|].
  unfold mbind, job_bind. destruct (eval _ _ _ w) as [[state|] w1]; [|done].
  do 3 (case_bool_decide; [done|]). case_bool_decide; [|done]. unfold send_guarded, mbind, job_bind.
  destruct (post _ _ _ _ _ w1) as [[u|e] w2].
  - destruct (eval _ _ _ w2) as [[[|]|] w3] eqn:E; [|done|done]. intros [= _ _ <-].
    apply eval_Some in E as (s & r' & _ & E & ->). by apply CompleteDelivery_remembers in E.
  - destruct (eval _ _ _ w2) as [x w3]. injection 1 as E _. revert E. unfold classifyTelegramDelivery.
    repeat case_bool_decide; repeat (destruct (_ || _)); done.
Qed.
Lemma done_handled cfg wcfg dec between env up w w' :
  live (b_now (between (w_step w) (w_state w))) (completedKey cfg (up_UpdateID up)) (b_redis (between (w_step w) (w_state w))) = None ->
  guarded cfg wcfg dec between env up w = (Done, w') ->
  0 < dedupe_window cfg /\ handled cfg (up_UpdateID up) (b_now (w_state w') + dedupe_window cfg) (w_state w').
Proof.
  intros Hl. unfold guarded, mbind, job_bind. destruct (eval _ _ _ w) as [[status|] w1] eqn:E; [|done]. case_bool_decide as Hc.
  { exfalso. subst status. apply eval_Some in E as (s & r' & -> & E & _). revert E. unfold StartProcessing. rewrite Hl.
    rewrite bool_decide_false by (by intros [? ?]). case_bool_decide; [done|]. by destruct (set_px _ _ _ _ _). }
  case_bool_decide; [done|]. destruct (bot_process _ _ _ _ _ _ w1) as [[u|] w2]; [|by destruct (eval _ _ _ w2)].
  destruct (eval _ _ _ w2) as [[[]|] w3] eqn:E2; [|done]. intros [= <-].
  apply eval_Some in E2 as (s & r' & _ & E2 & ->). by apply CompleteProcessing_remembers in E2.
Qed.

(** C17: A delivery reported as delivered, and an update whose handling ended
    well, are remembered by Redis for the window the configuration gives; and
    while Redis remembers, neither is carried out again: the handler changes
    nothing and sends nothing, a delivery is answered as a repetition, or
    refused as a permanent conflict when its content differs. Whatever other
    handlers do at the same time, none takes the record away before it expires. *)
Theorem completed_work_is_not_repeated cfg between :
  @relies bsys (bot_protocol cfg) between ->
  (forall env decode_api decode_request id body q w reply w' h T, bot_inv cfg (w_state w) ->
     remembered cfg (TrimSpace id) h T (w_state w) -> b_now (between (w_step w) (w_state w)) < T -> de_link env (w_step w) = Up ->
     any_uuid (TrimSpace id) = true -> decodeDeliveryJSON decode_request body = Some q -> valid_delivery q = true ->
     bot_Deliver cfg between env decode_api decode_request id body w = (reply, w') ->
     w_state w' = between (w_step w) (w_state w) /\
     reply = if bool_decide (h = request_hash q) then Delivery 200 "replay" "" 0 else Delivery 409 "permanent" "delivery_id_conflict" 0) /\
  (forall env decode_api decode_request id body q w reason n w', decodeDeliveryJSON decode_request body = Some q ->
     bot_Deliver cfg between env decode_api decode_request id body w = (Delivery 200 "delivered" reason n, w') ->
     0 < dedupe_window cfg /\ remembered cfg (TrimSpace id) (request_hash q) (b_now (w_state w') + dedupe_window cfg) (w_state w')) /\
  (forall wcfg dec env up w reply w' T, bot_inv cfg (w_state w) ->
     handled cfg (up_UpdateID up) T (w_state w) -> b_now (between (w_step w) (w_state w)) < T -> we_link env (w_step w) = Up ->
     guarded cfg wcfg dec between env up w = (reply, w') ->
     w_state w' = between (w_step w) (w_state w) /\ reply = Done) /\
  (forall wcfg dec env up w w', live (b_now (between (w_step w) (w_state w))) (completedKey cfg (up_UpdateID up))
       (b_redis (between (w_step w) (w_state w))) = None ->
     guarded cfg wcfg dec between env up w = (Done, w') ->
     0 < dedupe_window cfg /\ handled cfg (up_UpdateID up) (b_now (w_state w') + dedupe_window cfg) (w_state w')).
Proof.
  intros Hrely. split_and!; [|intros *; apply delivered_remembered| |intros *; apply done_handled].
  - intros env da dr id body q w reply w' h T HI Hrem Hnow Hup Hid Hq Hv. unfold bot_Deliver. rewrite Hid, Hq, Hv. cbn [negb].
    unfold mbind, job_bind, eval, call. rewrite Hup. set (s := between (w_step w) (w_state w)) in *.
    pose proof (@stable_rtc bsys (bot_protocol cfg) _ _ _ (stable_remembered cfg _ h T) HI (Hrely (w_step w) _ HI) Hrem) as Hs.
    fold s in Hs. unfold StartDelivery. rewrite (remembered_live cfg _ h T s Hs Hnow).
    destruct (bool_decide (h = request_hash q)); rewrite ?(bool_decide_true (_ = _)), ?(bool_decide_false (_ = _)) by done;
      intros H; injection H as <- <-; (split; [by destruct s|done]).
  - intros wcfg dec env up w reply w' T HI Hh Hnow Hup. unfold guarded, mbind, job_bind, eval, call. rewrite Hup.
    set (s := between (w_step w) (w_state w)) in *.
    destruct (@stable_rtc bsys (bot_protocol cfg) _ _ _ (stable_handled cfg _ T) HI (Hrely (w_step w) _ HI) Hh) as [_ Hs].
    destruct (Hs Hnow) as (v & e & He & HT). fold s in He. unfold StartProcessing.
    rewrite bool_decide_true by (exists v; unfold live; rewrite He, (proj2 (Z.ltb_lt _ _)); [done|lia]).
    rewrite bool_decide_true by done. intros H; injection H as <- <-. split; [by destruct s|done].
Qed.

(** C16: Orders are requested only for a user identity-service called active
    and who had accepted the very version of the terms the order names, a
    payment only after an order of that user was requested for the same
    update; and both under keys that depend on the update alone, so that a
    repeated update asks for the same order and payment. *)
Theorem orders_need_consent cfg wcfg limiter dec between env secret body w r w' :
  @relies bsys (bot_protocol cfg) between -> (forall l, limiter = Some l -> rl_keyPrefix l = st_keyPrefix cfg) -> bot_inv cfg (w_state w) ->
  ServeHTTP cfg wcfg limiter dec between env secret body w = (r, w') ->
  rtc (bot_step cfg) (w_state w) (w_state w') /\
  (forall post u userID plan region version key pre,
     b_trace (w_state w') = post ++ OrderRequested u userID plan region version key :: pre ->
     key = orderKey u /\ Consented userID version ∈ pre /\ exists tg, Identified tg userID "active" ∈ pre) /\
  (forall post u userID orderID key pre, b_trace (w_state w') = post ++ PaymentRequested u userID orderID key :: pre ->
     key = paymentKey u /\ exists plan region version, OrderRequested u userID plan region version (orderKey u) ∈ pre).
Proof.
  intros Hrely Hl HI Hrun. destruct (triple_ServeHTTP cfg between Hrely wcfg limiter dec env Hl secret body w r w' HI I Hrun) as [Hs _].
  pose proof (@rtc_keeps bsys (bot_protocol cfg) _ _ Hs HI) as HI'. split; [exact Hs|].
  split; intros; match goal with H : b_trace _ = _ |- _ => exact (bi_fair _ _ HI' _ _ _ H) end.
Qed.

(** ** The rate limit *)

(** A counter that lost its time to live, because the call after the first
    [INCR] of a window failed, never goes away: once it has reached the limit,
    every later request is refused. *)
Lemma lost_expiry_blocks_forever l key n now r : rl_limit l <= n -> 1 <= n < 2 ^ 63 - 1 ->
  r !! rateKey l key = Some (FormatInt n, None) ->
  exists r', Incr now (rateKey l key) r = (Some (n + 1), r') /\ (n + 1 <=? rl_limit l) = false /\ (n + 1 =? 1) = false /\
    r' !! rateKey l key = Some (FormatInt (n + 1), None).
Proof.
  intros Hn Hb Hr. unfold Incr, live. rewrite Hr. unfold FormatInt. destruct (Z.ltb_spec n 0); [lia|].
  rewrite ParseInt_decimal by (unfold is_int64; lia). destruct (Z.eqb_spec n (2 ^ 63 - 1)); [lia|].
  eexists. split; [reflexivity|]. split_and!; [lia|lia|apply lookup_insert_eq].
Qed.
