(* ===== verification/TelegramDemo.v ===== *)
(** * telegram-bot: runs

    A message of notification-service goes out and comes again; a user buys,
    and asks a second time. *)

From Stdlib Require Import Ascii List.
From S2P Require Import Prelude GoStrings Sha256 Backoff Platform GoText Jobs NotificationDomain NotificationService.
From S2P Require Import TelegramBot TelegramWebhook TelegramSpec TelegramJobs.

Module TelegramRuns.

Definition demo_store : Store := New "" (7 * 24 * 60 * minute) 0 (24 * 60 * minute).
Definition only {A} (text : string) (a : A) (s : string) : option A := if bool_decide (s = text) then Some a else None.
Definition fresh : bsys := MkBot (100 * second) ∅ [].
Definition alone (i : nat) (s : bsys) : bsys := s.
Definition alone_relies : @relies bsys (bot_protocol demo_store) alone.
Proof. intros i s _. apply rtc_refl. Qed.
Lemma fresh_inv : bot_inv demo_store fresh.
Proof. split; [done|done|]. by intros [|]. Qed.

(** ** A delivery *)

Definition delivery_id : string := "00000000-0000-4000-8000-000000000077".
Definition demo_request : delivery_request := MkDelivery 42 "payment_confirmed" 1 "<b>Payment confirmed.</b> We are preparing your VPN access.".
Definition demo_api : string -> option responseEnvelope := only "ok" (MkResponse true 0 None).
Definition demo_delivery (byte : Z) : delivery_env := MkDeliveryEnv (fun _ => Up) (repeat byte 16) (fun _ => Some (200, Some "ok"%string)).
Definition deliver_once (byte : Z) (w : world bsys) : delivery_reply * world bsys :=
  bot_Deliver demo_store alone (demo_delivery byte) demo_api (only "request" demo_request) delivery_id "request" w.
Definition w_sent : world bsys := Eval vm_compute in snd (deliver_once 1 (MkWorld 0 fresh)).
Lemma sent_run : deliver_once 1 (MkWorld 0 fresh) = (Delivery 200 "delivered" "" 0, w_sent).
Proof. evaluates. Qed.
Definition demo_answers : client_decoders := MkClientDecoders (fun _ => None) (fun _ => None) (fun _ => None)
  (only "delivered" (MkDeliveryBody "delivered" "" 0)).
Lemma accepted_means_sent_witness :
  exists token q', Posted token delivery_id q' true ∈ b_trace (w_state w_sent) /\ request_hash q' = request_hash demo_request.
Proof.
  exact (accepted_means_sent demo_store alone (demo_delivery 1) demo_api (only "request"%string demo_request) delivery_id "request" demo_request
    (MkWorld 0 fresh) _ w_sent demo_answers db_Status (fun code => code) false alone_relies fresh_inv sent_run
    ltac:(vm_compute; reflexivity) ltac:(vm_compute; reflexivity)).
Defined.
Lemma sent_inv : bot_inv demo_store (w_state w_sent).
Proof.
  destruct (triple_bot_Deliver demo_store alone alone_relies (demo_delivery 1) demo_api (only "request"%string demo_request) delivery_id "request"
    (MkWorld 0 fresh) _ w_sent fresh_inv I sent_run) as [Hs _]. exact (@rtc_keeps bsys (bot_protocol demo_store) _ _ Hs fresh_inv).
Qed.
Definition week_later : Z := 100 * second + 7 * 24 * 60 * minute.

(** ** Purchases *)

Definition demo_config : Config := MkConfig "s3cret" "2026-07" "https://vpn.example.org/terms" "".
Definition buy (u : Z) : update := MkUpdate u (Some (MkMessage "/buy" 42 (Some (MkUser 7 "ann" "Ann" "" "en")))).
Definition demo_webhook : webhook_decoders := MkWebhookDecoders
  (fun s => if bool_decide (s = "buy 5"%string) then Some (buy 5) else only "buy 6"%string (buy 6) s)
  (only "user" (MkIdentityUser "user-1" "active")) (only "yes" true) (only "plans" [MkPlan "plan-1" "Month" 30 49900 "RUB" ["eu"]])
  (only "order" (MkOrder "order-1")) (only "payment" (MkPayment "pending" None)) demo_api.
Definition demo_web : webhook_env := MkWebhookEnv 123 (fun _ => Up)
  (fun i => Some (200, if (i =? 3)%nat || (i =? 12)%nat then "user" else "yes")%string) (fun _ => Some (200, "plans"%string))
  (fun i => Some (201, if (i =? 6)%nat || (i =? 15)%nat then "order" else "payment")%string) (fun _ => Some (200, Some "ok"%string)) true true.
Definition demo_limiter : RateLimiter := NewRateLimiter "" 30 minute.
Definition serve (body : string) (w : world bsys) : reply * world bsys :=
  ServeHTTP demo_store demo_config (Some demo_limiter) demo_webhook alone demo_web "s3cret" body w.
Definition w_bought : world bsys := Eval vm_compute in snd (serve "buy 5" (MkWorld 0 fresh)).
Lemma bought_run : serve "buy 5" (MkWorld 0 fresh) = (Done, w_bought).
Proof. evaluates. Qed.
(** The text asks the user to send /buy again to check the payment. That is
    another update, and so another order and another payment. *)
Example buying_again_orders_again :
  b_trace (w_state (snd (serve "buy 6" w_bought))) =
  [Said 42 "Payment creation is being reconciled. Send /buy again shortly to check it.";
   PaymentRequested 6 "user-1" "order-1" "tg:6:payment"; OrderRequested 6 "user-1" "plan-1" "eu" "2026-07" "tg:6:order";
   Consented "user-1" "2026-07"; Identified 7 "user-1" "active";
   Said 42 "Payment creation is being reconciled. Send /buy again shortly to check it.";
   PaymentRequested 5 "user-1" "order-1" "tg:5:payment"; OrderRequested 5 "user-1" "plan-1" "eu" "2026-07" "tg:5:order";
   Consented "user-1" "2026-07"; Identified 7 "user-1" "active"]%string.
Proof. vm_compute. reflexivity. Qed.
(** [/link], which the messages of notification-service tell the user to
    send, is no command. *)
Example link_is_no_command :
  template_text "access_ready" (fun _ => ""%string) =
    Some "<b>VPN access is ready.</b> Send /link to receive your one-time Happ subscription link."%string /\
  fst (command demo_store demo_config demo_webhook alone demo_web 7 42 7 "user-1" "/link" (MkWorld 0 fresh)) = Some tt /\
  b_trace (w_state (snd (command demo_store demo_config demo_webhook alone demo_web 7 42 7 "user-1" "/link" (MkWorld 0 fresh)))) =
    [Said 42 "Send /start to open the menu."].
Proof. vm_compute. done. Qed.
Lemma demo_prefix l : Some demo_limiter = Some l -> rl_keyPrefix l = st_keyPrefix demo_store.
Proof. by intros [= <-]. Qed.
Lemma bought_inv : bot_inv demo_store (w_state w_bought).
Proof.
  destruct (triple_ServeHTTP demo_store alone alone_relies demo_config (Some demo_limiter) demo_webhook demo_web demo_prefix "s3cret" "buy 5"
    (MkWorld 0 fresh) _ w_bought fresh_inv I bought_run) as [Hs _]. exact (@rtc_keeps bsys (bot_protocol demo_store) _ _ Hs fresh_inv).
Qed.
Lemma orders_need_consent_witness :
  exists post pre, b_trace (w_state w_bought) = post ++ OrderRequested 5 "user-1" "plan-1" "eu" "2026-07" "tg:5:order" :: pre /\
    Consented "user-1" "2026-07" ∈ pre /\ exists tg, Identified tg "user-1" "active" ∈ pre.
Proof.
  destruct (orders_need_consent demo_store demo_config (Some demo_limiter) demo_webhook alone demo_web "s3cret" "buy 5"
    (MkWorld 0 fresh) _ w_bought alone_relies demo_prefix fresh_inv bought_run) as (_ & H & _).
  assert (exists post pre, b_trace (w_state w_bought) = post ++ OrderRequested 5 "user-1" "plan-1" "eu" "2026-07" "tg:5:order" :: pre) as (post & pre & E)
    by (exists (take 2 (b_trace (w_state w_bought))), (drop 3 (b_trace (w_state w_bought))); vm_compute; reflexivity).
  exists post, pre. split; [exact E|]. exact (proj2 (H post 5 "user-1" "plan-1" "eu" "2026-07" "tg:5:order" pre E)%string).
Defined.

Lemma completed_work_is_not_repeated_witness :
  (exists w', deliver_once 2 w_sent = (Delivery 200 "replay" "" 0, w') /\ w_state w' = w_state w_sent) /\
  (exists w', guarded demo_store demo_config demo_webhook alone demo_web (buy 5) w_bought = (Done, w') /\ w_state w' = w_state w_bought).
Proof.
  destruct (completed_work_is_not_repeated demo_store alone alone_relies) as (H1 & _ & H2 & _). split.
  - destruct (deliver_once 2 w_sent) as [reply w'] eqn:E. exists w'.
    destruct (H1 (demo_delivery 2) demo_api (only "request"%string demo_request) delivery_id "request"%string demo_request w_sent reply w'
      (request_hash demo_request) week_later sent_inv ltac:(intros _; vm_compute; reflexivity) ltac:(vm_compute; reflexivity) eq_refl
      ltac:(vm_compute; reflexivity) ltac:(vm_compute; reflexivity) ltac:(vm_compute; reflexivity) E) as [Hs Hr].
    rewrite Hr, bool_decide_true by reflexivity. exact (conj eq_refl Hs).
  - destruct (guarded demo_store demo_config demo_webhook alone demo_web (buy 5) w_bought) as [reply w'] eqn:E. exists w'.
    destruct (H2 demo_config demo_webhook demo_web (buy 5) w_bought reply w' week_later bought_inv) as [Hs Hr].
    + split; [vm_compute; discriminate|]. intros _. exists "1"%string, week_later. split; [vm_compute; reflexivity|vm_compute; discriminate].
    + vm_compute. reflexivity.
    + reflexivity.
    + exact E.
    + rewrite Hr. exact (conj eq_refl Hs).
Defined.
End TelegramRuns.
