(* ===== verification/AdminDomain.v ===== *)
(** * admin-service: data, permissions and what may be shown

    src/services/admin/internal/domain/types.go, internal/rbac/rbac.go, and the
    checks of internal/application/service.go on what owners answer. *)

From Stdlib Require Import Ascii List.
From S2P Require Import Prelude GoStrings Sha256 Backoff Platform GoText.

(** ** Data *)

Inductive AdminErr :=
  | ErrUnauthenticated
  | ErrForbidden
  | ErrNotFound
  | ErrIdempotencyConflict
  | ErrActionStateConflict
  | ErrActionInProgress
  | ErrSQL (what : string).
#[export] Instance AdminErr_eq_dec : EqDecision AdminErr.
Proof. solve_decision. Defined.

Definition ActionNotificationRetry : string := "notification.retry".
Definition ActionSubscriptionRevoke : string := "subscription.revoke".
Definition ActionAccessRecover : string := "access.provisioning.recover".

(** A JSON value; a number is kept as it is written. *)
Inductive json :=
  | JNull
  | JBool (b : bool)
  | JNumber (text : string)
  | JString (text : string)
  | JArray (items : list json)
  | JObject (fields : list (string * json)).

(** [admin_action_requests.status]. *)
Inductive ActStatus := ActPending | ActProcessing | ActOutcomeUnknown | ActSucceeded | ActFailed.
#[export] Instance ActStatus_eq_dec : EqDecision ActStatus.
Proof. solve_decision. Defined.
(** [admin_audit_events.outcome]. *)
Inductive AuOutcome := AuAccepted | AuAttempted | AuRetrying | AuOutcomeUnknown | AuSucceeded | AuFailed.
#[export] Instance AuOutcome_eq_dec : EqDecision AuOutcome.
Proof. solve_decision. Defined.

Record Principal := MkPrincipal { pr_SPIFFEID : string; pr_Name : string; pr_Roles : list string; pr_Permissions : list string }.
Record ActionInput := MkActionInput {
  in_ActionID : string;
  in_Actor : Principal;
  in_Action : string;
  in_Permission : string;
  in_TargetType : string;
  in_TargetID : string;
  in_Reason : string;
  in_ReasonCode : string;
  in_IdempotencyKeySHA256 : string;
  in_RequestSHA256 : string;
  in_RequestID : string;
  in_CorrelationID : string
}.
Record Action := MkAction {
  ac_ActionID : string;
  ac_Action : string;
  ac_TargetType : string;
  ac_TargetID : string;
  ac_Status : ActStatus;
  ac_Result : option json;
  ac_ErrorCode : option string;
  ac_CorrelationID : string;
  ac_CreatedAt : Z;
  ac_CompletedAt : option Z;
  ac_Replay : bool;
  ac_Attempts : Z;
  ac_ClaimID : string;
  ac_LeaseUntil : option Z
}.
Definition replayed (a : Action) : Action :=
  MkAction (ac_ActionID a) (ac_Action a) (ac_TargetType a) (ac_TargetID a) (ac_Status a) (ac_Result a) (ac_ErrorCode a)
    (ac_CorrelationID a) (ac_CreatedAt a) (ac_CompletedAt a) true (ac_Attempts a) (ac_ClaimID a) (ac_LeaseUntil a).
Record AuditEvent := MkAuditEvent {
  ev_AuditEventID : string;
  ev_ActionID : string;
  ev_ActorPrincipal : string;
  ev_VerifiedSPIFFEIdentity : string;
  ev_Roles : list string;
  ev_Permissions : list string;
  ev_Action : string;
  ev_Permission : string;
  ev_TargetType : string;
  ev_TargetID : string;
  ev_Reason : string;
  ev_Outcome : AuOutcome;
  ev_ErrorCode : option string;
  ev_RequestID : string;
  ev_CorrelationID : string;
  ev_OccurredAt : Z;
  ev_CompletedAt : option Z
}.
Record OwnerError := MkOwnerError { oe_Code : string; oe_Definitive : bool }.

(** ** Roles and permissions *)

Definition rolePermissions : list (string * list string) :=
  [("support_readonly", ["identity.read"; "consent.read"; "subscription.read"; "access.read"; "provisioning.read";
                         "notification.read"; "notification.dlq.read"; "health.read"; "audit.read"]);
   ("operations", ["identity.read"; "consent.read"; "subscription.read"; "access.read"; "provisioning.read";
                   "notification.read"; "notification.dlq.read"; "health.read"; "audit.read";
                   "notification.retry"; "subscription.revoke"; "access.provisioning.recover"]);
   ("security", ["identity.read"; "notification.dlq.read"; "health.read"; "audit.read"]);
   ("finance_readonly", ["billing.read"; "health.read"])]%string.
Definition permissions_of (role : string) : option (list string) :=
  snd <$> List.find (fun r => bool_decide (fst r = role)) rolePermissions.
(** [None] when the second result is false. *)
Definition Permissions (roles : list string) : option (list string) :=
  granted ← mapM permissions_of roles;
  let result := order_by String.leb (elements (list_to_set (concat granted) : gset string)) in
  if bool_decide (result = []) then None else Some result.
Definition Allowed (permissions : list string) (required : string) : bool := bool_decide (required ∈ permissions).

(** ** Answers of owners *)

Definition code_byte (c : ascii) : bool := between "a" "z" c || digit c || Ascii.eqb c "_".
Definition validErrorCode (value : string) : bool :=
  match value with
  | String c s => (3 <=? go_len value) && (go_len value <=? 64) && between "a" "z" c && all_bytes code_byte s
  | EmptyString => false
  end.
Definition ownerErrorCode (e : OwnerError) : string := if validErrorCode (oe_Code e) then oe_Code e else "owner_unavailable".

Definition forbiddenKeys : list string :=
  ["subscription_url"; "vless_uuid"; "vless_client_uuid"; "ciphertext"; "telegram_chat_id"; "confirmation_url";
   "provider_payment_id"; "token_hash"; "access_token"; "token"; "reality_private_key"; "private_key"; "management_url"]%string.
Fixpoint containsForbiddenResult (value : json) : bool :=
  match value with
  | JObject fields => existsb (fun kv : string * json => let (key, nested) := kv in
      bool_decide (ToLower key ∈ forbiddenKeys) || containsForbiddenResult nested) fields
  | JArray items => existsb containsForbiddenResult items
  | JString text => Contains (ToLower text) "vless://" || Contains (ToLower text) "/s/"
  | JNull | JBool _ | JNumber _ => false
  end.
Definition is_object (value : json) : bool := match value with JObject _ => true | _ => false end.
(** [validateSafeResult] on the value its argument decodes to. *)
Definition validateSafeResult (payload : json) : bool := is_object payload && negb (containsForbiddenResult payload).

(** The trust one can put in it: no text anywhere inside a value that passes
    names a forbidden field or carries an access link. *)
Inductive inside : json -> json -> Prop :=
  | in_here v : inside v v
  | in_item v w items : w ∈ items -> inside v w -> inside v (JArray items)
  | in_field v w key fields : (key, w) ∈ fields -> inside v w -> inside v (JObject fields).
Lemma safe_inside v w : inside v w -> containsForbiddenResult w = false -> containsForbiddenResult v = false.
Proof.
  induction 1 as [|v w items Hi _ IH|v w key fields Hi _ IH]; [done|..]; simpl; intros H; apply IH.
  - destruct (containsForbiddenResult w) eqn:E; [|done]. rewrite <- H. symmetry. apply existsb_exists. exists w.
    by rewrite <- list_elem_of_In.
  - destruct (containsForbiddenResult w) eqn:E; [|done]. rewrite <- H. symmetry. apply existsb_exists. exists (key, w).
    rewrite <- list_elem_of_In. split; [done|]. by rewrite E, orb_true_r.
Qed.
Lemma validated_is_safe payload : validateSafeResult payload = true ->
  (forall fields key v, inside (JObject fields) payload -> (key, v) ∈ fields -> ToLower key ∉ forbiddenKeys) /\
  (forall text, inside (JString text) payload -> Contains (ToLower text) "vless://" = false /\ Contains (ToLower text) "/s/" = false).
Proof.
  unfold validateSafeResult. rewrite andb_true_iff, negb_true_iff. intros [_ H]. split.
  - intros fields key v Hi Hk Hf. pose proof (safe_inside _ _ Hi H) as Hn. simpl in Hn.
    rewrite <- not_true_iff_false in Hn. apply Hn. apply existsb_exists. exists (key, v). rewrite <- list_elem_of_In.
    split; [done|]. by rewrite bool_decide_true.
  - intros text Hi. pose proof (safe_inside _ _ Hi H) as Hn. by apply orb_false_iff in Hn.
Qed.

Example operations_may : Permissions ["finance_readonly"; "security"]%string =
  Some ["audit.read"; "billing.read"; "health.read"; "identity.read"; "notification.dlq.read"]%string.
Proof. vm_compute. done. Qed.
Example nobody_may : Permissions ["operations"; "root"]%string = None /\ Permissions [] = None.
Proof. vm_compute. done. Qed.
Example kelvin_is_caught : validateSafeResult (JObject [("state", JObject [("to" +:+ String "226" (String "132" (String "170" "en")), JNull)%string])]%string) = false.
Proof. vm_compute. done. Qed.
