(* ===== verification/AdminStore.v ===== *)
(** * admin-service: the database

    The tables of src/services/admin/migrations and one transaction per method
    of src/services/admin/internal/postgres/store.go, with the bootstrap of
    bootstrap.go and the batches of retention.go. *)

From Stdlib Require Import Ascii List.
From S2P Require Import Prelude GoStrings Sha256 GoText AdminDomain.

(** ** Tables *)

Record principal_row := MkPrincipalRow { p_display_name : string; p_enabled : bool }.
Record action_row := MkActionRow {
  r_id : string;
  r_actor : Principal;
  r_action : string;
  r_permission : string;
  r_target_type : string;
  r_target_id : string;
  r_reason : string;
  r_reason_code : option string;
  r_key_sha256 : string;
  r_request_sha256 : string;
  r_request_id : string;
  r_correlation_id : string;
  r_status : ActStatus;
  r_result : option json;
  r_error_code : option string;
  r_created_at : Z;
  r_completed_at : option Z;
  r_attempts : Z;
  r_claim_id : option string;
  r_lease_until : option Z;
  r_last_attempt_at : option Z
}.
(** The columns an attempt changes; the others stay as [BeginAction] wrote them. *)
Definition set_action (status : ActStatus) (result : option json) (error_code : option string) (completed_at : option Z)
    (attempts : Z) (claim_id : option string) (lease_until last_attempt_at : option Z) (r : action_row) : action_row :=
  MkActionRow (r_id r) (r_actor r) (r_action r) (r_permission r) (r_target_type r) (r_target_id r) (r_reason r) (r_reason_code r)
    (r_key_sha256 r) (r_request_sha256 r) (r_request_id r) (r_correlation_id r) status result error_code (r_created_at r)
    completed_at attempts claim_id lease_until last_attempt_at.
Record audit_row := MkAuditRow {
  u_id : string;
  u_action_id : string;
  u_actor : Principal;
  u_action : string;
  u_permission : string;
  u_target_type : string;
  u_target_id : string;
  u_reason : string;
  u_key_sha256 : string;
  u_request_id : string;
  u_correlation_id : string;
  u_outcome : AuOutcome;
  u_error_code : option string;
  u_occurred_at : Z;
  u_completed_at : option Z
}.
(** [admin_audit_events] in the order of insertion, the newest row first: a
    trigger refuses to change a row, and to delete one except for the
    migrator's retention job. [history] is no table: it remembers every row
    ever inserted, the deleted ones too, so that one can state what the
    table still tells. *)
Record db := MkDB {
  principals : gmap string principal_row;
  role_grants : gset (string * string);
  actions : gmap string action_row;
  audit : list audit_row;
  history : list audit_row
}.
Definition empty_db : db := MkDB ∅ ∅ ∅ [] [].
Definition set_principals f d := MkDB (f (principals d)) (role_grants d) (actions d) (audit d) (history d).
Definition set_role_grants f d := MkDB (principals d) (f (role_grants d)) (actions d) (audit d) (history d).
Definition set_actions f d := MkDB (principals d) (role_grants d) (f (actions d)) (audit d) (history d).
Definition add_audit (u : audit_row) d := MkDB (principals d) (role_grants d) (actions d) (u :: audit d) (u :: history d).
Definition keep_audit (p : audit_row -> bool) d :=
  MkDB (principals d) (role_grants d) (actions d) (List.filter p (audit d)) (history d).
Abbreviation admin_tx := (tx db AdminErr).

(** ** Checks *)

(** The text PostgreSQL gives back for a [uuid], from a text it reads as one. *)
Fixpoint uuid_text_from (i : nat) (s : string) : string :=
  match s with
  | String c s' =>
      if hex c then
        let rest := String (lower_byte c) (uuid_text_from (S i) s') in
        if bool_decide (i ∈ [8; 12; 16; 20]%nat) then String "-" rest else rest
      else uuid_text_from i s'
  | EmptyString => EmptyString
  end.
Definition uuid_text : string -> string := uuid_text_from 0.
Definition name_byte (c : ascii) : bool := alnum c || contains_any "._-" (String c "").
Definition spiffe_ok (s : string) : bool :=
  match strip_prefix "spiffe://" s with
  | Some rest =>
      match split_on "/" rest with
      | [domain; ns; env; admin; String c name] =>
          negb (bool_decide (domain = ""%string)) && all_bytes (fun c => alnum c || contains_any ".-" (String c "")) domain &&
          bool_decide (ns = "ns"%string) && negb (bool_decide (env = ""%string)) && all_bytes name_byte env &&
          bool_decide (admin = "admin"%string) && alnum c && all_bytes name_byte name && (go_len name <=? 63)
      | _ => false
      end
  | None => false
  end.
(** [admin_action_requests_state_check]. *)
Definition action_state_check (r : action_row) : bool :=
  let open_ := bool_decide (r_completed_at r = None) && bool_decide (r_result r = None) in
  let unclaimed := bool_decide (r_claim_id r = None) && bool_decide (r_lease_until r = None) in
  let tried := (0 <? r_attempts r) && bool_decide (is_Some (r_last_attempt_at r)) in
  match r_status r with
  | ActPending => open_ && bool_decide (r_error_code r = None) && unclaimed
  | ActProcessing => open_ && bool_decide (r_error_code r = None) && bool_decide (is_Some (r_claim_id r)) &&
      bool_decide (is_Some (r_lease_until r)) && tried
  | ActOutcomeUnknown => open_ && bool_decide (is_Some (r_error_code r)) && unclaimed && tried
  | ActSucceeded => bool_decide (is_Some (r_completed_at r)) && bool_decide (is_Some (r_result r)) &&
      bool_decide (r_error_code r = None) && unclaimed && tried
  | ActFailed => bool_decide (is_Some (r_completed_at r)) && bool_decide (r_result r = None) &&
      bool_decide (is_Some (r_error_code r)) && unclaimed && tried
  end.
Definition between_nat (lo hi : nat) {A} (l : list A) : bool := (lo <=? length l)%nat && (length l <=? hi)%nat.
Definition action_checks (r : action_row) : bool :=
  length_between 1 64 (pr_Name (r_actor r)) &&
  bool_decide (r_action r ∈ [ActionNotificationRetry; ActionSubscriptionRevoke; ActionAccessRecover]) &&
  length_between 3 64 (r_permission r) && bool_decide (r_target_type r ∈ ["notification"; "subscription"; "credential"]%string) &&
  pg_uuid (r_id r) && pg_uuid (r_target_id r) && pg_uuid (r_correlation_id r) && length_between 3 512 (r_reason r) &&
  match r_reason_code r with Some c => length_between 3 64 c | None => true end &&
  sha256_text (r_key_sha256 r) && sha256_text (r_request_sha256 r) && length_between 1 128 (r_request_id r) &&
  between_nat 1 4 (pr_Roles (r_actor r)) && between_nat 1 32 (pr_Permissions (r_actor r)) && (0 <=? r_attempts r) &&
  match r_result r with Some v => is_object v | None => true end &&
  match r_error_code r with Some c => validErrorCode c | None => true end && action_state_check r.
Definition audit_state_check (u : audit_row) : bool :=
  match u_outcome u with
  | AuAccepted | AuAttempted | AuRetrying => bool_decide (u_completed_at u = None) && bool_decide (u_error_code u = None)
  | AuOutcomeUnknown => bool_decide (u_completed_at u = None) && bool_decide (is_Some (u_error_code u))
  | AuSucceeded => bool_decide (is_Some (u_completed_at u)) && bool_decide (u_error_code u = None)
  | AuFailed => bool_decide (is_Some (u_completed_at u)) && bool_decide (is_Some (u_error_code u))
  end.
Definition audit_checks (u : audit_row) : bool :=
  pg_uuid (u_id u) && length_between 1 64 (pr_Name (u_actor u)) && pg_uuid (u_target_id u) && length_between 3 512 (u_reason u) &&
  sha256_text (u_key_sha256 u) && length_between 1 128 (u_request_id u) && pg_uuid (u_correlation_id u) &&
  match u_error_code u with Some c => validErrorCode c | None => true end && audit_state_check u.

(** ** Principals *)

Record PrincipalSeed := MkSeed { sd_SPIFFEID : string; sd_DisplayName : string; sd_Enabled : bool; sd_Roles : list string }.
Definition grant (spiffeID role : string) : admin_tx unit :=
  let* d := get in
  require (bool_decide (role ∈ fst <$> rolePermissions) && negb (bool_decide ((spiffeID, role) ∈ role_grants d)))
    (ErrSQL "insert admin role grant") ;;;
  modify (set_role_grants (fun g => {[(spiffeID, role)]} ∪ g)).
Fixpoint grant_all (spiffeID : string) (roles : list string) : admin_tx unit :=
  match roles with [] => ret tt | role :: roles => grant spiffeID role ;;; grant_all spiffeID roles end.
Definition seed_principal (seed : PrincipalSeed) : admin_tx unit :=
  require (spiffe_ok (sd_SPIFFEID seed) && length_between 1 128 (sd_DisplayName seed)) (ErrSQL "upsert admin principal") ;;;
  modify (set_principals (insert (sd_SPIFFEID seed) (MkPrincipalRow (sd_DisplayName seed) (sd_Enabled seed)))) ;;;
  modify (set_role_grants (filter (fun g => fst g <> sd_SPIFFEID seed))) ;;;
  grant_all (sd_SPIFFEID seed) (sd_Roles seed).
Fixpoint seed_all (seeds : list PrincipalSeed) : admin_tx unit :=
  match seeds with [] => ret tt | seed :: seeds => seed_principal seed ;;; seed_all seeds end.
Definition Bootstrap (seeds : list PrincipalSeed) : admin_tx unit := seed_all seeds ;;; commit.
(** One query: the roles of an enabled principal, in order. *)
Definition roles_of (spiffeID : string) (d : db) : list string :=
  match principals d !! spiffeID with
  | Some p => if p_enabled p
              then order_by String.leb (snd <$> List.filter (fun g => bool_decide (fst g = spiffeID)) (elements (role_grants d)))
              else []
  | None => []
  end.
Definition GetPrincipal (spiffeID name : string) (d : db) : result AdminErr Principal :=
  let roles := roles_of spiffeID d in
  if bool_decide (roles = []) then Err ErrForbidden
  else match Permissions roles with
       | Some permissions => Ok (MkPrincipal spiffeID name roles permissions)
       | None => Err ErrForbidden
       end.

(** ** Actions *)

Definition no_claim : string := "00000000-0000-0000-0000-000000000000".
Definition scanAction (r : action_row) : Action :=
  MkAction (r_id r) (r_action r) (r_target_type r) (r_target_id r) (r_status r) (r_result r) (r_error_code r) (r_correlation_id r)
    (r_created_at r) (r_completed_at r) false (r_attempts r) (default no_claim (r_claim_id r)) (r_lease_until r).
Definition same_request (actor action keyHash : string) (r : action_row) : bool :=
  bool_decide (pr_SPIFFEID (r_actor r) = actor) && bool_decide (r_action r = action) && bool_decide (r_key_sha256 r = keyHash).
(** The columns the unique constraint on actor, action and key leaves one of. *)
Definition readActionByIdempotency (actor action keyHash : string) (d : db) : option action_row :=
  head (where_ (same_request actor action keyHash) (actions d)).
Definition actionInputForAudit (r : action_row) (requestID : string) : ActionInput :=
  MkActionInput (r_id r) (r_actor r) (r_action r) (r_permission r) (r_target_type r) (r_target_id r) (r_reason r)
    (default ""%string (r_reason_code r)) (r_key_sha256 r) (r_request_sha256 r) requestID (r_correlation_id r).
Definition nullif_empty (s : string) : option string := if bool_decide (s = ""%string) then None else Some s.
Definition audit_of (now : Z) (auditID : string) (input : ActionInput) (outcome : AuOutcome) (errorCode : string)
    (completedAt : option Z) : audit_row :=
  MkAuditRow auditID (in_ActionID input) (in_Actor input) (in_Action input) (in_Permission input) (in_TargetType input)
    (uuid_text (in_TargetID input)) (in_Reason input) (in_IdempotencyKeySHA256 input) (in_RequestID input) (in_CorrelationID input) outcome
    (nullif_empty errorCode) now completedAt.
Definition insertAudit (now : Z) (auditID : string) (input : ActionInput) (outcome : AuOutcome) (errorCode : string)
    (completedAt : option Z) : admin_tx unit :=
  let* d := get in
  let row := audit_of now auditID input outcome errorCode completedAt in
  require (audit_checks row && forallb (fun u => negb (bool_decide (u_id u = auditID))) (audit d) &&
           bool_decide (is_Some (actions d !! in_ActionID input)) &&
           bool_decide (is_Some (principals d !! pr_SPIFFEID (in_Actor input)))) (ErrSQL "insert admin audit event") ;;;
  modify (add_audit row).
Definition new_action (now : Z) (input : ActionInput) : action_row :=
  MkActionRow (in_ActionID input) (in_Actor input) (in_Action input) (in_Permission input) (in_TargetType input)
    (uuid_text (in_TargetID input)) (in_Reason input) (nullif_empty (in_ReasonCode input)) (in_IdempotencyKeySHA256 input)
    (in_RequestSHA256 input) (in_RequestID input) (in_CorrelationID input) ActPending None None now None 0 None None None.
Definition BeginAction (now : Z) (auditID : string) (input : ActionInput) : admin_tx (Action * bool) :=
  let* d := get in
  match readActionByIdempotency (pr_SPIFFEID (in_Actor input)) (in_Action input) (in_IdempotencyKeySHA256 input) d with
  | Some r =>
      require (bool_decide (r_request_sha256 r = in_RequestSHA256 input) && bool_decide (r_target_type r = in_TargetType input) &&
               bool_decide (r_target_id r = in_TargetID input) && bool_decide (r_reason r = in_Reason input)) ErrIdempotencyConflict ;;;
      commit ;;; ret (replayed (scanAction r), true)
  | None =>
      let r := new_action now input in
      require (pg_uuid (in_TargetID input) && action_checks r && negb (bool_decide (is_Some (actions d !! in_ActionID input))) &&
               bool_decide (is_Some (principals d !! pr_SPIFFEID (in_Actor input)))) (ErrSQL "insert admin action") ;;;
      modify (set_actions (insert (in_ActionID input) r)) ;;;
      insertAudit now auditID input AuAccepted "" None ;;;
      commit ;;; ret (scanAction r, false)
  end.

(** An update of the row, its checks included. *)
Definition put_action (what : string) (r : action_row) : admin_tx unit :=
  require (action_checks r) (ErrSQL what) ;;; modify (set_actions (insert (r_id r) r)).
Definition final (s : ActStatus) : bool := bool_decide (s = ActSucceeded \/ s = ActFailed).
Definition claimable (now : Z) (r : action_row) : bool :=
  match r_status r with
  | ActPending | ActOutcomeUnknown => true
  | ActProcessing => match r_lease_until r with Some t => t <=? now | None => false end
  | ActSucceeded | ActFailed => false
  end.
(** What a claim leaves in the row. *)
Definition claimed (now lease : Z) (claimID : string) (r : action_row) : action_row :=
  set_action ActProcessing (r_result r) None (r_completed_at r) (r_attempts r + 1) (Some claimID) (Some (now + lease)) (Some now) r.
Definition StartActionAttempt (now : Z) (claimID auditID actionID requestID : string) (lease : Z) : admin_tx (Action * bool) :=
  let* d := get in
  let* r := need (actions d !! actionID) ErrNotFound in
  if final (r_status r) then commit ;;; ret (replayed (scanAction r), false)
  else
    let leaseActive := match r_lease_until r with Some t => Ok (now <? t) | None => Err (ErrSQL "check admin action lease") end in
    let* busy := (if bool_decide (r_status r = ActProcessing) then query (fun _ => leaseActive) else ret false) in
    if busy : bool then commit ;;; ret (replayed (scanAction r), false)
    else
      let outcome := if 0 <? r_attempts r then AuRetrying else AuAttempted in
      require (claimable now r) ErrActionStateConflict ;;;
      put_action "claim admin action attempt" (claimed now lease claimID r) ;;;
      insertAudit now auditID (actionInputForAudit r requestID) outcome "" None ;;;
      commit ;;; ret (scanAction (claimed now lease claimID r), true).

(** What ends an attempt leaves in the row. *)
Definition held (claimID : string) (r : action_row) : bool :=
  bool_decide (r_status r = ActProcessing) && bool_decide (default no_claim (r_claim_id r) = claimID) && bool_decide (is_Some (r_claim_id r)).
Definition completed (now : Z) (result : option json) (errorCode : string) (r : action_row) : action_row :=
  let failed := negb (bool_decide (errorCode = ""%string)) in
  set_action (if failed then ActFailed else ActSucceeded) (if failed then None else result) (nullif_empty errorCode) (Some now)
    (r_attempts r) None None (r_last_attempt_at r) r.
Definition CompleteAction (now : Z) (auditID actionID claimID requestID : string) (result : option json) (errorCode : string)
    : admin_tx Action :=
  let* d := get in
  let* r := need (actions d !! actionID) ErrNotFound in
  if final (r_status r) then commit ;;; ret (replayed (scanAction r))
  else
    require (held claimID r) ErrActionStateConflict ;;;
    let failed := negb (bool_decide (errorCode = ""%string)) in
    (* [string(nil)] is no JSON. *)
    require (failed || bool_decide (is_Some result)) (ErrSQL "complete admin action") ;;;
    put_action "complete admin action" (completed now result errorCode r) ;;;
    insertAudit now auditID (actionInputForAudit r requestID) (if failed then AuFailed else AuSucceeded) errorCode (Some now) ;;;
    commit ;;; ret (scanAction (completed now result errorCode r)).
Definition unknown (errorCode : string) (r : action_row) : action_row :=
  set_action ActOutcomeUnknown (r_result r) (Some errorCode) (r_completed_at r) (r_attempts r) None None (r_last_attempt_at r) r.
Definition MarkActionOutcomeUnknown (now : Z) (auditID actionID claimID requestID errorCode : string) : admin_tx Action :=
  let* d := get in
  let* r := need (actions d !! actionID) ErrNotFound in
  if final (r_status r) then commit ;;; ret (replayed (scanAction r))
  else
    require (held claimID r) ErrActionStateConflict ;;;
    put_action "mark unknown admin outcome" (unknown errorCode r) ;;;
    insertAudit now auditID (actionInputForAudit r requestID) AuOutcomeUnknown errorCode None ;;;
    commit ;;; ret (scanAction (unknown errorCode r)).

(** ** The audit trail *)

Definition event_of (u : audit_row) : AuditEvent :=
  MkAuditEvent (u_id u) (u_action_id u) (pr_Name (u_actor u)) (pr_SPIFFEID (u_actor u)) (pr_Roles (u_actor u))
    (pr_Permissions (u_actor u)) (u_action u) (u_permission u) (u_target_type u) (u_target_id u) (u_reason u) (u_outcome u)
    (u_error_code u) (u_request_id u) (u_correlation_id u) (u_occurred_at u) (u_completed_at u).
Definition later_event (a b : audit_row) : bool :=
  (u_occurred_at b <? u_occurred_at a) || ((u_occurred_at a =? u_occurred_at b) && String.leb (u_id b) (u_id a)).
Definition ListAudit (limit : nat) (d : db) : list AuditEvent := event_of <$> take limit (order_by later_event (audit d)).

(** ** Retention *)

(** [DaysFromEnv]: how long the job may be told to keep events. *)
Definition retention_days_ok (days : Z) : bool := (365 <=? days) && (days <=? 3650).
Definition earlier_event (a b : audit_row) : bool :=
  (u_occurred_at a <? u_occurred_at b) || ((u_occurred_at a =? u_occurred_at b) && String.leb (u_id a) (u_id b)).
(** One batch: the oldest events before the cutoff that nobody has [locked]. *)
Definition selected (cutoff : Z) (limit : nat) (locked : gset string) (d : db) : list string :=
  u_id <$> take limit (order_by earlier_event
    (List.filter (fun u => (u_occurred_at u <? cutoff) && negb (bool_decide (u_id u ∈ locked))) (audit d))).
Definition DeleteBatch (cutoff : Z) (limit : nat) (locked : gset string) : admin_tx Z :=
  let* d := get in
  let ids := selected cutoff limit locked d in
  modify (keep_audit (fun u => negb (bool_decide (u_id u ∈ ids)))) ;;;
  commit ;;; ret (Z.of_nat (length ids)).
(** The job's call with the cutoff of its settings. *)
Definition retention_batch (now days : Z) (limit : nat) (locked : gset string) : admin_tx Z :=
  require (retention_days_ok days) (ErrSQL "retention settings") ;;;
  DeleteBatch (now - days * (24 * hour)) limit locked.
