(* ===== verification/AdminSpec.v ===== *)
(** * admin-service: what holds in every reachable database

    An action goes through the states of its machine, what is recorded of it is
    the log of that machine, and both never disagree; the table holds that log
    since the cutoff of the retention job; a request repeated under its
    idempotency key is the same action. *)

From Stdlib Require Import Ascii List.
From S2P Require Import Prelude GoStrings Sha256 GoText AdminDomain AdminStore.

(** ** Identifiers as PostgreSQL writes them *)

Lemma uuid_text_from_idem s : forall i, uuid_text_from i (uuid_text_from i s) = uuid_text_from i s.
Proof.
  induction s as [|c s IH]; intros i; simpl; [done|]. destruct (hex c) eqn:Hc; [|done].
  assert (hex (lower_byte c) = true) as Hl by (revert Hc; apply (all_ascii_impl hex (fun c => hex (lower_byte c))); by vm_compute).
  assert (lower_byte (lower_byte c) = lower_byte c) as Hll.
  { apply Ascii.eqb_eq. apply (all_ascii_true (fun c => Ascii.eqb (lower_byte (lower_byte c)) (lower_byte c))). by vm_compute. }
  case_bool_decide as Hi; simpl; by rewrite Hl, Hll, IH, ?(bool_decide_true _ Hi), ?(bool_decide_false _ Hi).
Qed.
Lemma uuid_text_idem s : uuid_text (uuid_text s) = uuid_text s.
Proof. apply uuid_text_from_idem. Qed.

(** ** The machine of an action, with the log it writes *)

Abbreviation entry := (AuOutcome * option string)%type.
Inductive logged : ActStatus -> Z -> option string -> list entry -> Prop :=
  | lg_accept : logged ActPending 0 None [(AuAccepted, None)]
  | lg_attempt st n code log : logged st n code log -> final st = false ->
      logged ActProcessing (n + 1) None ((if 0 <? n then AuRetrying else AuAttempted, None) :: log)
  | lg_unknown n code log : logged ActProcessing n None log -> logged ActOutcomeUnknown n (Some code) ((AuOutcomeUnknown, Some code) :: log)
  | lg_succeed n log : logged ActProcessing n None log -> logged ActSucceeded n None ((AuSucceeded, None) :: log)
  | lg_fail n code log : logged ActProcessing n None log -> logged ActFailed n (Some code) ((AuFailed, Some code) :: log).
Lemma logged_nonneg st n code log : logged st n code log -> 0 <= n.
Proof. induction 1; lia. Qed.
(** How often the log says that somebody tried. *)
Definition tried (e : entry) : bool := bool_decide (fst e = AuAttempted \/ fst e = AuRetrying).
Lemma logged_attempts st n code log : logged st n code log -> n = Z.of_nat (length (List.filter tried log)).
Proof. induction 1 as [|st n code log H IH Hf|? ? ? ? IH|? ? ? IH|? ? ? ? IH]; simpl; [done| |done..]. destruct (0 <? n); simpl; lia. Qed.
Lemma logged_accepted st n code log : logged st n code log -> exists tail, log = tail ++ [(AuAccepted, None)] /\
  forall e, e ∈ tail -> fst e <> AuAccepted.
Proof.
  assert (forall (e : entry) log, fst e <> AuAccepted ->
    (exists tail, log = tail ++ [(AuAccepted, None)] /\ forall e', e' ∈ tail -> fst e' <> AuAccepted) ->
    exists tail, e :: log = tail ++ [(AuAccepted, None)] /\ forall e', e' ∈ tail -> fst e' <> AuAccepted) as Hstep.
  { intros e log' He (tail & -> & Ht). exists (e :: tail). split; [done|]. intros e' [->|Hin]%elem_of_cons; auto. }
  induction 1 as [|st n code log H IH Hf|? ? ? ? IH|? ? ? IH|? ? ? ? IH]; [exists []; split; [done|]; by intros e ?%elem_of_nil|..];
    apply Hstep; try done. by destruct (0 <? n).
Qed.

(** ** Operations *)

Inductive op :=
  | OpBootstrap (seeds : list PrincipalSeed)
  | OpBegin (now : Z) (auditID : string) (input : ActionInput)
  | OpStart (now : Z) (claimID auditID actionID requestID : string) (lease : Z)
  | OpComplete (now : Z) (auditID actionID claimID requestID : string) (result : option json) (errorCode : string)
  | OpUnknown (now : Z) (auditID actionID claimID requestID errorCode : string)
  | OpRetention (now days : Z) (limit : nat) (locked : gset string).
Definition outcome {A} (m : admin_tx A) (d : db) : option AdminErr * db :=
  match in_tx m d with (Ok _, d') => (None, d') | (Err e, d') => (Some e, d') end.
Definition exec (o : op) : db -> option AdminErr * db :=
  match o with
  | OpBootstrap seeds => outcome (Bootstrap seeds)
  | OpBegin now u input => outcome (BeginAction now u input)
  | OpStart now c u k q lease => outcome (StartActionAttempt now c u k q lease)
  | OpComplete now u k c q result code => outcome (CompleteAction now u k c q result code)
  | OpUnknown now u k c q code => outcome (MarkActionOutcomeUnknown now u k c q code)
  | OpRetention now days limit locked => outcome (retention_batch now days limit locked)
  end.
Fixpoint exec_all (l : list op) (d : db) : db := match l with [] => d | o :: l' => exec_all l' (snd (exec o d)) end.
Definition reachable (d : db) : Prop := exists l, d = exec_all l empty_db.

Lemma atomic_insertAudit now u input o c t : quiet (insertAudit now u input o c t).
Proof. unfold insertAudit. tx_auto. Qed.
Lemma quiet_put_action what r : quiet (put_action what r).
Proof. unfold put_action. tx_auto. Qed.
#[export] Hint Resolve atomic_insertAudit quiet_put_action : txdb.
Lemma quiet_seed_all seeds : quiet (seed_all seeds).
Proof.
  assert (forall id roles, quiet (grant_all id roles)) as Hg.
  { intros id roles. induction roles as [|role roles IH]; simpl; [tx_auto|]. apply quiet_bind; [unfold grant; tx_auto|done]. }
  induction seeds as [|seed seeds IH]; simpl; [tx_auto|]. apply quiet_bind; [|done]. unfold seed_principal. pose proof Hg. tx_auto.
Qed.
Lemma admin_atomic_ops :
  (forall seeds, atomic (Bootstrap seeds)) /\ (forall now u input, atomic (BeginAction now u input)) /\
  (forall now c u k q lease, atomic (StartActionAttempt now c u k q lease)) /\
  (forall now u k c q result code, atomic (CompleteAction now u k c q result code)) /\
  (forall now u k c q code, atomic (MarkActionOutcomeUnknown now u k c q code)) /\
  (forall now days limit locked, atomic (retention_batch now days limit locked)).
Proof.
  split_and!; intros *.
  - unfold Bootstrap. apply atomic_bind; [apply quiet_seed_all|]. intros _. apply atomic_commit.
  - unfold BeginAction. tx_auto.
  - unfold StartActionAttempt. tx_auto.
  - unfold CompleteAction. tx_auto.
  - unfold MarkActionOutcomeUnknown. tx_auto.
  - unfold retention_batch, DeleteBatch. tx_auto.
Qed.
Lemma admin_failed_unchanged o d e d' : exec o d = (Some e, d') -> d' = d.
Proof.
  destruct admin_atomic_ops as (A1 & A2 & A3 & A4 & A5 & A6).
  destruct o; simpl; unfold outcome; destruct (in_tx _ d) as [[x|e0] d0] eqn:E; intros [= -> <-]; (eapply atomic_in_tx; [|exact E]); auto.
Qed.

(** ** What each operation does *)

Definition facts (r : action_row) := (r_actor r, r_action r, r_permission r, r_target_type r, r_target_id r, r_reason r,
  r_key_sha256 r, r_correlation_id r).
Definition u_facts (u : audit_row) := (u_actor u, u_action u, u_permission u, u_target_type u, u_target_id u, u_reason u,
  u_key_sha256 u, u_correlation_id u).
Definition entry_of (u : audit_row) : entry := (u_outcome u, u_error_code u).
Definition fresh_event (u : audit_row) (d : db) : Prop := u_id u ∉ (u_id <$> audit d).
(** A row is written, and one event about it. *)
Definition recorded (u : audit_row) (r : action_row) (d : db) : db := add_audit u (set_actions (insert (r_id r) r) d).

Lemma insertAudit_ok now u input o c ct t x t' : insertAudit now u input o c ct t = (Ok x, t') ->
  fresh_event (audit_of now u input o c ct) (working t) /\ is_Some (actions (working t) !! in_ActionID input) /\
  t' = Txn (durable t) (add_audit (audit_of now u input o c ct) (working t)).
Proof.
  unfold insertAudit. rewrite run_get. intros (y & t1 & [Hc ->]%require_ok & [= <- <-])%bind_ok_inv.
  rewrite !andb_true_iff, bool_decide_eq_true, forallb_forall in Hc. destruct Hc as [[[_ Hf] Ha] _]. split_and!; [|done..].
  unfold fresh_event. intros (w & E & Hw)%list_elem_of_fmap. apply list_elem_of_In in Hw. specialize (Hf w Hw).
  rewrite negb_true_iff, bool_decide_eq_false in Hf. by apply Hf.
Qed.
(** The end every write of an attempt has in common. *)
Lemma record_ok {A} what r now u input o c ct (f : A) t x t' : in_ActionID input = r_id r ->
  (put_action what r ;;; insertAudit now u input o c ct ;;; commit ;;; ret f) t = (Ok x, t') ->
  x = f /\ action_checks r = true /\ fresh_event (audit_of now u input o c ct) (working t) /\
  t' = let d := recorded (audit_of now u input o c ct) r (working t) in Txn d d.
Proof.
  intros Hid (y & t1 & Hp & H)%bind_ok_inv. unfold put_action in Hp.
  apply bind_ok_inv in Hp as (z & t2 & [Hc ->]%require_ok & [= <- <-]).
  apply bind_ok_inv in H as (y' & t3 & (Hf & _ & ->)%insertAudit_ok & [= <- <-]). by split_and!.
Qed.

Definition same_input (input : ActionInput) (r : action_row) : bool :=
  bool_decide (r_request_sha256 r = in_RequestSHA256 input) && bool_decide (r_target_type r = in_TargetType input) &&
  bool_decide (r_target_id r = in_TargetID input) && bool_decide (r_reason r = in_Reason input).
Definition by_key (input : ActionInput) : db -> option action_row :=
  readActionByIdempotency (pr_SPIFFEID (in_Actor input)) (in_Action input) (in_IdempotencyKeySHA256 input).
Inductive begun (now : Z) (u : string) (input : ActionInput) (d : db) : Action * bool -> db -> Prop :=
  | BegunBefore r : by_key input d = Some r -> same_input input r = true -> begun now u input d (replayed (scanAction r), true) d
  | BegunNow : by_key input d = None -> actions d !! in_ActionID input = None ->
      action_checks (new_action now input) = true -> is_Some (principals d !! pr_SPIFFEID (in_Actor input)) ->
      fresh_event (audit_of now u input AuAccepted "" None) d ->
      begun now u input d (scanAction (new_action now input), false)
        (recorded (audit_of now u input AuAccepted "" None) (new_action now input) d).
Lemma BeginAction_ok now u input t x t' : BeginAction now u input t = (Ok x, t') ->
  exists d', begun now u input (working t) x d' /\ t' = Txn d' d'.
Proof.
  unfold BeginAction. rewrite run_get. fold (by_key input). destruct (by_key input (working t)) as [r|] eqn:Er.
  - intros (y & t1 & [Hc ->]%require_ok & [= <- <-])%bind_ok_inv. exists (working t). split; [by eapply BegunBefore|done].
  - cbv zeta. intros (y & t1 & [Hc ->]%require_ok & H)%bind_ok_inv. rewrite run_modify in H.
    apply bind_ok_inv in H as (z & t2 & (Hf & _ & ->)%insertAudit_ok & [= <- <-]).
    rewrite !andb_true_iff, negb_true_iff, bool_decide_eq_false, bool_decide_eq_true in Hc. destruct Hc as [[[_ Hc] Hn] Hp].
    eexists. split; [apply BegunNow|reflexivity]; try done. apply eq_None_not_Some, Hn.
Qed.
Inductive attempted (now : Z) (c u k q : string) (lease : Z) (d : db) : Action * bool -> db -> Prop :=
  | AttemptIdle r : actions d !! k = Some r -> claimable now r = false -> attempted now c u k q lease d (replayed (scanAction r), false) d
  | AttemptClaimed r (o := if 0 <? r_attempts r then AuRetrying else AuAttempted)
      (e := audit_of now u (actionInputForAudit r q) o "" None) :
      actions d !! k = Some r -> claimable now r = true -> action_checks (claimed now lease c r) = true -> fresh_event e d ->
      attempted now c u k q lease d (scanAction (claimed now lease c r), true) (recorded e (claimed now lease c r) d).
Lemma StartActionAttempt_ok now c u k q lease t x t' : StartActionAttempt now c u k q lease t = (Ok x, t') ->
  exists d', attempted now c u k q lease (working t) x d' /\ t' = Txn d' d'.
Proof.
  unfold StartActionAttempt. rewrite run_get. destruct (actions (working t) !! k) as [r|] eqn:Er; [|done]. cbn [need]. rewrite run_ret.
  unfold final. case_bool_decide as Hf; [intros [= <- <-]|cbv zeta].
  { exists (working t). split; [|done]. eapply AttemptIdle; [done|]. unfold claimable. by destruct Hf as [-> | ->]. }
  intros (busy & t1 & Hb & H)%bind_ok_inv. assert (t1 = t) as ->.
  { case_bool_decide; [by apply query_ok in Hb as [-> _]|by injection Hb as _ <-]. }
  destruct busy.
  - injection H as <- <-. exists (working t). split; [|done]. eapply AttemptIdle; [done|].
    case_bool_decide as Hp; [|done]. apply query_ok in Hb as [_ Hb]. unfold claimable. rewrite Hp.
    destruct (r_lease_until r); [|done]. injection Hb as Hb. lia.
  - apply bind_ok_inv in H as (y & t1 & [Hc ->]%require_ok & H). apply record_ok in H as (-> & H1 & H2 & ->); [|done].
    eexists. split; [by eapply AttemptClaimed|done].
Qed.
Inductive ended (now : Z) (u k c q : string) (f : action_row -> action_row) (o : AuOutcome) (code : string) (ct : option Z) (d : db)
    : Action -> db -> Prop :=
  | EndedBefore r : actions d !! k = Some r -> final (r_status r) = true -> ended now u k c q f o code ct d (replayed (scanAction r)) d
  | EndedNow r (e := audit_of now u (actionInputForAudit r q) o code ct) :
      actions d !! k = Some r -> held c r = true -> action_checks (f r) = true -> fresh_event e d ->
      ended now u k c q f o code ct d (scanAction (f r)) (recorded e (f r) d).
Definition end_outcome (code : string) : AuOutcome := if bool_decide (code = ""%string) then AuSucceeded else AuFailed.
Lemma CompleteAction_ok now u k c q result code t x t' : CompleteAction now u k c q result code t = (Ok x, t') ->
  exists d', ended now u k c q (completed now result code) (end_outcome code) code (Some now) (working t) x d' /\ t' = Txn d' d'.
Proof.
  unfold CompleteAction. rewrite run_get. destruct (actions (working t) !! k) as [r|] eqn:Er; [|done]. cbn [need]. rewrite run_ret.
  destruct (final (r_status r)) eqn:Hf; [intros [= <- <-]; exists (working t); split; [by eapply EndedBefore|done]|]. cbv zeta.
  intros (y & t1 & [Hh ->]%require_ok & H)%bind_ok_inv. apply bind_ok_inv in H as (z & t1 & [Hr ->]%require_ok & H).
  apply record_ok in H as (-> & H1 & H2 & ->); [|done]. unfold end_outcome. revert H2. case_bool_decide; intros H2;
    (eexists; split; [by eapply EndedNow|done]).
Qed.
Lemma MarkActionOutcomeUnknown_ok now u k c q code t x t' : MarkActionOutcomeUnknown now u k c q code t = (Ok x, t') ->
  exists d', ended now u k c q (unknown code) AuOutcomeUnknown code None (working t) x d' /\ t' = Txn d' d'.
Proof.
  unfold MarkActionOutcomeUnknown. rewrite run_get. destruct (actions (working t) !! k) as [r|] eqn:Er; [|done]. cbn [need]. rewrite run_ret.
  destruct (final (r_status r)) eqn:Hf; [intros [= <- <-]; exists (working t); split; [by eapply EndedBefore|done]|].
  intros (y & t1 & [Hh ->]%require_ok & H)%bind_ok_inv.
  apply record_ok in H as (-> & H1 & H2 & ->); [|done]. eexists; split; [by eapply EndedNow|done].
Qed.

(** ** The invariant *)

(** What the trail was ever told about an action, the latest entry first. *)
Definition log (k : string) (d : db) : list entry := entry_of <$> List.filter (fun u => bool_decide (u_action_id u = k)) (history d).
Definition key_of (r : action_row) := (pr_SPIFFEID (r_actor r), r_action r, r_key_sha256 r).
Record Inv (d : db) : Prop := {
  iv_row : forall k r, actions d !! k = Some r -> r_id r = k /\ action_checks r = true;
  iv_target : forall k r, actions d !! k = Some r -> uuid_text (r_target_id r) = r_target_id r;
  iv_actor : forall k r, actions d !! k = Some r -> is_Some (principals d !! pr_SPIFFEID (r_actor r));
  iv_key : forall k k' r r', actions d !! k = Some r -> actions d !! k' = Some r' -> key_of r = key_of r' -> k = k';
  iv_log : forall k r, actions d !! k = Some r -> logged (r_status r) (r_attempts r) (r_error_code r) (log k d);
  iv_facts : forall u, u ∈ history d -> exists r, actions d !! u_action_id u = Some r /\ u_facts u = facts r;
  iv_ids : NoDup (u_id <$> audit d);
  iv_kept : audit d `sublist_of` history d
}.
Lemma Inv_empty_admin : Inv empty_db.
Proof. split; try done. - by intros u ?%elem_of_nil. - constructor. Qed.

Lemma log_recorded u r k d : log k (recorded u r d) = if bool_decide (u_action_id u = k) then entry_of u :: log k d else log k d.
Proof. unfold log, recorded. simpl. by destruct (bool_decide (u_action_id u = k)). Qed.
(** A row is added or advanced, and the trail with it. *)
Lemma Inv_recorded d u r : Inv d -> u_action_id u = r_id r -> uuid_text (r_target_id r) = r_target_id r -> u_facts u = facts r -> action_checks r = true -> fresh_event u d ->
  is_Some (principals d !! pr_SPIFFEID (r_actor r)) ->
  (forall r0, actions d !! r_id r = Some r0 -> facts r0 = facts r) ->
  (forall k' r', actions d !! k' = Some r' -> k' <> r_id r -> key_of r' <> key_of r) ->
  logged (r_status r) (r_attempts r) (r_error_code r) (entry_of u :: log (r_id r) d) -> Inv (recorded u r d).
Proof.
  intros [Hr Ht Ha Hk Hl Hf Hi Hs] Eu Et Ef Hc Hfresh Hp Hold Hkey Hlog.
  split; cbn [recorded add_audit set_actions actions principals audit history].
  - intros k r' [[<- <-]|[Hne H]]%lookup_insert_Some; [done|by apply Hr].
  - intros k r' [[<- <-]|[Hne H]]%lookup_insert_Some; [done|by eapply Ht].
  - intros k r' [[<- <-]|[Hne H]]%lookup_insert_Some; [done|by eapply Ha].
  - intros k k' r1 r2 [[<- <-]|[Hne H]]%lookup_insert_Some [[<- <-]|[Hne' H']]%lookup_insert_Some E; [done|..].
    + exfalso. by eapply Hkey.
    + exfalso. by eapply Hkey.
    + by eapply Hk.
  - intros k r' [[<- <-]|[Hne H]]%lookup_insert_Some; fold (recorded u r d); rewrite log_recorded.
    + by rewrite bool_decide_true.
    + rewrite bool_decide_false by congruence. by apply Hl.
  - intros u' [->|Hu]%elem_of_cons; [exists r; by rewrite Eu, lookup_insert_eq|]. destruct (Hf u' Hu) as (r' & H' & E').
    destruct (decide (u_action_id u' = r_id r)) as [E|Hne]; [|exists r'; by rewrite lookup_insert_ne].
    exists r. rewrite E, lookup_insert_eq. split; [done|]. rewrite E', Hold; [done|]. by rewrite <- E.
  - simpl. constructor; [exact Hfresh|done].
  - by constructor.
Qed.
Lemma log_unknown d k : Inv d -> actions d !! k = None -> log k d = [].
Proof.
  intros HI Hk. unfold log. destruct (List.filter _ _) as [|u l] eqn:E; [done|]. exfalso.
  assert (In u (List.filter (fun u => bool_decide (u_action_id u = k)) (history d))) as Hu by (rewrite E; by left).
  rewrite filter_In, bool_decide_eq_true in Hu. destruct Hu as [Hu <-].
  apply list_elem_of_In in Hu. destruct (iv_facts _ HI u Hu) as (r & Hr & _). congruence.
Qed.

(** What every operation leaves in place. *)
Record keeps (d d' : db) : Prop := {
  kp_actions : forall k r, actions d !! k = Some r -> exists r', actions d' !! k = Some r' /\ facts r' = facts r /\
    r_request_sha256 r' = r_request_sha256 r /\ (final (r_status r) = true -> r' = r) /\ exists l, log k d' = l ++ log k d
}.
Lemma admin_keeps_refl d : keeps d d.
Proof. split. intros k r H. exists r. split_and!; [done..|]. by exists []. Qed.
Lemma admin_keeps_trans d1 d2 d3 : keeps d1 d2 -> keeps d2 d3 -> keeps d1 d3.
Proof.
  intros [H1] [H2]. split. intros k r (r1 & A1 & F1 & Q1 & E1 & l1 & L1)%H1. destruct (H2 k r1 A1) as (r2 & A2 & F2 & Q2 & E2 & l2 & L2).
  exists r2. split_and!; [done|congruence..| |].
  - intros Hf. rewrite (E1 Hf) in *. auto.
  - exists (l2 ++ l1). by rewrite L2, L1, <- app_assoc.
Qed.
Lemma keeps_recorded d u r : u_action_id u = r_id r ->
  (forall r0, actions d !! r_id r = Some r0 -> facts r0 = facts r /\ r_request_sha256 r0 = r_request_sha256 r /\ final (r_status r0) = false) ->
  keeps d (recorded u r d).
Proof.
  intros Eu Hold. split. intros k r0 H0. destruct (decide (k = r_id r)) as [->|Hne].
  - destruct (Hold r0 H0) as (E1 & E2 & E3). exists r. simpl. rewrite lookup_insert_eq. split_and!; [done..|congruence|].
    rewrite log_recorded, bool_decide_true by done. by exists [entry_of u].
  - exists r0. simpl. rewrite lookup_insert_ne by done. split_and!; [done..|].
    rewrite log_recorded, bool_decide_false by congruence. by exists [].
Qed.
Lemma by_key_None input d : by_key input d = None -> forall k r, actions d !! k = Some r ->
  key_of r <> (pr_SPIFFEID (in_Actor input), in_Action input, in_IdempotencyKeySHA256 input).
Proof.
  intros Hb k r Hk [= E1 E2 E3]. pose proof (where_head_None _ _ Hb _ _ Hk) as H.
  unfold same_request in H. by rewrite !bool_decide_true in H.
Qed.
Lemma by_key_Some input d r : by_key input d = Some r -> Inv d -> actions d !! r_id r = Some r /\
  key_of r = (pr_SPIFFEID (in_Actor input), in_Action input, in_IdempotencyKeySHA256 input).
Proof.
  intros [Hs (k & Hk)]%where_head_Some HI. destruct (iv_row _ HI k r Hk) as [-> _]. split; [done|].
  unfold same_request in Hs. rewrite !andb_true_iff, !bool_decide_eq_true in Hs. destruct Hs as [[E1 E2] E3]. unfold key_of. congruence.
Qed.
Lemma begun_good now u input d x d' : Inv d -> begun now u input d x d' -> Inv d' /\ keeps d d'.
Proof.
  intros HI H.  destruct H as [r Hr Hs|Hb Hn Hc Hp Hf]; [split; [done|apply admin_keeps_refl]|]. split.
  - apply Inv_recorded; try done.
    + apply uuid_text_idem.
    + intros r0 H0. simpl in H0. congruence.
    + intros k' r' H' _. exact (by_key_None _ _ Hb _ _ H').
    + cbn [r_id new_action]. rewrite log_unknown by done. apply lg_accept.
  - apply keeps_recorded; [done|]. intros r0 H0. simpl in H0. congruence.
Qed.
(** An attempt moves a row of the table. *)
Lemma moved_good d k r r' now u q o code ct : Inv d -> actions d !! k = Some r -> r_id r' = r_id r -> facts r' = facts r ->
  r_request_sha256 r' = r_request_sha256 r -> final (r_status r) = false -> action_checks r' = true ->
  let e := audit_of now u (actionInputForAudit r q) o code ct in fresh_event e d ->
  logged (r_status r') (r_attempts r') (r_error_code r') (entry_of e :: log k d) ->
  Inv (recorded e r' d) /\ keeps d (recorded e r' d).
Proof.
  intros HI Hk Eid Ef Eq Hfin Hc e Hfresh Hlog. destruct (iv_row _ HI k r Hk) as [Ek _]. split.
  - assert (r_target_id r' = r_target_id r) as Et by (unfold facts in Ef; congruence).
    apply Inv_recorded; rewrite ?Eid, ?Ek, ?Et; [done|done| | |exact Hc|done| | | |exact Hlog].
    + by eapply iv_target.
    + rewrite Ef. unfold u_facts, facts, e. cbn. by rewrite (iv_target _ HI _ _ Hk).
    + assert (r_actor r' = r_actor r) as -> by (unfold facts in Ef; congruence). by eapply iv_actor.
    + intros r0 H0. congruence.
    + intros k' r1 H1 Hne E. apply Hne. apply (iv_key _ HI k' k r1 r H1 Hk). rewrite E. unfold key_of, facts in *. congruence.
  - apply keeps_recorded; [by rewrite Eid|]. intros r0 H0. rewrite Eid, Ek in H0. assert (r0 = r) as -> by congruence. done.
Qed.
Lemma claimable_open now r : claimable now r = true -> final (r_status r) = false.
Proof. unfold claimable, final. by destruct (r_status r). Qed.
Lemma attempted_good now c u k q lease d x d' : Inv d -> attempted now c u k q lease d x d' -> Inv d' /\ keeps d d'.
Proof.
  intros HI [r Hk Hc|r o e Hk Hc Hch Hf]; [split; [done|apply admin_keeps_refl]|]. pose proof (claimable_open _ _ Hc) as Hfin.
  eapply moved_good; try done. apply (lg_attempt _ _ _ _ (iv_log _ HI _ _ Hk) Hfin).
Qed.
Lemma logged_processing st n code l : logged st n code l -> st = ActProcessing -> code = None.
Proof. by destruct 1. Qed.
Lemma held_processing c r : held c r = true -> r_status r = ActProcessing /\ r_claim_id r = Some c.
Proof.
  unfold held. rewrite !andb_true_iff, !bool_decide_eq_true. intros [[-> E] [c' Hc]]. rewrite Hc in *. simpl in E. by subst.
Qed.
(** Ends of an attempt: how the row changes, and what the trail says. *)
Definition ends (f : action_row -> action_row) (o : AuOutcome) (code : string) : Prop := forall r l,
  r_id (f r) = r_id r /\ facts (f r) = facts r /\ r_request_sha256 (f r) = r_request_sha256 r /\ r_attempts (f r) = r_attempts r /\
  (logged ActProcessing (r_attempts r) None l -> logged (r_status (f r)) (r_attempts r) (r_error_code (f r)) ((o, nullif_empty code) :: l)).
Lemma ends_completed now result code : ends (completed now result code) (end_outcome code) code.
Proof.
  intros r l. split_and!; [done..|]. intros H. unfold completed, end_outcome, nullif_empty. simpl.
  case_bool_decide; simpl; [by apply lg_succeed|by apply lg_fail].
Qed.
Lemma ends_unknown code : code <> ""%string -> ends (unknown code) AuOutcomeUnknown code.
Proof.
  intros Hc r l. split_and!; [done..|]. intros H. unfold nullif_empty. rewrite bool_decide_false by done. by apply lg_unknown.
Qed.
Lemma ended_good now u k c q f o code ct d x d' : Inv d -> ends f o code -> ended now u k c q f o code ct d x d' -> Inv d' /\ keeps d d'.
Proof.
  intros HI He [r Hk Hf|r e Hk Hh Hch Hf]; [split; [done|apply admin_keeps_refl]|].
  destruct (held_processing _ _ Hh) as [Hp _]. pose proof (iv_log _ HI _ _ Hk) as Hl. pose proof (logged_processing _ _ _ _ Hl Hp) as Hn.
  rewrite Hp, Hn in Hl. destruct (He r (log k d)) as (E1 & E2 & E3 & E4 & E5).
  eapply moved_good; try done; [by rewrite Hp|]. rewrite E4. by apply E5.
Qed.

(** *** Bootstrap: principals come and change, none goes. *)
Definition only_principals (d d' : db) : Prop := actions d' = actions d /\ (audit d' = audit d /\ history d' = history d) /\ dom (principals d) ⊆ dom (principals d').
Lemma seeded seeds t x t' : seed_all seeds t = (Ok x, t') -> only_principals (working t) (working t').
Proof.
  assert (forall id roles t x t', grant_all id roles t = (Ok x, t') -> only_principals (working t) (working t')) as Hg.
  { intros id roles. induction roles as [|role roles IH]; simpl; intros t0 y t1; [by intros [= <- <-]|].
    unfold grant. intros (z & t2 & H1 & H2)%bind_ok_inv. rewrite run_get in H1.
    apply bind_ok_inv in H1 as (z' & t3 & [_ ->]%require_ok & [= <- <-]). by apply IH in H2. }
  revert t x t'. induction seeds as [|seed seeds IH]; simpl; intros t0 y t1; [by intros [= <- <-]|].
  unfold seed_principal. intros (z & t2 & H1 & H2)%bind_ok_inv. apply bind_ok_inv in H1 as (z' & t3 & [_ ->]%require_ok & H1).
  rewrite !run_modify in H1. apply Hg in H1 as (A1 & A2 & A3). apply IH in H2 as (B1 & B2 & B3). cbn in A1, A2, A3. destruct A2, B2.
  split_and!; [congruence..|]. etrans; [|exact B3]. etrans; [|exact A3]. rewrite dom_insert. set_solver.
Qed.
Lemma seeded_good d d' : Inv d -> only_principals d d' -> Inv d' /\ keeps d d'.
Proof.
  intros [Hr Ht Ha Hk Hl Hf Hi Hs] (E1 & [E2 E4] & E3). split.
  - split; unfold log; rewrite ?E1, ?E2, ?E4; try done. intros k r H. apply elem_of_dom, E3, elem_of_dom. by eapply Ha.
  - split. intros k r H. exists r. rewrite E1. split_and!; [done..|]. exists []. unfold log. by rewrite E4.
Qed.

(** *** Retention: only the table forgets. *)
Inductive purged (now days : Z) (limit : nat) (locked : gset string) (d : db) : Z -> db -> Prop :=
  | Purged (ids := selected (now - days * (24 * hour)) limit locked d) : retention_days_ok days = true ->
      purged now days limit locked d (Z.of_nat (length ids)) (keep_audit (fun u => negb (bool_decide (u_id u ∈ ids))) d).
Lemma selected_old cutoff limit locked d i : i ∈ selected cutoff limit locked d ->
  exists u, u ∈ audit d /\ u_id u = i /\ u_occurred_at u < cutoff.
Proof.
  unfold selected. intros (u & -> & Hu)%list_elem_of_fmap. exists u.
  assert (u ∈ order_by earlier_event (List.filter (fun u => (u_occurred_at u <? cutoff) && negb (bool_decide (u_id u ∈ locked))) (audit d))) as H.
  { rewrite <- (take_drop limit). apply elem_of_app. by left. }
  apply elem_order_by, list_elem_of_In, filter_In in H as [H1 H2]. apply list_elem_of_In in H1.
  apply andb_true_iff in H2 as [H2%Z.ltb_lt _]. done.
Qed.
Lemma purged_good now days limit locked d x d' : Inv d -> purged now days limit locked d x d' -> Inv d' /\ keeps d d'.
Proof.
  intros [Hr Ht Ha Hk Hl Hf Hi Hs] [ids _]. split.
  - split; try done; simpl.
    + clear -Hi. induction (audit d) as [|u l IH]; simpl; [constructor|]. inversion Hi as [|? ? Hn Hl]; subst.
      destruct (negb _); simpl; [|by apply IH]. constructor; [|by apply IH]. intros (w & E & Hw)%list_elem_of_fmap.
      apply list_elem_of_In, filter_In in Hw as [Hw%list_elem_of_In _]. apply Hn. rewrite E. by apply list_elem_of_fmap_2.
    + etrans; [|exact Hs]. clear. induction (audit d) as [|u l IH]; simpl; [done|]. by destruct (negb _); constructor.
  - split. intros k r H. exists r. split_and!; [done..|]. by exists [].
Qed.

Lemma in_tx_done {A} (m : admin_tx A) d x d' : in_tx m d = (Ok x, d') -> exists t', m (Txn d d) = (Ok x, t') /\ d' = durable t'.
Proof. unfold in_tx. destruct (m (Txn d d)) as [r t']. intros [= -> <-]. by exists t'. Qed.
(** What a successful call does, operation by operation. *)
Lemma begin_done now u input d x d' : in_tx (BeginAction now u input) d = (Ok x, d') -> begun now u input d x d'.
Proof. intros (t' & (d0 & H & ->)%BeginAction_ok & ->)%in_tx_done. exact H. Qed.
Lemma start_done now c u k q lease d x d' : in_tx (StartActionAttempt now c u k q lease) d = (Ok x, d') -> attempted now c u k q lease d x d'.
Proof. intros (t' & (d0 & H & ->)%StartActionAttempt_ok & ->)%in_tx_done. exact H. Qed.
Lemma complete_done now u k c q result code d x d' : in_tx (CompleteAction now u k c q result code) d = (Ok x, d') ->
  ended now u k c q (completed now result code) (end_outcome code) code (Some now) d x d'.
Proof. intros (t' & (d0 & H & ->)%CompleteAction_ok & ->)%in_tx_done. exact H. Qed.
Lemma unknown_done now u k c q code d x d' : in_tx (MarkActionOutcomeUnknown now u k c q code) d = (Ok x, d') ->
  ended now u k c q (unknown code) AuOutcomeUnknown code None d x d'.
Proof. intros (t' & (d0 & H & ->)%MarkActionOutcomeUnknown_ok & ->)%in_tx_done. exact H. Qed.
Lemma retention_done now days limit locked d x d' : in_tx (retention_batch now days limit locked) d = (Ok x, d') ->
  purged now days limit locked d x d'.
Proof.
  intros (t' & H & ->)%in_tx_done. unfold retention_batch, DeleteBatch in H.
  apply bind_ok_inv in H as (y & t1 & [Hd ->]%require_ok & H). rewrite run_get, run_modify in H. injection H as <- <-. by apply Purged.
Qed.
(** An outcome cannot be unknown for no reason: the check on the code. *)
Lemma unknown_needs_code now u k c q d x d' : ended now u k c q (unknown "") AuOutcomeUnknown "" None d x d' -> d' = d.
Proof.
  intros [r Hk Hf|r e Hk Hh Hch Hf]; [done|]. exfalso. unfold action_checks in Hch.
  rewrite !andb_true_iff in Hch. by destruct Hch as [[_ Hch] _].
Qed.
Lemma admin_exec_good o d : Inv d -> Inv (snd (exec o d)) /\ keeps d (snd (exec o d)).
Proof.
  intros HI. destruct (exec o d) as [[e|] d'] eqn:E; simpl.
  { apply admin_failed_unchanged in E as ->. split; [done|apply admin_keeps_refl]. }
  destruct o; simpl in E; unfold outcome in E; destruct (in_tx _ d) as [[x|e] d0] eqn:Ex; simplify_eq.
  - apply in_tx_done in Ex as (t' & H & ->). apply bind_ok_inv in H as (y & t1 & H & [= <- <-]). apply seeded in H. by eapply seeded_good.
  - apply begin_done in Ex. by eapply begun_good.
  - apply start_done in Ex. by eapply attempted_good.
  - apply complete_done in Ex. eapply ended_good; [done| |done]. apply ends_completed.
  - apply unknown_done in Ex. destruct (decide (errorCode = ""%string)) as [->|Hc].
    + apply unknown_needs_code in Ex as ->. split; [done|apply admin_keeps_refl].
    + eapply ended_good; [done| |done]. by apply ends_unknown.
  - apply retention_done in Ex. by eapply purged_good.
Qed.
Lemma admin_reachable_inv d : reachable d -> Inv d.
Proof.
  intros [l ->]. assert (forall d, Inv d -> Inv (exec_all l d)) as H; [|apply H, Inv_empty_admin].
  induction l as [|o l IH]; simpl; [done|]. intros d0 Hd. by apply IH, admin_exec_good.
Qed.

(** Where a row comes from. *)
Inductive origin (o : op) (d : db) (k : string) (r' : action_row) : Prop :=
  | OrKept : actions d !! k = Some r' -> origin o d k r'
  | OrNew now u input : o = OpBegin now u input -> k = in_ActionID input -> r' = new_action now input -> origin o d k r'
  | OrOpen r : actions d !! k = Some r -> facts r' = facts r -> r_request_sha256 r' = r_request_sha256 r -> final (r_status r') = false ->
      origin o d k r'
  | OrEnded r now u c q result code : actions d !! k = Some r -> o = OpComplete now u k c q result code -> r' = completed now result code r ->
      origin o d k r'.
Lemma row_recorded e r d k r' : actions (recorded e r d) !! k = Some r' -> k = r_id r /\ r' = r \/ actions d !! k = Some r'.
Proof. simpl. intros [[<- <-]|[Hne H]]%lookup_insert_Some; [by left|by right]. Qed.
Lemma exec_origin o d k r' : Inv d -> actions (snd (exec o d)) !! k = Some r' -> origin o d k r'.
Proof.
  intros HI. destruct (exec o d) as [[e|] d'] eqn:E; simpl.
  { apply admin_failed_unchanged in E as ->. by apply OrKept. }
  destruct o; simpl in E; unfold outcome in E; destruct (in_tx _ d) as [[x|e] d0] eqn:Ex; simplify_eq.
  - apply in_tx_done in Ex as (t' & H & ->). apply bind_ok_inv in H as (y & t1 & H & [= <- <-]). apply seeded in H as (E & _). simpl. rewrite E. by apply OrKept.
  - apply begin_done in Ex. destruct Ex; [by apply OrKept|]. intros [[-> ->]|]%row_recorded; [by eapply OrNew|by apply OrKept].
  - apply start_done in Ex. destruct Ex as [|r ? ? Hk]; [by apply OrKept|].
    intros [[-> ->]|]%row_recorded; [|by apply OrKept]. simpl. destruct (iv_row _ HI _ _ Hk) as [-> _]. by eapply (OrOpen _ _ _ _ r).
  - apply complete_done in Ex. destruct Ex as [|r ? Hk]; [by apply OrKept|].
    intros [[-> ->]|]%row_recorded; [|by apply OrKept]. simpl. destruct (iv_row _ HI _ _ Hk) as [-> _]. by eapply OrEnded.
  - apply unknown_done in Ex. destruct Ex as [|r ? Hk]; [by apply OrKept|].
    intros [[-> ->]|]%row_recorded; [|by apply OrKept]. simpl. destruct (iv_row _ HI _ _ Hk) as [-> _]. by eapply (OrOpen _ _ _ _ r).
  - apply retention_done in Ex. destruct Ex. intros H0. by apply OrKept.
Qed.
(** Only the first attempt is not a repetition. *)
Lemma logged_attempted st n code l : logged st n code l -> 0 < n -> (AuAttempted, None) ∈ l.
Proof.
  induction 1 as [|st n code l H IH Hf|n code l H IH|n l H IH|n code l H IH]; intros Hn; [done|..]; apply elem_of_cons; try (right; by apply IH).
  pose proof (logged_nonneg _ _ _ _ H). destruct (Z.ltb_spec 0 n); [right; by apply IH|by left].
Qed.

(** ** Properties of every reachable database *)

(** Retention ran with no cutoff after [C]. *)
Definition forgets_before (C : Z) (o : op) : Prop :=
  match o with OpRetention now days _ _ => now - days * (24 * hour) <= C | _ => True end.
Definition since (C : Z) : list audit_row -> list audit_row := List.filter (fun u => C <=? u_occurred_at u).
(** What one operation does to table and history. *)
Inductive trail_step (o : op) (d d' : db) : Prop :=
  | TrailGrows l : audit d' = l ++ audit d -> history d' = l ++ history d -> trail_step o d d'
  | TrailForgets now days limit locked n : o = OpRetention now days limit locked -> purged now days limit locked d n d' ->
      trail_step o d d'.
Lemma exec_trail o d : trail_step o d (snd (exec o d)).
Proof.
  assert (forall d1, audit d1 = audit d -> history d1 = history d -> trail_step o d d1) as Hsame by (intros d1 E1 E2; by apply (TrailGrows _ _ _ [])).
  assert (forall u r, trail_step o d (recorded u r d)) as Hadd by (intros u r; by apply (TrailGrows _ _ _ [u])).
  destruct (exec o d) as [[e|] d'] eqn:E; simpl.
  { apply admin_failed_unchanged in E as ->. by apply Hsame. }
  destruct o; simpl in E; unfold outcome in E; destruct (in_tx _ d) as [[x|e] d0] eqn:Ex; simplify_eq.
  - apply in_tx_done in Ex as (t' & H & ->). apply bind_ok_inv in H as (y & t1 & H & [= <- <-]).
    apply seeded in H as (_ & [E1 E2] & _). by apply Hsame.
  - apply begin_done in Ex. destruct Ex; [by apply Hsame|apply Hadd].
  - apply start_done in Ex. destruct Ex; [by apply Hsame|apply Hadd].
  - apply complete_done in Ex. destruct Ex; [by apply Hsame|apply Hadd].
  - apply unknown_done in Ex. destruct Ex; [by apply Hsame|apply Hadd].
  - apply retention_done in Ex. by eapply TrailForgets.
Qed.
(** The identifier says which row of the table is meant. *)
Lemma same_id d u w : NoDup (u_id <$> audit d) -> u ∈ audit d -> w ∈ audit d -> u_id u = u_id w -> u = w.
Proof.
  induction (audit d) as [|x l IH]; simpl; [by intros _ ?%elem_of_nil|]. intros Hd. inversion Hd as [|? ? Hn Hl]; subst.
  intros [->|Hu]%elem_of_cons [->|Hw]%elem_of_cons E; [done|..|by apply IH].
  - destruct Hn. rewrite E. by apply list_elem_of_fmap_2.
  - destruct Hn. rewrite <- E. by apply list_elem_of_fmap_2.
Qed.
Lemma forgotten_old o d u : Inv d -> u ∈ audit d -> u ∈ audit (snd (exec o d)) \/
  exists now days limit locked, o = OpRetention now days limit locked /\ 365 <= days /\ u_occurred_at u < now - days * (24 * hour).
Proof.
  intros HI Hu. destruct (exec_trail o d) as [l -> _|now days limit locked n -> [ids Hd]]; [left; apply elem_of_app; by right|].
  destruct (decide (u_id u ∈ ids)) as [Hin|Hout].
  - right. exists now, days, limit, locked. destruct (selected_old _ _ _ _ _ Hin) as (w & Hw & Ew & Ho).
    rewrite <- (same_id d w u (iv_ids _ HI) Hw Hu Ew). unfold retention_days_ok in Hd. split_and!; [done|lia|done].
  - left. simpl. apply list_elem_of_In, filter_In. split; [by apply list_elem_of_In|]. by rewrite bool_decide_false.
Qed.
Lemma filter_filter_implied {A} (p q : A -> bool) l : (forall x, x ∈ l -> p x = true -> q x = true) ->
  List.filter p (List.filter q l) = List.filter p l.
Proof.
  induction l as [|x l IH]; intros H; simpl; [done|]. destruct (q x) eqn:Eq; simpl.
  - rewrite IH; [done|]. intros y Hy. apply H. by right.
  - destruct (p x) eqn:Ep; [rewrite (H x) in Eq; [done|by left|done]|]. apply IH. intros y Hy. apply H. by right.
Qed.
Lemma recent_kept C o d : Inv d -> forgets_before C o -> since C (audit d) = since C (history d) ->
  since C (audit (snd (exec o d))) = since C (history (snd (exec o d))).
Proof.
  intros HI Ho E. destruct (exec_trail o d) as [l -> ->|now days limit locked n -> [ids Hd]].
  - unfold since in *. rewrite !List.filter_app. by rewrite E.
  - simpl. rewrite <- E. unfold since. apply filter_filter_implied. intros u Hu HC. apply negb_true_iff, bool_decide_eq_false.
    intros Hin. destruct (selected_old _ _ _ _ _ Hin) as (w & Hw & Ew & Hold). rewrite (same_id d w u (iv_ids _ HI) Hw Hu Ew) in Hold.
    simpl in Ho. lia.
Qed.
Lemma recent_in_table C l d : Inv d -> Forall (forgets_before C) l -> since C (audit d) = since C (history d) ->
  since C (audit (exec_all l d)) = since C (history (exec_all l d)).
Proof.
  intros HI Hl. revert d HI. induction Hl as [|o l Ho _ IH]; [done|]. intros d HI E. simpl.
  apply IH; [by apply admin_exec_good|by apply recent_kept].
Qed.

(** C21: The audit trail is true and complete, as far back as retention lets
    it: what was recorded about an action, from the first entry to the last,
    is a run of the machine of actions that ends in the state, the number of
    attempts and the error code of its row; it begins with the acceptance,
    which no later entry repeats, and shows every attempt; every entry repeats
    the actor with the roles and permissions of that moment, the target and
    the reason of its action. The table holds only what was recorded, in that
    order, and all of it since the latest cutoff of the retention job. And it
    stays so: whatever operation follows only adds to what is recorded, leaves
    the request of an action as it is, leaves a succeeded or failed action
    alone, and takes no entry from the table, the retention job excepted,
    which takes none younger than 365 days. *)
Theorem audit_tells_the_whole_story l C :
  Forall (forgets_before C) l ->
  let d := exec_all l empty_db in
  (forall k r, actions d !! k = Some r -> logged (r_status r) (r_attempts r) (r_error_code r) (log k d) /\
     r_attempts r = Z.of_nat (length (List.filter tried (log k d))) /\
     exists tail, log k d = tail ++ [(AuAccepted, None)] /\ forall e, e ∈ tail -> fst e <> AuAccepted) /\
  (forall u, u ∈ history d -> exists r, actions d !! u_action_id u = Some r /\ u_facts u = facts r) /\
  audit d `sublist_of` history d /\ since C (audit d) = since C (history d) /\
  (forall o, (forall k r, actions d !! k = Some r -> exists r' later, actions (snd (exec o d)) !! k = Some r' /\ facts r' = facts r /\
       (final (r_status r) = true -> r' = r) /\ log k (snd (exec o d)) = later ++ log k d) /\
     (forall u, u ∈ audit d -> u ∈ audit (snd (exec o d)) \/
        exists now days limit locked, o = OpRetention now days limit locked /\ 365 <= days /\
          u_occurred_at u < now - days * (24 * hour))).
Proof.
  intros Hl d. assert (Inv d) as HI by (apply admin_reachable_inv; by exists l). split_and!.
  - intros k r Hk. pose proof (iv_log _ HI _ _ Hk) as Hlog. split_and!; [done|by eapply logged_attempts|by eapply logged_accepted].
  - apply iv_facts. done.
  - apply HI.
  - by apply recent_in_table; [apply Inv_empty_admin| |].
  - intros o. split; [|intros u; by apply forgotten_old]. intros k r Hk.
    destruct (admin_exec_good o d HI) as [_ [H]]. destruct (H k r Hk) as (r' & H1 & H2 & _ & H3 & l' & H4). by exists r', l'.
Qed.
Lemma by_key_found input d k r : Inv d -> actions d !! k = Some r ->
  key_of r = (pr_SPIFFEID (in_Actor input), in_Action input, in_IdempotencyKeySHA256 input) -> by_key input d = Some r.
Proof.
  intros HI Hk Ek. destruct (by_key input d) as [r'|] eqn:E.
  - destruct (by_key_Some _ _ _ E HI) as [H' E']. f_equal. assert (r_id r' = k) as Eid by (eapply (iv_key _ HI); [exact H'|exact Hk|congruence]).
    rewrite Eid in H'. congruence.
  - by destruct (by_key_None _ _ E _ _ Hk).
Qed.
(** A request repeated under its key is the same action, however long ago the
    first was and whatever became of it; the same key with another request is
    refused; neither writes anything. *)
Theorem repeated_requests_are_one_action l now u input now' u' input' d a d1 : reachable d ->
  in_tx (BeginAction now u input) d = (Ok (a, false), d1) ->
  pr_SPIFFEID (in_Actor input') = pr_SPIFFEID (in_Actor input) -> in_Action input' = in_Action input ->
  in_IdempotencyKeySHA256 input' = in_IdempotencyKeySHA256 input ->
  exists r, actions (exec_all l d1) !! in_ActionID input = Some r /\
    in_tx (BeginAction now' u' input') (exec_all l d1) =
      (if same_input input' (new_action now input) then Ok (replayed (scanAction r), true) else Err ErrIdempotencyConflict, exec_all l d1).
Proof.
  intros HI%admin_reachable_inv Hb%begin_done E1 E2 E3. destruct (begun_good _ _ _ _ _ _ HI Hb) as [HI1 _].
  inversion Hb as [|Hk Hn Hc Hp Hf Ha Hd1]; subst. set (d1 := recorded _ _ _) in *.
  assert (forall l d, Inv d -> Inv (exec_all l d) /\ keeps d (exec_all l d)) as Hall.
  { clear. intros l. induction l as [|o l IH]; simpl; intros d HI; [split; [done|apply admin_keeps_refl]|].
    destruct (admin_exec_good o d HI) as [H1 H2]. destruct (IH _ H1) as [H3 H4]. split; [done|by eapply admin_keeps_trans]. }
  destruct (Hall l d1 HI1) as [HI2 [Hkp]]. destruct (Hkp (in_ActionID input) (new_action now input)) as (r & Hr & Ef & Eq & _).
  { apply lookup_insert_eq. }
  exists r. split; [done|]. assert (by_key input' (exec_all l d1) = Some r) as Hbk.
  { eapply by_key_found; [done|exact Hr|]. unfold facts in Ef. unfold key_of. rewrite E1, E2, E3. cbn in Ef. congruence. }
  unfold in_tx, BeginAction. rewrite run_get. cbn [working]. fold (by_key input'). rewrite Hbk.
  assert (same_input input' r = same_input input' (new_action now input)) as <-.
  { unfold same_input. unfold facts in Ef. cbn in Ef |- *. injection Ef as _ _ _ -> -> -> _ _. by rewrite Eq. }
  unfold same_input. by destruct (_ && _).
Qed.
