(* ===== verification/AdminService.v ===== *)
(** * admin-service: administrative actions and support pages

    src/services/admin/internal/application/service.go (actions, from the
    request to the recorded outcome), internal/owner/client.go (what counts as
    an answer of the service that owns the target) and
    internal/httpapi/handler.go. The owners are a parameter: a state of theirs
    and what each of them answers; the JSON decoders are parameters too. *)

From Stdlib Require Import Ascii List.
From S2P Require Import Prelude GoStrings Sha256 Backoff Platform GoText Jobs AdminDomain AdminStore.

Definition newline : string := String "010" EmptyString.
Definition number (n : Z) : json := JNumber (FormatInt n).

(** ** The client of the owners *)

(** What comes back: nothing, or a status and a body, [None] if it breaks off. *)
Abbreviation http_answer := (option (Z * option string)).
Definition ownerRejected (code : string) : OwnerError := MkOwnerError code true.
Definition ownerUnknown (code : string) : OwnerError := MkOwnerError code false.
Definition ownerStatusError (status : Z) : OwnerError :=
  if status =? 404 then ownerRejected "owner_not_found"
  else if status =? 409 then ownerRejected "owner_conflict"
  else if status =? 400 then ownerRejected "owner_request_rejected"
  else if (status =? 401) || (status =? 403) then ownerRejected "owner_authorization_failed"
  else ownerUnknown "owner_unavailable".
Definition maxResponseBytes : Z := 128 * 1024.
(** [do]: the strict decoder sees the whole body or nothing. *)
Definition owner_do {A} (decode : string -> option A) (r : http_answer) : result OwnerError A :=
  match r with
  | None => Err (ownerUnknown "owner_unavailable")
  | Some (_, None) => Err (ownerUnknown "owner_response_invalid")
  | Some (status, Some payload) =>
      if maxResponseBytes <? go_len payload then Err (ownerUnknown "owner_response_invalid")
      else if (status <? 200) || (300 <=? status) then Err (ownerStatusError status)
      else match decode payload with Some a => Ok a | None => Err (ownerUnknown "owner_response_invalid") end
  end.

Record NotificationRetryResult := MkNotificationRetry { nrr_NotificationID : string; nrr_NotificationType : string;
  nrr_Status : string; nrr_Attempts : Z; nrr_MaxAttempts : Z; nrr_Replay : bool }.
Record SubscriptionRevokeResult := MkSubscriptionRevoke { srr_SubscriptionID : string; srr_Status : string;
  srr_ReasonCode : string; srr_Replay : bool }.
Record AccessRecoveryResult := MkAccessRecovery { arr_CredentialID : string; arr_OperationID : string;
  arr_DesiredRevision : Z; arr_Status : string; arr_Replay : bool }.
(** [json.Marshal] of the results. *)
Definition json_of_retry (r : NotificationRetryResult) : json :=
  JObject [("notification", JObject [("notification_id", JString (nrr_NotificationID r)); ("notification_type", JString (nrr_NotificationType r));
    ("status", JString (nrr_Status r)); ("attempts", number (nrr_Attempts r)); ("max_attempts", number (nrr_MaxAttempts r))]);
    ("replay", JBool (nrr_Replay r))]%string.
Definition json_of_revoke (r : SubscriptionRevokeResult) : json :=
  JObject [("subscription_id", JString (srr_SubscriptionID r)); ("status", JString (srr_Status r));
    ("reason_code", JString (srr_ReasonCode r)); ("replay", JBool (srr_Replay r))]%string.
Definition json_of_recovery (r : AccessRecoveryResult) : json :=
  JObject [("credential_id", JString (arr_CredentialID r)); ("operation_id", JString (arr_OperationID r));
    ("desired_revision", number (arr_DesiredRevision r)); ("status", JString (arr_Status r)); ("replay", JBool (arr_Replay r))]%string.

(** What an administrator may ask an owner to do. *)
Inductive mutation :=
  | RetryOf (notificationID reason : string)
  | RevokeOf (subscriptionID reasonCode : string)
  | RecoverOf (credentialID : string).
(** The pages an administrator may read. *)
Inductive view := UserView | ConsentView | OrderView | PaymentView | SubscriptionView | AccessView | NotificationView |
  DeadLetterListView | ProvisioningView.
Record readiness := MkReadiness { rd_Service : string; rd_Status : string }.
Record version := MkVersion { vr_Service : string; vr_Version : string }.
(** The strict decoders; a view is decoded and encoded again. *)
Record owner_decoders := MkOwnerDecoders {
  dec_retry : string -> option NotificationRetryResult;
  dec_revoke : string -> option SubscriptionRevokeResult;
  dec_recovery : string -> option AccessRecoveryResult;
  dec_view : view -> string -> option json;
  dec_readiness : string -> option readiness;
  dec_version : string -> option version
}.
Definition uuidPattern : string -> bool := versioned_uuid.
Definition notificationStatus (value : string) : bool :=
  bool_decide (value ∈ ["pending"; "processing"; "retry"; "delivered"; "permanently_failed"; "suppressed"]%string).

Section client.
Context (dec : owner_decoders).
(** An answer that does not fit the request settles nothing. *)
Definition fitting {A} (fits : A -> bool) (r : result OwnerError A) : result OwnerError A :=
  match r with Ok a => if fits a then Ok a else Err (ownerUnknown "owner_response_invalid") | Err e => Err e end.
Definition client_RetryNotification (notificationID : string) (r : http_answer) : result OwnerError NotificationRetryResult :=
  fitting (fun x => bool_decide (nrr_NotificationID x = notificationID) && notificationStatus (nrr_Status x) && (0 <=? nrr_Attempts x) &&
    (1 <=? nrr_MaxAttempts x) && (nrr_Attempts x <=? nrr_MaxAttempts x)) (owner_do (dec_retry dec) r).
Definition client_RevokeSubscription (subscriptionID reasonCode : string) (r : http_answer) : result OwnerError SubscriptionRevokeResult :=
  fitting (fun x => bool_decide (srr_SubscriptionID x = subscriptionID) && bool_decide (srr_Status x = "revoked"%string) &&
    bool_decide (srr_ReasonCode x = reasonCode)) (owner_do (dec_revoke dec) r).
Definition client_RecoverAccess (credentialID : string) (r : http_answer) : result OwnerError AccessRecoveryResult :=
  fitting (fun x => bool_decide (arr_CredentialID x = credentialID) && uuidPattern (arr_OperationID x) && (2 <=? arr_DesiredRevision x) &&
    bool_decide (arr_Status x = "provisioning"%string)) (owner_do (dec_recovery dec) r).
Definition mapped {A} (f : A -> json) (r : result OwnerError A) : result OwnerError json :=
  match r with Ok a => Ok (f a) | Err e => Err e end.
Definition client (m : mutation) (r : http_answer) : result OwnerError json :=
  match m with
  | RetryOf id _ => mapped json_of_retry (client_RetryNotification id r)
  | RevokeOf id code => mapped json_of_revoke (client_RevokeSubscription id code r)
  | RecoverOf id => mapped json_of_recovery (client_RecoverAccess id r)
  end.
Definition client_get (v : view) (r : http_answer) : result OwnerError json := owner_do (dec_view dec v) r.
Record ServiceHealth := MkHealth { sh_Service : string; sh_Status : string; sh_Version : string }.
Definition probe (service : string) (ready version : http_answer) : ServiceHealth :=
  match owner_do (dec_readiness dec) ready with
  | Ok r =>
      if negb (bool_decide (rd_Service r = service)) || negb (bool_decide (rd_Status r = "ready"%string))
      then MkHealth service "unavailable" ""
      else match owner_do (dec_version dec) version with
           | Ok v => MkHealth service "ready" (if bool_decide (vr_Service v = service) then vr_Version v else "")
           | Err _ => MkHealth service "ready" ""
           end
  | Err _ => MkHealth service "unavailable" ""
  end.
(** The probes answer in any order; the summary is sorted. *)
Definition probed_services : list string :=
  ["access-service"; "billing-service"; "identity-service"; "notification-service"; "provisioning-service"; "subscription-service"]%string.
Definition ReadHealthSummary (answers : string -> http_answer * http_answer) (order : list string) : list ServiceHealth :=
  order_by (fun a b => String.leb (sh_Service a) (sh_Service b)) ((fun s => probe s (fst (answers s)) (snd (answers s))) <$> order).
End client.

(** ** The shared state *)

(** The database, the owners, and a record of who was let in and of the calls
    made on owners with what came of them. *)
Inductive admin_entry :=
  | Authenticated (p : Principal)
  | Called (actionID : string) (m : mutation) (answer : result OwnerError json).
Record asys (X : Type) := MkAdminSys { as_db : db; as_owners : X; as_trace : list admin_entry }.
Arguments MkAdminSys {X} as_db as_owners as_trace.
Arguments as_db {X} a.
Arguments as_owners {X} a.
Arguments as_trace {X} a.
Definition put_db {X} (d : db) (s : asys X) : asys X := MkAdminSys d (as_owners s) (as_trace s).

Inductive exec_err := StoreErr (e : AdminErr) | OwnerErr (e : OwnerError).
(** What [Execute] returns: an action, unless it is the zero one, and an error. *)
Abbreviation exec_result := (option Action * option exec_err)%type.
Record ExecuteInput := MkExecute {
  xi_Principal : Principal;
  xi_Action : string;
  xi_Permission : string;
  xi_TargetType : string;
  xi_TargetID : string;
  xi_Reason : string;
  xi_ReasonCode : string;
  xi_IdempotencyKey : string;
  xi_RequestSHA256 : string;
  xi_RequestID : string
}.
(** What a request draws: the fate of each call on the database and on the
    owners, the clock, and the bytes of the identifiers. *)
Record admin_env := MkAdminEnv {
  ae_link : nat -> link;
  ae_owner_link : nat -> link;
  ae_now : nat -> Z;
  ae_action : list Z;
  ae_correlation : list Z;
  ae_claim : list Z;
  ae_event : nat -> list Z
}.
Definition actionAttemptLease : Z := minute.

Section service.
Context {X : Type} (answer : nat -> mutation -> string -> string -> X -> (Z * string) * X) (dec : owner_decoders).
Context (between : nat -> asys X -> asys X) (env : admin_env).

Definition store {A} (m : nat -> admin_tx A) : job (asys X) (result AdminErr A) :=
  call_store between as_db put_db (ae_link env) (ErrSQL "unavailable") m.
Definition event_id (i : nat) : string := RandomUUID (ae_event env i).
Definition Authenticate (spiffeID principal : string) : job (asys X) (result AdminErr Principal) := call between (fun i s =>
  match ae_link env i with
  | Up => match GetPrincipal spiffeID principal (as_db s) with
          | Ok p => (Ok p, MkAdminSys (as_db s) (as_owners s) (Authenticated p :: as_trace s))
          | Err e => (Err e, s)
          end
  | _ => (Err (ErrSQL "query admin principal"), s)
  end).
Definition Authorize (principal : Principal) (permission : string) : bool := Allowed (pr_Permissions principal) permission.
(** One request to the owner of the target, under the key of the action. *)
Definition owner_call (m : mutation) (actionID correlationID : string) : job (asys X) (result OwnerError json) := call between (fun i s =>
  let '(reached, came_back) := match ae_owner_link env i with Up => (true, true) | Lost => (true, false) | Down => (false, false) end in
  let '((status, body), x) := answer i m actionID correlationID (as_owners s) in
  let r := client dec m (if came_back then Some (status, Some body) else None) in
  (r, MkAdminSys (as_db s) (if reached then x else as_owners s) (Called actionID m r :: as_trace s))).

Definition of_store (r : result AdminErr Action) (err : option exec_err) : exec_result :=
  match r with Ok a => (Some a, err) | Err e => (None, Some (StoreErr e)) end.
Definition markUnknown (a : Action) (requestID code : string) (cause : exec_err) : job (asys X) exec_result :=
  r ← store (fun i => MarkActionOutcomeUnknown (ae_now env i) (event_id i) (ac_ActionID a) (ac_ClaimID a) requestID code);
  mret (of_store r (Some cause)).
(** What follows the answer of the owner; the encoding of a result cannot fail. *)
Definition conclude (a : Action) (requestID : string) (answered : result OwnerError json) : job (asys X) exec_result :=
  match answered with
  | Err e =>
      if oe_Definitive e then
        r ← store (fun i => CompleteAction (ae_now env i) (event_id i) (ac_ActionID a) (ac_ClaimID a) requestID None (ownerErrorCode e));
        mret (of_store r (Some (OwnerErr e)))
      else markUnknown a requestID (ownerErrorCode e) (OwnerErr e)
  | Ok payload =>
      if negb (validateSafeResult payload)
      then markUnknown a requestID "unsafe_owner_response" (OwnerErr (MkOwnerError "unsafe_owner_response" false))
      else
        r ← store (fun i => CompleteAction (ae_now env i) (event_id i) (ac_ActionID a) (ac_ClaimID a) requestID (Some payload) "");
        mret (of_store r None)
  end.
Definition settled (a : Action) : bool := final (ac_Status a).
Definition Execute (input : ExecuteInput) (owner : string -> string -> job (asys X) (result OwnerError json)) : job (asys X) exec_result :=
  if negb (Authorize (xi_Principal input) (xi_Permission input)) then mret (None, Some (StoreErr ErrForbidden))
  else
    begun ← store (fun i => BeginAction (ae_now env i) (event_id i)
      (MkActionInput (RandomUUID (ae_action env)) (xi_Principal input) (xi_Action input) (xi_Permission input) (xi_TargetType input)
         (xi_TargetID input) (xi_Reason input) (xi_ReasonCode input) (sha256_hex (xi_IdempotencyKey input)) (xi_RequestSHA256 input)
         (xi_RequestID input) (RandomUUID (ae_correlation env))));
    match begun with
    | Err e => mret (None, Some (StoreErr e))
    | Ok (a, replay) =>
        if replay && settled a then mret (Some a, None)
        else
          started ← store (fun i => StartActionAttempt (ae_now env i) (RandomUUID (ae_claim env)) (event_id i) (ac_ActionID a)
                             (xi_RequestID input) actionAttemptLease);
          match started with
          | Err e => mret (None, Some (StoreErr e))
          | Ok (a, claimed) =>
              if negb claimed then mret (Some a, if settled a then None else Some (StoreErr ErrActionInProgress))
              else
                answered ← owner (ac_ActionID a) (ac_CorrelationID a);
                conclude a (xi_RequestID input) answered
          end
    end.
Definition service_ListAudit (principal : Principal) (limit : nat) : job (asys X) (result AdminErr (list AuditEvent)) :=
  if negb (Authorize principal "audit.read") then mret (Err ErrForbidden)
  else ask between (fun i s => match ae_link env i with Up => Ok (ListAudit limit (as_db s)) | _ => Err (ErrSQL "list admin audit") end).

(** ** The handlers *)

Inductive reply :=
  | Problem (status : Z) (code : string)
  | ActionReply (status : Z) (action : option Action) (code : option string)
  | Document (payload : json)
  | AuditReply (events : list AuditEvent)
  | HealthReply (services : list ServiceHealth).
(** The identity of a verified certificate, when it is one of an administrator. *)
Record peer := MkPeer { pe_verified : bool; pe_identity : option (string * string) }.
Definition Protect (permission : string) (p : peer) (next : Principal -> job (asys X) reply) : job (asys X) reply :=
  match pe_identity p with
  | None => mret (if pe_verified p then Problem 403 "forbidden" else Problem 401 "unauthenticated")
  | Some (spiffeID, name) =>
      authenticated ← Authenticate spiffeID name;
      match authenticated with
      | Err _ => mret (Problem 403 "forbidden")
      | Ok principal => if Authorize principal permission then next principal else mret (Problem 403 "forbidden")
      end
  end.

Definition mutation_action (m : mutation) : string :=
  match m with RetryOf _ _ => ActionNotificationRetry | RevokeOf _ _ => ActionSubscriptionRevoke | RecoverOf _ => ActionAccessRecover end.
Definition mutation_type (m : mutation) : string :=
  match m with RetryOf _ _ => "notification" | RevokeOf _ _ => "subscription" | RecoverOf _ => "credential" end.
Definition mutation_target (m : mutation) : string :=
  match m with RetryOf id _ | RevokeOf id _ | RecoverOf id => id end.
Definition mutation_code (m : mutation) : string := match m with RevokeOf _ code => code | _ => "" end.
Definition admin_request_hash (action targetID reason reasonCode : string) : string :=
  sha256_hex (action +:+ newline +:+ targetID +:+ newline +:+ reason +:+ newline +:+ reasonCode)%string.
Definition key_byte (c : ascii) : bool := alnum c || contains_any "._:-" (String c "").
Definition keyPattern (s : string) : bool :=
  match s with
  | String c s' => alnum c && all_bytes key_byte s' && (7 <=? go_len s') && (go_len s' <=? 127)
  | EmptyString => false
  end.
Definition answer_action (r : exec_result) : reply :=
  match r with
  | (_, Some (StoreErr ErrIdempotencyConflict)) => Problem 409 "idempotency_conflict"
  | (a, Some (StoreErr ErrActionInProgress)) => ActionReply 409 a (Some "action_in_progress"%string)
  | (a, Some _) =>
      ActionReply 502 a (Some match ac_Status <$> a with
                              | Some ActOutcomeUnknown => "owner_outcome_unknown"
                              | Some ActFailed => "owner_operation_rejected"
                              | _ => "owner_operation_failed"
                              end%string)
  | (a, None) => ActionReply 200 a None
  end.
Definition execute (m : mutation) (reason idempotency_key requestID : string) (principal : Principal) : job (asys X) reply :=
  let key := TrimSpace idempotency_key in
  if negb (keyPattern key) then mret (Problem 400 "invalid_idempotency_key")
  else
    r ← Execute (MkExecute principal (mutation_action m) (mutation_action m) (mutation_type m) (mutation_target m) reason (mutation_code m)
                   key (admin_request_hash (mutation_action m) (mutation_target m) reason (mutation_code m)) requestID)
          (owner_call m);
    mret (answer_action r).

(** The strict decoder of a request: its reason and reason code. *)
Context (decode_mutation : string -> option (string * string)).
Definition maxMutationBodyBytes : Z := 8 * 1024.
Definition decodeStrict (body : string) : option (string * string) :=
  if maxMutationBodyBytes <? go_len body then None else decode_mutation body.
Definition unsafeReason (reason : string) : bool :=
  existsb (Contains (ToLower reason)) ["vless://"; "/s/"; "subscription_url"; "vless_uuid"; "ciphertext"]%string.
(** The path value the route has; the other names are empty. *)
Definition mutationTargetID (notification_id subscription_id credential_id : string) : string :=
  default ""%string (List.find (fun v => negb (bool_decide (v = ""%string))) (TrimSpace <$> [notification_id; subscription_id; credential_id])).
Definition decodeMutation (target_id body : string) (requireReasonCode : bool) : result reply (string * string * string) :=
  match (if uuidPattern target_id then decodeStrict body else None) with
  | None => Err (Problem 400 "invalid_request")
  | Some (reason, reasonCode) =>
      let reason := TrimSpace reason in
      let reasonCode := TrimSpace reasonCode in
      if (go_len reason <? 3) || (512 <? go_len reason) || unsafeReason reason ||
         negb (Bool.eqb requireReasonCode (negb (bool_decide (reasonCode = ""%string))))
      then Err (Problem 400 "invalid_reason")
      else Ok (target_id, reason, reasonCode)
  end.
Record mutation_request := MkMutationRequest { mq_target : string; mq_key : string; mq_id : string; mq_body : string }.
Definition RetryNotification (q : mutation_request) (principal : Principal) : job (asys X) reply :=
  match decodeMutation (mutationTargetID (mq_target q) "" "") (mq_body q) false with
  | Err r => mret r
  | Ok (targetID, reason, _) => execute (RetryOf targetID reason) reason (mq_key q) (mq_id q) principal
  end.
Definition RevokeSubscription (q : mutation_request) (principal : Principal) : job (asys X) reply :=
  match decodeMutation (mutationTargetID "" (mq_target q) "") (mq_body q) true with
  | Err r => mret r
  | Ok (targetID, reason, reasonCode) =>
      if bool_decide (reasonCode ∈ ["admin_block"; "abuse"; "deleted"]%string)
      then execute (RevokeOf targetID reasonCode) reason (mq_key q) (mq_id q) principal
      else mret (Problem 400 "invalid_reason_code")
  end.
Definition RecoverAccess (q : mutation_request) (principal : Principal) : job (asys X) reply :=
  match decodeMutation (mutationTargetID "" "" (mq_target q)) (mq_body q) false with
  | Err r => mret r
  | Ok (targetID, reason, _) => execute (RecoverOf targetID) reason (mq_key q) (mq_id q) principal
  end.
(** The routes of cmd/admin-service/main.go that change something. *)
Inductive route := RetryRoute | RevokeRoute | RecoverRoute.
Definition serve (r : route) (p : peer) (q : mutation_request) : job (asys X) reply :=
  match r with
  | RetryRoute => Protect "notification.retry" p (RetryNotification q)
  | RevokeRoute => Protect "subscription.revoke" p (RevokeSubscription q)
  | RecoverRoute => Protect "access.provisioning.recover" p (RecoverAccess q)
  end.
Definition parseLimit (limit : string) : option Z :=
  let value := TrimSpace limit in
  if bool_decide (value = ""%string) then Some 50
  else parsed ← ParseInt value; if (parsed <? 1) || (200 <? parsed) then None else Some parsed.
Definition http_ListAudit (limit : string) (principal : Principal) : job (asys X) reply :=
  match parseLimit limit with
  | None => mret (Problem 400 "invalid_limit")
  | Some limit =>
      r ← service_ListAudit principal (Z.to_nat limit);
      mret (match r with Ok events => AuditReply events | Err _ => Problem 500 "audit_unavailable" end)
  end.

(** *** Pages about the state of owners *)

Context (pages : nat -> view -> list string -> http_answer).
Definition writeOwnerRead (r : result OwnerError json) : reply :=
  match r with
  | Err e => if bool_decide (oe_Code e = "owner_not_found"%string) then Problem 404 "not_found" else Problem 502 "owner_unavailable"
  | Ok payload => if validateSafeResult payload then Document payload else Problem 502 "unsafe_owner_response"
  end.
Definition read_owner (v : view) (path : list string) : job (asys X) reply :=
  r ← ask between (fun i _ => client_get dec v (pages i v path)); mret (writeOwnerRead r).
Definition proxyUUID (v : view) (raw_id : string) (principal : Principal) : job (asys X) reply :=
  let id := TrimSpace raw_id in
  if uuidPattern id then read_owner v [id] else mret (Problem 400 "invalid_id").
Definition GetIdentity := proxyUUID UserView.
Definition GetSubscription := proxyUUID SubscriptionView.
Definition GetAccess := proxyUUID AccessView.
Definition GetNotification := proxyUUID NotificationView.
Definition GetProvisioning := proxyUUID ProvisioningView.
Definition namePattern (s : string) : bool :=
  match s with String c s' => alnum c && all_bytes name_byte s' && (go_len s' <=? 63) | EmptyString => false end.
Definition GetConsent (user_id document_type document_version : string) (principal : Principal) : job (asys X) reply :=
  let userID := TrimSpace user_id in
  let documentType := TrimSpace document_type in
  let documentVersion := TrimSpace document_version in
  if uuidPattern userID && namePattern documentType && namePattern documentVersion
  then read_owner ConsentView [userID; documentType; documentVersion] else mret (Problem 400 "invalid_request").
Definition GetOrder (user_id order_id : string) (principal : Principal) : job (asys X) reply :=
  let userID := TrimSpace user_id in
  let orderID := TrimSpace order_id in
  if uuidPattern userID && uuidPattern orderID then read_owner OrderView [userID; orderID] else mret (Problem 400 "invalid_request").
Definition GetPayment (user_id order_id payment_id : string) (principal : Principal) : job (asys X) reply :=
  let userID := TrimSpace user_id in
  let orderID := TrimSpace order_id in
  let paymentID := TrimSpace payment_id in
  if uuidPattern userID && uuidPattern orderID && uuidPattern paymentID
  then read_owner PaymentView [userID; orderID; paymentID] else mret (Problem 400 "invalid_request").
Definition ListNotificationDeadLetters (limit : string) (principal : Principal) : job (asys X) reply :=
  match parseLimit limit with
  | None => mret (Problem 400 "invalid_limit")
  | Some limit => read_owner DeadLetterListView [FormatInt limit]
  end.
Definition GetHealthSummary (answers : string -> http_answer * http_answer) (order : list string) (principal : Principal)
    : job (asys X) reply := mret (HealthReply (ReadHealthSummary dec answers order)).
End service.
