(* ===== verification/AdminJobs.v ===== *)
(** * admin-service: requests beside any other activity

    The contract between admin-service and the services that own the targets
    ([OwnerContract]), the protocol every request of admin-service keeps to,
    and what it gives: owners act only on the authority of a principal with
    the permission, on the record, and an action that counts as succeeded was
    carried out. *)

From Stdlib Require Import Ascii List.
From S2P Require Import Prelude GoStrings Sha256 Backoff Platform GoText Jobs AdminDomain AdminStore AdminSpec AdminService.

(** ** The contract of the owners *)

(** [carried_out m a x]: the owners have on record that they did [m] for the
    action [a]. An answer the client takes for success says so. *)
Class OwnerContract (X : Type) (answer : nat -> mutation -> string -> string -> X -> (Z * string) * X) (dec : owner_decoders) := {
  oc_protocol : Protocol X;
  carried_out : mutation -> string -> X -> Prop;
  oc_step : forall i m a c x, pinv x -> rtc pstep x (snd (answer i m a c x));
  oc_stable : forall m a, stable (carried_out m a);
  oc_accepts : forall i m a c x status body x' payload, pinv x -> answer i m a c x = ((status, body), x') ->
    client dec m (Some (status, Some body)) = Ok payload -> carried_out m a x'
}.
#[export] Existing Instance oc_protocol.

Section admin_protocol.
Context {X : Type} {answer : nat -> mutation -> string -> string -> X -> (Z * string) * X} {dec : owner_decoders}.
Context `{!OwnerContract X answer dec}.
Implicit Types (s : asys X).

(** ** The protocol *)

(** What an action has to do with the mutation made for it. *)
Definition asks (r : action_row) (m : mutation) : Prop :=
  r_action r = mutation_action m /\ r_target_id r = uuid_text (mutation_target m) /\
  r_request_sha256 r = admin_request_hash (mutation_action m) (mutation_target m) (r_reason r) (mutation_code m) /\
  match m with RetryOf _ reason => r_reason r = reason | _ => True end.
Definition opened (m : mutation) (id : string) (d : db) : Prop := exists r, actions d !! id = Some r /\ asks r m.
Definition on_record (m : mutation) (id : string) (d : db) : Prop := opened m id d /\ (AuAttempted, None) ∈ log id d.
Definition accepted_by (trace : list admin_entry) (id : string) (payload : json) : Prop :=
  validateSafeResult payload = true /\ exists m, Called id m (Ok payload) ∈ trace.
Definition rejected_by (trace : list admin_entry) (id code : string) : Prop :=
  exists m e, Called id m (Err e) ∈ trace /\ oe_Definitive e = true /\ code = ownerErrorCode e.
(** What the database may be asked to do, given what happened so far. *)
Definition licensed (o : op) (trace : list admin_entry) : Prop :=
  match o with
  | OpBegin _ _ input => Authenticated (in_Actor input) ∈ trace /\ in_Permission input = in_Action input /\
      in_Action input ∈ pr_Permissions (in_Actor input)
  | OpComplete _ _ id _ _ result code =>
      if bool_decide (code = ""%string) then exists payload, result = Some payload /\ accepted_by trace id payload
      else rejected_by trace id code
  | _ => True
  end.
Inductive admin_step s : asys X -> Prop :=
  | SOwners x : pstep (as_owners s) x -> admin_step s (MkAdminSys (as_db s) x (as_trace s))
  | SLetIn p : GetPrincipal (pr_SPIFFEID p) (pr_Name p) (as_db s) = Ok p ->
      admin_step s (MkAdminSys (as_db s) (as_owners s) (Authenticated p :: as_trace s))
  | SStore o : licensed o (as_trace s) -> admin_step s (put_db (snd (exec o (as_db s))) s)
  | SCall id m r x : on_record m id (as_db s) -> rtc pstep (as_owners s) x -> (forall payload, r = Ok payload -> carried_out m id x) ->
      admin_step s (MkAdminSys (as_db s) x (Called id m r :: as_trace s)).

Record admin_inv s : Prop := {
  ai_db : Inv (as_db s);
  ai_owners : pinv (as_owners s);
  ai_let_in : forall p, Authenticated p ∈ as_trace s -> Permissions (pr_Roles p) = Some (pr_Permissions p);
  ai_rows : forall k r, actions (as_db s) !! k = Some r ->
    Authenticated (r_actor r) ∈ as_trace s /\ r_permission r = r_action r /\ r_action r ∈ pr_Permissions (r_actor r);
  ai_calls : forall id m r, Called id m r ∈ as_trace s -> on_record m id (as_db s) /\
    forall payload, r = Ok payload -> carried_out m id (as_owners s);
  ai_done : forall k r, actions (as_db s) !! k = Some r ->
    (r_status r = ActSucceeded -> exists payload, r_result r = Some payload /\ accepted_by (as_trace s) k payload) /\
    (r_status r = ActFailed -> exists code, r_error_code r = Some code /\ rejected_by (as_trace s) k code)
}.

(** *** Facts that stay *)

Lemma asks_keeps r r' m : facts r' = facts r -> r_request_sha256 r' = r_request_sha256 r -> asks r m -> asks r' m.
Proof. unfold facts, asks. intros [= _ -> _ _ -> -> _ _] ->. done. Qed.
Lemma on_record_keeps d d' m id : keeps d d' -> on_record m id d -> on_record m id d'.
Proof.
  intros [H] [(r & Hr & Ha) Hl]. destruct (H id r Hr) as (r' & Hr' & Ef & Eq & _ & l & El). split.
  - exists r'. split; [done|]. by eapply asks_keeps.
  - rewrite El. apply elem_of_app. by right.
Qed.
Lemma opened_keeps d d' m id : keeps d d' -> opened m id d -> opened m id d'.
Proof.
  intros [H] (r & Hr & Ha). destruct (H id r Hr) as (r' & Hr' & Ef & Eq & _). exists r'. split; [done|]. by eapply asks_keeps.
Qed.
Lemma accepted_grows trace trace' id payload : trace ⊆ trace' -> accepted_by trace id payload -> accepted_by trace' id payload.
Proof. intros Hs [Hv [m Hm]]. split; [done|]. exists m. by apply Hs. Qed.
Lemma rejected_grows trace trace' id code : trace ⊆ trace' -> rejected_by trace id code -> rejected_by trace' id code.
Proof. intros Hs (m & e & Hm & He). exists m, e. split; [by apply Hs|done]. Qed.

Lemma store_keeps_inv s o : admin_inv s -> licensed o (as_trace s) -> admin_inv (put_db (snd (exec o (as_db s))) s).
Proof.
  intros [HI Ho Hp Hr Hc Hd] Hlic. destruct (admin_exec_good o (as_db s) HI) as [HI' Hk]. split; cbn [put_db as_db as_owners as_trace]; try done.
  - intros k r' Hk'; destruct (exec_origin _ _ _ _ HI Hk') as [H|now u input -> -> ->|r H Ef Eq Hfin|r now u c q result code H -> ->]; [exact (Hr _ _ H)| | |].
    + destruct Hlic as (H1 & H2 & H3). done.
    + destruct (Hr k r H) as (H1 & H2 & H3). unfold facts in Ef. injection Ef as -> -> -> _ _ _ _ _. done.
    + exact (Hr k r H).
  - intros id m r Hin. destruct (Hc id m r Hin) as [H1 H2]. split; [|done]. by eapply on_record_keeps.
  - intros k r' Hk'; destruct (exec_origin _ _ _ _ HI Hk') as [H|now u input -> -> ->|r H Ef Eq Hfin|r now u c q result code H -> ->]; [exact (Hd _ _ H)|done| |].
    + unfold final in Hfin. rewrite bool_decide_eq_false in Hfin. split; intros E; destruct Hfin; auto.
    + cbn [licensed] in Hlic. unfold completed. cbn. unfold nullif_empty. case_bool_decide; cbn; split; try done; intros _. by eexists.
Qed.
Lemma admin_step_keeps s s' : admin_step s s' -> admin_inv s -> admin_inv s'.
Proof.
  intros Hs HI. destruct Hs as [x Hx|p Hp|o Hlic|id m r x Hrec Hx Hdone]; [| |by apply store_keeps_inv|].
  - destruct HI as [HI Ho Hp Hr Hc Hd]. split; cbn [as_db as_owners as_trace]; try done; [by eapply pstep_keeps|].
    intros id m r Hin. destruct (Hc id m r Hin) as [H1 H2]. split; [done|]. intros payload E. eapply oc_stable; eauto.
  - destruct HI as [HI Ho Hp' Hr Hc Hd]. split; cbn [as_db as_owners as_trace]; try done.
    + intros q [[= <-]|Hq]%elem_of_cons; [|by apply Hp']. unfold GetPrincipal in Hp.
      case_bool_decide; [done|]. destruct (Permissions _) as [l|] eqn:E; [|done]. injection Hp as Hp. by rewrite <- Hp.
    + intros k r H. destruct (Hr k r H) as (H1 & H2 & H3). split_and!; [|done..]. apply elem_of_cons. by right.
    + intros id m r [Hin|Hin]%elem_of_cons; [done|]. exact (Hc id m r Hin).
    + intros k r H. destruct (Hd k r H) as [H1 H2]. split; intros E.
      * destruct (H1 E) as (v & Ev & Ha). exists v. split; [done|]. eapply accepted_grows; [|done]. by apply list_subseteq_cons.
      * destruct (H2 E) as (c & Ec & Ha). exists c. split; [done|]. eapply rejected_grows; [|done]. by apply list_subseteq_cons.
  - destruct HI as [HI Ho Hp Hr Hc Hd]. split; cbn [as_db as_owners as_trace]; try done; [by eapply rtc_keeps|..].
    + intros q [Hq|Hq]%elem_of_cons; [done|by apply Hp].
    + intros k r' H. destruct (Hr k r' H) as (H1 & H2 & H3). split_and!; [|done..]. apply elem_of_cons. by right.
    + intros id' m' r' [[= -> -> ->]|Hin]%elem_of_cons; [done|]. destruct (Hc id' m' r' Hin) as [H1 H2]. split; [done|].
      intros payload E. exact (stable_rtc _ _ _ (oc_stable _ _) Ho Hx (H2 payload E)).
    + intros k r' H. destruct (Hd k r' H) as [H1 H2]. split; intros E.
      * destruct (H1 E) as (v & Ev & Ha). exists v. split; [done|]. eapply accepted_grows; [|done]. by apply list_subseteq_cons.
      * destruct (H2 E) as (c & Ec & Ha). exists c. split; [done|]. eapply rejected_grows; [|done]. by apply list_subseteq_cons.
Qed.
#[export] Instance admin_service_protocol : Protocol (asys X) := {| pstep := admin_step; pinv := admin_inv; pstep_keeps := admin_step_keeps |}.
Lemma admin_step_grows s s' : admin_step s s' -> as_trace s ⊆ as_trace s'.
Proof. by intros [x Hx|p Hp|o Hlic|id m r x Hrec Hx Hdone]; [| |done|]; simpl; try done; apply list_subseteq_cons. Qed.
Lemma admin_step_db s s' : admin_inv s -> admin_step s s' -> keeps (as_db s) (as_db s').
Proof. intros HI [x Hx|p Hp|o Hlic|id m r x Hrec Hx Hdone]; try apply admin_keeps_refl. apply admin_exec_good. by apply ai_db. Qed.
Lemma stable_on_trace e : stable (fun s => e ∈ as_trace s).
Proof. intros s s' _ Hs H. by apply (admin_step_grows _ _ Hs). Qed.
Lemma stable_opened m id : stable (fun s => opened m id (as_db s)).
Proof. intros s s' HI Hs H. eapply opened_keeps; [by eapply admin_step_db|done]. Qed.
Lemma stable_action_on_record m id : stable (fun s => on_record m id (as_db s)).
Proof. intros s s' HI Hs H. eapply on_record_keeps; [by eapply admin_step_db|done]. Qed.

(** A final row, as the action [a] reports it. *)
Definition recorded_final (m : mutation) (a : Action) s : Prop := exists r, actions (as_db s) !! ac_ActionID a = Some r /\ asks r m /\
  ac_Status a = r_status r /\ final (r_status r) = true.
Lemma stable_recorded_final m a : stable (recorded_final m a).
Proof.
  intros s s' HI Hs (r & Hr & Ha & Es & Hf). destruct (admin_step_db _ _ HI Hs) as [H].
  destruct (H _ _ Hr) as (r' & Hr' & _ & _ & E & _). rewrite (E Hf) in Hr'. by exists r.
Qed.
Lemma opened_row s k r m : opened m k (as_db s) -> actions (as_db s) !! k = Some r -> asks r m.
Proof. intros (r' & H & Ha) H'. congruence. Qed.
Lemma row_id s k r : admin_inv s -> actions (as_db s) !! k = Some r -> r_id r = k.
Proof. intros HI H. by destruct (iv_row _ (ai_db _ HI) _ _ H). Qed.

(** ** Requests *)

Section requests.
Context (between : nat -> asys X -> asys X) (Hrely : relies between) (env : admin_env).

Lemma triple_admin_store {A} (P : asys X -> Prop) (m : nat -> admin_tx A) (o : nat -> op) (F : A -> asys X -> Prop) : stable P ->
  (forall i d, snd (exec (o i) d) = snd (in_tx (m i) d)) -> (forall i s, P s -> licensed (o i) (as_trace s)) ->
  (forall i s x d', admin_inv s -> P s -> in_tx (m i) (as_db s) = (Ok x, d') -> F x (put_db d' s)) ->
  triple P (store between env m) (fun r s => P s /\ forall x, r = Ok x -> F x s).
Proof.
  intros HP Ho Hl HF. apply triple_call_store; [done..| |].
  - intros i s x d' HI HPs E. apply rtc_once. pose proof (SStore s (o i) (Hl i s HPs)) as H. by rewrite (Ho i), E in H.
  - intros i s x d' HI HPs E _. by eapply HF.
Qed.
Lemma admin_outcome_snd {A} (m : admin_tx A) d : snd (outcome m d) = snd (in_tx m d).
Proof. unfold outcome. by destruct (in_tx m d) as [[x|e] d']. Qed.

Lemma triple_Authenticate P spiffe name : stable P ->
  triple P (Authenticate between env spiffe name) (fun r s => P s /\ forall p, r = Ok p -> Authenticated p ∈ as_trace s).
Proof.
  intros HP. apply triple_call; [done..|]. intros i s r s' HI HPs. destruct (ae_link env i);
    [|intros [= <- <-]; split; [apply rtc_refl|done]..].
  destruct (GetPrincipal spiffe name (as_db s)) as [p|e] eqn:E; intros [= <- <-]; [|split; [apply rtc_refl|done]].
  split; [|intros _ q [= <-]; apply elem_of_cons; by left]. apply rtc_once, SLetIn.
  unfold GetPrincipal in E |- *. case_bool_decide; [done|]. destruct (Permissions _) eqn:Ep; [|done]. injection E as <-. cbn.
  by rewrite bool_decide_false, Ep.
Qed.
(** The owner answers, on record. *)
Lemma triple_owner_call m id corr : triple (fun s => on_record m id (as_db s)) (owner_call answer dec between env m id corr)
  (fun r s => Called id m r ∈ as_trace s).
Proof.
  eapply triple_conseq; [apply (triple_call between Hrely (fun s => on_record m id (as_db s)) _ (fun r s => Called id m r ∈ as_trace s))|done|by intros x s _ [_ H]].
  { apply stable_action_on_record. }
  intros i s r s' HI Hrec. pose proof (ai_owners _ HI) as Ho. pose proof (oc_step i m id corr (as_owners s) Ho) as Hst.
  destruct (answer i m id corr (as_owners s)) as [[status body] x] eqn:Ea. cbn in Hst.
  assert (forall payload, client dec m None <> Ok payload) as Hnone by (destruct m; discriminate).
  destruct (ae_owner_link env i); intros [= <- <-]; (split; [apply rtc_once, SCall; [done|try done; apply rtc_refl|]|
    intros _; apply elem_of_cons; by left]); intros payload E; try by destruct (Hnone payload).
  by eapply oc_accepts.
Qed.
Lemma triple_markUnknown P a rid code cause (Q : exec_result -> asys X -> Prop) : stable P -> (forall a' s, Q (Some a', Some cause) s) ->
  (forall e s, Q (None, Some (StoreErr e)) s) -> triple P (markUnknown between env a rid code cause) Q.
Proof.
  intros HP H1 H2. unfold markUnknown. eapply triple_bind.
  - apply (triple_admin_store P _ (fun i => OpUnknown (ae_now env i) (event_id env i) (ac_ActionID a) (ac_ClaimID a) rid code) (fun _ _ => True));
      [done|intros i d; apply admin_outcome_snd|done|done].
  - intros [a'|e]; apply triple_ret; intros s _ _; [apply H1|apply H2].
Qed.
(** No error means that the row is final and the action reports it. *)
Definition told (m : mutation) (r : exec_result) s : Prop := forall a, r = (Some a, None) -> recorded_final m a s.
Lemma ended_recorded now u k c q f o code ct d x d' m s : admin_inv s -> as_db s = d -> opened m k d ->
  (forall r, facts (f r) = facts r /\ r_request_sha256 (f r) = r_request_sha256 r /\ r_id (f r) = r_id r /\ final (r_status (f r)) = true) ->
  ended now u k c q f o code ct d x d' -> recorded_final m x (put_db d' s).
Proof.
  intros HI <- Hop Hf Hend. destruct Hend as [r Hk Hfin|r e Hk Hh Hch Hfr]; pose proof (row_id _ _ _ HI Hk) as Eid.
  - exists r. cbn. rewrite Eid. split_and!; [done|by eapply opened_row|done..].
  - destruct (Hf r) as (F1 & F2 & F3 & F4). exists (f r). cbn. rewrite F3, Eid, lookup_insert_eq.
    split_and!; [done|eapply asks_keeps; [done..|by eapply opened_row]|done|done].
Qed.
Lemma completed_facts now result code r : facts (completed now result code r) = facts r /\
  r_request_sha256 (completed now result code r) = r_request_sha256 r /\ r_id (completed now result code r) = r_id r /\
  final (r_status (completed now result code r)) = true.
Proof. split_and!; [done..|]. cbn. by case_bool_decide. Qed.
Lemma triple_conclude m a rid answered : triple (fun s => Called (ac_ActionID a) m answered ∈ as_trace s)
  (conclude between env a rid answered) (told m).
Proof.
  set (P := fun s : asys X => Called (ac_ActionID a) m answered ∈ as_trace s). assert (stable P) as HP by apply stable_on_trace.
  unfold conclude. destruct answered as [payload|e].
  - destruct (validateSafeResult payload) eqn:Hv; cbn [negb]; [|by apply triple_markUnknown].
    eapply triple_bind.
    + apply (triple_admin_store P _ (fun i => OpComplete (ae_now env i) (event_id env i) (ac_ActionID a) (ac_ClaimID a) rid (Some payload) "")
        (recorded_final m)); [done|intros i d; apply admin_outcome_snd|intros i s Hs; exists payload; split; [done|]; split; [done|by exists m]|].
      intros i s x d' HI Hs E. apply complete_done in E. eapply ended_recorded; [done|done| |apply completed_facts|exact E].
      by destruct (ai_calls _ HI _ _ _ Hs) as [[H _] _].
    + intros [x|e]; apply triple_ret; intros s _ [_ H] b [= <-]. by apply H.
  - destruct (oe_Definitive e) eqn:Hd; [|by apply triple_markUnknown]. eapply triple_bind.
    + apply (triple_admin_store P _ (fun i => OpComplete (ae_now env i) (event_id env i) (ac_ActionID a) (ac_ClaimID a) rid None (ownerErrorCode e))
        (fun _ _ => True)); [done|intros i d; apply admin_outcome_snd| |done].
      intros i s Hs. cbn [licensed]. rewrite bool_decide_false; [by exists m, e|]. unfold ownerErrorCode.
      destruct (validErrorCode (oe_Code e)) eqn:Ev; [|done]. intros Ec. by rewrite Ec in Ev.
    + intros [x|e']; apply triple_ret; intros s _ _ b; by intros [=].
Qed.

(** *** [Execute] *)

Definition begun_well (m : mutation) (x : Action * bool) s : Prop := opened m (ac_ActionID x.1) (as_db s) /\
  (settled x.1 = true -> recorded_final m x.1 s).
Lemma stable_begun_well m x : stable (begun_well m x).
Proof. apply stable_and; [apply stable_opened|apply stable_impl, stable_recorded_final]. Qed.
(** The request an input makes. *)
Definition requests (m : mutation) (input : ExecuteInput) : Prop := xi_Action input = mutation_action m /\
  xi_Permission input = mutation_action m /\ xi_TargetType input = mutation_type m /\ xi_TargetID input = mutation_target m /\
  xi_RequestSHA256 input = admin_request_hash (mutation_action m) (mutation_target m) (xi_Reason input) (mutation_code m) /\
  match m with RetryOf _ reason => xi_Reason input = reason | _ => True end.
Lemma begin_well now u input m s x d' : admin_inv s -> in_Action input = mutation_action m -> in_TargetID input = mutation_target m ->
  in_RequestSHA256 input = admin_request_hash (mutation_action m) (mutation_target m) (in_Reason input) (mutation_code m) ->
  match m with RetryOf _ reason => in_Reason input = reason | _ => True end ->
  begun now u input (as_db s) x d' -> begun_well m x (put_db d' s).
Proof.
  intros HI E1 E2 E3 E4 [r Hb Hs|Hb Hn Hc Hp Hf].
  - destruct (by_key_Some _ _ _ Hb (ai_db _ HI)) as [Hr [= _ Ea _]]. unfold same_input in Hs.
    rewrite !andb_true_iff, !bool_decide_eq_true in Hs. destruct Hs as [[[F1 _] F3] F4].
    assert (asks r m) as Hask. { split_and!; [congruence|by rewrite <- E2, <- F3, (iv_target _ (ai_db _ HI) _ _ Hr)|by rewrite F1, F4|]. destruct m; [by rewrite F4|done..]. }
    split; [by exists r|]. intros Hset. exists r. by split_and!.
  - assert (asks (new_action now input) m) as Hask by (split_and!; [done|by cbn; rewrite E2|done..]). split; [|done].
    exists (new_action now input). cbn. rewrite lookup_insert_eq. done.
Qed.
Definition started_well (m : mutation) (x : Action * bool) s : Prop :=
  if x.2 then on_record m (ac_ActionID x.1) (as_db s) else settled x.1 = true -> recorded_final m x.1 s.
Lemma start_well now c u k q lease m s x d' : admin_inv s -> opened m k (as_db s) -> in_tx (StartActionAttempt now c u k q lease) (as_db s) = (Ok x, d') ->
  started_well m x (put_db d' s).
Proof.
  intros HI Hop E%start_done. destruct (attempted_good _ _ _ _ _ _ _ _ _ (ai_db _ HI) E) as [HI' Hk].
  destruct E as [r Hr Hc|r o e Hr Hc Hch Hf]; unfold started_well; cbn [fst snd]; pose proof (row_id _ _ _ HI Hr) as Eid.
  - intros Hset. exists r. cbn. rewrite Eid. split_and!; [done|by eapply opened_row|done..].
  - change (ac_ActionID _) with (r_id r). rewrite Eid. split; [by eapply opened_keeps|].
    assert (actions (recorded e (claimed now lease c r) (as_db s)) !! k = Some (claimed now lease c r)) as Hk' by
      (cbn; rewrite Eid; apply lookup_insert_eq).
    apply (logged_attempted _ _ _ _ (iv_log _ HI' _ _ Hk')). cbn.
    pose proof (logged_nonneg _ _ _ _ (iv_log _ (ai_db _ HI) _ _ Hr)). lia.
Qed.
Lemma triple_Execute m input p : requests m input -> xi_Principal input = p ->
  triple (fun s => Authenticated p ∈ as_trace s) (Execute between env input (owner_call answer dec between env m)) (told m).
Proof.
  intros (E1 & E2 & E3 & E4 & E5 & E6) Ep. unfold Execute.
  assert (forall a err (P : asys X -> Prop), triple P (mret (a, Some err)) (told m)) as Hfail by (intros; apply triple_ret; intros s _ _ b; by intros [=]).
  destruct (Authorize _ _) eqn:Hau; cbn [negb]; [|apply Hfail]. eapply triple_bind.
  { eapply (triple_admin_store _ _ (fun i => OpBegin (ae_now env i) (event_id env i) _) (begun_well m));
      [apply stable_on_trace|intros i d; apply admin_outcome_snd| |].
    - intros i s Hs. cbn. rewrite Ep, E1, E2. split_and!; [done..|]. unfold Authorize, Allowed in Hau.
      rewrite bool_decide_eq_true, E2, Ep in Hau. exact Hau.
    - intros i s x d' HI _ E%begin_done. eapply begin_well; [exact HI|cbn..|exact E]; done. }
  intros [[a replay]|e]; [|apply Hfail]. destruct (replay && settled a) eqn:Hset.
  { apply andb_true_iff in Hset as [_ Hset]. apply triple_ret. intros s _ [_ H] b [= <-]. destruct (H _ eq_refl) as [_ Hb]. exact (Hb Hset). }
  eapply triple_bind.
  { eapply triple_conseq; [apply (triple_admin_store (begun_well m (a, replay)) _
      (fun i => OpStart (ae_now env i) (RandomUUID (ae_claim env)) (event_id env i) (ac_ActionID a) (xi_RequestID input) actionAttemptLease)
      (started_well m)); [apply stable_begun_well|intros i d; apply admin_outcome_snd|done|]|by intros s [_ H]; exact (H _ eq_refl)|done].
    intros i s x d' HI [Hop _] E. by eapply start_well. }
  intros [[a' claimed]|e]; [|apply Hfail]. destruct claimed; cbn [negb].
  - eapply triple_bind; [eapply triple_conseq; [apply (triple_owner_call m (ac_ActionID a'))| |done]|].
    + intros s [_ H]. exact (H _ eq_refl).
    + intros answered. apply triple_conclude.
  - destruct (settled a') eqn:Hset'; [|apply Hfail]. apply triple_ret. intros s _ [_ H] b [= <-]. exact (H _ eq_refl Hset').
Qed.

(** *** The routes *)

(** A reply that says all went well is about a final row. *)
Definition reply_told (r : reply) s : Prop := forall a code, r = ActionReply 200 (Some a) code -> exists m, recorded_final m a s.
Lemma triple_execute m reason key rid p : match m with RetryOf _ r => reason = r | _ => True end ->
  triple (fun s => Authenticated p ∈ as_trace s) (execute answer dec between env m reason key rid p) reply_told.
Proof.
  intros Hm. unfold execute. destruct (negb _); [apply triple_ret; by intros s _ _ a code|].
  eapply triple_bind; [by apply (triple_Execute m)|]. intros [a err]. apply triple_ret. intros s _ Ht b code. unfold answer_action.
  destruct err as [[[]|]|]; try discriminate; [destruct a; discriminate..|]. intros [= -> _]. exists m. by apply Ht.
Qed.
Context (decode_mutation : string -> option (string * string)).
Lemma triple_serve rt peer q : triple (fun _ => True) (serve answer dec between env decode_mutation rt peer q) reply_told.
Proof.
  assert (forall (P : asys X -> Prop) r, (forall a code, r <> ActionReply 200 (Some a) code) -> triple P (mret r) reply_told) as Hother.
  { intros P r H. apply triple_ret. intros s _ _ a code E. by destruct (H a code). }
  assert (forall perm next, (forall p, triple (fun s => Authenticated p ∈ as_trace s) (next p) reply_told) ->
    triple (fun _ => True) (Protect between env perm peer next) reply_told) as Hprot.
  { intros perm next Hn. unfold Protect. destruct (pe_identity peer) as [[spiffe name]|]; [|apply Hother; by destruct (pe_verified peer)].
    eapply triple_bind; [by apply (triple_Authenticate (fun _ => True)), stable_pure|].
    intros [p|e]; [|by apply Hother]. destruct (Authorize p perm); [|by apply Hother].
    eapply triple_conseq; [apply Hn|intros s [_ H]; by apply H|done]. }
  assert (forall a b c r, decodeMutation decode_mutation a b c = Err r -> forall x code, r <> ActionReply 200 (Some x) code) as Herr.
  { intros a b c r. unfold decodeMutation. destruct (uuidPattern a); [|by intros [= <-]]. destruct (decodeStrict _ _) as [[reason code]|]; [|by intros [= <-]]. cbv zeta.
    destruct (_ || _); [by intros [= <-]|done]. }
  destruct rt; apply Hprot; intros p; unfold RetryNotification, RevokeSubscription, RecoverAccess;
    (destruct (decodeMutation _ _ _ _) as [[[target reason] code]|r] eqn:E; [|apply Hother; by eapply Herr]).
  - by apply triple_execute.
  - case_bool_decide; [by apply triple_execute|by apply Hother].
  - by apply triple_execute.
Qed.
End requests.
End admin_protocol.

(** ** What follows *)

(** C20: An action that is reported done, or recorded as succeeded, was carried
    out: whatever other requests, other processes of admin-service and the
    owners do meanwhile, a request only takes steps of the protocol; an answer
    200 reports an action whose row is final and says what the answer says;
    and a row that says succeeded has the answer of the owner, and the owner
    has on record that it did what was asked for under this very action. An
    action recorded as failed was definitively refused, with that code. *)
Theorem reported_actions_were_carried_out X answer dec `{!OwnerContract X answer dec} between env decode_mutation rt peer q w reply w' :
  relies between -> admin_inv (w_state w) -> serve answer dec between env decode_mutation rt peer q w = (reply, w') ->
  rtc admin_step (w_state w) (w_state w') /\
  (forall a code, reply = ActionReply 200 (Some a) code -> exists r m, actions (as_db (w_state w')) !! ac_ActionID a = Some r /\
     asks r m /\ ac_Status a = r_status r /\ final (r_status r) = true) /\
  (forall k r, actions (as_db (w_state w')) !! k = Some r -> r_status r = ActSucceeded -> exists m payload, asks r m /\
     r_result r = Some payload /\ validateSafeResult payload = true /\ carried_out m k (as_owners (w_state w'))) /\
  (forall k r, actions (as_db (w_state w')) !! k = Some r -> r_status r = ActFailed -> exists m e, asks r m /\
     Called k m (Err e) ∈ as_trace (w_state w') /\ oe_Definitive e = true /\ r_error_code r = Some (ownerErrorCode e)).
Proof.
  intros Hrely HI Hrun. destruct (triple_serve between Hrely env decode_mutation rt peer q w reply w' HI I Hrun) as [Hs Ht].
  pose proof (rtc_keeps _ _ Hs HI) as HI'. split_and!; [exact Hs|..].
  - intros a code E. destruct (Ht a code E) as (m & r & H). by exists r, m.
  - intros k r Hk Hst. destruct (ai_done _ HI' k r Hk) as [H _]. destruct (H Hst) as (v & Ev & Hsafe & m & Hm).
    destruct (ai_calls _ HI' _ _ _ Hm) as [[Hop _] Hc]. exists m, v. split_and!; [exact (opened_row _ _ _ _ Hop Hk)|done|done|exact (Hc _ eq_refl)].
  - intros k r Hk Hst. destruct (ai_done _ HI' k r Hk) as [_ H]. destruct (H Hst) as (c & Ec & m & e & Hm & Hd & ->).
    destruct (ai_calls _ HI' _ _ _ Hm) as [[Hop _] _]. exists m, e. split_and!; [exact (opened_row _ _ _ _ Hop Hk)|done..].
Qed.

(** C19: Owners act only on authority, and on the record: every call made on an
    owner belongs to an action whose row names that very operation, target
    and request; it was requested by a principal that was let in, whose roles
    grant the permission the operation needs; and before the call it was
    recorded in the trail that the action was accepted and attempted. Two calls for one action
    ask for the same thing. *)
Theorem owners_are_called_on_authority X answer dec `{!OwnerContract X answer dec} between env decode_mutation rt peer q w reply w' id m got :
  relies between -> admin_inv (w_state w) -> serve answer dec between env decode_mutation rt peer q w = (reply, w') ->
  Called id m got ∈ as_trace (w_state w') ->
  exists r, actions (as_db (w_state w')) !! id = Some r /\ asks r m /\ r_permission r = mutation_action m /\
    Authenticated (r_actor r) ∈ as_trace (w_state w') /\ Permissions (pr_Roles (r_actor r)) = Some (pr_Permissions (r_actor r)) /\
    mutation_action m ∈ pr_Permissions (r_actor r) /\
    (exists since before, log id (as_db (w_state w')) = since ++ [(AuAttempted, None)] ++ before ++ [(AuAccepted, None)]) /\
    (forall m' got', Called id m' got' ∈ as_trace (w_state w') -> mutation_action m' = mutation_action m /\
       uuid_text (mutation_target m') = uuid_text (mutation_target m) /\
       admin_request_hash (mutation_action m') (mutation_target m') (r_reason r) (mutation_code m') = r_request_sha256 r).
Proof.
  intros Hrely HI Hrun Hin. destruct (triple_serve between Hrely env decode_mutation rt peer q w reply w' HI I Hrun) as [Hs _].
  pose proof (rtc_keeps _ _ Hs HI) as HI'. destruct (ai_calls _ HI' _ _ _ Hin) as [[(r & Hr & Ha) Hlog] _].
  destruct (ai_rows _ HI' _ _ Hr) as (H1 & H2 & H3). pose proof Ha as (E1 & E2 & E3 & _). exists r.
  split_and!; [done|done|congruence|done|exact (ai_let_in _ HI' _ H1)|by rewrite <- E1| |].
  - destruct (logged_accepted _ _ _ _ (iv_log _ (ai_db _ HI') _ _ Hr)) as (tail & El & _). rewrite El in *.
    apply elem_of_app in Hlog as [Hlog|Hlog%list_elem_of_singleton]; [|done].
    apply list_elem_of_split in Hlog as (l1 & l2 & ->). exists l1, l2. by rewrite <- app_assoc.
  - intros m' got' Hin'. destruct (ai_calls _ HI' _ _ _ Hin') as [[Hop _] _]. pose proof (opened_row _ _ _ _ Hop Hr) as (F1 & F2 & F3 & _).
    split_and!; congruence.
Qed.
