(* ===== verification/AdminOwners.v ===== *)
(** * admin-service together with the services it administers

    subscription-, notification- and access-service, as the other files model
    them, meet the contract of [AdminJobs.v]: what admin-service reports as
    done is in their books. *)

From Stdlib Require Import Ascii List.
From S2P Require Import Prelude GoStrings Sha256 Backoff Platform GoText Jobs.
From S2P Require Import SubscriptionDomain SubscriptionStore SubscriptionSpec SubscriptionLifecycle SubscriptionService.
From S2P Require Import NotificationDomain NotificationStore NotificationInv NotificationSpec NotificationService.
From S2P Require Import AccessDomain AccessStore AccessInv AccessSteps AccessLifecycle AccessSpec AccessService.
From S2P Require Import AdminDomain AdminStore AdminSpec AdminService AdminJobs.

(** ** The three services side by side *)

Record owners := MkOwners {
  ow_subscription : SubscriptionStore.db;
  ow_notification : NotificationStore.db;
  ow_access : AccessStore.db
}.
Definition with_subscription d x := MkOwners d (ow_notification x) (ow_access x).
Definition with_notification d x := MkOwners (ow_subscription x) d (ow_access x).
Definition with_access d x := MkOwners (ow_subscription x) (ow_notification x) d.
(** Anything their stores do on behalf of others. *)
Inductive owners_step (x : owners) : owners -> Prop :=
  | StepSubscription o : owners_step x (with_subscription (snd (SubscriptionSpec.exec o (ow_subscription x))) x)
  | StepNotification o : NotificationSpec.allowed o -> owners_step x (with_notification (snd (NotificationSpec.exec o (ow_notification x))) x)
  | StepAccess o : AccessSpec.allowed o -> owners_step x (with_access (snd (AccessSpec.exec o (ow_access x))) x).
Definition owners_inv (x : owners) : Prop := NotificationInv.Inv (ow_notification x) /\ AccessInv.Inv (ow_access x).
Lemma owners_step_keeps x x' : owners_step x x' -> owners_inv x -> owners_inv x'.
Proof.
  intros [o|o Ho|o Ho] [Hn Ha]; split; cbn; try done.
  - by apply notif_exec_good.
  - by apply (acc_exec_good _ _ _ (acc_Good_refl _ Ha) Ho).
Qed.
Definition owners_protocol : Protocol owners := {| pstep := owners_step; pinv := owners_inv; pstep_keeps := owners_step_keeps |}.

(** ** Their handlers behind HTTP *)

(** The texts on the wire, and how the handlers read them. *)
Record wire := MkWire {
  wr_revoke : string -> string -> string -> string;
  wr_retry : string -> string;
  wr_recover : string -> string -> string;
  wr_revoked : AdminRevokeResult -> string;
  wr_retried : RetryReply -> string;
  wr_recovered : AdminRecoveryResult -> string;
  wr_problem : string -> string;
  rd_revoke : string -> option (string * string * string);
  rd_retry : string -> option string;
  rd_recover : string -> option (string * string)
}.
(** The handlers read what the client wrote. *)
Record wire_ok (w : wire) : Prop := {
  wk_revoke : forall a c code, rd_revoke w (wr_revoke w a c code) = Some (a, c, code);
  wk_retry : forall reason, rd_retry w (wr_retry w reason) = Some reason;
  wk_recover : forall a c, rd_recover w (wr_recover w a c) = Some (a, c)
}.
(** What the handlers draw. *)
Record owner_env := MkOwnerEnv { od_now : nat -> Z; od_event : nat -> string; od_random : nat -> nat -> list Z; od_pick : nat -> nat }.

Section handlers.
Context (w : wire) (env : owner_env).

Definition owner_key (actionID : string) : string := ("admin-" +:+ actionID)%string.
Definition serve_revoke (i : nat) (id code actionID correlationID : string) (d : SubscriptionStore.db) : (Z * string) * SubscriptionStore.db :=
  match http_AdminRevoke (rd_revoke w) (od_now env i) (od_event env i) id (owner_key actionID) (wr_revoke w actionID correlationID code) d with
  | (OK r, d') => ((200, wr_revoked w r), d')
  | (Failure status code, d') => ((status, wr_problem w code), d')
  end.
Definition serve_retry (i : nat) (id reason actionID : string) (d : NotificationStore.db) : (Z * string) * NotificationStore.db :=
  let '(r, w') := http_RetryNotification (fun _ s => s) (fun _ => Up) (fun _ => od_now env i) (rd_retry w) id (owner_key actionID)
                    (wr_retry w reason) (MkWorld 0 (MkSys d [])) in
  (match r with
   | NotificationService.Reply status body => (status, wr_retried w body)
   | NotificationService.Problem status code => (status, wr_problem w code)
   end, s_db (w_state w')).
Definition access_env (i : nat) : svc_env :=
  MkEnv (fun _ d => d) (fun _ => Up) (fun _ => od_now env i) (fun _ => od_pick env i) (fun _ => od_random env i) (fun _ => od_event env i).
Definition serve_recover (i : nat) (id actionID correlationID : string) (d : AccessStore.db) : (Z * string) * AccessStore.db :=
  let '(r, w') := http_RecoverProvisioning (access_env i) (rd_recover w) id (owner_key actionID)
                    (wr_recover w actionID correlationID) (MkWorld 0 d) in
  (match r with
   | AccessService.Reply status body => (status, wr_recovered w body)
   | AccessService.Problem status code => (status, wr_problem w code)
   end, w_state w').
Definition owners_answer (i : nat) (m : mutation) (actionID correlationID : string) (x : owners) : (Z * string) * owners :=
  match m with
  | RevokeOf id code => let '(r, d) := serve_revoke i id code actionID correlationID (ow_subscription x) in (r, with_subscription d x)
  | RetryOf id reason => let '(r, d) := serve_retry i id reason actionID (ow_notification x) in (r, with_notification d x)
  | RecoverOf id => let '(r, d) := serve_recover i id actionID correlationID (ow_access x) in (r, with_access d x)
  end.

(** ** What their books say *)

Definition booked (m : mutation) (actionID : string) (x : owners) : Prop :=
  let key := TrimSpace (owner_key actionID) in
  match m with
  | RevokeOf id code => exists row, SubscriptionStore.admin_revoke_requests (ow_subscription x) !! key = Some row /\
      a_subscription_id row = TrimSpace id /\ a_reason_code row = TrimSpace code
  | RetryOf id reason => NotificationStore.admin_requests (ow_notification x) !! key =
      Some (MkAdmin (retry_hash (TrimSpace id) (TrimSpace reason)) (TrimSpace id))
  | RecoverOf id => exists row, AccessStore.recoveries (ow_access x) !! key = Some row /\ rc_credential_id row = TrimSpace id
  end.
Lemma booked_stays m a x x' : owners_inv x -> owners_step x x' -> booked m a x -> booked m a x'.
Proof.
  intros [Hn Ha] [o|o Ho|o Ho]; destruct m; cbn; try done.
  - intros (row & Hr & H). exists row. split; [|done]. by apply (exec_revoke_recorded _ row).
  - intros H. eapply lookup_weaken; [exact H|]. by apply notif_exec_good.
  - intros (row & Hr & H). exists row. split; [|done]. eapply lookup_weaken; [exact Hr|].
    by apply (acc_exec_good _ _ _ (acc_Good_refl _ Ha) Ho).
Qed.
End handlers.

(** ** They meet the contract *)

Lemma client_success dec m status body payload : client dec m (Some (status, Some body)) = Ok payload -> 200 <= status < 300.
Proof.
  assert (forall A (decode : string -> option A) a, owner_do decode (Some (status, Some body)) = Ok a -> 200 <= status < 300) as H.
  { intros A decode a. unfold owner_do. destruct (_ <? _); [done|]. destruct (_ || _) eqn:E; [done|]. intros _.
    apply orb_false_iff in E. lia. }
  assert (forall A (fits : A -> bool) r f, mapped f (fitting fits r) = Ok payload -> exists a, r = Ok a) as Hm.
  { intros A fits [a|e] f; [by exists a|done]. }
  destruct m; intros [a E]%Hm; by eapply H.
Qed.
Section contract.
Context (w : wire) (Hw : wire_ok w) (env : owner_env).

(** Each handler makes one call on its store. *)
Lemma serve_revoke_does i id code a c d status body d' : serve_revoke w env i id code a c d = ((status, body), d') ->
  (d' = d \/ exists o, d' = snd (SubscriptionSpec.exec o d)) /\
  (200 <= status < 300 -> exists row, SubscriptionStore.admin_revoke_requests d' !! TrimSpace (owner_key a) = Some row /\
     a_subscription_id row = TrimSpace id /\ a_reason_code row = TrimSpace code).
Proof.
  unfold serve_revoke, http_AdminRevoke. cbv zeta. destruct (_ || _); [intros [= <- _ <-]; split; [by left|lia]|].
  unfold SubscriptionService.decodeStrict. destruct (_ <? _); [intros [= <- _ <-]; split; [by left|lia]|]. rewrite (wk_revoke _ Hw).
  destruct (_ || _); [intros [= <- _ <-]; split; [by left|lia]|].
  set (input := MkRevokeInput _ _ _ _ _ _). destruct (AdminRevoke _ _ input d) as [r d1] eqn:E.
  assert (d1 = snd (SubscriptionSpec.exec (SubscriptionSpec.OpAdminRevoke (od_now env i) (od_event env i) input) d)) as Hex by
    (cbn; unfold SubscriptionSpec.outcome; by rewrite E).
  destruct r as [r|[]]; intros [= <- _ <-]; (split; [right; by eexists|]); try lia.
  intros _. apply AdminRevoke_records in E as (row & Hrow & _ & E1 & E2). by exists row.
Qed.
Lemma serve_retry_does i id reason a d status body d' : serve_retry w env i id reason a d = ((status, body), d') ->
  (d' = d \/ exists o, NotificationSpec.allowed o /\ d' = snd (NotificationSpec.exec o d)) /\
  (200 <= status < 300 -> NotificationStore.admin_requests d' !! TrimSpace (owner_key a) =
     Some (MkAdmin (retry_hash (TrimSpace id) (TrimSpace reason)) (TrimSpace id))).
Proof.
  unfold serve_retry, http_RetryNotification, mbind, job_bind, mret, job_ret. cbv zeta.
  destruct (_ || _); [intros [= <- _ <-]; split; [by left|lia]|].
  unfold NotificationService.decodeStrict. destruct (_ <? _); [intros [= <- _ <-]; split; [by left|lia]|]. rewrite (wk_retry _ Hw).
  destruct (_ || _); [intros [= <- _ <-]; split; [by left|lia]|].
  unfold call_store, call. cbn [w_step w_state s_db]. destruct (in_tx _ d) as [r d1] eqn:E. cbn [w_state s_db].
  assert (d1 = snd (NotificationSpec.exec (NotificationSpec.OpRequestRetry (od_now env i) (TrimSpace id) (TrimSpace (owner_key a))
    (retry_hash (TrimSpace id) (TrimSpace reason))) d)) as Hex by
    (cbn [NotificationSpec.exec]; unfold NotificationSpec.outcome; rewrite E; by destruct r).
  destruct r as [[job replay]|[]]; intros [= <- _ <-]; (split; [right; eexists; split; [|exact Hex]; exact I|]); try lia.
  intros _. unfold in_tx in E. destruct (RequestRetry _ _ _ _ _) as [[x|e] t'] eqn:Er; [|done]. injection E as _ <-.
  apply RequestRetry_ok in Er as (d2 & H & Ht). cbn [working] in H.
  assert (durable t' = d2) as -> by (destruct Ht as [->|[-> ->]]; done).
  destruct H as [[h k] j Hr E1 E2 _|j Hr _ _ _]; cbn in *; [by subst|apply lookup_insert_eq].
Qed.
Lemma serve_recover_does i id a c d status body d' : AccessInv.Inv d -> serve_recover w env i id a c d = ((status, body), d') ->
  (d' = d \/ exists o, AccessSpec.allowed o /\ d' = snd (AccessSpec.exec o d)) /\
  (200 <= status < 300 -> exists row, AccessStore.recoveries d' !! TrimSpace (owner_key a) = Some row /\ rc_credential_id row = TrimSpace id).
Proof.
  intros HI. unfold serve_recover, http_RecoverProvisioning, mbind, job_bind, mret, job_ret. cbv zeta.
  destruct (_ || _); [intros [= <- _ <-]; split; [by left|lia]|].
  unfold AccessService.decodeStrictJSON. destruct (_ <? _); [intros [= <- _ <-]; split; [by left|lia]|]. rewrite (wk_recover _ Hw).
  destruct (_ || _); [intros [= <- _ <-]; split; [by left|lia]|].
  unfold service_RecoverProvisioning, random, AccessService.do, AccessService.store, mbind, job_bind, mret, job_ret, call_store, call.
  cbn [w_step w_state sv_link sv_between access_env]. set (input := MkRecoveryInput _ _ _ _ _ _).
  destruct (in_tx _ d) as [r d1] eqn:E. cbn [w_state].
  assert (d1 = snd (AccessSpec.exec (AccessSpec.OpRecover (od_now env i) (od_event env i) input) d)) as Hex by
    (cbn [AccessSpec.exec]; rewrite acc_outcome_snd; cbn [sv_now sv_draw access_env] in E; by rewrite E).
  destruct r as [r|[]]; intros [= <- _ <-]; (split; [right; eexists; split; [|exact Hex]; exact I|]); try lia.
  intros _. unfold in_tx in E. destruct (RecoverProvisioning _ _ _ _) as [[x|e] t'] eqn:Er; [|done]. injection E as _ <-.
  apply RecoverProvisioning_ok in Er as (d2 & H & ->); [|done]. cbn [working durable] in *.
  destruct H as [row Hr E1 E2|cr Hr _ _ _ _ _ _]; [by exists row|]. exists (recovery_row_of input cr). split; [|done].
  cbn. apply lookup_insert_eq.
Qed.
Lemma owners_answer_step i m a c x : owners_inv x -> rtc owners_step x (snd (owners_answer w env i m a c x)).
Proof.
  intros [Hn Ha]. destruct x as [s n acc], m as [id reason|id code|id]; cbn [owners_answer ow_subscription ow_notification ow_access] in *.
  - destruct (serve_retry _ _ _ _ _ _ _) as [[st body] d'] eqn:E. destruct (serve_retry_does _ _ _ _ _ _ _ _ E) as [[->|(o & Ho & ->)] _]; cbn;
      [apply rtc_refl|]. by apply rtc_once, (StepNotification (MkOwners s n acc)).
  - destruct (serve_revoke _ _ _ _ _ _ _ _) as [[st body] d'] eqn:E. destruct (serve_revoke_does _ _ _ _ _ _ _ _ _ E) as [[->|(o & ->)] _]; cbn;
      [apply rtc_refl|]. apply rtc_once, (StepSubscription (MkOwners s n acc)).
  - destruct (serve_recover _ _ _ _ _ _ _) as [[st body] d'] eqn:E.
    destruct (serve_recover_does _ _ _ _ _ _ _ _ Ha E) as [[->|(o & Ho & ->)] _]; cbn; [apply rtc_refl|].
    by apply rtc_once, (StepAccess (MkOwners s n acc)).
Qed.
Lemma owners_answer_booked dec i m a c x status body x' payload : owners_inv x -> owners_answer w env i m a c x = ((status, body), x') ->
  client dec m (Some (status, Some body)) = Ok payload -> booked m a x'.
Proof.
  intros [_ Ha] E Hs%client_success. destruct m as [id reason|id code|id]; cbn [owners_answer] in E.
  - destruct (serve_retry _ _ _ _ _ _ _) as [r d'] eqn:E1. injection E as -> <-. by apply serve_retry_does in E1 as [_ H]; apply H.
  - destruct (serve_revoke _ _ _ _ _ _ _ _) as [r d'] eqn:E1. injection E as -> <-. by apply serve_revoke_does in E1 as [_ H]; apply H.
  - destruct (serve_recover _ _ _ _ _ _ _) as [r d'] eqn:E1. injection E as -> <-. by apply serve_recover_does in E1 as [_ H]; [apply H|].
Qed.
Definition owners_contract dec : OwnerContract owners (owners_answer w env) dec := {|
  oc_protocol := owners_protocol;
  carried_out := booked;
  oc_step := owners_answer_step;
  oc_stable := fun m a x x' HI Hs => booked_stays m a x x' HI Hs;
  oc_accepts := owners_answer_booked dec
|}.
End contract.

(** C18: Across the services: when admin-service runs against subscription-,
    notification- and access-service, an action recorded as succeeded is in
    the books of the service that owns its target, under the key of this very
    action: the revocation of that subscription for that reason, the retry of
    that notification, the recovery of that credential; whatever calls fail,
    whatever answers are lost, and whatever else the services do meanwhile.
    What is recorded holds nothing that looks like a secret of the owner's: no
    field anywhere in it has a forbidden name, and no text anywhere in it holds
    a VLESS link or the path of a subscription URL. *)
Theorem succeeded_actions_are_booked w (Hw : wire_ok w) oenv dec between env decode_mutation rt peer q v reply v' k r :
  @relies _ (@admin_service_protocol _ _ _ (owners_contract w Hw oenv dec)) between ->
  @admin_inv _ _ _ (owners_contract w Hw oenv dec) (w_state v) ->
  serve (owners_answer w oenv) dec between env decode_mutation rt peer q v = (reply, v') ->
  actions (as_db (w_state v')) !! k = Some r -> r_status r = ActSucceeded ->
  exists m payload, asks r m /\ booked m k (as_owners (w_state v')) /\ r_result r = Some payload /\
    (forall fields key x, inside (JObject fields) payload -> (key, x) ∈ fields -> ToLower key ∉ forbiddenKeys) /\
    (forall text, inside (JString text) payload ->
       Contains (ToLower text) "vless://" = false /\ Contains (ToLower text) "/s/" = false).
Proof.
  intros Hrely HI Hrun Hk Hst.
  destruct (@triple_serve _ _ _ (owners_contract w Hw oenv dec) between Hrely env decode_mutation rt peer q v reply v' HI I Hrun) as [Hs _].
  pose proof (@rtc_keeps _ (@admin_service_protocol _ _ _ (owners_contract w Hw oenv dec)) _ _ Hs HI) as HI'.
  destruct (ai_done _ HI' k r Hk) as [H _]. destruct (H Hst) as (payload & Ev & Hsafe & m & Hm).
  destruct (ai_calls _ HI' _ _ _ Hm) as [[Hop _] Hc]. exists m, payload.
  split_and!; [exact (opened_row _ _ _ _ Hop Hk)|exact (Hc _ eq_refl)|done|apply (validated_is_safe _ Hsafe)..].
Qed.
