(* ===== verification/AdminDemo.v ===== *)
(** * admin-service: runs

    An administrator revokes a subscription of subscription-service, with and
    without a lost answer on the way. *)

From Stdlib Require Import Ascii List.
From S2P Require Import Prelude GoStrings Sha256 Backoff Platform GoText Jobs.
From S2P Require Import SubscriptionDomain SubscriptionStore SubscriptionSpec.
From S2P Require Import NotificationStore NotificationInv AccessStore AccessInv.
From S2P Require Import AdminDomain AdminStore AdminSpec AdminService AdminJobs AdminOwners.

Module AdminRuns.

(** ** Texts on the wire: every byte marked, and an end *)

Fixpoint quote (s : string) : string :=
  match s with EmptyString => String "." EmptyString | String c s' => String "x" (String c (quote s')) end.
Fixpoint unquote (s : string) : option (string * string) :=
  match s with
  | String "." rest => Some (EmptyString, rest)
  | String "x" (String c s') => '(a, rest) ← unquote s'; Some (String c a, rest)
  | _ => None
  end.
Lemma unquote_quote s rest : unquote (quote s +:+ rest) = Some (s, rest).
Proof. induction s as [|c s IH]; simpl; [done|]. by rewrite IH. Qed.
Lemma unquote_quote_end s : unquote (quote s) = Some (s, EmptyString).
Proof. induction s as [|c s IH]; simpl; [done|]. by rewrite IH. Qed.
Definition demo_wire : wire := {|
  wr_revoke := fun a c code => (quote a +:+ (quote c +:+ quote code))%string;
  wr_retry := quote;
  wr_recover := fun a c => (quote a +:+ quote c)%string;
  wr_revoked := fun _ => "revoked"%string;
  wr_retried := fun _ => "retried"%string;
  wr_recovered := fun _ => "recovered"%string;
  wr_problem := fun code => code;
  rd_revoke := fun s => '(a, s1) ← unquote s; '(c, s2) ← unquote s1; '(code, _) ← unquote s2; Some (a, c, code);
  rd_retry := fun s => fst <$> unquote s;
  rd_recover := fun s => '(a, s1) ← unquote s; '(c, _) ← unquote s1; Some (a, c)
|}.
Lemma demo_wire_ok : wire_ok demo_wire.
Proof.
  split; intros; cbn [demo_wire rd_revoke wr_revoke rd_retry wr_retry rd_recover wr_recover mbind option_bind];
    rewrite ?unquote_quote; cbn [mbind option_bind]; rewrite ?unquote_quote; cbn [mbind option_bind]; by rewrite unquote_quote_end.
Qed.

(** ** The world before *)

Definition subscription_id : string := "00000000-0000-4000-8000-000000000051".
Definition paid_subscription : SubscriptionSpec.op :=
  OpPayment day subscription_id "per1" "out-pay1" (sample_meta "p1" 0 "billing.payment.succeeded.v1") (sample_payment "1" day)
    (sample_order "ord1").
Definition demo_owners : owners :=
  Eval vm_compute in MkOwners (SubscriptionSpec.exec_all [paid_subscription] SubscriptionStore.empty_db) NotificationStore.empty_db AccessStore.empty_db.
Definition alice : string := "spiffe://vpn-service/ns/local/admin/alice".
Definition demo_seeds : list PrincipalSeed := [MkSeed alice "Alice" true ["operations"%string]].
Definition staffed : AdminStore.db := Eval vm_compute in snd (AdminSpec.exec (OpBootstrap demo_seeds) AdminStore.empty_db).
Definition before_all : asys owners := MkAdminSys staffed demo_owners [].
Definition demo_oenv : owner_env := MkOwnerEnv (fun _ => 2 * day) (fun _ => "out-revoke"%string) (fun _ _ => []) (fun _ => O).
Definition only {A} (text : string) (a : A) (s : string) : option A := if bool_decide (s = text) then Some a else None.
Definition demo_dec : owner_decoders := {|
  dec_retry := fun _ => None;
  dec_revoke := only "revoked" (MkSubscriptionRevoke subscription_id "revoked" "abuse" false);
  dec_recovery := fun _ => None;
  dec_view := fun _ _ => None;
  dec_readiness := fun _ => None;
  dec_version := fun _ => None
|}.
(** Identifiers grow from a seed; [lost] says whether the owner's answer is lost. *)
Definition demo_env (seed : Z) (lost : bool) : admin_env :=
  MkAdminEnv (fun _ => Up) (fun _ => if lost then Lost else Up) (fun i => 2 * day + seed * second + Z.of_nat i) (repeat seed 16)
    (repeat (seed + 1) 16) (repeat (seed + 2) 16) (fun i => seed :: repeat (100 + Z.of_nat i) 15).
Definition alone (i : nat) (s : asys owners) : asys owners := s.
Definition alice_peer : peer := MkPeer true (Some (alice, "alice"%string)).
Definition the_request (body : string) : mutation_request := MkMutationRequest subscription_id "revoke-0001" "req-00000001" body.
Definition revoke_run (seed : Z) (lost : bool) (body : string) (w : world (asys owners)) : reply * world (asys owners) :=
  serve (owners_answer demo_wire demo_oenv) demo_dec alone (demo_env seed lost) (fun s => Some (s, "abuse"%string)) RevokeRoute alice_peer
    (the_request body) w.
Definition reason : string := "abuse reported by a user".

(** ** Runs *)

Definition demo_contract : OwnerContract owners (owners_answer demo_wire demo_oenv) demo_dec := owners_contract demo_wire demo_wire_ok demo_oenv demo_dec.
Lemma alone_keeps : @relies _ (@admin_service_protocol _ _ _ demo_contract) alone.
Proof. intros i s _. apply rtc_refl. Qed.
Lemma before_inv : @admin_inv _ _ _ demo_contract before_all.
Proof.
  split; cbn [before_all as_db as_owners as_trace].
  - change staffed with (snd (AdminSpec.exec (OpBootstrap demo_seeds) AdminStore.empty_db)). apply admin_exec_good, Inv_empty_admin.
  - split; [apply notif_Inv_empty|apply access_Inv_empty].
  - by intros p ?%elem_of_nil.
  - by intros k r H.
  - by intros id m r ?%elem_of_nil.
  - by intros k r H.
Qed.
Definition start : world (asys owners) := MkWorld 0 before_all.
Definition run_once := Eval vm_compute in revoke_run 1 false reason start.
Definition run_lost := Eval vm_compute in revoke_run 1 true reason start.
Definition w_revoked : world (asys owners) := Eval vm_compute in snd run_once.
Definition w_lost : world (asys owners) := Eval vm_compute in snd run_lost.
Definition run_again := Eval vm_compute in revoke_run 9 false reason w_lost.
Definition w_again : world (asys owners) := Eval vm_compute in snd run_again.
Definition run_other := Eval vm_compute in revoke_run 5 false "another reason" w_revoked.
Definition run_short := Eval vm_compute in revoke_run 1 false "Я!" start.
Lemma once_run : revoke_run 1 false reason start = run_once.
Proof. evaluates. Qed.
Lemma lost_run : revoke_run 1 true reason start = run_lost.
Proof. evaluates. Qed.
Lemma again_run : revoke_run 9 false reason w_lost = run_again.
Proof. evaluates. Qed.
Lemma other_run : revoke_run 5 false "another reason" w_revoked = run_other.
Proof. evaluates. Qed.
Lemma short_run : revoke_run 1 false "Я!" start = run_short.
Proof. evaluates. Qed.
Definition the_action : string := RandomUUID (repeat 1 16).
Definition status_of (r : reply) : Z := match r with Problem s _ | ActionReply s _ _ => s | _ => 200 end.
Definition code_of (r : reply) : option string := match r with Problem _ c => Some c | ActionReply _ _ c => c | _ => None end.

Example revoked_once : status_of (fst run_once) = 200 /\
  (r_status <$> actions (as_db (w_state w_revoked)) !! the_action) = Some ActSucceeded /\
  (s_status <$> subscriptions (ow_subscription (as_owners (w_state w_revoked))) !! subscription_id) = Some Revoked /\
  length (as_trace (w_state w_revoked)) = 2%nat.
Proof. vm_compute. done. Qed.
(** The answer of the owner is lost; the same request again finds out, under
    the key of the same action, and the owner revokes once. *)
Example lost_answer_is_recovered :
  (status_of (fst run_lost), code_of (fst run_lost)) = (502, Some "owner_outcome_unknown"%string) /\
  status_of (fst run_again) = 200 /\
  log the_action (as_db (w_state w_again)) = [(AuSucceeded, None); (AuRetrying, None); (AuOutcomeUnknown, Some "owner_unavailable"%string);
    (AuAttempted, None); (AuAccepted, None)] /\
  size (SubscriptionStore.admin_revoke_requests (ow_subscription (as_owners (w_state w_again)))) = 1%nat.
Proof. vm_compute. done. Qed.
(** Another request under the same key is refused, and leaves no trace but
    that somebody was let in. *)
Example other_reason_conflicts : code_of (fst run_other) = Some "idempotency_conflict"%string /\
  as_db (w_state (snd run_other)) = as_db (w_state w_revoked).
Proof. vm_compute. done. Qed.
(** The handler measures a reason in bytes, the table in characters: a reason
    of three bytes and two characters fails in the store, as if the owner did. *)
Example short_reason_fails : (status_of (fst run_short), code_of (fst run_short)) = (502, Some "owner_operation_failed"%string) /\
  actions (as_db (w_state (snd run_short))) = ∅.
Proof. vm_compute. done. Qed.

(** A target written with a capital letter comes back in lower case: the very
    same request is then taken for another one. *)
Definition capital_input : ActionInput :=
  MkActionInput the_action (MkPrincipal alice "alice" ["operations"] ["subscription.revoke"]) "subscription.revoke" "subscription.revoke"
    "subscription" "0000000A-0000-4000-8000-000000000051" reason "abuse" (sha256_hex "revoke-0001") (sha256_hex "request")
    "req-00000001" the_action.
Definition begin_capital (auditID : string) (d : AdminStore.db) : Prelude.result AdminErr (Action * bool) * AdminStore.db :=
  in_tx (BeginAction (2 * day) auditID capital_input) d.
Example capital_target_conflicts :
  let '(first, d) := begin_capital "00000000-0000-4000-8000-0000000000a1" staffed in
  (exists a, first = Ok (a, false)) /\ fst (begin_capital "00000000-0000-4000-8000-0000000000a2" d) = Err ErrIdempotencyConflict.
Proof. vm_compute. split; [by eexists|done]. Qed.

(** ** Witnesses *)

Lemma again_inv : @admin_inv _ _ _ demo_contract (w_state w_lost).
Proof.
  assert (revoke_run 1 true reason start = (fst run_lost, w_lost)) as Hrun by exact lost_run.
  destruct (@triple_serve _ _ _ demo_contract alone alone_keeps _ _ _ _ _ start _ _ before_inv I Hrun) as [Hs _].
  exact (@rtc_keeps _ (@admin_service_protocol _ _ _ demo_contract) _ _ Hs before_inv).
Qed.
Definition no_row : action_row := new_action 0 (MkActionInput "" (MkPrincipal "" "" [] []) "" "" "" "" "" "" "" "" "" "").
Definition the_row : action_row := Eval vm_compute in default no_row (actions (as_db (w_state w_again)) !! the_action).
Lemma the_row_found : actions (as_db (w_state w_again)) !! the_action = Some the_row.
Proof. vm_compute. reflexivity. Qed.
Lemma the_action_is_ended : r_status the_row = ActSucceeded.
Proof. vm_compute. reflexivity. Qed.

Lemma succeeded_actions_are_booked_witness :
  exists m payload, asks the_row m /\ booked m the_action (as_owners (w_state w_again)) /\ r_result the_row = Some payload /\
    (forall fields key x, inside (JObject fields) payload -> (key, x) ∈ fields -> ToLower key ∉ forbiddenKeys) /\
    (forall text, inside (JString text) payload ->
       Contains (ToLower text) "vless://" = false /\ Contains (ToLower text) "/s/" = false).
Proof.
  exact (succeeded_actions_are_booked demo_wire demo_wire_ok demo_oenv demo_dec alone (demo_env 9 false) _ RevokeRoute alice_peer
    (the_request reason) w_lost _ w_again the_action the_row alone_keeps again_inv again_run the_row_found the_action_is_ended).
Defined.
Lemma reported_actions_were_carried_out_witness :
  exists r, actions (as_db (w_state w_again)) !! the_action = Some r /\ r_status r = ActSucceeded /\
    exists m payload, asks r m /\ r_result r = Some payload /\ booked m the_action (as_owners (w_state w_again)).
Proof.
  destruct (@reported_actions_were_carried_out owners _ demo_dec demo_contract alone (demo_env 9 false) _ RevokeRoute alice_peer
    (the_request reason) w_lost (fst run_again) w_again alone_keeps again_inv again_run) as (_ & _ & H & _).
  exists the_row. split; [exact the_row_found|]. split; [exact the_action_is_ended|].
  destruct (H the_action the_row the_row_found the_action_is_ended) as (m & payload & H1 & H2 & _ & H3).
  exists m, payload. exact (conj H1 (conj H2 H3)).
Defined.
Definition the_answer : Prelude.result OwnerError json :=
  Ok (json_of_revoke (MkSubscriptionRevoke subscription_id "revoked" "abuse" false)).
Lemma owners_are_called_on_authority_witness :
  exists r, actions (as_db (w_state w_again)) !! the_action = Some r /\ "subscription.revoke"%string ∈ pr_Permissions (r_actor r).
Proof.
  destruct (@owners_are_called_on_authority owners _ demo_dec demo_contract alone (demo_env 9 false) _ RevokeRoute alice_peer
    (the_request reason) w_lost _ w_again the_action (RevokeOf subscription_id "abuse") the_answer alone_keeps again_inv again_run)
    as (r & H1 & _ & _ & _ & _ & H2 & _).
  - unfold the_answer. vm_compute. left.
  - exists r. exact (conj H1 H2).
Defined.
Definition revoked_ops : list AdminSpec.op :=
  [OpBootstrap demo_seeds; OpBegin (2 * day) "00000000-0000-4000-8000-0000000000a1"
    (MkActionInput the_action (MkPrincipal alice "alice" ["operations"] ["subscription.revoke"]) "subscription.revoke" "subscription.revoke"
       "subscription" subscription_id reason "abuse" (sha256_hex "revoke-0001") (sha256_hex "request") "req-00000001" the_action)%string].
(** More than a year later the retention job runs. *)
Definition retained_ops : list AdminSpec.op := (revoked_ops ++ [OpRetention (400 * day) 365 100 ∅])%list.
Definition retained_db : AdminStore.db := Eval vm_compute in AdminSpec.exec_all retained_ops AdminStore.empty_db.
Definition accepted_row : action_row := Eval vm_compute in default no_row (actions retained_db !! the_action).
Example entry_forgotten : audit retained_db = [] /\ length (history retained_db) = 1%nat /\
  length (audit (AdminSpec.exec_all revoked_ops AdminStore.empty_db)) = 1%nat.
Proof. vm_compute. done. Qed.
Lemma audit_tells_the_whole_story_witness :
  let d := AdminSpec.exec_all retained_ops AdminStore.empty_db in
  actions d !! the_action = Some accepted_row /\ logged ActPending 0 None (log the_action d) /\
  since (35 * day) (audit d) = since (35 * day) (history d).
Proof.
  assert (Forall (forgets_before (35 * day)) retained_ops) as Hl.
  { repeat constructor. vm_compute. discriminate. }
  destruct (audit_tells_the_whole_story retained_ops (35 * day) Hl) as (H1 & _ & _ & H2 & _).
  assert (actions (AdminSpec.exec_all retained_ops AdminStore.empty_db) !! the_action = Some accepted_row) as Hk by (vm_compute; reflexivity).
  split; [exact Hk|]. split; [exact (proj1 (H1 the_action accepted_row Hk))|exact H2].
Defined.
End AdminRuns.
